(* ===== verification/_CoqProject ===== *)
-Q . S2P
Prelude.v
GoStrings.v
AccessTiers.v
Base64.v
Crypto.v
ArchiveQueue.v
ArchiveDispatcher.v
Json.v
JsonDecode.v
Profiles.v
Users.v
Sessions.v
WebAuth.v
Identity.v
Runs.v
OAuthProvider.v
DeviceAuth.v
Mcp.v
Servers.v
Middleware.v
Optimizer.v
Proxy.v
ToolOptimize.v
Enumerate.v
ServerManager.v
HealthMonitor.v
RateLimit.v
ServerApi.v
GoPath.v
Skills.v
Subhash.v
SkillService.v
SkillChecker.v
SkillsApi.v
MemoryStore.v
MemoryService.v
MemoryParser.v
ExtractText.v
Extractor.v
ExtractPass.v
MemoryApi.v
Recipes.v
RecipeService.v
RecipesApi.v
RecipeSync.v
FileTree.v
Hoare.v
SkillSync.v
MemoryWatch.v
ProjectTargets.v
ServerSync.v
ProjectRoot.v
Activity.v
SkillPages.v
RecipePages.v
RequestLogs.v
ServerForm.v
Threads.v
OAuthClient.v
SingleFlight.v
OAuthFlow.v
Transports.v
MiddlewarePages.v
ProfilePages.v
ServerPages.v
SafeFile.v
MemoryRecall.v
Catalog.v
DbSetup.v
RelayConfig.v
DockerManager.v
RelayClient.v
SkillPublish.v
