(* ===== verification/Prelude.v ===== *)
(** * Arc Relay: a verification library

    Arc Relay ([src/cmd/arc-relay], [src/internal]) is a control plane for MCP servers:
    clients authenticate with API keys or OAuth tokens, the relay decides by agent profile
    or access tier what they may call, runs a per-server pipeline of middlewares around
    every call, forwards it to a backend, and archives the traffic through a durable queue
    to a compliance endpoint.  Everything it remembers is in one SQLite database.

    ** The files

    - [Prelude]: results, the database monad with faults, time, tactics and the hint
      database [relay], stable sorting, lemmas on finite maps and on invariants of
      database programs.
    - [GoStrings]: the functions of Go's [strings] the code calls, on byte strings.
    - [AccessTiers]: [mcp/classify.go] (module [Classify]) and [store/access.go] (module
      [Access]): how endpoints get tiers and how tiers are checked.
    - [Base64], [Crypto]: [encoding/base64] and [store/crypto.go]: configuration at rest.
    - [ArchiveQueue], [ArchiveDispatcher]: [store/archive_queue.go],
      [middleware/archive_dispatcher.go], [middleware/archive_encrypt.go] and the
      configuration checks of [middleware/archive.go]: the delivery queue and its worker
      with the circuit breaker.
    - [Json], [JsonDecode]: the part of [encoding/json] that matters here (parser, printer,
      decoding of objects into structs), with the round trip.
    - [Profiles], [Users], [Sessions]: [store/profiles.go], [store/users.go],
      [store/invites.go], [store/sessions.go], [store/oauth_tokens.go],
      [store/oauth_clients.go].  [Users.State] is the identity database; the stores of
      [Sessions] work on it.
    - [WebAuth]: login, CSRF, invites, passwords, users and keys of [web/handlers.go], the
      bearer middlewares of [server/middleware.go], and the per-IP limiter.
    - [Identity]: the identity operations run in any order, with the invariants and the
      safety properties of whole runs.
    - [Runs], [OAuthProvider], [DeviceAuth]: runs of a system of handlers, and the two
      state machines that hand out credentials: [web/oauth_provider.go] and
      [web/device_auth.go].
    - [Mcp], [Servers], [Middleware], [Optimizer]: [mcp/protocol.go], [store/servers.go],
      [store/middleware.go] with the pipeline, the registry and the built-in middlewares of
      [src/internal/middleware], and the optimized tool lists.
    - [Proxy]: [handleMCPProxy] of [server/http.go], where all of these meet.
    - [ToolOptimize], [Enumerate]: [mcp/optimize.go] and [mcp/enumerate.go].
    - [ServerManager], [HealthMonitor], [ServerApi], [RateLimit]: [proxy/proxy.go],
      [proxy/health.go], the management endpoints of [server/http.go] and
      [server/ratelimit.go].
    - [GoPath]: the functions of [path/filepath] the code calls, and decoding of runes.
    - [Skills], [Subhash], [SkillService], [SkillChecker], [SkillsApi]: [store/skills.go], the
      directory digest of [skills/subhash], [skills/service.go], [skills/checker] and
      [web/skills_handlers.go].
    - [MemoryStore], [MemoryService], [MemoryParser], [MemoryApi]: transcripts: the tables of
      [src/migrations-memory], [memory/service.go], the Claude Code parser of [memory/parser],
      [web/memory_handlers.go] and [web/memory_dashboard.go].
    - [ExtractText], [Extractor], [ExtractPass]: [memory/extractor]: filter, chunks, categories and
      agent ids; the rate limit, the pass, the queue and the cron cycle; and what passes
      guarantee.
    - [Recipes], [RecipeService], [RecipesApi]: [store/recipes.go], [recipes/service.go] and
      [web/recipes_handlers.go]: setup recipes and who they reach.
    - [Activity], [SkillPages], [RecipePages]: the landing page of [web/handlers.go] with the
      activity feed of [web/dashboard_activity.go], and the pages of
      [web/skills_dashboard.go] and [web/recipes_dashboard.go].
    - [RequestLogs]: [store/request_logs.go] and the log page.
    - [ServerForm]: the form of [web/handlers.go] that creates and edits servers.
    - [MiddlewarePages], [ProfilePages], [ServerPages]: the administration pages of
      [web/handlers.go]: middlewares, the archive and its hand-off ([web/archive_handoff.go]);
      profiles, keys and users; servers and everything their buttons do.
    - [Threads]: goroutines as trees of events that interleave, with a logic of ownership;
      [OAuthClient]: [oauth/oauth.go], [oauth/discovery.go] and the pages of a flow on top of it,
      with [SingleFlight] about their interleavings and [OAuthFlow] about a flow that runs alone.
    - [Transports]: [proxy/sse.go], [proxy/http_proxy.go], [proxy/remote_proxy.go] and
      [proxy/stdio_bridge.go].
    - [MemoryRecall]: the two ways to ask for transcripts, the MCP tools of [mcp/memory/server.go] and
      the commands of [cli/sync/memory_search.go].
    - [Catalog]: [catalog/catalog.go], the search of the public registry.
    - [DbSetup], [RelayConfig], [DockerManager]: what the relay starts from: [store/db.go] with its
      migrations and backups, [config/config.go] with what [src/cmd/arc-relay] derives from it,
      and the containers and images of [docker/manager.go].
    - [SafeFile]: [safefile/safefile.go] on a disk with symbolic links.
    - The client [arc-sync] ([src/internal/cli]): [RecipeSync] runs assigned recipes through the
      [claude] command line ([cli/sync/recipes.go]); [FileTree] is a disk whose calls can fail,
      on which [SkillSync] installs skills ([cli/sync/skills.go]); [Hoare] has the rules for
      triples of such programs; [MemoryWatch] tails transcripts and sends them to the relay
      ([cli/sync/memory.go]); [ProjectTargets] is the interface of a configuration file with its
      two implementations ([cli/project]), against which [ServerSync] keeps a project's server
      list in step with the relay ([cli/sync/sync.go], [cli/config]); [ProjectRoot] finds the
      project and looks at its [.gitignore]; [RelayClient] is the client of the relay's API they
      are given ([cli/relay]); [SkillPublish] packages and pushes a skill ([cli/sync/skills.go],
      [cli/sync/upstream.go], [src/cmd/arc-sync/skill.go]).

    ** How the code is represented

    A Go function that returns an error is a function to [result].  A store method is a
    [DBM] program on the tables it works on: one [exec], [query] or [update] per SQL
    statement, [transact] for a transaction, and a list of faults that decides which
    statements the engine refuses.  Theorems quantify over the faults unless they name a
    [healthy] database.  The constraints of [src/migrations] (keys, UNIQUE, CHECK, foreign
    keys and their cascades) are part of the statements.  An HTTP handler is a function of
    the world it can change and returns its reply and the new world; a middleware takes
    the next handler.  Go's map iteration order, clocks, random ids and salts are
    arguments.  Time is in nanoseconds in [Z]; SQLite text timestamps are whole seconds.

    Code outside the repository is a parameter with its laws in a class and a toy instance
    that satisfies them: AES-GCM ([Crypto.AEADLaws]), bcrypt and SHA-256
    ([Users.HashingLaws]), the NaCl box, [regexp] ([Middleware.RegexpLaws]), URL parsing, gzip,
    tar and YAML ([SkillService.Formats]), SQLite's full-text index ([MemoryStore.Fts5]),
    timestamp and float literals ([MemoryService.TimeParser], [MemoryApi.Floats],
    [MemoryRecall.Float64]), the [claude] command line ([RecipeSync.ClaudeRunner]), what the SQL
    of a migration does to a schema, the TOML decoder.  The Docker daemon is any state
    whose calls obey [DockerManager.DaemonLaws]; a call that fails may have had its effect.  The
    relay a transcript watcher talks to
    ([MemoryWatch.Relay]) answers as it likes.  The
    network is a stream of answers, a backend an arbitrary function of what it was sent
    before; git, the language models and the memory backend of the extractor are answers
    the environment gives.  Values the code keeps in float64 (tokens of a bucket, times in
    seconds) are exact here.

    ** What is proved

    - Proxy: a call reaches a backend only if the user is permitted it and then unchanged
      and once; the list a client is shown is exactly what it may invoke; every logged call
      leaves one entry.  Three theorems show where the guard has gaps (notifications, parameter keys
      that differ in case, and a tier lookup that fails).
    - Archive: no message is lost in a drain run under any failures; the dispatcher's
      states stay consistent under every interleaving; an open breaker paces delivery; a
      reachable destination receives everything due; [drainDue] refines the step relation.
    - Identity: the schema's constraints hold along every run; an invite creates one account,
      whichever of its two ways it is used; a revoked key stays dead; invite exchange is atomic; a password change ends the other
      sessions; keys authenticate until revoked; a user's own key operations stay within
      the account; the session and bearer guards.
    - OAuth and devices: tokens and device keys are handed out only after a signed-in user
      approved exactly that request, each OAuth code once; redirects stay registered and safe.
      The handlers of the device flow interleave at every read outside their mutex, and a
      pending request is a shared pointer: two polls of a code can both get its key.
    - Tiers and profiles: a sync keeps manual tiers and is exact; seeding a profile from a
      level agrees with the tier check; bulk replacement is atomic.
    - Middlewares: the effective configuration; built-in pipelines never change or block a
      request; what the sizer, the sanitizer and the optimizer do to a response.
    - Servers: containers are never leaked; probes, threshold and recovery budget of the
      health monitor; what the management API lets whom do; the token bucket's bound; an
      enumeration that fails drops the access tiers.
    - Optimizing tools: pruning is idempotent, shrinks and keeps what validates (with the gap
      below [items]); batches partition the tools; the language model can neither add, drop
      nor enlarge a tool.
    - Skills: the store keeps its tables well formed and its drift flags truthful; uploads leave
      recorded archives intact (and a re-upload does not); extraction stays below its
      directory; a cycle of the checker visits every upstream; who may read, publish and
      choose the audience of a skill.
    - Transcripts: ingest writes only into sessions of its user and a replay adds nothing;
      searches and pages show a user's own sessions, completely; the prompt-injection guard
      and how nesting defeats it.
    - Extraction: chunks are a greedy partition; calls stay within the hourly rate; the queue never
      runs a session twice; every kept message below the watermark is recorded as sent
      exactly once unless its range was poisoned; repeated passes come to an end.
    - Recipes: validation is canonical; the tables keep their constraints; who may read a recipe
      and who chooses its audience; after any requests to the API the assigned recipes make a
      client run only plugin commands without smuggled options.
    - Pages: the feed shows a user what the user may see, sorted and bounded, and an administrator
      the newest of everything; the pages of skills and recipes change something only for an
      administrator's form with its token, and agree with the API on what exists; where the
      feed starves, where the upload limit comes too late.
    - Request log: its pages are the log until a user or server is deleted; then they are empty.
    - Skills on a client: a failed update keeps the old install, hand-made directories are never
      touched, a report tells what is on disk, and a dry run predicts a run, under any
      failing system calls.
    - The transcript watcher: no byte is passed over unsent, no record is split, every scan
      ends, a scan catches up when the relay answers, and a conflict about a file is final.
    - The server lists of projects: a sync keeps what is not the relay's in every configuration
      file that obeys the interface, and settles after one run; a dry run keeps the project
      but forgets a pending rename.
    - Administration pages: only an administrator's form with its token changes anything (but for
      a method the token check leaves out); the archive settings a page saves are the ones
      deliveries use; a hand-off completes once; the matrix of a profile shows what the proxy
      checks; the buttons of a server page do what the management API does, but for a start from
      the error state, which the page prepares with a stop.
    - The server form: saving what it shows changes nothing for servers it can show; what an edit
      keeps too long.
    - OAuth for remote servers: under every interleaving at most one refresh per server is under
      way and a waiter always has a worker; tokens survive a restart; two interleavings
      that lose tokens and edits.
    - Transports: for requests one after another a session goes with its token, until a
      notification meets a new token first; answers of a process reach their caller while
      ids differ, and another caller when they do not.
    - Transcripts, asked for in two ways: the MCP tools answer only about the caller's own sessions,
      and the client prints what the tools say.
    - The catalog returns the options that match, as many as asked for and the best first: by
      score, then title, and none of an unrelated name before the very name asked for; each
      has a slug the relay accepts.
    - Confined files: what is read or written lies in the directory the base resolves to and is
      reached without a link at its end, and a write changes nothing else; what was written can
      be read back; the walk to an existing ancestor ends; two corners where this fails, one
      of them an [Lstat] whose error is dropped.
    - Start-up: an opening that failed anywhere is completed by the next one and a corrupt file is
      left alone; a backup never leaves less than there was; a configuration that loads is
      usable; which variables hide which.
    - Containers: a start replaces the container of that server and no other, leaves nothing
      running when it fails and removals work, and succeeds on a daemon that is up; ports are published
      to this host only; a build context holds exactly what its rules keep; a stream's first
      error is reported.
    - Publishing: what is pushed and then installed is the directory it was made from, without its
      hidden entries and with files cut off at 5 MiB; what a push asks for as upstream is what the relay records.
    - The relay's client: the one request a call sends is what the relay decodes, and something counts as missing
      only when the relay said so.
    - Codecs: encryption, JSON, base64, capability lists and server configurations round
      trip.

    ** Fuel and bounds

    The JSON parser takes fuel; [Json.Unmarshal] gives it the length of the input plus one, and
    [Json.parser_fuel_suffices] shows that more fuel never accepts more.  The readers of raw
    JSON values, the flattening of message contents and the replacement of slash commands
    ([MemoryParser]) take the length of their input, which [raw_members_total],
    [flatten_fuel] and [collapse_fuel] show to be enough.  Glob matching ([GoPath.Match]) and
    the loops over runes take the length of the text, of which every round consumes a byte.
    Waiting for a token ([Extractor.wait_loop]) takes three rounds, and [wait_ends] shows
    that it never needs more.  The loops of the transcript watcher take one step per byte,
    which [MemoryWatch.scan_always_ends] shows to be enough.  Packaging walks with the
    depth of the directory as fuel, which [tree_entries_total] shows to be enough.  The other
    recursive functions are structural.  The
    dispatcher's batch size and the extractor's pass limits are the constants of the code.

    ** What is not modelled, and why

    - Calls out of the process: connecting to the Docker daemon and the multiplexed stream of a
      container, the language model client [internal/llm], sockets and child processes.  The
      code that decides when they are called is modelled, and their answers are arguments.
    - Rendering: the HTML templates and the registration of routes ([NewHandlers]).  A page is the
      data its template is given.
    - The wiring of [src/cmd/arc-relay/main.go]: building the parts and passing them to each other.
    - The command line of [arc-sync] ([src/cmd/arc-sync]): flags, printing and prompts around the
      operations that are modelled.
    - A run of an extraction pass is modelled without other writers in between; the queue's
      interleavings are.  A transcript is read as it is when a scan starts, and the watcher's
      timers and file notifications only decide when scans happen.
    - Some functions run alone in the model: the requests of one remote server ([Transports.Remote]),
      a confined read or write ([SafeFile]), an install ([SkillSync]).  File modes, hard links and
      partial writes are not modelled; an archive's links are skipped, as in the code.
    - A line a process writes is an answer to a request it was given; lines with an id the process made up
      itself are not modelled ([Transports.Stdio]).
    - The state file of the transcript watcher is in its current format in the runs the theorems speak of; the
      import of older ones is a definition only ([MemoryWatch.loadState]).
    - Case folding and splitting into words follow Go for ASCII; [json.Marshal] is modelled on valid UTF-8.
      The routing of [net/http], which cleans paths before a handler sees them, is not modelled. *)

From stdpp Require Export prelude strings list gmap sorting.
From Stdlib Require Export ZArith Lia.
From Stdlib Require Export Ascii.

(** ** Results

    A Go function that returns [(T, error)] is a function to [result T]: [Ok]
    is the nil-error return, [Err] carries the error text. *)
Inductive result (A : Type) : Type :=
| Ok (a : A)
| Err (msg : string).
Arguments Ok {_} _.
Arguments Err {_} _.

Definition result_map {A B} (f : A → B) (r : result A) : result B :=
  match r with Ok a => Ok (f a) | Err e => Err e end.

Definition result_bind {A B} (r : result A) (k : A → result B) : result B :=
  match r with Ok a => k a | Err e => Err e end.

Definition is_ok {A} (r : result A) : bool :=
  match r with Ok _ => true | Err _ => false end.

(** ** The database monad

    Every store of [src/internal/store] runs SQL statements on one SQLite
    database.  [Db T] is that database with tables [T] and a list of faults
    that decides, statement by statement, whether the engine reports an error
    (disk full, locked, closed): a [true] at the head makes the next statement
    fail and leaves the tables unchanged; an exhausted list never fails.  All
    theorems quantify over the faults unless they say otherwise. *)
Record Db (T : Type) := mkDb { tables : T; faults : list bool }.
Arguments mkDb {_} _ _.
Arguments tables {_} _.
Arguments faults {_} _.

Definition DBM (T A : Type) : Type := Db T → result A * Db T.

Definition db_ret {T A} (a : A) : DBM T A := λ d, (Ok a, d).

Definition db_fail {T A} (e : string) : DBM T A := λ d, (Err e, d).

Definition db_bind {T A B} (m : DBM T A) (k : A → DBM T B) : DBM T B :=
  λ d, match m d with
       | (Ok a, d') => k a d'
       | (Err e, d') => (Err e, d')
       end.

(** [attempt m] is a call whose error the caller inspects or drops
    ([_, err := ...] followed by a test, or [_ = f()]). *)
Definition attempt {T A} (m : DBM T A) : DBM T (result A) :=
  λ d, let '(r, d') := m d in (Ok r, d').

(** The engine's answer to one statement. *)
Definition next_fault (fs : list bool) : bool * list bool :=
  match fs with [] => (false, []) | b :: fs' => (b, fs') end.

Definition db_error : string := "database error".

(** [exec f] is one statement ([Exec], [Query] or [QueryRow]): [f] is what
    SQLite does with the tables when the engine does not fail; an [Err] of [f]
    is a constraint violation and leaves the tables unchanged. *)
Definition exec {T A} (f : T → result (A * T)) : DBM T A :=
  λ d, let '(b, fs) := next_fault (faults d) in
       if b then (Err db_error, mkDb (tables d) fs)
       else match f (tables d) with
            | Ok (a, t) => (Ok a, mkDb t fs)
            | Err e => (Err e, mkDb (tables d) fs)
            end.

Definition query {T A} (f : T → A) : DBM T A := exec (λ t, Ok (f t, t)).

Definition update {T} (f : T → T) : DBM T unit := exec (λ t, Ok (tt, f t)).

(** [transact body] is [db.Begin], the body on the transaction's own copy of
    the tables, then [tx.Commit], or [tx.Rollback] when the body returns an
    error.  Begin and commit are statements that can fail too. *)
Definition transact {T A} (body : DBM T A) : DBM T A :=
  λ d, let '(b, fs) := next_fault (faults d) in
       if b then (Err db_error, mkDb (tables d) fs)
       else match body (mkDb (tables d) fs) with
            | (Err e, d1) => (Err e, mkDb (tables d) (faults d1))
            | (Ok a, d1) =>
                let '(b2, fs2) := next_fault (faults d1) in
                if b2 then (Err db_error, mkDb (tables d) fs2)
                else (Ok a, mkDb (tables d1) fs2)
            end.

(** A store that owns a part of the tables, run inside the whole database. *)
Definition lift_db {S T A} (get : S → T) (put : T → S → S) (m : DBM T A) : DBM S A :=
  λ d, let '(r, d') := m (mkDb (get (tables d)) (faults d)) in
       (r, mkDb (put (tables d') (tables d)) (faults d')).

(** A healthy database: no statement fails any more. *)
Definition healthy {T} (t : T) : Db T := mkDb t [].

Declare Scope relay_scope.
Delimit Scope relay_scope with relay.
Notation "'let!' x ':=' m 'in' k" := (db_bind m (λ x, k))
  (at level 10, x pattern, m at level 100, k at level 200, only parsing) : relay_scope.
Notation "m ';;;' k" := (db_bind m (λ _, k))
  (at level 199, k at level 200, right associativity, only parsing) : relay_scope.
Open Scope relay_scope.

(** ** Time

    A [time.Time] or [time.Duration] is a number of nanoseconds. *)
Definition nanosecond : Z := 1.
Definition millisecond : Z := 1000000.
Definition second : Z := 1000000000.
Definition minute : Z := 60 * second.
Definition hour : Z := 60 * minute.
Definition day : Z := 24 * hour.

(** [sqliteTime] formats to whole seconds in UTC; the text order of
    [2006-01-02 15:04:05] is the order of the seconds, so a stored timestamp is
    the number of whole seconds. *)
Definition sqliteTime (t : Z) : Z := (t / second)%Z.

(** ** Tactics and hints *)
Create HintDb relay discriminated.

Ltac case_if :=
  match goal with
  | |- context [if ?b then _ else _] => destruct b eqn:?
  | H : context [if ?b then _ else _] |- _ => destruct b eqn:?
  end.

(** Turn boolean tests in the context into propositions. *)
Ltac bool_prop :=
  repeat match goal with
  | H : (_ && _) = true |- _ => apply andb_true_iff in H as [? ?]
  | H : (_ || _) = false |- _ => apply orb_false_iff in H as [? ?]
  | H : (_ && _) = false |- _ => apply andb_false_iff in H
  | H : (_ || _) = true |- _ => apply orb_true_iff in H
  | H : negb _ = true |- _ => apply negb_true_iff in H
  | H : negb _ = false |- _ => apply negb_false_iff in H
  | H : (_ =? _)%Z = true |- _ => apply Z.eqb_eq in H
  | H : (_ =? _)%Z = false |- _ => apply Z.eqb_neq in H
  | H : (_ <=? _)%Z = true |- _ => apply Z.leb_le in H
  | H : (_ <=? _)%Z = false |- _ => apply Z.leb_gt in H
  | H : (_ <? _)%Z = true |- _ => apply Z.ltb_lt in H
  | H : (_ <? _)%Z = false |- _ => apply Z.ltb_ge in H
  | H : (_ =? _)%nat = true |- _ => apply Nat.eqb_eq in H
  | H : (_ =? _)%nat = false |- _ => apply Nat.eqb_neq in H
  | H : (_ <=? _)%nat = true |- _ => apply Nat.leb_le in H
  | H : (_ <=? _)%nat = false |- _ => apply Nat.leb_gt in H
  | H : (_ <? _)%nat = true |- _ => apply Nat.ltb_lt in H
  | H : (_ <? _)%nat = false |- _ => apply Nat.ltb_ge in H
  | H : String.eqb _ _ = true |- _ => apply String.eqb_eq in H
  | H : String.eqb _ _ = false |- _ => apply String.eqb_neq in H
  | H : bool_decide _ = true |- _ => apply bool_decide_eq_true in H
  | H : bool_decide _ = false |- _ => apply bool_decide_eq_false in H
  end.

Infix "=?s" := String.eqb (at level 70, no associativity) : relay_scope.
Notation "a !=? b" := (negb (String.eqb a b)) (at level 70, no associativity) : relay_scope.

(** ** Stable insertion sort

    [sort.Slice] and SQL's [ORDER BY] with ties in table order. *)
Section StableSort.
Context {A : Type} (leb : A → A → bool).

Fixpoint insert_sorted (x : A) (l : list A) : list A :=
  match l with
  | [] => [x]
  | y :: l' => if leb x y then x :: y :: l' else y :: insert_sorted x l'
  end.

Definition stable_sort (l : list A) : list A := foldr insert_sorted [] l.

Definition leb_rel (x y : A) : Prop := leb x y = true.

Lemma insert_sorted_perm x l : insert_sorted x l ≡ₚ x :: l.
Proof.
  induction l as [|y l IH]; simpl; [done|].
  case_if; [done|]. rewrite IH. apply Permutation_swap.
Qed.

Lemma stable_sort_perm l : stable_sort l ≡ₚ l.
Proof.
  induction l as [|x l IH]; simpl; [done|].
  by rewrite insert_sorted_perm, IH.
Qed.

Context (leb_total : ∀ x y, leb x y = true ∨ leb y x = true).
Context (leb_trans : ∀ x y z, leb x y = true → leb y z = true → leb x z = true).

Lemma insert_sorted_sorted x l :
  StronglySorted leb_rel l → StronglySorted leb_rel (insert_sorted x l).
Proof.
  induction 1 as [|y l Hs IH Hall]; simpl; [repeat constructor|].
  destruct (leb x y) eqn:E; try congruence.
  - constructor; [by constructor|]. constructor; [done|].
    eapply Forall_impl; [exact Hall|]. intros z Hz. by eapply leb_trans.
  - constructor; [done|]. rewrite insert_sorted_perm. constructor; [|done].
    destruct (leb_total x y); [congruence|done].
Qed.

Lemma stable_sort_sorted l : StronglySorted leb_rel (stable_sort l).
Proof. induction l; simpl; [constructor|by apply insert_sorted_sorted]. Qed.
End StableSort.

(** ** Generic lemmas *)

Lemma elem_of_stable_sort {A} (leb : A → A → bool) x l :
  x ∈ stable_sort leb l ↔ x ∈ l.
Proof. by rewrite stable_sort_perm. Qed.

Lemma length_omap_le {A B} (f : A → option B) (l : list A) :
  length (omap f l) ≤ length l.
Proof.
  unfold omap. induction l as [|x l IH]; simpl; [done|].
  destruct (f x); simpl; lia.
Qed.

(** Looking a row up by a column that is not the key. *)
Section FindMap.
Context {K A : Type} `{Countable K}.
Implicit Types (m : gmap K A) (f : K * A → bool).

Lemma find_map_Some m f i x :
  List.find f (map_to_list m) = Some (i, x) → m !! i = Some x ∧ f (i, x) = true.
Proof.
  intros E. apply find_some in E as [Hin Hf]. split; [|done].
  by apply elem_of_map_to_list, list_elem_of_In.
Qed.

Lemma find_map_None m f :
  List.find f (map_to_list m) = None ↔ ∀ i x, m !! i = Some x → f (i, x) = false.
Proof.
  split.
  - intros E i x Hx. eapply find_none; [exact E|]. by apply list_elem_of_In, elem_of_map_to_list.
  - intros Hf. destruct (List.find f (map_to_list m)) as [[i x]|] eqn:E; [|done].
    apply find_map_Some in E as [Hx Ht]. rewrite (Hf _ _ Hx) in Ht. done.
Qed.

Lemma find_map_unique m f i x :
  m !! i = Some x → f (i, x) = true →
  (∀ j y, m !! j = Some y → f (j, y) = true → j = i) →
  List.find f (map_to_list m) = Some (i, x).
Proof.
  intros Hx Hf Hu. destruct (List.find f (map_to_list m)) as [[j y]|] eqn:E.
  - apply find_map_Some in E as [Hy Hfy]. rewrite (Hu _ _ Hy Hfy) in Hy |- *. by simplify_eq.
  - rewrite find_map_None in E. by rewrite (E _ _ Hx) in Hf.
Qed.

Lemma existsb_map_false m f :
  existsb f (map_to_list m) = false ↔ ∀ i x, m !! i = Some x → f (i, x) = false.
Proof.
  rewrite <- not_true_iff_false, existsb_exists. split.
  - intros Hn i x Hx. apply not_true_iff_false. intros Hf. apply Hn. exists (i, x).
    by rewrite <- list_elem_of_In, elem_of_map_to_list.
  - intros Hf ([i x] & Hin & Ht). rewrite <- list_elem_of_In, elem_of_map_to_list in Hin.
    by rewrite (Hf _ _ Hin) in Ht.
Qed.
End FindMap.

Lemma pair_first {A B} (p : A * B) (a : A) : p.1 = a → p = (a, p.2).
Proof. by intros <-; destruct p. Qed.

Lemma attempt_run {T A} (m : DBM T A) d :
  attempt m d = (Ok (fst (m d)), snd (m d)).
Proof. unfold attempt. by destruct (m d). Qed.

(** One statement either fails and changes no table, or does its work. *)
Lemma exec_cases {T A} (f : T → result (A * T)) d :
  (∃ e, fst (exec f d) = Err e ∧ tables (snd (exec f d)) = tables d) ∨
  (∃ a t, f (tables d) = Ok (a, t) ∧ fst (exec f d) = Ok a ∧
          tables (snd (exec f d)) = t).
Proof.
  unfold exec. destruct (next_fault (faults d)) as [[] fs]; [left; eauto|].
  destruct (f (tables d)) as [[a t]|e] eqn:E; [right|left]; simpl; eauto.
Qed.

Lemma exec_healthy {T A} (f : T → result (A * T)) t :
  exec f (healthy t) =
  match f t with
  | Ok (a, t') => (Ok a, healthy t')
  | Err e => (Err e, healthy t)
  end.
Proof. reflexivity. Qed.

Lemma update_tables {T} (f : T → T) d :
  tables (snd (update f d)) = tables d ∨ tables (snd (update f d)) = f (tables d).
Proof.
  unfold update, exec. destruct (next_fault (faults d)) as [[] fs]; simpl; auto.
Qed.

Lemma query_tables {T A} (f : T → A) d : tables (snd (query f d)) = tables d.
Proof. unfold query, exec. by destruct (next_fault (faults d)) as [[] fs]. Qed.

(** A transaction that reports an error leaves no trace in the tables. *)
Lemma transact_atomic {T A} (body : DBM T A) d e :
  fst (transact body d) = Err e → tables (snd (transact body d)) = tables d.
Proof.
  unfold transact. destruct (next_fault (faults d)) as [[] fs]; [done|].
  destruct (body _) as [[a|e'] d1]; [|done].
  by destruct (next_fault (faults d1)) as [[] fs2].
Qed.

Lemma transact_ok {T A} (body : DBM T A) d a :
  fst (transact body d) = Ok a →
  ∃ fs d1, body (mkDb (tables d) fs) = (Ok a, d1) ∧
           tables (snd (transact body d)) = tables d1.
Proof.
  unfold transact. destruct (next_fault (faults d)) as [[] fs]; [done|].
  destruct (body _) as [[a'|e'] d1] eqn:E; [|done].
  destruct (next_fault (faults d1)) as [[] fs2]; [done|].
  simpl. intros [= ->]. eauto.
Qed.

(** Inversion of successful runs. *)
Lemma bind_ok {T A B} (m : DBM T A) (k : A → DBM T B) d b d' :
  db_bind m k d = (Ok b, d') → ∃ a d1, m d = (Ok a, d1) ∧ k a d1 = (Ok b, d').
Proof. unfold db_bind. destruct (m d) as [[a|e] d1]; [eauto|done]. Qed.

Lemma exec_ok {T A} (f : T → result (A * T)) d a d' :
  exec f d = (Ok a, d') → f (tables d) = Ok (a, tables d').
Proof.
  unfold exec. destruct (next_fault (faults d)) as [[] fs]; [done|].
  destruct (f (tables d)) as [[a0 t]|e]; [|done]. by intros [= -> <-].
Qed.

Lemma query_ok {T A} (f : T → A) d a d' :
  query f d = (Ok a, d') → a = f (tables d) ∧ tables d' = tables d.
Proof. intros E%exec_ok. by simplify_eq. Qed.

Lemma update_ok {T} (f : T → T) d a d' : update f d = (Ok a, d') → tables d' = f (tables d).
Proof. intros E%exec_ok. by simplify_eq. Qed.

(** ** Invariants of database programs

    [preserves P m]: whatever statements fail, [m] keeps the invariant [P] of the
    tables.  The lemmas are the rules by which a program inherits the property
    from its statements. *)
Definition preserves {T A} (P : T → Prop) (m : DBM T A) : Prop :=
  ∀ d, P (tables d) → P (tables (snd (m d))).

Lemma preserves_ret {T A} (P : T → Prop) (a : A) : preserves P (db_ret a).
Proof. by intros d. Qed.

Lemma preserves_fail {T A} (P : T → Prop) e : preserves P (@db_fail T A e).
Proof. by intros d. Qed.

Lemma preserves_bind {T A B} (P : T → Prop) (m : DBM T A) (k : A → DBM T B) :
  preserves P m → (∀ a, preserves P (k a)) → preserves P (db_bind m k).
Proof.
  intros Hm Hk d Hd. specialize (Hm d Hd). unfold db_bind.
  destruct (m d) as [[a|e] d']; simpl in *; [by apply Hk|done].
Qed.

Lemma preserves_attempt {T A} (P : T → Prop) (m : DBM T A) :
  preserves P m → preserves P (attempt m).
Proof. intros Hm d Hd. rewrite attempt_run. by apply Hm. Qed.

Lemma preserves_exec {T A} (P : T → Prop) (f : T → result (A * T)) :
  (∀ t a t', P t → f t = Ok (a, t') → P t') → preserves P (exec f).
Proof.
  intros Hf d Hd. destruct (exec_cases f d) as [(e & _ & ->)|(a & t & E & _ & ->)]; eauto.
Qed.

Lemma preserves_update {T} (P : T → Prop) (f : T → T) :
  (∀ t, P t → P (f t)) → preserves P (update f).
Proof. intros Hf. apply preserves_exec. intros t a t' Ht [= _ <-]. auto. Qed.

Lemma preserves_query {T A} (P : T → Prop) (f : T → A) : preserves P (query f).
Proof. intros d. by rewrite query_tables. Qed.

Lemma preserves_transact {T A} (P : T → Prop) (m : DBM T A) :
  preserves P m → preserves P (transact m).
Proof.
  intros Hm d Hd. destruct (fst (transact m d)) as [a|e] eqn:E.
  - destruct (transact_ok _ _ _ E) as (fs & d1 & Hb & ->).
    specialize (Hm (mkDb (tables d) fs) Hd). by rewrite Hb in Hm.
  - by rewrite (transact_atomic _ _ _ E).
Qed.

Lemma preserves_lift {S T A} (get : S → T) (put : T → S → S) (P : S → Prop) (m : DBM T A) :
  (∀ d s, tables d = get s → P s → P (put (tables (snd (m d))) s)) → preserves P (lift_db get put m).
Proof.
  intros H d Hd. unfold lift_db. specialize (H (mkDb (get (tables d)) (faults d)) (tables d) eq_refl Hd).
  by destruct (m _).
Qed.

#[export] Hint Resolve preserves_ret preserves_fail preserves_bind preserves_attempt
  preserves_query preserves_transact : relay.

(** The result of a database program: [run m d] and its parts. *)
Definition outcome {T A} (m : DBM T A) (d : Db T) : result A := fst (m d).
Definition final {T A} (m : DBM T A) (d : Db T) : T := tables (snd (m d)).
