(* ===== verification/GoStrings.v ===== *)
(** * Go's [strings] package on byte strings

    The functions of Go's [strings] and [sort] packages the modelled code calls.
    A Go string is a sequence of bytes, a Rocq [string] a sequence of 8-bit
    characters.  [ToLower], [ToUpper] and [TrimSpace] follow Go's ASCII path:
    bytes of 128 and above are left alone, so the functions agree with Go on
    strings whose non-ASCII letters have no case and that contain no Unicode
    white space. *)
From S2P Require Import Prelude.

(** [strings.HasPrefix(s, p)] *)
Definition HasPrefix (s p : string) : bool := String.prefix p s.

(** [s[n:]] for n at most the length of s. *)
Fixpoint drop_str (n : nat) (s : string) : string :=
  match n, s with
  | O, _ => s
  | S n', String _ s' => drop_str n' s'
  | S _, EmptyString => EmptyString
  end.

(** [s[:n]] *)
Fixpoint take_str (n : nat) (s : string) : string :=
  match n, s with
  | S n', String c s' => String c (take_str n' s')
  | _, _ => EmptyString
  end.

(** [strings.TrimPrefix(s, p)] *)
Definition TrimPrefix (s p : string) : string :=
  if HasPrefix s p then drop_str (String.length p) s else s.

(** [strings.HasSuffix(s, p)] *)
Definition HasSuffix (s p : string) : bool :=
  (String.length p <=? String.length s)
  && (drop_str (String.length s - String.length p) s =?s p).

(** [strings.TrimSuffix(s, p)] *)
Definition TrimSuffix (s p : string) : string :=
  if HasSuffix s p then take_str (String.length s - String.length p) s else s.

(** [strings.Index(s, sub)], with [None] for -1. *)
Fixpoint Index (s sub : string) : option nat :=
  if String.prefix sub s then Some 0
  else match s with
       | EmptyString => None
       | String _ s' => S <$> Index s' sub
       end.

(** [strings.LastIndex] *)
Fixpoint LastIndex (s sub : string) : option nat :=
  match s with
  | EmptyString => if sub =?s "" then Some 0 else None
  | String _ s' =>
      match LastIndex s' sub with
      | Some n => Some (S n)
      | None => if String.prefix sub s then Some 0 else None
      end
  end.

(** [strings.Contains(s, sub)] *)
Definition Contains (s sub : string) : bool :=
  match Index s sub with Some _ => true | None => false end.

Definition byte (c : Ascii.ascii) : nat := Ascii.nat_of_ascii c.

Definition lower_char (c : Ascii.ascii) : Ascii.ascii :=
  if (65 <=? byte c) && (byte c <=? 90) then Ascii.ascii_of_nat (byte c + 32) else c.

Definition upper_char (c : Ascii.ascii) : Ascii.ascii :=
  if (97 <=? byte c) && (byte c <=? 122) then Ascii.ascii_of_nat (byte c - 32) else c.

Fixpoint map_str (f : Ascii.ascii → Ascii.ascii) (s : string) : string :=
  match s with
  | EmptyString => EmptyString
  | String c s' => String (f c) (map_str f s')
  end.

(** [strings.ToLower], [strings.ToUpper] *)
Definition ToLower : string → string := map_str lower_char.

Definition ToUpper : string → string := map_str upper_char.

(** [strings.EqualFold] *)
Definition EqualFold (a b : string) : bool := ToLower a =?s ToLower b.

(** ASCII white space of [strings.TrimSpace]: tab, LF, VT, FF, CR, space. *)
Definition is_space (c : Ascii.ascii) : bool :=
  ((9 <=? byte c) && (byte c <=? 13)) || (byte c =? 32).

Fixpoint trim_left (p : Ascii.ascii → bool) (s : string) : string :=
  match s with
  | EmptyString => EmptyString
  | String c s' => if p c then trim_left p s' else s
  end.

Fixpoint trim_right (p : Ascii.ascii → bool) (s : string) : string :=
  match s with
  | EmptyString => EmptyString
  | String c s' =>
      match trim_right p s' with
      | EmptyString => if p c then EmptyString else String c EmptyString
      | t => String c t
      end
  end.

Definition trim_func (p : Ascii.ascii → bool) (s : string) : string :=
  trim_right p (trim_left p s).

(** [strings.TrimSpace] *)
Definition TrimSpace : string → string := trim_func is_space.

Fixpoint all_chars (p : Ascii.ascii → bool) (s : string) : bool :=
  match s with
  | EmptyString => true
  | String c s' => p c && all_chars p s'
  end.

(** [strings.Split(s, c)] for a one-byte separator: never empty. *)
Fixpoint Split (s : string) (c : Ascii.ascii) : list string :=
  match s with
  | EmptyString => [EmptyString]
  | String a s' =>
      if Ascii.eqb a c then EmptyString :: Split s' c
      else match Split s' c with
           | [] => [String a EmptyString]
           | x :: r => String a x :: r
           end
  end.

(** [strings.Join] *)
Fixpoint Join (l : list string) (sep : string) : string :=
  match l with
  | [] => ""
  | [x] => x
  | x :: r => x +:+ sep +:+ Join r sep
  end.

(** [sort.Strings]: bytewise lexicographic order. *)
Definition sort_strings : list string → list string := stable_sort String.leb.

(** ** Lemmas *)

Lemma str_app_nil_l s : "" +:+ s = s.
Proof. reflexivity. Qed.

Lemma str_app_cons c a b : String c a +:+ b = String c (a +:+ b).
Proof. reflexivity. Qed.

Lemma str_app_assoc a b c : (a +:+ b) +:+ c = a +:+ (b +:+ c).
Proof. induction a as [|x a IH]; [done|]. rewrite !str_app_cons. by f_equal. Qed.

Lemma str_app_nil_r a : a +:+ "" = a.
Proof. induction a as [|x a IH]; [done|]. rewrite str_app_cons. by f_equal. Qed.

Lemma str_length_app a b :
  String.length (a +:+ b) = String.length a + String.length b.
Proof. induction a as [|x a IH]; [done|]. rewrite str_app_cons. simpl. by rewrite IH. Qed.

Lemma drop_str_app a b : drop_str (String.length a) (a +:+ b) = b.
Proof. induction a as [|x a IH]; [by destruct b|]. done. Qed.

Lemma take_str_app a b : take_str (String.length a) (a +:+ b) = a.
Proof.
  induction a as [|x a IH]; [by destruct b|]. rewrite str_app_cons. simpl. by f_equal.
Qed.

Lemma length_take_str n s : String.length (take_str n s) = n `min` String.length s.
Proof.
  revert n. induction s as [|c s IH]; intros [|n]; simpl; auto.
Qed.

Lemma prefix_app p s : String.prefix p (p +:+ s) = true.
Proof.
  induction p as [|c p IH]; [by destruct s|].
  rewrite str_app_cons. simpl. destruct (Ascii.ascii_dec c c); [done|congruence].
Qed.

Lemma prefix_inv p s : String.prefix p s = true → ∃ r, s = p +:+ r.
Proof.
  revert s. induction p as [|c p IH]; intros s H; [by exists s|].
  destruct s as [|d s]; simpl in H; [done|].
  destruct (Ascii.ascii_dec c d) as [->|]; [|done].
  apply IH in H as [r ->]. by exists r.
Qed.

Lemma HasPrefix_iff s p : HasPrefix s p = true ↔ ∃ r, s = p +:+ r.
Proof.
  split; [apply prefix_inv|]. intros [r ->]. apply prefix_app.
Qed.

Lemma TrimPrefix_app p s : TrimPrefix (p +:+ s) p = s.
Proof.
  unfold TrimPrefix, HasPrefix. rewrite prefix_app. apply drop_str_app.
Qed.

(** [Index] finds an occurrence ... *)
Lemma Index_Some s sub n :
  Index s sub = Some n →
  ∃ a b, s = a +:+ sub +:+ b ∧ String.length a = n.
Proof.
  revert n. induction s as [|c s IH]; intros n H.
  - simpl in H. destruct sub as [|x sub]; simpl in H; [|done].
    injection H as <-. by exists "", "".
  - cbn [Index] in H. destruct (String.prefix sub (String c s)) eqn:E.
    + simplify_eq. apply prefix_inv in E as [r E].
      exists "", r. by rewrite E.
    + destruct (Index s sub) as [m|] eqn:Em; simpl in H; [|done].
      injection H as <-. destruct (IH m eq_refl) as (a & b & -> & Hl).
      exists (String c a), b. simpl. rewrite Hl. split; [done|done].
Qed.

(** ... and the leftmost one. *)
Lemma Index_first s sub a b :
  s = a +:+ sub +:+ b →
  ∃ n, Index s sub = Some n ∧ n ≤ String.length a.
Proof.
  revert s. induction a as [|c a IH]; intros s ->.
  - exists 0. split; [|simpl; lia]. rewrite str_app_nil_l.
    pose proof (prefix_app sub b) as H.
    destruct (sub +:+ b) as [|x r]; cbn [Index]; by rewrite H.
  - rewrite str_app_cons. cbn [Index].
    destruct (String.prefix sub (String c (a +:+ sub +:+ b))); [exists 0; split; [done|lia]|].
    destruct (IH _ eq_refl) as (n & -> & Hn). exists (S n). split; [done|simpl; lia].
Qed.

Lemma Contains_iff s sub : Contains s sub = true ↔ ∃ a b, s = a +:+ sub +:+ b.
Proof.
  unfold Contains. split.
  - destruct (Index s sub) eqn:E; [|done]. intros _.
    apply Index_Some in E as (a & b & -> & _). eauto.
  - intros (a & b & H). destruct (Index_first _ _ _ _ H) as (n & -> & _). done.
Qed.

Lemma String_leb_total a b : String.leb a b = true ∨ String.leb b a = true.
Proof. destruct (String.leb_total a b); auto. Qed.

Lemma String_leb_trans a b c :
  String.leb a b = true → String.leb b c = true → String.leb a c = true.
Proof.
  intros H1 H2.
  assert (H : String.le a c) by (etransitivity; apply Is_true_true; eassumption).
  by apply Is_true_true.
Qed.

Lemma sort_strings_sorted l :
  StronglySorted (leb_rel String.leb) (sort_strings l).
Proof. apply stable_sort_sorted; [apply String_leb_total|apply String_leb_trans]. Qed.

Lemma all_chars_app p a b : all_chars p (a +:+ b) = all_chars p a && all_chars p b.
Proof. induction a as [|c a IH]; [done|]. rewrite str_app_cons. cbn [all_chars]. by rewrite IH, andb_assoc. Qed.

Lemma all_chars_impl (p q : Ascii.ascii → bool) s :
  (∀ c, p c = true → q c = true) → all_chars p s = true → all_chars q s = true.
Proof. intros Hpq. induction s as [|c s IH]; cbn; [done|]. rewrite !andb_true_iff. naive_solver. Qed.

Create Rewrite HintDb gostr.
#[export] Hint Rewrite str_app_nil_l str_app_cons str_app_assoc str_app_nil_r
  str_length_app drop_str_app take_str_app TrimPrefix_app : gostr.
