(* ===== verification/AccessTiers.v ===== *)
(** * Endpoint access tiers

    [src/internal/store/access.go] and [src/internal/mcp/classify.go]: the
    table of access tiers of the endpoints (tools, resources, prompts) of each
    server, the keyword classifier that fills it after an enumeration, and the
    tier comparison that guards a call. *)
From S2P Require Import Prelude GoStrings.

(** ** Classification (mcp/classify.go) *)
Module Classify.

Definition readKeywords : list string :=
  ["get"; "list"; "search"; "find"; "read"; "fetch"; "query";
   "show"; "describe"; "status"; "check"; "count"; "view"; "lookup"].

Definition adminKeywords : list string :=
  ["delete"; "remove"; "destroy"; "drop"; "purge"; "reset";
   "execute"; "run_command"; "deploy"; "install"; "uninstall";
   "reboot"; "shutdown"; "restart"; "kill"].

(** The byte [c != '_' && c != '-'] test, negated. *)
Definition is_sep (c : Ascii.ascii) : bool :=
  Ascii.eqb c "_"%char || Ascii.eqb c "-"%char.

(** [name[i]] is a separator; an index outside the string is a boundary. *)
Definition sep_at (name : string) (i : nat) : bool :=
  match String.get i name with
  | Some c => is_sep c
  | None => true
  end.

Definition containsWord (name keyword : string) : bool :=
  match Index name keyword with
  | None => false
  | Some idx =>
      let left_ok := if (0 <? idx) then sep_at name (idx - 1) else true in
      if negb left_ok then false
      else
        let e := idx + String.length keyword in
        let right_ok := if (e <? String.length name) then sep_at name e else true in
        if negb right_ok then false else true
  end.

Definition ClassifyEndpoint (endpointType name description : string) : string :=
  if (endpointType =?s "resource") || (endpointType =?s "prompt") then "read"
  else
    let nameLower := ToLower name in
    if existsb (containsWord nameLower) adminKeywords then "admin"
    else if existsb (containsWord nameLower) readKeywords then "read"
    else
      let descLower := ToLower description in
      if Contains descLower "retrieves" || Contains descLower "returns" then "read"
      else if Contains descLower "deletes" || Contains descLower "destroys"
              || Contains descLower "executes" then "admin"
      else "write".

(** The specification the comment of [containsWord] gives: the keyword occurs
    delimited by the ends of the name or by [_] or [-]. *)
Definition ends_at_boundary (a : string) : Prop :=
  a = "" ∨ ∃ a' c, a = a' +:+ String c "" ∧ is_sep c = true.

Definition starts_at_boundary (b : string) : Prop :=
  b = "" ∨ ∃ c b', b = String c b' ∧ is_sep c = true.

Definition word_in (name keyword : string) : Prop :=
  ∃ a b, name = a +:+ keyword +:+ b ∧ ends_at_boundary a ∧ starts_at_boundary b.

End Classify.

(** ** The tier table (store/access.go) *)
Module Access.

(** The primary key [(server_id, endpoint_type, endpoint_name)]. *)
Abbreviation key := (string * string * string)%type.

Record EndpointTier := mkTier { AccessTier : string; AutoClassified : bool }.

Record EndpointInfo := mkInfo { Type_ : string; Name : string; Description : string }.

(** The tables a tier statement reads or writes: the rows of [servers] (the
    foreign key) and [endpoint_access_tiers]. *)
Record State := mkState { servers : gset string; tiers : gmap key EndpointTier }.

Definition with_tiers (s : State) (m : gmap key EndpointTier) : State :=
  mkState (servers s) m.

(** The CHECK and REFERENCES constraints of migration 002. *)
Definition valid_type (t : string) : bool :=
  (t =?s "tool") || (t =?s "resource") || (t =?s "prompt").

Definition valid_tier (t : string) : bool :=
  (t =?s "read") || (t =?s "write") || (t =?s "admin").

Definition row_ok (s : State) (server type tier : string) : bool :=
  bool_decide (server ∈ servers s) && valid_type type && valid_tier tier.

Definition tierLevel (tier : string) : Z :=
  if tier =?s "read" then 1
  else if tier =?s "write" then 2
  else if tier =?s "admin" then 3
  else 2.

Definition CheckAccess (userLevel endpointTier : string) : bool :=
  (tierLevel endpointTier <=? tierLevel userLevel)%Z.

Definition GetTier (serverID endpointType endpointName : string) : DBM State string :=
  let! r := attempt (query (λ s, tiers s !! (serverID, endpointType, endpointName))) in
  match r with
  | Ok (Some row) => db_ret (AccessTier row)
  | _ => db_ret "write"
  end.

(** The rows of a server; [ORDER BY] is over the whole key, so the order is the
    lexicographic one on (type, name). *)
Definition key_leb (p q : (string * string) * EndpointTier) : bool :=
  if (p.1.1 =?s q.1.1) then String.leb p.1.2 q.1.2 else String.leb p.1.1 q.1.1.

Definition rows_of (serverID : string) (s : State) : list ((string * string) * EndpointTier) :=
  stable_sort key_leb
    (omap (λ '((sid, ty, nm), row), if sid =?s serverID then Some ((ty, nm), row) else None)
          (map_to_list (tiers s))).

Definition GetAllTiers (serverID : string) : DBM State (list ((string * string) * EndpointTier)) :=
  query (rows_of serverID).

Definition SetTier (serverID endpointType endpointName tier : string) : DBM State unit :=
  exec (λ s, if row_ok s serverID endpointType tier
             then Ok (tt, with_tiers s
                   (<[(serverID, endpointType, endpointName) := mkTier tier false]> (tiers s)))
             else Err "constraint failed").

(** The upsert of [SyncAfterEnumerate]: a conflicting row is updated only when
    it is still auto-classified. *)
Definition upsert_auto (serverID type name tier : string) (s : State) : result (unit * State) :=
  if row_ok s serverID type tier then
    let k := (serverID, type, name) in
    match tiers s !! k with
    | Some row => if AutoClassified row
                  then Ok (tt, with_tiers s (<[k := mkTier tier true]> (tiers s)))
                  else Ok (tt, s)
    | None => Ok (tt, with_tiers s (<[k := mkTier tier true]> (tiers s)))
    end
  else Err "constraint failed".

(** [ep.Type + ":" + ep.Name] *)
Definition ep_key (type name : string) : string := type +:+ ":" +:+ name.

Fixpoint sync_upserts (classifyFunc : string → string → string → string)
    (serverID : string) (endpoints : list EndpointInfo) : DBM State unit :=
  match endpoints with
  | [] => db_ret tt
  | ep :: rest =>
      let tier := classifyFunc (Type_ ep) (Name ep) (Description ep) in
      attempt (exec (upsert_auto serverID (Type_ ep) (Name ep) tier)) ;;;
      sync_upserts classifyFunc serverID rest
  end.

Fixpoint sync_deletes (serverID : string) (current : list string)
    (existing : list ((string * string) * EndpointTier)) : DBM State unit :=
  match existing with
  | [] => db_ret tt
  | ((ty, nm), _) :: rest =>
      (if bool_decide (ep_key ty nm ∈ current) then db_ret tt
       else attempt (update (λ s, with_tiers s (delete (serverID, ty, nm) (tiers s)))) ;;; db_ret tt) ;;;
      sync_deletes serverID current rest
  end.

(** [committed] is the state the separate connection behind [s.db] still sees
    when [GetAllTiers] runs inside the open transaction. *)
Definition sync_body (classifyFunc : string → string → string → string)
    (serverID : string) (endpoints : list EndpointInfo) (committed : State) : DBM State unit :=
  let current := map (λ ep, ep_key (Type_ ep) (Name ep)) endpoints in
  sync_upserts classifyFunc serverID endpoints ;;;
  let! r := attempt (query (λ _, rows_of serverID committed)) in
  match r with
  | Ok existing => sync_deletes serverID current existing
  | Err _ => db_ret tt
  end.

(** Errors of begin and commit are logged and dropped. *)
Definition SyncAfterEnumerate (classifyFunc : string → string → string → string)
    (serverID : string) (endpoints : list EndpointInfo) : DBM State unit :=
  λ d, let '(_, d') := transact (sync_body classifyFunc serverID endpoints (tables d)) d in
       (Ok tt, d').

(** Every row satisfies the schema's CHECK constraints. *)
Definition wf (s : State) : Prop :=
  map_Forall (λ (k : key) (row : EndpointTier),
    k.1.1 ∈ servers s ∧ valid_type k.1.2 = true ∧ valid_tier (AccessTier row) = true) (tiers s).

End Access.

(** ** Theorems on the classifier *)
Section ClassifyTheorems.
Import Classify.

Lemma get_app_last a c b :
  String.get (String.length a) (a +:+ String c b) = Some c.
Proof. induction a as [|x a IH]; [done|]. rewrite str_app_cons. done. Qed.

Lemma str_last a : a = "" ∨ ∃ a' c, a = a' +:+ String c "".
Proof.
  induction a as [|x a IH]; [by left|right].
  destruct IH as [->|(a' & c & ->)]; [by exists "", x|].
  exists (String x a'), c. done.
Qed.

Lemma left_boundary a rest :
  (if 0 <? String.length a then sep_at (a +:+ rest) (String.length a - 1) else true) = true
  ↔ ends_at_boundary a.
Proof.
  unfold ends_at_boundary. destruct (str_last a) as [->|(a' & c & ->)]; [simpl; intuition auto|].
  rewrite str_length_app. cbn [String.length].
  replace (0 <? String.length a' + 1) with true by (symmetry; apply Nat.ltb_lt; lia).
  replace (String.length a' + 1 - 1) with (String.length a') by lia.
  unfold sep_at. rewrite str_app_assoc, str_app_cons, get_app_last. split.
  - intros H. right. eauto.
  - intros [H|(a'' & c' & H & Hc)].
    + apply (f_equal String.length) in H. rewrite str_length_app in H. simpl in H. lia.
    + assert (Hl : String.length a' = String.length a'').
      { apply (f_equal String.length) in H. rewrite !str_length_app in H. simpl in H. lia. }
      apply (f_equal (String.get (String.length a'))) in H.
      rewrite get_app_last, Hl, get_app_last in H. by simplify_eq.
Qed.

Lemma get_app_r a b n : String.get (String.length a + n) (a +:+ b) = String.get n b.
Proof. induction a as [|x a IH]; [done|]. rewrite str_app_cons. done. Qed.

Lemma right_boundary a kw b :
  (if String.length a + String.length kw <? String.length (a +:+ kw +:+ b)
   then sep_at (a +:+ kw +:+ b) (String.length a + String.length kw) else true) = true
  ↔ starts_at_boundary b.
Proof.
  unfold starts_at_boundary, sep_at.
  rewrite get_app_r. rewrite <- (Nat.add_0_r (String.length kw)) at 2.
  rewrite get_app_r, !str_length_app. destruct b as [|c b].
  - simpl. replace (_ <? _) with false by (symmetry; apply Nat.ltb_ge; lia). intuition auto.
  - simpl. replace (_ <? _) with true by (symmetry; apply Nat.ltb_lt; lia). split.
    + intros H. right. eauto.
    + intros [?|(c' & b' & H & Hc)]; [done|]. by simplify_eq.
Qed.

Lemma containsWord_at a kw b :
  Index (a +:+ kw +:+ b) kw = Some (String.length a) →
  containsWord (a +:+ kw +:+ b) kw = true ↔ ends_at_boundary a ∧ starts_at_boundary b.
Proof.
  intros HI. unfold containsWord. rewrite HI.
  rewrite <- (left_boundary a (kw +:+ b)), <- (right_boundary a kw b).
  destruct (if 0 <? String.length a then _ else _); simpl; [|intuition done].
  destruct (if _ <? _ then _ else _); simpl; intuition done.
Qed.

(** [containsWord] decides whether the leftmost occurrence is delimited. *)
Lemma containsWord_leftmost name kw :
  containsWord name kw = true ↔
  ∃ a b, name = a +:+ kw +:+ b ∧ ends_at_boundary a ∧ starts_at_boundary b ∧
         (∀ a' b', name = a' +:+ kw +:+ b' → String.length a ≤ String.length a').
Proof.
  split.
  - intros H. assert (Hc := H). unfold containsWord in H.
    destruct (Index name kw) as [n|] eqn:E; [|done]. clear H.
    assert (E' := E). apply Index_Some in E' as (a & b & -> & <-).
    apply (containsWord_at a kw b E) in Hc as [Ha Hb].
    exists a, b. split_and!; try done. intros a' b' Hab.
    destruct (Index_first _ _ _ _ Hab) as (m & Hm & Hle). by simplify_eq.
  - intros (a & b & -> & Ha & Hb & Hmin).
    destruct (Index_first _ _ _ _ eq_refl : ∃ n, Index (a +:+ kw +:+ b) kw = Some n ∧ _)
      as (n & Hn & Hle).
    assert (Hn' := Hn). apply Index_Some in Hn' as (a' & b' & Heq & Hl).
    specialize (Hmin _ _ Heq). assert (n = String.length a) as -> by lia.
    by apply containsWord_at.
Qed.

(** The tier of an endpoint is always one the schema accepts. *)
Lemma ClassifyEndpoint_valid ty nm desc :
  Access.valid_tier (ClassifyEndpoint ty nm desc) = true.
Proof. unfold ClassifyEndpoint. repeat case_if; done. Qed.
End ClassifyTheorems.

(** a keyword matches exactly when its leftmost occurrence in the name
    is delimited by the ends of the name, [_] or [-]; so a match is always a
    delimited occurrence, as the comment of [containsWord] says. *)
Theorem containsWord_delimited : ∀ name kw,
  (Classify.containsWord name kw = true ↔
   ∃ a b, name = a +:+ kw +:+ b ∧
          Classify.ends_at_boundary a ∧ Classify.starts_at_boundary b ∧
          (∀ a' b', name = a' +:+ kw +:+ b' → String.length a ≤ String.length a')) ∧
  (Classify.containsWord name kw = true → Classify.word_in name kw).
Proof.
  intros name kw. split; [apply containsWord_leftmost|].
  rewrite containsWord_leftmost. intros (a & b & -> & Ha & Hb & _). by exists a, b.
Qed.

(** a delimited keyword after an undelimited occurrence of the same
    letters is missed: the tool [presets_reset] contains the admin keyword
    [reset] as a word, is not matched, and a description that says [returns]
    makes it a read endpoint. *)
Theorem containsWord_misses_later_word :
  Classify.word_in "presets_reset" "reset" ∧
  Classify.containsWord "presets_reset" "reset" = false ∧
  Classify.ClassifyEndpoint "tool" "presets_reset" "Resets all presets and returns the defaults" = "read".
Proof.
  split; [|split; reflexivity].
  exists "presets_", "". split; [done|]. split; [|by left].
  right. by exists "presets", "_"%char.
Qed.

(** ** Theorems on the tier table *)
Section SyncTheorems.
Import Access.
Context (classifyFunc : string → string → string → string) (serverID : string).

Definition names_key (k : key) (ep : EndpointInfo) : Prop :=
  k = (serverID, Type_ ep, Name ep).

(** What the upserts may do to a row: nothing, or, for a row of this server that
    is absent or auto-classified, set it to the tier of an enumerated endpoint. *)
Definition upsert_rel (endpoints : list EndpointInfo) (s s' : State) : Prop :=
  servers s' = servers s ∧
  ∀ k, tiers s' !! k = tiers s !! k ∨
       ((∀ row, tiers s !! k = Some row → AutoClassified row = true) ∧
        ∃ ep, ep ∈ endpoints ∧ names_key k ep ∧
              row_ok s k.1.1 k.1.2 (classifyFunc (Type_ ep) (Name ep) (Description ep)) = true ∧
              tiers s' !! k = Some (mkTier (classifyFunc (Type_ ep) (Name ep) (Description ep)) true)).

Lemma upsert_auto_rel ep s u s' :
  upsert_auto serverID (Type_ ep) (Name ep)
    (classifyFunc (Type_ ep) (Name ep) (Description ep)) s = Ok (u, s') →
  upsert_rel [ep] s s'.
Proof.
  unfold upsert_auto. destruct (row_ok _ _ _ _) eqn:Hok; [|done]. intros H.
  assert (Hins : ∀ k, (∀ row, tiers s !! (serverID, Type_ ep, Name ep) = Some row → AutoClassified row = true) →
     let s1 := with_tiers s (<[(serverID, Type_ ep, Name ep) :=
            mkTier (classifyFunc (Type_ ep) (Name ep) (Description ep)) true]> (tiers s)) in
     tiers s1 !! k = tiers s !! k ∨
     (∀ row, tiers s !! k = Some row → AutoClassified row = true) ∧
        ∃ ep0, ep0 ∈ [ep] ∧ names_key k ep0 ∧
              row_ok s k.1.1 k.1.2 (classifyFunc (Type_ ep0) (Name ep0) (Description ep0)) = true ∧
              tiers s1 !! k = Some (mkTier (classifyFunc (Type_ ep0) (Name ep0) (Description ep0)) true)).
  { intros k Hauto. simpl. rewrite lookup_insert. case_decide as E; [subst k|by left].
    right. split; [done|]. exists ep. rewrite list_elem_of_singleton. done. }
  destruct (tiers s !! _) as [row|] eqn:E; [destruct (AutoClassified row) eqn:Ea|];
    simplify_eq; split; try done; intros k; [| by left |]; apply Hins; naive_solver.
Qed.

Lemma row_ok_servers s s' a b c : servers s' = servers s → row_ok s' a b c = row_ok s a b c.
Proof. unfold row_ok. by intros ->. Qed.

Lemma upsert_rel_refl s : upsert_rel [] s s.
Proof. split; auto. Qed.

Lemma upsert_rel_trans l1 l2 s1 s2 s3 :
  upsert_rel l1 s1 s2 → upsert_rel l2 s2 s3 → upsert_rel (l1 ++ l2) s1 s3.
Proof.
  intros [Hs1 H1] [Hs2 H2]. split; [congruence|]. intros k.
  destruct (H2 k) as [E2|(Ha2 & ep & Hin & Hk & Hok & Hrow)].
  - destruct (H1 k) as [E1|(Ha1 & ep & Hin & Hk & Hok & Hrow)]; [left; congruence|right].
    split; [done|]. exists ep. rewrite elem_of_app. split_and!; auto; congruence.
  - right. split.
    + intros row Hr. destruct (H1 k) as [E1|(Ha1 & _)]; [|by apply Ha1].
      apply Ha2. congruence.
    + exists ep. rewrite elem_of_app. rewrite (row_ok_servers s1 s2) in Hok by done. auto 6.
Qed.

Lemma sync_upserts_rel endpoints d :
  fst (sync_upserts classifyFunc serverID endpoints d) = Ok tt ∧
  upsert_rel endpoints (tables d) (tables (snd (sync_upserts classifyFunc serverID endpoints d))).
Proof.
  revert d. induction endpoints as [|ep eps IH]; intros d; [split; [done|apply upsert_rel_refl]|].
  cbn [sync_upserts]. unfold db_bind. rewrite attempt_run.
  match goal with |- context [exec ?f d] => destruct (exec_cases f d) as [(e & _ & Ht)|(u & t & Hf & _ & Ht)] end;
    destruct (IH (snd (exec (upsert_auto serverID (Type_ ep) (Name ep)
      (classifyFunc (Type_ ep) (Name ep) (Description ep))) d))) as [Hok Hrel];
    (split; [done|]); rewrite Ht in Hrel.
  - apply (upsert_rel_trans [ep] eps _ (tables d)); [|done].
    split; [done|]. by left.
  - apply (upsert_rel_trans [ep] eps _ t); [|done]. by eapply upsert_auto_rel.
Qed.

Lemma upsert_rel_is_Some eps s s' k :
  upsert_rel eps s s' → is_Some (tiers s !! k) → is_Some (tiers s' !! k).
Proof.
  intros [_ H] Hk. destruct (H k) as [->|(_ & ep & _ & _ & _ & ->)]; [done|by eexists].
Qed.

Lemma sync_upserts_healthy endpoints s :
  (∀ ep, ep ∈ endpoints →
     row_ok s serverID (Type_ ep) (classifyFunc (Type_ ep) (Name ep) (Description ep)) = true) →
  faults (snd (sync_upserts classifyFunc serverID endpoints (healthy s))) = [] ∧
  ∀ ep, ep ∈ endpoints →
    is_Some (tiers (tables (snd (sync_upserts classifyFunc serverID endpoints (healthy s))))
             !! (serverID, Type_ ep, Name ep)).
Proof.
  revert s. induction endpoints as [|ep eps IH]; intros s Hok.
  { split; [done|]. intros ep Hin. by apply not_elem_of_nil in Hin. }
  cbn [sync_upserts]. unfold db_bind. rewrite attempt_run, exec_healthy.
  assert (Hup : ∃ s', upsert_auto serverID (Type_ ep) (Name ep)
            (classifyFunc (Type_ ep) (Name ep) (Description ep)) s = Ok (tt, s')
            ∧ is_Some (tiers s' !! (serverID, Type_ ep, Name ep))).
  { unfold upsert_auto. rewrite Hok by left.
    destruct (tiers s !! _) as [row|] eqn:E; [destruct (AutoClassified row)|]; eexists;
      (split; [done|]); simpl; rewrite ?lookup_insert_eq, ?E; by eexists. }
  destruct Hup as (s' & Hs' & Hsome). rewrite Hs'. cbn [snd].
  assert (Hrel := upsert_auto_rel _ _ _ _ Hs').
  destruct (IH s') as [Hf Hall].
  { intros ep' Hin. rewrite (row_ok_servers s) by apply Hrel. apply Hok. by right. }
  split; [done|]. intros ep' [->|Hin]%elem_of_cons; [|by apply Hall].
  eapply upsert_rel_is_Some; [|exact Hsome].
  exact (proj2 (sync_upserts_rel eps (healthy s'))).
Qed.

(** What the deletions may do: remove a listed row that is no longer current. *)
Definition delete_rel (current : list string)
    (existing : list ((string * string) * EndpointTier)) (s s' : State) : Prop :=
  servers s' = servers s ∧
  ∀ k, tiers s' !! k = tiers s !! k ∨
       (tiers s' !! k = None ∧
        ∃ ty nm row, k = (serverID, ty, nm) ∧ ((ty, nm), row) ∈ existing ∧
                     ep_key ty nm ∉ current).

Lemma sync_deletes_rel current existing d :
  fst (sync_deletes serverID current existing d) = Ok tt ∧
  delete_rel current existing (tables d) (tables (snd (sync_deletes serverID current existing d))).
Proof.
  revert d. induction existing as [|[[ty nm] row] rest IH]; intros d; [by repeat split; auto|].
  cbn [sync_deletes]. unfold db_bind. case_bool_decide as Hcur; simpl.
  - destruct (IH d) as [Hok [Hs Hrel]]. split; [done|]. split; [done|]. intros k.
    destruct (Hrel k) as [?|(? & t & n & r & ? & ? & ?)]; [by left|right].
    split; [done|]. exists t, n, r. rewrite elem_of_cons. auto.
  - rewrite attempt_run. cbn [fst snd db_ret].
    set (f := λ s : State, with_tiers s (delete (serverID, ty, nm) (tiers s))).
    destruct (IH (snd (update f d))) as [Hok [Hs Hrel]]. split; [done|].
    destruct (update_tables f d) as [Ht|Ht]; rewrite Ht in Hs, Hrel; (split; [done|]); intros k;
      (destruct (Hrel k) as [E|(E & t & n & r & ? & ? & ?)];
        [|right; split; [done|]; exists t, n, r; rewrite elem_of_cons; auto]).
    + by left.
    + rewrite E. simpl. rewrite lookup_delete. case_decide as Ek; [subst k|by left].
      right. split; [done|]. exists ty, nm, row. rewrite elem_of_cons. auto.
Qed.

Lemma sync_deletes_healthy current existing s :
  let d' := snd (sync_deletes serverID current existing (healthy s)) in
  faults d' = [] ∧
  ∀ ty nm row, ((ty, nm), row) ∈ existing → ep_key ty nm ∉ current →
    tiers (tables d') !! (serverID, ty, nm) = None.
Proof.
  revert s. induction existing as [|[[ty nm] row] rest IH]; intros s.
  { split; [done|]. intros ??? H. by apply not_elem_of_nil in H. }
  cbn [sync_deletes]. unfold db_bind. case_bool_decide as Hcur; simpl.
  - destruct (IH s) as [Hf Hall]. split; [done|].
    intros ??? [?|?]%elem_of_cons ?; simplify_eq; [done|by eauto].
  - set (s' := with_tiers s (delete (serverID, ty, nm) (tiers s))).
    destruct (IH s') as [Hf Hall]. split; [done|].
    intros t n r [?|?]%elem_of_cons ?; simplify_eq; [|by eauto].
    destruct (sync_deletes_rel current rest (healthy s')) as [_ [_ Hrel]].
    destruct (Hrel (serverID, ty, nm)) as [E|[E _]]; [|done].
    etransitivity; [exact E|]. simpl. by rewrite lookup_delete_eq.
Qed.

Lemma elem_of_rows_of s ty nm row :
  ((ty, nm), row) ∈ rows_of serverID s ↔ tiers s !! (serverID, ty, nm) = Some row.
Proof.
  unfold rows_of. rewrite elem_of_stable_sort, list_elem_of_omap. split.
  - intros ([[[sid ty'] nm'] row'] & Hin & Hif). destruct (sid =?s serverID) eqn:E; [|done].
    simplify_eq. apply String.eqb_eq in E as ->. by apply elem_of_map_to_list in Hin.
  - intros H. exists ((serverID, ty, nm), row). rewrite elem_of_map_to_list, String.eqb_refl. done.
Qed.

Lemma ep_key_inj t1 n1 t2 n2 :
  valid_type t1 = true → valid_type t2 = true →
  ep_key t1 n1 = ep_key t2 n2 → t1 = t2 ∧ n1 = n2.
Proof.
  unfold valid_type, ep_key. intros H1 H2.
  repeat match goal with H : _ || _ = true |- _ => apply orb_true_iff in H as [H|H] end;
    bool_prop; subst; rewrite ?str_app_cons; intros; by simplify_eq.
Qed.

(** The transaction as a whole, under any faults: every key keeps its row, or is
    set by an upsert, or is deleted as stale. *)
Lemma sync_run_rel endpoints (d : Db State) :
  let s := tables d in
  let s' := tables (snd (SyncAfterEnumerate classifyFunc serverID endpoints d)) in
  servers s' = servers s ∧
  ∀ k, tiers s' !! k = tiers s !! k ∨
    ((∀ row, tiers s !! k = Some row → AutoClassified row = true) ∧
     ∃ ep, ep ∈ endpoints ∧ names_key k ep ∧
       row_ok s k.1.1 k.1.2 (classifyFunc (Type_ ep) (Name ep) (Description ep)) = true ∧
       tiers s' !! k = Some (mkTier (classifyFunc (Type_ ep) (Name ep) (Description ep)) true)) ∨
    (tiers s' !! k = None ∧ ∃ ty nm row, k = (serverID, ty, nm) ∧
       tiers s !! k = Some row ∧
       ep_key ty nm ∉ map (λ ep, ep_key (Type_ ep) (Name ep)) endpoints).
Proof.
  cbv zeta. unfold SyncAfterEnumerate.
  destruct (transact _ d) as [[u|e] d'] eqn:E; cbn [snd].
  2: { assert (Ht := transact_atomic (sync_body classifyFunc serverID endpoints (tables d)) d e).
       rewrite E in Ht. simpl in Ht. rewrite Ht by done. split; auto. }
  assert (Ht := transact_ok (sync_body classifyFunc serverID endpoints (tables d)) d u).
  rewrite E in Ht. simpl in Ht. destruct (Ht eq_refl) as (fs & d1 & Hbody & ->). clear Ht E.
  unfold sync_body in Hbody. unfold db_bind at 1 in Hbody.
  destruct (sync_upserts_rel endpoints (mkDb (tables d) fs)) as [Hok Hrel].
  destruct (sync_upserts _ _ _ _) as [r1 d2]. simpl in Hok, Hrel. rewrite Hok in Hbody.
  destruct Hrel as [Hs Hrel]. unfold db_bind in Hbody. rewrite attempt_run in Hbody.
  assert (Hq := query_tables (λ _ : State, rows_of serverID (tables d)) d2).
  destruct (exec_cases (λ t : State, Ok (rows_of serverID (tables d), t)) d2)
    as [(e & Hf & _)|(a & t & Hf & Hf' & _)]; fold (query (λ _ : State, rows_of serverID (tables d))) in *.
  - rewrite Hf in Hbody. injection Hbody as <- <-. rewrite Hq. split; [done|].
    intros k. destruct (Hrel k) as [?|?]; auto.
  - injection Hf as <- <-. rewrite Hf' in Hbody.
    destruct (sync_deletes_rel (map (λ ep, ep_key (Type_ ep) (Name ep)) endpoints)
      (rows_of serverID (tables d)) (snd (query (λ _ : State, rows_of serverID (tables d)) d2)))
      as [_ [Hs3 Hdel]]. rewrite Hbody in Hs3, Hdel. simpl in Hs3, Hdel. rewrite Hq in Hs3, Hdel.
    split; [congruence|]. intros k.
    destruct (Hdel k) as [->|(-> & ty & nm & row & -> & Hin & Hcur)].
    + destruct (Hrel k) as [?|?]; auto.
    + right; right. split; [done|]. exists ty, nm, row. by rewrite <- elem_of_rows_of.
Qed.

(** On a healthy database the transaction commits what its body computed. *)
Lemma sync_healthy endpoints s :
  (∀ ep, ep ∈ endpoints →
     row_ok s serverID (Type_ ep) (classifyFunc (Type_ ep) (Name ep) (Description ep)) = true) →
  let s' := tables (snd (SyncAfterEnumerate classifyFunc serverID endpoints (healthy s))) in
  (∀ ep, ep ∈ endpoints → valid_type (Type_ ep) = true →
     is_Some (tiers s' !! (serverID, Type_ ep, Name ep))) ∧
  (∀ ty nm row, tiers s !! (serverID, ty, nm) = Some row →
     ep_key ty nm ∉ map (λ ep, ep_key (Type_ ep) (Name ep)) endpoints →
     tiers s' !! (serverID, ty, nm) = None).
Proof.
  intros Hok s'.
  destruct (sync_upserts_healthy endpoints s Hok) as [Hf Hall].
  assert (Hup := sync_upserts_rel endpoints (healthy s)).
  set (cur := map (λ ep, ep_key (Type_ ep) (Name ep)) endpoints) in *.
  destruct (sync_upserts classifyFunc serverID endpoints (healthy s)) as [r1 [s1 f1]] eqn:E1.
  destruct Hup as [Hr1 Hrel]. simpl in Hf, Hall, Hr1, Hrel. subst r1 f1.
  destruct (sync_deletes_healthy cur (rows_of serverID s) s1) as [Hf2 Hdel].
  assert (Hdrel := sync_deletes_rel cur (rows_of serverID s) (healthy s1)).
  destruct (sync_deletes serverID cur (rows_of serverID s) (healthy s1)) as [r2 [s2 f2]] eqn:E2.
  simpl in Hf2, Hdel, Hdrel. destruct Hdrel as [-> [_ Hdrel]]. subst f2.
  assert (Hs' : s' = s2).
  { unfold s', SyncAfterEnumerate, transact, sync_body, db_bind. cbn -[sync_upserts sync_deletes rows_of].
    unfold healthy in E1, E2. rewrite E1. rewrite attempt_run. cbn -[sync_deletes rows_of].
    fold cur. rewrite E2. done. }
  rewrite Hs'. split.
  - intros ep Hin Hv. destruct (Hdrel (serverID, Type_ ep, Name ep)) as [->|(_ & ty & nm & r & Hk & _ & Hc)].
    + by apply Hall.
    + simplify_eq. exfalso. apply Hc. unfold cur. apply list_elem_of_In, in_map_iff.
      exists ep. by rewrite <- list_elem_of_In.
  - intros ty nm row Hrow Hc. eapply Hdel; [by apply elem_of_rows_of|done].
Qed.
End SyncTheorems.

(** Whatever statements fail, [SyncAfterEnumerate] never changes a
    manually set tier of an endpoint that is still enumerated, never touches
    another server's rows, and keeps the table within the schema's constraints. *)
Theorem sync_preserves_manual :
  ∀ classifyFunc serverID endpoints (d : Db Access.State),
  let s := tables d in
  let s' := tables (snd (Access.SyncAfterEnumerate classifyFunc serverID endpoints d)) in
  (∀ ep row, ep ∈ endpoints →
     Access.tiers s !! (serverID, Access.Type_ ep, Access.Name ep) = Some row →
     Access.AutoClassified row = false →
     Access.tiers s' !! (serverID, Access.Type_ ep, Access.Name ep) = Some row) ∧
  (∀ sid ty nm, sid ≠ serverID →
     Access.tiers s' !! (sid, ty, nm) = Access.tiers s !! (sid, ty, nm)) ∧
  (Access.wf s → Access.wf s').
Proof.
  intros cf sid eps d s s'.
  destruct (sync_run_rel cf sid eps d) as [Hs H]. fold s s' in Hs, H. split_and!.
  - intros ep row Hin Hrow Hauto.
    destruct (H (sid, Access.Type_ ep, Access.Name ep))
      as [->|[(Ha & _)|(_ & ty & nm & r & Hk & _ & Hcur)]]; [done| |].
    + by rewrite (Ha row) in Hauto.
    + simplify_eq. exfalso. apply Hcur. apply list_elem_of_In, in_map_iff.
      exists ep. by rewrite <- list_elem_of_In.
  - intros sid' ty nm Hne. destruct (H (sid', ty, nm)) as [->|[(_ & ep & _ & Hk & _)|(_ & ? & ? & ? & Hk & _)]];
      [done|unfold names_key in Hk; congruence|congruence].
  - intros Hwf k row Hk. destruct (H k) as [E|[(_ & ep & _ & -> & Hok & E)|(E & _)]].
    + rewrite E in Hk. rewrite Hs. by apply Hwf.
    + rewrite Hk in E. injection E as ->. unfold Access.row_ok in Hok. bool_prop. by rewrite Hs.
    + congruence.
Qed.

(** on a healthy database, after [SyncAfterEnumerate] with the real
    classifier the rows of the server are exactly those of the enumerated
    endpoints, and a row that is not a manual override carries the classifier's
    tier. *)
Theorem sync_exact :
  ∀ serverID endpoints (s : Access.State),
  Access.wf s → serverID ∈ Access.servers s →
  Forall (λ ep, Access.valid_type (Access.Type_ ep) = true) endpoints →
  let s' := tables (snd (Access.SyncAfterEnumerate Classify.ClassifyEndpoint serverID endpoints (healthy s))) in
  ∀ ty nm,
  (is_Some (Access.tiers s' !! (serverID, ty, nm)) ↔
   ∃ ep, ep ∈ endpoints ∧ Access.Type_ ep = ty ∧ Access.Name ep = nm) ∧
  (∀ row, Access.tiers s' !! (serverID, ty, nm) = Some row →
     Access.tiers s !! (serverID, ty, nm) = Some row ∨
     ∃ ep, ep ∈ endpoints ∧ Access.Type_ ep = ty ∧ Access.Name ep = nm ∧
       row = Access.mkTier (Classify.ClassifyEndpoint ty nm (Access.Description ep)) true).
Proof.
  intros sid eps s Hwf Hsrv Hv s' ty nm. rewrite Forall_forall in Hv.
  assert (Hok : ∀ ep, ep ∈ eps → Access.row_ok s sid (Access.Type_ ep)
     (Classify.ClassifyEndpoint (Access.Type_ ep) (Access.Name ep) (Access.Description ep)) = true).
  { intros ep Hin. unfold Access.row_ok. rewrite bool_decide_true, Hv, ClassifyEndpoint_valid by done. done. }
  destruct (sync_healthy _ _ eps s Hok) as [Hpres Hdel]. fold s' in Hpres, Hdel.
  destruct (sync_run_rel Classify.ClassifyEndpoint sid eps (healthy s)) as [_ H]. fold s' in H.
  specialize (H (sid, ty, nm)). simpl in H. split; [split|].
  - intros [row Hrow]. destruct H as [E|[(_ & ep & Hin & Hk & _)|(E & _)]]; [|unfold names_key in Hk; simplify_eq; eauto|congruence].
    destruct (decide (Access.ep_key ty nm ∈ map (λ ep, Access.ep_key (Access.Type_ ep) (Access.Name ep)) eps)) as [Hc|Hc].
    + apply list_elem_of_In, in_map_iff in Hc as (ep & Hk & Hin). apply list_elem_of_In in Hin.
      exists ep. split; [done|]. rewrite E in Hrow. apply Hwf in Hrow as (_ & Ht & _).
      by eapply ep_key_inj in Hk; [|by apply Hv|exact Ht].
    + rewrite E in Hrow. by rewrite (Hdel ty nm row) in E; [rewrite <- E in Hrow|..].
  - intros (ep & Hin & <- & <-). by apply Hpres; [|apply Hv].
  - intros row Hrow. destruct H as [E|[(_ & ep & Hin & Hk & _ & E)|(E & _)]]; [left; congruence| |congruence].
    right. exists ep. unfold names_key in Hk. simplify_eq. split_and!; try done; congruence.
Qed.

Lemma sync_preserves_manual_witness :
  let s := Access.mkState {["srv"]} {[("srv", "tool", "get_x") := Access.mkTier "admin" false]} in
  Access.tiers (tables (snd (Access.SyncAfterEnumerate Classify.ClassifyEndpoint "srv"
    [Access.mkInfo "tool" "get_x" ""] (mkDb s [false; true])))) !! ("srv", "tool", "get_x")
  = Some (Access.mkTier "admin" false).
Proof.
  apply (proj1 (sync_preserves_manual Classify.ClassifyEndpoint "srv"
    [Access.mkInfo "tool" "get_x" ""] (mkDb _ [false; true])) (Access.mkInfo "tool" "get_x" ""));
    [by left|reflexivity|reflexivity].
Defined.

Lemma sync_exact_witness :
  let s := Access.mkState {["srv"]} {[("srv", "tool", "gone") := Access.mkTier "read" true]} in
  is_Some (Access.tiers (tables (snd (Access.SyncAfterEnumerate Classify.ClassifyEndpoint "srv"
    [Access.mkInfo "tool" "get_x" ""] (healthy s)))) !! ("srv", "tool", "get_x")).
Proof.
  apply (proj1 (sync_exact "srv" [Access.mkInfo "tool" "get_x" ""]
    (Access.mkState {["srv"]} {[("srv", "tool", "gone") := Access.mkTier "read" true]})
    ltac:(apply map_Forall_singleton; split_and!; [set_solver|reflexivity..])
    ltac:(set_solver)
    ltac:(repeat constructor) "tool" "get_x")).
  exists (Access.mkInfo "tool" "get_x" ""). split; [by left|done].
Defined.

(** the tier check is the order read < write < admin: an admin
    level passes every tier, a read level only read, an unknown level counts as
    write, and a level that passes a tier passes every tier that tier's own
    level passes. *)
Theorem CheckAccess_order :
  (∀ t, Access.CheckAccess "admin" t = true) ∧
  (∀ t, Access.CheckAccess "read" t = true ↔ t = "read") ∧
  (∀ u, Access.CheckAccess u "admin" = true ↔ u = "admin") ∧
  (∀ u, Access.valid_tier u = false → ∀ t, Access.CheckAccess u t = Access.CheckAccess "write" t) ∧
  (∀ a b c, Access.CheckAccess a b = true → Access.CheckAccess b c = true → Access.CheckAccess a c = true).
Proof.
  unfold Access.CheckAccess, Access.valid_tier. split_and!.
  - intros t. unfold Access.tierLevel. repeat case_if; done.
  - intros t. unfold Access.tierLevel at 1 2. simpl. split; [|by intros ->].
    destruct (t =?s "read") eqn:E; [by apply String.eqb_eq in E|]. repeat case_if; done.
  - intros u. unfold Access.tierLevel at 1 2. simpl. split; [|by intros ->].
    destruct (u =?s "admin") eqn:E; [by apply String.eqb_eq in E|]. repeat case_if; done.
  - intros u H t. bool_prop. f_equal. unfold Access.tierLevel.
    by repeat match goal with H : u ≠ _ |- _ => apply String.eqb_neq in H as -> end.
  - intros a b c. rewrite !Z.leb_le. lia.
Qed.

Lemma CheckAccess_order_witness : Access.CheckAccess "" "write" = true.
Proof.
  rewrite (proj1 (proj2 (proj2 (proj2 CheckAccess_order))) "" eq_refl "write"). reflexivity.
Defined.

(** [GetTier] answers the stored tier when the lookup succeeds, and
    [write] when the endpoint is unknown or the statement fails: a database error
    lets a user of level write through to an endpoint of tier admin. *)
Theorem GetTier_fails_open : ∀ serverID ty nm (s : Access.State) fs,
  fst (Access.GetTier serverID ty nm (mkDb s (false :: fs))) =
    Ok (match Access.tiers s !! (serverID, ty, nm) with
        | Some row => Access.AccessTier row | None => "write" end) ∧
  fst (Access.GetTier serverID ty nm (mkDb s (true :: fs))) = Ok "write" ∧
  Access.CheckAccess "write" "write" = true ∧ Access.CheckAccess "write" "admin" = false.
Proof.
  intros sid ty nm s fs. unfold Access.GetTier, db_bind, attempt, query, exec. simpl.
  by destruct (Access.tiers s !! _).
Qed.
