(* ===== verification/Base64.v ===== *)
(** * [encoding/base64], standard alphabet with padding

    The part of Go's [base64.StdEncoding] the stores and the archive use:
    [EncodeToString] and [DecodeString].  Decoding skips carriage returns and
    line feeds, requires padding and ignores the unused trailing bits, as Go's
    non-strict decoder does. *)
From S2P Require Import Prelude GoStrings.

Definition b64_char (n : Z) : ascii :=
  if (n <? 26)%Z then ascii_of_nat (65 + Z.to_nat n)
  else if (n <? 52)%Z then ascii_of_nat (97 + Z.to_nat (n - 26))
  else if (n <? 62)%Z then ascii_of_nat (48 + Z.to_nat (n - 52))
  else if (n =? 62)%Z then "+"%char else "/"%char.

Definition b64_value (c : ascii) : option Z :=
  let n := Z.of_nat (byte c) in
  if ((65 <=? n) && (n <=? 90))%Z then Some (n - 65)%Z
  else if ((97 <=? n) && (n <=? 122))%Z then Some (n - 97 + 26)%Z
  else if ((48 <=? n) && (n <=? 57))%Z then Some (n - 48 + 52)%Z
  else if (n =? 43)%Z then Some 62%Z
  else if (n =? 47)%Z then Some 63%Z
  else None.

Definition ch (z : Z) : ascii := ascii_of_nat (Z.to_nat z).

Definition val (c : ascii) : Z := Z.of_nat (byte c).

Definition pad : ascii := "="%char.

Fixpoint EncodeToString (s : string) : string :=
  match s with
  | EmptyString => ""
  | String a EmptyString =>
      let n := (val a * 65536)%Z in
      String (b64_char (n / 262144)) (String (b64_char (n / 4096 mod 64))
        (String pad (String pad "")))
  | String a (String b EmptyString) =>
      let n := (val a * 65536 + val b * 256)%Z in
      String (b64_char (n / 262144)) (String (b64_char (n / 4096 mod 64))
        (String (b64_char (n / 64 mod 64)) (String pad "")))
  | String a (String b (String c rest)) =>
      let n := (val a * 65536 + val b * 256 + val c)%Z in
      String (b64_char (n / 262144)) (String (b64_char (n / 4096 mod 64))
        (String (b64_char (n / 64 mod 64)) (String (b64_char (n mod 64))
          (EncodeToString rest))))
  end.

Fixpoint strip_newlines (s : string) : string :=
  match s with
  | EmptyString => ""
  | String c s' => if (byte c =? 10) || (byte c =? 13) then strip_newlines s'
                   else String c (strip_newlines s')
  end.

Fixpoint decode_quads (s : string) : option string :=
  match s with
  | EmptyString => Some ""
  | String c1 (String c2 (String c3 (String c4 rest))) =>
      v1 ← b64_value c1; v2 ← b64_value c2;
      if Ascii.eqb c3 pad then
        if Ascii.eqb c4 pad then
          match rest with
          | EmptyString => Some (String (ch ((v1 * 64 + v2) / 16)) "")
          | _ => None
          end
        else None
      else
        v3 ← b64_value c3;
        if Ascii.eqb c4 pad then
          match rest with
          | EmptyString =>
              let n := ((v1 * 64 + v2) * 64 + v3)%Z in
              Some (String (ch (n / 1024)) (String (ch (n / 4 mod 256)) ""))
          | _ => None
          end
        else
          v4 ← b64_value c4;
          r ← decode_quads rest;
          let n := (((v1 * 64 + v2) * 64 + v3) * 64 + v4)%Z in
          Some (String (ch (n / 65536)) (String (ch (n / 256 mod 256))
                 (String (ch (n mod 256)) r)))
  | _ => None
  end.

Definition DecodeString (s : string) : option string := decode_quads (strip_newlines s).

(** ** Round trip *)

Lemma val_range c : (0 <= val c < 256)%Z.
Proof. unfold val, byte. pose proof (nat_ascii_bounded c). lia. Qed.

Lemma ch_val c z : z = val c → ch z = c.
Proof. intros ->. unfold ch, val, byte. rewrite Nat2Z.id. apply ascii_nat_embedding. Qed.

Lemma sextets_ok :
  forallb (λ k, let z := Z.of_nat k in
     match b64_value (b64_char z) with Some v => (v =? z)%Z | None => false end
     && negb (Ascii.eqb (b64_char z) pad)
     && negb ((byte (b64_char z) =? 10) || (byte (b64_char z) =? 13))) (seq 0 64) = true.
Proof. vm_compute. reflexivity. Qed.

Lemma sextet z : (0 <= z < 64)%Z →
  b64_value (b64_char z) = Some z ∧ Ascii.eqb (b64_char z) pad = false ∧
  (byte (b64_char z) =? 10) || (byte (b64_char z) =? 13) = false.
Proof.
  intros Hz. pose proof sextets_ok as H. rewrite forallb_forall in H.
  specialize (H (Z.to_nat z)). rewrite Z2Nat.id in H by lia.
  assert (Hin : In (Z.to_nat z) (seq 0 64)) by (apply in_seq; lia).
  apply H in Hin. rewrite !andb_true_iff, !negb_true_iff in Hin. destruct Hin as [[Hv Hp] Hn].
  destruct (b64_value (b64_char z)); [|done]. apply Z.eqb_eq in Hv as ->. done.
Qed.

Lemma string_ind3 (P : string → Prop) :
  P "" → (∀ a, P (String a "")) → (∀ a b, P (String a (String b ""))) →
  (∀ a b c s, P s → P (String a (String b (String c s)))) → ∀ s, P s.
Proof.
  intros H0 H1 H2 H3.
  refine (fix go s := match s with
    | "" => H0 | String a "" => H1 a | String a (String b "") => H2 a b
    | String a (String b (String c s')) => H3 a b c s' (go s') end).
Qed.

Ltac sextet_at z :=
  let H1 := fresh "Hv" in let H2 := fresh "Hp" in let H3 := fresh "Hn" in
  destruct (sextet z) as (H1 & H2 & H3);
  [Z.to_euclidean_division_equations; lia|].

Ltac b64_bytes := apply ch_val; Z.to_euclidean_division_equations; lia.

Lemma decode_encode s : DecodeString (EncodeToString s) = Some s.
Proof.
  unfold DecodeString.
  induction s as [|a|a b|a b c s IH] using string_ind3; [done|..];
    cbn [EncodeToString]; pose proof (val_range a);
    try pose proof (val_range b); try pose proof (val_range c).
  - sextet_at (val a * 65536 / 262144)%Z. sextet_at (val a * 65536 / 4096 mod 64)%Z.
    cbn [strip_newlines]. rewrite Hn, Hn0. simpl. rewrite Hv, Hv0. simpl.
    do 2 f_equal. b64_bytes.
  - set (n := (val a * 65536 + val b * 256)%Z).
    sextet_at (n / 262144)%Z. sextet_at (n / 4096 mod 64)%Z. sextet_at (n / 64 mod 64)%Z.
    cbn [strip_newlines]. rewrite Hn, Hn0, Hn1. simpl. rewrite Hv, Hv0. simpl.
    rewrite Hp1, Hv1. simpl. unfold n. do 2 f_equal; [b64_bytes|]. f_equal. b64_bytes.
  - set (n := (val a * 65536 + val b * 256 + val c)%Z).
    sextet_at (n / 262144)%Z. sextet_at (n / 4096 mod 64)%Z. sextet_at (n / 64 mod 64)%Z.
    sextet_at (n mod 64)%Z.
    cbn [strip_newlines]. rewrite Hn, Hn0, Hn1, Hn2. cbn [decode_quads].
    rewrite Hv, Hv0. simpl. rewrite Hp1, Hv1. simpl. rewrite Hp2, Hv2. simpl. rewrite IH. simpl.
    unfold n. do 2 f_equal; [b64_bytes|]. f_equal; [b64_bytes|]. f_equal. b64_bytes.
Qed.
