(* ===== verification/Crypto.v ===== *)
(** * The config encryptor

    [src/internal/store/crypto.go]: credentials at rest are stored as
    [enc:] followed by the base64 text of nonce and AES-256-GCM ciphertext, or
    as plaintext when no key is configured.  The cipher is an interface: an
    [AEAD] with the law every authenticated cipher satisfies (opening what was
    sealed under the same key and nonce gives the plaintext back). *)
From S2P Require Import Prelude GoStrings Base64.

(** Go's [cipher.AEAD] for one key: nonce size, [Seal(dst, nonce, plaintext)]
    without the [dst] prefix, and [Open]. *)
Record AEAD := mkAEAD {
  NonceSize : nat;
  Seal : string → string → string;
  Open_ : string → string → option string }.

Class AEADLaws (g : AEAD) : Prop := {
  Open_Seal : ∀ nonce p, String.length nonce = NonceSize g →
              Open_ g nonce (Seal g nonce p) = Some p }.

Definition encryptedPrefix : string := "enc:".

Record ConfigEncryptor := mkEncryptor { gcm : option AEAD }.

(** [NewConfigEncryptor]: an empty passphrase is passthrough mode.  [cipher_of]
    is SHA-256, AES and GCM applied to the passphrase. *)
Definition NewConfigEncryptor (cipher_of : string → AEAD) (key : string) : ConfigEncryptor :=
  if key =?s "" then mkEncryptor None else mkEncryptor (Some (cipher_of key)).

(** [nonce] is what the random source delivers: [None] is a read error. *)
Definition Encrypt (e : ConfigEncryptor) (nonce : option string) (plaintext : string) : result string :=
  match gcm e with
  | None => Ok plaintext
  | Some g =>
      match nonce with
      | None => Err "generating nonce"
      | Some n => Ok (encryptedPrefix +:+ EncodeToString (n +:+ Seal g n plaintext))
      end
  end.

Definition Decrypt (e : ConfigEncryptor) (data : string) : result string :=
  if negb (HasPrefix data encryptedPrefix) then Ok data
  else match gcm e with
  | None => Err "config is encrypted but no encryption key is configured"
  | Some g =>
      match DecodeString (TrimPrefix data encryptedPrefix) with
      | None => Err "decoding encrypted config"
      | Some ciphertext =>
          if String.length ciphertext <? NonceSize g then Err "encrypted config too short"
          else match Open_ g (take_str (NonceSize g) ciphertext)
                             (drop_str (NonceSize g) ciphertext) with
               | None => Err "decrypting config"
               | Some p => Ok p
               end
      end
  end.

(** A toy cipher that satisfies the laws: XOR of every byte with one constant and
    the nonce as an appended tag. *)
Definition toy_xor (c : ascii) : ascii := ascii_of_N (N.lxor (N_of_ascii c) 90).

Definition toy_aead : AEAD :=
  mkAEAD 2 (λ nonce p, nonce +:+ map_str toy_xor p)
    (λ nonce c, if HasPrefix c nonce then Some (map_str toy_xor (TrimPrefix c nonce)) else None).

Lemma toy_xor_involutive c : toy_xor (toy_xor c) = c.
Proof. destruct c as [[] [] [] [] [] [] [] []]; reflexivity. Qed.

Lemma map_toy_xor s : map_str toy_xor (map_str toy_xor s) = s.
Proof. induction s as [|c s IH]; [done|]. simpl. by rewrite toy_xor_involutive, IH. Qed.

#[export] Instance toy_aead_laws : AEADLaws toy_aead.
Proof.
  constructor. intros n p _. simpl. unfold HasPrefix. rewrite prefix_app, TrimPrefix_app.
  by rewrite map_toy_xor.
Qed.

(** A value that comes out of [Encrypt] decrypts to itself. *)
Lemma Decrypt_Encrypt_key g nonce p c `{!AEADLaws g} :
  String.length nonce = NonceSize g →
  Encrypt (mkEncryptor (Some g)) (Some nonce) p = Ok c →
  Decrypt (mkEncryptor (Some g)) c = Ok p.
Proof.
  intros Hn [= <-]. unfold Decrypt, HasPrefix. rewrite prefix_app. simpl negb. cbn iota.
  cbn [gcm]. rewrite TrimPrefix_app, decode_encode, str_length_app.
  replace (_ <? _) with false by (symmetry; apply Nat.ltb_ge; lia).
  rewrite <- Hn, take_str_app, drop_str_app, Open_Seal by done. done.
Qed.

Lemma Encrypt_prefixed g nonce p c :
  Encrypt (mkEncryptor (Some g)) nonce p = Ok c → HasPrefix c encryptedPrefix = true.
Proof.
  destruct nonce; [|done]. intros [= <-]. apply prefix_app.
Qed.

Lemma Decrypt_plain e p : HasPrefix p encryptedPrefix = false → Decrypt e p = Ok p.
Proof. unfold Decrypt. by intros ->. Qed.

(** with a key, what [Encrypt] returns decrypts to the plaintext and is
    always marked [enc:]; without a key, a value round-trips exactly when it does
    not itself start with [enc:] (such a value is stored as it is and then refused
    on the way back); and a value stored before a key was configured is still
    readable after. *)
Theorem config_roundtrip : ∀ (g : AEAD), AEADLaws g →
  (∀ nonce p c, String.length nonce = NonceSize g →
     Encrypt (mkEncryptor (Some g)) (Some nonce) p = Ok c →
     Decrypt (mkEncryptor (Some g)) c = Ok p ∧ HasPrefix c encryptedPrefix = true) ∧
  (∀ nonce p, Encrypt (mkEncryptor None) nonce p = Ok p ∧
     (Decrypt (mkEncryptor None) p = Ok p ↔ HasPrefix p encryptedPrefix = false)) ∧
  (∀ p, HasPrefix p encryptedPrefix = false → Decrypt (mkEncryptor (Some g)) p = Ok p).
Proof.
  intros g Hg. split_and!.
  - intros nonce p c Hn He. split; [by eapply Decrypt_Encrypt_key|by eapply Encrypt_prefixed].
  - intros nonce p. split; [done|]. split; [|apply Decrypt_plain].
    unfold Decrypt. by destruct (HasPrefix p encryptedPrefix).
  - intros p. apply Decrypt_plain.
Qed.

Lemma config_roundtrip_witness :
  ∃ c, Encrypt (mkEncryptor (Some toy_aead)) (Some "ab") "token" = Ok c ∧
       Decrypt (mkEncryptor (Some toy_aead)) c = Ok "token".
Proof.
  eexists. split; [reflexivity|].
  apply (proj1 (config_roundtrip toy_aead toy_aead_laws) "ab"); reflexivity.
Defined.
