(* ===== verification/ArchiveQueue.v ===== *)
(** * The durable archive queue

    [src/internal/store/archive_queue.go]: the [archive_queue] table that holds
    archive payloads until they are delivered.  A row is pending (due at
    [NextAttemptAt]) or on hold (waits for an administrator). *)
From S2P Require Import Prelude GoStrings Base64 Crypto.

(** One row; timestamps are whole seconds ([sqliteTime]), nullable columns are
    options. *)
Record ArchiveQueueItem := mkItem {
  ID : string;
  ServerID : string;
  CreatedAt : Z;
  Payload : string;
  URL : string;
  AuthType : string;
  AuthValue : string;
  APIKeyHeader : string;
  Status : string;
  Attempts : Z;
  NextAttemptAt : Z;
  LastAttemptAt : option Z;
  LastError : option string }.

(** The [archive_queue] table, in insertion order. *)
Abbreviation Queue := (list ArchiveQueueItem).

Record ArchiveQueueStatus := mkStatus {
  PendingCount : Z;
  HoldCount : Z;
  TotalCount : Z;
  StLastError : string;
  StLastErrorAt : option Z }.

Definition ids (q : Queue) : list string := map ID q.

Definition is_pending (i : ArchiveQueueItem) : bool := Status i =?s "pending".

Definition is_held (i : ArchiveQueueItem) : bool := Status i =?s "hold".

(** [UPDATE ... WHERE p] *)
Definition update_where (p : ArchiveQueueItem → bool)
    (f : ArchiveQueueItem → ArchiveQueueItem) (q : Queue) : Queue :=
  map (λ i, if p i then f i else i) q.

Definition has_id (id : string) (i : ArchiveQueueItem) : bool := ID i =?s id.

(** [RowsAffected] of an update and of a delete. *)
Definition count_where (p : ArchiveQueueItem → bool) (q : Queue) : Z :=
  Z.of_nat (length (List.filter p q)).

Definition delete_where (p : ArchiveQueueItem → bool) (q : Queue) : Queue :=
  List.filter (λ i, negb (p i)) q.

Section Store.
(** The store's encryptor, nil when none was configured. *)
Context (encryptor : option ConfigEncryptor).

(** [if authValue != "" && s.encryptor != nil { ... Encrypt ... }] *)
Definition stored_auth (nonce : option string) (authValue : string) : result string :=
  match encryptor with
  | Some e => if authValue !=? "" then Encrypt e nonce authValue else Ok authValue
  | None => Ok authValue
  end.

(** [gen] is the outcome of [generateID], [nonce] what the encryptor's random
    source delivers, [now] the clock. *)
Definition Enqueue (gen : result string) (nonce : option string) (now : Z)
    (item : ArchiveQueueItem) : DBM Queue string :=
  match (if ID item =?s "" then gen else Ok (ID item)) with
  | Err e => db_fail e
  | Ok id =>
      match stored_auth nonce (AuthValue item) with
      | Err e => db_fail ("encrypting auth_value: " +:+ e)
      | Ok authValue =>
          exec (λ q,
            if bool_decide (id ∈ ids q) then Err "UNIQUE constraint failed: archive_queue.id"
            else Ok (id, q ++ [mkItem id (ServerID item) (sqliteTime now) (Payload item) (URL item)
                   (AuthType item) authValue (APIKeyHeader item) "pending" 0 (sqliteTime now)
                   None None]))
      end
  end.

(** [WHERE status = 'pending' AND next_attempt_at <= ?] *)
Definition is_due (now : Z) (i : ArchiveQueueItem) : bool :=
  is_pending i && (NextAttemptAt i <=? sqliteTime now)%Z.

(** [ORDER BY next_attempt_at ASC, created_at ASC] *)
Definition due_leb (a b : ArchiveQueueItem) : bool :=
  (NextAttemptAt a <? NextAttemptAt b)%Z
  || ((NextAttemptAt a =? NextAttemptAt b)%Z && (CreatedAt a <=? CreatedAt b)%Z).

Definition select_due (now : Z) (limit : nat) (q : Queue) : Queue :=
  take limit (stable_sort due_leb (List.filter (is_due now) q)).

Definition hold_item (now : Z) (errMsg : string) (i : ArchiveQueueItem) : ArchiveQueueItem :=
  mkItem (ID i) (ServerID i) (CreatedAt i) (Payload i) (URL i) (AuthType i) (AuthValue i)
    (APIKeyHeader i) "hold" (Attempts i + 1) (NextAttemptAt i) (Some (sqliteTime now)) (Some errMsg).

Definition MarkHold (now : Z) (id errMsg : string) : DBM Queue unit :=
  update (update_where (has_id id) (hold_item now errMsg)).

Definition with_auth (v : string) (i : ArchiveQueueItem) : ArchiveQueueItem :=
  mkItem (ID i) (ServerID i) (CreatedAt i) (Payload i) (URL i) (AuthType i) v
    (APIKeyHeader i) (Status i) (Attempts i) (NextAttemptAt i) (LastAttemptAt i) (LastError i).

(** The loop over the selected rows: a row whose credential does not decrypt is
    put on hold and skipped; the error of [MarkHold] is dropped. *)
Fixpoint decrypt_rows (now : Z) (rows : Queue) : DBM Queue (list ArchiveQueueItem) :=
  match rows with
  | [] => db_ret []
  | item :: rest =>
      let skip msg :=
        attempt (MarkHold now (ID item) ("decrypt failed: " +:+ msg)) ;;; decrypt_rows now rest in
      let keep item' := let! items := decrypt_rows now rest in db_ret (item' :: items) in
      match encryptor with
      | Some e =>
          if AuthValue item !=? "" then
            match Decrypt e (AuthValue item) with
            | Err msg => skip msg
            | Ok v => keep (with_auth v item)
            end
          else keep item
      | None => keep item
      end
  end.

Definition DequeueDue (now : Z) (limit : nat) : DBM Queue (list ArchiveQueueItem) :=
  let! rows := query (select_due now limit) in
  decrypt_rows now rows.

Definition MarkDelivered (id : string) : DBM Queue unit :=
  update (delete_where (has_id id)).

Definition reschedule_item (now nextAttempt : Z) (errMsg : string) (i : ArchiveQueueItem) : ArchiveQueueItem :=
  mkItem (ID i) (ServerID i) (CreatedAt i) (Payload i) (URL i) (AuthType i) (AuthValue i)
    (APIKeyHeader i) (Status i) (Attempts i + 1) (sqliteTime nextAttempt) (Some (sqliteTime now)) (Some errMsg).

Definition Reschedule (now : Z) (id : string) (nextAttempt : Z) (errMsg : string) : DBM Queue unit :=
  update (update_where (has_id id) (reschedule_item now nextAttempt errMsg)).

Definition retry_item (now : Z) (i : ArchiveQueueItem) : ArchiveQueueItem :=
  mkItem (ID i) (ServerID i) (CreatedAt i) (Payload i) (URL i) (AuthType i) (AuthValue i)
    (APIKeyHeader i) "pending" 0 (sqliteTime now) (LastAttemptAt i) (LastError i).

Definition RetryHeld (now : Z) : DBM Queue Z :=
  exec (λ q, Ok (count_where is_held q, update_where is_held (retry_item now) q)).

Definition rewrite_item (now : Z) (url authType auth apiKeyHeader : string)
    (i : ArchiveQueueItem) : ArchiveQueueItem :=
  mkItem (ID i) (ServerID i) (CreatedAt i) (Payload i) url authType auth apiKeyHeader
    (Status i) 0 (sqliteTime now) (LastAttemptAt i) (Some "").

(** [WHERE status IN ('hold', 'pending') AND url != ?] *)
Definition stale_url (url : string) (i : ArchiveQueueItem) : bool :=
  (is_held i || is_pending i) && (URL i !=? url).

Definition RewriteHeldDelivery (nonce : option string) (now : Z)
    (url authType authValue apiKeyHeader : string) : DBM Queue Z :=
  match stored_auth nonce authValue with
  | Err e => db_fail ("encrypt auth_value: " +:+ e)
  | Ok auth =>
      exec (λ q, Ok (count_where (stale_url url) q,
                     update_where (stale_url url) (rewrite_item now url authType auth apiKeyHeader) q))
  end.

Definition ClearHeld : DBM Queue Z :=
  exec (λ q, Ok (count_where is_held q, delete_where is_held q)).

(** [GROUP BY status] and the switch that sums the groups. *)
Definition counts (q : Queue) : ArchiveQueueStatus :=
  mkStatus (count_where is_pending q) (count_where is_held q) (Z.of_nat (length q)) "" None.

(** [WHERE last_error IS NOT NULL AND last_error != ''
    ORDER BY last_attempt_at DESC LIMIT 1]; SQLite orders NULL below every
    timestamp. *)
Definition has_error (i : ArchiveQueueItem) : bool :=
  match LastError i with Some e => e !=? "" | None => false end.

Definition attempt_geb (a b : ArchiveQueueItem) : bool :=
  match LastAttemptAt a, LastAttemptAt b with
  | _, None => true
  | None, Some _ => false
  | Some x, Some y => (y <=? x)%Z
  end.

Definition last_failure (q : Queue) : option ArchiveQueueItem :=
  head (stable_sort attempt_geb (List.filter has_error q)).

Definition Status_ : DBM Queue ArchiveQueueStatus :=
  let! st := query counts in
  let! r := query last_failure in
  match r with
  | None => db_ret st
  | Some i => db_ret (mkStatus (PendingCount st) (HoldCount st) (TotalCount st)
                        (default "" (LastError i)) (LastAttemptAt i))
  end.

Definition StatusForServer (serverID : string) : DBM Queue ArchiveQueueStatus :=
  query (λ q, counts (List.filter (λ i, ServerID i =?s serverID) q)).

(** [Prune] binds the cutoff as a [time.Time]; the driver writes it as local
    time with fraction and zone after the seconds, so the text comparison with a
    stored UTC timestamp keeps the whole seconds, shifted by the zone offset, and
    counts an equal second as older. *)
Definition Prune (tz_offset now olderThan : Z) : DBM Queue Z :=
  let old i := (CreatedAt i <=? (now - olderThan + tz_offset) / second)%Z in
  exec (λ q, Ok (count_where old q, delete_where old q)).

End Store.

(** ** The queue invariant

    Row ids are unique (the primary key), every status is one of the two the
    code knows, and no attempt counter is negative. *)
Definition item_ok (i : ArchiveQueueItem) : Prop :=
  (Status i = "pending" ∨ Status i = "hold") ∧ (0 <= Attempts i)%Z.

Record queue_ok (q : Queue) : Prop := {
  queue_nodup : NoDup (ids q);
  queue_items : Forall item_ok q }.

(** ** Lemmas on the table operations *)

Lemma ids_update_where p f q :
  (∀ i, ID (f i) = ID i) → ids (update_where p f q) = ids q.
Proof.
  intros Hf. unfold ids, update_where. rewrite map_map. apply map_ext.
  intros i. destruct (p i); auto.
Qed.

Lemma elem_of_update_where p f q j :
  j ∈ update_where p f q ↔ ∃ i, i ∈ q ∧ j = if p i then f i else i.
Proof.
  unfold update_where. rewrite list_elem_of_In, in_map_iff.
  setoid_rewrite <- list_elem_of_In. naive_solver.
Qed.

Lemma elem_of_delete_where p q i : i ∈ delete_where p q ↔ i ∈ q ∧ p i = false.
Proof.
  unfold delete_where. rewrite !list_elem_of_In, filter_In, negb_true_iff. done.
Qed.

Lemma NoDup_ids_delete p q : NoDup (ids q) → NoDup (ids (delete_where p q)).
Proof.
  induction q as [|i q IH]; [done|]. simpl. intros [Hn Hd]%NoDup_cons.
  destruct (p i); simpl; [by apply IH|]. apply NoDup_cons. split; [|by apply IH].
  contradict Hn. unfold ids in *. apply list_elem_of_In, in_map_iff in Hn as (j & Hj & Hin).
  apply list_elem_of_In, in_map_iff. exists j. split; [done|].
  by apply filter_In in Hin as [? _].
Qed.

Lemma queue_ok_update p f q :
  (∀ i, ID (f i) = ID i) → (∀ i, i ∈ q → p i = true → item_ok i → item_ok (f i)) →
  queue_ok q → queue_ok (update_where p f q).
Proof.
  intros Hid Hf [Hn Hi]. split; [by rewrite ids_update_where|].
  rewrite Forall_forall in *. intros j (i & Hin & ->)%elem_of_update_where.
  destruct (p i) eqn:E; auto.
Qed.

Lemma queue_ok_delete p q : queue_ok q → queue_ok (delete_where p q).
Proof.
  intros [Hn Hi]. split; [by apply NoDup_ids_delete|].
  rewrite Forall_forall in *. intros j [? _]%elem_of_delete_where. auto.
Qed.

Lemma id_unique q i j : NoDup (ids q) → i ∈ q → j ∈ q → ID i = ID j → i = j.
Proof.
  induction q as [|x q IH]; intros Hn Hi Hj E; [by apply not_elem_of_nil in Hi|].
  simpl in Hn. apply NoDup_cons in Hn as [Hx Hn].
  assert (Hin : ∀ y, y ∈ q → ID y ∈ ids q).
  { intros y Hy. apply list_elem_of_In, in_map_iff. exists y. by rewrite <- list_elem_of_In. }
  apply elem_of_cons in Hi as [->|Hi], Hj as [->|Hj]; auto.
  - exfalso. apply Hx. rewrite E. auto.
  - exfalso. apply Hx. rewrite <- E. auto.
Qed.
#[export] Hint Resolve queue_ok_delete NoDup_ids_delete : relay.

Section StoreTheorems.
Context (encryptor : option ConfigEncryptor).

Lemma hold_item_ok now msg i : item_ok i → item_ok (hold_item now msg i).
Proof. intros [_ Ha]. split; simpl; [auto|lia]. Qed.

Lemma MarkHold_ok now id msg : preserves queue_ok (MarkHold now id msg).
Proof.
  apply preserves_update. intros q. apply queue_ok_update; [done|].
  intros. by apply hold_item_ok.
Qed.

Lemma Reschedule_ok now id t msg : preserves queue_ok (Reschedule now id t msg).
Proof.
  apply preserves_update. intros q. apply queue_ok_update; [done|].
  intros i _ _ [Hs Ha]. split; simpl; [auto|lia].
Qed.

Lemma MarkDelivered_ok id : preserves queue_ok (MarkDelivered id).
Proof. apply preserves_update. auto with relay. Qed.

Lemma decrypt_rows_ok now rows : preserves queue_ok (decrypt_rows encryptor now rows).
Proof.
  induction rows as [|i rows IH]; simpl; auto with relay.
  assert (Hskip : ∀ msg, preserves queue_ok
    (attempt (MarkHold now (ID i) ("decrypt failed: " +:+ msg)) ;;; decrypt_rows encryptor now rows)).
  { intros msg. apply preserves_bind; [apply preserves_attempt, MarkHold_ok|auto]. }
  assert (Hkeep : ∀ i', preserves queue_ok
    (let! items := decrypt_rows encryptor now rows in db_ret (i' :: items))).
  { intros i'. apply preserves_bind; auto with relay. }
  destruct encryptor as [e|]; [|done].
  destruct (AuthValue i !=? ""); [|done]. destruct (Decrypt e (AuthValue i)); auto.
Qed.

Lemma DequeueDue_ok now limit : preserves queue_ok (DequeueDue encryptor now limit).
Proof. apply preserves_bind; auto using decrypt_rows_ok with relay. Qed.

Lemma Enqueue_ok gen nonce now item : preserves queue_ok (Enqueue encryptor gen nonce now item).
Proof.
  unfold Enqueue. destruct (if ID item =?s "" then _ else _) as [id|e]; auto with relay.
  destruct (stored_auth _ _ _) as [auth|e]; auto with relay.
  apply preserves_exec. intros q a q' [Hn Hi]. case_bool_decide as Hin; [done|]. intros [= <- <-].
  split.
  - unfold ids. rewrite map_app. simpl. apply NoDup_app. split_and!; [done| |apply NoDup_singleton].
    intros x Hx ->%list_elem_of_singleton. done.
  - rewrite Forall_app. split; [done|]. apply Forall_singleton.
    split; simpl; [auto|lia].
Qed.

Lemma RetryHeld_ok now : preserves queue_ok (RetryHeld now).
Proof.
  apply preserves_exec. intros q a q' Hq [= _ <-]. apply queue_ok_update; [done| |done].
  intros i _ _ _. split; simpl; auto. lia.
Qed.

Lemma RewriteHeldDelivery_ok nonce now url ty auth hdr :
  preserves queue_ok (RewriteHeldDelivery encryptor nonce now url ty auth hdr).
Proof.
  unfold RewriteHeldDelivery. destruct (stored_auth _ _ _); auto with relay.
  apply preserves_exec. intros q a' q' Hq [= _ <-]. apply queue_ok_update; [done| |done].
  intros i _ _ [Hs _]. split; simpl; auto. lia.
Qed.

Lemma ClearHeld_ok : preserves queue_ok ClearHeld.
Proof. apply preserves_exec. intros q a q' Hq [= _ <-]. auto with relay. Qed.

Lemma Prune_ok tz now age : preserves queue_ok (Prune tz now age).
Proof. apply preserves_exec. intros q a q' Hq [= _ <-]. auto with relay. Qed.

Lemma Status_ok : preserves queue_ok Status_.
Proof.
  unfold Status_. apply preserves_bind; auto with relay. intros st.
  apply preserves_bind; auto with relay. intros [i|]; auto with relay.
Qed.

Lemma due_leb_total a b : due_leb a b = true ∨ due_leb b a = true.
Proof.
  unfold due_leb.
  destruct (Z.ltb_spec (NextAttemptAt a) (NextAttemptAt b)); [by left|].
  destruct (Z.ltb_spec (NextAttemptAt b) (NextAttemptAt a)); [by right|].
  replace (NextAttemptAt a =? NextAttemptAt b)%Z with true by (symmetry; apply Z.eqb_eq; lia).
  replace (NextAttemptAt b =? NextAttemptAt a)%Z with true by (symmetry; apply Z.eqb_eq; lia).
  simpl. rewrite !Z.leb_le. lia.
Qed.

Lemma due_leb_trans a b c : due_leb a b = true → due_leb b c = true → due_leb a c = true.
Proof.
  unfold due_leb. rewrite !orb_true_iff, !andb_true_iff, !Z.ltb_lt, !Z.eqb_eq, !Z.leb_le. lia.
Qed.

Lemma select_due_sorted now limit q : StronglySorted (leb_rel due_leb) (select_due now limit q).
Proof.
  unfold select_due. pose proof (stable_sort_sorted due_leb due_leb_total due_leb_trans
    (List.filter (is_due now) q)) as H.
  rewrite <- (take_drop limit (stable_sort due_leb _)) in H.
  by apply StronglySorted_app in H as (_ & H & _).
Qed.

Lemma elem_of_select_due now limit q i : i ∈ select_due now limit q → i ∈ q ∧ is_due now i = true.
Proof.
  unfold select_due. intros H%elem_of_take. destruct H as (k & H & _).
  apply list_elem_of_lookup_2 in H. rewrite elem_of_stable_sort, list_elem_of_In, filter_In in H.
  by rewrite list_elem_of_In.
Qed.

Lemma select_due_complete now limit q i :
  i ∈ q → is_due now i = true → i ∉ select_due now limit q →
  length (select_due now limit q) = limit ∧
  Forall (λ j, due_leb j i = true) (select_due now limit q).
Proof.
  unfold select_due. intros Hi Hd Hn.
  set (l := stable_sort due_leb (List.filter (is_due now) q)) in *.
  assert (Hl : i ∈ l).
  { unfold l. rewrite elem_of_stable_sort, list_elem_of_In, filter_In, <- list_elem_of_In. done. }
  assert (Hs : StronglySorted (leb_rel due_leb) l)
    by (apply stable_sort_sorted; [apply due_leb_total|apply due_leb_trans]).
  rewrite <- (take_drop limit l) in Hl, Hs. apply elem_of_app in Hl as [Hl|Hl]; [done|].
  apply StronglySorted_app in Hs as (Hall & _ & _). split.
  - rewrite length_take. destruct (decide (length l ≤ limit)) as [Hle|]; [|lia].
    rewrite drop_ge in Hl by lia. by apply not_elem_of_nil in Hl.
  - apply Forall_forall. intros j Hj. by apply (Hall j i).
Qed.

Lemma select_due_all now limit q i :
  length q ≤ limit → i ∈ q → is_due now i = true → i ∈ select_due now limit q.
Proof.
  intros Hl Hi Hd. unfold select_due. rewrite take_ge.
  - by rewrite elem_of_stable_sort, list_elem_of_In, filter_In, <- list_elem_of_In.
  - rewrite stable_sort_perm. etransitivity; [apply filter_length_le|done].
Qed.

Lemma counts_sum q : Forall item_ok q →
  (count_where is_pending q + count_where is_held q = Z.of_nat (length q))%Z.
Proof.
  unfold count_where. induction 1 as [|i q [[Hs|Hs] _] Hi IH]; [done|..];
    unfold is_pending, is_held in *; simpl; rewrite Hs; simpl; lia.
Qed.

Lemma attempt_geb_total a b : attempt_geb a b = true ∨ attempt_geb b a = true.
Proof.
  unfold attempt_geb. destruct (LastAttemptAt a), (LastAttemptAt b); auto.
  rewrite !Z.leb_le. lia.
Qed.

Lemma attempt_geb_trans a b c :
  attempt_geb a b = true → attempt_geb b c = true → attempt_geb a c = true.
Proof.
  unfold attempt_geb. destruct (LastAttemptAt a), (LastAttemptAt b), (LastAttemptAt c); try done.
  rewrite !Z.leb_le. lia.
Qed.

Lemma elem_of_failures q i :
  i ∈ stable_sort attempt_geb (List.filter has_error q) ↔ i ∈ q ∧ has_error i = true.
Proof. rewrite elem_of_stable_sort, list_elem_of_In, filter_In, <- list_elem_of_In. done. Qed.

Lemma last_failure_Some q i : last_failure q = Some i →
  i ∈ q ∧ has_error i = true ∧ ∀ j, j ∈ q → has_error j = true → attempt_geb i j = true.
Proof.
  unfold last_failure. intros E.
  pose proof (stable_sort_sorted attempt_geb attempt_geb_total attempt_geb_trans
    (List.filter has_error q)) as Hs.
  pose proof (elem_of_failures q) as Hel.
  destruct (stable_sort _ _) as [|k l]; [done|]. injection E as ->.
  assert (Hi : i ∈ i :: l) by left. apply Hel in Hi as [? ?]. split_and!; try done.
  intros j Hj He. apply StronglySorted_inv in Hs as [_ Hs]. rewrite Forall_forall in Hs.
  assert (Hjl : j ∈ i :: l) by (by apply Hel). apply elem_of_cons in Hjl as [->|Hjl]; [|by apply Hs].
  destruct (attempt_geb_total i i); done.
Qed.

Lemma last_failure_None q : last_failure q = None → ∀ i, i ∈ q → has_error i = false.
Proof.
  unfold last_failure. pose proof (elem_of_failures q) as Hel.
  destruct (stable_sort _ _) as [|k l]; [|done]. intros _ i Hi.
  apply not_true_is_false. intros He. by eapply not_elem_of_nil, (proj2 (Hel i)).
Qed.
End StoreTheorems.

#[export] Instance ArchiveQueueItem_eq_dec : EqDecision ArchiveQueueItem.
Proof. solve_decision. Defined.

(** ** What dequeuing returns *)

(** The credential check of the dequeue loop as a function of one row. *)
Definition open_item (encryptor : option ConfigEncryptor) (i : ArchiveQueueItem) : option ArchiveQueueItem :=
  match encryptor with
  | Some e => if AuthValue i !=? "" then
                match Decrypt e (AuthValue i) with
                | Ok v => Some (with_auth v i)
                | Err _ => None
                end
              else Some i
  | None => Some i
  end.

Lemma decrypt_rows_outcome enc now rows d :
  outcome (decrypt_rows enc now rows) d = Ok (omap (open_item enc) rows).
Proof.
  unfold outcome. revert d. induction rows as [|i rows IH]; intros d; [done|].
  assert (Hkeep : ∀ i', fst ((let! items := decrypt_rows enc now rows in db_ret (i' :: items)) d)
    = Ok (i' :: omap (open_item enc) rows)).
  { intros i'. specialize (IH d). unfold db_bind. destruct (decrypt_rows enc now rows d) as [r d'].
    simpl in IH. by rewrite IH. }
  cbn [decrypt_rows omap list_omap]. unfold open_item at 1.
  destruct enc as [e|]; [|by rewrite Hkeep].
  destruct (AuthValue i !=? ""); [|by rewrite Hkeep].
  destruct (Decrypt e (AuthValue i)) as [v|msg]; [by rewrite Hkeep|].
  unfold db_bind. rewrite attempt_run. apply IH.
Qed.

Lemma DequeueDue_outcome enc now limit d items :
  outcome (DequeueDue enc now limit) d = Ok items →
  items = omap (open_item enc) (select_due now limit (tables d)).
Proof.
  unfold outcome, DequeueDue, db_bind.
  destruct (exec_cases (λ q, Ok (select_due now limit q, q)) d) as [(e & He & _)|(a & t & Hf & Ha & _)];
    fold (query (T := Queue) (select_due now limit)) in *.
  - destruct (query _ d) as [r d']. simpl in He. by subst r.
  - destruct (query _ d) as [r d']. simpl in Ha. subst r. injection Hf as <- <-.
    pose proof (decrypt_rows_outcome enc now (select_due now limit (tables d)) d') as E.
    unfold outcome in E. rewrite E. by intros [= <-].
Qed.

Lemma open_item_same enc i j :
  open_item enc i = Some j → ∃ v, j = with_auth v i.
Proof.
  unfold open_item. destruct enc as [e|].
  - destruct (AuthValue i !=? ""); [destruct (Decrypt e (AuthValue i))|]; intros; simplify_eq;
      eauto. exists (AuthValue j). by destruct j.
  - intros [= <-]. exists (AuthValue i). by destruct i.
Qed.

Lemma sorted_omap_open enc l :
  StronglySorted (leb_rel due_leb) l → StronglySorted (leb_rel due_leb) (omap (open_item enc) l).
Proof.
  induction 1 as [|i l Hs IH Hall]; simpl; [constructor|].
  destruct (open_item enc i) as [i'|] eqn:Ei; [|done]. constructor; [done|].
  rewrite Forall_forall in *. intros j' (j & Hj & Ej)%list_elem_of_omap.
  apply open_item_same in Ei as [v ->], Ej as [w ->]. by apply (Hall j).
Qed.

(** a successful [DequeueDue] returns at most [limit] rows, exactly the
    selected due pending rows whose credential decrypts, earliest first, and a due
    row is left out of the selection only when [limit] rows that are due no later
    than it were selected. *)
Theorem dequeue_due_spec : ∀ enc now limit (d : Db Queue) items,
  outcome (DequeueDue enc now limit) d = Ok items →
  let sel := select_due now limit (tables d) in
  items = omap (open_item enc) sel ∧
  length items ≤ limit ∧
  StronglySorted (leb_rel due_leb) items ∧
  (∀ i, i ∈ sel → i ∈ tables d ∧ Status i = "pending" ∧ (NextAttemptAt i <= sqliteTime now)%Z) ∧
  (∀ i, i ∈ tables d → is_due now i = true → i ∉ sel →
     length sel = limit ∧ Forall (λ j, due_leb j i = true) sel).
Proof.
  intros enc now limit d items H sel. apply DequeueDue_outcome in H. fold sel in H. subst items.
  split_and!; [done| | | |].
  - etransitivity; [|apply (firstn_le_length limit (stable_sort due_leb (List.filter (is_due now) (tables d))))].
    apply length_omap_le.
  - apply sorted_omap_open, select_due_sorted.
  - intros i [Hi Hd]%elem_of_select_due. unfold is_due, is_pending in Hd. bool_prop. done.
  - intros i. apply select_due_complete.
Qed.

Definition demo_item (id : string) (next : Z) : ArchiveQueueItem :=
  mkItem id "srv" 5 "{}" "https://a" "none" "" "X-API-Key" "pending" 0 next None None.

Lemma dequeue_due_spec_witness :
  outcome (DequeueDue None (9 * second) 2) (healthy [demo_item "b" 8; demo_item "c" 99; demo_item "a" 7])
    = Ok [demo_item "a" 7; demo_item "b" 8] ∧
  length [demo_item "a" 7; demo_item "b" 8] ≤ 2.
Proof.
  split; [reflexivity|].
  apply (dequeue_due_spec None (9 * second) 2
    (healthy [demo_item "b" 8; demo_item "c" 99; demo_item "a" 7]) [demo_item "a" 7; demo_item "b" 8]).
  reflexivity.
Defined.

(** every operation of the store keeps row ids unique, every status
    pending or hold and every attempt counter non-negative, whatever statements
    fail. *)
Theorem archive_queue_invariant : ∀ enc gen nonce now item id t msg url ty auth hdr age tz limit,
  preserves queue_ok (Enqueue enc gen nonce now item) ∧
  preserves queue_ok (DequeueDue enc now limit) ∧
  preserves queue_ok (MarkDelivered id) ∧
  preserves queue_ok (Reschedule now id t msg) ∧
  preserves queue_ok (MarkHold now id msg) ∧
  preserves queue_ok (RetryHeld now) ∧
  preserves queue_ok (RewriteHeldDelivery enc nonce now url ty auth hdr) ∧
  preserves queue_ok ClearHeld ∧
  preserves queue_ok (Prune tz now age).
Proof.
  intros. split_and!.
  all: first [apply Enqueue_ok | apply DequeueDue_ok | apply MarkDelivered_ok | apply Reschedule_ok
    | apply MarkHold_ok | apply RetryHeld_ok | apply RewriteHeldDelivery_ok | apply ClearHeld_ok | apply Prune_ok].
Qed.

(** an item enqueued with a credential is stored encrypted and
    comes back from the next full dequeue with its payload, destination and
    original credential, pending with zero attempts. *)
Theorem enqueue_dequeue_roundtrip : ∀ g, AEADLaws g →
  ∀ id nonce now now' item (q : Queue),
  id ∉ ids q → ID item = "" → String.length nonce = NonceSize g → (now <= now')%Z →
  let enc := Some (mkEncryptor (Some g)) in
  let q1 := final (Enqueue enc (Ok id) (Some nonce) now item) (healthy q) in
  ∃ row j, q1 = q ++ [row] ∧
    (AuthValue item ≠ "" → HasPrefix (AuthValue row) encryptedPrefix = true) ∧
    outcome (DequeueDue enc now' (length q1)) (healthy q1) = Ok (omap (open_item enc) (select_due now' (length q1) q1)) ∧
    j ∈ omap (open_item enc) (select_due now' (length q1) q1) ∧
    ID j = id ∧ Payload j = Payload item ∧ URL j = URL item ∧ AuthType j = AuthType item ∧
    AuthValue j = AuthValue item ∧ Attempts j = 0%Z ∧ Status j = "pending".
Proof.
  intros g Hg id nonce now now' item q Hid Hnew Hn Hle enc q1.
  assert (Hsa : ∃ c, stored_auth enc (Some nonce) (AuthValue item) = Ok c ∧
      (AuthValue item ≠ "" → HasPrefix c encryptedPrefix = true) ∧
      (∀ i, AuthValue i = c → open_item enc i = Some (with_auth (AuthValue item) i))).
  { unfold stored_auth, enc. destruct (AuthValue item =?s "") eqn:E; simpl.
    - apply String.eqb_eq in E. exists (AuthValue item). split_and!; [done|congruence|].
      intros i Hi. unfold open_item. rewrite Hi, E. simpl. f_equal.
      destruct i. simpl in Hi. unfold with_auth. simpl. congruence.
    - eexists. split; [done|]. split; [intros _; by apply (Encrypt_prefixed g (Some nonce) (AuthValue item))|].
      intros i Hi. unfold open_item. rewrite Hi. simpl.
      erewrite (Decrypt_Encrypt_key g nonce (AuthValue item)) by done. done. }
  destruct Hsa as (c & Hc & Hpre & Hopen).
  set (row := mkItem id (ServerID item) (sqliteTime now) (Payload item) (URL item) (AuthType item) c
    (APIKeyHeader item) "pending" 0 (sqliteTime now) None None).
  assert (Hq1 : q1 = q ++ [row]).
  { unfold q1, final, Enqueue. rewrite Hnew, String.eqb_refl, Hc, exec_healthy.
    by rewrite bool_decide_false by done. }
  exists row, (with_auth (AuthValue item) row). split_and!; try done.
  - unfold DequeueDue, db_bind, query, outcome. rewrite exec_healthy. apply decrypt_rows_outcome.
  - apply list_elem_of_omap. exists row. split; [|by apply Hopen].
    apply select_due_all; [done| |].
    + rewrite Hq1, elem_of_app, list_elem_of_singleton. auto.
    + unfold is_due, is_pending, row. simpl. apply Z.leb_le. apply Z.div_le_mono; [done|lia].
Qed.

Lemma enqueue_dequeue_roundtrip_witness :
  ∃ row, final (Enqueue (Some (mkEncryptor (Some toy_aead))) (Ok "id1") (Some "ab") 0
      (mkItem "" "srv" 0 "{}" "https://a" "bearer" "token" "X-API-Key" "" 0 0 None None)) (healthy []) = [row]
    ∧ HasPrefix (AuthValue row) encryptedPrefix = true.
Proof.
  destruct (enqueue_dequeue_roundtrip toy_aead toy_aead_laws "id1" "ab" 0 1
    (mkItem "" "srv" 0 "{}" "https://a" "bearer" "token" "X-API-Key" "" 0 0 None None) [])
    as (row & j & Hq & Hp & _); [apply not_elem_of_nil|reflexivity|reflexivity|lia|].
  exists row. split; [exact Hq|by apply Hp].
Defined.

(** the administrator's retry (rewrite the destination, then release
    the held rows) on a healthy database leaves no row on hold: every row is
    pending at the new URL, every row that was held or pointed elsewhere is due
    at once with its attempt counter reset, and no row is lost. *)
Theorem admin_retry_recovers : ∀ enc nonce now url ty auth hdr (q : Queue) c,
  queue_ok q → stored_auth enc nonce auth = Ok c →
  let q1 := final (RewriteHeldDelivery enc nonce now url ty auth hdr) (healthy q) in
  let q2 := final (RetryHeld now) (healthy q1) in
  ids q2 = ids q ∧
  (∀ i, i ∈ q2 → Status i = "pending" ∧ URL i = url ∧
     (is_due now i = true ∧ Attempts i = 0%Z ∨ i ∈ q)).
Proof.
  intros enc nonce now url ty auth hdr q c [Hn Hi] Hc q1 q2.
  assert (Hq1 : q1 = update_where (stale_url url) (rewrite_item now url ty c hdr) q).
  { unfold q1, final, RewriteHeldDelivery. by rewrite Hc. }
  assert (Hq2 : q2 = update_where is_held (retry_item now) q1) by done.
  rewrite Forall_forall in Hi.
  assert (Hall : ∀ i, i ∈ q2 → Status i = "pending" ∧ URL i = url ∧
     (is_due now i = true ∧ Attempts i = 0%Z ∨ i ∈ q)).
  { intros i. rewrite Hq2, elem_of_update_where. intros (j & Hj & ->).
    rewrite Hq1, elem_of_update_where in Hj. destruct Hj as (k & Hk & ->).
    destruct (Hi k Hk) as [Hst _].
    assert (Hdue : ∀ x, Status x = "pending" → NextAttemptAt x = sqliteTime now → is_due now x = true).
    { intros x Hx Ht. unfold is_due, is_pending. rewrite Hx, Ht. simpl. apply Z.leb_le. lia. }
    assert (Hu : stale_url url k = negb (URL k =?s url)).
    { unfold stale_url, is_held, is_pending. destruct Hst as [-> | ->]; done. }
    rewrite Hu. destruct (URL k =?s url) eqn:E; simpl.
    - apply String.eqb_eq in E. unfold is_held. destruct Hst as [Hst|Hst]; rewrite Hst; simpl; auto.
      split_and!; try done. left. split; [by apply Hdue|done].
    - destruct (is_held (rewrite_item now url ty c hdr k)) eqn:Eh.
      + split_and!; try done. left. split; [by apply Hdue|done].
      + assert (Hp : Status k = "pending") by (destruct Hst as [?|Hh]; [done|];
          unfold is_held in Eh; simpl in Eh; by rewrite Hh in Eh).
        split_and!; try done. left. split; [by apply Hdue|done]. }
  split; [by rewrite Hq2, Hq1, !ids_update_where|exact Hall].
Qed.

Lemma demo_held_ok : queue_ok [hold_item 0 "HTTP 404" (demo_item "a" 7)].
Proof.
  split; [apply NoDup_singleton|]. apply Forall_singleton. split; [by right|done].
Qed.

Lemma admin_retry_recovers_witness :
  let q := [hold_item 0 "HTTP 404" (demo_item "a" 7)] in
  ids (final (RetryHeld 0) (healthy
    (final (RewriteHeldDelivery None None 0 "https://new" "none" "" "X") (healthy q)))) = ["a"].
Proof.
  apply (proj1 (admin_retry_recovers None None 0 "https://new" "none" "" "X"
    [hold_item 0 "HTTP 404" (demo_item "a" 7)] ""
    demo_held_ok eq_refl)).
Defined.

(** on a queue that satisfies the invariant the status summary's
    pending and held counts add up to its total, and the reported last error is
    that of a row with a non-empty error that was attempted last. *)
Theorem queue_status_counts : ∀ (q : Queue) st,
  queue_ok q → outcome Status_ (healthy q) = Ok st →
  (PendingCount st + HoldCount st = TotalCount st)%Z ∧ TotalCount st = Z.of_nat (length q) ∧
  (StLastError st = "" ∧ (∀ i, i ∈ q → has_error i = false) ∨
   ∃ i, i ∈ q ∧ has_error i = true ∧ LastError i = Some (StLastError st) ∧
        StLastErrorAt st = LastAttemptAt i ∧
        (∀ j, j ∈ q → has_error j = true → attempt_geb i j = true)).
Proof.
  intros q st [_ Hi] H. unfold outcome, Status_, db_bind, query in H. rewrite exec_healthy in H.
  destruct (last_failure q) as [i|] eqn:E; cbn -[counts last_failure] in H; rewrite E in H;
    injection H as <-; simpl; (split; [by apply counts_sum|]); (split; [done|]).
  - right. apply last_failure_Some in E as (Hin & He & Hmax). exists i. split_and!; try done.
    unfold has_error in He. by destruct (LastError i).
  - left. split; [done|]. by apply last_failure_None.
Qed.

Lemma queue_status_counts_witness :
  let q := [hold_item 0 "HTTP 404" (demo_item "a" 7); demo_item "b" 7] in
  ∃ st, outcome Status_ (healthy q) = Ok st ∧ (PendingCount st + HoldCount st = TotalCount st)%Z.
Proof.
  eexists. split; [reflexivity|].
  refine (proj1 (queue_status_counts [hold_item 0 "HTTP 404" (demo_item "a" 7); demo_item "b" 7] _ _ eq_refl)).
  split; [apply (bool_decide_unpack _); reflexivity|].
  repeat apply Forall_cons_2; try apply Forall_nil_2; (split; [by auto|vm_compute; discriminate]).
Defined.
