(* ===== verification/ArchiveDispatcher.v ===== *)
(** * The archive dispatcher

    [src/internal/middleware/archive_dispatcher.go] and the sealing and
    validation code of [archive.go] and [archive_encrypt.go]: durable delivery of
    archive payloads with retry and a circuit breaker.

    The dispatcher's own state (breaker, wake-up channel, stop channel) and the
    queue table form a [World].  The network is a function from the number of
    requests made so far and the request to an outcome, so a theorem that
    quantifies over it covers every sequence of answers.  [drainDue] is the
    function the code runs; [step] splits it at the points where the mutex is
    free, so that administrator actions can run between two deliveries. *)
From stdpp Require Import pretty.
From S2P Require Import Prelude GoStrings Base64 Crypto ArchiveQueue.

(** ** Configuration and sealing (archive.go, archive_encrypt.go) *)

Record ArchiveConfig := mkCfg {
  CfgURL : string; CfgAuthType : string; CfgAuthValue : string;
  CfgAPIKeyHeader : string; Include : string; NaClRecipientKey : string }.

Definition DefaultArchiveConfig : ArchiveConfig := mkCfg "" "" "" "" "both" "".

(** A decoded recipient key is a string of 32 bytes. *)
Definition DecodeRecipientKey (b64Key : string) : result string :=
  match DecodeString b64Key with
  | None => Err "invalid base64"
  | Some raw => if negb (String.length raw =? 32) then Err "expected 32 bytes" else Ok raw
  end.

Definition EnvelopeVersion : string := "nacl-box-v1".

Record naclEnvelope := mkEnvelope {
  EnvVersion : string; KeyID : string; Nonce : string; Ciphertext : string; SourcePublicKey : string }.

(** What the code takes from golang.org/x/crypto: key generation and nonce (which
    can fail), [box.Seal] and the BLAKE2b-256 digest. *)
Record NaCl := mkNaCl {
  GenerateKey : option (string * string);
  RandNonce : option string;
  BoxSeal : string → string → string → string → string;
  Blake2b256 : string → string }.

Definition ComputeKeyID (n : NaCl) (pubKey : string) : string :=
  EncodeToString (take_str 8 (Blake2b256 n pubKey)).

Definition encryptPayload (n : NaCl) (payload recipientPubKey : string) : result naclEnvelope :=
  match GenerateKey n with
  | None => Err "generating ephemeral keypair"
  | Some (senderPub, senderPriv) =>
      match RandNonce n with
      | None => Err "generating nonce"
      | Some nonce =>
          Ok (mkEnvelope EnvelopeVersion (ComputeKeyID n recipientPubKey) (EncodeToString nonce)
                (EncodeToString (BoxSeal n payload nonce recipientPubKey senderPriv))
                (EncodeToString senderPub))
      end
  end.

(** [json.Marshal] of the envelope: every field is base64 or a constant, so no
    character needs escaping; an empty [kid] is omitted. *)
Definition quote (s : string) : string := String "034"%char (s +:+ String "034"%char "").

Definition marshalEnvelope (e : naclEnvelope) : string :=
  "{" +:+ quote "version" +:+ ":" +:+ quote (EnvVersion e) +:+ "," +:+
  (if KeyID e =?s "" then "" else quote "kid" +:+ ":" +:+ quote (KeyID e) +:+ ",") +:+
  quote "nonce" +:+ ":" +:+ quote (Nonce e) +:+ "," +:+
  quote "ciphertext" +:+ ":" +:+ quote (Ciphertext e) +:+ "," +:+
  quote "sourcePublicKey" +:+ ":" +:+ quote (SourcePublicKey e) +:+ "}".

Definition sealArchivePayload (n : NaCl) (payload : string) (recipientKey : option string) : result string :=
  match recipientKey with
  | None => Ok payload
  | Some k => result_map marshalEnvelope (encryptPayload n payload k)
  end.

(** What [url.Parse] answers: scheme and host name. *)
Record ParsedURL := mkURL { Scheme : string; Hostname : string }.

(** [net.ParseIP] with [IP.IsLoopback]: [None] when the host is not an address. *)
Definition isLoopbackHost (parseLoopback : string → option bool) (host : string) : bool :=
  if host =?s "localhost" then true
  else match parseLoopback host with Some b => b | None => false end.

Definition ValidateArchiveConfig (parseURL : string → option ParsedURL)
    (parseLoopback : string → option bool) (cfg : ArchiveConfig) : result (option string) :=
  if CfgURL cfg =?s "" then Err "archive: url is required"
  else match parseURL (CfgURL cfg) with
  | None => Err "archive: url is not parseable"
  | Some parsed =>
      let scheme_ok :=
        if Scheme parsed =?s "https" then Ok tt
        else if Scheme parsed =?s "http" then
          if isLoopbackHost parseLoopback (Hostname parsed) then Ok tt
          else Err "archive: url must use https (plain http allowed only for localhost)"
        else Err "archive: url must use http or https" in
      let auth_ok :=
        if (CfgAuthType cfg =?s "") || (CfgAuthType cfg =?s "none") then Ok tt
        else if (CfgAuthType cfg =?s "bearer") || (CfgAuthType cfg =?s "api_key") then
          if CfgAuthValue cfg =?s "" then Err "archive: auth_value is required" else Ok tt
        else Err "archive: auth_type must be none/bearer/api_key" in
      let include_ok :=
        if (Include cfg =?s "") || (Include cfg =?s "request") || (Include cfg =?s "response")
           || (Include cfg =?s "both") then Ok tt
        else Err "archive: include must be request/response/both" in
      result_bind scheme_ok (λ _, result_bind auth_ok (λ _, result_bind include_ok (λ _,
        if NaClRecipientKey cfg =?s "" then Ok None
        else match DecodeRecipientKey (NaClRecipientKey cfg) with
             | Err e => Err ("archive: invalid nacl_recipient_key: " +:+ e)
             | Ok key => Ok (Some key)
             end)))
  end.

(** ** The dispatcher's state *)

Definition BackoffSchedule : list Z :=
  [0; 15 * second; 1 * minute; 5 * minute; 15 * minute; 1 * hour; 6 * hour]%Z.

Definition cbPauseDurations : list Z := [1 * minute; 5 * minute; 15 * minute]%Z.

Inductive circuit := cbClosed | cbOpen | cbHalfOpen.

Definition cbFailThreshold : Z := 5.

Definition drainBatchSize : nat := 50.

#[export] Instance circuit_eq_dec : EqDecision circuit.
Proof. solve_decision. Defined.

Record Breaker := mkBreaker {
  consecutiveFails : Z;
  cbState : circuit;
  cbOpenedAt : Z;
  cbPauseLevel : Z }.

(** HTTP: header names are canonicalised by [Header.Set]. *)
Definition is_alnum_dash (c : ascii) : bool :=
  ((48 <=? byte c) && (byte c <=? 57)) || ((65 <=? byte c) && (byte c <=? 90))
  || ((97 <=? byte c) && (byte c <=? 122)) || (byte c =? 45).

Fixpoint canonical_go (upper : bool) (s : string) : string :=
  match s with
  | EmptyString => ""
  | String c s' => String (if upper then upper_char c else lower_char c)
                     (canonical_go (Ascii.eqb c "-"%char) s')
  end.

Definition CanonicalHeaderKey (s : string) : string :=
  if all_chars is_alnum_dash s then canonical_go true s else s.

Record HttpRequest := mkReq { ReqURL : string; ReqBody : string; ReqHeader : gmap string string }.

Inductive HttpOutcome := NetError (msg : string) | HttpStatus (code : Z).

Record Event := mkEvent { EventType : string; Summary : string }.

Record World := mkWorld {
  queue : Db Queue;
  breaker : Breaker;
  pollCh : bool;      (* the one-element wake-up channel holds a token *)
  stopped : bool;     (* stopCh is closed *)
  clock : Z;          (* what NowFunc and time.Now answer *)
  requests : nat;     (* HTTP requests made so far *)
  deliveries : list (HttpRequest * HttpOutcome);  (* the requests and their answers, newest first *)
  events : list Event }.

Definition with_queue (w : World) (q : Db Queue) : World :=
  mkWorld q (breaker w) (pollCh w) (stopped w) (clock w) (requests w) (deliveries w) (events w).
Definition with_breaker (w : World) (b : Breaker) : World :=
  mkWorld (queue w) b (pollCh w) (stopped w) (clock w) (requests w) (deliveries w) (events w).
Definition with_poll (w : World) (p : bool) : World :=
  mkWorld (queue w) (breaker w) p (stopped w) (clock w) (requests w) (deliveries w) (events w).
Definition with_event (w : World) (e : Event) : World :=
  mkWorld (queue w) (breaker w) (pollCh w) (stopped w) (clock w) (requests w) (deliveries w) (e :: events w).
Definition with_clock (w : World) (t : Z) : World :=
  mkWorld (queue w) (breaker w) (pollCh w) (stopped w) t (requests w) (deliveries w) (events w).
Definition with_stopped (w : World) : World :=
  mkWorld (queue w) (breaker w) (pollCh w) true (clock w) (requests w) (deliveries w) (events w).

(** A store call. *)
Definition on_queue {A} (m : DBM Queue A) (w : World) : result A * World :=
  let '(r, q) := m (queue w) in (r, with_queue w q).

Definition isTransient (statusCode : Z) : bool :=
  (500 <=? statusCode)%Z || (statusCode =? 408)%Z || (statusCode =? 429)%Z.

Definition delivered (o : HttpOutcome) : bool :=
  match o with HttpStatus code => (code <? 300)%Z | NetError _ => false end.

(** [BackoffSchedule[idx]]: a Go slice index; out of range panics, which
    [nextAttemptTime] is proved never to do for a non-negative counter. *)
Definition nextAttemptTime (now currentAttempts : Z) : option Z :=
  let idx := (currentAttempts + 1)%Z in
  let len := Z.of_nat (length BackoffSchedule) in
  let idx := if (len <=? idx)%Z then (len - 1)%Z else idx in
  if (idx <? 0)%Z then None
  else (λ d, (now + d)%Z) <$> (BackoffSchedule !! Z.to_nat idx).

Section Dispatcher.
Context (encryptor : option ConfigEncryptor).
(** The error of [http.NewRequest] for a URL, [None] when the URL is accepted. *)
Context (newRequestErr : string → option string).
(** The answer of the network to the n-th request. *)
Context (network : nat → HttpRequest → HttpOutcome).
(** Whether an event logger is installed. *)
Context (eventLogger : bool).

Definition build_request (url payload authType authValue apiKeyHeader : string) : HttpRequest :=
  let h := <[CanonicalHeaderKey "Content-Type" := "application/json"]> ∅ in
  let h := if authType =?s "bearer" then <["Authorization" := "Bearer " +:+ authValue]> h
           else if authType =?s "api_key" then
             let header := if apiKeyHeader =?s "" then "X-API-Key" else apiKeyHeader in
             <[CanonicalHeaderKey header := authValue]> h
           else h in
  mkReq url payload h.

(** [d.httpClient.Do(req)] *)
Definition do_request (req : HttpRequest) (w : World) : HttpOutcome * World :=
  let o := network (requests w) req in
  (o, mkWorld (queue w) (breaker w) (pollCh w) (stopped w) (clock w) (S (requests w))
        ((req, o) :: deliveries w) (events w)).

Definition fmtZ (z : Z) : string := pretty z.

(** The errors of the store calls in [sendOne] are logged and dropped. *)
Definition sendOne (item : ArchiveQueueItem) (w : World) : bool * World :=
  match newRequestErr (URL item) with
  | Some e => (false, snd (on_queue (MarkHold (clock w) (ID item) ("invalid request: " +:+ e)) w))
  | None =>
      let req := build_request (URL item) (Payload item) (AuthType item) (AuthValue item) (APIKeyHeader item) in
      let '(o, w) := do_request req w in
      let reschedule errMsg :=
        match nextAttemptTime (clock w) (Attempts item) with
        | Some t => (false, snd (on_queue (Reschedule (clock w) (ID item) t errMsg) w))
        | None => (false, w)
        end in
      match o with
      | NetError e => reschedule ("network error: " +:+ e)
      | HttpStatus code =>
          if (code <? 300)%Z then (true, snd (on_queue (MarkDelivered (ID item)) w))
          else
            let errMsg := "HTTP " +:+ fmtZ code in
            if isTransient code then reschedule errMsg
            else (false, snd (on_queue (MarkHold (clock w) (ID item) errMsg) w))
      end
  end.

Definition log_event (ty summary : string) (w : World) : World :=
  if eventLogger then with_event w (mkEvent ty summary) else w.

(** The breaker check at the top of [drainDue]: [true] means go on. *)
Definition pause_of (level : Z) : Z :=
  let len := Z.of_nat (length cbPauseDurations) in
  let idx := if (len <=? level)%Z then (len - 1)%Z else level in
  default 0%Z (cbPauseDurations !! Z.to_nat idx).

Definition check_breaker (w : World) : bool * World :=
  let b := breaker w in
  match cbState b with
  | cbOpen =>
      if (pause_of (cbPauseLevel b) <=? clock w - cbOpenedAt b)%Z
      then (true, with_breaker w (mkBreaker (consecutiveFails b) cbHalfOpen (cbOpenedAt b) (cbPauseLevel b)))
      else (false, w)
  | _ => (true, w)
  end.

(** The bookkeeping after one delivery attempt: the new world and whether the
    loop returns. *)
Definition after_send (ok : bool) (w : World) : bool * World :=
  let b := breaker w in
  if ok then
    match cbState b with
    | cbHalfOpen =>
        (false, log_event "circuit_closed" "archive delivery recovered, circuit breaker closed"
                  (with_breaker w (mkBreaker 0 cbClosed (cbOpenedAt b) 0)))
    | _ => (false, with_breaker w (mkBreaker 0 (cbState b) (cbOpenedAt b) (cbPauseLevel b)))
    end
  else
    let fails := (consecutiveFails b + 1)%Z in
    match cbState b with
    | cbHalfOpen =>
        let lvl := if (cbPauseLevel b <? Z.of_nat (length cbPauseDurations) - 1)%Z
                   then (cbPauseLevel b + 1)%Z else cbPauseLevel b in
        (true, with_breaker w (mkBreaker fails cbOpen (clock w) lvl))
    | _ =>
        if (cbFailThreshold <=? fails)%Z then
          (true, log_event "circuit_open"
             ("archive delivery failing, circuit breaker opened after " +:+ fmtZ fails +:+ " failures")
             (with_breaker w (mkBreaker fails cbOpen (clock w) (cbPauseLevel b))))
        else (false, with_breaker w (mkBreaker fails (cbState b) (cbOpenedAt b) (cbPauseLevel b)))
    end.

Definition deliver (item : ArchiveQueueItem) (w : World) : bool * World :=
  let '(ok, w1) := sendOne item w in after_send ok w1.

Fixpoint drain_items (items : list ArchiveQueueItem) (w : World) : World :=
  match items with
  | [] => w
  | item :: rest =>
      if stopped w then w
      else let '(ret, w1) := deliver item w in
           if ret then w1 else drain_items rest w1
  end.

Definition drainDue (w : World) : World :=
  let '(go, w1) := check_breaker w in
  if go then
    match on_queue (DequeueDue encryptor (clock w1) drainBatchSize) w1 with
    | (Ok items, w2) => drain_items items w2
    | (Err _, w2) => w2
    end
  else w1.

(** [select { case d.pollCh <- struct{}{}: default: }] *)
Definition Wake (w : World) : World := with_poll w true.

Definition ResetCircuit (w : World) : World :=
  let b := breaker w in
  Wake (with_breaker w (mkBreaker 0 cbClosed (cbOpenedAt b) 0)).

Definition new_item (serverID : string) (payload : string) (cfg : ArchiveConfig) : ArchiveQueueItem :=
  mkItem "" serverID 0 payload (CfgURL cfg) (CfgAuthType cfg) (CfgAuthValue cfg)
    (if CfgAPIKeyHeader cfg =?s "" then "X-API-Key" else CfgAPIKeyHeader cfg) "" 0 0 None None.

Definition EnqueueWithServer (gen : result string) (nonce : option string)
    (payload : string) (cfg : ArchiveConfig) (serverID : string) (w : World) : result unit * World :=
  match on_queue (Enqueue encryptor gen nonce (clock w) (new_item serverID payload cfg)) w with
  | (Err e, w1) => (Err ("archive dispatcher: enqueue failed: " +:+ e), w1)
  | (Ok _, w1) => (Ok tt, Wake w1)
  end.

(** [Enqueue] leaves the server id empty. *)
Definition DispatcherEnqueue (gen : result string) (nonce : option string)
    (payload : string) (cfg : ArchiveConfig) (w : World) : result unit * World :=
  EnqueueWithServer gen nonce payload cfg "" w.

Definition DispatcherRetryHeld (w : World) : result Z * World :=
  match on_queue (RetryHeld (clock w)) w with
  | (Err e, w1) => (Err e, w1)
  | (Ok count, w1) => (Ok count, ResetCircuit w1)
  end.

Definition DispatcherRewriteHeldDelivery (nonce : option string) (cfg : ArchiveConfig) (w : World)
    : result Z * World :=
  on_queue (RewriteHeldDelivery encryptor nonce (clock w) (CfgURL cfg) (CfgAuthType cfg)
    (CfgAuthValue cfg) (CfgAPIKeyHeader cfg)) w.

Definition DispatcherClearHeld (w : World) : result Z * World := on_queue ClearHeld w.

Definition testPayload : string :=
  "{" +:+ quote "version" +:+ ":" +:+ quote "v1" +:+ "," +:+ quote "source" +:+ ":" +:+ quote "arc_relay"
  +:+ "," +:+ quote "phase" +:+ ":" +:+ quote "test" +:+ "," +:+ quote "meta" +:+ ":{"
  +:+ quote "server_name" +:+ ":" +:+ quote "connectivity_test" +:+ "}}".

(** Status code (0 when no answer came) and error. *)
Definition SendTest (nacl : NaCl) (cfg : ArchiveConfig) (w : World) : (Z * option string) * World :=
  let key := if NaClRecipientKey cfg =?s "" then Ok None
             else result_map Some (DecodeRecipientKey (NaClRecipientKey cfg)) in
  match key with
  | Err e => ((0%Z, Some ("invalid nacl_recipient_key: " +:+ e)), w)
  | Ok recipientKey =>
      match sealArchivePayload nacl testPayload recipientKey with
      | Err e => ((0%Z, Some ("seal test payload: " +:+ e)), w)
      | Ok sealed =>
          match newRequestErr (CfgURL cfg) with
          | Some e => ((0%Z, Some ("failed to create request: " +:+ e)), w)
          | None =>
              let req := build_request (CfgURL cfg) sealed (CfgAuthType cfg) (CfgAuthValue cfg) (CfgAPIKeyHeader cfg) in
              let '(o, w1) := do_request req w in
              match o with
              | NetError e => ((0%Z, Some ("connection failed: " +:+ e)), w1)
              | HttpStatus code =>
                  if (300 <=? code)%Z then ((code, Some ("server returned HTTP " +:+ fmtZ code)), w1)
                  else
                    let b := breaker w1 in
                    match cbState b with
                    | cbClosed => ((code, None), w1)
                    | _ => ((code, None), with_breaker w1 (mkBreaker 0 cbClosed (cbOpenedAt b) 0))
                    end
              end
          end
      end
  end.

Definition DispatcherStatus (w : World) : (circuit * ArchiveQueueStatus) * World :=
  match on_queue Status_ w with
  | (Ok qs, w1) => ((cbState (breaker w), qs), w1)
  | (Err _, w1) => ((cbState (breaker w), mkStatus 0 0 0 "" None), w1)
  end.

End Dispatcher.

Definition NewArchiveDispatcher (q : Db Queue) (now : Z) : World :=
  mkWorld q (mkBreaker 0 cbClosed 0 0) false false now 0 [] [].

(** ** The interleaved system *)

(** Where the delivery loop is between two atomic actions. *)
Inductive mode :=
| Idle
| Checked
| Draining (items : list ArchiveQueueItem)
| Sent (ok : bool) (rest : list ArchiveQueueItem).

Section Steps.
Context (encryptor : option ConfigEncryptor) (newRequestErr : string → option string)
        (network : nat → HttpRequest → HttpOutcome) (eventLogger : bool) (nacl : NaCl).

(** One step of the system: the delivery loop advances, or another goroutine
    completes a call of the dispatcher's API, or time passes. *)
Inductive step : World * mode → World * mode → Prop :=
| step_check_go w w1 : check_breaker w = (true, w1) → step (w, Idle) (w1, Checked)
| step_check_paused w w1 : check_breaker w = (false, w1) → step (w, Idle) (w1, Idle)
| step_dequeue w items w1 :
    on_queue (DequeueDue encryptor (clock w) drainBatchSize) w = (Ok items, w1) →
    step (w, Checked) (w1, Draining items)
| step_dequeue_err w e w1 :
    on_queue (DequeueDue encryptor (clock w) drainBatchSize) w = (Err e, w1) →
    step (w, Checked) (w1, Idle)
| step_drained w : step (w, Draining []) (w, Idle)
| step_stop_seen w items : stopped w = true → step (w, Draining items) (w, Idle)
| step_send w item rest ok w1 :
    stopped w = false → sendOne newRequestErr network item w = (ok, w1) →
    step (w, Draining (item :: rest)) (w1, Sent ok rest)
| step_after_return w ok rest w1 :
    after_send eventLogger ok w = (true, w1) → step (w, Sent ok rest) (w1, Idle)
| step_after_continue w ok rest w1 :
    after_send eventLogger ok w = (false, w1) → step (w, Sent ok rest) (w1, Draining rest)
| step_enqueue w m gen nonce payload cfg sid :
    step (w, m) (snd (EnqueueWithServer encryptor gen nonce payload cfg sid w), m)
| step_retry w m : step (w, m) (snd (DispatcherRetryHeld w), m)
| step_rewrite w m nonce cfg : step (w, m) (snd (DispatcherRewriteHeldDelivery encryptor nonce cfg w), m)
| step_clear w m : step (w, m) (snd (DispatcherClearHeld w), m)
| step_reset w m : step (w, m) (ResetCircuit w, m)
| step_test w m cfg : step (w, m) (snd (SendTest newRequestErr network nacl cfg w), m)
| step_poll w m p : step (w, m) (with_poll w p, m)
| step_stop w m : step (w, m) (with_stopped w, m)
| step_time w m t : (clock w <= t)%Z → step (w, m) (with_clock w t, m).

(** The breaker's invariant: pause level within the table, counter non-negative,
    closed exactly below the failure threshold. *)
Record breaker_ok (b : Breaker) : Prop := {
  level_ok : (0 <= cbPauseLevel b < Z.of_nat (length cbPauseDurations))%Z;
  fails_ok : (0 <= consecutiveFails b)%Z;
  closed_ok : cbState b = cbClosed ↔ (consecutiveFails b < cbFailThreshold)%Z }.

Lemma closed_intro f t lvl :
  (0 <= f < 5)%Z → (0 <= lvl < 3)%Z → breaker_ok (mkBreaker f cbClosed t lvl).
Proof. intros. constructor; cbn; unfold cbFailThreshold; lia || (split; [lia|done]). Qed.

Lemma not_closed_intro f s t lvl :
  (0 <= lvl < 3)%Z → (5 <= f)%Z → s ≠ cbClosed → breaker_ok (mkBreaker f s t lvl).
Proof. intros. constructor; cbn; unfold cbFailThreshold; lia || (split; [done|lia]). Qed.

Definition inv (c : World * mode) : Prop :=
  queue_ok (tables (queue c.1)) ∧ breaker_ok (breaker c.1) ∧
  (c.2 ≠ Idle → cbState (breaker c.1) ≠ cbOpen).

Lemma on_queue_inv {A} (m : DBM Queue A) w r w1 :
  preserves queue_ok m → on_queue m w = (r, w1) → queue_ok (tables (queue w)) →
  queue_ok (tables (queue w1)) ∧ breaker w1 = breaker w.
Proof.
  intros Hm E Hq. specialize (Hm (queue w) Hq). unfold on_queue in E.
  destruct (m (queue w)) as [r' q']. injection E as <- <-. done.
Qed.

Lemma sendOne_inv item w ok w1 :
  sendOne newRequestErr network item w = (ok, w1) → queue_ok (tables (queue w)) →
  queue_ok (tables (queue w1)) ∧ breaker w1 = breaker w ∧ stopped w1 = stopped w.
Proof.
  unfold sendOne, do_request, on_queue. intros E Hq.
  assert (Hup : ∀ (m : DBM Queue unit) q, preserves queue_ok m → queue_ok (tables q) →
     queue_ok (tables (snd (m q)))) by auto.
  destruct (newRequestErr (URL item)).
  { pose proof (Hup _ _ (MarkHold_ok (clock w) (ID item) ("invalid request: " +:+ s)) Hq).
    destruct (MarkHold _ _ _ _). by simplify_eq/=. }
  destruct (network _ _) as [e|code].
  - destruct (nextAttemptTime _ _) as [t|]; [|by simplify_eq].
    pose proof (Hup _ _ (Reschedule_ok (clock w) (ID item) t ("network error: " +:+ e)) Hq).
    cbn in E. destruct (Reschedule _ _ _ _ _). by simplify_eq/=.
  - destruct (code <? 300)%Z; cbn in E.
    { pose proof (Hup _ _ (MarkDelivered_ok (ID item)) Hq).
      destruct (MarkDelivered _ _). by simplify_eq/=. }
    destruct (isTransient code).
    + destruct (nextAttemptTime _ _) as [t|]; [|by simplify_eq].
      pose proof (Hup _ _ (Reschedule_ok (clock w) (ID item) t ("HTTP " +:+ fmtZ code)) Hq).
      cbn in E. destruct (Reschedule _ _ _ _ _). by simplify_eq/=.
    + pose proof (Hup _ _ (MarkHold_ok (clock w) (ID item) ("HTTP " +:+ fmtZ code)) Hq).
      destruct (MarkHold _ _ _ _). by simplify_eq/=.
Qed.

Lemma queue_log_event ty s w : queue (log_event eventLogger ty s w) = queue w.
Proof. unfold log_event. by destruct eventLogger. Qed.

Lemma breaker_log_event ty s w : breaker (log_event eventLogger ty s w) = breaker w.
Proof. unfold log_event. by destruct eventLogger. Qed.

Lemma after_send_inv ok w ret w1 :
  after_send eventLogger ok w = (ret, w1) → breaker_ok (breaker w) → cbState (breaker w) ≠ cbOpen →
  queue w1 = queue w ∧ breaker_ok (breaker w1) ∧
  (ret = false → cbState (breaker w1) ≠ cbOpen).
Proof.
  unfold after_send. intros E [Hl Hf Hc] Ho. cbn in Hl.
  destruct ok, (cbState (breaker w)) eqn:Es; try done; cbn in E.
  - simplify_eq. split_and!; [done| |done]. cbn. by apply closed_intro; lia.
  - simplify_eq. rewrite queue_log_event, breaker_log_event. split_and!; [done| |done].
    cbn. by apply closed_intro; lia.
  - apply proj1 in Hc. specialize (Hc eq_refl). unfold cbFailThreshold in *.
    destruct (5 <=? consecutiveFails (breaker w) + 1)%Z eqn:Et; simplify_eq; bool_prop.
    + rewrite queue_log_event, breaker_log_event. split_and!; [done| |done].
      cbn. apply not_closed_intro; done || lia.
    + split_and!; [done| |done]. cbn. by apply closed_intro; lia.
  - simplify_eq. split_and!; [done| |done]. cbn in *.
    assert (5 <= consecutiveFails (breaker w))%Z.
    { apply Z.le_ngt. intros Hlt. by apply Hc in Hlt. }
    apply not_closed_intro; [case_if; bool_prop; lia|lia|done].
Qed.

Lemma check_breaker_inv w go w1 :
  check_breaker w = (go, w1) → breaker_ok (breaker w) →
  queue w1 = queue w ∧ breaker_ok (breaker w1) ∧ (go = true → cbState (breaker w1) ≠ cbOpen).
Proof.
  unfold check_breaker. intros E [Hl Hf Hc].
  destruct (cbState (breaker w)) eqn:Es; [|destruct (_ <=? _)%Z|]; simplify_eq; cbn;
    (split; [done|]); (split; [|congruence || done]); constructor; cbn; rewrite ?Es in *; try done.
  split; [done|]. intros H. by apply Hc in H.
Qed.

Lemma inv_step c c' : inv c → step c c' → inv c'.
Proof.
  intros (Hq & Hb & Hm) Hs. destruct Hs; unfold inv in *; cbn [fst snd] in *.
  - destruct (check_breaker_inv _ _ _ H Hb) as (-> & ? & ?). auto.
  - destruct (check_breaker_inv _ _ _ H Hb) as (-> & ? & ?). auto.
  - destruct (on_queue_inv _ _ _ _ (DequeueDue_ok encryptor _ _) H Hq) as [? ->].
    split_and!; [done..|intros _; by apply Hm].
  - destruct (on_queue_inv _ _ _ _ (DequeueDue_ok encryptor _ _) H Hq) as [? ->]. auto.
  - auto.
  - auto.
  - destruct (sendOne_inv _ _ _ _ H0 Hq) as (? & -> & _). split_and!; [done..|intros _; by apply Hm].
  - destruct (after_send_inv _ _ _ _ H Hb) as (-> & ? & ?); [by apply Hm|auto].
  - destruct (after_send_inv _ _ _ _ H Hb) as (-> & ? & ?); [by apply Hm|auto].
  - unfold EnqueueWithServer.
    destruct (on_queue _ w) as [[u|e] w1] eqn:E; cbn;
      destruct (on_queue_inv _ _ _ _ (Enqueue_ok encryptor _ _ _ _) E Hq) as [? ->]; auto.
  - unfold DispatcherRetryHeld. destruct (on_queue _ w) as [[u|e] w1] eqn:E; cbn;
      destruct (on_queue_inv _ _ _ _ (RetryHeld_ok _) E Hq) as [? ->]; [|by auto].
    split_and!; [done|by apply closed_intro|done].
  - unfold DispatcherRewriteHeldDelivery. destruct (on_queue _ w) as [r w1] eqn:E. cbn.
    destruct (on_queue_inv _ _ _ _ (RewriteHeldDelivery_ok encryptor _ _ _ _ _ _) E Hq) as [? ->]. auto.
  - unfold DispatcherClearHeld. destruct (on_queue _ w) as [r w1] eqn:E. cbn.
    destruct (on_queue_inv _ _ _ _ ClearHeld_ok E Hq) as [? ->]. auto.
  - split_and!; [done|by apply closed_intro|done].
  - unfold SendTest, do_request. repeat case_match; simplify_eq/=; split_and!; auto; try done;
      constructor; cbn; done || lia.
  - auto.
  - auto.
  - auto.
Qed.
End Steps.

(** C35: in every state the system reaches from a start on a well-formed
    queue, under any interleaving of the delivery loop with administrator calls,
    any network answers and any database faults, the queue stays well-formed, the
    breaker is closed exactly while fewer than five consecutive failures are
    counted, its pause level indexes the pause table, and no delivery is under way
    while it is open. *)
Theorem dispatcher_invariant :
  ∀ enc newReqErr network logger nacl (q : Db Queue) now w m,
  queue_ok (tables q) →
  rtc (step enc newReqErr network logger nacl) (NewArchiveDispatcher q now, Idle) (w, m) →
  queue_ok (tables (queue w)) ∧
  (cbState (breaker w) = cbClosed ↔ (consecutiveFails (breaker w) < cbFailThreshold)%Z) ∧
  (0 <= cbPauseLevel (breaker w) < Z.of_nat (length cbPauseDurations))%Z ∧
  (m ≠ Idle → cbState (breaker w) ≠ cbOpen).
Proof.
  intros enc nre net lg nacl q now w m Hq Hr.
  assert (Hinv : inv (w, m)).
  { remember (NewArchiveDispatcher q now, Idle) as c0 eqn:E0. remember (w, m) as c1 eqn:E1.
    assert (H0 : inv c0) by (subst c0; split_and!; [done|by apply closed_intro|done]).
    clear E0 E1. induction Hr; [done|]. eauto using inv_step. }
  destruct Hinv as (? & [] & ?). done.
Qed.

Lemma dispatcher_invariant_witness :
  cbState (breaker (ResetCircuit (NewArchiveDispatcher (healthy []) 0))) = cbClosed ↔
  (consecutiveFails (breaker (ResetCircuit (NewArchiveDispatcher (healthy []) 0))) < cbFailThreshold)%Z.
Proof.
  apply (proj1 (proj2 (dispatcher_invariant None (λ _, None) (λ _ _, HttpStatus 200) false
    (mkNaCl None None (λ _ _ _ _, "") (λ _, "")) (healthy []) 0
    (ResetCircuit (NewArchiveDispatcher (healthy []) 0)) Idle
    (Build_queue_ok [] (NoDup_nil_2) (Forall_nil_2 _))
    (rtc_once _ _ (step_reset _ _ _ _ _ _ _))))).
Defined.

(** ** Deliveries *)

Section Deliveries.
Context (newRequestErr : string → option string) (network : nat → HttpRequest → HttpOutcome)
        (eventLogger : bool).

(** Two rows hold the same message. *)
Definition same_message (i j : ArchiveQueueItem) : Prop :=
  ID i = ID j ∧ Payload i = Payload j ∧ URL i = URL j.

(** The message was accepted by its destination. *)
Definition acked (w : World) (i : ArchiveQueueItem) : Prop :=
  ∃ req o, (req, o) ∈ deliveries w ∧ delivered o = true ∧
           ReqBody req = Payload i ∧ ReqURL req = URL i.

(** [w'] follows [w] without losing a message: answers are only added, every row
    stems from an old row, every old row survives or was accepted. *)
Record no_loss (w w' : World) : Prop := {
  nl_log : ∀ x, x ∈ deliveries w → x ∈ deliveries w';
  nl_from : ∀ j, j ∈ tables (queue w') → ∃ i, i ∈ tables (queue w) ∧ same_message i j;
  nl_to : ∀ i, i ∈ tables (queue w) →
     (∃ j, j ∈ tables (queue w') ∧ same_message i j) ∨ acked w' i }.

Lemma no_loss_refl w : no_loss w w.
Proof. constructor; [done| |]; intros i Hi; [|left]; by exists i. Qed.

Lemma acked_mono w w' i :
  (∀ x, x ∈ deliveries w → x ∈ deliveries w') → acked w i → acked w' i.
Proof. intros H (req & o & Hin & ?). exists req, o. auto. Qed.

Lemma no_loss_trans w1 w2 w3 : no_loss w1 w2 → no_loss w2 w3 → no_loss w1 w3.
Proof.
  intros [L1 F1 T1] [L2 F2 T2]. constructor.
  - auto.
  - intros k Hk. destruct (F2 k Hk) as (j & Hj & Hjk). destruct (F1 j Hj) as (i & Hi & Hij).
    exists i. unfold same_message in *. split; [done|]. intuition congruence.
  - intros i Hi. destruct (T1 i Hi) as [(j & Hj & Hij)|Ha]; [|right; eauto using acked_mono].
    destruct (T2 j Hj) as [(k & Hk & Hjk)|Ha].
    + left. exists k. unfold same_message in *. split; [done|]. intuition congruence.
    + right. destruct Ha as (req & o & ? & ? & ? & ?), Hij as (? & ? & ?).
      exists req, o. split_and!; congruence.
Qed.

(** A statement that keeps every row's message loses nothing. *)
Lemma no_loss_update w w' p f :
  (∀ i, same_message i (f i)) → deliveries w ⊆ deliveries w' →
  tables (queue w') = tables (queue w) ∨
  tables (queue w') = update_where p f (tables (queue w)) →
  no_loss w w'.
Proof.
  intros Hf Hd Hq. constructor; [done| |].
  - intros j Hj. destruct Hq as [Hq|Hq]; rewrite Hq in Hj; [by exists j|].
    apply elem_of_update_where in Hj as (i & Hi & ->). exists i. split; [done|].
    by destruct (p i).
  - intros i Hi. left. destruct Hq as [Hq|Hq]; rewrite Hq; [by exists i|].
    exists (if p i then f i else i). rewrite elem_of_update_where. split; [eauto|].
    by destruct (p i).
Qed.

Lemma on_queue_update p f w :
  (∀ i, same_message i (f i)) → no_loss w (snd (on_queue (update (update_where p f)) w)).
Proof.
  intros Hf. unfold on_queue. pose proof (update_tables (update_where p f) (queue w)) as H.
  destruct (update (update_where p f) (queue w)) as [r q]. cbn in *.
  by eapply no_loss_update.
Qed.

Lemma do_request_no_loss req w : no_loss w (snd (do_request network req w)).
Proof.
  constructor; cbn; [intros; by right| |]; intros i Hi; [|left]; by exists i.
Qed.

Lemma sendOne_no_loss item w :
  (∀ i, i ∈ tables (queue w) → ID i = ID item → same_message i item) →
  no_loss w (snd (sendOne newRequestErr network item w)).
Proof.
  intros Hsame. unfold sendOne. destruct (newRequestErr (URL item)) as [e|].
  { by apply on_queue_update. }
  set (req := build_request _ _ _ _ _).
  pose proof (do_request_no_loss req w) as Hreq.
  destruct (do_request network req w) as [o w1] eqn:Edo. cbn [snd] in Hreq.
  assert (Hresched : ∀ msg, no_loss w (snd (match nextAttemptTime (clock w1) (Attempts item) with
     | Some t => (false, snd (on_queue (Reschedule (clock w1) (ID item) t msg) w1))
     | None => (false, w1) end))).
  { intros msg. destruct (nextAttemptTime _ _); [|done].
    eapply no_loss_trans; [done|]. by apply on_queue_update. }
  destruct o as [e|code]; [done|]. destruct (code <? 300)%Z eqn:Ec.
  2: { destruct (isTransient code); [done|].
       eapply no_loss_trans; [done|]. by apply on_queue_update. }
  injection Edo as Ho Hw. cbn [snd]. unfold on_queue, MarkDelivered.
  pose proof (update_tables (delete_where (has_id (ID item))) (queue w1)) as Hup.
  destruct (update _ (queue w1)) as [r q]. cbn in Hup |- *. rewrite <- Hw in *. cbn in Hup |- *.
  constructor; cbn.
  - intros; by right.
  - intros j Hj. exists j. split; [|done]. destruct Hup as [Hup|Hup]; rewrite Hup in Hj; [done|].
    by apply elem_of_delete_where in Hj as [? _].
  - intros i Hi. destruct Hup as [Hup|Hup]; rewrite Hup; [left; by exists i|].
    destruct (has_id (ID item) i) eqn:Eid.
    + right. apply String.eqb_eq in Eid. destruct (Hsame i Hi Eid) as (_ & Hp & Hu).
      exists req, (HttpStatus code). split_and!; [|exact Ec|by rewrite Hp|by rewrite Hu].
      cbn. rewrite Ho. by left.
    + left. exists i. by rewrite elem_of_delete_where.
Qed.

Lemma after_send_no_loss ok w : no_loss w (snd (after_send eventLogger ok w)).
Proof.
  assert (H : queue (snd (after_send eventLogger ok w)) = queue w ∧
              deliveries (snd (after_send eventLogger ok w)) = deliveries w).
  { unfold after_send, log_event. repeat case_match; simplify_eq/=; done. }
  destruct H as [Hq Hd]. constructor; rewrite ?Hq, ?Hd; [done| |]; intros i Hi; [|left]; by exists i.
Qed.

Lemma deliver_no_loss item w :
  (∀ i, i ∈ tables (queue w) → ID i = ID item → same_message i item) →
  no_loss w (snd (deliver newRequestErr network eventLogger item w)).
Proof.
  intros H. unfold deliver. pose proof (sendOne_no_loss item w H) as Hs.
  destruct (sendOne _ _ _ _) as [ok w1]. eapply no_loss_trans; [exact Hs|]. apply after_send_no_loss.
Qed.

Lemma drain_items_no_loss items w :
  (∀ item i, item ∈ items → i ∈ tables (queue w) → ID i = ID item → same_message i item) →
  no_loss w (drain_items newRequestErr network eventLogger items w).
Proof.
  revert w. induction items as [|item rest IH]; intros w H; cbn; [apply no_loss_refl|].
  destruct (stopped w); [apply no_loss_refl|].
  pose proof (deliver_no_loss item w) as Hd.
  destruct (deliver _ _ _ item w) as [ret w1].
  assert (Hd' : no_loss w w1) by (apply Hd; intros i; apply H; by left).
  destruct ret; [done|]. eapply no_loss_trans; [done|]. apply IH.
  intros it j Hit Hj Hid. destruct (nl_from _ _ Hd' j Hj) as (i & Hi & Hij).
  assert (Hii : same_message i it).
  { apply H; [by right|done|]. unfold same_message in Hij. intuition congruence. }
  unfold same_message in *. intuition congruence.
Qed.

Lemma decrypt_rows_no_loss enc now rows w :
  no_loss w (snd (on_queue (decrypt_rows enc now rows) w)).
Proof.
  revert w. induction rows as [|r rows IH]; intros w; [by destruct w; apply no_loss_refl|].
  assert (Hkeep : ∀ r', no_loss w (snd (on_queue (let! items := decrypt_rows enc now rows in db_ret (r' :: items)) w))).
  { intros r'. specialize (IH w). unfold on_queue, db_bind in *.
    by destruct (decrypt_rows enc now rows (queue w)) as [[?|?] ?]. }
  assert (Hskip : ∀ msg, no_loss w (snd (on_queue (attempt (MarkHold now (ID r) msg) ;;; decrypt_rows enc now rows) w))).
  { intros msg. eapply no_loss_trans; [apply (on_queue_update (has_id (ID r)) (hold_item now msg)); done|].
    unfold on_queue, db_bind. rewrite attempt_run. fold (MarkHold now (ID r) msg).
    destruct (MarkHold now (ID r) msg (queue w)) as [x q]. cbn [snd fst].
    specialize (IH (with_queue w q)). unfold on_queue in IH. cbn in IH |- *.
    by destruct (decrypt_rows enc now rows q). }
  cbn [decrypt_rows]. destruct enc as [e|]; [|done].
  destruct (AuthValue r !=? ""); [|done]. destruct (Decrypt e (AuthValue r)); done.
Qed.
End Deliveries.

Lemma dequeue_no_loss enc now limit w :
  no_loss w (snd (on_queue (DequeueDue enc now limit) w)).
Proof.
  unfold DequeueDue. unfold on_queue, db_bind.
  pose proof (query_tables (select_due now limit) (queue w)) as Hq.
  destruct (query (select_due now limit) (queue w)) as [[rows|e] q]; cbn [snd] in *.
  - eapply no_loss_trans; [|]. 2: { pose proof (decrypt_rows_no_loss enc now rows (with_queue w q)) as H.
      unfold on_queue in H. cbn in H. destruct (decrypt_rows enc now rows q). exact H. }
    apply (no_loss_update _ _ (λ _, false) id); [done|done|]. by left.
  - apply (no_loss_update _ _ (λ _, false) id); [done|done|]. by left.
Qed.

(** C3: one run of [drainDue], under any network answers, breaker state and
    database faults, never loses a message: a queued row is still queued with its
    payload and destination, or a request with that payload to that destination
    was answered with a status below 300; and it invents none. *)
Theorem drain_never_loses : ∀ enc newReqErr network logger (w : World),
  queue_ok (tables (queue w)) →
  let w' := drainDue enc newReqErr network logger w in
  (∀ i, i ∈ tables (queue w) →
     (∃ j, j ∈ tables (queue w') ∧ ID j = ID i ∧ Payload j = Payload i ∧ URL j = URL i) ∨
     (∃ req code, (req, HttpStatus code) ∈ deliveries w' ∧ (code < 300)%Z ∧
        ReqBody req = Payload i ∧ ReqURL req = URL i)) ∧
  (∀ j, j ∈ tables (queue w') → ∃ i, i ∈ tables (queue w) ∧ ID j = ID i ∧ Payload j = Payload i).
Proof.
  intros enc nre net lg w Hq w'.
  assert (Hnl : no_loss w w').
  { unfold w', drainDue. destruct (check_breaker w) as [go w1] eqn:Ec.
    assert (H1 : queue w1 = queue w ∧ deliveries w1 = deliveries w).
    { unfold check_breaker in Ec. repeat case_match; simplify_eq; done. }
    destruct H1 as [Hq1 Hd1].
    assert (Hnl1 : no_loss w w1).
    { apply (no_loss_update _ _ (λ _, false) id); [done|by rewrite Hd1|left; by rewrite Hq1]. }
    destruct go; [|done]. pose proof (dequeue_no_loss enc (clock w1) drainBatchSize w1) as Hdq.
    destruct (on_queue (DequeueDue _ _ _) w1) as [[items|e] w2] eqn:Eq; cbn [snd] in Hdq;
      [|by eapply no_loss_trans].
    eapply no_loss_trans; [exact Hnl1|]. eapply no_loss_trans; [exact Hdq|].
    apply drain_items_no_loss. intros item j Hit Hj Hid.
    assert (Hout : outcome (DequeueDue enc (clock w1) drainBatchSize) (queue w1) = Ok items).
    { unfold on_queue in Eq. unfold outcome. by destruct (DequeueDue _ _ _ _); simplify_eq/=. }
    apply DequeueDue_outcome in Hout. subst items.
    apply list_elem_of_omap in Hit as (row & [Hrow _]%elem_of_select_due & Hopen).
    apply open_item_same in Hopen as [v ->].
    destruct (nl_from _ _ Hdq j Hj) as (i & Hi & Hij & Hp & Hu). rewrite Hq1 in *.
    cbn in Hid. assert (i = row) as -> by (eapply id_unique; [apply Hq|done..|congruence]).
    unfold same_message. cbn. done. }
  split.
  - intros i Hi. destruct (nl_to _ _ Hnl i Hi) as [(j & Hj & ? & ? & ?)|(req & o & Hin & Hd & ? & ?)].
    + left. exists j. done.
    + right. destruct o as [|code]; [done|]. cbn in Hd. exists req, code. bool_prop. done.
  - intros j Hj. destruct (nl_from _ _ Hnl j Hj) as (i & Hi & ? & ? & _). exists i. done.
Qed.

Lemma drain_never_loses_witness :
  ∃ req code, (req, HttpStatus code) ∈ deliveries (drainDue None (λ _, None) (λ _ _, HttpStatus 204) false
      (NewArchiveDispatcher (healthy [demo_item "a" 7]) (9 * second))) ∧ (code < 300)%Z ∧ ReqBody req = "{}".
Proof.
  destruct (proj1 (drain_never_loses None (λ _, None) (λ _ _, HttpStatus 204) false
    (NewArchiveDispatcher (healthy [demo_item "a" 7]) (9 * second))
    ltac:(split; [apply NoDup_singleton|apply Forall_singleton; split; [by left|done]]))
    (demo_item "a" 7) ltac:(by left)) as [(j & Hj & _)|(req & code & Hin & Hc & Hb & _)].
  - exfalso. vm_compute in Hj. by apply not_elem_of_nil in Hj.
  - exists req, code. done.
Defined.


(** ** The circuit breaker *)
Section BreakerBehaviour.
Context (newRequestErr : string → option string) (network : nat → HttpRequest → HttpOutcome)
        (eventLogger : bool).

Lemma sendOne_frame item w ok w1 :
  sendOne newRequestErr network item w = (ok, w1) →
  breaker w1 = breaker w ∧ stopped w1 = stopped w ∧ clock w1 = clock w ∧
  requests w ≤ requests w1 ≤ S (requests w) ∧
  (ok = true → ∃ req code, network (requests w) req = HttpStatus code ∧ (code < 300)%Z).
Proof.
  assert (Hoq : ∀ A (m : DBM Queue A) x, breaker (snd (on_queue m x)) = breaker x ∧
     stopped (snd (on_queue m x)) = stopped x ∧ clock (snd (on_queue m x)) = clock x ∧
     requests (snd (on_queue m x)) = requests x).
  { intros A m x. unfold on_queue. by destruct (m (queue x)). }
  unfold sendOne, do_request. intros E.
  repeat case_match; simplify_eq/=;
    repeat match goal with |- context [snd (on_queue ?m ?x)] =>
      destruct (Hoq _ m x) as (-> & -> & -> & ->) end;
    cbn; split_and!; try done; try lia.
  intros _. eexists _, _. split; [eassumption|]. by apply Z.ltb_lt.
Qed.

Lemma log_event_frame ty s w :
  stopped (log_event eventLogger ty s w) = stopped w ∧
  requests (log_event eventLogger ty s w) = requests w ∧
  clock (log_event eventLogger ty s w) = clock w.
Proof. unfold log_event. by destruct eventLogger. Qed.

(** The outcome of a delivery in half-open state. *)
Lemma deliver_half_open item w ret w1 :
  cbState (breaker w) = cbHalfOpen →
  deliver newRequestErr network eventLogger item w = (ret, w1) →
  (ret = false ∧ cbState (breaker w1) = cbClosed ∧ consecutiveFails (breaker w1) = 0%Z ∧
     cbPauseLevel (breaker w1) = 0%Z) ∨
  (ret = true ∧ cbState (breaker w1) = cbOpen ∧ cbOpenedAt (breaker w1) = clock w ∧
     cbPauseLevel (breaker w1) = (if cbPauseLevel (breaker w) <? 2 then cbPauseLevel (breaker w) + 1
                                  else cbPauseLevel (breaker w))%Z ∧
     requests w1 ≤ S (requests w)).
Proof.
  intros Hs E. unfold deliver in E. destruct (sendOne _ _ _ _) as [ok w2] eqn:Es.
  destruct (sendOne_frame _ _ _ _ Es) as (Hb & _ & Hc & Hr & _).
  unfold after_send in E. rewrite Hb, Hs in E. destruct ok; simplify_eq.
  - left. rewrite breaker_log_event. done.
  - right. cbn. rewrite Hc. split_and!; try done. lia.
Qed.

(** A failing delivery in closed state. *)
Lemma deliver_closed_fail item w ret w1 :
  (∀ n req, delivered (network n req) = false) →
  cbState (breaker w) = cbClosed →
  deliver newRequestErr network eventLogger item w = (ret, w1) →
  stopped w1 = stopped w ∧ requests w1 ≤ S (requests w) ∧
  consecutiveFails (breaker w1) = (consecutiveFails (breaker w) + 1)%Z ∧
  (ret = true ∧ cbState (breaker w1) = cbOpen ∧ (5 <= consecutiveFails (breaker w) + 1)%Z ∨
   ret = false ∧ cbState (breaker w1) = cbClosed ∧ (consecutiveFails (breaker w) + 1 < 5)%Z).
Proof.
  intros Hnet Hs E. unfold deliver in E. destruct (sendOne _ _ _ _) as [ok w2] eqn:Es.
  destruct (sendOne_frame _ _ _ _ Es) as (Hb & Hst & Hc & Hr & Hok).
  destruct ok.
  { destruct (Hok eq_refl) as (req & code & Hn & Hlt). specialize (Hnet (requests w) req).
    rewrite Hn in Hnet. cbn in Hnet. apply Z.ltb_ge in Hnet. lia. }
  unfold after_send in E. rewrite Hb, Hs in E. unfold cbFailThreshold in E.
  destruct (5 <=? _)%Z eqn:Et; simplify_eq; bool_prop.
  - destruct (log_event_frame "circuit_open" ("archive delivery failing, circuit breaker opened after "
      +:+ fmtZ (consecutiveFails (breaker w) + 1) +:+ " failures")
      (with_breaker w2 (mkBreaker (consecutiveFails (breaker w) + 1) cbOpen (clock w2) (cbPauseLevel (breaker w)))))
      as (-> & -> & _). rewrite breaker_log_event. cbn. split_and!; try done; [lia|]. left. done.
  - cbn. split_and!; try done; [lia|]. right. done.
Qed.

Lemma drain_items_failing items w :
  (∀ n req, delivered (network n req) = false) →
  cbState (breaker w) = cbClosed → (0 <= consecutiveFails (breaker w) < 5)%Z → stopped w = false →
  let w1 := drain_items newRequestErr network eventLogger items w in
  (Z.of_nat (requests w1) <= Z.of_nat (requests w) + (5 - consecutiveFails (breaker w)))%Z ∧
  ((5 - consecutiveFails (breaker w) <= Z.of_nat (length items))%Z → cbState (breaker w1) = cbOpen).
Proof.
  intros Hnet. revert w. induction items as [|item rest IH]; intros w Hs Hf Hst; cbn.
  { split; [lia|]. intros. lia. }
  rewrite Hst. destruct (deliver _ _ _ item w) as [ret w1] eqn:E.
  destruct (deliver_closed_fail _ _ _ _ Hnet Hs E) as (Hst1 & Hr & Hfa & [(-> & Ho & H5)|(-> & Ho & H5)]).
  - split; [lia|done].
  - destruct (IH w1) as [Hr' Ho']; [done|lia|congruence|].
    rewrite Hfa in *. split; [lia|]. intros. apply Ho'. lia.
Qed.
End BreakerBehaviour.

(** while the breaker is open and its pause (between one and
    fifteen minutes) has not elapsed, [drainDue] changes nothing and sends
    nothing; in half-open state one delivery decides: success closes the breaker
    and resets counter and level, failure reopens it now, one level higher up to
    the cap, and ends the run. *)
Theorem open_breaker_paces_delivery : ∀ enc newReqErr network logger (w : World),
  breaker_ok (breaker w) →
  (cbState (breaker w) = cbOpen →
   (1 * minute <= pause_of (cbPauseLevel (breaker w)) <= 15 * minute)%Z ∧
   ((clock w - cbOpenedAt (breaker w) < pause_of (cbPauseLevel (breaker w)))%Z →
    drainDue enc newReqErr network logger w = w)) ∧
  (cbState (breaker w) = cbHalfOpen → stopped w = false →
   ∀ item rest, let w' := drain_items newReqErr network logger (item :: rest) w in
   (∃ w1, deliver newReqErr network logger item w = (false, w1) ∧
      cbState (breaker w1) = cbClosed ∧ consecutiveFails (breaker w1) = 0%Z ∧
      cbPauseLevel (breaker w1) = 0%Z ∧ w' = drain_items newReqErr network logger rest w1) ∨
   (cbState (breaker w') = cbOpen ∧ cbOpenedAt (breaker w') = clock w ∧
    requests w' ≤ S (requests w) ∧
    cbPauseLevel (breaker w') = Z.min 2 (cbPauseLevel (breaker w) + 1))).
Proof.
  intros enc nre net lg w [Hl _ _]. cbn in Hl. split.
  - intros Ho. split.
    + unfold pause_of. cbn.
      assert (H : cbPauseLevel (breaker w) = 0%Z ∨ cbPauseLevel (breaker w) = 1%Z ∨ cbPauseLevel (breaker w) = 2%Z) by lia.
      destruct H as [-> |[-> | ->]]; cbn; split; done.
    + intros Hlt. unfold drainDue, check_breaker. rewrite Ho.
      by rewrite (proj2 (Z.leb_gt _ _) Hlt).
  - intros Hh Hst item rest w'. unfold w'. cbn [drain_items]. rewrite Hst.
    destruct (deliver nre net lg item w) as [ret w1] eqn:E.
    destruct (deliver_half_open _ _ _ _ _ _ _ Hh E) as [(-> & ? & ? & ?)|(-> & ? & ? & Hp & ?)].
    + left. exists w1. done.
    + right. split_and!; try done. rewrite Hp. case_if; bool_prop; lia.
Qed.

Lemma open_breaker_paces_delivery_witness :
  let w := with_breaker (NewArchiveDispatcher (healthy [demo_item "a" 7]) (9 * second))
             (mkBreaker 5 cbOpen 0 1) in
  drainDue None (λ _, None) (λ _ _, HttpStatus 204) false w = w.
Proof.
  apply (proj2 (proj1 (open_breaker_paces_delivery None (λ _, None) (λ _ _, HttpStatus 204) false
    (with_breaker (NewArchiveDispatcher (healthy [demo_item "a" 7]) (9 * second)) (mkBreaker 5 cbOpen 0 1))
    (not_closed_intro 5 cbOpen 0 1 ltac:(lia) ltac:(lia) ltac:(discriminate))) eq_refl)).
  vm_compute. reflexivity.
Defined.

(** with a dead destination a closed breaker that counts [f]
    failures lets at most [5 - f] more requests of a batch out, and is open after
    the batch when the batch is at least that long. *)
Theorem breaker_trips_after_five : ∀ newReqErr network logger items (w : World),
  (∀ n req, delivered (network n req) = false) →
  breaker_ok (breaker w) → cbState (breaker w) = cbClosed → stopped w = false →
  let w1 := drain_items newReqErr network logger items w in
  (Z.of_nat (requests w1) <= Z.of_nat (requests w) + (5 - consecutiveFails (breaker w)))%Z ∧
  ((5 - consecutiveFails (breaker w) <= Z.of_nat (length items))%Z → cbState (breaker w1) = cbOpen).
Proof.
  intros nre net lg items w Hnet [_ Hf Hc] Hs Hst. apply drain_items_failing; try done.
  split; [done|]. by apply Hc.
Qed.

Lemma breaker_trips_after_five_witness :
  cbState (breaker (drain_items (λ _, None) (λ _ _, NetError "refused") false
    (replicate 7 (demo_item "a" 7)) (NewArchiveDispatcher (healthy []) 0))) = cbOpen.
Proof.
  apply (breaker_trips_after_five (λ _, None) (λ _ _, NetError "refused") false
    (replicate 7 (demo_item "a" 7)) (NewArchiveDispatcher (healthy []) 0));
    [reflexivity|apply closed_intro; lia|reflexivity|reflexivity|vm_compute; discriminate].
Defined.

(** the backoff index never leaves the schedule for a non-negative
    attempt counter: the next attempt is between fifteen seconds and six hours
    ahead, later for a larger counter, and six hours from the fifth retry on. *)
Theorem backoff_bounds : ∀ now attempts, (0 <= attempts)%Z →
  ∃ t, nextAttemptTime now attempts = Some t ∧
       (now + 15 * second <= t <= now + 6 * hour)%Z ∧
       ((5 <= attempts)%Z → t = (now + 6 * hour)%Z) ∧
       (∀ more t', (attempts <= more)%Z → nextAttemptTime now more = Some t' → (t <= t')%Z).
Proof.
  assert (H : ∀ now a, (0 <= a)%Z → nextAttemptTime now a =
    Some (now + (if a =? 0 then 15 * second else if a =? 1 then 1 * minute else if a =? 2 then 5 * minute
       else if a =? 3 then 15 * minute else if a =? 4 then 1 * hour else 6 * hour))%Z).
  { intros now a Ha. unfold nextAttemptTime.
    assert (Hc : (a = 0 ∨ a = 1 ∨ a = 2 ∨ a = 3 ∨ a = 4 ∨ 5 <= a)%Z) by lia.
    destruct Hc as [-> |[-> |[-> |[-> |[-> |Hc]]]]]; [reflexivity..|].
    change (Z.of_nat (length BackoffSchedule)) with 7%Z. cbv zeta.
    assert (Hi : (if 7 <=? a + 1 then 7 - 1 else a + 1)%Z = 6%Z) by (case_if; bool_prop; lia).
    rewrite Hi. repeat (case_if; bool_prop; [lia|]). reflexivity. }
  intros now a Ha. eexists. split; [by apply H|]. split_and!.
  - unfold hour, minute, second. repeat case_if; bool_prop; lia.
  - unfold hour, minute, second. repeat case_if; bool_prop; lia.
  - intros. rewrite !(proj2 (Z.eqb_neq _ _)) by lia. done.
  - intros b t' Hb. rewrite H by lia. intros [= <-].
    unfold hour, minute, second. repeat case_if; bool_prop; lia.
Qed.

Lemma backoff_bounds_witness : ∃ t, nextAttemptTime 0 7 = Some t ∧ t = (0 + 6 * hour)%Z.
Proof.
  destruct (backoff_bounds 0 7 ltac:(lia)) as (t & Ht & _ & Hcap & _).
  exists t. split; [exact Ht|]. apply Hcap. lia.
Defined.

(** [drainDue] as the code runs it without interference is a sequence of
    the atomic steps of the interleaved system, so what holds of every reachable
    state holds after it. *)
Theorem drain_refines_steps : ∀ enc newReqErr network logger nacl (w : World),
  rtc (step enc newReqErr network logger nacl) (w, Idle) (drainDue enc newReqErr network logger w, Idle).
Proof.
  intros enc nre net lg nacl.
  assert (Hitems : ∀ items w, rtc (step enc nre net lg nacl) (w, Draining items)
            (drain_items nre net lg items w, Idle)).
  { induction items as [|item rest IH]; intros w; cbn [drain_items].
    - apply rtc_once. constructor.
    - destruct (stopped w) eqn:Hs; [apply rtc_once; by constructor|].
      unfold deliver. destruct (sendOne nre net item w) as [ok w1] eqn:E1.
      eapply rtc_l; [by eapply step_send|].
      destruct (after_send lg ok w1) as [[] w2] eqn:E2.
      + apply rtc_once. by constructor.
      + eapply rtc_l; [by eapply step_after_continue|]. apply IH. }
  intros w. unfold drainDue. destruct (check_breaker w) as [[] w1] eqn:E1.
  - eapply rtc_l; [by apply step_check_go|].
    destruct (on_queue _ w1) as [[items|e] w2] eqn:E2.
    + eapply rtc_l; [by eapply step_dequeue|]. apply Hitems.
    + apply rtc_once. by eapply step_dequeue_err.
  - apply rtc_once. by apply step_check_paused.
Qed.

(** ** Progress *)
Section Progress.
Context (network : nat → HttpRequest → HttpOutcome) (eventLogger : bool).
Hypothesis network_accepts : ∀ n req, delivered (network n req) = true.

Definition not_among (items : list ArchiveQueueItem) (i : ArchiveQueueItem) : bool :=
  negb (existsb (λ x, ID i =?s ID x) items).

Lemma deliver_accepts item w q :
  queue w = healthy q → cbState (breaker w) ≠ cbOpen → stopped w = false →
  ∃ w1, deliver (λ _, None) network eventLogger item w = (false, w1) ∧
    queue w1 = healthy (delete_where (has_id (ID item)) q) ∧
    cbState (breaker w1) ≠ cbOpen ∧ stopped w1 = false.
Proof.
  intros Hq Hb Hs. unfold deliver, sendOne, do_request.
  set (req := build_request _ _ _ _ _). pose proof (network_accepts (requests w) req) as Hn.
  destruct (network (requests w) req) as [|code]; [done|]. cbn in Hn. rewrite Hn.
  unfold on_queue, MarkDelivered, update. cbn [queue]. rewrite Hq, exec_healthy. cbn [snd].
  unfold after_send, log_event. cbn.
  destruct (cbState (breaker w)); [|done|destruct eventLogger]; eexists; (split; [reflexivity|]); done.
Qed.

Lemma drain_items_accepts items w q :
  queue w = healthy q → cbState (breaker w) ≠ cbOpen → stopped w = false →
  queue (drain_items (λ _, None) network eventLogger items w) =
    healthy (List.filter (not_among items) q).
Proof.
  revert w q. induction items as [|item rest IH]; intros w q Hq Hb Hs; cbn [drain_items].
  - rewrite Hq. f_equal. clear. induction q as [|i q IHq]; cbn; [done|]. by rewrite <- IHq.
  - rewrite Hs. destruct (deliver_accepts item w q Hq Hb Hs) as (w1 & -> & Hq1 & Hb1 & Hs1).
    rewrite (IH w1 _ Hq1 Hb1 Hs1). f_equal. unfold delete_where, not_among, has_id.
    clear. induction q as [|i q IHq]; cbn; [done|].
    destruct (ID i =?s ID item); cbn; [done|]. by rewrite IHq.
Qed.
End Progress.

Lemma omap_all_Some {A B} (f : A → option B) (l : list A) :
  (∀ x, x ∈ l → is_Some (f x)) → ∀ x, x ∈ l → ∃ y, y ∈ omap f l ∧ f x = Some y.
Proof.
  intros H x Hx. destruct (H x Hx) as [y Hy]. exists y. rewrite list_elem_of_omap. eauto.
Qed.

(** with an accepting destination, a healthy database, readable
    credentials and a breaker that is not open, one drain of a backlog of at most
    fifty due rows delivers all of them: what remains is exactly the rows that
    were not due. *)
Theorem drain_delivers_everything_due : ∀ enc network logger (w : World) q,
  (∀ n req, delivered (network n req) = true) →
  queue w = healthy q → queue_ok q → (∀ i, i ∈ q → is_Some (open_item enc i)) →
  cbState (breaker w) ≠ cbOpen → stopped w = false →
  length (List.filter (is_due (clock w)) q) ≤ drainBatchSize →
  queue (drainDue enc (λ _, None) network logger w) =
    healthy (List.filter (λ i, negb (is_due (clock w) i)) q).
Proof.
  intros enc net lg w q Hnet Hq [Hn Hi] Hopen Hb Hs Hlen.
  unfold drainDue, check_breaker.
  assert (Hc : match cbState (breaker w) with cbOpen => if (pause_of (cbPauseLevel (breaker w)) <=? clock w - cbOpenedAt (breaker w))%Z
    then (true, with_breaker w (mkBreaker (consecutiveFails (breaker w)) cbHalfOpen (cbOpenedAt (breaker w)) (cbPauseLevel (breaker w))))
    else (false, w) | _ => (true, w) end = (true, w)) by (by destruct (cbState (breaker w))).
  rewrite Hc. clear Hc.
  set (sel := select_due (clock w) drainBatchSize q).
  assert (Hdec : ∀ rows, (∀ i, i ∈ rows → is_Some (open_item enc i)) →
     decrypt_rows enc (clock w) rows (healthy q) = (Ok (omap (open_item enc) rows), healthy q)).
  { clear. intros rows. induction rows as [|i rows IH]; intros H; [done|].
    cbn [decrypt_rows omap list_omap]. destruct (H i ltac:(by left)) as [y Hy]. rewrite Hy.
    specialize (IH (λ j Hj, H j (list_elem_of_further _ _ _ Hj))).
    unfold open_item in Hy. destruct enc as [e|]; [|by simplify_eq; unfold db_bind; rewrite IH].
    destruct (AuthValue i !=? ""); [|by simplify_eq; unfold db_bind; rewrite IH].
    destruct (Decrypt e (AuthValue i)); [|done]. simplify_eq. unfold db_bind. by rewrite IH. }
  assert (Hsel : ∀ i, i ∈ sel ↔ i ∈ q ∧ is_due (clock w) i = true).
  { intros i. split; [apply elem_of_select_due|]. intros [Hi1 Hd]. unfold sel, select_due.
    rewrite take_ge by (by rewrite stable_sort_perm).
    by rewrite elem_of_stable_sort, list_elem_of_In, filter_In, <- list_elem_of_In. }
  unfold on_queue, DequeueDue, db_bind, query. rewrite Hq, exec_healthy. fold sel.
  rewrite Hdec by (intros i [??]%Hsel; auto).
  rewrite (drain_items_accepts net lg Hnet _ (with_queue w (healthy q)) q) by done.
  f_equal. apply filter_ext_in. intros i Hin. apply list_elem_of_In in Hin. unfold not_among. f_equal.
  destruct (is_due (clock w) i) eqn:Ed.
  - apply existsb_exists. destruct (omap_all_Some (open_item enc) sel) with (x := i) as (y & Hy & Ey).
    + intros j [??]%Hsel. auto.
    + by apply Hsel.
    + exists y. split; [by apply list_elem_of_In|]. apply open_item_same in Ey as [v ->].
      apply String.eqb_refl.
  - apply not_true_is_false. intros (y & Hy & Eid)%existsb_exists.
    apply list_elem_of_In, list_elem_of_omap in Hy as (j & Hj & Ej).
    apply Hsel in Hj as [Hj Hd]. apply open_item_same in Ej as [v ->]. apply String.eqb_eq in Eid.
    assert (i = j) as -> by (eapply id_unique; eauto). congruence.
Qed.

Lemma drain_delivers_everything_due_witness :
  queue (drainDue None (λ _, None) (λ _ _, HttpStatus 204) false
    (NewArchiveDispatcher (healthy [demo_item "a" 7; demo_item "b" 99]) (9 * second)))
  = healthy [demo_item "b" 99].
Proof.
  apply (drain_delivers_everything_due None (λ _ _, HttpStatus 204) false
    (NewArchiveDispatcher (healthy [demo_item "a" 7; demo_item "b" 99]) (9 * second))
    [demo_item "a" 7; demo_item "b" 99]);
    [reflexivity|reflexivity| |by eexists|discriminate|reflexivity|vm_compute; lia].
  split; [apply (bool_decide_unpack _); reflexivity|].
  repeat apply Forall_cons_2; try apply Forall_nil_2; (split; [by left|done]).
Defined.

(** a configuration [ValidateArchiveConfig] accepts sends over
    https or to a loopback host, has a credential when an authenticated scheme is
    chosen, and yields either no recipient key or one of exactly 32 bytes. *)
Theorem validated_config_is_safe : ∀ parseURL parseLoopback cfg key,
  ValidateArchiveConfig parseURL parseLoopback cfg = Ok key →
  (∃ u, parseURL (CfgURL cfg) = Some u ∧
     (Scheme u = "https" ∨ Scheme u = "http" ∧ isLoopbackHost parseLoopback (Hostname u) = true)) ∧
  (CfgAuthType cfg = "bearer" ∨ CfgAuthType cfg = "api_key" → CfgAuthValue cfg ≠ "") ∧
  (key = None ↔ NaClRecipientKey cfg = "") ∧
  (∀ k, key = Some k → String.length k = 32).
Proof.
  intros pu pl cfg key. unfold ValidateArchiveConfig.
  destruct (CfgURL cfg =?s ""); [done|]. destruct (pu (CfgURL cfg)) as [u|]; [|done].
  destruct (Scheme u =?s "https") eqn:E1; [|destruct (Scheme u =?s "http") eqn:E2; [|done];
    destruct (isLoopbackHost pl (Hostname u)) eqn:E3; [|done]]; cbn [result_bind].
  all: intros H; split; [exists u; bool_prop; auto|]; clear E1; try clear E2 E3.
  all: destruct ((CfgAuthType cfg =?s "") || (CfgAuthType cfg =?s "none")) eqn:Ea; cbn [result_bind] in H.
  all: try (destruct ((CfgAuthType cfg =?s "bearer") || (CfgAuthType cfg =?s "api_key")); [|done];
            destruct (CfgAuthValue cfg =?s "") eqn:Ev; [done|cbn [result_bind] in H]).
  all: destruct (_ || (Include cfg =?s "both")); [cbn [result_bind] in H|done].
  all: split; [try (apply String.eqb_neq in Ev; done);
               intros [Hx|Hx]; rewrite Hx in Ea; done|].
  all: destruct (NaClRecipientKey cfg =?s "") eqn:Ek; [bool_prop; simplify_eq; done|].
  all: unfold DecodeRecipientKey in H; destruct (DecodeString _) as [raw|]; [|done];
       destruct (negb (String.length raw =? 32)) eqn:El; [done|]; bool_prop; simplify_eq;
       (split; [done|]); intros k [= <-]; done.
Qed.

Lemma validated_config_is_safe_witness :
  CfgAuthValue (mkCfg "https://a" "bearer" "t" "" "both" "") ≠ "".
Proof.
  apply (validated_config_is_safe (λ _, Some (mkURL "https" "a")) (λ _, None)
    (mkCfg "https://a" "bearer" "t" "" "both" "") None eq_refl). left. reflexivity.
Defined.
