(* ===== verification/Json.v ===== *)
(** * [encoding/json]

    The part of Go's [encoding/json] the relay uses: a parser from bytes to JSON
    values, the compact printer with Go's string escaping, and the decoding of an
    object into struct fields, which matches keys without regard to case and lets
    the last match win.  Numbers are kept as their literals ([json.RawMessage]
    keeps them so).  Bytes of 128 and above are copied as they are, so the model
    agrees with Go on valid UTF-8 without U+2028 and U+2029; the nesting limit of
    10000 of Go's scanner is not modelled. *)
From S2P Require Import Prelude GoStrings.

Inductive json : Type :=
| JNull
| JBool (b : bool)
| JNum (lit : string)
| JStr (s : string)
| JArr (l : list json)
| JObj (l : list (string * json)).

(** ** Printing *)

Definition dquote : ascii := "034"%char.
Definition bslash : ascii := "092"%char.

Definition hex_digit (n : nat) : ascii :=
  if n <? 10 then ascii_of_nat (48 + n) else ascii_of_nat (87 + n).

(** Escapes of [appendString] with HTML escaping on. *)
Definition escape_char (c : ascii) : string :=
  let n := byte c in
  let esc x := String bslash (String x "") in
  if (n =? 34) then esc dquote
  else if (n =? 92) then esc bslash
  else if (n =? 8) then esc "b"%char
  else if (n =? 9) then esc "t"%char
  else if (n =? 10) then esc "n"%char
  else if (n =? 12) then esc "f"%char
  else if (n =? 13) then esc "r"%char
  else if (n <? 32) || (n =? 60) || (n =? 62) || (n =? 38) then
    String bslash ("u00" +:+ String (hex_digit (n / 16)) (String (hex_digit (n mod 16)) ""))
  else String c "".

Fixpoint escape (s : string) : string :=
  match s with
  | EmptyString => ""
  | String c s' => escape_char c +:+ escape s'
  end.

Definition print_str (s : string) : string := String dquote (escape s +:+ String dquote "").

Fixpoint Marshal (j : json) : string :=
  match j with
  | JNull => "null"
  | JBool true => "true"
  | JBool false => "false"
  | JNum lit => lit
  | JStr s => print_str s
  | JArr l => "[" +:+ Join (map Marshal l) "," +:+ "]"
  | JObj l => "{" +:+ Join (map (λ '(k, v), print_str k +:+ ":" +:+ Marshal v) l) "," +:+ "}"
  end.

(** ** Parsing *)

Definition is_ws (c : ascii) : bool :=
  (byte c =? 32) || (byte c =? 9) || (byte c =? 10) || (byte c =? 13).

Definition skip_ws (s : string) : string := trim_left is_ws s.

Definition is_digit (c : ascii) : bool := (48 <=? byte c) && (byte c <=? 57).

Definition is_num_char (c : ascii) : bool :=
  is_digit c || Ascii.eqb c "-"%char || Ascii.eqb c "+"%char || Ascii.eqb c "."%char
  || Ascii.eqb c "e"%char || Ascii.eqb c "E"%char.

Fixpoint span (p : ascii → bool) (s : string) : string * string :=
  match s with
  | EmptyString => ("", "")
  | String c s' => if p c then let '(a, b) := span p s' in (String c a, b) else ("", s)
  end.

(** The number grammar on a whole literal. *)
Definition exp_ok (s : string) : bool :=
  match s with
  | EmptyString => true
  | String c s' =>
      if Ascii.eqb c "e"%char || Ascii.eqb c "E"%char then
        let s'' := match s' with
                   | String d r => if Ascii.eqb d "+"%char || Ascii.eqb d "-"%char then r else s'
                   | _ => s'
                   end in
        (s'' !=? "") && all_chars is_digit s''
      else false
  end.

Definition frac_ok (s : string) : bool :=
  match s with
  | String c s' =>
      if Ascii.eqb c "."%char then
        let '(ds, r) := span is_digit s' in (ds !=? "") && exp_ok r
      else exp_ok s
  | EmptyString => true
  end.

Definition int_ok (s : string) : bool :=
  match s with
  | EmptyString => false
  | String c s' =>
      if Ascii.eqb c "0"%char then frac_ok s'
      else if is_digit c then let '(_, r) := span is_digit s' in frac_ok r
      else false
  end.

Definition num_ok (s : string) : bool :=
  match s with
  | String c s' => if Ascii.eqb c "-"%char then int_ok s' else int_ok s
  | EmptyString => false
  end.

Definition hex_val (c : ascii) : option N :=
  let n := N_of_ascii c in
  if ((48 <=? n) && (n <=? 57))%N then Some (n - 48)%N
  else if ((97 <=? n) && (n <=? 102))%N then Some (n - 87)%N
  else if ((65 <=? n) && (n <=? 70))%N then Some (n - 55)%N
  else None.

Definition hex4 (s : string) : option (N * string) :=
  match s with
  | String a (String b (String c (String d r))) =>
      x ← hex_val a; y ← hex_val b; z ← hex_val c; w ← hex_val d;
      Some ((((x * 16 + y) * 16 + z) * 16 + w)%N, r)
  | _ => None
  end.

(** UTF-8 bytes of a code point. *)
Definition utf8 (n : N) : string :=
  let b k := ascii_of_N k in
  if (n <? 128)%N then String (b n) ""
  else if (n <? 2048)%N then String (b (192 + n / 64))%N (String (b (128 + n mod 64))%N "")
  else if (n <? 65536)%N then
    String (b (224 + n / 4096))%N (String (b (128 + n / 64 mod 64))%N (String (b (128 + n mod 64))%N ""))
  else String (b (240 + n / 262144))%N (String (b (128 + n / 4096 mod 64))%N
         (String (b (128 + n / 64 mod 64))%N (String (b (128 + n mod 64))%N ""))).

(** U+FFFD *)
Definition replacement : string := utf8 65533.

Definition is_surrogate (n : N) : bool := ((55296 <=? n) && (n <? 57344))%N.

(** The character of a [\u] escape: a surrogate pair is combined, a lone
    surrogate becomes U+FFFD. *)
Definition unicode_escape (s : string) : option (string * string) :=
  match hex4 s with
  | None => None
  | Some (n, r) =>
      if is_surrogate n then
        match r with
        | String b1 (String u1 r1) =>
            if Ascii.eqb b1 bslash && Ascii.eqb u1 "u"%char then
              match hex4 r1 with
              | Some (n2, r2) =>
                  if ((n <? 56320) && (56320 <=? n2) && (n2 <? 57344))%N
                  then Some (utf8 (65536 + (n - 55296) * 1024 + (n2 - 56320)), r2)
                  else Some (replacement, r)
              | None => Some (replacement, r)
              end
            else Some (replacement, r)
        | _ => Some (replacement, r)
        end
      else Some (utf8 n, r)
  end.

(** The body of a string after the opening quote.  [fuel] bounds the number of
    characters; the length of the input is enough. *)
Fixpoint parse_chars (fuel : nat) (s : string) : option (string * string) :=
  match fuel with
  | O => None
  | S fuel' =>
      match s with
      | EmptyString => None
      | String c s' =>
          if Ascii.eqb c dquote then Some ("", s')
          else if Ascii.eqb c bslash then
            match s' with
            | EmptyString => None
            | String e s'' =>
                let simple x :=
                  '(t, r) ← parse_chars fuel' s''; Some (String x t, r) in
                if Ascii.eqb e dquote then simple dquote
                else if Ascii.eqb e bslash then simple bslash
                else if Ascii.eqb e "/"%char then simple "/"%char
                else if Ascii.eqb e "b"%char then simple "008"%char
                else if Ascii.eqb e "f"%char then simple "012"%char
                else if Ascii.eqb e "n"%char then simple "010"%char
                else if Ascii.eqb e "r"%char then simple "013"%char
                else if Ascii.eqb e "t"%char then simple "009"%char
                else if Ascii.eqb e "u"%char then
                  '(u, s3) ← unicode_escape s'';
                  '(t, r) ← parse_chars fuel' s3; Some (u +:+ t, r)
                else None
            end
          else if (byte c <? 32) then None
          else '(t, r) ← parse_chars fuel' s'; Some (String c t, r)
      end
  end.

(** Values, array elements after [\[] or [,], object members after [{] or [,].
    [fuel] bounds the depth of calls; the length of the input is enough. *)
Fixpoint parse_value (fuel : nat) (s : string) : option (json * string) :=
  match fuel with
  | O => None
  | S fuel' =>
      let s := skip_ws s in
      match s with
      | EmptyString => None
      | String c s' =>
          if Ascii.eqb c dquote then
            '(t, r) ← parse_chars (S (String.length s')) s'; Some (JStr t, r)
          else if Ascii.eqb c "["%char then
            match skip_ws s' with
            | String c2 s2 => if Ascii.eqb c2 "]"%char then Some (JArr [], s2)
                              else '(l, r) ← parse_elems fuel' s'; Some (JArr l, r)
            | EmptyString => None
            end
          else if Ascii.eqb c "{"%char then
            match skip_ws s' with
            | String c2 s2 => if Ascii.eqb c2 "}"%char then Some (JObj [], s2)
                              else '(l, r) ← parse_members fuel' s'; Some (JObj l, r)
            | EmptyString => None
            end
          else if String.prefix "null" s then Some (JNull, drop_str 4 s)
          else if String.prefix "true" s then Some (JBool true, drop_str 4 s)
          else if String.prefix "false" s then Some (JBool false, drop_str 5 s)
          else let '(lit, r) := span is_num_char s in
               if num_ok lit then Some (JNum lit, r) else None
      end
  end
with parse_elems (fuel : nat) (s : string) : option (list json * string) :=
  match fuel with
  | O => None
  | S fuel' =>
      '(v, r) ← parse_value fuel' s;
      match skip_ws r with
      | String c r' =>
          if Ascii.eqb c ","%char then '(l, r2) ← parse_elems fuel' r'; Some (v :: l, r2)
          else if Ascii.eqb c "]"%char then Some ([v], r')
          else None
      | EmptyString => None
      end
  end
with parse_members (fuel : nat) (s : string) : option (list (string * json) * string) :=
  match fuel with
  | O => None
  | S fuel' =>
      match skip_ws s with
      | String c s' =>
          if Ascii.eqb c dquote then
            '(k, r) ← parse_chars (S (String.length s')) s';
            match skip_ws r with
            | String c1 r1 =>
                if Ascii.eqb c1 ":"%char then
                  '(v, r2) ← parse_value fuel' r1;
                  match skip_ws r2 with
                  | String c3 r3 =>
                      if Ascii.eqb c3 ","%char then
                        '(l, r4) ← parse_members fuel' r3; Some ((k, v) :: l, r4)
                      else if Ascii.eqb c3 "}"%char then Some ([(k, v)], r3)
                      else None
                  | EmptyString => None
                  end
                else None
            | EmptyString => None
            end
          else None
      | EmptyString => None
      end
  end.

(** [json.Unmarshal(data, &v)] for an [any] or a tree of [RawMessage]: the whole
    input is one value. *)
Definition Unmarshal (s : string) : option json :=
  match parse_value (S (String.length s)) s with
  | Some (j, r) => if skip_ws r =?s "" then Some j else None
  | None => None
  end.

(** ** Decoding into Go types *)

(** A [map\[string\]RawMessage]: keys are exact and the last one wins; [null]
    gives a nil map. *)
Fixpoint last_value (k : string) (l : list (string * json)) : option json :=
  match l with
  | [] => None
  | (k', v) :: r => match last_value k r with
                    | Some v' => Some v'
                    | None => if k' =?s k then Some v else None
                    end
  end.

(** Insert or replace a key of a map, as [m\[k\] = v] followed by [Marshal], which
    prints keys in sorted order. *)
Definition map_keys (l : list (string * json)) : list string :=
  sort_strings (remove_dups (map fst l)).

Definition marshal_map (l : list (string * json)) : json :=
  JObj (omap (λ k, v ← last_value k l; Some (k, v)) (map_keys l)).

(** A string field of a struct: every key that equals the field's name up to case
    is decoded into it in turn; [null] leaves it alone, another type is an
    error.  [None] is the error. *)
Fixpoint decode_string_field (name : string) (l : list (string * json)) (cur : string) : option string :=
  match l with
  | [] => Some cur
  | (k, v) :: r =>
      if EqualFold k name then
        match v with
        | JStr s => decode_string_field name r s
        | JNull => decode_string_field name r cur
        | _ => None
        end
      else decode_string_field name r cur
  end.

(** A [json.RawMessage] field: any value, [null] included. *)
Fixpoint decode_raw_field (name : string) (l : list (string * json)) (cur : option json) : option json :=
  match l with
  | [] => cur
  | (k, v) :: r => decode_raw_field name r (if EqualFold k name then Some v else cur)
  end.

(** [json.Unmarshal(data, &struct{F string})] *)
Definition unmarshal_string_struct (name data : string) : option string :=
  match Unmarshal data with
  | Some (JObj l) => decode_string_field name l ""
  | Some JNull => Some ""
  | _ => None
  end.


(** ** Printing and parsing are inverse *)

(** A value whose number literals are JSON numbers. *)
Fixpoint wf (j : json) : bool :=
  match j with
  | JNum lit => num_ok lit && all_chars is_num_char lit
  | JArr l => forallb wf l
  | JObj l => forallb (λ '(_, v), wf v) l
  | _ => true
  end.

Section JsonInd.
Context (P : json → Prop)
  (HNull : P JNull) (HBool : ∀ b, P (JBool b)) (HNum : ∀ l, P (JNum l)) (HStr : ∀ s, P (JStr s))
  (HArr : ∀ l, Forall P l → P (JArr l)) (HObj : ∀ l, Forall (λ kv, P kv.2) l → P (JObj l)).

Fixpoint json_ind' (j : json) : P j :=
  match j with
  | JNull => HNull
  | JBool b => HBool b
  | JNum l => HNum l
  | JStr s => HStr s
  | JArr l => HArr l ((fix go l := match l return Forall P l with
      | [] => Forall_nil_2 _ | x :: r => Forall_cons_2 _ _ _ (json_ind' x) (go r) end) l)
  | JObj l => HObj l ((fix go l := match l return Forall (λ kv, P kv.2) l with
      | [] => Forall_nil_2 _ | kv :: r => Forall_cons_2 _ _ _ (json_ind' kv.2) (go r) end) l)
  end.
End JsonInd.

Lemma parse_escaped_char n c X :
  parse_chars (S n) (escape_char c +:+ X) = ('(t, r) ← parse_chars n X; Some (String c t, r)).
Proof. destruct c as [[] [] [] [] [] [] [] []]; reflexivity. Qed.

Lemma parse_escaped n s rest :
  String.length s < n → parse_chars n (escape s +:+ String dquote rest) = Some (s, rest).
Proof.
  revert n. induction s as [|c s IH]; intros [|n] Hn; simpl in Hn; try lia; [done|].
  cbn [escape]. rewrite str_app_assoc, parse_escaped_char, IH by lia. done.
Qed.

Lemma escape_length s : String.length s ≤ String.length (escape s).
Proof.
  induction s as [|c s IH]; simpl; [done|]. rewrite str_length_app.
  assert (1 ≤ String.length (escape_char c)) by (destruct c as [[] [] [] [] [] [] [] []]; simpl; lia).
  lia.
Qed.

(** What may follow a printed value: nothing that could extend a number. *)
Definition stops (rest : string) : Prop :=
  match rest with EmptyString => True | String c _ => is_num_char c = false end.

Lemma span_stops lit rest :
  all_chars is_num_char lit = true → stops rest → span is_num_char (lit +:+ rest) = (lit, rest).
Proof.
  induction lit as [|c lit IH]; intros Ha Hs.
  - destruct rest as [|c r]; [done|]. rewrite str_app_nil_l. simpl. by rewrite Hs.
  - rewrite str_app_cons. simpl in *. bool_prop. rewrite H, IH by done. done.
Qed.

(** The first character of a printed value. *)
Definition starts_value (c : ascii) : bool :=
  negb (is_ws c) && negb (Ascii.eqb c "]"%char) && negb (Ascii.eqb c "}"%char).

Lemma num_head lit : num_ok lit = true →
  ∃ c t, lit = String c t ∧ (Ascii.eqb c "-"%char || is_digit c) = true.
Proof.
  destruct lit as [|c t]; [done|]. intros H. exists c, t. split; [done|]. simpl in H.
  destruct (Ascii.eqb c "-"%char); [done|]. unfold int_ok in H.
  destruct (Ascii.eqb c "0"%char) eqn:E; [by apply Ascii.eqb_eq in E as ->|].
  by destruct (is_digit c).
Qed.

Lemma num_head_facts c t : (Ascii.eqb c "-"%char || is_digit c) = true →
  starts_value c = true ∧ Ascii.eqb c dquote = false ∧ Ascii.eqb c "["%char = false ∧
  Ascii.eqb c "{"%char = false ∧ String.prefix "null" (String c t) = false ∧
  String.prefix "true" (String c t) = false ∧ String.prefix "false" (String c t) = false.
Proof. destruct c as [[] [] [] [] [] [] [] []]; try discriminate; intros _; repeat split. Qed.

Lemma Marshal_head j : wf j = true → ∃ c t, Marshal j = String c t ∧ starts_value c = true.
Proof.
  destruct j as [| [] | lit | s | l | l]; intros H.
  all: try (eexists _, _; split; [reflexivity|reflexivity]).
  simpl in H. bool_prop. destruct (num_head lit) as (c & t & -> & Hc); [done|].
  exists c, t. split; [done|]. by apply (num_head_facts c t).
Qed.

Lemma skip_ws_head c t : starts_value c = true → skip_ws (String c t) = String c t.
Proof.
  unfold starts_value. rewrite !andb_true_iff, !negb_true_iff. intros [[H _] _].
  unfold skip_ws. cbn [trim_left]. by rewrite H.
Qed.

Lemma skip_ws_Marshal j rest : wf j = true → skip_ws (Marshal j +:+ rest) = Marshal j +:+ rest.
Proof.
  intros H. destruct (Marshal_head j H) as (c & t & -> & Hc). rewrite str_app_cons.
  by apply skip_ws_head.
Qed.

Lemma Join_cons x y r sep : Join (x :: y :: r) sep = x +:+ sep +:+ Join (y :: r) sep.
Proof. reflexivity. Qed.

Definition parses (j : json) : Prop :=
  wf j = true → ∀ n rest, stops rest → String.length (Marshal j) ≤ n →
  parse_value n (Marshal j +:+ rest) = Some (j, rest).

Lemma parse_elems_Join l rest n :
  Forall parses l → forallb wf l = true → l ≠ [] →
  S (String.length (Join (map Marshal l) ",")) ≤ n →
  parse_elems n (Join (map Marshal l) "," +:+ String "]"%char rest) = Some (l, rest).
Proof.
  intros Hp. revert n. induction Hp as [|v l Hv Hl IH]; intros n Hw Hne Hn; [done|].
  destruct n as [|n]; [lia|]. cbn [forallb] in Hw. bool_prop. destruct l as [|v2 l].
  - cbn [map Join] in *. cbn [parse_elems]. rewrite Hv by (done || lia). done.
  - cbn [map] in *. rewrite Join_cons in *. rewrite !str_app_assoc.
    rewrite (str_app_cons ","%char ""), str_app_nil_l.
    rewrite !str_length_app in Hn. cbn [String.length] in Hn. cbn [parse_elems].
    rewrite Hv by (done || lia). cbn -[parse_elems Join skip_ws].
    rewrite skip_ws_head by done. cbn -[parse_elems Join].
    rewrite IH by (done || lia). done.
Qed.

Lemma parse_members_Join l rest n :
  Forall (λ kv, parses kv.2) l → forallb (λ '(_, v), wf v) l = true → l ≠ [] →
  S (String.length (Join (map (λ '(k, v), print_str k +:+ ":" +:+ Marshal v) l) ",")) ≤ n →
  parse_members n (Join (map (λ '(k, v), print_str k +:+ ":" +:+ Marshal v) l) "," +:+ String "}"%char rest)
  = Some (l, rest).
Proof.
  intros Hp. revert n. induction Hp as [|[k v] l Hv Hl IH]; intros n Hw Hne Hn; [done|].
  destruct n as [|n]; [lia|]. cbn [forallb] in Hw. bool_prop. cbn [snd] in Hv.
  assert (Hkey : ∀ X, (let s' := escape k +:+ String dquote X in
     parse_chars (S (String.length s')) s') = Some (k, X)).
  { intros X. cbv zeta. apply parse_escaped. rewrite str_length_app. pose proof (escape_length k).
    simpl. lia. }
  destruct l as [|kv2 l].
  - cbn [map Join] in *. unfold print_str in *. rewrite !str_app_assoc in *.
    rewrite !str_app_cons, !str_app_nil_l, !str_app_assoc, !str_app_cons, !str_app_nil_l in *.
    cbn [parse_members]. rewrite skip_ws_head by done. cbn -[parse_chars parse_value skip_ws Marshal].
    rewrite Hkey. cbn -[parse_value skip_ws Marshal]. rewrite skip_ws_head by done.
    cbn -[parse_value skip_ws Marshal]. cbn [String.length] in Hn. rewrite !str_length_app in Hn.
    cbn [String.length] in Hn. rewrite Hv by (done || lia). done.
  - cbn [map] in *. rewrite Join_cons in *. unfold print_str at 1. unfold print_str at 1 in Hn.
    rewrite !str_app_assoc in *.
    rewrite !str_app_cons, !str_app_nil_l, !str_app_assoc, !str_app_cons, !str_app_nil_l in *.
    cbn [parse_members]. rewrite skip_ws_head by done. cbn -[parse_chars parse_value parse_members skip_ws Marshal Join].
    rewrite Hkey. cbn -[parse_value parse_members skip_ws Marshal Join]. rewrite skip_ws_head by done.
    cbn -[parse_value parse_members skip_ws Marshal Join].
    cbn [String.length] in Hn. rewrite !str_length_app in Hn. cbn [String.length] in Hn.
    rewrite !str_length_app in Hn. cbn [String.length] in Hn.
    rewrite Hv by (done || lia). cbn -[parse_members skip_ws Join Marshal].
    rewrite skip_ws_head by done. cbn -[parse_members Join Marshal].
    rewrite IH by (done || lia). done.
Qed.

Lemma Marshal_parses j : parses j.
Proof.
  induction j as [|b|lit|s|l IH|l IH] using json_ind'; intros Hw n rest Hs Hn.
  - destruct n; [simpl in Hn; lia|]. by destruct rest.
  - destruct n; [destruct b; simpl in Hn; lia|]. by destruct b, rest.
  - simpl in Hw. bool_prop. rename H into Hok, H0 into Hch.
    destruct (num_head lit Hok) as (c & t & -> & Hc).
    destruct n; [simpl in Hn; lia|]. cbn [Marshal] in *. cbn [parse_value].
    pose proof (span_stops (String c t) rest Hch Hs) as Hspan. rewrite str_app_cons in *.
    destruct (num_head_facts c (t +:+ rest) Hc) as (H1 & H2 & H3 & H4 & H5 & H6 & H7).
    rewrite skip_ws_head by done. by rewrite H2, H3, H4, H5, H6, H7, Hspan, Hok.
  - destruct n; [simpl in Hn; lia|]. cbn [Marshal] in *. unfold print_str in *. rewrite str_app_cons.
    cbn [parse_value]. rewrite skip_ws_head by done. cbn -[parse_chars].
    rewrite str_app_assoc, str_app_cons, str_app_nil_l, parse_escaped; [done|].
    rewrite str_length_app. pose proof (escape_length s). lia.
  - destruct n; [simpl in Hn; lia|]. cbn [Marshal] in *. rewrite str_app_cons, str_app_nil_l in *.
    rewrite str_app_cons, str_app_assoc, str_app_cons, str_app_nil_l.
    cbn [String.length] in Hn. rewrite str_length_app in Hn. cbn [String.length] in Hn.
    cbn [parse_value]. rewrite skip_ws_head by done.
    destruct l as [|v l]; [done|].
    assert (Hhd : ∃ c t, Join (map Marshal (v :: l)) "," +:+ String "]"%char rest = String c t ∧ starts_value c = true).
    { cbn [wf forallb] in Hw. bool_prop. destruct (Marshal_head v) as (c & t & Hm & Hc); [done|].
      exists c. cbn [map]. destruct l; [cbn [map Join]|cbn [map]; rewrite Join_cons];
        rewrite Hm, ?str_app_cons; eauto. }
    assert (Hpe := parse_elems_Join (v :: l) rest n IH Hw ltac:(done) ltac:(lia)).
    destruct Hhd as (c & t & Hj & Hc). rewrite Hj in *.
    cbn -[parse_elems skip_ws]. rewrite skip_ws_head by done.
    unfold starts_value in Hc. bool_prop. rewrite Hpe.
    by destruct (Ascii.eqb c "]"%char).
  - destruct n; [simpl in Hn; lia|]. cbn [Marshal] in *. rewrite str_app_cons, str_app_nil_l in *.
    rewrite str_app_cons, str_app_assoc, str_app_cons, str_app_nil_l.
    cbn [String.length] in Hn. rewrite str_length_app in Hn. cbn [String.length] in Hn.
    cbn [parse_value]. rewrite skip_ws_head by done.
    destruct l as [|[k v] l]; [done|].
    assert (Hhd : ∃ t, Join (map (λ '(k, v), print_str k +:+ ":" +:+ Marshal v) ((k, v) :: l)) ","
                       +:+ String "}"%char rest = String dquote t).
    { cbn [map]. destruct l; [cbn [map Join]|cbn [map]; rewrite Join_cons];
        unfold print_str; rewrite !str_app_cons; eauto. }
    assert (Hpe := parse_members_Join ((k, v) :: l) rest n IH Hw ltac:(done) ltac:(lia)).
    destruct Hhd as (t & Hj). rewrite Hj in *.
    cbn -[parse_members skip_ws]. rewrite skip_ws_head by done. cbn -[parse_members].
    by rewrite Hpe.
Qed.

(** Parsing what was printed gives the value back. *)
Lemma Unmarshal_Marshal j : wf j = true → Unmarshal (Marshal j) = Some j.
Proof.
  intros Hw. unfold Unmarshal. pose proof (Marshal_parses j Hw (S (String.length (Marshal j))) "") as H.
  rewrite str_app_nil_r in H. rewrite H by (done || lia). done.
Qed.

(** ** Parsing only yields printable values *)
Lemma span_all p s : all_chars p (span p s).1 = true.
Proof.
  induction s as [|c s IH]; [done|]. cbn [span].
  destruct (p c) eqn:E; [|done]. destruct (span p s) as [a b]. simpl in *. by rewrite E.
Qed.

Lemma parse_wf n :
  (∀ s j r, parse_value n s = Some (j, r) → wf j = true) ∧
  (∀ s l r, parse_elems n s = Some (l, r) → forallb wf l = true) ∧
  (∀ s l r, parse_members n s = Some (l, r) → forallb (λ '(_, v), wf v) l = true).
Proof.
  induction n as [|n (IHv & IHe & IHm)]; [done|]. split_and!.
  - intros s j r. cbn [parse_value]. destruct (skip_ws s) as [|c s'] eqn:Es; [done|].
    destruct (Ascii.eqb c dquote).
    { destruct (parse_chars _ s') as [[t r']|]; [|done]. by intros [= <- <-]. }
    destruct (Ascii.eqb c "["%char).
    { destruct (skip_ws s'); [done|]. destruct (Ascii.eqb a "]"%char); [by intros [= <- <-]|].
      destruct (parse_elems n s') as [[l r']|] eqn:E; [|done]. intros [= <- <-]. by eapply IHe. }
    destruct (Ascii.eqb c "{"%char).
    { destruct (skip_ws s'); [done|]. destruct (Ascii.eqb a "}"%char); [by intros [= <- <-]|].
      destruct (parse_members n s') as [[l r']|] eqn:E; [|done]. intros [= <- <-]. by eapply IHm. }
    do 3 (destruct (String.prefix _ _); [by intros [= <- <-]|]).
    pose proof (span_all is_num_char (String c s')) as Hall.
    destruct (span is_num_char (String c s')) as [lit r']. simpl in Hall.
    destruct (num_ok lit) eqn:E; [|done]. intros [= <- <-]. simpl. by rewrite E.
  - intros s l r. cbn [parse_elems]. destruct (parse_value n s) as [[v r1]|] eqn:E1; [|done]. simpl.
    destruct (skip_ws r1) as [|c r2]; [done|]. apply IHv in E1.
    destruct (Ascii.eqb c ","%char).
    + destruct (parse_elems n r2) as [[l' r3]|] eqn:E2; [|done]. intros [= <- <-].
      simpl. rewrite E1. by eapply IHe.
    + destruct (Ascii.eqb c "]"%char); [|done]. intros [= <- <-]. simpl. by rewrite E1.
  - intros s l r. cbn [parse_members]. destruct (skip_ws s) as [|c s']; [done|].
    destruct (Ascii.eqb c dquote); [|done]. destruct (parse_chars _ s') as [[k r1]|]; [|done]. simpl.
    destruct (skip_ws r1) as [|c1 r2]; [done|]. destruct (Ascii.eqb c1 ":"%char); [|done].
    destruct (parse_value n r2) as [[v r3]|] eqn:E1; [|done]. simpl. apply IHv in E1.
    destruct (skip_ws r3) as [|c3 r4]; [done|]. destruct (Ascii.eqb c3 ","%char).
    + destruct (parse_members n r4) as [[l' r5]|] eqn:E2; [|done]. intros [= <- <-].
      simpl. rewrite E1. by eapply IHm.
    + destruct (Ascii.eqb c3 "}"%char); [|done]. intros [= <- <-]. simpl. by rewrite E1.
Qed.

(** ** The fuel is enough

    What a parser accepts with some fuel it accepts with the fuel of the characters it
    consumes, so no input is refused for want of fuel. *)
Notation slen := String.length.

Lemma drop_str_shorter n s : slen (drop_str n s) ≤ slen s.
Proof. revert n. induction s as [|c s IH]; intros [|n]; cbn; try lia. specialize (IH n). lia. Qed.

Lemma trim_left_shorter p s : slen (trim_left p s) ≤ slen s.
Proof. induction s as [|c s IH]; cbn; [lia|]. destruct (p c); cbn; lia. Qed.

Lemma skip_ws_cons s c s' : skip_ws s = String c s' → slen s' < slen s.
Proof. intros E. pose proof (trim_left_shorter is_ws s) as H. unfold skip_ws in E. rewrite E in H. cbn in H. lia. Qed.

Lemma hex4_shorter s n r : hex4 s = Some (n, r) → slen r < slen s.
Proof.
  unfold hex4. destruct s as [|a [|b [|c [|d r']]]]; try done. intros E.
  destruct (hex_val a), (hex_val b), (hex_val c), (hex_val d); cbn in E; simplify_eq. cbn. lia.
Qed.

Lemma unicode_escape_shorter s u r : unicode_escape s = Some (u, r) → slen r < slen s.
Proof.
  unfold unicode_escape. destruct (hex4 s) as [[n r1]|] eqn:E; [|done]. apply hex4_shorter in E.
  destruct (is_surrogate n); [|by intros [= _ <-]].
  destruct r1 as [|b1 [|u1 r2]]; [by intros [= _ <-]..|].
  destruct (_ && _); [|by intros [= _ <-]].
  destruct (hex4 r2) as [[n2 r3]|] eqn:E2; [|by intros [= _ <-]]. apply hex4_shorter in E2. cbn in E.
  destruct (_ && _); intros [= _ <-]; cbn; lia.
Qed.

Lemma parse_chars_fuel n s t r :
  parse_chars n s = Some (t, r) → slen r < slen s ∧ ∀ m, slen s - slen r ≤ m → parse_chars m s = Some (t, r).
Proof.
  revert s t r. induction n as [|n IH]; intros s t r; [done|]. cbn [parse_chars].
  destruct s as [|c s]; [done|]. destruct (Ascii.eqb c dquote) eqn:Eq.
  { intros [= <- <-]. split; [cbn; lia|]. intros [|m] Hm; cbn in Hm; [lia|]. cbn. by rewrite Eq. }
  destruct (Ascii.eqb c bslash) eqn:Eb.
  - destruct s as [|e s2]; [done|]. intros H.
    assert (Hcases : (∃ x t', parse_chars n s2 = Some (t', r) ∧ t = String x t' ∧
                       ∀ m, parse_chars m s2 = Some (t', r) → parse_chars (S m) (String c (String e s2)) = Some (t, r)) ∨
                     (∃ u s3 t', unicode_escape s2 = Some (u, s3) ∧ parse_chars n s3 = Some (t', r) ∧
                       ∀ m, parse_chars m s3 = Some (t', r) → parse_chars (S m) (String c (String e s2)) = Some (t, r))).
    { repeat match type of H with
      | (if ?b then parse_chars n s2 ≫= _ else _) = _ =>
          destruct b eqn:?;
          [left; destruct (parse_chars n s2) as [[t' r']|] eqn:?; [|done]; cbn in H; simplify_eq;
           do 2 eexists; split_and!; [done..|]; intros m Hm; cbn [parse_chars]; rewrite Eq, Eb;
           repeat match goal with Hx : Ascii.eqb _ _ = _ |- _ => rewrite Hx; clear Hx end; by rewrite Hm|]
      | (if ?b then _ else _) = _ => destruct b eqn:?
      end; try done.
      all: right; destruct (unicode_escape s2) as [[u s3]|] eqn:Eu; [|done]; cbn in H;
        destruct (parse_chars n s3) as [[t' r']|] eqn:Ep; [|done]; cbn in H; simplify_eq;
        do 3 eexists; split_and!; [done..|]; intros m Hm; cbn [parse_chars]; rewrite Eq, Eb;
        repeat match goal with Hx : Ascii.eqb _ _ = _ |- _ => rewrite Hx; clear Hx end;
        rewrite Eu; cbn; by rewrite Hm. }
    destruct Hcases as [(x & t' & E & -> & Hs)|(u & s3 & t' & Eu & E & Hs)]; apply IH in E as [Hlt Hf].
    + split; [cbn; lia|]. intros [|m] Hm; cbn in Hm; [lia|]. apply Hs, Hf. lia.
    + apply unicode_escape_shorter in Eu. split; [cbn; lia|]. intros [|m] Hm; cbn in Hm; [lia|]. apply Hs, Hf. lia.
  - destruct (byte c <? 32) eqn:E32; [done|]. destruct (parse_chars n s) as [[t' r']|] eqn:E; [|done]. cbn.
    intros [= <- <-]. apply IH in E as [Hlt Hf]. split; [lia|].
    intros [|m] Hm; cbn in Hm; [lia|]. cbn [parse_chars]. rewrite Eq, Eb, E32, Hf by lia. done.
Qed.

Lemma span_shorter p s : slen (span p s).2 ≤ slen s ∧ ((span p s).1 ≠ "" → slen (span p s).2 < slen s).
Proof.
  induction s as [|c s [IH _]]; cbn; [done|]. destruct (p c); cbn; [|done]. destruct (span p s); cbn in *. lia.
Qed.

Lemma prefix_drop_shorter p s : String.prefix p s = true → p ≠ "" → slen (drop_str (slen p) s) < slen s.
Proof.
  intros [r ->]%prefix_inv Hp. rewrite drop_str_app, str_length_app. destruct p; [done|]. cbn. lia.
Qed.

Definition fuel_value (n : nat) : Prop := ∀ s v r,
  parse_value n s = Some (v, r) → slen r < slen s ∧ ∀ m, slen s - slen r ≤ m → parse_value m s = Some (v, r).
Definition fuel_elems (n : nat) : Prop := ∀ s l r,
  parse_elems n s = Some (l, r) → slen r < slen s ∧ ∀ m, slen s - slen r ≤ m → parse_elems m s = Some (l, r).
Definition fuel_members (n : nat) : Prop := ∀ s l r,
  parse_members n s = Some (l, r) → slen r < slen s ∧ ∀ m, slen s - slen r ≤ m → parse_members m s = Some (l, r).

(** Close the case of a token that needs one unit of fuel. *)
Ltac one_unit := split; [lia|]; intros [|m] Hm; [lia|]; cbn [parse_value parse_elems parse_members].

Lemma fuel_value_step n : fuel_elems n → fuel_members n → fuel_value (S n).
Proof.
  intros IHe IHm s v r. cbn [parse_value]. destruct (skip_ws s) as [|c s'] eqn:Es; [done|].
  pose proof (skip_ws_cons _ _ _ Es) as Hlt.
  destruct (Ascii.eqb c dquote) eqn:Eq.
  { destruct (parse_chars _ s') as [[t r']|] eqn:E; [|done]. intros [= <- <-].
    pose proof (proj1 (parse_chars_fuel _ _ _ _ E)). one_unit. by rewrite Es, Eq, E. }
  destruct (Ascii.eqb c "["%char) eqn:Ea.
  { destruct (skip_ws s') as [|a s2] eqn:Es2; [done|]. pose proof (skip_ws_cons _ _ _ Es2).
    destruct (Ascii.eqb a "]"%char) eqn:Ec.
    - intros [= <- <-]. one_unit. by rewrite Es, Eq, Ea, Es2, Ec.
    - destruct (parse_elems n s') as [[l r']|] eqn:E; [|done]. intros [= <- <-]. apply IHe in E as [? Hf].
      one_unit. rewrite Es, Eq, Ea, Es2, Ec, Hf by lia. done. }
  destruct (Ascii.eqb c "{"%char) eqn:Eo.
  { destruct (skip_ws s') as [|a s2] eqn:Es2; [done|]. pose proof (skip_ws_cons _ _ _ Es2).
    destruct (Ascii.eqb a "}"%char) eqn:Ec.
    - intros [= <- <-]. one_unit. by rewrite Es, Eq, Ea, Eo, Es2, Ec.
    - destruct (parse_members n s') as [[l r']|] eqn:E; [|done]. intros [= <- <-]. apply IHm in E as [? Hf].
      one_unit. rewrite Es, Eq, Ea, Eo, Es2, Ec, Hf by lia. done. }
  intros H. assert (Hr : slen r < slen s).
  { assert (Hw : slen (String c s') ≤ slen s) by (cbn; lia).
    repeat match type of H with (if String.prefix ?p ?x then _ else _) = _ =>
      let E := fresh in destruct (String.prefix p x) eqn:E;
      [apply prefix_drop_shorter in E; [|done]; cbn [slen] in E; simplify_eq; cbn [slen] in *; lia|] end.
    pose proof (proj2 (span_shorter is_num_char (String c s'))) as Hsp.
    destruct (span is_num_char (String c s')) as [lit r']. destruct (num_ok lit) eqn:En; [|done].
    simplify_eq. cbn [fst snd slen] in *. enough (slen r < S (slen s')) by lia. apply Hsp. by intros ->. }
  one_unit. by rewrite Es, Eq, Ea, Eo.
Qed.

Lemma fuel_elems_step n : fuel_value n → fuel_elems n → fuel_elems (S n).
Proof.
  intros IHv IHe s l r. cbn [parse_elems]. destruct (parse_value n s) as [[v r1]|] eqn:E1; [|done]. cbn.
  apply IHv in E1 as [? Hv]. destruct (skip_ws r1) as [|c r2] eqn:Es; [done|]. pose proof (skip_ws_cons _ _ _ Es).
  destruct (Ascii.eqb c ","%char) eqn:Ec.
  - destruct (parse_elems n r2) as [[l' r3]|] eqn:E2; [|done]. intros [= <- <-]. apply IHe in E2 as [? He].
    one_unit. rewrite Hv by lia. cbn. rewrite Es, Ec, He by lia. done.
  - destruct (Ascii.eqb c "]"%char) eqn:Eb; [|done]. intros [= <- <-].
    one_unit. rewrite Hv by lia. cbn. by rewrite Es, Ec, Eb.
Qed.

Lemma fuel_members_step n : fuel_value n → fuel_members n → fuel_members (S n).
Proof.
  intros IHv IHm s l r. cbn [parse_members]. destruct (skip_ws s) as [|c s'] eqn:Es; [done|].
  pose proof (skip_ws_cons _ _ _ Es). destruct (Ascii.eqb c dquote) eqn:Eq; [|done].
  destruct (parse_chars _ s') as [[k r1]|] eqn:Ek; [|done]. cbn. pose proof (proj1 (parse_chars_fuel _ _ _ _ Ek)).
  destruct (skip_ws r1) as [|c1 r2] eqn:Es1; [done|]. pose proof (skip_ws_cons _ _ _ Es1).
  destruct (Ascii.eqb c1 ":"%char) eqn:Ec1; [|done].
  destruct (parse_value n r2) as [[v r3]|] eqn:E1; [|done]. cbn. apply IHv in E1 as [? Hv].
  destruct (skip_ws r3) as [|c3 r4] eqn:Es3; [done|]. pose proof (skip_ws_cons _ _ _ Es3).
  destruct (Ascii.eqb c3 ","%char) eqn:Ec3.
  - destruct (parse_members n r4) as [[l' r5]|] eqn:E2; [|done]. intros [= <- <-]. apply IHm in E2 as [? Hm'].
    one_unit. rewrite Es, Eq, Ek. cbn. rewrite Es1, Ec1, Hv by lia. cbn. rewrite Es3, Ec3, Hm' by lia. done.
  - destruct (Ascii.eqb c3 "}"%char) eqn:Eb; [|done]. intros [= <- <-].
    one_unit. rewrite Es, Eq, Ek. cbn. rewrite Es1, Ec1, Hv by lia. cbn. by rewrite Es3, Ec3, Eb.
Qed.

Lemma parse_fuel n : fuel_value n ∧ fuel_elems n ∧ fuel_members n.
Proof.
  induction n as [|n (IHv & IHe & IHm)]; [by split_and!; intros ????|].
  auto using fuel_value_step, fuel_elems_step, fuel_members_step.
Qed.

(** the parser never fails for want of fuel: whatever it accepts with
    any amount of fuel, it accepts with the amount [Unmarshal] gives it. *)
Theorem parser_fuel_suffices : ∀ n s v r,
  parse_value n s = Some (v, r) → parse_value (S (slen s)) s = Some (v, r).
Proof. intros n s v r E. apply (proj1 (parse_fuel n)) in E as [_ Hf]. apply Hf. lia. Qed.

Lemma parser_fuel_suffices_witness :
  parse_value 50 "[1,[2]]" = Some (JArr [JNum "1"; JArr [JNum "2"]], "") ∧
  parse_value 8 "[1,[2]]" = Some (JArr [JNum "1"; JArr [JNum "2"]], "").
Proof. split; [vm_compute; reflexivity|]. apply (parser_fuel_suffices 50). vm_compute. reflexivity. Defined.

Lemma Unmarshal_wf s j : Unmarshal s = Some j → wf j = true.
Proof.
  unfold Unmarshal. destruct (parse_value _ s) as [[j' r]|] eqn:E; [|done].
  destruct (skip_ws r =?s ""); [|done]. intros [= <-]. by eapply (proj1 (parse_wf _)).
Qed.

Lemma last_value_wf k l v :
  forallb (λ '(_, v), wf v) l = true → last_value k l = Some v → wf v = true.
Proof.
  induction l as [|[k' v'] l IH]; [done|]. simpl. intros H.
  apply andb_true_iff in H as [H1 H2]. destruct (last_value k l) as [u|]; [intros [= <-]; auto|].
  destruct (k' =?s k); [|done]. by intros [= <-].
Qed.

Lemma marshal_map_wf l : forallb (λ '(_, v), wf v) l = true → wf (marshal_map l) = true.
Proof.
  intros H. simpl. apply forallb_forall. intros [k v] Hin.
  apply list_elem_of_In, list_elem_of_omap in Hin as (k' & _ & E).
  destruct (last_value k' l) eqn:El; [|done]. simplify_eq/=. by eapply last_value_wf.
Qed.

(** ** Re-marshalled maps *)

Lemma last_value_notin k l : k ∉ map fst l → last_value k l = None.
Proof.
  induction l as [|[k' v] l IH]; [done|]. cbn. rewrite not_elem_of_cons. intros [Hne Hn].
  rewrite IH by done. apply not_eq_sym, String.eqb_neq in Hne. by rewrite Hne.
Qed.

Lemma last_value_in k l : is_Some (last_value k l) ↔ k ∈ map fst l.
Proof.
  induction l as [|[k' v] l IH]; cbn.
  - rewrite elem_of_nil. split; [by intros [? ?]|done].
  - rewrite elem_of_cons, <- IH. destruct (last_value k l) as [v'|]; [naive_solver|].
    destruct (k' =?s k) eqn:E; bool_prop; subst; [naive_solver|].
    split; [by intros [? ?]|]. intros [?|[? ?]]; congruence.
Qed.

Lemma last_value_app k l1 l2 :
  last_value k (l1 ++ l2) = match last_value k l2 with Some v => Some v | None => last_value k l1 end.
Proof.
  induction l1 as [|[k' v] l1 IH]; cbn; [by destruct (last_value k l2)|].
  rewrite IH. by destruct (last_value k l2).
Qed.

(** The values of a list of distinct keys. *)
Definition entries (l : list (string * json)) (keys : list string) : list (string * json) :=
  omap (λ k, v ← last_value k l; Some (k, v)) keys.

Lemma entries_keys l keys k : k ∈ map fst (entries l keys) → k ∈ keys.
Proof.
  rewrite list_elem_of_In, in_map_iff. intros ([k' v] & <- & Hin). rewrite <- list_elem_of_In in Hin.
  apply list_elem_of_omap in Hin as (k & Hk & E). cbn in *. destruct (last_value k l); by simplify_eq/=.
Qed.

Lemma last_value_entries l keys k :
  NoDup keys → last_value k (entries l keys) = if decide (k ∈ keys) then last_value k l else None.
Proof.
  induction 1 as [|k' keys Hn Hnd IH]; [done|].
  assert (Hcons : entries l (k' :: keys) =
    match last_value k' l with Some v => (k', v) :: entries l keys | None => entries l keys end).
  { unfold entries. cbn. by destruct (last_value k' l). }
  rewrite Hcons. destruct (decide (k = k')) as [->|Hne].
  - rewrite (decide_True (P := k' ∈ k' :: keys)) by (by left). rewrite decide_False in IH by done.
    destruct (last_value k' l) as [v|] eqn:E; [|done]. cbn. rewrite IH. by rewrite String.eqb_refl.
  - assert (Hd : (if decide (k ∈ k' :: keys) then last_value k l else None)
                 = (if decide (k ∈ keys) then last_value k l else None)).
    { destruct (decide (k ∈ keys)) as [Hk|Hk].
      - rewrite decide_True by (by right). done.
      - rewrite decide_False; [done|]. rewrite elem_of_cons. naive_solver. }
    rewrite Hd, <- IH. destruct (last_value k' l) as [v|]; [|done]. cbn.
    destruct (last_value k (entries l keys)); [done|]. apply not_eq_sym, String.eqb_neq in Hne. by rewrite Hne.
Qed.

Lemma NoDup_map_keys l : NoDup (map_keys l).
Proof. unfold map_keys, sort_strings. rewrite stable_sort_perm. apply NoDup_remove_dups. Qed.

(** Re-marshalling a map keeps the value of every key. *)
Lemma marshal_map_lookup l :
  ∃ l', marshal_map l = JObj l' ∧ ∀ k, last_value k l' = last_value k l.
Proof.
  exists (entries l (map_keys l)). split; [done|]. intros k. rewrite last_value_entries by apply NoDup_map_keys.
  destruct (decide (k ∈ map_keys l)) as [Hk|Hk]; [done|]. symmetry. apply last_value_notin.
  unfold map_keys, sort_strings in Hk. by rewrite elem_of_stable_sort, elem_of_remove_dups in Hk.
Qed.

(** Two maps with the same values print the same text. *)
Lemma marshal_map_ext l l' : (∀ k, last_value k l = last_value k l') → marshal_map l = marshal_map l'.
Proof.
  intros E. assert (Hk : map_keys l = map_keys l').
  { apply (StronglySorted_unique_strong (leb_rel String.leb)); [|apply sort_strings_sorted..|].
    - intros x y _ _ Hx Hy. by apply String.leb_antisym.
    - unfold map_keys, sort_strings. rewrite !stable_sort_perm. apply NoDup_Permutation; [apply NoDup_remove_dups..|].
      intros k. rewrite !elem_of_remove_dups, <- !last_value_in. by rewrite E. }
  unfold marshal_map. rewrite Hk. f_equal. apply list_omap_ext, Forall_Forall2_diag, Forall_true. intros k. by rewrite E.
Qed.

Lemma last_value_elem k l v : last_value k l = Some v → (k, v) ∈ l.
Proof.
  induction l as [|[k' v'] l IH]; [done|]. cbn. destruct (last_value k l) as [u|].
  - intros [= ->]. right. auto.
  - destruct (k' =?s k) eqn:E; [|done]. bool_prop. subst. intros [= ->]. by left.
Qed.

Lemma last_value_map (f : string → json → json) k l :
  last_value k (map (λ '(k, v), (k, f k v)) l) = f k <$> last_value k l.
Proof.
  induction l as [|[k' v] l IH]; [done|]. cbn. rewrite IH. destruct (last_value k l); [done|]. cbn.
  destruct (k' =?s k) eqn:E; [|done]. bool_prop. by subst.
Qed.

Lemma last_value_filter (p : string → bool) k l :
  last_value k (List.filter (λ '(k, _), p k) l) = if p k then last_value k l else None.
Proof.
  induction l as [|[k' v] l IH]; cbn; [by destruct (p k)|].
  destruct (p k') eqn:E; cbn; rewrite IH; destruct (p k) eqn:E2; try done.
  - destruct (k' =?s k) eqn:E3; [|done]. bool_prop. subst. congruence.
  - destruct (last_value k l); [done|]. destruct (k' =?s k) eqn:E3; [|done]. bool_prop. subst. congruence.
Qed.

(** Printing a map never takes more room than the object it came from. *)
Definition member_size (m : string * json) : nat := slen (print_str m.1) + slen (Marshal m.2) + 2.

Lemma Join_length l : slen (Join l ",") + 1 = sum_list_with (λ x, slen x + 1) l + match l with [] => 1 | _ => 0 end.
Proof.
  destruct l as [|x l]; [done|]. revert x. induction l as [|y l IH]; intros x; cbn; [lia|].
  specialize (IH y).
  rewrite !str_length_app. cbn [slen] in *. cbn in IH. cbn. lia.
Qed.

Lemma Marshal_obj_length l :
  slen (Marshal (JObj l)) = 1 + sum_list_with member_size l + match l with [] => 1 | _ => 0 end.
Proof.
  cbn [Marshal]. rewrite !str_length_app. cbn [slen].
  pose proof (Join_length (map (λ '(k, v), print_str k +:+ ":" +:+ Marshal v) l)) as HJ.
  assert (Hs : sum_list_with (λ x, slen x + 1) (map (λ '(k, v), print_str k +:+ ":" +:+ Marshal v) l)
               = sum_list_with member_size l).
  { clear. induction l as [|[k v] l IH]; [done|]. cbn [map sum_list_with]. rewrite IH. unfold member_size.
    cbn [fst snd]. rewrite !str_length_app. change (slen ":") with 1. lia. }
  rewrite Hs in HJ. destruct l as [|m l]; cbn [map] in *; [cbn; lia|]. cbv beta iota in *. lia.
Qed.

Lemma Marshal_arr_length l :
  slen (Marshal (JArr l)) = 1 + sum_list_with (λ v, slen (Marshal v) + 1) l + match l with [] => 1 | _ => 0 end.
Proof.
  cbn [Marshal]. rewrite !str_length_app. cbn [slen]. pose proof (Join_length (map Marshal l)) as HJ.
  assert (Hs : sum_list_with (λ x, slen x + 1) (map Marshal l) = sum_list_with (λ v, slen (Marshal v) + 1) l).
  { clear. induction l as [|v l IH]; [done|]. cbn. by rewrite IH. }
  rewrite Hs in HJ. destruct l as [|m l]; cbn [map] in *; [cbn; lia|]. cbv beta iota in *. lia.
Qed.

Lemma sum_list_with_submseteq {A} (f : A → nat) l k : l ⊆+ k → sum_list_with f l ≤ sum_list_with f k.
Proof. intros [l' ->]%submseteq_Permutation. rewrite sum_list_with_app. lia. Qed.

Lemma marshal_map_length l : slen (Marshal (marshal_map l)) ≤ slen (Marshal (JObj l)).
Proof.
  unfold marshal_map. rewrite !Marshal_obj_length.
  set (es := omap _ _). assert (Hsub : es ⊆+ l).
  { apply NoDup_submseteq.
    - apply (NoDup_fmap_1 fst). assert (Hf : es.*1 `sublist_of` map_keys l).
      { subst es. generalize (map_keys l). intros ks. induction ks as [|k ks IH]; [constructor|].
        cbn. destruct (last_value k l); cbn; by constructor. }
      eapply sublist_NoDup; [apply NoDup_map_keys|exact Hf].
    - intros [k v] Hin. apply list_elem_of_omap in Hin as (k' & _ & E).
      destruct (last_value k' l) eqn:El; [|done]. simplify_eq/=. by apply last_value_elem. }
  pose proof (sum_list_with_submseteq member_size _ _ Hsub). clearbody es.
  destruct es as [|m es], l as [|m' l]; try lia. cbn in *. unfold member_size at 1. lia.
Qed.

Lemma decode_raw_field_wf name l cur v :
  forallb (λ '(_, v), wf v) l = true → (∀ c, cur = Some c → wf c = true) →
  decode_raw_field name l cur = Some v → wf v = true.
Proof.
  revert cur. induction l as [|[k' v'] l IH]; intros cur Hl Hc; cbn; [apply Hc|].
  cbn in Hl. bool_prop. apply IH; [done|]. intros c. destruct (EqualFold k' name); [|apply Hc]. by intros [= <-].
Qed.

(** [m\[k\] = v] on the map of a parsed object. *)
Definition set_key (k : string) (v : json) (l : list (string * json)) : list (string * json) := l ++ [(k, v)].

(** Replacing a key of a parsed object and printing it again. *)
Lemma patched_result l key v :
  forallb (λ '(_, v), wf v) l = true → wf v = true →
  ∃ l', Unmarshal (Marshal (marshal_map (set_key key v l))) = Some (JObj l') ∧
    last_value key l' = Some v ∧ ∀ k, k ≠ key → last_value k l' = last_value k l.
Proof.
  intros Hl Hv. destruct (marshal_map_lookup (set_key key v l)) as (l' & Em & Hl').
  assert (Hw : wf (marshal_map (set_key key v l)) = true).
  { apply marshal_map_wf. unfold set_key. rewrite forallb_app, Hl. cbn. by rewrite Hv. }
  exists l'. rewrite Em in Hw |- *. split; [by apply Unmarshal_Marshal|]. split.
  - rewrite Hl'. unfold set_key. rewrite last_value_app. cbn. by rewrite String.eqb_refl.
  - intros k Hk. rewrite Hl'. unfold set_key. rewrite last_value_app. cbn [last_value].
    destruct (String.eqb_spec key k); [by subst|done].
Qed.
