(* ===== verification/JsonDecode.v ===== *)
(** * Decoding JSON into Go structs

    How [json.Unmarshal] and [json.Decoder.Decode] fill the fields of a struct: keys match
    the field's name up to case, a later match replaces an earlier one, [null] leaves
    a scalar alone, a value of another type is an error ([None]). *)
From S2P Require Import Prelude GoStrings Json.

(** [%q] of a name without quotes, backslashes and control characters. *)
Definition quoted (s : string) : string := String dquote (s +:+ String dquote "").

(** ** Fields of a struct *)

Fixpoint digits (s : string) (acc : Z) : option Z :=
  match s with
  | EmptyString => Some acc
  | String c r => if is_digit c then digits r (acc * 10 + Z.of_nat (byte c - 48))%Z else None
  end.

(** A JSON number into a Go [int]: an integer literal within 64 bits. *)
Definition int_literal (lit : string) : option Z :=
  let z := match lit with
           | String c r => if Ascii.eqb c "-"%char then Z.opp <$> digits r 0 else digits lit 0
           | EmptyString => None
           end in
  match z with
  | Some z => if (- 2 ^ 63 <=? z)%Z && (z <? 2 ^ 63)%Z then Some z else None
  | None => None
  end.

Fixpoint decode_int_field (name : string) (l : list (string * json)) (cur : Z) : option Z :=
  match l with
  | [] => Some cur
  | (k, v) :: r =>
      if EqualFold k name then
        match v with
        | JNum lit => z ← int_literal lit; decode_int_field name r z
        | JNull => decode_int_field name r cur
        | _ => None
        end
      else decode_int_field name r cur
  end.

(** A slice of structs; [null] is the nil slice, a [null] element the zero struct. *)
Definition decode_struct_list {A} (f : list (string * json) → option A) (v : option json) : option (list A) :=
  match v with
  | None | Some JNull => Some []
  | Some (JArr l) => mapM (λ j, match j with JObj o => f o | JNull => f [] | _ => None end) l
  | _ => None
  end.

(** A [[]string] field: [null] makes it nil. *)
Fixpoint decode_strings_field (name : string) (l : list (string * json)) (cur : list string) : option (list string) :=
  match l with
  | [] => Some cur
  | (k, v) :: r =>
      if EqualFold k name then
        match v with
        | JArr a => x ← mapM (λ j, match j with JStr s => Some s | JNull => Some "" | _ => None end) a;
                    decode_strings_field name r x
        | JNull => decode_strings_field name r []
        | _ => None
        end
      else decode_strings_field name r cur
  end.

Fixpoint decode_bool_field (name : string) (l : list (string * json)) (cur : bool) : option bool :=
  match l with
  | [] => Some cur
  | (k, v) :: r =>
      if EqualFold k name then
        match v with
        | JBool b => decode_bool_field name r b
        | JNull => decode_bool_field name r cur
        | _ => None
        end
      else decode_bool_field name r cur
  end.

(** A [map\[string\]string] field: entries are added to the map that is there; a [null] value
    is the empty string, a [null] map is nil. *)
Fixpoint decode_entries (l : list (string * json)) (m : gmap string string) : option (gmap string string) :=
  match l with
  | [] => Some m
  | (k, JStr s) :: r => decode_entries r (<[k := s]> m)
  | (k, JNull) :: r => decode_entries r (<[k := ""]> m)
  | _ => None
  end.

Fixpoint decode_string_map_field (name : string) (l : list (string * json)) (cur : gmap string string) :
    option (gmap string string) :=
  match l with
  | [] => Some cur
  | (k, v) :: r =>
      if EqualFold k name then
        match v with
        | JObj o => m ← decode_entries o cur; decode_string_map_field name r m
        | JNull => decode_string_map_field name r ∅
        | _ => None
        end
      else decode_string_map_field name r cur
  end.

(** [json.Unmarshal(data, &struct)]: [null] leaves the zero value. *)
Definition struct_fields (data : string) : option (list (string * json)) :=
  match Unmarshal data with
  | Some (JObj l) => Some l
  | Some JNull => Some []
  | _ => None
  end.

(** [json.NewDecoder(body).Decode(&struct)]: only the first value of the body is read. *)
Definition body_fields (body : string) : option (list (string * json)) :=
  match parse_value (S (String.length body)) body with
  | Some (JObj l, _) => Some l
  | Some (JNull, _) => Some []
  | _ => None
  end.

(** A string field that is left out when it is empty. *)
Definition omit_empty (name v : string) : list (string * json) := if v =?s "" then [] else [(name, JStr v)].

(** ** Reading back what was written *)

Lemma dsf_app name l1 l2 cur :
  decode_string_field name (l1 ++ l2) cur = (x ← decode_string_field name l1 cur; decode_string_field name l2 x).
Proof.
  revert cur. induction l1 as [|[k v] l1 IH]; intros cur; [done|]. cbn [app decode_string_field]. case_if; [|apply IH].
  destruct v; try done; apply IH.
Qed.

Lemma dsf_omit_ne name k v cur : EqualFold k name = false → decode_string_field name (omit_empty k v) cur = Some cur.
Proof. intros H. unfold omit_empty. case_if; [done|]. cbn. by rewrite H. Qed.

Lemma dsf_omit_eq name k v : EqualFold k name = true → decode_string_field name (omit_empty k v) "" = Some v.
Proof. intros H. unfold omit_empty. destruct (v =?s "") eqn:E; [bool_prop; by subst|]. cbn. by rewrite H. Qed.

Lemma dsf_str name k v cur : decode_string_field name [(k, JStr v)] cur = Some (if EqualFold k name then v else cur).
Proof. cbn. by case_if. Qed.

Ltac decode_strings := repeat first
  [ rewrite dsf_app | rewrite dsf_omit_ne by reflexivity | rewrite dsf_omit_eq by reflexivity
  | rewrite dsf_str | progress cbn [mbind option_bind] ].

Lemma omit_wf k v : forallb (λ '(_, j), Json.wf j) (omit_empty k v) = true.
Proof. unfold omit_empty. by case_if. Qed.
