(* ===== verification/Profiles.v ===== *)
(** * Agent profiles

    [src/internal/store/profiles.go]: named sets of endpoint permissions.  The
    state extends the tier tables of [AccessTiers] (foreign keys and seeding read
    them) with the [agent_profiles] and [profile_permissions] tables. *)
From S2P Require Import Prelude GoStrings AccessTiers.

Record AgentProfile := mkProfile {
  ProfileName : string; ProfileDescription : string; CreatedAt : Z; UpdatedAt : Z }.

(** A row of [profile_permissions]: the whole row is the primary key. *)
Abbreviation perm := (string * string * string * string)%type.

Record State := mkState {
  access : Access.State;
  agent_profiles : gmap string AgentProfile;
  permissions : gset perm }.

Definition with_profiles (s : State) (m : gmap string AgentProfile) : State :=
  mkState (access s) m (permissions s).

Definition with_perms (s : State) (p : gset perm) : State :=
  mkState (access s) (agent_profiles s) p.

(** ** CRUD *)

(** [name TEXT UNIQUE]: some other row than [but] already has the name. *)
Definition name_taken (name : string) (but : option string) (m : gmap string AgentProfile) : bool :=
  existsb (λ '(id, p), negb (bool_decide (Some id = but)) && (ProfileName p =?s name)) (map_to_list m).

(** [id] is the fresh uuid. *)
Definition Create (id name description : string) (now : Z) : DBM State (string * AgentProfile) :=
  let p := mkProfile name description now now in
  exec (λ s, if bool_decide (is_Some (agent_profiles s !! id)) || name_taken name None (agent_profiles s)
             then Err "creating profile: UNIQUE constraint failed"
             else Ok ((id, p), with_profiles s (<[id := p]> (agent_profiles s)))).

(** A missing row is an error here ([sql.ErrNoRows] is wrapped). *)
Definition Get (id : string) : DBM State AgentProfile :=
  exec (λ s, match agent_profiles s !! id with
             | Some p => Ok (p, s)
             | None => Err "getting profile: sql: no rows in result set"
             end).

Definition GetByName (name : string) : DBM State (string * AgentProfile) :=
  exec (λ s, match List.find (λ '(_, p), ProfileName p =?s name) (map_to_list (agent_profiles s)) with
             | Some r => Ok (r, s)
             | None => Err "getting profile by name: sql: no rows in result set"
             end).

Definition ListProfiles : DBM State (list (string * AgentProfile)) :=
  query (λ s, stable_sort (λ a b, String.leb (ProfileName a.2) (ProfileName b.2))
                (map_to_list (agent_profiles s))).

(** Updating a missing row affects nothing and is not an error. *)
Definition Update (id name description : string) (now : Z) : DBM State unit :=
  exec (λ s, match agent_profiles s !! id with
             | None => Ok (tt, s)
             | Some p =>
                 if name_taken name (Some id) (agent_profiles s) then Err "UNIQUE constraint failed"
                 else Ok (tt, with_profiles s
                       (<[id := mkProfile name description (CreatedAt p) now]> (agent_profiles s)))
             end).

(** Deleting a profile cascades to its permissions. *)
Definition Delete (id : string) : DBM State unit :=
  update (λ s, mkState (access s) (delete id (agent_profiles s))
                 (filter (λ p, p.1.1.1 ≠ id) (permissions s))).

(** ** Permissions *)

Definition perm_leb (p q : perm) : bool :=
  let '(_, s1, t1, n1) := p in let '(_, s2, t2, n2) := q in
  if s1 =?s s2 then if t1 =?s t2 then String.leb n1 n2 else String.leb t1 t2 else String.leb s1 s2.

Definition GetPermissions (profileID : string) : DBM State (list perm) :=
  query (λ s, stable_sort perm_leb
                (elements (filter (λ p, p.1.1.1 = profileID) (permissions s)))).

Definition GetPermissionsForServer (profileID serverID : string) : DBM State (list perm) :=
  query (λ s, stable_sort perm_leb
                (elements (filter (λ p, p.1.1.1 = profileID ∧ p.1.1.2 = serverID) (permissions s)))).

(** The REFERENCES and CHECK constraints of the table. *)
Definition perm_ok (s : State) (p : perm) : bool :=
  bool_decide (is_Some (agent_profiles s !! p.1.1.1))
  && bool_decide (p.1.1.2 ∈ Access.servers (access s))
  && Access.valid_type p.1.2.

(** [INSERT OR IGNORE] skips a duplicate or a row that fails a CHECK; a foreign-key
    violation is still an error. *)
Definition SetPermission (profileID serverID endpointType endpointName : string) : DBM State unit :=
  exec (λ s,
    if negb (Access.valid_type endpointType) then Ok (tt, s)
    else if perm_ok s (profileID, serverID, endpointType, endpointName)
         then Ok (tt, with_perms s ({[(profileID, serverID, endpointType, endpointName)]} ∪ permissions s))
         else Err "FOREIGN KEY constraint failed").

Definition RemovePermission (profileID serverID endpointType endpointName : string) : DBM State unit :=
  update (λ s, with_perms s (permissions s ∖ {[(profileID, serverID, endpointType, endpointName)]})).

Definition clear_permissions (profileID serverID : string) : DBM State unit :=
  update (λ s, with_perms s (filter (λ p, ¬ (p.1.1.1 = profileID ∧ p.1.1.2 = serverID)) (permissions s))).

(** A plain [INSERT]: a duplicate row is an error. *)
Definition insert_permission (p : perm) : DBM State unit :=
  exec (λ s, if perm_ok s p && negb (bool_decide (p ∈ permissions s))
             then Ok (tt, with_perms s ({[p]} ∪ permissions s))
             else Err "inserting permission: constraint failed").

Fixpoint insert_permissions (profileID serverID : string) (perms : list (string * string)) : DBM State unit :=
  match perms with
  | [] => db_ret tt
  | (ty, nm) :: rest =>
      insert_permission (profileID, serverID, ty, nm) ;;; insert_permissions profileID serverID rest
  end.

(** Only the endpoint type and name of the given permissions are used. *)
Definition BulkSetPermissions (profileID serverID : string) (perms : list (string * string)) : DBM State unit :=
  transact (clear_permissions profileID serverID ;;; insert_permissions profileID serverID perms).

Definition CheckPermission (profileID serverID endpointType endpointName : string) : DBM State bool :=
  query (λ s, bool_decide ((profileID, serverID, endpointType, endpointName) ∈ permissions s)).

(** The WHERE clause [SeedFromTier] builds from the tier. *)
Definition tier_condition (maxTier : string) : option (string → bool) :=
  if maxTier =?s "read" then Some (λ t, t =?s "read")
  else if maxTier =?s "write" then Some (λ t, (t =?s "read") || (t =?s "write"))
  else if maxTier =?s "admin" then Some (λ _, true)
  else None.

Definition seeded (profileID serverID : string) (cond : string → bool) (s : State) : gset perm :=
  list_to_set (omap (λ '((sid, ty, nm), row),
      if (sid =?s serverID) && cond (Access.AccessTier row) then Some (profileID, sid, ty, nm) else None)
    (map_to_list (Access.tiers (access s)))).

Definition SeedFromTier (profileID serverID maxTier : string) : DBM State unit :=
  match tier_condition maxTier with
  | None => db_fail ("invalid tier: " +:+ maxTier)
  | Some cond =>
      exec (λ s, let new := seeded profileID serverID cond s in
        if bool_decide (new = ∅) || bool_decide (is_Some (agent_profiles s !! profileID))
        then Ok (tt, with_perms s (new ∪ permissions s))
        else Err "FOREIGN KEY constraint failed")
  end.

Definition PermissionCount (profileID : string) : DBM State Z :=
  query (λ s, Z.of_nat (size (filter (λ p, p.1.1.1 = profileID) (permissions s)))).

Definition ServerIDsForProfile (profileID : string) : DBM State (gset string) :=
  query (λ s, filter (λ sid, sid ∈ Access.servers (access s))
                (set_map (λ p : perm, p.1.1.2) (filter (λ p, p.1.1.1 = profileID) (permissions s)))).

(** ** Theorems *)

(** Foreign keys and CHECK constraints hold of every permission. *)
Definition wf (s : State) : Prop :=
  Access.wf (access s) ∧ set_Forall (λ p, perm_ok s p = true) (permissions s).

Lemma elem_of_seeded pid sid cond s ty nm p :
  (p, sid, ty, nm) ∈ seeded pid sid cond s ↔
  p = pid ∧ ∃ row, Access.tiers (access s) !! (sid, ty, nm) = Some row ∧ cond (Access.AccessTier row) = true.
Proof.
  unfold seeded. rewrite elem_of_list_to_set, list_elem_of_omap. split.
  - intros ([[[sid' ty'] nm'] row] & Hin & E). apply elem_of_map_to_list in Hin.
    destruct (sid' =?s sid) eqn:Es; [|done]. destruct (cond _) eqn:Ec; [|done]. simplify_eq/=. eauto.
  - intros (-> & row & Hrow & Hc). exists ((sid, ty, nm), row).
    rewrite elem_of_map_to_list, String.eqb_refl, Hc. done.
Qed.

Lemma tier_condition_CheckAccess maxTier cond t :
  tier_condition maxTier = Some cond → Access.valid_tier t = true →
  cond t = Access.CheckAccess maxTier t.
Proof.
  unfold tier_condition, Access.valid_tier. intros Hc Ht.
  destruct (maxTier =?s "read") eqn:E1; [|destruct (maxTier =?s "write") eqn:E2;
    [|destruct (maxTier =?s "admin") eqn:E3; [|done]]]; simplify_eq;
    repeat match goal with H : _ || _ = true |- _ => apply orb_true_iff in H as [H|H] end;
    bool_prop; subst; reflexivity.
Qed.

(** a profile seeded from a level grants on a server exactly the
    endpoints the legacy tier check grants a user of that level, besides what it
    already granted; an unknown level is refused and changes nothing. *)
Theorem seed_agrees_with_tier_check : ∀ pid sid level (s : State),
  wf s → is_Some (agent_profiles s !! pid) →
  (Access.valid_tier level = true →
   let s' := final (SeedFromTier pid sid level) (healthy s) in
   ∀ ty nm, (pid, sid, ty, nm) ∈ permissions s' ↔
     (pid, sid, ty, nm) ∈ permissions s ∨
     ∃ row, Access.tiers (access s) !! (sid, ty, nm) = Some row ∧
            Access.CheckAccess level (Access.AccessTier row) = true) ∧
  (Access.valid_tier level = false → ∀ d,
   final (SeedFromTier pid sid level) d = tables d ∧ is_ok (outcome (SeedFromTier pid sid level) d) = false).
Proof.
  intros pid sid level s [Hacc _] Hp. split.
  - intros Hv s' ty nm. unfold s', final, SeedFromTier.
    assert (Hc : ∃ cond, tier_condition level = Some cond).
    { unfold tier_condition, Access.valid_tier in *.
      destruct (level =?s "read"), (level =?s "write"), (level =?s "admin"); eauto. done. }
    destruct Hc as [cond Hc]. rewrite Hc, exec_healthy.
    rewrite (bool_decide_true (is_Some _)) by done. rewrite orb_true_r. cbn.
    rewrite elem_of_union, elem_of_seeded.
    assert (Heq : ∀ row, Access.tiers (access s) !! (sid, ty, nm) = Some row →
      cond (Access.AccessTier row) = Access.CheckAccess level (Access.AccessTier row)).
    { intros row Hrow. apply tier_condition_CheckAccess; [done|]. by apply (Hacc _ _ Hrow). }
    split.
    + intros [(_ & row & Hrow & Hcr)|H]; [|by left]. right. exists row. by rewrite <- Heq.
    + intros [H|(row & Hrow & Hcr)]; [by right|]. left. split; [done|]. exists row. by rewrite Heq.
  - intros Hv d. unfold final, outcome, SeedFromTier, tier_condition, Access.valid_tier in *.
    apply orb_false_iff in Hv as [[H1 H2]%orb_false_iff H3]. by rewrite H1, H2, H3.
Qed.

Lemma seed_agrees_with_tier_check_witness :
  let s := mkState (Access.mkState {["srv"]} {[("srv", "tool", "get_x") := Access.mkTier "read" true]})
             {["p" := mkProfile "agents" "" 0 0]} ∅ in
  ("p", "srv", "tool", "get_x") ∈ permissions (final (SeedFromTier "p" "srv" "write") (healthy s)).
Proof.
  apply (proj1 (seed_agrees_with_tier_check "p" "srv" "write"
    (mkState (Access.mkState {["srv"]} {[("srv", "tool", "get_x") := Access.mkTier "read" true]})
             {["p" := mkProfile "agents" "" 0 0]} ∅)
    ltac:(split; [apply map_Forall_singleton; split_and!; [set_solver|reflexivity..]|apply set_Forall_empty])
    ltac:(by eexists)) eq_refl).
  right. exists (Access.mkTier "read" true). split; reflexivity.
Defined.

Lemma clear_permissions_final pid sid s :
  clear_permissions pid sid (healthy s) =
  (Ok tt, healthy (with_perms s (filter (λ p, ¬ (p.1.1.1 = pid ∧ p.1.1.2 = sid)) (permissions s)))).
Proof. reflexivity. Qed.

Definition perm_rows (pid sid : string) (perms : list (string * string)) : list perm :=
  map (λ '(ty, nm), (pid, sid, ty, nm)) perms.

(** What a run of plain inserts does when it succeeds: all rows were new and
    allowed, and exactly they were added. *)
Lemma insert_permissions_spec pid sid perms d :
  match insert_permissions pid sid perms d with
  | (Ok _, d') =>
      access (tables d') = access (tables d) ∧ agent_profiles (tables d') = agent_profiles (tables d) ∧
      (∀ p, p ∈ permissions (tables d') ↔ p ∈ perm_rows pid sid perms ∨ p ∈ permissions (tables d)) ∧
      Forall (λ p, perm_ok (tables d) p = true) (perm_rows pid sid perms)
  | (Err _, _) => True
  end.
Proof.
  revert d. induction perms as [|[ty nm] perms IH]; intros d.
  - cbn. split_and!; try done. intros p. split; [by right|]. by intros [?%not_elem_of_nil|?].
  - cbn [insert_permissions]. unfold db_bind, insert_permission, exec.
    destruct (next_fault (faults d)) as [[] fs]; [done|].
    destruct (perm_ok (tables d) (pid, sid, ty, nm)) eqn:Hok; [|done].
    destruct (bool_decide ((pid, sid, ty, nm) ∈ permissions (tables d))) eqn:Hin; [done|]. cbn -[insert_permissions].
    specialize (IH (mkDb (with_perms (tables d) ({[(pid, sid, ty, nm)]} ∪ permissions (tables d))) fs)).
    destruct (insert_permissions _ _ _ _) as [[u|e] d']; [|done]. cbn in IH.
    destruct IH as (-> & -> & Hp & Hall). split_and!; try done.
    + intros p. rewrite Hp. unfold perm_rows. cbn. rewrite elem_of_cons, elem_of_union, elem_of_singleton. tauto.
    + by constructor.
Qed.

(** [BulkSetPermissions] is all or nothing under any fault: when it
    reports an error (a duplicate or invalid row included) no permission changed;
    when it succeeds the profile's permissions on that server are exactly the given
    ones and all others are untouched. *)
Theorem bulk_set_is_atomic_replace : ∀ pid sid perms (d : Db State),
  let s := tables d in
  let s' := final (BulkSetPermissions pid sid perms) d in
  match outcome (BulkSetPermissions pid sid perms) d with
  | Err _ => s' = s
  | Ok _ =>
      (∀ ty nm, (pid, sid, ty, nm) ∈ permissions s' ↔ (ty, nm) ∈ perms) ∧
      (∀ p, ¬ (p.1.1.1 = pid ∧ p.1.1.2 = sid) → p ∈ permissions s' ↔ p ∈ permissions s)
  end.
Proof.
  intros pid sid perms d s s'. unfold outcome. destruct (fst (BulkSetPermissions pid sid perms d)) as [u|e] eqn:E.
  2: { apply (transact_atomic _ _ _ E). }
  unfold s', final, BulkSetPermissions in *.
  destruct (transact_ok _ _ _ E) as (fs & d1 & Hb & ->). unfold db_bind, clear_permissions in Hb.
  unfold update in Hb. unfold exec at 1 in Hb. cbn -[insert_permissions] in Hb.
  destruct (next_fault fs) as [[] fs']; [done|].
  set (d2 := mkDb (with_perms (tables d) (filter _ (permissions (tables d)))) fs') in Hb.
  pose proof (insert_permissions_spec pid sid perms d2) as Hi. rewrite Hb in Hi.
  destruct Hi as (_ & _ & Hp & _).
  assert (Hrows : ∀ p, p ∈ perm_rows pid sid perms ↔ ∃ ty nm, p = (pid, sid, ty, nm) ∧ (ty, nm) ∈ perms).
  { intros p. unfold perm_rows. rewrite list_elem_of_In, in_map_iff. split.
    - intros ([ty nm] & <- & Hin). exists ty, nm. by rewrite list_elem_of_In.
    - intros (ty & nm & -> & Hin). exists (ty, nm). by rewrite <- list_elem_of_In. }
  split.
  - intros ty nm. rewrite Hp, Hrows. cbn. rewrite elem_of_filter. cbn. split.
    + intros [(ty' & nm' & ? & ?)|[Hn _]]; [by simplify_eq|]. exfalso. by apply Hn.
    + intros Hin. left. eauto.
  - intros p Hne. rewrite Hp, Hrows. cbn. rewrite elem_of_filter. split.
    + intros [(ty & nm & -> & _)|[_ ?]]; [by exfalso; apply Hne|done].
    + intros Hin. right. done.
Qed.

Lemma perm_ok_mono (s s' : State) p :
  access s' = access s →
  (∀ id, is_Some (agent_profiles s !! id) → is_Some (agent_profiles s' !! id)) →
  perm_ok s p = true → perm_ok s' p = true.
Proof.
  intros Ha Hm. unfold perm_ok. rewrite Ha. intros H. bool_prop.
  rewrite !andb_true_iff, !bool_decide_eq_true. auto.
Qed.

(** Adding allowed rows, or dropping rows, keeps the permission table well formed. *)
Lemma wf_with_perms (s : State) (P : gset perm) :
  wf s → (∀ p, p ∈ P → perm_ok s p = true ∨ p ∈ permissions s) → wf (with_perms s P).
Proof.
  intros [Ha Hp] HP. split; [done|]. intros p Hin. cbn in Hin.
  destruct (HP p Hin) as [Hok|Hold]; [|apply (Hp _) in Hold as Hok];
    by apply (perm_ok_mono s).
Qed.

Lemma wf_with_profiles (s : State) m :
  wf s → (∀ id, is_Some (agent_profiles s !! id) → is_Some (m !! id)) → wf (with_profiles s m).
Proof.
  intros [Ha Hp] Hm. split; [done|]. intros p Hin. apply (perm_ok_mono s); [done..|]. by apply Hp.
Qed.

Lemma wf_seeded (s : State) pid sid cond :
  wf s → is_Some (agent_profiles s !! pid) →
  ∀ p, p ∈ seeded pid sid cond s → perm_ok s p = true.
Proof.
  intros [Ha _] Hpid [[[p sid'] ty] nm] Hin.
  assert (sid' = sid) as ->.
  { unfold seeded in Hin. rewrite elem_of_list_to_set, list_elem_of_omap in Hin.
    destruct Hin as ([[[a b] c] row] & _ & E). repeat case_match; bool_prop; by simplify_eq. }
  apply elem_of_seeded in Hin as (-> & row & Hrow & _). destruct (Ha _ _ Hrow) as (Hs & Ht & _).
  unfold perm_ok. cbn in *. rewrite !bool_decide_true by done. done.
Qed.

Lemma insert_permissions_wf pid sid perms : preserves wf (insert_permissions pid sid perms).
Proof.
  induction perms as [|[ty nm] perms IH]; cbn [insert_permissions]; [apply preserves_ret|].
  apply preserves_bind; [|done]. apply preserves_exec. intros s a s' Hs E.
  case_if; simplify_eq. bool_prop. apply wf_with_perms; [done|]. set_solver.
Qed.

Lemma Delete_wf id : preserves wf (Delete id).
Proof.
  apply preserves_update. intros s [Ha Hp]. split; [done|]. intros p Hin. cbn in Hin.
  apply elem_of_filter in Hin as [Hne Hin]. specialize (Hp p Hin). unfold perm_ok in *. cbn.
  by rewrite lookup_delete_ne by done.
Qed.

(** every operation of the profile store keeps the foreign keys
    and the CHECK constraint of the permission table, whatever statements fail: a
    permission always refers to an existing profile and server and a known
    endpoint type, also after a profile is deleted. *)
Theorem profile_invariant : ∀ id name desc now sid ty nm perms level,
  preserves wf (Create id name desc now) ∧ preserves wf (Update id name desc now) ∧
  preserves wf (Delete id) ∧ preserves wf (SetPermission id sid ty nm) ∧
  preserves wf (RemovePermission id sid ty nm) ∧ preserves wf (BulkSetPermissions id sid perms) ∧
  preserves wf (SeedFromTier id sid level).
Proof.
  intros. split_and!.
  - apply preserves_exec. intros s a s' Hs E. case_if; simplify_eq.
    apply wf_with_profiles; [done|]. intros i Hi. rewrite lookup_insert_is_Some'. by right.
  - apply preserves_exec. intros s a s' Hs E. repeat case_match; simplify_eq; [|done].
    apply wf_with_profiles; [done|]. intros i Hi. rewrite lookup_insert_is_Some'. by right.
  - apply Delete_wf.
  - apply preserves_exec. intros s a s' Hs E. repeat case_match; simplify_eq; [done|].
    apply wf_with_perms; [done|]. set_solver.
  - apply preserves_update. intros s Hs. apply wf_with_perms; [done|]. set_solver.
  - apply preserves_transact, preserves_bind; [|intros; apply insert_permissions_wf].
    apply preserves_update. intros s Hs. apply wf_with_perms; [done|]. set_solver.
  - unfold SeedFromTier. destruct (tier_condition level); [|apply preserves_fail].
    apply preserves_exec. intros s a s' Hs E. cbn in E.
    destruct (bool_decide (seeded _ _ _ _ = ∅)) eqn:E0; cbn in E.
    + simplify_eq. bool_prop. apply wf_with_perms; [done|]. rewrite E0. set_solver.
    + case_if; simplify_eq. bool_prop. apply wf_with_perms; [done|]. intros p [Hp|Hp]%elem_of_union; [|by right].
      left. by eapply wf_seeded.
Qed.
