(* ===== verification/Users.v ===== *)
(** * Users, API keys and capabilities

    [src/internal/store/users.go] and the capability gates of
    [src/internal/web/auth_capabilities.go].  The state is the identity part of the
    database: the profile tables of [Profiles] and the tables of users, API keys,
    invites, sessions and OAuth tokens (the last ones are used by [Sessions]; they
    are here because deleting a user cascades to them). *)
From S2P Require Import Prelude GoStrings Json AccessTiers Profiles.

(** ** Hashing

    [golang.org/x/crypto/bcrypt] and SHA-256 in lower-case hex.  The laws are the
    documented behaviour of bcrypt and the collision freedom the code relies on
    when it looks a secret up by its hash. *)
Class Hashing := {
  sha256_hex : string → string;
  (** [GenerateFromPassword]; the number is the random salt. *)
  bcrypt_generate : Z → string → result string;
  bcrypt_compare : string → string → bool }.

Class HashingLaws `(Hashing) := {
  sha256_hex_inj : ∀ a b, sha256_hex a = sha256_hex b → a = b;
  bcrypt_correct : ∀ salt pw h pw', bcrypt_generate salt pw = Ok h →
    bcrypt_compare h pw' = true ↔ pw' = pw }.

(** A concrete instance, used by the witnesses: prefixed text, and passwords above
    72 bytes refused as bcrypt does. *)
#[export] Instance toy_hashing : Hashing := {|
  sha256_hex s := "sha:" +:+ s;
  bcrypt_generate _ pw := if (72 <? String.length pw)%nat then Err "password length exceeds 72 bytes"
                          else Ok ("bc:" +:+ pw);
  bcrypt_compare h pw := h =?s ("bc:" +:+ pw) |}.

#[export] Instance toy_hashing_laws : HashingLaws toy_hashing.
Proof.
  split.
  - intros a b H. cbn in H. by simplify_eq.
  - intros salt pw h pw'. unfold bcrypt_generate, bcrypt_compare, toy_hashing. case_if; [done|]. intros [= <-].
    rewrite String.eqb_eq. split; [|by intros ->]. intros H. cbn in H. by simplify_eq.
Qed.

(** ** Data *)

(** A row of [users]; [uProfileID] and [uProfileName] are not stored but resolved
    when the user is authenticated. *)
Record User := mkUser {
  uID : string; uUsername : string; uPasswordHash : string; uRole : string;
  uAccessLevel : string; uDefaultProfileID : option string; uMustChangePassword : bool;
  uCreatedAt : Z; uProfileID : option string; uProfileName : string }.

Record APIKey := mkKey {
  kID : string; kUserID : string; kKeyHash : string; kName : string; kProfileID : option string;
  kProfileName : string; kCreatedAt : Z; kLastUsed : option Z; kRevoked : bool;
  kCapabilities : list string }.

(** The columns of [api_keys]; the capabilities are JSON text. *)
Record KeyRow := mkKeyRow {
  r_user_id : string; r_key_hash : string; r_name : string; r_profile_id : option string;
  r_created_at : Z; r_last_used : option Z; r_revoked : bool; r_capabilities : string }.

Record InviteToken := mkInvite {
  iID : string; iTokenHash : string; iRole : string; iAccessLevel : string;
  iProfileID : option string; iCreatedBy : string; iExpiresAt : Z; iUsedAt : option Z;
  iRedeemedUserID : option string; iStatus : string }.

(** [token_hash] is the key of the two OAuth token tables. *)
Record OAuthToken := mkToken {
  tUserID : string; tClientID : string; tScope : string; tResource : string; tExpiresAt : Z }.

Record OAuthClientRow := mkClientRow {
  cSecretHash : string; cName : string; cRedirectURIs : string; cAuthMethod : string }.

Record State := mkState {
  profiles : Profiles.State;
  users : gmap string User;
  api_keys : gmap string KeyRow;
  invites : gmap string InviteToken;
  sessions : gmap string (string * Z);
  oauth_tokens : gmap string OAuthToken;
  refresh_tokens : gmap string OAuthToken;
  oauth_clients : gmap string OAuthClientRow }.

Definition with_profiles (s : State) p : State :=
  mkState p (users s) (api_keys s) (invites s) (sessions s) (oauth_tokens s) (refresh_tokens s) (oauth_clients s).
Definition with_users (s : State) u : State :=
  mkState (profiles s) u (api_keys s) (invites s) (sessions s) (oauth_tokens s) (refresh_tokens s) (oauth_clients s).
Definition with_keys (s : State) k : State :=
  mkState (profiles s) (users s) k (invites s) (sessions s) (oauth_tokens s) (refresh_tokens s) (oauth_clients s).
Definition with_invites (s : State) i : State :=
  mkState (profiles s) (users s) (api_keys s) i (sessions s) (oauth_tokens s) (refresh_tokens s) (oauth_clients s).
Definition with_sessions (s : State) x : State :=
  mkState (profiles s) (users s) (api_keys s) (invites s) x (oauth_tokens s) (refresh_tokens s) (oauth_clients s).
Definition with_tokens (s : State) t : State :=
  mkState (profiles s) (users s) (api_keys s) (invites s) (sessions s) t (refresh_tokens s) (oauth_clients s).
Definition with_refresh (s : State) t : State :=
  mkState (profiles s) (users s) (api_keys s) (invites s) (sessions s) (oauth_tokens s) t (oauth_clients s).
Definition with_clients (s : State) c : State :=
  mkState (profiles s) (users s) (api_keys s) (invites s) (sessions s) (oauth_tokens s) (refresh_tokens s) c.

(** The profile store on the whole database. *)
Definition on_profiles {A} (m : DBM Profiles.State A) : DBM State A :=
  lift_db profiles (λ p s, with_profiles s p) m.

(** A foreign key that may be NULL refers to a profile. *)
Definition profile_ref (s : State) (p : option string) : bool :=
  match p with
  | None => true
  | Some id => bool_decide (is_Some (agent_profiles (profiles s) !! id))
  end.

Definition valid_role (r : string) : bool := (r =?s "admin") || (r =?s "user").

(** ** Capabilities *)

Definition legacyCapabilityGrants (c : string) : list string :=
  if c =?s "skills:write" then ["skills:publish"]
  else if c =?s "recipes:write" then ["recipes:publish"]
  else [].

(** The loop of [HasCapability] over the stored list. *)
Fixpoint caps_grant (caps : list string) (cap : string) : bool :=
  match caps with
  | [] => false
  | c :: rest =>
      if c =?s cap then true
      else if existsb (λ granted, granted =?s cap) (legacyCapabilityGrants c) then true
      else caps_grant rest cap
  end.

Definition HasCapability (k : option APIKey) (cap : string) : bool :=
  match k with None => false | Some k => caps_grant (kCapabilities k) cap end.

Definition SupportedCapabilities : list string :=
  ["skills:publish"; "skills:admin"; "skills:yank"; "recipes:publish"; "recipes:admin";
   "recipes:yank"; "skills:write"; "recipes:write"].

(** The loop of [normalizeCapabilities]: [seen] is the map, [out] the slice. *)
Fixpoint normalize_loop (l : list string) (seen : gset string) (out : list string) : list string :=
  match l with
  | [] => out
  | c :: rest =>
      let c := TrimSpace c in
      if c =?s "" then normalize_loop rest seen out
      else if bool_decide (c ∈ seen) then normalize_loop rest seen out
      else normalize_loop rest ({[c]} ∪ seen) (out ++ [c])
  end.

Definition normalizeCapabilities (l : list string) : list string :=
  sort_strings (normalize_loop l ∅ []).

Definition marshalCapabilities (caps : list string) : string := Marshal (JArr (map JStr caps)).

(** Decoding into [[]string]: a JSON null element leaves the empty string, any
    other non-string element is an error. *)
Definition decode_string_list (l : list json) : option (list string) :=
  mapM (λ j, match j with JStr s => Some s | JNull => Some "" | _ => None end) l.

Definition unmarshalCapabilities (s : string) : result (list string) :=
  if s =?s "" then Ok []
  else match Unmarshal s with
       | Some JNull => Ok []
       | Some (JArr l) => match decode_string_list l with
                          | Some caps => Ok caps
                          | None => Err "parsing capabilities JSON"
                          end
       | _ => Err "parsing capabilities JSON"
       end.

(** [requireCapability] and [hasCapability] of the web handlers. *)
Definition hasCapability (user : option User) (key : option APIKey) (cap : string) : bool :=
  match user with
  | Some u => if uRole u =?s "admin" then true else HasCapability key cap
  | None => HasCapability key cap
  end.

(** What the key-issuing form lets through. *)
Definition sanitizeCapabilities (values : list string) : list string :=
  filter (λ v, v ∈ SupportedCapabilities) (map TrimSpace values).

(** ** The user store *)
Section UserStore.
Context `{Hashing}.

(** [INSERT INTO users]: CHECK constraints, then uniqueness, then foreign keys. *)
Definition insert_user (u : User) : DBM State User :=
  exec (λ s,
    if negb (valid_role (uRole u) && Access.valid_tier (uAccessLevel u))
    then Err "creating user: CHECK constraint failed: users"
    else if bool_decide (is_Some (users s !! uID u))
    then Err "creating user: UNIQUE constraint failed: users.id"
    else if existsb (λ '(_, v), uUsername v =?s uUsername u) (map_to_list (users s))
    then Err "creating user: UNIQUE constraint failed: users.username"
    else if negb (profile_ref s (uDefaultProfileID u))
    then Err "creating user: FOREIGN KEY constraint failed"
    else Ok (u, with_users s (<[uID u := u]> (users s)))).

(** An admin always gets the admin level; the default level is write. *)
Definition forced_level (role accessLevel : string) : string :=
  let accessLevel := if role =?s "admin" then "admin" else accessLevel in
  if accessLevel =?s "" then "write" else accessLevel.

(** [id] is the fresh uuid, [salt] bcrypt's randomness. *)
Definition CreateWithAccessLevel (id : string) (salt now : Z)
    (username password role accessLevel : string) (defaultProfileID : option string) : DBM State User :=
  match bcrypt_generate salt password with
  | Err e => db_fail ("hashing password: " +:+ e)
  | Ok hash =>
      insert_user (mkUser id username hash role (forced_level role accessLevel)
                     defaultProfileID false now None "")
  end.

(** The same statements inside the caller's transaction. *)
Definition CreateWithAccessLevelTx := CreateWithAccessLevel.

Definition Create (id : string) (salt now : Z) (username password role : string) : DBM State User :=
  CreateWithAccessLevel id salt now username password role "" None.

Definition user_by_name (username : string) (s : State) : option User :=
  snd <$> List.find (λ '(_, u), uUsername u =?s username) (map_to_list (users s)).

(** The comparison with the dummy hash on the unknown-user path only spends time. *)
Definition Authenticate (username password : string) : DBM State (option User) :=
  let! u := query (user_by_name username) in
  match u with
  | None => db_ret None
  | Some u => if bcrypt_compare (uPasswordHash u) password then db_ret (Some u) else db_ret None
  end.

Definition Get (id : string) : DBM State (option User) := query (λ s, users s !! id).

Definition GetByUsername (username : string) : DBM State (option User) := query (user_by_name username).

Definition profile_name (s : State) (p : option string) : string :=
  match p with
  | None => ""
  | Some id => match agent_profiles (profiles s) !! id with
               | Some ap => Profiles.ProfileName ap
               | None => ""
               end
  end.

Definition with_profile_name (u : User) (n : string) : User :=
  mkUser (uID u) (uUsername u) (uPasswordHash u) (uRole u) (uAccessLevel u) (uDefaultProfileID u)
    (uMustChangePassword u) (uCreatedAt u) (uProfileID u) n.

Definition ListUsers : DBM State (list User) :=
  query (λ s, stable_sort (λ a b, uCreatedAt a <=? uCreatedAt b)%Z
    (map (λ '(_, u), with_profile_name u (profile_name s (uDefaultProfileID u))) (map_to_list (users s)))).

(** [UPDATE users SET ... WHERE id = ?]: no row, no effect. *)
Definition update_user (id : string) (f : User → User) (s : State) : State :=
  with_users s (alter f id (users s)).

Definition set_default_profile (p : option string) (u : User) : User :=
  mkUser (uID u) (uUsername u) (uPasswordHash u) (uRole u) (uAccessLevel u) p
    (uMustChangePassword u) (uCreatedAt u) (uProfileID u) (uProfileName u).
Definition set_role (r : string) (u : User) : User :=
  mkUser (uID u) (uUsername u) (uPasswordHash u) r (uAccessLevel u) (uDefaultProfileID u)
    (uMustChangePassword u) (uCreatedAt u) (uProfileID u) (uProfileName u).
Definition set_level (l : string) (u : User) : User :=
  mkUser (uID u) (uUsername u) (uPasswordHash u) (uRole u) l (uDefaultProfileID u)
    (uMustChangePassword u) (uCreatedAt u) (uProfileID u) (uProfileName u).
Definition set_password (h : string) (must : bool) (u : User) : User :=
  mkUser (uID u) (uUsername u) h (uRole u) (uAccessLevel u) (uDefaultProfileID u)
    must (uCreatedAt u) (uProfileID u) (uProfileName u).

Definition UpdateProfile (id : string) (defaultProfileID : option string) : DBM State unit :=
  exec (λ s, if negb (profile_ref s defaultProfileID) && bool_decide (is_Some (users s !! id))
             then Err "FOREIGN KEY constraint failed"
             else Ok (tt, update_user id (set_default_profile defaultProfileID) s)).

(** Two statements; the second runs whatever the first one did and its error is
    dropped. *)
Definition UpdateRole (id role : string) : DBM State unit :=
  let! r := attempt (exec (λ s,
    if negb (valid_role role) && bool_decide (is_Some (users s !! id))
    then Err "CHECK constraint failed: users"
    else Ok (tt, update_user id (set_role role) s))) in
  let! _ := (if role =?s "admin"
             then attempt (update (update_user id (set_level "admin")))
             else db_ret (Ok tt)) in
  match r with Ok _ => db_ret tt | Err e => db_fail e end.

Definition SetPassword (salt : Z) (id newPassword : string) : DBM State unit :=
  match bcrypt_generate salt newPassword with
  | Err e => db_fail ("hashing password: " +:+ e)
  | Ok hash => update (update_user id (set_password hash false))
  end.

Definition SetMustChangePassword (id : string) (must : bool) : DBM State unit :=
  update (update_user id (λ u, set_password (uPasswordHash u) must u)).

(** Foreign keys on [users(id)]: keys, sessions and OAuth tokens cascade, the
    redeemer of an invite is set to NULL, and an invite's [created_by] (no action)
    blocks the deletion. *)
Definition clear_redeemer (id : string) (i : InviteToken) : InviteToken :=
  mkInvite (iID i) (iTokenHash i) (iRole i) (iAccessLevel i) (iProfileID i) (iCreatedBy i)
    (iExpiresAt i) (iUsedAt i)
    (if bool_decide (iRedeemedUserID i = Some id) then None else iRedeemedUserID i) (iStatus i).

Definition delete_user (id : string) (s : State) : State :=
  mkState (profiles s) (delete id (users s))
    (filter (λ '(_, k), r_user_id k ≠ id) (api_keys s))
    (clear_redeemer id <$> invites s)
    (filter (λ '(_, x), x.1 ≠ id) (sessions s))
    (filter (λ '(_, t), tUserID t ≠ id) (oauth_tokens s))
    (filter (λ '(_, t), tUserID t ≠ id) (refresh_tokens s))
    (oauth_clients s).

Definition Delete (id : string) : DBM State unit :=
  exec (λ s,
    if bool_decide (is_Some (users s !! id)) &&
       existsb (λ '(_, i), iCreatedBy i =?s id) (map_to_list (invites s))
    then Err "FOREIGN KEY constraint failed"
    else Ok (tt, delete_user id s)).

Definition raise_admin (u : User) : User :=
  if (uRole u =?s "admin") && (uAccessLevel u !=? "admin") then set_level "admin" u else u.

Definition raise_admins (s : State) : State := with_users s (raise_admin <$> users s).

Definition EnsureAdmin (id : string) (salt now : Z) (password : string) : DBM State unit :=
  let! count := query (λ s, size (users s)) in
  if (0 <? count)%nat then
    attempt (update raise_admins) ;;; db_ret tt
  else
    Create id salt now "admin" password "admin" ;;; db_ret tt.

(** ** API keys *)

Definition hashAPIKey (key : string) : string := sha256_hex key.

(** [INSERT INTO api_keys]. *)
Definition insert_key (id : string) (row : KeyRow) : DBM State unit :=
  exec (λ s,
    if bool_decide (is_Some (api_keys s !! id))
    then Err "creating api key: UNIQUE constraint failed: api_keys.id"
    else if negb (bool_decide (is_Some (users s !! r_user_id row)) && profile_ref s (r_profile_id row))
    then Err "creating api key: FOREIGN KEY constraint failed"
    else Ok (tt, with_keys s (<[id := row]> (api_keys s)))).

(** [rawKey] and [id] are the two fresh uuids; the raw key is returned once. *)
Definition CreateAPIKey (rawKey id : string) (now : Z) (userID name : string)
    (profileID : option string) (capabilities : list string) : DBM State (string * APIKey) :=
  let keyHash := hashAPIKey rawKey in
  let caps := normalizeCapabilities capabilities in
  let ak := mkKey id userID keyHash name profileID "" now None false caps in
  insert_key id (mkKeyRow userID keyHash name profileID now None false (marshalCapabilities caps)) ;;;
  db_ret (rawKey, ak).

Definition CreateAPIKeyTx := CreateAPIKey.

Definition key_by_hash (h : string) (s : State) : option (string * KeyRow) :=
  List.find (λ '(_, k), r_key_hash k =?s h) (map_to_list (api_keys s)).

Definition touch (now : Z) (k : KeyRow) : KeyRow :=
  mkKeyRow (r_user_id k) (r_key_hash k) (r_name k) (r_profile_id k) (r_created_at k)
    (Some now) (r_revoked k) (r_capabilities k).

Definition touch_keys (now : Z) (h : string) (s : State) : State :=
  with_keys s ((λ k, if r_key_hash k =?s h then touch now k else k) <$> api_keys s).

(** The key's own profile, else the user's default. *)
Definition effective_profile (keyProfile userDefault : option string) : option string :=
  match keyProfile with Some p => Some p | None => userDefault end.

Definition with_profile (u : User) (p : option string) : User :=
  mkUser (uID u) (uUsername u) (uPasswordHash u) (uRole u) (uAccessLevel u) (uDefaultProfileID u)
    (uMustChangePassword u) (uCreatedAt u) p (uProfileName u).

(** A malformed capability column counts as no capabilities. *)
Definition column_caps (text : string) : list string :=
  match unmarshalCapabilities text with Ok caps => caps | Err _ => [] end.

Definition ValidateAPIKey (now : Z) (rawKey : string) : DBM State (option (User * APIKey)) :=
  let keyHash := hashAPIKey rawKey in
  let! row := query (key_by_hash keyHash) in
  match row with
  | None => db_ret None
  | Some (keyID, k) =>
      if negb (keyHash =?s r_key_hash k) then db_ret None
      else if r_revoked k then db_ret None
      else
        let! _ := attempt (update (touch_keys now keyHash)) in
        let! user := Get (r_user_id k) in
        match user with
        | None => db_ret None
        | Some u =>
            db_ret (Some
              (with_profile u (effective_profile (r_profile_id k) (uDefaultProfileID u)),
               mkKey keyID (r_user_id k) (r_key_hash k) (r_name k) (r_profile_id k) ""
                 (r_created_at k) (r_last_used k) (r_revoked k) (column_caps (r_capabilities k))))
        end
  end.

Definition key_view (s : State) (id : string) (k : KeyRow) : APIKey :=
  mkKey id (r_user_id k) "" (r_name k) (r_profile_id k) (profile_name s (r_profile_id k))
    (r_created_at k) (r_last_used k) (r_revoked k) (column_caps (r_capabilities k)).

Definition ListAPIKeys (userID : string) : DBM State (list APIKey) :=
  query (λ s, stable_sort (λ a b, kCreatedAt a <=? kCreatedAt b)%Z
    (omap (λ '(id, k), if r_user_id k =?s userID then Some (key_view s id k) else None)
       (map_to_list (api_keys s)))).

Definition revoke (k : KeyRow) : KeyRow :=
  mkKeyRow (r_user_id k) (r_key_hash k) (r_name k) (r_profile_id k) (r_created_at k)
    (r_last_used k) true (r_capabilities k).

Definition RevokeAPIKey (id : string) : DBM State unit :=
  update (λ s, with_keys s (alter revoke id (api_keys s))).

Definition username_of (s : State) (id : string) : string :=
  match users s !! id with Some u => uUsername u | None => "" end.

(** Newest first, at most [limit], a negative limit is no limit. *)
Definition sql_limit {A} (limit : Z) (l : list A) : list A :=
  if (limit <? 0)%Z then l else take (Z.to_nat limit) l.

Definition RecentUsers (limit since : Z) : DBM State (list (string * string * Z)) :=
  query (λ s, sql_limit limit (stable_sort (λ a b, b.2 <=? a.2)%Z
    (omap (λ '(id, u), if (since <=? uCreatedAt u)%Z then Some (id, uUsername u, uCreatedAt u) else None)
       (map_to_list (users s))))).

Definition RecentAPIKeys (limit since : Z) : DBM State (list (APIKey * string)) :=
  query (λ s, sql_limit limit (stable_sort (λ a b, kCreatedAt b.1 <=? kCreatedAt a.1)%Z
    (omap (λ '(id, k), if (since <=? r_created_at k)%Z
                       then Some (key_view s id k, username_of s (r_user_id k)) else None)
       (map_to_list (api_keys s))))).

Definition used_since (since : option Z) (k : KeyRow) : bool :=
  negb (r_revoked k) && match r_last_used k, since with
                        | None, _ => false
                        | Some _, None => true
                        | Some t, Some x => (x <=? t)%Z
                        end.

Definition count_keys (f : KeyRow → bool) (s : State) : Z :=
  Z.of_nat (length (List.filter (λ '(_, k), f k) (map_to_list (api_keys s)))).

Definition CountActiveAPIKeys (now window : Z) : DBM State (Z * Z) :=
  let! total := query (count_keys (used_since None)) in
  let! active := query (count_keys (used_since (Some (now - window)%Z))) in
  db_ret (total, active).

(** Most recently used first, never used last, then newest first. *)
Definition fleet_leb (a b : APIKey * string) : bool :=
  match kLastUsed a.1, kLastUsed b.1 with
  | None, None => (kCreatedAt b.1 <=? kCreatedAt a.1)%Z
  | None, Some _ => false
  | Some _, None => true
  | Some x, Some y => if (x =? y)%Z then (kCreatedAt b.1 <=? kCreatedAt a.1)%Z else (y <? x)%Z
  end.

Definition ListAllAPIKeys : DBM State (list (APIKey * string)) :=
  query (λ s, stable_sort fleet_leb
    (map (λ '(id, k), (key_view s id k, username_of s (r_user_id k))) (map_to_list (api_keys s)))).

(** ** Deleting a profile

    On the whole database, [ON DELETE SET NULL] clears every reference to the
    profile. *)
Definition clear_ref (id : string) (p : option string) : option string :=
  if bool_decide (p = Some id) then None else p.

Definition unset_key_profile (id : string) (k : KeyRow) : KeyRow :=
  mkKeyRow (r_user_id k) (r_key_hash k) (r_name k) (clear_ref id (r_profile_id k)) (r_created_at k)
    (r_last_used k) (r_revoked k) (r_capabilities k).

Definition unset_invite_profile (id : string) (i : InviteToken) : InviteToken :=
  mkInvite (iID i) (iTokenHash i) (iRole i) (iAccessLevel i) (clear_ref id (iProfileID i)) (iCreatedBy i)
    (iExpiresAt i) (iUsedAt i) (iRedeemedUserID i) (iStatus i).

Definition drop_profile_refs (id : string) (s : State) : State :=
  mkState (profiles s)
    ((λ u, set_default_profile (clear_ref id (uDefaultProfileID u)) u) <$> users s)
    (unset_key_profile id <$> api_keys s) (unset_invite_profile id <$> invites s)
    (sessions s) (oauth_tokens s) (refresh_tokens s) (oauth_clients s).

Definition delete_profile (id : string) (s : State) : State :=
  drop_profile_refs id (with_profiles s
    (Profiles.mkState (access (profiles s)) (delete id (agent_profiles (profiles s)))
       (filter (λ p, p.1.1.1 ≠ id) (permissions (profiles s))))).

(** [ProfileStore.Delete], one statement on the whole database. *)
Definition DeleteProfile (id : string) : DBM State unit := update (delete_profile id).

Definition APIKeyCount (profileID : string) : DBM State Z :=
  query (count_keys (λ k, bool_decide (r_profile_id k = Some profileID) && negb (r_revoked k))).

End UserStore.

(** ** Theorems about capabilities *)

Lemma normalize_loop_elem l seen out c :
  (∀ x, x ∈ seen ↔ x ∈ out) →
  c ∈ normalize_loop l seen out ↔ c ∈ out ∨ (c ≠ "" ∧ ∃ x, x ∈ l ∧ TrimSpace x = c).
Proof.
  revert seen out. induction l as [|x l IH]; intros seen out Hs; simpl.
  { split; [by left|]. intros [?|(_ & ? & ?%not_elem_of_nil & _)]; done. }
  destruct (TrimSpace x =?s "") eqn:E0; [|destruct (bool_decide _) eqn:E1]; bool_prop.
  - rewrite IH by done. setoid_rewrite elem_of_cons. naive_solver.
  - rewrite IH by done. setoid_rewrite elem_of_cons. rewrite Hs in E1. naive_solver.
  - rewrite IH by (intros y; rewrite elem_of_union, elem_of_singleton, elem_of_app, list_elem_of_singleton, Hs; tauto).
    rewrite elem_of_app, list_elem_of_singleton. setoid_rewrite elem_of_cons. naive_solver.
Qed.

Lemma normalize_loop_NoDup l seen out :
  (∀ x, x ∈ seen ↔ x ∈ out) → NoDup out → NoDup (normalize_loop l seen out).
Proof.
  revert seen out. induction l as [|x l IH]; intros seen out Hs Hn; simpl; [done|].
  destruct (TrimSpace x =?s "") eqn:E0; [|destruct (bool_decide _) eqn:E1]; bool_prop; auto.
  apply IH.
  - intros y. rewrite elem_of_union, elem_of_singleton, elem_of_app, list_elem_of_singleton, Hs. tauto.
  - apply NoDup_app. split_and!; [done| |apply NoDup_singleton].
    intros y Hy ->%list_elem_of_singleton. by apply E1, Hs.
Qed.

Lemma decode_string_list_map caps : decode_string_list (map JStr caps) = Some caps.
Proof. apply mapM_Some. induction caps; simpl; constructor; auto. Qed.

Lemma capabilities_text_roundtrip caps :
  unmarshalCapabilities (marshalCapabilities caps) = Ok caps.
Proof.
  unfold unmarshalCapabilities, marshalCapabilities.
  assert (Hw : Json.wf (JArr (map JStr caps)) = true).
  { simpl. apply forallb_forall. intros j Hj. apply in_map_iff in Hj as (x & <- & _). done. }
  rewrite (Unmarshal_Marshal _ Hw), decode_string_list_map.
  destruct (Marshal (JArr (map JStr caps)) =?s "") eqn:E; [|done]. bool_prop. by simpl in E.
Qed.

(** the capability list stored with a key is sorted,
    free of duplicates and blanks, holds exactly the trimmed non-blank entries of the
    request, and reads back from its JSON column as it was written. *)
Theorem capabilities_normal_form : ∀ l,
  let caps := normalizeCapabilities l in
  StronglySorted (leb_rel String.leb) caps ∧ NoDup caps ∧
  (∀ c, c ∈ caps ↔ c ≠ "" ∧ ∃ x, x ∈ l ∧ TrimSpace x = c) ∧
  column_caps (marshalCapabilities caps) = caps.
Proof.
  intros l caps. split_and!.
  - apply sort_strings_sorted.
  - unfold caps, normalizeCapabilities, sort_strings. rewrite stable_sort_perm.
    apply normalize_loop_NoDup; [set_solver|constructor].
  - intros c. unfold caps, normalizeCapabilities, sort_strings.
    rewrite elem_of_stable_sort, normalize_loop_elem by set_solver. set_solver.
  - unfold column_caps. by rewrite capabilities_text_roundtrip.
Qed.

Lemma caps_grant_iff caps cap :
  caps_grant caps cap = true ↔ ∃ c, c ∈ caps ∧ (c = cap ∨ cap ∈ legacyCapabilityGrants c).
Proof.
  induction caps as [|c caps IH]; simpl.
  { split; [done|]. by intros (c & ?%not_elem_of_nil & _). }
  assert (Hl : existsb (λ g, g =?s cap) (legacyCapabilityGrants c) = true ↔ cap ∈ legacyCapabilityGrants c).
  { rewrite existsb_exists. setoid_rewrite <- list_elem_of_In. setoid_rewrite String.eqb_eq. naive_solver. }
  setoid_rewrite elem_of_cons. destruct (c =?s cap) eqn:E; bool_prop; [naive_solver|].
  destruct (existsb _ _); [destruct Hl as [Hl _]; naive_solver|]. rewrite IH. naive_solver.
Qed.

(** a request passes a capability gate exactly when the user is an
    admin or the key lists the capability or its legacy alias; a legacy write key
    publishes but never passes the admin gates, whoever else's key it is. *)
Theorem capability_gate : ∀ user key cap,
  (hasCapability user key cap = true ↔
   (∃ u, user = Some u ∧ uRole u = "admin") ∨
   (∃ k, key = Some k ∧ (cap ∈ kCapabilities k ∨
      (cap = "skills:publish" ∧ "skills:write" ∈ kCapabilities k) ∨
      (cap = "recipes:publish" ∧ "recipes:write" ∈ kCapabilities k)))) ∧
  (∀ k u, uRole u ≠ "admin" → kCapabilities k = ["skills:write"] →
     hasCapability (Some u) (Some k) "skills:publish" = true ∧
     hasCapability (Some u) (Some k) "skills:admin" = false ∧
     hasCapability (Some u) (Some k) "skills:yank" = false).
Proof.
  intros user key cap. split.
  - assert (Hk : HasCapability key cap = true ↔
      ∃ k, key = Some k ∧ (cap ∈ kCapabilities k ∨
        (cap = "skills:publish" ∧ "skills:write" ∈ kCapabilities k) ∨
        (cap = "recipes:publish" ∧ "recipes:write" ∈ kCapabilities k))).
    { destruct key as [k|]; simpl; [|naive_solver]. rewrite caps_grant_iff. unfold legacyCapabilityGrants.
      split.
      - intros (c & Hc & [->|Hg]); [eauto|]. exists k. split; [done|]. right.
        destruct (c =?s "skills:write") eqn:E1; [|destruct (c =?s "recipes:write") eqn:E2];
          bool_prop; subst; set_solver.
      - intros (? & [= <-] & [Hc|[[-> Hc]|[-> Hc]]]); eexists; (split; [exact Hc|]);
          [by left|right; set_solver..]. }
    unfold hasCapability. destruct user as [u|]; [|rewrite Hk; naive_solver].
    destruct (uRole u =?s "admin") eqn:E; bool_prop; [naive_solver|]. rewrite Hk. naive_solver.
  - intros k u Hr Hk. unfold hasCapability. apply String.eqb_neq in Hr. rewrite Hr. simpl. by rewrite Hk.
Qed.

Lemma capability_gate_witness :
  let u := mkUser "u" "bob" "" "user" "read" None false 0 None "" in
  let k := mkKey "k" "u" "" "ci" None "" 0 None false ["skills:write"] in
  hasCapability (Some u) (Some k) "skills:admin" = false.
Proof. apply (capability_gate None None ""); [by intros [=]|reflexivity]. Defined.

(** ** Theorems about keys *)
Section KeyTheorems.
Context `{HL : HashingLaws}.

(** No usable key has the hash. *)
Definition dead_key (h : string) (s : State) : Prop :=
  map_Forall (λ _ k, r_key_hash k = h → r_revoked k = true) (api_keys s).

Lemma dead_key_never_validates now raw d r :
  dead_key (hashAPIKey raw) (tables d) → outcome (ValidateAPIKey now raw) d = Ok r → r = None.
Proof.
  unfold outcome, ValidateAPIKey. intros Hd. unfold db_bind at 1.
  destruct (query (key_by_hash (hashAPIKey raw)) d) as [[row|] d1] eqn:E; [|done].
  apply query_ok in E as [-> _].
  unfold key_by_hash. destruct (List.find _ _) as [[i k]|] eqn:Ef; [|by intros [= <-]].
  apply find_map_Some in Ef as [Hk Hh]. bool_prop. rewrite Hh, String.eqb_refl. simpl.
  rewrite (Hd _ _ Hk Hh). by intros [= <-].
Qed.

(** The hash is not in use. *)
Definition fresh_hash (h : string) (s : State) : Prop :=
  map_Forall (λ _ k, r_key_hash k ≠ h) (api_keys s).

Lemma key_by_hash_insert raw id row s :
  fresh_hash (hashAPIKey raw) s → r_key_hash row = hashAPIKey raw →
  key_by_hash (hashAPIKey raw) (with_keys s (<[id := row]> (api_keys s))) = Some (id, row).
Proof.
  intros Hf Hr. apply find_map_unique; cbn.
  - apply lookup_insert_eq.
  - by rewrite Hr, String.eqb_refl.
  - intros j y Hy Hh. bool_prop. destruct (decide (j = id)) as [|Hne]; [done|].
    rewrite lookup_insert_ne in Hy by done. by destruct (Hf _ _ Hy).
Qed.

Lemma ValidateAPIKey_healthy now raw s :
  ValidateAPIKey now raw (healthy s) =
  match key_by_hash (hashAPIKey raw) s with
  | None => (Ok None, healthy s)
  | Some (id, k) =>
      if r_revoked k then (Ok None, healthy s) else
      (Ok (match users s !! r_user_id k with
           | None => None
           | Some u => Some (with_profile u (effective_profile (r_profile_id k) (uDefaultProfileID u)),
                mkKey id (r_user_id k) (r_key_hash k) (r_name k) (r_profile_id k) ""
                 (r_created_at k) (r_last_used k) (r_revoked k) (column_caps (r_capabilities k)))
           end), healthy (touch_keys now (hashAPIKey raw) s))
  end.
Proof.
  unfold ValidateAPIKey, db_bind, query. rewrite exec_healthy.
  destruct (key_by_hash (hashAPIKey raw) s) as [[id k]|] eqn:E; [|done].
  apply find_map_Some in E as [_ E]. bool_prop. rewrite E, String.eqb_refl. cbn.
  destruct (r_revoked k); [done|]. unfold attempt, update, Get, query, db_ret. rewrite exec_healthy, exec_healthy. cbn.
  by destruct (users s !! r_user_id k).
Qed.

Lemma touch_dead now h h' s : dead_key h s → dead_key h (touch_keys now h' s).
Proof.
  intros Hd i k. unfold touch_keys. cbn. rewrite lookup_fmap_Some. intros (k' & <- & Hk) Hh.
  case_if; exact (Hd _ _ Hk Hh).
Qed.

(** a key created for a user authenticates that user, with the
    capabilities it was issued with and the key's own profile before the user's
    default, and no longer authenticates anybody once it is revoked. *)
Theorem api_key_lifecycle : ∀ raw id now now' uid name prof caps (s : State) u,
  fresh_hash (hashAPIKey raw) s → api_keys s !! id = None →
  users s !! uid = Some u → profile_ref s prof = true →
  let s1 := final (CreateAPIKey raw id now uid name prof caps) (healthy s) in
  let s2 := final (RevokeAPIKey id) (healthy s1) in
  (∃ k, outcome (CreateAPIKey raw id now uid name prof caps) (healthy s) = Ok (raw, k)) ∧
  (∃ k, outcome (ValidateAPIKey now' raw) (healthy s1) =
          Ok (Some (with_profile u (effective_profile prof (uDefaultProfileID u)), k)) ∧
        kID k = id ∧ kCapabilities k = normalizeCapabilities caps) ∧
  outcome (ValidateAPIKey now' raw) (healthy s2) = Ok None.
Proof.
  intros raw id now now' uid name prof caps s u Hf Hid Hu Hp s1 s2.
  set (row := mkKeyRow uid (hashAPIKey raw) name prof now None false
                (marshalCapabilities (normalizeCapabilities caps))).
  assert (E1 : CreateAPIKey raw id now uid name prof caps (healthy s) =
    (Ok (raw, mkKey id uid (hashAPIKey raw) name prof "" now None false (normalizeCapabilities caps)),
     healthy (with_keys s (<[id := row]> (api_keys s))))).
  { unfold CreateAPIKey, db_bind, insert_key. rewrite exec_healthy, Hid. cbn. by rewrite Hu, Hp. }
  assert (Es1 : s1 = with_keys s (<[id := row]> (api_keys s))) by (unfold s1, final; by rewrite E1).
  split_and!.
  - eexists. unfold outcome. by rewrite E1.
  - rewrite Es1. unfold outcome. rewrite ValidateAPIKey_healthy, key_by_hash_insert by done. cbn -[marshalCapabilities].
    rewrite Hu. eexists. split; [done|]. split; [done|]. cbn -[marshalCapabilities].
    unfold column_caps. by rewrite capabilities_text_roundtrip.
  - unfold outcome, s2, final, RevokeAPIKey, update.
    rewrite ValidateAPIKey_healthy, exec_healthy, Es1. cbn. rewrite alter_insert_eq.
    replace (with_keys _ _) with (with_keys s (<[id := revoke row]> (api_keys s))) by done.
    by rewrite key_by_hash_insert.
Qed.

(** demoting an admin to the user role never lowers the
    access level, whatever statements fail: a former admin keeps the admin level that
    [requireAdminAccess] and the tier check look at. *)
Theorem demotion_keeps_access_level : ∀ id (d : Db State) u,
  users (tables d) !! id = Some u →
  ∃ u', users (final (UpdateRole id "user") d) !! id = Some u' ∧ uAccessLevel u' = uAccessLevel u ∧
        (is_ok (outcome (UpdateRole id "user") d) = true → uRole u' = "user").
Proof.
  intros id d u Hu. unfold final, outcome, UpdateRole, db_bind, attempt, exec, db_ret, db_fail. cbn.
  destruct (next_fault (faults d)) as [[] fs]; cbn; [by exists u|].
  exists (set_role "user" u). by rewrite lookup_alter_eq, Hu.
Qed.

(** deleting the profile of a key does not disable the
    key: it authenticates with the user's default profile, or with none, that is with
    the tier check of the user's level. *)
Theorem profile_deletion_widens_key : ∀ now raw id k p u (s : State),
  (∀ j k', api_keys s !! j = Some k' → r_key_hash k' = hashAPIKey raw → j = id) →
  api_keys s !! id = Some k → r_key_hash k = hashAPIKey raw → r_revoked k = false →
  r_profile_id k = Some p → users s !! r_user_id k = Some u →
  let after d := result_map (option_map (uProfileID ∘ fst)) (outcome (ValidateAPIKey now raw) d) in
  after (healthy s) = Ok (Some (Some p)) ∧
  after (healthy (final (DeleteProfile p) (healthy s))) =
    Ok (Some (clear_ref p (uDefaultProfileID u))).
Proof.
  intros now raw id k p u s Huniq Hk Hh Hr Hp Hu after.
  split; unfold after, outcome; rewrite ValidateAPIKey_healthy; unfold key_by_hash.
  - erewrite find_map_unique; [|exact Hk|by rewrite Hh, String.eqb_refl|].
    2: { intros j y Hy Hb. bool_prop. eauto. }
    rewrite Hr, Hu. cbn. by rewrite Hp.
  - unfold final, DeleteProfile, update. rewrite exec_healthy.
    erewrite (find_map_unique _ _ id (unset_key_profile p k)); cbn.
    2: { by rewrite lookup_fmap, Hk. }
    2: { by rewrite Hh, String.eqb_refl. }
    2: { intros j y Hy Hb. bool_prop. rewrite lookup_fmap in Hy.
         destruct (api_keys s !! j) as [y'|] eqn:Ey; [|done]. simplify_eq/=. eauto. }
    rewrite Hr. cbn. rewrite lookup_fmap, Hu. cbn.
    unfold clear_ref at 1. rewrite Hp, bool_decide_true by done. done.
Qed.
End KeyTheorems.

(** The state of the witnesses: one profile, one admin, one user with a key. *)
Definition demo : State :=
  mkState (Profiles.mkState (Access.mkState {["srv"]} {[("srv", "tool", "get_x") := Access.mkTier "read" true]})
             {["p" := mkProfile "agents" "" 0 0]} {[("p", "srv", "tool", "get_x")]})
    {["a" := mkUser "a" "root" "bc:secret!!" "admin" "admin" None false 0 None "";
      "u" := mkUser "u" "bob" "bc:hunter22" "user" "write" None false 1 None ""]}
    {["k" := mkKeyRow "u" "sha:raw" "ci" (Some "p") 0 None false "[]"]}
    {["i" := mkInvite "i" "sha:tok" "user" "read" (Some "p") "a" 100 None None "pending"]}
    ∅ ∅ {["sha:ref" := mkToken "u" "c" "mcp" "" 100]} ∅.

Lemma api_key_lifecycle_witness :
  outcome (ValidateAPIKey 5 "new") (healthy (final (RevokeAPIKey "k2")
    (healthy (final (CreateAPIKey "new" "k2" 3 "u" "laptop" None [" skills:publish "]) (healthy demo))))) = Ok None.
Proof.
  apply (api_key_lifecycle "new" "k2" 3 5 "u" "laptop" None [" skills:publish "] demo
    (mkUser "u" "bob" "bc:hunter22" "user" "write" None false 1 None "")); [|reflexivity..].
  apply map_Forall_singleton. discriminate.
Defined.

Lemma demotion_keeps_access_level_witness :
  ∃ u', users (final (UpdateRole "a" "user") (healthy demo)) !! "a" = Some u' ∧ uAccessLevel u' = "admin".
Proof.
  destruct (demotion_keeps_access_level "a" (healthy demo) _ eq_refl) as (u' & H1 & H2 & _). eauto.
Defined.

Lemma profile_deletion_widens_key_witness :
  result_map (option_map (uProfileID ∘ fst))
    (outcome (ValidateAPIKey 5 "raw") (healthy (final (DeleteProfile "p") (healthy demo)))) = Ok (Some None).
Proof.
  apply (profile_deletion_widens_key 5 "raw" "k" (mkKeyRow "u" "sha:raw" "ci" (Some "p") 0 None false "[]") "p"
    (mkUser "u" "bob" "bc:hunter22" "user" "write" None false 1 None "") demo); try reflexivity.
  intros j k' Hk _. unfold demo in Hk. cbn [api_keys] in Hk. apply lookup_singleton_Some in Hk. by destruct Hk.
Defined.
