(* ===== verification/Sessions.v ===== *)
(** * Invites, sessions and OAuth tokens

    [src/internal/store/invites.go], [sessions.go], [oauth_tokens.go] and
    [oauth_clients.go], on the identity tables of [Users]. *)
From S2P Require Import Prelude GoStrings Json AccessTiers Profiles Users.

(** ** Invites *)
Module Invites.
Section Invites.
Context `{Hashing}.

Definition hashInviteToken (token : string) : string := sha256_hex token.

(** [INSERT INTO invite_tokens]. *)
Definition insert_invite (t : InviteToken) : DBM State unit :=
  exec (λ s,
    if negb (valid_role (iRole t) && Access.valid_tier (iAccessLevel t))
    then Err "creating account invite token: CHECK constraint failed: invite_tokens"
    else if bool_decide (is_Some (invites s !! iID t))
         || existsb (λ '(_, i), iTokenHash i =?s iTokenHash t) (map_to_list (invites s))
    then Err "creating account invite token: UNIQUE constraint failed: invite_tokens"
    else if negb (bool_decide (is_Some (users s !! iCreatedBy t)) && profile_ref s (iProfileID t))
    then Err "creating account invite token: FOREIGN KEY constraint failed"
    else Ok (tt, with_invites s (<[iID t := t]> (invites s)))).

(** [rawToken] and [id] are fresh uuids. *)
Definition CreateAccountInvite (rawToken id role accessLevel : string) (profileID : option string)
    (createdBy : string) (expiresAt : Z) : DBM State (string * InviteToken) :=
  let t := mkInvite id (hashInviteToken rawToken) role (forced_level role accessLevel) profileID
             createdBy expiresAt None None "pending" in
  insert_invite t ;;; db_ret (rawToken, t).

(** [status = 'pending' AND expires_at > ?]. *)
Definition usable (now : Z) (h : string) (i : InviteToken) : bool :=
  (iTokenHash i =?s h) && (iStatus i =?s "pending") && (now <? iExpiresAt i)%Z.

(** Nothing is consumed; a missing row is [None]. *)
Definition Peek (now : Z) (rawToken : string) : DBM State (option InviteToken) :=
  let h := hashInviteToken rawToken in
  let! row := query (λ s, List.find (λ '(_, i), usable now h i) (map_to_list (invites s))) in
  match row with
  | None => db_ret None
  | Some (_, t) => if negb (h =?s iTokenHash t) then db_ret None else db_ret (Some t)
  end.

Definition mark_used (now : Z) (t : InviteToken) : InviteToken :=
  mkInvite (iID t) (iTokenHash t) (iRole t) (iAccessLevel t) (iProfileID t) (iCreatedBy t)
    (iExpiresAt t) (Some now) (iRedeemedUserID t) "used".

(** The UPDATE and its number of affected rows. *)
Definition consume (now : Z) (h : string) (s : State) : nat * State :=
  (length (List.filter (λ '(_, i), usable now h i) (map_to_list (invites s))),
   with_invites s ((λ i, if usable now h i then mark_used now i else i) <$> invites s)).

Definition ValidateAndConsumeTx (now : Z) (rawToken : string) : DBM State (option InviteToken) :=
  let h := hashInviteToken rawToken in
  let! affected := exec (λ s, Ok (consume now h s)) in
  if (affected =? 0)%nat then db_ret None
  else
    let! t := exec (λ s,
      match List.find (λ '(_, i), iTokenHash i =?s h) (map_to_list (invites s)) with
      | Some (_, t) => Ok (t, s)
      | None => Err "reading consumed invite token: sql: no rows in result set"
      end) in
    if negb (h =?s iTokenHash t) then db_ret None else db_ret (Some t).

Definition set_redeemer (uid : string) (t : InviteToken) : InviteToken :=
  mkInvite (iID t) (iTokenHash t) (iRole t) (iAccessLevel t) (iProfileID t) (iCreatedBy t)
    (iExpiresAt t) (iUsedAt t) (Some uid) (iStatus t).

Definition SetRedeemedUserTx (tokenID userID : string) : DBM State unit :=
  exec (λ s,
    if bool_decide (is_Some (invites s !! tokenID)) && negb (bool_decide (is_Some (users s !! userID)))
    then Err "FOREIGN KEY constraint failed"
    else Ok (tt, with_invites s (alter (set_redeemer userID) tokenID (invites s)))).

(** A listed invite with the names joined in. *)
Definition invite_view (s : State) (i : InviteToken) : InviteToken * string * string :=
  (i, username_of s (iCreatedBy i),
   match iRedeemedUserID i with Some u => username_of s u | None => "" end).

Definition ListAll : DBM State (list (InviteToken * string * string)) :=
  query (λ s, map (invite_view s) (stable_sort (λ a b, iExpiresAt b <=? iExpiresAt a)%Z
    (map snd (map_to_list (invites s))))).

Definition ListPending (now : Z) : DBM State (list (InviteToken * string * string)) :=
  query (λ s, map (invite_view s) (stable_sort (λ a b, iExpiresAt b <=? iExpiresAt a)%Z
    (List.filter (λ i, (iStatus i =?s "pending") && (now <? iExpiresAt i)%Z)
       (map snd (map_to_list (invites s)))))).

Definition DeleteInvite (id : string) : DBM State unit :=
  update (λ s, with_invites s (delete id (invites s))).

Definition expire (now : Z) (t : InviteToken) : InviteToken :=
  if (iStatus t =?s "pending") && (iExpiresAt t <? now)%Z
  then mkInvite (iID t) (iTokenHash t) (iRole t) (iAccessLevel t) (iProfileID t) (iCreatedBy t)
         (iExpiresAt t) (iUsedAt t) (iRedeemedUserID t) "expired"
  else t.

Definition CleanupExpired (now : Z) : DBM State unit :=
  update (λ s, with_invites s (expire now <$> invites s)).
End Invites.
End Invites.

(** ** Web sessions *)
Module WebSessions.
Definition Create (id userID : string) (expiresAt : Z) : DBM State unit :=
  exec (λ s,
    if bool_decide (is_Some (sessions s !! id)) then Err "UNIQUE constraint failed: sessions.id"
    else if negb (bool_decide (is_Some (users s !! userID))) then Err "FOREIGN KEY constraint failed"
    else Ok (tt, with_sessions s (<[id := (userID, expiresAt)]> (sessions s)))).

(** The columns the join reads; the effective profile is the user's default. *)
Definition session_user (u : User) : User :=
  mkUser (uID u) (uUsername u) "" (uRole u) (uAccessLevel u) (uDefaultProfileID u)
    (uMustChangePassword u) 0 (uDefaultProfileID u) "".

Definition live_session (now : Z) (id : string) (s : State) : option (User * Z) :=
  match sessions s !! id with
  | Some (uid, exp) =>
      if (now <? exp)%Z then
        match users s !! uid with Some u => Some (session_user u, exp) | None => None end
      else None
  | None => None
  end.

(** Any error is "no session". *)
Definition Get (now : Z) (id : string) : DBM State (option (User * Z)) :=
  let! r := attempt (query (live_session now id)) in
  match r with Ok x => db_ret x | Err _ => db_ret None end.

(** The three deletions drop their error. *)
Definition Delete (id : string) : DBM State unit :=
  attempt (update (λ s, with_sessions s (delete id (sessions s)))) ;;; db_ret tt.

Definition DeleteByUser (userID : string) : DBM State unit :=
  attempt (update (λ s, with_sessions s (filter (λ '(_, x), x.1 ≠ userID) (sessions s)))) ;;; db_ret tt.

Definition Cleanup (now : Z) : DBM State unit :=
  attempt (update (λ s, with_sessions s (filter (λ '(_, x), (now <= x.2)%Z) (sessions s)))) ;;; db_ret tt.
End WebSessions.

(** ** OAuth access tokens, clients and refresh tokens *)
Module OAuth.
Section OAuth.
Context `{Hashing}.

Definition insert_token (h : string) (t : OAuthToken) (m : gmap string OAuthToken) (s : State) :
    option (gmap string OAuthToken) :=
  if bool_decide (is_Some (m !! h)) || negb (bool_decide (is_Some (users s !! tUserID t)))
  then None else Some (<[h := t]> m).

Definition CreateToken (tokenHash userID clientID scope resource : string) (expiresAt : Z) : DBM State unit :=
  exec (λ s, match insert_token tokenHash (mkToken userID clientID scope resource expiresAt) (oauth_tokens s) s with
             | Some m => Ok (tt, with_tokens s m)
             | None => Err "creating oauth token: constraint failed"
             end).

(** The fields of the user the token lookup reads. *)
Definition token_user (u : User) : User :=
  mkUser (uID u) (uUsername u) "" (uRole u) (uAccessLevel u) (uDefaultProfileID u)
    false 0 (uDefaultProfileID u) "".

(** An expired token is [None]; so is an error of the second query. *)
Definition Validate (now : Z) (rawToken : string) : DBM State (option User) :=
  let h := hashAPIKey rawToken in
  let! row := query (λ s, oauth_tokens s !! h) in
  match row with
  | None => db_ret None
  | Some t =>
      if (tExpiresAt t <? now)%Z then db_ret None
      else
        let! u := attempt (query (λ s, users s !! tUserID t)) in
        match u with
        | Ok (Some u) => db_ret (Some (token_user u))
        | _ => db_ret None
        end
  end.

Definition CleanupTokens (now : Z) : DBM State unit :=
  attempt (update (λ s, with_tokens s (filter (λ '(_, t), (now <= tExpiresAt t)%Z) (oauth_tokens s)))) ;;; db_ret tt.

(** *** Clients *)
Record OAuthClient := mkClient {
  ClientID : string; ClientSecretHash : string; ClientName : string; RedirectURIs : list string;
  TokenEndpointAuthMethod : string }.

Definition HasRedirectURI (c : OAuthClient) (uri : string) : bool :=
  existsb (λ registered, registered =?s uri) (RedirectURIs c).

Definition CreateClient (clientID secretHash clientName authMethod : string) (redirectURIs : list string) :
    DBM State unit :=
  exec (λ s,
    if bool_decide (is_Some (oauth_clients s !! clientID)) then Err "creating oauth client: UNIQUE constraint failed"
    else Ok (tt, with_clients s (<[clientID := mkClientRow secretHash clientName
                    (Marshal (JArr (map JStr redirectURIs))) authMethod]> (oauth_clients s)))).

(** [json.Unmarshal] into a [[]string] with its error ignored: elements of another
    type are left empty, anything but an array leaves no element. *)
Definition lenient_strings (text : string) : list string :=
  match Unmarshal text with
  | Some (JArr l) => map (λ j, match j with JStr s => s | _ => "" end) l
  | _ => []
  end.

(** Any error is "no client". *)
Definition GetClient (clientID : string) : DBM State (option OAuthClient) :=
  let! r := attempt (query (λ s, oauth_clients s !! clientID)) in
  match r with
  | Ok (Some c) =>
      db_ret (Some (mkClient clientID (cSecretHash c) (cName c)
        (lenient_strings (cRedirectURIs c)) (cAuthMethod c)))
  | _ => db_ret None
  end.

Definition ValidateSecret (clientID secret : string) : DBM State bool :=
  let! c := GetClient clientID in
  match c with
  | None => db_ret false
  | Some c => if ClientSecretHash c =?s "" then db_ret true
              else db_ret (sha256_hex secret =?s ClientSecretHash c)
  end.

(** *** Refresh tokens *)
Definition CreateRefresh (tokenHash userID clientID scope resource : string) (expiresAt : Z) : DBM State unit :=
  exec (λ s, match insert_token tokenHash (mkToken userID clientID scope resource expiresAt) (refresh_tokens s) s with
             | Some m => Ok (tt, with_refresh s m)
             | None => Err "creating refresh token: constraint failed"
             end).

(** The SELECT and the DELETE of [Consume] are two statements outside a
    transaction. *)
Definition lookup_refresh (rawToken : string) : DBM State (option OAuthToken) :=
  query (λ s, refresh_tokens s !! hashAPIKey rawToken).

Definition delete_refresh (rawToken : string) : DBM State unit :=
  update (λ s, with_refresh s (delete (hashAPIKey rawToken) (refresh_tokens s))).

Definition Consume (now : Z) (rawToken : string) : DBM State (option OAuthToken) :=
  let! r := attempt (lookup_refresh rawToken) in
  match r with
  | Ok (Some t) =>
      if (tExpiresAt t <? now)%Z
      then attempt (delete_refresh rawToken) ;;; db_ret None
      else attempt (delete_refresh rawToken) ;;; db_ret (Some t)
  | _ => db_ret None
  end.

Definition CleanupRefresh (now : Z) : DBM State unit :=
  attempt (update (λ s, with_refresh s (filter (λ '(_, t), (now <= tExpiresAt t)%Z) (refresh_tokens s)))) ;;; db_ret tt.
End OAuth.
End OAuth.
