(* ===== verification/WebAuth.v ===== *)
(** * Authentication and account handlers

    The HTTP layer above the identity stores: the per-IP limiter, CSRF, [requireAuth],
    login, invite redemption, password and user management of
    [src/internal/web/handlers.go], and the bearer-token middlewares of
    [src/internal/server/middleware.go].

    A handler is a function of the [World] (database, limiters, one-time flashes); a
    middleware takes the next handler as an argument.  The request is what [net/http]
    parsed; templates are represented by their name and message. *)
From S2P Require Import Prelude GoStrings Json AccessTiers Profiles Users Sessions.

(** ** Per-IP sliding-window limiter *)
Module IPRateLimiter.
Record Limiter := mkLimiter { attempts : gmap string (list Z); window : Z; max : nat }.

Definition newIPRateLimiter (window : Z) (max : nat) : Limiter := mkLimiter ∅ window max.

Definition recent (now : Z) (rl : Limiter) (l : list Z) : list Z :=
  filter (λ t, now - window rl < t)%Z l.

Definition allow (now : Z) (ip : string) (rl : Limiter) : bool * Limiter :=
  let filtered := recent now rl (default [] (attempts rl !! ip)) in
  ((length filtered <? max rl)%nat, mkLimiter (<[ip := filtered]> (attempts rl)) (window rl) (max rl)).

Definition record (now : Z) (ip : string) (rl : Limiter) : Limiter :=
  mkLimiter (<[ip := default [] (attempts rl !! ip) ++ [now]]> (attempts rl)) (window rl) (max rl).

(** One tick of the cleanup goroutine. *)
Definition cleanup (now : Z) (rl : Limiter) : Limiter :=
  mkLimiter (omap (λ l, let f := recent now rl l in
                        if (length f =? 0)%nat then None else Some f) (attempts rl))
    (window rl) (max rl).
End IPRateLimiter.
Import IPRateLimiter (Limiter, newIPRateLimiter).

Definition newLoginRateLimiter : Limiter := newIPRateLimiter (15 * minute) 5.

(** ** Requests, replies and handlers *)
Record Request := mkRequest {
  Method : string; Path : string; Authorization : string; Accept : string;
  XForwardedFor : string; XCSRFToken : string; RemoteAddr : string;
  SessionCookie : option string; Form : gmap string string; FormCapabilities : list string;
  Body : string }.

Definition FormValue (r : Request) (k : string) : string := default "" (Form r !! k).

Inductive Reply :=
| RRedirect (location : string) (cookie : option string)
| RStatus (code : Z) (body : string)
| RPage (template message : string).

Record World := mkWorld {
  db : Db State; loginLimiter : Limiter; inviteLimiter : Limiter; flashKeys : gmap string string }.

Definition with_db (w : World) (d : Db State) : World :=
  mkWorld d (loginLimiter w) (inviteLimiter w) (flashKeys w).

Definition Handler : Type := World → Reply * World.

Definition reply (r : Reply) : Handler := λ w, (r, w).

(** A store call whose error is handled on the spot. *)
Definition call {A} (m : DBM State A) (onerr : string → Handler) (k : A → Handler) : Handler :=
  λ w, match m (db w) with
       | (Ok a, d) => k a (with_db w d)
       | (Err e, d) => onerr e (with_db w d)
       end.

(** A store call whose error is dropped. *)
Definition ignore {A} (m : DBM State A) (k : Handler) : Handler := call m (λ _, k) (λ _, k).

(** ** The client's address *)

(** The part before the first comma. *)
Definition before_comma (s : string) : string :=
  match Split s ","%char with x :: _ => x | [] => s end.

Definition last_colon (s : string) : option nat :=
  let fix go (i : nat) (s : string) : option nat :=
    match s with
    | EmptyString => None
    | String c r => match go (S i) r with
                    | Some j => Some j
                    | None => if Ascii.eqb c ":"%char then Some i else None
                    end
    end in go 0%nat s.

(** [net.SplitHostPort], the host part. *)
Definition SplitHost (hostport : string) : option string :=
  match last_colon hostport with
  | None => None
  | Some i =>
      if HasPrefix hostport "[" then
        match Index hostport "]" with
        | None => None
        | Some e =>
            if negb (S e =? i)%nat then None
            else let host := take_str (e - 1) (drop_str 1 hostport) in
                 if Contains (drop_str 1 hostport) "[" || Contains (drop_str (S e) hostport) "]"
                 then None else Some host
        end
      else
        let host := take_str i hostport in
        if Contains host ":" || Contains hostport "[" || Contains hostport "]" then None else Some host
  end.

Definition clientIP (r : Request) : string :=
  if XForwardedFor r !=? "" then before_comma (XForwardedFor r)
  else match SplitHost (RemoteAddr r) with Some host => host | None => RemoteAddr r end.

(** ** Bearer-token middlewares *)
Section Auth.
Context `{Hashing}.
(** HMAC-SHA-256 of a session id under the server's secret, in hex. *)
Variable csrf_mac : string → string.

Definition BearerHandler : Type := option User → option APIKey → Handler.

Definition APIKeyAuth (now : Z) (next : BearerHandler) (r : Request) : Handler :=
  let auth := Authorization r in
  if auth =?s "" then reply (RStatus 401 "missing Authorization header")
  else if negb (HasPrefix auth "Bearer ") then
    reply (RStatus 401 "invalid Authorization header, expected Bearer token")
  else
    call (ValidateAPIKey now (TrimPrefix auth "Bearer "))
      (λ _, reply (RStatus 500 "internal error"))
      (λ res, match res with
              | None => reply (RStatus 401 "invalid or revoked API key")
              | Some (user, apiKey) => next (Some user) (Some apiKey)
              end).

(** API keys first, then OAuth tokens; an OAuth user carries no key. *)
Definition MCPAuth (now : Z) (next : BearerHandler) (r : Request) : Handler :=
  let auth := Authorization r in
  if auth =?s "" then reply (RStatus 401 "missing Authorization header")
  else if negb (HasPrefix auth "Bearer ") then
    reply (RStatus 401 "invalid Authorization header, expected Bearer token")
  else
    let token := TrimPrefix auth "Bearer " in
    call (ValidateAPIKey now token)
      (λ _, reply (RStatus 500 "internal error"))
      (λ res, match res with
              | Some (user, apiKey) => next (Some user) (Some apiKey)
              | None =>
                  call (OAuth.Validate now token)
                    (λ _, reply (RStatus 500 "internal error"))
                    (λ u, match u with
                          | None => reply (RStatus 401 "invalid or revoked token")
                          | Some user => next (Some user) None
                          end)
              end).

Definition AdminOnly (next : BearerHandler) : BearerHandler := λ user key,
  match user with
  | Some u => if uRole u =?s "admin" then next user key else reply (RStatus 403 "admin access required")
  | None => reply (RStatus 403 "admin access required")
  end.

(** The two level gates: [None] lets the request pass. *)
Definition requireWriteAccess (user : option User) : option Reply :=
  match user with
  | None => Some (RStatus 401 "authentication required")
  | Some u => if (uAccessLevel u !=? "write") && (uAccessLevel u !=? "admin")
              then Some (RStatus 403 "write access required") else None
  end.

Definition requireAdminAccess (user : option User) : option Reply :=
  match user with
  | None => Some (RStatus 401 "authentication required")
  | Some u => if uAccessLevel u !=? "admin" then Some (RStatus 403 "admin access required") else None
  end.

(** ** Session authentication *)

Definition csrfToken (sessionID : string) : string := csrf_mac sessionID.

Definition validateCSRF (r : Request) (sessionID : string) : bool :=
  let token := FormValue r "csrf_token" in
  let token := if token =?s "" then XCSRFToken r else token in
  if token =?s "" then false else token =?s csrfToken sessionID.

Definition state_changing (method : string) : bool :=
  (method =?s "POST") || (method =?s "PUT") || (method =?s "DELETE").

Definition requireAuth (now : Z) (next : User → string → Handler) (r : Request) : Handler :=
  match SessionCookie r with
  | None =>
      if negb (Contains (Accept r) "text/html") && (Path r =?s "/")
      then reply (RStatus 401 "authentication required")
      else reply (RRedirect "/login" None)
  | Some cookie =>
      call (WebSessions.Get now cookie) (λ _, reply (RRedirect "/login" None))
        (λ res, match res with
          | None => reply (RRedirect "/login" None)
          | Some (user, _) =>
              if uMustChangePassword user && (Path r !=? "/account/password") && (Path r !=? "/logout")
              then reply (RRedirect "/account/password" None)
              else if state_changing (Method r) && negb (validateCSRF r cookie)
              then reply (if HasPrefix (Path r) "/api/" then RStatus 403 "csrf_invalid"
                          else RStatus 403 "Invalid or missing CSRF token")
              else next user cookie
          end)
  end.

Definition sessionTTL : Z := 30 * day.

(** [sid] is the fresh session id. *)
Definition local_target (next : string) : string :=
  if (next !=? "") && HasPrefix next "/" && negb (HasPrefix next "//") then next else "/".

Definition handleLogin (now : Z) (sid : string) (r : Request) : Handler :=
  if Method r =?s "GET" then reply (RPage "login" "")
  else λ w,
    let ip := clientIP r in
    let '(ok, rl) := IPRateLimiter.allow now ip (loginLimiter w) in
    let w := mkWorld (db w) rl (inviteLimiter w) (flashKeys w) in
    if negb ok then (RPage "login" "Too many login attempts. Please try again later.", w)
    else
      let fail : Handler := λ w,
        (RPage "login" "Invalid username or password",
         mkWorld (db w) (IPRateLimiter.record now ip (loginLimiter w)) (inviteLimiter w) (flashKeys w)) in
      call (Authenticate (FormValue r "username") (FormValue r "password"))
        (λ _, fail)
        (λ res, match res with
          | None => fail
          | Some user =>
              call (WebSessions.Create sid (uID user) (now + sessionTTL))
                (λ _, reply (RStatus 500 "Internal server error"))
                (λ _, reply (RRedirect (if uMustChangePassword user then "/account/password"
                                        else local_target (FormValue r "next")) (Some sid)))
          end) w.

Definition handleLogout (r : Request) : Handler :=
  match SessionCookie r with
  | Some cookie => ignore (WebSessions.Delete cookie) (reply (RRedirect "/login" (Some "")))
  | None => reply (RRedirect "/login" (Some ""))
  end.

(** ** Authorization helpers of the web pages *)

Definition accessibleServers (user : User) (servers : list string) : DBM State (list string) :=
  if uRole user =?s "admin" then db_ret servers
  else match uProfileID user with
       | None => db_ret []
       | Some p =>
           let! r := attempt (on_profiles (ServerIDsForProfile p)) in
           match r with
           | Ok allowed => db_ret (filter (λ id, id ∈ allowed) servers)
           | Err _ => db_ret []
           end
       end.

Definition canAccessServer (user : User) (serverID : string) : DBM State bool :=
  if uRole user =?s "admin" then db_ret true
  else match uProfileID user with
       | None => db_ret false
       | Some p =>
           let! r := attempt (on_profiles (ServerIDsForProfile p)) in
           match r with
           | Ok allowed => db_ret (bool_decide (serverID ∈ allowed))
           | Err _ => db_ret false
           end
       end.

Definition requireAdmin (user : option User) : option Reply :=
  match user with
  | Some u => if uRole u =?s "admin" then None else Some (RStatus 403 "Admin access required")
  | None => Some (RStatus 403 "Admin access required")
  end.

(** ** Invite redemption *)

(** Relabel an error: the text a handler answers with. *)
Definition on_err {A} (m : DBM State A) (f : string → string) : DBM State A :=
  λ d, match m d with (Err e, d') => (Err (f e), d') | (Ok a, d') => (Ok a, d') end.

Definition create_error (taken failed e : string) : string :=
  if Contains e "UNIQUE constraint" then taken else failed.

(** Consume the token, create the user, create the key, record who redeemed it (an
    error there is only logged), commit. *)
Definition invite_exchange_tx (now salt : Z) (rawKey keyID userID token username password : string) :
    DBM State string :=
  transact (
    let! invite := on_err (Invites.ValidateAndConsumeTx now token) (λ _, "internal error") in
    match invite with
    | None => db_fail "invalid, expired, or already used token"
    | Some inv =>
        let! user := on_err (CreateWithAccessLevelTx userID salt now username password
                               (iRole inv) (iAccessLevel inv) (iProfileID inv))
                       (create_error "username already taken" "failed to create account") in
        let! _ := on_err (CreateAPIKeyTx rawKey keyID now (uID user) "arc-sync invite" (iProfileID inv) [])
                    (λ _, "failed to create API key") in
        let! _ := attempt (Invites.SetRedeemedUserTx (iID inv) (uID user)) in
        db_ret rawKey
    end).

Definition exchange_status (e : string) : Z :=
  if e =?s "invalid, expired, or already used token" then 401
  else if e =?s "username already taken" then 409
  else 500.

(** The first JSON value of the body into the struct of three strings. *)
Definition decode_invite_body (body : string) : option (string * string * string) :=
  match parse_value (S (String.length body)) body with
  | Some (JObj l, _) =>
      t ← decode_string_field "token" l ""; u ← decode_string_field "username" l "";
      p ← decode_string_field "password" l ""; Some (t, u, p)
  | Some (JNull, _) => Some ("", "", "")
  | _ => None
  end.

Definition handleInviteExchange (now salt : Z) (rawKey keyID userID : string) (r : Request) : Handler := λ w,
  let ip := clientIP r in
  let '(ok, rl) := IPRateLimiter.allow now ip (inviteLimiter w) in
  let w := mkWorld (db w) (loginLimiter w) rl (flashKeys w) in
  if negb ok then (RStatus 429 "rate limit exceeded", w)
  else
    let w := mkWorld (db w) (loginLimiter w) (IPRateLimiter.record now ip rl) (flashKeys w) in
    if Method r !=? "POST" then (RStatus 405 "method not allowed", w)
    else match decode_invite_body (Body r) with
         | None => (RStatus 400 "token is required", w)
         | Some (token, username, password) =>
             if token =?s "" then (RStatus 400 "token is required", w)
             else if (username =?s "") || (password =?s "")
             then (RStatus 400 "username and password are required", w)
             else if (String.length password <? 8)%nat
             then (RStatus 400 "password must be at least 8 characters", w)
             else call (invite_exchange_tx now salt rawKey keyID userID token username password)
                    (λ e, reply (RStatus (exchange_status e) (if e =?s db_error then "internal error" else e)))
                    (λ key, reply (RStatus 200 key)) w
         end.

(** The browser variant: no API key. *)
Definition invite_redeem_tx (now salt : Z) (userID token username password : string) : DBM State User :=
  transact (
    let! invite := on_err (Invites.ValidateAndConsumeTx now token) (λ _, "Internal server error") in
    match invite with
    | None => db_fail "expired"
    | Some inv =>
        let! user := on_err (CreateWithAccessLevelTx userID salt now username password
                               (iRole inv) (iAccessLevel inv) (iProfileID inv))
                       (create_error "Username already taken" "Failed to create account") in
        let! _ := attempt (Invites.SetRedeemedUserTx (iID inv) (uID user)) in
        db_ret user
    end).

(** Every error page peeks at the token again. *)
Definition redeem_error (now : Z) (token msg : string) : Handler :=
  call (attempt (Invites.Peek now token)) (λ _, reply (RPage "invite_redeem" msg))
    (λ inv, match inv with
            | Ok (Some _) => reply (RPage "invite_redeem" msg)
            | _ => reply (RPage "invite_redeem" (msg +:+ " (expired)"))
            end).

Definition handleInviteRedeem (now salt : Z) (userID sid : string) (r : Request) : Handler :=
  let token := TrimPrefix (Path r) "/invite/" in
  if token =?s "" then reply (RStatus 400 "Missing invite token")
  else if Method r =?s "GET" then
    call (Invites.Peek now token) (λ _, reply (RStatus 500 "Internal server error"))
      (λ inv, match inv with
              | None => reply (RPage "invite_redeem" "expired")
              | Some i => reply (RPage "invite_redeem" (iRole i))
              end)
  else if Method r !=? "POST" then reply (RStatus 405 "Method not allowed")
  else
    let username := TrimSpace (FormValue r "username") in
    let password := FormValue r "password" in
    if (username =?s "") || (password =?s "") then redeem_error now token "Username and password are required"
    else if (String.length password <? 8)%nat then redeem_error now token "Password must be at least 8 characters"
    else if password !=? FormValue r "confirm_password" then redeem_error now token "Passwords do not match"
    else call (invite_redeem_tx now salt userID token username password)
      (λ e, if e =?s "expired" then reply (RPage "invite_redeem" "expired")
            else if (e =?s "Username already taken") || (e =?s "Failed to create account")
            then redeem_error now token e
            else reply (RStatus 500 "Internal server error"))
      (λ user, call (WebSessions.Create sid (uID user) (now + sessionTTL))
                 (λ _, reply (RRedirect "/login" None))
                 (λ _, reply (RRedirect "/" (Some sid)))).

(** ** Passwords and user management

    The list page reads the users, profiles and pending invites and ignores errors;
    it changes nothing and is represented by its message. *)

Definition handleChangePassword (now salt : Z) (newSID : string) (user : User) (r : Request) : Handler :=
  if Method r =?s "GET" then reply (RPage "change_password" "")
  else if Method r !=? "POST" then reply (RStatus 405 "Method not allowed")
  else
    let newPassword := FormValue r "new_password" in
    let change : Handler :=
      if (String.length newPassword <? 8)%nat
      then reply (RPage "change_password" "New password must be at least 8 characters")
      else if newPassword !=? FormValue r "confirm_password"
      then reply (RPage "change_password" "Passwords do not match")
      else call (SetPassword salt (uID user) newPassword)
        (λ e, reply (RPage "change_password" ("Failed to update password: " +:+ e)))
        (λ _, ignore (WebSessions.DeleteByUser (uID user))
          (call (WebSessions.Create newSID (uID user) (now + sessionTTL))
             (λ _, reply (RRedirect "/login" None))
             (λ _, reply (RRedirect "/" (Some newSID))))) in
    if uMustChangePassword user then change
    else call (Authenticate (uUsername user) (FormValue r "current_password"))
           (λ _, reply (RPage "change_password" "Current password is incorrect"))
           (λ authed, match authed with
                      | None => reply (RPage "change_password" "Current password is incorrect")
                      | Some _ => change
                      end).

Definition optional_field (v : string) : option string :=
  let v := TrimSpace v in if v =?s "" then None else Some v.

(** Both updates drop their errors. *)
Definition handleUserUpdate (userID : string) (r : Request) : Handler :=
  let role := FormValue r "role" in
  let k := ignore (UpdateProfile userID (optional_field (FormValue r "default_profile_id")))
             (reply (RRedirect "/users" None)) in
  if valid_role role then ignore (UpdateRole userID role) k else k.

Definition handleUserResetPassword (salt : Z) (userID : string) (r : Request) : Handler :=
  let newPassword := FormValue r "new_password" in
  if newPassword =?s "" then reply (RPage "users" "New password is required")
  else if (String.length newPassword <? 8)%nat then reply (RPage "users" "Password must be at least 8 characters")
  else call (Users.Get userID) (λ _, reply (RPage "users" "User not found"))
    (λ target, match target with
      | None => reply (RPage "users" "User not found")
      | Some _ =>
          call (SetPassword salt userID newPassword)
            (λ e, reply (RPage "users" ("Failed to reset password: " +:+ e)))
            (λ _, ignore (SetMustChangePassword userID true)
                    (ignore (WebSessions.DeleteByUser userID)
                       (reply (RPage "users" "Password reset"))))
      end).

Definition form_role (r : Request) : string :=
  if FormValue r "role" !=? "admin" then "user" else "admin".

Definition form_level (r : Request) : string :=
  let l := FormValue r "access_level" in if Access.valid_tier l then l else "write".

Definition handleUserCreate (id : string) (salt now : Z) (r : Request) : Handler :=
  let username := TrimSpace (FormValue r "username") in
  let password := FormValue r "password" in
  if (username =?s "") || (password =?s "") then reply (RPage "users" "Username and password are required")
  else call (CreateWithAccessLevel id salt now username password (form_role r) (form_level r)
               (optional_field (FormValue r "default_profile_id")))
         (λ e, reply (RPage "users" ("Failed to create user: " +:+ e)))
         (λ _, reply (RRedirect "/users" None)).

Definition add_flash (k v : string) (h : Handler) : Handler := λ w,
  h (mkWorld (db w) (loginLimiter w) (inviteLimiter w) (<[k := v]> (flashKeys w))).

(** [nonce] names the one-time flash the invite link is shown through. *)
Definition handleCreateAccountInvite (now : Z) (rawToken id nonce baseURL : string) (admin : option User)
    (r : Request) : Handler :=
  match admin with
  | Some a =>
      if uRole a =?s "admin" then
        call (Invites.CreateAccountInvite rawToken id (form_role r) (form_level r)
                (optional_field (FormValue r "profile_id")) (uID a) (now + 48 * hour))
          (λ e, reply (RPage "users" ("Failed to create invite: " +:+ e)))
          (λ _, add_flash ("invite-cmd-" +:+ nonce)
                  ("curl -fsSL " +:+ baseURL +:+ "/install.sh | bash -s -- --token " +:+ rawToken)
                (add_flash ("invite-link-" +:+ nonce) (baseURL +:+ "/invite/" +:+ rawToken)
                  (reply (RRedirect ("/users?invite=" +:+ nonce) None))))
      else reply (RStatus 403 "Admin access required")
  | None => reply (RStatus 403 "Admin access required")
  end.

(** [strings.SplitN(path, "/", 2)]. *)
Definition split_slash (path : string) : string * option string :=
  match Index path "/" with
  | Some i => (take_str i path, Some (drop_str (S i) path))
  | None => (path, None)
  end.

(** The randomness one request may draw. *)
Record Fresh := mkFresh { fID : string; fSecret : string; fNonce : string; fSalt : Z }.

Definition handleUserRoutes (now : Z) (f : Fresh) (baseURL : string) (user : option User) (r : Request) : Handler :=
  match requireAdmin user with
  | Some e => reply e
  | None =>
      let '(p0, p1) := split_slash (TrimPrefix (Path r) "/users/") in
      let post := Method r =?s "POST" in
      if (p0 =?s "new") && post then handleUserCreate (fID f) (fSalt f) now r
      else if (p0 =?s "invite-new") && post
      then handleCreateAccountInvite now (fSecret f) (fID f) (fNonce f) baseURL user r
      else match p1 with
           | None => reply (RStatus 404 "404 page not found")
           | Some p1 =>
               if negb post then reply (RStatus 404 "404 page not found")
               else if p0 =?s "invite-revoke"
               then ignore (Invites.DeleteInvite p1) (reply (RRedirect "/users" None))
               else if p1 =?s "delete" then ignore (Users.Delete p0) (reply (RRedirect "/users" None))
               else if p1 =?s "update" then handleUserUpdate p0 r
               else if p1 =?s "reset-password" then handleUserResetPassword (fSalt f) p0 r
               else reply (RStatus 404 "404 page not found")
           end
  end.

(** ** Issuing and revoking API keys *)

(** The profile of a new key, or the refusal. *)
Definition key_profile (user : User) (r : Request) (k : option string → Handler) : Handler :=
  match optional_field (FormValue r "profile_id") with
  | Some pid =>
      if (uRole user !=? "admin") && negb (bool_decide (uDefaultProfileID user = Some pid))
      then reply (RStatus 403 "You can only create keys with your assigned profile")
      else k (Some pid)
  | None =>
      call (attempt (Users.Get (uID user))) (λ _, k None)
        (λ u, match u with
              | Ok (Some full) => k (uDefaultProfileID full)
              | _ => k None
              end)
  end.

Definition handleAPIKeyRoutes (now : Z) (f : Fresh) (user : User) (r : Request) : Handler :=
  let '(p0, p1) := split_slash (TrimPrefix (Path r) "/api-keys/") in
  let post := Method r =?s "POST" in
  if (p0 =?s "new") && post then
    let name := TrimSpace (FormValue r "key_name") in
    let name := if name =?s "" then "unnamed" else name in
    key_profile user r (λ profileID,
      let capabilities := if uRole user =?s "admin" then sanitizeCapabilities (FormCapabilities r) else [] in
      call (CreateAPIKey (fSecret f) (fID f) now (uID user) name profileID capabilities)
        (λ _, reply (RRedirect "/api-keys" None))
        (λ _, add_flash (fNonce f) (fSecret f) (reply (RRedirect ("/api-keys?new=" +:+ fNonce f) None))))
  else match p1 with
       | Some p1 =>
           if (p1 =?s "revoke") && post then
             call (attempt (ListAPIKeys (uID user))) (λ e, reply (RStatus 500 e))
               (λ ks,
                 let ownsKey := match ks with Ok l => existsb (λ k, kID k =?s p0) l | Err _ => false end in
                 if negb ownsKey && (uRole user !=? "admin")
                 then reply (RStatus 403 "You can only revoke your own API keys")
                 else ignore (RevokeAPIKey p0)
                   (reply (RRedirect (if FormValue r "return_to" =?s "/api-keys?all=1"
                                      then "/api-keys?all=1" else "/api-keys") None)))
           else reply (RStatus 404 "404 page not found")
       | None => reply (RStatus 404 "404 page not found")
       end.
End Auth.

(** ** Theorems: who reaches a handler *)
Section Guards.
Context `{Hashing}.
Variable csrf_mac : string → string.

Lemma session_get_total now cookie d :
  ∃ d', tables d' = tables d ∧
    (WebSessions.Get now cookie d = (Ok None, d') ∨
     ∃ x, WebSessions.live_session now cookie (tables d) = Some x ∧ WebSessions.Get now cookie d = (Ok (Some x), d')).
Proof.
  unfold WebSessions.Get, db_bind, attempt. destruct (query _ d) as [[x|e] d1] eqn:E.
  - apply query_ok in E as [-> Ht]. exists d1. split; [done|].
    destruct (WebSessions.live_session _ _ _) as [x|]; [right; eauto|by left].
  - exists d1. split; [|by left]. pose proof (query_tables (WebSessions.live_session now cookie) d) as Hq.
    by rewrite E in Hq.
Qed.

(** A page behind [requireAuth] runs only for the user of an
    unexpired session, with a forced password change done first except on the password
    and logout pages, and for POST, PUT and DELETE only with the CSRF token of that very
    session; in all other cases the answer is a redirect, 401 or 403 that does not depend
    on the page.  No table changes either way, whatever statements fail. *)
Theorem requireAuth_guards : ∀ now r w,
  (∃ cookie user exp d',
     SessionCookie r = Some cookie ∧ tables d' = tables (db w) ∧
     WebSessions.live_session now cookie (tables (db w)) = Some (user, exp) ∧
     (uMustChangePassword user = true → Path r = "/account/password" ∨ Path r = "/logout") ∧
     (state_changing (Method r) = true → FormValue r "csrf_token" = csrf_mac cookie ∨ XCSRFToken r = csrf_mac cookie) ∧
     ∀ next, requireAuth csrf_mac now next r w = next user cookie (with_db w d')) ∨
  (∃ rep d', tables d' = tables (db w) ∧
     (rep = RRedirect "/login" None ∨ rep = RRedirect "/account/password" None ∨
      ∃ code body, rep = RStatus code body ∧ (code = 401 ∨ code = 403)%Z) ∧
     ∀ next, requireAuth csrf_mac now next r w = (rep, with_db w d')).
Proof.
  intros now r w. unfold requireAuth. destruct (SessionCookie r) as [cookie|].
  2: { right. destruct (_ && _);
         [exists (RStatus 401 "authentication required"), (db w)|exists (RRedirect "/login" None), (db w)];
         (split; [done|]; split; [eauto 10|intros next; by destruct w]). }
  destruct (session_get_total now cookie (db w)) as (d' & Ht & [E|([user exp] & Hl & E)]); unfold call; rewrite E.
  { right. exists (RRedirect "/login" None), d'. eauto. }
  destruct (uMustChangePassword user && _ && _) eqn:Em.
  { right. exists (RRedirect "/account/password" None), d'. eauto. }
  destruct (state_changing (Method r) && _) eqn:Ec.
  { right. eexists _, d'. split; [done|]. split; [|reflexivity]. right; right. destruct (HasPrefix _ _); eauto. }
  left. exists cookie, user, exp, d'. split_and!; try done.
  - intros Hm. rewrite Hm in Em. cbn in Em. apply andb_false_iff in Em as [Em|Em]; bool_prop; auto.
  - intros Hs. rewrite Hs in Ec. bool_prop. unfold validateCSRF in Ec. destruct Ec as [|Ec]; [done|]. bool_prop.
    destruct (FormValue r "csrf_token" =?s "") eqn:Ef; case_if; try done; bool_prop; auto.
Qed.

(** the management API runs only for the owner of a valid API key, the
    proxy only for the owner of a valid API key or OAuth token (never both, and an OAuth
    request carries no key, hence no capability); everything else is 401, or 500 when the
    database fails, whatever the handler is. *)
Theorem bearer_guards : ∀ now r w,
  let token := TrimPrefix (Authorization r) "Bearer " in
  let refused mw := ∃ code body w', (code = 401 ∨ code = 500)%Z ∧
                      ∀ next : BearerHandler, mw next r w = (RStatus code body, w') in
  ((∃ u k, outcome (ValidateAPIKey now token) (db w) = Ok (Some (u, k)) ∧
      ∀ next, APIKeyAuth now next r w = next (Some u) (Some k) (with_db w (snd (ValidateAPIKey now token (db w)))))
   ∨ refused (APIKeyAuth now)) ∧
  ((∃ u k, outcome (ValidateAPIKey now token) (db w) = Ok (Some (u, k)) ∧
      ∀ next, MCPAuth now next r w = next (Some u) (Some k) (with_db w (snd (ValidateAPIKey now token (db w)))))
   ∨ (∃ u d', outcome (ValidateAPIKey now token) (db w) = Ok None ∧
        outcome (OAuth.Validate now token) (snd (ValidateAPIKey now token (db w))) = Ok (Some u) ∧
        ∀ next, MCPAuth now next r w = next (Some u) None (with_db w d'))
   ∨ refused (MCPAuth now)).
Proof.
  intros now r w token refused. unfold refused, APIKeyAuth, MCPAuth, outcome.
  destruct (Authorization r =?s ""); [split; repeat right; eexists _, _, w; (split; [by left|reflexivity])|].
  destruct (negb _); [split; repeat right; eexists _, _, w; (split; [by left|reflexivity])|].
  fold token. unfold call. destruct (ValidateAPIKey now token (db w)) as [[[[u k]|]|e] d1] eqn:E; cbn.
  - split; left; eauto.
  - split; [right; eexists _, _, _; split; [by left|reflexivity]|]. right.
    destruct (OAuth.Validate now token d1) as [[[u|]|e] d2] eqn:E2; cbn.
    + left. exists u, d2. by split_and!.
    + right. eexists _, _, _. split; [by left|reflexivity].
    + right. eexists _, _, _. split; [by right|reflexivity].
  - split; repeat right; eexists _, _, _; (split; [by right|reflexivity]).
Qed.
End Guards.

(** ** Theorems: the limiter *)
Section LimiterTheorems.
Import IPRateLimiter.
Variable ip : string.

(** The attempts of one address, at the given times: an attempt that is allowed is
    recorded ([handleInviteExchange]; a failed login).  The result lists the allowed
    ones. *)
Fixpoint serve (times : list Z) (rl : Limiter) : list Z * Limiter :=
  match times with
  | [] => ([], rl)
  | t :: rest =>
      let '(ok, rl) := allow t ip rl in
      if ok then let '(l, rl) := serve rest (record t ip rl) in (t :: l, rl)
      else serve rest rl
  end.

Definition bucket (rl : Limiter) : list Z := default [] (attempts rl !! ip).

(** Attempts of [A] in the window that ends at [t]. *)
Definition in_window (W t : Z) (A : list Z) : list Z := filter (λ a, t - W < a ≤ t)%Z A.

Lemma bucket_allow t rl : bucket (allow t ip rl).2 = recent t rl (bucket rl).
Proof. unfold bucket, allow. cbn. by rewrite lookup_insert_eq. Qed.

Lemma bucket_record t rl : bucket (record t ip rl) = bucket rl ++ [t].
Proof. unfold bucket, record. cbn. by rewrite lookup_insert_eq. Qed.

(** [A] are the allowed attempts so far, all before [now]; the bucket still holds
    those of them that can count against a later attempt. *)
Definition tracked (rl : Limiter) (now : Z) (A : list Z) : Prop :=
  Forall (λ a, a ≤ now)%Z A ∧
  ∀ t, (now ≤ t)%Z → filter (λ a, t - window rl < a)%Z (bucket rl) = filter (λ a, t - window rl < a)%Z A.

Definition bounded (rl : Limiter) (A : list Z) : Prop :=
  ∀ t, length (in_window (window rl) t A) ≤ max rl.

Lemma filter_filter_later (W t t' : Z) (l : list Z) : (t ≤ t')%Z →
  filter (λ a, t' - W < a)%Z (filter (λ a, t - W < a)%Z l) = filter (λ a, t' - W < a)%Z l.
Proof.
  intros Ht. induction l as [|a l IH]; [done|]. rewrite !filter_cons.
  destruct (decide (t - W < a)%Z); rewrite ?filter_cons; repeat case_decide; try lia; by rewrite ?IH.
Qed.

Lemma tracked_allow rl now t A : (now ≤ t)%Z → tracked rl now A → tracked (allow t ip rl).2 t A.
Proof.
  intros Ht [HA Hb]. split.
  - eapply Forall_impl; [exact HA|]. cbn. lia.
  - intros t' Ht'. rewrite bucket_allow. cbn. unfold recent. rewrite filter_filter_later by done. apply Hb. lia.
Qed.

Lemma tracked_record rl t A : tracked rl t A → tracked (record t ip rl) t (A ++ [t]).
Proof.
  intros [HA Hb]. split.
  - apply Forall_app. split; [done|]. by constructor.
  - intros t' Ht'. rewrite bucket_record. cbn. rewrite !filter_app. by rewrite Hb.
Qed.

Lemma filter_length_impl (P Q : Z → Prop) `{∀ x, Decision (P x)} `{∀ x, Decision (Q x)} (l : list Z) :
  (∀ x, x ∈ l → P x → Q x) → length (filter P l) ≤ length (filter Q l).
Proof.
  induction l as [|a l IH]; intros HPQ; [done|]. rewrite !filter_cons.
  assert (IH' : length (filter P l) ≤ length (filter Q l)) by (apply IH; intros; apply HPQ; [by right|done]).
  destruct (decide (P a)) as [Hp|]; [|destruct (decide (Q a)); simpl; lia].
  rewrite decide_True by (apply HPQ; [by left|done]). simpl. lia.
Qed.

Lemma bounded_record rl t A :
  tracked rl t A → bounded rl A → length (recent t rl (bucket rl)) < max rl → bounded rl (A ++ [t]).
Proof.
  intros [HA Hb] Hbd Hlt t'. unfold in_window, recent in *. rewrite filter_app, length_app.
  destruct (decide (t ≤ t')%Z) as [Hle|Hgt].
  - rewrite (Hb t) in Hlt by lia.
    assert (length (filter (λ a, t' - window rl < a ≤ t')%Z A) ≤ length (filter (λ a, t - window rl < a)%Z A)).
    { apply filter_length_impl. intros; lia. }
    assert (length (filter (λ a, t' - window rl < a ≤ t')%Z [t]) ≤ 1).
    { rewrite filter_cons. case_decide; simpl; lia. }
    lia.
  - rewrite filter_cons, decide_False by lia. simpl. rewrite Nat.add_0_r. apply Hbd.
Qed.

Lemma serve_bounded times rl now A :
  StronglySorted Z.le (now :: times) → tracked rl now A → bounded rl A →
  window (serve times rl).2 = window rl ∧ max (serve times rl).2 = max rl ∧
  bounded rl (A ++ (serve times rl).1).
Proof.
  revert rl now A. induction times as [|t times IH]; intros rl now A Hs Ht Hb; cbn [serve].
  { by rewrite app_nil_r. }
  inversion Hs as [|? ? Hs' Hall]; subst. inversion Hall; subst.
  pose proof (tracked_allow rl now t A ltac:(done) Ht) as Ht1.
  destruct (allow t ip rl) as [ok rl1] eqn:E.
  assert (rl1 = (allow t ip rl).2) as -> by (by rewrite E).
  assert (ok = (length (recent t rl (bucket rl)) <? max rl)%nat) as -> by (unfold allow in E; by injection E).
  destruct (_ <? _)%nat eqn:Eok.
  - bool_prop.
    assert (Hb2 : bounded rl (A ++ [t])).
    { change (bounded (allow t ip rl).2 (A ++ [t])). apply bounded_record; [done..|].
      rewrite bucket_allow. unfold recent in *. cbn. rewrite filter_filter_later by lia. done. }
    destruct (IH (record t ip (allow t ip rl).2) t (A ++ [t]) Hs' (tracked_record _ _ _ Ht1) Hb2) as (Ew & Em & Hbd).
    destruct (serve times _) as [l rl2]. cbn in *. rewrite <- app_assoc in Hbd. done.
  - destruct (IH (allow t ip rl).2 t A Hs' Ht1 Hb) as (Ew & Em & Hbd). done.
Qed.
End LimiterTheorems.

(** over any run of requests of one address, no window of the
    limiter's length contains more admitted requests than the limit (at most 10 invite
    exchanges, or 5 failed logins, per 15 minutes). *)
Theorem limiter_window_bound : ∀ ip W n times t,
  StronglySorted Z.le times →
  length (in_window W t (serve ip times (newIPRateLimiter W n)).1) ≤ n.
Proof.
  intros ip W n times t Hs. destruct times as [|t0 times]; [cbn; lia|].
  apply (serve_bounded ip (t0 :: times) (newIPRateLimiter W n) t0 []).
  - constructor; [done|]. inversion Hs; subst. constructor; [lia|done].
  - split; [constructor|]. intros t' _. unfold bucket, newIPRateLimiter. cbn. by rewrite lookup_empty.
  - intros t'. cbn. lia.
Qed.

Lemma limiter_window_bound_witness :
  length (in_window (15 * minute) 6 (serve "ip" [1; 2; 3; 4; 5; 6]%Z newLoginRateLimiter).1) ≤ 5.
Proof. apply (limiter_window_bound "ip" (15 * minute) 5). repeat constructor; lia. Defined.

(** the throttled address is whatever the client puts
    first in X-Forwarded-For: with a value that was not used before, a login attempt is
    always tried, however many attempts the real peer has failed. *)
Theorem throttle_trusts_forwarded_header : ∀ `{Hashing} now sid r w,
  XForwardedFor r ≠ "" → Method r = "POST" →
  IPRateLimiter.attempts (loginLimiter w) !! before_comma (XForwardedFor r) = None →
  0 < IPRateLimiter.max (loginLimiter w) →
  (handleLogin now sid r w).1 ≠ RPage "login" "Too many login attempts. Please try again later.".
Proof.
  intros Hh now sid r w Hne Hp Ha Hm. unfold handleLogin, clientIP. rewrite Hp. apply String.eqb_neq in Hne.
  rewrite Hne. cbn. unfold IPRateLimiter.allow, IPRateLimiter.recent. rewrite Ha. cbn.
  destruct (IPRateLimiter.max (loginLimiter w)) as [|n]; [lia|]. cbn. unfold call. cbn.
  destruct (Authenticate _ _ _) as [[[u|]|] d]; cbn; [|discriminate..].
  by destruct (WebSessions.Create _ _ _ _) as [[] d2].
Qed.

Lemma throttle_trusts_forwarded_header_witness :
  let r := mkRequest "POST" "/login" "" "" "203.0.113.9" "" "10.0.0.1:999" None ∅ [] "" in
  let rl := IPRateLimiter.mkLimiter {["10.0.0.1" := [1; 2; 3; 4; 5; 6]%Z]} (15 * minute) 5 in
  (handleLogin 7 "s" r (mkWorld (healthy demo) rl rl ∅)).1 ≠
    RPage "login" "Too many login attempts. Please try again later.".
Proof.
  apply (throttle_trusts_forwarded_header 7 "s"); [discriminate|reflexivity|reflexivity|cbn; lia].
Defined.

(** ** Theorems: passwords and keys *)
Section AccountTheorems.
Context `{Hashing}.

Lemma handleChangePassword_ok now salt sid user r w :
  (handleChangePassword now salt sid user r w).1 = RRedirect "/" (Some sid) →
  faults (db w) = [] →
  let s := tables (db w) in
  let s' := tables (db (handleChangePassword now salt sid user r w).2) in
  ∃ hash, bcrypt_generate salt (FormValue r "new_password") = Ok hash ∧
    (uMustChangePassword user = true ∨
     ∃ u, user_by_name (uUsername user) s = Some u ∧
          bcrypt_compare (uPasswordHash u) (FormValue r "current_password") = true) ∧
    8 ≤ String.length (FormValue r "new_password") ∧
    users s' = alter (set_password hash false) (uID user) (users s) ∧
    sessions s' = <[sid := (uID user, now + sessionTTL)%Z]>
                    (filter (λ '(_, x), x.1 ≠ uID user) (sessions s)).
Proof.
  destruct w as [[s fs] l1 l2 fk]. cbn. intros Hr ->. change (mkDb s []) with (healthy s) in *.
  unfold handleChangePassword in *.
  destruct (Method r =?s "GET"); [done|]. destruct (negb (Method r =?s "POST")); [done|].
  set (change := if (_ <? _)%nat then _ else _) in *.
  assert (Hch : ∀ w, db w = healthy s → (change w).1 = RRedirect "/" (Some sid) →
    ∃ hash, bcrypt_generate salt (FormValue r "new_password") = Ok hash ∧
      8 ≤ String.length (FormValue r "new_password") ∧
      users (tables (db (change w).2)) = alter (set_password hash false) (uID user) (users s) ∧
      sessions (tables (db (change w).2)) = <[sid := (uID user, now + sessionTTL)%Z]>
                    (filter (λ '(_, x), x.1 ≠ uID user) (sessions s))).
  { intros w Hw. unfold change. destruct (_ <? _)%nat eqn:El; [done|]. destruct (negb _); [done|]. bool_prop.
    unfold call, SetPassword. destruct (bcrypt_generate salt _) as [hash|] eqn:Eg; [|done].
    rewrite Hw. unfold update. rewrite exec_healthy. cbn.
    intros Hr'. exists hash. split; [done|]. split; [done|]. revert Hr'.
    unfold ignore, call, WebSessions.DeleteByUser, WebSessions.Create, db_bind, attempt, update, exec. cbn.
    repeat (case_if; try done). }
  destruct (uMustChangePassword user) eqn:Em.
  - edestruct Hch as (hash & ? & ? & ? & ?); [|exact Hr|]; [reflexivity|]. exists hash. split_and!; auto.
  - unfold call in Hr |- *. unfold Authenticate, db_bind, query in *.
    cbn [db] in Hr |- *. rewrite exec_healthy in Hr |- *. cbn in Hr |- *.
    destruct (user_by_name (uUsername user) s) as [u|] eqn:Eu; [|done].
    destruct (bcrypt_compare _ _) eqn:Eb; [|done]. cbn in Hr |- *.
    edestruct Hch as (hash & ? & ? & ? & ?); [|exact Hr|]; [reflexivity|]. exists hash. split_and!; eauto.
Qed.

(** when the password page answers with a fresh session,
    the old password was checked (unless a change was forced), the new one has at least
    eight bytes and is now the only password the account accepts, the forced-change flag
    is off, the new session is the only one of the account, and the sessions of everybody
    else are untouched. *)
Theorem password_change_ends_sessions : ∀ `{HL : !HashingLaws H} now salt sid user r w u0,
  (handleChangePassword now salt sid user r w).1 = RRedirect "/" (Some sid) →
  faults (db w) = [] → users (tables (db w)) !! uID user = Some u0 →
  let s := tables (db w) in
  let s' := tables (db (handleChangePassword now salt sid user r w).2) in
  (uMustChangePassword user = true ∨
   ∃ u, user_by_name (uUsername user) s = Some u ∧
        bcrypt_compare (uPasswordHash u) (FormValue r "current_password") = true) ∧
  8 ≤ String.length (FormValue r "new_password") ∧
  (∃ u', users s' !! uID user = Some u' ∧ uMustChangePassword u' = false ∧
     ∀ pw, bcrypt_compare (uPasswordHash u') pw = true ↔ pw = FormValue r "new_password") ∧
  (∀ x e, sessions s' !! x = Some (uID user, e) → x = sid ∧ e = (now + sessionTTL)%Z) ∧
  (∀ x v e, x ≠ sid → v ≠ uID user → sessions s' !! x = Some (v, e) ↔ sessions s !! x = Some (v, e)).
Proof.
  intros HL now salt sid user r w u0 Hr Hf Hu s s'.
  destruct (handleChangePassword_ok _ _ _ _ _ _ Hr Hf) as (hash & Hg & Hauth & Hlen & Husers & Hsess).
  fold s s' in Husers, Hsess, Hauth. fold s in Hu. split_and!; [done..| | |].
  - exists (set_password hash false u0). rewrite Husers, lookup_alter_eq, Hu. split_and!; [done..|].
    intros pw. cbn. by apply (bcrypt_correct salt).
  - intros x e. rewrite Hsess, lookup_insert_Some. intros [[<- [= <-]]|[_ Hx]]; [done|].
    apply map_lookup_filter_Some in Hx as [_ Hx]. done.
  - intros x v e Hx Hv. rewrite Hsess, lookup_insert_ne by done. rewrite map_lookup_filter_Some. naive_solver.
Qed.
End AccountTheorems.

(** A world on the demonstration state. *)
Definition demo_world : World :=
  mkWorld (healthy (with_sessions demo {["old" := ("u", 1000)%Z]}))
    newLoginRateLimiter (newIPRateLimiter (15 * minute) 10) ∅.

Definition change_request : Request :=
  mkRequest "POST" "/account/password" "" "" "" "" "10.0.0.1:9" (Some "old")
    {["current_password" := "hunter22"; "new_password" := "longer-one"; "confirm_password" := "longer-one"]} [] "".

Lemma password_change_ends_sessions_witness :
  ¬ (sessions (tables (db (handleChangePassword 7 0 "new"
    (mkUser "u" "bob" "" "user" "write" None false 1 None "") change_request demo_world).2)) !! "old" = Some ("u", 1000%Z)).
Proof.
  intros Hx. pose proof (password_change_ends_sessions (HL:=toy_hashing_laws) 7 0 "new"
    (mkUser "u" "bob" "" "user" "write" None false 1 None "") change_request demo_world
    (mkUser "u" "bob" "bc:hunter22" "user" "write" None false 1 None "")
    ltac:(vm_compute; reflexivity) eq_refl eq_refl) as (_ & _ & _ & Hs & _).
  destruct (Hs _ _ Hx). discriminate.
Defined.

(** ** Theorems: issuing keys *)
Section IssueTheorems.
Context `{Hashing}.

(** What a non-admin's request to [/api-keys/] may do to a key. *)
Definition own_key_change (user : User) (s : State) (j : string) (k' : KeyRow) : Prop :=
  api_keys s !! j = Some k' ∨
  (∃ k, api_keys s !! j = Some k ∧ k' = revoke k ∧ r_user_id k = uID user) ∨
  (r_user_id k' = uID user ∧ r_capabilities k' = "[]" ∧
   ∀ p, r_profile_id k' = Some p → uDefaultProfileID user = Some p ∨
        ∃ full, users s !! uID user = Some full ∧ uDefaultProfileID full = Some p).

Lemma insert_key_result id row d :
  let s' := tables (snd (insert_key id row d)) in
  users s' = users (tables d) ∧
  (api_keys s' = api_keys (tables d) ∨ api_keys s' = <[id := row]> (api_keys (tables d))).
Proof.
  unfold insert_key. cbn zeta. match goal with |- context [exec ?f d] =>
    destruct (exec_cases f d) as [(e & _ & ->)|(a & t & E & _ & ->)]; [auto|] end.
  destruct (bool_decide _); [done|]. destruct (negb _); [done|]. injection E as _ <-. cbn. auto.
Qed.

Lemma create_key_result raw id now u n p d :
  api_keys (tables (snd (CreateAPIKey raw id now u n p [] d))) = api_keys (tables d) ∨
  api_keys (tables (snd (CreateAPIKey raw id now u n p [] d))) =
    <[id := mkKeyRow u (hashAPIKey raw) n p now None false "[]"]> (api_keys (tables d)).
Proof.
  unfold CreateAPIKey, db_bind.
  pose proof (insert_key_result id (mkKeyRow u (hashAPIKey raw) n p now None false "[]") d) as [_ Hk].
  change (marshalCapabilities (normalizeCapabilities [])) with "[]".
  by destruct (insert_key _ _ d) as [[[]|] d1].
Qed.

(** Whatever a non-admin posts to the key pages, and whatever
    statements fail, every key of another account is unchanged, and a key that appears
    belongs to the requester, carries no capability and no profile but the requester's
    default one. *)
Theorem non_admin_keys_stay_own : ∀ now f user r w,
  uRole user ≠ "admin" →
  ∀ j k', api_keys (tables (db (handleAPIKeyRoutes now f user r w).2)) !! j = Some k' →
  own_key_change user (tables (db w)) j k'.
Proof.
  intros now f user r w Hr j k'. unfold handleAPIKeyRoutes. apply String.eqb_neq in Hr. rewrite Hr.
  destruct (split_slash _) as [p0 p1]. destruct (_ && _).
  - set (k := λ profileID : option string, call _ _ _).
    assert (Hk : ∀ prof d, tables d = tables (db w) →
      (∀ p, prof = Some p → uDefaultProfileID user = Some p ∨
         ∃ full, users (tables (db w)) !! uID user = Some full ∧ uDefaultProfileID full = Some p) →
      api_keys (tables (db (k prof (with_db w d)).2)) !! j = Some k' → own_key_change user (tables (db w)) j k').
    { intros prof d Ht Hp. unfold k, call. cbn [db with_db].
      match goal with |- context [CreateAPIKey ?a ?b ?c ?e ?g ?h [] d] =>
        pose proof (create_key_result a b c e g h d) as Hc; destruct (CreateAPIKey a b c e g h [] d) as [[x|x] d1] end;
        cbn in *; rewrite Ht in Hc; destruct Hc as [-> | ->]; try (by left);
        rewrite lookup_insert_Some; (intros [[<- <-]|[_ Hx]]; [right; right; by split_and!|by left]). }
    unfold key_profile. destruct (optional_field _) as [pid|].
    + rewrite Hr. cbn. destruct (bool_decide _) eqn:Ed; cbn; [|by left]. bool_prop.
      destruct w as [d l1 l2 fk]. apply (Hk (Some pid) d eq_refl). intros p [= <-]. by left.
    + unfold call. rewrite attempt_run.
      pose proof (query_tables (λ s, users s !! uID user) (db w)) as Hq. unfold Users.Get.
      destruct (query (λ s, users s !! uID user) (db w)) as [[[full|]|e] d1] eqn:E; cbn in Hq |- *.
      * apply query_ok in E as [E _]. apply Hk; [done|]. intros p Hp. right. eauto.
      * by apply Hk.
      * by apply Hk.
  - destruct p1 as [p1|]; [|by left]. destruct (_ && _); [|by left].
    unfold call. rewrite attempt_run.
    unfold ListAPIKeys. match goal with |- context [query ?q (db w)] =>
      pose proof (query_tables q (db w)) as Hq; destruct (query q (db w)) as [[l|e] d1] eqn:E end; cbn in Hq |- *.
    2: { rewrite Hq. by left. }
    destruct (existsb _ l) eqn:Eo; cbn; [|rewrite Hq; by left].
    apply query_ok in E as [-> _]. apply existsb_exists in Eo as (key & Hin & Hid). bool_prop.
    apply list_elem_of_In, elem_of_stable_sort, list_elem_of_omap in Hin as ([i row] & Hin & Ek).
    apply elem_of_map_to_list in Hin. destruct (r_user_id row =?s uID user) eqn:Eu; [|done]. simplify_eq/=. bool_prop.
    unfold ignore, call, RevokeAPIKey.
    match goal with |- context [update ?g ?d] => pose proof (update_tables g d) as Hup; destruct (update g d) as [[]] end;
      cbn in *; rewrite Hq in Hup; destruct Hup as [-> | ->]; try (by left); cbn;
      (destruct (decide (i = j)) as [->|Hne]; [rewrite lookup_alter_eq, Hin; intros [= <-]; right; left; eauto
                                             |rewrite lookup_alter_ne by done; by left]).
Qed.
End IssueTheorems.

Lemma non_admin_keys_stay_own_witness :
  let r := mkRequest "POST" "/api-keys/new" "" "" "" "" "" None {["key_name" := "x"]} ["skills:admin"] "" in
  let w := (handleAPIKeyRoutes 3 (mkFresh "k2" "raw2" "n" 0) (mkUser "u" "bob" "" "user" "write" None false 1 None "")
              r demo_world).2 in
  r_capabilities <$> api_keys (tables (db w)) !! "k2" = Some "[]".
Proof.
  cbv zeta.
  pose proof (non_admin_keys_stay_own 3 (mkFresh "k2" "raw2" "n" 0) (mkUser "u" "bob" "" "user" "write" None false 1 None "")
    (mkRequest "POST" "/api-keys/new" "" "" "" "" "" None {["key_name" := "x"]} ["skills:admin"] "") demo_world
    ltac:(discriminate) "k2" (mkKeyRow "u" "sha:raw2" "x" None 3 None false "[]") ltac:(vm_compute; reflexivity)) as Hk.
  destruct Hk as [Hk|[(k & Hk & _)|Hk]]; [vm_compute in Hk; discriminate..|]. vm_compute. reflexivity.
Defined.

(** ** Theorems: refresh tokens *)
(** a refresh token is single-use only as long as its DELETE works
    and nobody else reads it first: one after the other, the second use fails; but if the
    DELETE fails (its error is dropped) or two requests interleave their SELECTs, the same
    token is accepted twice. *)
Theorem refresh_token_replay : ∀ `{Hashing} now raw t (s : State),
  refresh_tokens s !! hashAPIKey raw = Some t → (now ≤ tExpiresAt t)%Z →
  let use d := OAuth.Consume now raw d in
  (fst (use (healthy s)) = Ok (Some t) ∧ fst (use (snd (use (healthy s)))) = Ok None) ∧
  (let d := mkDb s [false; true] in
   fst (use d) = Ok (Some t) ∧ fst (use (snd (use d))) = Ok (Some t)) ∧
  (let d1 := snd (OAuth.lookup_refresh raw (healthy s)) in
   let d2 := snd (OAuth.lookup_refresh raw d1) in
   fst (OAuth.lookup_refresh raw (healthy s)) = Ok (Some t) ∧ fst (OAuth.lookup_refresh raw d1) = Ok (Some t) ∧
   is_ok (fst (OAuth.delete_refresh raw d2)) = true ∧
   is_ok (fst (OAuth.delete_refresh raw (snd (OAuth.delete_refresh raw d2)))) = true).
Proof.
  intros Hh now raw t s Ht Hn. apply Z.ltb_ge in Hn.
  assert (E1 : ∀ fs, OAuth.Consume now raw (mkDb s (false :: fs)) =
    (Ok (Some t), snd (OAuth.delete_refresh raw (mkDb s fs)))).
  { intros fs. unfold OAuth.Consume, OAuth.lookup_refresh, query, db_bind at 1, attempt at 1, exec. cbn. rewrite Ht, Hn.
    unfold db_bind. rewrite attempt_run. done. }
  assert (E0 : OAuth.Consume now raw (healthy s) =
    (Ok (Some t), healthy (with_refresh s (delete (hashAPIKey raw) (refresh_tokens s))))).
  { unfold OAuth.Consume, OAuth.lookup_refresh, query, db_bind at 1, attempt at 1, exec. cbn. by rewrite Ht, Hn. }
  cbn zeta. split_and!.
  - by rewrite E0.
  - rewrite E0. unfold OAuth.Consume, OAuth.lookup_refresh, query, db_bind at 1, attempt at 1. cbn.
    by rewrite lookup_delete_eq.
  - by rewrite E1.
  - rewrite E1. cbn [snd]. change (snd (OAuth.delete_refresh raw (mkDb s [true]))) with (healthy s). by rewrite E0.
  - unfold OAuth.lookup_refresh, query. rewrite exec_healthy. cbn. by rewrite Ht.
  - unfold OAuth.lookup_refresh, query. rewrite exec_healthy. cbn. by rewrite Ht.
  - done.
  - done.
Qed.

Lemma refresh_token_replay_witness :
  let d := mkDb demo [false; true] in
  fst (OAuth.Consume 5 "ref" (snd (OAuth.Consume 5 "ref" d))) = Ok (Some (mkToken "u" "c" "mcp" "" 100)).
Proof.
  apply (refresh_token_replay 5 "ref" (mkToken "u" "c" "mcp" "" 100) demo); [reflexivity|cbn; lia].
Defined.
