(* ===== verification/Identity.v ===== *)
(** * Invariants of the identity tables

    Every operation of [Users], [Sessions] and the two invite transactions of
    [WebAuth], as a value of [op]; a run of the system is a list of operations on one
    database, with an arbitrary fault pattern.  The constraints of the schema hold
    along every run, a revoked key stays dead and a redeemed invite stays spent. *)
From S2P Require Import Prelude GoStrings Json AccessTiers Profiles Users Sessions WebAuth.

Section Identity.
Context `{Hashing}.

(** ** Operations *)
Inductive op :=
| OCreateUser (id : string) (salt now : Z) (username password role level : string) (profile : option string)
| OUpdateProfile (id : string) (profile : option string)
| OUpdateRole (id role : string)
| OSetPassword (salt : Z) (id password : string)
| OSetMustChangePassword (id : string) (must : bool)
| ODeleteUser (id : string)
| OEnsureAdmin (id : string) (salt now : Z) (password : string)
| ODeleteProfile (id : string)
| OCreateAPIKey (raw id : string) (now : Z) (user name : string) (profile : option string) (caps : list string)
| OValidateAPIKey (now : Z) (raw : string)
| ORevokeAPIKey (id : string)
| OCreateInvite (raw id role level : string) (profile : option string) (by_ : string) (exp : Z)
| ODeleteInvite (id : string)
| OCleanupInvites (now : Z)
| OExchange (now salt : Z) (rawKey keyID userID token username password : string)
| ORedeem (now salt : Z) (userID token username password : string)
| OCreateSession (id user : string) (exp : Z)
| ODeleteSession (id : string)
| ODeleteSessions (user : string)
| OCleanupSessions (now : Z)
| OCreateToken (h user client scope resource : string) (exp : Z)
| OCleanupTokens (now : Z)
| OCreateRefresh (h user client scope resource : string) (exp : Z)
| OConsumeRefresh (now : Z) (raw : string)
| OCleanupRefresh (now : Z)
| OCreateClient (id secret name auth : string) (uris : list string).

Definition discard {A} (m : DBM State A) : DBM State unit := attempt m ;;; db_ret tt.

Definition run_op (o : op) : DBM State unit :=
  match o with
  | OCreateUser id salt now n p r l prof => discard (CreateWithAccessLevel id salt now n p r l prof)
  | OUpdateProfile id p => discard (UpdateProfile id p)
  | OUpdateRole id r => discard (UpdateRole id r)
  | OSetPassword salt id p => discard (SetPassword salt id p)
  | OSetMustChangePassword id b => discard (SetMustChangePassword id b)
  | ODeleteUser id => discard (Users.Delete id)
  | OEnsureAdmin id salt now p => discard (EnsureAdmin id salt now p)
  | ODeleteProfile id => discard (DeleteProfile id)
  | OCreateAPIKey raw id now u n p c => discard (CreateAPIKey raw id now u n p c)
  | OValidateAPIKey now raw => discard (ValidateAPIKey now raw)
  | ORevokeAPIKey id => discard (RevokeAPIKey id)
  | OCreateInvite raw id r l p b e => discard (Invites.CreateAccountInvite raw id r l p b e)
  | ODeleteInvite id => discard (Invites.DeleteInvite id)
  | OCleanupInvites now => discard (Invites.CleanupExpired now)
  | OExchange now salt k kid uid t u p => discard (invite_exchange_tx now salt k kid uid t u p)
  | ORedeem now salt uid t u p => discard (invite_redeem_tx now salt uid t u p)
  | OCreateSession id u e => discard (WebSessions.Create id u e)
  | ODeleteSession id => discard (WebSessions.Delete id)
  | ODeleteSessions u => discard (WebSessions.DeleteByUser u)
  | OCleanupSessions now => discard (WebSessions.Cleanup now)
  | OCreateToken h u c s r e => discard (OAuth.CreateToken h u c s r e)
  | OCleanupTokens now => discard (OAuth.CleanupTokens now)
  | OCreateRefresh h u c s r e => discard (OAuth.CreateRefresh h u c s r e)
  | OConsumeRefresh now raw => discard (OAuth.Consume now raw)
  | OCleanupRefresh now => discard (OAuth.CleanupRefresh now)
  | OCreateClient id s n a uris => discard (OAuth.CreateClient id s n a uris)
  end.

Fixpoint run_ops (l : list op) (d : Db State) : Db State :=
  match l with [] => d | o :: l' => run_ops l' (snd (run_op o d)) end.

Lemma preserves_run_ops (P : State → Prop) l d :
  Forall (λ o, preserves P (run_op o)) l → P (tables d) → P (tables (run_ops l d)).
Proof. intros Hl. revert d. induction Hl as [|o l Ho Hl IH]; intros d Hd; simpl; auto. Qed.

Lemma preserves_discard {A} (P : State → Prop) (m : DBM State A) :
  preserves P m → preserves P (discard m).
Proof. intros Hm. apply preserves_bind; auto with relay. Qed.

Lemma preserves_on_err {A} (P : State → Prop) (m : DBM State A) f :
  preserves P m → preserves P (on_err m f).
Proof. intros Hm d Hd. specialize (Hm d Hd). unfold on_err. by destruct (m d) as [[a|e] d']. Qed.

(** ** The constraints of the schema *)
Definition has_user (s : State) (id : string) : Prop := is_Some (users s !! id).

Definition user_ok (s : State) (id : string) (u : User) : Prop :=
  uID u = id ∧ valid_role (uRole u) = true ∧ Access.valid_tier (uAccessLevel u) = true ∧
  profile_ref s (uDefaultProfileID u) = true.

Definition key_ok (s : State) (k : KeyRow) : Prop :=
  has_user s (r_user_id k) ∧ profile_ref s (r_profile_id k) = true.

Definition valid_status (x : string) : bool := (x =?s "pending") || (x =?s "used") || (x =?s "expired").

Definition invite_ok (s : State) (id : string) (i : InviteToken) : Prop :=
  iID i = id ∧ valid_role (iRole i) = true ∧ Access.valid_tier (iAccessLevel i) = true ∧
  profile_ref s (iProfileID i) = true ∧ has_user s (iCreatedBy i) ∧ valid_status (iStatus i) = true ∧
  match iRedeemedUserID i with None => True | Some u => has_user s u end.

Definition unique_names (m : gmap string User) : Prop :=
  ∀ i j u v, m !! i = Some u → m !! j = Some v → uUsername u = uUsername v → i = j.

Definition unique_hashes (m : gmap string InviteToken) : Prop :=
  ∀ i j a b, m !! i = Some a → m !! j = Some b → iTokenHash a = iTokenHash b → i = j.

Lemma unique_hashes_mono (m m' : gmap string InviteToken) :
  (∀ i a, m' !! i = Some a → ∃ a0, m !! i = Some a0 ∧ iTokenHash a = iTokenHash a0) →
  unique_hashes m → unique_hashes m'.
Proof.
  intros Hm Hu i j a b (a0 & Ha & Ea)%Hm (b0 & Hb & Eb)%Hm E. apply (Hu i j a0 b0); congruence.
Qed.

Record wf (s : State) : Prop := mkWf {
  wf_users : map_Forall (user_ok s) (users s);
  wf_names : unique_names (users s);
  wf_keys : map_Forall (λ _ k, key_ok s k) (api_keys s);
  wf_invites : map_Forall (invite_ok s) (invites s);
  wf_hashes : unique_hashes (invites s);
  wf_sessions : map_Forall (λ _ x, has_user s x.1) (sessions s);
  wf_tokens : map_Forall (λ _ t, has_user s (tUserID t)) (oauth_tokens s);
  wf_refresh : map_Forall (λ _ t, has_user s (tUserID t)) (refresh_tokens s) }.

(** [s'] has at least the users and profiles of [s]. *)
Definition extends (s s' : State) : Prop :=
  (∀ id, has_user s id → has_user s' id) ∧
  (∀ p, profile_ref s p = true → profile_ref s' p = true).

Lemma key_ok_mono s s' k : extends s s' → key_ok s k → key_ok s' k.
Proof. intros [Hu Hp] [? ?]. split; auto. Qed.

Lemma invite_ok_mono s s' id i : extends s s' → invite_ok s id i → invite_ok s' id i.
Proof.
  intros [Hu Hp] (? & ? & ? & ? & ? & ? & ?). split_and!; auto.
  destruct (iRedeemedUserID i); auto.
Qed.

Lemma extends_users s m : (∀ id, has_user s id → is_Some (m !! id)) → extends s (with_users s m).
Proof. intros Hm. by split. Qed.

(** Replacing the user table by one with at least the same ids. *)
Lemma wf_with_users s m :
  wf s → (∀ id, has_user s id → is_Some (m !! id)) → map_Forall (user_ok s) m → unique_names m →
  wf (with_users s m).
Proof.
  intros [Hu Hn Hk Hi Hh Hs Ht Hr] Hm Hok Hun. pose proof (extends_users s m Hm) as He.
  split; cbn; try done.
  - intros i k Hx. eapply key_ok_mono; eauto.
  - intros i k Hx. eapply invite_ok_mono; eauto.
  - intros i x Hx. apply Hm. by apply (Hs i).
  - intros i x Hx. apply Hm. by apply (Ht i).
  - intros i x Hx. apply Hm. by apply (Hr i).
Qed.

(** [UPDATE users ... WHERE id = ?] that keeps the id, the name and the checks. *)
Lemma wf_update_user s id f :
  wf s → (∀ u, users s !! id = Some u → user_ok s id u → user_ok s id (f u)) → (∀ u, uUsername (f u) = uUsername u) →
  wf (update_user id f s).
Proof.
  intros Hw Hf Hnm. apply wf_with_users; [done| | |].
  - intros j Hj. destruct (decide (id = j)) as [->|Hne]; [|by rewrite lookup_alter_ne].
    rewrite lookup_alter_eq. by apply fmap_is_Some.
  - intros j u Hu. destruct (decide (id = j)) as [->|Hne].
    + rewrite lookup_alter_eq in Hu. apply fmap_Some in Hu as (u0 & Hu0 & ->). apply (Hf _ Hu0), (wf_users _ Hw), Hu0.
    + rewrite lookup_alter_ne in Hu by done. by apply (wf_users _ Hw).
  - assert (Ha : ∀ j u, alter f id (users s) !! j = Some u →
      ∃ u0, users s !! j = Some u0 ∧ uUsername u = uUsername u0).
    { intros j u. destruct (decide (id = j)) as [->|Hne].
      - rewrite lookup_alter_eq. intros (u0 & ? & ->)%fmap_Some. eauto.
      - rewrite lookup_alter_ne by done. eauto. }
    intros i j u v (u0 & Hi & Eu)%Ha (v0 & Hj & Ev)%Ha Huv. apply (wf_names _ Hw i j u0 v0); congruence.
Qed.

Lemma wf_insert_user s u :
  wf s → users s !! uID u = None → user_ok s (uID u) u →
  (∀ i v, users s !! i = Some v → uUsername v ≠ uUsername u) →
  wf (with_users s (<[uID u := u]> (users s))).
Proof.
  intros Hw Hfree Hok Hnew. apply wf_with_users; [done| | |].
  - intros j Hj. apply lookup_insert_is_Some'. by right.
  - apply map_Forall_insert_2; [done|apply (wf_users _ Hw)].
  - intros i j v v' Hi Hj E. rewrite lookup_insert_Some in Hi, Hj.
    destruct Hi as [[<- <-]|[Hi Hiv]], Hj as [[<- <-]|[Hj Hjv]]; try done.
    + by destruct (Hnew _ _ Hjv).
    + by destruct (Hnew _ _ Hiv).
    + by apply (wf_names _ Hw i j v v').
Qed.

Lemma insert_user_wf u : preserves wf (insert_user u).
Proof.
  apply preserves_exec. intros s a s' Hw E.
  destruct (negb _) eqn:E1; [done|]. destruct (bool_decide _) eqn:E2; [done|].
  destruct (existsb _ _) eqn:E3; [done|]. destruct (negb (profile_ref _ _)) eqn:E4; [done|].
  simplify_eq. bool_prop. apply eq_None_not_Some in E2. rewrite existsb_map_false in E3.
  apply wf_insert_user; [done..| |].
  - by split_and!.
  - intros i v Hv. specialize (E3 i v Hv). cbn in E3. bool_prop. congruence.
Qed.

Lemma CreateWithAccessLevel_wf id salt now n p r l prof :
  preserves wf (CreateWithAccessLevel id salt now n p r l prof).
Proof.
  unfold CreateWithAccessLevel. destruct (bcrypt_generate salt p); [apply insert_user_wf|apply preserves_fail].
Qed.

Lemma wf_with_keys s m :
  wf s → map_Forall (λ _ k, key_ok s k) m → wf (with_keys s m).
Proof. intros [] Hm. by split. Qed.

Lemma wf_with_invites s m :
  wf s → map_Forall (invite_ok s) m → unique_hashes m → wf (with_invites s m).
Proof. intros [] Hm Hu. by split. Qed.

Lemma wf_with_sessions s m :
  wf s → map_Forall (λ _ x, has_user s x.1) m → wf (with_sessions s m).
Proof. intros [] Hm. by split. Qed.

Lemma wf_with_tokens s m :
  wf s → map_Forall (λ _ t, has_user s (tUserID t)) m → wf (with_tokens s m).
Proof. intros [] Hm. by split. Qed.

Lemma wf_with_refresh s m :
  wf s → map_Forall (λ _ t, has_user s (tUserID t)) m → wf (with_refresh s m).
Proof. intros [] Hm. by split. Qed.

Lemma insert_key_wf id row : preserves wf (insert_key id row).
Proof.
  apply preserves_exec. intros s a s' Hw E.
  destruct (bool_decide _) eqn:E1; [done|]. destruct (negb _) eqn:E2; [done|]. simplify_eq. bool_prop.
  apply wf_with_keys; [done|]. apply map_Forall_insert_2; [by split|apply (wf_keys _ Hw)].
Qed.

(** Rewriting every key without touching its references. *)
Lemma wf_fmap_keys s f :
  wf s → (∀ k, r_user_id (f k) = r_user_id k ∧ r_profile_id (f k) = r_profile_id k) →
  wf (with_keys s (f <$> api_keys s)).
Proof.
  intros Hw Hf. apply wf_with_keys; [done|]. intros i k. rewrite lookup_fmap. intros (k0 & Hk & ->)%fmap_Some.
  destruct (Hf k0) as [E1 E2]. unfold key_ok. rewrite E1, E2. by apply (wf_keys _ Hw i).
Qed.

Lemma wf_fmap_invites s f :
  wf s → (∀ id i, invite_ok s id i → invite_ok s id (f i)) → (∀ i, iTokenHash (f i) = iTokenHash i) →
  wf (with_invites s (f <$> invites s)).
Proof.
  intros Hw Hf Hh. apply wf_with_invites; [done| |].
  - intros i k. rewrite lookup_fmap. intros (k0 & Hk & ->)%fmap_Some. by apply Hf, (wf_invites _ Hw).
  - apply (unique_hashes_mono (invites s)); [|apply (wf_hashes _ Hw)].
    intros i k. rewrite lookup_fmap. intros (k0 & Hk & ->)%fmap_Some. eauto.
Qed.
Lemma UpdateProfile_wf id p : preserves wf (UpdateProfile id p).
Proof.
  apply preserves_exec. intros s a s' Hw E. destruct (negb _ && _) eqn:E1; [done|]. simplify_eq.
  apply wf_update_user; [done| |done]. intros u Hu (? & ? & ? & _). split_and!; try done. cbn.
  rewrite Hu in E1. destruct (profile_ref s p); [done|]. by cbn in E1.
Qed.

Lemma UpdateRole_wf id r : preserves wf (UpdateRole id r).
Proof.
  apply preserves_bind.
  - apply preserves_attempt, preserves_exec. intros s a s' Hw E. destruct (negb _ && _) eqn:E1; [done|]. simplify_eq.
    apply wf_update_user; [done| |done]. intros u Hu (? & ? & ? & ?). split_and!; try done. cbn.
    rewrite Hu in E1. destruct (valid_role r); [done|]. by cbn in E1.
  - intros res. apply preserves_bind.
    + destruct (r =?s "admin"); [|apply preserves_ret]. apply preserves_attempt, preserves_update. intros s Hw.
      apply wf_update_user; [done| |done]. intros u Hu (? & ? & ? & ?). by split_and!.
    + intros _. destruct res; [apply preserves_ret|apply preserves_fail].
Qed.

Lemma set_password_wf id f must : preserves wf (update (update_user id (λ u, set_password (f u) (must u) u))).
Proof. apply preserves_update. intros s Hw. by apply wf_update_user. Qed.

Lemma EnsureAdmin_wf id salt now p : preserves wf (EnsureAdmin id salt now p).
Proof.
  apply preserves_bind; [apply preserves_query|]. intros n. case_if.
  - apply preserves_bind; [|intros; apply preserves_ret]. apply preserves_attempt, preserves_update. intros s Hw.
    assert (Hn : ∀ u, uUsername (raise_admin u) = uUsername u) by (intros u; unfold raise_admin; by case_if).
    apply wf_with_users; [done| | |].
    + intros j Hj. rewrite lookup_fmap. by apply fmap_is_Some.
    + intros j u. rewrite lookup_fmap. intros (u0 & Hu0 & ->)%fmap_Some.
      destruct (wf_users _ Hw _ _ Hu0) as (? & ? & ? & ?). unfold raise_admin. case_if; by split_and!.
    + intros i j u v. rewrite !lookup_fmap. intros (u0 & Hu & ->)%fmap_Some (v0 & Hv & ->)%fmap_Some.
      rewrite !Hn. by apply (wf_names _ Hw).
  - apply preserves_bind; [apply CreateWithAccessLevel_wf|intros; apply preserves_ret].
Qed.

Lemma delete_user_wf id : preserves wf (Users.Delete id).
Proof.
  apply preserves_exec. intros s a s' Hw E. destruct (bool_decide _ && _) eqn:E1; [done|]. simplify_eq.
  assert (Hcb : ∀ j i, invites s !! j = Some i → iCreatedBy i ≠ id).
  { intros j i Hi. destruct (bool_decide (is_Some (users s !! id))) eqn:E2; cbn in E1.
    - rewrite existsb_map_false in E1. specialize (E1 j i Hi). cbn in E1. bool_prop. done.
    - bool_prop. intros <-. apply E2. by apply (wf_invites _ Hw j). }
  assert (Hkeep : ∀ x, has_user s x → x ≠ id → has_user (delete_user id s) x).
  { intros x Hx Hne. unfold has_user, delete_user. cbn. by rewrite lookup_delete_ne. }
  split; cbn.
  - intros i u [_ Hu]%lookup_delete_Some. by apply (wf_users _ Hw).
  - intros i j u v [_ Hu]%lookup_delete_Some [_ Hv]%lookup_delete_Some. by apply (wf_names _ Hw).
  - intros i k [Hk Hne]%map_lookup_filter_Some. destruct (wf_keys _ Hw _ _ Hk). split; auto.
  - intros j i. rewrite lookup_fmap. intros (i0 & Hi & ->)%fmap_Some.
    destruct (wf_invites _ Hw _ _ Hi) as (? & ? & ? & ? & ? & ? & Hr). split_and!; try done.
    + apply Hkeep; [done|]. exact (Hcb j i0 Hi).
    + cbn. destruct (bool_decide (iRedeemedUserID i0 = _)) eqn:Hb; [exact I|]. bool_prop. destruct (iRedeemedUserID i0); [|done]. apply Hkeep; congruence.
  - apply (unique_hashes_mono (invites s)); [|apply (wf_hashes _ Hw)].
    intros i k. rewrite lookup_fmap. intros (k0 & Hk & ->)%fmap_Some. eauto.
  - intros i x [Hx Hne]%map_lookup_filter_Some. apply Hkeep; [by apply (wf_sessions _ Hw i)|done].
  - intros i x [Hx Hne]%map_lookup_filter_Some. apply Hkeep; [by apply (wf_tokens _ Hw i)|done].
  - intros i x [Hx Hne]%map_lookup_filter_Some. apply Hkeep; [by apply (wf_refresh _ Hw i)|done].
Qed.

Lemma profile_ref_cleared s s' id p :
  (∀ j, j ≠ id → agent_profiles (profiles s') !! j = agent_profiles (profiles s) !! j) →
  profile_ref s p = true → profile_ref s' (clear_ref id p) = true.
Proof.
  intros Hj Hp. unfold clear_ref. case_bool_decide as E; [done|]. destruct p as [j|]; [|done]. cbn in *.
  rewrite Hj by congruence. done.
Qed.

Lemma DeleteProfile_wf id : preserves wf (DeleteProfile id).
Proof.
  apply preserves_update. intros s Hw.
  assert (Hp : ∀ p, profile_ref s p = true → profile_ref (delete_profile id s) (clear_ref id p) = true).
  { intros p. apply profile_ref_cleared. intros j Hj. cbn. by rewrite lookup_delete_ne. }
  assert (Hu : ∀ x, has_user s x → has_user (delete_profile id s) x).
  { intros x Hx. unfold has_user. cbn. rewrite lookup_fmap. by apply fmap_is_Some. }
  split; cbn.
  - intros i u. rewrite lookup_fmap. intros (u0 & Hu0 & ->)%fmap_Some.
    destruct (wf_users _ Hw _ _ Hu0) as (? & ? & ? & ?). split_and!; try done. by apply Hp.
  - intros i j u v. rewrite !lookup_fmap. intros (u0 & Hu0 & ->)%fmap_Some (v0 & Hv0 & ->)%fmap_Some.
    exact (wf_names _ Hw i j u0 v0 Hu0 Hv0).
  - intros i k. rewrite lookup_fmap. intros (k0 & Hk & ->)%fmap_Some.
    destruct (wf_keys _ Hw _ _ Hk). split; [by apply Hu|by apply Hp].
  - intros i k. rewrite lookup_fmap. intros (k0 & Hk & ->)%fmap_Some.
    destruct (wf_invites _ Hw _ _ Hk) as (? & ? & ? & ? & ? & ? & ?). split_and!; try done; [by apply Hp|by apply Hu|].
    cbn. destruct (iRedeemedUserID k0); auto.
  - apply (unique_hashes_mono (invites s)); [|apply (wf_hashes _ Hw)].
    intros i k. rewrite lookup_fmap. intros (k0 & Hk & ->)%fmap_Some. eauto.
  - intros i x Hx. by apply Hu, (wf_sessions _ Hw i).
  - intros i x Hx. by apply Hu, (wf_tokens _ Hw i).
  - intros i x Hx. by apply Hu, (wf_refresh _ Hw i).
Qed.

Lemma insert_invite_wf t : iRedeemedUserID t = None → valid_status (iStatus t) = true →
  preserves wf (Invites.insert_invite t).
Proof.
  intros Hr Hst. apply preserves_exec. intros s a s' Hw E.
  destruct (negb _) eqn:E1; [done|]. destruct (_ || _) eqn:E2; [done|]. destruct (negb (_ && _)) eqn:E3 in E; [done|].
  simplify_eq. bool_prop. rewrite existsb_map_false in H1. apply wf_with_invites; [done| |].
  - apply map_Forall_insert_2; [|apply (wf_invites _ Hw)]. split_and!; try done. by rewrite Hr.
  - intros i j a b Hi Hj Eab. rewrite lookup_insert_Some in Hi, Hj.
    destruct Hi as [[<- <-]|[Hi Hia]], Hj as [[<- <-]|[Hj Hjb]]; try done.
    + specialize (H1 _ _ Hjb). cbn in H1. bool_prop. congruence.
    + specialize (H1 _ _ Hia). cbn in H1. bool_prop. congruence.
    + by apply (wf_hashes _ Hw i j a b).
Qed.

Lemma ValidateAndConsume_wf now tok : preserves wf (Invites.ValidateAndConsumeTx now tok).
Proof.
  apply preserves_bind.
  - apply preserves_exec. intros s a s' Hw E. cbn in E. simplify_eq. apply wf_fmap_invites; [done| |].
    + intros id i Hi. case_if; [|done]. by destruct Hi as (? & ? & ? & ? & ? & ? & ?).
    + intros i. by case_if.
  - intros n. case_if; [apply preserves_ret|]. apply preserves_bind.
    + apply preserves_exec. intros s a s' Hw E. destruct (List.find _ _) as [[? ?]|]; by simplify_eq.
    + intros t. case_if; apply preserves_ret.
Qed.

Lemma SetRedeemedUser_wf tid uid : preserves wf (Invites.SetRedeemedUserTx tid uid).
Proof.
  apply preserves_exec. intros s a s' Hw E. destruct (bool_decide _ && _) eqn:E1; [done|]. simplify_eq.
  apply wf_with_invites; [done| |].
  - intros j i. destruct (decide (tid = j)) as [->|Hne]; [|rewrite lookup_alter_ne by done; apply (wf_invites _ Hw)].
    rewrite lookup_alter_eq. intros (i0 & Hi & ->)%fmap_Some. rewrite Hi in E1. bool_prop.
    rewrite bool_decide_true in E1 by done. destruct E1 as [|E1]; [done|]. bool_prop.
    destruct (wf_invites _ Hw _ _ Hi) as (? & ? & ? & ? & ? & ? & ?). by split_and!.
  - apply (unique_hashes_mono (invites s)); [|apply (wf_hashes _ Hw)].
    intros j i. destruct (decide (tid = j)) as [->|Hne]; [|rewrite lookup_alter_ne by done; eauto].
    rewrite lookup_alter_eq. intros (i0 & Hi & ->)%fmap_Some. eauto.
Qed.

Lemma CreateAPIKey_wf raw id now u n p c : preserves wf (CreateAPIKey raw id now u n p c).
Proof. apply preserves_bind; [apply insert_key_wf|intros; apply preserves_ret]. Qed.

Lemma exchange_wf now salt k kid uid t u p : preserves wf (invite_exchange_tx now salt k kid uid t u p).
Proof.
  apply preserves_transact, preserves_bind; [apply preserves_on_err, ValidateAndConsume_wf|].
  intros [inv|]; [|apply preserves_fail]. apply preserves_bind; [apply preserves_on_err, CreateWithAccessLevel_wf|].
  intros user. apply preserves_bind; [apply preserves_on_err, CreateAPIKey_wf|].
  intros _. apply preserves_bind; [apply preserves_attempt, SetRedeemedUser_wf|]. intros; apply preserves_ret.
Qed.

Lemma redeem_wf now salt uid t u p : preserves wf (invite_redeem_tx now salt uid t u p).
Proof.
  apply preserves_transact, preserves_bind; [apply preserves_on_err, ValidateAndConsume_wf|].
  intros [inv|]; [|apply preserves_fail]. apply preserves_bind; [apply preserves_on_err, CreateWithAccessLevel_wf|].
  intros user. apply preserves_bind; [apply preserves_attempt, SetRedeemedUser_wf|]. intros; apply preserves_ret.
Qed.
(** Decompose a program into its statements; what is left are the statements that
    change the tables. *)
Ltac statements :=
  repeat first
  [ apply preserves_discard | apply preserves_transact | apply preserves_on_err | apply preserves_attempt
  | apply preserves_ret | apply preserves_fail | apply preserves_query
  | apply preserves_bind; [|intros ?]
  | match goal with
    | |- preserves _ (match ?x with _ => _ end) => destruct x
    | |- preserves _ (if ?b then _ else _) => destruct b
    end ].

(** A statement whose effect, when it has one, is an equation. *)
Ltac effect :=
  first [apply preserves_update; intros ? HP
        |apply preserves_exec; intros ? ? ? HP E; cbn in E; repeat (case_match; simplify_eq/=)].

Lemma run_op_wf o : preserves wf (run_op o).
Proof.
  destruct o; cbn [run_op]; apply preserves_discard;
    auto using CreateWithAccessLevel_wf, UpdateProfile_wf, UpdateRole_wf, delete_user_wf, EnsureAdmin_wf,
      DeleteProfile_wf, CreateAPIKey_wf, exchange_wf, redeem_wf.
  - unfold SetPassword. destruct (bcrypt_generate _ _); [|apply preserves_fail].
    apply (set_password_wf _ (λ _, a) (λ _, false)).
  - apply (set_password_wf _ uPasswordHash (λ _, must)).
  - unfold ValidateAPIKey, Users.Get. statements. apply preserves_update. intros st Hw. apply wf_fmap_keys; [done|].
    intros k0. by case_if.
  - apply preserves_update. intros st Hw. apply wf_with_keys; [done|]. intros j k.
    destruct (decide (id = j)) as [->|Hne].
    + rewrite lookup_alter_eq. intros (k0 & Hk & ->)%fmap_Some. exact (wf_keys _ Hw j k0 Hk).
    + rewrite lookup_alter_ne by done. apply (wf_keys _ Hw).
  - apply preserves_bind; [by apply insert_invite_wf|intros; apply preserves_ret].
  - apply preserves_update. intros st Hw. apply wf_with_invites; [done|apply map_Forall_delete, (wf_invites _ Hw)|].
    apply (unique_hashes_mono (invites st)); [|apply (wf_hashes _ Hw)].
    intros i k [_ Hk]%lookup_delete_Some. eauto.
  - apply preserves_update. intros st Hw. apply wf_fmap_invites; [done| |];
      [intros j i Hi|intros i]; unfold Invites.expire; case_if; try done.
    by destruct Hi as (? & ? & ? & ? & ? & ? & ?).
  - apply preserves_exec. intros st a st' Hw E. repeat (case_if; try done). simplify_eq. bool_prop.
    apply wf_with_sessions; [done|]. apply map_Forall_insert_2; [done|apply (wf_sessions _ Hw)].
  - unfold WebSessions.Delete. statements. apply preserves_update. intros st Hw.
    apply wf_with_sessions; [done|]. apply map_Forall_delete, (wf_sessions _ Hw).
  - unfold WebSessions.DeleteByUser. statements. apply preserves_update. intros st Hw.
    apply wf_with_sessions; [done|]. intros i x [Hx _]%map_lookup_filter_Some. exact (wf_sessions _ Hw i x Hx).
  - unfold WebSessions.Cleanup. statements. apply preserves_update. intros st Hw.
    apply wf_with_sessions; [done|]. intros i x [Hx _]%map_lookup_filter_Some. exact (wf_sessions _ Hw i x Hx).
  - apply preserves_exec. intros st a st' Hw E. unfold OAuth.insert_token in E. destruct (_ || _) eqn:E1; [done|].
    simplify_eq. bool_prop. apply wf_with_tokens; [done|]. apply map_Forall_insert_2; [done|apply (wf_tokens _ Hw)].
  - unfold OAuth.CleanupTokens. statements. apply preserves_update. intros st Hw.
    apply wf_with_tokens; [done|]. intros i x [Hx _]%map_lookup_filter_Some. exact (wf_tokens _ Hw i x Hx).
  - apply preserves_exec. intros st a st' Hw E. unfold OAuth.insert_token in E. destruct (_ || _) eqn:E1; [done|].
    simplify_eq. bool_prop. apply wf_with_refresh; [done|]. apply map_Forall_insert_2; [done|apply (wf_refresh _ Hw)].
  - unfold OAuth.Consume, OAuth.delete_refresh, OAuth.lookup_refresh. statements; apply preserves_update; intros st Hw;
      (apply wf_with_refresh; [done|]; apply map_Forall_delete, (wf_refresh _ Hw)).
  - unfold OAuth.CleanupRefresh. statements. apply preserves_update. intros st Hw.
    apply wf_with_refresh; [done|]. intros i x [Hx _]%map_lookup_filter_Some. exact (wf_refresh _ Hw i x Hx).
  - apply preserves_exec. intros st a st' Hw E. case_if; [done|]. simplify_eq. by destruct Hw.
Qed.

(** ** Revoked keys *)

(** The operation does not issue a key with the hash again. *)
Definition issues_key (h : string) (o : op) : bool :=
  match o with
  | OCreateAPIKey raw _ _ _ _ _ _ => hashAPIKey raw =?s h
  | OExchange _ _ rawKey _ _ _ _ _ => hashAPIKey rawKey =?s h
  | _ => false
  end.

Lemma insert_key_dead h id row : r_key_hash row ≠ h → preserves (dead_key h) (insert_key id row).
Proof.
  intros Hne. apply preserves_exec. intros s a s' Hd E.
  destruct (bool_decide _); [done|]. destruct (negb _); [done|]. simplify_eq.
  apply map_Forall_insert_2; [by intros ?|done].
Qed.

Lemma dead_fmap h s f :
  (∀ k, r_key_hash (f k) = r_key_hash k ∧ r_revoked (f k) = r_revoked k) →
  dead_key h s → map_Forall (λ _ k, r_key_hash k = h → r_revoked k = true) (f <$> api_keys s).
Proof.
  intros Hf Hd i k. rewrite lookup_fmap. intros (k0 & Hk & ->)%fmap_Some. destruct (Hf k0) as [-> ->].
  by apply (Hd i).
Qed.

Lemma run_op_dead h o : issues_key h o = false → preserves (dead_key h) (run_op o).
Proof.
  destruct o; cbn [run_op issues_key]; intros Hi; apply preserves_discard.
  all: unfold CreateWithAccessLevel, insert_user, UpdateProfile, UpdateRole, SetPassword, SetMustChangePassword,
    EnsureAdmin, Create, Invites.CreateAccountInvite, Invites.DeleteInvite, Invites.CleanupExpired,
    WebSessions.Create, WebSessions.Delete, WebSessions.DeleteByUser, WebSessions.Cleanup,
    OAuth.CreateToken, OAuth.CleanupTokens, OAuth.CreateRefresh, OAuth.Consume, OAuth.CleanupRefresh,
    OAuth.CreateClient, OAuth.delete_refresh, OAuth.lookup_refresh,
    invite_exchange_tx, invite_redeem_tx, CreateWithAccessLevelTx, CreateWithAccessLevel, insert_user,
    CreateAPIKeyTx, CreateAPIKey, Invites.ValidateAndConsumeTx, Invites.SetRedeemedUserTx, Invites.insert_invite,
    ValidateAPIKey, Users.Get, DeleteProfile, RevokeAPIKey; statements.
  all: bool_prop; try by apply insert_key_dead.
  all: try by (effect; done).
  - (* a deleted user's keys are dropped *)
    effect. intros i x [Hx _]%map_lookup_filter_Some. by apply (HP i).
  - (* profile references are cleared *)
    effect. by apply dead_fmap.
  - (* last_used *)
    effect. apply dead_fmap; [|done]. intros k0. by case_if.
  - (* revoke *)
    effect. intros j k. cbn. destruct (decide (id = j)) as [->|Hne].
    + rewrite lookup_alter_eq. by intros (k0 & Hk & ->)%fmap_Some.
    + rewrite lookup_alter_ne by done. apply HP.
  - apply preserves_exec. intros st a st' Hd E. unfold Invites.consume in E. by simplify_eq.
  - apply preserves_exec. intros st a st' Hd E. unfold Invites.consume in E. by simplify_eq.
Qed.
(** ** Redeemed invites *)

(** No redeemable invite has the hash. *)
Definition spent (h : string) (s : State) : Prop :=
  map_Forall (λ _ i, iTokenHash i = h → iStatus i ≠ "pending") (invites s).

Definition issues_invite (h : string) (o : op) : bool :=
  match o with OCreateInvite raw _ _ _ _ _ _ => Invites.hashInviteToken raw =?s h | _ => false end.

Lemma spent_fmap h s f :
  (∀ i, iTokenHash (f i) = iTokenHash i ∧ (iStatus (f i) = "pending" → iStatus i = "pending")) →
  spent h s → map_Forall (λ _ i, iTokenHash i = h → iStatus i ≠ "pending") (f <$> invites s).
Proof.
  intros Hf Hs j i. rewrite lookup_fmap. intros (i0 & Hi & ->)%fmap_Some. destruct (Hf i0) as [-> Hst].
  intros Hh Hp. by apply (Hs _ _ Hi Hh), Hst.
Qed.

Lemma consume_spent now h h' n s s' : Invites.consume now h' s = (n, s') → spent h s → spent h s'.
Proof.
  unfold Invites.consume. intros E Hs. simplify_eq. apply spent_fmap; [|done].
  intros i. by case_if.
Qed.

Lemma consume_keeps_spent h now h' :
  preserves (spent h) (exec (λ s, Ok (Invites.consume now h' s))).
Proof. apply preserves_exec. intros s a s' Hs E. inversion E. subst. by apply (consume_spent now h h' _ s _ eq_refl). Qed.

Lemma set_redeemer_spent h tid uid : preserves (spent h) (Invites.SetRedeemedUserTx tid uid).
Proof.
  apply preserves_exec. intros s a s' Hs E. destruct (bool_decide _ && _); [done|]. simplify_eq.
  intros j i. cbn. destruct (decide (tid = j)) as [->|Hne].
  - rewrite lookup_alter_eq. intros (i0 & Hi & ->)%fmap_Some. exact (Hs _ _ Hi).
  - rewrite lookup_alter_ne by done. apply Hs.
Qed.

Lemma run_op_spent h o : issues_invite h o = false → preserves (spent h) (run_op o).
Proof.
  destruct o; cbn [run_op issues_invite]; intros Hi; apply preserves_discard.
  all: unfold CreateWithAccessLevel, insert_user, UpdateProfile, UpdateRole, SetPassword, SetMustChangePassword,
    EnsureAdmin, Create, Invites.CreateAccountInvite, Invites.DeleteInvite, Invites.CleanupExpired,
    WebSessions.Create, WebSessions.Delete, WebSessions.DeleteByUser, WebSessions.Cleanup,
    OAuth.CreateToken, OAuth.CleanupTokens, OAuth.CreateRefresh, OAuth.Consume, OAuth.CleanupRefresh,
    OAuth.CreateClient, OAuth.delete_refresh, OAuth.lookup_refresh,
    invite_exchange_tx, invite_redeem_tx, CreateWithAccessLevelTx, CreateWithAccessLevel, insert_user,
    CreateAPIKeyTx, CreateAPIKey, insert_key, Invites.ValidateAndConsumeTx,
    ValidateAPIKey, Users.Get, DeleteProfile, RevokeAPIKey; statements.
  all: bool_prop; try apply set_redeemer_spent; try apply consume_keeps_spent; try by (effect; done).
  - effect. by apply spent_fmap.
  - effect. by apply spent_fmap.
  - apply preserves_exec. intros st a st' Hs E. destruct (negb _); [done|]. destruct (_ || _); [done|].
    destruct (negb (_ && _)); [done|]. simplify_eq. by apply map_Forall_insert_2.
  - effect. by apply map_Forall_delete.
  - effect. apply spent_fmap; [|done]. intros i. unfold Invites.expire. by case_if.
Qed.

(** Consuming a spent token finds nothing. *)
Lemma consume_spent_none now h s : spent h s → (Invites.consume now h s).1 = 0%nat.
Proof.
  intros Hs. cbn. destruct (List.filter _ _) as [|[j i] l] eqn:E; [done|]. exfalso.
  assert (Hin : In (j, i) (List.filter (λ '(_, i), Invites.usable now h i) (map_to_list (invites s)))).
  { rewrite E. by left. }
  apply filter_In in Hin as [Hin Hu]. apply list_elem_of_In, elem_of_map_to_list in Hin.
  unfold Invites.usable in Hu. bool_prop. by apply (Hs _ _ Hin).
Qed.

Lemma spent_not_consumed now tok d : spent (Invites.hashInviteToken tok) (tables d) →
  ∀ r, fst (Invites.ValidateAndConsumeTx now tok d) = Ok r → r = None.
Proof.
  intros Hs r. unfold Invites.ValidateAndConsumeTx, db_bind at 1, exec.
  destruct (next_fault (faults d)) as [[] fs]; [done|].
  pose proof (consume_spent_none now _ _ Hs) as Hn. destruct (Invites.consume _ _ _) as [n st]. cbn in Hn |- *.
  rewrite Hn. cbn. by intros [= <-].
Qed.

(** ** What a successful redemption did *)

Lemma usable_exists now h s : (Invites.consume now h s).1 ≠ 0%nat →
  ∃ j i, invites s !! j = Some i ∧ Invites.usable now h i = true.
Proof.
  cbn. intros Hn. destruct (List.filter _ _) as [|[j i] l] eqn:E; [done|]. exists j, i.
  assert (Hin : In (j, i) ((j, i) :: l)) by (by left). rewrite <- E in Hin.
  apply filter_In in Hin as [Hin Hu]. by apply list_elem_of_In, elem_of_map_to_list in Hin.
Qed.

Lemma usable_hash now h i : Invites.usable now h i = true → iTokenHash i = h.
Proof. unfold Invites.usable. intros Hu. by bool_prop. Qed.

Lemma consume_ok now tok d t d' :
  wf (tables d) → Invites.ValidateAndConsumeTx now tok d = (Ok (Some t), d') →
  let h := Invites.hashInviteToken tok in
  ∃ j i, invites (tables d) !! j = Some i ∧ Invites.usable now h i = true ∧ t = Invites.mark_used now i ∧
         tables d' = (Invites.consume now h (tables d)).2 ∧ spent h (tables d').
Proof.
  intros Hw (n & d1 & E1 & E2)%bind_ok h. apply exec_ok in E1. fold h in E1, E2.
  assert (En : n = (Invites.consume now h (tables d)).1 ∧ tables d1 = (Invites.consume now h (tables d)).2).
  { inversion E1. done. }
  destruct En as [-> Ht1]. destruct (_ =? 0)%nat eqn:En in E2; [done|]. bool_prop.
  apply usable_exists in En as (j & i & Hi & Hu). pose proof (usable_hash _ _ _ Hu) as Hh.
  apply bind_ok in E2 as (t0 & d2 & E2 & E3). apply exec_ok in E2.
  destruct (List.find _ _) as [[j' t1]|] eqn:Ef in E2; [|done]. injection E2 as -> Ht2.
  apply find_map_Some in Ef as [Hj' Hh']. bool_prop. rewrite Hh', String.eqb_refl in E3. injection E3 as -> ->.
  rewrite Ht1 in Hj'. cbn in Hj'. rewrite lookup_fmap in Hj'. apply fmap_Some in Hj' as (i' & Hi' & Et).
  assert (j' = j) as ->.
  { apply (wf_hashes _ Hw _ _ _ _ Hi' Hi). rewrite Hh, <- Hh', Et. by case_if. }
  assert (i' = i) as -> by congruence. rewrite Hu in Et. exists j, i. split_and!; try done; [congruence|].
  rewrite <- Ht2, Ht1. intros j2 i2. cbn. rewrite lookup_fmap. intros (i0 & Hi0 & ->)%fmap_Some Hh2.
  assert (iTokenHash i0 = h) as Hh0 by (revert Hh2; by case_if).
  assert (j2 = j) as -> by (apply (wf_hashes _ Hw _ _ _ _ Hi0 Hi); congruence).
  assert (i0 = i) as -> by congruence. by rewrite Hu.
Qed.

Lemma on_err_ok {A} (m : DBM State A) f d a d' : on_err m f d = (Ok a, d') → m d = (Ok a, d').
Proof. unfold on_err. destruct (m d) as [[]]; congruence. Qed.

Lemma create_user_ok id salt now n p r l prof d u d' :
  CreateWithAccessLevel id salt now n p r l prof d = (Ok u, d') →
  users (tables d) !! id = None ∧
  ∃ hash, bcrypt_generate salt p = Ok hash ∧ u = mkUser id n hash r (forced_level r l) prof false now None "" ∧
          tables d' = with_users (tables d) (<[id := u]> (users (tables d))).
Proof.
  unfold CreateWithAccessLevel. destruct (bcrypt_generate salt p) as [hash|]; [|done].
  intros E%exec_ok. destruct (negb _); [done|]. destruct (bool_decide _) eqn:E2; [done|].
  destruct (existsb _ _); [done|]. destruct (negb _); [done|]. injection E as <- <-. bool_prop.
  apply eq_None_not_Some in E2. cbn in E2. eauto.
Qed.

Lemma create_key_ok raw id now u n p c d r d' :
  CreateAPIKey raw id now u n p c d = (Ok r, d') →
  r.1 = raw ∧ api_keys (tables d) !! id = None ∧
  tables d' = with_keys (tables d) (<[id := mkKeyRow u (hashAPIKey raw) n p now None false
    (marshalCapabilities (normalizeCapabilities c))]> (api_keys (tables d))).
Proof.
  intros (x & d1 & E & [= <- <-])%bind_ok. apply exec_ok in E.
  destruct (bool_decide _) eqn:E2; [done|]. destruct (negb _); [done|]. injection E as _ <-. bool_prop.
  by apply eq_None_not_Some in E2.
Qed.

(** Recording the redeemer touches only the invites. *)
Lemma set_redeemer_frame tid uid d :
  let d' := snd (Invites.SetRedeemedUserTx tid uid d) in
  users (tables d') = users (tables d) ∧ api_keys (tables d') = api_keys (tables d).
Proof.
  unfold Invites.SetRedeemedUserTx. cbn zeta. match goal with |- context [exec ?f d] =>
    destruct (exec_cases f d) as [(e & _ & ->)|(a & t & E & _ & ->)]; [done|] end.
  destruct (bool_decide _ && _); [done|]. by injection E as _ <-.
Qed.
(** The account an invite stands for. *)
Definition account (i : InviteToken) (uid username hash : string) (now : Z) : User :=
  mkUser uid username hash (iRole i) (forced_level (iRole i) (iAccessLevel i)) (iProfileID i) false now None "".

Lemma exchange_ok now salt rawKey kid uid tok username pw d key :
  wf (tables d) → outcome (invite_exchange_tx now salt rawKey kid uid tok username pw) d = Ok key →
  let s' := final (invite_exchange_tx now salt rawKey kid uid tok username pw) d in
  key = rawKey ∧ spent (Invites.hashInviteToken tok) s' ∧
  ∃ j i hash, invites (tables d) !! j = Some i ∧ Invites.usable now (Invites.hashInviteToken tok) i = true ∧
    bcrypt_generate salt pw = Ok hash ∧ users (tables d) !! uid = None ∧
    users s' = <[uid := account i uid username hash now]> (users (tables d)) ∧
    api_keys s' = <[kid := mkKeyRow uid (hashAPIKey rawKey) "arc-sync invite" (iProfileID i) now None false "[]"]>
                    (api_keys (tables d)).
Proof.
  intros Hw Ho s'. destruct (transact_ok _ _ _ Ho) as (fs & d1 & Hb & Hs'). unfold s', final, invite_exchange_tx.
  rewrite Hs'. clear Hs' s'. apply bind_ok in Hb as ([inv|] & d2 & E1%on_err_ok & Hb); [|done].
  apply consume_ok in E1 as (j & i & Hi & Hu & -> & Ht2 & Hsp); [|done].
  apply bind_ok in Hb as (u & d3 & E2%on_err_ok & Hb). apply create_user_ok in E2 as (Hfree & hash & Hg & -> & Ht3).
  apply bind_ok in Hb as (k & d4 & E3%on_err_ok & Hb). apply create_key_ok in E3 as (_ & _ & Ht4).
  apply bind_ok in Hb as (r & d5 & E4 & [= -> ->]).
  set (tid := iID (Invites.mark_used now i)) in *.
  assert (Hd5 : d1 = snd (Invites.SetRedeemedUserTx tid uid d4)).
  { rewrite attempt_run in E4. by injection E4 as _ E4. }
  pose proof (set_redeemer_frame tid uid d4) as [Fu Fk]. rewrite <- Hd5 in Fu, Fk.
  pose proof (set_redeemer_spent (Invites.hashInviteToken tok) tid uid d4) as Hsp'. rewrite <- Hd5 in Hsp'.
  split; [done|]. split; [apply Hsp'; by rewrite Ht4, Ht3|].
  exists j, i, hash. rewrite Fu, Fk, Ht4, Ht3, Ht2. cbn -[marshalCapabilities normalizeCapabilities].
  rewrite Ht2 in Hfree. by split_and!.
Qed.

(** redeeming an invite is all or nothing under any fault: an
    error answer leaves every table as it was (the token stays usable); a success
    created exactly one account with the role, level and profile of a pending unexpired
    invite and one key of that account, and spent the token. *)
Theorem invite_exchange_atomic : ∀ now salt rawKey kid uid tok username pw (d : Db State),
  wf (tables d) →
  let s' := final (invite_exchange_tx now salt rawKey kid uid tok username pw) d in
  match outcome (invite_exchange_tx now salt rawKey kid uid tok username pw) d with
  | Err _ => s' = tables d
  | Ok key =>
      key = rawKey ∧ spent (Invites.hashInviteToken tok) s' ∧
      ∃ j i hash, invites (tables d) !! j = Some i ∧ Invites.usable now (Invites.hashInviteToken tok) i = true ∧
        bcrypt_generate salt pw = Ok hash ∧ users (tables d) !! uid = None ∧
        users s' = <[uid := account i uid username hash now]> (users (tables d)) ∧
        api_keys s' = <[kid := mkKeyRow uid (hashAPIKey rawKey) "arc-sync invite" (iProfileID i) now None false "[]"]>
                        (api_keys (tables d))
  end.
Proof.
  intros now salt rawKey kid uid tok username pw d Hw s'.
  destruct (outcome (invite_exchange_tx now salt rawKey kid uid tok username pw) d) as [key|e] eqn:E.
  - by apply exchange_ok.
  - by apply (transact_atomic _ _ e).
Qed.

Lemma spent_refused {B} now tok f (k : InviteToken → DBM State B) e d :
  spent (Invites.hashInviteToken tok) (tables d) →
  is_ok (fst (transact (let! inv := on_err (Invites.ValidateAndConsumeTx now tok) f in
    match inv with None => db_fail e | Some i => k i end) d)) = false.
Proof.
  intros Hs. destruct (fst (transact _ d)) as [b|] eqn:E; [|done]. exfalso.
  destruct (transact_ok _ _ _ E) as (fs & d1 & ([i|] & d2 & E1%on_err_ok & Hb)%bind_ok & _); [|done].
  pose proof (spent_not_consumed now tok (mkDb (tables d) fs) Hs (Some i)) as Hn. rewrite E1 in Hn.
  by specialize (Hn eq_refl).
Qed.

(** The two ways to redeem an invite: the key exchange of the command line and the form. *)
Inductive Way :=
| ByClient (now salt : Z) (rawKey keyID userID username password : string)
| ByBrowser (now salt : Z) (userID username password : string).

Definition redeem_by (way : Way) (tok : string) : DBM State unit :=
  match way with
  | ByClient now salt rawKey keyID userID username password =>
      invite_exchange_tx now salt rawKey keyID userID tok username password ;;; db_ret tt
  | ByBrowser now salt userID username password => invite_redeem_tx now salt userID tok username password ;;; db_ret tt
  end.

Lemma browser_spends now salt uid tok username pw d u :
  wf (tables d) → outcome (invite_redeem_tx now salt uid tok username pw) d = Ok u →
  spent (Invites.hashInviteToken tok) (final (invite_redeem_tx now salt uid tok username pw) d).
Proof.
  intros Hw Ho. destruct (transact_ok _ _ _ Ho) as (fs & d1 & Hb & Hs'). unfold final, invite_redeem_tx. rewrite Hs'.
  apply bind_ok in Hb as ([inv|] & d2 & E1%on_err_ok & Hb); [|done]. apply consume_ok in E1 as (j & i & _ & _ & _ & _ & Hsp); [|done].
  apply bind_ok in Hb as (u' & d3 & E2%on_err_ok & Hb). apply create_user_ok in E2 as (_ & hash & _ & _ & Ht3).
  apply bind_ok in Hb as (r & d4 & E3 & [= _ ->]). rewrite attempt_run in E3. injection E3 as _ <-.
  apply set_redeemer_spent. by rewrite Ht3.
Qed.

Lemma redeem_spends way tok d : wf (tables d) → is_ok (outcome (redeem_by way tok) d) = true →
  spent (Invites.hashInviteToken tok) (tables (snd (redeem_by way tok d))).
Proof.
  intros Hw. destruct way as [now salt rawKey kid uid name pw|now salt uid name pw]; unfold outcome, redeem_by, db_bind.
  - pose proof (exchange_ok now salt rawKey kid uid tok name pw d) as He. unfold outcome, final in He.
    destruct (invite_exchange_tx _ _ _ _ _ _ _ _ d) as [[k|e] d1]; [|done]. intros _. by apply (He k Hw eq_refl).
  - pose proof (browser_spends now salt uid tok name pw d) as He. unfold outcome, final in He.
    destruct (invite_redeem_tx _ _ _ _ _ _ d) as [[k|e] d1]; [|done]. intros _. by apply (He k Hw eq_refl).
Qed.

Lemma spent_refuses way tok d : spent (Invites.hashInviteToken tok) (tables d) →
  is_ok (outcome (redeem_by way tok) d) = false ∧ final (redeem_by way tok) d = tables d.
Proof.
  intros Hs. assert (Hfail : ∀ {A} (m : DBM State A), is_ok (fst (transact m d)) = false →
    is_ok (outcome (transact m ;;; db_ret tt) d) = false ∧ final (transact m ;;; db_ret tt) d = tables d).
  { intros A m Hm. unfold outcome, final, db_bind. pose proof (transact_atomic m d) as Ha.
    destruct (transact m d) as [[r|e] d1]; [done|]. split; [done|]. by apply (Ha e). }
  destruct way; apply Hfail; by apply spent_refused.
Qed.

(** C4: an invite creates at most one account: after a redemption that succeeds, over the
    command line or in the browser, in every later state of every run of the identity operations
    in which the token is not issued again, redeeming it in either way fails and changes nothing. *)
Theorem invite_redeemed_once : ∀ way tok (d : Db State) ops,
  wf (tables d) →
  is_ok (outcome (redeem_by way tok) d) = true →
  Forall (λ o, issues_invite (Invites.hashInviteToken tok) o = false) ops →
  let later := run_ops ops (snd (redeem_by way tok d)) in
  ∀ way', is_ok (outcome (redeem_by way' tok) later) = false ∧ final (redeem_by way' tok) later = tables later.
Proof.
  intros way tok d ops Hw Hok Hops later way'. apply spent_refuses. apply preserves_run_ops.
  - eapply Forall_impl; [exact Hops|]. intros o. apply run_op_spent.
  - by apply redeem_spends.
Qed.

(** Once revoked, a key authenticates nobody in any later
    state of any run of the identity operations that does not issue the same secret
    again, under any faults. *)
Theorem revoked_key_stays_dead : ∀ raw id (d : Db State) ops now,
  (∀ j k, api_keys (tables d) !! j = Some k → r_key_hash k = hashAPIKey raw → j = id) →
  is_ok (outcome (RevokeAPIKey id) d) = true →
  Forall (λ o, issues_key (hashAPIKey raw) o = false) ops →
  let later := run_ops ops (snd (RevokeAPIKey id d)) in
  ∀ r, outcome (ValidateAPIKey now raw) later = Ok r → r = None.
Proof.
  intros raw id d ops now Hu Hok Hops later r. apply dead_key_never_validates.
  apply preserves_run_ops; [eapply Forall_impl; [exact Hops|]; intros o; apply run_op_dead|].
  unfold outcome in Hok. destruct (RevokeAPIKey id d) as [[[]|] d1] eqn:E; [|done].
  apply update_ok in E. cbn. rewrite E. intros j k. cbn. destruct (decide (id = j)) as [->|Hne].
  - rewrite lookup_alter_eq. by intros (k0 & Hk & ->)%fmap_Some.
  - rewrite lookup_alter_ne by done. intros Hk Hh. by destruct (Hu _ _ Hk Hh).
Qed.

(** The constraints of the identity schema (unique names and token
    hashes, valid roles and levels, no dangling reference to a user or a profile) hold
    along every run of the identity operations, whatever statements fail, deletions of
    users and profiles included. *)
Theorem identity_invariant : ∀ ops (d : Db State),
  wf (tables d) → wf (tables (run_ops ops d)).
Proof.
  intros ops d Hd. apply preserves_run_ops; [|done]. apply Forall_forall. intros o _. apply run_op_wf.
Qed.
End Identity.

(** ** Witnesses on the demonstration state *)
Lemma demo_wf : wf demo.
Proof.
  split; cbn.
  - apply map_Forall_insert_2; [by split_and!|]. apply map_Forall_singleton. by split_and!.
  - intros i j u v. rewrite !lookup_insert_Some, !lookup_singleton_Some.
    intros Hi Hj Hn. by destruct Hi as [[<- <-]|[_ [<- <-]]], Hj as [[<- <-]|[_ [<- <-]]].
  - apply map_Forall_singleton. split; [by eexists|done].
  - apply map_Forall_singleton. split_and!; try done. by eexists.
  - intros i j a b [<- <-]%lookup_singleton_Some [<- <-]%lookup_singleton_Some. done.
  - apply map_Forall_empty.
  - apply map_Forall_empty.
  - apply map_Forall_singleton. by eexists.
Qed.

Lemma invite_exchange_atomic_witness :
  spent (Invites.hashInviteToken "tok")
    (final (invite_exchange_tx 5 0 "rk" "k9" "u9" "tok" "carol" "password1") (healthy demo)).
Proof.
  pose proof (invite_exchange_atomic 5 0 "rk" "k9" "u9" "tok" "carol" "password1" (healthy demo) demo_wf) as Hx.
  cbv zeta in Hx. assert (E : outcome (invite_exchange_tx 5 0 "rk" "k9" "u9" "tok" "carol" "password1") (healthy demo)
    = Ok "rk") by (vm_compute; reflexivity). rewrite E in Hx. apply Hx.
Defined.

Lemma invite_redeemed_once_witness :
  is_ok (outcome (redeem_by (ByClient 6 0 "rk" "k9" "u8" "dave" "password2") "tok")
    (run_ops [ODeleteUser "u9"; OCleanupInvites 7]
       (snd (redeem_by (ByBrowser 5 0 "u9" "carol" "password1") "tok" (healthy demo))))) = false.
Proof.
  apply (invite_redeemed_once (H:=toy_hashing) (ByBrowser 5 0 "u9" "carol" "password1") "tok" (healthy demo)
    [ODeleteUser "u9"; OCleanupInvites 7] demo_wf ltac:(vm_compute; reflexivity) ltac:(repeat constructor)
    (ByClient 6 0 "rk" "k9" "u8" "dave" "password2")).
Defined.

Lemma revoked_key_stays_dead_witness :
  outcome (ValidateAPIKey 9 "raw")
    (run_ops [OValidateAPIKey 8 "raw"; ODeleteProfile "p"] (snd (RevokeAPIKey "k" (healthy demo)))) = Ok None.
Proof.
  destruct (outcome (ValidateAPIKey 9 "raw") _) as [r|e] eqn:E; [|vm_compute in E; discriminate].
  f_equal. eapply (revoked_key_stays_dead (H:=toy_hashing) "raw" "k" (healthy demo) _ 9); [|reflexivity| |exact E].
  - intros j k Hk _. cbn in Hk. apply lookup_singleton_Some in Hk. by destruct Hk.
  - repeat constructor.
Defined.

Lemma identity_invariant_witness : wf (tables (run_ops [ODeleteProfile "p"; ODeleteUser "u"] (healthy demo))).
Proof. apply (identity_invariant [ODeleteProfile "p"; ODeleteUser "u"] (healthy demo)). exact demo_wf. Defined.
