(* ===== verification/Runs.v ===== *)
(** * Runs of a system

    A component that serves requests in sequence is a step function on its state that
    may reply.  A run is a list of operations; [state_at] is the state before operation
    number [n] and [reply_at] the reply to it. *)
From S2P Require Import Prelude.

Section Runs.
Context {Op R W : Type} (step : Op → W → option R * W).

Definition run (ops : list Op) (w : W) : W := foldl (λ w o, (step o w).2) w ops.

Definition state_at (ops : list Op) (w : W) (n : nat) : W := run (take n ops) w.

Definition reply_at (ops : list Op) (w : W) (n : nat) : option R :=
  o ← ops !! n; (step o (state_at ops w n)).1.

Lemma state_at_S ops w n o : ops !! n = Some o → state_at ops w (S n) = (step o (state_at ops w n)).2.
Proof. intros Ho. unfold state_at, run. by rewrite (take_S_r _ _ _ Ho), foldl_app. Qed.

Lemma state_at_ge ops w n : ops !! n = None → state_at ops w (S n) = state_at ops w n.
Proof. intros Ho%lookup_ge_None. unfold state_at. by rewrite !take_ge by lia. Qed.

Lemma reply_at_step ops w n o : ops !! n = Some o → reply_at ops w n = (step o (state_at ops w n)).1.
Proof. intros Ho. unfold reply_at. by rewrite Ho. Qed.

Lemma reply_at_Some ops w n rep :
  reply_at ops w n = Some rep → ∃ o, ops !! n = Some o ∧ (step o (state_at ops w n)).1 = Some rep.
Proof. unfold reply_at. destruct (ops !! n); [eauto|done]. Qed.

(** An invariant that may speak of the past of the run. *)
Lemma run_invariant (P : nat → W → Prop) ops w :
  P 0 w → (∀ n w', P n w' → P (S n) w') →
  (∀ n o, ops !! n = Some o → P n (state_at ops w n) → P (S n) (step o (state_at ops w n)).2) →
  ∀ n, P n (state_at ops w n).
Proof.
  intros H0 Hw Hs n. induction n as [|n IH]; [done|]. destruct (ops !! n) as [o|] eqn:Eo.
  - rewrite (state_at_S _ _ _ _ Eo). by apply Hs.
  - rewrite state_at_ge by done. by apply Hw.
Qed.

(** What holds at the end and not at the start became true at some operation. *)
Lemma gained (Q : W → Prop) `{∀ w, Decision (Q w)} ops w i n :
  ¬ Q (state_at ops w i) → i ≤ n → Q (state_at ops w n) →
  ∃ m o, i ≤ m < n ∧ ops !! m = Some o ∧ ¬ Q (state_at ops w m) ∧ Q (state_at ops w (S m)).
Proof.
  intros Hi Hle. induction Hle as [|n Hle IH]; [done|]. intros Hq.
  destruct (decide (Q (state_at ops w n))) as [Hn|Hn].
  - destruct (IH Hn) as (m & o & Hm & ?). exists m, o. split; [lia|done].
  - destruct (ops !! n) as [o|] eqn:Eo; [|by rewrite state_at_ge in Hq].
    exists n, o. split_and!; [lia|lia|done..].
Qed.
End Runs.
