(* ===== verification/OAuthProvider.v ===== *)
(** * The OAuth authorization server

    [src/internal/web/oauth_provider.go]: dynamic client registration, the consent page,
    the token endpoint with PKCE, and the in-memory store of authorization codes.  Clients
    and tokens live in the tables of [Sessions.OAuth].

    The query of a GET request is its [Form].  Building the redirect URL ([url.Parse],
    [Query], [Set], [Encode]) is represented by the registered URI and the parameters that
    are set; [parseURL] is [url.Parse] with the scheme and [Hostname] it reports. *)
From S2P Require Import Prelude GoStrings Json JsonDecode Base64 ArchiveDispatcher Profiles Users Sessions WebAuth Runs.
Import IPRateLimiter (Limiter, newIPRateLimiter).

(** ** Authorization codes *)
Record AuthCode := mkCode {
  acClientID : string; acUserID : string; acRedirectURI : string; acCodeChallenge : string;
  acScope : string; acResource : string; acCreatedAt : Z; acExpiresAt : Z }.

Module CodeStore.
Abbreviation t := (gmap string AuthCode).

(** [code] is what [generateOAuthCode] delivers. *)
Definition create (now : Z) (code : result string) (clientID userID redirectURI codeChallenge scope resource : string)
    (s : t) : result string * t :=
  match code with
  | Err e => (Err e, s)
  | Ok c => (Ok c, <[c := mkCode clientID userID redirectURI codeChallenge scope resource now (now + 5 * minute)]> s)
  end.

Definition consume (now : Z) (code : string) (s : t) : option AuthCode * t :=
  match s !! code with
  | None => (None, delete code s)
  | Some ac => if (acExpiresAt ac <? now)%Z then (None, delete code s) else (Some ac, delete code s)
  end.

(** One tick of the cleanup goroutine. *)
Definition cleanup (now : Z) (s : t) : t := filter (λ '(_, ac), (now <= acExpiresAt ac)%Z) s.
End CodeStore.

(** ** The provider's state and replies *)
Record World := mkWorld { db : Db State; codes : CodeStore.t; oauthRegisterLimiter : Limiter }.

Definition with_db (w : World) d : World := mkWorld d (codes w) (oauthRegisterLimiter w).
Definition with_codes (w : World) c : World := mkWorld (db w) c (oauthRegisterLimiter w).
Definition with_limiter (w : World) l : World := mkWorld (db w) (codes w) l.

Inductive Reply :=
| OStatus (code : Z) (body : string)
| OLogin                                                      (* redirect to the login page *)
| OError (status : Z) (errCode description : string)          (* [oauthError] *)
| OPage (error : string)                                      (* the consent page with an error *)
| OConsent (clientName clientID redirectURI state codeChallenge scope resource : string)
| ORedirect (uri : string) (params : list (string * string))  (* denial *)
| OSuccess (uri : string) (params : list (string * string))   (* page that redirects *)
| OTokens (accessToken refreshToken scope : string)
| OClientInfo (clientID clientSecret clientName authMethod : string) (redirectURIs : list string)
| OMetadata (doc : json).

Definition Handler : Type := World → Reply * World.

Definition reply (r : Reply) : Handler := λ w, (r, w).

Definition call {A} (m : DBM State A) (onerr : string → Handler) (k : A → Handler) : Handler := λ w,
  match m (db w) with
  | (Ok a, d) => k a (with_db w d)
  | (Err e, d) => onerr e (with_db w d)
  end.

(** [base64.RawURLEncoding]: the standard text with two characters exchanged and no
    padding. *)
Fixpoint RawURLEncode_text (s : string) : string :=
  match s with
  | EmptyString => ""
  | String c r =>
      if Ascii.eqb c pad then RawURLEncode_text r
      else String (if Ascii.eqb c "+"%char then "-"%char else if Ascii.eqb c "/"%char then "_"%char else c)
             (RawURLEncode_text r)
  end.

Section Provider.
Context `{Hashing} (csrf_mac : string → string) (sha256_sum : string → string)
  (parseURL : string → option ParsedURL).

Definition ComputeCodeChallenge (verifier : string) : string :=
  RawURLEncode_text (EncodeToString (sha256_sum verifier)).

(** ** Minting *)

(** [raw] is the fresh uuid. *)
Definition mintAccessToken (now : Z) (raw userID clientID scope resource : string) : DBM State string :=
  OAuth.CreateToken (sha256_hex raw) userID clientID scope resource (now + 1 * hour) ;;; db_ret raw.

Definition mintRefreshToken (now : Z) (raw userID clientID scope resource : string) : DBM State string :=
  OAuth.CreateRefresh (sha256_hex raw) userID clientID scope resource (now + 30 * day) ;;; db_ret raw.

(** ** Metadata *)
Definition handleProtectedResourceMetadata (baseURL : string) (r : Request) : Handler :=
  if Method r !=? "GET" then reply (OStatus 405 "Method not allowed")
  else
    let subPath := TrimPrefix (Path r) "/.well-known/oauth-protected-resource" in
    let resource := if (subPath !=? "") && (subPath !=? "/") then baseURL +:+ subPath else baseURL in
    reply (OMetadata (JObj [("authorization_servers", JArr [JStr baseURL]);
      ("bearer_methods_supported", JArr [JStr "header"]); ("resource", JStr resource)])).

Definition handleAuthorizationServerMetadata (baseURL : string) (r : Request) : Handler :=
  if Method r !=? "GET" then reply (OStatus 405 "Method not allowed")
  else
    let strs l := JArr (map JStr l) in
    reply (OMetadata (JObj [("authorization_endpoint", JStr (baseURL +:+ "/authorize"));
      ("code_challenge_methods_supported", strs ["S256"]);
      ("grant_types_supported", strs ["authorization_code"; "refresh_token"]);
      ("issuer", JStr baseURL); ("registration_endpoint", JStr (baseURL +:+ "/register"));
      ("response_types_supported", strs ["code"]);
      ("token_endpoint", JStr (baseURL +:+ "/token"));
      ("token_endpoint_auth_methods_supported", strs ["none"; "client_secret_post"])])).

(** ** Registration *)

(** The loop over the redirect URIs: the first offending one is reported. *)
Fixpoint check_redirects (uris : list string) : option Reply :=
  match uris with
  | [] => None
  | uri :: rest =>
      match parseURL uri with
      | None => Some (OError 400 "invalid_redirect_uri" ("invalid URI: " +:+ uri))
      | Some u =>
          if (Scheme u =?s "http") && (Hostname u !=? "localhost") && (Hostname u !=? "127.0.0.1")
             && negb (HasPrefix (Hostname u) "[::1]")
          then Some (OError 400 "invalid_redirect_uri" "http redirect_uri only allowed for localhost")
          else check_redirects rest
      end
  end.

Record RegisterBody := mkRegister {
  rClientName : string; rRedirectURIs : list string; rTokenEndpointAuthMethod : string }.

(** The first JSON value of the body; grant and response types only have to decode. *)
Definition decode_register (body : string) : option RegisterBody :=
  match parse_value (S (String.length body)) body with
  | Some (JObj l, _) =>
      n ← decode_string_field "client_name" l ""; u ← decode_strings_field "redirect_uris" l [];
      _ ← decode_strings_field "grant_types" l []; _ ← decode_strings_field "response_types" l [];
      a ← decode_string_field "token_endpoint_auth_method" l ""; Some (mkRegister n u a)
  | Some (JNull, _) => Some (mkRegister "" [] "")
  | _ => None
  end.

(** [clientID] and [secret] are fresh uuids. *)
Definition handleOAuthRegister (now : Z) (clientID secret : string) (r : Request) : Handler := λ w,
  let ip := clientIP r in
  let '(ok, rl) := IPRateLimiter.allow now ip (oauthRegisterLimiter w) in
  if negb ok then (OStatus 429 "rate limit exceeded", with_limiter w rl)
  else
    let w := with_limiter w (IPRateLimiter.record now ip rl) in
    if Method r !=? "POST" then (OStatus 405 "Method not allowed", w)
    else
      match decode_register (Body r) with
      | None => (OError 400 "invalid_client_metadata" "invalid JSON body", w)
      | Some req =>
          match rRedirectURIs req with
          | [] => (OError 400 "invalid_client_metadata" "redirect_uris required", w)
          | uris =>
              match check_redirects uris with
              | Some e => (e, w)
              | None =>
                  let name := if rClientName req =?s "" then "MCP Client" else rClientName req in
                  let method := if rTokenEndpointAuthMethod req =?s "" then "none" else rTokenEndpointAuthMethod req in
                  let confidential := method =?s "client_secret_post" in
                  call (OAuth.CreateClient clientID (if confidential then sha256_hex secret else "") name method uris)
                    (λ _, reply (OError 500 "server_error" "failed to register client"))
                    (λ _, reply (OClientInfo clientID (if confidential then secret else "") name method uris)) w
              end
          end
      end.

(** ** Consent *)
Definition handleOAuthAuthorizeGet (r : Request) : Handler :=
  let clientID := FormValue r "client_id" in
  let redirectURI := FormValue r "redirect_uri" in
  let codeChallenge := FormValue r "code_challenge" in
  let scope := FormValue r "scope" in
  if FormValue r "response_type" !=? "code" then
    reply (OPage "Unsupported response_type. Only 'code' is supported.")
  else if clientID =?s "" then reply (OPage "Missing client_id parameter.")
  else
    call (OAuth.GetClient clientID) (λ _, reply (OPage "Unknown application. It may need to re-register."))
      (λ client, match client with
         | None => reply (OPage "Unknown application. It may need to re-register.")
         | Some c =>
             if (redirectURI =?s "") || negb (OAuth.HasRedirectURI c redirectURI) then reply (OPage "Invalid redirect_uri.")
             else if (codeChallenge =?s "") || (FormValue r "code_challenge_method" !=? "S256")
             then reply (OPage "PKCE with S256 code_challenge is required.")
             else reply (OConsent (OAuth.ClientName c) clientID redirectURI (FormValue r "state") codeChallenge
                           (if scope =?s "" then "mcp" else scope) (FormValue r "resource"))
         end).

Definition state_param (state : string) : list (string * string) :=
  if state =?s "" then [] else [("state", state)].

Definition handleOAuthAuthorizePost (now : Z) (gen : result string) (user : User) (r : Request) : Handler :=
  let clientID := FormValue r "client_id" in
  let redirectURI := FormValue r "redirect_uri" in
  let state := FormValue r "state" in
  let scope := let s := FormValue r "scope" in if s =?s "" then "mcp" else s in
  call (OAuth.GetClient clientID) (λ _, reply (OPage "Unknown application. It may need to re-register."))
    (λ client, match client with
       | None => reply (OPage "Unknown application. It may need to re-register.")
       | Some c =>
           if (redirectURI =?s "") || negb (OAuth.HasRedirectURI c redirectURI) then reply (OPage "Invalid redirect_uri.")
           else match parseURL redirectURI with
                | None => reply (OStatus 400 "Invalid redirect_uri")
                | Some _ =>
                    if FormValue r "action" =?s "deny"
                    then reply (ORedirect redirectURI (("error", "access_denied") :: state_param state))
                    else λ w,
                      match CodeStore.create now gen clientID (uID user) redirectURI (FormValue r "code_challenge")
                              scope (FormValue r "resource") (codes w) with
                      | (Err _, _) => (OStatus 500 "Internal error", w)
                      | (Ok code, cs) => (OSuccess redirectURI (("code", code) :: state_param state), with_codes w cs)
                      end
                end
       end).

Definition handleOAuthAuthorize (now : Z) (gen : result string) (r : Request) : Handler :=
  match SessionCookie r with
  | None => reply OLogin
  | Some cookie =>
      call (WebSessions.Get now cookie) (λ _, reply OLogin)
        (λ res, match res with
           | None => reply OLogin
           | Some (user, _) =>
               if Method r =?s "GET" then handleOAuthAuthorizeGet r
               else if Method r =?s "POST" then
                 if negb (validateCSRF csrf_mac r cookie) then reply (OStatus 403 "Invalid or missing CSRF token")
                 else handleOAuthAuthorizePost now gen user r
               else reply (OStatus 405 "Method not allowed")
           end)
  end.

(** ** The token endpoint.  [rawA] and [rawR] are the fresh access and refresh tokens. *)

Definition issue (now : Z) (rawA rawR userID clientID scope resource : string) : Handler :=
  call (mintAccessToken now rawA userID clientID scope resource)
    (λ _, reply (OError 500 "server_error" "failed to create access token"))
    (λ accessToken,
       call (mintRefreshToken now rawR userID clientID scope resource)
         (λ _, reply (OError 500 "server_error" "failed to create refresh token"))
         (λ refreshToken, reply (OTokens accessToken refreshToken scope))).

Definition redeem_code (now : Z) (rawA rawR code redirectURI clientID codeVerifier : string) : Handler := λ w,
  let '(ac, cs) := CodeStore.consume now code (codes w) in
  let w := with_codes w cs in
  match ac with
  | None => (OError 400 "invalid_grant" "invalid, expired, or already-used authorization code", w)
  | Some ac =>
      if acClientID ac !=? clientID then (OError 400 "invalid_grant" "client_id mismatch", w)
      else if acRedirectURI ac !=? redirectURI then (OError 400 "invalid_grant" "redirect_uri mismatch", w)
      else if ComputeCodeChallenge codeVerifier !=? acCodeChallenge ac
      then (OError 400 "invalid_grant" "PKCE code_verifier does not match code_challenge", w)
      else issue now rawA rawR (acUserID ac) clientID (acScope ac) (acResource ac) w
  end.

Definition handleTokenAuthorizationCode (now : Z) (rawA rawR : string) (r : Request) : Handler :=
  let code := FormValue r "code" in
  let clientID := FormValue r "client_id" in
  let codeVerifier := FormValue r "code_verifier" in
  if (code =?s "") || (clientID =?s "") || (codeVerifier =?s "")
  then reply (OError 400 "invalid_request" "code, client_id, and code_verifier are required")
  else
    call (OAuth.GetClient clientID) (λ _, reply (OError 401 "invalid_client" "unknown client_id"))
      (λ client, match client with
         | None => reply (OError 401 "invalid_client" "unknown client_id")
         | Some c =>
             let go := redeem_code now rawA rawR code (FormValue r "redirect_uri") clientID codeVerifier in
             if OAuth.TokenEndpointAuthMethod c =?s "client_secret_post" then
               call (OAuth.ValidateSecret clientID (FormValue r "client_secret"))
                 (λ _, reply (OError 401 "invalid_client" "invalid client credentials"))
                 (λ ok, if negb ok then reply (OError 401 "invalid_client" "invalid client credentials") else go)
             else go
         end).

Definition rotate (now : Z) (rawA rawR refreshTokenRaw clientID : string) : Handler :=
  call (OAuth.Consume now refreshTokenRaw) (λ _, reply (OError 400 "invalid_grant" "invalid or expired refresh token"))
    (λ rt, match rt with
       | None => reply (OError 400 "invalid_grant" "invalid or expired refresh token")
       | Some rt =>
           if (clientID !=? "") && (tClientID rt !=? clientID)
           then reply (OError 400 "invalid_grant" "client_id mismatch")
           else issue now rawA rawR (tUserID rt) (tClientID rt) (tScope rt) (tResource rt)
       end).

Definition handleTokenRefresh (now : Z) (rawA rawR : string) (r : Request) : Handler :=
  let refreshTokenRaw := FormValue r "refresh_token" in
  let clientID := FormValue r "client_id" in
  if refreshTokenRaw =?s "" then reply (OError 400 "invalid_request" "refresh_token is required")
  else if clientID !=? "" then
    call (OAuth.GetClient clientID) (λ _, reply (OError 401 "invalid_client" "unknown client_id"))
      (λ client, match client with
         | None => reply (OError 401 "invalid_client" "unknown client_id")
         | Some _ => rotate now rawA rawR refreshTokenRaw clientID
         end)
  else rotate now rawA rawR refreshTokenRaw clientID.

(** [parsed] tells whether [ParseForm] succeeded; the message of the last case leaves out
    the quotation marks of [%q]. *)
Definition handleOAuthToken (now : Z) (rawA rawR : string) (parsed : bool) (r : Request) : Handler :=
  if Method r !=? "POST" then reply (OStatus 405 "Method not allowed")
  else if negb parsed then reply (OError 400 "invalid_request" "failed to parse form body")
  else
    let grantType := FormValue r "grant_type" in
    if grantType =?s "authorization_code" then handleTokenAuthorizationCode now rawA rawR r
    else if grantType =?s "refresh_token" then handleTokenRefresh now rawA rawR r
    else reply (OError 400 "unsupported_grant_type" ("grant_type " +:+ grantType +:+ " is not supported")).

(** ** The provider as a system *)
Inductive op :=
| Register (now : Z) (clientID secret : string) (r : Request)
| Authorize (now : Z) (gen : result string) (r : Request)
| Token (now : Z) (rawA rawR : string) (parsed : bool) (r : Request)
| CleanCodes (now : Z)
| Store (m : DBM State unit).  (** any other use of the database *)

Definition run_op (o : op) (w : World) : option Reply * World :=
  match o with
  | Register now cid secret r => let '(rep, w) := handleOAuthRegister now cid secret r w in (Some rep, w)
  | Authorize now gen r => let '(rep, w) := handleOAuthAuthorize now gen r w in (Some rep, w)
  | Token now rawA rawR parsed r => let '(rep, w) := handleOAuthToken now rawA rawR parsed r w in (Some rep, w)
  | CleanCodes now => (None, with_codes w (CodeStore.cleanup now (codes w)))
  | Store m => (None, with_db w (snd (m (db w))))
  end.

End Provider.

(** ** Theorems: the code grant *)

Lemma GetClient_run clientID d :
  ∃ c d', OAuth.GetClient clientID d = (Ok c, d') ∧ tables d' = tables d ∧
    match c with
    | None => True
    | Some cl => ∃ row, oauth_clients (tables d) !! clientID = Some row ∧
        cl = OAuth.mkClient clientID (cSecretHash row) (cName row) (OAuth.lenient_strings (cRedirectURIs row)) (cAuthMethod row)
    end.
Proof.
  unfold OAuth.GetClient, db_bind, attempt, query, exec. destruct (next_fault (faults d)) as [[] fs]; cbn.
  { by exists None, (mkDb (tables d) fs). }
  destruct (oauth_clients (tables d) !! clientID) as [row|] eqn:E; cbn; [|by exists None, (mkDb (tables d) fs)].
  eexists _, _. split; [reflexivity|]. cbn. eauto.
Qed.

Section CodeGrant.
Context `{Hashing} (csrf_mac : string → string) (sha256_sum : string → string)
  (parseURL : string → option ParsedURL).

Lemma ValidateSecret_run clientID secret d :
  ∃ ok d', OAuth.ValidateSecret clientID secret d = (Ok ok, d') ∧ tables d' = tables d ∧
    (ok = true → ∃ row, oauth_clients (tables d) !! clientID = Some row ∧
       (cSecretHash row = "" ∨ sha256_hex secret = cSecretHash row)).
Proof.
  unfold OAuth.ValidateSecret, db_bind. destruct (GetClient_run clientID d) as (c & d' & -> & Ht & Hc).
  destruct c as [cl|]; [|by exists false, d']. destruct Hc as (row & Hr & ->). cbn.
  destruct (String.eqb_spec (cSecretHash row) ""); cbn; [exists true, d'; eauto 10|].
  exists (sha256_hex secret =?s cSecretHash row), d'. split_and!; [done..|]. intros ?. bool_prop. eauto.
Qed.

(** The rows a successful grant adds. *)
Definition granted (now : Z) (rawA rawR userID clientID scope resource : string) (s : State) : State :=
  with_refresh
    (with_tokens s (<[sha256_hex rawA := mkToken userID clientID scope resource (now + 1 * hour)%Z]> (oauth_tokens s)))
    (<[sha256_hex rawR := mkToken userID clientID scope resource (now + 30 * day)%Z]> (refresh_tokens s)).

Lemma CreateToken_ok h uid cid scope res exp d u d' :
  OAuth.CreateToken h uid cid scope res exp d = (Ok u, d') →
  tables d' = with_tokens (tables d) (<[h := mkToken uid cid scope res exp]> (oauth_tokens (tables d))) ∧
  is_Some (users (tables d) !! uid).
Proof.
  intros E%exec_ok. unfold OAuth.insert_token in E. cbn in E. destruct (_ || _) eqn:Ei; [done|].
  apply orb_false_iff in Ei as [_ Ei]. apply negb_false_iff, bool_decide_eq_true in Ei. by simplify_eq.
Qed.

Lemma CreateRefresh_ok h uid cid scope res exp d u d' :
  OAuth.CreateRefresh h uid cid scope res exp d = (Ok u, d') →
  tables d' = with_refresh (tables d) (<[h := mkToken uid cid scope res exp]> (refresh_tokens (tables d))).
Proof.
  intros E%exec_ok. unfold OAuth.insert_token in E. destruct (_ || _); [done|]. by simplify_eq.
Qed.

Lemma issue_tokens now rawA rawR uid cid scope res w a rf sc w' :
  issue now rawA rawR uid cid scope res w = (OTokens a rf sc, w') →
  a = rawA ∧ rf = rawR ∧ sc = scope ∧ codes w' = codes w ∧ is_Some (users (tables (db w)) !! uid) ∧
  tables (db w') = granted now rawA rawR uid cid scope res (tables (db w)).
Proof.
  unfold issue, call, mintAccessToken, mintRefreshToken, db_bind.
  destruct (OAuth.CreateToken _ _ _ _ _ _ (db w)) as [[u|e] d1] eqn:E1; [|done]. cbn.
  destruct (OAuth.CreateRefresh _ _ _ _ _ _ d1) as [[u2|e] d2] eqn:E2; [|done]. cbn. intros [= <- <- <- <-].
  apply CreateToken_ok in E1 as [E1 Hu]. apply CreateRefresh_ok in E2. split_and!; try done. cbn. by rewrite E2, E1.
Qed.

Lemma issue_codes now rawA rawR uid cid scope res w : codes (issue now rawA rawR uid cid scope res w).2 = codes w.
Proof.
  unfold issue, call. destruct (mintAccessToken _ _ _ _ _ _ _) as [[] d1]; [|done]. cbn.
  by destruct (mintRefreshToken _ _ _ _ _ _ _) as [[] d2].
Qed.

Lemma issue_reply now rawA rawR uid cid scope res w :
  match (issue now rawA rawR uid cid scope res w).1 with OTokens _ _ _ | OError _ _ _ => True | _ => False end.
Proof.
  unfold issue, call. destruct (mintAccessToken _ _ _ _ _ _ _) as [[] d1]; [|done]. cbn.
  by destruct (mintRefreshToken _ _ _ _ _ _ _) as [[] d2].
Qed.

(** What a code must satisfy for tokens to be issued for it. *)
Definition redeems (now : Z) (r : Request) (ac : AuthCode) : Prop :=
  (now ≤ acExpiresAt ac)%Z ∧ acClientID ac = FormValue r "client_id" ∧ acRedirectURI ac = FormValue r "redirect_uri" ∧
  acCodeChallenge ac = ComputeCodeChallenge sha256_sum (FormValue r "code_verifier").

Lemma redeem_code_tokens now rawA rawR r w a rf sc w' :
  redeem_code sha256_sum now rawA rawR (FormValue r "code") (FormValue r "redirect_uri") (FormValue r "client_id")
    (FormValue r "code_verifier") w = (OTokens a rf sc, w') →
  ∃ ac, codes w !! FormValue r "code" = Some ac ∧ redeems now r ac ∧
    a = rawA ∧ rf = rawR ∧ sc = acScope ac ∧ codes w' = delete (FormValue r "code") (codes w) ∧
    tables (db w') = granted now rawA rawR (acUserID ac) (acClientID ac) (acScope ac) (acResource ac) (tables (db w)).
Proof.
  unfold redeem_code, CodeStore.consume. destruct (codes w !! _) as [ac|] eqn:Ec; [|done].
  destruct (acExpiresAt ac <? now)%Z eqn:Et; [done|]. repeat case_if; try done.
  intros (Ha & Hr & Hs & Hc & _ & Ht)%issue_tokens. bool_prop. exists ac. unfold redeems.
  split_and!; try done. by rewrite Ht, Heqb.
Qed.

Lemma code_grant : ∀ now rawA rawR r w a rf sc w',
  handleTokenAuthorizationCode sha256_sum now rawA rawR r w = (OTokens a rf sc, w') →
  ∃ ac row, codes w !! FormValue r "code" = Some ac ∧ redeems now r ac ∧
    oauth_clients (tables (db w)) !! acClientID ac = Some row ∧
    (cAuthMethod row = "client_secret_post" → cSecretHash row = "" ∨ sha256_hex (FormValue r "client_secret") = cSecretHash row) ∧
    a = rawA ∧ rf = rawR ∧ sc = acScope ac ∧ codes w' = delete (FormValue r "code") (codes w) ∧
    tables (db w') = granted now rawA rawR (acUserID ac) (acClientID ac) (acScope ac) (acResource ac) (tables (db w)).
Proof.
  intros now rawA rawR r w a rf sc w'. unfold handleTokenAuthorizationCode. case_if; [done|]. unfold call at 1.
  destruct (GetClient_run (FormValue r "client_id") (db w)) as (c & d1 & -> & Ht & Hc).
  destruct c as [cl|]; [|done]. destruct Hc as (row & Hrow & ->). cbn [OAuth.TokenEndpointAuthMethod].
  destruct (String.eqb_spec (cAuthMethod row) "client_secret_post") as [Hm|Hm].
  - unfold call. cbn [db with_db]. destruct (ValidateSecret_run (FormValue r "client_id") (FormValue r "client_secret") d1)
      as (ok & d2 & -> & Ht2 & Hok). destruct ok; [|done]. cbn [negb].
    intros (ac & Hac & Hred & -> & -> & -> & Hcodes & Hdb)%redeem_code_tokens. cbn in Hac, Hcodes, Hdb.
    destruct (Hok eq_refl) as (row' & Hrow' & Hs). rewrite Ht, Hrow in Hrow'. injection Hrow' as <-.
    exists ac, row. pose proof Hred as (_ & Hcid & _). rewrite Hcid, Hdb, Hcid, Ht2, Ht. by split_and!.
  - intros (ac & Hac & Hred & -> & -> & -> & Hcodes & Hdb)%redeem_code_tokens. cbn in Hac, Hcodes, Hdb.
    exists ac, row. pose proof Hred as (_ & Hcid & _). rewrite Hdb, Ht, Hcid. by split_and!.
Qed.

(** the token endpoint issues tokens for an authorization code only if
    the code is in the store and unexpired, was issued to this very client and redirect
    URI, the verifier hashes to the challenge the user consented to, and a confidential
    client proved its secret; then the code is gone, and exactly one access token of one
    hour and one refresh token of thirty days are added, for the consenting user and with
    the scope and resource of the consent, whatever statements fail. *)
Theorem code_grant_sound : ∀ now rawA rawR r w a rf sc w',
  handleTokenAuthorizationCode sha256_sum now rawA rawR r w = (OTokens a rf sc, w') →
  ∃ ac row, codes w !! FormValue r "code" = Some ac ∧ redeems now r ac ∧
    oauth_clients (tables (db w)) !! acClientID ac = Some row ∧
    (cAuthMethod row = "client_secret_post" → cSecretHash row = "" ∨ sha256_hex (FormValue r "client_secret") = cSecretHash row) ∧
    a = rawA ∧ rf = rawR ∧ sc = acScope ac ∧ codes w' = delete (FormValue r "code") (codes w) ∧
    tables (db w') = granted now rawA rawR (acUserID ac) (acClientID ac) (acScope ac) (acResource ac) (tables (db w)).
Proof. exact code_grant. Qed.
End CodeGrant.

(** ** Theorems: runs of the provider *)
Section Runs.
Context `{Hashing} (csrf_mac : string → string) (sha256_sum : string → string)
  (parseURL : string → option ParsedURL).
Let run_op := run_op csrf_mac sha256_sum parseURL.
Let state_at := state_at run_op.
Let reply_at := reply_at run_op.

(** The codes after a token request: at most the presented one is gone. *)
Lemma redeem_code_codes now rawA rawR code uri cid v w :
  codes (redeem_code sha256_sum now rawA rawR code uri cid v w).2 = delete code (codes w).
Proof.
  unfold redeem_code, CodeStore.consume. destruct (codes w !! code) as [ac|]; [|done].
  destruct (acExpiresAt ac <? now)%Z; [done|]. repeat case_if; try done. by rewrite issue_codes.
Qed.

Lemma rotate_codes now rawA rawR t cid w : codes (rotate now rawA rawR t cid w).2 = codes w.
Proof.
  unfold rotate, call. destruct (OAuth.Consume _ _ _) as [[[rt|]|] d]; try done. case_if; [done|]. by rewrite issue_codes.
Qed.

Lemma handleOAuthToken_codes now rawA rawR p r w c ac :
  codes (handleOAuthToken sha256_sum now rawA rawR p r w).2 !! c = Some ac → codes w !! c = Some ac.
Proof.
  unfold handleOAuthToken, handleTokenAuthorizationCode, handleTokenRefresh, call, reply.
  repeat (case_match; try done); cbn; rewrite ?redeem_code_codes, ?rotate_codes; cbn; rewrite ?lookup_delete_Some; naive_solver.
Qed.

(** The one way to a new code: the consent of a logged-in user, with the CSRF token of
    the session, for a client registered with the redirect URI. *)
Definition consents (now : Z) (c : string) (r : Request) (w : World) (ac : AuthCode) : Prop :=
  ∃ cookie user exp row,
    Method r = "POST" ∧ SessionCookie r = Some cookie ∧ validateCSRF csrf_mac r cookie = true ∧
    WebSessions.live_session now cookie (tables (db w)) = Some (user, exp) ∧ FormValue r "action" ≠ "deny" ∧
    oauth_clients (tables (db w)) !! FormValue r "client_id" = Some row ∧
    FormValue r "redirect_uri" ∈ OAuth.lenient_strings (cRedirectURIs row) ∧
    ac = mkCode (FormValue r "client_id") (uID user) (FormValue r "redirect_uri") (FormValue r "code_challenge")
           (if FormValue r "scope" =?s "" then "mcp" else FormValue r "scope") (FormValue r "resource") now (now + 5 * minute).

Lemma authorize_codes now gen r w c ac :
  codes (handleOAuthAuthorize csrf_mac parseURL now gen r w).2 !! c = Some ac →
  codes w !! c = Some ac ∨ (gen = Ok c ∧ consents now c r w ac).
Proof.
  unfold handleOAuthAuthorize. destruct (SessionCookie r) as [cookie|] eqn:Ek; [|by left]. unfold call at 1.
  destruct (session_get_total now cookie (db w)) as (d' & Ht & [E|([user exp] & Hl & E)]); rewrite E; [by left|].
  destruct (Method r =?s "GET").
  { unfold handleOAuthAuthorizeGet, call, reply. repeat case_match; simplify_eq/=; auto. }
  destruct (String.eqb_spec (Method r) "POST") as [Hm|]; [|by left].
  destruct (validateCSRF csrf_mac r cookie) eqn:Ecs; [|by left]. cbn [negb].
  unfold handleOAuthAuthorizePost, call. cbn [db with_db].
  destruct (GetClient_run (FormValue r "client_id") d') as (cl & d2 & E2 & Ht2 & Hcl). rewrite E2.
  destruct cl as [cl|]; [|by left]. destruct Hcl as (row & Hrow & ->).
  destruct (_ || negb _) eqn:Eu; [by left|]. apply orb_false_iff in Eu as [_ Eu]. apply negb_false_iff in Eu.
  destruct (parseURL _); [|by left]. destruct (String.eqb_spec (FormValue r "action") "deny"); [by left|].
  destruct gen as [c'|e]; [|by left]. cbn. rewrite lookup_insert_Some. intros [[<- <-]|[_ Hc]]; [right|by left].
  split; [done|]. exists cookie, user, exp, row. rewrite Ht in Hrow. split_and!; try done.
  unfold OAuth.HasRedirectURI in Eu. apply existsb_exists in Eu as (u & Hin & Hu). bool_prop. subst u.
  by apply list_elem_of_In.
Qed.

Lemma register_codes now cid sec r w :
  codes (handleOAuthRegister parseURL now cid sec r w).2 = codes w.
Proof.
  unfold handleOAuthRegister. destruct (IPRateLimiter.allow _ _ _) as [ok rl]. case_if; [done|]. unfold call.
  repeat (case_match; try done).
Qed.

(** An operation that generates the code [c]. *)
Definition generates (c : string) (o : op) : Prop :=
  match o with Authorize _ (Ok c') _ => c' = c | _ => False end.

Lemma run_op_codes o w c ac :
  codes (run_op o w).2 !! c = Some ac →
  codes w !! c = Some ac ∨ ∃ now r, o = Authorize now (Ok c) r ∧ consents now c r w ac.
Proof.
  unfold run_op, OAuthProvider.run_op. destruct o as [now cid sec r|now gen r|now a b p r|now|m].
  - pose proof (register_codes now cid sec r w) as Hr. destruct (handleOAuthRegister _ _ _ _ _ _) as [rep w'].
    cbn in *. rewrite Hr. by left.
  - pose proof (authorize_codes now gen r w c ac) as Hr. destruct (handleOAuthAuthorize _ _ _ _ _ _) as [rep w'].
    cbn in *. intros [?|[-> ?]]%Hr; eauto 10.
  - pose proof (handleOAuthToken_codes now a b p r w c ac) as Hr. destruct (handleOAuthToken _ _ _ _ _ _ _) as [rep w'].
    cbn in *. auto.
  - cbn. unfold CodeStore.cleanup. rewrite map_lookup_filter_Some. naive_solver.
  - by left.
Qed.

(** Every code of a run was consented to in it. *)
Lemma codes_consented ops w n c ac :
  codes w = ∅ → codes (state_at ops w n) !! c = Some ac →
  ∃ k now r, k < n ∧ ops !! k = Some (Authorize now (Ok c) r) ∧ consents now c r (state_at ops w k) ac.
Proof.
  intros Hw. revert c ac. unfold state_at. apply (run_invariant run_op (λ n w', ∀ c ac, codes w' !! c = Some ac →
    ∃ k now r, k < n ∧ ops !! k = Some (Authorize now (Ok c) r) ∧ consents now c r (state_at ops w k) ac)).
  - intros c ac. by rewrite Hw, lookup_empty.
  - intros n' w' IH c ac Hc. destruct (IH c ac Hc) as (k & ? & ? & ? & ?). eauto 10 with lia.
  - intros n' o Eo IH c ac [Hc|(now & r & -> & Hc)]%run_op_codes;
      [|exists n', now, r; split_and!; [lia|done|exact Hc]].
    destruct (IH c ac Hc) as (k & ? & ? & ? & ?). eauto 10 with lia.
Qed.

(** Tokens were issued for the code [c] by operation [i]. *)
Definition redeemed_at (ops : list op) (w : World) (i : nat) (c : string) : Prop :=
  ∃ now rawA rawR p r a rf sc, ops !! i = Some (Token now rawA rawR p r) ∧
    FormValue r "grant_type" = "authorization_code" ∧ FormValue r "code" = c ∧ reply_at ops w i = Some (OTokens a rf sc).

Lemma token_reply now rawA rawR p r w a rf sc w' :
  FormValue r "grant_type" = "authorization_code" →
  handleOAuthToken sha256_sum now rawA rawR p r w = (OTokens a rf sc, w') →
  handleTokenAuthorizationCode sha256_sum now rawA rawR r w = (OTokens a rf sc, w').
Proof. intros Hg. unfold handleOAuthToken. rewrite Hg. by repeat case_match. Qed.

Lemma token_step ops w j now rawA rawR p r rep :
  ops !! j = Some (Token now rawA rawR p r) → reply_at ops w j = Some rep →
  ∃ w', handleOAuthToken sha256_sum now rawA rawR p r (state_at ops w j) = (rep, w') ∧ state_at ops w (S j) = w'.
Proof.
  intros Ho Hr. unfold reply_at in Hr. rewrite (reply_at_step _ _ _ _ _ Ho) in Hr. unfold state_at at 2.
  rewrite (state_at_S _ _ _ _ _ Ho). cbn [run_op OAuthProvider.run_op] in Hr |- *. fold state_at in Hr |- *.
  destruct (handleOAuthToken _ _ _ _ _ _ _) as [rep' w']. cbn in Hr |- *. injection Hr as ->. eauto.
Qed.

Lemma redeemed_inv ops w i c :
  redeemed_at ops w i c →
  is_Some (codes (state_at ops w i) !! c) ∧ codes (state_at ops w (S i)) !! c = None.
Proof.
  intros (now & rawA & rawR & p & r & a & rf & sc & Ho & Hg & Hc & Hr).
  destruct (token_step _ _ _ _ _ _ _ _ _ Ho Hr) as (w' & E & ->).
  apply (token_reply _ _ _ _ _ _ _ _ _ _ Hg) in E. apply code_grant in E as (ac & _ & Hac & _ & _ & _ & _ & _ & _ & Hd & _).
  rewrite Hc in Hac, Hd. rewrite Hd. split; [eauto|]. apply lookup_delete_eq.
Qed.

(** A code that is gone comes back only by being generated. *)
Lemma gone_until_generated ops w i c n :
  codes (state_at ops w i) !! c = None → i ≤ n → is_Some (codes (state_at ops w n) !! c) →
  ∃ m o, i ≤ m < n ∧ ops !! m = Some o ∧ generates c o.
Proof.
  intros Hi Hle Hn.
  destruct (gained run_op (λ w, is_Some (codes w !! c)) ops w i n) as (m & o & Hm & Ho & Hno & [ac Hyes]); [|done|done|].
  { unfold state_at in Hi. rewrite Hi. by intros [? ?]. }
  exists m, o. split_and!; [lia|lia|done|]. rewrite (state_at_S _ _ _ _ _ Ho) in Hyes.
  apply run_op_codes in Hyes as [Hc|(now & r & -> & _)]; [|done]. destruct Hno. eauto.
Qed.

(** C5: in any run of the provider, with any other use of the database in
    between and any failures, tokens are issued twice for the same authorization code only
    if the code generator produced that very code again in between. *)
Theorem code_redeemed_once : ∀ ops w i j c,
  i < j → redeemed_at ops w i c → redeemed_at ops w j c →
  ∃ m o, i < m < j ∧ ops !! m = Some o ∧ generates c o.
Proof.
  intros ops w i j c Hij [_ Hi]%redeemed_inv [Hj _]%redeemed_inv.
  destruct (gone_until_generated ops w (S i) c j Hi Hij Hj) as (m & o & Hm & ?). exists m, o. split; [lia|done].
Qed.

(** C12: from an empty code store, tokens for a code are always preceded
    by the consent of a user with a live session and the CSRF token of that session, given
    at most five minutes before to the same registered client, redirect URI and challenge;
    and they are issued to that user, with the scope and resource consented to. *)
Theorem tokens_follow_consent : ∀ ops w j now rawA rawR p r a rf sc,
  codes w = ∅ → ops !! j = Some (Token now rawA rawR p r) → FormValue r "grant_type" = "authorization_code" →
  reply_at ops w j = Some (OTokens a rf sc) →
  ∃ k now' r' ac, k < j ∧ ops !! k = Some (Authorize now' (Ok (FormValue r "code")) r') ∧
    consents now' (FormValue r "code") r' (state_at ops w k) ac ∧
    redeems sha256_sum now r ac ∧ (now ≤ now' + 5 * minute)%Z ∧
    tables (db (state_at ops w (S j))) =
      granted now rawA rawR (acUserID ac) (acClientID ac) (acScope ac) (acResource ac) (tables (db (state_at ops w j))).
Proof.
  intros ops w j now rawA rawR p r a rf sc Hw Ho Hg Hr. destruct (token_step _ _ _ _ _ _ _ _ _ Ho Hr) as (w' & E & ->).
  apply (token_reply _ _ _ _ _ _ _ _ _ _ Hg) in E. apply code_grant in E as (ac & _ & Hac & Hred & _ & _ & _ & _ & _ & _ & Hdb).
  destruct (codes_consented ops w j _ ac Hw Hac) as (k & now' & r' & Hk & Hok & Hc).
  exists k, now', r', ac. split_and!; try done. destruct Hc as (? & ? & ? & ? & _ & _ & _ & _ & _ & _ & _ & ->). apply Hred.
Qed.

(** ** Redirect URIs *)
Definition safe_redirect (uri : string) : Prop :=
  ∃ u, parseURL uri = Some u ∧
    (Scheme u = "http" → Hostname u = "localhost" ∨ Hostname u = "127.0.0.1" ∨ HasPrefix (Hostname u) "[::1]" = true).

Definition clients_safe (s : State) : Prop :=
  map_Forall (λ _ row, Forall safe_redirect (OAuth.lenient_strings (cRedirectURIs row))) (oauth_clients s).

Lemma check_redirects_safe uris : check_redirects parseURL uris = None → Forall safe_redirect uris.
Proof.
  induction uris as [|uri uris IH]; cbn; [constructor|]. destruct (parseURL uri) as [u|] eqn:Eu; [|done].
  destruct (_ && _ && _ && _) eqn:Eb; [done|]. intros Hc. constructor; [|auto]. exists u. split; [done|]. intros Hs.
  rewrite Hs in Eb. cbn in Eb. destruct (String.eqb_spec (Hostname u) "localhost"); [auto|].
  destruct (String.eqb_spec (Hostname u) "127.0.0.1"); [auto|]. cbn in Eb. apply negb_false_iff in Eb. auto.
Qed.

Lemma check_redirects_reply uris e : check_redirects parseURL uris = Some e → ∃ st a b, e = OError st a b.
Proof. induction uris; cbn; repeat case_match; intros; simplify_eq; eauto. Qed.

Lemma lenient_strings_marshal uris : OAuth.lenient_strings (Marshal (JArr (map JStr uris))) = uris.
Proof.
  unfold OAuth.lenient_strings. rewrite Unmarshal_Marshal.
  - rewrite map_map. apply map_id.
  - cbn. induction uris; [done|]. by cbn.
Qed.

Definition no_redirect (r : Reply) : Prop := match r with OSuccess _ _ | ORedirect _ _ => False | _ => True end.

Lemma register_reply now cid sec r w : no_redirect (handleOAuthRegister parseURL now cid sec r w).1.
Proof.
  unfold handleOAuthRegister. destruct (IPRateLimiter.allow _ _ _) as [ok rl]. case_if; [done|]. case_if; [done|].
  destruct (decode_register (Body r)) as [req|]; [|done]. destruct (rRedirectURIs req) as [|u us]; [done|].
  destruct (check_redirects parseURL (u :: us)) as [e|] eqn:Ec; [by apply check_redirects_reply in Ec as (? & ? & ? & ->)|].
  unfold call. by destruct (OAuth.CreateClient _ _ _ _ _ _) as [[] ?].
Qed.

Lemma issue_no_redirect now rawA rawR uid cid scope res w : no_redirect (issue now rawA rawR uid cid scope res w).1.
Proof. pose proof (issue_reply now rawA rawR uid cid scope res w). unfold no_redirect. by case_match. Qed.

Lemma token_reply_kind now rawA rawR p r w : no_redirect (handleOAuthToken sha256_sum now rawA rawR p r w).1.
Proof.
  unfold handleOAuthToken, handleTokenAuthorizationCode, handleTokenRefresh, rotate, redeem_code, call, reply.
  repeat (case_match; simplify_eq/=; try done); apply issue_no_redirect.
Qed.

Lemma issue_clients now rawA rawR uid cid scope res w :
  oauth_clients (tables (db (issue now rawA rawR uid cid scope res w).2)) = oauth_clients (tables (db w)).
Proof.
  unfold issue, call, mintAccessToken, mintRefreshToken, db_bind.
  destruct (OAuth.CreateToken _ _ _ _ _ _ (db w)) as [[u|e] d1] eqn:E1; cbn.
  - apply CreateToken_ok in E1 as [E1 _]. destruct (OAuth.CreateRefresh _ _ _ _ _ _ d1) as [[u2|e] d2] eqn:E2; cbn.
    + apply CreateRefresh_ok in E2. by rewrite E2, E1.
    + unfold OAuth.CreateRefresh, exec in E2. repeat case_match; simplify_eq/=; by rewrite E1.
  - unfold OAuth.CreateToken, exec in E1. repeat case_match; by simplify_eq/=.
Qed.

Lemma Consume_clients X now raw : preserves (λ s, oauth_clients s = X) (OAuth.Consume now raw).
Proof.
  unfold OAuth.Consume. apply preserves_bind; [apply preserves_attempt, preserves_query|].
  intros [[t|]|e]; try apply preserves_ret. case_if;
    (apply preserves_bind; [apply preserves_attempt, preserves_update; by intros|intros ?; apply preserves_ret]).
Qed.

Lemma rotate_clients now rawA rawR t cid w :
  oauth_clients (tables (db (rotate now rawA rawR t cid w).2)) = oauth_clients (tables (db w)).
Proof.
  unfold rotate, call. pose proof (Consume_clients (oauth_clients (tables (db w))) now t (db w) eq_refl) as Hc.
  destruct (OAuth.Consume now t (db w)) as [[[rt|]|e] d]; try exact Hc. case_if; [exact Hc|]. by rewrite issue_clients.
Qed.

Lemma redeem_code_clients now rawA rawR code uri cid v w :
  oauth_clients (tables (db (redeem_code sha256_sum now rawA rawR code uri cid v w).2)) = oauth_clients (tables (db w)).
Proof.
  unfold redeem_code. destruct (CodeStore.consume _ _ _) as [[ac|] cs]; [|done]. repeat case_if; try done.
  by rewrite issue_clients.
Qed.

Lemma token_clients now rawA rawR p r w :
  oauth_clients (tables (db (handleOAuthToken sha256_sum now rawA rawR p r w).2)) = oauth_clients (tables (db w)).
Proof.
  unfold handleOAuthToken. case_if; [done|]. case_if; [done|]. case_if; [|case_if; [|done]].
  - unfold handleTokenAuthorizationCode. case_if; [done|]. unfold call at 1.
    destruct (GetClient_run (FormValue r "client_id") (db w)) as (c & d1 & -> & Ht & _). destruct c as [cl|]; cbn; [|by rewrite Ht].
    case_if; [|rewrite redeem_code_clients; cbn; by rewrite Ht]. unfold call. cbn [db with_db].
    destruct (ValidateSecret_run (FormValue r "client_id") (FormValue r "client_secret") d1) as (ok & d2 & -> & Ht2 & _).
    destruct ok; cbn; [rewrite redeem_code_clients; cbn|]; by rewrite Ht2, Ht.
  - unfold handleTokenRefresh. case_if; [done|]. case_if; [|by rewrite rotate_clients]. unfold call at 1.
    destruct (GetClient_run (FormValue r "client_id") (db w)) as (c & d1 & -> & Ht & _).
    destruct c; cbn; [rewrite rotate_clients; cbn|]; by rewrite Ht.
Qed.

Lemma authorize_tables now gen r w :
  tables (db (handleOAuthAuthorize csrf_mac parseURL now gen r w).2) = tables (db w) ∧
  ∀ uri ps, (handleOAuthAuthorize csrf_mac parseURL now gen r w).1 ∈ [OSuccess uri ps; ORedirect uri ps] →
    ∃ cid row, oauth_clients (tables (db w)) !! cid = Some row ∧ uri ∈ OAuth.lenient_strings (cRedirectURIs row).
Proof.
  unfold handleOAuthAuthorize. destruct (SessionCookie r) as [cookie|]; [|cbn; split; [done|set_solver]]. unfold call at 1 2.
  destruct (session_get_total now cookie (db w)) as (d' & Ht & [E|([user exp] & _ & E)]); rewrite E; [cbn; split; [done|set_solver]|].
  rewrite <- Ht. destruct (Method r =?s "GET").
  { unfold handleOAuthAuthorizeGet, call. cbn [db with_db].
    destruct (GetClient_run (FormValue r "client_id") d') as (cl & d2 & E2 & Ht2 & _).
    destruct (FormValue r "response_type" !=? "code"); [cbn; split; [done|set_solver]|].
    destruct (FormValue r "client_id" =?s ""); [cbn; split; [done|set_solver]|]. cbn [db with_db]. rewrite E2.
    destruct cl; repeat case_if; cbn; (split; [done|set_solver]). }
  destruct (Method r =?s "POST"); [|cbn; split; [done|set_solver]].
  destruct (negb _); [cbn; split; [done|set_solver]|]. unfold handleOAuthAuthorizePost, call. cbn [db with_db].
  destruct (GetClient_run (FormValue r "client_id") d') as (cl & d2 & -> & Ht2 & Hcl). rewrite <- Ht2.
  destruct cl as [cl|]; [|cbn; split; [done|set_solver]]. destruct Hcl as (row & Hrow & ->).
  destruct (_ || negb _) eqn:Eu; [cbn; split; [done|set_solver]|]. apply orb_false_iff in Eu as [_ Eu]. apply negb_false_iff in Eu.
  destruct (parseURL _); [|cbn; split; [done|set_solver]]. unfold OAuth.HasRedirectURI in Eu.
  apply existsb_exists in Eu as (u & Hin & Hu). bool_prop. subst u. apply list_elem_of_In in Hin.
  destruct (FormValue r "action" =?s "deny").
  - cbn. split; [done|]. intros uri ps Hx. exists (FormValue r "client_id"), row. rewrite Ht2. split; [done|]. set_solver.
  - destruct gen as [c|e]; cbn; split; try done; [|set_solver].
    intros uri ps Hx. exists (FormValue r "client_id"), row. rewrite Ht2. split; [done|]. set_solver.
Qed.

Lemma register_clients now cid sec r w :
  clients_safe (tables (db w)) → clients_safe (tables (db (handleOAuthRegister parseURL now cid sec r w).2)).
Proof.
  intros Hs. unfold handleOAuthRegister. destruct (IPRateLimiter.allow _ _ _) as [ok rl]. case_if; [done|]. case_if; [done|].
  destruct (decode_register (Body r)) as [req|]; [|done]. destruct (rRedirectURIs req) as [|u us] eqn:Eu; [done|].
  destruct (check_redirects parseURL (u :: us)) as [e|] eqn:Ec; [done|]. unfold call, OAuth.CreateClient. cbn [db with_limiter].
  destruct (exec _ (db w)) as [[x|e] d] eqn:Ex; cbn.
  - apply exec_ok in Ex. destruct (bool_decide _); [done|]. unfold clients_safe.
    apply (f_equal (λ res, match res with Ok (_, t) => t | Err _ => tables d end)) in Ex. cbv beta iota in Ex.
    rewrite <- Ex. cbn [oauth_clients with_clients].
    apply map_Forall_insert_2; [|done]. cbn [cRedirectURIs]. rewrite lenient_strings_marshal. by apply check_redirects_safe.
  - unfold exec in Ex. repeat case_match; by simplify_eq/=.
Qed.

(** Other uses of the database keep the registered URIs safe. *)
Definition keeps_clients (o : op) : Prop :=
  match o with Store m => preserves clients_safe m | _ => True end.

Lemma run_op_clients o w : keeps_clients o → clients_safe (tables (db w)) → clients_safe (tables (db (run_op o w).2)).
Proof.
  intros Ho Hs. unfold run_op, OAuthProvider.run_op. destruct o as [now cid sec r|now gen r|now a b p r|now|m].
  - pose proof (register_clients now cid sec r w Hs) as Hr. by destruct (handleOAuthRegister parseURL now cid sec r w).
  - destruct (authorize_tables now gen r w) as [Ht _]. destruct (handleOAuthAuthorize _ _ _ _ _ _). cbn in *. by rewrite Ht.
  - pose proof (token_clients now a b p r w) as Ht. destruct (handleOAuthToken _ _ _ _ _ _ _). cbn in *.
    unfold clients_safe. by rewrite Ht.
  - done.
  - by apply Ho.
Qed.

Lemma state_at_clients ops w n :
  Forall keeps_clients ops → clients_safe (tables (db w)) → clients_safe (tables (db (state_at ops w n))).
Proof.
  intros Ho Hs. apply (run_invariant run_op (λ _ w, clients_safe (tables (db w)))); [done..|].
  intros n' o Eo. apply run_op_clients. by eapply (Forall_lookup_1 _ _ _ _ Ho Eo).
Qed.

(** whatever clients register and whatever requests arrive, the
    authorization page sends a browser (with a code or a denial) only to a URI some client
    registered, and no registered URI is plain http to anything but the local machine. *)
Theorem redirects_stay_registered : ∀ ops w n uri ps,
  clients_safe (tables (db w)) → Forall keeps_clients ops →
  reply_at ops w n = Some (OSuccess uri ps) ∨ reply_at ops w n = Some (ORedirect uri ps) →
  safe_redirect uri ∧
  ∃ cid row, oauth_clients (tables (db (state_at ops w n))) !! cid = Some row ∧ uri ∈ OAuth.lenient_strings (cRedirectURIs row).
Proof.
  intros ops w n uri ps Hs Ho Hr. pose proof (state_at_clients ops w n Ho Hs) as Hn.
  unfold reply_at, Runs.reply_at in Hr. fold state_at in Hr. destruct (ops !! n) as [o|]; [|by destruct Hr].
  cbn [mbind option_bind] in Hr. set (wn := state_at ops w n) in *.
  assert (Hx : ∃ cid row, oauth_clients (tables (db wn)) !! cid = Some row ∧ uri ∈ OAuth.lenient_strings (cRedirectURIs row)).
  { destruct o as [now cid sec r|now gen r|now a b p r|now|m]; cbn [run_op OAuthProvider.run_op] in Hr.
    - pose proof (register_reply now cid sec r wn) as Hq. destruct (handleOAuthRegister _ _ _ _ _ _) as [rep w1]. cbn in *.
      destruct Hr; by simplify_eq.
    - destruct (authorize_tables now gen r wn) as [_ Ht]. destruct (handleOAuthAuthorize _ _ _ _ _ _) as [rep w1]. cbn in *.
      apply (Ht uri ps). destruct Hr; simplify_eq; set_solver.
    - pose proof (token_reply_kind now a b p r wn) as Hq. destruct (handleOAuthToken _ _ _ _ _ _ _) as [rep w1]. cbn in *.
      destruct Hr; by simplify_eq.
    - by destruct Hr.
    - by destruct Hr. }
  split; [|done]. destruct Hx as (cid & row & Hrow & Hin). specialize (Hn _ _ Hrow). cbn in Hn.
  rewrite Forall_forall in Hn. auto.
Qed.
End Runs.

(** ** Theorems: refresh tokens *)
Section Refresh.
Context `{Hashing}.

Lemma Consume_some now raw d rt d' :
  OAuth.Consume now raw d = (Ok (Some rt), d') →
  refresh_tokens (tables d) !! hashAPIKey raw = Some rt ∧ (now ≤ tExpiresAt rt)%Z ∧
  (tables d' = tables d ∨ tables d' = with_refresh (tables d) (delete (hashAPIKey raw) (refresh_tokens (tables d)))).
Proof.
  unfold OAuth.Consume, OAuth.lookup_refresh, db_bind at 1, attempt at 1, query, exec at 1.
  destruct (next_fault (faults d)) as [[] fs]; [done|]. cbn.
  destruct (refresh_tokens (tables d) !! hashAPIKey raw) as [t|] eqn:Et; [|done].
  destruct (tExpiresAt t <? now)%Z eqn:En; unfold db_bind; rewrite attempt_run; [done|]. intros [= -> <-]. bool_prop.
  split_and!; try done. unfold OAuth.delete_refresh.
  exact (update_tables (λ s, with_refresh s (delete (hashAPIKey raw) (refresh_tokens s))) (mkDb (tables d) fs)).
Qed.

(** a refresh issues tokens only for a stored, unexpired refresh
    token, for the client it names if it names one, and the new tokens carry exactly the
    user, client, scope and resource of the old one: refreshing never widens a grant. *)
Theorem refresh_keeps_grant : ∀ now rawA rawR r w a rf sc w',
  handleTokenRefresh now rawA rawR r w = (OTokens a rf sc, w') →
  ∃ rt s, refresh_tokens (tables (db w)) !! hashAPIKey (FormValue r "refresh_token") = Some rt ∧
    (now ≤ tExpiresAt rt)%Z ∧ (FormValue r "client_id" = "" ∨ FormValue r "client_id" = tClientID rt) ∧
    (s = tables (db w) ∨ s = with_refresh (tables (db w))
        (delete (hashAPIKey (FormValue r "refresh_token")) (refresh_tokens (tables (db w))))) ∧
    tables (db w') = granted now rawA rawR (tUserID rt) (tClientID rt) (tScope rt) (tResource rt) s ∧
    sc = tScope rt ∧ codes w' = codes w.
Proof.
  intros now rawA rawR r w a rf sc w'.
  assert (Hrot : ∀ w0, tables (db w0) = tables (db w) → codes w0 = codes w →
    rotate now rawA rawR (FormValue r "refresh_token") (FormValue r "client_id") w0 = (OTokens a rf sc, w') →
    ∃ rt s, refresh_tokens (tables (db w)) !! hashAPIKey (FormValue r "refresh_token") = Some rt ∧
      (now ≤ tExpiresAt rt)%Z ∧ (FormValue r "client_id" = "" ∨ FormValue r "client_id" = tClientID rt) ∧
      (s = tables (db w) ∨ s = with_refresh (tables (db w))
          (delete (hashAPIKey (FormValue r "refresh_token")) (refresh_tokens (tables (db w))))) ∧
      tables (db w') = granted now rawA rawR (tUserID rt) (tClientID rt) (tScope rt) (tResource rt) s ∧
      sc = tScope rt ∧ codes w' = codes w).
  { intros w0 Ht Hc. unfold rotate, call. destruct (OAuth.Consume _ _ _) as [[[rt|]|e] d] eqn:Ec; [|done..].
    apply Consume_some in Ec as (Hrt & Hexp & Hd). rewrite Ht in Hrt, Hd.
    destruct (_ && _) eqn:Eb; [done|]. intros (_ & _ & -> & Hcd & _ & Htab)%issue_tokens. cbn in Hcd, Htab.
    exists rt, (tables d). rewrite Htab, Hcd, Hc. split_and!; try done.
    apply andb_false_iff in Eb as [Eb|Eb]; bool_prop; auto. }
  unfold handleTokenRefresh. case_if; [done|]. case_if; [|by apply Hrot]. unfold call at 1.
  destruct (GetClient_run (FormValue r "client_id") (db w)) as (c & d1 & -> & Ht & _). destruct c; [|done].
  by apply Hrot.
Qed.

Lemma insert_token_fresh h t m s : m !! h = None → is_Some (users s !! tUserID t) → OAuth.insert_token h t m s = Some (<[h := t]> m).
Proof.
  intros Hm Hu. unfold OAuth.insert_token. rewrite Hm, (bool_decide_true (is_Some (users s !! tUserID t))) by done. done.
Qed.

Lemma Consume_healthy now raw s rt :
  refresh_tokens s !! hashAPIKey raw = Some rt → (now ≤ tExpiresAt rt)%Z →
  OAuth.Consume now raw (healthy s) = (Ok (Some rt), healthy (with_refresh s (delete (hashAPIKey raw) (refresh_tokens s)))).
Proof.
  intros Hrt Hexp. apply Z.ltb_ge in Hexp. unfold OAuth.Consume, OAuth.lookup_refresh, db_bind at 1, attempt at 1, query.
  rewrite exec_healthy, Hrt, Hexp. done.
Qed.

Lemma issue_healthy now rawA rawR uid cid scope res w s :
  db w = healthy s → is_Some (users s !! uid) →
  oauth_tokens s !! sha256_hex rawA = None → refresh_tokens s !! sha256_hex rawR = None →
  issue now rawA rawR uid cid scope res w =
  (OTokens rawA rawR scope, with_db w (healthy (granted now rawA rawR uid cid scope res s))).
Proof.
  intros Hdb Hu HA HR. unfold issue, call, mintAccessToken, mintRefreshToken, db_bind, OAuth.CreateToken, OAuth.CreateRefresh.
  rewrite Hdb, exec_healthy, insert_token_fresh by done. cbn [db with_db db_ret]. rewrite exec_healthy, insert_token_fresh by done. done.
Qed.

(** a client registered with a secret
    ([client_secret_post], which the metadata document advertises) is never asked for it
    when it refreshes: whoever holds the refresh token gets new tokens, with any or no
    [client_secret]. *)
Theorem refresh_needs_no_secret : ∀ now rawA rawR r w (s : State) rt row,
  db w = healthy s → FormValue r "refresh_token" ≠ "" → FormValue r "client_id" = "" →
  refresh_tokens s !! hashAPIKey (FormValue r "refresh_token") = Some rt → (now ≤ tExpiresAt rt)%Z →
  is_Some (users s !! tUserID rt) →
  oauth_clients s !! tClientID rt = Some row → cAuthMethod row = "client_secret_post" →
  oauth_tokens s !! sha256_hex rawA = None → refresh_tokens s !! sha256_hex rawR = None →
  (handleTokenRefresh now rawA rawR r w).1 = OTokens rawA rawR (tScope rt).
Proof.
  intros now rawA rawR r w s rt row Hdb Hne Hcid Hrt Hexp Hu _ _ HA HR. unfold handleTokenRefresh.
  apply String.eqb_neq in Hne. rewrite Hne, Hcid. cbn [negb String.eqb]. unfold rotate, call.
  rewrite Hdb, (Consume_healthy now _ s rt Hrt Hexp). cbn [negb String.eqb andb].
  erewrite issue_healthy; [done|reflexivity|done|done|]. cbn. apply lookup_delete_None. by right.
Qed.
End Refresh.

(** ** Witnesses *)
Definition demo_request (method : string) (cookie : option string) (form : gmap string string) : Request :=
  WebAuth.mkRequest method "/" "" "" "" "" "10.0.0.1:9" cookie form [] "".

Definition demo_provider : World :=
  mkWorld (healthy (with_clients (with_sessions demo {["sid" := ("u", 1000 * second)%Z]})
    {["c" := mkClientRow "sha:shh" "App" (Marshal (JArr [JStr "https://app/cb"])) "client_secret_post"]}))
    ∅ (newIPRateLimiter (1 * hour) 10).

Definition demo_authorize : op :=
  Authorize 0 (Ok "code1") (demo_request "POST" (Some "sid")
    {["csrf_token" := "sid"; "action" := "approve"; "client_id" := "c"; "redirect_uri" := "https://app/cb";
      "code_challenge" := "dmVyaWZpZXI"; "scope" := "mcp"]}).

Definition demo_exchange : Request :=
  demo_request "POST" None
    {["grant_type" := "authorization_code"; "code" := "code1"; "client_id" := "c"; "redirect_uri" := "https://app/cb";
      "code_verifier" := "verifier"; "client_secret" := "shh"]}.

Definition demo_token (rawA rawR : string) : op := Token 1 rawA rawR true demo_exchange.

Definition demo_parse (uri : string) : option ParsedURL := Some (mkURL "https" "app").

Definition demo_ops : list op := [demo_authorize; demo_token "A1" "R1"; demo_authorize; demo_token "A2" "R2"].

Lemma demo_replies :
  (λ n, reply_at (run_op (λ s, s) (λ s, s) demo_parse) demo_ops demo_provider n) <$> seq 0 4 =
  [Some (OSuccess "https://app/cb" [("code", "code1")]); Some (OTokens "A1" "R1" "mcp");
   Some (OSuccess "https://app/cb" [("code", "code1")]); Some (OTokens "A2" "R2" "mcp")].
Proof. vm_compute. reflexivity. Qed.

Definition demo_consented : World := state_at (run_op (λ s, s) (λ s, s) demo_parse) demo_ops demo_provider 1.

Lemma code_grant_sound_witness : ∃ ac, codes demo_consented !! "code1" = Some ac ∧ acScope ac = "mcp".
Proof.
  destruct (code_grant_sound (H:=toy_hashing) (λ s, s) 1 "A1" "R1" demo_exchange demo_consented "A1" "R1" "mcp"
    (handleTokenAuthorizationCode (λ s, s) 1 "A1" "R1" demo_exchange demo_consented).2
    (pair_first _ _ ltac:(vm_compute; reflexivity))) as (ac & row & Hac & _ & _ & _ & _ & _ & Hs & _).
  exists ac. split; [exact Hac|symmetry; exact Hs].
Defined.

Lemma code_redeemed_once_witness :
  ∃ m o, 1 < m < 3 ∧ demo_ops !! m = Some o ∧ generates "code1" o.
Proof.
  apply (code_redeemed_once (H:=toy_hashing) (λ s, s) (λ s, s) demo_parse demo_ops demo_provider 1 3 "code1"); [lia| |];
    (do 8 eexists; split_and!; [reflexivity|vm_compute; reflexivity..]).
Defined.

Lemma tokens_follow_consent_witness :
  ∃ k now r, k < 1 ∧ demo_ops !! k = Some (Authorize now (Ok "code1") r).
Proof.
  destruct (tokens_follow_consent (H:=toy_hashing) (λ s, s) (λ s, s) demo_parse demo_ops demo_provider 1 1 "A1" "R1" true demo_exchange
    "A1" "R1" "mcp" eq_refl eq_refl eq_refl ltac:(vm_compute; reflexivity)) as (k & now & r & ac & Hk & Ho & _).
  exists k, now, r. split; [exact Hk|exact Ho].
Defined.

Lemma redirects_stay_registered_witness : safe_redirect demo_parse "https://app/cb".
Proof.
  apply (redirects_stay_registered (H:=toy_hashing) (λ s, s) (λ s, s) demo_parse demo_ops demo_provider 0 "https://app/cb" [("code", "code1")]).
  - apply map_Forall_singleton. constructor; [|constructor]. exists (mkURL "https" "app"). split; [reflexivity|discriminate].
  - repeat constructor.
  - left. vm_compute. reflexivity.
Defined.

Definition demo_refresh : Request := demo_request "POST" None {["grant_type" := "refresh_token"; "refresh_token" := "ref"]}.

Lemma refresh_keeps_grant_witness :
  ∃ rt, refresh_tokens demo !! "sha:ref" = Some rt ∧ tScope rt = "mcp".
Proof.
  destruct (refresh_keeps_grant (H:=toy_hashing) 7 "A" "R" demo_refresh demo_provider "A" "R" "mcp"
    (handleTokenRefresh 7 "A" "R" demo_refresh demo_provider).2 (pair_first _ _ ltac:(vm_compute; reflexivity)))
    as (rt & s & Hrt & _ & _ & _ & _ & Hs & _).
  exists rt. split; [exact Hrt|]. symmetry. exact Hs.
Defined.

Lemma refresh_needs_no_secret_witness :
  (handleTokenRefresh 7 "A" "R" demo_refresh demo_provider).1 = OTokens "A" "R" "mcp".
Proof.
  apply (refresh_needs_no_secret (H:=toy_hashing) 7 "A" "R" demo_refresh demo_provider (tables (db demo_provider)) (mkToken "u" "c" "mcp" "" 100)
    (mkClientRow "sha:shh" "App" (Marshal (JArr [JStr "https://app/cb"])) "client_secret_post")); try reflexivity;
    [discriminate|cbn; lia|by eexists].
Defined.
