(* ===== verification/DeviceAuth.v ===== *)
(** * Device authorization

    [src/internal/web/device_auth.go]: a command-line client asks for a device code, a
    logged-in user approves it in the browser, and the client polls for the API key that
    the approval created.  Requests are kept in memory and handlers share them by pointer:
    the mutex of the store covers looking a request up, and its fields are read after the
    mutex is free again.  So a handler is a sequence of steps, at every use of the mutex and
    every read outside of it, and the steps of handlers interleave. *)
From S2P Require Import Prelude GoStrings Json Profiles Users Sessions WebAuth Runs.
Import IPRateLimiter (Limiter, newIPRateLimiter).

(** ** The store of requests *)
Record DeviceReq := mkReq {
  DeviceCode : string; UserCode : string; DeviceCreatedAt : Z; DeviceExpiresAt : Z; DeviceStatus : string; DeviceKey : string }.

(** A pointer is a position of [heap].  [requests] is keyed by device code, [byUser] maps
    user codes to device codes; [locked] tells whether the mutex is held across a step. *)
Record DeviceStore := mkStore { heap : list DeviceReq; requests : gmap string nat; byUser : gmap string string; locked : bool }.

Definition newDeviceAuthStore : DeviceStore := mkStore [] ∅ ∅ false.

Definition with_heap (s : DeviceStore) h : DeviceStore := mkStore h (requests s) (byUser s) (locked s).

Definition with_lock (s : DeviceStore) (b : bool) : DeviceStore := mkStore (heap s) (requests s) (byUser s) b.

Definition set_status (v : string) (q : DeviceReq) : DeviceReq :=
  mkReq (DeviceCode q) (UserCode q) (DeviceCreatedAt q) (DeviceExpiresAt q) v (DeviceKey q).

Definition set_key (k : string) (q : DeviceReq) : DeviceReq :=
  mkReq (DeviceCode q) (UserCode q) (DeviceCreatedAt q) (DeviceExpiresAt q) (DeviceStatus q) k.

(** The alphabet leaves out what is easily confused. *)
Definition user_code_chars : string := "ABCDEFGHJKLMNPQRSTUVWXYZ23456789".

(** [n] draws of [rand.Int]. *)
Fixpoint draw_chars (n : nat) (draws : list (result nat)) : result string :=
  match n, draws with
  | O, _ => Ok ""
  | S n', Ok i :: rest =>
      match String.get i user_code_chars with
      | Some c => result_map (String c) (draw_chars n' rest)
      | None => Err "index out of range"
      end
  | S _, Err e :: _ => Err ("generating user code: " +:+ e)
  | S _, [] => Err "generating user code: EOF"
  end.

Definition generateUserCode (draws : list (result nat)) : result string :=
  result_map (λ code, take_str 4 code +:+ "-" +:+ drop_str 4 code) (draw_chars 8 draws).

(** [deviceGen] is the outcome of [generateDeviceCode]. *)
Definition create (now : Z) (deviceGen : result string) (draws : list (result nat)) (s : DeviceStore) :
    result DeviceReq * DeviceStore :=
  match deviceGen with
  | Err e => (Err e, s)
  | Ok deviceCode =>
      match generateUserCode draws with
      | Err e => (Err e, s)
      | Ok userCode =>
          let req := mkReq deviceCode userCode now (now + 5 * minute) "pending" "" in
          (Ok req, mkStore (heap s ++ [req]) (<[deviceCode := length (heap s)]> (requests s)) (<[userCode := deviceCode]> (byUser s)) (locked s))
      end
  end.

(** A pointer, while the request is unexpired. *)
Definition get (now : Z) (deviceCode : string) (s : DeviceStore) : option nat :=
  p ← requests s !! deviceCode; req ← heap s !! p;
  if (DeviceExpiresAt req <? now)%Z then None else Some p.

Definition getByUserCode (now : Z) (userCode : string) (s : DeviceStore) : option nat :=
  d ← byUser s !! userCode; get now d s.

(** The two writes of [approve], with the mutex held from the first to the second. *)
Definition approve_status (deviceCode : string) (s : DeviceStore) : option (nat * DeviceStore) :=
  p ← requests s !! deviceCode; Some (p, with_lock (with_heap s (alter (set_status "approved") p (heap s))) true).

Definition approve_key (p : nat) (apiKey : string) (s : DeviceStore) : DeviceStore :=
  with_lock (with_heap s (alter (set_key apiKey) p (heap s))) false.

Definition deny (deviceCode : string) (s : DeviceStore) : DeviceStore :=
  match requests s !! deviceCode with
  | Some p => with_heap s (alter (set_status "denied") p (heap s))
  | None => s
  end.

(** The pointer; a request that is no longer pending is removed. *)
Definition consume (now : Z) (deviceCode : string) (s : DeviceStore) : option nat * DeviceStore :=
  match get now deviceCode s with
  | None => (None, s)
  | Some p =>
      match heap s !! p with
      | None => (None, s)
      | Some req =>
          if DeviceStatus req =?s "pending" then (Some p, s)
          else (Some p, mkStore (heap s) (delete deviceCode (requests s)) (delete (UserCode req) (byUser s)) (locked s))
      end
  end.

Definition expired (now : Z) (s : DeviceStore) (p : nat) : bool :=
  match heap s !! p with Some req => (DeviceExpiresAt req <? now)%Z | None => false end.

(** One tick of the cleanup goroutine: expired requests and their user codes go. *)
Definition cleanup (now : Z) (s : DeviceStore) : DeviceStore :=
  let gone := List.filter (expired now s) (map snd (map_to_list (requests s))) in
  mkStore (heap s) (filter (λ '(_, p), expired now s p = false) (requests s))
    (filter (λ '(u, _), u ∉ omap (λ p, UserCode <$> heap s !! p) gone) (byUser s)) (locked s).

(** ** Handlers *)

(** What a handler that is under way does next.  [Poll...]: the token endpoint with the
    pointer it was given; [Page...]: a POST of the approval page. *)
Inductive Running :=
| PollStatus (p : nat)                        (* read the status *)
| PollKey (p : nat)                           (* it was approved: read the key *)
| PageStatus (p : nat) (user : User) (rawKey keyID : string) (nonce : result string) (r : Request)
| PageDecide (user : User) (rawKey keyID : string) (nonce : result string) (r : Request)
| PageApprove (deviceCode rawKey : string) (nonce : result string)
| PageApproving (p : nat) (rawKey : string) (nonce : result string).

Record World := mkWorld {
  db : Db State; deviceAuth : DeviceStore; deviceStartLimiter : Limiter; deviceTokenLimiter : Limiter;
  flashes : gset string; running : gmap nat Running }.

Definition with_db (w : World) d := mkWorld d (deviceAuth w) (deviceStartLimiter w) (deviceTokenLimiter w) (flashes w) (running w).
Definition with_device (w : World) s := mkWorld (db w) s (deviceStartLimiter w) (deviceTokenLimiter w) (flashes w) (running w).
Definition with_start (w : World) l := mkWorld (db w) (deviceAuth w) l (deviceTokenLimiter w) (flashes w) (running w).
Definition with_token (w : World) l := mkWorld (db w) (deviceAuth w) (deviceStartLimiter w) l (flashes w) (running w).
Definition with_flashes (w : World) f := mkWorld (db w) (deviceAuth w) (deviceStartLimiter w) (deviceTokenLimiter w) f (running w).
Definition with_running (w : World) m := mkWorld (db w) (deviceAuth w) (deviceStartLimiter w) (deviceTokenLimiter w) (flashes w) m.

Inductive Reply :=
| DStatus (code : Z) (body : string)
| DRedirect (location : string)
| DLogin
| DCode (deviceCode userCode verificationURL : string)
| DError (error : string)                     (* a JSON body with an error field *)
| DKey (apiKey : string)
| DPage (error : string)
| DConfirm (deviceCode userCode : string)
| DApproved (shown : bool)
| DDenied.

(** A step answers, or leaves the handler under way. *)
Definition Step : Type := World → option Reply * World.

Definition answer (id : nat) (r : Reply) : Step := λ w, (Some r, with_running w (delete id (running w))).

Definition go_on (id : nat) (next : Running) : Step := λ w, (None, with_running w (<[id := next]> (running w))).

Definition handleDeviceAuthStart (now : Z) (deviceGen : result string) (draws : list (result nat)) (baseURL : string)
    (r : Request) : Step := λ w,
  let ip := clientIP r in
  let '(ok, rl) := IPRateLimiter.allow now ip (deviceStartLimiter w) in
  if negb ok then (Some (DStatus 429 "rate limit exceeded"), with_start w rl)
  else
    let w := with_start w (IPRateLimiter.record now ip rl) in
    if Method r !=? "POST" then (Some (DStatus 405 "method not allowed"), w)
    else match create now deviceGen draws (deviceAuth w) with
         | (Err _, s) => (Some (DStatus 500 "internal error"), with_device w s)
         | (Ok req, s) =>
             (Some (DCode (DeviceCode req) (UserCode req) (baseURL +:+ "/auth/device?code=" +:+ UserCode req)), with_device w s)
         end.

(** The first JSON value of the body. *)
Definition decode_device_code (body : string) : string :=
  match parse_value (S (String.length body)) body with
  | Some (JObj l, _) => default "" (decode_string_field "device_code" l "")
  | _ => ""
  end.

(** Up to the return of [consume]. *)
Definition handleDeviceAuthToken (id : nat) (now : Z) (r : Request) : Step := λ w,
  let ip := clientIP r in
  let '(ok, rl) := IPRateLimiter.allow now ip (deviceTokenLimiter w) in
  if negb ok then (Some (DStatus 429 "rate limit exceeded"), with_token w rl)
  else
    let w := with_token w (IPRateLimiter.record now ip rl) in
    if Method r !=? "POST" then (Some (DStatus 405 "method not allowed"), w)
    else
      let d := decode_device_code (Body r) in
      if d =?s "" then (Some (DStatus 400 "invalid request, device_code required"), w)
      else
        let '(req, s) := consume now d (deviceAuth w) in
        let w := with_device w s in
        match req with
        | None => (Some (DError "expired_token"), w)
        | Some p => go_on id (PollStatus p) w
        end.

(** The switch over the status, without the mutex, and the read of the key. *)
Definition poll_status (id p : nat) : Step := λ w,
  let status := default "" (DeviceStatus <$> heap (deviceAuth w) !! p) in
  if status =?s "approved" then go_on id (PollKey p) w
  else if status =?s "denied" then answer id (DError "access_denied") w
  else answer id (DError "authorization_pending") w.

Definition poll_key (id p : nat) : Step := λ w,
  answer id (DKey (default "" (DeviceKey <$> heap (deviceAuth w) !! p))) w.

Definition handleDeviceAuthPageGet (now : Z) (r : Request) (w : World) : Reply * World :=
  let nonce := FormValue r "approved" in
  let userCode := FormValue r "code" in
  if nonce !=? "" then
    let key := "device-approved-" +:+ nonce in
    (DApproved (bool_decide (key ∈ flashes w)), with_flashes w (flashes w ∖ {[key]}))
  else if userCode =?s "" then
    (DPage "No device code provided. Please run arc-sync init to start the authorization flow.", w)
  else match p ← getByUserCode now (ToUpper userCode) (deviceAuth w); heap (deviceAuth w) !! p with
       | None => (DPage "This device code has expired or is invalid. Please run arc-sync init again.", w)
       | Some req =>
           if DeviceStatus req !=? "pending" then (DPage "This device code has already been used.", w)
           else (DConfirm (DeviceCode req) (UserCode req), w)
       end.

Definition invalid_code : Reply := DPage "This device code has expired or is invalid.".

Section Handlers.
Context `{Hashing} (csrf_mac : string → string).

(** [rawKey] and [keyID] are the fresh key, [nonce] the outcome of [generateID]; up to the return of [get]. *)
Definition handleDeviceAuthPagePost (id : nat) (now : Z) (rawKey keyID : string) (nonce : result string) (user : User)
    (r : Request) : Step := λ w,
  let deviceCode := FormValue r "device_code" in
  if deviceCode =?s "" then (Some (DRedirect "/auth/device"), w)
  else match get now deviceCode (deviceAuth w) with
       | None => (Some invalid_code, w)
       | Some p => go_on id (PageStatus p user rawKey keyID nonce r) w
       end.

(** The status, without the mutex. *)
Definition page_status (id p : nat) (user : User) (rawKey keyID : string) (nonce : result string) (r : Request) : Step := λ w,
  if default "" (DeviceStatus <$> heap (deviceAuth w) !! p) !=? "pending" then answer id invalid_code w
  else go_on id (PageDecide user rawKey keyID nonce r) w.

(** [deny] waits for the mutex; the key of an approval is created without it. *)
Definition page_decide (id : nat) (now : Z) (user : User) (rawKey keyID : string) (nonce : result string) (r : Request) : Step := λ w,
  let deviceCode := FormValue r "device_code" in
  if FormValue r "action" =?s "deny" then
    if locked (deviceAuth w) then (None, w)
    else answer id DDenied (with_device w (deny deviceCode (deviceAuth w)))
  else
    let '(full, d) := attempt (Users.Get (uID user)) (db w) in
    let profile := match full with Ok (Ok (Some u)) => uDefaultProfileID u | _ => None end in
    match CreateAPIKey rawKey keyID now (uID user) "arc-sync device auth" profile [] d with
    | (Err _, d) => answer id (DPage "Failed to create API key. Please try again.") (with_db w d)
    | (Ok (raw, _), d) => go_on id (PageApprove deviceCode raw nonce) (with_db w d)
    end.

(** After [approve]. *)
Definition page_done (id : nat) (nonce : result string) : Step := λ w,
  match nonce with
  | Err _ => answer id (DRedirect "/auth/device") w
  | Ok n => answer id (DRedirect ("/auth/device?approved=" +:+ n)) (with_flashes w ({["device-approved-" +:+ n]} ∪ flashes w))
  end.

Definition page_approve (id : nat) (deviceCode rawKey : string) (nonce : result string) : Step := λ w,
  if locked (deviceAuth w) then (None, w)
  else match approve_status deviceCode (deviceAuth w) with
       | None => page_done id nonce w
       | Some (p, s) => go_on id (PageApproving p rawKey nonce) (with_device w s)
       end.

Definition page_approving (id p : nat) (rawKey : string) (nonce : result string) : Step := λ w,
  page_done id nonce (with_device w (approve_key p rawKey (deviceAuth w))).

Definition handleDeviceAuthPage (id : nat) (now : Z) (rawKey keyID : string) (nonce : result string) (r : Request) : Step := λ w,
  match SessionCookie r with
  | None => (Some DLogin, w)
  | Some cookie =>
      match WebSessions.Get now cookie (db w) with
      | (Ok (Some (user, _)), d) =>
          let w := with_db w d in
          if Method r =?s "GET" then let '(rep, w) := handleDeviceAuthPageGet now r w in (Some rep, w)
          else if Method r =?s "POST" then
            if negb (validateCSRF csrf_mac r cookie) then (Some (DStatus 403 "Invalid or missing CSRF token"), w)
            else handleDeviceAuthPagePost id now rawKey keyID nonce user r w
          else (Some (DStatus 405 "Method not allowed"), w)
      | (_, d) => (Some DLogin, with_db w d)
      end
  end.

Definition continue (id : nat) (now : Z) : Step := λ w,
  match running w !! id with
  | None => (None, w)
  | Some (PollStatus p) => poll_status id p w
  | Some (PollKey p) => poll_key id p w
  | Some (PageStatus p user rawKey keyID nonce r) => page_status id p user rawKey keyID nonce r w
  | Some (PageDecide user rawKey keyID nonce r) => page_decide id now user rawKey keyID nonce r w
  | Some (PageApprove d rawKey nonce) => page_approve id d rawKey nonce w
  | Some (PageApproving p rawKey nonce) => page_approving id p rawKey nonce w
  end.

(** ** The system *)
Inductive op :=
| Start (now : Z) (deviceGen : result string) (draws : list (result nat)) (baseURL : string) (r : Request)
| Poll (id : nat) (now : Z) (r : Request)
| Page (id : nat) (now : Z) (rawKey keyID : string) (nonce : result string) (r : Request)
| Continue (id : nat) (now : Z)        (** the next step of a handler under way *)
| CleanDevices (now : Z)
| DropFlash (nonce : string)
| Store (m : DBM State unit).  (** any other use of the database *)

(** A step that needs the mutex while it is held does not happen, nor does a request under a
    number that is in use. *)
Definition run_op (o : op) (w : World) : option Reply * World :=
  let lock (k : Step) : option Reply * World := if locked (deviceAuth w) then (None, w) else k w in
  let fresh (id : nat) (k : Step) : option Reply * World := match running w !! id with Some _ => (None, w) | None => lock k end in
  match o with
  | Start now g draws url r => lock (handleDeviceAuthStart now g draws url r)
  | Poll id now r => fresh id (handleDeviceAuthToken id now r)
  | Page id now raw kid nonce r => fresh id (handleDeviceAuthPage id now raw kid nonce r)
  | Continue id now => continue id now w
  | CleanDevices now => lock (λ w, (None, with_device w (cleanup now (deviceAuth w))))
  | DropFlash nonce => (None, with_flashes w (flashes w ∖ {["device-approved-" +:+ nonce]}))
  | Store m => (None, with_db w (snd (m (db w))))
  end.

End Handlers.

(** [handleDownload]: the names it serves; [None] is a refusal. *)
Definition validBinaries : list string :=
  ["arc-sync-linux-amd64"; "arc-sync-linux-arm64"; "arc-sync-darwin-arm64"; "arc-sync-darwin-amd64";
   "arc-sync-windows-amd64.exe"; "arc-sync-windows-arm64.exe"].

Inductive Download := DownloadError (code : Z) (msg : string) | DownloadLocal (name : string) | DownloadRedirect (url : string).

(** [local] tells whether the downloads directory has the file as a regular file, [repo] is
    the value of [ARC_RELAY_DOWNLOAD_REPO]. *)
Definition handleDownload (local : string → bool) (repo : string) (r : Request) : Download :=
  if Method r !=? "GET" then DownloadError 405 "Method not allowed"
  else
    let binary := TrimPrefix (Path r) "/download/" in
    if binary =?s "" then DownloadError 400 "Missing binary name"
    else if negb (existsb (String.eqb binary) validBinaries) then DownloadError 404 "Unknown binary"
    else if local binary then DownloadLocal binary
    else DownloadRedirect ("https://github.com/" +:+ (if repo =?s "" then "ATECHPCS/arc-relay" else repo) +:+
                           "/releases/latest/download/" +:+ binary).

(** ** User codes *)

Lemma draw_chars_alphabet n draws code :
  draw_chars n draws = Ok code →
  String.length code = n ∧ all_chars (λ c, existsb (Ascii.eqb c) (String.list_ascii_of_string user_code_chars)) code = true.
Proof.
  revert draws code. induction n as [|n IH]; intros draws code; [by intros [= <-]|]. cbn [draw_chars].
  destruct draws as [|[i|e] rest]; [done| |done]. destruct (String.get i user_code_chars) as [c|] eqn:Eg; [|done].
  destruct (draw_chars n rest) as [t|] eqn:Ed; [|done]. intros [= <-]. destruct (IH _ _ Ed) as [<- Ha].
  cbn -[String.list_ascii_of_string]. rewrite Ha. split; [done|]. rewrite andb_true_r.
  clear -Eg. do 32 (destruct i as [|i]; [injection Eg as <-; reflexivity|]). destruct i; discriminate.
Qed.

Lemma all_chars_split p n s : all_chars p s = true → all_chars p (take_str n s) = true ∧ all_chars p (drop_str n s) = true.
Proof.
  revert n. induction s as [|c s IH]; intros [|n] Hs; cbn in *; try done. apply andb_true_iff in Hs as [Hc Hs].
  destruct (IH n Hs) as [-> ->]. by rewrite Hc.
Qed.

Lemma ToUpper_app a b : ToUpper (a +:+ b) = ToUpper a +:+ ToUpper b.
Proof. induction a as [|c a IH]; [done|]. rewrite str_app_cons. cbn. by rewrite IH. Qed.

Lemma alphabet_upper code :
  all_chars (λ c, existsb (Ascii.eqb c) (String.list_ascii_of_string user_code_chars)) code = true → ToUpper code = code.
Proof.
  induction code as [|c code IH]; [done|]. cbn -[String.list_ascii_of_string existsb]. intros [Hc Ha]%andb_true_iff.
  f_equal; [|by apply IH]. apply existsb_exists in Hc as (c' & Hin & Hc). apply Ascii.eqb_eq in Hc as <-.
  cbn in Hin. repeat (destruct Hin as [<-|Hin]; [reflexivity|]). done.
Qed.

(** ** Theorems: runs *)
Section DeviceRuns.
Context `{Hashing} (csrf_mac : string → string).








(** *** One step and the requests *)

(** What never changes in a request, and that requests are never freed. *)
Definition same_request (a b : DeviceReq) : Prop := DeviceCode b = DeviceCode a ∧ DeviceExpiresAt b = DeviceExpiresAt a.

Definition heap_grows (h h' : list DeviceReq) : Prop := ∀ p q, h !! p = Some q → ∃ q', h' !! p = Some q' ∧ same_request q q'.



Lemma heap_grows_app h l : heap_grows h (h ++ l).
Proof. intros p q Hq. exists q. split; [by apply lookup_app_l_Some|done]. Qed.







(** *** Histories *)













End DeviceRuns.

(** a generated user code is eight characters of the alphabet with a
    dash in the middle, and typing it back in any case finds the request while it is
    unexpired. *)
Theorem user_code_roundtrip : ∀ now now' deviceGen draws s req s' typed,
  create now deviceGen draws s = (Ok req, s') → ToUpper typed = ToUpper (UserCode req) → (now' ≤ now + 5 * minute)%Z →
  (∃ p, getByUserCode now' (ToUpper typed) s' = Some p ∧ heap s' !! p = Some req) ∧ String.length (UserCode req) = 9 ∧
  String.get 4 (UserCode req) = Some "-"%char.
Proof.
  intros now now' g draws s req s' typed Hc Ht Hexp. unfold create, generateUserCode in Hc. destruct g as [d0|]; [|done].
  destruct (draw_chars 8 draws) as [code|] eqn:Ed; [|done]. cbn [result_map] in Hc.
  apply draw_chars_alphabet in Ed as [Hlen Ha].
  assert (Hup : ToUpper (take_str 4 code +:+ "-" +:+ drop_str 4 code) = take_str 4 code +:+ "-" +:+ drop_str 4 code).
  { destruct (all_chars_split _ 4 code Ha) as [H1 H2]. by rewrite !ToUpper_app, (alphabet_upper _ H1), (alphabet_upper _ H2). }
  set (uc := take_str 4 code +:+ "-" +:+ drop_str 4 code) in *.
  assert (Hshape : String.length uc = 9 ∧ String.get 4 uc = Some "-"%char).
  { subst uc. clear - Hlen. do 8 (destruct code as [|? code]; [discriminate Hlen|]). by destruct code. }
  clearbody uc. injection Hc as <- <-. cbn [UserCode] in Ht |- *. split; [|done].
  rewrite Ht, Hup. exists (length (heap s)). unfold getByUserCode, get. cbn [requests byUser heap].
  assert (Hl : ∀ x, (heap s ++ [x]) !! length (heap s) = Some x) by (intros x; by rewrite lookup_app_r, Nat.sub_diag).
  rewrite !lookup_insert_eq. cbn [mbind option_bind]. rewrite lookup_insert_eq. cbn [mbind option_bind]. rewrite Hl. cbn [mbind option_bind DeviceExpiresAt].
  destruct (now + 5 * minute <? now')%Z eqn:E; [|done]. bool_prop. lia.
Qed.

(** ** Witnesses *)
Definition demo_form (method : string) (cookie : option string) (form : gmap string string) (body : string) : Request :=
  WebAuth.mkRequest method "/" "" "" "" "" "10.0.0.1:9" cookie form [] body.

Definition demo_device_world : World :=
  mkWorld (healthy (with_sessions demo {["sid" := ("u", 1000 * second)%Z]})) newDeviceAuthStore
    (newIPRateLimiter (15 * minute) 20) (newIPRateLimiter (1 * minute) 60) ∅ ∅.

Definition demo_start : op := Start 0 (Ok "dev") (Ok <$> [0; 1; 2; 3; 28; 29; 30; 31]) "https://relay" (demo_form "POST" None ∅ "").

Definition demo_poll (id : nat) : op := Poll id 2 (demo_form "POST" None ∅ (Marshal (JObj [("device_code", JStr "dev")]))).

Definition demo_approval : list op :=
  Page 9 1 "rawkey" "k9" (Ok "n") (demo_form "POST" (Some "sid") {["csrf_token" := "sid"; "device_code" := "dev"; "action" := "approve"]} "")
  :: replicate 4 (Continue 9 1).



(** Two polls that looked the request up before it was approved both hand the key out, and a
    third after them as well: its approval is read through the pointer after the mutex is free. *)
Example key_handed_out_twice :
  map (λ j, reply_at (run_op (H:=toy_hashing) (λ x, x))
    ([demo_start; demo_poll 1; demo_poll 2] ++ demo_approval ++ [Continue 1 2; Continue 1 2; Continue 2 2; Continue 2 2; demo_poll 3; Continue 3 2; Continue 3 2])
    demo_device_world j) [9; 11; 14] = replicate 3 (Some (DKey "rawkey")).
Proof. vm_compute. reflexivity. Qed.

(** Between the two writes of an approval a poll reads that it is approved and no key. *)
Example empty_key_handed_out :
  reply_at (run_op (H:=toy_hashing) (λ x, x)) ([demo_start; demo_poll 1] ++ take 4 demo_approval ++ [Continue 1 2; Continue 1 2]) demo_device_world 7 = Some (DKey "").
Proof. vm_compute. reflexivity. Qed.

Lemma user_code_roundtrip_witness :
  ∃ req s, create 0 (Ok "dev") (Ok <$> [0; 1; 2; 3; 28; 29; 30; 31]) newDeviceAuthStore = (Ok req, s) ∧
    ∃ p, getByUserCode 5 (ToUpper "abcd-6789") s = Some p ∧ heap s !! p = Some req.
Proof.
  do 2 eexists. split; [vm_compute; reflexivity|].
  apply (user_code_roundtrip 0 5 (Ok "dev") (Ok <$> [0; 1; 2; 3; 28; 29; 30; 31]) newDeviceAuthStore _ _ "abcd-6789");
    [vm_compute; reflexivity|vm_compute; reflexivity|vm_compute; discriminate].
Defined.
