(* ===== verification/Mcp.v ===== *)
(** * MCP messages

    [src/internal/mcp/protocol.go]: JSON-RPC requests, responses and errors, and the
    decoding and encoding the proxy performs on them.

    A [json.RawMessage] of a request (id, params) is represented by the JSON value it
    denotes.  The result of a response is its text, because middlewares measure, cut
    and rewrite that text and may leave something that is no JSON any more. *)
From stdpp Require Import pretty.
From S2P Require Import Prelude GoStrings Json.

Record Request := mkRequest {
  JSONRPC : string; ReqID : option json; Method : string; Params : option json }.

Record RPCError := mkRPCError { Code : Z; Message : string; Data : option json }.

Record Response := mkResponse {
  RespJSONRPC : string; RespID : option json; Result : option string; Error : option RPCError }.

Record Notification := mkNotification { NJSONRPC : string; NMethod : string; NParams : option json }.

Definition ErrCodeParse : Z := -32700.
Definition ErrCodeInvalidRequest : Z := -32600.
Definition ErrCodeMethodNotFound : Z := -32601.
Definition ErrCodeInvalidParams : Z := -32602.
Definition ErrCodeInternal : Z := -32603.

Definition NewErrorResponse (id : option json) (code : Z) (message : string) : Response :=
  mkResponse "2.0" id None (Some (mkRPCError code message None)).

(** [params] of [NewRequest] and [result] of [NewResponse] are values that marshal. *)
Definition NewRequest (id : option json) (method : string) (params : option json) : Request :=
  mkRequest "2.0" id method params.

Definition NewResponse (id : option json) (result : json) : Response :=
  mkResponse "2.0" id (Some (Marshal result)) None.

(** ** Decoding

    [json.Unmarshal] into [Request]: keys match the field names up to case, the last
    one wins, a field of the wrong type is an error, [null] leaves a string field
    untouched and is kept as the raw text [null] in a raw field. *)
Definition decode_request (l : list (string * json)) : option Request :=
  v ← decode_string_field "jsonrpc" l "";
  m ← decode_string_field "method" l "";
  Some (mkRequest v (decode_raw_field "id" l None) m (decode_raw_field "params" l None)).

(** The notification is decoded with its error ignored; a field of the wrong type is
    left empty. *)
Definition lenient_string (name : string) (l : list (string * json)) : string :=
  foldl (λ cur '(k, v), if EqualFold k name then match v with JStr s => s | _ => cur end else cur) "" l.

Definition decode_notification (l : list (string * json)) : Notification :=
  mkNotification (lenient_string "jsonrpc" l) (lenient_string "method" l) (decode_raw_field "params" l None).

(** ** Encoding a response

    [json.NewEncoder(w).Encode(resp)]: a result that is no JSON makes the encoder fail
    and nothing is written ([None]). *)
Definition rpc_error_json (e : RPCError) : json :=
  JObj ([("code", JNum (pretty (Code e))); ("message", JStr (Message e))]
        ++ match Data e with Some d => [("data", d)] | None => [] end).

Definition encode_response (r : Response) : option json :=
  res ← match Result r with
        | None => Some []
        | Some text => j ← Unmarshal text; Some [("result", j)]
        end;
  Some (JObj ([("jsonrpc", JStr (RespJSONRPC r))]
              ++ match RespID r with Some i => [("id", i)] | None => [] end
              ++ res
              ++ match Error r with Some e => [("error", rpc_error_json e)] | None => [] end)).

(** ** Which endpoint a request addresses *)

(** [json.Unmarshal(params, &p)] with one string field; absent params are an error. *)
Definition param_string (name : string) (params : option json) : string :=
  match params with
  | Some (JObj l) => default "" (decode_string_field name l "")
  | _ => ""
  end.

Definition extractEndpointName (method : string) (params : option json) : string * string :=
  if method =?s "tools/call" then ("tool", param_string "name" params)
  else if method =?s "resources/read" then ("resource", param_string "uri" params)
  else if method =?s "prompts/get" then ("prompt", param_string "name" params)
  else ("", "").

Definition methodShouldLog (method : string) : bool :=
  negb (existsb (String.eqb method)
    ["initialize"; "ping"; "tools/list"; "resources/list"; "prompts/list"; "notifications/initialized"]).
