(* ===== verification/Servers.v ===== *)
(** * The server store

    [src/internal/store/servers.go]: the registered MCP servers, their slugs and their
    configuration, encrypted at rest, and the image tag of an auto-built server. *)
From S2P Require Import Prelude GoStrings Base64 Crypto.

Record Server := mkServer {
  ID : string; Name : string; DisplayName : string; ServerType : string; Config : string;
  Status : string; ErrorMsg : string; Health : string; HealthCheckAt : option Z;
  HealthError : string; OptimizeEnabled : bool; CreatedAt : Z; UpdatedAt : Z }.

(** ** Slugs *)

Definition slug_char (c : ascii) : bool :=
  ((97 <=? byte c) && (byte c <=? 122)) || ((48 <=? byte c) && (byte c <=? 57)).

Definition slug_inner (c : ascii) : bool := slug_char c || (byte c =? 45).

Fixpoint last_char (c : ascii) (s : string) : ascii :=
  match s with EmptyString => c | String d r => last_char d r end.

(** [^[a-z0-9][a-z0-9-]*[a-z0-9]$]: the first and the last character are two
    characters. *)
Definition slugPattern (s : string) : bool :=
  match s with
  | String c (String d r) =>
      slug_char c && all_chars slug_inner (String d r) && slug_char (last_char d r)
  | _ => false
  end.

Definition ValidateSlug (name : string) : result unit :=
  if name =?s "" then Err "slug name is required"
  else if negb (slugPattern name)
  then Err "slug must be lowercase alphanumeric with hyphens, at least 2 characters"
  else Ok tt.

Definition ErrSlugConflict : string := "server slug already exists".

(** ** The store *)
Abbreviation State := (gmap string Server).

Definition valid_server_type (t : string) : bool := (t =?s "stdio") || (t =?s "http") || (t =?s "remote").

Definition valid_status (x : string) : bool :=
  (x =?s "stopped") || (x =?s "starting") || (x =?s "running") || (x =?s "error").

Definition valid_health (x : string) : bool :=
  (x =?s "healthy") || (x =?s "unhealthy") || (x =?s "unknown").

(** Another row than [but] has the name. *)
Definition name_taken (name : string) (but : option string) (m : State) : bool :=
  existsb (λ '(id, s), negb (bool_decide (Some id = but)) && (Name s =?s name)) (map_to_list m).

Section Store.
Context (crypto : ConfigEncryptor).

(** [uuid] is the fresh id, used when the caller gave none. *)
Definition Create (uuid : string) (nonce : option string) (now : Z) (srv : Server) : DBM State Server :=
  match ValidateSlug (Name srv) with
  | Err e => db_fail e
  | Ok _ =>
      let id := if ID srv =?s "" then uuid else ID srv in
      match Encrypt crypto nonce (Config srv) with
      | Err e => db_fail ("encrypting config: " +:+ e)
      | Ok stored =>
          exec (λ m,
            if negb (valid_server_type (ServerType srv)) then Err "creating server: CHECK constraint failed: servers"
            else if bool_decide (is_Some (m !! id)) || name_taken (Name srv) None m then Err ErrSlugConflict
            else
              let row := mkServer id (Name srv) (DisplayName srv) (ServerType srv) stored "stopped" ""
                           "unknown" None "" false now now in
              Ok (mkServer id (Name srv) (DisplayName srv) (ServerType srv) (Config srv) "stopped"
                    (ErrorMsg srv) (Health srv) (HealthCheckAt srv) (HealthError srv) (OptimizeEnabled srv) now now,
                  <[id := row]> m))
      end
  end.

Definition with_config (s : Server) (c : string) : Server :=
  mkServer (ID s) (Name s) (DisplayName s) (ServerType s) c (Status s) (ErrorMsg s) (Health s)
    (HealthCheckAt s) (HealthError s) (OptimizeEnabled s) (CreatedAt s) (UpdatedAt s).

Definition decrypt_row (s : Server) : result Server := result_map (with_config s) (Decrypt crypto (Config s)).

Definition lift_result {A} (r : result A) : DBM State A :=
  match r with Ok a => db_ret a | Err e => db_fail e end.

Definition fetch (row : option Server) : DBM State (option Server) :=
  match row with
  | None => db_ret None
  | Some s => lift_result (result_map Some (match decrypt_row s with
                                           | Ok s => Ok s
                                           | Err e => Err ("decrypting config: " +:+ e)
                                           end))
  end.

Definition Get (id : string) : DBM State (option Server) :=
  let! row := query (λ m, m !! id) in fetch row.

Definition GetByName (name : string) : DBM State (option Server) :=
  let! row := query (λ m, snd <$> List.find (λ '(_, s), Name s =?s name) (map_to_list m)) in fetch row.

(** One undecryptable row fails the whole listing. *)
Fixpoint decrypt_all (l : list Server) : result (list Server) :=
  match l with
  | [] => Ok []
  | s :: r => match decrypt_row s with
              | Err e => Err ("decrypting config for " +:+ Name s +:+ ": " +:+ e)
              | Ok s => result_map (cons s) (decrypt_all r)
              end
  end.

Definition ListServers : DBM State (list Server) :=
  let! rows := query (λ m, stable_sort (λ a b, CreatedAt a <=? CreatedAt b)%Z (map snd (map_to_list m))) in
  lift_result (decrypt_all rows).

Definition Update (nonce : option string) (now : Z) (srv : Server) : DBM State unit :=
  match Encrypt crypto nonce (Config srv) with
  | Err e => db_fail ("encrypting config: " +:+ e)
  | Ok stored =>
      exec (λ m, match m !! ID srv with
        | None => Ok (tt, m)
        | Some old =>
            if negb (valid_server_type (ServerType srv) && valid_status (Status srv))
            then Err "updating server: CHECK constraint failed: servers"
            else if name_taken (Name srv) (Some (ID srv)) m then Err ErrSlugConflict
            else Ok (tt, <[ID srv := mkServer (ID srv) (Name srv) (DisplayName srv) (ServerType srv) stored
                      (Status srv) (ErrorMsg srv) (Health old) (HealthCheckAt old) (HealthError old)
                      (OptimizeEnabled old) (CreatedAt old) now]> m)
        end)
  end.

Definition UpdateStatus (now : Z) (id status errMsg : string) : DBM State unit :=
  exec (λ m, if bool_decide (is_Some (m !! id)) && negb (valid_status status)
    then Err "updating server status: CHECK constraint failed: servers"
    else Ok (tt, alter (λ s, mkServer (ID s) (Name s) (DisplayName s) (ServerType s) (Config s) status errMsg
               (Health s) (HealthCheckAt s) (HealthError s) (OptimizeEnabled s) (CreatedAt s) now) id m)).

Definition UpdateHealth (now : Z) (id health healthError : string) : DBM State unit :=
  exec (λ m, if bool_decide (is_Some (m !! id)) && negb (valid_health health)
    then Err "updating server health: CHECK constraint failed: servers"
    else Ok (tt, alter (λ s, mkServer (ID s) (Name s) (DisplayName s) (ServerType s) (Config s) (Status s)
               (ErrorMsg s) health (Some now) healthError (OptimizeEnabled s) (CreatedAt s) now) id m)).

Definition UpdateConfig (nonce : option string) (now : Z) (id config : string) : DBM State unit :=
  match Encrypt crypto nonce config with
  | Err e => db_fail ("encrypting config: " +:+ e)
  | Ok stored => update (alter (λ s, mkServer (ID s) (Name s) (DisplayName s) (ServerType s) stored (Status s)
      (ErrorMsg s) (Health s) (HealthCheckAt s) (HealthError s) (OptimizeEnabled s) (CreatedAt s) now) id)
  end.

Definition SetOptimizeEnabled (now : Z) (id : string) (enabled : bool) : DBM State unit :=
  update (alter (λ s, mkServer (ID s) (Name s) (DisplayName s) (ServerType s) (Config s) (Status s)
      (ErrorMsg s) (Health s) (HealthCheckAt s) (HealthError s) enabled (CreatedAt s) now) id).

Definition Delete (id : string) : DBM State unit := update (delete id).
End Store.

(** Reading changes nothing, whatever fails. *)
Lemma preserves_ListServers P crypto : preserves P (ListServers crypto).
Proof. apply preserves_bind; [apply preserves_query|]. intros rows d Hd. by destruct (decrypt_all crypto rows). Qed.

Lemma preserves_Get P crypto id : preserves P (Get crypto id).
Proof. apply preserves_bind; [apply preserves_query|]. intros [s|] d Hd; [|done]. cbn. unfold lift_result. by destruct (decrypt_row crypto s). Qed.

(** ** Image tags *)
Record StdioBuildConfig := mkBuild {
  Package : string; Version : string; GitURL : string; GitRef : string }.

Fixpoint last_index (p : ascii) (s : string) : option nat :=
  match s with
  | EmptyString => None
  | String c r => match last_index p r with
                  | Some i => Some (S i)
                  | None => if Ascii.eqb c p then Some 0%nat else None
                  end
  end.

Definition repoNameFromURL (u : string) : string :=
  let u := match last_index ":"%char u with
           | Some (S i) => if negb (Contains u "://") then drop_str (S (S i)) u else u
           | _ => u
           end in
  let u := TrimSuffix u ".git" in
  let u := match last_index "/"%char u with Some i => drop_str (S i) u | None => u end in
  if u =?s "" then "unknown" else u.

(** [strings.Map]: lower case, with everything unsafe replaced by a hyphen. *)
Definition tag_char (c : ascii) : ascii :=
  if slug_char c || (byte c =? 45) || (byte c =? 46) || (byte c =? 47) then c
  else if (65 <=? byte c) && (byte c <=? 90) then lower_char c
  else "-"%char.

Definition is_dash (c : ascii) : bool := byte c =? 45.

Definition BuildImageTag (b : StdioBuildConfig) : string :=
  let source := if (Package b =?s "") && (GitURL b !=? "") then repoNameFromURL (GitURL b) else Package b in
  let name := trim_func is_dash (map_str tag_char source) in
  let version := if (Version b =?s "") && (GitRef b !=? "")
                 then map_str (λ c, if Ascii.eqb c "/"%char then "-"%char else c) (GitRef b)
                 else Version b in
  let version := if version =?s "" then "latest" else version in
  "arc-relay-build/" +:+ name +:+ ":" +:+ version.

(** ** Theorems *)

Definition server_ok (id : string) (s : Server) : Prop :=
  ID s = id ∧ valid_server_type (ServerType s) = true ∧ valid_status (Status s) = true ∧
  valid_health (Health s) = true.

Definition unique_slugs (m : State) : Prop :=
  ∀ i j a b, m !! i = Some a → m !! j = Some b → Name a = Name b → i = j.

Definition wf (m : State) : Prop := map_Forall server_ok m ∧ unique_slugs m.

Lemma name_taken_false name but m :
  name_taken name but m = false ↔ ∀ i s, m !! i = Some s → Some i ≠ but → Name s ≠ name.
Proof.
  unfold name_taken. rewrite existsb_map_false. split; intros Hn i s Hs.
  - intros Hne Hnm. specialize (Hn i s Hs). cbn in Hn. apply String.eqb_eq in Hnm.
    by rewrite bool_decide_false, Hnm in Hn.
  - destruct (bool_decide _) eqn:E; [done|]. bool_prop. cbn. apply String.eqb_neq. eauto.
Qed.

Lemma wf_insert m id s :
  wf m → server_ok id s → (∀ i x, m !! i = Some x → i ≠ id → Name x ≠ Name s) → wf (<[id := s]> m).
Proof.
  intros [Ha Hu] Hs Hn. split; [by apply map_Forall_insert_2|].
  intros i j a b Hi Hj Eab. rewrite lookup_insert_Some in Hi, Hj.
  destruct Hi as [[<- <-]|[Hi Hia]], Hj as [[<- <-]|[Hj Hjb]]; try done.
  - by destruct (Hn j b Hjb).
  - by destruct (Hn i a Hia).
  - by apply (Hu i j a b).
Qed.

Lemma wf_alter m id f :
  wf m → (∀ s, m !! id = Some s → server_ok id s → server_ok id (f s)) → (∀ s, Name (f s) = Name s) → wf (alter f id m).
Proof.
  intros Hm Hf Hn. destruct (m !! id) as [s|] eqn:E.
  - replace (alter f id m) with (<[id := f s]> m).
    + apply wf_insert; [done|apply (Hf _ eq_refl), Hm, E|]. intros i x Hx Hne Hnm. rewrite Hn in Hnm.
      by apply Hne, (proj2 Hm i id x s).
    + apply map_eq. intros j. destruct (decide (id = j)) as [->|Hne].
      * by rewrite lookup_insert_eq, lookup_alter_eq, E.
      * by rewrite lookup_insert_ne, lookup_alter_ne.
  - replace (alter f id m) with m; [done|]. apply map_eq. intros j. destruct (decide (id = j)) as [->|Hne].
    + by rewrite lookup_alter_eq, E.
    + by rewrite lookup_alter_ne.
Qed.

(** every write of the server store keeps the slugs unique and
    the type, status and health columns within their allowed values, whatever statements
    fail; a write that violates them is refused. *)
Theorem server_store_invariant : ∀ crypto uuid nonce now srv id a b en,
  preserves wf (Create crypto uuid nonce now srv) ∧ preserves wf (Update crypto nonce now srv) ∧
  preserves wf (UpdateStatus now id a b) ∧ preserves wf (UpdateHealth now id a b) ∧
  preserves wf (UpdateConfig crypto nonce now id a) ∧ preserves wf (SetOptimizeEnabled now id en) ∧
  preserves wf (Delete id).
Proof.
  intros crypto uuid nonce now srv id a b en. split_and!.
  - unfold Create. destruct (ValidateSlug _); [|apply preserves_fail].
    destruct (Encrypt _ _ _); [|apply preserves_fail]. apply preserves_exec. intros m r m' Hm E.
    destruct (negb _) eqn:E1; [done|]. destruct (_ || _) eqn:E2; [done|]. injection E as _ <-.
    apply orb_false_iff in E2 as [_ E2]. rewrite name_taken_false in E2. bool_prop.
    apply wf_insert; [done|by split_and!|]. intros i x Hx _. by apply (E2 i).
  - unfold Update. destruct (Encrypt _ _ _); [|apply preserves_fail]. apply preserves_exec. intros m r m' Hm E.
    destruct (m !! ID srv) as [old|] eqn:Eo; [|by simplify_eq].
    destruct (negb _) eqn:E1; [done|]. destruct (name_taken _ _ _) eqn:E2; [done|]. injection E as _ <-.
    rewrite name_taken_false in E2. bool_prop. destruct (proj1 Hm _ _ Eo) as (_ & _ & _ & Hh).
    apply wf_insert; [done|by split_and!|]. intros i x Hx Hne. apply (E2 i); [done|congruence].
  - apply preserves_exec. intros m r m' Hm E. destruct (_ && _) eqn:E1; [done|]. injection E as _ <-.
    apply wf_alter; [done| |done]. intros s Hs (? & ? & ? & ?). rewrite Hs in E1.
    rewrite bool_decide_true in E1 by done. cbn in E1. bool_prop. by split_and!.
  - apply preserves_exec. intros m r m' Hm E. destruct (_ && _) eqn:E1; [done|]. injection E as _ <-.
    apply wf_alter; [done| |done]. intros s Hs (? & ? & ? & ?). rewrite Hs in E1.
    rewrite bool_decide_true in E1 by done. cbn in E1. bool_prop. by split_and!.
  - unfold UpdateConfig. destruct (Encrypt _ _ _); [|apply preserves_fail]. apply preserves_update.
    intros m Hm. apply wf_alter; [done| |done]. by intros s _ (? & ? & ? & ?).
  - apply preserves_update. intros m Hm. apply wf_alter; [done| |done]. by intros s _ (? & ? & ? & ?).
  - apply preserves_update. intros m [Ha Hu]. split; [by apply map_Forall_delete|].
    intros i j x y [_ Hx]%lookup_delete_Some [_ Hy]%lookup_delete_Some. by apply Hu.
Qed.

(** a server that is created under a fresh valid slug is found
    again under that slug with exactly the configuration it was created with, while the
    table holds only its ciphertext; a slug that is taken is refused and nothing changes. *)
Theorem server_config_roundtrip : ∀ (g : AEAD) `{!AEADLaws g} nonce uuid now srv (m : State),
  String.length nonce = NonceSize g → ValidateSlug (Name srv) = Ok tt →
  valid_server_type (ServerType srv) = true → ID srv = "" → m !! uuid = None →
  let crypto := mkEncryptor (Some g) in
  (name_taken (Name srv) None m = false →
   let m' := final (Create crypto uuid (Some nonce) now srv) (healthy m) in
   result_map (option_map Config) (outcome (GetByName crypto (Name srv)) (healthy m')) = Ok (Some (Config srv)) ∧
   (∃ row, m' !! uuid = Some row ∧ HasPrefix (Config row) encryptedPrefix = true)) ∧
  (name_taken (Name srv) None m = true →
   outcome (Create crypto uuid (Some nonce) now srv) (healthy m) = Err ErrSlugConflict ∧
   final (Create crypto uuid (Some nonce) now srv) (healthy m) = m).
Proof.
  intros g Hg nonce uuid now srv m Hn Hslug Hty Hid Hfree crypto. unfold final, outcome, Create.
  rewrite Hslug, Hid. cbn [String.eqb]. destruct (Encrypt crypto (Some nonce) (Config srv)) as [stored|] eqn:Ee; [|done].
  rewrite !exec_healthy, Hty, Hfree. cbn. split; intros Hnm; rewrite Hnm; [|done].
  cbn. set (row := mkServer uuid _ _ _ stored _ _ _ _ _ _ _ _). split.
  - unfold GetByName, db_bind, query, exec. cbn [next_fault faults tables healthy fst snd].
    erewrite (find_map_unique _ _ uuid row); cbn -[Decrypt decrypt_row].
    + unfold decrypt_row. cbn -[Decrypt]. unfold crypto. by rewrite (Decrypt_Encrypt_key g nonce _ _ Hn Ee).
    + apply lookup_insert_eq.
    + apply String.eqb_refl.
    + intros j y Hy Hny. bool_prop. destruct (decide (j = uuid)) as [|Hne]; [done|].
      rewrite lookup_insert_ne in Hy by done. rewrite name_taken_false in Hnm. by destruct (Hnm j y Hy).
  - exists row. rewrite lookup_insert_eq. split; [done|]. by apply (Encrypt_prefixed g (Some nonce) (Config srv)).
Qed.

Lemma server_config_roundtrip_witness :
  let srv := mkServer "" "github" "GitHub" "remote" "{}" "" "" "" None "" false 0 0 in
  let m' := final (Create (mkEncryptor (Some toy_aead)) "id1" (Some "ab") 5 srv) (healthy ∅) in
  result_map (option_map Config) (outcome (GetByName (mkEncryptor (Some toy_aead)) "github") (healthy m')) = Ok (Some "{}").
Proof.
  apply (proj1 (server_config_roundtrip toy_aead "ab" "id1" 5
    (mkServer "" "github" "GitHub" "remote" "{}" "" "" "" None "" false 0 0) ∅ eq_refl eq_refl eq_refl eq_refl (lookup_empty "id1"))).
  reflexivity.
Defined.
