(* ===== verification/Middleware.v ===== *)
(** * The middleware pipeline

    [src/internal/store/middleware.go] (configuration rows and the event log) and
    [src/internal/middleware]: the pipeline and registry of [middleware.go] and the
    built-in middlewares [sanitizer.go], [sizer.go], [alerter.go] and [archive.go].

    A middleware is a record of two operations on the pipeline's shared state: the
    configuration and event tables, the archive dispatcher, the webhooks sent and the
    random source. *)
From stdpp Require Import pretty.
From S2P Require Import Prelude GoStrings Json JsonDecode Base64 Crypto ArchiveQueue ArchiveDispatcher Mcp.

(** ** The store *)
Module MwStore.
Record MiddlewareConfig := mkConfig {
  ID : string; ServerID : option string; Middleware : string; Enabled : bool; Config : string;
  Priority : Z; CreatedAt : Z; UpdatedAt : Z }.

Record MiddlewareEvent := mkEvent {
  EvID : string; Timestamp : Z; EvServerID : string; EvMiddleware : string; EventType : string;
  Summary : string; RequestMethod : string; EndpointName : string; UserID : string }.

(** Rows in insertion order, and the ids of the servers the foreign keys refer to. *)
Record Tables := mkTables {
  servers : gset string; configs : list MiddlewareConfig; events : list MiddlewareEvent }.

Definition with_configs (t : Tables) (l : list MiddlewareConfig) : Tables := mkTables (servers t) l (events t).
Definition with_events (t : Tables) (l : list MiddlewareEvent) : Tables := mkTables (servers t) (configs t) l.

(** [ORDER BY priority ASC, middleware ASC]. *)
Definition row_leb (a b : MiddlewareConfig) : bool :=
  (Priority a <? Priority b)%Z || ((Priority a =? Priority b)%Z && String.leb (Middleware a) (Middleware b)).

Definition select_rows (serverID : string) (t : Tables) : list MiddlewareConfig :=
  stable_sort row_leb (List.filter (λ c, match ServerID c with None => true | Some s => s =?s serverID end) (configs t)).

(** The scan loop: two maps by middleware name, a later row replaces an earlier one. *)
Fixpoint split_rows (rows : list MiddlewareConfig) (globals server : gmap string MiddlewareConfig) :
    gmap string MiddlewareConfig * gmap string MiddlewareConfig :=
  match rows with
  | [] => (globals, server)
  | mc :: rest =>
      match ServerID mc with
      | Some _ => split_rows rest globals (<[Middleware mc := mc]> server)
      | None => split_rows rest (<[Middleware mc := mc]> globals) server
      end
  end.

Definition empty_config (c : string) : bool := (c =?s "{}") || (c =?s "").

Definition set_config (mc : MiddlewareConfig) (c : string) : MiddlewareConfig :=
  mkConfig (ID mc) (ServerID mc) (Middleware mc) (Enabled mc) c (Priority mc) (CreatedAt mc) (UpdatedAt mc).

(** A server row with an empty configuration inherits the global one. *)
Definition inherit (globals : gmap string MiddlewareConfig) (name : string) (sc : MiddlewareConfig) : MiddlewareConfig :=
  if empty_config (Config sc) then
    match globals !! name with Some gc => set_config sc (Config gc) | None => sc end
  else sc.

(** Enabled globals, overridden by server rows. *)
Definition merge (globals server : gmap string MiddlewareConfig) : gmap string MiddlewareConfig :=
  map_imap (λ name sc, Some (inherit globals name sc)) server
  ∪ filter (λ '(_, gc), Enabled gc = true) globals.

(** The insertion sort at the end of [GetForServer]: the new element moves left
    past the strictly greater ones. *)
Fixpoint insert_right (x : MiddlewareConfig) (l : list MiddlewareConfig) : list MiddlewareConfig :=
  match l with
  | [] => [x]
  | y :: r => if (Priority x <? Priority y)%Z then y :: insert_right x r else x :: l
  end.

(** [l] holds the sorted part reversed, so that the last element comes first. *)
Definition priority_sort (l : list MiddlewareConfig) : list MiddlewareConfig :=
  rev (foldl (λ acc x, insert_right x acc) [] l).

(** Go iterates over the merged map in an arbitrary order: [iter] lists its keys in
    that order. *)
Definition GetForServer (iter : list string) (serverID : string) : DBM Tables (list MiddlewareConfig) :=
  query (λ t,
    let '(globals, server) := split_rows (select_rows serverID t) ∅ ∅ in
    let merged := merge globals server in
    priority_sort (omap (λ name, merged !! name) iter)).

Definition Get (id : string) : DBM Tables (option MiddlewareConfig) :=
  query (λ t, List.find (λ c, ID c =?s id) (configs t)).

(** [ON CONFLICT(server_id, middleware)] never fires for a NULL server. *)
Definition same_key (sid : option string) (mw : string) (c : MiddlewareConfig) : bool :=
  match sid, ServerID c with Some a, Some b => (a =?s b) && (Middleware c =?s mw) | _, _ => false end.

Definition server_ref (t : Tables) (sid : option string) : bool :=
  match sid with None => true | Some s => bool_decide (s ∈ servers t) end.

(** [INSERT ... ON CONFLICT(server_id, middleware) DO UPDATE]. *)
Definition upsert_row (row : MiddlewareConfig) (f : MiddlewareConfig → MiddlewareConfig) (t : Tables) :
    result (unit * Tables) :=
  if existsb (same_key (ServerID row) (Middleware row)) (configs t)
  then Ok (tt, with_configs t (map (λ c, if same_key (ServerID row) (Middleware row) c then f c else c) (configs t)))
  else if existsb (λ c, ID c =?s ID row) (configs t) then Err "UNIQUE constraint failed: middleware_configs.id"
  else if negb (server_ref t (ServerID row)) then Err "FOREIGN KEY constraint failed"
  else Ok (tt, with_configs t (configs t ++ [row])).

(** [gen] is the outcome of [generateID]. *)
Definition Upsert (gen : result string) (now : Z) (mc : MiddlewareConfig) : DBM Tables unit :=
  match (if ID mc =?s "" then gen else Ok (ID mc)) with
  | Err e => db_fail e
  | Ok id =>
      exec (upsert_row
        (mkConfig id (ServerID mc) (Middleware mc) (Enabled mc) (Config mc) (Priority mc) now now)
        (λ c, mkConfig (ID c) (ServerID c) (Middleware c) (Enabled mc) (Config mc) (Priority mc) (CreatedAt c) now))
  end.

Definition UpsertEnabled (gen : result string) (now : Z) (serverID middleware : string) (enabled : bool)
    (priority : Z) : DBM Tables unit :=
  match gen with
  | Err e => db_fail e
  | Ok id =>
      exec (upsert_row (mkConfig id (Some serverID) middleware enabled "{}" priority now now)
        (λ c, mkConfig (ID c) (ServerID c) (Middleware c) enabled (Config c) priority (CreatedAt c) now))
  end.

Definition is_global (mw : string) (c : MiddlewareConfig) : bool :=
  match ServerID c with None => Middleware c =?s mw | Some _ => false end.

Definition GetGlobal (middleware : string) : DBM Tables (option MiddlewareConfig) :=
  query (λ t, List.find (is_global middleware) (configs t)).

Definition UpsertGlobal (gen : result string) (now : Z) (mc : MiddlewareConfig) : DBM Tables unit :=
  let! existing := GetGlobal (Middleware mc) in
  match existing with
  | Some old =>
      update (λ t, with_configs t (map (λ c,
        if ID c =?s ID old
        then mkConfig (ID c) (ServerID c) (Middleware c) (Enabled mc) (Config mc) (Priority mc) (CreatedAt c) now
        else c) (configs t)))
  | None =>
      match gen with
      | Err e => db_fail e
      | Ok id =>
          exec (λ t,
            if existsb (λ c, ID c =?s id) (configs t) then Err "UNIQUE constraint failed: middleware_configs.id"
            else Ok (tt, with_configs t (configs t ++
                   [mkConfig id None (Middleware mc) (Enabled mc) (Config mc) (Priority mc) now now])))
      end
  end.

Definition Delete (id : string) : DBM Tables unit :=
  update (λ t, with_configs t (List.filter (λ c, negb (ID c =?s id)) (configs t))).

Definition LogEvent (gen : result string) (now : Z) (evt : MiddlewareEvent) : DBM Tables unit :=
  match (if EvID evt =?s "" then gen else Ok (EvID evt)) with
  | Err e => db_fail e
  | Ok id =>
      exec (λ t,
        if existsb (λ e, EvID e =?s id) (events t) then Err "UNIQUE constraint failed: middleware_events.id"
        else if negb (bool_decide (EvServerID evt ∈ servers t)) then Err "FOREIGN KEY constraint failed"
        else Ok (tt, with_events t (events t ++
               [mkEvent id now (EvServerID evt) (EvMiddleware evt) (EventType evt) (Summary evt)
                  (RequestMethod evt) (EndpointName evt) (UserID evt)])))
  end.

Definition RecentEvents (serverID : string) (limit : nat) : DBM Tables (list MiddlewareEvent) :=
  query (λ t, take limit (stable_sort (λ a b, Timestamp b <=? Timestamp a)%Z
    (if serverID !=? "" then List.filter (λ e, EvServerID e =?s serverID) (events t) else events t))).

(** The comparison is on text: [datetime('now', ...)] has whole seconds and no zone
    suffix, so every timestamp of that very second is greater (server clock in UTC). *)
Definition EventCounts (serverID : string) (now hours : Z) : DBM Tables (gmap string nat) :=
  query (λ t, foldl (λ m e,
      if (EvServerID e =?s serverID) && (sqliteTime now - hours * 3600 <=? sqliteTime (Timestamp e))%Z
      then <[EventType e := S (default 0%nat (m !! EventType e))]> m else m) ∅ (events t)).
End MwStore.

Import MwStore (MiddlewareConfig, MiddlewareEvent, mkEvent).

(** ** Middlewares and pipelines *)

Record RequestMeta := mkMeta {
  MetaUserID : string; MetaServerID : string; MetaServerName : string; MetaMethod : string;
  ToolName : string; ClientIP : string; RequestID : string }.

(** The state every middleware shares. *)
Record PState := mkPState {
  mdb : Db MwStore.Tables;
  archive : ArchiveDispatcher.World;
  webhooks : list (string * string);  (* webhooks sent: URL and summary, newest first *)
  entropy : list (result string) }.   (* what the random source delivers next *)

Definition with_mdb (st : PState) (d : Db MwStore.Tables) : PState :=
  mkPState d (archive st) (webhooks st) (entropy st).

(** [generateID] and nonces: an exhausted source is a read error. *)
Definition next_random (st : PState) : result string * PState :=
  match entropy st with
  | [] => (Err "generating ID", st)
  | r :: rest => (r, mkPState (mdb st) (archive st) (webhooks st) rest)
  end.

Record Middleware := mkMiddleware {
  mwName : string;
  ProcessRequest : Request → RequestMeta → PState → result Request * PState;
  ProcessResponse : Request → Response → RequestMeta → PState → result Response * PState }.

Module Pipeline.
Abbreviation t := (list Middleware).

Definition NewPipeline : t := [].
Definition Add (p : t) (m : Middleware) : t := p ++ [m].
Definition Len (p : t) : nat := length p.

(** In order; the first error stops the run. *)
Fixpoint RunRequest (p : t) (req : Request) (meta : RequestMeta) (st : PState) : result Request * PState :=
  match p with
  | [] => (Ok req, st)
  | m :: rest =>
      match ProcessRequest m req meta st with
      | (Err e, st) => (Err e, st)
      | (Ok req, st) => RunRequest rest req meta st
      end
  end.

(** The loop of [ProcessResponse], over the list it runs through. *)
Fixpoint response_loop (p : t) (req : Request) (resp : Response) (meta : RequestMeta) (st : PState) :
    result Response * PState :=
  match p with
  | [] => (Ok resp, st)
  | m :: rest =>
      match ProcessResponse m req resp meta st with
      | (Err e, st) => (Err e, st)
      | (Ok resp, st) => response_loop rest req resp meta st
      end
  end.

(** In reverse order. *)
Definition RunResponse (p : t) := response_loop (rev p).
End Pipeline.

(** An event logger stamps the server id, writes the event and drops the error. *)
Definition EventLogger : Type := MiddlewareEvent → PState → PState.

Definition makeEventLogger (serverID : string) : EventLogger := λ evt st,
  let '(gen, st) := next_random st in
  let evt := mkEvent (MwStore.EvID evt) 0 serverID (MwStore.EvMiddleware evt) (MwStore.EventType evt)
               (MwStore.Summary evt) (MwStore.RequestMethod evt) (MwStore.EndpointName evt) (MwStore.UserID evt) in
  with_mdb st (snd (MwStore.LogEvent gen (clock (archive st)) evt (mdb st))).

(** The event a middleware logs about a request. *)
Definition meta_event (mw eventType summary : string) (meta : RequestMeta) : MiddlewareEvent :=
  mkEvent "" 0 "" mw eventType summary (MetaMethod meta) (ToolName meta) (MetaUserID meta).

(** ** Decoding of the JSON configurations *)

(** [len(config) > 0 && string(config) != "{}"], then [json.Unmarshal] into a struct. *)
Definition config_fields (config : string) : option (option (list (string * json))) :=
  if (config =?s "") || (config =?s "{}") then Some None
  else match Unmarshal config with
       | Some (JObj l) => Some (Some l)
       | Some JNull => Some (Some [])
       | _ => None
       end.

(** ** Sizer *)
Module Sizer.
Record SizerConfig := mkConfig { MaxResponseBytes : Z; Action : string }.

Definition DefaultSizerConfig : SizerConfig := mkConfig 500000 "truncate".

Definition NewSizer (cfg : SizerConfig) : SizerConfig :=
  mkConfig (if (MaxResponseBytes cfg <=? 0)%Z then 500000 else MaxResponseBytes cfg)
    (if Action cfg =?s "" then "truncate" else Action cfg).

(** [jsonEscape]: the quoted string without its quotes. *)
Definition jsonEscape (s : string) : string := escape s.

Definition truncation_notice (size limit : Z) : string :=
  "[Response truncated: " +:+ pretty size +:+ " bytes exceeded " +:+ pretty limit +:+
  " byte limit. First " +:+ pretty limit +:+ " bytes shown.]".

Definition q : string := String dquote "".

(** The text the code assembles with [fmt.Sprintf]; the newline between notice and
    payload is written as its JSON escape. *)
Definition truncMsg (size limit : Z) (body : string) : string :=
  "{" +:+ q +:+ "content" +:+ q +:+ ":[{" +:+ q +:+ "type" +:+ q +:+ ":" +:+ q +:+ "text" +:+ q +:+ "," +:+
  q +:+ "text" +:+ q +:+ ":" +:+ q +:+ truncation_notice size limit +:+ String bslash "n" +:+
  jsonEscape (take_str (Z.to_nat limit) body) +:+ q +:+ "}]}".

Definition process (cfg : SizerConfig) (logger : EventLogger) (req : Request) (resp : Response)
    (meta : RequestMeta) (st : PState) : result Response * PState :=
  match Error resp, Result resp with
  | None, Some body =>
      let size := Z.of_nat (String.length body) in
      let limit := MaxResponseBytes cfg in
      if (size <=? limit)%Z then (Ok resp, st)
      else
        let summary := "Response size " +:+ pretty size +:+ " bytes exceeds limit " +:+ pretty limit +:+ " bytes" in
        if Action cfg =?s "block" then
          (Ok (NewErrorResponse (RespID resp) ErrCodeInternal
                 ("response too large (" +:+ pretty size +:+ " bytes, limit " +:+ pretty limit +:+ ")")),
           logger (meta_event "sizer" "blocked" summary meta) st)
        else if Action cfg =?s "truncate" then
          (Ok (mkResponse (RespJSONRPC resp) (RespID resp) (Some (truncMsg size limit body)) None),
           logger (meta_event "sizer" "truncated" summary meta) st)
        else if Action cfg =?s "warn" then (Ok resp, logger (meta_event "sizer" "alert" summary meta) st)
        else (Ok resp, st)
  | _, _ => (Ok resp, st)
  end.

Definition middleware (cfg : SizerConfig) (logger : EventLogger) : Middleware :=
  mkMiddleware "sizer" (λ req _ st, (Ok req, st)) (process cfg logger).

Definition NewSizerFromConfig (config : string) (logger : EventLogger) : result Middleware :=
  match config_fields config with
  | None => Err "sizer: invalid config"
  | Some None => Ok (middleware (NewSizer DefaultSizerConfig) logger)
  | Some (Some l) =>
      match (n ← decode_int_field "max_response_bytes" l 0; a ← decode_string_field "action" l ""; Some (mkConfig n a)) with
      | None => Err "sizer: invalid config"
      | Some cfg => Ok (middleware (NewSizer cfg) logger)
      end
  end.
End Sizer.

(** ** Regular expressions

    Go's [regexp]: compiled expressions with their match test and replacement.  The
    law is the documented one: where nothing matches, nothing is replaced. *)
Class Regexp := {
  Regex : Type;
  Compile : string → option Regex;
  MatchString : Regex → string → bool;
  ReplaceAllString : Regex → string → string → string }.

Class RegexpLaws `(Regexp) := {
  replace_nothing : ∀ re s r, MatchString re s = false → ReplaceAllString re s r = s }.

(** A concrete engine for the witnesses: an expression is a literal followed by a
    greedy run of non-space characters. *)
Fixpoint drop_nonspace (s : string) : string :=
  match s with EmptyString => "" | String c r => if is_space c then s else drop_nonspace r end.

Fixpoint replace_literal (fuel : nat) (lit s r : string) : string :=
  match fuel with
  | O => s
  | S fuel =>
      match Index s lit with
      | None => s
      | Some i => take_str i s +:+ r +:+ replace_literal fuel lit (drop_nonspace (drop_str i s)) r
      end
  end.

#[export] Instance toy_regexp : Regexp := {|
  Regex := string;
  Compile s := if s =?s "" then None else Some s;
  MatchString lit s := Contains s lit;
  ReplaceAllString lit s r := replace_literal (S (String.length s)) lit s r |}.

#[export] Instance toy_regexp_laws : RegexpLaws toy_regexp.
Proof.
  split. intros re s r. unfold MatchString, ReplaceAllString, toy_regexp, Contains. cbn [replace_literal].
  by destruct (Index s re).
Qed.

(** ** Sanitizer *)
Module Sanitizer.
Section Sanitizer.
Context `{Regexp}.

Record SanitizePattern := mkPattern { PName : string; PRegex : string; PAction : string }.

Definition DefaultSanitizerConfig : list SanitizePattern :=
  [mkPattern "api_key" "(?i)(api[_-]?key|secret[_-]?key|access[_-]?token|private[_-]?key)\s*[=:]\s*\S+" "redact";
   mkPattern "password" "(?i)(password|passwd|pwd)\s*[=:]\s*\S+" "redact";
   mkPattern "ssn" "\b\d{3}-\d{2}-\d{4}\b" "redact";
   mkPattern "credit_card" "\b\d{4}[\s-]?\d{4}[\s-]?\d{4}[\s-]?\d{4}\b" "block"].

Record compiledPattern := mkCompiled { name : string; re : Regex; action : string }.

Fixpoint NewSanitizer (ps : list SanitizePattern) : result (list compiledPattern) :=
  match ps with
  | [] => Ok []
  | p :: rest =>
      match Compile (PRegex p) with
      | None => Err ("sanitizer: invalid regex for pattern " +:+ quoted (PName p))
      | Some re =>
          result_map (cons (mkCompiled (PName p) re (if PAction p =?s "" then "redact" else PAction p)))
            (NewSanitizer rest)
      end
  end.

(** The loop over the patterns: the text so far, whether it changed, the events; an
    [inl] is the block answer. *)
Fixpoint scan (patterns : list compiledPattern) (logger : EventLogger) (meta : RequestMeta)
    (text : string) (modified : bool) (st : PState) : (string + string * bool) * PState :=
  match patterns with
  | [] => (inr (text, modified), st)
  | p :: rest =>
      if negb (MatchString (re p) text) then scan rest logger meta text modified st
      else if action p =?s "block" then
        (inl (name p), logger (meta_event "sanitizer" "blocked"
           ("Response blocked: pattern " +:+ quoted (name p) +:+ " matched") meta) st)
      else
        let text' := ReplaceAllString (re p) text "[REDACTED]" in
        if text' =?s text then scan rest logger meta text modified st
        else scan rest logger meta text' true
               (logger (meta_event "sanitizer" "redacted"
                  ("Pattern " +:+ quoted (name p) +:+ " redacted from response") meta) st)
  end.

Definition process (patterns : list compiledPattern) (logger : EventLogger) (req : Request) (resp : Response)
    (meta : RequestMeta) (st : PState) : result Response * PState :=
  match Error resp, Result resp with
  | None, Some body =>
      match scan patterns logger meta body false st with
      | (inl nm, st) =>
          (Ok (NewErrorResponse (RespID resp) ErrCodeInternal
                 ("response blocked by sanitizer: " +:+ nm +:+ " pattern detected")), st)
      | (inr (text, true), st) => (Ok (mkResponse (RespJSONRPC resp) (RespID resp) (Some text) None), st)
      | (inr (_, false), st) => (Ok resp, st)
      end
  | _, _ => (Ok resp, st)
  end.

Definition middleware (patterns : list compiledPattern) (logger : EventLogger) : Middleware :=
  mkMiddleware "sanitizer" (λ req _ st, (Ok req, st)) (process patterns logger).

Definition decode_pattern (l : list (string * json)) : option SanitizePattern :=
  n ← decode_string_field "name" l ""; r ← decode_string_field "regex" l "";
  a ← decode_string_field "action" l ""; Some (mkPattern n r a).

Definition NewSanitizerFromConfig (config : string) (logger : EventLogger) : result Middleware :=
  match config_fields config with
  | None => Err "sanitizer: invalid config"
  | Some None => result_map (λ ps, middleware ps logger) (NewSanitizer DefaultSanitizerConfig)
  | Some (Some l) =>
      match decode_struct_list decode_pattern (decode_raw_field "patterns" l None) with
      | None => Err "sanitizer: invalid config"
      | Some ps => result_map (λ ps, middleware ps logger) (NewSanitizer ps)
      end
  end.

Definition ScanText (patterns : list compiledPattern) (text : string) : list string :=
  map (λ p, name p +:+ " (" +:+ action p +:+ ")") (List.filter (λ p, MatchString (re p) text) patterns).

Definition RedactText (patterns : list compiledPattern) (text : string) : string :=
  foldl (λ text p, if action p =?s "redact" then ReplaceAllString (re p) text "[REDACTED]" else text) text patterns.
End Sanitizer.
End Sanitizer.

(** ** Alerter *)
Module Alerter.
Section Alerter.
Context `{Regexp}.

Record AlertRule := mkRule {
  RName : string; RMatch : string; RMatchSize : Z; RDirection : string; RAction : string; RWebhookURL : string }.

Definition DefaultAlerterConfig : list AlertRule :=
  [mkRule "production_access" "(?i)(production|prod[_-]db|master[_-]password)" 0 "request" "log" "";
   mkRule "large_response" "" 100000 "response" "log" ""].

Record compiledRule := mkCompiled {
  name : string; re : option Regex; matchSize : Z; direction : string; action : string; webhookURL : string }.

Fixpoint NewAlerter (rs : list AlertRule) : result (list compiledRule) :=
  match rs with
  | [] => Ok []
  | r :: rest =>
      let cr re := mkCompiled (RName r) re (RMatchSize r)
                     (if RDirection r =?s "" then "both" else RDirection r)
                     (if RAction r =?s "" then "log" else RAction r) (RWebhookURL r) in
      if RMatch r =?s "" then result_map (cons (cr None)) (NewAlerter rest)
      else match Compile (RMatch r) with
           | None => Err ("alerter: invalid regex for rule " +:+ quoted (RName r))
           | Some re => result_map (cons (cr (Some re))) (NewAlerter rest)
           end
  end.

(** The webhook is sent by a goroutine; here it is recorded. *)
Definition fireAlert (rule : compiledRule) (logger : EventLogger) (meta : RequestMeta) (summary : string)
    (st : PState) : PState :=
  let st := logger (meta_event "alerter" "alert" summary meta) st in
  if (action rule =?s "webhook") && (webhookURL rule !=? "")
  then mkPState (mdb st) (archive st) ((webhookURL rule, summary) :: webhooks st) (entropy st)
  else st.

Definition applies (dir : string) (r : compiledRule) : bool := (direction r =?s dir) || (direction r =?s "both").

Definition matches (r : compiledRule) (text : string) : bool :=
  match re r with Some re => MatchString re text | None => false end.

(** [string(req.Params)]: absent params are the empty text. *)
Definition params_text (req : Request) : string :=
  match Params req with Some p => Marshal p | None => "" end.

Definition process_request (rules : list compiledRule) (logger : EventLogger) (req : Request)
    (meta : RequestMeta) (st : PState) : result Request * PState :=
  (Ok req, foldl (λ st r,
     if applies "request" r && matches r (params_text req)
     then fireAlert r logger meta ("Alert rule " +:+ quoted (name r) +:+ " matched in request: "
            +:+ MetaMethod meta +:+ " " +:+ ToolName meta) st
     else st) st rules).

Definition process_response (rules : list compiledRule) (logger : EventLogger) (req : Request) (resp : Response)
    (meta : RequestMeta) (st : PState) : result Response * PState :=
  match Error resp, Result resp with
  | None, Some text =>
      let size := Z.of_nat (String.length text) in
      (Ok resp, foldl (λ st r,
         if applies "response" r && (matches r text || ((0 <? matchSize r)%Z && (matchSize r <? size)%Z))
         then fireAlert r logger meta ("Alert rule " +:+ quoted (name r) +:+ " matched in response: "
                +:+ MetaMethod meta +:+ " " +:+ ToolName meta +:+ " (size=" +:+ pretty size +:+ ")") st
         else st) st rules)
  | _, _ => (Ok resp, st)
  end.

Definition middleware (rules : list compiledRule) (logger : EventLogger) : Middleware :=
  mkMiddleware "alerter" (process_request rules logger) (process_response rules logger).

Definition decode_rule (l : list (string * json)) : option AlertRule :=
  n ← decode_string_field "name" l ""; m ← decode_string_field "match" l "";
  sz ← decode_int_field "match_size" l 0; d ← decode_string_field "direction" l "";
  a ← decode_string_field "action" l ""; w ← decode_string_field "webhook_url" l "";
  Some (mkRule n m sz d a w).

Definition NewAlerterFromConfig (config : string) (logger : EventLogger) : result Middleware :=
  match config_fields config with
  | None => Err "alerter: invalid config"
  | Some None => result_map (λ rs, middleware rs logger) (NewAlerter DefaultAlerterConfig)
  | Some (Some l) =>
      match decode_struct_list decode_rule (decode_raw_field "rules" l None) with
      | None => Err "alerter: invalid config"
      | Some rs => result_map (λ rs, middleware rs logger) (NewAlerter rs)
      end
  end.
End Alerter.
End Alerter.

(** ** Archive *)
Module Archive.
Section Archive.
Context (encryptor : option ConfigEncryptor) (nacl : NaCl) (rfc3339 : Z → string).
Context (parseURL : string → option ParsedURL) (parseLoopback : string → option bool).

Definition ParseArchiveConfig (config : string) : result ArchiveConfig :=
  let norm cfg := mkCfg (CfgURL cfg) (CfgAuthType cfg) (CfgAuthValue cfg)
    (if CfgAPIKeyHeader cfg =?s "" then "X-API-Key" else CfgAPIKeyHeader cfg)
    (if Include cfg =?s "" then "both" else Include cfg) (NaClRecipientKey cfg) in
  match config_fields config with
  | None => Err "archive: invalid config"
  | Some None => Ok (norm DefaultArchiveConfig)
  | Some (Some l) =>
      match (u ← decode_string_field "url" l ""; t ← decode_string_field "auth_type" l "";
             v ← decode_string_field "auth_value" l ""; h ← decode_string_field "api_key_header" l "";
             i ← decode_string_field "include" l ""; k ← decode_string_field "nacl_recipient_key" l "";
             Some (mkCfg u t v h i k)) with
      | None => Err "archive: invalid config"
      | Some cfg => Ok (norm cfg)
      end
  end.

Definition request_json (req : Request) : json :=
  JObj ([("jsonrpc", JStr (JSONRPC req))]
        ++ match ReqID req with Some i => [("id", i)] | None => [] end
        ++ [("method", JStr (Method req))]
        ++ match Params req with Some p => [("params", p)] | None => [] end).

Definition opt_field (name : string) (v : option json) : list (string * json) :=
  match v with Some j => [(name, j)] | None => [] end.

Definition buildPayload (now : Z) (phase : string) (meta : RequestMeta) (reqJSON respJSON : option json) : string :=
  Marshal (JObj ([("version", JStr "v1"); ("source", JStr "arc_relay"); ("phase", JStr phase);
    ("timestamp", JStr (rfc3339 now));
    ("meta", JObj [("server_id", JStr (MetaServerID meta)); ("server_name", JStr (MetaServerName meta));
       ("user_id", JStr (MetaUserID meta)); ("client_ip", JStr (ClientIP meta));
       ("method", JStr (MetaMethod meta)); ("tool_name", JStr (ToolName meta));
       ("request_id", JStr (RequestID meta))])]
    ++ opt_field "request" reqJSON ++ opt_field "response" respJSON)).

(** Errors are logged as events; the message itself is never held up. *)
Definition enqueue (cfg : ArchiveConfig) (key : option string) (logger : EventLogger) (body : string)
    (meta : RequestMeta) (st : PState) : PState :=
  match sealArchivePayload nacl body key with
  | Err _ => logger (mkEvent "" 0 "" "archive" "error" "archive payload dropped: envelope encryption failed" "" "" "") st
  | Ok payload =>
      let '(gen, st) := next_random st in
      let '(nonce, st) := next_random st in
      let nonce := match nonce with Ok n => Some n | Err _ => None end in
      match EnqueueWithServer encryptor gen nonce payload cfg (MetaServerID meta) (archive st) with
      | (Ok _, w) => mkPState (mdb st) w (webhooks st) (entropy st)
      | (Err e, w) =>
          logger (mkEvent "" 0 "" "archive" "error" ("failed to enqueue archive payload: " +:+ e) "" "" "")
            (mkPState (mdb st) w (webhooks st) (entropy st))
      end
  end.

Definition process_request (cfg : ArchiveConfig) (key : option string) (logger : EventLogger) (req : Request)
    (meta : RequestMeta) (st : PState) : result Request * PState :=
  if Include cfg !=? "request" then (Ok req, st)
  else (Ok req, enqueue cfg key logger
                  (buildPayload (clock (archive st)) "request" meta (Some (request_json req)) None) meta st).

Definition process_response (cfg : ArchiveConfig) (key : option string) (logger : EventLogger) (req : Request)
    (resp : Response) (meta : RequestMeta) (st : PState) : result Response * PState :=
  if Include cfg =?s "request" then (Ok resp, st)
  else
    let both := Include cfg =?s "both" in
    (Ok resp, enqueue cfg key logger
       (buildPayload (clock (archive st)) (if both then "exchange" else "response") meta
          (if both then Some (request_json req) else None) (encode_response resp)) meta st).

Definition middleware (cfg : ArchiveConfig) (key : option string) (logger : EventLogger) : Middleware :=
  mkMiddleware "archive" (process_request cfg key logger) (process_response cfg key logger).

(** [dispatcher] tells whether the registry has one. *)
Definition NewArchiveFromConfig (dispatcher : bool) (config : string) (logger : EventLogger) : result Middleware :=
  match ParseArchiveConfig config with
  | Err e => Err e
  | Ok cfg =>
      match ValidateArchiveConfig parseURL parseLoopback cfg with
      | Err e => Err e
      | Ok key => if dispatcher then Ok (middleware cfg key logger) else Err "archive: dispatcher not available"
      end
  end.
End Archive.
End Archive.

(** ** The registry *)
Module Registry.
Section Registry.
Context `{Regexp} (encryptor : option ConfigEncryptor) (nacl : NaCl) (rfc3339 : Z → string)
  (parseURL : string → option ParsedURL) (parseLoopback : string → option bool) (dispatcher : bool).

Record Descriptor := mkDescriptor {
  DName : string; DisplayName : string; Description : string; DefaultPriority : Z; DisplayOrder : Z;
  Scope : string; TemplateName : string; Actions : list string }.

Definition descriptors : list Descriptor :=
  [mkDescriptor "sanitizer" "Sanitizer" "PII & secret redaction" 10 10 "server" "" [];
   mkDescriptor "sizer" "Content Sizer" "Response size limits" 20 20 "server" "" [];
   mkDescriptor "alerter" "Alerter" "Pattern monitoring" 30 30 "server" "" [];
   mkDescriptor "archive" "Compliance Archive" "Audit trail" 40 40 "both" "middleware_archive"
     ["test"; "retry"; "clear"; "status"]].

Definition Descriptors : list Descriptor :=
  stable_sort (λ a b, DisplayOrder a <=? DisplayOrder b)%Z descriptors.

Definition lookup_descriptor (name : string) : option Descriptor :=
  List.find (λ d, DName d =?s name) descriptors.

(** The factories [NewRegistry] registers. *)
Definition factory (name : string) : option (string → EventLogger → result Middleware) :=
  if name =?s "sanitizer" then Some Sanitizer.NewSanitizerFromConfig
  else if name =?s "sizer" then Some Sizer.NewSizerFromConfig
  else if name =?s "alerter" then Some Alerter.NewAlerterFromConfig
  else if name =?s "archive"
  then Some (Archive.NewArchiveFromConfig encryptor nacl rfc3339 parseURL parseLoopback dispatcher)
  else None.

Definition IsRegistered (name : string) : bool := bool_decide (is_Some (factory name)).

(** The loop of [BuildPipeline]: disabled, unknown and failing middlewares are skipped. *)
Fixpoint build (logger : EventLogger) (configs : list MiddlewareConfig) : Pipeline.t :=
  match configs with
  | [] => []
  | mc :: rest =>
      if negb (MwStore.Enabled mc) then build logger rest
      else match factory (MwStore.Middleware mc) with
           | None => build logger rest
           | Some f => match f (MwStore.Config mc) logger with
                       | Err _ => build logger rest
                       | Ok m => m :: build logger rest
                       end
           end
  end.

(** A database error gives the empty pipeline. *)
Definition BuildPipeline (iter : list string) (serverID : string) (st : PState) : Pipeline.t * PState :=
  match MwStore.GetForServer iter serverID (mdb st) with
  | (Err _, d) => (Pipeline.NewPipeline, with_mdb st d)
  | (Ok configs, d) => (build (makeEventLogger serverID) configs, with_mdb st d)
  end.
End Registry.
End Registry.

(** ** Theorems: the effective configuration *)
Section Effective.
Import MwStore.

(** The last row a predicate selects. *)
Definition last_row (p : MiddlewareConfig → bool) (rows : list MiddlewareConfig) : option MiddlewareConfig :=
  last (List.filter p rows).

Definition global_row (n : string) (c : MiddlewareConfig) : bool :=
  match ServerID c with None => Middleware c =?s n | Some _ => false end.

Definition server_row (n : string) (c : MiddlewareConfig) : bool :=
  match ServerID c with None => false | Some _ => Middleware c =?s n end.

(** What the server's pipeline should use for middleware [n]: its own row, with the
    global configuration when its own is empty; else the global row if it is enabled. *)
Definition effective (serverID : string) (t : Tables) (n : string) : option MiddlewareConfig :=
  let rows := select_rows serverID t in
  match last_row (server_row n) rows, last_row (global_row n) rows with
  | Some sc, Some gc => Some (if empty_config (Config sc) then set_config sc (Config gc) else sc)
  | Some sc, None => Some sc
  | None, Some gc => if Enabled gc then Some gc else None
  | None, None => None
  end.

Definition or_row (a b : option MiddlewareConfig) : option MiddlewareConfig :=
  match a with Some x => Some x | None => b end.

Lemma last_row_cons p c rows : last_row p (c :: rows) = or_row (last_row p rows) (if p c then Some c else None).
Proof.
  unfold last_row. cbn. destruct (p c); [|by destruct (last _)].
  destruct (List.filter p rows) as [|x l]; [done|]. rewrite last_cons. by destruct (last (x :: l)) eqn:E.
Qed.

Lemma or_row_assoc a b c : or_row (or_row a b) c = or_row a (or_row b c).
Proof. by destruct a. Qed.

Lemma split_rows_lookup rows g s n :
  (split_rows rows g s).1 !! n = or_row (last_row (global_row n) rows) (g !! n) ∧
  (split_rows rows g s).2 !! n = or_row (last_row (server_row n) rows) (s !! n).
Proof.
  revert g s. induction rows as [|c rows IH]; intros g s; [done|].
  rewrite !last_row_cons, !or_row_assoc. cbn [split_rows].
  assert (Hins : ∀ m : gmap string MiddlewareConfig, <[Middleware c := c]> m !! n =
    or_row (if Middleware c =?s n then Some c else None) (m !! n)).
  { intros m. rewrite lookup_insert. case_decide as E.
    - by rewrite E, String.eqb_refl.
    - apply String.eqb_neq in E. by rewrite E. }
  assert (Eg : global_row n c = match ServerID c with None => Middleware c =?s n | Some _ => false end) by done.
  assert (Es : server_row n c = match ServerID c with None => false | Some _ => Middleware c =?s n end) by done.
  destruct (ServerID c) as [sid|]; rewrite Eg, Es, <- Hins; apply IH.
Qed.

Lemma merge_effective serverID t n :
  let '(g, s) := split_rows (select_rows serverID t) ∅ ∅ in merge g s !! n = effective serverID t n.
Proof.
  pose proof (split_rows_lookup (select_rows serverID t) ∅ ∅ n) as [Hg Hs].
  destruct (split_rows _ ∅ ∅) as [g s]. cbn in Hg, Hs. unfold effective, merge.
  rewrite lookup_union, map_lookup_imap, Hs, map_lookup_filter, Hg, !lookup_empty.
  destruct (last_row (server_row n) _) as [sc|]; cbn.
  - unfold inherit. rewrite Hg, lookup_empty. rewrite union_Some_l.
    destruct (last_row (global_row n) _) as [gc|]; cbn; by destruct (empty_config _).
  - rewrite (left_id_L None _). destruct (last_row (global_row n) _) as [gc|]; cbn; [|done].
    unfold guard. case_decide as E; cbn; by destruct (Enabled gc).
Qed.

Definition prio_le (a b : MiddlewareConfig) : Prop := (Priority a ≤ Priority b)%Z.

Lemma insert_right_perm x l : insert_right x l ≡ₚ x :: l.
Proof. induction l as [|y l IH]; [done|]. cbn. case_if; [|done]. rewrite IH. apply Permutation_swap. Qed.

Lemma insert_right_sorted x l :
  StronglySorted (flip prio_le) l → StronglySorted (flip prio_le) (insert_right x l).
Proof.
  induction 1 as [|y l Hs IH Hall]; [repeat constructor|]. cbn. case_if; bool_prop.
  - constructor; [done|]. rewrite insert_right_perm. constructor; [unfold flip, prio_le; lia|done].
  - constructor; [by constructor|]. constructor; [unfold flip, prio_le; lia|].
    eapply Forall_impl; [exact Hall|]. unfold flip, prio_le. intros; lia.
Qed.

Lemma insertion_loop l acc :
  StronglySorted (flip prio_le) acc →
  StronglySorted (flip prio_le) (foldl (λ acc x, insert_right x acc) acc l) ∧
  foldl (λ acc x, insert_right x acc) acc l ≡ₚ acc ++ l.
Proof.
  revert acc. induction l as [|x l IH]; intros acc Hs; cbn; [by rewrite app_nil_r|].
  destruct (IH (insert_right x acc) (insert_right_sorted x acc Hs)) as [H1 H2]. split; [done|].
  rewrite H2, insert_right_perm. by rewrite <- Permutation_middle.
Qed.

Lemma sorted_rev l : StronglySorted (flip prio_le) l → StronglySorted prio_le (rev l).
Proof.
  induction 1 as [|x l Hs IH Hall]; cbn; [constructor|].
  apply StronglySorted_app_2; [|done|repeat constructor].
  intros a b Ha Hb. apply list_elem_of_singleton in Hb as ->. rewrite Forall_forall in Hall. apply Hall.
  by rewrite list_elem_of_In, <- in_rev, <- list_elem_of_In in Ha.
Qed.

Lemma priority_sort_spec l : StronglySorted prio_le (priority_sort l) ∧ priority_sort l ≡ₚ l.
Proof.
  unfold priority_sort. destruct (insertion_loop l [] ltac:(constructor)) as [Hs Hp]. split; [by apply sorted_rev|].
  rewrite <- Permutation_rev. exact Hp.
Qed.
End Effective.

Section EffectiveTheorem.
Import MwStore.

(** The keys of the merged map, in some order. *)
Definition iteration (serverID : string) (t : Tables) (iter : list string) : Prop :=
  NoDup iter ∧ ∀ n, n ∈ iter ↔ is_Some (effective serverID t n).

Lemma GetForServer_run iter serverID t :
  outcome (GetForServer iter serverID) (healthy t) = Ok (priority_sort (omap (effective serverID t) iter)).
Proof.
  unfold outcome, GetForServer, query. rewrite exec_healthy. cbn -[priority_sort].
  destruct (split_rows _ ∅ ∅) as [g s] eqn:E. cbn -[priority_sort]. do 2 f_equal.
  apply list_omap_ext. apply Forall2_same_length_lookup_2; [done|].
  intros i x y Hx Hy. assert (x = y) as -> by congruence.
  pose proof (merge_effective serverID t y) as Hm. by rewrite E in Hm.
Qed.

Lemma elem_of_effective iter serverID t c :
  iteration serverID t iter →
  c ∈ priority_sort (omap (effective serverID t) iter) ↔ ∃ n, effective serverID t n = Some c.
Proof.
  intros [_ Hi]. destruct (priority_sort_spec (omap (effective serverID t) iter)) as [_ ->].
  rewrite list_elem_of_omap. split; [naive_solver|]. intros (n & Hn). exists n. split; [|done]. apply Hi. eauto.
Qed.
End EffectiveTheorem.

(** the configurations a server's pipeline is built from are
    exactly the effective ones (own row first, inheriting the global configuration when
    its own is empty; an enabled global otherwise; a disabled global never on its own),
    in order of priority, whatever order Go iterates the map in; when no two of them have
    the same priority the order is the same on every call. *)
Theorem effective_configuration : ∀ serverID (t : MwStore.Tables) iter,
  iteration serverID t iter →
  ∃ l, outcome (MwStore.GetForServer iter serverID) (healthy t) = Ok l ∧
    (∀ c, c ∈ l ↔ ∃ n, effective serverID t n = Some c) ∧
    StronglySorted prio_le l ∧
    ((∀ a b, a ∈ l → b ∈ l → MwStore.Priority a = MwStore.Priority b → a = b) →
     ∀ iter', iteration serverID t iter' → outcome (MwStore.GetForServer iter' serverID) (healthy t) = Ok l).
Proof.
  intros serverID t iter Hi. eexists. split; [apply GetForServer_run|].
  split; [intros c; by apply elem_of_effective|]. split; [apply priority_sort_spec|].
  intros Hinj iter' Hi'. rewrite GetForServer_run. f_equal.
  apply (StronglySorted_unique_strong prio_le); [|apply priority_sort_spec..|].
  - intros a b Ha Hb Hab Hba. rewrite (elem_of_effective iter') in Ha by done.
    rewrite <- (elem_of_effective iter) in Ha by done. apply Hinj; [done..|]. unfold prio_le in *. lia.
  - destruct (priority_sort_spec (omap (effective serverID t) iter)) as [_ ->].
    destruct (priority_sort_spec (omap (effective serverID t) iter')) as [_ ->].
    assert (iter' ≡ₚ iter) as Hp; [|by rewrite Hp].
    apply NoDup_Permutation; [apply Hi'|apply Hi|]. intros n. by rewrite (proj2 Hi), (proj2 Hi').
Qed.

Lemma last_row_none p rows : (∀ c, c ∈ rows → p c = false) → last_row p rows = None.
Proof.
  intros Hp. unfold last_row. destruct (List.filter p rows) as [|x l] eqn:E; [done|].
  assert (Hin : In x (x :: l)) by (by left). rewrite <- E in Hin. apply filter_In in Hin as [Hin Hx].
  rewrite <- list_elem_of_In in Hin. by rewrite (Hp _ Hin) in Hx.
Qed.

(** A name without rows has no effective configuration. *)
Lemma effective_none serverID t n :
  (∀ c, c ∈ MwStore.configs t → MwStore.Middleware c ≠ n) → effective serverID t n = None.
Proof.
  intros Hn. unfold effective.
  assert (Hrow : ∀ c, c ∈ MwStore.select_rows serverID t → (MwStore.Middleware c =?s n) = false).
  { intros c Hc. apply String.eqb_neq, Hn. unfold MwStore.select_rows in Hc.
    rewrite elem_of_stable_sort, list_elem_of_In, filter_In, <- list_elem_of_In in Hc. tauto. }
  rewrite !last_row_none; [done| |];
    (intros c Hc; unfold global_row, server_row; specialize (Hrow c Hc); by destruct (MwStore.ServerID c)).
Qed.

Definition demo_mw : MwStore.Tables :=
  MwStore.mkTables {["srv"]}
    [MwStore.mkConfig "g" None "archive" false "cfg" 40 0 0;
     MwStore.mkConfig "s" (Some "srv") "archive" true "{}" 40 0 0;
     MwStore.mkConfig "z" (Some "srv") "sizer" true "" 20 0 0] [].

Lemma effective_configuration_witness :
  ∃ l, outcome (MwStore.GetForServer ["archive"; "sizer"] "srv") (healthy demo_mw) = Ok l ∧
       MwStore.Config <$> l = [""; "cfg"].
Proof.
  destruct (effective_configuration "srv" demo_mw ["archive"; "sizer"]) as (l & Hl & _).
  - split; [apply (bool_decide_unpack _); vm_compute; exact I|]. intros n.
    destruct (decide (n = "archive")) as [->|H1]; [split; [intros _; by eexists|intros _; by left]|].
    destruct (decide (n = "sizer")) as [->|H2]; [split; [intros _; by eexists|intros _; by right; left]|].
    rewrite effective_none; [split; [set_solver|by intros [? ?]]|].
    intros c Hc. cbn in Hc. rewrite !elem_of_cons, elem_of_nil in Hc. destruct Hc as [->|[->|[->|[]]]]; cbn; congruence.
  - exists l. split; [done|]. vm_compute in Hl. injection Hl as <-. reflexivity.
Defined.

(** ** Theorems: pipelines *)

(** requests run through the middlewares in order and responses in
    reverse order, and the first error stops the run with the state reached so far: the
    pipeline of two parts is the first part then the second for requests, the second then
    the first for responses. *)
Theorem pipeline_composition : ∀ (p1 p2 : Pipeline.t) req resp meta st,
  Pipeline.RunRequest (p1 ++ p2) req meta st =
    (match Pipeline.RunRequest p1 req meta st with
     | (Ok req', st') => Pipeline.RunRequest p2 req' meta st'
     | (Err e, st') => (Err e, st')
     end) ∧
  Pipeline.RunResponse (p1 ++ p2) req resp meta st =
    (match Pipeline.RunResponse p2 req resp meta st with
     | (Ok resp', st') => Pipeline.RunResponse p1 req resp' meta st'
     | (Err e, st') => (Err e, st')
     end).
Proof.
  intros p1 p2 req resp meta st. split.
  - revert req st. induction p1 as [|m p1 IH]; intros req st; cbn; [done|].
    destruct (ProcessRequest m req meta st) as [[req'|e] st']; [apply IH|done].
  - unfold Pipeline.RunResponse. rewrite rev_app_distr. generalize (rev p1) as q1, (rev p2) as q2. intros q1 q2.
    revert resp st. induction q2 as [|m q2 IH]; intros resp st; cbn; [done|].
    destruct (ProcessResponse m req resp meta st) as [[resp'|e] st']; [apply IH|done].
Qed.

(** A middleware that hands every request on unchanged and never fails. *)
Definition transparent (m : Middleware) : Prop :=
  (∀ req meta st, fst (ProcessRequest m req meta st) = Ok req) ∧
  (∀ req resp meta st, is_ok (fst (ProcessResponse m req resp meta st)) = true).

Section Builtins.
Context `{Regexp} (encryptor : option ConfigEncryptor) (nacl : NaCl) (rfc3339 : Z → string)
  (parseURL : string → option ParsedURL) (parseLoopback : string → option bool) (dispatcher : bool).
Let build := Registry.build encryptor nacl rfc3339 parseURL parseLoopback dispatcher.

Lemma sizer_transparent cfg logger : transparent (Sizer.middleware cfg logger).
Proof.
  split; [done|]. intros req resp meta st. cbn. unfold Sizer.process.
  destruct (Error resp), (Result resp); try done. repeat case_match; done.
Qed.

Lemma sanitizer_transparent ps logger : transparent (Sanitizer.middleware ps logger).
Proof.
  split; [done|]. intros req resp meta st. cbn. unfold Sanitizer.process.
  destruct (Error resp), (Result resp); try done. by destruct (Sanitizer.scan _ _ _ _ _ _) as [[?|[? []]] ?].
Qed.

Lemma alerter_observes rs logger :
  transparent (Alerter.middleware rs logger) ∧
  ∀ req resp meta st, fst (ProcessResponse (Alerter.middleware rs logger) req resp meta st) = Ok resp.
Proof.
  assert (Hr : ∀ req resp meta st, fst (ProcessResponse (Alerter.middleware rs logger) req resp meta st) = Ok resp).
  { intros. cbn. unfold Alerter.process_response. by destruct (Error resp), (Result resp). }
  split; [split; [done|]|done]. intros. by rewrite Hr.
Qed.

Lemma archive_observes cfg key logger :
  transparent (Archive.middleware encryptor nacl rfc3339 cfg key logger) ∧
  ∀ req resp meta st,
    fst (ProcessResponse (Archive.middleware encryptor nacl rfc3339 cfg key logger) req resp meta st) = Ok resp.
Proof.
  assert (Hr : ∀ req resp meta st,
    fst (ProcessResponse (Archive.middleware encryptor nacl rfc3339 cfg key logger) req resp meta st) = Ok resp).
  { intros. cbn. unfold Archive.process_response. by case_if. }
  split; [split|done].
  - intros. cbn. unfold Archive.process_request. by case_if.
  - intros. by rewrite Hr.
Qed.

Lemma factory_transparent name f config logger m :
  Registry.factory encryptor nacl rfc3339 parseURL parseLoopback dispatcher name = Some f →
  f config logger = Ok m → transparent m.
Proof.
  unfold Registry.factory. repeat case_match; intros [= <-] Hm.
  - unfold Sanitizer.NewSanitizerFromConfig in Hm. repeat case_match; simplify_eq;
      destruct (Sanitizer.NewSanitizer _); simplify_eq/=; apply sanitizer_transparent.
  - unfold Sizer.NewSizerFromConfig in Hm. repeat case_match; simplify_eq; apply sizer_transparent.
  - unfold Alerter.NewAlerterFromConfig in Hm. repeat case_match; simplify_eq;
      destruct (Alerter.NewAlerter _); simplify_eq/=; apply alerter_observes.
  - unfold Archive.NewArchiveFromConfig in Hm. repeat case_match; simplify_eq; apply archive_observes.
Qed.

Lemma build_transparent logger configs : Forall transparent (build logger configs).
Proof.
  induction configs as [|mc configs IH]; cbn; [constructor|]. case_if; [done|].
  destruct (Registry.factory _ _ _ _ _ _ _) as [f|] eqn:Ef; [|done].
  destruct (f _ logger) as [m|] eqn:Em; [|done]. constructor; [by eapply factory_transparent|done].
Qed.
End Builtins.

Lemma run_transparent p : Forall transparent p →
  (∀ req meta st, fst (Pipeline.RunRequest p req meta st) = Ok req) ∧
  (∀ req resp meta st, is_ok (fst (Pipeline.response_loop p req resp meta st)) = true).
Proof.
  induction 1 as [|m p [Hreq Hresp] _ [IH1 IH2]]; [done|]. split.
  - intros req meta st. cbn. specialize (Hreq req meta st).
    destruct (ProcessRequest m req meta st) as [[req'|e] st']; simplify_eq/=. apply IH1.
  - intros req resp meta st. cbn. specialize (Hresp req resp meta st).
    destruct (ProcessResponse m req resp meta st) as [[resp'|e] st']; simplify_eq/=. apply IH2.
Qed.

(** whatever the configuration rows say, a pipeline the
    registry builds hands every request on unchanged and never fails on a response: the
    built-in middlewares only rewrite or replace responses. *)
Theorem builtin_pipelines_never_block : ∀ `{Regexp} encryptor nacl rfc3339 parseURL parseLoopback dispatcher
    iter serverID st0 req resp meta st,
  let p := (Registry.BuildPipeline encryptor nacl rfc3339 parseURL parseLoopback dispatcher iter serverID st0).1 in
  fst (Pipeline.RunRequest p req meta st) = Ok req ∧
  is_ok (fst (Pipeline.RunResponse p req resp meta st)) = true.
Proof.
  intros Hre encryptor nacl rfc3339 parseURL parseLoopback dispatcher iter serverID st0 req resp meta st p.
  assert (Hp : Forall transparent p).
  { unfold p, Registry.BuildPipeline. destruct (MwStore.GetForServer _ _ _) as [[l|e] d]; [apply build_transparent|constructor]. }
  split; [by apply run_transparent|]. apply run_transparent. apply Forall_rev, Hp.
Qed.

(** ** Theorems: what the built-in middlewares do to a response *)

(** Characters the JSON printer copies as they are. *)
Definition plain_char (c : ascii) : bool := escape_char c =?s String c "".

Lemma escape_plain s : all_chars plain_char s = true → escape s = s.
Proof.
  induction s as [|c s IH]; [done|]. cbn. intros Hc. bool_prop.
  unfold plain_char in *. bool_prop. rewrite IH by done. by rewrite H.
Qed.

Lemma escape_app a b : escape (a +:+ b) = escape a +:+ escape b.
Proof. induction a as [|c a IH]; [done|]. rewrite str_app_cons. cbn [escape]. by rewrite IH, str_app_assoc. Qed.

Lemma pretty_N_char_plain x : plain_char (pretty_N_char x) = true.
Proof. unfold pretty_N_char. repeat (case_match; try reflexivity). Qed.

Lemma pretty_N_go_plain x s : all_chars plain_char s = true → all_chars plain_char (pretty_N_go x s) = true.
Proof.
  revert s. induction (N.lt_wf_0 x) as [x _ IH]; intros s Hs.
  destruct (decide (0 < x)%N) as [Hx|Hx].
  - rewrite pretty_N_go_step by done. apply IH; [apply N.div_lt; lia|]. cbn. by rewrite pretty_N_char_plain, Hs.
  - assert (x = 0%N) as -> by lia. by rewrite pretty_N_go_0.
Qed.

Lemma pretty_Z_plain (z : Z) : all_chars plain_char (pretty z) = true.
Proof.
  assert (HN : ∀ n : N, all_chars plain_char (pretty n) = true).
  { intros n. unfold pretty, pretty_N. case_decide; [done|]. by apply pretty_N_go_plain. }
  destruct z as [|p|p]; [done|apply HN|]. change (all_chars plain_char ("-" +:+ pretty (N.pos p)) = true).
  by rewrite all_chars_app, HN.
Qed.

Lemma truncation_notice_plain size limit : escape (Sizer.truncation_notice size limit) = Sizer.truncation_notice size limit.
Proof.
  apply escape_plain. unfold Sizer.truncation_notice. by rewrite !all_chars_app, !pretty_Z_plain.
Qed.

(** The JSON value of a truncated result. *)
Definition truncated_content (size limit : Z) (body : string) : json :=
  JObj [("content", JArr [JObj [("type", JStr "text");
    ("text", JStr (Sizer.truncation_notice size limit +:+ String "010"%char (take_str (Z.to_nat limit) body)))]])].

Lemma truncMsg_is_marshal size limit body :
  Sizer.truncMsg size limit body = Marshal (truncated_content size limit body).
Proof.
  unfold Sizer.truncMsg, truncated_content, Sizer.q, Sizer.jsonEscape. cbn [Marshal map Join]. unfold print_str.
  rewrite escape_app, truncation_notice_plain.
  change (escape "content") with "content". change (escape "type") with "type". change (escape "text") with "text".
  change (escape (String "010"%char (take_str (Z.to_nat limit) body)))
    with (String bslash "n" +:+ escape (take_str (Z.to_nat limit) body)).
  generalize (Sizer.truncation_notice size limit), (escape (take_str (Z.to_nat limit) body)). intros notice text.
  repeat first [rewrite str_app_cons|rewrite str_app_nil_l|rewrite str_app_assoc]. reflexivity.
Qed.

(** a response of at most the limit passes unchanged; a larger one is
    answered by an error (block), by a well-formed JSON result whose text is the notice and
    exactly the first [limit] bytes (truncate; Go prints U+FFFD where the cut splits a
    multi-byte character), or passes unchanged (warn); the answer keeps the request id. *)
Theorem sizer_keeps_limit : ∀ cfg logger req resp meta st body,
  Error resp = None → Result resp = Some body →
  let size := Z.of_nat (String.length body) in
  let limit := Sizer.MaxResponseBytes cfg in
  let r := fst (Sizer.process cfg logger req resp meta st) in
  ((size ≤ limit)%Z → r = Ok resp) ∧
  ((limit < size)%Z → Sizer.Action cfg = "block" →
     ∃ e, r = Ok (NewErrorResponse (RespID resp) ErrCodeInternal e)) ∧
  ((limit < size)%Z → Sizer.Action cfg = "truncate" →
     ∃ text, r = Ok (mkResponse (RespJSONRPC resp) (RespID resp) (Some text) None) ∧
             Unmarshal text = Some (truncated_content size limit body)) ∧
  ((limit < size)%Z → Sizer.Action cfg = "warn" → r = Ok resp).
Proof.
  intros cfg logger req resp meta st body He Hb size limit r. unfold r, Sizer.process. rewrite He, Hb.
  fold size limit. split_and!.
  - intros Hle. apply Z.leb_le in Hle. by rewrite Hle.
  - intros Hlt Ha. apply Z.leb_gt in Hlt. rewrite Hlt, Ha. cbn. eauto.
  - intros Hlt Ha. apply Z.leb_gt in Hlt. rewrite Hlt, Ha. cbn. eexists. split; [done|].
    rewrite truncMsg_is_marshal. by apply Unmarshal_Marshal.
  - intros Hlt Ha. apply Z.leb_gt in Hlt. by rewrite Hlt, Ha.
Qed.

(** The empty shared state of the witnesses. *)
Definition demo_pstate : PState := mkPState (healthy demo_mw) (NewArchiveDispatcher (healthy []) 0) [] [].

Definition demo_req : Request := NewRequest (Some (JNum "1")) "tools/call" None.

Definition demo_meta : RequestMeta := mkMeta "u" "srv" "srv" "tools/call" "x" "" "1".

Lemma sizer_keeps_limit_witness :
  ∃ text, fst (Sizer.process (Sizer.mkConfig 5 "truncate") (makeEventLogger "srv") demo_req
      (mkResponse "2.0" None (Some "[1,2,3,4]") None) demo_meta demo_pstate) = Ok (mkResponse "2.0" None (Some text) None) ∧
    Unmarshal text = Some (truncated_content 9 5 "[1,2,3,4]").
Proof.
  apply (sizer_keeps_limit (Sizer.mkConfig 5 "truncate") (makeEventLogger "srv") demo_req
    (mkResponse "2.0" None (Some "[1,2,3,4]") None) demo_meta demo_pstate "[1,2,3,4]" eq_refl eq_refl); reflexivity.
Defined.

Section SanitizerTheorems.
Context `{RL : RegexpLaws}.
Import Sanitizer.

(** What the patterns make of a text: [inl] names the pattern that blocks it. *)
Fixpoint sanitize (ps : list compiledPattern) (text : string) : string + string :=
  match ps with
  | [] => inr text
  | p :: rest =>
      if MatchString (re p) text then
        if action p =?s "block" then inl (name p)
        else sanitize rest (ReplaceAllString (re p) text "[REDACTED]")
      else sanitize rest text
  end.

(** The loop computes [sanitize], with a flag that tells whether the text changed. *)
Lemma scan_sanitize ps logger meta text modified st :
  match fst (scan ps logger meta text modified st) with
  | inl nm => sanitize ps text = inl nm
  | inr (text', m) => sanitize ps text = inr text' ∧ (m = false → modified = false ∧ text' = text)
  end.
Proof.
  revert text modified st. induction ps as [|p ps IH]; intros text modified st; cbn; [done|].
  destruct (MatchString (re p) text) eqn:Em; cbn; [|apply IH].
  destruct (action p =?s "block"); [done|].
  destruct (ReplaceAllString (re p) text "[REDACTED]" =?s text) eqn:Er; bool_prop; [rewrite Er; apply IH|].
  specialize (IH (ReplaceAllString (re p) text "[REDACTED]") true
    (logger (meta_event "sanitizer" "redacted" ("Pattern " +:+ quoted (name p) +:+ " redacted from response") meta) st)).
  destruct (fst _) as [nm|[text' m]]; [done|]. destruct IH as [IH1 IH2]. split; [done|].
  intros Hm. by destruct (IH2 Hm).
Qed.

Lemma sanitize_redact_only ps text :
  Forall (λ p, action p = "redact") ps → sanitize ps text = inr (RedactText ps text).
Proof.
  intros Hps. revert text. induction Hps as [|p ps Hp Hps IH]; intros text; cbn; [done|].
  rewrite Hp. cbn. destruct (MatchString (re p) text) eqn:Em; [apply IH|]. by rewrite replace_nothing, IH.
Qed.
End SanitizerTheorems.

(** The client gets the text in which every pattern in turn was
    redacted (exactly the preview of [RedactText] when all patterns redact), and when a
    blocking pattern matches what is left of the text, an error that carries no part of
    the result; errors and empty results pass through. *)
Theorem sanitizer_never_leaks : ∀ `{RL : RegexpLaws} ps logger req resp meta st body,
  Error resp = None → Result resp = Some body →
  let r := fst (Sanitizer.process ps logger req resp meta st) in
  match sanitize ps body with
  | inl nm => r = Ok (NewErrorResponse (RespID resp) ErrCodeInternal
                       ("response blocked by sanitizer: " +:+ nm +:+ " pattern detected"))
  | inr text => result_map Result r = Ok (Some text) ∧ result_map RespID r = Ok (RespID resp)
  end ∧
  (Forall (λ p, Sanitizer.action p = "redact") ps →
   result_map Result r = Ok (Some (Sanitizer.RedactText ps body))).
Proof.
  intros Hre RL ps logger req resp meta st body He Hb r.
  assert (Hmain : match sanitize ps body with
    | inl nm => r = Ok (NewErrorResponse (RespID resp) ErrCodeInternal
                         ("response blocked by sanitizer: " +:+ nm +:+ " pattern detected"))
    | inr text => result_map Result r = Ok (Some text) ∧ result_map RespID r = Ok (RespID resp)
    end).
  { unfold r, Sanitizer.process. rewrite He, Hb. pose proof (scan_sanitize ps logger meta body false st) as Hs.
    destruct (Sanitizer.scan ps logger meta body false st) as [[nm|[text []]] st']; cbn in Hs |- *.
    - by rewrite Hs.
    - destruct Hs as [-> _]. done.
    - destruct Hs as [-> Hm]. destruct (Hm eq_refl) as [_ ->]. by rewrite Hb. }
  split; [done|]. intros Hps. rewrite (sanitize_redact_only ps body Hps) in Hmain. apply Hmain.
Qed.

Definition demo_patterns : list (Sanitizer.compiledPattern (H:=toy_regexp)) :=
  [@Sanitizer.mkCompiled toy_regexp "password" "password" "redact"].

Lemma sanitizer_never_leaks_witness :
  result_map Result (fst (Sanitizer.process demo_patterns (makeEventLogger "srv")
    demo_req (mkResponse "2.0" None (Some "the password: is x") None) demo_meta demo_pstate))
  = Ok (Some "the [REDACTED] is x").
Proof.
  apply (sanitizer_never_leaks (RL:=toy_regexp_laws) demo_patterns
    (makeEventLogger "srv") demo_req (mkResponse "2.0" None (Some "the password: is x") None) demo_meta demo_pstate
    "the password: is x" eq_refl eq_refl). repeat constructor.
Defined.

(** redaction works on the raw text of the result, so a greedy
    pattern also swallows the closing quote and brackets: the result is no JSON any more,
    the encoder refuses it, and the client gets no answer at all. *)
Theorem redaction_breaks_json : ∀ `{RL : RegexpLaws} ps logger req resp meta st body text,
  Error resp = None → Result resp = Some body → sanitize ps body = inr text → Unmarshal text = None →
  ∀ resp', fst (Sanitizer.process ps logger req resp meta st) = Ok resp' → encode_response resp' = None.
Proof.
  intros Hre RL ps logger req resp meta st body text He Hb Hs Hu resp' Hr.
  pose proof (scan_sanitize ps logger meta body false st) as Hsc. unfold Sanitizer.process in Hr. rewrite He, Hb in Hr.
  destruct (Sanitizer.scan ps logger meta body false st) as [[nm|[text' []]] st']; cbn in Hsc, Hr.
  - congruence.
  - destruct Hsc as [Hsc _]. assert (text' = text) as -> by congruence. injection Hr as <-.
    unfold encode_response. cbn. by rewrite Hu.
  - destruct Hsc as [Hsc Hm]. destruct (Hm eq_refl) as [_ ->]. injection Hr as <-.
    assert (text = body) as -> by congruence. unfold encode_response. rewrite Hb. cbn. by rewrite Hu.
Qed.

Definition quoted_result : string := Marshal (JObj [("text", JStr "password:hunter2")]).

Lemma redaction_breaks_json_witness :
  encode_response (mkResponse "2.0" None
    (Some (Sanitizer.RedactText demo_patterns quoted_result)) None) = None.
Proof.
  eapply (redaction_breaks_json (RL:=toy_regexp_laws) demo_patterns
    (makeEventLogger "srv") demo_req (mkResponse "2.0" None (Some quoted_result) None) demo_meta demo_pstate quoted_result);
    [reflexivity|reflexivity|vm_compute; reflexivity|vm_compute; reflexivity|vm_compute; reflexivity].
Defined.

(** when the configuration cannot be read, the pipeline is empty
    and every response reaches the client unsanitized and untruncated; a middleware whose
    configuration is invalid is likewise left out. *)
Theorem pipeline_fails_open : ∀ `{Regexp} encryptor nacl rfc3339 parseURL parseLoopback dispatcher
    iter serverID st req resp meta,
  (∃ fs, faults (mdb st) = true :: fs) →
  let p := (Registry.BuildPipeline encryptor nacl rfc3339 parseURL parseLoopback dispatcher iter serverID st).1 in
  p = [] ∧ Pipeline.RunResponse p req resp meta st = (Ok resp, st).
Proof.
  intros Hre encryptor nacl rfc3339 parseURL parseLoopback dispatcher iter serverID st req resp meta [fs Hf] p.
  assert (Hp : p = []).
  { unfold p, Registry.BuildPipeline, MwStore.GetForServer, query, exec. by rewrite Hf. }
  split; [done|]. by rewrite Hp.
Qed.

Lemma pipeline_fails_open_witness :
  (Registry.BuildPipeline (H:=toy_regexp) None (mkNaCl None None (λ _ _ _ _, "") (λ _, "")) (λ _, "") (λ _, None) (λ _, None)
     true ["sizer"] "srv" (with_mdb demo_pstate (mkDb demo_mw [true]))).1 = [].
Proof.
  apply (pipeline_fails_open (H:=toy_regexp) None (mkNaCl None None (λ _ _ _ _, "") (λ _, "")) (λ _, "") (λ _, None)
    (λ _, None) true ["sizer"] "srv" (with_mdb demo_pstate (mkDb demo_mw [true])) demo_req
    (mkResponse "2.0" None None None) demo_meta). by exists [].
Defined.
