(* ===== verification/Optimizer.v ===== *)
(** * Optimized tool definitions

    [src/internal/store/optimize.go] and the response rewriting of
    [src/internal/middleware/optimizer.go], with [HashTools] of
    [src/internal/mcp/optimize.go].

    An input schema is represented by the JSON value it denotes, so the hash is over
    its compact text (Go hashes the bytes the backend sent; a schema with insignificant
    white space hashes differently there, which only makes a mismatch more likely).
    [sort.Slice] is taken to be stable: with two tools of one name Go may order
    either first. *)
From S2P Require Import Prelude GoStrings Json JsonDecode Base64 Crypto Users Servers Mcp Middleware.

Record ToolOptimization := mkOpt {
  OptID : string; ToolsHash : string; OriginalChars : Z; OptimizedChars : Z; OptimizedTools : string;
  PromptVersion : string; Model : string; OptStatus : string; OptErrorMsg : string; OptCreatedAt : Z; OptUpdatedAt : Z }.

(** [tool_optimizations], by server id; [known] are the servers the foreign key
    accepts. *)
Record Tables := mkTables { known : gset string; optimizations : gmap string ToolOptimization }.

Definition with_opts (t : Tables) (m : gmap string ToolOptimization) : Tables := mkTables (known t) m.

Definition valid_opt_status (x : string) : bool :=
  existsb (String.eqb x) ["pending"; "running"; "ready"; "stale"; "error"].

(** ** The store *)
Definition Get (serverID : string) : DBM Tables (option ToolOptimization) :=
  query (λ t, optimizations t !! serverID).

Definition Upsert (gen : result string) (now : Z) (serverID : string) (opt : ToolOptimization) : DBM Tables unit :=
  match (if OptID opt =?s "" then gen else Ok (OptID opt)) with
  | Err e => db_fail e
  | Ok id =>
      exec (λ t,
        if negb (valid_opt_status (OptStatus opt)) then Err "CHECK constraint failed: tool_optimizations"
        else
          let row id created := mkOpt id (ToolsHash opt) (OriginalChars opt) (OptimizedChars opt) (OptimizedTools opt)
                (PromptVersion opt) (Model opt) (OptStatus opt) (OptErrorMsg opt) created now in
          match optimizations t !! serverID with
          | Some old => Ok (tt, with_opts t (<[serverID := row (OptID old) (OptCreatedAt old)]> (optimizations t)))
          | None =>
              if negb (bool_decide (serverID ∈ known t)) then Err "FOREIGN KEY constraint failed"
              else if existsb (λ '(_, o), OptID o =?s id) (map_to_list (optimizations t))
              then Err "UNIQUE constraint failed: tool_optimizations.id"
              else Ok (tt, with_opts t (<[serverID := row id now]> (optimizations t)))
          end)
  end.

Definition set_status (status errorMsg : string) (now : Z) (o : ToolOptimization) : ToolOptimization :=
  mkOpt (OptID o) (ToolsHash o) (OriginalChars o) (OptimizedChars o) (OptimizedTools o) (PromptVersion o)
    (Model o) status errorMsg (OptCreatedAt o) now.

Definition SetStatus (now : Z) (serverID status errorMsg : string) : DBM Tables unit :=
  exec (λ t, if negb (valid_opt_status status) && bool_decide (is_Some (optimizations t !! serverID))
             then Err "CHECK constraint failed: tool_optimizations"
             else Ok (tt, with_opts t (alter (set_status status errorMsg now) serverID (optimizations t)))).

Definition MarkStale (now : Z) (serverID currentHash : string) : DBM Tables bool :=
  let! opt := Get serverID in
  match opt with
  | None => db_ret false
  | Some o => if (ToolsHash o !=? currentHash) && (OptStatus o =?s "ready")
              then SetStatus now serverID "stale" "" ;;; db_ret true
              else db_ret false
  end.

Definition Delete (serverID : string) : DBM Tables unit :=
  update (λ t, with_opts t (delete serverID (optimizations t))).

(** ** Tools *)
Record Tool := mkTool { TName : string; TDescription : string; TInputSchema : option json }.

Definition decode_tool (l : list (string * json)) : option Tool :=
  n ← decode_string_field "name" l ""; d ← decode_string_field "description" l "";
  Some (mkTool n d (decode_raw_field "inputSchema" l None)).

Definition tool_json (t : Tool) : json :=
  JObj ([("name", JStr (TName t))]
        ++ (if TDescription t =?s "" then [] else [("description", JStr (TDescription t))])
        ++ match TInputSchema t with Some s => [("inputSchema", s)] | None => [] end).

Definition decode_tools (v : option json) : option (list Tool) := decode_struct_list decode_tool v.

Section Optimizer.
Context `{Hashing} (crypto : ConfigEncryptor).

Definition HashTools (tools : list Tool) : string :=
  sha256_hex (foldr (λ t acc, TName t +:+ TDescription t +:+
      match TInputSchema t with Some s => Marshal s | None => "" end +:+ acc) ""
    (stable_sort (λ a b, String.leb (TName a) (TName b)) tools)).

(** The map built from the optimized list: a later tool replaces an earlier one. *)
Definition opt_lookup (optimized : list Tool) (name : string) : option Tool :=
  last (List.filter (λ t, TName t =?s name) optimized).

Definition swap_tools (optimized original : list Tool) : list Tool :=
  map (λ t, default t (opt_lookup optimized (TName t))) original.

(** [None] leaves the response alone; the flag asks for the background
    [MarkStale]. *)
Definition rewrite_tools (opt : ToolOptimization) (result : string) : option string * option string :=
  match Unmarshal result with
  | Some (JObj l) =>
      match decode_tools (decode_raw_field "tools" l None) with
      | None => (None, None)
      | Some original =>
          let liveHash := HashTools original in
          if negb (liveHash =?s ToolsHash opt) then (None, Some liveHash)
          else
            match (v ← Unmarshal (OptimizedTools opt); decode_tools (Some v)) with
            | None => (None, None)
            | Some optimized =>
                (Some (Marshal (marshal_map (set_key "tools"
                   (JArr (map tool_json (swap_tools optimized original))) l))), None)
            end
      end
  | Some JNull =>
      (* a nil map; if the hash of no tools matched, the assignment would panic *)
      let liveHash := HashTools [] in
      if negb (liveHash =?s ToolsHash opt) then (None, Some liveHash) else (None, None)
  | _ => (None, None)
  end.

Record OState := mkOState { odb : Db Tables; sdb : Db Servers.State }.

Definition ProcessToolsList (now : Z) (resp : Response) (meta : RequestMeta) (st : OState) : Response * OState :=
  if MetaMethod meta !=? "tools/list" then (resp, st)
  else
    let '(srv, sd) := Servers.Get crypto (MetaServerID meta) (sdb st) in
    let st := mkOState (odb st) sd in
    match srv with
    | Ok (Some srv) =>
        if negb (OptimizeEnabled srv) then (resp, st)
        else
          let '(opt, od) := Get (MetaServerID meta) (odb st) in
          let st := mkOState od (sdb st) in
          match opt with
          | Ok (Some opt) =>
              if OptStatus opt !=? "ready" then (resp, st)
              else match Error resp, Result resp with
                   | None, Some result =>
                       match rewrite_tools opt result with
                       | (Some text, _) => (mkResponse (RespJSONRPC resp) (RespID resp) (Some text) None, st)
                       | (None, Some liveHash) =>
                           (resp, mkOState (snd (MarkStale now (MetaServerID meta) liveHash (odb st))) (sdb st))
                       | (None, None) => (resp, st)
                       end
                   | _, _ => (resp, st)
                   end
          | _ => (resp, st)
          end
    | _ => (resp, st)
    end.

(** ** Theorems *)

Lemma opt_lookup_name optimized n t : opt_lookup optimized n = Some t → TName t = n.
Proof.
  unfold opt_lookup. intros Hl. apply last_Some_elem_of in Hl. apply list_elem_of_In, filter_In in Hl as [_ Hl].
  by bool_prop.
Qed.

Lemma swap_tools_names optimized original : map TName (swap_tools optimized original) = map TName original.
Proof.
  unfold swap_tools. rewrite map_map. apply map_ext. intros t.
  destruct (opt_lookup optimized (TName t)) as [t'|] eqn:E; [|done]. by apply opt_lookup_name in E.
Qed.

Lemma decode_tool_wf l t : forallb (λ '(_, v), Json.wf v) l = true → decode_tool l = Some t → Json.wf (tool_json t) = true.
Proof.
  intros Hl. unfold decode_tool. destruct (decode_string_field "name" l "") as [n|]; [|done]. cbn.
  destruct (decode_string_field "description" l "") as [d|]; [|done]. cbn. intros [= <-]. unfold tool_json. cbn.
  rewrite !forallb_app. apply andb_true_iff. split; [by destruct (d =?s "")|].
  destruct (decode_raw_field "inputSchema" l None) as [s|] eqn:E; [|done].
  cbn. by rewrite (decode_raw_field_wf "inputSchema" l None s Hl ltac:(done) E).
Qed.

Lemma decode_tools_wf v ts : (∀ j, v = Some j → Json.wf j = true) → decode_tools v = Some ts →
  Forall (λ t, Json.wf (tool_json t) = true) ts.
Proof.
  unfold decode_tools, decode_struct_list. intros Hv. destruct v as [[| | | |l|]|]; try done; try (by intros [= <-]).
  specialize (Hv _ eq_refl). cbn in Hv. rewrite forallb_forall in Hv. intros Hm%mapM_Some.
  induction Hm as [|j t l ts Hj Hm IH]; constructor.
  - assert (Hw : Json.wf j = true) by (apply Hv; by left).
    destruct j as [| | | | |o]; try done; cbn in Hw; [by apply (decode_tool_wf [])|by apply (decode_tool_wf o)].
  - apply IH. intros j' Hin. apply Hv. by right.
Qed.

Lemma swap_tools_wf optimized original :
  Forall (λ t, Json.wf (tool_json t) = true) original → Forall (λ t, Json.wf (tool_json t) = true) optimized →
  Json.wf (JArr (map tool_json (swap_tools optimized original))) = true.
Proof.
  rewrite !Forall_forall. intros Ho Hop. apply forallb_forall. intros j Hj.
  apply in_map_iff in Hj as (t & <- & Ht). apply in_map_iff in Ht as (t0 & <- & Ht0). rewrite <- list_elem_of_In in Ht0.
  destruct (opt_lookup optimized (TName t0)) as [t'|] eqn:El; cbn; [|by apply Ho].
  apply Hop. apply last_Some_elem_of in El. apply list_elem_of_In, filter_In in El as [El _]. by apply list_elem_of_In.
Qed.

(** serving optimized definitions never changes which tools a
    client sees: the rewritten list names exactly the server's live tools in their order,
    every other field of the result (cursors, vendor data) is kept, and the rewritten text
    is JSON. *)
Theorem optimizer_keeps_catalogue : ∀ opt result text bg,
  rewrite_tools opt result = (Some text, bg) →
  ∃ l l' original served,
    Unmarshal result = Some (JObj l) ∧ decode_tools (decode_raw_field "tools" l None) = Some original ∧
    Unmarshal text = Some (JObj l') ∧ last_value "tools" l' = Some (JArr (map tool_json served)) ∧
    map TName served = map TName original ∧ HashTools original = ToolsHash opt ∧
    ∀ k, k ≠ "tools" → last_value k l' = last_value k l.
Proof.
  intros opt result text bg. unfold rewrite_tools.
  destruct (Unmarshal result) as [[| | | | |l]|] eqn:Eu; try done; [by destruct (negb _)|].
  destruct (decode_tools (decode_raw_field "tools" l None)) as [original|] eqn:Eo; [|done].
  destruct (HashTools original =?s ToolsHash opt) eqn:Eh; [|done]. cbn [negb].
  destruct (Unmarshal (OptimizedTools opt)) as [v|] eqn:Ev; [|done]. cbn [mbind option_bind].
  destruct (decode_tools (Some v)) as [optimized|] eqn:Ed; [|done]. intros [= <- _].
  set (served := swap_tools optimized original).
  pose proof (Unmarshal_wf _ _ Eu) as Hwl. cbn in Hwl.
  assert (Ho : Forall (λ t, Json.wf (tool_json t) = true) original).
  { eapply decode_tools_wf; [|exact Eo]. intros j Hj. by apply (decode_raw_field_wf "tools" l None). }
  assert (Hop : Forall (λ t, Json.wf (tool_json t) = true) optimized).
  { eapply decode_tools_wf; [|exact Ed]. intros j [= <-]. by apply (Unmarshal_wf _ _ Ev). }
  destruct (patched_result l "tools" (JArr (map tool_json served)) Hwl) as (l' & Hu & Ht & Hk).
  { by apply swap_tools_wf. }
  exists l, l', original, served. bool_prop. split_and!; try done. apply swap_tools_names.
Qed.
End Optimizer.

Lemma optimizer_keeps_catalogue_witness :
  let live := Marshal (JObj [("tools", JArr [JObj [("name", JStr "a"); ("description", JStr "long text")]]);
                             ("nextCursor", JStr "c")]) in
  let opt := mkOpt "o" (sha256_hex "along text") 9 1
               (Marshal (JArr [JObj [("name", JStr "a"); ("description", JStr "x")]])) "v1" "m" "ready" "" 0 0 in
  ∃ text, (rewrite_tools opt live).1 = Some text ∧
    ∃ l', Unmarshal text = Some (JObj l') ∧ last_value "nextCursor" l' = Some (JStr "c").
Proof.
  cbv zeta. eexists. split; [vm_compute; reflexivity|].
  edestruct (optimizer_keeps_catalogue (H:=toy_hashing)
    (mkOpt "o" (sha256_hex "along text") 9 1
       (Marshal (JArr [JObj [("name", JStr "a"); ("description", JStr "x")]])) "v1" "m" "ready" "" 0 0)
    (Marshal (JObj [("tools", JArr [JObj [("name", JStr "a"); ("description", JStr "long text")]]);
                    ("nextCursor", JStr "c")]))) as (l & l' & o & sv & Hu & _ & Ht & _ & _ & _ & Hk);
    [vm_compute; reflexivity|].
  exists l'. split; [exact Ht|]. rewrite Hk by discriminate. vm_compute in Hu. injection Hu as <-. reflexivity.
Defined.
