(* ===== verification/Proxy.v ===== *)
(** * The MCP proxy

    [src/internal/server/http.go]: [handleMCPProxy] with the access check on requests
    ([checkEndpointAccess]), the profile filter on list responses
    ([filterListResponse]), the request log, and the visibility rules of the REST API
    ([listServers], [canAccessServerAPI] and the dispatch of [handleServerByID]).

    A backend is code behind a connection: its answer is an arbitrary function of
    everything the relay has sent it so far and of the request at hand.  [sent] is that
    history, so what reaches a backend is what the handler appends to it. *)
From stdpp Require Import pretty.
From S2P Require Import Prelude GoStrings Json JsonDecode AccessTiers Base64 Crypto ArchiveQueue ArchiveDispatcher.
From S2P Require Import Profiles Users Servers WebAuth Mcp Middleware Optimizer.

Inductive Message :=
| MsgRequest (req : Request)
| MsgNotification (n : Notification).

(** [proxy.Backend]; [Notifies] says whether it has a [SendNotification] method. *)
Record Backend := mkBackend {
  Send : list (string * Message) → Request → result Response; Notifies : bool }.

Record RequestLog := mkLog {
  LogUserID : string; LogServerID : string; LogMethod : string; LogEndpointName : string;
  LogDurationMs : Z; LogStatus : string; LogErrorMsg : string }.

(** [idb] holds users, profiles and tiers; [ost] the servers and the optimized tools;
    [pst] what the middlewares use; [logs] the entries given to [logRequest]. *)
Record World := mkWorld {
  idb : Db Users.State; ost : OState; pst : PState; backends : gmap string Backend;
  sent : list (string * Message); logs : list RequestLog }.

Definition with_idb (w : World) d : World := mkWorld d (ost w) (pst w) (backends w) (sent w) (logs w).
Definition with_ost (w : World) o : World := mkWorld (idb w) o (pst w) (backends w) (sent w) (logs w).
Definition with_pst (w : World) p : World := mkWorld (idb w) (ost w) p (backends w) (sent w) (logs w).
Definition with_sent (w : World) s : World := mkWorld (idb w) (ost w) (pst w) (backends w) s (logs w).
Definition with_logs (w : World) l : World := mkWorld (idb w) (ost w) (pst w) (backends w) (sent w) l.

(** Which optional stores the server was built with (non-nil pointers). *)
Record Deps := mkDeps {
  accessStore : bool; profileStore : bool; mwRegistry : bool; optimizer : bool; requestLogs : bool }.

(** An HTTP status with plain text, the 202 of a notification, or an encoded JSON-RPC
    response ([None] when the encoder failed and the body is empty). *)
Inductive ProxyReply :=
| PStatus (code : Z) (body : string)
| PAccepted
| PResponse (body : option json).

Definition PHandler : Type := World → ProxyReply * World.

Definition encode (resp : Response) : PHandler := λ w, (PResponse (encode_response resp), w).

(** The tier store on the whole database. *)
Definition on_access {A} (m : DBM Access.State A) : DBM Users.State A :=
  on_profiles (lift_db access (λ a p, Profiles.mkState a (agent_profiles p) (permissions p)) m).

(** ** Access control *)
Section AccessControl.
Context (deps : Deps).

Definition checkEndpointAccess (user : option User) (serverID : string) (req : Request) :
    DBM Users.State (option Response) :=
  match user with
  | None => db_ret None
  | Some u =>
      if uRole u =?s "admin" then db_ret None
      else
        let '(endpointType, endpointName) := extractEndpointName (Method req) (Params req) in
        if (endpointType =?s "") || (endpointName =?s "") then db_ret None
        else
          match (if profileStore deps then uProfileID u else None) with
          | Some profileID =>
              let! allowed := attempt (on_profiles (CheckPermission profileID serverID endpointType endpointName)) in
              match allowed with
              | Err _ => db_ret (Some (NewErrorResponse (ReqID req) ErrCodeInternal "permission check failed"))
              | Ok false => db_ret (Some (NewErrorResponse (ReqID req) ErrCodeInternal
                                           "access denied: not permitted by profile"))
              | Ok true => db_ret None
              end
          | None =>
              let! tier := on_access (Access.GetTier serverID endpointType endpointName) in
              if Access.CheckAccess (uAccessLevel u) tier then db_ret None
              else db_ret (Some (NewErrorResponse (ReqID req) ErrCodeInternal
                                  ("access denied: requires " +:+ tier +:+ " level")))
          end
  end.

(** Endpoint type, key of the list and key of an item's name. *)
Definition list_method (method : string) : option (string * string * string) :=
  if method =?s "tools/list" then Some ("tool", "tools", "name")
  else if method =?s "resources/list" then Some ("resource", "resources", "uri")
  else if method =?s "prompts/list" then Some ("prompt", "prompts", "name")
  else None.

(** The name of a list item, if it decodes. *)
Definition item_name (nameField : string) (item : json) : option string :=
  match item with
  | JObj o => match last_value nameField o with
              | Some (JStr s) => Some s
              | Some JNull => Some ""
              | _ => None
              end
  | _ => None
  end.

Definition filter_items (nameField : string) (permSet : list string) (items : list json) : list json :=
  List.filter (λ raw, match item_name nameField raw with
                      | Some name => existsb (String.eqb name) permSet
                      | None => false
                      end) items.

(** The rewriting of the result text; [None] leaves the response alone. *)
Definition filter_result (listKey nameField : string) (permSet : list string) (result : option string) :
    option string :=
  match (text ← result; Unmarshal text) with
  | Some (JObj l) =>
      match last_value listKey l with
      | Some (JArr items) =>
          Some (Marshal (marshal_map (set_key listKey (JArr (filter_items nameField permSet items)) l)))
      | Some JNull => Some (Marshal (marshal_map (set_key listKey (JArr []) l)))
      | _ => None
      end
  | _ => None
  end.

Definition filterListResponse (resp : Response) (method : string) (user : User) (serverID : string) :
    DBM Users.State Response :=
  match Error resp, uProfileID user with
  | None, Some profileID =>
      if uRole user =?s "admin" then db_ret resp
      else
        match list_method method with
        | None => db_ret resp
        | Some (endpointType, listKey, nameField) =>
            let! perms := attempt (on_profiles (GetPermissionsForServer profileID serverID)) in
            match perms with
            | Err _ => db_ret resp
            | Ok perms =>
                let permSet := omap (λ p : perm, if p.1.2 =?s endpointType then Some p.2 else None) perms in
                match filter_result listKey nameField permSet (Result resp) with
                | Some text => db_ret (mkResponse (RespJSONRPC resp) (RespID resp) (Some text) (Error resp))
                | None => db_ret resp
                end
            end
        end
  | _, _ => db_ret resp
  end.
End AccessControl.

(** ** The proxy handler *)
Section Handler.
Context `{Hashing} `{Regexp} (deps : Deps) (crypto : ConfigEncryptor) (encryptor : option ConfigEncryptor)
  (nacl : NaCl) (rfc3339 : Z → string) (parseURL : string → option ParsedURL)
  (parseLoopback : string → option bool) (dispatcher : bool).

(** [go s.logRequest(...)], guarded by the log store and [methodShouldLog]. *)
Definition logRequest (user : option User) (serverID method endpointName : string) (durationMs : Z)
    (status errMsg : string) (w : World) : World :=
  if requestLogs deps && methodShouldLog method
  then with_logs w (logs w ++ [mkLog (match user with Some u => uID u | None => "" end)
                                 serverID method endpointName durationMs status errMsg])
  else w.

(** A JSON-RPC error answer after a log entry. *)
Definition refuse (user : option User) (serverID endpointName : string) (ms : Z) (status errMsg : string)
    (method : string) (resp : Response) : PHandler := λ w,
  encode resp (logRequest user serverID method endpointName ms status errMsg w).

Definition request_meta (user : option User) (srv : Server) (req : Request) (endpointName remoteAddr : string) :
    RequestMeta :=
  mkMeta (match user with Some u => uID u | None => "" end) (ID srv) (Name srv) (Method req) endpointName remoteAddr
    (match ReqID req with Some i => Marshal i | None => "" end).

(** [backend.Send]: the request joins what the backend has been sent. *)
Definition send (serverID : string) (backend : Backend) (req : Request) (w : World) : result Response * World :=
  (Send backend (sent w) req, with_sent w (sent w ++ [(serverID, MsgRequest req)])).

Definition notify (serverID : string) (backend : Backend) (n : Notification) (w : World) : World :=
  if Notifies backend then with_sent w (sent w ++ [(serverID, MsgNotification n)]) else w.

(** After the response middlewares: the optimizer, the profile filter, the log. *)
Definition finish (now ms : Z) (user : option User) (srv : Server) (req : Request) (endpointName : string)
    (meta : option RequestMeta) (resp : Response) : PHandler := λ w,
  let '(resp, w) :=
    if optimizer deps && (Method req =?s "tools/list") then
      let meta := default (mkMeta "" (ID srv) (Name srv) (Method req) "" "" "") meta in
      let '(resp, o) := ProcessToolsList crypto now resp meta (ost w) in (resp, with_ost w o)
    else (resp, w) in
  let '(resp, w) :=
    match user with
    | Some u =>
        if (uRole u !=? "admin") && bool_decide (is_Some (uProfileID u)) && profileStore deps then
          match filterListResponse resp (Method req) u (ID srv) (idb w) with
          | (Ok resp, d) => (resp, with_idb w d)
          | (Err _, d) => (resp, with_idb w d)
          end
        else (resp, w)
    | None => (resp, w)
    end in
  encode resp (logRequest user (ID srv) (Method req) endpointName ms "success" "" w).

(** From the pipeline on: [pipeline] is empty when there is no registry. *)
Definition forward (now ms : Z) (user : option User) (srv : Server) (backend : Backend) (req : Request)
    (endpointName remoteAddr : string) (pipeline : Pipeline.t) : PHandler := λ w,
  let active := (0 <? Pipeline.Len pipeline)%nat in
  let meta := request_meta user srv req endpointName remoteAddr in
  match (if active then Pipeline.RunRequest pipeline req meta (pst w) else (Ok req, pst w)) with
  | (Err e, p) =>
      refuse user (ID srv) endpointName ms "blocked" ("middleware: " +:+ e) (Method req)
        (NewErrorResponse (ReqID req) ErrCodeInternal e) (with_pst w p)
  | (Ok req, p) =>
      match send (ID srv) backend req (with_pst w p) with
      | (Err e, w) =>
          refuse user (ID srv) endpointName ms "error" e (Method req)
            (NewErrorResponse (ReqID req) ErrCodeInternal ("proxy error: " +:+ e)) w
      | (Ok resp, w) =>
          match (if active then Pipeline.RunResponse pipeline req resp meta (pst w) else (Ok resp, pst w)) with
          | (Err e, p) =>
              refuse user (ID srv) endpointName ms "blocked" ("middleware: " +:+ e) (Method req)
                (NewErrorResponse (ReqID req) ErrCodeInternal e) (with_pst w p)
          | (Ok resp, p) =>
              finish now ms user srv req endpointName (if active then Some meta else None) resp (with_pst w p)
          end
      end
  end.

(** A decoded request.  [iter] is the order in which Go iterates the middleware map,
    [ms] the measured duration. *)
Definition handle_request (now ms : Z) (iter : list string) (user : option User) (srv : Server)
    (backend : Backend) (remoteAddr : string) (req : Request) : PHandler := λ w,
  let endpointName := (extractEndpointName (Method req) (Params req)).2 in
  let '(denied, w) :=
    if accessStore deps then
      match checkEndpointAccess deps user (ID srv) req (idb w) with
      | (Ok denied, d) => (denied, with_idb w d)
      | (Err _, d) => (None, with_idb w d)
      end
    else (None, w) in
  match denied with
  | Some resp => refuse user (ID srv) endpointName ms "denied" "access denied" (Method req) resp w
  | None =>
      let '(pipeline, w) :=
        if mwRegistry deps then
          let '(p, st) := Registry.BuildPipeline encryptor nacl rfc3339 parseURL parseLoopback dispatcher iter
                            (ID srv) (pst w) in (p, with_pst w st)
        else (Pipeline.NewPipeline, w) in
      forward now ms user srv backend req endpointName remoteAddr pipeline w
  end.

(** The JSON object of the body ([] for [null]). *)
Definition handle_message (now ms : Z) (iter : list string) (user : option User) (srv : Server)
    (backend : Backend) (remoteAddr : string) (raw : list (string * json)) : PHandler := λ w,
  match last_value "id" raw with
  | None => (PAccepted, notify (ID srv) backend (decode_notification raw) w)
  | Some _ =>
      match decode_request raw with
      | None => (PStatus 400 "invalid JSON-RPC request", w)
      | Some req => handle_request now ms iter user srv backend remoteAddr req w
      end
  end.

Definition path_server (path : string) : string :=
  match Split (TrimPrefix path "/mcp/") "/"%char with x :: _ => x | [] => "" end.

(** [body] is what reading the request body gave. *)
Definition handleMCPProxy (now ms : Z) (iter : list string) (user : option User) (body : result string)
    (r : WebAuth.Request) : PHandler := λ w,
  if WebAuth.Method r !=? "POST" then (PStatus 405 "method not allowed, use POST", w)
  else
    let serverName := path_server (Path r) in
    if serverName =?s "" then (PStatus 400 "missing server name in path", w)
    else
      let '(srv, sd) := Servers.GetByName crypto serverName (sdb (ost w)) in
      let w := with_ost w (mkOState (odb (ost w)) sd) in
      match srv with
      | Err _ => (PStatus 500 "internal error", w)
      | Ok None => (PStatus 404 ("server " +:+ serverName +:+ " not found"), w)
      | Ok (Some srv) =>
          match backends w !! ID srv with
          | None => (PStatus 503 ("server " +:+ serverName +:+ " is not running"), w)
          | Some backend =>
              match body with
              | Err _ => (PStatus 400 "failed to read request body", w)
              | Ok text =>
                  match Unmarshal text with
                  | Some (JObj raw) => handle_message now ms iter user srv backend (RemoteAddr r) raw w
                  | Some JNull => handle_message now ms iter user srv backend (RemoteAddr r) [] w
                  | _ => (PStatus 400 "invalid JSON", w)
                  end
              end
          end
      end.
End Handler.

(** ** The REST API's view of the servers *)
Section Rest.
Context (deps : Deps) (crypto : ConfigEncryptor).

(** The list [listServers] encodes; [Err] is the 500 reply. *)
Definition listServers (user : option User) (w : World) : result (list Server) * World :=
  let '(all, sd) := Servers.ListServers crypto (sdb (ost w)) in
  let w := with_ost w (mkOState (odb (ost w)) sd) in
  match all with
  | Err _ => (Err "failed to list servers", w)
  | Ok all =>
      match user with
      | None => (Ok all, w)
      | Some u =>
          if uRole u =?s "admin" then (Ok all, w)
          else match (if profileStore deps then uProfileID u else None) with
               | None => (Ok [], w)
               | Some pid =>
                   let '(allowed, d) := on_profiles (ServerIDsForProfile pid) (idb w) in
                   let allowed := match allowed with Ok a => a | Err _ => ∅ end in
                   (Ok (List.filter (λ srv, bool_decide (ID srv ∈ allowed)) all), with_idb w d)
               end
      end
  end.

Definition canAccessServerAPI (user : option User) (serverID : string) : DBM Users.State bool :=
  match user with
  | None => db_ret false
  | Some u =>
      if uRole u =?s "admin" then db_ret true
      else match (if profileStore deps then uProfileID u else None) with
           | None => db_ret false
           | Some pid =>
               let! allowed := attempt (on_profiles (ServerIDsForProfile pid)) in
               match allowed with
               | Err _ => db_ret false
               | Ok a => db_ret (bool_decide (serverID ∈ a))
               end
           end
  end.
End Rest.

(** ** Theorems: the access check *)

(** The row a tier lookup finds. *)
Definition stored_tier (s : Users.State) (serverID ty nm : string) : string :=
  match Access.tiers (access (profiles s)) !! (serverID, ty, nm) with
  | Some row => Access.AccessTier row
  | None => "write"
  end.

(** What a user may ask of a server: an admin anything; anyone a method that names no
    endpoint; with a profile, what the profile grants; without, what the access level
    reaches. *)
Definition permitted (deps : Deps) (user : option User) (serverID : string) (req : Request) (s : Users.State) : Prop :=
  match user with
  | None => True
  | Some u =>
      let '(ty, nm) := extractEndpointName (Method req) (Params req) in
      uRole u = "admin" ∨ nm = "" ∨
      match (if profileStore deps then uProfileID u else None) with
      | Some pid => (pid, serverID, ty, nm) ∈ permissions (profiles s)
      | None => Access.CheckAccess (uAccessLevel u) (stored_tier s serverID ty nm) = true
      end
  end.

Lemma lift_query {S T A} (get : S → T) (put : T → S → S) (f : T → A) d :
  (∀ s, put (get s) s = s) → lift_db get put (query f) d = query (λ s, f (get s)) d.
Proof.
  intros Hput. destruct d as [s fs]. unfold lift_db, query, exec. cbn.
  destruct (next_fault fs) as [[] fs']; cbn; by rewrite Hput.
Qed.

Lemma on_profiles_query {A} (f : Profiles.State → A) d : on_profiles (query f) d = query (λ s, f (profiles s)) d.
Proof. apply lift_query. by intros []. Qed.

Lemma on_access_GetTier serverID ty nm d :
  on_access (Access.GetTier serverID ty nm) d =
  match query (λ s, stored_tier s serverID ty nm) d with
  | (Ok t, d') => (Ok t, d')
  | (Err _, d') => (Ok "write", d')
  end.
Proof.
  destruct d as [[[? ? ?] ? ? ? ? ? ? ?] fs]. unfold on_access, on_profiles, lift_db, Access.GetTier, db_bind, attempt, query, exec,
    stored_tier. cbn. destruct (next_fault fs) as [[] fs']; cbn; [done|]. by destruct (_ !! _).
Qed.

Lemma endpoint_type_name method params :
  (extractEndpointName method params).1 = "" → (extractEndpointName method params).2 = "".
Proof. unfold extractEndpointName. by repeat case_match. Qed.

(** The check never changes a table and always answers; on a healthy database it
    refuses exactly what is not permitted, and a failing database can only widen the
    legacy check to the endpoints of tier [write]. *)
Lemma checkEndpointAccess_spec deps user serverID req d :
  ∃ denied d', checkEndpointAccess deps user serverID req d = (Ok denied, d') ∧ tables d' = tables d ∧
    (denied = None → permitted deps user serverID req (tables d) ∨
       ∃ u, user = Some u ∧ (if profileStore deps then uProfileID u else None) = None ∧
            (next_fault (faults d)).1 = true ∧ Access.CheckAccess (uAccessLevel u) "write" = true) ∧
    (faults d = [] → permitted deps user serverID req (tables d) → denied = None).
Proof.
  unfold checkEndpointAccess, permitted. destruct user as [u|]; [|do 2 eexists; by eauto].
  pose proof (endpoint_type_name (Method req) (Params req)) as Hty.
  destruct (extractEndpointName (Method req) (Params req)) as [ty nm]. cbn in Hty.
  destruct (String.eqb_spec (uRole u) "admin"); [do 2 eexists; split_and!; eauto|].
  destruct ((ty =?s "") || (nm =?s "")) eqn:E.
  { do 2 eexists; split_and!; eauto. intros _. left. right. left. apply orb_true_iff in E as [E|E]; bool_prop; auto. }
  bool_prop. destruct (if profileStore deps then uProfileID u else None) as [pid|] eqn:Ep.
  - unfold db_bind, attempt, CheckPermission. rewrite on_profiles_query. unfold query, exec.
    destruct (next_fault (faults d)) as [[] fs] eqn:Ef; cbn.
    { do 2 eexists; split_and!; [done..|]. intros Hf. by rewrite Hf in Ef. }
    case_bool_decide; do 2 eexists; split_and!; try done; naive_solver.
  - unfold db_bind. rewrite on_access_GetTier. unfold query, exec.
    destruct (next_fault (faults d)) as [[] fs] eqn:Ef; cbn.
    + destruct (Access.CheckAccess (uAccessLevel u) "write") eqn:Ec; do 2 eexists; split_and!;
        [done|done| |intros Hf; by rewrite Hf in Ef|done|done|done|intros Hf; by rewrite Hf in Ef].
      intros _. right. exists u. by split_and!.
    + destruct (Access.CheckAccess _ _) eqn:Ec; do 2 eexists; split_and!; try done; naive_solver.
Qed.

Lemma denied_response deps user serverID req d resp d' :
  checkEndpointAccess deps user serverID req d = (Ok (Some resp), d') →
  ∃ msg, resp = NewErrorResponse (ReqID req) ErrCodeInternal msg.
Proof.
  unfold checkEndpointAccess, db_bind, attempt, db_ret. intros E. repeat case_match; simplify_eq; eauto.
Qed.

(** ** Theorems: what reaches a backend *)
Section Forwarding.
Context `{Hashing} `{Regexp} (deps : Deps) (crypto : ConfigEncryptor) (encryptor : option ConfigEncryptor)
  (nacl : NaCl) (rfc3339 : Z → string) (parseURL : string → option ParsedURL)
  (parseLoopback : string → option bool) (dispatcher : bool).

Lemma logRequest_sent user sid m e ms st msg w : sent (logRequest deps user sid m e ms st msg w) = sent w.
Proof. unfold logRequest. by case_if. Qed.

Lemma refuse_sent user sid e ms st msg m resp w : sent (refuse deps user sid e ms st msg m resp w).2 = sent w.
Proof. apply logRequest_sent. Qed.

Lemma finish_sent now ms user srv req e meta resp w :
  sent (finish deps crypto now ms user srv req e meta resp w).2 = sent w.
Proof.
  unfold finish. destruct (optimizer deps && _); [destruct (ProcessToolsList _ _ _ _ _)|];
    (destruct user as [u|]; [case_if; [destruct (filterListResponse _ _ _ _ _) as [[] ?]|]|]);
    cbn; by rewrite logRequest_sent.
Qed.

(** A pipeline of the registry lets the request through as it is, and whatever happens
    afterwards the backend has been sent exactly that request. *)
Lemma forward_sent now ms user srv backend req e addr p w :
  Forall transparent p →
  sent (forward deps crypto now ms user srv backend req e addr p w).2 = sent w ++ [(ID srv, MsgRequest req)].
Proof.
  intros Hp. unfold forward.
  assert (Hreq : ∃ st, (if (0 <? Pipeline.Len p)%nat
      then Pipeline.RunRequest p req (request_meta user srv req e addr) (pst w) else (Ok req, pst w)) = (Ok req, st)).
  { case_if; [|by eauto]. pose proof (proj1 (run_transparent p Hp) req (request_meta user srv req e addr) (pst w)) as Hr.
    destruct (Pipeline.RunRequest _ _ _ _) as [r st]. cbn in Hr. subst r. eauto. }
  destruct Hreq as [st ->]. unfold send. destruct (Send _ _ _) as [resp|err]; [|by rewrite refuse_sent].
  destruct (if (0 <? Pipeline.Len p)%nat then _ else _) as [[resp'|err] st']; [by rewrite finish_sent|by rewrite refuse_sent].
Qed.

Lemma BuildPipeline_transparent iter sid st :
  Forall transparent (Registry.BuildPipeline encryptor nacl rfc3339 parseURL parseLoopback dispatcher iter sid st).1.
Proof. unfold Registry.BuildPipeline. destruct (MwStore.GetForServer _ _ _) as [[l|e] d]; [apply build_transparent|constructor]. Qed.

Let run_request := handle_request deps crypto encryptor nacl rfc3339 parseURL parseLoopback dispatcher.
Let run_proxy := handleMCPProxy deps crypto encryptor nacl rfc3339 parseURL parseLoopback dispatcher.

Lemma handle_request_sent now ms iter user srv backend addr req w :
  accessStore deps = true →
  ∃ denied d', checkEndpointAccess deps user (ID srv) req (idb w) = (Ok denied, d') ∧
    sent (run_request now ms iter user srv backend addr req w).2 =
    sent w ++ match denied with None => [(ID srv, MsgRequest req)] | Some _ => [] end.
Proof.
  intros Ha. destruct (checkEndpointAccess_spec deps user (ID srv) req (idb w)) as (denied & d' & E & _).
  exists denied, d'. split; [done|]. unfold run_request, handle_request. rewrite Ha, E.
  destruct denied as [resp|]; [by rewrite refuse_sent, app_nil_r|].
  destruct (mwRegistry deps).
  - pose proof (BuildPipeline_transparent iter (ID srv) (pst (with_idb w d'))) as Hp.
    destruct (Registry.BuildPipeline _ _ _ _ _ _ _ _ _) as [p st]. by rewrite forward_sent.
  - rewrite forward_sent; [done|constructor].
Qed.

(** What the handler makes of a body, once the server is running. *)
Definition body_message (text : string) : option (list (string * json)) :=
  match Unmarshal text with Some (JObj raw) => Some raw | Some JNull => Some [] | _ => None end.

(** C1: with an access store configured, whatever the body, the backends, the middleware
    configuration and the database failures, one proxy call sends at most one message, and
    only to the running server the path names.  The message is one of three: a notification,
    when the body has no id; the decoded request itself, when the user is permitted it; or
    the decoded request unpermitted, when the first database statement of the call, the tier
    lookup, fails, the user has no profile and the user's level reaches tier write, since
    [GetTier] then answers write for an endpoint of any tier. *)
Theorem proxy_enforces_access : ∀ now ms iter user body r w,
  accessStore deps = true →
  let w' := (run_proxy now ms iter user body r w).2 in
  sent w' = sent w ∨
  ∃ srv m text raw,
    (Servers.GetByName crypto (path_server (Path r)) (sdb (ost w))).1 = Ok (Some srv) ∧
    is_Some (backends w !! ID srv) ∧ body = Ok text ∧ body_message text = Some raw ∧
    sent w' = sent w ++ [(ID srv, m)] ∧
    match m with
    | MsgNotification n => last_value "id" raw = None ∧ n = decode_notification raw
    | MsgRequest req =>
        is_Some (last_value "id" raw) ∧ decode_request raw = Some req ∧
        (permitted deps user (ID srv) req (tables (idb w)) ∨
         ∃ u, user = Some u ∧ (if profileStore deps then uProfileID u else None) = None ∧
              (next_fault (faults (idb w))).1 = true ∧ Access.CheckAccess (uAccessLevel u) "write" = true)
    end.
Proof.
  intros now ms iter user body r w Ha w'. unfold w', run_proxy, handleMCPProxy.
  case_if; [by left|]. case_if; [by left|].
  destruct (Servers.GetByName crypto (path_server (Path r)) (sdb (ost w))) as [[[srv|]|e] sd] eqn:Eg; [|by left..].
  set (w1 := with_ost w _). cbn [backends with_ost]. destruct (backends w1 !! ID srv) as [backend|] eqn:Eb; [|by left].
  destruct body as [text|]; [|by left].
  assert (Hmsg : ∀ raw, body_message text = Some raw →
    let w' := (handle_message deps crypto encryptor nacl rfc3339 parseURL parseLoopback dispatcher now ms iter user srv
                 backend (RemoteAddr r) raw w1).2 in
    sent w' = sent w ∨ ∃ m, sent w' = sent w ++ [(ID srv, m)] ∧
      match m with
      | MsgNotification n => last_value "id" raw = None ∧ n = decode_notification raw
      | MsgRequest req =>
          is_Some (last_value "id" raw) ∧ decode_request raw = Some req ∧
          (permitted deps user (ID srv) req (tables (idb w)) ∨
           ∃ u, user = Some u ∧ (if profileStore deps then uProfileID u else None) = None ∧
              (next_fault (faults (idb w))).1 = true ∧ Access.CheckAccess (uAccessLevel u) "write" = true)
      end).
  { intros raw _. unfold handle_message. destruct (last_value "id" raw) as [i|] eqn:Ei.
    - destruct (decode_request raw) as [req|] eqn:Er; [|by left].
      destruct (handle_request_sent now ms iter user srv backend (RemoteAddr r) req w1 Ha) as (denied & d' & Ec & Hs).
      destruct (checkEndpointAccess_spec deps user (ID srv) req (idb w1)) as (denied' & d'' & Ec' & _ & Hok & _).
      rewrite Ec in Ec'. simplify_eq. unfold run_request in Hs. cbn zeta. rewrite Hs.
      destruct denied' as [resp|]; [left; by rewrite app_nil_r|]. right. exists (MsgRequest req). split_and!; eauto.
    - unfold notify. case_if; [|by left]. right. exists (MsgNotification (decode_notification raw)). by split_and!. }
  unfold body_message in Hmsg. destruct (Unmarshal text) as [[| | | | |raw]|] eqn:Eu; try by left.
  - destruct (Hmsg [] eq_refl) as [Hm|(m & Hs & Hm)]; [by left|]. right. exists srv, m, text, [].
    unfold body_message. rewrite Eu. split_and!; eauto.
  - destruct (Hmsg raw eq_refl) as [Hm|(m & Hs & Hm)]; [by left|]. right. exists srv, m, text, raw.
    unfold body_message. rewrite Eu. split_and!; eauto.
Qed.

(** A request the handler gets to decode: POST, a known running server, a body with id. *)
Definition reaches (r : WebAuth.Request) (w : World) (srv : Server) (backend : Backend) (text : string)
    (req : Request) : Prop :=
  WebAuth.Method r = "POST" ∧ path_server (Path r) ≠ "" ∧
  (Servers.GetByName crypto (path_server (Path r)) (sdb (ost w))).1 = Ok (Some srv) ∧
  backends w !! ID srv = Some backend ∧
  ∃ raw, Unmarshal text = Some (JObj raw) ∧ is_Some (last_value "id" raw) ∧ decode_request raw = Some req.

Lemma reaches_run now ms iter user r w srv backend text req :
  reaches r w srv backend text req →
  run_proxy now ms iter user (Ok text) r w =
  run_request now ms iter user srv backend (RemoteAddr r) req
    (with_ost w (mkOState (odb (ost w)) (Servers.GetByName crypto (path_server (Path r)) (sdb (ost w))).2)).
Proof.
  intros (Hm & Hn & Hg & Hb & raw & Hu & [i Hi] & Hd). unfold run_proxy, handleMCPProxy.
  rewrite Hm. apply String.eqb_neq in Hn. cbn [negb]. rewrite String.eqb_refl, Hn. cbn [negb].
  destruct (Servers.GetByName _ _ _) as [g sd]. cbn in Hg. subst g. cbn [backends with_ost]. rewrite Hb, Hu.
  unfold handle_message. by rewrite Hi, Hd.
Qed.

(** With a healthy permission database the proxy forwards a
    request exactly when the user is permitted it, unchanged and once; a refused caller gets
    a JSON-RPC error that carries the id of the request. *)
Theorem permitted_requests_forwarded : ∀ now ms iter user r w srv backend text req,
  accessStore deps = true → faults (idb w) = [] → reaches r w srv backend text req →
  let '(rep, w') := run_proxy now ms iter user (Ok text) r w in
  (permitted deps user (ID srv) req (tables (idb w)) → sent w' = sent w ++ [(ID srv, MsgRequest req)]) ∧
  (¬ permitted deps user (ID srv) req (tables (idb w)) →
     sent w' = sent w ∧
     ∃ msg, rep = PResponse (encode_response (NewErrorResponse (ReqID req) ErrCodeInternal msg))).
Proof.
  intros now ms iter user r w srv backend text req Ha Hf Hr. rewrite (reaches_run _ _ _ _ _ _ _ _ _ _ Hr).
  set (w1 := with_ost w _).
  destruct (handle_request_sent now ms iter user srv backend (RemoteAddr r) req w1 Ha) as (denied & d' & Ec & Hs).
  destruct (checkEndpointAccess_spec deps user (ID srv) req (idb w)) as (denied' & d'' & Ec' & _ & Hok & Hall).
  change (idb w1) with (idb w) in Ec. rewrite Ec in Ec'. simplify_eq.
  destruct (run_request _ _ _ _ _ _ _ _ _) as [rep w'] eqn:Eh. cbn in Hs. split.
  - intros Hp. by rewrite Hs, (Hall Hf Hp).
  - intros Hp. destruct denied' as [resp|].
    + rewrite Hs, app_nil_r. split; [done|]. destruct (denied_response _ _ _ _ _ _ _ Ec) as [msg ->].
      unfold run_request, handle_request in Eh. rewrite Ha in Eh. change (idb w1) with (idb w) in Eh.
      rewrite Ec in Eh. injection Eh as <- _. eauto.
    + exfalso. destruct (Hok eq_refl) as [H1|(u & _ & _ & Hfl & _)]; [done|]. by rewrite Hf in Hfl.
Qed.

Lemma logRequest_logs user sid m e ms st msg w :
  requestLogs deps = true → methodShouldLog m = true →
  ∃ l, logs (logRequest deps user sid m e ms st msg w) = logs w ++ [l] ∧
    LogUserID l = default "" (uID <$> user) ∧ LogServerID l = sid ∧ LogMethod l = m ∧ LogEndpointName l = e ∧ LogStatus l = st.
Proof. intros H1 H2. unfold logRequest. rewrite H1, H2. eexists. split; [done|]. by destruct user. Qed.

(** The entry a request is logged with. *)
Definition logged_as (user : option User) (sid : string) (req : Request) (status : string) (l : RequestLog) : Prop :=
  LogUserID l = default "" (uID <$> user) ∧ LogServerID l = sid ∧ LogMethod l = Method req ∧
  LogEndpointName l = (extractEndpointName (Method req) (Params req)).2 ∧ LogStatus l = status.

Lemma finish_logs now ms user srv req e meta resp w :
  requestLogs deps = true → methodShouldLog (Method req) = true →
  ∃ l, logs (finish deps crypto now ms user srv req e meta resp w).2 = logs w ++ [l] ∧
    LogUserID l = default "" (uID <$> user) ∧ LogServerID l = ID srv ∧ LogMethod l = Method req ∧
    LogEndpointName l = e ∧ LogStatus l = "success".
Proof.
  intros H1 H2. unfold finish. destruct (optimizer deps && _); [destruct (ProcessToolsList _ _ _ _ _) as [resp' o]|];
    (destruct user as [u|]; [case_if; [destruct (filterListResponse _ _ _ _ _) as [[] ?]|]|]);
    cbn [encode snd]; match goal with |- context [logRequest _ ?u ?s ?m ?e ?ms ?st ?msg ?w] =>
      destruct (logRequest_logs u s m e ms st msg w H1 H2) as (l & -> & Hl) end; eauto.
Qed.

Lemma forward_logs now ms user srv backend req e addr p w :
  requestLogs deps = true → methodShouldLog (Method req) = true → Forall transparent p →
  ∃ l, logs (forward deps crypto now ms user srv backend req e addr p w).2 = logs w ++ [l] ∧
    LogUserID l = default "" (uID <$> user) ∧ LogServerID l = ID srv ∧ LogMethod l = Method req ∧
    LogEndpointName l = e ∧ LogStatus l ∈ ["success"; "error"].
Proof.
  intros H1 H2 Hp. unfold forward. set (meta := request_meta user srv req e addr).
  assert (Hreq : ∃ st, (if (0 <? Pipeline.Len p)%nat then Pipeline.RunRequest p req meta (pst w) else (Ok req, pst w)) = (Ok req, st)).
  { case_if; [|by eauto]. pose proof (proj1 (run_transparent p Hp) req meta (pst w)) as Hr.
    destruct (Pipeline.RunRequest _ _ _ _) as [r st]. cbn in Hr. subst r. eauto. }
  destruct Hreq as [st ->]. unfold send. destruct (Send _ _ _) as [resp|err].
  - set (w1 := with_sent _ _).
    assert (Hresp : ∃ resp' st', (if (0 <? Pipeline.Len p)%nat then Pipeline.RunResponse p req resp meta (pst w1)
        else (Ok resp, pst w1)) = (Ok resp', st')).
    { case_if; [|by eauto]. unfold Pipeline.RunResponse.
      pose proof (proj2 (run_transparent (rev p) (Forall_rev Hp)) req resp meta (pst w1)) as Hr.
      destruct (Pipeline.response_loop _ _ _ _ _) as [[r|] st']; [eauto|done]. }
    destruct Hresp as (resp' & st' & ->).
    edestruct finish_logs as (l & -> & ? & ? & ? & ? & Hs); [done..|]. eexists. split_and!; eauto. rewrite Hs. by left.
  - unfold refuse, encode. cbn [snd]. edestruct logRequest_logs as (l & -> & ? & ? & ? & ? & Hs); [done..|].
    eexists. split_and!; eauto. rewrite Hs. by right; left.
Qed.

(** With a log store, every proxied request of a logged method leaves
    exactly one log entry that names the user, the server, the method and the endpoint, and
    the entry says denied exactly when nothing was sent to the backend. *)
Theorem proxy_audit_trail : ∀ now ms iter user r w srv backend text req,
  accessStore deps = true → requestLogs deps = true → methodShouldLog (Method req) = true →
  reaches r w srv backend text req →
  let w' := (run_proxy now ms iter user (Ok text) r w).2 in
  ∃ l, logs w' = logs w ++ [l] ∧ logged_as user (ID srv) req (LogStatus l) l ∧
    LogStatus l ∈ ["denied"; "success"; "error"] ∧ (LogStatus l = "denied" ↔ sent w' = sent w).
Proof.
  intros now ms iter user r w srv backend text req Ha Hl Hm Hr. rewrite (reaches_run _ _ _ _ _ _ _ _ _ _ Hr).
  set (w1 := with_ost w _). unfold run_request, handle_request. rewrite Ha.
  destruct (checkEndpointAccess_spec deps user (ID srv) req (idb w1)) as (denied & d' & -> & _).
  set (e := (extractEndpointName _ _).2). destruct denied as [resp|].
  - cbn zeta. rewrite refuse_sent. unfold refuse, encode. cbn [snd].
    edestruct logRequest_logs as (l & -> & ? & ? & ? & ? & Hs); [done..|]. exists l. rewrite Hs. split_and!; try done.
    by left.
  - destruct (if mwRegistry deps then _ else _) as [p w2] eqn:Ep.
    assert (Hp : Forall transparent p ∧ sent w2 = sent w ∧ logs w2 = logs w).
    { destruct (mwRegistry deps); [|simplify_eq; split_and!; [constructor|done..]].
      pose proof (BuildPipeline_transparent iter (ID srv) (pst (with_idb w1 d'))) as Hp.
      destruct (Registry.BuildPipeline _ _ _ _ _ _ _ _ _) as [p0 st0]. by simplify_eq. }
    destruct Hp as (Hp & Hs2 & Hl2). cbn zeta. rewrite forward_sent, Hs2 by done.
    destruct (forward_logs now ms user srv backend req e (RemoteAddr r) p w2 Hl Hm Hp) as (l & -> & ? & ? & ? & ? & Hs).
    rewrite Hl2. exists l. split_and!; try done.
    + set_solver.
    + split; intros E; [rewrite E in Hs; set_solver|]. apply (f_equal length) in E. rewrite length_app in E. cbn in E. lia.
Qed.

(** C36: a body without an id is handed to the backend as a
    notification for every user: neither the profile nor the access level nor any
    middleware is consulted, and nothing is logged. *)
Theorem notifications_bypass_access : ∀ now ms iter user r w srv backend text raw,
  WebAuth.Method r = "POST" → path_server (Path r) ≠ "" →
  (Servers.GetByName crypto (path_server (Path r)) (sdb (ost w))).1 = Ok (Some srv) →
  backends w !! ID srv = Some backend → Notifies backend = true →
  Unmarshal text = Some (JObj raw) → last_value "id" raw = None →
  let '(rep, w') := run_proxy now ms iter user (Ok text) r w in
  rep = PAccepted ∧ sent w' = sent w ++ [(ID srv, MsgNotification (decode_notification raw))] ∧
  logs w' = logs w ∧ idb w' = idb w ∧ pst w' = pst w.
Proof.
  intros now ms iter user r w srv backend text raw Hm Hn Hg Hb Hnot Hu Hi. unfold run_proxy, handleMCPProxy.
  rewrite Hm. apply String.eqb_neq in Hn. cbn [negb]. rewrite String.eqb_refl, Hn. cbn [negb].
  destruct (Servers.GetByName _ _ _) as [g sd]. cbn in Hg. subst g. cbn [backends with_ost]. rewrite Hb, Hu.
  unfold handle_message, notify. by rewrite Hi, Hnot.
Qed.

(** the access check reads the tool name with Go's
    case-insensitive, last-wins decoding, while the parameters are forwarded as they came:
    a user who may call [granted] gets a call whose exact [name] is any other tool through
    by adding a second key [Name], and a second key that is no string makes the check see
    no name at all and lets every user through. *)
Theorem name_confusion_bypass : ∀ now ms iter u r w srv backend text req other shadow,
  accessStore deps = true → faults (idb w) = [] → reaches r w srv backend text req →
  Method req = "tools/call" → Params req = Some (JObj [("name", JStr other); ("Name", shadow)]) →
  match shadow with
  | JStr granted =>
      match (if profileStore deps then uProfileID u else None) with
      | Some pid => (pid, ID srv, "tool", granted) ∈ permissions (profiles (tables (idb w)))
      | None => Access.CheckAccess (uAccessLevel u) (stored_tier (tables (idb w)) (ID srv) "tool" granted) = true
      end
  | JNull => False
  | _ => True
  end →
  sent (run_proxy now ms iter (Some u) (Ok text) r w).2 = sent w ++ [(ID srv, MsgRequest req)].
Proof.
  intros now ms iter u r w srv backend text req other shadow Ha Hf Hr Hm Hp Hs.
  rewrite (reaches_run _ _ _ _ _ _ _ _ _ _ Hr). set (w1 := with_ost w _).
  destruct (handle_request_sent now ms iter (Some u) srv backend (RemoteAddr r) req w1 Ha) as (denied & d' & Ec & ->).
  destruct (checkEndpointAccess_spec deps (Some u) (ID srv) req (idb w1)) as (denied' & d'' & Ec' & _ & _ & Hall).
  rewrite Ec in Ec'. simplify_eq. rewrite Hall; [done|done|].
  unfold permitted. rewrite Hm, Hp. destruct shadow; cbn in Hs |- *; auto; try (by right; left).
Qed.
End Forwarding.

(** ** Theorems: what a client is shown *)

Definition grants (s : Users.State) (pid sid ty name : string) : bool :=
  bool_decide ((pid, sid, ty, name) ∈ permissions (profiles s)).

Definition shown (s : Users.State) (pid sid ty nameField : string) (item : json) : bool :=
  match item_name nameField item with Some name => grants s pid sid ty name | None => false end.

(** The call that uses a listed item. *)
Definition invocation (method name : string) : Request :=
  if method =?s "tools/list" then NewRequest (Some (JNum "1")) "tools/call" (Some (JObj [("name", JStr name)]))
  else if method =?s "resources/list"
  then NewRequest (Some (JNum "1")) "resources/read" (Some (JObj [("uri", JStr name)]))
  else NewRequest (Some (JNum "1")) "prompts/get" (Some (JObj [("name", JStr name)])).

Lemma permSet_spec s pid sid ty name :
  existsb (String.eqb name)
    (omap (λ p : perm, if p.1.2 =?s ty then Some p.2 else None)
       (stable_sort perm_leb (elements (filter (λ p : perm, p.1.1.1 = pid ∧ p.1.1.2 = sid) (permissions (profiles s))))))
  = grants s pid sid ty name.
Proof.
  apply eq_bool_prop_intro. unfold grants. rewrite bool_decide_spec. rewrite Is_true_true, existsb_exists. split.
  - intros (n & Hin & Hn). bool_prop. subst n. rewrite <- list_elem_of_In, list_elem_of_omap in Hin.
    destruct Hin as ([[[p1 p2] p3] p4] & Hin & E). rewrite elem_of_stable_sort, elem_of_elements, elem_of_filter in Hin.
    cbn in *. destruct (String.eqb_spec p3 ty); [|done]. naive_solver.
  - intros Hin. exists name. rewrite String.eqb_refl. split; [|done]. rewrite <- list_elem_of_In, list_elem_of_omap.
    exists (pid, sid, ty, name). rewrite elem_of_stable_sort, elem_of_elements, elem_of_filter. cbn.
    by rewrite String.eqb_refl.
Qed.

Lemma filter_items_shown s pid sid ty nf items perms :
  (∀ name, existsb (String.eqb name) perms = grants s pid sid ty name) →
  filter_items nf perms items = List.filter (shown s pid sid ty nf) items.
Proof.
  intros Hp. unfold filter_items. apply filter_ext. intros item. unfold shown. destruct (item_name nf item); [apply Hp|done].
Qed.

Lemma filter_wf p items : forallb Json.wf items = true → forallb Json.wf (List.filter p items) = true.
Proof.
  rewrite !forallb_forall. intros Hw x Hx. apply filter_In in Hx as [Hx _]. auto.
Qed.

Lemma invocation_endpoint method name ty key nf :
  list_method method = Some (ty, key, nf) →
  extractEndpointName (Method (invocation method name)) (Params (invocation method name)) = (ty, name).
Proof. unfold list_method, invocation. by repeat case_match; intros; simplify_eq. Qed.

(** C2: for a user with a profile, a list response shows exactly
    the items the profile grants, in the backend's order, with every other field of the
    result and the envelope unchanged; and a named item is shown exactly when the access
    check would let the user invoke it. *)
Theorem listing_mirrors_invocation : ∀ deps resp method u sid (s : Users.State) pid text l ty key nf items,
  uProfileID u = Some pid → uRole u ≠ "admin" → profileStore deps = true →
  list_method method = Some (ty, key, nf) →
  Error resp = None → Result resp = Some text → Unmarshal text = Some (JObj l) →
  last_value key l = Some (JArr items) →
  (∃ text' l',
    outcome (filterListResponse resp method u sid) (healthy s) =
      Ok (mkResponse (RespJSONRPC resp) (RespID resp) (Some text') None) ∧
    Unmarshal text' = Some (JObj l') ∧
    last_value key l' = Some (JArr (List.filter (shown s pid sid ty nf) items)) ∧
    ∀ k, k ≠ key → last_value k l' = last_value k l) ∧
  (∀ item name, item_name nf item = Some name → name ≠ "" →
    shown s pid sid ty nf item = true ↔
    outcome (checkEndpointAccess deps (Some u) sid (invocation method name)) (healthy s) = Ok None).
Proof.
  intros deps resp method u sid s pid text l ty key nf items Hp Hr Hd Hm He Ht Hu Hk. apply String.eqb_neq in Hr. split.
  - unfold outcome, filterListResponse. rewrite He, Hp, Hr, Hm. unfold db_bind, attempt, GetPermissionsForServer.
    rewrite on_profiles_query. unfold query. rewrite exec_healthy. cbn zeta. unfold filter_result. rewrite Ht.
    cbn [mbind option_bind]. rewrite Hu, Hk.
    rewrite (filter_items_shown s pid sid ty) by (intros; apply permSet_spec).
    pose proof (Unmarshal_wf _ _ Hu) as Hw. cbn in Hw.
    assert (Hwi : Json.wf (JArr items) = true) by (by eapply last_value_wf).
    edestruct (patched_result l key (JArr (List.filter (shown s pid sid ty nf) items)) Hw) as (l' & ? & ? & ?);
      [by apply filter_wf|].
    do 2 eexists. split; [reflexivity|eauto].
  - intros item name Hn Hne. unfold shown. rewrite Hn. unfold outcome, checkEndpointAccess.
    rewrite Hr, (invocation_endpoint _ name _ _ _ Hm), Hd, Hp. apply String.eqb_neq in Hne.
    assert (Hty : (ty =?s "") = false) by (unfold list_method in Hm; repeat case_match; by simplify_eq).
    rewrite Hty, Hne. cbn [orb]. unfold db_bind, attempt, CheckPermission.
    rewrite on_profiles_query. unfold query. rewrite exec_healthy. unfold grants. by case_bool_decide.
Qed.

(** the REST listing shows a non-admin only servers on which the
    profile of the key grants something, and nothing at all without a profile, whatever
    statements fail; on a healthy database it shows all of those, the same servers
    [canAccessServerAPI] opens one by one. *)
Theorem api_lists_only_granted : ∀ deps crypto u w l,
  uRole u ≠ "admin" → (listServers deps crypto (Some u) w).1 = Ok l →
  (∀ srv, srv ∈ l → ∃ pid ty nm, uProfileID u = Some pid ∧ profileStore deps = true ∧
     (pid, ID srv, ty, nm) ∈ permissions (profiles (tables (idb w)))) ∧
  (faults (idb w) = [] → ∀ all, (Servers.ListServers crypto (sdb (ost w))).1 = Ok all →
     ∀ srv, srv ∈ l ↔ srv ∈ all ∧ outcome (canAccessServerAPI deps (Some u) (ID srv)) (idb w) = Ok true).
Proof.
  intros deps crypto u w l Hr. apply String.eqb_neq in Hr. unfold listServers, outcome, canAccessServerAPI.
  destruct (Servers.ListServers crypto (sdb (ost w))) as [[all|e] sd]; [|done]. rewrite Hr.
  destruct (if profileStore deps then uProfileID u else None) as [pid|] eqn:Ep.
  2:{ intros [= <-]. split; [intros srv Hs; by apply not_elem_of_nil in Hs|].
      intros _ all' [= <-] srv. split; [intros Hs; by apply not_elem_of_nil in Hs|by intros [_ [=]]]. }
  unfold db_bind, attempt, ServerIDsForProfile. rewrite !on_profiles_query. cbn [idb with_ost].
  unfold query, exec. destruct (next_fault (faults (idb w))) as [[] fs] eqn:Ef; intros [= <-]; split.
  - intros srv Hs. rewrite list_elem_of_In, filter_In in Hs. destruct Hs as [_ Hs]. bool_prop. by apply not_elem_of_empty in Hs.
  - intros Hf. by rewrite Hf in Ef.
  - intros srv Hs. rewrite list_elem_of_In, filter_In in Hs. destruct Hs as [_ Hs]. bool_prop.
    apply elem_of_filter in Hs as [_ Hs]. apply elem_of_map in Hs as ([[[p1 p2] p3] p4] & Hid & Hin).
    apply elem_of_filter in Hin as [Hpid Hin]. cbn in Hid, Hpid. subst. exists pid, p3, p4.
    destruct (profileStore deps); [|done]. done.
  - intros _ all' [= <-] srv. rewrite !list_elem_of_In, filter_In. cbn.
    split; intros [? Hb]; (split; [done|]); [by rewrite Hb|by injection Hb].
Qed.

(** ** Witnesses *)
Definition demo_server : Server := mkServer "srv" "docs" "Docs" "http" "{}" "running" "" "healthy" None "" false 0 0.

(** A backend that answers every request with the same list of two tools. *)
Definition demo_tools : string :=
  Marshal (JObj [("tools", JArr [JObj [("name", JStr "get_x")]; JObj [("name", JStr "drop_x")]]); ("nextCursor", JStr "c")]).

Definition demo_backend : Backend := mkBackend (λ _ req, Ok (mkResponse "2.0" (ReqID req) (Some demo_tools) None)) true.

Definition demo_world : World :=
  mkWorld (healthy Users.demo) (mkOState (healthy (Optimizer.mkTables {["srv"]} ∅)) (healthy {["srv" := demo_server]}))
    demo_pstate {["srv" := demo_backend]} [] [].

Definition demo_deps : Deps := mkDeps true true true true true.

Definition demo_nacl : NaCl := mkNaCl None None (λ _ _ _ _, "") (λ _, "").

Definition demo_user : User := mkUser "u" "bob" "" "user" "write" None false 1 (Some "p") "agents".

Definition demo_post : WebAuth.Request := WebAuth.mkRequest "POST" "/mcp/docs" "" "" "" "" "10.0.0.1:1" None ∅ [] "".

Definition demo_body (params : json) : string :=
  Marshal (JObj [("jsonrpc", JStr "2.0"); ("id", JNum "1"); ("method", JStr "tools/call"); ("params", params)]).

Definition demo_call (params : json) : Request := mkRequest "2.0" (Some (JNum "1")) "tools/call" (Some params).

Definition demo_run (user : option User) (body : string) : ProxyReply * World :=
  handleMCPProxy (H:=toy_hashing) (H0:=toy_regexp) demo_deps (mkEncryptor None) None demo_nacl (λ _, "") (λ _, None)
    (λ _, None) true 0 0 ["archive"; "sizer"] user (Ok body) demo_post demo_world.

Lemma demo_reaches params :
  Json.wf params = true →
  reaches (mkEncryptor None) demo_post demo_world demo_server demo_backend (demo_body params) (demo_call params).
Proof.
  intros Hw. split_and!; try done.
  exists [("jsonrpc", JStr "2.0"); ("id", JNum "1"); ("method", JStr "tools/call"); ("params", params)].
  split_and!; [|by eexists|done]. apply Unmarshal_Marshal. cbn. by rewrite Hw.
Qed.

Lemma proxy_enforces_access_witness :
  sent (demo_run (Some demo_user) (demo_body (JObj [("name", JStr "get_x")]))).2 =
    [("srv", MsgRequest (demo_call (JObj [("name", JStr "get_x")])))] ∧
  ("p", "srv", "tool", "get_x") ∈ permissions (profiles Users.demo).
Proof.
  assert (Hs : sent (demo_run (Some demo_user) (demo_body (JObj [("name", JStr "get_x")]))).2 =
    [("srv", MsgRequest (demo_call (JObj [("name", JStr "get_x")])))]) by (vm_compute; reflexivity).
  split; [exact Hs|].
  destruct (proxy_enforces_access (H:=toy_hashing) (H0:=toy_regexp) demo_deps (mkEncryptor None) None demo_nacl (λ _, "")
    (λ _, None) (λ _, None) true 0 0 ["archive"; "sizer"] (Some demo_user) (Ok (demo_body (JObj [("name", JStr "get_x")])))
    demo_post demo_world eq_refl) as [Hn|(srv & m & text & raw & Hg & _ & _ & _ & Hm & Hp)].
  - change (sent (demo_run (Some demo_user) (demo_body (JObj [("name", JStr "get_x")]))).2 = []) in Hn.
    rewrite Hs in Hn. discriminate.
  - change (sent (demo_run (Some demo_user) (demo_body (JObj [("name", JStr "get_x")]))).2 = [] ++ [(ID srv, m)]) in Hm.
    rewrite Hs in Hm. injection Hm as Hid <-. destruct Hp as (_ & _ & [Hp|(u & [= <-] & Hno & _)]); [|discriminate].
    rewrite <- Hid in Hp. cbn in Hp. destruct Hp as [Hp|[Hp|Hp]]; [discriminate..|exact Hp].
Defined.

Lemma permitted_requests_forwarded_witness :
  sent (demo_run (Some demo_user) (demo_body (JObj [("name", JStr "drop_x")]))).2 = [].
Proof.
  pose proof (permitted_requests_forwarded (H:=toy_hashing) (H0:=toy_regexp) demo_deps (mkEncryptor None) None demo_nacl
    (λ _, "") (λ _, None) (λ _, None) true 0 0 ["archive"; "sizer"] (Some demo_user) demo_post demo_world demo_server
    demo_backend (demo_body (JObj [("name", JStr "drop_x")])) (demo_call (JObj [("name", JStr "drop_x")]))
    eq_refl eq_refl (demo_reaches (JObj [("name", JStr "drop_x")]) eq_refl)) as Hp.
  unfold demo_run. destruct (handleMCPProxy _ _ _ _ _ _ _ _ _ _ _ _ _ _ _) as [rep w'].
  destruct Hp as [_ Hp]. apply Hp. cbn. intros [Hc|[Hc|Hc]]; [discriminate..|].
  apply elem_of_singleton in Hc. discriminate.
Defined.

Lemma proxy_audit_trail_witness :
  ∃ l, logs (demo_run (Some demo_user) (demo_body (JObj [("name", JStr "drop_x")]))).2 = [l] ∧ LogEndpointName l = "drop_x".
Proof.
  destruct (proxy_audit_trail (H:=toy_hashing) (H0:=toy_regexp) demo_deps (mkEncryptor None) None demo_nacl
    (λ _, "") (λ _, None) (λ _, None) true 0 0 ["archive"; "sizer"] (Some demo_user) demo_post demo_world demo_server
    demo_backend (demo_body (JObj [("name", JStr "drop_x")])) (demo_call (JObj [("name", JStr "drop_x")]))
    eq_refl eq_refl eq_refl (demo_reaches (JObj [("name", JStr "drop_x")]) eq_refl)) as (l & Hl & (_ & _ & _ & He & _) & _).
  exists l. split; [exact Hl|exact He].
Defined.

Lemma notifications_bypass_access_witness :
  sent (demo_run (Some demo_user) (Marshal (JObj [("method", JStr "tools/call"); ("params", JObj [("name", JStr "drop_x")])]))).2 =
  [("srv", MsgNotification (mkNotification "" "tools/call" (Some (JObj [("name", JStr "drop_x")]))))].
Proof.
  pose proof (notifications_bypass_access (H:=toy_hashing) (H0:=toy_regexp) demo_deps (mkEncryptor None) None demo_nacl
    (λ _, "") (λ _, None) (λ _, None) true 0 0 ["archive"; "sizer"] (Some demo_user) demo_post demo_world demo_server
    demo_backend (Marshal (JObj [("method", JStr "tools/call"); ("params", JObj [("name", JStr "drop_x")])]))
    [("method", JStr "tools/call"); ("params", JObj [("name", JStr "drop_x")])]
    eq_refl ltac:(discriminate) eq_refl eq_refl eq_refl eq_refl eq_refl) as Hp.
  unfold demo_run. destruct (handleMCPProxy _ _ _ _ _ _ _ _ _ _ _ _ _ _ _) as [rep w']. apply Hp.
Defined.

Lemma name_confusion_bypass_witness :
  sent (demo_run (Some demo_user) (demo_body (JObj [("name", JStr "drop_x"); ("Name", JStr "get_x")]))).2 =
  [("srv", MsgRequest (demo_call (JObj [("name", JStr "drop_x"); ("Name", JStr "get_x")])))].
Proof.
  apply (name_confusion_bypass (H:=toy_hashing) (H0:=toy_regexp) demo_deps (mkEncryptor None) None demo_nacl
    (λ _, "") (λ _, None) (λ _, None) true 0 0 ["archive"; "sizer"] demo_user demo_post demo_world demo_server
    demo_backend (demo_body (JObj [("name", JStr "drop_x"); ("Name", JStr "get_x")]))
    (demo_call (JObj [("name", JStr "drop_x"); ("Name", JStr "get_x")])) "drop_x" (JStr "get_x")
    eq_refl eq_refl (demo_reaches (JObj [("name", JStr "drop_x"); ("Name", JStr "get_x")]) eq_refl) eq_refl eq_refl).
  cbn. apply elem_of_singleton. reflexivity.
Defined.

Lemma listing_mirrors_invocation_witness :
  ∃ text' l', outcome (filterListResponse (mkResponse "2.0" None (Some demo_tools) None) "tools/list" demo_user "srv")
    (healthy Users.demo) = Ok (mkResponse "2.0" None (Some text') None) ∧
  Unmarshal text' = Some (JObj l') ∧ last_value "tools" l' = Some (JArr [JObj [("name", JStr "get_x")]]).
Proof.
  destruct (listing_mirrors_invocation demo_deps (mkResponse "2.0" None (Some demo_tools) None) "tools/list" demo_user "srv"
    Users.demo "p" demo_tools
    [("tools", JArr [JObj [("name", JStr "get_x")]; JObj [("name", JStr "drop_x")]]); ("nextCursor", JStr "c")]
    "tool" "tools" "name" [JObj [("name", JStr "get_x")]; JObj [("name", JStr "drop_x")]]
    eq_refl ltac:(discriminate) eq_refl eq_refl eq_refl eq_refl eq_refl eq_refl) as [(text' & l' & Ho & Hu & Hl & _) _].
  exists text', l'. split; [exact Ho|]. split; [exact Hu|]. rewrite Hl. reflexivity.
Defined.

Lemma api_lists_only_granted_witness :
  ∃ l, (listServers demo_deps (mkEncryptor None) (Some demo_user) demo_world).1 = Ok l ∧
    ∃ ty nm, ("p", "srv", ty, nm) ∈ permissions (profiles Users.demo).
Proof.
  exists [demo_server]. split; [reflexivity|].
  destruct (api_lists_only_granted demo_deps (mkEncryptor None) demo_user demo_world [demo_server]
    ltac:(discriminate) eq_refl) as [Hl _].
  destruct (Hl demo_server ltac:(by left)) as (pid & ty & nm & [= <-] & _ & Hin). exists ty, nm. exact Hin.
Defined.
