(* ===== verification/ToolOptimize.v ===== *)
(** * Optimizing tool definitions

    [src/internal/mcp/optimize.go]: size statistics, the deterministic schema pruning,
    the batches sent to a language model and the checks on what comes back.

    [PruneSchema] works on text in the code and recurses through [RawMessage]s.  Here
    the recursion ([prune]) is on the JSON value and [PruneSchema] is its text; the two
    differ only in how strings inside kept parts are escaped.  The model is a function
    from the number of the batch and the batch to a text or an error: the prompt is
    determined by the batch. *)
From S2P Require Import Prelude GoStrings Json.

(** ** Raw members

    [json.RawMessage] is the text of a member as it was sent.  The raw text of a value
    is what the parser consumes. *)
Definition raw_value (s : string) : option (string * string) :=
  let s := skip_ws s in
  '(_, r) ← parse_value (S (String.length s)) s;
  Some (take_str (String.length s - String.length r) s, r).

(** The members of an object after [{] or [,]. *)
Fixpoint raw_members (fuel : nat) (s : string) : option (list (string * string) * string) :=
  match fuel with
  | O => None
  | S fuel' =>
      match skip_ws s with
      | String c s' =>
          if Ascii.eqb c dquote then
            '(k, r) ← parse_chars (S (String.length s')) s';
            match skip_ws r with
            | String c1 r1 =>
                if Ascii.eqb c1 ":"%char then
                  '(v, r2) ← raw_value r1;
                  match skip_ws r2 with
                  | String c3 r3 =>
                      if Ascii.eqb c3 ","%char then '(l, r4) ← raw_members fuel' r3; Some ((k, v) :: l, r4)
                      else if Ascii.eqb c3 "}"%char then Some ([(k, v)], r3)
                      else None
                  | EmptyString => None
                  end
                else None
            | EmptyString => None
            end
          else None
      | EmptyString => None
      end
  end.

Definition raw_object (s : string) : option (list (string * string)) :=
  match skip_ws s with
  | String c s' =>
      if Ascii.eqb c "{"%char then
        match skip_ws s' with
        | String c2 _ => if Ascii.eqb c2 "}"%char then Some [] else fst <$> raw_members (String.length s) s'
        | EmptyString => None
        end
      else None
  | EmptyString => None
  end.

Fixpoint raw_elems (fuel : nat) (s : string) : option (list string) :=
  match fuel with
  | O => None
  | S fuel' =>
      '(v, r) ← raw_value s;
      match skip_ws r with
      | String c r' =>
          if Ascii.eqb c ","%char then cons v <$> raw_elems fuel' r'
          else if Ascii.eqb c "]"%char then Some [v]
          else None
      | EmptyString => None
      end
  end.

Definition raw_array (s : string) : option (list string) :=
  match skip_ws s with
  | String c s' =>
      if Ascii.eqb c "["%char then
        match skip_ws s' with
        | String c2 _ => if Ascii.eqb c2 "]"%char then Some [] else raw_elems (String.length s) s'
        | EmptyString => None
        end
      else None
  | EmptyString => None
  end.

(** ** Tools and statistics *)

(** [Tool] with its schema as the bytes that were received; the empty string is the
    absent schema. *)
Record Tool := mkTool { Name : string; Description : string; InputSchema : string }.

Record ToolStat := mkStat { SName : string; DescChars : nat; SchemaChar : nat; TotalChars : nat }.

Definition tool_size (t : Tool) : nat := String.length (Description t) + String.length (InputSchema t).

Fixpoint AuditTools (tools : list Tool) : list ToolStat * nat :=
  match tools with
  | [] => ([], 0)
  | t :: r =>
      let descLen := String.length (Description t) in
      let schemaLen := String.length (InputSchema t) in
      let toolTotal := descLen + schemaLen in
      let '(stats, total) := AuditTools r in
      (mkStat (Name t) descLen schemaLen toolTotal :: stats, toolTotal + total)
  end.

(** ** Pruning *)
Definition removeKeys : list string :=
  ["$schema"; "$id"; "title"; "examples"; "example"; "deprecated"; "readOnly"; "writeOnly";
   "contentMediaType"; "contentEncoding"].

Definition removed (k : string) : bool := existsb (String.eqb k) removeKeys || HasPrefix k "x-".

Definition nested_keys : list string := ["items"; "$defs"; "definitions"; "if"; "then"; "else"; "not"].

Definition array_keys : list string := ["anyOf"; "oneOf"; "allOf"; "prefixItems"].

Section PruneWith.
Context (PruneSchema : json → json).

Definition pruneProperties_with (raw : json) : json :=
  match raw with
  | JObj props => marshal_map (map (λ '(key, val), (key, PruneSchema val)) props)
  | _ => raw
  end.

Definition pruneArray_with (raw : json) : json :=
  match raw with
  | JArr arr => JArr (map PruneSchema arr)
  | _ => raw
  end.

(** [null] decodes into a nil map, which prints as [null]. *)
Definition pruneNested_with (raw : json) : json :=
  match raw with
  | JObj obj => marshal_map (map (λ '(key, val), (key, PruneSchema val)) obj)
  | _ => pruneArray_with raw
  end.

Definition prune_member (key : string) (val : json) : json :=
  if key =?s "properties" then pruneProperties_with val
  else if existsb (String.eqb key) nested_keys then pruneNested_with val
  else if existsb (String.eqb key) array_keys then pruneArray_with val
  else val.
End PruneWith.

(** The map without the removed keys, the other values pruned, printed with sorted keys. *)
Fixpoint prune (schema : json) : json :=
  match schema with
  | JObj obj =>
      marshal_map (List.filter (λ '(key, _), negb (removed key))
                     (map (λ '(key, val), (key, prune_member prune key val)) obj))
  | _ => schema
  end.

Definition pruneProperties : json → json := pruneProperties_with prune.
Definition pruneNested : json → json := pruneNested_with prune.
Definition pruneArray : json → json := pruneArray_with prune.

(** On text: what is no object comes back as it is. *)
Definition PruneSchema (schema : string) : string :=
  if schema =?s "" then schema
  else match Unmarshal schema with
       | Some (JObj obj) => Marshal (prune (JObj obj))
       | Some JNull => "null"
       | _ => schema
       end.

(** ** Batches *)
Fixpoint batch_from (budget : nat) (current : list Tool) (currentSize : nat) (tools : list Tool) : list (list Tool) :=
  match tools with
  | [] => match current with [] => [] | _ => [current] end
  | t :: r =>
      let toolSize := String.length (Description t) + String.length (InputSchema t) in
      match current with
      | _ :: _ =>
          if budget <? currentSize + toolSize then current :: batch_from budget [t] toolSize r
          else batch_from budget (current ++ [t]) (currentSize + toolSize) r
      | [] => batch_from budget [t] (currentSize + toolSize) r
      end
  end.

Definition batchBySize (tools : list Tool) (budget : nat) : list (list Tool) := batch_from budget [] 0 tools.

(** ** The reply of the language model *)

Definition fence : string := "```".

(** The first group of the fence expression, trimmed: between the first fence, an optional
    [json] and the next fence.  The white space the expression strips is stripped
    by [TrimSpace] as well, and neither it nor [json] contains a fence, so there is a
    match exactly when there are two disjoint fences. *)
Definition fenced (text : string) : option string :=
  i ← Index text fence;
  let rest := drop_str (i + 3) text in
  j ← Index rest fence;
  Some (TrimSpace (TrimPrefix (take_str j rest) "json")).

Definition extractJSON (text : string) : string :=
  let text := TrimSpace text in
  if HasPrefix text "[" then text
  else match fenced text with
       | Some t => t
       | None =>
           match Index text "[", LastIndex text "]" with
           | Some start, Some stop => if start <? stop then take_str (stop + 1 - start) (drop_str start text) else text
           | _, _ => text
           end
       end.

(** Decoding one tool: string fields as in [decode_string_field], the schema raw. *)
Fixpoint raw_field (name : string) (l : list (string * string)) (cur : string) : string :=
  match l with
  | [] => cur
  | (k, v) :: r => raw_field name r (if EqualFold k name then v else cur)
  end.

Definition decode_tool (raw : string) : option Tool :=
  match Unmarshal raw with
  | Some JNull => Some (mkTool "" "" "")
  | Some (JObj l) =>
      n ← decode_string_field "name" l ""; d ← decode_string_field "description" l "";
      members ← raw_object raw;
      Some (mkTool n d (raw_field "inputSchema" members ""))
  | _ => None
  end.

Definition decode_tools (text : string) : option (list Tool) :=
  match Unmarshal text with
  | Some JNull => Some []
  | Some (JArr _) => elems ← raw_array text; mapM decode_tool elems
  | _ => None
  end.

(** [json.MarshalIndent] refuses a schema that is no JSON. *)
Definition marshals (t : Tool) : bool :=
  (InputSchema t =?s "") || match Unmarshal (InputSchema t) with Some _ => true | None => false end.

Section Model.
Context (complete : nat → list Tool → result string).

Definition optimizeBatch (idx : nat) (tools : list Tool) : result (list Tool) :=
  if negb (forallb marshals tools) then Err "marshaling tools"
  else match complete idx tools with
       | Err e => Err e
       | Ok text =>
           match decode_tools (extractJSON text) with
           | None => Err "parsing LLM response as JSON"
           | Some optimized => Ok optimized
           end
       end.

Fixpoint optimize_batches (idx : nat) (batches : list (list Tool)) : result (list Tool) :=
  match batches with
  | [] => Ok []
  | batch :: r =>
      match optimizeBatch idx batch with
      | Err e => Err ("optimizing batch: " +:+ e)
      | Ok res => result_map (app res) (optimize_batches (S idx) r)
      end
  end.

(** The check of the names: [None] when every one is expected and none is repeated. *)
Fixpoint check_names (expected : list string) (seen : list string) (optimized : list Tool) : option string :=
  match optimized with
  | [] => None
  | t :: r =>
      if negb (existsb (String.eqb (Name t)) expected) then Some ("LLM returned unknown tool name " +:+ Name t)
      else if existsb (String.eqb (Name t)) seen then Some ("LLM returned duplicate tool name " +:+ Name t)
      else check_names expected (Name t :: seen) r
  end.

(** [prunedByName\[name\]]: a later tool replaces an earlier one, a missing one is the zero
    value. *)
Definition pruned_by_name (pruned : list Tool) (name : string) : Tool :=
  default (mkTool "" "" "") (last (List.filter (λ t, Name t =?s name) pruned)).

Definition keep_smaller (pruned : list Tool) (opt : Tool) : Tool :=
  let orig := pruned_by_name pruned (Name opt) in
  if String.length (Description orig) + String.length (InputSchema orig)
     <=? String.length (Description opt) + String.length (InputSchema opt) then orig else opt.

Definition prune_tool (t : Tool) : Tool := mkTool (Name t) (Description t) (PruneSchema (InputSchema t)).

Definition charBudget : nat := Z.to_nat 30000.

(** [available] is [client != nil && client.Available()]. *)
Definition OptimizeTools (available : bool) (tools : list Tool) : result (list Tool) :=
  if length tools =? 0 then Ok tools
  else
    let pruned := map prune_tool tools in
    if negb available then Ok pruned
    else match optimize_batches 0 (batchBySize pruned charBudget) with
         | Err e => Err e
         | Ok optimized =>
             if negb (length optimized =? length tools) then Err "LLM returned a wrong number of tools"
             else match check_names (map Name tools) [] optimized with
                  | Some e => Err e
                  | None => Ok (map (keep_smaller pruned) optimized)
                  end
         end.
End Model.

(** ** Pruning: idempotence, size, and what is kept *)

(** The direct parts of a value. *)
Definition parts (j : json) : list json :=
  match j with JArr l => l | JObj l => map snd l | _ => [] end.

(** A property of a value and its direct parts, by induction on the value. *)
Lemma json_deep_ind (P : json → Prop) :
  (∀ j, (∀ v, v ∈ parts j → P v ∧ ∀ u, u ∈ parts v → P u) → P j) → ∀ j, P j.
Proof.
  intros Hstep j. enough (H : P j ∧ ∀ v, v ∈ parts j → P v) by exact (proj1 H).
  induction j as [| | | |l IH|l IH] using json_ind'.
  1-4: split; [apply Hstep|]; intros ? Hv; by apply not_elem_of_nil in Hv.
  - assert (Hl : ∀ v, v ∈ l → P v ∧ ∀ u, u ∈ parts v → P u) by (by apply Forall_forall).
    split; [by apply Hstep|]. intros v Hv. by apply Hl.
  - assert (Hl : ∀ v, v ∈ map snd l → P v ∧ ∀ u, u ∈ parts v → P u).
    { intros v ([k v'] & -> & Hin)%list_elem_of_fmap. rewrite Forall_forall in IH. by apply (IH (k, v')). }
    split; [by apply Hstep|]. intros v Hv. by apply Hl.
Qed.

Lemma part_of_arr v l : v ∈ l → v ∈ parts (JArr l).
Proof. done. Qed.

Lemma part_of_obj k v l : last_value k l = Some v → v ∈ parts (JObj l).
Proof. intros H%last_value_elem. cbn. apply list_elem_of_fmap. by exists (k, v). Qed.
#[export] Hint Resolve part_of_arr part_of_obj : relay.

(** Mapping the values of a map. *)
Definition map_values (f : json → json) (l : list (string * json)) : json :=
  marshal_map (map (λ '(key, val), (key, f val)) l).

Lemma map_values_lookup f l :
  ∃ l', map_values f l = JObj l' ∧ ∀ k, last_value k l' = f <$> last_value k l.
Proof.
  destruct (marshal_map_lookup (map (λ '(k, v), (k, f v)) l)) as (l' & E & H). exists l'. split; [done|].
  intros k. rewrite H. apply (last_value_map (λ _, f)).
Qed.

Lemma map_values_ext f l l' :
  (∀ k, f <$> last_value k l = f <$> last_value k l') → map_values f l = map_values f l'.
Proof. intros H. apply marshal_map_ext. intros k. by rewrite !(last_value_map (λ _, f)). Qed.

Lemma prune_lookup l :
  ∃ l', prune (JObj l) = JObj l' ∧
    ∀ k, last_value k l' = if removed k then None else prune_member prune k <$> last_value k l.
Proof.
  destruct (marshal_map_lookup (List.filter (λ '(key, _), negb (removed key))
    (map (λ '(key, val), (key, prune_member prune key val)) l))) as (l' & E & H).
  exists l'. split; [done|]. intros k.
  rewrite H, (last_value_filter (λ key, negb (removed key))), (last_value_map (prune_member prune)).
  by destruct (removed k).
Qed.

Definition idem (j : json) : Prop := prune (prune j) = prune j.

Lemma map_values_idem l : (∀ v, v ∈ parts (JObj l) → idem v) →
  ∀ l', map_values prune l = JObj l' → map_values prune l' = map_values prune l.
Proof.
  intros Hi l' E. destruct (map_values_lookup prune l) as (l2 & E2 & H). rewrite E in E2. injection E2 as <-.
  apply map_values_ext. intros k. rewrite H. destruct (last_value k l) as [v|] eqn:El; [|done]. cbn. f_equal.
  apply Hi. eauto with relay.
Qed.

Lemma pruneArray_idem v : (∀ u, u ∈ parts v → idem u) → pruneArray (pruneArray v) = pruneArray v.
Proof.
  intros Hi. destruct v as [| | | |l|l]; try done. cbn. f_equal. rewrite map_map. apply map_ext_in.
  intros u Hu. apply Hi, part_of_arr. by rewrite list_elem_of_In.
Qed.

Lemma prune_member_idem k v : (∀ u, u ∈ parts v → idem u) →
  prune_member prune k (prune_member prune k v) = prune_member prune k v.
Proof.
  intros Hi. unfold prune_member.
  destruct (k =?s "properties"); [|destruct (existsb _ nested_keys); [|destruct (existsb _ array_keys); [|done]]].
  - destruct v as [| | | | |l]; try done. destruct (map_values_lookup prune l) as (l' & E & _). cbn.
    change (pruneProperties_with prune (map_values prune l) = map_values prune l). rewrite E. by rewrite <- E; apply (map_values_idem l Hi).
  - destruct v as [| | | |l|l]; try done; [by apply (pruneArray_idem (JArr l))|].
    destruct (map_values_lookup prune l) as (l' & E & _). cbn.
    change (pruneNested_with prune (map_values prune l) = map_values prune l). rewrite E. by rewrite <- E; apply (map_values_idem l Hi).
  - by apply pruneArray_idem.
Qed.

(** Pruning a pruned schema changes nothing. *)
Lemma prune_idempotent j : idem j.
Proof.
  induction j as [j IH] using json_deep_ind. destruct j as [| | | |l|l]; try done. unfold idem.
  destruct (prune_lookup l) as (l1 & E1 & H1). rewrite E1. destruct (prune_lookup l1) as (l2 & E2 & H2).
  rewrite E2, <- E1. cbn [prune] in *. rewrite <- E2. apply marshal_map_ext. intros k.
  rewrite !(last_value_filter (λ key, negb (removed key))), !(last_value_map (prune_member prune)), H1.
  destruct (removed k); [done|]. cbn. destruct (last_value k l) as [v|] eqn:El; [|done]. cbn. f_equal.
  apply prune_member_idem. intros u Hu. by apply (IH v); eauto with relay.
Qed.

Definition text_size (j : json) : nat := String.length (Marshal j).

Lemma sum_list_with_le {A} (f g : A → nat) l :
  (∀ x, x ∈ l → f x ≤ g x) → sum_list_with f l ≤ sum_list_with g l.
Proof.
  induction l as [|x l IH]; intros H; cbn; [done|].
  assert (f x ≤ g x) by (apply H; by left). enough (sum_list_with f l ≤ sum_list_with g l) by lia.
  apply IH. intros y Hy. apply H. by right.
Qed.

Lemma sum_list_with_map {A B} (f : B → nat) (g : A → B) l :
  sum_list_with f (map g l) = sum_list_with (λ x, f (g x)) l.
Proof. induction l as [|x l IH]; cbn; [done|]. by rewrite IH. Qed.

(** Shrinking the members of an object shrinks it. *)
Lemma obj_text_le (f : string → json → json) l :
  (∀ k v, (k, v) ∈ l → text_size (f k v) ≤ text_size v) →
  text_size (JObj (map (λ '(k, v), (k, f k v)) l)) ≤ text_size (JObj l).
Proof.
  intros H. unfold text_size. rewrite !Marshal_obj_length, sum_list_with_map.
  assert (sum_list_with (λ x : string * json, member_size (let '(k, v) := x in (k, f k v))) l ≤ sum_list_with member_size l).
  { apply sum_list_with_le. intros [k v] Hin. apply H in Hin. unfold member_size, text_size in *. cbn. lia. }
  destruct l; cbn [map]; lia.
Qed.

Lemma filter_text_le p l : text_size (JObj (List.filter p l)) ≤ text_size (JObj l).
Proof.
  unfold text_size. rewrite !Marshal_obj_length.
  assert (sum_list_with member_size (List.filter p l) ≤ sum_list_with member_size l ∧
          (List.filter p l = [] → l = [] ∨ 1 ≤ sum_list_with member_size l)) as [Hs He].
  { split.
    - induction l as [|m l IH]; [done|]. cbn. destruct (p m); cbn; lia.
    - intros _. destruct l as [|m l]; [by left|]. right. cbn. unfold member_size. lia. }
  destruct (List.filter p l), l; try lia. destruct (He eq_refl); [done|]. cbn in *. lia.
Qed.

Lemma arr_text_le (f : json → json) l :
  (∀ v, v ∈ l → text_size (f v) ≤ text_size v) → text_size (JArr (map f l)) ≤ text_size (JArr l).
Proof.
  intros H. unfold text_size. rewrite !Marshal_arr_length, sum_list_with_map.
  assert (sum_list_with (λ x, String.length (Marshal (f x)) + 1) l ≤ sum_list_with (λ v, String.length (Marshal v) + 1) l).
  { apply sum_list_with_le. intros v Hin. apply H in Hin. unfold text_size in *. lia. }
  destruct l; cbn [map]; lia.
Qed.

Lemma map_values_text_le f l :
  (∀ v, v ∈ parts (JObj l) → text_size (f v) ≤ text_size v) → text_size (map_values f l) ≤ text_size (JObj l).
Proof.
  intros H. etransitivity; [apply marshal_map_length|]. apply (obj_text_le (λ _, f)).
  intros k v Hin. apply H. apply list_elem_of_fmap. by exists (k, v).
Qed.

Lemma prune_member_text_le k v :
  (∀ u, u ∈ parts v → text_size (prune u) ≤ text_size u) → text_size (prune_member prune k v) ≤ text_size v.
Proof.
  intros H. unfold prune_member.
  destruct (k =?s "properties"); [|destruct (existsb _ nested_keys); [|destruct (existsb _ array_keys); [|done]]];
    destruct v as [| | | |l|l]; cbn [pruneProperties_with pruneNested_with pruneArray_with]; try done;
    try (by apply (map_values_text_le prune)); by apply arr_text_le.
Qed.

Lemma prune_text_le j : text_size (prune j) ≤ text_size j.
Proof.
  induction j as [j IH] using json_deep_ind. destruct j as [| | | |l|l]; try done. cbn [prune].
  etransitivity; [apply marshal_map_length|]. etransitivity; [apply filter_text_le|].
  apply obj_text_le. intros k v Hin. apply prune_member_text_le. intros u Hu.
  apply (IH v); [|done]. apply list_elem_of_fmap. by exists (k, v).
Qed.

(** *** Reaching a sub-schema *)
Inductive hop :=
| Property (name : string)
| Branch (key : string) (i : nat).

(** One hop: to the schema of a property, or to a branch of a combinator. *)
Definition hop_to (h : hop) (j : json) : option json :=
  match h, j with
  | Property name, JObj l =>
      match last_value "properties" l with Some (JObj props) => last_value name props | _ => None end
  | Branch key i, JObj l =>
      if existsb (String.eqb key) array_keys then
        match last_value key l with Some (JArr branches) => branches !! i | _ => None end
      else None
  | _, _ => None
  end.

Fixpoint schema_at (path : list hop) (j : json) : option json :=
  match path with
  | [] => Some j
  | h :: path' => v ← hop_to h j; schema_at path' v
  end.

Lemma array_key_member key : existsb (String.eqb key) array_keys = true →
  removed key = false ∧ ∀ v, prune_member prune key v = pruneArray v.
Proof.
  intros Hk. apply existsb_exists in Hk as (x & Hx & ->%String.eqb_eq). cbn in Hx.
  repeat destruct Hx as [<-|Hx]; done.
Qed.

Lemma hop_to_prune h j : hop_to h (prune j) = prune <$> hop_to h j.
Proof.
  destruct j as [| | | |l|l]; try by destruct h.
  destruct (prune_lookup l) as (l' & E & H). rewrite E. destruct h as [name|key i]; cbn [hop_to].
  - rewrite H. cbn. destruct (last_value "properties" l) as [[| | | | |props]|]; try done.
    cbn. destruct (map_values_lookup prune props) as (l2 & E2 & H2).
    change (match map_values prune props with JObj props0 => last_value name props0 | _ => None end = prune <$> last_value name props).
    by rewrite E2, H2.
  - destruct (existsb _ array_keys) eqn:Ek; [|done]. destruct (array_key_member _ Ek) as [Hr Hm].
    rewrite H, Hr. destruct (last_value key l) as [[| | | |branches|]|]; cbn; rewrite ?Hm; try done.
    cbn. by rewrite list_lookup_fmap.
Qed.

Lemma schema_at_prune path j : schema_at path (prune j) = prune <$> schema_at path j.
Proof.
  revert j. induction path as [|h path IH]; intros j; [done|]. cbn. rewrite hop_to_prune.
  destruct (hop_to h j) as [v|]; [|done]. cbn. apply IH.
Qed.

(** A keyword that is neither metadata nor holds sub-schemas. *)
Definition validation_keyword (k : string) : bool :=
  negb (removed k || (k =?s "properties") || existsb (String.eqb k) nested_keys || existsb (String.eqb k) array_keys).

(** pruning is idempotent, never makes a schema longer, and keeps what validates:
    a sub-schema reached through properties and combinators is there after pruning exactly
    when it was there before, with every validation keyword unchanged and no metadata. *)
Theorem prune_sound : ∀ j path s,
  schema_at path j = Some (JObj s) →
  prune (prune j) = prune j ∧ String.length (Marshal (prune j)) ≤ String.length (Marshal j) ∧
  ∃ s', schema_at path (prune j) = Some (JObj s') ∧
    (∀ h, is_Some (hop_to h (JObj s')) ↔ is_Some (hop_to h (JObj s))) ∧
    (∀ k, validation_keyword k = true → last_value k s' = last_value k s) ∧
    (∀ k, removed k = true → last_value k s' = None).
Proof.
  intros j path s Hs. split; [apply prune_idempotent|]. split; [apply prune_text_le|].
  destruct (prune_lookup s) as (s' & E & H). exists s'. split_and!.
  - by rewrite schema_at_prune, Hs, <- E.
  - intros h. by rewrite <- E, hop_to_prune, fmap_is_Some.
  - intros k Hk. unfold validation_keyword in Hk. rewrite negb_true_iff in Hk. bool_prop. rewrite H.
    unfold prune_member. repeat match goal with Hx : _ = false |- _ => rewrite Hx end.
    rewrite (proj2 (String.eqb_neq _ _)) by done. by destruct (last_value k s).
  - intros k Hk. by rewrite H, Hk.
Qed.

Definition title_schema : json :=
  JObj [("type", JStr "object"); ("title", JStr "Note");
        ("properties", JObj [("title", JObj [("type", JStr "string"); ("title", JStr "Title")])]);
        ("required", JArr [JStr "title"])].

Lemma prune_sound_witness :
  ∃ s', schema_at [Property "title"] (prune title_schema) = Some (JObj s') ∧
    last_value "type" s' = Some (JStr "string") ∧ last_value "title" s' = None.
Proof.
  destruct (prune_sound title_schema [Property "title"] [("type", JStr "string"); ("title", JStr "Title")] eq_refl)
    as (_ & _ & s' & E & _ & Hv & Hr).
  exists s'. split; [exact E|]. split; [rewrite Hv; reflexivity|apply Hr; reflexivity].
Defined.

Lemma marshal_map_single k v : marshal_map [(k, v)] = JObj [(k, v)].
Proof.
  unfold marshal_map. assert (Hk : map_keys [(k, v)] = [k]) by done. rewrite Hk. clear Hk.
  assert (Hl : last_value k [(k, v)] = Some v). { unfold last_value. by rewrite String.eqb_refl. }
  unfold omap, list_omap. by rewrite Hl.
Qed.

(** under [items], [not], [if], [then] and [else] the schema is
    taken for a map of schemas: its own metadata stays, and a property of the schema below it
    whose name is a metadata key is deleted although [required] still asks for it. *)
Theorem prune_loses_item_properties : ∀ key schema props v name,
  existsb (String.eqb key) ["items"; "if"; "then"; "else"; "not"] = true → removed name = true →
  last_value "properties" schema = Some (JObj props) → last_value name props = Some v →
  ∃ s' props', prune (JObj [(key, JObj schema)]) = JObj [(key, JObj s')] ∧
    last_value "properties" s' = Some (JObj props') ∧ last_value name props' = None ∧
    (∀ t, last_value name schema = Some (JStr t) → last_value name s' = Some (JStr t)) ∧
    (∀ l, last_value "required" schema = Some (JArr l) → last_value "required" s' = Some (JArr l)).
Proof.
  intros key schema props v name Hkey Hrem Hprops Hv.
  destruct (map_values_lookup prune schema) as (s' & E & H). destruct (prune_lookup props) as (props' & Ep & Hp).
  exists s', props'. split_and!.
  - assert (removed key = false ∧ prune_member prune key (JObj schema) = map_values prune schema) as [Hr Hm].
    { apply existsb_exists in Hkey as (x & Hx & ->%String.eqb_eq). cbn in Hx. repeat destruct Hx as [<-|Hx]; done. }
    cbn [prune map]. rewrite Hm, E. cbn [List.filter]. rewrite Hr. apply marshal_map_single.
  - by rewrite H, Hprops, <- Ep.
  - by rewrite Hp, Hrem.
  - intros t Ht. by rewrite H, Ht.
  - intros l Hl. by rewrite H, Hl.
Qed.

Definition parts_of (j : json) : list (string * json) := match j with JObj l => l | _ => [] end.

Lemma prune_loses_item_properties_witness :
  ∃ s' props', prune (JObj [("items", title_schema)]) = JObj [("items", JObj s')] ∧
    last_value "properties" s' = Some (JObj props') ∧ last_value "title" props' = None ∧
    last_value "required" s' = Some (JArr [JStr "title"]).
Proof.
  destruct (prune_loses_item_properties "items" (parts_of title_schema) [("title", JObj [("type", JStr "string"); ("title", JStr "Title")])]
    _ "title" eq_refl eq_refl eq_refl eq_refl) as (s' & props' & E & Hp & Hn & _ & Hr).
  exists s', props'. split; [exact E|]. split; [exact Hp|]. split; [exact Hn|]. apply Hr. reflexivity.
Defined.

(** ** Raw decoding agrees with parsing *)
Lemma parse_raw_value n s v r : parse_value n s = Some (v, r) → ∃ raw, raw_value s = Some (raw, r).
Proof.
  intros E. unfold raw_value. set (s1 := skip_ws s).
  assert (Hidem : skip_ws s1 = s1).
  { subst s1. clear. unfold skip_ws. induction s as [|c s IH]; [done|]. cbn.
    destruct (is_ws c) eqn:Ec; [done|]. cbn. by rewrite Ec. }
  assert (E1 : parse_value n s1 = Some (v, r)).
  { destruct n; [done|]. cbn [parse_value] in E |- *. by rewrite Hidem. }
  apply (proj1 (parse_fuel n)) in E1 as [_ Hf]. rewrite Hf by lia. cbn. eauto.
Qed.

Lemma parse_raw_elems n s l r : parse_elems n s = Some (l, r) →
  ∀ m, String.length s ≤ m → ∃ raws, raw_elems m s = Some raws ∧ length raws = length l.
Proof.
  revert s l r. induction n as [|n IH]; intros s l r; [done|]. cbn [parse_elems].
  destruct (parse_value n s) as [[v r1]|] eqn:E1; [|done]. cbn. intros H m Hm.
  destruct (parse_raw_value _ _ _ _ E1) as (raw & Er). apply (proj1 (parse_fuel n)) in E1 as [Hlt _].
  destruct m as [|m]; [lia|]. cbn [raw_elems]. rewrite Er. cbn.
  destruct (skip_ws r1) as [|c r2] eqn:Es; [done|]. pose proof (skip_ws_cons _ _ _ Es).
  destruct (Ascii.eqb c ","%char).
  - destruct (parse_elems n r2) as [[l' r3]|] eqn:E2; [|done]. cbn in H. simplify_eq.
    destruct (IH _ _ _ E2 m) as (raws & -> & Hl); [lia|]. exists (raw :: raws). cbn. auto.
  - destruct (Ascii.eqb c "]"%char); [|done]. simplify_eq. by exists [raw].
Qed.

(** A text that decodes as an array splits into as many raw elements. *)
Lemma raw_array_total text l : Unmarshal text = Some (JArr l) →
  ∃ raws, raw_array text = Some raws ∧ length raws = length l.
Proof.
  unfold Unmarshal, raw_array. destruct (parse_value _ text) as [[j r]|] eqn:E; [|done].
  destruct (skip_ws r =?s ""); [|done]. intros [= ->]. cbn [parse_value] in E.
  destruct (skip_ws text) as [|c s'] eqn:Es; [done|]. pose proof (skip_ws_cons _ _ _ Es).
  destruct (Ascii.eqb c dquote). { by destruct (parse_chars _ _) as [[? ?]|]. }
  destruct (Ascii.eqb c "["%char).
  - destruct (skip_ws s') as [|a s2] eqn:Es2; [done|]. destruct (Ascii.eqb a "]"%char).
    + injection E as <- <-. by exists [].
    + destruct (parse_elems _ s') as [[l' r']|] eqn:E2; [|done]. injection E as <- <-.
      eapply parse_raw_elems; [exact E2|lia].
  - exfalso. destruct (Ascii.eqb c "{"%char).
    + destruct (skip_ws s'); [done|]. destruct (Ascii.eqb _ "}"%char); [done|].
      by destruct (parse_members _ s') as [[? ?]|].
    + do 3 (destruct (String.prefix _ _); [done|]). destruct (span _ _). by destruct (num_ok _).
Qed.

(** ** Batches *)
Definition batch_size (b : list Tool) : nat := sum_list_with tool_size b.

(** The next batch starts only where the tool no longer fits. *)
Fixpoint tight (budget : nat) (bs : list (list Tool)) : Prop :=
  match bs with
  | [] => True
  | b :: r => match r with (t :: _) :: _ => budget < batch_size b + tool_size t | _ => True end ∧ tight budget r
  end.

Lemma batch_from_cons budget cur size tools :
  cur ≠ [] → ∃ more bs, batch_from budget cur size tools = (cur ++ more) :: bs.
Proof.
  revert cur size. induction tools as [|t r IH]; intros cur size Hc; cbn.
  - destruct cur; [done|]. exists [], []. by rewrite app_nil_r.
  - destruct cur as [|c cur]; [done|]. case_if.
    + exists [], (batch_from budget [t] (tool_size t) r). by rewrite app_nil_r.
    + destruct (IH ((c :: cur) ++ [t]) (size + tool_size t)) as (more & bs & E); [done|].
      exists (t :: more), bs. unfold tool_size in E. rewrite E. by rewrite <- app_assoc.
Qed.

Lemma batch_from_spec budget tools : ∀ cur,
  (cur ≠ [] → batch_size cur ≤ budget ∨ length cur = 1) →
  concat (batch_from budget cur (batch_size cur) tools) = cur ++ tools ∧
  Forall (λ b, b ≠ [] ∧ (batch_size b ≤ budget ∨ length b = 1)) (batch_from budget cur (batch_size cur) tools) ∧
  tight budget (batch_from budget cur (batch_size cur) tools).
Proof.
  induction tools as [|t r IH]; intros cur Hok.
  - cbn. destruct cur as [|c cur]; [done|]. rewrite !app_nil_r. cbn [concat tight]. rewrite app_nil_r.
    split; [done|]. split; [|done]. constructor; [|done]. auto.
  - assert (Hone : batch_size [t] = tool_size t) by (cbn; lia).
    cbn [batch_from]. fold (tool_size t). destruct cur as [|c cur].
    + cbn [batch_size sum_list_with]. rewrite Nat.add_0_l, <- Hone. apply IH. by right.
    + case_if; bool_prop.
      * rewrite <- Hone. destruct (IH [t]) as (H1 & H2 & H3); [by right|]. split_and!.
        -- cbn [concat]. by rewrite H1.
        -- constructor; [|done]. auto.
        -- destruct (batch_from_cons budget [t] (batch_size [t]) r) as (more & bs & E); [done|].
           rewrite E in *. cbn [tight app tail]. split; [lia|done].
      * assert (Hs : batch_size ((c :: cur) ++ [t]) = batch_size (c :: cur) + tool_size t).
        { unfold batch_size. rewrite sum_list_with_app. cbn. lia. }
        rewrite <- Hs. destruct (IH ((c :: cur) ++ [t])) as (H1 & H2 & H3); [left; lia|].
        split_and!; [|done..]. by rewrite H1, <- app_assoc.
Qed.

(** the batches are the tools in order, none is empty, each keeps to the
    budget unless it is a single tool, and a batch ends only where the next tool would not
    have fitted. *)
Theorem batches_partition_tools : ∀ tools budget,
  concat (batchBySize tools budget) = tools ∧
  Forall (λ b, b ≠ [] ∧ (batch_size b ≤ budget ∨ length b = 1)) (batchBySize tools budget) ∧
  tight budget (batchBySize tools budget).
Proof. intros tools budget. apply (batch_from_spec budget tools []). done. Qed.

(** ** What survives the language model *)
Lemma check_names_sound expected seen opt :
  check_names expected seen opt = None →
  NoDup (map Name opt) ∧ (∀ n, n ∈ map Name opt → n ∈ expected ∧ n ∉ seen).
Proof.
  revert seen. induction opt as [|t r IH]; intros seen; cbn.
  - intros _. split; [constructor|]. intros n Hn. by apply not_elem_of_nil in Hn.
  - destruct (existsb (String.eqb (Name t)) expected) eqn:E1; [|done]. cbn.
    destruct (existsb (String.eqb (Name t)) seen) eqn:E2; [done|]. intros (Hnd & Hin)%IH.
    apply existsb_exists in E1 as (x & Hx & <-%String.eqb_eq). rewrite <- list_elem_of_In in Hx.
    assert (Hs : Name t ∉ seen).
    { intros Hn. rewrite <- not_true_iff_false, existsb_exists in E2. apply E2. exists (Name t).
      rewrite <- list_elem_of_In. by rewrite String.eqb_refl. }
    split.
    + constructor; [|done]. intros Hn. apply Hin in Hn as [_ Hn]. apply Hn. by left.
    + intros n [->|Hn]%elem_of_cons; [done|]. apply Hin in Hn as [? Hn]. split; [done|].
      intros ?. apply Hn. by right.
Qed.

Lemma pruned_by_name_spec pruned name :
  name ∈ map Name pruned → pruned_by_name pruned name ∈ pruned ∧ Name (pruned_by_name pruned name) = name.
Proof.
  intros ([? ? ?] & -> & Hin)%list_elem_of_fmap. unfold pruned_by_name. cbn.
  set (t := {| Name := _ |}) in *. destruct (last (List.filter _ pruned)) as [x|] eqn:E.
  - apply last_Some_elem_of in E. cbn. apply list_elem_of_In, filter_In in E as [Hx Hn]. bool_prop.
    split; [by apply list_elem_of_In|done].
  - apply last_None in E. assert (Hf : In t (List.filter (λ t0, Name t0 =?s Name t) pruned)).
    { apply filter_In. split; [by apply list_elem_of_In|apply String.eqb_refl]. }
    cbn in Hf. by rewrite E in Hf.
Qed.

Lemma NoDup_map_inj {A B} (f : A → B) l x y : NoDup (map f l) → x ∈ l → y ∈ l → f x = f y → x = y.
Proof.
  induction l as [|a l IH]; [intros _ Hx; by apply not_elem_of_nil in Hx|].
  cbn. intros [Hn Hnd]%NoDup_cons Hx Hy E.
  assert (Hmem : ∀ z, z ∈ l → f z ∈ map f l) by (intros z Hz; apply list_elem_of_fmap; eauto).
  apply elem_of_cons in Hx as [->|Hx]; apply elem_of_cons in Hy as [->|Hy]; auto.
  - destruct Hn. rewrite E. auto.
  - destruct Hn. rewrite <- E. auto.
Qed.

Lemma pruned_by_name_NoDup pruned t :
  NoDup (map Name pruned) → t ∈ pruned → pruned_by_name pruned (Name t) = t.
Proof.
  intros Hnd Hin. destruct (pruned_by_name_spec pruned (Name t)) as [Hi Hn].
  { apply list_elem_of_fmap. eauto. }
  by eapply NoDup_map_inj.
Qed.

Lemma keep_smaller_spec pruned t :
  Name t ∈ map Name pruned →
  Name (keep_smaller pruned t) = Name t ∧
  tool_size (keep_smaller pruned t) ≤ tool_size (pruned_by_name pruned (Name t)) ∧
  (keep_smaller pruned t = t ∨ keep_smaller pruned t = pruned_by_name pruned (Name t)).
Proof.
  intros [_ Hn]%pruned_by_name_spec. unfold keep_smaller, tool_size. case_if; bool_prop; split_and!; auto; lia.
Qed.

Lemma map_Name_prune tools : map Name (map prune_tool tools) = map Name tools.
Proof. by rewrite map_map. Qed.

(** Sizes summed over a permutation of the names. *)
Lemma total_by_name pruned l :
  l ≡ₚ map Name pruned → NoDup l →
  sum_list_with (λ n, tool_size (pruned_by_name pruned n)) l = sum_list_with tool_size pruned.
Proof.
  intros Hp Hnd. rewrite Hp, sum_list_with_map. rewrite Hp in Hnd.
  assert (H : ∀ l', (∀ t, t ∈ l' → t ∈ pruned) →
    sum_list_with (λ x, tool_size (pruned_by_name pruned (Name x))) l' = sum_list_with tool_size l').
  { induction l' as [|t l' IH]; intros Hl; [done|]. cbn.
    rewrite (pruned_by_name_NoDup _ _ Hnd) by (apply Hl; by left). rewrite IH; [done|].
    intros x Hx. apply Hl. by right. }
  by apply H.
Qed.

(** whatever the model answers, a result names exactly the tools that
    were given, each tool is its pruned original or a strictly smaller version of it from the
    model, and the total is no larger than that of the pruned tools. *)
Theorem optimized_tools_sound : ∀ complete available tools res,
  OptimizeTools complete available tools = Ok res →
  map Name res ≡ₚ map Name tools ∧
  (∀ t, t ∈ res → ∃ o, o ∈ tools ∧ Name o = Name t ∧ (t = prune_tool o ∨ tool_size t < tool_size (prune_tool o))) ∧
  sum_list_with tool_size res ≤ sum_list_with tool_size (map prune_tool tools).
Proof.
  intros complete av tools res H. unfold OptimizeTools in H. cbv zeta in H.
  destruct (length tools =? 0) eqn:E0.
  { injection H as <-. bool_prop. apply nil_length_inv in E0. subst tools. split_and!; [done| |done].
    intros t Ht. by apply not_elem_of_nil in Ht. }
  destruct av; cbn [negb] in H; cycle 1.
  { injection H as <-. rewrite map_Name_prune. split_and!; [done| |done].
    intros t (o & -> & Ho)%list_elem_of_fmap. exists o. auto. }
  destruct (optimize_batches _ _ _) as [opt|]; [|done].
  destruct (length opt =? length tools) eqn:El; [|done]. cbn [negb] in H. bool_prop.
  destruct (check_names _ _ opt) eqn:Ec; [done|]. injection H as <-.
  apply check_names_sound in Ec as [Hnd Hin].
  assert (Hperm : map Name opt ≡ₚ map Name tools).
  { apply submseteq_length_Permutation; [|rewrite !length_map; lia].
    apply NoDup_submseteq; [done|]. intros n Hn. by apply Hin. }
  set (pruned := map prune_tool tools) in *.
  assert (Hp : ∀ t, t ∈ opt → Name t ∈ map Name pruned).
  { intros t Ht. unfold pruned. rewrite map_Name_prune. apply Hin, list_elem_of_fmap. eauto. }
  assert (Hnames : map Name (map (keep_smaller pruned) opt) = map Name opt).
  { rewrite map_map. apply map_ext_in. intros t Ht. rewrite <- list_elem_of_In in Ht. by apply keep_smaller_spec, Hp. }
  split_and!.
  - by rewrite Hnames.
  - intros t (o & -> & Ho)%list_elem_of_fmap. pose proof (Hp o Ho) as Hn.
    destruct (keep_smaller_spec _ _ Hn) as (HN & _ & _). destruct (pruned_by_name_spec _ _ Hn) as [Hi Hnm].
    apply list_elem_of_fmap in Hi as (x & Ex & Hx). exists x. rewrite HN. split; [done|].
    split; [by rewrite <- Hnm, Ex|]. unfold keep_smaller. rewrite Ex. fold (tool_size (prune_tool x)) (tool_size o).
    case_if; bool_prop; [by left|by right].
  - rewrite sum_list_with_map, <- (total_by_name pruned (map Name opt)); [|unfold pruned; by rewrite map_Name_prune|done].
    rewrite sum_list_with_map. apply sum_list_with_le. intros t Ht. by apply keep_smaller_spec, Hp.
Qed.

Definition demo_tools : list Tool :=
  [mkTool "a" "a long description" "{}"; mkTool "b" "short" (Marshal title_schema)].

Definition demo_complete (_ : nat) (batch : list Tool) : result string :=
  Ok (Marshal (JArr [JObj [("name", JStr "b"); ("description", JStr "a much longer description of the tool than before");
                           ("inputSchema", title_schema)];
                     JObj [("name", JStr "a"); ("description", JStr "short"); ("inputSchema", JObj [])]])).

Lemma optimized_tools_sound_witness :
  ∃ res, OptimizeTools demo_complete true demo_tools = Ok res ∧ map Name res ≡ₚ ["a"; "b"] ∧ map Description res = ["short"; "short"].
Proof.
  eexists. split; [vm_compute; reflexivity|]. split; [|reflexivity].
  apply (optimized_tools_sound demo_complete true demo_tools). vm_compute. reflexivity.
Defined.
