(* ===== verification/Enumerate.v ===== *)
(** * Endpoint discovery

    [src/internal/mcp/enumerate.go]: the initialize and list calls to a backend, and the cache
    of what they found.  A backend is a function from requests to responses; the schemas
    of tools are kept as the bytes that were received. *)
From S2P Require Import Prelude GoStrings Json JsonDecode Mcp ToolOptimize.
From stdpp Require Import pretty.

Record ServerInfo := mkInfo { SIName : string; SIVersion : string }.
Record Resource := mkResource { RURI : string; RName : string; RDescription : string; RMimeType : string }.
Record PromptArgument := mkArgument { AName : string; ADescription : string; ARequired : bool }.
Record Prompt := mkPrompt { PName : string; PDescription : string; PArguments : list PromptArgument }.

Record ServerEndpoints := mkEndpoints {
  EServerInfo : ServerInfo; ETools : list Tool; EResources : list Resource; EPrompts : list Prompt;
  EInitialized : bool; EError : string }.

Record InitializeResult := mkInit {
  ProtocolVersion : string; Capabilities : list string; IServerInfo : ServerInfo }.

(** ** The cache *)
Abbreviation EndpointCache := (gmap string ServerEndpoints).
Definition cache_get (serverID : string) (c : EndpointCache) : option ServerEndpoints := c !! serverID.
Definition cache_set (serverID : string) (e : ServerEndpoints) (c : EndpointCache) : EndpointCache := <[serverID := e]> c.
Definition cache_remove (serverID : string) (c : EndpointCache) : EndpointCache := delete serverID c.

(** ** Decoding results *)

(** The keys of a [map\[string\]any] field. *)
Fixpoint decode_keys_field (name : string) (l : list (string * json)) (cur : list string) : option (list string) :=
  match l with
  | [] => Some cur
  | (k, v) :: r =>
      if EqualFold k name then
        match v with
        | JObj o => decode_keys_field name r (cur ++ map fst o)
        | JNull => decode_keys_field name r []
        | _ => None
        end
      else decode_keys_field name r cur
  end.

(** A nested struct: every match is decoded into it in turn. *)
Fixpoint decode_info_field (name : string) (l : list (string * json)) (cur : ServerInfo) : option ServerInfo :=
  match l with
  | [] => Some cur
  | (k, v) :: r =>
      if EqualFold k name then
        match v with
        | JObj o => n ← decode_string_field "name" o (SIName cur); ver ← decode_string_field "version" o (SIVersion cur);
                    decode_info_field name r (mkInfo n ver)
        | JNull => decode_info_field name r cur
        | _ => None
        end
      else decode_info_field name r cur
  end.

Definition decode_initialize (text : string) : option InitializeResult :=
  l ← struct_fields text;
  v ← decode_string_field "protocolVersion" l ""; c ← decode_keys_field "capabilities" l [];
  i ← decode_info_field "serverInfo" l (mkInfo "" ""); Some (mkInit v c i).

(** [null] or an absent field is the nil slice. *)
Definition decode_tools_result (text : string) : option (list Tool) :=
  match Unmarshal text with
  | Some JNull => Some []
  | Some (JObj _) =>
      members ← raw_object text;
      let raw := raw_field "tools" members "" in
      if raw =?s "" then Some [] else decode_tools raw
  | _ => None
  end.

Definition decode_resource (l : list (string * json)) : option Resource :=
  u ← decode_string_field "uri" l ""; n ← decode_string_field "name" l "";
  d ← decode_string_field "description" l ""; m ← decode_string_field "mimeType" l ""; Some (mkResource u n d m).

Definition decode_argument (l : list (string * json)) : option PromptArgument :=
  n ← decode_string_field "name" l ""; d ← decode_string_field "description" l "";
  r ← decode_bool_field "required" l false; Some (mkArgument n d r).

Definition decode_prompt (l : list (string * json)) : option Prompt :=
  n ← decode_string_field "name" l ""; d ← decode_string_field "description" l "";
  a ← decode_struct_list decode_argument (decode_raw_field "arguments" l None); Some (mkPrompt n d a).

Definition decode_list_result {A} (field : string) (f : list (string * json) → option A) (text : string) : option (list A) :=
  l ← struct_fields text; decode_struct_list f (decode_raw_field field l None).

(** ** Enumeration *)
Section Enumerate.
Context (send : Request → result Response).

(** One call: the request with its fixed id, then the transport error, the RPC error or the
    decoded result. *)
Definition list_call {A} (id : Z) (method what : string) (decode : string → option A) : result A :=
  match send (NewRequest (Some (JNum (pretty id))) method None) with
  | Err e => Err e
  | Ok resp =>
      match Error resp with
      | Some e => Err ("error " +:+ pretty (Code e) +:+ ": " +:+ Message e)
      | None =>
          match decode (default "" (Result resp)) with
          | None => Err ("parsing " +:+ what +:+ " list")
          | Some v => Ok v
          end
      end
  end.

Definition doListTools : result (list Tool) := list_call 2 "tools/list" "tools" decode_tools_result.
Definition doListResources : result (list Resource) :=
  list_call 3 "resources/list" "resources" (decode_list_result "resources" decode_resource).
Definition doListPrompts : result (list Prompt) :=
  list_call 4 "prompts/list" "prompts" (decode_list_result "prompts" decode_prompt).

Definition initialize_params : json :=
  JObj [("protocolVersion", JStr "2024-11-05"); ("capabilities", JObj []);
        ("clientInfo", JObj [("name", JStr "arc-relay"); ("version", JStr "0.1.0")])].

Definition doInitialize : result InitializeResult :=
  match send (NewRequest (Some (JNum "1")) "initialize" (Some initialize_params)) with
  | Err e => Err ("sending initialize: " +:+ e)
  | Ok resp =>
      match Error resp with
      | Some e => Err ("initialize error " +:+ pretty (Code e) +:+ ": " +:+ Message e)
      | None =>
          match decode_initialize (default "" (Result resp)) with
          | None => Err "parsing initialize result"
          | Some v => Ok v
          end
      end
  end.

Definition supports (init : InitializeResult) (cap : string) : bool := existsb (String.eqb cap) (Capabilities init).

(** The endpoints are returned together with the error of [initialize]. *)
Definition Enumerate : ServerEndpoints * option string :=
  match doInitialize with
  | Err e => (mkEndpoints (mkInfo "" "") [] [] [] false ("initialize failed: " +:+ e), Some e)
  | Ok init =>
      let '(tools, err) :=
        if supports init "tools" then
          match doListTools with Ok t => (t, "") | Err e => ([], "tools/list failed: " +:+ e) end
        else ([], "") in
      let '(resources, err) :=
        if supports init "resources" then
          match doListResources with Ok r => (r, err) | Err e => ([], "resources/list failed: " +:+ e) end
        else ([], err) in
      let prompts :=
        if supports init "prompts" then match doListPrompts with Ok p => p | Err _ => [] end else [] in
      (mkEndpoints (IServerInfo init) tools resources prompts true err, None)
  end.
End Enumerate.
