(* ===== verification/ServerManager.v ===== *)
(** * The server manager

    [src/internal/proxy/proxy.go] (starting, stopping, building and enumerating servers)
    and [GenerateDockerfile] of [src/internal/docker/manager.go].

    The Docker daemon, git and the backends are outside: an operation is given what they
    answer ([Docker], [send]).  [live] is the set of containers the daemon runs for us, so
    that leaks can be stated.  A goroutine started by an operation is entered into
    [scheduled] and runs as an operation of its own. *)
From S2P Require Import Prelude GoStrings Json JsonDecode AccessTiers Base64 Crypto Users Servers Mcp.
From S2P Require Import ToolOptimize Enumerate Middleware Optimizer Runs.

(** ** Configurations *)
Record BuildConfig := mkBuildConfig {
  bRuntime : string; bPackage : string; bVersion : string; bGitURL : string; bGitRef : string; bDockerfile : string }.

Record StdioConfig := mkStdio {
  sImage : string; sBuild : option BuildConfig; sEntrypoint : list string; sCommand : list string;
  sEnv : gmap string string }.

Record HTTPConfig := mkHTTP {
  hImage : string; hPort : Z; hEnv : gmap string string; hHealthCheck : string; hURL : string }.

(** The part of [RemoteConfig] the manager reads. *)
Record RemoteConfig := mkRemote { rURL : string; rAuthType : string; rAccessToken : string }.

Definition zero_build : BuildConfig := mkBuildConfig "" "" "" "" "" "".

Definition decode_build (b : BuildConfig) (o : list (string * json)) : option BuildConfig :=
  r ← decode_string_field "runtime" o (bRuntime b); p ← decode_string_field "package" o (bPackage b);
  v ← decode_string_field "version" o (bVersion b); g ← decode_string_field "git_url" o (bGitURL b);
  f ← decode_string_field "git_ref" o (bGitRef b); d ← decode_string_field "dockerfile" o (bDockerfile b);
  Some (mkBuildConfig r p v g f d).

(** A pointer to a struct: [null] makes it nil, an object is decoded into what is there. *)
Fixpoint decode_build_field (l : list (string * json)) (cur : option BuildConfig) : option (option BuildConfig) :=
  match l with
  | [] => Some cur
  | (k, v) :: r =>
      if EqualFold k "build" then
        match v with
        | JObj o => b ← decode_build (default zero_build cur) o; decode_build_field r (Some b)
        | JNull => decode_build_field r None
        | _ => None
        end
      else decode_build_field r cur
  end.

Definition decode_stdio (config : string) : option StdioConfig :=
  l ← struct_fields config;
  i ← decode_string_field "image" l ""; b ← decode_build_field l None;
  e ← decode_strings_field "entrypoint" l []; c ← decode_strings_field "command" l [];
  v ← decode_string_map_field "env" l ∅; Some (mkStdio i b e c v).

Definition decode_http (config : string) : option HTTPConfig :=
  l ← struct_fields config;
  i ← decode_string_field "image" l ""; p ← decode_int_field "port" l 0; v ← decode_string_map_field "env" l ∅;
  h ← decode_string_field "health_check" l ""; u ← decode_string_field "url" l ""; Some (mkHTTP i p v h u).

(** The strings of [auth]; the others only have to decode. *)
Definition auth_names : list string :=
  ["token"; "header_name"; "client_id"; "client_secret"; "auth_url"; "token_url"; "scopes"; "refresh_token";
   "token_expiry"; "registered_redirect_uri"; "registration_endpoint"].

Fixpoint decode_auth_field (l : list (string * json)) (ty tok : string) : option (string * string) :=
  match l with
  | [] => Some (ty, tok)
  | (k, v) :: r =>
      if EqualFold k "auth" then
        match v with
        | JObj o => t ← decode_string_field "type" o ty; a ← decode_string_field "access_token" o tok;
                    _ ← mapM (λ n, decode_string_field n o "") auth_names; decode_auth_field r t a
        | JNull => decode_auth_field r ty tok
        | _ => None
        end
      else decode_auth_field r ty tok
  end.

Definition decode_remote (config : string) : option RemoteConfig :=
  l ← struct_fields config;
  u ← decode_string_field "url" l ""; '(t, a) ← decode_auth_field l "" ""; Some (mkRemote u t a).

(** [json.Marshal(cfg)] *)
Definition build_json (b : BuildConfig) : json :=
  JObj ([("runtime", JStr (bRuntime b)); ("package", JStr (bPackage b))] ++ omit_empty "version" (bVersion b)
        ++ omit_empty "git_url" (bGitURL b) ++ omit_empty "git_ref" (bGitRef b) ++ omit_empty "dockerfile" (bDockerfile b)).

Definition omit_strings (name : string) (l : list string) : list (string * json) :=
  match l with [] => [] | _ => [(name, JArr (map JStr l))] end.

Definition omit_map (name : string) (m : gmap string string) : list (string * json) :=
  if decide (m = ∅) then [] else [(name, marshal_map (map (λ '(k, v), (k, JStr v)) (map_to_list m)))].

Definition stdio_json (c : StdioConfig) : json :=
  JObj ([("image", JStr (sImage c))] ++ match sBuild c with Some b => [("build", build_json b)] | None => [] end
        ++ omit_strings "entrypoint" (sEntrypoint c) ++ omit_strings "command" (sCommand c) ++ omit_map "env" (sEnv c)).

Definition BuildImageTag_of (b : BuildConfig) : string :=
  Servers.BuildImageTag (Servers.mkBuild (bPackage b) (bVersion b) (bGitURL b) (bGitRef b)).

(** ** Dockerfiles *)
Definition nl : string := String "010"%char "".

Definition lines (l : list string) : string := foldr (λ x acc, x +:+ nl +:+ acc) "" l.

Definition apt_git : string := "RUN apt-get update && apt-get install -y git && rm -rf /var/lib/apt/lists/*".

Definition GenerateDockerfile (runtime pkg version gitURL customDockerfile : string) : result string :=
  if customDockerfile !=? "" then Ok customDockerfile
  else
    let tmplKey := if gitURL !=? "" then "git-" +:+ runtime else runtime in
    if tmplKey =?s "python" then
      Ok (lines ["FROM python:3.11-slim";
                 "RUN pip install --no-cache-dir " +:+ pkg +:+ (if version !=? "" then "==" +:+ version else "")])
    else if tmplKey =?s "node" then
      Ok (lines ["FROM node:20-slim"; "RUN npm install -g " +:+ pkg +:+ (if version !=? "" then "@" +:+ version else "");
                 "ENTRYPOINT [" +:+ quoted "npx" +:+ "]"; "CMD [" +:+ quoted pkg +:+ "]"])
    else if tmplKey =?s "git-python" then
      Ok (lines ["FROM python:3.11-slim"; apt_git; "RUN git clone " +:+ gitURL +:+ " /app"; "WORKDIR /app";
                 "RUN pip install --no-cache-dir -r requirements.txt 2>/dev/null || pip install --no-cache-dir ."])
    else if tmplKey =?s "git-node" then
      Ok (lines ["FROM node:20-slim"; apt_git; "RUN git clone " +:+ gitURL +:+ " /app"; "WORKDIR /app"; "RUN npm install"])
    else Err ("unsupported build template: " +:+ tmplKey).

(** ** State *)
Inductive BackendKind :=
| StdioBridge (containerID : string)
| HTTPProxy (url : string)
| RemoteProxy (serverID : string) (cfg : RemoteConfig).

(** Who runs in the background: an enumeration of a server, or a recovery of its container. *)
Record World := mkWorld {
  sdb : Db Servers.State; adb : Db Access.State; odb : Db Optimizer.Tables;
  backends : gmap string BackendKind; containers : gmap string string; Endpoints : EndpointCache;
  live : gset string; scheduled : list string }.

Definition with_sdb (w : World) d := mkWorld d (adb w) (odb w) (backends w) (containers w) (Endpoints w) (live w) (scheduled w).
Definition with_adb (w : World) d := mkWorld (sdb w) d (odb w) (backends w) (containers w) (Endpoints w) (live w) (scheduled w).
Definition with_odb (w : World) d := mkWorld (sdb w) (adb w) d (backends w) (containers w) (Endpoints w) (live w) (scheduled w).
Definition with_backends (w : World) b := mkWorld (sdb w) (adb w) (odb w) b (containers w) (Endpoints w) (live w) (scheduled w).
Definition with_containers (w : World) c := mkWorld (sdb w) (adb w) (odb w) (backends w) c (Endpoints w) (live w) (scheduled w).
Definition with_endpoints (w : World) e := mkWorld (sdb w) (adb w) (odb w) (backends w) (containers w) e (live w) (scheduled w).
Definition with_live (w : World) l := mkWorld (sdb w) (adb w) (odb w) (backends w) (containers w) (Endpoints w) l (scheduled w).
Definition with_scheduled (w : World) l := mkWorld (sdb w) (adb w) (odb w) (backends w) (containers w) (Endpoints w) (live w) l.

(** What Docker and git answer while one operation runs. *)
Record Docker := mkDocker {
  ImageExists : string → bool;
  EnsureImage : string → result unit;
  PullImage : string → result unit;
  BuildImage : string → string → bool → result unit;              (* Dockerfile, tag, no cache *)
  BuildImageFromContext : string → string → bool → result unit;   (* directory, tag, no cache *)
  StartContainer : string → string → result string;               (* server name, image *)
  AttachStdio : string → result unit;
  GetHostPort : string → Z → result string;
  StopContainer : string → result unit;
  MkdirTemp : result string;
  GitClone : list string → result bool }.                          (* arguments; is there a Dockerfile *)

Section Manager.
Context `{Hashing} (crypto : ConfigEncryptor) (docker : Docker).
(** [parseGitURL] is [url.Parse] with the scheme and the host; [hasTokens] is [OAuthManager != nil && OAuthManager.HasTokens(id)]; [nonce] is for re-encrypting a
    configuration. *)
Context (parseGitURL : string → option (string * string)) (hasTokens : string → bool) (nonce : option string) (now : Z).

(** [_ = m.servers.UpdateStatus(...)]: errors are dropped. *)
Definition set_status (id status msg : string) (w : World) : World :=
  with_sdb w (snd (Servers.UpdateStatus now id status msg (sdb w))).
Definition set_health (id health msg : string) (w : World) : World :=
  with_sdb w (snd (Servers.UpdateHealth now id health msg (sdb w))).

Definition fail_start (srv : Server) (msg err : string) (w : World) : result unit * World :=
  (Err err, set_status (ID srv) "error" msg w).

Definition start_container (name image : string) (w : World) : result string * World :=
  match StartContainer docker name image with
  | Ok c => (Ok c, with_live w ({[c]} ∪ live w))
  | Err e => (Err e, w)
  end.

Definition stop_container (c : string) (w : World) : World :=
  match StopContainer docker c with
  | Ok _ => with_live w (live w ∖ {[c]})
  | Err _ => w
  end.

Definition enumerateAsync (id : string) (w : World) : World := with_scheduled w (scheduled w ++ [id]).

(** *** Building images *)
Definition validateGitURL (rawURL : string) : result unit :=
  match parseGitURL rawURL with
  | None => Err "malformed URL"
  | Some (scheme, host) =>
      if scheme !=? "https" then Err ("only https:// git URLs are allowed, got " +:+ quoted scheme)
      else if host =?s "" then Err "git URL must include a host"
      else Ok tt
  end.

Definition with_image (cfg : StdioConfig) (i : string) : StdioConfig :=
  mkStdio i (sBuild cfg) (sEntrypoint cfg) (sCommand cfg) (sEnv cfg).

(** Persist the built image tag back to the configuration. *)
Definition persist_tag (srv : Server) (cfg : StdioConfig) (tag : string) (w : World) : World :=
  with_sdb w (snd (Servers.UpdateConfig crypto nonce now (ID srv) (Marshal (stdio_json (with_image cfg tag))) (sdb w))).

Definition clone_args (build : BuildConfig) (dir : string) : list string :=
  ["clone"; "--depth"; "1"] ++ (if bGitRef build !=? "" then ["--branch"; bGitRef build] else [])
  ++ ["--"; bGitURL build; dir].

(** The configuration comes back with the tag as its image. *)
Definition finish_build (srv : Server) (cfg : StdioConfig) (tag : string) (what : string) (r : result unit) (w : World) :
    result StdioConfig * World :=
  match r with
  | Err e => (Err (what +:+ ": " +:+ e), set_status (ID srv) "error" ("Image build failed: " +:+ e) w)
  | Ok _ => (Ok (with_image cfg tag), persist_tag srv cfg tag w)
  end.

Definition buildFromGitRepo (srv : Server) (cfg : StdioConfig) (build : BuildConfig) (tag : string) (noCache : bool)
    (w : World) : result StdioConfig * World :=
  match validateGitURL (bGitURL build) with
  | Err e => (Err ("invalid git URL: " +:+ e), set_status (ID srv) "error" ("Invalid git URL: " +:+ e) w)
  | Ok _ =>
      match MkdirTemp docker with
      | Err e => (Err ("creating temp dir: " +:+ e), w)
      | Ok tmpDir =>
          match GitClone docker (clone_args build tmpDir) with
          | Err e => (Err ("git clone failed: " +:+ e), set_status (ID srv) "error" ("git clone failed: " +:+ e) w)
          | Ok true =>
              finish_build srv cfg tag "building image from context" (BuildImageFromContext docker tmpDir tag noCache) w
          | Ok false =>
              match GenerateDockerfile (bRuntime build) "" "" (bGitURL build) "" with
              | Err e => (Err ("generating Dockerfile: " +:+ e),
                          set_status (ID srv) "error" ("Dockerfile generation failed: " +:+ e) w)
              | Ok dockerfile => finish_build srv cfg tag "building image" (BuildImage docker dockerfile tag noCache) w
              end
          end
      end
  end.

Definition buildImageIfNeeded (srv : Server) (cfg : StdioConfig) (build : BuildConfig) (tag : string) (force : bool)
    (w : World) : result StdioConfig * World :=
  if negb force && ImageExists docker tag then (Ok cfg, w)
  else if (bGitURL build !=? "") && (bPackage build =?s "") && (bDockerfile build =?s "")
  then buildFromGitRepo srv cfg build tag force w
  else match GenerateDockerfile (bRuntime build) (bPackage build) (bVersion build) (bGitURL build) (bDockerfile build) with
       | Err e => (Err ("generating Dockerfile: " +:+ e),
                   set_status (ID srv) "error" ("Dockerfile generation failed: " +:+ e) w)
       | Ok dockerfile => finish_build srv cfg tag "building image" (BuildImage docker dockerfile tag force) w
       end.

(** *** Starting *)
Definition add_backend (id : string) (b : BackendKind) (w : World) : World := with_backends w (<[id := b]> (backends w)).
Definition add_container (id c : string) (w : World) : World := with_containers w (<[id := c]> (containers w)).

(** The container of a server is up: record it, mark the server running, enumerate. *)
Definition started (srv : Server) (b : BackendKind) (w : World) : result unit * World :=
  (Ok tt, enumerateAsync (ID srv) (set_status (ID srv) "running" "" (add_backend (ID srv) b w))).

(** Pull the image and start the container; [k] connects to it, and when it cannot the container
    is stopped again. *)
Definition with_container (srv : Server) (image what : string) (connect : string → result BackendKind) (w : World) :
    result unit * World :=
  match EnsureImage docker image with
  | Err e => fail_start srv e ("pulling image: " +:+ e) w
  | Ok _ =>
      match start_container (Servers.Name srv) image w with
      | (Err e, w) => fail_start srv e ("starting container: " +:+ e) w
      | (Ok c, w) =>
          match connect c with
          | Err e => fail_start srv e (what +:+ ": " +:+ e) (stop_container c w)
          | Ok b => started srv b (add_container (ID srv) c w)
          end
      end
  end.

Definition startStdio (srv : Server) (w : World) : result unit * World :=
  match decode_stdio (Config srv) with
  | None => (Err "parsing stdio config", w)
  | Some cfg =>
      let w := set_status (ID srv) "starting" "" w in
      let '(r, w) :=
        match sBuild cfg with
        | None => (Ok cfg, w)
        | Some build =>
            let tag := BuildImageTag_of build in
            let cfg := if sImage cfg =?s "" then with_image cfg tag else cfg in
            buildImageIfNeeded srv cfg build tag false w
        end in
      match r with
      | Err e => (Err e, w)
      | Ok cfg =>
          with_container srv (sImage cfg) "attaching to container"
            (λ c, result_map (λ _, StdioBridge c) (AttachStdio docker c)) w
      end
  end.

Definition startHTTP (srv : Server) (w : World) : result unit * World :=
  match decode_http (Config srv) with
  | None => (Err "parsing http config", w)
  | Some cfg =>
      if hURL cfg !=? "" then started srv (HTTPProxy (hURL cfg)) w
      else
        with_container srv (hImage cfg) "getting host port"
          (λ c, result_map (λ port, HTTPProxy ("http://127.0.0.1:" +:+ port)) (GetHostPort docker c (hPort cfg)))
          (set_status (ID srv) "starting" "" w)
  end.

Definition startRemote (srv : Server) (w : World) : result unit * World :=
  match decode_remote (Config srv) with
  | None => (Err "parsing remote config", w)
  | Some cfg =>
      if (rAuthType cfg =?s "oauth") && (rAccessToken cfg =?s "") && negb (hasTokens (ID srv))
      then (Err ("OAuth not yet authorized for server " +:+ Servers.Name srv),
            set_status (ID srv) "error" "OAuth not yet authorized — click Authorize on the server detail page" w)
      else started srv (RemoteProxy (ID srv) cfg) w
  end.

Definition StartServer (srv : Server) (w : World) : result unit * World :=
  match backends w !! ID srv with
  | Some _ => (Err ("server " +:+ Servers.Name srv +:+ " is already running"), w)
  | None =>
      if ServerType srv =?s "stdio" then startStdio srv w
      else if ServerType srv =?s "http" then startHTTP srv w
      else if ServerType srv =?s "remote" then startRemote srv w
      else (Err ("unknown server type: " +:+ ServerType srv), w)
  end.

Definition RetryServer (srv : Server) (w : World) : result unit * World :=
  StartServer srv (with_backends w (delete (ID srv) (backends w))).

(** *** Stopping and recreating *)
Definition StopServer (id : string) (w : World) : World :=
  let w := with_backends w (delete id (backends w)) in
  let w := with_endpoints w (cache_remove id (Endpoints w)) in
  let w := match containers w !! id with
           | Some c => with_containers (stop_container c w) (delete id (containers w))
           | None => w
           end in
  set_health id "unknown" "" (set_status id "stopped" "" w).

Definition refetch (id msg : string) (k : Server → World → result unit * World) (w : World) : result unit * World :=
  match Servers.Get crypto id (sdb w) with
  | (Ok (Some updated), d) => k updated (with_sdb w d)
  | (_, d) => (Err msg, with_sdb w d)
  end.

Definition RebuildImage (srv : Server) (w : World) : result unit * World :=
  if ServerType srv !=? "stdio" then (Err "rebuild is only supported for stdio servers", w)
  else match decode_stdio (Config srv) with
       | None => (Err "parsing stdio config", w)
       | Some cfg =>
           match sBuild cfg with
           | None => (Err "server has no build config", w)
           | Some build =>
               let '(r, w) := buildImageIfNeeded srv cfg build (BuildImageTag_of build) true w in
               (result_map (λ _, tt) r, w)
           end
       end.

Definition RebuildAndRestart (srv : Server) (w : World) : result unit * World :=
  match RebuildImage srv w with
  | (Err e, w) => (Err ("rebuild failed: " +:+ e), w)
  | (Ok _, w) => refetch (ID srv) "failed to refresh server after rebuild" StartServer (StopServer (ID srv) w)
  end.

Definition RecreateContainer (srv : Server) (w : World) : result unit * World :=
  refetch (ID srv) "failed to refresh server" StartServer (StopServer (ID srv) w).

Definition serverImageRef (srv : Server) : string :=
  if ServerType srv =?s "stdio" then
    match decode_stdio (Config srv) with Some cfg => sImage cfg | None => "" end
  else if ServerType srv =?s "http" then
    match decode_http (Config srv) with Some cfg => if hURL cfg =?s "" then hImage cfg else "" | None => "" end
  else "".

Definition PullAndRecreateContainer (srv : Server) (w : World) : result unit * World :=
  let image := serverImageRef srv in
  if image =?s "" then (Err "server has no Docker image configured", w)
  else match PullImage docker image with
       | Err e => (Err ("pulling image: " +:+ e), w)
       | Ok _ => RecreateContainer srv w
       end.

(** With the messages given to [progress]. *)
Definition RecreateWithProgress (srv : Server) (pull : bool) (w : World) : list string * (result unit * World) :=
  let image := serverImageRef srv in
  let go msgs :=
    let w := StopServer (ID srv) w in
    match Servers.Get crypto (ID srv) (sdb w) with
    | (Ok (Some updated), d) =>
        (msgs ++ ["Stopping container..."; "Starting new container..."], StartServer updated (with_sdb w d))
    | (_, d) => (msgs ++ ["Stopping container..."], (Err "failed to refresh server", with_sdb w d))
    end in
  if pull then
    if image =?s "" then ([], (Err "server has no Docker image configured", w))
    else match PullImage docker image with
         | Err e => (["Pulling latest image: " +:+ image], (Err ("pulling image: " +:+ e), w))
         | Ok _ => go ["Pulling latest image: " +:+ image; "Image pulled successfully"]
         end
  else go [].

(** The servers with a backend, in the order the map delivers them. *)
Definition StopAll (ids : list string) (w : World) : World := foldl (λ w id, StopServer id w) w ids.

(** *** Enumerating *)
Definition as_value (t : ToolOptimize.Tool) : Optimizer.Tool :=
  Optimizer.mkTool (ToolOptimize.Name t) (ToolOptimize.Description t)
    (if InputSchema t =?s "" then None else Unmarshal (InputSchema t)).

Definition endpoint_infos (e : ServerEndpoints) : list Access.EndpointInfo :=
  map (λ t, Access.mkInfo "tool" (ToolOptimize.Name t) (ToolOptimize.Description t)) (ETools e)
  ++ map (λ r, Access.mkInfo "resource" (RURI r) (RDescription r)) (EResources e)
  ++ map (λ p, Access.mkInfo "prompt" (PName p) (PDescription p)) (EPrompts e).

Definition syncAccessTiers (id : string) (e : ServerEndpoints) (w : World) : World :=
  with_adb w (snd (Access.SyncAfterEnumerate Classify.ClassifyEndpoint id (endpoint_infos e) (adb w))).

(** [send] is how the backend answers.  The stores are present, as the relay wires them. *)
Definition EnumerateServer (send : Request → result Response) (id : string) (w : World) :
    option ServerEndpoints * option string * World :=
  match backends w !! id with
  | None => (None, Some "server not running", w)
  | Some _ =>
      let '(endpoints, err) := Enumerate send in
      let w := with_endpoints w (cache_set id endpoints (Endpoints w)) in
      let w := syncAccessTiers id endpoints w in
      let w := match ETools endpoints with
               | [] => w
               | tools => with_odb w (snd (Optimizer.MarkStale now id (Optimizer.HashTools (map as_value tools)) (odb w)))
               end in
      (Some endpoints, err, w)
  end.
End Manager.

(** The environment of one operation. *)
Record Env := mkEnv {
  e_docker : Docker; e_git : string → option (string * string); e_tokens : string → bool; e_nonce : option string; e_now : Z }.

(** ** Containers are never leaked *)

(** The daemon refused to stop the container. *)
Definition refused (docker : Docker) (c : string) : Prop := ∃ e, StopContainer docker c = Err e.

Definition tracked (w : World) (c : string) : Prop := ∃ id, containers w !! id = Some c.

(** The parts of the world that status updates leave alone. *)
Definition same_tables (w w' : World) : Prop :=
  backends w' = backends w ∧ containers w' = containers w ∧ live w' = live w ∧ Endpoints w' = Endpoints w ∧
  scheduled w' = scheduled w ∧ adb w' = adb w ∧ odb w' = odb w.

Lemma same_tables_refl w : same_tables w w.
Proof. done. Qed.

Lemma same_tables_trans w1 w2 w3 : same_tables w1 w2 → same_tables w2 w3 → same_tables w1 w3.
Proof. unfold same_tables. intuition congruence. Qed.

Lemma same_tables_sdb w d : same_tables w (with_sdb w d).
Proof. done. Qed.
#[export] Hint Resolve same_tables_refl same_tables_sdb : relay.

(** What starting a server may do to backends and containers. *)
Definition start_effect (docker : Docker) (id : string) (r : result unit) (w w' : World) : Prop :=
  match r with
  | Err _ =>
      backends w' = backends w ∧ containers w' = containers w ∧ scheduled w' = scheduled w ∧
      ∀ c, c ∈ live w' → c ∈ live w ∨ refused docker c
  | Ok _ =>
      scheduled w' = scheduled w ++ [id] ∧ ∃ b, backends w' = <[id := b]> (backends w) ∧
      (containers w' = containers w ∧ live w' = live w ∨
       ∃ c, containers w' = <[id := c]> (containers w) ∧ live w' = {[c]} ∪ live w)
  end.

(** [no_leak R w]: every running container is tracked unless its stop was refused, and a
    tracked container belongs to a server with a backend. *)
Definition no_leak (R : string → Prop) (w : World) : Prop :=
  (∀ c, c ∈ live w → tracked w c ∨ R c) ∧ (∀ id, is_Some (containers w !! id) → is_Some (backends w !! id)).

Lemma stop_no_leak docker now (R : string → Prop) id w :
  no_leak R w → no_leak (λ c, R c ∨ refused docker c) (StopServer docker now id w).
Proof.
  intros [Hl Hb]. unfold StopServer, stop_container. cbn [containers with_backends with_endpoints].
  destruct (containers w !! id) as [c|] eqn:Ec.
  - split.
    + intros x Hx. assert (Hx' : x ∈ live w ∧ (x = c → refused docker c)).
      { destruct (StopContainer docker c) as [u|e] eqn:Es; cbn in Hx; [set_solver|]. split; [done|]. by exists e. }
      destruct Hx' as [Hlive Href]. destruct (Hl x Hlive) as [(id' & Hid)|?]; [|auto].
      destruct (decide (id = id')) as [<-|Hne]; [right; right; replace x with c by congruence; apply Href; congruence|].
      left. exists id'. destruct (StopContainer docker c); cbn; by rewrite lookup_delete_ne.
    + intros id'. destruct (StopContainer docker c); cbn; rewrite !lookup_delete_is_Some; intros [? ?]; auto.
  - split; cbn.
    + intros x Hx. destruct (Hl x Hx) as [[id' Hid]|?]; [left; by exists id'|auto].
    + intros id' Hid. destruct (decide (id = id')) as [<-|Hne]; [rewrite Ec in Hid; by destruct Hid|].
      rewrite lookup_delete_ne by done. auto.
Qed.

Lemma sdb_no_leak R w d : no_leak R (with_sdb w d) ↔ no_leak R w.
Proof. done. Qed.

Lemma no_leak_weaken (R R' : string → Prop) w : (∀ c, R c → R' c) → no_leak R w → no_leak R' w.
Proof. intros HR [Hl Hb]. split; [|done]. intros c Hc. destruct (Hl c Hc); auto. Qed.

Section ManagerTheorems.
Context `{Hashing} (crypto : ConfigEncryptor) (docker : Docker) (parseGitURL : string → option (string * string)).
Context (hasTokens : string → bool) (nonce : option string) (now : Z).

Local Abbreviation Start := (StartServer crypto docker parseGitURL hasTokens nonce now).

Lemma start_effect_before id r w0 w w' :
  same_tables w0 w → start_effect docker id r w w' → start_effect docker id r w0 w'.
Proof. intros (E1 & E2 & E3 & _ & E5 & _) Hs. unfold start_effect in *. by rewrite E1, E2, E3, E5 in Hs. Qed.

Lemma unchanged_effect id e w w' : same_tables w w' → start_effect docker id (Err e) w w'.
Proof. intros (E1 & E2 & E3 & _ & E5 & _). cbn. rewrite E1, E2, E3, E5. auto. Qed.
Hint Resolve unchanged_effect : relay.

Lemma build_same srv cfg build tag force w :
  same_tables w (buildImageIfNeeded crypto docker parseGitURL nonce now srv cfg build tag force w).2.
Proof.
  unfold buildImageIfNeeded, buildFromGitRepo, finish_build, persist_tag, set_status.
  repeat (case_match; cbn [snd]); auto with relay.
Qed.

Lemma with_container_effect srv image what connect w :
  let '(r, w') := with_container docker now srv image what connect w in start_effect docker (ID srv) r w w'.
Proof.
  unfold with_container, start_container, fail_start, started, stop_container.
  destruct (EnsureImage docker image); [|cbn; auto].
  destruct (StartContainer docker _ image) as [c|e]; [|cbn; auto].
  destruct (connect c) as [b|e].
  - cbn. split; [done|]. exists b. split; [done|]. right. by exists c.
  - destruct (StopContainer docker c) as [u|e'] eqn:Es; cbn; split_and!; try done; intros c' Hc'; [left; set_solver|].
    apply elem_of_union in Hc' as [->%elem_of_singleton|Hc']; [right; by exists e'|by left].
Qed.

Lemma started_effect srv b w :
  let '(r, w') := started now srv b w in start_effect docker (ID srv) r w w'.
Proof. cbn. split; [done|]. exists b. auto. Qed.

Lemma start_server_effect srv w :
  start_effect docker (ID srv) (Start srv w).1 w (Start srv w).2 ∧
  (is_ok (Start srv w).1 = true → backends w !! ID srv = None).
Proof.
  unfold StartServer. destruct (backends w !! ID srv) eqn:Eb; [split; [by apply unchanged_effect|done]|].
  split; [|done]. repeat case_if; [| | |by apply unchanged_effect].
  - unfold startStdio. destruct (decode_stdio (Config srv)) as [cfg|]; [|by apply unchanged_effect].
    set (w1 := set_status now (ID srv) "starting" "" w).
    destruct (match sBuild cfg with Some _ => _ | None => _ end) as [r w2] eqn:Er.
    assert (Hs : same_tables w w2).
    { apply same_tables_trans with w1; [done|]. destruct (sBuild cfg) as [build|]; [|by simplify_eq].
      pose proof (build_same srv (if sImage cfg =?s "" then with_image cfg (BuildImageTag_of build) else cfg) build
                    (BuildImageTag_of build) false w1) as Hb. by rewrite Er in Hb. }
    destruct r as [cfg'|e]; [|by apply unchanged_effect].
    pose proof (with_container_effect srv (sImage cfg') "attaching to container"
      (λ c, result_map (λ _, StdioBridge c) (AttachStdio docker c)) w2) as Hw.
    destruct (with_container _ _ _ _ _ _ _). by eapply start_effect_before.
  - unfold startHTTP. destruct (decode_http (Config srv)) as [cfg|]; [|by apply unchanged_effect]. case_if.
    + apply (started_effect srv (HTTPProxy (hURL cfg)) w).
    + match goal with |- context [with_container docker now srv ?i ?wh ?k ?w1] =>
        pose proof (with_container_effect srv i wh k w1) as Hw; destruct (with_container docker now srv i wh k w1) end.
      by eapply start_effect_before.
  - unfold startRemote. destruct (decode_remote (Config srv)) as [cfg|]; [|by apply unchanged_effect]. case_if; [by apply unchanged_effect|].
    apply (started_effect srv (RemoteProxy (ID srv) cfg) w).
Qed.

Lemma start_no_leak (R : string → Prop) srv w :
  no_leak R w → no_leak (λ c, R c ∨ refused docker c) (Start srv w).2.
Proof.
  intros [Hl Hb]. destruct (start_server_effect srv w) as [He Hn]. destruct (Start srv w) as [[u|e] w']; cbn in *.
  - destruct He as (_ & b & Eb & [(Ec & El)|(c & Ec & El)]); split; rewrite ?Eb.
    + intros x Hx. rewrite El in Hx. destruct (Hl x Hx) as [(id & Hid)|?]; [left; exists id; by rewrite Ec|auto].
    + intros id. rewrite Ec. intros Hid%Hb. destruct (decide (ID srv = id)) as [->|Hne].
      * rewrite lookup_insert_eq. eauto.
      * by rewrite lookup_insert_ne.
    + intros x Hx. rewrite El in Hx. apply elem_of_union in Hx as [->%elem_of_singleton|Hx].
      { left. exists (ID srv). rewrite Ec. apply lookup_insert_eq. }
      destruct (Hl x Hx) as [(id & Hid)|?]; [|auto]. left. exists id. rewrite Ec, lookup_insert_ne; [done|].
      intros <-. specialize (Hb (ID srv)). rewrite Hid, Hn in Hb by done. destruct Hb; eauto. done.
    + intros id. rewrite Ec. destruct (decide (ID srv = id)) as [->|Hne].
      * rewrite !lookup_insert_eq. eauto.
      * rewrite !lookup_insert_ne by done. apply Hb.
  - destruct He as (Eb & Ec & _ & El). split.
    + intros x [Hx|?]%El; [|auto]. destruct (Hl x Hx) as [(id & Hid)|?]; [left; exists id; by rewrite Ec|auto].
    + rewrite Ec, Eb. done.
Qed.

Lemma recreate_no_leak (R : string → Prop) srv w :
  no_leak R w → no_leak (λ c, R c ∨ refused docker c) (RecreateContainer crypto docker parseGitURL hasTokens nonce now srv w).2.
Proof.
  intros Hw. apply (stop_no_leak docker now R (ID srv)) in Hw. unfold RecreateContainer, refetch.
  destruct (Servers.Get crypto (ID srv) _) as [[[updated|]|e] d]; cbn [snd]; try by apply sdb_no_leak.
  apply (sdb_no_leak _ _ d), (start_no_leak _ updated) in Hw. eapply no_leak_weaken; [|exact Hw]. cbn. tauto.
Qed.

(** A retry is for servers without a container. *)
Lemma retry_no_leak (R : string → Prop) srv w :
  containers w !! ID srv = None → no_leak R w →
  no_leak (λ c, R c ∨ refused docker c) (RetryServer crypto docker parseGitURL hasTokens nonce now srv w).2.
Proof.
  intros Hc [Hl Hb]. apply start_no_leak. split; [exact Hl|]. cbn. intros id Hid.
  rewrite lookup_delete_ne; [auto|]. intros <-. rewrite Hc in Hid. by destruct Hid.
Qed.
End ManagerTheorems.

(** ** The manager as a system *)
Inductive op :=
| OStart (env : Env) (srv : Server)
| OStop (env : Env) (id : string)
| ORecreate (env : Env) (srv : Server)
| OPullRecreate (env : Env) (srv : Server)
| ORebuild (env : Env) (srv : Server)
| ORetry (env : Env) (srv : Server)
| OEnumerate (env : Env) (send : Request → result Response) (id : string).

Definition env_of (o : op) : Env :=
  match o with
  | OStart e _ | OStop e _ | ORecreate e _ | OPullRecreate e _ | ORebuild e _ | ORetry e _ | OEnumerate e _ _ => e
  end.

Section System.
Context `{Hashing} (crypto : ConfigEncryptor).

Definition run_op (o : op) (w : World) : option (result unit) * World :=
  let of_result (p : result unit * World) := (Some p.1, p.2) in
  let e := env_of o in
  match o with
  | OStart _ srv => of_result (StartServer crypto (e_docker e) (e_git e) (e_tokens e) (e_nonce e) (e_now e) srv w)
  | OStop _ id => (Some (Ok tt), StopServer (e_docker e) (e_now e) id w)
  | ORecreate _ srv => of_result (RecreateContainer crypto (e_docker e) (e_git e) (e_tokens e) (e_nonce e) (e_now e) srv w)
  | OPullRecreate _ srv =>
      of_result (PullAndRecreateContainer crypto (e_docker e) (e_git e) (e_tokens e) (e_nonce e) (e_now e) srv w)
  | ORebuild _ srv => of_result (RebuildAndRestart crypto (e_docker e) (e_git e) (e_tokens e) (e_nonce e) (e_now e) srv w)
  | ORetry _ srv => of_result (RetryServer crypto (e_docker e) (e_git e) (e_tokens e) (e_nonce e) (e_now e) srv w)
  | OEnumerate _ send id => (None, (EnumerateServer (e_now e) send id w).2)
  end.

(** Retries are for servers without a container. *)
Definition retry_ok (o : op) (w : World) : Prop :=
  match o with ORetry _ srv => containers w !! ID srv = None | _ => True end.

Lemma enumerate_no_leak R now send id w : no_leak R (EnumerateServer now send id w).2 ↔ no_leak R w.
Proof.
  unfold EnumerateServer. destruct (backends w !! id); [|done].
  destruct (Enumerate send) as [endpoints err]. by destruct (ETools endpoints).
Qed.

Lemma rebuild_no_leak (R : string → Prop) e srv w :
  no_leak R w → no_leak (λ c, R c ∨ refused (e_docker e) c)
    (RebuildAndRestart crypto (e_docker e) (e_git e) (e_tokens e) (e_nonce e) (e_now e) srv w).2.
Proof.
  intros Hw. unfold RebuildAndRestart.
  assert (Hs : ∀ p, RebuildImage crypto (e_docker e) (e_git e) (e_nonce e) (e_now e) srv w = p → no_leak R p.2).
  { intros p <-. unfold RebuildImage. case_if; [done|]. destruct (decode_stdio (Config srv)) as [cfg|]; [|done].
    destruct (sBuild cfg) as [build|]; [|done].
    pose proof (build_same crypto (e_docker e) (e_git e) (e_nonce e) (e_now e) srv cfg build (BuildImageTag_of build) true w) as Hb.
    destruct (buildImageIfNeeded _ _ _ _ _ _ _ _ _ _ _) as [r w']. cbn [snd] in *.
    destruct Hb as (E1 & E2 & E3 & _). unfold no_leak, tracked in *. by rewrite E1, E2, E3. }
  destruct (RebuildImage _ _ _ _ _ _ _) as [[u|msg] w1]; specialize (Hs _ eq_refl); cbn [snd] in *.
  - apply (recreate_no_leak crypto (e_docker e) (e_git e) (e_tokens e) (e_nonce e) (e_now e) R srv) in Hs.
    unfold RecreateContainer, refetch in *. by destruct (Servers.Get crypto (ID srv) _) as [[[updated|]|msg] d].
  - eapply no_leak_weaken; [|exact Hs]. auto.
Qed.

Lemma run_op_no_leak R o w :
  retry_ok o w → no_leak R w → no_leak (λ c, R c ∨ refused (e_docker (env_of o)) c) (run_op o w).2.
Proof.
  intros Hr Hw. destruct o as [e srv|e id|e srv|e srv|e srv|e srv|e send id]; cbn [run_op env_of snd].
  - by apply start_no_leak.
  - by apply stop_no_leak.
  - by apply recreate_no_leak.
  - unfold PullAndRecreateContainer. case_if; [by eapply no_leak_weaken; [|exact Hw]; auto|].
    destruct (PullImage _ _); [by apply recreate_no_leak|by eapply no_leak_weaken; [|exact Hw]; auto].
  - by apply rebuild_no_leak.
  - by apply retry_no_leak.
  - apply enumerate_no_leak. eapply no_leak_weaken; [|exact Hw]. auto.
Qed.

(** C37: along every run of the manager, whatever Docker, git and the backends
    answer, a running container is the recorded container of some server unless Docker
    refused to stop it, and a recorded container belongs to a server with a backend. *)
Theorem containers_never_leak : ∀ ops w n,
  no_leak (λ _, False) w →
  (∀ i o, ops !! i = Some o → retry_ok o (state_at run_op ops w i)) →
  let w' := state_at run_op ops w n in
  (∀ c, c ∈ live w' → (∃ id, containers w' !! id = Some c) ∨ ∃ o, o ∈ ops ∧ refused (e_docker (env_of o)) c) ∧
  (∀ id, is_Some (containers w' !! id) → is_Some (backends w' !! id)).
Proof.
  intros ops w n H0 Hr. change (no_leak (λ c, ∃ o, o ∈ ops ∧ refused (e_docker (env_of o)) c) (state_at run_op ops w n)).
  apply (run_invariant run_op (λ _ w', no_leak (λ c, ∃ o, o ∈ ops ∧ refused (e_docker (env_of o)) c) w')); [|done|].
  - by eapply no_leak_weaken; [|exact H0].
  - intros i o Ho Hw. eapply no_leak_weaken; [|apply run_op_no_leak; [by apply (Hr i)|exact Hw]].
    cbn. intros c [?|Href]; [done|]. exists o. split; [|done]. by eapply list_elem_of_lookup_2.
Qed.

(** *** A failed enumeration *)

Lemma failed_enumerate send e :
  doInitialize send = Err e →
  Enumerate send = (mkEndpoints (mkInfo "" "") [] [] [] false ("initialize failed: " +:+ e), Some e).
Proof. intros E. unfold Enumerate. by rewrite E. Qed.

(** when the backend does not answer [initialize], the enumeration
    reports an error and still synchronizes: on a healthy database every tier of the server,
    manual ones included, is deleted, and an endpoint an administrator reserved for admins
    is open to write users from then on. *)
Theorem failed_enumeration_drops_tiers : ∀ now send id w e ty nm row,
  is_Some (backends w !! id) → send (NewRequest (Some (JNum "1")) "initialize" (Some initialize_params)) = Err e →
  faults (adb w) = [] → Access.tiers (tables (adb w)) !! (id, ty, nm) = Some row →
  let '(_, err, w') := EnumerateServer now send id w in
  is_Some err ∧ Access.tiers (tables (adb w')) !! (id, ty, nm) = None ∧
  fst (Access.GetTier id ty nm (adb w')) = Ok "write" ∧ Access.CheckAccess "write" "write" = true.
Proof.
  intros now send id w e ty nm row [b Hb] Hs Hf Hrow. unfold EnumerateServer. rewrite Hb.
  rewrite (failed_enumerate send ("sending initialize: " +:+ e)) by (unfold doInitialize; by rewrite Hs).
  cbn [ETools]. split; [eauto|]. destruct (adb w) as [s fs] eqn:Ed. cbn in Hf. subst fs.
  destruct (sync_healthy Classify.ClassifyEndpoint id [] s) as [_ Hdel]; [intros ep Hin; by apply not_elem_of_nil in Hin|].
  unfold syncAccessTiers. cbn [adb with_adb with_endpoints endpoint_infos ETools EResources EPrompts map app].
  rewrite Ed. cbn [tables] in Hrow.
  assert (Hnone : Access.tiers (tables (Access.SyncAfterEnumerate Classify.ClassifyEndpoint id [] (healthy s)).2) !! (id, ty, nm) = None).
  { eapply Hdel; [done|]. cbn. apply not_elem_of_nil. }
  split_and!; [exact Hnone| |done].
  unfold healthy in Hnone. destruct (Access.SyncAfterEnumerate _ id [] _) as [r d] eqn:Es. cbn in Hnone |- *.
  unfold Access.GetTier, db_bind, attempt, query, exec. destruct (next_fault (faults d)) as [[] fs]; [done|].
  cbn. by rewrite Hnone.
Qed.
End System.

(** ** Witnesses *)
Definition demo_docker (stops : bool) : Docker :=
  mkDocker (λ _, true) (λ _, Ok tt) (λ _, Ok tt) (λ _ _ _, Ok tt) (λ _ _ _, Ok tt) (λ _ _, Ok "container-0001")
    (λ _, Ok tt) (λ _ _, Ok "8080") (λ _, if stops then Ok tt else Err "busy") (Ok "/tmp/x") (λ _, Ok true).

Definition demo_env (stops : bool) (now : Z) : Env :=
  mkEnv (demo_docker stops) (λ _, Some ("https", "github.com")) (λ _, false) None now.

Definition demo_server : Server :=
  mkServer "s1" "demo" "Demo" "stdio" (Marshal (JObj [("image", JStr "img")])) "stopped" "" "unknown" None "" false 0 0.

Definition demo_world : World :=
  mkWorld (healthy {["s1" := demo_server]})
    (healthy (Access.mkState {["s1"]} {[("s1", "tool", "drop_all") := Access.mkTier "admin" false]}))
    (healthy (Optimizer.mkTables {["s1"]} ∅)) ∅ ∅ ∅ ∅ [].

Definition demo_run : list op := [OStart (demo_env true 1) demo_server; ORecreate (demo_env false 2) demo_server].

Lemma containers_never_leak_witness :
  let w' := state_at (run_op (H:=toy_hashing) (mkEncryptor None)) demo_run demo_world 2 in
  "container-0001" ∈ live w' ∧
  ((∃ id, containers w' !! id = Some "container-0001") ∨ ∃ o, o ∈ demo_run ∧ refused (e_docker (env_of o)) "container-0001").
Proof.
  split; [vm_compute; reflexivity|].
  apply (containers_never_leak (H:=toy_hashing) (mkEncryptor None) demo_run demo_world 2).
  - split; [intros c Hc; by apply not_elem_of_empty in Hc|intros id [c Hc]; change (containers demo_world) with (∅ : gmap string string) in Hc;
      by rewrite lookup_empty in Hc].
  - intros [|[|i]] o Ho; [injection Ho as <-; exact I|injection Ho as <-; exact I|discriminate Ho].
  - vm_compute. reflexivity.
Defined.

Lemma failed_enumeration_drops_tiers_witness :
  let w := with_backends demo_world {["s1" := StdioBridge "c"]} in
  fst (Access.GetTier "s1" "tool" "drop_all" (adb w)) = Ok "admin" ∧
  fst (Access.GetTier "s1" "tool" "drop_all" (adb (EnumerateServer (H:=toy_hashing) 0 (λ _, Err "timeout") "s1" w).2)) = Ok "write".
Proof.
  split; [vm_compute; reflexivity|].
  exact (proj1 (proj2 (proj2 (failed_enumeration_drops_tiers (H:=toy_hashing) 0 (λ _, Err "timeout") "s1"
    (with_backends demo_world {["s1" := StdioBridge "c"]}) "timeout" "tool" "drop_all" (Access.mkTier "admin" false)
    (mk_is_Some _ (StdioBridge "c") eq_refl) eq_refl eq_refl eq_refl)))).
Defined.
