(* ===== verification/HealthMonitor.v ===== *)
(** * The health monitor

    [src/internal/proxy/health.go]: the periodic probes, the failure threshold, and the
    recovery attempts with their cooldown and their budget.  The goroutine that recreates
    a container runs as an operation of its own ([recover_container]). *)
From S2P Require Import Prelude GoStrings Json JsonDecode AccessTiers Base64 Crypto Servers Mcp.
From S2P Require Import Enumerate ServerManager Runs.

Definition failThreshold : Z := 3.
Definition recoveryCooldown : Z := 5 * minute.
Definition maxRecoverAttempts : Z := 3.

Record Monitor := mkMonitor {
  failCounts : gmap string Z; lastRecover : gmap string Z; recoverAttempts : gmap string Z; recovering : gset string }.

Definition NewHealthMonitor : Monitor := mkMonitor ∅ ∅ ∅ ∅.

(** The monitor, the manager it works on, and the recovery goroutines that have not run yet. *)
Record HWorld := mkHWorld { mon : Monitor; mgr : World; recoveries : list Server }.

Definition with_mgr (h : HWorld) (w : World) : HWorld := mkHWorld (mon h) w (recoveries h).
Definition with_mon (h : HWorld) (m : Monitor) : HWorld := mkHWorld m (mgr h) (recoveries h).

Definition resetFailCount (id : string) (m : Monitor) : Monitor :=
  mkMonitor (delete id (failCounts m)) (lastRecover m) (recoverAttempts m) (recovering m).

Definition ResetRecoveryState (id : string) (m : Monitor) : Monitor :=
  mkMonitor (delete id (failCounts m)) (delete id (lastRecover m)) (delete id (recoverAttempts m)) (recovering m).

(** The backend's answer to a ping; [Ok None] is a nil response. *)
Definition pingServer (answer : result (option Response)) : result unit :=
  match answer with
  | Err e => Err ("ping failed: " +:+ e)
  | Ok None => Err "no response to ping"
  | Ok (Some _) => Ok tt
  end.

Definition isStatelessServer (srv : Server) : bool :=
  if ServerType srv =?s "remote" then true
  else if ServerType srv =?s "http" then
    match decode_http (Config srv) with Some cfg => hURL cfg !=? "" | None => false end
  else false.

Section Health.
Context (crypto : ConfigEncryptor).

Definition CheckHealth (now : Z) (answer : result (option Response)) (id : string) (h : HWorld) :
    (string * string) * HWorld :=
  match backends (mgr h) !! id with
  | None => ("unknown", "no backend available", h)
  | Some _ =>
      match pingServer answer with
      | Err e => ("unhealthy", e, with_mgr h (set_health now id "unhealthy" e (mgr h)))
      | Ok _ => ("healthy", "", with_mgr h (set_health now id "healthy" "" (mgr h)))
      end
  end.

Definition checkRunning (now : Z) (answer : result (option Response)) (srv : Server) (h : HWorld) : HWorld :=
  let id := ID srv in
  match backends (mgr h) !! id with
  | None => mkHWorld (resetFailCount id (mon h))
              (set_health now id "unknown" "" (set_status now id "stopped" "backend not found" (mgr h))) (recoveries h)
  | Some _ =>
      match pingServer answer with
      | Err e =>
          let m := mon h in
          let count := (default 0 (failCounts m !! id) + 1)%Z in
          let m := mkMonitor (<[id := count]> (failCounts m)) (lastRecover m) (recoverAttempts m) (recovering m) in
          let w := set_health now id "unhealthy" e (mgr h) in
          let w := if (failThreshold <=? count)%Z then set_status now id "error" e w else w in
          mkHWorld m w (recoveries h)
      | Ok _ => mkHWorld (resetFailCount id (mon h)) (set_health now id "healthy" "" (mgr h)) (recoveries h)
      end
  end.

(** Whether the guards of [tryRecover] let an attempt through. *)
Definition may_recover (now : Z) (id : string) (m : Monitor) : bool :=
  negb (bool_decide (id ∈ recovering m))
  && negb (match lastRecover m !! id with Some last => (now - last <? recoveryCooldown)%Z | None => false end)
  && negb (maxRecoverAttempts <=? default 0 (recoverAttempts m !! id))%Z.

Definition tryRecover (env : Env) (srv : Server) (h : HWorld) : HWorld :=
  let id := ID srv in
  let m := mon h in
  if negb (may_recover (e_now env) id m) then h
  else
    let m := mkMonitor (failCounts m) (<[id := e_now env]> (lastRecover m))
               (<[id := default 0 (recoverAttempts m !! id) + 1]> (recoverAttempts m))%Z (recovering m) in
    if isStatelessServer srv then
      match RetryServer crypto (e_docker env) (e_git env) (e_tokens env) (e_nonce env) (e_now env) srv (mgr h) with
      | (Err _, w) => mkHWorld m w (recoveries h)
      | (Ok _, w) => mkHWorld (ResetRecoveryState id m) w (recoveries h)
      end
    else
      mkHWorld (mkMonitor (failCounts m) (lastRecover m) (recoverAttempts m) ({[id]} ∪ recovering m)) (mgr h)
        (recoveries h ++ [srv]).

(** The body of the recovery goroutine. *)
Definition recover_container (env : Env) (srv : Server) (h : HWorld) : HWorld :=
  let id := ID srv in
  let '(r, w) := RecreateContainer crypto (e_docker env) (e_git env) (e_tokens env) (e_nonce env) (e_now env) srv (mgr h) in
  let m := match r with Ok _ => ResetRecoveryState id (mon h) | Err _ => mon h end in
  mkHWorld (mkMonitor (failCounts m) (lastRecover m) (recoverAttempts m) (recovering m ∖ {[id]})) w
    (List.filter (λ s, negb (ID s =?s id)) (recoveries h)).

Definition check_one (env : Env) (answers : string → result (option Response)) (h : HWorld) (srv : Server) : HWorld :=
  if Status srv =?s "running" then checkRunning (e_now env) (answers (ID srv)) srv h
  else if Status srv =?s "error" then tryRecover env srv h
  else if (Status srv =?s "stopped") && (Health srv !=? "unknown")
  then with_mgr h (set_health (e_now env) (ID srv) "unknown" "" (mgr h))
  else h.

Definition checkAll (env : Env) (answers : string → result (option Response)) (h : HWorld) : HWorld :=
  match Servers.ListServers crypto (sdb (mgr h)) with
  | (Err _, d) => with_mgr h (with_sdb (mgr h) d)
  | (Ok servers, d) => foldl (check_one env answers) (with_mgr h (with_sdb (mgr h) d)) servers
  end.
End Health.


(** ** The failure threshold *)

(** One round for one server, guarded by its stored status as in [checkAll]. *)
Definition round (srv : Server) (h : HWorld) (probe : Z * result (option Response)) : HWorld :=
  match tables (sdb (mgr h)) !! ID srv with
  | Some row => if Status row =?s "running" then checkRunning probe.1 probe.2 srv h else h
  | None => h
  end.

Definition failed (probe : Z * result (option Response)) : bool := negb (is_ok (pingServer probe.2)).

Fixpoint streak (k : nat) (l : list bool) : bool :=
  match l with
  | [] => false
  | b :: r => if b then (3 <=? S k) || streak (S k) r else streak 0 r
  end.

Lemma streak_iff k l : k ≤ 2 →
  streak k l = true ↔ ∃ l1 l2, replicate k true ++ l = l1 ++ [true; true; true] ++ l2.
Proof.
  revert k. induction l as [|[] l IH]; intros k Hk; cbn [streak].
  - split; [done|]. intros (l1 & l2 & E). apply (f_equal length) in E.
    rewrite !length_app, length_replicate in E. cbn in E. lia.
  - assert (Hshift : replicate k true ++ true :: l = replicate (S k) true ++ l).
    { rewrite cons_middle, app_assoc. by rewrite <- replicate_S_end. }
    rewrite Hshift. destruct (3 <=? S k) eqn:E3; bool_prop.
    + replace k with 2 by lia. split; [|done]. intros _. by exists [], l.
    + cbn [orb]. apply IH. lia.
  - rewrite IH by lia. split.
    + intros (l1 & l2 & E). exists (replicate k true ++ false :: l1), l2. cbn in E. by rewrite E, <- app_assoc.
    + intros (l1 & l2 & E). destruct k as [|[|[|k]]]; [| | |lia]; cbn in E.
      * destruct l1 as [|? l1]; [discriminate E|]. injection E as _ E. by exists l1, l2.
      * destruct l1 as [|? [|? l1]]; [discriminate E..|]. injection E as _ _ E. by exists l1, l2.
      * destruct l1 as [|? [|? [|? l1]]]; [discriminate E..|]. injection E as _ _ _ E. by exists l1, l2.
Qed.

(** A monitored server: present, running, with a backend, on a healthy database. *)
Definition monitored (id : string) (status : string) (h : HWorld) : Prop :=
  (∃ row, tables (sdb (mgr h)) !! id = Some row ∧ Status row = status) ∧ faults (sdb (mgr h)) = [] ∧
  is_Some (backends (mgr h) !! id).

Lemma set_status_running now id st msg w row :
  tables (sdb w) !! id = Some row → faults (sdb w) = [] → valid_status st = true →
  faults (sdb (set_status now id st msg w)) = [] ∧ backends (set_status now id st msg w) = backends w ∧
  ∃ row', tables (sdb (set_status now id st msg w)) !! id = Some row' ∧ Status row' = st.
Proof.
  intros Hrow Hf Hv. unfold set_status, UpdateStatus, exec. destruct (sdb w) as [t fs]. cbn in *. subst fs. cbn.
  rewrite bool_decide_true by eauto. rewrite Hv. cbn. split_and!; [done..|].
  rewrite lookup_alter_eq, Hrow. cbn. eauto.
Qed.

Lemma set_health_running now id health msg w row :
  tables (sdb w) !! id = Some row → faults (sdb w) = [] → valid_health health = true →
  faults (sdb (set_health now id health msg w)) = [] ∧ backends (set_health now id health msg w) = backends w ∧
  ∃ row', tables (sdb (set_health now id health msg w)) !! id = Some row' ∧ Status row' = Status row.
Proof.
  intros Hrow Hf Hv. unfold set_health, UpdateHealth, exec. destruct (sdb w) as [t fs]. cbn in *. subst fs. cbn.
  rewrite bool_decide_true by eauto. rewrite Hv. cbn. split_and!; [done..|].
  rewrite lookup_alter_eq, Hrow. cbn. eauto.
Qed.

Definition fails (id : string) (h : HWorld) : Z := default 0%Z (failCounts (mon h) !! id).

(** One round of a running server. *)
Lemma round_running srv h probe : monitored (ID srv) "running" h → (0 ≤ fails (ID srv) h)%Z →
  let h' := round srv h probe in
  if failed probe then
    fails (ID srv) h' = (fails (ID srv) h + 1)%Z ∧
    monitored (ID srv) (if (3 <=? fails (ID srv) h + 1)%Z then "error" else "running") h'
  else fails (ID srv) h' = 0%Z ∧ monitored (ID srv) "running" h'.
Proof.
  intros ((row & Hrow & Hst) & Hf & [b Hb]) H0. unfold round, failed, fails in *. cbv zeta. rewrite Hrow, Hst.
  change ("running" =?s "running") with true. cbv iota. unfold checkRunning. rewrite Hb.
  destruct (pingServer probe.2) as [u|e]; cbn [is_ok negb mon failCounts].
  - split; [cbn; by rewrite lookup_delete_eq|].
    destruct (set_health_running probe.1 (ID srv) "healthy" "" (mgr h) row) as (Hf1 & Hb1 & row1 & Hr1 & Hs1); [done..|].
    split_and!; cbn [mgr]; [exists row1; split; congruence|done|rewrite Hb1; eauto].
  - split; [by rewrite lookup_insert_eq|]. unfold monitored. cbn [mgr].
    destruct (set_health_running probe.1 (ID srv) "unhealthy" e (mgr h) row) as (Hf1 & Hb1 & row1 & Hr1 & Hs1); [done..|].
    unfold failThreshold. case_if.
    + destruct (set_status_running probe.1 (ID srv) "error" e _ row1 Hr1 Hf1 eq_refl) as (Hf2 & Hb2 & row2 & Hr2 & Hs2).
      split_and!; [by exists row2|done|rewrite Hb2, Hb1; eauto].
    + split_and!; [exists row1; split; congruence|done|rewrite Hb1; eauto].
Qed.

Lemma rounds_error srv h probes : monitored (ID srv) "error" h → foldl (round srv) h probes = h.
Proof.
  intros ((row & Hrow & Hst) & _). induction probes as [|p ps IH]; [done|]. cbn.
  unfold round at 2. by rewrite Hrow, Hst.
Qed.

Lemma rounds_streak srv probes : ∀ h k, monitored (ID srv) "running" h → fails (ID srv) h = Z.of_nat k → k ≤ 2 →
  monitored (ID srv) (if streak k (map failed probes) then "error" else "running") (foldl (round srv) h probes).
Proof.
  induction probes as [|p ps IH]; intros h k Hm Hk Hle; [done|]. cbn [foldl map streak].
  pose proof (round_running srv h p Hm) as Hr. rewrite Hk in Hr. specialize (Hr ltac:(lia)).
  destruct (failed p) eqn:Ef; destruct Hr as [Hc Hmr].
  - destruct (3 <=? S k) eqn:E3; bool_prop.
    + assert (E : (3 <=? Z.of_nat k + 1)%Z = true) by (apply Z.leb_le; lia). rewrite E in Hmr.
      cbn [orb]. by rewrite rounds_error.
    + assert (E : (3 <=? Z.of_nat k + 1)%Z = false) by (apply Z.leb_gt; lia). rewrite E in Hmr.
      cbn [orb]. apply IH; [done|lia|lia].
  - apply IH; [done|lia|lia].
Qed.

(** a running server with a backend is marked as failed exactly when
    three consecutive probes failed; any other sequence of probes leaves it running. *)
Theorem error_after_three_failures : ∀ srv h probes,
  monitored (ID srv) "running" h → failCounts (mon h) !! ID srv = None →
  let h' := foldl (round srv) h probes in
  ((∃ l1 l2, map failed probes = l1 ++ [true; true; true] ++ l2) → monitored (ID srv) "error" h') ∧
  (¬ (∃ l1 l2, map failed probes = l1 ++ [true; true; true] ++ l2) → monitored (ID srv) "running" h').
Proof.
  intros srv h probes Hm Hc h'. pose proof (rounds_streak srv probes h 0 Hm) as H. fold h' in H.
  pose proof (streak_iff 0 (map failed probes)) as Hs. cbn [replicate app] in Hs.
  destruct (streak 0 (map failed probes)); (split; intros HE; [|]).
  - apply H; [unfold fails; by rewrite Hc|lia].
  - destruct HE. apply Hs; [lia|done].
  - apply Hs in HE; [done|lia].
  - apply H; [unfold fails; by rewrite Hc|lia].
Qed.

(** ** The recovery budget *)
Inductive hop :=
| HProbe (now : Z) (answer : result (option Response)) (srv : Server)
| HTry (env : Env) (srv : Server)
| HRecover (env : Env) (srv : Server)
| HReset (id : string).

Section Budget.
Context (crypto : ConfigEncryptor).

(** The reply of a step is the recovery attempt it makes. *)
Definition hstep (o : hop) (h : HWorld) : option (string * Z) * HWorld :=
  match o with
  | HProbe now answer srv => (None, checkRunning now answer srv h)
  | HTry env srv =>
      (if may_recover (e_now env) (ID srv) (mon h) then Some (ID srv, e_now env) else None, tryRecover crypto env srv h)
  | HRecover env srv => (None, recover_container crypto env srv h)
  | HReset id => (None, with_mon h (ResetRecoveryState id (mon h)))
  end.

(** The monitor's record of the attempts on a server. *)
Definition record_of (id : string) (h : HWorld) : option Z * option Z :=
  (recoverAttempts (mon h) !! id, lastRecover (mon h) !! id).

Lemma reset_record id' id m :
  (recoverAttempts (ResetRecoveryState id' m) !! id, lastRecover (ResetRecoveryState id' m) !! id)
  = if decide (id = id') then (None, None) else (recoverAttempts m !! id, lastRecover m !! id).
Proof.
  unfold ResetRecoveryState. cbn. case_decide; subst; [by rewrite !lookup_delete_eq|by rewrite !lookup_delete_ne].
Qed.

(** A step without an attempt keeps the record or clears it. *)
Lemma hstep_quiet id o h : (∀ t, (hstep o h).1 ≠ Some (id, t)) →
  record_of id (hstep o h).2 = record_of id h ∨ record_of id (hstep o h).2 = (None, None).
Proof.
  unfold record_of. destruct o as [now a srv|env srv|env srv|id']; cbn [hstep fst snd]; intros Hn.
  - left. unfold checkRunning. by repeat (case_match; cbn).
  - unfold tryRecover. destruct (may_recover _ _ _) eqn:Em; [|by left]. cbn [negb].
    assert (Hne : ID srv ≠ id) by (intros <-; by apply (Hn (e_now env))).
    left. case_if; [destruct (RetryServer _ _ _ _ _ _ _ _) as [[u|e] w]|]; cbn [mon];
      rewrite ?reset_record, ?decide_False by done; cbn; by rewrite !lookup_insert_ne.
  - unfold recover_container. destruct (RecreateContainer _ _ _ _ _ _ _ _) as [[u|e] w]; cbn [mon recoverAttempts lastRecover]; [|by left].
    rewrite reset_record. case_decide; auto.
  - cbn [mon with_mon]. rewrite reset_record. case_decide; auto.
Qed.

(** An attempt needs budget and cooldown, and is recorded unless it succeeds at once. *)
Lemma hstep_attempt id t o h : (hstep o h).1 = Some (id, t) →
  (default 0 (record_of id h).1 < 3)%Z ∧ (∀ last, (record_of id h).2 = Some last → last + recoveryCooldown ≤ t)%Z ∧
  (record_of id (hstep o h).2 = (Some (default 0 (record_of id h).1 + 1)%Z, Some t) ∨ record_of id (hstep o h).2 = (None, None)).
Proof.
  unfold record_of. destruct o as [now a srv|env srv|env srv|id']; cbn [hstep fst snd]; try done.
  destruct (may_recover _ _ _) eqn:Em; [|done]. intros [= <- <-]. unfold tryRecover. rewrite Em. cbn [negb].
  unfold may_recover, maxRecoverAttempts in Em. bool_prop. split; [done|]. split.
  - intros last Hl. match goal with Hx : match _ with _ => _ end = false |- _ => rewrite Hl in Hx end. bool_prop. lia.
  - case_if; [destruct (RetryServer _ _ _ _ _ _ _ _) as [[u|e] w]|]; cbn [mon];
      rewrite ?reset_record, ?decide_True by done; auto; left; cbn; by rewrite !lookup_insert_eq.
Qed.

(** The record is kept from operation [i] to operation [j]. *)
Definition kept (ops : list hop) (h : HWorld) (id : string) (i j : nat) : Prop :=
  ∀ k, i < k ≤ j → is_Some (recoverAttempts (mon (state_at hstep ops h k)) !! id).

Definition attempt_at (ops : list hop) (h : HWorld) (i : nat) (id : string) (t : Z) : Prop :=
  reply_at hstep ops h i = Some (id, t).

Lemma attempt_recorded ops h id i j t1 :
  attempt_at ops h i id t1 → i < j → kept ops h id i j →
  ∃ n t, record_of id (state_at hstep ops h j) = (Some n, Some t) ∧ (t1 ≤ t)%Z ∧
         (default 0 (record_of id (state_at hstep ops h i)).1 + 1 ≤ n)%Z.
Proof.
  intros Ha Hlt Hk. unfold attempt_at in Ha. apply reply_at_Some in Ha as (o & Ho & Ha).
  assert (Hstart : record_of id (state_at hstep ops h (S i)) = (Some (default 0 (record_of id (state_at hstep ops h i)).1 + 1)%Z, Some t1)).
  { rewrite (state_at_S _ _ _ _ _ Ho). destruct (hstep_attempt _ _ _ _ Ha) as (_ & _ & [E|E]); [done|].
    destruct (Hk (S i)) as [n Hn]; [lia|]. rewrite (state_at_S _ _ _ _ _ Ho) in Hn. unfold record_of in E. congruence. }
  generalize dependent (default 0 (record_of id (state_at hstep ops h i)).1)%Z. intros a Hstart.
  revert Hk. induction Hlt as [|j Hlt IH]; intros Hk.
  { rewrite Hstart. do 2 eexists. split; [done|]. lia. }
  destruct IH as (n & t & E & Ht & Hn); [intros k ?; apply Hk; lia|].
  destruct (ops !! j) as [o'|] eqn:Eo; [|rewrite state_at_ge by done; eauto].
  destruct (Hk (S j)) as [n' Hn']; [lia|]. rewrite (state_at_S _ _ _ _ _ Eo) in Hn' |- *.
  assert (Hnr : ∀ h', recoverAttempts (mon h') !! id = Some n' → record_of id h' ≠ (None, None)).
  { intros h' E' E2. unfold record_of in E2. congruence. }
  destruct ((hstep o' (state_at hstep ops h j)).1) as [[id' t']|] eqn:Er; [destruct (decide (id' = id)) as [->|Hne]|].
  - destruct (hstep_attempt _ _ _ _ Er) as (_ & Hl & [E'|E']); [|by apply Hnr in E'].
    rewrite E', E in *. cbn in Hl |- *. specialize (Hl t eq_refl). do 2 eexists. split; [done|].
    unfold recoveryCooldown, minute, second in Hl. lia.
  - destruct (hstep_quiet id o' (state_at hstep ops h j)) as [E'|E']; [intros t'' Hx; congruence| |by apply Hnr in E'].
    rewrite E'. eauto.
  - destruct (hstep_quiet id o' (state_at hstep ops h j)) as [E'|E']; [by rewrite Er| |by apply Hnr in E'].
    rewrite E'. eauto.
Qed.

Lemma attempts_nonneg ops h id i : mon h = NewHealthMonitor →
  (0 ≤ default 0 (record_of id (state_at hstep ops h i)).1)%Z.
Proof.
  intros Hm. apply (run_invariant hstep (λ _ h', (0 ≤ default 0 (record_of id h').1)%Z)); [|done|].
  - unfold record_of. by rewrite Hm.
  - intros n o _ H0. destruct ((hstep o (state_at hstep ops h n)).1) as [[id' t']|] eqn:Er; [destruct (decide (id' = id)) as [->|Hne]|].
    + destruct (hstep_attempt _ _ _ _ Er) as (_ & _ & [E|E]); rewrite E; [|done].
      generalize dependent (default 0 (record_of id (state_at hstep ops h n)).1)%Z. intros a Ha. cbn. lia.
    + destruct (hstep_quiet id o (state_at hstep ops h n)) as [E|E]; [intros t'' Hx; congruence|by rewrite E..].
    + destruct (hstep_quiet id o (state_at hstep ops h n)) as [E|E]; [by rewrite Er|by rewrite E..].
Qed.

(** as long as the monitor's record of a server is not cleared by a
    successful recovery or a manual restart, two recovery attempts are at least five minutes
    apart and there is never a fourth one, whatever the probes, Docker and the backends
    answer. *)
Theorem recovery_is_bounded : ∀ ops h id, mon h = NewHealthMonitor →
  (∀ i j t1 t2, i < j → kept ops h id i j → attempt_at ops h i id t1 → attempt_at ops h j id t2 →
     (t1 + recoveryCooldown ≤ t2)%Z) ∧
  (∀ i1 i2 i3 i4 t1 t2 t3 t4, i1 < i2 < i3 → i3 < i4 → kept ops h id i1 i4 →
     attempt_at ops h i1 id t1 → attempt_at ops h i2 id t2 → attempt_at ops h i3 id t3 → ¬ attempt_at ops h i4 id t4).
Proof.
  intros ops h id Hm. split.
  - intros i j t1 t2 Hlt Hk H1 H2. destruct (attempt_recorded _ _ _ _ _ _ H1 Hlt Hk) as (n & t & E & Ht & _).
    apply reply_at_Some in H2 as (o & _ & H2). destruct (hstep_attempt _ _ _ _ H2) as (_ & Hl & _).
    rewrite E in Hl. specialize (Hl t eq_refl). unfold recoveryCooldown, minute, second in *. lia.
  - intros i1 i2 i3 i4 t1 t2 t3 t4 H12 H34 Hk A1 A2 A3 A4.
    assert (Hsub : ∀ a b, i1 ≤ a → b ≤ i4 → kept ops h id a b) by (intros a b ? ? k ?; apply Hk; lia).
    destruct (attempt_recorded _ _ _ i1 i2 _ A1) as (n2 & ? & E2 & _ & Hn2); [lia|apply Hsub; lia|].
    destruct (attempt_recorded _ _ _ i2 i3 _ A2) as (n3 & ? & E3 & _ & Hn3); [lia|apply Hsub; lia|].
    destruct (attempt_recorded _ _ _ i3 i4 _ A3) as (n4 & ? & E4 & _ & Hn4); [lia|apply Hsub; lia|].
    apply reply_at_Some in A4 as (o & _ & A4). destruct (hstep_attempt _ _ _ _ A4) as (Hb & _ & _).
    pose proof (attempts_nonneg ops h id i1 Hm) as H0.
    rewrite E4 in Hb. rewrite E3 in Hn4. rewrite E2 in Hn3.
    generalize dependent (default 0 (record_of id (state_at hstep ops h i1)).1)%Z. cbn in *. intros a **. lia.
Qed.
End Budget.

(** ** Witnesses *)
Definition demo_hworld (status : string) : HWorld :=
  mkHWorld NewHealthMonitor
    (with_backends (with_sdb demo_world (healthy {["s1" := mkServer "s1" "demo" "Demo" "remote" "not json" status "" "unknown" None "" false 0 0]}))
       {["s1" := StdioBridge "c"]}) [].

Definition demo_remote : Server := mkServer "s1" "demo" "Demo" "remote" "not json" "error" "" "unknown" None "" false 0 0.

Lemma error_after_three_failures_witness :
  monitored "s1" "error" (foldl (round demo_remote) (demo_hworld "running") [(1%Z, Err "x"); (2%Z, Ok None); (3%Z, Err "y")]).
Proof.
  apply (proj1 (error_after_three_failures demo_remote (demo_hworld "running") [(1%Z, Err "x"); (2%Z, Ok None); (3%Z, Err "y")]
    ltac:(split; [eexists; split; reflexivity|split; [reflexivity|eexists; reflexivity]]) eq_refl)).
  exists [], []. reflexivity.
Defined.

Definition demo_attempts : list hop := [HTry (demo_env true 0) demo_remote; HTry (demo_env true (5 * minute)) demo_remote].

Lemma recovery_is_bounded_witness : (0 + recoveryCooldown ≤ 5 * minute)%Z.
Proof.
  apply (proj1 (recovery_is_bounded (mkEncryptor None) demo_attempts (demo_hworld "error") "s1" eq_refl) 0 1).
  - lia.
  - intros [|[|k]] Hk; [lia|eexists; vm_compute; reflexivity|lia].
  - vm_compute. reflexivity.
  - vm_compute. reflexivity.
Defined.
