(* ===== verification/RateLimit.v ===== *)
(** * The token bucket of the proxy route

    [src/internal/server/ratelimit.go].  The code keeps the tokens of a bucket as a float64
    and the elapsed time in seconds; here they are exact: tokens are counted in billionths,
    so one nanosecond at [rate] requests per second adds exactly [rate] of them.  Rounding
    of float64 is not modelled. *)
From S2P Require Import Prelude.

Record rateBucket := mkBucket { tokens : Z; lastFill : Z }.

Record RateLimiter := mkLimiter { buckets : gmap string rateBucket; rate : Z; burst : Z }.

Definition one_token : Z := second.

Definition NewRateLimiter (rate burst : Z) : RateLimiter := mkLimiter ∅ rate burst.

Definition with_buckets (rl : RateLimiter) (m : gmap string rateBucket) : RateLimiter := mkLimiter m (rate rl) (burst rl).

(** The tokens of the user's bucket after the refill; a missing bucket starts full. *)
Definition refilled (now : Z) (key : string) (rl : RateLimiter) : Z :=
  let full := (burst rl * one_token)%Z in
  let b := default (mkBucket full now) (buckets rl !! key) in
  let elapsed := (now - lastFill b)%Z in
  let t := (tokens b + elapsed * rate rl)%Z in
  if (full <? t)%Z then full else t.

Definition allow (now : Z) (key : string) (rl : RateLimiter) : bool * RateLimiter :=
  let t := refilled now key rl in
  if (t <? one_token)%Z then (false, with_buckets rl (<[key := mkBucket t now]> (buckets rl)))
  else (true, with_buckets rl (<[key := mkBucket (t - one_token) now]> (buckets rl))).

(** One tick of the cleanup goroutine. *)
Definition cleanup (now : Z) (rl : RateLimiter) : RateLimiter :=
  with_buckets rl (filter (λ '(_, b), ¬ (lastFill b < now - 10 * minute))%Z (buckets rl)).

(** [Middleware]: a request without a user is not limited; [next] is the protected handler. *)
Definition Middleware {W R} (get : W → RateLimiter) (put : RateLimiter → W → W) (tooMany : R)
    (now : Z) (userID : option string) (next : W → R * W) (w : W) : R * W :=
  match userID with
  | None => next w
  | Some id => let '(ok, rl) := allow now id (get w) in
               let w := put rl w in
               if ok then next w else (tooMany, w)
  end.

(** ** Operations in sequence *)
Inductive op :=
| Allow (now : Z) (key : string)
| Cleanup (now : Z).

Definition time_of (o : op) : Z := match o with Allow t _ | Cleanup t => t end.

Definition step (o : op) (rl : RateLimiter) : bool * RateLimiter :=
  match o with
  | Allow t key => allow t key rl
  | Cleanup t => (false, cleanup t rl)
  end.

(** How many requests of [key] a run admits, and the state it leaves. *)
Fixpoint admitted (key : string) (ops : list op) (rl : RateLimiter) : Z * RateLimiter :=
  match ops with
  | [] => (0%Z, rl)
  | o :: r =>
      let '(ok, rl) := step o rl in
      let '(n, rl) := admitted key r rl in
      let mine := match o with Allow _ k => ok && String.eqb k key | Cleanup _ => false end in
      ((if mine then n + 1 else n)%Z, rl)
  end.

(** ** The bound *)

(** The tokens a request of [key] would find at time [t]. *)
Definition available (key : string) (t : Z) (rl : RateLimiter) : Z :=
  match buckets rl !! key with
  | Some b => Z.min (burst rl * one_token) (tokens b + (t - lastFill b) * rate rl)
  | None => burst rl * one_token
  end%Z.

(** Buckets are filled in the past and never in debt; an idle bucket refills before it is
    forgotten. *)
Definition sane (now : Z) (rl : RateLimiter) : Prop :=
  (0 ≤ rate rl)%Z ∧ (0 ≤ burst rl ≤ 600 * rate rl)%Z ∧
  ∀ key b, buckets rl !! key = Some b → (0 ≤ tokens b)%Z ∧ (lastFill b ≤ now)%Z.

Lemma available_later key t t' rl : sane t rl → (t ≤ t')%Z →
  (available key t' rl ≤ available key t rl + rate rl * (t' - t))%Z.
Proof.
  intros (Hr & _ & _) Ht. unfold available. destruct (buckets rl !! key) as [b|]; nia.
Qed.

Lemma sane_later t t' rl : sane t rl → (t ≤ t')%Z → sane t' rl.
Proof. intros (Hr & Hb & H) Ht. split_and!; [lia..|]. intros k b Hk. destruct (H k b Hk). lia. Qed.

Lemma refilled_available t key rl : refilled t key rl = available key t rl.
Proof.
  unfold refilled, available. destruct (buckets rl !! key) as [b|]; cbn; case_if; bool_prop; lia.
Qed.

Lemma available_range t key rl : sane t rl → (0 ≤ available key t rl ≤ burst rl * one_token)%Z.
Proof.
  intros (Hr & Hb & H). unfold available. destruct (buckets rl !! key) as [b|] eqn:E; [destruct (H key b E)|];
    unfold one_token, second; nia.
Qed.

Lemma allow_sane t key rl : sane t rl → sane t (allow t key rl).2 ∧
  rate (allow t key rl).2 = rate rl ∧ burst (allow t key rl).2 = burst rl.
Proof.
  intros Hs. unfold allow. cbv zeta. rewrite refilled_available.
  pose proof (available_range t key rl Hs) as Hx. destruct Hs as (Hr & Hb & H).
  destruct (available key t rl <? one_token)%Z eqn:Ex; unfold sane; cbn; (split; [|done]); (split; [done|split; [done|]]);
    intros k c Hc; apply lookup_insert_Some in Hc as [[-> <-]|[_ Hc]]; cbn; [lia|by apply (H k)|bool_prop; lia|by apply (H k)].
Qed.

Lemma cleanup_sane t rl : sane t rl → sane t (cleanup t rl).
Proof.
  intros (Hr & Hb & H). split; [done|split; [done|]]. cbn. intros k b [Hk _]%map_lookup_filter_Some. by apply (H k).
Qed.

(** An admitted request pays one token, a refused one nothing. *)
Lemma allow_available t key k rl : sane t rl →
  available k t (allow t key rl).2 = (available k t rl - (if (allow t key rl).1 && String.eqb key k then one_token else 0))%Z.
Proof.
  intros Hs. unfold allow. cbv zeta. rewrite refilled_available. pose proof (available_range t key rl Hs) as Hx.
  destruct (key =?s k) eqn:Ek; bool_prop; [subst k|].
  - destruct (available key t rl <? one_token)%Z eqn:E; bool_prop; unfold available at 1; cbn; rewrite lookup_insert_eq; cbn;
      rewrite Z.sub_diag; unfold one_token, second in *; lia.
  - rewrite andb_false_r. destruct (_ <? one_token)%Z; unfold available; cbn; rewrite lookup_insert_ne by done; cbn; lia.
Qed.

Lemma cleanup_available t k rl : sane t rl → available k t (cleanup t rl) = available k t rl.
Proof.
  intros (Hr & Hb & H). unfold available, cleanup. cbn.
  destruct (buckets rl !! k) as [b|] eqn:E.
  - destruct (decide (lastFill b < t - 10 * minute)%Z) as [Hold|Hnew].
    + assert (Hn : filter (λ '(_, b), ¬ (lastFill b < t - 10 * minute))%Z (buckets rl) !! k = None).
      { apply map_lookup_filter_None. right. intros x Hx. rewrite E in Hx. injection Hx as <-. by intros Hf. }
      rewrite Hn. destruct (H k b E). unfold one_token, minute, second in *. nia.
    + assert (Hs : filter (λ '(_, b), ¬ (lastFill b < t - 10 * minute))%Z (buckets rl) !! k = Some b) by (by apply map_lookup_filter_Some).
      by rewrite Hs.
  - assert (Hn : filter (λ '(_, b), ¬ (lastFill b < t - 10 * minute))%Z (buckets rl) !! k = None).
    { apply map_lookup_filter_None. by left. }
    by rewrite Hn.
Qed.

Lemma step_sane o rl : sane (time_of o) rl →
  sane (time_of o) (step o rl).2 ∧ rate (step o rl).2 = rate rl ∧ burst (step o rl).2 = burst rl.
Proof. destruct o as [t k|t]; cbn; [apply allow_sane|]. intros H. split; [by apply cleanup_sane|done]. Qed.

Lemma admitted_bound key ops : ∀ now rl,
  sane now rl → Forall (λ o, now ≤ time_of o)%Z ops → StronglySorted (λ a b, time_of a ≤ time_of b)%Z ops →
  ∀ stop, (now ≤ stop)%Z → Forall (λ o, time_of o ≤ stop)%Z ops →
  ((admitted key ops rl).1 * one_token + available key stop (admitted key ops rl).2
   ≤ available key now rl + rate rl * (stop - now))%Z ∧ sane stop (admitted key ops rl).2.
Proof.
  induction ops as [|o ops IH]; intros now rl Hs Hnow Hsort stop Hle Hstop; cbn [admitted].
  { cbn. split; [by apply available_later|by eapply sane_later]. }
  apply Forall_cons in Hnow as [Ho Hnow]. apply StronglySorted_inv in Hsort as [Hsort Hall].
  apply Forall_cons in Hstop as [Hst Hstop].
  assert (Hs1 : sane (time_of o) rl) by (by eapply sane_later).
  destruct (step_sane o rl Hs1) as (Hs2 & Hr2 & Hb2).
  pose proof (available_later key now (time_of o) rl Hs Ho) as Hlater.
  assert (Hpay : available key (time_of o) (step o rl).2 =
    (available key (time_of o) rl - (if match o with Allow _ k => (step o rl).1 && String.eqb k key | Cleanup _ => false end then one_token else 0))%Z).
  { destruct o as [t k|t]; cbn [time_of step snd fst] in *; [by apply allow_available|]. rewrite cleanup_available by done. lia. }
  destruct (step o rl) as [ok rl1]. cbn [fst snd] in *.
  destruct (IH (time_of o) rl1 Hs2 Hall Hsort stop Hst Hstop) as [Hb Hsane].
  destruct (admitted key ops rl1) as [n rl2]. cbn [fst snd] in *. split; [|done]. rewrite Hr2 in Hb.
  destruct (match o with Allow _ k => ok && String.eqb k key | Cleanup _ => false end); nia.
Qed.

(** in any stretch of time that begins at [now] and ends at [stop], with
    any requests and cleanups in between, a user is admitted at most [burst] times plus
    [rate] times per second; forgetting idle buckets does not widen the bound. *)
Theorem bucket_bounds_requests : ∀ key ops now stop rl,
  sane now rl → Forall (λ o, now ≤ time_of o ≤ stop)%Z ops → StronglySorted (λ a b, time_of a ≤ time_of b)%Z ops →
  (now ≤ stop)%Z → ((admitted key ops rl).1 * second ≤ burst rl * second + rate rl * (stop - now))%Z.
Proof.
  intros key ops now stop rl Hs Hb Hsort Hle.
  destruct (admitted_bound key ops now rl Hs) with (stop := stop) as [H Hs'];
    [by eapply Forall_impl; [exact Hb|]; cbn; intros o [? ?]|done|done|by eapply Forall_impl; [exact Hb|]; cbn; intros o [? ?]|].
  pose proof (available_range stop key _ Hs') as Ha. pose proof (available_range now key _ Hs) as Hmax.
  unfold one_token in *. lia.
Qed.

Lemma bucket_bounds_requests_witness :
  (admitted "u" (replicate 5 (Allow 0 "u") ++ [Cleanup (700 * second); Allow (700 * second) "u"]) (NewRateLimiter 1 3)).1 = 4%Z ∧
  (4 * second ≤ 3 * second + 1 * (700 * second - 0))%Z.
Proof.
  split; [vm_compute; reflexivity|].
  apply (bucket_bounds_requests "u" (replicate 5 (Allow 0 "u") ++ [Cleanup (700 * second); Allow (700 * second) "u"])
           0 (700 * second) (NewRateLimiter 1 3)).
  - split; [vm_compute; discriminate|split; [split; vm_compute; discriminate|]]. intros k b Hk. change (buckets (NewRateLimiter 1 3)) with (∅ : gmap string rateBucket) in Hk.
    by rewrite lookup_empty in Hk.
  - repeat constructor; vm_compute; discriminate.
  - repeat constructor; vm_compute; discriminate.
  - vm_compute. discriminate.
Defined.
