(* ===== verification/ServerApi.v ===== *)
(** * The server management API

    The [/api/servers] endpoints of [src/internal/server/http.go]: the dispatch of
    [handleServerByID] with its guards, the handlers behind it, and the background
    optimization job of [runOptimize].  The authenticated user comes from the bearer
    middleware ([WebAuth]); the fields of a reply are kept, its text is not. *)
From S2P Require Import Prelude GoStrings Json JsonDecode AccessTiers Base64 Crypto Profiles Users Servers WebAuth Mcp.
From S2P Require Import ToolOptimize Enumerate Middleware Optimizer Proxy ServerManager HealthMonitor Runs.

(** ** Replies *)
Record ToolAudit := mkAudit {
  aServerID : string; aServerName : string; aToolCount : nat; aOriginalChars : nat; aOptimizedChars : Z;
  aEstTokens : nat; aSavings : option (Z * Z);   (* hundredths: numerator and denominator *)
  aToolsHash : string; aHasOptimized : bool; aIsStale : bool; aStatus : string; aTools : list ToolStat }.

Inductive ApiReply :=
| AError (code : Z) (msg : string)
| AServer (code : Z) (srv : Server)
| AStatus (status : string)
| ANoContent
| AEndpoints (e : ServerEndpoints)
| AHealth (status health : string) (checkedAt : Z) (healthError : string)
| AAudit (a : ToolAudit)
| AEnabled (enabled : bool).

(** ** State *)

(** An optimization running in the background. *)
Record OptJob := mkJob { jServerID : string; jTools : list ToolOptimize.Tool; jHash : string; jTotal : nat }.

Record ApiWorld := mkApi { idb : Db Users.State; hw : HWorld; jobs : list OptJob }.

Definition with_idb (w : ApiWorld) d := mkApi d (hw w) (jobs w).
Definition with_hw (w : ApiWorld) h := mkApi (idb w) h (jobs w).
Definition with_jobs (w : ApiWorld) j := mkApi (idb w) (hw w) j.
Definition manager (w : ApiWorld) : World := mgr (hw w).
Definition with_manager (w : ApiWorld) (m : World) : ApiWorld := with_hw w (with_mgr (hw w) m).
Definition with_servers (w : ApiWorld) (d : Db Servers.State) : ApiWorld := with_manager w (with_sdb (manager w) d).
Definition with_opts (w : ApiWorld) (d : Db Optimizer.Tables) : ApiWorld := with_manager w (with_odb (manager w) d).

Definition ApiHandler : Type := ApiWorld → ApiReply * ApiWorld.

Definition fail (code : Z) (msg : string) : ApiHandler := λ w, (AError code msg, w).

(** A guard that writes its own reply. *)
Definition guard (g : option Reply) (k : ApiHandler) : ApiHandler := λ w,
  match g with
  | Some (RStatus code msg) => (AError code msg, w)
  | Some _ => (AError 500 "", w)
  | None => k w
  end.

Definition get_server (crypto : ConfigEncryptor) (id : string) (w : ApiWorld) : result (option Server) * ApiWorld :=
  let '(r, d) := Servers.Get crypto id (sdb (manager w)) in (r, with_servers w d).

(** ** Decoding a server *)
Section Decode.
(** [time.Time.UnmarshalJSON] *)
Context (parseTime : string → option Z).

(** A time field: [null] leaves it, a string must parse, anything else fails. *)
Fixpoint decode_time_field (name : string) (l : list (string * json)) (cur : Z) : option Z :=
  match l with
  | [] => Some cur
  | (k, v) :: r =>
      if EqualFold k name then
        match v with
        | JStr s => t ← parseTime s; decode_time_field name r t
        | JNull => decode_time_field name r cur
        | _ => None
        end
      else decode_time_field name r cur
  end.

Fixpoint decode_time_ptr (name : string) (l : list (string * json)) (cur : option Z) : option (option Z) :=
  match l with
  | [] => Some cur
  | (k, v) :: r =>
      if EqualFold k name then
        match v with
        | JStr s => t ← parseTime s; decode_time_ptr name r (Some t)
        | JNull => decode_time_ptr name r None
        | _ => None
        end
      else decode_time_ptr name r cur
  end.

(** The configuration is raw. *)
Definition decode_server (body : string) : option Server :=
  l ← body_fields body;
  let raw := match raw_object body with Some members => raw_field "config" members "" | None => "" end in
  i ← decode_string_field "id" l ""; n ← decode_string_field "name" l ""; d ← decode_string_field "display_name" l "";
  t ← decode_string_field "server_type" l ""; s ← decode_string_field "status" l "";
  e ← decode_string_field "error_msg" l ""; h ← decode_string_field "health" l "";
  hc ← decode_time_ptr "health_check_at" l None; he ← decode_string_field "health_error" l "";
  o ← decode_bool_field "optimize_enabled" l false;
  c ← decode_time_field "created_at" l 0%Z; u ← decode_time_field "updated_at" l 0%Z;
  Some (mkServer i n d t raw s e h hc he o c u).
End Decode.

(** ** Handlers *)
Section Api.
Context `{Hashing} (deps : Deps) (crypto : ConfigEncryptor) (parseTime : string → option Z).
(** The environment of the call: Docker and the clock, the backend, fresh ids, the model. *)
Context (env : Env) (send : Mcp.Request → result Response) (ping : result (option Response)).
Context (uuid : string) (gen : result string) (llmAvailable : bool) (model : string).

Definition createServer (user : option User) (body : string) : ApiHandler :=
  guard (requireAdminAccess user) (λ w,
    match decode_server parseTime body with
    | None => (AError 400 "invalid request body", w)
    | Some srv =>
        if (Servers.Name srv =?s "") || (DisplayName srv =?s "") || (ServerType srv =?s "")
        then (AError 400 "name, display_name, and server_type are required", w)
        else
          let '(existing, d) := Servers.GetByName crypto (Servers.Name srv) (sdb (manager w)) in
          let w := with_servers w d in
          match existing with
          | Ok (Some _) => (AError 409 "server name already exists", w)
          | _ =>
              let '(r, d) := Servers.Create crypto uuid (e_nonce env) (e_now env) srv (sdb (manager w)) in
              let w := with_servers w d in
              match r with
              | Err e => (AError 500 ("failed to create server: " +:+ e), w)
              | Ok created => (AServer 201 created, w)
              end
          end
    end).

Definition getServer (id : string) : ApiHandler := λ w,
  match get_server crypto id w with
  | (Err _, w) => (AError 500 "internal error", w)
  | (Ok None, w) => (AError 404 "server not found", w)
  | (Ok (Some srv), w) => (AServer 200 srv, w)
  end.

Definition with_id (s : Server) (id : string) : Server :=
  mkServer id (Servers.Name s) (DisplayName s) (ServerType s) (Config s) (Status s) (ErrorMsg s) (Health s)
    (HealthCheckAt s) (HealthError s) (OptimizeEnabled s) (CreatedAt s) (UpdatedAt s).

Definition updateServer (user : option User) (body id : string) : ApiHandler :=
  guard (requireWriteAccess user) (λ w,
    match get_server crypto id w with
    | (Ok (Some _), w) =>
        match decode_server parseTime body with
        | None => (AError 400 "invalid request body", w)
        | Some srv =>
            let srv := with_id srv id in
            match ValidateSlug (Servers.Name srv) with
            | Err e => (AError 400 e, w)
            | Ok _ =>
                let '(r, d) := Servers.Update crypto (e_nonce env) (e_now env) srv (sdb (manager w)) in
                let w := with_servers w d in
                match r with
                | Err e => if e =?s ErrSlugConflict then (AError 409 "server slug already exists", w)
                           else (AError 500 "failed to update server", w)
                | Ok _ => (AServer 200 srv, w)
                end
            end
        end
    | (_, w) => (AError 404 "server not found", w)
    end).

Definition deleteServer (user : option User) (id : string) : ApiHandler :=
  guard (requireAdminAccess user) (λ w,
    let w := with_manager w (StopServer (e_docker env) (e_now env) id (manager w)) in
    let '(r, d) := Servers.Delete id (sdb (manager w)) in
    let w := with_servers w d in
    match r with Err _ => (AError 500 "failed to delete server", w) | Ok _ => (ANoContent, w) end).

Definition startServer (user : option User) (method id : string) : ApiHandler :=
  if method !=? "POST" then fail 405 "method not allowed"
  else guard (requireWriteAccess user) (λ w,
    match get_server crypto id w with
    | (Ok (Some srv), w) =>
        match StartServer crypto (e_docker env) (e_git env) (e_tokens env) (e_nonce env) (e_now env) srv (manager w) with
        | (Err e, m) => (AError 500 ("failed to start server: " +:+ e), with_manager w m)
        | (Ok _, m) => (AStatus "started", with_manager w m)
        end
    | (_, w) => (AError 404 "server not found", w)
    end).

Definition stopServer (user : option User) (method id : string) : ApiHandler :=
  if method !=? "POST" then fail 405 "method not allowed"
  else guard (requireWriteAccess user) (λ w,
    (AStatus "stopped", with_manager w (StopServer (e_docker env) (e_now env) id (manager w)))).

Definition enumerateServer (method id : string) : ApiHandler :=
  if method !=? "POST" then fail 405 "method not allowed"
  else λ w,
    match EnumerateServer (e_now env) send id (manager w) with
    | (_, Some e, m) => (AError 500 ("enumeration failed: " +:+ e), with_manager w m)
    | (Some e, None, m) => (AEndpoints e, with_manager w m)
    | (None, None, m) => (AError 500 "", with_manager w m)
    end.

Definition checkServerHealth (method id : string) : ApiHandler :=
  if method !=? "POST" then fail 405 "method not allowed"
  else λ w,
    match get_server crypto id w with
    | (Ok (Some srv), w) =>
        let '(health, err, h) := CheckHealth (e_now env) ping id (hw w) in
        (AHealth (Status srv) health (e_now env) err, with_hw w h)
    | (_, w) => (AError 404 "server not found", w)
    end.

Definition getEndpoints (method id : string) : ApiHandler :=
  if method !=? "GET" then fail 405 "method not allowed"
  else λ w, match cache_get id (Endpoints (manager w)) with
            | None => (AError 404 "no endpoints cached for this server", w)
            | Some e => (AEndpoints e, w)
            end.

Definition hash_tools (tools : list ToolOptimize.Tool) : string := Optimizer.HashTools (map as_value tools).

Definition getToolAudit (method id : string) : ApiHandler :=
  if method !=? "GET" then fail 405 "method not allowed"
  else λ w,
    match get_server crypto id w with
    | (Ok (Some srv), w) =>
        match cache_get id (Endpoints (manager w)) with
        | None => (AAudit (mkAudit id (Servers.Name srv) 0 0 0 0 None "" false false "no_endpoints" []), w)
        | Some e =>
            let '(stats, total) := AuditTools (ETools e) in
            let audit has opt stale status savings :=
              mkAudit id (Servers.Name srv) (length (ETools e)) total opt (total / 4) savings (hash_tools (ETools e))
                has stale status stats in
            let '(r, d) := Optimizer.Get id (odb (manager w)) in
            let w := with_opts w d in
            match r with
            | Ok (Some opt) =>
                if (OptStatus opt =?s "ready") || (OptStatus opt =?s "stale") then
                  (AAudit (audit true (OptimizedChars opt) (OptStatus opt =?s "stale") (OptStatus opt)
                     (if 0 <? total then Some ((Z.of_nat total - OptimizedChars opt) * 100, Z.of_nat total)%Z else None)), w)
                else (AAudit (audit true 0%Z (OptStatus opt =?s "stale") (OptStatus opt) None), w)
            | _ => (AAudit (audit false 0%Z false "none" None), w)
            end
        end
    | (_, w) => (AError 404 "server not found", w)
    end.

Definition running_row (hash : string) (total : nat) : ToolOptimization :=
  mkOpt "" hash (Z.of_nat total) 0 "" "v1.1" model "running" "" 0 0.

(** Mark the optimization as running and start the job. *)
Definition mark_running (id : string) (tools : list ToolOptimize.Tool) : ApiHandler := λ w,
  let hash := hash_tools tools in
  let total := (AuditTools tools).2 in
  let '(r, d) := Optimizer.Upsert gen (e_now env) id (running_row hash total) (odb (manager w)) in
  let w := with_opts w d in
  match r with
  | Err _ => (AError 500 "internal error", w)
  | Ok _ => (AStatus "running", with_jobs w (jobs w ++ [mkJob id tools hash total]))
  end.

Definition runOptimize (method id : string) : ApiHandler :=
  if method !=? "POST" then fail 405 "method not allowed"
  else if negb llmAvailable then fail 503 "LLM client not configured (set ARC_RELAY_LLM_API_KEY)"
  else λ w,
    match get_server crypto id w with
    | (Ok (Some srv), w) =>
        match (e ← cache_get id (Endpoints (manager w)); Some (ETools e)) with
        | None | Some [] => (AError 400 "no tools cached - start and enumerate the server first", w)
        | Some tools =>
            let '(existing, d) := Optimizer.Get id (odb (manager w)) in
            let w := with_opts w d in
            match existing with
            | Ok (Some opt) =>
                if OptStatus opt =?s "running" then (AError 409 "optimization already in progress", w)
                else mark_running id tools w
            | _ => mark_running id tools w
            end
        end
    | (_, w) => (AError 404 "server not found", w)
    end.

(** The goroutine of [runOptimize]; [complete] is the language model. *)
Definition run_job (complete : nat → list ToolOptimize.Tool → result string) (job : OptJob) (w : ApiWorld) : ApiWorld :=
  let id := jServerID job in
  let set_error msg := with_opts w (snd (Optimizer.SetStatus (e_now env) id "error" msg (odb (manager w)))) in
  match OptimizeTools complete llmAvailable (jTools job) with
  | Err e => set_error e
  | Ok optimized =>
      if negb (forallb marshals optimized) then set_error "marshal error: invalid character"
      else
        let optimizedJSON := Marshal (JArr (map (λ t, Optimizer.tool_json (as_value t)) optimized)) in
        let optChars := sum_list_with (λ t, String.length (ToolOptimize.Description t) + String.length (InputSchema t)) optimized in
        with_opts w (snd (Optimizer.Upsert gen (e_now env) id
          (mkOpt "" (jHash job) (Z.of_nat (jTotal job)) (Z.of_nat optChars) optimizedJSON "v1.1" model "ready" "" 0 0)
          (odb (manager w))))
  end.

Definition toggleOptimize (method body id : string) : ApiHandler :=
  if method !=? "POST" then fail 405 "method not allowed"
  else λ w,
    match (l ← body_fields body; decode_bool_field "enabled" l false) with
    | None => (AError 400 "invalid request body", w)
    | Some enabled =>
        let '(r, d) := Servers.SetOptimizeEnabled (e_now env) id enabled (sdb (manager w)) in
        let w := with_servers w d in
        match r with
        | Err _ => (AError 500 "internal error", w)
        | Ok _ => (AEnabled enabled, w)
        end
    end.

(** [canAccessServerAPI] with its reply. *)
Definition when_visible (user : option User) (id : string) (k : ApiHandler) : ApiHandler := λ w,
  let '(r, d) := canAccessServerAPI deps user id (idb w) in
  let w := with_idb w d in
  match r with
  | Ok true => k w
  | _ => (AError 404 "server not found", w)
  end.

Definition admin_action (user : option User) (method body id action : string) : ApiHandler :=
  if action =?s "start" then startServer user method id
  else if action =?s "stop" then stopServer user method id
  else if action =?s "enumerate" then enumerateServer method id
  else if action =?s "optimize" then runOptimize method id
  else toggleOptimize method body id.

Definition handleServerByID (user : option User) (r : WebAuth.Request) : ApiHandler :=
  let parts := Split (TrimPrefix (Path r) "/api/servers/") "/"%char in
  let id := hd "" parts in
  let method := WebAuth.Method r in
  if id =?s "" then fail 400 "missing server id"
  else match parts with
  | _ :: action :: _ =>
      if existsb (String.eqb action) ["start"; "stop"; "enumerate"; "optimize"; "optimize-toggle"] then
        guard (requireAdminAccess user) (admin_action user method (Body r) id action)
      else when_visible user id
        (if action =?s "endpoints" then getEndpoints method id
         else if action =?s "health" then checkServerHealth method id
         else if action =?s "tool-audit" then getToolAudit method id
         else fail 404 "unknown action")
  | _ =>
      if method =?s "GET" then when_visible user id (getServer id)
      else if method =?s "PUT" then guard (requireAdminAccess user) (updateServer user (Body r) id)
      else if method =?s "DELETE" then guard (requireAdminAccess user) (deleteServer user id)
      else fail 405 "method not allowed"
  end.
End Api.

(** ** Who may change what *)

(** Two rows that differ at most in what a health check writes. *)
Definition same_but_health (a b : Server) : Prop :=
  ID a = ID b ∧ Servers.Name a = Servers.Name b ∧ DisplayName a = DisplayName b ∧ ServerType a = ServerType b ∧
  Config a = Config b ∧ Status a = Status b ∧ ErrorMsg a = ErrorMsg b ∧ OptimizeEnabled a = OptimizeEnabled b ∧
  CreatedAt a = CreatedAt b.

Definition rows_same (t t' : Servers.State) : Prop := ∀ id, option_Forall2 same_but_health (t !! id) (t' !! id).

(** Nothing but health changed. *)
Definition read_only (w w' : ApiWorld) : Prop :=
  tables (idb w') = tables (idb w) ∧ jobs w' = jobs w ∧ mon (hw w') = mon (hw w) ∧ recoveries (hw w') = recoveries (hw w) ∧
  backends (manager w') = backends (manager w) ∧ containers (manager w') = containers (manager w) ∧
  live (manager w') = live (manager w) ∧ Endpoints (manager w') = Endpoints (manager w) ∧
  scheduled (manager w') = scheduled (manager w) ∧ tables (adb (manager w')) = tables (adb (manager w)) ∧
  tables (odb (manager w')) = tables (odb (manager w)) ∧ rows_same (tables (sdb (manager w))) (tables (sdb (manager w'))).

Lemma rows_same_refl t : rows_same t t.
Proof. intros id. destruct (t !! id); constructor; by split_and!. Qed.

Lemma rows_same_trans t1 t2 t3 : rows_same t1 t2 → rows_same t2 t3 → rows_same t1 t3.
Proof.
  intros H12 H23 id. specialize (H12 id). specialize (H23 id).
  destruct H12 as [a b Hab|]; inversion H23; subst; constructor. unfold same_but_health in *. intuition congruence.
Qed.

Lemma read_only_refl w : read_only w w.
Proof. split_and!; try done. apply rows_same_refl. Qed.

Lemma read_only_trans w1 w2 w3 : read_only w1 w2 → read_only w2 w3 → read_only w1 w3.
Proof.
  unfold read_only. intros H1 H2. destruct_and!. split_and!; try congruence. by eapply rows_same_trans.
Qed.

Lemma get_server_read_only crypto id w : read_only w (get_server crypto id w).2.
Proof.
  unfold get_server. destruct (Servers.Get crypto id (sdb (manager w))) as [r d] eqn:E. cbn [snd].
  assert (Ht : tables d = tables (sdb (manager w))).
  { unfold Servers.Get, fetch, db_bind in E. pose proof (query_tables (λ m : Servers.State, m !! id) (sdb (manager w))) as Hq.
    destruct (query _ (sdb (manager w))) as [[row|e] d1]; cbn in Hq; [|by simplify_eq].
    destruct row as [s|]; [|unfold db_ret in E; by simplify_eq]. unfold lift_result, db_ret, db_fail in E.
    destruct (decrypt_row crypto s); cbn in E; by simplify_eq. }
  split_and!; try done. cbn. rewrite Ht. apply rows_same_refl.
Qed.

Lemma health_read_only now ping id w r h :
  CheckHealth now ping id (hw w) = (r, h) → read_only w (with_hw w h).
Proof.
  unfold CheckHealth. destruct (backends (mgr (hw w)) !! id) as [b|].
  - assert (Hh : ∀ health msg, read_only w (with_hw w (with_mgr (hw w) (set_health now id health msg (mgr (hw w)))))).
    { intros health msg. split_and!; try done. cbn. unfold UpdateHealth, manager.
      destruct (exec_cases (λ m : Servers.State, if bool_decide (is_Some (m !! id)) && negb (valid_health health)
        then Err "updating server health: CHECK constraint failed: servers"
        else Ok (tt, alter (λ s, mkServer (ID s) (Servers.Name s) (DisplayName s) (ServerType s) (Config s) (Status s)
               (ErrorMsg s) health (Some now) msg (OptimizeEnabled s) (CreatedAt s) now) id m)) (sdb (mgr (hw w))))
        as [(e & _ & ->)|(a & t & E & _ & ->)]; [apply rows_same_refl|]. case_if; simplify_eq.
      intros j. destruct (decide (id = j)) as [->|Hne].
      - rewrite lookup_alter_eq. destruct (tables (sdb (mgr (hw w))) !! j) as [s|]; constructor. by split_and!.
      - rewrite lookup_alter_ne by done. apply rows_same_refl. }
    destruct (pingServer ping); intros [= <- <-]; apply Hh.
  - intros [= <- <-]. destruct w as [i [m w l] j]. apply read_only_refl.
Qed.

Lemma canAccess_tables deps user id d : tables (canAccessServerAPI deps user id d).2 = tables d.
Proof.
  unfold canAccessServerAPI. destruct user as [u|]; [|done]. case_if; [done|]. destruct (if profileStore deps then _ else _); [|done].
  unfold db_bind. rewrite attempt_run. unfold ServerIDsForProfile. rewrite on_profiles_query.
  match goal with |- context [query ?f d] => pose proof (query_tables f d) as Hq; destruct (query f d) as [[a|e] d'] end; done.
Qed.

Lemma visible_read_only deps user id k w :
  (∀ w1, read_only w1 (k w1).2) → read_only w (when_visible deps user id k w).2.
Proof.
  intros Hk. unfold when_visible. pose proof (canAccess_tables deps user id (idb w)) as Ht.
  destruct (canAccessServerAPI deps user id (idb w)) as [r d]. cbn [snd] in Ht.
  assert (Hw : read_only w (with_idb w d)). { split_and!; try done. apply rows_same_refl. }
  destruct r as [[]|e]; [|done..]. by eapply read_only_trans.
Qed.

Lemma guard_refused g k w : is_Some g → (guard g k w).2 = w ∧ ∃ code msg, (guard g k w).1 = AError code msg.
Proof. intros [rep ->]. unfold guard. destruct rep; cbn; eauto. Qed.

Section ApiTheorems.
Context `{Hashing} (deps : Deps) (crypto : ConfigEncryptor) (parseTime : string → option Z).
Context (env : Env) (send : Mcp.Request → result Response) (ping : result (option Response)).
Context (uuid : string) (gen : result string) (llmAvailable : bool) (model : string).

Local Abbreviation handle := (handleServerByID deps crypto parseTime env send ping gen llmAvailable model).

Lemma getServer_read_only id w : read_only w (getServer crypto id w).2.
Proof.
  unfold getServer. pose proof (get_server_read_only crypto id w) as Hg.
  by destruct (get_server crypto id w) as [[[srv|]|e] w1].
Qed.

Lemma health_handler_read_only method id w : read_only w (checkServerHealth crypto env ping method id w).2.
Proof.
  unfold checkServerHealth. case_if; [apply read_only_refl|]. pose proof (get_server_read_only crypto id w) as Hg.
  destruct (get_server crypto id w) as [[[srv|]|e] w1]; [|done..]. cbn [snd] in *.
  destruct (CheckHealth (e_now env) ping id (hw w1)) as [[health err] h] eqn:Eh. cbn [snd].
  eapply read_only_trans; [exact Hg|]. by eapply health_read_only.
Qed.

Lemma audit_read_only method id w : read_only w (getToolAudit crypto method id w).2.
Proof.
  unfold getToolAudit. case_if; [apply read_only_refl|]. pose proof (get_server_read_only crypto id w) as Hg.
  destruct (get_server crypto id w) as [[[srv|]|e] w1]; [|done..]. cbn [snd] in *.
  destruct (cache_get id (Endpoints (manager w1))) as [e|]; [|done]. destruct (AuditTools (ETools e)) as [stats total].
  pose proof (query_tables (λ t : Optimizer.Tables, optimizations t !! id) (odb (manager w1))) as Hq.
  unfold Optimizer.Get. destruct (query _ (odb (manager w1))) as [r d]. cbn [snd] in Hq.
  assert (Hw : read_only w1 (with_opts w1 d)). { split_and!; try done. apply rows_same_refl. }
  eapply read_only_trans; [exact Hg|]. destruct r as [[opt|]|e']; [case_if|..]; exact Hw.
Qed.

(** For a user without admin access the management API changes nothing but the
    result of a health check, creates nothing, and answers anything but an error only
    about a server the user's profile lets it see. *)
Theorem api_needs_admin : ∀ user r body w,
  is_Some (requireAdminAccess user) →
  read_only w (handle user r w).2 ∧
  (createServer crypto parseTime env uuid user body w).2 = w ∧
  ((∃ code msg, (handle user r w).1 = AError code msg) ∨
   (canAccessServerAPI deps user (hd "" (Split (TrimPrefix (Path r) "/api/servers/") "/"%char)) (idb w)).1 = Ok true).
Proof.
  intros user r body w Hg. split; [|split; [by apply guard_refused|]].
  - unfold handleServerByID. cbv zeta. case_if; [apply read_only_refl|].
    destruct (Split _ _) as [|id0 [|action rest]] eqn:Ep.
    1, 2: case_if; [apply visible_read_only; intros; apply getServer_read_only|];
      case_if; [rewrite (proj1 (guard_refused _ _ _ Hg)); apply read_only_refl|];
      case_if; [rewrite (proj1 (guard_refused _ _ _ Hg)); apply read_only_refl|apply read_only_refl].
    case_if; [rewrite (proj1 (guard_refused _ _ _ Hg)); apply read_only_refl|].
    apply visible_read_only. intros w1. case_if; [|case_if; [apply health_handler_read_only|case_if; [apply audit_read_only|apply read_only_refl]]].
    unfold getEndpoints. case_if; [apply read_only_refl|]. destruct (cache_get _ _); apply read_only_refl.
  - assert (Hv : ∀ id k, (∃ code msg, (when_visible deps user id k w).1 = AError code msg) ∨
                        (canAccessServerAPI deps user id (idb w)).1 = Ok true).
    { intros id k. unfold when_visible. destruct (canAccessServerAPI deps user id (idb w)) as [[[]|e] d]; cbn; eauto. }
    unfold handleServerByID. cbv zeta. case_if; [cbn; eauto|].
    destruct (Split _ _) as [|id0 [|action rest]] eqn:Ep; cbn [hd].
    1, 2: case_if; [apply Hv|]; case_if; [left; by apply guard_refused|]; case_if; [left; by apply guard_refused|cbn; eauto].
    case_if; [left; by apply guard_refused|apply Hv].
Qed.

(** starting a server through the API leaves the health
    monitor's record as it is, so a server the monitor has given up on is never recovered
    again after such a restart, however long it runs. *)
Theorem api_restart_keeps_exhausted_budget : ∀ user method id w now,
  (maxRecoverAttempts ≤ default 0 (recoverAttempts (mon (hw w)) !! id))%Z →
  let w' := (startServer crypto env user method id w).2 in
  mon (hw w') = mon (hw w) ∧ may_recover now id (mon (hw w')) = false.
Proof.
  intros user method id w now Hb w'.
  assert (Hm : mon (hw w') = mon (hw w)).
  { subst w'. unfold startServer. case_if; [done|]. unfold guard. destruct (requireWriteAccess user) as [[]|]; try done.
    pose proof (get_server_read_only crypto id w) as (_ & _ & Hmon & _).
    destruct (get_server crypto id w) as [[[srv|]|e] w1]; cbn [snd] in *; [|done..].
    by destruct (StartServer _ _ _ _ _ _ srv (manager w1)) as [[u|e] m]. }
  split; [done|]. rewrite Hm. unfold may_recover. apply andb_false_iff. right.
  apply negb_false_iff, Z.leb_le. exact Hb.
Qed.
End ApiTheorems.

(** ** The life of an optimization *)
Section Optimization.
Context `{Hashing} (crypto : ConfigEncryptor) (env : Env) (gen : result string) (llmAvailable : bool) (model : string).

Definition opt_status (id : string) (w : ApiWorld) : option string :=
  OptStatus <$> optimizations (tables (odb (manager w))) !! id.

(** An update of an existing row on a healthy database. *)
Lemma upsert_existing now id opt old t :
  optimizations t !! id = Some old → valid_opt_status (OptStatus opt) = true → (OptID opt = "" → is_ok gen = true) →
  ∃ row, (Optimizer.Upsert gen now id opt (healthy t)).2 = healthy (Optimizer.with_opts t (<[id := row]> (optimizations t))) ∧
         OptStatus row = OptStatus opt ∧ ToolsHash row = ToolsHash opt ∧ OptimizedTools row = OptimizedTools opt.
Proof.
  intros Hrow Hv Hg. unfold Optimizer.Upsert. destruct (if OptID opt =?s "" then gen else Ok (OptID opt)) as [i|e] eqn:E.
  - rewrite exec_healthy, Hv. cbn [negb]. rewrite Hrow. cbn. eexists. split; [done|]. done.
  - destruct (OptID opt =?s "") eqn:Ei; [|done]. bool_prop. specialize (Hg Ei). by rewrite E in Hg.
Qed.

(** a job whose database works ends as ready for exactly the tools it
    was started for, or as an error; if its last statement fails it stays marked as
    running, and from then on every request to optimize the server is refused and leaves
    the mark where it is. *)
Theorem optimization_ends_or_sticks : ∀ complete job w t old,
  is_ok gen = true → odb (manager w) = healthy t → optimizations t !! jServerID job = Some old →
  OptStatus old = "running" →
  (opt_status (jServerID job) (run_job env gen llmAvailable model complete job w) = Some "ready" ∨
   opt_status (jServerID job) (run_job env gen llmAvailable model complete job w) = Some "error") ∧
  (∀ fs, let w1 := run_job env gen llmAvailable model complete job (with_opts w (mkDb t (true :: fs))) in
     opt_status (jServerID job) w1 = Some "running" ∧
     ∀ fs' method, let w2 := runOptimize crypto env gen llmAvailable model method (jServerID job) (with_opts w1 (mkDb t (false :: fs'))) in
       (∃ code msg, w2.1 = AError code msg) ∧ opt_status (jServerID job) w2.2 = Some "running" ∧ jobs w2.2 = jobs w).
Proof.
  intros complete job w t old Hgen Hdb Hrow Hold. set (id := jServerID job) in *.
  assert (Herr : ∀ msg, opt_status id (with_opts w (Optimizer.SetStatus (e_now env) id "error" msg (odb (manager w))).2) = Some "error").
  { intros msg. unfold opt_status. rewrite Hdb. unfold Optimizer.SetStatus. rewrite exec_healthy. cbn.
    by rewrite lookup_alter_eq, Hrow. }
  split.
  - unfold run_job. fold id. destruct (OptimizeTools complete llmAvailable (jTools job)) as [optimized|e]; [|by right].
    case_if; [by right|]. left. unfold opt_status. rewrite Hdb.
    match goal with |- context [Optimizer.Upsert gen ?n id ?o (healthy t)] =>
      destruct (upsert_existing n id o old t Hrow eq_refl) as (row & E & Hs & _); [done|]; rewrite E end.
    cbn. rewrite lookup_insert_eq. cbn. by rewrite Hs.
  - intros fs w1. assert (Hw1 : tables (odb (manager w1)) = t ∧ jobs w1 = jobs w ∧ sdb (manager w1) = sdb (manager w) ∧ Endpoints (manager w1) = Endpoints (manager w)).
    { subst w1. unfold run_job. destruct (OptimizeTools _ _ _); [|done]. case_if; [done|].
      unfold Optimizer.Upsert. by destruct (if OptID _ =?s "" then gen else _). }
    destruct Hw1 as (Ht1 & Hj1 & _). split; [unfold opt_status; rewrite Ht1; fold id; by rewrite Hrow; cbn; rewrite Hold|].
    intros fs' method w2. subst w2. unfold runOptimize. fold id.
    assert (Hst : ∀ w', tables (odb (manager w')) = t → opt_status id w' = Some "running").
    { intros w' E. unfold opt_status. rewrite E, Hrow. cbn. by rewrite Hold. }
    case_if; [split; [cbn; eauto|split; [by apply Hst|exact Hj1]]|].
    case_if; [split; [cbn; eauto|split; [by apply Hst|exact Hj1]]|].
    set (w3 := with_opts w1 (mkDb t (false :: fs'))).
    assert (H3 : jobs w3 = jobs w ∧ odb (manager w3) = mkDb t (false :: fs')) by done. clearbody w3. destruct H3 as [Hj3 Ho3].
    unfold get_server. destruct (Servers.Get crypto id (sdb (manager w3))) as [[[srv|]|e] d]; cbn [snd fst];
      try (split; [eauto|split; [apply Hst; cbn; by rewrite Ho3|exact Hj3]]).
    destruct (e ← cache_get id (Endpoints (manager (with_servers w3 d))); Some (ETools e)) as [[|tool tools]|];
      try (split; [cbn; eauto|split; [apply Hst; cbn; by rewrite Ho3|exact Hj3]]).
    cbn [manager with_servers with_manager with_hw hw with_mgr mgr with_sdb odb].
    unfold Optimizer.Get. fold (manager w3). rewrite Ho3. unfold query, exec. cbn. rewrite Hrow, Hold.
    cbn. split; [eauto|]. split; [by apply Hst|exact Hj3].
Qed.
End Optimization.

(** ** Witnesses *)
Definition demo_writer : User := mkUser "u1" "writer" "" "user" "write" None false 0 None "".

Definition demo_api : ApiWorld :=
  mkApi (healthy demo) (mkHWorld (mkMonitor ∅ ∅ {["s1" := 3%Z]} ∅) demo_world []) [].

Definition demo_delete : WebAuth.Request :=
  WebAuth.mkRequest "DELETE" "/api/servers/s1" "" "" "" "" "10.0.0.1:9" None ∅ [] "".

Definition demo_deps : Deps := mkDeps true true true true true.

Lemma api_needs_admin_witness :
  read_only demo_api (handleServerByID (H:=toy_hashing) demo_deps (mkEncryptor None) (λ _, Some 0%Z) (demo_env true 1) (λ _, Err "down") (Err "down")
    (Ok "o1") true "m" (Some demo_writer) demo_delete demo_api).2.
Proof.
  apply (api_needs_admin (H:=toy_hashing) demo_deps (mkEncryptor None) (λ _, Some 0%Z) (demo_env true 1) (λ _, Err "down") (Err "down")
    "uuid" (Ok "o1") true "m" (Some demo_writer) demo_delete "" demo_api).
  eexists. reflexivity.
Defined.

Lemma api_restart_keeps_exhausted_budget_witness :
  let w' := (startServer (mkEncryptor None) (demo_env true 1) (Some demo_writer) "POST" "s1" demo_api).2 in
  is_Some (backends (manager w') !! "s1") ∧ may_recover (100 * hour) "s1" (mon (hw w')) = false.
Proof.
  split; [eexists; vm_compute; reflexivity|].
  apply (api_restart_keeps_exhausted_budget (mkEncryptor None) (demo_env true 1) (Some demo_writer) "POST" "s1" demo_api (100 * hour)).
  vm_compute. discriminate.
Defined.

Definition demo_opt_tables : Optimizer.Tables :=
  Optimizer.mkTables {["s1"]} {["s1" := mkOpt "o1" "h" 10 0 "" "v1.1" "m" "running" "" 0 0]}.

Definition demo_job : OptJob := mkJob "s1" ToolOptimize.demo_tools "h" 30.

Lemma optimization_ends_or_sticks_witness :
  opt_status (jServerID demo_job) (run_job (demo_env true 1) (Ok "o2") true "m" demo_complete demo_job
    (with_opts (with_opts demo_api (healthy demo_opt_tables)) (mkDb demo_opt_tables [true]))) = Some "running".
Proof.
  pose proof (proj2 (optimization_ends_or_sticks (H:=toy_hashing) (mkEncryptor None) (demo_env true 1) (Ok "o2") true "m" demo_complete
    demo_job (with_opts demo_api (healthy demo_opt_tables)) demo_opt_tables
    (mkOpt "o1" "h" 10 0 "" "v1.1" "m" "running" "" 0 0) eq_refl eq_refl eq_refl eq_refl) []) as Hw.
  exact (proj1 Hw).
Defined.
