(* ===== verification/GoPath.v ===== *)
(** * Go's [path/filepath] package on Unix

    The functions of [path/filepath] and [unicode/utf8] the modelled code calls:
    [Clean], [Join], [Base], [Match] and [DecodeRuneInString]. *)
From S2P Require Import Prelude GoStrings.

(** ** Lexical paths *)

(** The components of a path after [Clean], on a stack of the components kept so far. *)
Fixpoint clean_comps (rooted : bool) (l : list string) (st : list string) : list string :=
  match l with
  | [] => rev st
  | c :: r =>
      if (c =?s "") || (c =?s ".") then clean_comps rooted r st
      else if c =?s ".." then
        match st with
        | [] => clean_comps rooted r (if rooted then [] else [c])
        | t :: st' => if t =?s ".." then clean_comps rooted r (c :: st) else clean_comps rooted r st'
        end
      else clean_comps rooted r (c :: st)
  end.

Definition IsAbs (p : string) : bool := HasPrefix p "/".

Definition components (p : string) : list string := clean_comps (IsAbs p) (Split p "/"%char) [].

Definition render (rooted : bool) (cs : list string) : string :=
  if rooted then "/" +:+ Join cs "/" else match cs with [] => "." | _ => Join cs "/" end.

(** [filepath.Clean] *)
Definition Clean (p : string) : string := render (IsAbs p) (components p).

(** [filepath.Join]: empty leading elements are ignored. *)
Fixpoint JoinPath (l : list string) : string :=
  match l with
  | [] => ""
  | e :: r => if e =?s "" then JoinPath r else Clean (Join l "/")
  end.

(** [filepath.Base] *)
Definition Base (p : string) : string :=
  if p =?s "" then "." else
  let p := trim_right (Ascii.eqb "/"%char) p in
  let b := List.last (Split p "/"%char) "" in
  if b =?s "" then "/" else b.

(** ** Runes *)

Definition byteN (c : ascii) : N := N_of_ascii c.

Definition cont_byte (c : ascii) : bool := (128 <=? byteN c)%N && (byteN c <? 192)%N.

(** [utf8.DecodeRuneInString] of a non-empty string: the rune and its width.  A
    malformed sequence is the replacement rune of width 1. *)
Definition decode_rune (c : ascii) (s : string) : N * nat :=
  let b := byteN c in
  let bad := (65533%N, 1) in
  let low c := (byteN c mod 64)%N in
  if (b <? 128)%N then (b, 1)
  else if (b <? 194)%N then bad
  else if (b <? 224)%N then
    match s with
    | String c1 _ => if cont_byte c1 then (((b mod 32) * 64 + low c1)%N, 2) else bad
    | _ => bad
    end
  else if (b <? 240)%N then
    match s with
    | String c1 (String c2 _) =>
        let r := ((b mod 16) * 4096 + low c1 * 64 + low c2)%N in
        if cont_byte c1 && cont_byte c2 && (2048 <=? r)%N && negb ((55296 <=? r)%N && (r <? 57344)%N) then (r, 3) else bad
    | _ => bad
    end
  else if (b <? 245)%N then
    match s with
    | String c1 (String c2 (String c3 _)) =>
        let r := ((b mod 8) * 262144 + low c1 * 4096 + low c2 * 64 + low c3)%N in
        if cont_byte c1 && cont_byte c2 && cont_byte c3 && (65536 <=? r)%N && (r <? 1114112)%N then (r, 4) else bad
    | _ => bad
    end
  else bad.

(** ** Glob patterns

    [filepath.Match] with its error dropped: a malformed pattern matches nothing. *)

(** [scanChunk] after the stars: the text up to the next star outside a class. *)
Fixpoint scan_chunk (inrange : bool) (p : string) : string * string :=
  match p with
  | EmptyString => ("", "")
  | String c r =>
      if Ascii.eqb c "\"%char then
        match r with
        | EmptyString => (p, "")
        | String e r' => let '(ch, rest) := scan_chunk inrange r' in (String c (String e ch), rest)
        end
      else if Ascii.eqb c "*"%char && negb inrange then ("", p)
      else
        let inrange := if Ascii.eqb c "["%char then true else if Ascii.eqb c "]"%char then false else inrange in
        let '(ch, rest) := scan_chunk inrange r in (String c ch, rest)
  end.

(** [getEsc]: a possibly escaped rune of a class; something must follow it. *)
Definition getEsc (chunk : string) : option (N * string) :=
  let rune s := match s with
    | EmptyString => None
    | String c r =>
        let '(x, n) := decode_rune c r in
        if (x =? 65533)%N && (n =? 1) then None
        else match drop_str n s with EmptyString => None | rest => Some (x, rest) end
    end in
  match chunk with
  | EmptyString => None
  | String c r =>
      if Ascii.eqb c "-"%char || Ascii.eqb c "]"%char then None
      else if Ascii.eqb c "\"%char then rune r else rune chunk
  end.

(** The ranges of a class: whether [r] is in one of them, and the rest of the chunk.
    Each range takes at least one byte, so [length chunk] fuel is enough. *)
Fixpoint class_ranges (fuel : nat) (r : N) (chunk : string) (first matched : bool) : option (bool * string) :=
  match fuel with
  | O => None
  | S fuel' =>
      match chunk with
      | String c rest =>
          if Ascii.eqb c "]"%char && negb first then Some (matched, rest)
          else
            '(lo, chunk) ← getEsc chunk;
            match chunk with
            | String d rest' =>
                if Ascii.eqb d "-"%char then
                  '(hi, chunk) ← getEsc rest';
                  class_ranges fuel' r chunk false (matched || ((lo <=? r)%N && (r <=? hi)%N))
                else class_ranges fuel' r chunk false (matched || (lo =? r)%N)
            | EmptyString => None
            end
      | EmptyString => None
      end
  end.

(** [matchChunk]: what is left of [s], when the chunk matches a prefix of it.  Each
    step shortens the chunk, so its length is enough fuel. *)
Fixpoint match_chunk (fuel : nat) (chunk s : string) : option string :=
  match fuel with
  | O => match chunk with EmptyString => Some s | _ => None end
  | S fuel' =>
      match chunk, s with
      | EmptyString, _ => Some s
      | String _ _, EmptyString => None
      | String c rest, String a s' =>
          if Ascii.eqb c "["%char then
            let '(r, n) := decode_rune a s' in
            let '(neg, body) := match rest with
              | String "^"%char b => (true, b)
              | _ => (false, rest)
              end in
            '(m, rest) ← class_ranges (S (String.length body)) r body true false;
            if Bool.eqb m neg then None else match_chunk fuel' rest (drop_str n s)
          else if Ascii.eqb c "?"%char then
            if Ascii.eqb a "/"%char then None
            else match_chunk fuel' rest (drop_str (decode_rune a s').2 s)
          else if Ascii.eqb c "\"%char then
            match rest with
            | String e rest' => if Ascii.eqb e a then match_chunk fuel' rest' s' else None
            | EmptyString => None
            end
          else if Ascii.eqb c a then match_chunk fuel' rest s' else None
      end
  end.

Definition matchChunk (chunk s : string) : option string := match_chunk (String.length chunk) chunk s.

(** A star before the chunk: the leftmost place where it matches, without skipping a
    separator; the last chunk must reach the end of the name. *)
Fixpoint star_search (chunk : string) (last : bool) (s : string) : option string :=
  let here := t ← matchChunk chunk s; if last && (t !=? "") then None else Some t in
  match here with
  | Some t => Some t
  | None =>
      match s with
      | EmptyString => None
      | String a s' => if Ascii.eqb a "/"%char then None else star_search chunk last s'
      end
  end.

Definition strip_stars (p : string) : bool * string :=
  (HasPrefix p "*", trim_left (Ascii.eqb "*"%char) p).

Fixpoint match_glob (fuel : nat) (pattern name : string) : bool :=
  match pattern with
  | EmptyString => name =?s ""
  | _ =>
      match fuel with
      | O => false
      | S fuel' =>
          let '(star, p) := strip_stars pattern in
          let '(chunk, rest) := scan_chunk false p in
          if star && (chunk =?s "") then negb (Contains name "/")
          else
            let last := rest =?s "" in
            match (if star then star_search chunk last name
                   else t ← matchChunk chunk name; if last && (t !=? "") then None else Some t) with
            | Some t => match_glob fuel' rest t
            | None => false
            end
      end
  end.

(** [filepath.Match]: every round takes a byte of the pattern. *)
Definition Match (pattern name : string) : bool := match_glob (String.length pattern) pattern name.

Example match_ex :
  map (λ '(p, s), Match p s)
    [("*.log", "a.log"); ("*.log", "d/a.log"); ("a?c", "abc"); ("[a-c]x*", "bxyz"); ("[^a]x", "ax"); ("\*", "*"); ("a[", "a"); ("*b*d", "abcd"); ("", "")]
  = [true; false; true; true; false; true; false; true; true].
Proof. reflexivity. Qed.

Example clean_ex :
  map Clean ["a/./b/../c"; "../a/.."; "/../x"; ""; "a//b/"; "./.."]
  = ["a/c"; ".."; "/x"; "."; "a/b"; ".."].
Proof. reflexivity. Qed.

(** ** Lemmas *)

Lemma Split_nonempty s c : Split s c ≠ [].
Proof. destruct s as [|a s]; simpl; [done|]. case_if; [done|]. by destruct (Split s c). Qed.

Lemma Split_app a b c : Split (a +:+ String c b) c = Split a c ++ Split b c.
Proof.
  induction a as [|x a IH]; [simpl; by rewrite Ascii.eqb_refl|].
  rewrite str_app_cons. simpl. rewrite IH. case_if; [done|].
  destruct (Split a c) as [|y l] eqn:E; [by apply Split_nonempty in E|done].
Qed.

Lemma clean_comps_app rt l1 l2 st : clean_comps rt (l1 ++ l2) st = clean_comps rt l2 (rev (clean_comps rt l1 st)).
Proof.
  revert st. induction l1 as [|c l1 IH]; intros st; simpl; [by rewrite rev_involutive|].
  repeat case_match; apply IH.
Qed.

(** A [..] the stack of a relative path holds is never popped ... *)
Lemma clean_comps_keeps l st : ".." ∈ st → ".." ∈ clean_comps false l st.
Proof.
  revert st. induction l as [|c l IH]; intros st Hin; simpl; [by rewrite list_elem_of_In, <- in_rev, <- list_elem_of_In|].
  case_if; [by apply IH|]. case_if; [|apply IH; by right].
  destruct st as [|t st]; [by apply elem_of_nil in Hin|]. case_if; apply IH; [by right|].
  apply elem_of_cons in Hin as [<-|]; done.
Qed.

(** ... and stands at its bottom. *)
Lemma clean_comps_bottom l st :
  (".." ∈ st → List.last st "" = "..") → ".." ∈ clean_comps false l st → hd "" (clean_comps false l st) = "..".
Proof.
  revert st. induction l as [|c l IH]; intros st Hst; simpl.
  - rewrite list_elem_of_In, <- in_rev, <- list_elem_of_In. intros Hin. rewrite <- (Hst Hin).
    destruct st as [|x st _] using rev_ind; [done|]. by rewrite rev_app_distr, last_last.
  - case_if; [by apply IH|]. destruct (c =?s "..") eqn:E; bool_prop; subst.
    + destruct st as [|t st]; [apply IH; by intros _|]. destruct (t =?s "..") eqn:Et; bool_prop; subst.
      * apply IH. intros _. specialize (Hst (list_elem_of_here _ _)). done.
      * apply IH. intros Hin. destruct st; [by apply elem_of_nil in Hin|]. apply Hst. by right.
    + apply IH. intros [Hc|Hin]%elem_of_cons; [by rewrite <- Hc in E|]. destruct st; [by apply elem_of_nil in Hin|]. by apply Hst.
Qed.

(** A relative path that does not climb is appended to whatever it is joined to. *)
Lemma clean_comps_base rt l u b :
  ".." ∉ u → ".." ∉ clean_comps false l u → clean_comps rt l (u ++ b) = rev b ++ clean_comps false l u.
Proof.
  revert u. induction l as [|c l IH]; intros u Hu; simpl; [by rewrite rev_app_distr|].
  case_if; [by apply IH|]. destruct (c =?s "..") eqn:E; bool_prop; subst.
  - destruct u as [|t u]; [intros Hn; destruct Hn; apply clean_comps_keeps; by left|].
    apply not_elem_of_cons in Hu as [Ht Hu]. cbn [app].
    destruct (t =?s "..") eqn:Et; bool_prop; [by subst|]. by apply IH.
  - rewrite app_comm_cons. apply IH. by apply not_elem_of_cons.
Qed.

(** The [Join] of an absolute directory and a relative path that does not climb. *)
Lemma join_confined dest rel :
  IsAbs dest = true → ".." ∉ clean_comps false (Split rel "/"%char) [] →
  JoinPath [dest; rel] = render true (components dest ++ clean_comps false (Split rel "/"%char) []).
Proof.
  intros Habs Hn. cbn [JoinPath Join]. destruct (dest =?s "") eqn:E; bool_prop; [by subst|].
  assert (Hr : IsAbs (dest +:+ "/" +:+ rel) = true).
  { unfold IsAbs in *. apply HasPrefix_iff in Habs as [r ->]. apply HasPrefix_iff. exists (r +:+ "/" +:+ rel). by rewrite str_app_assoc. }
  unfold Clean, components. rewrite Hr, Habs. cbn [String.append]. change ("/" +:+ rel) with (String "/" rel).
  rewrite Split_app, clean_comps_app. f_equal.
  pose proof (clean_comps_base true (Split rel "/"%char) [] (rev (clean_comps true (Split dest "/"%char) [])) (not_elem_of_nil _) Hn) as Hb.
  cbn [app] in Hb. rewrite Hb. by rewrite rev_involutive.
Qed.
