(* ===== verification/Skills.v ===== *)
(** * The skill store

    [src/internal/store/skills.go] over the tables of migrations 015 and 017: skills,
    their versions, the users they are assigned to, and the git upstream a skill
    tracks with its latest drift report. *)
From S2P Require Import Prelude GoStrings AccessTiers Profiles Users Servers.

(** ** Data *)

(** A row of [skills]; a NULL [latest_version] is the empty string, as every query
    coalesces it and no version is empty. *)
Record Skill := mkSkill {
  skID : string; skSlug : string; skDisplayName : string; skDescription : string; skVisibility : string;
  skLatestVersion : string; skYankedAt : option Z; skCreatedBy : option string; skCreatedAt : Z;
  skUpdatedAt : Z; skOutdated : bool }.

Record SkillVersion := mkVersion {
  svSkillID : string; svVersion : string; svArchivePath : string; svArchiveSize : Z;
  svArchiveSHA256 : string; svManifest : string; svYankedAt : option Z; svUploadedBy : option string;
  svUploadedAt : Z }.

(** A NULL version follows the latest one. *)
Record SkillAssignment := mkAssignment {
  saSkillID : string; saUserID : string; saVersion : option string; saAssignedBy : option string;
  saAssignedAt : Z }.

(** What the checker writes when it finds drift. *)
Record DriftReport := mkDrift {
  drRelayVersion : string; drRelayHash : string; drUpstreamSHA : string; drUpstreamHash : string;
  drCommitsAhead : Z; drSeverity : string; drSummary : string; drRecommendedAction : string;
  drLLMModel : string; drDetectedAt : Z }.

(** The [drift_*] columns are written and cleared together: they are one report or none. *)
Record SkillUpstream := mkUpstream {
  suSkillID : string; suUpstreamType : string; suGitURL : string; suGitSubpath : string; suGitRef : string;
  suLastCheckedAt : option Z; suLastSeenSHA : option string; suLastSeenHash : option string;
  suDrift : option DriftReport; suCreatedAt : Z; suUpdatedAt : Z }.

Record AssignedSkill := mkAssigned { asSkill : Skill; asPinnedVersion : option string }.

Record State := mkState {
  accounts : Users.State;
  skills : gmap string Skill;
  versions : gmap (string * string) SkillVersion;
  assignments : gmap (string * string) SkillAssignment;
  upstreams : gmap string SkillUpstream }.

Definition with_skills (s : State) k : State := mkState (accounts s) k (versions s) (assignments s) (upstreams s).
Definition with_versions (s : State) v : State := mkState (accounts s) (skills s) v (assignments s) (upstreams s).
Definition with_assignments (s : State) a : State := mkState (accounts s) (skills s) (versions s) a (upstreams s).
Definition with_upstreams (s : State) u : State := mkState (accounts s) (skills s) (versions s) (assignments s) u.

Definition on_accounts {A} (m : DBM Users.State A) : DBM State A :=
  lift_db accounts (λ a s, mkState a (skills s) (versions s) (assignments s) (upstreams s)) m.

(** A foreign key to [users] that may be NULL. *)
Definition user_ref (s : State) (u : option string) : bool :=
  match u with None => true | Some id => bool_decide (is_Some (Users.users (accounts s) !! id)) end.

Definition valid_visibility (v : string) : bool := (v =?s "public") || (v =?s "restricted").

Definition valid_severity (v : string) : bool :=
  existsb (String.eqb v) ["cosmetic"; "minor"; "major"; "security"; "unknown"].

(** ** Skills *)

Definition ErrSkillSlugConflict : string := "skill slug already exists".
Definition ErrSkillVersionConflict : string := "skill version already exists".
Definition ErrNoRows : string := "sql: no rows in result set".
Definition fk_failed : string := "FOREIGN KEY constraint failed".

Definition skill_by_slug (slug : string) (s : State) : option Skill :=
  snd <$> List.find (λ '(_, k), skSlug k =?s slug) (map_to_list (skills s)).

(** [uuid] is the fresh id, used when the caller gave none. *)
Definition CreateSkill (uuid : string) (now : Z) (sk : Skill) : DBM State Skill :=
  match ValidateSlug (skSlug sk) with
  | Err e => db_fail e
  | Ok _ =>
      let id := if skID sk =?s "" then uuid else skID sk in
      let vis := if skVisibility sk =?s "" then "restricted" else skVisibility sk in
      if negb (valid_visibility vis) then db_fail ("invalid visibility " +:+ vis)
      else
        let out := mkSkill id (skSlug sk) (skDisplayName sk) (skDescription sk) vis (skLatestVersion sk)
                     (skYankedAt sk) (skCreatedBy sk) now now (skOutdated sk) in
        let row := mkSkill id (skSlug sk) (skDisplayName sk) (skDescription sk) vis "" None (skCreatedBy sk) now now false in
        exec (λ s,
          if bool_decide (is_Some (skills s !! id)) || bool_decide (is_Some (skill_by_slug (skSlug sk) s))
          then Err ErrSkillSlugConflict
          else if negb (user_ref s (skCreatedBy sk)) then Err ("creating skill: " +:+ fk_failed)
          else Ok (out, with_skills s (<[id := row]> (skills s))))
  end.

Definition GetSkill (id : string) : DBM State (option Skill) := query (λ s, skills s !! id).

Definition GetSkillBySlug (slug : string) : DBM State (option Skill) := query (skill_by_slug slug).

Definition slug_leb (a b : Skill) : bool := String.leb (skSlug a) (skSlug b).

Definition ListSkills : DBM State (list Skill) :=
  query (λ s, stable_sort slug_leb (map snd (map_to_list (skills s)))).

Definition update_skill (id : string) (f : Skill → Skill) (s : State) : State := with_skills s (alter f id (skills s)).

Definition set_meta (name desc vis : string) (now : Z) (k : Skill) : Skill :=
  mkSkill (skID k) (skSlug k) name desc (if vis =?s "" then skVisibility k else vis) (skLatestVersion k)
    (skYankedAt k) (skCreatedBy k) (skCreatedAt k) now (skOutdated k).

Definition set_yanked (y : option Z) (now : Z) (k : Skill) : Skill :=
  mkSkill (skID k) (skSlug k) (skDisplayName k) (skDescription k) (skVisibility k) (skLatestVersion k)
    y (skCreatedBy k) (skCreatedAt k) now (skOutdated k).

Definition set_latest (v : string) (now : Z) (k : Skill) : Skill :=
  mkSkill (skID k) (skSlug k) (skDisplayName k) (skDescription k) (skVisibility k) v
    (skYankedAt k) (skCreatedBy k) (skCreatedAt k) now (skOutdated k).

Definition set_outdated (b : bool) (k : Skill) : Skill :=
  mkSkill (skID k) (skSlug k) (skDisplayName k) (skDescription k) (skVisibility k) (skLatestVersion k)
    (skYankedAt k) (skCreatedBy k) (skCreatedAt k) (skUpdatedAt k) b.

Definition UpdateSkillMeta (now : Z) (id displayName description visibility : string) : DBM State unit :=
  if (visibility !=? "") && negb (valid_visibility visibility) then db_fail ("invalid visibility " +:+ visibility)
  else update (update_skill id (set_meta displayName description visibility now)).

Definition YankSkill (now : Z) (id : string) : DBM State unit := update (update_skill id (set_yanked (Some now) now)).

Definition UnyankSkill (now : Z) (id : string) : DBM State unit := update (update_skill id (set_yanked None now)).

(** [ON DELETE CASCADE] removes the versions, the assignments and the upstream. *)
Definition delete_skill (id : string) (s : State) : State :=
  mkState (accounts s) (delete id (skills s))
    (filter (λ '(k, _), k.1 ≠ id) (versions s)) (filter (λ '(k, _), k.1 ≠ id) (assignments s))
    (delete id (upstreams s)).

Definition DeleteSkill (id : string) : DBM State unit := update (delete_skill id).

(** ** Versions *)

Definition insert_version (v : SkillVersion) : DBM State unit :=
  exec (λ s,
    if bool_decide (is_Some (versions s !! (svSkillID v, svVersion v))) then Err ErrSkillVersionConflict
    else if bool_decide (is_Some (skills s !! svSkillID v)) && user_ref s (svUploadedBy v)
    then Ok (tt, with_versions s (<[(svSkillID v, svVersion v) := v]> (versions s)))
    else Err ("inserting skill version: " +:+ fk_failed)).

Definition stamp_version (now : Z) (v : SkillVersion) : SkillVersion :=
  mkVersion (svSkillID v) (svVersion v) (svArchivePath v) (svArchiveSize v) (svArchiveSHA256 v)
    (if svManifest v =?s "" then "{}" else svManifest v) None (svUploadedBy v) now.

(** The version row and the latest pointer change in one transaction. *)
Definition CreateVersion (now : Z) (v : SkillVersion) : DBM State SkillVersion :=
  if svVersion v =?s "" then db_fail "version is required"
  else if svArchivePath v =?s "" then db_fail "archive_path is required"
  else if (svArchiveSize v <=? 0)%Z then db_fail "archive_size must be > 0"
  else if svArchiveSHA256 v =?s "" then db_fail "archive_sha256 is required"
  else
    let row := stamp_version now v in
    transact (insert_version row ;;; update (update_skill (svSkillID v) (set_latest (svVersion v) now))) ;;;
    db_ret row.

Definition GetVersion (skillID version : string) : DBM State (option SkillVersion) :=
  query (λ s, versions s !! (skillID, version)).

Definition ListVersions (skillID : string) : DBM State (list SkillVersion) :=
  query (λ s, stable_sort (λ a b, svUploadedAt b <=? svUploadedAt a)%Z
    (omap (λ '(k, v), if k.1 =?s skillID then Some v else None) (map_to_list (versions s)))).

Definition set_version_yanked (y : option Z) (v : SkillVersion) : SkillVersion :=
  mkVersion (svSkillID v) (svVersion v) (svArchivePath v) (svArchiveSize v) (svArchiveSHA256 v) (svManifest v)
    y (svUploadedBy v) (svUploadedAt v).

(** No row affected is [sql.ErrNoRows]. *)
Definition update_version (f : SkillVersion → SkillVersion) (skillID version : string) : DBM State unit :=
  let! found := exec (λ s, Ok (bool_decide (is_Some (versions s !! (skillID, version))),
                               with_versions s (alter f (skillID, version) (versions s)))) in
  if (found : bool) then db_ret tt else db_fail ErrNoRows.

Definition YankVersion (now : Z) (skillID version : string) : DBM State unit :=
  update_version (set_version_yanked (Some now)) skillID version.

Definition UnyankVersion (skillID version : string) : DBM State unit :=
  update_version (set_version_yanked None) skillID version.

(** ** Assignments *)

Definition AssignSkill (now : Z) (a : SkillAssignment) : DBM State SkillAssignment :=
  if (saSkillID a =?s "") || (saUserID a =?s "") then db_fail "skill_id and user_id are required"
  else
    let row := mkAssignment (saSkillID a) (saUserID a) (saVersion a) (saAssignedBy a) now in
    exec (λ s,
      if bool_decide (is_Some (skills s !! saSkillID a)) && user_ref s (Some (saUserID a)) && user_ref s (saAssignedBy a)
      then Ok (row, with_assignments s (<[(saSkillID a, saUserID a) := row]> (assignments s)))
      else Err ("assigning skill: " +:+ fk_failed)).

Definition UnassignSkill (skillID userID : string) : DBM State unit :=
  update (λ s, with_assignments s (delete (skillID, userID) (assignments s))).

Definition ListAssignmentsForSkill (skillID : string) : DBM State (list SkillAssignment) :=
  query (λ s, stable_sort (λ a b, saAssignedAt a <=? saAssignedAt b)%Z
    (omap (λ '(k, a), if k.1 =?s skillID then Some a else None) (map_to_list (assignments s)))).

(** A skill with the user's assignment joined to it, when the WHERE clause keeps it;
    the query does not select [outdated]. *)
Definition assigned_row (userID : string) (s : State) (k : Skill) : option AssignedSkill :=
  let a := assignments s !! (skID k, userID) in
  if bool_decide (skYankedAt k = None) && ((skVisibility k =?s "public") || bool_decide (is_Some a))
  then Some (mkAssigned (set_outdated false k) (a ← a; saVersion a)) else None.

Definition AssignedForUser (userID : string) : DBM State (list AssignedSkill) :=
  query (λ s, stable_sort (λ a b, slug_leb (asSkill a) (asSkill b))
    (omap (assigned_row userID s) (map snd (map_to_list (skills s))))).

(** ** Upstreams *)

Definition AllowedGitProtocols : list string := ["http"; "https"; "ssh"; "git"; "file"].

Definition ValidateGitURL (raw : string) : result unit :=
  let s := TrimSpace raw in
  if s =?s "" then Err "unsupported git URL: empty"
  else if HasPrefix s "-" then Err "unsupported git URL: must not begin with -"
  else match Index s "://" with
       | Some i =>
           let scheme := ToLower (take_str i s) in
           if existsb (String.eqb scheme) AllowedGitProtocols then Ok tt
           else Err ("unsupported git URL: transport " +:+ scheme +:+ " is not allowed")
       | None =>
           if Contains s "::" then Err "unsupported git URL: transport helpers are not allowed" else Ok tt
       end.

Definition retarget (u : SkillUpstream) (now : Z) (old : SkillUpstream) : SkillUpstream :=
  mkUpstream (suSkillID old) (suUpstreamType u) (suGitURL u) (suGitSubpath u) (suGitRef u) (suLastCheckedAt old)
    (suLastSeenSHA old) (suLastSeenHash old) (suDrift old) (suCreatedAt old) now.

(** On a conflict only the identity of the upstream is replaced: what was seen and the
    drift report stay. *)
Definition UpsertUpstream (now : Z) (u : SkillUpstream) : DBM State unit :=
  let ty := if suUpstreamType u =?s "" then "git" else suUpstreamType u in
  match ValidateGitURL (suGitURL u) with
  | Err e => db_fail e
  | Ok _ =>
      let ref := if suGitRef u =?s "" then "HEAD" else suGitRef u in
      let t := sqliteTime now in
      let row := mkUpstream (suSkillID u) ty (suGitURL u) (suGitSubpath u) ref None None (suLastSeenHash u) None t t in
      exec (λ s,
        if ty !=? "git" then Err "upserting skill upstream: CHECK constraint failed"
        else if negb (bool_decide (is_Some (skills s !! suSkillID u))) then Err ("upserting skill upstream: " +:+ fk_failed)
        else Ok (tt, with_upstreams s (<[suSkillID u := from_option (retarget row t) row (upstreams s !! suSkillID u)]> (upstreams s))))
  end.

Definition GetUpstream (skillID : string) : DBM State (option SkillUpstream) := query (λ s, upstreams s !! skillID).

Definition ClearUpstream (skillID : string) : DBM State unit :=
  transact (update (λ s, with_upstreams s (delete skillID (upstreams s))) ;;;
            update (update_skill skillID (set_outdated false))).

(** Never checked first, then the longest ago, then by skill. *)
Definition check_order (a b : SkillUpstream) : bool :=
  match suLastCheckedAt a, suLastCheckedAt b with
  | None, None => String.leb (suSkillID a) (suSkillID b)
  | None, Some _ => true
  | Some _, None => false
  | Some x, Some y => if (x =? y)%Z then String.leb (suSkillID a) (suSkillID b) else (x <? y)%Z
  end.

Definition ListUpstreams : DBM State (list SkillUpstream) :=
  query (λ s, stable_sort check_order (map snd (map_to_list (upstreams s)))).

Definition seen (sha hash : string) (at_ : Z) (d : option DriftReport) (now : Z) (u : SkillUpstream) : SkillUpstream :=
  mkUpstream (suSkillID u) (suUpstreamType u) (suGitURL u) (suGitSubpath u) (suGitRef u) (Some at_)
    (Some sha) (Some hash) d (suCreatedAt u) (sqliteTime now).

Definition UpdateUpstreamCheck (now : Z) (skillID sha hash : string) (checkedAt : Z) : DBM State unit :=
  update (λ s, with_upstreams s (alter (λ u, seen sha hash checkedAt (suDrift u) now u) skillID (upstreams s))).

(** The report and the [outdated] flag change in one transaction. *)
Definition WriteDriftReport (now : Z) (skillID : string) (r : DriftReport) : DBM State unit :=
  transact (
    exec (λ s, if bool_decide (is_Some (upstreams s !! skillID)) && negb (valid_severity (drSeverity r))
               then Err "writing drift report: CHECK constraint failed"
               else Ok (tt, with_upstreams s (alter (seen (drUpstreamSHA r) (drUpstreamHash r) (drDetectedAt r) (Some r) now)
                                                skillID (upstreams s)))) ;;;
    update (update_skill skillID (set_outdated true))).

Definition drop_drift (hash : string) (now : Z) (u : SkillUpstream) : SkillUpstream :=
  mkUpstream (suSkillID u) (suUpstreamType u) (suGitURL u) (suGitSubpath u) (suGitRef u) (suLastCheckedAt u)
    (suLastSeenSHA u) (Some hash) None (suCreatedAt u) (sqliteTime now).

Definition ClearDriftReport (now : Z) (skillID latestSeenHash : string) : DBM State unit :=
  transact (update (λ s, with_upstreams s (alter (drop_drift latestSeenHash now) skillID (upstreams s))) ;;;
            update (update_skill skillID (set_outdated false))).

(** ** Recent activity

    Newest first, joined to the skill. *)

Definition newest {A} (limit : Z) (at_ : A → Z) (l : list A) : list A :=
  sql_limit limit (stable_sort (λ a b, at_ b <=? at_ a)%Z l).

Record RecentSkillVersionRow := mkRecentVersion {
  rvSkillID : string; rvSlug : string; rvVisibility : string; rvVersion : string; rvUploadedBy : option string;
  rvUploadedAt : Z }.

Definition RecentSkillVersions (limit since : Z) : DBM State (list RecentSkillVersionRow) :=
  query (λ s, newest limit rvUploadedAt
    (omap (λ '(_, v), k ← skills s !! svSkillID v;
       if (since <=? svUploadedAt v)%Z && bool_decide (svYankedAt v = None) && bool_decide (skYankedAt k = None)
       then Some (mkRecentVersion (skID k) (skSlug k) (skVisibility k) (svVersion v) (svUploadedBy v) (svUploadedAt v))
       else None) (map_to_list (versions s)))).

Record RecentSkillYankRow := mkRecentYank { ryID : string; rySlug : string; ryVisibility : string; ryYankedAt : Z }.

Definition RecentSkillYanks (limit since : Z) : DBM State (list RecentSkillYankRow) :=
  query (λ s, newest limit ryYankedAt
    (omap (λ '(_, k), y ← skYankedAt k;
       if (since <=? y)%Z then Some (mkRecentYank (skID k) (skSlug k) (skVisibility k) y) else None)
       (map_to_list (skills s)))).

Record RecentDriftRow := mkRecentDrift {
  rdSkillID : string; rdSlug : string; rdVisibility : string; rdSeverity : option string; rdDriftAt : Z }.

Definition RecentDrift (limit since : Z) : DBM State (list RecentDriftRow) :=
  query (λ s, newest limit rdDriftAt
    (omap (λ '(id, u), k ← skills s !! id; d ← suDrift u;
       if (since <=? drDetectedAt d)%Z
       then Some (mkRecentDrift id (skSlug k) (skVisibility k) (Some (drSeverity d)) (drDetectedAt d)) else None)
       (map_to_list (upstreams s)))).

Record RecentSkillAssignmentRow := mkRecentAssignment {
  raSkillID : string; raSlug : string; raVisibility : string; raUserID : string; raAssignedAt : Z }.

Definition RecentSkillAssignments (limit since : Z) : DBM State (list RecentSkillAssignmentRow) :=
  query (λ s, newest limit raAssignedAt
    (omap (λ '(_, a), k ← skills s !! saSkillID a;
       if (since <=? saAssignedAt a)%Z
       then Some (mkRecentAssignment (skID k) (skSlug k) (skVisibility k) (saUserID a) (saAssignedAt a)) else None)
       (map_to_list (assignments s)))).

(** ** Deleting an account

    What the foreign keys of the skill tables do when a user is deleted. *)
Definition forget (id : string) (r : option string) : option string :=
  if bool_decide (r = Some id) then None else r.

Definition forget_skill (id : string) (k : Skill) : Skill :=
  mkSkill (skID k) (skSlug k) (skDisplayName k) (skDescription k) (skVisibility k) (skLatestVersion k)
    (skYankedAt k) (forget id (skCreatedBy k)) (skCreatedAt k) (skUpdatedAt k) (skOutdated k).

Definition forget_version (id : string) (v : SkillVersion) : SkillVersion :=
  mkVersion (svSkillID v) (svVersion v) (svArchivePath v) (svArchiveSize v) (svArchiveSHA256 v) (svManifest v)
    (svYankedAt v) (forget id (svUploadedBy v)) (svUploadedAt v).

Definition forget_assignment (id : string) (a : SkillAssignment) : SkillAssignment :=
  mkAssignment (saSkillID a) (saUserID a) (saVersion a) (forget id (saAssignedBy a)) (saAssignedAt a).

Definition delete_account (id : string) (s : State) : State :=
  mkState (Users.delete_user id (accounts s)) (forget_skill id <$> skills s) (forget_version id <$> versions s)
    (forget_assignment id <$> filter (λ '(k, _), k.2 ≠ id) (assignments s)) (upstreams s).

(** ** Well-formed tables *)

Definition skill_ok (s : State) (id : string) (k : Skill) : Prop :=
  skID k = id ∧ ValidateSlug (skSlug k) = Ok tt ∧ valid_visibility (skVisibility k) = true ∧
  user_ref s (skCreatedBy k) = true ∧ (skLatestVersion k ≠ "" → is_Some (versions s !! (id, skLatestVersion k))).

Definition version_ok (s : State) (key : string * string) (v : SkillVersion) : Prop :=
  key = (svSkillID v, svVersion v) ∧ is_Some (skills s !! svSkillID v) ∧ svVersion v ≠ "" ∧ svArchivePath v ≠ "" ∧
  (0 < svArchiveSize v)%Z ∧ svArchiveSHA256 v ≠ "" ∧ user_ref s (svUploadedBy v) = true.

Definition assignment_ok (s : State) (key : string * string) (a : SkillAssignment) : Prop :=
  key = (saSkillID a, saUserID a) ∧ is_Some (skills s !! saSkillID a) ∧ user_ref s (Some (saUserID a)) = true ∧
  user_ref s (saAssignedBy a) = true.

Definition upstream_ok (s : State) (id : string) (u : SkillUpstream) : Prop :=
  suSkillID u = id ∧ is_Some (skills s !! id) ∧ suUpstreamType u = "git" ∧ ValidateGitURL (suGitURL u) = Ok tt ∧
  suGitRef u ≠ "" ∧ (∀ d, suDrift u = Some d → valid_severity (drSeverity d) = true).

Definition unique_slugs (m : gmap string Skill) : Prop :=
  ∀ i j k l, m !! i = Some k → m !! j = Some l → skSlug k = skSlug l → i = j.

(** Keys, CHECK constraints, foreign keys, unique slugs, and a latest version that
    exists. *)
Record wf (s : State) : Prop := mkWf {
  wf_skills : map_Forall (skill_ok s) (skills s);
  wf_slugs : unique_slugs (skills s);
  wf_versions : map_Forall (version_ok s) (versions s);
  wf_assignments : map_Forall (assignment_ok s) (assignments s);
  wf_upstreams : map_Forall (upstream_ok s) (upstreams s) }.

(** The operations that change the tables. *)
Inductive Op :=
| OCreateSkill (uuid : string) (now : Z) (sk : Skill)
| OUpdateSkillMeta (now : Z) (id displayName description visibility : string)
| OYankSkill (now : Z) (id : string)
| OUnyankSkill (now : Z) (id : string)
| ODeleteSkill (id : string)
| OCreateVersion (now : Z) (v : SkillVersion)
| OYankVersion (now : Z) (skillID version : string)
| OUnyankVersion (skillID version : string)
| OAssignSkill (now : Z) (a : SkillAssignment)
| OUnassignSkill (skillID userID : string)
| OUpsertUpstream (now : Z) (u : SkillUpstream)
| OClearUpstream (skillID : string)
| OUpdateUpstreamCheck (now : Z) (skillID sha hash : string) (checkedAt : Z)
| OWriteDriftReport (now : Z) (skillID : string) (r : DriftReport)
| OClearDriftReport (now : Z) (skillID hash : string)
| ODeleteAccount (id : string).

Definition run_op (o : Op) : DBM State unit :=
  match o with
  | OCreateSkill uuid now sk => CreateSkill uuid now sk ;;; db_ret tt
  | OUpdateSkillMeta now id n d v => UpdateSkillMeta now id n d v
  | OYankSkill now id => YankSkill now id
  | OUnyankSkill now id => UnyankSkill now id
  | ODeleteSkill id => DeleteSkill id
  | OCreateVersion now v => CreateVersion now v ;;; db_ret tt
  | OYankVersion now k v => YankVersion now k v
  | OUnyankVersion k v => UnyankVersion k v
  | OAssignSkill now a => AssignSkill now a ;;; db_ret tt
  | OUnassignSkill k u => UnassignSkill k u
  | OUpsertUpstream now u => UpsertUpstream now u
  | OClearUpstream k => ClearUpstream k
  | OUpdateUpstreamCheck now k sha h at_ => UpdateUpstreamCheck now k sha h at_
  | OWriteDriftReport now k r => WriteDriftReport now k r
  | OClearDriftReport now k h => ClearDriftReport now k h
  | ODeleteAccount id => update (delete_account id)
  end.

(** What the constraints of one table read of the others only grows. *)
Definition grows (s s' : State) : Prop :=
  accounts s' = accounts s ∧ (∀ id, is_Some (skills s !! id) → is_Some (skills s' !! id)) ∧
  (∀ k, is_Some (versions s !! k) → is_Some (versions s' !! k)).

Lemma skill_ok_grows s s' id k : grows s s' → skill_ok s id k → skill_ok s' id k.
Proof. intros (Ha & Hs & Hv) (? & ? & ? & Hu & Hl). unfold skill_ok, user_ref in *. rewrite Ha. split_and!; auto. Qed.

Lemma version_ok_grows s s' key v : grows s s' → version_ok s key v → version_ok s' key v.
Proof. intros (Ha & Hs & Hv) (? & ? & ? & ? & ? & ? & ?). unfold version_ok, user_ref in *. rewrite Ha. split_and!; auto. Qed.

Lemma assignment_ok_grows s s' key a : grows s s' → assignment_ok s key a → assignment_ok s' key a.
Proof. intros (Ha & Hs & Hv) (? & ? & ? & ?). unfold assignment_ok, user_ref in *. rewrite Ha. split_and!; auto. Qed.

Lemma upstream_ok_grows s s' id u : grows s s' → upstream_ok s id u → upstream_ok s' id u.
Proof. intros (Ha & Hs & Hv) (? & ? & ? & ? & ? & ?). split_and!; auto. Qed.

Lemma grows_refl_by s s' : accounts s' = accounts s → skills s' = skills s → versions s' = versions s → grows s s'.
Proof. intros Ha Hs Hv. split_and!; [done|by rewrite Hs|by rewrite Hv]. Qed.

#[local] Hint Resolve skill_ok_grows version_ok_grows assignment_ok_grows upstream_ok_grows grows_refl_by : relay.

Lemma Forall_grows {K A} `{Countable K} (P Q : K → A → Prop) (m m' : gmap K A) :
  m' = m → (∀ k a, P k a → Q k a) → map_Forall P m → map_Forall Q m'.
Proof. intros -> HPQ HP k a Hk. eauto. Qed.

Lemma Forall_alter {A} {K} `{Countable K} (P Q : K → A → Prop) (f : A → A) (m : gmap K A) i :
  (∀ k a, P k a → Q k a) → (∀ a, m !! i = Some a → P i a → Q i (f a)) → map_Forall P m → map_Forall Q (alter f i m).
Proof.
  intros HPQ Hf HP k a. destruct (decide (i = k)) as [<-|Hne].
  - rewrite lookup_alter_eq. intros (b & Hb & ->)%fmap_Some. eauto.
  - rewrite lookup_alter_ne by done. eauto.
Qed.

Lemma unique_slugs_alter f id m : (∀ k, skSlug (f k) = skSlug k) → unique_slugs m → unique_slugs (alter f id m).
Proof.
  intros Hf Hu i j k l. rewrite !lookup_alter. repeat case_decide; subst; rewrite ?fmap_Some;
    repeat (intros (? & ? & ->) || intros ?); rewrite ?Hf in *; eauto.
Qed.

Lemma alter_is_Some {A} (f : A → A) (m : gmap string A) id j : is_Some (m !! j) → is_Some (alter f id m !! j).
Proof. rewrite lookup_alter. case_decide; [|done]. subst. by rewrite fmap_is_Some. Qed.

(** *** Each kind of change *)

Lemma wf_update_skill id f s :
  (∀ k, skID (f k) = skID k ∧ skSlug (f k) = skSlug k ∧ skCreatedBy (f k) = skCreatedBy k ∧
        (valid_visibility (skVisibility k) = true → valid_visibility (skVisibility (f k)) = true)) →
  (∀ k, skLatestVersion (f k) = skLatestVersion k ∨ is_Some (versions s !! (id, skLatestVersion (f k)))) →
  wf s → wf (update_skill id f s).
Proof.
  intros Hf Hl [Hs Hu Hv Ha Hup].
  assert (Hg : grows s (update_skill id f s)) by (split_and!; [done|intros ?; apply alter_is_Some|done]).
  constructor; cbn.
  - eapply Forall_alter; [eauto with relay| |exact Hs]. intros k _ (<- & ? & ? & ? & Hlat).
    destruct (Hf k) as (Hid & Hsl & Hc & Hvis). split_and!; [done|by rewrite Hsl|auto|by rewrite Hc|].
    destruct (Hl k) as [E|E]; [|by intros _]. rewrite E. auto.
  - apply unique_slugs_alter; [|done]. intros k. by destruct (Hf k) as (_ & -> & _).
  - eapply Forall_grows; [done| |exact Hv]; eauto with relay.
  - eapply Forall_grows; [done| |exact Ha]; eauto with relay.
  - eapply Forall_grows; [done| |exact Hup]; eauto with relay.
Qed.

Lemma wf_with_upstreams m s : map_Forall (upstream_ok s) m → wf s → wf (with_upstreams s m).
Proof.
  intros Hm [Hs Hu Hv Ha Hup]. assert (Hg : grows s (with_upstreams s m)) by eauto with relay.
  constructor; cbn; [|done|..]; (eapply Forall_grows; [done| |eassumption]; eauto with relay).
Qed.

Lemma wf_with_assignments m s : map_Forall (assignment_ok s) m → wf s → wf (with_assignments s m).
Proof.
  intros Hm [Hs Hu Hv Ha Hup]. assert (Hg : grows s (with_assignments s m)) by eauto with relay.
  constructor; cbn; [|done|..]; (eapply Forall_grows; [done| |eassumption]; eauto with relay).
Qed.

Lemma wf_with_versions m s :
  (∀ k, is_Some (versions s !! k) → is_Some (m !! k)) → map_Forall (version_ok s) m → wf s → wf (with_versions s m).
Proof.
  intros Hd Hm [Hs Hu Hv Ha Hup]. assert (Hg : grows s (with_versions s m)) by (split_and!; done).
  constructor; cbn; [|done|..]; (eapply Forall_grows; [done| |eassumption]; eauto with relay).
Qed.

Lemma skill_by_slug_None slug s : skill_by_slug slug s = None ↔ ∀ i k, skills s !! i = Some k → skSlug k ≠ slug.
Proof.
  unfold skill_by_slug. rewrite fmap_None, find_map_None. split; intros H i k Hk; specialize (H i k Hk); by apply String.eqb_neq.
Qed.

Lemma wf_insert_skill id row s :
  skills s !! id = None → skill_by_slug (skSlug row) s = None → skill_ok s id row → wf s →
  wf (with_skills s (<[id := row]> (skills s))).
Proof.
  intros Hn Hsl Hok [Hs Hu Hv Ha Hup].
  assert (Hg : grows s (with_skills s (<[id := row]> (skills s)))).
  { split_and!; [done| |done]. intros j. cbn. rewrite lookup_insert_is_Some'. auto. }
  constructor; cbn.
  - apply map_Forall_insert_2; [eauto with relay|]. eapply Forall_grows; [done| |exact Hs]; eauto with relay.
  - rewrite skill_by_slug_None in Hsl. intros i j k l. rewrite !lookup_insert. repeat case_decide; intros; simplify_eq; try done; eauto;
      exfalso; eapply Hsl; eauto.
  - eapply Forall_grows; [done| |exact Hv]; eauto with relay.
  - eapply Forall_grows; [done| |exact Ha]; eauto with relay.
  - eapply Forall_grows; [done| |exact Hup]; eauto with relay.
Qed.

Lemma wf_delete_skill id s : wf s → wf (delete_skill id s).
Proof.
  intros [Hs Hu Hv Ha Hup].
  assert (Hne : ∀ j, j ≠ id → is_Some (skills s !! j) → is_Some (delete id (skills s) !! j)).
  { intros j Hj. by rewrite lookup_delete_ne by done. }
  constructor; cbn.
  - intros j k [Hj Hk]%lookup_delete_Some. destruct (Hs _ _ Hk) as (? & ? & ? & ? & Hl). split_and!; try done.
    intros Hlat. destruct (Hl Hlat) as [v Hv']. exists v. by apply map_lookup_filter_Some.
  - intros i j k l [_ ?]%lookup_delete_Some [_ ?]%lookup_delete_Some. eauto.
  - intros k v [Hk Hne']%map_lookup_filter_Some. destruct (Hv _ _ Hk) as (-> & ? & ?). destruct_and!. split_and!; try done. by apply Hne.
  - intros k v [Hk Hne']%map_lookup_filter_Some. destruct (Ha _ _ Hk) as (-> & ? & ?). destruct_and!. split_and!; try done. by apply Hne.
  - intros j u [Hj Hk]%lookup_delete_Some. destruct (Hup _ _ Hk) as (? & ? & ?). destruct_and!. split_and!; try done. by apply Hne.
Qed.

Lemma user_ref_forget id s r :
  user_ref s r = true → user_ref (delete_account id s) (forget id r) = true.
Proof.
  unfold forget. case_bool_decide as E; [done|]. destruct r as [u|]; [|done]. cbn. rewrite !bool_decide_eq_true.
  by rewrite lookup_delete_ne by congruence.
Qed.

Lemma wf_delete_account id s : wf s → wf (delete_account id s).
Proof.
  intros [Hs Hu Hv Ha Hup]. constructor; cbn.
  - intros j k. rewrite lookup_fmap. intros (k0 & Hk & ->)%fmap_Some. destruct (Hs _ _ Hk) as (? & ? & ? & ? & Hl).
    split_and!; try done; [by apply user_ref_forget|]. cbn. rewrite lookup_fmap, fmap_is_Some. done.
  - intros i j k l. rewrite !lookup_fmap. intros (? & ? & ->)%fmap_Some (? & ? & ->)%fmap_Some. cbn. eauto.
  - intros key v. rewrite lookup_fmap. intros (v0 & Hk & ->)%fmap_Some. destruct (Hv _ _ Hk) as (? & ? & ? & ? & ? & ? & ?).
    split_and!; try done; [cbn; by rewrite lookup_fmap, fmap_is_Some|by apply user_ref_forget].
  - intros key a. rewrite lookup_fmap. intros (a0 & [Hk Hne]%map_lookup_filter_Some & ->)%fmap_Some.
    destruct (Ha _ _ Hk) as (-> & ? & Hu1 & ?). cbn in Hne.
    split_and!; try done; [cbn; by rewrite lookup_fmap, fmap_is_Some| |by apply user_ref_forget].
    cbn in *. rewrite bool_decide_eq_true in *. by rewrite lookup_delete_ne.
  - intros j u Hk. destruct (Hup _ _ Hk) as (? & ? & ?). destruct_and!. split_and!; try done. cbn. by rewrite lookup_fmap, fmap_is_Some.
Qed.

(** ** Every operation keeps the tables well-formed *)

Lemma CreateSkill_wf uuid now sk : preserves wf (CreateSkill uuid now sk).
Proof.
  unfold CreateSkill. destruct (ValidateSlug (skSlug sk)) as [[]|e] eqn:Hslug; [|apply preserves_fail].
  cbv zeta. generalize (if skID sk =?s "" then uuid else skID sk) as id. intros id.
  generalize (if skVisibility sk =?s "" then "restricted" else skVisibility sk) as vis. intros vis.
  case_if; [apply preserves_fail|]. apply preserves_exec. intros s a s' Hwf. cbv beta.
  repeat case_if; intros [= <- <-]; bool_prop.
  apply wf_insert_skill; [by apply eq_None_not_Some|by apply eq_None_not_Some| |done]. by split_and!.
Qed.

Lemma update_skill_preserves id f :
  (∀ k, skID (f k) = skID k ∧ skSlug (f k) = skSlug k ∧ skCreatedBy (f k) = skCreatedBy k ∧
        (valid_visibility (skVisibility k) = true → valid_visibility (skVisibility (f k)) = true)) →
  (∀ k, skLatestVersion (f k) = skLatestVersion k) → preserves wf (update (update_skill id f)).
Proof. intros Hf Hl. apply preserves_update. intros s. apply wf_update_skill; [done|]. by left. Qed.

Lemma UpdateSkillMeta_wf now id n d v : preserves wf (UpdateSkillMeta now id n d v).
Proof.
  unfold UpdateSkillMeta. destruct (_ && _) eqn:E; [apply preserves_fail|]. apply update_skill_preserves; [|done].
  intros k. split_and!; try done. cbn. destruct (v =?s "") eqn:Ev; [done|]. cbn in E. intros _. by apply negb_false_iff in E.
Qed.

Lemma stamped_ok now v s :
  svVersion v ≠ "" → svArchivePath v ≠ "" → (0 < svArchiveSize v)%Z → svArchiveSHA256 v ≠ "" →
  is_Some (skills s !! svSkillID v) → user_ref s (svUploadedBy v) = true →
  version_ok s (svSkillID v, svVersion v) (stamp_version now v).
Proof. intros. by split_and!. Qed.

Lemma CreateVersion_wf now v : preserves wf (CreateVersion now v).
Proof.
  unfold CreateVersion. repeat (case_if; [apply preserves_fail|]). bool_prop. apply preserves_bind; [|intros; apply preserves_ret].
  intros d Hwf. match goal with |- context [transact ?b d] => destruct (fst (transact b d)) as [[]|e] eqn:E end;
    [|by rewrite (transact_atomic _ _ _ E)].
  destruct (transact_ok _ _ _ E) as (fs & d1 & Hb & ->). apply bind_ok in Hb as ([] & d2 & Hi & Hup).
  apply update_ok in Hup as ->. apply exec_ok in Hi. cbn [tables] in Hi. repeat case_if; simplify_eq. bool_prop.
  match goal with E : with_versions _ _ = tables d2 |- _ => rewrite <- E end. apply wf_update_skill; [by intros k; split_and!| |].
  - intros k. right. cbn. rewrite lookup_insert_eq. eauto.
  - apply wf_with_versions; [intros k; rewrite lookup_insert_is_Some'; auto| |done].
    apply map_Forall_insert_2; [by apply stamped_ok|apply wf_versions; done].
Qed.

Lemma update_version_wf f k v :
  (∀ x, svSkillID (f x) = svSkillID x ∧ svVersion (f x) = svVersion x ∧ svArchivePath (f x) = svArchivePath x ∧
        svArchiveSize (f x) = svArchiveSize x ∧ svArchiveSHA256 (f x) = svArchiveSHA256 x ∧ svUploadedBy (f x) = svUploadedBy x) →
  preserves wf (update_version f k v).
Proof.
  intros Hf. apply preserves_bind; [|intros []; [apply preserves_ret|apply preserves_fail]].
  apply preserves_exec. intros s a s' Hwf [= _ <-]. apply wf_with_versions; [| |done].
  - intros key. rewrite lookup_alter. case_decide; [|done]. subst. by rewrite fmap_is_Some.
  - eapply Forall_alter; [done| |by apply wf_versions]. intros x _ Hx. destruct (Hf x) as (E1 & E2 & E3 & E4 & E5 & E6).
    unfold version_ok in *. by rewrite E1, E2, E3, E4, E5, E6.
Qed.

Lemma AssignSkill_wf now a : preserves wf (AssignSkill now a).
Proof.
  unfold AssignSkill. case_if; [apply preserves_fail|]. apply preserves_exec. intros s r s' Hwf. cbv beta.
  case_if; intros [= <- <-]. bool_prop. apply wf_with_assignments; [|done].
  apply map_Forall_insert_2; [by split_and!|by apply wf_assignments].
Qed.

Lemma upstream_ok_alter f id s :
  (∀ u, upstream_ok s id u → upstream_ok s id (f u)) → wf s → wf (with_upstreams s (alter f id (upstreams s))).
Proof. intros Hf Hwf. apply wf_with_upstreams; [|done]. eapply Forall_alter; [done| |by apply wf_upstreams]. eauto. Qed.

Lemma UpsertUpstream_wf now u : preserves wf (UpsertUpstream now u).
Proof.
  unfold UpsertUpstream. destruct (ValidateGitURL (suGitURL u)) as [[]|e] eqn:Hurl; [|apply preserves_fail].
  cbv zeta. generalize (if suUpstreamType u =?s "" then "git" else suUpstreamType u) as ty. intros ty.
  assert (Href : (if suGitRef u =?s "" then "HEAD" else suGitRef u) ≠ "") by (case_if; bool_prop; done).
  revert Href. generalize (if suGitRef u =?s "" then "HEAD" else suGitRef u) as ref. intros ref Href.
  apply preserves_exec. intros s a s' Hwf. cbv beta. repeat case_if; intros [= <- <-]; bool_prop.
  apply wf_with_upstreams; [|done]. apply map_Forall_insert_2; [|by apply wf_upstreams].
  destruct (upstreams s !! suSkillID u) as [old|] eqn:Eo; cbn;
    [destruct (wf_upstreams _ Hwf _ _ Eo) as (? & ? & ? & ? & ? & ?)|]; by split_and!.
Qed.

Lemma transact_update_skill (P : DBM State unit) id b :
  preserves wf P → preserves wf (transact (P ;;; update (update_skill id (set_outdated b)))).
Proof.
  intros HP. apply preserves_transact, preserves_bind; [done|]. intros _. by apply update_skill_preserves.
Qed.

(** C38: every operation of the skill store keeps the tables
    well-formed, whichever statement fails: keys agree with rows, slugs are valid and
    unique, the visibility, upstream and severity CHECKs and the foreign keys hold, every
    stored upstream URL passes [ValidateGitURL], and a latest version that is set names an
    existing version row.  Deleting an account keeps this too. *)
Theorem store_ops_keep_tables_wf : ∀ o, preserves wf (run_op o).
Proof.
  intros []; cbn; try (apply preserves_bind; [|intros; apply preserves_ret]).
  - apply CreateSkill_wf.
  - apply UpdateSkillMeta_wf.
  - by apply update_skill_preserves.
  - by apply update_skill_preserves.
  - apply preserves_update, wf_delete_skill.
  - apply CreateVersion_wf.
  - apply update_version_wf. by intros; split_and!.
  - apply update_version_wf. by intros; split_and!.
  - apply AssignSkill_wf.
  - apply preserves_update. intros s Hwf. apply wf_with_assignments; [|done]. apply map_Forall_delete, wf_assignments, Hwf.
  - apply UpsertUpstream_wf.
  - apply transact_update_skill, preserves_update. intros s Hwf. apply wf_with_upstreams; [|done].
    apply map_Forall_delete, wf_upstreams, Hwf.
  - apply preserves_update. intros s. apply upstream_ok_alter. by intros u (? & ? & ? & ? & ? & ?); split_and!.
  - apply transact_update_skill, preserves_exec. intros s a s' Hwf. cbv beta. case_if; intros [= <- <-].
    apply wf_with_upstreams; [|done]. eapply Forall_alter; [done| |by apply wf_upstreams].
    intros u Hu. apply andb_false_iff in Heqb as [Hn|Hsev]; bool_prop; [by rewrite Hu in Hn; destruct Hn|]. intros (? & ? & ? & ? & ? & ?). split_and!; try done. by intros d [= <-].
  - apply transact_update_skill, preserves_update. intros s. apply upstream_ok_alter.
    by intros u (? & ? & ? & ? & ? & ?); split_and!.
  - apply preserves_update, wf_delete_account.
Qed.

(** ** The outdated flag *)

Definition drifting (s : State) (id : string) : bool := bool_decide (is_Some (upstreams s !! id ≫= suDrift)).

(** A skill is flagged exactly when a drift report is stored for it. *)
Definition flag_ok (s : State) : Prop := ∀ id k, skills s !! id = Some k → skOutdated k = drifting s id.

Lemma flag_update_skill id f s : (∀ k, skOutdated (f k) = skOutdated k) → flag_ok s → flag_ok (update_skill id f s).
Proof.
  intros Hf Hs j k. cbn. rewrite lookup_alter. case_decide; [|apply Hs]. subst. intros (k0 & Hk & ->)%fmap_Some.
  rewrite Hf. by apply Hs.
Qed.

Lemma flag_same_tables s s' : skills s' = skills s → upstreams s' = upstreams s → flag_ok s → flag_ok s'.
Proof. unfold flag_ok, drifting. by intros -> ->. Qed.

(** Changing the upstream and the flag of one skill together. *)
Lemma flag_both id f g b s :
  (is_Some (partial_alter f id (upstreams s) !! id ≫= suDrift) ↔ b = true) → (∀ k, skOutdated (g k) = b) → flag_ok s →
  flag_ok (update_skill id g (with_upstreams s (partial_alter f id (upstreams s)))).
Proof.
  intros Hd Hg Hs j k. unfold drifting. cbn -[lookup partial_alter]. rewrite lookup_alter. case_decide as E.
  - subst j. intros (k0 & Hk & ->)%fmap_Some. rewrite Hg. destruct b; symmetry.
    + apply bool_decide_eq_true. by apply Hd.
    + apply bool_decide_eq_false. intros H%Hd. done.
  - intros Hk. rewrite lookup_partial_alter_ne by done. by apply Hs.
Qed.

Lemma flag_transact (m : DBM State unit) id b d :
  (∀ fs d1, m (mkDb (tables d) fs) = (Ok tt, d1) → flag_ok (update_skill id (set_outdated b) (tables d1))) →
  flag_ok (tables d) → flag_ok (final (transact (m ;;; update (update_skill id (set_outdated b)))) d).
Proof.
  intros Hm Hd. unfold final. match goal with |- context [transact ?b d] => destruct (fst (transact b d)) as [[]|e] eqn:E end;
    [|by rewrite (transact_atomic _ _ _ E)].
  destruct (transact_ok _ _ _ E) as (fs & d1 & Hb & ->). apply bind_ok in Hb as ([] & d2 & Hi & Hup).
  apply update_ok in Hup as ->. eauto.
Qed.

Lemma CreateVersion_flag now v : preserves flag_ok (CreateVersion now v).
Proof.
  unfold CreateVersion. repeat (case_if; [apply preserves_fail|]). apply preserves_bind; [|intros; apply preserves_ret].
  apply preserves_transact, preserves_bind.
  - apply preserves_exec. intros s a s' Hs. cbv beta. repeat case_if; intros [= <- <-]. by eapply flag_same_tables; [..|exact Hs].
  - intros _. apply preserves_update. intros s. by apply flag_update_skill.
Qed.

(** Operations on one table that the flag does not depend on. *)
Lemma flag_delete_skill id s : flag_ok s → flag_ok (delete_skill id s).
Proof.
  intros Hs j k. cbn. rewrite lookup_delete_Some. intros [Hj Hk]. unfold drifting. cbn. rewrite lookup_delete_ne by done. by apply Hs.
Qed.

Lemma flag_delete_account id s : flag_ok s → flag_ok (delete_account id s).
Proof. intros Hs j k. cbn. rewrite lookup_fmap. intros (k0 & Hk & ->)%fmap_Some. exact (Hs j k0 Hk). Qed.

Lemma CreateSkill_flag uuid now sk d : wf (tables d) → flag_ok (tables d) → flag_ok (final (CreateSkill uuid now sk) d).
Proof.
  intros Hwf Hs. unfold final, CreateSkill. destruct (ValidateSlug (skSlug sk)); [|done]. cbv zeta.
  generalize (if skID sk =?s "" then uuid else skID sk) as id. intros id.
  generalize (if skVisibility sk =?s "" then "restricted" else skVisibility sk) as vis. intros vis. case_if; [done|].
  match goal with |- flag_ok (tables (exec ?f d).2) => destruct (exec_cases f d) as [(e & _ & ->)|(out & t & E & _ & ->)] end; [done|].
  cbv beta in E. repeat case_if; simplify_eq. bool_prop. intros j k. cbn. rewrite lookup_insert. case_decide; [|apply Hs].
  intros [= <-]. subst j. unfold drifting. cbn. symmetry. apply bool_decide_eq_false. destruct (upstreams (tables d) !! id) as [u|] eqn:E; cbn; [|by intros [? [=]]].
  by destruct (wf_upstreams _ Hwf _ _ E) as (_ & ? & _).
Qed.

Lemma UpsertUpstream_flag now u : preserves flag_ok (UpsertUpstream now u).
Proof.
  unfold UpsertUpstream. destruct (ValidateGitURL (suGitURL u)); [|apply preserves_fail]. cbv zeta.
  generalize (if suUpstreamType u =?s "" then "git" else suUpstreamType u) as ty. intros ty.
  generalize (if suGitRef u =?s "" then "HEAD" else suGitRef u) as ref. intros ref.
  apply preserves_exec. intros s r s' Hs. cbv beta. repeat case_if; intros [= <- <-].
  intros j k Hk. unfold drifting. cbn. rewrite lookup_insert. case_decide; [subst j|by apply Hs].
  rewrite (Hs _ _ Hk). unfold drifting. by destruct (upstreams s !! suSkillID u) as [old|].
Qed.

Lemma final_bind_ret {A} (m : DBM State A) d : final (m ;;; db_ret tt) d = final m d.
Proof. unfold final, db_bind. by destruct (m d) as [[]]. Qed.

Lemma flag_update id f d :
  (∀ k, skOutdated (f k) = skOutdated k) → flag_ok (tables d) → flag_ok (final (update (update_skill id f)) d).
Proof. intros Hf. apply preserves_update. intros s. by apply flag_update_skill. Qed.

Lemma update_version_flag f k v : preserves flag_ok (update_version f k v).
Proof.
  apply preserves_bind; [|intros []; [apply preserves_ret|apply preserves_fail]].
  apply preserves_exec. intros s a s' Hs [= _ <-]. by eapply flag_same_tables; [..|exact Hs].
Qed.

(** a skill is flagged outdated exactly when a drift report is
    stored for it; every operation keeps this, whichever statement fails, as long as a
    drift report is only written for a skill that still has an upstream.  Written for a
    skill without one, the report is lost and the flag is raised all the same. *)
Theorem outdated_flag_truthful :
  (∀ o d, wf (tables d) → flag_ok (tables d) →
     match o with OWriteDriftReport _ id _ => is_Some (upstreams (tables d) !! id) | _ => True end →
     flag_ok (final (run_op o) d)) ∧
  (∀ s id k now r, skills s !! id = Some k → upstreams s !! id = None →
     let s' := final (WriteDriftReport now id r) (healthy s) in
     upstreams s' !! id = None ∧ skOutdated <$> skills s' !! id = Some true).
Proof.
  split.
  - intros o d Hwf Hs Ho. destruct o; cbn [run_op]; rewrite ?final_bind_ret.
    + by apply CreateSkill_flag.
    + unfold UpdateSkillMeta. case_if; [done|]. by apply flag_update.
    + by apply flag_update.
    + by apply flag_update.
    + apply (preserves_update flag_ok (delete_skill id)); [|done]. intros t. apply flag_delete_skill.
    + by apply CreateVersion_flag.
    + by apply update_version_flag.
    + by apply update_version_flag.
    + unfold AssignSkill. case_if; [done|]. apply (preserves_exec flag_ok); [|done]. intros t a' t' Ht. cbv beta.
      case_if; intros [= <- <-]. by eapply flag_same_tables; [..|exact Ht].
    + by apply (preserves_update flag_ok).
    + by apply UpsertUpstream_flag.
    + apply flag_transact; [|done]. intros fs d1 ->%update_ok. apply (flag_both skillID (λ _, None) _ false); [|done|done].
      rewrite lookup_partial_alter_eq. split; [by intros [? [=]]|done].
    + apply (preserves_update flag_ok); [|done]. intros t Ht j k Hk. rewrite (Ht j k Hk). unfold drifting. cbn.
      rewrite lookup_alter. case_decide; [subst|done]. by destruct (upstreams t !! j).
    + apply flag_transact; [|done]. intros fs d1 E%exec_ok. cbv beta in E. case_if; simplify_eq. rewrite <- E.
      apply (flag_both skillID _ _ true); [|done|done]. cbn. destruct Ho as [u Hu].
      change (partial_alter _ _ _) with (alter (seen (drUpstreamSHA r) (drUpstreamHash r) (drDetectedAt r) (Some r) now) skillID (upstreams (tables d))).
      rewrite lookup_alter_eq, Hu. done.
    + apply flag_transact; [|done]. intros fs d1 ->%update_ok. apply (flag_both skillID _ _ false); [|done|done]. cbn.
      change (partial_alter _ _ _) with (alter (drop_drift hash now) skillID (upstreams (tables d))).
      rewrite lookup_alter_eq. destruct (upstreams (tables d) !! skillID); cbn; split; [by intros [? [=]]|done|by intros [? [=]]|done].
    + apply (preserves_update flag_ok (delete_account id)); [|done]. intros t. apply flag_delete_account.
  - intros s id k now r Hk Hu. unfold final, WriteDriftReport, transact, db_bind, update, exec.
    cbn -[bool_decide lookup alter]. rewrite Hu. cbn -[lookup alter]. rewrite !lookup_alter_eq, Hu, Hk. done.
Qed.

(** ** Upstream URLs *)

Definition no_colon (c : ascii) : bool := negb (Ascii.eqb c ":"%char).

Lemma first_colon a h x y :
  all_chars no_colon a = true → all_chars no_colon h = true → a +:+ String ":" x = h +:+ String ":" y → a = h ∧ x = y.
Proof.
  revert h. induction a as [|c a IH]; intros [|d h] Ha Hh; rewrite ?str_app_nil_l, ?str_app_cons; cbn in Ha, Hh;
    intros E; simplify_eq; bool_prop; try done.
  edestruct IH as [-> ->]; eauto.
Qed.

Lemma lower_no_colon a : all_chars no_colon (ToLower a) = true → all_chars no_colon a = true.
Proof.
  induction a as [|c a IH]; [done|]. unfold ToLower. cbn. rewrite !andb_true_iff. intros [Hc Ha]. split; [|by apply IH].
  unfold no_colon in *. destruct (Ascii.eqb_spec c ":"); [by subst|done].
Qed.

(** an upstream URL that passes [ValidateGitURL] is,
    once trimmed, not empty, cannot be read as a flag, and either names one of the allowed
    transports or has neither a scheme nor a double colon; so a URL whose first colon
    starts a [::], git's transport-helper syntax, is always refused. *)
Theorem git_url_never_a_transport_helper : ∀ raw,
  ValidateGitURL raw = Ok tt →
  TrimSpace raw ≠ "" ∧ HasPrefix (TrimSpace raw) "-" = false ∧
  ((∃ scheme rest, TrimSpace raw = scheme +:+ "://" +:+ rest ∧ ToLower scheme ∈ AllowedGitProtocols) ∨
   (Contains (TrimSpace raw) "://" = false ∧ Contains (TrimSpace raw) "::" = false)) ∧
  (∀ helper rest, all_chars no_colon helper = true → TrimSpace raw ≠ helper +:+ "::" +:+ rest).
Proof.
  intros raw. unfold ValidateGitURL. set (s := TrimSpace raw). clearbody s.
  destruct (s =?s "") eqn:E0; [done|]. destruct (HasPrefix s "-") eqn:E1; [done|]. bool_prop.
  destruct (Index s "://") as [i|] eqn:Ei.
  - destruct (existsb _ _) eqn:Ex; [|done]. intros _. apply Index_Some in Ei as (a & b & -> & <-). rewrite take_str_app in Ex.
    apply existsb_exists in Ex as (p & Hp%list_elem_of_In & Hpe). bool_prop. split_and!; [done|done|left; exists a, b; by rewrite Hpe|].
    intros h rest Hh E. assert (Ha : all_chars no_colon a = true).
    { apply lower_no_colon. rewrite Hpe. clear -Hp. unfold AllowedGitProtocols in Hp. set_unfold in Hp. by destruct_or?; subst. }
    destruct (first_colon a h _ _ Ha Hh E) as [_ [=]].
  - destruct (Contains s "::") eqn:Ec; [done|]. intros _. split_and!; [done|done|right; split; [|done]; unfold Contains; by rewrite Ei|].
    intros h rest _ ->. rewrite <- not_true_iff_false, Contains_iff in Ec. eauto.
Qed.

Lemma git_url_never_a_transport_helper_witness :
  TrimSpace "git@host:org/repo.git" ≠ "" ∧ HasPrefix (TrimSpace "git@host:org/repo.git") "-" = false ∧
  ((∃ scheme rest, TrimSpace "git@host:org/repo.git" = scheme +:+ "://" +:+ rest ∧ ToLower scheme ∈ AllowedGitProtocols) ∨
   (Contains (TrimSpace "git@host:org/repo.git") "://" = false ∧ Contains (TrimSpace "git@host:org/repo.git") "::" = false)) ∧
  (∀ helper rest, all_chars no_colon helper = true → TrimSpace "git@host:org/repo.git" ≠ helper +:+ "::" +:+ rest).
Proof. apply (git_url_never_a_transport_helper "git@host:org/repo.git"). reflexivity. Defined.

(** ** A concrete store *)
Definition demo_skill : Skill := mkSkill "k1" "pdf" "PDF" "reads PDFs" "restricted" "1.0.0" None (Some "u") 0 0 false.

Definition demo_store : State :=
  mkState Users.demo {["k1" := demo_skill]}
    {[("k1", "1.0.0") := mkVersion "k1" "1.0.0" "pdf/1.0.0.tar.gz" 3 "h" "{}" None (Some "u") 0]}
    ∅ {["k1" := mkUpstream "k1" "git" "https://git.example/skills" "pdf" "HEAD" None None None None 0 0]}.

Definition demo_drift : DriftReport := mkDrift "1.0.0" "h1" "sha" "h2" 3 "minor" "changed" "update" "" 7.

Lemma demo_store_wf : wf demo_store.
Proof.
  assert (Hk : is_Some (skills demo_store !! "k1")) by (eexists; reflexivity).
  constructor; cbn [skills versions assignments upstreams demo_store].
  - apply map_Forall_singleton. split_and!; try reflexivity. intros _. eexists. reflexivity.
  - intros i j k l [<- _]%lookup_singleton_Some [<- _]%lookup_singleton_Some. done.
  - apply map_Forall_singleton. by split_and!.
  - apply map_Forall_empty.
  - apply map_Forall_singleton. by split_and!.
Qed.

Lemma demo_store_flag : flag_ok demo_store.
Proof.
  intros id k. cbn [skills demo_store]. intros [<- <-]%lookup_singleton_Some. reflexivity.
Qed.

Lemma outdated_flag_truthful_witness :
  flag_ok (final (run_op (OWriteDriftReport 9 "k1" demo_drift)) (healthy demo_store)).
Proof.
  apply (proj1 outdated_flag_truthful (OWriteDriftReport 9 "k1" demo_drift) (healthy demo_store)).
  - exact demo_store_wf.
  - exact demo_store_flag.
  - exact (mk_is_Some (upstreams demo_store !! "k1") _ eq_refl).
Defined.
