(* ===== verification/Subhash.v ===== *)
(** * Directory hashes

    [src/internal/skills/subhash/hash.go]: the digest of a directory tree that drift
    detection compares.  A tree is what the file system holds under the root, in the
    order [os.ReadDir] happens to list it. *)
From S2P Require Import Prelude GoStrings GoPath AccessTiers Profiles Users.

(** [NUnreadable] is an entry the process cannot open or list. *)
Inductive Node :=
| NFile (exec : bool) (content : string)
| NLink (target : string)
| NDir (entries : list (string * Node))
| NUnreadable.

Definition nl : string := String "010"%char "".

Definition matchAny (patterns : list string) (relPath : string) : bool :=
  existsb (λ p, Match p relPath || Match p (Base relPath)) patterns.

(** The entries of a directory in name order, each with what it adds to the digest; the
    first error ends the walk. *)
Definition by_name {A} (a b : string * A) : bool := String.leb a.1 b.1.

Fixpoint sequence (l : list (string * result string)) : result string :=
  match l with
  | [] => Ok ""
  | (_, Err e) :: _ => Err e
  | (_, Ok s) :: r => result_map (λ t, s +:+ t) (sequence r)
  end.

Definition record_of (relPath mode content : string) : string :=
  relPath +:+ nl +:+ mode +:+ nl +:+ content +:+ nl.

(** What [walk] writes into the digest for the node at [relPath]. *)
Fixpoint walk (ignored : list string) (relPath : string) (n : Node) : result string :=
  match n with
  | NFile exec content => Ok (record_of relPath (if exec then "100755" else "100644") content)
  | NLink target => Ok (record_of relPath "120000" target)
  | NUnreadable => Err "permission denied"
  | NDir entries =>
      sequence (stable_sort by_name
        (map (λ '(name, child),
           (name,
            if (name =?s ".git") || (name =?s ".DS_Store") then Ok ""
            else if matchAny ignored (JoinPath [relPath; name]) then Ok ""
            else walk ignored (JoinPath [relPath; name]) child)) entries))
  end.

Definition gitignore_line (line : string) : option string :=
  let line := TrimSpace line in
  if (line =?s "") || HasPrefix line "#" then None else Some line.

Section Hash.
Context `{Hashing}.
(** What a symbolic link at the root leads to; [None] when nothing is there. *)
Context (follow : string → option string).

Definition parse_gitignore (b : string) : list string := omap gitignore_line (Split b "010"%char).

Definition loadGitignorePatterns (entries : list (string * Node)) : result (list string) :=
  match List.find (λ '(name, _), name =?s ".gitignore") entries with
  | None => Ok []
  | Some (_, NFile _ b) => Ok (parse_gitignore b)
  | Some (_, NLink t) => Ok (from_option parse_gitignore [] (follow t))
  | Some (_, NDir _) => Err "read .gitignore: is a directory"
  | Some (_, NUnreadable) => Err "open .gitignore: permission denied"
  end.

Definition Hash (entries : list (string * Node)) : result string :=
  result_bind (loadGitignorePatterns entries) (λ ignored,
  result_map sha256_hex (walk ignored "" (NDir entries))).
End Hash.

(** ** The listing order does not matter *)

(** Two trees that list the same entries, at every depth, in some order. *)
Inductive same_tree : Node → Node → Prop :=
| same_refl n : same_tree n n
| same_perm es es' : es ≡ₚ es' → same_tree (NDir es) (NDir es')
| same_child l1 l2 name n n' :
    same_tree n n' → same_tree (NDir (l1 ++ (name, n) :: l2)) (NDir (l1 ++ (name, n') :: l2))
| same_trans n1 n2 n3 : same_tree n1 n2 → same_tree n2 n3 → same_tree n1 n3.

(** A directory has no two entries of one name. *)
Fixpoint distinct_names (n : Node) : Prop :=
  match n with
  | NDir es => NoDup es.*1 ∧ foldr (λ e acc, distinct_names e.2 ∧ acc) True es
  | _ => True
  end.

Lemma distinct_dir es : distinct_names (NDir es) ↔ NoDup es.*1 ∧ Forall (λ e, distinct_names e.2) es.
Proof. cbn. apply and_iff_compat_l. induction es as [|e es IH]; cbn; [by split|]. rewrite Forall_cons, IH. done. Qed.

Lemma same_tree_distinct n n' : same_tree n n' → distinct_names n → distinct_names n'.
Proof.
  induction 1 as [|es es' Hp|l1 l2 name n n' _ IH|]; auto; rewrite !distinct_dir; intros [Hn Hf].
  - split; by rewrite <- Hp.
  - rewrite fmap_app in *. split; [done|]. apply Forall_app in Hf as [? [? ?]%Forall_cons]. apply Forall_app. split; [done|].
    constructor; auto.
Qed.

Lemma unique_key {A} (l : list (string * A)) x a b : NoDup l.*1 → (x, a) ∈ l → (x, b) ∈ l → a = b.
Proof.
  induction l as [|[y c] l IH]; cbn; [by intros _ ?%elem_of_nil|]. intros [Hn Hl]%NoDup_cons.
  assert (Hout : ∀ d, (x, d) ∈ l → x ∈ l.*1) by (intros d Hd; by apply (list_elem_of_fmap_2 fst) in Hd).
  intros [E1|H1]%elem_of_cons [E2|H2]%elem_of_cons; simplify_eq; auto; exfalso; eauto.
Qed.

Lemma by_name_sort_perm {A} (l l' : list (string * A)) :
  NoDup l.*1 → l ≡ₚ l' → stable_sort by_name l = stable_sort by_name l'.
Proof.
  intros Hn Hp. apply (StronglySorted_unique_strong (leb_rel by_name)).
  - intros [x a] [y b]. rewrite !stable_sort_perm. intros Hx Hy%(elem_of_Permutation_proper _ _ _ (symmetry Hp)) H1 H2.
    unfold leb_rel, by_name in H1, H2. cbn in H1, H2. assert (x = y) as -> by (by apply String.leb_antisym).
    f_equal. by eapply unique_key.
  - apply stable_sort_sorted; unfold by_name; intros *; [apply String_leb_total|apply String_leb_trans].
  - apply stable_sort_sorted; unfold by_name; intros *; [apply String_leb_total|apply String_leb_trans].
  - by rewrite !stable_sort_perm.
Qed.

Definition visit (ignored : list string) (rel : string) (e : string * Node) : string * result string :=
  (e.1, if (e.1 =?s ".git") || (e.1 =?s ".DS_Store") then Ok ""
        else if matchAny ignored (JoinPath [rel; e.1]) then Ok "" else walk ignored (JoinPath [rel; e.1]) e.2).

Lemma walk_dir ignored rel es :
  walk ignored rel (NDir es) = sequence (stable_sort by_name (map (visit ignored rel) es)).
Proof. cbn [walk]. do 2 f_equal. apply map_ext. by intros []. Qed.

Lemma visit_keys ignored rel es : (map (visit ignored rel) es).*1 = es.*1.
Proof. induction es as [|e es IH]; cbn; [done|]. by f_equal. Qed.

Lemma walk_same ignored n n' :
  same_tree n n' → distinct_names n → ∀ rel, walk ignored rel n = walk ignored rel n'.
Proof.
  induction 1 as [|es es' Hp|l1 l2 name n n' Hs IH|n1 n2 n3 H1 IH1 H2 IH2]; intros Hd rel; [done|..].
  - rewrite !walk_dir. f_equal. apply by_name_sort_perm; [|by apply Permutation_map].
    rewrite visit_keys. by apply distinct_dir in Hd as [? _].
  - rewrite !walk_dir, !map_app. cbn [map]. unfold visit at 2 5. cbn [fst snd]. rewrite IH; [done|].
    apply distinct_dir in Hd as [_ Hf]. by apply Forall_app in Hf as [_ [? _]%Forall_cons].
  - rewrite IH1 by done. apply IH2. by eapply same_tree_distinct.
Qed.

Lemma same_tree_kind n n' : same_tree n n' → n = n' ∨ ∃ es es', n = NDir es ∧ n' = NDir es'.
Proof. induction 1; eauto. destruct_or!; destruct_and?; naive_solver. Qed.

Lemma find_name_perm x (l l' : list (string * Node)) :
  NoDup l.*1 → l ≡ₚ l' → List.find (λ '(y, _), y =?s x) l = List.find (λ '(y, _), y =?s x) l'.
Proof.
  intros Hn Hp. induction Hp as [|[y n] l l' Hp IH|[y n] [z m] l|l1 l2 l3 H1 IH1 H2 IH2]; cbn in *; [done|..].
  - apply NoDup_cons in Hn as [_ Hn]. by rewrite IH.
  - destruct (y =?s x) eqn:Ey, (z =?s x) eqn:Ez; try done. bool_prop. subst. apply NoDup_cons in Hn as [[] _]. by left.
  - rewrite IH1 by done. apply IH2. by rewrite <- H1.
Qed.

Lemma load_same `{Hashing} follow n n' es es' :
  same_tree n n' → n = NDir es → n' = NDir es' → distinct_names n →
  loadGitignorePatterns follow es = loadGitignorePatterns follow es'.
Proof.
  intros Hs. revert es es'. induction Hs as [n|l l' Hp|l1 l2 name n n' Hs _|n1 n2 n3 H1 IH1 H2 IH2]; intros es es' E E' Hd; simplify_eq.
  - done.
  - apply distinct_dir in Hd as [Hn _]. unfold loadGitignorePatterns. by rewrite (find_name_perm _ _ _ Hn Hp).
  - unfold loadGitignorePatterns. clear Hd. induction l1 as [|[y m] l1 IH]; cbn.
    + destruct (name =?s ".gitignore"); [|done]. by destruct (same_tree_kind _ _ Hs) as [->|(? & ? & -> & ->)].
    + by destruct (y =?s ".gitignore").
  - destruct (same_tree_kind _ _ H1) as [<-|(a & b & ? & ->)]; [by apply IH2|]. simplify_eq.
    rewrite (IH1 _ _ eq_refl eq_refl Hd). apply IH2; [done..|]. by eapply same_tree_distinct.
Qed.

(** the digest of a directory does not depend on the order in
    which the file system lists its entries, at any depth. *)
Theorem hash_ignores_listing_order `{Hashing} follow : ∀ es es',
  same_tree (NDir es) (NDir es') → distinct_names (NDir es) → Hash follow es = Hash follow es'.
Proof.
  intros es es' Hs Hd. unfold Hash. rewrite <- (load_same follow _ _ _ _ Hs eq_refl eq_refl Hd).
  destruct (loadGitignorePatterns follow es) as [ignored|e]; [|done]. cbn [result_bind].
  by rewrite (walk_same ignored _ _ Hs Hd).
Qed.

Definition demo_tree : list (string * Node) :=
  [("SKILL.md", NFile false "x"); ("run.sh", NFile true "y"); ("lib", NDir [("b", NFile false "2"); ("a", NLink "b")])].

Definition demo_tree' : list (string * Node) :=
  [("lib", NDir [("a", NLink "b"); ("b", NFile false "2")]); ("SKILL.md", NFile false "x"); ("run.sh", NFile true "y")].

Lemma hash_ignores_listing_order_witness :
  Hash (H:=toy_hashing) (λ _, None) demo_tree = Hash (H:=toy_hashing) (λ _, None) demo_tree'.
Proof.
  apply (hash_ignores_listing_order (H:=toy_hashing) (λ _, None) demo_tree demo_tree').
  - eapply same_trans.
    + eapply (same_child [("SKILL.md", NFile false "x"); ("run.sh", NFile true "y")] []).
      apply same_perm. apply Permutation_swap.
    + apply same_perm. apply (Permutation_app_comm [_; _] [_]).
  - cbn. repeat split; repeat (constructor; try set_solver).
Defined.

(** ** The digest is ambiguous *)

(** the digest frames the content of a file with nothing but line
    breaks, so two different trees have one digest, whatever the hash function: a file
    [a] that holds its own text and the record of a file [b], and the two files [a] and
    [b].  Drift between the two is never detected. *)
Theorem subhash_collides `{Hashing} follow : ∀ c1 c2,
  Hash follow [("a", NFile false (c1 +:+ nl +:+ "b" +:+ nl +:+ "100644" +:+ nl +:+ c2))] =
  Hash follow [("a", NFile false c1); ("b", NFile false c2)].
Proof.
  intros c1 c2. unfold Hash, loadGitignorePatterns. cbn -[record_of nl by_name]. unfold by_name. cbn [fst].
  change (String.leb "a" "b") with true. cbn -[record_of nl]. unfold record_of. by rewrite !str_app_nil_r, !str_app_assoc.
Qed.
