(* ===== verification/SkillService.v ===== *)
(** * The skill service

    [src/internal/skills/service.go]: archives are validated, written under the bundles
    directory and recorded in the skill store.  The state is the database and the
    archives on disk, by their path below the bundles directory. *)
From S2P Require Import Prelude GoStrings GoPath Json JsonDecode AccessTiers Profiles Users Servers Skills Subhash.

(** ** Archives

    The gzip and tar readers: [None] is not a gzip stream; otherwise the entries read
    before the end, and whether the end was a read error.  A truncated entry has fewer
    bytes than its header announces. *)
Inductive TypeFlag := TypeReg | TypeDir | TypeOther.

Record TarEntry := mkEntry {
  eName : string; eType : TypeFlag; eMode : Z; eContent : string; eTruncated : bool }.

(** [gopkg.in/yaml.v3] into a map of arbitrary values: which of them are strings, and how
    [json.Marshal] prints them, if it does. *)
Class Formats := {
  read_tar : string → option (list TarEntry * bool);
  yval : Type;
  yaml_map : string → option (gmap string yval);
  y_string : yval → option string;
  y_json : yval → option json }.

Definition MaxArchiveSize : Z := (5 * 1024 * 1024)%Z.

Definition str_len (s : string) : Z := Z.of_nat (String.length s).

(** [io.ReadAll(io.LimitReader(tr, MaxArchiveSize))]: the error of a truncated entry is
    only seen below the limit. *)
Definition read_limited (e : TarEntry) : option string :=
  if (str_len (eContent e) <? MaxArchiveSize)%Z then if eTruncated e then None else Some (eContent e)
  else Some (take_str (Z.to_nat MaxArchiveSize) (eContent e)).

(** An entry name that stays below the directory it is extracted into. *)
Definition safeArchivePath (name : string) : bool :=
  if name =?s "" then false
  else if IsAbs name || HasPrefix name "/" then false
  else
    let clean := Clean name in
    negb ((clean =?s "..") || HasPrefix clean "../" || Contains clean "/../").

Fixpoint firstNonEmpty (l : list string) : string :=
  match l with
  | [] => ""
  | ln :: r => if TrimSpace ln =?s "" then firstNonEmpty r else TrimSpace ln
  end.

Definition firstNonEmptyLine (s : string) : string := firstNonEmpty (Split s "010"%char).

Definition nullableString (s : string) : option string := if s =?s "" then None else Some s.

(** *** [versionPattern]: MAJOR.MINOR.PATCH and an optional suffix *)

Definition suffix_char (c : ascii) : bool :=
  is_digit c || ((65 <=? byte c) && (byte c <=? 90)) || ((97 <=? byte c) && (byte c <=? 122))
  || (byte c =? 46) || (byte c =? 45).

Definition nonempty (p : ascii → bool) (s : string) : bool := (s !=? "") && all_chars p s.

Definition core_ok (core : string) : bool :=
  match Split core "."%char with
  | [a; b; c] => nonempty is_digit a && nonempty is_digit b && nonempty is_digit c
  | _ => false
  end.

Definition versionPattern (v : string) : bool :=
  match Index v "-" with
  | None => core_ok v
  | Some i => core_ok (take_str i v) && nonempty suffix_char (drop_str (S i) v)
  end.

(** *** [frontmatterPattern]: the shortest text between the two rulers *)

Definition eat_newline (s : string) : option string :=
  if HasPrefix s (String "013"%char nl) then Some (drop_str 2 s)
  else if HasPrefix s nl then Some (drop_str 1 s) else None.

(** A line break, [---] and a line break. *)
Definition closing_ruler (s : string) : bool :=
  match eat_newline s with
  | Some r => HasPrefix r "---" && bool_decide (is_Some (eat_newline (drop_str 3 r)))
  | None => false
  end.

Fixpoint until_ruler (s : string) : option string :=
  if closing_ruler s then Some ""
  else match s with
       | EmptyString => None
       | String c r => String c <$> until_ruler r
       end.

Definition frontmatter (md : string) : option string :=
  if HasPrefix md "---" then r ← eat_newline (drop_str 3 md); until_ruler r else None.

(** ** The service *)
Record SvcWorld := mkSvc { sdb : Db State; disk : gmap string string }.

Definition with_sdb (w : SvcWorld) d : SvcWorld := mkSvc d (disk w).
Definition with_disk (w : SvcWorld) f : SvcWorld := mkSvc (sdb w) f.

(** [UploadError]: what [errors.Is] tells apart. *)
Inductive UploadError :=
| InvalidArchive (msg : string)
| VersionConflict
| SlugConflict
| OtherError (msg : string).

Section Service.
Context `{Hashing} `{Formats}.

Record Manifest := mkManifest { mName : string; mDescription : string; mExtra : gmap string yval }.

(** The entries in order: every name is checked, the last SKILL.md wins. *)
Fixpoint scan_entries (l : list TarEntry) (md : option string) : result (option string) :=
  match l with
  | [] => Ok md
  | e :: r =>
      if negb (safeArchivePath (eName e)) then Err ("unsafe archive path " +:+ eName e)
      else if (TrimPrefix (eName e) "./" =?s "SKILL.md") && match eType e with TypeReg => true | _ => false end then
        match read_limited e with
        | None => Err "reading SKILL.md"
        | Some b => scan_entries r (Some b)
        end
      else scan_entries r md
  end.

Definition manifest_of (raw : gmap string yval) : result Manifest :=
  let extra := delete "name" raw in
  let extra := match raw !! "description" ≫= y_string with Some _ => delete "description" extra | None => extra end in
  let desc := default "" (raw !! "description" ≫= y_string) in
  match raw !! "name" with
  | None => Err "frontmatter name is required"
  | Some v =>
      match y_string v with
      | None => Err "frontmatter name must be a string"
      | Some name => if name =?s "" then Err "frontmatter name is required" else Ok (mkManifest name desc extra)
      end
  end.

(** Every error is an [ErrInvalidArchive]. *)
Definition ValidateArchive (archive : string) : result Manifest :=
  match read_tar archive with
  | None => Err "not a gzip stream"
  | Some (entries, broken) =>
      result_bind (scan_entries entries None) (λ md,
      if broken then Err "tar read error"
      else match md with
           | None => Err "SKILL.md not found at archive root"
           | Some md =>
               match frontmatter md with
               | None => Err "SKILL.md is missing YAML frontmatter"
               | Some y => match yaml_map y with
                           | None => Err "frontmatter YAML invalid"
                           | Some raw => manifest_of raw
                           end
               end
           end)
  end.

(** [json.Marshal(manifest)]: map keys are sorted, empty fields omitted. *)
Definition manifest_json (m : Manifest) : option string :=
  extra ← mapM (λ '(k, v), j ← y_json v; Some (k, j)) (map_to_list (mExtra m));
  let fields := [("name", JStr (mName m))] ++ omit_empty "description" (mDescription m)
                ++ match extra with [] => [] | _ => [("extra", marshal_map extra)] end in
  Some (Marshal (JObj fields)).

(** [writeArchive]: [io] says which of its seven system calls fails, [partial] what a
    failed write left.  The temporary file is removed on every failure. *)
Definition writeArchive (io : list bool) (partial tmp rel b : string) (fs : gmap string string) :
    result unit * gmap string string :=
  let fails i := nth i io false in
  if fails 0 then (Err "mkdir bundle dir", fs)
  else if fails 1 then (Err "create temp", fs)
  else
    let opened := <[tmp := ""]> fs in
    if fails 2 then (Err "chmod temp", delete tmp opened)
    else if fails 3 then (Err "write temp", delete tmp (<[tmp := partial]> opened))
    else
      let written := <[tmp := b]> opened in
      if fails 4 then (Err "fsync temp", delete tmp written)
      else if fails 5 then (Err "close temp", delete tmp written)
      else if fails 6 then (Err "rename temp", delete tmp written)
      else (Ok tt, <[rel := b]> (delete tmp written)).

Record UploadInput := mkUpload {
  inSlugOverride : string; inVersion : string; inArchive : string; inUploadedBy : string; inDisplayName : string;
  inDescription : string; inVisibility : string }.

Record UploadResult := mkUploaded { upSkill : Skill; upVersion : SkillVersion; upManifest : Manifest }.

(** The checks before anything is written: the manifest and the slug. *)
Definition check_upload (i : UploadInput) : result (Manifest * string) :=
  if inArchive i =?s "" then Err "archive is empty"
  else if (MaxArchiveSize <? str_len (inArchive i))%Z then Err "archive exceeds limit"
  else if negb (versionPattern (inVersion i)) then Err ("version " +:+ inVersion i +:+ " must be MAJOR.MINOR.PATCH")
  else
    result_bind (ValidateArchive (inArchive i)) (λ m,
    let slug := if inSlugOverride i =?s "" then mName m else inSlugOverride i in
    result_bind (ValidateSlug slug) (λ _,
    if mName m !=? slug then Err ("frontmatter name " +:+ mName m +:+ " does not match slug " +:+ slug)
    else Ok (m, slug))).

Definition display_of (i : UploadInput) (m : Manifest) (slug : string) : string :=
  let d := TrimSpace (inDisplayName i) in
  if d =?s "" then let l := firstNonEmptyLine (mDescription m) in if l =?s "" then slug else l else d.

Definition description_of (i : UploadInput) (m : Manifest) : string :=
  let d := TrimSpace (inDescription i) in if d =?s "" then TrimSpace (mDescription m) else d.

Definition retitle (n d : string) (k : Skill) : Skill :=
  mkSkill (skID k) (skSlug k) n d (skVisibility k) (skLatestVersion k) (skYankedAt k) (skCreatedBy k)
    (skCreatedAt k) (skUpdatedAt k) (skOutdated k).

(** The skill row: created on the first upload; later uploads refresh its title but
    never its visibility. *)
Definition upsert_skill (uuid : string) (now : Z) (slug name desc : string) (i : UploadInput) : DBM State Skill :=
  let! found := GetSkillBySlug slug in
  match found with
  | None =>
      CreateSkill uuid now (mkSkill "" slug name desc (if inVisibility i =?s "" then "restricted" else inVisibility i)
                              "" None (nullableString (inUploadedBy i)) 0 0 false)
  | Some k =>
      if (name !=? skDisplayName k) || (desc !=? skDescription k) then
        UpdateSkillMeta now (skID k) name desc "" ;;; db_ret (retitle name desc k)
      else db_ret k
  end.

Definition archive_path (slug version : string) : string := JoinPath [slug; version +:+ ".tar.gz"].

Definition upload_error (e : string) : UploadError :=
  if e =?s ErrSkillSlugConflict then SlugConflict
  else if e =?s ErrSkillVersionConflict then VersionConflict else OtherError e.

(** The archive is written before the version row is. *)
Definition Upload (uuid : string) (now : Z) (io : list bool) (partial tmp : string) (i : UploadInput) (w : SvcWorld) :
    (UploadResult + UploadError) * SvcWorld :=
  match check_upload i with
  | Err e => (inr (InvalidArchive e), w)
  | Ok (m, slug) =>
      let '(r, d) := upsert_skill uuid now slug (display_of i m slug) (description_of i m) i (sdb w) in
      let w := with_sdb w d in
      match r with
      | Err e => (inr (upload_error e), w)
      | Ok k =>
          let path := archive_path (skSlug k) (inVersion i) in
          match writeArchive io partial tmp path (inArchive i) (disk w) with
          | (Err e, fs) => (inr (OtherError ("writing archive: " +:+ e)), with_disk w fs)
          | (Ok _, fs) =>
              let w := with_disk w fs in
              match manifest_json m with
              | None => (inr (OtherError "encoding manifest"), w)
              | Some mj =>
                  let '(r, d) := CreateVersion now (mkVersion (skID k) (inVersion i) path (str_len (inArchive i))
                                   (sha256_hex (inArchive i)) mj None (nullableString (inUploadedBy i)) 0) (sdb w) in
                  let w := with_sdb w d in
                  match r with
                  | Err e => (inr (upload_error e), w)
                  | Ok v => (inl (mkUploaded (set_latest (inVersion i) (skUpdatedAt k) k) v m), w)
                  end
              end
          end
      end
  end.

Inductive Opened := ONotFound | OFailed | OArchive (bytes : string) (v : SkillVersion).

Definition OpenArchive (skillID version : string) (w : SvcWorld) : Opened * SvcWorld :=
  let '(r, d) := GetVersion skillID version (sdb w) in
  let w := with_sdb w d in
  match r with
  | Err _ => (OFailed, w)
  | Ok None => (ONotFound, w)
  | Ok (Some v) => match disk w !! svArchivePath v with
                   | Some b => (OArchive b v, w)
                   | None => (OFailed, w)
                   end
  end.

(** [None] is [ErrSkillNotFound]. *)
Definition ResolveLatest (slug : string) : DBM State (option (Skill * SkillVersion)) :=
  let! found := GetSkillBySlug slug in
  match found with
  | None => db_ret None
  | Some k =>
      if bool_decide (is_Some (skYankedAt k)) || (skLatestVersion k =?s "") then db_ret None
      else
        let! v := GetVersion (skID k) (skLatestVersion k) in
        match v with
        | None => db_ret None
        | Some v => if bool_decide (is_Some (svYankedAt v)) then db_ret None else db_ret (Some (k, v))
        end
  end.

(** ** Extraction *)

Inductive Action := AMkdir (target : string) | AWrite (target : string) (mode : Z) (content : string).

Definition file_mode (m : Z) : Z := let p := Z.land m 511 in if (p =? 0)%Z then 420%Z else p.

(** The system calls [extractTarGz] makes for an entry; links and devices are skipped. *)
Definition extract_entry (destDir : string) (e : TarEntry) : result (list Action) :=
  if negb (safeArchivePath (eName e)) then Err ("unsafe archive path " +:+ eName e)
  else
    let target := JoinPath [destDir; TrimPrefix (eName e) "./"] in
    match eType e with
    | TypeDir => Ok [AMkdir target]
    | TypeReg => match read_limited e with
                 | None => Err ("write " +:+ target)
                 | Some b => Ok [AWrite target (file_mode (eMode e)) b]
                 end
    | TypeOther => Ok []
    end.

Fixpoint extract_entries (destDir : string) (l : list TarEntry) : result (list Action) :=
  match l with
  | [] => Ok []
  | e :: r => result_bind (extract_entry destDir e) (λ a, result_map (app a) (extract_entries destDir r))
  end.

Definition extractTarGz (archive destDir : string) : result (list Action) :=
  match read_tar archive with
  | None => Err "not a gzip stream"
  | Some (entries, broken) =>
      result_bind (extract_entries destDir entries) (λ a, if broken then Err "tar read error" else Ok a)
  end.

(** What the file system holds in the fresh directory after these calls. *)
Context (materialize : string → list Action → result (list (string * Node))).

Definition ComputeSubtreeHashFromArchive (tmpDir : result string) (archive : string) : result string :=
  result_bind tmpDir (λ dir,
  result_bind (extractTarGz archive dir) (λ a,
  result_bind (materialize dir a) (λ es, Hash (λ _, None) es))).
End Service.

(** ** Extraction stays inside the directory *)

Lemma safe_components name :
  safeArchivePath name = true → ".." ∉ clean_comps false (Split name "/"%char) [].
Proof.
  unfold safeArchivePath. destruct (name =?s ""); [done|]. destruct (IsAbs name) eqn:Ea; [done|]. cbn [orb].
  destruct (HasPrefix name "/"); [done|]. intros Hs Hin. pose proof (clean_comps_bottom _ [] ltac:(by intros ?%elem_of_nil) Hin) as Hh.
  unfold Clean, components in Hs. rewrite Ea in Hs. destruct (clean_comps false (Split name "/"%char) []) as [|c r]; [by apply elem_of_nil in Hin|].
  cbn in Hh. subst c. cbn [render] in Hs. destruct r as [|d r]; [done|].
  cbn [Join] in Hs. assert (HasPrefix (".." +:+ "/" +:+ Join (d :: r) "/") "../" = true) as Hp.
  { apply HasPrefix_iff. by exists (Join (d :: r) "/"). }
  cbn [Join] in Hp. rewrite Hp in Hs. by rewrite orb_true_r in Hs.
Qed.

Lemma trim_dot_components name :
  clean_comps false (Split (TrimPrefix name "./") "/"%char) [] = clean_comps false (Split name "/"%char) [].
Proof.
  unfold TrimPrefix. destruct (HasPrefix name "./") eqn:E; [|done]. apply HasPrefix_iff in E as [r ->].
  change ("./" +:+ r) with ("." +:+ String "/" r). by rewrite Split_app.
Qed.

Definition target_of (a : Action) : string := match a with AMkdir t | AWrite t _ _ => t end.

Definition below (dest target : string) : Prop :=
  ∃ cs, ".." ∉ cs ∧ target = render true (components dest ++ cs).

Lemma extract_entry_below dest e acts :
  IsAbs dest = true → extract_entry dest e = Ok acts → Forall (λ a, below dest (target_of a)) acts.
Proof.
  intros Hd. unfold extract_entry. destruct (safeArchivePath (eName e)) eqn:Hs; [|done]. cbn [negb].
  assert (Hb : below dest (JoinPath [dest; TrimPrefix (eName e) "./"])).
  { pose proof (safe_components _ Hs) as Hn. rewrite <- trim_dot_components in Hn. eexists. split; [exact Hn|]. by apply join_confined. }
  destruct (eType e); [destruct (read_limited e)| |]; intros [= <-]; by repeat constructor.
Qed.

(** whatever names the archive's entries carry, every directory and
    file that extraction into an absolute directory creates lies below that directory,
    and no component of the rest of its path is [..]. *)
Theorem extraction_confined `{Formats} : ∀ archive dest acts,
  IsAbs dest = true → extractTarGz archive dest = Ok acts → Forall (λ a, below dest (target_of a)) acts.
Proof.
  intros archive dest acts Hd. unfold extractTarGz. destruct (read_tar archive) as [[es broken]|]; [|done].
  destruct (extract_entries dest es) as [l|e] eqn:E; cbn [result_bind]; [|done]. destruct broken; [done|]. intros [= <-].
  revert l E. induction es as [|e es IH]; intros l; cbn; [by intros [= <-]|].
  destruct (extract_entry dest e) as [a|] eqn:Ee; cbn; [|done].
  destruct (extract_entries dest es) as [l'|]; cbn; [|done]. intros [= <-]. apply Forall_app. split; [|by apply IH].
  by eapply extract_entry_below.
Qed.

(** ** Archive paths *)

Lemma all_chars_Split p s c : p c = true → Forall (λ x, all_chars p x = true) (Split s c) → all_chars p s = true.
Proof.
  intros Hc. induction s as [|a s IH]; [done|]. cbn. destruct (Ascii.eqb_spec a c) as [->|].
  - intros [_ Hr]%Forall_cons. rewrite Hc. by apply IH.
  - destruct (Split s c) as [|x r] eqn:E; [by apply Split_nonempty in E|]. intros [Hx Hr]%Forall_cons.
    cbn in Hx. apply andb_true_iff in Hx as [-> Hx]. apply IH. by constructor.
Qed.

Definition not_slash (c : ascii) : bool := negb (Ascii.eqb c "/"%char).

Lemma Split_none s : all_chars not_slash s = true → Split s "/"%char = [s].
Proof.
  induction s as [|a s IH]; [done|]. cbn. unfold not_slash at 1. destruct (Ascii.eqb a "/"%char); [done|]. cbn.
  intros Hs. by rewrite IH.
Qed.

Lemma suffix_not_slash c : suffix_char c = true → not_slash c = true.
Proof. intros Hc. unfold not_slash. destruct (Ascii.eqb_spec c "/"); [by subst|done]. Qed.

Lemma digit_suffix c : is_digit c = true → suffix_char c = true.
Proof. unfold suffix_char. by intros ->. Qed.

Lemma core_chars v : core_ok v = true → all_chars suffix_char v = true.
Proof.
  unfold core_ok, nonempty. destruct (Split v "."%char) as [|a [|b [|c [|]]]] eqn:E; try done. intros Hv. bool_prop.
  eapply (all_chars_Split _ _ "."%char); [done|]. rewrite E. repeat constructor; (eapply all_chars_impl; [apply digit_suffix|done]).
Qed.

Lemma versionPattern_chars v : versionPattern v = true → v ≠ "" ∧ all_chars suffix_char v = true.
Proof.
  unfold versionPattern. intros Hv. split; [by intros ->|]. destruct (Index v "-") as [i|] eqn:E; [|by apply core_chars].
  apply Index_Some in E as (a & b & -> & <-). rewrite take_str_app in Hv. bool_prop.
  replace (drop_str (S (String.length a)) (a +:+ "-" +:+ b)) with b in *.
  2: { change ("-" +:+ b) with (String "-" b). clear. induction a as [|c a IH]; [done|]. rewrite str_app_cons. exact IH. }
  unfold nonempty in *. bool_prop. rewrite !all_chars_app. rewrite (core_chars a) by done. cbn. done.
Qed.

Lemma slug_chars slug : ValidateSlug slug = Ok tt → all_chars not_slash slug = true ∧ slug ≠ "" ∧ slug ≠ "." ∧ slug ≠ "..".
Proof.
  unfold ValidateSlug. destruct (slug =?s "") eqn:E; [done|]. destruct (slugPattern slug) eqn:Ep; [|done]. intros _. bool_prop.
  unfold slugPattern in Ep. destruct slug as [|c [|d r]]; try done.
  apply andb_true_iff in Ep as [[Hc Hr]%andb_true_iff _]. split_and!; try done; [|by intros [= -> -> ->]].
  assert (Hi : ∀ c, slug_inner c = true → not_slash c = true).
  { intros x Hx. unfold not_slash. destruct (Ascii.eqb_spec x "/"); [by subst|done]. }
  cbn [all_chars]. rewrite Hi by (unfold slug_inner; by rewrite Hc). by eapply all_chars_impl in Hr; [|exact Hi].
Qed.

(** The path of an archive is the slug and the version, as written. *)
Lemma archive_path_eq slug v :
  ValidateSlug slug = Ok tt → versionPattern v = true → archive_path slug v = slug +:+ "/" +:+ v +:+ ".tar.gz".
Proof.
  intros (Hs & Hne & Hd & Hdd)%slug_chars [_ Hv]%versionPattern_chars.
  assert (Hv' : all_chars not_slash (v +:+ ".tar.gz") = true).
  { rewrite all_chars_app. rewrite (all_chars_impl suffix_char) by (done || apply suffix_not_slash). done. }
  unfold archive_path. cbn [JoinPath Join]. rewrite (proj2 (String.eqb_neq _ _) Hne).
  assert (Ha : IsAbs (slug +:+ "/" +:+ v +:+ ".tar.gz") = false).
  { unfold IsAbs. apply not_true_iff_false. intros [r' E]%HasPrefix_iff. destruct slug as [|c r]; [done|].
    rewrite str_app_cons in E. injection E as -> _. done. }
  unfold Clean, components. rewrite Ha. change ("/" +:+ v +:+ ".tar.gz") with (String "/" (v +:+ ".tar.gz")).
  rewrite Split_app, (Split_none slug), (Split_none (v +:+ _)) by done. cbn [app clean_comps].
  assert (Hl : 7 ≤ String.length (v +:+ ".tar.gz")) by (rewrite str_length_app; cbn; lia).
  destruct (slug =?s "") eqn:E1; bool_prop; [done|]. destruct (slug =?s ".") eqn:E2; bool_prop; [done|]. cbn [orb].
  destruct (slug =?s "..") eqn:E3; bool_prop; [done|].
  generalize dependent (v +:+ ".tar.gz"). intros f _ _ Hl.
  destruct (f =?s "") eqn:F1; bool_prop; [subst; cbn in Hl; lia|]. destruct (f =?s ".") eqn:F2; bool_prop; [subst; cbn in Hl; lia|].
  destruct (f =?s "..") eqn:F3; bool_prop; [subst; cbn in Hl; lia|]. reflexivity.
Qed.

Lemma slug_of_path a b x y :
  all_chars not_slash a = true → all_chars not_slash b = true →
  a +:+ "/" +:+ x = b +:+ "/" +:+ y → a = b ∧ x = y.
Proof.
  change ("/" +:+ x) with (String "/" x). change ("/" +:+ y) with (String "/" y). revert b.
  induction a as [|c a IH]; intros [|d b] Ha Hb; rewrite ?str_app_nil_l, ?str_app_cons; cbn in Ha, Hb;
    intros E; simplify_eq; bool_prop; try done.
  edestruct IH as [-> ->]; eauto.
Qed.

(** ** Uploading *)

(** The write is atomic: on failure the disk is as before. *)
Lemma writeArchive_atomic io partial tmp rel b fs :
  fs !! tmp = None →
  (∃ e, writeArchive io partial tmp rel b fs = (Err e, fs)) ∨ writeArchive io partial tmp rel b fs = (Ok tt, <[rel := b]> fs).
Proof.
  intros Ht. unfold writeArchive. repeat case_match; rewrite ?delete_insert_eq, ?delete_insert_id, ?(delete_id fs) by done; eauto.
Qed.

Lemma writeArchive_succeeds partial tmp rel b fs :
  fs !! tmp = None → writeArchive [] partial tmp rel b fs = (Ok tt, <[rel := b]> fs).
Proof. intros Ht. unfold writeArchive. cbn. by rewrite !delete_insert_eq, (delete_id fs) by done. Qed.

Lemma transact_cases {A} (body : DBM State A) d :
  (∃ e, fst (transact body d) = Err e ∧ tables (snd (transact body d)) = tables d) ∨
  (∃ a fs d1, fst (transact body d) = Ok a ∧ body (mkDb (tables d) fs) = (Ok a, d1) ∧ tables (snd (transact body d)) = tables d1).
Proof.
  destruct (fst (transact body d)) as [a|e] eqn:E; [right|left].
  - destruct (transact_ok _ _ _ E) as (fs & d1 & Hb & Ht). eauto 8.
  - exists e. split; [done|]. by eapply transact_atomic.
Qed.

(** A version is recorded or nothing changes. *)
Lemma CreateVersion_cases now v d r d' :
  CreateVersion now v d = (r, d') →
  (∃ e, r = Err e ∧ tables d' = tables d) ∨
  (r = Ok (stamp_version now v) ∧ versions (tables d) !! (svSkillID v, svVersion v) = None ∧
   is_Some (skills (tables d) !! svSkillID v) ∧
   tables d' = update_skill (svSkillID v) (set_latest (svVersion v) now)
                 (with_versions (tables d) (<[(svSkillID v, svVersion v) := stamp_version now v]> (versions (tables d))))).
Proof.
  unfold CreateVersion. repeat (case_if; [by intros [= <- <-]; left; eauto|]). unfold db_bind at 1.
  match goal with |- context [transact ?b d] => destruct (transact_cases b d) as [(e & E1 & E2)|(a & fs & d1 & E1 & Hb & E2)];
    destruct (transact b d) as [r1 d2] end; cbn in E1, E2; subst r1; intros E; [injection E as <- <-; left; eauto|].
  apply bind_ok in Hb as ([] & d3 & Hi & Hup%update_ok). apply exec_ok in Hi. cbn in Hi. repeat case_if; simplify_eq. bool_prop.
  unfold db_ret in E. simplify_eq. right. rewrite E2, Hup, <- Hi. split_and!; try done. by apply eq_None_not_Some.
Qed.

Lemma upsert_skill_versions uuid now slug n desc i V :
  preserves (λ s, versions s = V) (upsert_skill uuid now slug n desc i).
Proof.
  apply preserves_bind; [apply preserves_query|]. intros [k|].
  - case_if; [|apply preserves_ret]. apply preserves_bind; [|intros; apply preserves_ret].
    unfold UpdateSkillMeta. case_if; [apply preserves_fail|]. by apply preserves_update.
  - unfold CreateSkill. case_match; [|apply preserves_fail]. cbv zeta. case_if; [apply preserves_fail|].
    apply preserves_exec. intros s a' s' Hs. cbv beta. repeat case_if; by intros [= <- <-].
Qed.

Lemma skill_by_slug_Some slug s k : skill_by_slug slug s = Some k → ∃ id, skills s !! id = Some k ∧ skSlug k = slug.
Proof.
  unfold skill_by_slug. intros ([id k'] & E & ->)%fmap_Some. apply find_map_Some in E as [Hk Hs]. bool_prop. eauto.
Qed.

Lemma upsert_skill_slug uuid now slug n desc i d k d' :
  upsert_skill uuid now slug n desc i d = (Ok k, d') → skSlug k = slug.
Proof.
  unfold upsert_skill. intros ([k0|] & d1 & [E1 _]%query_ok & E)%bind_ok.
  - symmetry in E1. apply skill_by_slug_Some in E1 as (_ & _ & Hs). case_if; [|unfold db_ret in E; by simplify_eq].
    apply bind_ok in E as (u & d2 & _ & E). unfold db_ret in E. by simplify_eq.
  - unfold CreateSkill in E. cbn [skSlug skID skVisibility] in E. case_match; [|done]. cbv zeta in E. case_if; [done|].
    apply exec_ok in E. repeat case_if; by simplify_eq.
Qed.

Section UploadTheorems.
Context `{Hashing} `{Formats}.

Local Abbreviation versions_of w := (versions (tables (sdb w))).

(** Every version's archive is on disk, with the recorded digest and size. *)
Definition archive_intact (fs : gmap string string) (v : SkillVersion) : Prop :=
  ∃ b, fs !! svArchivePath v = Some b ∧ svArchiveSHA256 v = sha256_hex b ∧ svArchiveSize v = str_len b.

Definition intact (w : SvcWorld) : Prop := map_Forall (λ _ v, archive_intact (disk w) v) (versions_of w).

(** The two ways an upload ends. *)
Lemma Upload_outcome uuid now io partial tmp i w r w' :
  disk w !! tmp = None → Upload uuid now io partial tmp i w = (r, w') →
  (∃ e, r = inr e ∧ versions_of w' = versions_of w ∧
    (disk w' = disk w ∨
     ∃ m slug, check_upload i = Ok (m, slug) ∧ disk w' = <[archive_path slug (inVersion i) := inArchive i]> (disk w))) ∨
  (∃ res m slug, r = inl res ∧ check_upload i = Ok (m, slug) ∧
    disk w' = <[archive_path slug (inVersion i) := inArchive i]> (disk w) ∧
    versions_of w' = <[(skID (upSkill res), inVersion i) := upVersion res]> (versions_of w) ∧
    svArchivePath (upVersion res) = archive_path slug (inVersion i) ∧
    svArchiveSHA256 (upVersion res) = sha256_hex (inArchive i) ∧ svArchiveSize (upVersion res) = str_len (inArchive i)).
Proof.
  intros Ht. unfold Upload. destruct (check_upload i) as [[m slug]|e]; [|intros [= <- <-]; left; eauto 6].
  set (n := display_of i m slug). set (ds := description_of i m).
  pose proof (upsert_skill_versions uuid now slug n ds i (versions_of w) (sdb w) eq_refl) as Hv.
  pose proof (λ k d, upsert_skill_slug uuid now slug n ds i (sdb w) k d) as Hs.
  destruct (upsert_skill uuid now slug n ds i (sdb w)) as [[k|e] d]; cbn in Hv; [|intros [= <- <-]; left; eauto 6].
  rewrite (Hs k d eq_refl). cbn [disk with_sdb].
  destruct (writeArchive_atomic io partial tmp (archive_path slug (inVersion i)) (inArchive i) (disk w) Ht) as [(e & ->)| ->].
  { intros [= <- <-]. left. eexists. cbn. eauto 6. }
  destruct (manifest_json m) as [mj|]; [|intros [= <- <-]; left; eexists; cbn; eauto 10]. cbn [sdb with_sdb with_disk].
  destruct (CreateVersion _ _ d) as [r1 d1] eqn:E. apply CreateVersion_cases in E as [(e & -> & E)|(-> & _ & _ & E)].
  - intros [= <- <-]. left. eexists. cbn. rewrite E. eauto 10.
  - intros [= <- <-]. right. do 3 eexists. cbn. rewrite E. cbn. rewrite Hv. eauto 10.
Qed.

(** C13: an upload, successful or not and whichever system call
    or statement fails, leaves every recorded version's archive on disk with the digest and
    size recorded for it, provided no recorded version already uses the upload's path; and
    after a successful upload the version opens with exactly the uploaded bytes. *)
Theorem uploads_keep_archives_intact : ∀ uuid now io partial tmp i w r w',
  intact w → disk w !! tmp = None →
  (∀ m slug, check_upload i = Ok (m, slug) →
     map_Forall (λ _ v, svArchivePath v ≠ archive_path slug (inVersion i)) (versions_of w)) →
  Upload uuid now io partial tmp i w = (r, w') →
  intact w' ∧
  ∀ res, r = inl res →
    svArchiveSHA256 (upVersion res) = sha256_hex (inArchive i) ∧
    fst (OpenArchive (skID (upSkill res)) (inVersion i) (mkSvc (healthy (tables (sdb w'))) (disk w')))
    = OArchive (inArchive i) (upVersion res).
Proof.
  intros uuid now io partial tmp i w r w' Hi Ht Hnew Hup.
  assert (Hkeep : ∀ m slug v key, check_upload i = Ok (m, slug) → versions_of w !! key = Some v →
    archive_intact (<[archive_path slug (inVersion i) := inArchive i]> (disk w)) v).
  { intros m slug v key Hc Hv. destruct (Hi _ _ Hv) as (b & ? & ?). exists b.
    rewrite lookup_insert_ne; [done|]. intros E. by apply (Hnew _ _ Hc _ _ Hv). }
  destruct (Upload_outcome _ _ _ _ _ _ _ _ _ Ht Hup)
    as [(e & -> & Hv & Hd)|(res & m & slug & -> & Hc & Hd & Hv & Hp & Hsha & Hsz)]; split.
  - unfold intact. rewrite Hv. destruct Hd as [-> |(m & slug & Hc & ->)]; [done|]. intros key v ?. by eapply Hkeep.
  - done.
  - unfold intact. rewrite Hv, Hd. apply map_Forall_insert_2.
    + exists (inArchive i). rewrite Hp. split; [by rewrite lookup_insert_eq|done].
    + intros key v ?. by eapply Hkeep.
  - intros res' [= <-]. split; [done|]. unfold OpenArchive, GetVersion, query, exec. cbn -[lookup].
    rewrite Hv, lookup_insert_eq. cbn -[lookup]. rewrite Hd, Hp, lookup_insert_eq. done.
Qed.

Lemma check_upload_ok i m slug :
  check_upload i = Ok (m, slug) → inArchive i ≠ "" ∧ versionPattern (inVersion i) = true ∧ ValidateSlug slug = Ok tt ∧ mName m = slug.
Proof.
  unfold check_upload. destruct (inArchive i =?s "") eqn:E1; [done|]. case_if; [done|].
  destruct (versionPattern (inVersion i)) eqn:E2; [|done]. cbn [negb].
  destruct (ValidateArchive (inArchive i)) as [m'|]; [|done]. cbn [result_bind].
  generalize (if inSlugOverride i =?s "" then mName m' else inSlugOverride i) as sl. intros sl.
  destruct (ValidateSlug sl) as [[]|] eqn:E3; [|done]. cbn [result_bind]. destruct (mName m' =?s sl) eqn:E4; [|done].
  intros [= <- <-]. by bool_prop.
Qed.

Lemma upsert_skill_existing uuid now slug n desc i s k :
  skill_by_slug slug s = Some k →
  ∃ k' s', upsert_skill uuid now slug n desc i (healthy s) = (Ok k', healthy s') ∧ skID k' = skID k ∧ skSlug k' = slug ∧
    versions s' = versions s.
Proof.
  intros Hk. destruct (skill_by_slug_Some _ _ _ Hk) as (_ & _ & Hs).
  unfold upsert_skill, db_bind, GetSkillBySlug, query. rewrite exec_healthy, Hk. case_if; [|by exists k, s].
  unfold UpdateSkillMeta. cbn [String.eqb negb andb]. unfold update. rewrite exec_healthy.
  eexists (retitle n desc k), _. split_and!; [reflexivity|done..].
Qed.

Lemma CreateVersion_conflict now v s :
  svVersion v ≠ "" → svArchivePath v ≠ "" → (0 < svArchiveSize v)%Z → svArchiveSHA256 v ≠ "" →
  is_Some (versions s !! (svSkillID v, svVersion v)) →
  CreateVersion now v (healthy s) = (Err ErrSkillVersionConflict, healthy s).
Proof.
  intros H1 H2 H3 H4 H5. unfold CreateVersion. rewrite !(proj2 (String.eqb_neq _ _)) by done.
  rewrite (proj2 (Z.leb_gt _ _)) by lia. unfold transact, insert_version, exec, db_bind. cbn -[bool_decide lookup].
  rewrite bool_decide_true by done. done.
Qed.

(** uploading a version that already exists is answered with
    a conflict, but only after the archive on disk was replaced: from then on the version
    opens with the refused bytes under the digest of the original ones. *)
Theorem reupload_replaces_archive : ∀ uuid now partial tmp i s fs m slug k v mj,
  check_upload i = Ok (m, slug) → skill_by_slug slug s = Some k →
  versions s !! (skID k, inVersion i) = Some v → svArchivePath v = archive_path slug (inVersion i) →
  manifest_json m = Some mj → sha256_hex (inArchive i) ≠ "" → fs !! tmp = None →
  ∃ w', Upload uuid now [] partial tmp i (mkSvc (healthy s) fs) = (inr VersionConflict, w') ∧
    versions_of w' !! (skID k, inVersion i) = Some v ∧
    fst (OpenArchive (skID k) (inVersion i) w') = OArchive (inArchive i) v.
Proof.
  intros uuid now partial tmp i s fs m slug k v mj Hc Hk Hv Hp Hm Hsha Ht. 
  destruct (check_upload_ok _ _ _ Hc) as (Hne & Hver & Hslug & _). unfold Upload. rewrite Hc. cbn [sdb].
  destruct (upsert_skill_existing uuid now slug (display_of i m slug) (description_of i m) i s k Hk) as (k' & s' & -> & Hid & Hsl & Hvs).
  rewrite Hsl. cbn [disk with_sdb]. rewrite (writeArchive_succeeds _ _ _ _ _ Ht), Hm. cbn [sdb with_sdb with_disk].
  rewrite CreateVersion_conflict; cbn [svVersion svArchivePath svArchiveSize svArchiveSHA256 svSkillID].
  - eexists. split; [reflexivity|]. cbn. rewrite Hvs. split; [done|]. unfold OpenArchive, GetVersion, query, exec. cbn -[lookup].
    rewrite Hv. cbn -[lookup]. by rewrite Hp, lookup_insert_eq.
  - by apply versionPattern_chars in Hver as [? _].
  - rewrite archive_path_eq by done. by destruct slug.
  - unfold str_len. destruct (inArchive i); [done|]. cbn [String.length]. lia.
  - done.
  - rewrite Hvs, Hid, Hv. eauto.
Qed.
End UploadTheorems.

(** ** A concrete instance: the archive is the text of its SKILL.md, the frontmatter its
    name. *)
#[export] Instance toy_formats : Formats := {|
  read_tar s := Some ([mkEntry "SKILL.md" TypeReg 420 s false], false);
  yval := json;
  yaml_map y := Some {["name" := JStr y]};
  y_string j := match j with JStr s => Some s | _ => None end;
  y_json j := Some j |}.

Definition demo_archive (body : string) : string :=
  "---" +:+ nl +:+ "pdf" +:+ nl +:+ "---" +:+ nl +:+ body.

Definition demo_upload (version body : string) : UploadInput :=
  mkUpload "pdf" version (demo_archive body) "u" "" "" "".

Definition demo_svc : SvcWorld :=
  mkSvc (healthy (mkState Users.demo {["k1" := demo_skill]}
    {[("k1", "1.0.0") := mkVersion "k1" "1.0.0" "pdf/1.0.0.tar.gz" 3 "sha:old" "{}" None (Some "u") 0]} ∅ ∅))
    {["pdf/1.0.0.tar.gz" := "old"]}.

Lemma extraction_confined_witness :
  extractTarGz "x" "/tmp/d" = Ok [AWrite "/tmp/d/SKILL.md" 420 "x"] ∧
  Forall (λ a, below "/tmp/d" (target_of a)) [AWrite "/tmp/d/SKILL.md" 420 "x"].
Proof.
  split; [reflexivity|]. apply (extraction_confined "x" "/tmp/d" [AWrite "/tmp/d/SKILL.md" 420 "x"]); reflexivity.
Defined.

Lemma demo_svc_intact : intact (H:=toy_hashing) demo_svc.
Proof. apply map_Forall_singleton. exists "old". split_and!; reflexivity. Qed.

Lemma uploads_keep_archives_intact_witness :
  let w' := snd (Upload (H:=toy_hashing) "k9" 5 [] "" "tmp" (demo_upload "1.1.0" "new") demo_svc) in
  intact (H:=toy_hashing) w' ∧ disk w' !! "pdf/1.1.0.tar.gz" = Some (demo_archive "new").
Proof.
  split; [|vm_compute; reflexivity].
  apply (uploads_keep_archives_intact (H:=toy_hashing) "k9" 5 [] "" "tmp" (demo_upload "1.1.0" "new") demo_svc
    (fst (Upload (H:=toy_hashing) "k9" 5 [] "" "tmp" (demo_upload "1.1.0" "new") demo_svc))
    (snd (Upload (H:=toy_hashing) "k9" 5 [] "" "tmp" (demo_upload "1.1.0" "new") demo_svc)) demo_svc_intact eq_refl).
  - intros m slug Hc. apply map_Forall_singleton. vm_compute in Hc. injection Hc as <- <-. discriminate.
  - apply surjective_pairing.
Defined.

Lemma reupload_replaces_archive_witness :
  ∃ w', Upload (H:=toy_hashing) "k9" 5 [] "" "tmp" (demo_upload "1.0.0" "new") demo_svc = (inr VersionConflict, w') ∧
    versions (tables (sdb w')) !! ("k1", "1.0.0")
      = Some (mkVersion "k1" "1.0.0" "pdf/1.0.0.tar.gz" 3 "sha:old" "{}" None (Some "u") 0) ∧
    fst (OpenArchive "k1" "1.0.0" w')
      = OArchive (demo_archive "new") (mkVersion "k1" "1.0.0" "pdf/1.0.0.tar.gz" 3 "sha:old" "{}" None (Some "u") 0).
Proof.
  exact (reupload_replaces_archive (H:=toy_hashing) "k9" 5 "" "tmp" (demo_upload "1.0.0" "new") (tables (sdb demo_svc))
    (disk demo_svc) (mkManifest "pdf" "" (delete "name" {["name" := JStr "pdf"]})) "pdf" demo_skill
    (mkVersion "k1" "1.0.0" "pdf/1.0.0.tar.gz" 3 "sha:old" "{}" None (Some "u") 0)
    (default "" (manifest_json (mkManifest "pdf" "" (delete "name" {["name" := JStr "pdf"]}))))
    eq_refl eq_refl eq_refl eq_refl eq_refl ltac:(discriminate) eq_refl).
Defined.
