(* ===== verification/SkillChecker.v ===== *)
(** * The skill update checker

    [src/internal/skills/checker]: a skill's git upstream is fetched into a cache
    directory, what changed since the last check is detected, a drift is classified and
    recorded.  Git, tar, the file system and the language model are the environment. *)
From stdpp Require Import pretty.
From S2P Require Import Prelude GoStrings GoPath Json JsonDecode AccessTiers Profiles Users Servers Skills Subhash SkillService.

(** ** The environment of one check

    [run_git cacheDir args] is [git -C cacheDir args] with its standard output;
    [checkout] the pipe from [git archive] to [tar], with the tree it leaves in the
    destination. *)
Record GitEnv := mkGitEnv {
  has_git_dir : string → bool;
  run_git : string → list string → result string;
  wipe : string → bool;
  mkdir_parent : string → bool;
  clone : list string → result string;
  make_temp : result string;
  checkout : list string → list string → result (list (string * Node));
  follow_link : string → option string;
  cancelled : bool }.

(** The model: [None] when no client is configured or available. *)
Record LLM := mkLLM { llm_model : string; llm_complete : string → string → result string }.

(** ** Git *)

Definition gitFetch (g : GitEnv) (cacheDir : string) : result unit :=
  result_map (λ _, tt) (run_git g cacheDir ["fetch"; "origin"; "--prune"; "--no-tags"]).

Definition wipeAndClone (g : GitEnv) (cacheDir gitURL : string) : result unit :=
  if negb (wipe g cacheDir) then Err ("EnsureCache: wipe " +:+ cacheDir)
  else if negb (mkdir_parent g cacheDir) then Err ("EnsureCache: mkdir parent of " +:+ cacheDir)
  else result_map (λ _, tt) (clone g ["clone"; "--no-tags"; "--filter=blob:none"; "--"; gitURL; cacheDir]).

Definition EnsureCache (g : GitEnv) (cacheDir gitURL : string) : result unit :=
  if cacheDir =?s "" then Err "EnsureCache: cacheDir must not be empty"
  else if gitURL =?s "" then Err "EnsureCache: gitURL must not be empty"
  else match ValidateGitURL gitURL with
       | Err e => Err ("EnsureCache: " +:+ e)
       | Ok _ =>
           if cancelled g then Err "EnsureCache: context canceled"
           else if has_git_dir g cacheDir && is_ok (gitFetch g cacheDir) then Ok tt
           else wipeAndClone g cacheDir gitURL
       end.

Definition ResolveSHA (g : GitEnv) (cacheDir ref : string) : result string :=
  if cacheDir =?s "" then Err "ResolveSHA: cacheDir must not be empty"
  else
    let ref := if ref =?s "" then "HEAD" else ref in
    if HasPrefix ref "-" then Err ("ResolveSHA: ref " +:+ ref +:+ " must not start with '-'")
    else result_map TrimSpace (run_git g cacheDir ["rev-parse"; "--verify"; ref]).

Definition is_newline (c : ascii) : bool := byte c =? 10.

(** The lines of an output; none when it is empty. *)
Definition output_lines (out : string) : list string :=
  let out := trim_right is_newline out in
  if out =?s "" then [] else Split out "010"%char.

Definition path_args (subpath : string) : list string := if subpath =?s "" then [] else ["--"; subpath].

Definition LogPath (g : GitEnv) (cacheDir fromSHA toSHA subpath : string) : result (list string) :=
  if cacheDir =?s "" then Err "LogPath: cacheDir must not be empty"
  else if (fromSHA !=? "") && (toSHA =?s "") then Err "LogPath: fromSHA without toSHA is ambiguous"
  else
    let range := if (fromSHA !=? "") && (toSHA !=? "") then [fromSHA +:+ ".." +:+ toSHA]
                 else if toSHA !=? "" then [toSHA] else [] in
    result_map output_lines (run_git g cacheDir (["log"; "--oneline"] ++ range ++ path_args subpath)).

Definition count_slashes (s : string) : nat := pred (length (Split s "/"%char)).

Definition CheckoutSubpath (g : GitEnv) (cacheDir sha subpath destDir : string) : result (list (string * Node)) :=
  if cacheDir =?s "" then Err "CheckoutSubpath: cacheDir must not be empty"
  else if sha =?s "" then Err "CheckoutSubpath: sha must not be empty"
  else if destDir =?s "" then Err "CheckoutSubpath: destDir must not be empty"
  else
    let clean := trim_func (Ascii.eqb "/"%char) subpath in
    let archive := ["-C"; cacheDir; "archive"; "--format=tar"; sha] ++ path_args clean in
    let strip := if clean =?s "" then []
                 else ["--strip-components=" +:+ pretty (Z.of_nat (count_slashes clean + 1))] in
    checkout g archive (["-x"; "-C"; destDir] ++ strip).

(** ** Detection *)

Inductive Result := ResultNoMovement | ResultNoPathTouch | ResultRevertedToSame | ResultDrift.

Record Detection := mkDetection {
  dResult : Result; dNewSHA : string; dNewHash : string; dCommitsAhead : Z; dChangedFiles : list string;
  dDiffSummary : string }.

Definition diffRange (fromSHA toSHA : string) : string :=
  if fromSHA =?s "" then "4b825dc642cb6eb9a060e54bf8d69288fbee4904.." +:+ toSHA else fromSHA +:+ ".." +:+ toSHA.

Definition gitDiffNames (g : GitEnv) (cacheDir fromSHA toSHA subpath : string) : result (list string) :=
  result_map output_lines (run_git g cacheDir (["diff"; "--name-only"; diffRange fromSHA toSHA] ++ path_args subpath)).

Definition truncationSuffix : string := String "010"%char "... (truncated)".

Definition gitDiffSummary (g : GitEnv) (cacheDir fromSHA toSHA subpath : string) (maxBytes : Z) : result string :=
  result_map (λ out, if (0 <? maxBytes)%Z && (maxBytes <? str_len out)%Z
                     then take_str (Z.to_nat maxBytes) out +:+ truncationSuffix else out)
    (run_git g cacheDir (["diff"; "--stat"; diffRange fromSHA toSHA] ++ path_args subpath)).

Section Checker.
Context `{Hashing} `{Formats}.

Definition Detect (g : GitEnv) (subpath ref lastSeenSHA lastSeenHash cacheDir : string) (maxBytes : Z) : result Detection :=
  if cacheDir =?s "" then Err "Detect: cacheDir must not be empty"
  else
    result_bind (ResolveSHA g cacheDir ref) (λ newSHA,
    if (lastSeenSHA !=? "") && (newSHA =?s lastSeenSHA) then Ok (mkDetection ResultNoMovement newSHA "" 0 [] "")
    else
      result_bind (LogPath g cacheDir lastSeenSHA newSHA subpath) (λ commits,
      match commits with
      | [] => Ok (mkDetection ResultNoPathTouch newSHA "" 0 [] "")
      | _ =>
          result_bind (make_temp g) (λ tmp,
          result_bind (CheckoutSubpath g cacheDir newSHA subpath tmp) (λ tree,
          result_bind (Hash (follow_link g) tree) (λ newHash,
          if (lastSeenHash !=? "") && (newHash =?s lastSeenHash)
          then Ok (mkDetection ResultRevertedToSame newSHA newHash 0 [] "")
          else
            result_bind (gitDiffNames g cacheDir lastSeenSHA newSHA subpath) (λ changed,
            result_bind (gitDiffSummary g cacheDir lastSeenSHA newSHA subpath maxBytes) (λ summary,
            Ok (mkDetection ResultDrift newSHA newHash (Z.of_nat (length commits)) changed summary))))))
      end)).

(** ** Classification *)

Definition fallbackRecommendedAction : string := "Review upstream commits manually before pulling.".

(** The rubric the model is given. *)
Context (classifierSystemPrompt : string).

Definition line (s : string) : string := s +:+ nl.

Definition buildPrompt (skill : Skill) (det : Detection) : string * string :=
  (classifierSystemPrompt,
   line ("Skill slug: " +:+ skSlug skill)
   +:+ (if skDisplayName skill =?s "" then "" else line ("Display name: " +:+ skDisplayName skill))
   +:+ (if skLatestVersion skill =?s "" then "" else line ("Published version: " +:+ skLatestVersion skill))
   +:+ line ("Commits ahead of published: " +:+ pretty (dCommitsAhead det))
   +:+ match dChangedFiles det with
       | [] => line "Changed files: (none reported)"
       | fs => line "Changed files:" +:+ Join (map (λ f, line ("- " +:+ f)) fs) ""
       end
   +:+ (if dDiffSummary det =?s "" then ""
        else line (nl +:+ "Diff summary (`git diff --stat`):") +:+ dDiffSummary det
             +:+ (if HasSuffix (dDiffSummary det) nl then "" else nl))
   +:+ nl +:+ "Respond with JSON only.").

Definition parseLLMResponse (raw : string) : option (string * string * string) :=
  let s := TrimSpace raw in
  let s := if HasPrefix s "```"
           then TrimSpace (TrimSuffix (TrimPrefix (TrimPrefix s "```json") "```") "```") else s in
  l ← struct_fields s;
  sev ← decode_string_field "severity" l ""; sum ← decode_string_field "summary" l "";
  act ← decode_string_field "recommended_action" l "";
  let sev := ToLower (TrimSpace sev) in
  let sum := TrimSpace sum in
  let act := TrimSpace act in
  if negb (valid_severity sev) || (sum =?s "") || (act =?s "") then None else Some (sev, sum, act).

Definition fallbackTriple (det : Detection) : string * string * string :=
  ("unknown",
   pretty (dCommitsAhead det) +:+ " commits modified " +:+ pretty (Z.of_nat (length (dChangedFiles det)))
     +:+ " files. See diff summary for details.",
   fallbackRecommendedAction).

Definition classifyWithLLM (client : option LLM) (skill : Skill) (det : Detection) : option (string * string * string * string) :=
  c ← client;
  let '(system, user) := buildPrompt skill det in
  match llm_complete c system user with
  | Err _ => None
  | Ok text => '(sev, sum, act) ← parseLLMResponse text; Some (sev, sum, act, llm_model c)
  end.

(** Never fails for the model's sake; the caller sets the time. *)
Definition Classify (client : option LLM) (skill : Skill) (det : Detection) (relayHash relayVersion : string) (now : Z) : DriftReport :=
  let '(sev, sum, act, model) := default (fallbackTriple det, "") (classifyWithLLM client skill det) in
  mkDrift relayVersion relayHash (dNewSHA det) (dNewHash det) (dCommitsAhead det) sev sum act model now.

(** ** The cycle *)

Record Config := mkConfig { UpstreamCacheDir : string; LLMDiffMaxBytes : Z }.

Context (cfg : Config) (client : option LLM).
Context (materialize : string → list Action → result (list (string * Node))).

Definition hint_char (c : ascii) : ascii :=
  if is_digit c || ((65 <=? byte c) && (byte c <=? 90)) || ((97 <=? byte c) && (byte c <=? 122))
     || (byte c =? 45) || (byte c =? 95) then c else "-"%char.

Definition after_last (p : ascii → bool) (s : string) : string :=
  List.last (Split (map_str (λ c, if p c then "/"%char else c) s) "/"%char) "".

Definition urlHint (gitURL : string) : string :=
  let s := trim_right (Ascii.eqb "/"%char) (TrimSuffix gitURL ".git") in
  let s := after_last (λ c, Ascii.eqb c "/"%char || Ascii.eqb c ":"%char) s in
  if s =?s "" then "repo" else take_str 32 (map_str hint_char s).

Definition cacheDirFor (u : SkillUpstream) : string :=
  let root := if UpstreamCacheDir cfg =?s "" then "upstream-cache" else UpstreamCacheDir cfg in
  let h := sha256_hex (suGitURL u +:+ String "000"%char (suGitSubpath u)) in
  JoinPath [root; urlHint (suGitURL u) +:+ "-" +:+ take_str 16 h].

(** The detection, with the hash last seen. *)
Definition fetchAndDetect (g : GitEnv) (u : SkillUpstream) : result (Detection * string) :=
  let dir := cacheDirFor u in
  result_bind (EnsureCache g dir (suGitURL u)) (λ _,
  let hash := default "" (suLastSeenHash u) in
  result_map (λ det, (det, hash))
    (Detect g (suGitSubpath u) (suGitRef u) (default "" (suLastSeenSHA u)) hash dir (LLMDiffMaxBytes cfg))).

(** The hash of the latest published archive; the empty string when it cannot be had. *)
Definition relayHashForSkill (g : GitEnv) (k : Skill) (w : SvcWorld) : string * SvcWorld :=
  if skLatestVersion k =?s "" then ("", w)
  else
    let '(r, d) := GetVersion (skID k) (skLatestVersion k) (sdb w) in
    let w := with_sdb w d in
    match r with
    | Ok (Some v) =>
        match disk w !! svArchivePath v with
        | Some archive =>
            match ComputeSubtreeHashFromArchive materialize (make_temp g) archive with
            | Ok h => (h, w)
            | Err _ => ("", w)
            end
        | None => ("", w)
        end
    | _ => ("", w)
    end.

Inductive CheckOutcome := OutcomeUpToDate | OutcomeDrift | OutcomeNoUpstream | OutcomeFetchFailed.

Definition svc_call {A} (m : DBM State A) (w : SvcWorld) : result A * SvcWorld :=
  let '(r, d) := m (sdb w) in (r, with_sdb w d).

(** [applyDetection]; [checkOne] takes the same steps. *)
Definition applyDetection (g : GitEnv) (now : Z) (u : SkillUpstream) (det : Detection) (lastSeenHash : string) (w : SvcWorld) :
    result CheckOutcome * SvcWorld :=
  match dResult det with
  | ResultNoMovement | ResultNoPathTouch | ResultRevertedToSame =>
      let '(r, w) := svc_call (UpdateUpstreamCheck now (suSkillID u) (dNewSHA det) lastSeenHash now) w in
      (result_map (λ _, OutcomeUpToDate) r, w)
  | ResultDrift =>
      let '(r, w) := svc_call (GetSkill (suSkillID u)) w in
      match r with
      | Err e => (Err ("get skill for classify: " +:+ e), w)
      | Ok None => (Err ("skill " +:+ suSkillID u +:+ " vanished mid-check"), w)
      | Ok (Some k) =>
          let '(relayHash, w) := relayHashForSkill g k w in
          let report := Classify client k det relayHash (skLatestVersion k) now in
          let '(r, w) := svc_call (WriteDriftReport now (suSkillID u) report) w in
          (result_map (λ _, OutcomeDrift) r, w)
      end
  end.

Definition checkOne (g : GitEnv) (now : Z) (u : SkillUpstream) (w : SvcWorld) : result unit * SvcWorld :=
  match fetchAndDetect g u with
  | Err e => (Err e, w)
  | Ok (det, lastSeenHash) =>
      let '(r, w) := applyDetection g now u det lastSeenHash w in
      (result_map (λ _, tt) r, w)
  end.

(** [None] is [ErrSkillNotFound]. *)
Definition RunOneSlug (g : GitEnv) (now : Z) (slug : string) (w : SvcWorld) : result (option CheckOutcome) * SvcWorld :=
  let '(r, w) := svc_call (GetSkillBySlug slug) w in
  match r with
  | Err e => (Err ("get skill: " +:+ e), w)
  | Ok None => (Ok None, w)
  | Ok (Some k) =>
      let '(r, w) := svc_call (GetUpstream (skID k)) w in
      match r with
      | Err e => (Err ("get upstream: " +:+ e), w)
      | Ok None => (Ok (Some OutcomeNoUpstream), w)
      | Ok (Some u) =>
          match fetchAndDetect g u with
          | Err _ => (Ok (Some OutcomeFetchFailed), w)
          | Ok (det, lastSeenHash) =>
              let '(r, w) := applyDetection g now u det lastSeenHash w in
              (result_map Some r, w)
          end
      end
  end.

(** The upstreams of a cycle in order; a failure does not end it.  Each check has its own
    environment and time. *)
Fixpoint check_all (env : SkillUpstream → GitEnv * Z) (l : list SkillUpstream) (w : SvcWorld) : SvcWorld :=
  match l with
  | [] => w
  | u :: r => check_all env r (snd (checkOne (env u).1 (env u).2 u w))
  end.

Definition RunOnce (env : SkillUpstream → GitEnv * Z) (w : SvcWorld) : SvcWorld :=
  let '(r, w) := svc_call ListUpstreams w in
  match r with
  | Err _ => w
  | Ok l => check_all env l w
  end.
End Checker.

(** ** What a check changes *)
Section CheckerTheorems.
Context `{Hashing} `{Formats} (prompt : string) (cfg : Config) (client : option LLM).
Context (materialize : string → list Action → result (list (string * Node))).

Local Abbreviation fetch := (fetchAndDetect cfg).
Local Abbreviation apply_det := (applyDetection prompt client materialize).
Local Abbreviation check := (checkOne prompt cfg client materialize).
Local Abbreviation run_one := (RunOneSlug prompt cfg client materialize).
Local Abbreviation run_once := (RunOnce prompt cfg client materialize).

Lemma Classify_severity k det rh rv now : valid_severity (drSeverity (Classify prompt client k det rh rv now)) = true.
Proof.
  unfold Classify. destruct (classifyWithLLM prompt client k det) as [[[[sev sum] act] model]|] eqn:E; [|done]. cbn.
  unfold classifyWithLLM in E. destruct client as [c|]; [|done]. cbn in E. destruct (llm_complete _ _ _) as [text|]; [|done].
  destruct (parseLLMResponse text) as [[[sev' sum'] act']|] eqn:Ep; [|done]. cbn in E. simplify_eq.
  unfold parseLLMResponse in Ep. destruct (struct_fields _) as [l|]; [|done]. cbn -[valid_severity] in Ep.
  repeat match type of Ep with decode_string_field ?n l "" ≫= _ = _ =>
    destruct (decode_string_field n l ""); [|done]; cbn -[valid_severity] in Ep end.
  match goal with _ : context [valid_severity ?x] |- _ => destruct (valid_severity x) eqn:Ev; [|done] end.
  cbn -[valid_severity] in Ep. repeat (case_if; try done). by simplify_eq.
Qed.

(** The row a check without drift writes, and the tables after a drift. *)
Definition checked (now : Z) (det : Detection) (h : string) (id : string) (s : State) : State :=
  with_upstreams s (alter (λ u, seen (dNewSHA det) h now (suDrift u) now u) id (upstreams s)).

Definition drifted (now : Z) (r : DriftReport) (id : string) (s : State) : State :=
  update_skill id (set_outdated true)
    (with_upstreams s (alter (seen (drUpstreamSHA r) (drUpstreamHash r) (drDetectedAt r) (Some r) now) id (upstreams s))).

Lemma relayHash_healthy g k s fs : ∃ h, relayHashForSkill materialize g k (mkSvc (healthy s) fs) = (h, mkSvc (healthy s) fs).
Proof.
  unfold relayHashForSkill, GetVersion, query. case_if; [eauto|]. cbn [sdb]. rewrite exec_healthy. repeat case_match; cbn; eauto.
Qed.

Lemma applyDetection_healthy g now u det h s fs k :
  skills s !! suSkillID u = Some k → suSkillID u = skID k →
  match dResult det with
  | ResultDrift => ∃ rh, let r := Classify prompt client k det rh (skLatestVersion k) now in
      apply_det g now u det h (mkSvc (healthy s) fs) = (Ok OutcomeDrift, mkSvc (healthy (drifted now r (suSkillID u) s)) fs)
  | _ => apply_det g now u det h (mkSvc (healthy s) fs) = (Ok OutcomeUpToDate, mkSvc (healthy (checked now det h (suSkillID u) s)) fs)
  end.
Proof.
  intros Hk Hid. unfold applyDetection, svc_call, UpdateUpstreamCheck, GetSkill, query, update, WriteDriftReport, update.
  destruct (dResult det); cbn [sdb]; rewrite exec_healthy; try done.
  rewrite Hk. destruct (relayHash_healthy g k s fs) as [rh Hr]. exists rh. unfold with_sdb at 1. cbn [disk sdb]. rewrite Hr. cbn [sdb].
  unfold transact, db_bind, exec, update. cbn -[bool_decide Classify drifted valid_severity].
  rewrite (Classify_severity k det rh (skLatestVersion k) now). rewrite andb_false_r. done.
Qed.

(** A check leaves the rows of the other skills alone. *)
Definition frame (id : string) (s s' : State) : Prop :=
  ∀ j, j ≠ id → upstreams s' !! j = upstreams s !! j ∧ skills s' !! j = skills s !! j.

Lemma frame_checked now det h id s : frame id s (checked now det h id s).
Proof. intros j Hj. cbn. by rewrite lookup_alter_ne. Qed.

Lemma frame_drifted now r id s : frame id s (drifted now r id s).
Proof. intros j Hj. cbn. by rewrite !lookup_alter_ne. Qed.

(** One check of a cycle on a healthy database. *)
Lemma check_healthy g now u s fs k :
  skills s !! suSkillID u = Some k → suSkillID u = skID k →
  ∃ s', snd (check g now u (mkSvc (healthy s) fs)) = mkSvc (healthy s') fs ∧ frame (suSkillID u) s s' ∧
    match fetch g u with
    | Err _ => s' = s
    | Ok (det, h) => match dResult det with
                     | ResultDrift => ∃ rh, s' = drifted now (Classify prompt client k det rh (skLatestVersion k) now) (suSkillID u) s
                     | _ => s' = checked now det h (suSkillID u) s
                     end
    end.
Proof.
  intros Hk Hid. unfold checkOne. destruct (fetch g u) as [[det h]|e].
  - pose proof (applyDetection_healthy g now u det h s fs k Hk Hid) as Ha. destruct (dResult det);
      [rewrite Ha..|destruct Ha as [rh ->]]; eexists; (split; [reflexivity|]); split; eauto using frame_checked, frame_drifted.
  - exists s. split; [done|]. split; [by intros j|done].
Qed.

(** What a cycle leaves of an upstream: nothing when its check failed; else the time and
    the commit it saw, and the drift report and flag when there was a drift. *)
Definition check_post (env : SkillUpstream → GitEnv * Z) (u : SkillUpstream) (s s' : State) : Prop :=
  let id := suSkillID u in
  match fetch (env u).1 u with
  | Err _ => upstreams s' !! id = Some u ∧ skills s' !! id = skills s !! id
  | Ok (det, h) => ∃ u', upstreams s' !! id = Some u' ∧ suLastCheckedAt u' = Some (env u).2 ∧
      suLastSeenSHA u' = Some (dNewSHA det) ∧
      match dResult det with
      | ResultDrift => (∃ r, suDrift u' = Some r ∧ valid_severity (drSeverity r) = true ∧ drUpstreamHash r = dNewHash det ∧
                             drDetectedAt r = (env u).2) ∧
                       skOutdated <$> skills s' !! id = Some true
      | _ => suDrift u' = suDrift u ∧ suLastSeenHash u' = Some h ∧ skills s' !! id = skills s !! id
      end
  end.

Lemma check_post_frame env u s s' t t' :
  skills t !! suSkillID u = skills s !! suSkillID u →
  upstreams t' !! suSkillID u = upstreams s' !! suSkillID u → skills t' !! suSkillID u = skills s' !! suSkillID u →
  check_post env u s s' → check_post env u t t'.
Proof. unfold check_post. by intros -> -> ->. Qed.

Lemma check_establishes env u s fs k :
  upstreams s !! suSkillID u = Some u → skills s !! suSkillID u = Some k → suSkillID u = skID k →
  ∃ s', snd (check (env u).1 (env u).2 u (mkSvc (healthy s) fs)) = mkSvc (healthy s') fs ∧ frame (suSkillID u) s s' ∧
    check_post env u s s'.
Proof.
  intros Hu Hk Hid. destruct (check_healthy (env u).1 (env u).2 u s fs k Hk Hid) as (s' & Hc & Hf & Hp).
  exists s'. split; [done|]. split; [done|]. unfold check_post. destruct (fetch (env u).1 u) as [[det h]|e]; [|by subst].
  destruct (dResult det); [subst s'..|destruct Hp as [rh ->]]; cbn -[alter lookup]; rewrite !lookup_alter_eq, Hu; cbn -[lookup];
    eexists; (split; [reflexivity|]); [by split_and!..|]. rewrite Hk. set (r := Classify _ _ _ _ _ _ _).
  assert (Hr : drUpstreamSHA r = dNewSHA det ∧ drUpstreamHash r = dNewHash det ∧ drDetectedAt r = (env u).2).
  { unfold r, Classify. by destruct (default _ _) as [[[? ?] ?] ?]. }
  destruct Hr as (E1 & E2 & E3). cbn. rewrite E1, E3. split_and!; try done.
  exists r. split_and!; try done. apply Classify_severity.
Qed.

Definition tracked (s : State) (u : SkillUpstream) : Prop :=
  upstreams s !! suSkillID u = Some u ∧ ∃ k, skills s !! suSkillID u = Some k ∧ suSkillID u = skID k.

Lemma check_all_post env l : ∀ s fs,
  NoDup (map suSkillID l) → Forall (tracked s) l →
  ∃ s', check_all prompt cfg client materialize env l (mkSvc (healthy s) fs) = mkSvc (healthy s') fs ∧
    (∀ j, j ∉ map suSkillID l → upstreams s' !! j = upstreams s !! j ∧ skills s' !! j = skills s !! j) ∧
    Forall (λ u, check_post env u s s') l.
Proof.
  induction l as [|u l IH]; intros s fs; cbn; [intros _ _; by exists s|].
  intros [Hnot Hnd]%NoDup_cons [(Hu & k & Hk & Hid) Hl]%Forall_cons.
  destruct (check_establishes env u s fs k Hu Hk Hid) as (s1 & -> & Hf & Hp).
  assert (Hne : ∀ v, v ∈ l → suSkillID v ≠ suSkillID u).
  { intros v Hv E. apply Hnot. rewrite <- E. apply list_elem_of_fmap. eauto. }
  destruct (IH s1 fs Hnd) as (s' & -> & Hout & Hall).
  { rewrite Forall_forall in Hl |- *. intros v Hv. destruct (Hf _ (Hne v Hv)) as [E1 E2].
    unfold tracked. rewrite E1, E2. by apply Hl. }
  exists s'. split; [done|]. split.
  - intros j [Hj1 Hj2]%not_elem_of_cons. destruct (Hout j Hj2) as [-> ->]. by apply Hf.
  - constructor.
    + destruct (Hout _ Hnot) as [E1 E2]. by eapply check_post_frame; [done|exact E1|exact E2|].
    + rewrite Forall_forall in Hall |- *. intros v Hv. destruct (Hf _ (Hne v Hv)) as [_ E2].
      by eapply check_post_frame; [symmetry; exact E2|done|done|apply Hall].
Qed.

(** on a healthy database, one cycle of the checker visits
    every upstream whatever happens to the others: where fetching or detecting failed the
    row and its skill are as before, elsewhere the row records the time of the check and
    the commit seen; a drift is stored with a severity of the rubric and raises the
    outdated flag, and without drift report, hash and flag are kept. *)
Theorem cycle_checks_every_upstream : ∀ env s fs, wf s →
  ∃ s', run_once env (mkSvc (healthy s) fs) = mkSvc (healthy s') fs ∧
    map_Forall (λ _ u, check_post env u s s') (upstreams s).
Proof.
  intros env s fs Hwf. unfold RunOnce, svc_call, ListUpstreams, query. cbn [sdb]. rewrite exec_healthy. cbn [with_sdb disk].
  set (l := stable_sort check_order (map snd (map_to_list (upstreams s)))).
  assert (Hin : ∀ u, u ∈ l ↔ upstreams s !! suSkillID u = Some u).
  { intros u. unfold l. rewrite elem_of_stable_sort, list_elem_of_fmap. split.
    - intros ([id u'] & -> & Hm%elem_of_map_to_list). cbn. by destruct (wf_upstreams _ Hwf _ _ Hm) as (-> & _).
    - intros Hu. exists (suSkillID u, u). split; [done|]. by apply elem_of_map_to_list. }
  destruct (check_all_post env l s fs) as (s' & E & _ & Hall).
  - unfold l. rewrite stable_sort_perm, map_map.
    erewrite map_ext_in; [apply (NoDup_fst_map_to_list (upstreams s))|]. intros [id u] Hm%list_elem_of_In%elem_of_map_to_list.
    by destruct (wf_upstreams _ Hwf _ _ Hm) as (? & _).
  - apply Forall_forall. intros u Hu%Hin. destruct (wf_upstreams _ Hwf _ _ Hu) as (_ & [k Hk] & _).
    destruct (wf_skills _ Hwf _ _ Hk) as (Hid & _). by split; [|exists k].
  - exists s'. split; [exact E|]. intros id u Hm. rewrite Forall_forall in Hall. apply Hall, Hin.
    by destruct (wf_upstreams _ Hwf _ _ Hm) as (-> & _).
Qed.

Lemma run_one_tracked g now slug s fs k u :
  skill_by_slug slug s = Some k → upstreams s !! skID k = Some u →
  run_one g now slug (mkSvc (healthy s) fs) =
  match fetch g u with
  | Err _ => (Ok (Some OutcomeFetchFailed), mkSvc (healthy s) fs)
  | Ok (det, h) => let '(r, w) := apply_det g now u det h (mkSvc (healthy s) fs) in (result_map Some r, w)
  end.
Proof.
  intros Hk Hu. unfold RunOneSlug, svc_call, GetSkillBySlug, GetUpstream, query. cbn [sdb]. rewrite exec_healthy, Hk.
  cbn [with_sdb sdb disk]. rewrite exec_healthy, Hu. reflexivity.
Qed.

(** recording a drift moves the baseline to the drifted
    commit, so a later check of the still flagged skill finds no movement: it reports "up
    to date" while the outdated flag and the drift report stay. *)
Theorem flagged_skill_checks_up_to_date : ∀ g now slug s fs k u d,
  wf s → skill_by_slug slug s = Some k → skOutdated k = true →
  upstreams s !! skID k = Some u → suDrift u = Some d → suLastSeenSHA u = Some (drUpstreamSHA d) → drUpstreamSHA d ≠ "" →
  cacheDirFor cfg u ≠ "" → EnsureCache g (cacheDirFor cfg u) (suGitURL u) = Ok tt →
  ResolveSHA g (cacheDirFor cfg u) (suGitRef u) = Ok (drUpstreamSHA d) →
  ∃ s', run_one g now slug (mkSvc (healthy s) fs) = (Ok (Some OutcomeUpToDate), mkSvc (healthy s') fs) ∧
    skOutdated <$> skills s' !! skID k = Some true ∧ (upstreams s' !! skID k ≫= suDrift) = Some d.
Proof.
  intros g now slug s fs k u d Hwf Hk Hout Hu Hd Hsha Hne Hdir Hcache Hres.
  rewrite (run_one_tracked _ _ _ _ _ _ _ Hk Hu). unfold fetchAndDetect. rewrite Hcache. cbn [result_bind].
  unfold Detect. rewrite (proj2 (String.eqb_neq _ _) Hdir), Hres, Hsha. cbn [result_bind from_option id].
  rewrite (proj2 (String.eqb_neq _ _) Hne), String.eqb_refl. cbn [negb andb result_map].
  destruct (skill_by_slug_Some _ _ _ Hk) as (id & Hk' & _). destruct (wf_skills _ Hwf _ _ Hk') as (<- & _).
  destruct (wf_upstreams _ Hwf _ _ Hu) as (Hid & _). rewrite <- Hid in Hk'.
  pose proof (applyDetection_healthy g now u (mkDetection ResultNoMovement (drUpstreamSHA d) "" 0 [] "")
    (default "" (suLastSeenHash u)) s fs k Hk' Hid) as Ha. cbn [dResult] in Ha. rewrite Ha. cbn [result_map].
  eexists. split; [reflexivity|]. cbn. rewrite Hid in *. rewrite lookup_alter_eq, Hk', Hu. cbn. by rewrite Hout, Hd.
Qed.

(** pointing a tracked skill at another repository keeps the
    commit last seen in the old one; as long as git cannot resolve that commit in the new
    repository every check fails to fetch and changes nothing, so the next one fails too. *)
Theorem retargeted_upstream_stuck : ∀ g now t slug s fs k u old sha new,
  wf s → skill_by_slug slug s = Some k → upstreams s !! skID k = Some u →
  suLastSeenSHA u = Some old → suSkillID new = skID k → suUpstreamType new = "git" → ValidateGitURL (suGitURL new) = Ok tt →
  let s1 := final (UpsertUpstream t new) (healthy s) in
  ∀ u', upstreams s1 !! skID k = Some u' →
  ResolveSHA g (cacheDirFor cfg u') (suGitRef u') = Ok sha → sha ≠ old →
  is_ok (LogPath g (cacheDirFor cfg u') old sha (suGitSubpath u')) = false →
  suGitURL u' = suGitURL new ∧
  run_one g now slug (mkSvc (healthy s1) fs) = (Ok (Some OutcomeFetchFailed), mkSvc (healthy s1) fs).
Proof.
  intros g now t slug s fs k u old sha new Hwf Hk Hu Hold Hnew Hty Hurl.
  destruct (skill_by_slug_Some _ _ _ Hk) as (id & Hk' & _). destruct (wf_skills _ Hwf _ _ Hk') as (<- & _).
  unfold final, UpsertUpstream. rewrite Hurl, Hty. cbv zeta. cbn [String.eqb Ascii.eqb Bool.eqb]. rewrite exec_healthy. cbn [negb].
  rewrite Hnew, bool_decide_true by eauto. rewrite Hu. cbn [negb snd healthy tables from_option].
  intros u' Hu'. cbn [upstreams with_upstreams] in Hu'. rewrite lookup_insert_eq in Hu'. injection Hu' as <-.
  intros Hres Hne Hlog. split; [done|].
  erewrite run_one_tracked; [|exact Hk|cbn; by rewrite lookup_insert_eq].
  unfold fetchAndDetect. destruct (EnsureCache _ _ _); [|done]. cbn [result_bind].
  unfold Detect. match goal with |- context [cacheDirFor cfg ?x =?s ""] => destruct (cacheDirFor cfg x =?s "") end; [done|].
  rewrite Hres. cbn [result_bind retarget suLastSeenSHA]. rewrite Hold. cbn [from_option id].
  rewrite (proj2 (String.eqb_neq _ _) Hne), andb_false_r. destruct (LogPath _ _ _ _ _); done.
Qed.
End CheckerTheorems.

(** ** A concrete check *)
Definition demo_git (sha : string) (log : result string) : GitEnv :=
  mkGitEnv (λ _, true)
    (λ _ args, match args with
               | "rev-parse" :: _ => Ok (sha +:+ nl)
               | "log" :: _ => log
               | _ => Ok ""
               end)
    (λ _, true) (λ _, true) (λ _, Ok "") (Ok "/tmp/x") (λ _ _, Ok [("SKILL.md", NFile false "x")]) (λ _, None) false.

Definition demo_cfg : Config := mkConfig "/cache" 1000.

Definition demo_upstream : SkillUpstream :=
  mkUpstream "k1" "git" "https://git.example/skills" "pdf" "HEAD" (Some 7%Z) (Some "sha") (Some "h2") (Some demo_drift) 0 0.

Definition demo_flagged : State :=
  mkState Users.demo {["k1" := set_outdated true demo_skill]}
    {[("k1", "1.0.0") := mkVersion "k1" "1.0.0" "pdf/1.0.0.tar.gz" 3 "h" "{}" None (Some "u") 0]} ∅ {["k1" := demo_upstream]}.

Lemma demo_flagged_wf : wf demo_flagged.
Proof.
  constructor; cbn [skills versions assignments upstreams demo_flagged].
  - apply map_Forall_singleton. split_and!; try reflexivity. intros _. eexists. reflexivity.
  - intros i j k l [<- _]%lookup_singleton_Some [<- _]%lookup_singleton_Some. done.
  - apply map_Forall_singleton. by split_and!.
  - apply map_Forall_empty.
  - apply map_Forall_singleton. split_and!; try done. by intros d [= <-].
Qed.

Definition demo_materialize (_ : string) (_ : list Action) : result (list (string * Node)) := Ok [].

Lemma cycle_checks_every_upstream_witness :
  ∃ s', RunOnce (H:=toy_hashing) "" demo_cfg None demo_materialize (λ _, (demo_git "sha" (Ok ("c1" +:+ nl)), 9%Z)) (mkSvc (healthy demo_store) ∅)
        = mkSvc (healthy s') ∅ ∧
    map_Forall (λ _ u, check_post (H:=toy_hashing) demo_cfg (λ _, (demo_git "sha" (Ok ("c1" +:+ nl)), 9%Z)) u demo_store s') (upstreams demo_store).
Proof.
  exact (cycle_checks_every_upstream (H:=toy_hashing) "" demo_cfg None demo_materialize
    (λ _, (demo_git "sha" (Ok ("c1" +:+ nl)), 9%Z)) demo_store ∅ demo_store_wf).
Defined.

Lemma flagged_skill_checks_up_to_date_witness :
  ∃ s', RunOneSlug (H:=toy_hashing) "" demo_cfg None demo_materialize (demo_git "sha" (Ok "")) 9 "pdf" (mkSvc (healthy demo_flagged) ∅)
        = (Ok (Some OutcomeUpToDate), mkSvc (healthy s') ∅) ∧
    skOutdated <$> skills s' !! "k1" = Some true ∧ (upstreams s' !! "k1" ≫= suDrift) = Some demo_drift.
Proof.
  apply (flagged_skill_checks_up_to_date (H:=toy_hashing) "" demo_cfg None demo_materialize (demo_git "sha" (Ok "")) 9 "pdf"
    demo_flagged ∅ (set_outdated true demo_skill) demo_upstream demo_drift demo_flagged_wf);
    solve [reflexivity | discriminate].
Defined.

Definition demo_retarget : SkillUpstream :=
  mkUpstream "k1" "git" "https://git.example/moved" "" "" None None None None 0 0.

Definition demo_retargeted : SkillUpstream :=
  mkUpstream "k1" "git" "https://git.example/moved" "" "HEAD" (Some 7%Z) (Some "sha") (Some "h2") (Some demo_drift) 0 0.

Lemma retargeted_upstream_stuck_witness :
  suGitURL demo_retargeted = "https://git.example/moved" ∧
  RunOneSlug (H:=toy_hashing) "" demo_cfg None demo_materialize (demo_git "other" (Err "bad object")) 9 "pdf"
    (mkSvc (healthy (final (UpsertUpstream 8 demo_retarget) (healthy demo_flagged))) ∅)
  = (Ok (Some OutcomeFetchFailed), mkSvc (healthy (final (UpsertUpstream 8 demo_retarget) (healthy demo_flagged))) ∅).
Proof.
  apply (retargeted_upstream_stuck (H:=toy_hashing) "" demo_cfg None demo_materialize (demo_git "other" (Err "bad object")) 9 8 "pdf"
    demo_flagged ∅ (set_outdated true demo_skill) demo_upstream "sha" "other" demo_retarget demo_flagged_wf
    eq_refl eq_refl eq_refl eq_refl eq_refl eq_refl demo_retargeted); solve [reflexivity | discriminate].
Defined.
