(* ===== verification/SkillsApi.v ===== *)
(** * The skills API

    [src/internal/web/skills_handlers.go] and [requireCapability] of
    [src/internal/web/auth_capabilities.go]: the [/api/skills] endpoints on top of the
    skill service and the update checker.  The authenticated user and the API key, if the
    request carried one, come from the middleware; the fields of a reply are kept, its
    text is not. *)
From S2P Require Import Prelude GoStrings GoPath Json JsonDecode AccessTiers Profiles Users Servers Skills Subhash SkillService SkillChecker.

(** ** Requests and replies *)

Record Req := mkReq {
  rMethod : string; rPath : string; rQuery : gmap string string; rHeader : gmap string string; rBody : string;
  rBroken : bool }.

Definition QueryGet (r : Req) (k : string) : string := default "" (rQuery r !! k).
Definition HeaderGet (r : Req) (k : string) : string := default "" (rHeader r !! k).

(** [http.MaxBytesReader] and [io.ReadAll]. *)
Inductive Read := RBytes (b : string) | RTooLarge | RFailed.

Definition read_body (limit : Z) (r : Req) : Read :=
  if (limit <? str_len (rBody r))%Z then RTooLarge else if rBroken r then RFailed else RBytes (rBody r).

Definition opt_drift : Type := option DriftReport.

Inductive SReply `{Formats} :=
| SError (code : Z) (msg : string)
| SSkills (l : list (Skill * opt_drift))
| SAssigned (l : list AssignedSkill)
| SSkill (k : Skill) (versions : list SkillVersion) (drift : opt_drift)
| SVersions (l : list SkillVersion)
| SVersion (v : SkillVersion)
| SUploaded (res : UploadResult) (upstreamRecorded : bool)
| SPatched (k : Skill)
| SYanked
| SNoContent
| SArchive (filename sha version bytes : string)
| SAssignments (l : list SkillAssignment)
| SAssignment (a : SkillAssignment)
| SOutdated (drift : opt_drift)
| SCleared
| SUpstream (u : SkillUpstream).

(** [driftBlockFromUpstream] *)
Definition driftBlockFromUpstream (u : option SkillUpstream) : opt_drift := u ≫= suDrift.

(** A pointer field: [null] leaves the pointer nil. *)
Fixpoint decode_string_ptr (name : string) (l : list (string * json)) (cur : option string) : option (option string) :=
  match l with
  | [] => Some cur
  | (k, v) :: r =>
      if EqualFold k name then
        match v with
        | JStr s => decode_string_ptr name r (Some s)
        | JNull => decode_string_ptr name r None
        | _ => None
        end
      else decode_string_ptr name r cur
  end.

(** The media type without its parameters. *)
Definition json_content (r : Req) : bool :=
  let ct := HeaderGet r "Content-Type" in
  let ct := match Index ct ";" with Some i => TrimSpace (take_str i ct) | None => ct end in
  EqualFold ct "application/json".

(** ** Handlers *)
Section Api.
Context `{Hashing} `{Formats} (prompt : string) (cfg : Config) (client : option LLM).
Context (materialize : string → list Action → result (list (string * Node))).
(** The environment of the request: git for the checker ([None] when it is disabled), the
    clock, a fresh id, the system calls of the archive write, a temporary directory. *)
Context (checker : option GitEnv) (now : Z) (uuid : string) (io : list bool) (partial tmp : string) (tmpDir : result string).

Definition Handler : Type := SvcWorld → SReply * SvcWorld.

Definition reply (r : SReply) : Handler := λ w, (r, w).
Definition fail (code : Z) (msg : string) : Handler := reply (SError code msg).

(** A store call whose error is answered with 500. *)
Definition call {A} (m : DBM State A) (k : A → Handler) : Handler := λ w,
  match svc_call m w with
  | (Ok a, w) => k a w
  | (Err _, w) => (SError 500 "internal error", w)
  end.

(** A store call whose error is only logged. *)
Definition logged {A} (m : DBM State A) (k : result A → Handler) : Handler := λ w,
  let '(r, w) := svc_call m w in k r w.

Definition requireCapability (user : User) (key : option APIKey) (cap : string) (k : Handler) : Handler :=
  if hasCapability (Some user) key cap then k else fail 403 ("missing capability: " +:+ cap).

Definition is_admin (user : User) : bool := uRole user =?s "admin".

Definition admin_only (user : User) (k : Handler) : Handler :=
  if is_admin user then k else fail 403 "admin access required".

Definition listForUser (user : User) : DBM State (list Skill) :=
  if is_admin user then ListSkills
  else let! rows := AssignedForUser (uID user) in db_ret (map asSkill rows).

(** The drift block of a flagged skill; a failed lookup leaves it out. *)
Definition drift_of (k : Skill) (next : opt_drift → Handler) : Handler :=
  if skOutdated k then logged (GetUpstream (skID k)) (λ r, next (match r with Ok u => driftBlockFromUpstream u | Err _ => None end))
  else next None.

Fixpoint with_drifts (l : list Skill) (acc : list (Skill * opt_drift)) : Handler :=
  match l with
  | [] => reply (SSkills (rev acc))
  | k :: r => drift_of k (λ d, with_drifts r ((k, d) :: acc))
  end.

Definition HandleSkills (user : option User) (r : Req) : Handler :=
  match user with
  | None => fail 401 "unauthenticated"
  | Some user =>
      if rMethod r !=? "GET" then fail 405 "method not allowed"
      else call (listForUser user) (λ l, with_drifts l [])
  end.

Definition HandleAssigned (user : option User) (r : Req) : Handler :=
  match user with
  | None => fail 401 "unauthenticated"
  | Some user =>
      if rMethod r !=? "GET" then fail 405 "method not allowed"
      else call (AssignedForUser (uID user)) (λ l, reply (SAssigned l))
  end.

(** Whether a user may read a skill; a failed lookup denies. *)
Definition userCanRead (user : User) (k : Skill) (next : bool → Handler) : Handler :=
  if is_admin user then next true
  else if bool_decide (is_Some (skYankedAt k)) then next false
  else if skVisibility k =?s "public" then next true
  else logged (ListAssignmentsForSkill (skID k)) (λ r,
    match r with
    | Ok l => next (existsb (λ a, saUserID a =?s uID user) l)
    | Err _ => next false
    end).

Definition getSkill (k : Skill) : Handler :=
  call (ListVersions (skID k)) (λ vs, drift_of k (λ d, reply (SSkill k vs d))).

Definition listVersions (k : Skill) : Handler := call (ListVersions (skID k)) (λ vs, reply (SVersions vs)).

Definition getVersion (k : Skill) (version : string) : Handler :=
  call (GetVersion (skID k) version) (λ v,
    match v with None => fail 404 "version not found" | Some v => reply (SVersion v) end).

(** The upstream the [X-Upstream] header names. *)
Definition header_upstream (id payload : string) : option SkillUpstream :=
  l ← struct_fields payload;
  ty ← decode_string_field "type" l ""; url ← decode_string_field "url" l "";
  sub ← decode_string_field "subpath" l ""; ref ← decode_string_field "ref" l "";
  if (url !=? "") && ((ty =?s "") || (ty =?s "git"))
  then Some (mkUpstream id ty url sub ref None None None None 0 0) else None.

(** What the upload's headers ask for; failures are logged. *)
Definition upload_upstream (r : Req) (id : string) (next : bool → Handler) : Handler :=
  if EqualFold (HeaderGet r "X-Clear-Upstream") "true" then logged (ClearUpstream id) (λ _, next false)
  else if HeaderGet r "X-Upstream" !=? "" then
    match header_upstream id (HeaderGet r "X-Upstream") with
    | None => next false
    | Some u => logged (UpsertUpstream now u) (λ res, next (is_ok res))
    end
  else next false.

(** Re-baseline a tracked skill to the archive just uploaded. *)
Definition rebaseline (id body : string) (next : Handler) : Handler :=
  let relayHash := match ComputeSubtreeHashFromArchive materialize tmpDir body with Ok h => h | Err _ => "" end in
  logged (GetUpstream id) (λ r,
    match r with
    | Ok (Some _) => logged (ClearDriftReport now id relayHash) (λ _, next)
    | _ => next
    end).

Definition uploadVersion (r : Req) (user : User) (key : option APIKey) (slug version : string) : Handler :=
  match read_body MaxArchiveSize r with
  | RTooLarge => fail 413 "archive exceeds 5 MiB limit"
  | RFailed => fail 400 "body unreadable"
  | RBytes body =>
      let visibility := QueryGet r "visibility" in
      if (visibility !=? "") && negb (hasCapability (Some user) key "skills:admin")
      then fail 403 "setting ?visibility= requires the skills:admin capability"
      else λ w,
        match Upload uuid now io partial tmp (mkUpload slug version body (uID user) "" "" visibility) w with
        | (inr (InvalidArchive e), w) => (SError 400 e, w)
        | (inr VersionConflict, w) => (SError 409 "version already exists", w)
        | (inr SlugConflict, w) => (SError 409 "slug already exists", w)
        | (inr (OtherError _), w) => (SError 500 "internal error", w)
        | (inl res, w) =>
            upload_upstream r (skID (upSkill res)) (λ recorded,
              rebaseline (skID (upSkill res)) body (reply (SUploaded res recorded))) w
        end
  end.

Definition decode_patch (body : string) : option (option string * option string * option string) :=
  l ← struct_fields body;
  v ← decode_string_ptr "visibility" l None; n ← decode_string_ptr "display_name" l None;
  d ← decode_string_ptr "description" l None; Some (v, n, d).

Definition apply_patch (k : Skill) (name desc vis : string) : Handler :=
  call (UpdateSkillMeta now (skID k) name desc vis) (λ _,
  call (GetSkillBySlug (skSlug k)) (λ u,
    match u with None => fail 500 "internal error" | Some k' => reply (SPatched k') end)).

Definition patchSkill (r : Req) (user : User) (key : option APIKey) (k : Skill) : Handler :=
  if negb (json_content r) then fail 415 "expected application/json"
  else match read_body 4096 r with
  | RBytes body =>
      match decode_patch body with
      | None => fail 400 "invalid JSON"
      | Some (None, None, None) => fail 400 "patch body must include at least one of visibility, display_name, description"
      | Some (v, n, d) =>
          if bool_decide (is_Some v) && negb (hasCapability (Some user) key "skills:admin")
          then fail 403 "changing visibility requires the skills:admin capability"
          else if from_option (λ n, TrimSpace n =?s "") false n then fail 400 "display_name cannot be empty"
          else if from_option (λ v, negb (valid_visibility (TrimSpace v))) false v
          then fail 400 "visibility must be public or restricted"
          else apply_patch k (from_option TrimSpace (skDisplayName k) n) (default (skDescription k) d)
                 (from_option TrimSpace "" v)
      end
  | _ => fail 400 "body unreadable"
  end.

Definition deleteSkill (r : Req) (user : User) (k : Skill) : Handler :=
  if QueryGet r "hard" =?s "true" then
    if negb (is_admin user) then fail 403 "hard delete requires admin access"
    else call (DeleteSkill (skID k)) (λ _, reply SNoContent)
  else call (YankSkill now (skID k)) (λ _, reply SYanked).

Definition yankVersion (k : Skill) (version : string) : Handler :=
  call (YankVersion now (skID k) version) (λ _, reply SYanked).

Definition downloadArchive (k : Skill) (version : string) : Handler := λ w,
  match OpenArchive (skID k) version w with
  | (ONotFound, w) => (SError 404 "version not found", w)
  | (OFailed, w) => (SError 500 "internal error", w)
  | (OArchive b v, w) =>
      (SArchive (skSlug k +:+ "-" +:+ svVersion v +:+ ".tar.gz") (svArchiveSHA256 v) (svVersion v) b, w)
  end.

Definition listAssignments (k : Skill) : Handler :=
  call (ListAssignmentsForSkill (skID k)) (λ l, reply (SAssignments l)).

Definition decode_assign (body : string) : option (string * string) :=
  l ← struct_fields body;
  u ← decode_string_field "username" l ""; v ← decode_string_field "version" l ""; Some (u, v).

Definition assignSkill (r : Req) (k : Skill) (adminID : string) : Handler :=
  match read_body 4096 r with
  | RBytes body =>
      match decode_assign body with
      | None => fail 400 "invalid JSON"
      | Some (username, version) =>
          if TrimSpace username =?s "" then fail 400 "username is required"
          else call (on_accounts (GetByUsername username)) (λ target,
            match target with
            | None => fail 404 "user not found"
            | Some u =>
                call (AssignSkill now (mkAssignment (skID k) (uID u) (nullableString (TrimSpace version))
                        (nullableString adminID) 0)) (λ a, reply (SAssignment a))
            end)
      end
  | _ => fail 400 "body unreadable"
  end.

Definition unassignSkill (k : Skill) (username : string) : Handler :=
  call (on_accounts (GetByUsername username)) (λ target,
    match target with
    | None => fail 404 "user not found"
    | Some u => call (UnassignSkill (skID k) (uID u)) (λ _, reply SNoContent)
    end).

Definition handleCheckDrift (r : Req) (slug : string) : Handler :=
  if rMethod r !=? "POST" then fail 405 "method not allowed"
  else match checker with
  | None => fail 503 "skill upstream checker disabled"
  | Some g => λ w,
      match RunOneSlug prompt cfg client materialize g now slug w with
      | (Err _, w) => (SError 500 "internal error", w)
      | (Ok None, w) => (SError 404 "skill not found", w)
      | (Ok (Some OutcomeNoUpstream), w) => (SError 409 "skill has no upstream tracking enabled", w)
      | (Ok (Some OutcomeFetchFailed), w) => (SError 502 "upstream fetch failed", w)
      | (Ok (Some OutcomeUpToDate), w) => (SNoContent, w)
      | (Ok (Some OutcomeDrift), w) =>
          logged (GetSkillBySlug slug) (λ r,
            match r with
            | Ok (Some k) => logged (GetUpstream (skID k)) (λ r,
                reply (SOutdated (match r with Ok u => driftBlockFromUpstream u | Err _ => None end)))
            | _ => reply (SOutdated None)
            end) w
      end
  end.

Definition decode_upstream (id body : string) : option SkillUpstream :=
  l ← struct_fields body;
  ty ← decode_string_field "type" l ""; url ← decode_string_field "git_url" l "";
  sub ← decode_string_field "git_subpath" l ""; ref ← decode_string_field "git_ref" l "";
  Some (mkUpstream id ty url sub ref None None None None 0 0).

Definition upsertUpstream (r : Req) (k : Skill) : Handler :=
  if negb (json_content r) then fail 415 "expected application/json"
  else match read_body 4096 r with
  | RBytes body =>
      match decode_upstream (skID k) body with
      | None => fail 400 "invalid JSON"
      | Some u =>
          if (suUpstreamType u !=? "") && (suUpstreamType u !=? "git") then fail 400 "unsupported upstream type"
          else if TrimSpace (suGitURL u) =?s "" then fail 400 "git_url is required"
          else match ValidateGitURL (suGitURL u) with
          | Err e => fail 400 e
          | Ok _ =>
              call (UpsertUpstream now u) (λ _,
              call (GetUpstream (skID k)) (λ u,
                match u with None => fail 500 "internal error" | Some u => reply (SUpstream u) end))
          end
      end
  | _ => fail 400 "body unreadable"
  end.

Definition handleUpstream (r : Req) (k : Skill) : Handler :=
  if rMethod r =?s "PUT" then upsertUpstream r k
  else if rMethod r =?s "DELETE" then call (ClearUpstream (skID k)) (λ _, reply SCleared)
  else fail 405 "method not allowed".

(** ** Routing *)

(** [skill] is known: everything but the first upload of a slug. *)
Definition route (user : User) (key : option APIKey) (r : Req) (slug : string) (k : Skill) (parts : list string) : Handler :=
  let m := rMethod r in
  match parts with
  | [_] =>
      if m =?s "GET" then getSkill k
      else if m =?s "PATCH" then requireCapability user key "skills:publish" (patchSkill r user key k)
      else if m =?s "DELETE" then requireCapability user key "skills:yank" (deleteSkill r user k)
      else fail 405 "method not allowed"
  | [_; sub] =>
      if sub =?s "versions" then if m !=? "GET" then fail 405 "method not allowed" else listVersions k
      else if sub =?s "assignments" then
        admin_only user (if m =?s "GET" then listAssignments k
                         else if m =?s "POST" then assignSkill r k (uID user)
                         else fail 405 "method not allowed")
      else if sub =?s "check-drift" then admin_only user (handleCheckDrift r slug)
      else if sub =?s "upstream" then requireCapability user key "skills:admin" (handleUpstream r k)
      else fail 404 "unknown subresource"
  | [_; sub; item] =>
      if sub =?s "versions" then
        if item =?s "" then fail 400 "missing version"
        else if m =?s "GET" then getVersion k item
        else if m =?s "POST" then requireCapability user key "skills:publish" (uploadVersion r user key slug item)
        else if m =?s "DELETE" then admin_only user (yankVersion k item)
        else fail 405 "method not allowed"
      else if sub =?s "assignments" then
        if item =?s "" then fail 400 "missing username"
        else admin_only user (if m !=? "DELETE" then fail 405 "method not allowed" else unassignSkill k item)
      else fail 404 "unknown subresource"
  | [_; sub; item; leaf] =>
      if (sub !=? "versions") || (leaf !=? "archive") then fail 404 "unknown subresource"
      else if m !=? "GET" then fail 405 "method not allowed"
      else downloadArchive k item
  | _ => fail 404 "unknown subresource"
  end.

(** A slug nobody uses yet: only an upload reaches a handler. *)
Definition route_new (user : User) (key : option APIKey) (r : Req) (slug : string) (parts : list string) : Handler :=
  match parts with
  | _ :: "versions" :: rest =>
      if rMethod r !=? "POST" then fail 404 "skill not found"
      else match rest with
      | [] => fail 404 "skill not found"
      | [item] =>
          if item =?s "" then fail 400 "missing version"
          else requireCapability user key "skills:publish" (uploadVersion r user key slug item)
      | [_; leaf] => if leaf !=? "archive" then fail 404 "unknown subresource" else fail 405 "method not allowed"
      | _ => fail 404 "unknown subresource"
      end
  | _ => fail 404 "skill not found"
  end.

Definition HandleSkillByPath (user : option User) (key : option APIKey) (r : Req) : Handler :=
  match user with
  | None => fail 401 "unauthenticated"
  | Some user =>
      let parts := Split (TrimPrefix (rPath r) "/api/skills/") "/"%char in
      let slug := hd "" parts in
      if slug =?s "" then fail 400 "missing skill slug"
      else call (GetSkillBySlug slug) (λ found,
        match found with
        | None => route_new user key r slug parts
        | Some k =>
            if (rMethod r =?s "GET") && negb (is_admin user) then
              userCanRead user k (λ ok, if ok : bool then route user key r slug k parts else fail 404 "skill not found")
            else route user key r slug k parts
        end)
  end.
End Api.

(** ** Who chooses a skill's audience *)

(** No skill disappears, none changes its visibility, new ones are restricted, and nobody
    is granted or refused a skill. *)
Definition audience_kept (s s' : State) : Prop :=
  assignments s' = assignments s ∧
  ∀ id, match skills s !! id with
        | Some k => ∃ k', skills s' !! id = Some k' ∧ skVisibility k' = skVisibility k
        | None => ∀ k', skills s' !! id = Some k' → skVisibility k' = "restricted"
        end.

Lemma audience_refl s : audience_kept s s.
Proof. split; [done|]. intros id. destruct (skills s !! id); naive_solver. Qed.

Lemma audience_trans s1 s2 s3 : audience_kept s1 s2 → audience_kept s2 s3 → audience_kept s1 s3.
Proof.
  intros [E1 H1] [E2 H2]. split; [congruence|]. intros id. specialize (H1 id). specialize (H2 id).
  destruct (skills s1 !! id) as [k1|].
  - destruct H1 as (k2 & Hk2 & ?). rewrite Hk2 in H2. destruct H2 as (k3 & ? & ?). exists k3. split; [done|congruence].
  - destruct (skills s2 !! id) as [k2|]; [|done]. destruct H2 as (k3 & Hk3 & E). intros k' Hk'. rewrite Hk3 in Hk'. simplify_eq. rewrite E. by apply H1.
Qed.

(** A program or handler that keeps it, whichever statement fails. *)
Definition m_keeps {A} (m : DBM State A) : Prop := ∀ d, audience_kept (tables d) (tables (m d).2).

Lemma m_keeps_ret {A} (a : A) : m_keeps (db_ret a).
Proof. intros d. apply audience_refl. Qed.

Lemma m_keeps_fail {A} e : m_keeps (@db_fail State A e).
Proof. intros d. apply audience_refl. Qed.

Lemma m_keeps_bind {A B} (m : DBM State A) (k : A → DBM State B) : m_keeps m → (∀ a, m_keeps (k a)) → m_keeps (db_bind m k).
Proof.
  intros Hm Hk d. specialize (Hm d). unfold db_bind. destruct (m d) as [[a|e] d']; [|done].
  eapply audience_trans; [exact Hm|apply Hk].
Qed.

Lemma m_keeps_exec {A} (f : State → result (A * State)) : (∀ t a t', f t = Ok (a, t') → audience_kept t t') → m_keeps (exec f).
Proof.
  intros Hf d. destruct (exec_cases f d) as [(e & _ & ->)|(a & t & E & _ & ->)]; [apply audience_refl|eauto].
Qed.

Lemma m_keeps_update (f : State → State) : (∀ t, audience_kept t (f t)) → m_keeps (update f).
Proof. intros Hf. apply m_keeps_exec. intros t a t' [= _ <-]. auto. Qed.

Lemma m_keeps_query {A} (f : State → A) : m_keeps (query f).
Proof. apply m_keeps_exec. intros t a t' [= _ <-]. apply audience_refl. Qed.

Lemma m_keeps_transact {A} (m : DBM State A) : m_keeps m → m_keeps (transact m).
Proof.
  intros Hm d. destruct (transact_cases m d) as [(e & _ & ->)|(a & fs & d1 & _ & Hb & ->)]; [apply audience_refl|].
  specialize (Hm (mkDb (tables d) fs)). by rewrite Hb in Hm.
Qed.

#[local] Hint Resolve m_keeps_ret m_keeps_fail m_keeps_query audience_refl : relay.

Lemma audience_update_skill id f s : (∀ k, skVisibility (f k) = skVisibility k) → audience_kept s (update_skill id f s).
Proof.
  intros Hf. split; [done|]. intros j. cbn. rewrite lookup_alter. case_decide; [subst|].
  - destruct (skills s !! j) as [k|]; cbn; [eauto|done].
  - destruct (skills s !! j) as [k|]; [eauto|done].
Qed.

Lemma audience_other s s' : skills s' = skills s → assignments s' = assignments s → audience_kept s s'.
Proof. intros Hs Ha. split; [done|]. rewrite Hs. apply audience_refl. Qed.

Lemma keeps_meta now id n d : m_keeps (UpdateSkillMeta now id n d "").
Proof. apply m_keeps_update. intros t. by apply audience_update_skill. Qed.

Lemma keeps_outdated (m : DBM State unit) id b :
  m_keeps m → m_keeps (transact (m ;;; update (update_skill id (set_outdated b)))).
Proof.
  intros Hm. apply m_keeps_transact, m_keeps_bind; [done|]. intros _. apply m_keeps_update. intros t. by apply audience_update_skill.
Qed.

Lemma keeps_ClearUpstream id : m_keeps (ClearUpstream id).
Proof. apply keeps_outdated, m_keeps_update. intros t. by apply audience_other. Qed.

Lemma keeps_ClearDrift now id h : m_keeps (ClearDriftReport now id h).
Proof. apply keeps_outdated, m_keeps_update. intros t. by apply audience_other. Qed.

Lemma keeps_UpsertUpstream now u : m_keeps (UpsertUpstream now u).
Proof.
  unfold UpsertUpstream. destruct (ValidateGitURL _); [|auto with relay]. apply m_keeps_exec. intros t out t'. cbv beta zeta.
  destruct (_ !=? "git"); [done|]. destruct (negb _); [done|]. intros [= _ <-]. by apply audience_other.
Qed.

Lemma keeps_CreateVersion now v : m_keeps (CreateVersion now v).
Proof.
  unfold CreateVersion. repeat (case_if; [auto with relay|]). apply m_keeps_bind; [|auto with relay].
  apply m_keeps_transact, m_keeps_bind.
  - apply m_keeps_exec. intros t a t'. cbv beta. repeat case_if; intros [= _ <-]. by apply audience_other.
  - intros _. apply m_keeps_update. intros t. by apply audience_update_skill.
Qed.

Lemma keeps_CreateSkill uuid now sk : skVisibility sk = "restricted" → m_keeps (CreateSkill uuid now sk).
Proof.
  intros Hv. unfold CreateSkill. destruct (ValidateSlug _); [|auto with relay]. rewrite Hv. cbv zeta.
  generalize (if skID sk =?s "" then uuid else skID sk) as id. intros id. cbn [String.eqb valid_visibility orb negb].
  change (negb (valid_visibility (if false then "restricted" else "restricted"))) with false. cbv iota.
  apply m_keeps_exec. intros t out t'. cbv beta. repeat case_if; intros [= _ <-]. bool_prop.
  split; [done|]. intros j. cbn. rewrite lookup_insert. case_decide; [subst|destruct (skills t !! j); naive_solver].
  destruct (skills t !! j) eqn:E; [by exfalso; eauto|]. by intros k' [= <-].
Qed.

(** The named queries are [query]s. *)
Ltac keeps_auto := first [apply m_keeps_query | auto with relay].

Section ApiTheorems.
Context `{Hashing} `{Formats} (prompt : string) (cfg : Config) (client : option LLM).
Context (materialize : string → list Action → result (list (string * Node))).
Context (checker : option GitEnv) (now : Z) (uuid : string) (io : list bool) (partial tmp : string) (tmpDir : result string).

Local Abbreviation by_path := (HandleSkillByPath prompt cfg client materialize checker now uuid io partial tmp tmpDir).
Local Abbreviation route_ := (route prompt cfg client materialize checker now uuid io partial tmp tmpDir).
Local Abbreviation upload_ := (uploadVersion materialize now uuid io partial tmp tmpDir).

Definition h_keeps (h : Handler) : Prop := ∀ w, audience_kept (tables (sdb w)) (tables (sdb (h w).2)).

Lemma h_keeps_reply r : h_keeps (reply r).
Proof. intros w. apply audience_refl. Qed.

Lemma svc_call_keeps {A} (m : DBM State A) w : m_keeps m → audience_kept (tables (sdb w)) (tables (sdb (svc_call m w).2)).
Proof. intros Hm. specialize (Hm (sdb w)). unfold svc_call. by destruct (m (sdb w)). Qed.

Lemma h_keeps_call {A} (m : DBM State A) (k : A → Handler) : m_keeps m → (∀ a, h_keeps (k a)) → h_keeps (call m k).
Proof.
  intros Hm Hk w. pose proof (svc_call_keeps m w Hm) as H1. unfold call. destruct (svc_call m w) as [[a|e] w1]; [|done].
  eapply audience_trans; [exact H1|apply Hk].
Qed.

Lemma h_keeps_logged {A} (m : DBM State A) (k : result A → Handler) : m_keeps m → (∀ a, h_keeps (k a)) → h_keeps (logged m k).
Proof.
  intros Hm Hk w. pose proof (svc_call_keeps m w Hm) as H1. unfold logged. destruct (svc_call m w) as [a w1].
  eapply audience_trans; [exact H1|apply Hk].
Qed.

Lemma h_keeps_drift k next : (∀ d, h_keeps (next d)) → h_keeps (drift_of k next).
Proof. intros Hn. unfold drift_of. case_if; [|auto]. apply h_keeps_logged; [apply m_keeps_query|auto]. Qed.

#[local] Hint Resolve h_keeps_reply m_keeps_query keeps_meta keeps_ClearUpstream keeps_ClearDrift keeps_UpsertUpstream
  keeps_CreateVersion h_keeps_drift : relay.

(** The store part of an upload without a visibility. *)
Lemma upload_keeps slug version body by_ w :
  let i := mkUpload slug version body by_ "" "" "" in
  audience_kept (tables (sdb w)) (tables (sdb (Upload uuid now io partial tmp i w).2)).
Proof.
  cbv zeta. unfold Upload. destruct (check_upload _) as [[m sl]|e]; [|apply audience_refl].
  match goal with |- context [upsert_skill ?a ?b ?c ?n ?ds ?i ?d] => assert (Hu : m_keeps (upsert_skill a b c n ds i));
    [|specialize (Hu d); destruct (upsert_skill a b c n ds i d) as [[k|e] d1]; [|exact Hu]] end.
  { unfold upsert_skill. apply m_keeps_bind; [keeps_auto|]. intros [k|].
    - case_if; [|keeps_auto]. apply m_keeps_bind; keeps_auto.
    - by apply keeps_CreateSkill. }
  lazy beta iota zeta. match goal with |- context [writeArchive ?a ?b ?c ?d ?e ?f] => destruct (writeArchive a b c d e f) as [[u|err] fs] end;
    [|exact Hu]. destruct (manifest_json m) as [mj|]; [|exact Hu].
  cbn [with_sdb with_disk sdb]. match goal with |- context [CreateVersion now ?v d1] => pose proof (keeps_CreateVersion now v d1) as Hc;
    destruct (CreateVersion now v d1) as [[v'|e] d2] end; cbn in Hu, Hc |- *; by eapply audience_trans.
Qed.

Lemma uploadVersion_keeps r user key slug version :
  hasCapability (Some user) key "skills:admin" = false → h_keeps (upload_ r user key slug version).
Proof.
  intros Hcap. unfold uploadVersion. destruct (read_body _ r) as [body| |]; [|apply h_keeps_reply..]. cbv zeta. rewrite Hcap.
  destruct (QueryGet r "visibility" =?s "") eqn:Ev; cbn [negb andb]; [|apply h_keeps_reply]. bool_prop. rewrite Ev. intros w.
  pose proof (upload_keeps slug version body (uID user) w) as Hup. cbv zeta in Hup.
  destruct (Upload _ _ _ _ _ _ w) as [[res|[]] w1]; try exact Hup. eapply audience_trans; [exact Hup|]. cbn [snd].
  revert w1 Hup. intros w1 _. revert w1. change (h_keeps (upload_upstream now r (skID (upSkill res)) (λ recorded,
    rebaseline materialize now tmpDir (skID (upSkill res)) body (reply (SUploaded res recorded))))).
  assert (Hb : ∀ rec, h_keeps (rebaseline materialize now tmpDir (skID (upSkill res)) body (reply (SUploaded res rec)))).
  { intros rec. apply h_keeps_logged; [keeps_auto|]. intros [[u|]|e]; [|apply h_keeps_reply..].
    apply h_keeps_logged; [keeps_auto|]. intros _. apply h_keeps_reply. }
  unfold upload_upstream. case_if; [apply h_keeps_logged; [keeps_auto|]; intros _; apply Hb|]. case_if; [|apply Hb].
  destruct (header_upstream _ _); [|apply Hb]. apply h_keeps_logged; [keeps_auto|]. intros res'. apply Hb.
Qed.

Lemma patchSkill_keeps r user key k :
  hasCapability (Some user) key "skills:admin" = false → h_keeps (patchSkill now r user key k).
Proof.
  intros Hcap. unfold patchSkill. case_if; [apply h_keeps_reply|]. destruct (read_body _ r) as [body| |]; try apply h_keeps_reply.
  destruct (decode_patch body) as [[[v n] d]|]; [|apply h_keeps_reply]. rewrite Hcap.
  destruct v as [v|]; [apply h_keeps_reply|]. cbn [from_option].
  assert (Ha : ∀ name desc, h_keeps (apply_patch now k name desc "")).
  { intros name desc. apply h_keeps_call; [keeps_auto|]. intros _. apply h_keeps_call; [keeps_auto|]. intros []; apply h_keeps_reply. }
  rewrite bool_decide_false by (by intros [? [=]]). cbn [andb]. destruct n, d; try apply h_keeps_reply; repeat case_if; auto; apply h_keeps_reply.
Qed.

Lemma not_admin user key cap : hasCapability (Some user) key cap = false → is_admin user = false.
Proof. unfold hasCapability, is_admin. by destruct (uRole user =?s "admin"). Qed.

Lemma requireCapability_keeps user key cap k : h_keeps k → h_keeps (requireCapability user key cap k).
Proof. intros Hk. unfold requireCapability. case_if; [done|apply h_keeps_reply]. Qed.

Lemma admin_only_keeps user k : is_admin user = false → h_keeps (admin_only user k).
Proof. intros Ha. unfold admin_only. rewrite Ha. apply h_keeps_reply. Qed.

Lemma download_keeps k version : h_keeps (downloadArchive k version).
Proof.
  intros w. unfold downloadArchive, OpenArchive, GetVersion. pose proof (m_keeps_query (λ s, versions s !! (skID k, version)) (sdb w)) as Hq.
  destruct (query _ (sdb w)) as [[[v|]|e] d]; cbn in Hq |- *; try exact Hq. destruct (disk w !! svArchivePath v); exact Hq.
Qed.

Lemma getSkill_keeps k : h_keeps (getSkill k).
Proof. apply h_keeps_call; [keeps_auto|]. intros vs. apply h_keeps_drift. intros d. apply h_keeps_reply. Qed.

Lemma listVersions_keeps k : h_keeps (listVersions k).
Proof. apply h_keeps_call; [keeps_auto|]. intros vs. apply h_keeps_reply. Qed.

Lemma getVersion_keeps k v : h_keeps (getVersion k v).
Proof. apply h_keeps_call; [keeps_auto|]. intros []; apply h_keeps_reply. Qed.

Lemma deleteSkill_keeps r user k : is_admin user = false → h_keeps (deleteSkill now r user k).
Proof.
  intros Ha. unfold deleteSkill. rewrite Ha. case_if; [apply h_keeps_reply|]. apply h_keeps_call; [|intros; apply h_keeps_reply].
  apply m_keeps_update. intros t. by apply audience_update_skill.
Qed.

Lemma upstream_keeps user key k :
  hasCapability (Some user) key "skills:admin" = false → h_keeps (requireCapability user key "skills:admin" k).
Proof. intros Hcap. unfold requireCapability. rewrite Hcap. apply h_keeps_reply. Qed.

Lemma route_keeps user key r slug k parts :
  hasCapability (Some user) key "skills:admin" = false → h_keeps (route_ user key r slug k parts).
Proof.
  intros Hcap. pose proof (not_admin _ _ _ Hcap) as Ha. unfold route. cbv zeta. unfold fail.
  destruct parts as [|p0 [|p1 [|p2 [|p3 [|]]]]]; repeat case_if;
    auto using h_keeps_reply, requireCapability_keeps, admin_only_keeps, patchSkill_keeps, uploadVersion_keeps, download_keeps,
      getSkill_keeps, listVersions_keeps, getVersion_keeps, deleteSkill_keeps, upstream_keeps.
Qed.

Lemma route_new_keeps user key r slug parts :
  hasCapability (Some user) key "skills:admin" = false →
  h_keeps (route_new materialize now uuid io partial tmp tmpDir user key r slug parts).
Proof.
  intros Hcap. unfold route_new, fail. repeat case_match;
    auto using h_keeps_reply, requireCapability_keeps, uploadVersion_keeps.
Qed.

Lemma userCanRead_keeps user k next : (∀ b, h_keeps (next b)) → h_keeps (userCanRead user k next).
Proof.
  intros Hn. unfold userCanRead. repeat (case_if; [auto|]). apply h_keeps_logged; [keeps_auto|]. intros []; auto.
Qed.

(** C14: a caller who is not an administrator and whose key
    does not carry [skills:admin] can publish, retitle and yank, but no request to the
    skills API, with whatever headers and query, changes a skill's visibility, grants or
    revokes an assignment, deletes a skill, or creates one that is not restricted. *)
Theorem publisher_cannot_choose_audience : ∀ user key r w,
  hasCapability (Some user) key "skills:admin" = false →
  audience_kept (tables (sdb w)) (tables (sdb (by_path (Some user) key r w).2)).
Proof.
  intros user key r w Hcap. revert w. fold (h_keeps (by_path (Some user) key r)). unfold HandleSkillByPath. cbv zeta.
  case_if; [apply h_keeps_reply|]. apply h_keeps_call; [keeps_auto|]. intros [k|]; [|by apply route_new_keeps].
  case_if; [|by apply route_keeps]. apply userCanRead_keeps. intros []; [by apply route_keeps|apply h_keeps_reply].
Qed.

(** ** What a user may read *)

Definition visible (s : State) (user : User) (k : Skill) : bool :=
  bool_decide (skYankedAt k = None)
  && ((skVisibility k =?s "public") || bool_decide (is_Some (assignments s !! (skID k, uID user)))).

Lemma existsb_stable_sort {A} (leb : A → A → bool) p l : existsb p (stable_sort leb l) = existsb p l.
Proof.
  apply eq_true_iff_eq. rewrite !existsb_exists. setoid_rewrite <- list_elem_of_In. by setoid_rewrite elem_of_stable_sort.
Qed.

Lemma assigned_exists s id uid : wf s →
  existsb (λ a, saUserID a =?s uid) (omap (λ '(key, a), if key.1 =?s id then Some a else None) (map_to_list (assignments s)))
  = bool_decide (is_Some (assignments s !! (id, uid))).
Proof.
  intros Hwf. apply eq_true_iff_eq. rewrite existsb_exists, bool_decide_eq_true. setoid_rewrite <- list_elem_of_In.
  setoid_rewrite list_elem_of_omap. split.
  - intros (a & ([key a'] & Hin%elem_of_map_to_list & E) & Ha). destruct (key.1 =?s id) eqn:Ek; [|done]. bool_prop. simplify_eq.
    destruct (wf_assignments _ Hwf _ _ Hin) as (-> & _). by exists a.
  - intros [a Ha]. exists a. destruct (wf_assignments _ Hwf _ _ Ha) as (E & _). simplify_eq. split; [|by apply String.eqb_eq].
    exists ((saSkillID a, saUserID a), a). split; [by apply elem_of_map_to_list|]. cbn. by rewrite String.eqb_refl.
Qed.

Lemma userCanRead_visible user k next s fs :
  wf s → is_admin user = false →
  userCanRead user k next (mkSvc (healthy s) fs) = next (visible s user k) (mkSvc (healthy s) fs).
Proof.
  intros Hwf Ha. unfold userCanRead, visible. rewrite Ha. destruct (skYankedAt k) as [y|] eqn:Ey.
  - by rewrite bool_decide_true, bool_decide_false by eauto.
  - rewrite bool_decide_false, bool_decide_true by (done || by intros [? [=]]). cbn [andb].
    destruct (skVisibility k =?s "public"); [done|]. unfold logged, svc_call, ListAssignmentsForSkill, query. cbn [sdb].
    rewrite exec_healthy. cbn [orb]. rewrite existsb_stable_sort, (assigned_exists s _ _ Hwf). done.
Qed.

Lemma assigned_lists_visible s user k id : wf s → skills s !! id = Some k →
  existsb (λ a, skID (asSkill a) =?s skID k)
    (stable_sort (λ a b, slug_leb (asSkill a) (asSkill b)) (omap (assigned_row (uID user) s) (map snd (map_to_list (skills s)))))
  = visible s user k.
Proof.
  intros Hwf Hk. rewrite existsb_stable_sort. apply eq_true_iff_eq. rewrite existsb_exists. setoid_rewrite <- list_elem_of_In.
  setoid_rewrite list_elem_of_omap. destruct (wf_skills _ Hwf _ _ Hk) as (Hid & _). split.
  - intros (a & (k' & Hin & E) & Ea). apply list_elem_of_fmap in Hin as ([id' k''] & -> & Hin%elem_of_map_to_list). cbn in E.
    destruct (wf_skills _ Hwf _ _ Hin) as (Hid' & _). unfold assigned_row in E. destruct (_ && _) eqn:Ev; [|done]. simplify_eq.
    cbn in Ea. apply String.eqb_eq in Ea. rewrite Ea, Hk in Hin. simplify_eq. exact Ev.
  - intros Hv. exists (mkAssigned (set_outdated false k) (assignments s !! (skID k, uID user) ≫= saVersion)).
    split; [|cbn; by rewrite String.eqb_refl]. exists k. split.
    + apply list_elem_of_fmap. exists (id, k). split; [done|]. by apply elem_of_map_to_list.
    + unfold assigned_row. unfold visible in Hv. by rewrite Hv.
Qed.

(** on a healthy database a GET under a skill's path is served
    to a user who is not an administrator exactly when that skill is in the list the
    assigned endpoint computes for the user; otherwise the answer and the state are those
    of a slug that does not exist. *)
Theorem get_follows_assigned_list : ∀ user key r s fs,
  wf s → is_admin user = false → rMethod r = "GET" →
  let parts := Split (TrimPrefix (rPath r) "/api/skills/") "/"%char in
  let slug := hd "" parts in
  slug ≠ "" →
  by_path (Some user) key r (mkSvc (healthy s) fs) =
  match skill_by_slug slug s, outcome (AssignedForUser (uID user)) (healthy s) with
  | Some k, Ok l => if existsb (λ a, skID (asSkill a) =?s skID k) l
                    then route_ user key r slug k parts (mkSvc (healthy s) fs)
                    else (SError 404 "skill not found", mkSvc (healthy s) fs)
  | _, _ => (SError 404 "skill not found", mkSvc (healthy s) fs)
  end.
Proof.
  intros user key r s fs Hwf Ha Hm parts slug Hslug. unfold HandleSkillByPath. fold parts. fold slug.
  rewrite (proj2 (String.eqb_neq _ _) Hslug). unfold call, svc_call, GetSkillBySlug, query. cbn [sdb]. rewrite exec_healthy.
  unfold outcome, AssignedForUser, query. rewrite exec_healthy. unfold with_sdb. cbn [fst disk].
  destruct (skill_by_slug slug s) as [k|] eqn:Ek.
  - rewrite Hm, Ha. cbn [String.eqb Ascii.eqb Bool.eqb andb negb].
    change (("GET" =?s "GET") && true) with true. cbv iota.
    destruct (skill_by_slug_Some _ _ _ Ek) as (id & Hk & _). rewrite (assigned_lists_visible s user k id Hwf Hk).
    rewrite userCanRead_visible by done. by destruct (visible s user k).
  - unfold route_new. rewrite Hm. by repeat case_match.
Qed.

(** the list of skills a user who is not an administrator gets
    never carries a drift block, although each skill read on its own does: the query
    behind the list does not select the outdated flag. *)
Theorem user_list_hides_drift : ∀ user r w l w',
  is_admin user = false → HandleSkills (Some user) r w = (SSkills l, w') → Forall (λ x, x.2 = None) l.
Proof.
  intros user r w l w' Ha. unfold HandleSkills. case_if; [done|]. unfold call, svc_call, listForUser. rewrite Ha.
  unfold db_bind, AssignedForUser. destruct (query _ (sdb w)) as [[rows|e] d] eqn:E; [|done]. apply query_ok in E as [Er _].
  cbn [with_sdb]. assert (Hf : Forall (λ k, skOutdated k = false) (map asSkill rows)).
  { apply Forall_map, Forall_forall. intros a Hin. rewrite Er, elem_of_stable_sort, list_elem_of_omap in Hin.
    destruct Hin as (k & _ & Ek). unfold assigned_row in Ek. case_if; by simplify_eq. }
  clear Er. generalize dependent (map asSkill rows). clear rows.
  assert (Hg : ∀ ks acc, Forall (λ k, skOutdated k = false) ks → Forall (λ x : Skill * opt_drift, x.2 = None) acc →
    ∀ w1, with_drifts ks acc w1 = (SSkills l, w') → Forall (λ x, x.2 = None) l).
  { induction ks as [|k ks IH]; intros acc Hks Hacc w1; cbn.
    - unfold reply. intros [= <- _]. by apply Forall_rev.
    - apply Forall_cons in Hks as [Hk Hks]. unfold drift_of. rewrite Hk. apply IH; [done|]. by constructor. }
  intros ks Hks. by apply Hg.
Qed.
End ApiTheorems.

(** ** Concrete requests *)
Definition demo_user : User := mkUser "u" "bob" "" "user" "write" None false 1 None "".

Definition publisher_key : APIKey := mkKey "k" "u" "" "ci" None "" 0 None false ["skills:publish"].

Definition upstream_json (field url : string) : string := Marshal (JObj [("type", JStr "git"); (field, JStr url)]).

(** An upload that names an upstream in its header, and the request meant for that. *)
Definition upload_with_upstream : Req :=
  mkReq "POST" "/api/skills/pdf/versions/1.1.0" ∅ {["X-Upstream" := upstream_json "url" "https://elsewhere.example/x"]}
    (demo_archive "new") false.

Definition put_upstream : Req :=
  mkReq "PUT" "/api/skills/pdf/upstream" ∅ {["Content-Type" := "application/json"]}
    (upstream_json "git_url" "https://elsewhere.example/x") false.

Definition demo_handle (r : Req) (w : SvcWorld) : SReply * SvcWorld :=
  HandleSkillByPath (H:=toy_hashing) "" demo_cfg None demo_materialize None 9 "k9" [] "" "tmp" (Ok "/tmp/x")
    (Some demo_user) (Some publisher_key) r w.

(** a key with [skills:publish] only is refused when it
    configures the repository the relay clones for a skill, but the same key does exactly
    that with the header of an upload. *)
Theorem publish_key_sets_upstream :
  hasCapability (Some demo_user) (Some publisher_key) "skills:admin" = false ∧
  demo_handle put_upstream demo_svc = (SError 403 "missing capability: skills:admin", demo_svc) ∧
  suGitURL <$> upstreams (tables (sdb (demo_handle upload_with_upstream demo_svc).2)) !! "k1"
  = Some "https://elsewhere.example/x".
Proof. split_and!; vm_compute; reflexivity. Qed.

Lemma publisher_cannot_choose_audience_witness :
  audience_kept (tables (sdb demo_svc)) (tables (sdb (demo_handle upload_with_upstream demo_svc).2)).
Proof.
  exact (publisher_cannot_choose_audience (H:=toy_hashing) "" demo_cfg None demo_materialize None 9 "k9" [] "" "tmp" (Ok "/tmp/x")
    demo_user (Some publisher_key) upload_with_upstream demo_svc eq_refl).
Defined.

Definition demo_get : Req := mkReq "GET" "/api/skills/pdf" ∅ ∅ "" false.

Lemma get_follows_assigned_list_witness :
  demo_handle demo_get (mkSvc (healthy demo_store) ∅) = (SError 404 "skill not found", mkSvc (healthy demo_store) ∅).
Proof.
  exact (get_follows_assigned_list (H:=toy_hashing) "" demo_cfg None demo_materialize None 9 "k9" [] "" "tmp" (Ok "/tmp/x")
    demo_user (Some publisher_key) demo_get demo_store ∅ demo_store_wf eq_refl eq_refl ltac:(discriminate)).
Defined.

Definition demo_public : State :=
  mkState Users.demo {["k1" := mkSkill "k1" "pdf" "PDF" "" "public" "" None None 0 0 true]} ∅ ∅ {["k1" := demo_upstream]}.

Lemma user_list_hides_drift_witness :
  Forall (λ x : Skill * opt_drift, x.2 = None)
    [(mkSkill "k1" "pdf" "PDF" "" "public" "" None None 0 0 false, None)].
Proof.
  apply (user_list_hides_drift demo_user (mkReq "GET" "/api/skills" ∅ ∅ "" false) (mkSvc (healthy demo_public) ∅) _
    (mkSvc (healthy demo_public) ∅)); vm_compute; reflexivity.
Defined.
