(* ===== verification/MemoryStore.v ===== *)
(** * The transcript memory store

    [src/internal/store/memory_sessions.go], [memory_sessions_extract.go], [memory_messages.go],
    [memory_messages_range.go], [memory_extractions.go] and [memory_extraction_progress.go] over the
    tables of [src/migrations-memory]: sessions, their messages in id order, and the
    provenance rows of the extractor.  Times that the code keeps as float64 seconds are
    nanoseconds here; the rounding of float64 is not modelled.  Errors of the engine keep its
    own text: the prefixes that the store functions put before it are left out. *)
From S2P Require Import Prelude GoStrings Json JsonDecode Middleware.

(** ** Data *)

(** The columns of [memory_sessions] that the code reads and writes as one struct; the empty
    string stands for NULL in the nullable ones, as every query coalesces it. *)
Record MemorySession := mkMemSession {
  SessionID : string; UserID : string; ProjectDir : string; FilePath : string; FileMtime : Z; IndexedAt : Z;
  LastSeenAt : Z; CustomTitle : string; Platform : string; BytesSeen : Z;
  RawCwd : string; ProjectKey : string; IsSubagent : bool; SourceParentSessionID : string }.

(** The extraction bookkeeping of the same row. *)
Record ExtractionState := mkExtState {
  ExtractedThroughMsgID : option Z; ExtractAttempts : Z; LastExtractAttemptAt : option Z;
  ExtractPoisonedAt : option Z; LastActivityAt : option Z; LastIngestedAt : option Z;
  LastExtractedAt : option Z; ClientCounters : option string }.

Record Row := mkRow { sess : MemorySession; ext : ExtractionState }.

(** [msgUUID] is [EmptyString] for NULL. *)
Record Message := mkMsg {
  msgID : Z; msgUUID : string; msgSession : string; msgParent : string; msgEpoch : Z; msgTimestamp : string;
  msgRole : string; msgContent : string; msgPlatform : string }.

Record MemoryExtraction := mkExtraction {
  exID : Z; exSession : string; exAt : Z; exChunkIndex : Z; exMsgUUIDs : string; exChars : Z;
  exMemoryIDs : string; exCount : Z; exError : option string }.

(** [messages] and [extractions] are in id order; the [seq] fields are the AUTOINCREMENT counters. *)
Record State := mkState {
  sessions : gmap string Row; messages : list Message; msg_seq : Z; extractions : list MemoryExtraction; ext_seq : Z }.

Definition empty : State := mkState ∅ [] 0 [] 0.

Definition with_sessions (s : State) m : State := mkState m (messages s) (msg_seq s) (extractions s) (ext_seq s).

Definition with_extractions (s : State) l : State := mkState (sessions s) (messages s) (msg_seq s) l (ext_seq s).

Definition on_row (id : string) (f : Row → Row) (s : State) : State := with_sessions s (alter f id (sessions s)).

Definition fresh_ext : ExtractionState := mkExtState None 0 None None None None None None.

Definition no_rows : string := "sql: no rows in result set".

Definition ErrForeignSession : string := "session belongs to another user".

(** ** Sessions *)

(** The [ON CONFLICT(session_id) DO UPDATE] clause: every other column is insert-only. *)
Definition merge_session (old new : MemorySession) : MemorySession :=
  mkMemSession (SessionID old) (UserID old) (ProjectDir old) (FilePath old) (FileMtime new) (IndexedAt old)
    (LastSeenAt new) (if CustomTitle new =?s "" then CustomTitle old else CustomTitle new) (Platform old)
    (BytesSeen new) (RawCwd old) (ProjectKey old) (IsSubagent old) (SourceParentSessionID old).

Definition upsert_row (m : MemorySession) (s : State) : State :=
  with_sessions s (<[SessionID m := match sessions s !! SessionID m with
                                    | Some r => mkRow (merge_session (sess r) m) (ext r)
                                    | None => mkRow m fresh_ext
                                    end]> (sessions s)).

Definition Upsert (m : MemorySession) : DBM State unit := update (upsert_row m).

(** [None] is the absent session. *)
Definition Owner (id : string) : DBM State (option string) :=
  query (λ s, (UserID ∘ sess) <$> sessions s !! id).

Definition record_ingest (ingestedAt : Z) (activityAt : option Z) (counters : string) (r : Row) : Row :=
  let e := ext r in
  mkRow (sess r)
    (mkExtState (ExtractedThroughMsgID e) (ExtractAttempts e) (LastExtractAttemptAt e) (ExtractPoisonedAt e)
       (match activityAt with None => LastActivityAt e | Some a => Some (Z.max (default 0%Z (LastActivityAt e)) a) end)
       (Some ingestedAt) (LastExtractedAt e) (if counters =?s "" then ClientCounters e else Some counters)).

Definition RecordIngestTx (id : string) (ingestedAt : Z) (activityAt : option Z) (counters : string) : DBM State unit :=
  update (on_row id (record_ingest ingestedAt activityAt counters)).

Definition Get (id : string) : DBM State MemorySession :=
  exec (λ s, match sessions s !! id with Some r => Ok (sess r, s) | None => Err no_rows end).

Definition rows_of (s : State) : list Row := map snd (map_to_list (sessions s)).

Definition newest_first (a b : Row) : bool := (LastSeenAt (sess b) <=? LastSeenAt (sess a))%Z.

Definition clamp_limit (limit max dflt : Z) : nat :=
  Z.to_nat (if ((limit <=? 0) || (max <? limit))%Z then dflt else limit).

Definition user_rows (userID projectDir : string) (s : State) : list Row :=
  List.filter (λ r, (UserID (sess r) =?s userID) && ((projectDir =?s "") || (ProjectDir (sess r) =?s projectDir)))
    (rows_of s).

Definition ListByUser (userID : string) (limit : Z) : DBM State (list MemorySession) :=
  query (λ s, map sess (take (clamp_limit limit 200 50) (stable_sort newest_first (user_rows userID "" s)))).

Record ProjectGroup := mkGroup { pgDir : string; pgCount : Z; pgLastSeen : Z; pgFirstSeen : Z; pgBytes : Z }.

Definition group_of (l : list Row) (dir : string) : ProjectGroup :=
  let g := List.filter (λ r, ProjectDir (sess r) =?s dir) l in
  let col f := map (λ r, f (sess r)) g in
  let fold1 f (xs : list Z) := match xs with [] => 0%Z | x :: r => foldr f x r end in
  mkGroup dir (Z.of_nat (length g)) (fold1 Z.max (col LastSeenAt)) (fold1 Z.min (col FileMtime))
    (foldr Z.add 0%Z (col BytesSeen)).

Definition GroupByProject (userID : string) (limit : Z) : DBM State (list ProjectGroup) :=
  query (λ s, let l := user_rows userID "" s in
              let dirs := sort_strings (remove_dups (map (λ r, ProjectDir (sess r)) l)) in
              take (clamp_limit limit 200 50)
                (stable_sort (λ a b, (pgLastSeen b <=? pgLastSeen a)%Z) (map (group_of l) dirs))).

(** Two statements: the count, then the page. *)
Definition ListByUserPaged (userID projectDir : string) (limit offset : Z) : DBM State (list MemorySession * Z) :=
  let! total := query (λ s, Z.of_nat (length (user_rows userID projectDir s))) in
  let! page := query (λ s, map sess (take (clamp_limit limit 200 25)
                                       (drop (Z.to_nat offset) (stable_sort newest_first (user_rows userID projectDir s))))) in
  db_ret (page, total).

Definition in_session (id : string) (m : Message) : bool := msgSession m =?s id.

Definition CountMessages (id : string) : DBM State Z :=
  query (λ s, Z.of_nat (length (List.filter (in_session id) (messages s)))).

Definition touch (mtime bytes : Z) (r : Row) : Row :=
  let m := sess r in
  mkRow (mkMemSession (SessionID m) (UserID m) (ProjectDir m) (FilePath m) mtime (IndexedAt m) mtime (CustomTitle m)
           (Platform m) bytes (RawCwd m) (ProjectKey m) (IsSubagent m) (SourceParentSessionID m)) (ext r).

Definition Touch (id : string) (mtime bytes : Z) : DBM State unit := update (on_row id (touch mtime bytes)).

(** ** Extraction bookkeeping *)

Definition with_ext (f : ExtractionState → ExtractionState) (r : Row) : Row := mkRow (sess r) (f (ext r)).

Definition MarkExtracted (id : string) (ts : Z) : DBM State unit :=
  update (on_row id (with_ext (λ e,
    mkExtState (ExtractedThroughMsgID e) (ExtractAttempts e) (LastExtractAttemptAt e) (ExtractPoisonedAt e)
      (LastActivityAt e) (LastIngestedAt e) (Some ts) (ClientCounters e)))).

(** [now] is the engine's clock, whole seconds of it. *)
Definition ListStaleForExtraction (now limit : Z) : DBM State (list string) :=
  query (λ s, map (SessionID ∘ sess) (take (clamp_limit limit 500 50) (stable_sort newest_first
    (List.filter (λ r, (LastSeenAt (sess r) <? (sqliteTime now - 3600) * second)%Z
                       && match LastExtractedAt (ext r) with None => true | Some t => (t <? LastSeenAt (sess r))%Z end)
       (rows_of s))))).

Definition GetExtractionState (id : string) : DBM State Row :=
  exec (λ s, match sessions s !! id with Some r => Ok (r, s) | None => Err no_rows end).

Record EligibilityConfig := mkEligibility {
  Platforms : list string; MaxAge : Z; QuietPeriod : Z; Backoff1 : Z; Backoff2 : Z; Backoff3 : Z }.

Definition DefaultEligibilityConfig : EligibilityConfig :=
  mkEligibility ["claude-code"] (30 * 24 * hour) (60 * second) (5 * minute) (30 * minute) (2 * hour).

(** [id > COALESCE(extracted_through_msg_id, 0)] *)
Definition watermark (e : ExtractionState) : Z := default 0%Z (ExtractedThroughMsgID e).

Definition above (id : string) (after : Z) (m : Message) : bool := in_session id m && (after <? msgID m)%Z.

(** The SQL predicate of [EligibilityConfig.where]; an empty platform list is [IN (NULL)],
    which no row passes. *)
Definition where_eligible (cfg : EligibilityConfig) (now : Z) (s : State) (r : Row) : bool :=
  let m := sess r in let e := ext r in
  negb (IsSubagent m) && existsb (String.eqb (Platform m)) (Platforms cfg)
  && match LastActivityAt e with None => false | Some t => (now - MaxAge cfg <=? t)%Z end
  && match LastIngestedAt e with None => true | Some t => (t <? now - QuietPeriod cfg)%Z end
  && existsb (above (SessionID m) (watermark e)) (messages s)
  && ((ExtractAttempts e =? 0)%Z
      || match LastExtractAttemptAt e with
         | None => true
         | Some t => (t + (if (ExtractAttempts e =? 1)%Z then Backoff1 cfg
                           else if (ExtractAttempts e =? 2)%Z then Backoff2 cfg else Backoff3 cfg) <=? now)%Z
         end).

(** [ORDER BY COALESCE(last_extract_attempt_at, 0) ASC, last_activity_at DESC] *)
Definition least_recently_attempted (a b : Row) : bool :=
  let att r := default 0%Z (LastExtractAttemptAt (ext r)) in
  let act r := default 0%Z (LastActivityAt (ext r)) in
  (att a <? att b)%Z || ((att a =? att b)%Z && (act b <=? act a)%Z).

Definition ListEligibleForAutoExtraction (now : Z) (cfg : EligibilityConfig) (limit : Z) : DBM State (list string) :=
  query (λ s, map (SessionID ∘ sess) (take (clamp_limit limit 500 50)
    (stable_sort least_recently_attempted (List.filter (where_eligible cfg now s) (rows_of s))))).

Definition IsEligibleForAutoExtraction (id : string) (now : Z) (cfg : EligibilityConfig) : DBM State bool :=
  query (λ s, match sessions s !! id with Some r => where_eligible cfg now s r | None => false end).

Definition BeginExtractAttempt (id : string) (now : Z) : DBM State unit :=
  update (on_row id (with_ext (λ e,
    mkExtState (ExtractedThroughMsgID e) (ExtractAttempts e) (Some now) (ExtractPoisonedAt e)
      (LastActivityAt e) (LastIngestedAt e) (LastExtractedAt e) (ClientCounters e)))).

Definition complete_ext (through now : Z) (e : ExtractionState) : ExtractionState :=
  mkExtState (Some through) 0 (LastExtractAttemptAt e) (ExtractPoisonedAt e) (LastActivityAt e)
    (LastIngestedAt e) (Some now) (ClientCounters e).

Definition CompleteExtractPass (id : string) (through now : Z) : DBM State unit :=
  update (on_row id (with_ext (complete_ext through now))).

Definition fail_ext (e : ExtractionState) : ExtractionState :=
  mkExtState (ExtractedThroughMsgID e) (ExtractAttempts e + 1)%Z (LastExtractAttemptAt e) (ExtractPoisonedAt e)
    (LastActivityAt e) (LastIngestedAt e) (LastExtractedAt e) (ClientCounters e).

(** [UPDATE ... RETURNING] of a missing session has no row to scan. *)
Definition FailExtractPass (id : string) : DBM State Z :=
  exec (λ s, match sessions s !! id with
             | Some r => Ok (ExtractAttempts (ext r) + 1, on_row id (with_ext fail_ext) s)%Z
             | None => Err no_rows
             end).

Definition poison_ext (through now : Z) (e : ExtractionState) : ExtractionState :=
  mkExtState (Some through) 0 (LastExtractAttemptAt e) (Some now) (LastActivityAt e)
    (LastIngestedAt e) (LastExtractedAt e) (ClientCounters e).

Definition PoisonExtractRange (id : string) (through now : Z) : DBM State unit :=
  update (on_row id (with_ext (poison_ext through now))).

Definition CountPoisoned : DBM State Z :=
  query (λ s, Z.of_nat (length (List.filter (λ r, bool_decide (is_Some (ExtractPoisonedAt (ext r)))) (rows_of s)))).

(** ** Messages *)

Definition fk_failed : string := "FOREIGN KEY constraint failed".

Definition messagePlatform (m : Message) : string := if msgPlatform m =?s "" then "claude-code" else msgPlatform m.

(** The unique index on [(session_id, uuid)]: NULL uuids are distinct. *)
Definition duplicate (m : Message) (l : list Message) : bool :=
  (msgUUID m !=? "") && existsb (λ x, in_session (msgSession m) x && (msgUUID x =?s msgUUID m)) l.

(** The statement [insertMessageSQL]: the stored row's id, or [None] for a skipped duplicate. *)
Definition insert_message (m : Message) (s : State) : result (option Z * State) :=
  if duplicate m (messages s) then Ok (None, s)
  else if negb (bool_decide (is_Some (sessions s !! msgSession m))) then Err fk_failed
  else
    let id := (msg_seq s + 1)%Z in
    let row := mkMsg id (msgUUID m) (msgSession m) (msgParent m) (msgEpoch m) (msgTimestamp m) (msgRole m)
                 (msgContent m) (messagePlatform m) in
    Ok (Some id, mkState (sessions s) (messages s ++ [row]) id (extractions s) (ext_seq s)).

Definition InsertMessage (m : Message) : DBM State (option Z) := exec (insert_message m).

(** [BulkInsertTx] after its [Prepare]: the number of rows stored. *)
Fixpoint bulk_insert (msgs : list Message) (stored : Z) : DBM State Z :=
  match msgs with
  | [] => db_ret stored
  | m :: r =>
      let! id := InsertMessage m in
      bulk_insert r (match id with Some _ => stored + 1 | None => stored end)%Z
  end.

Definition BulkInsertTx (msgs : list Message) : DBM State Z :=
  match msgs with
  | [] => db_ret 0%Z
  | _ => let! _ := query (λ _, tt) in bulk_insert msgs 0
  end.

Definition BulkInsert (msgs : list Message) : DBM State Z :=
  match msgs with [] => db_ret 0%Z | _ => transact (BulkInsertTx msgs) end.

(** [GetSession] and [GetSessionRange]; the list is in id order. *)
Definition GetSession (id : string) (fromEpoch : Z) : DBM State (list Message) :=
  query (λ s, List.filter (λ m, in_session id m && (fromEpoch <=? msgEpoch m)%Z) (messages s)).

Definition session_range (id : string) (after limit : Z) (s : State) : list Message :=
  take (Z.to_nat (if (limit <=? 0)%Z then 400 else limit)) (List.filter (above id after) (messages s)).

Definition GetSessionRange (id : string) (after limit : Z) : DBM State (list Message) :=
  query (session_range id after limit).

(** *** Search *)

Record SearchOpts := mkOpts {
  soLimit : Z; soProjectDir : string; soSessionID : string; soRole : string; soSinceEpoch : Z }.

Record SearchHit := mkHit { hitMessage : Message; hitScore : Z }.

(** The FTS5 index of SQLite: a query is a syntax error ([None]) or scores the rows of the
    indexed table that it matches. *)
Class Fts5 := { fts_match : list Message → string → option (Message → option Z) }.

Definition opt_filter (want have : string) : bool := (want =?s "") || (have =?s want).

(** The join with [memory_sessions] and the optional conditions. *)
Definition in_scope (userID : string) (o : SearchOpts) (s : State) (m : Message) : bool :=
  match sessions s !! msgSession m with
  | None => false
  | Some r => (UserID (sess r) =?s userID) && opt_filter (soProjectDir o) (ProjectDir (sess r))
              && opt_filter (soSessionID o) (msgSession m) && opt_filter (soRole o) (msgRole m)
  end.

Definition score_leb (a b : SearchHit) : bool := (hitScore a <=? hitScore b)%Z.

Section Search.
Context `{Fts5} `{Regexp}.

Definition Search (userID query_text : string) (o : SearchOpts) : DBM State (list SearchHit) :=
  exec (λ s,
    match fts_match (messages s) query_text with
    | None => Err "SQL logic error"
    | Some score =>
        let hit m := match score m with
                     | Some k => if in_scope userID o s m && ((soSinceEpoch o <=? 0)%Z || (soSinceEpoch o <=? msgEpoch m)%Z)
                                 then [mkHit m k] else []
                     | None => []
                     end in
        Ok (take (clamp_limit (soLimit o) 200 25) (stable_sort score_leb (flat_map hit (messages s))), s)
    end).

(** The 5000 newest rows in scope, then the first [limit] of them that match. *)
Definition SearchRegex (userID pattern : string) (o : SearchOpts) : DBM State (list SearchHit) :=
  match Compile pattern with
  | None => db_fail "compile regex: error parsing regexp"
  | Some re =>
      query (λ s, let recent := take 5000 (rev (List.filter (in_scope userID o s) (messages s))) in
                  take (clamp_limit (soLimit o) 500 100)
                    (map (λ m, mkHit m 0) (List.filter (λ m, MatchString re (msgContent m)) recent)))
  end.
End Search.

(** ** Provenance rows *)

(** [INSERT INTO memory_extractions]. *)
Definition InsertExtraction (e : MemoryExtraction) : DBM State unit :=
  exec (λ s,
    if negb (bool_decide (is_Some (sessions s !! exSession e))) then Err fk_failed
    else
      let id := (ext_seq s + 1)%Z in
      let row := mkExtraction id (exSession e) (exAt e) (exChunkIndex e) (exMsgUUIDs e) (exChars e) (exMemoryIDs e)
                   (exCount e) (exError e) in
      Ok (tt, mkState (sessions s) (messages s) (msg_seq s) (extractions s ++ [row]) id)).

Definition chunk_leb (a b : MemoryExtraction) : bool := (exChunkIndex a <=? exChunkIndex b)%Z.

Definition ListBySession (id : string) : DBM State (list MemoryExtraction) :=
  query (λ s, stable_sort chunk_leb (List.filter (λ e, exSession e =?s id) (extractions s))).

(** Rows, memories produced, time of the last call. *)
Definition ExtractionStats : DBM State (Z * Z * Z) :=
  query (λ s, let l := extractions s in
              (Z.of_nat (length l), foldr Z.add 0%Z (map exCount l),
               match map exAt l with [] => 0%Z | x :: r => foldr Z.max x r end)).

(** [json.Unmarshal] of a blob into a [[]string]: a [null] element is the empty string. *)
Definition decode_strings (blob : string) : option (list string) :=
  match Unmarshal blob with
  | Some (JArr l) => mapM (λ j, match j with JStr x => Some x | JNull => Some "" | _ => None end) l
  | Some JNull => Some []
  | _ => None
  end.

Definition succeeded (id : string) (e : MemoryExtraction) : bool :=
  (exSession e =?s id) && bool_decide (exError e = None).

Definition row_uuids (e : MemoryExtraction) : list string := default [] (decode_strings (exMsgUUIDs e)).

(** The message uuids a successful row already sent; a blob that does not parse is skipped. *)
Definition covered_uuids (id : string) (s : State) : list string :=
  flat_map row_uuids (List.filter (succeeded id) (extractions s)).

Definition CoveredUUIDs (id : string) : DBM State (list string) := query (covered_uuids id).

Definition PruneErrors (before : Z) : DBM State Z :=
  exec (λ s, let old e := bool_decide (is_Some (exError e)) && (exAt e <? before)%Z in
             Ok (Z.of_nat (length (List.filter old (extractions s))),
                 with_extractions s (List.filter (λ e, negb (old e)) (extractions s)))).

(** ** Invariants *)

(** Rows are filed under their key, ids are positive, ascending and within the counter, messages
    belong to a session, a uuid names one message of its session, and a watermark is an id that
    has been given out. *)
Record wf (s : State) : Prop := mkWf {
  wf_key : ∀ id r, sessions s !! id = Some r → SessionID (sess r) = id;
  wf_seq : (0 <= msg_seq s)%Z;
  wf_sorted : StronglySorted Z.lt (map msgID (messages s));
  wf_ids : Forall (λ m, 0 < msgID m <= msg_seq s)%Z (messages s);
  wf_fk : Forall (λ m, is_Some (sessions s !! msgSession m)) (messages s);
  wf_unique : ∀ m1 m2, m1 ∈ messages s → m2 ∈ messages s → msgUUID m1 ≠ "" →
    msgSession m1 = msgSession m2 → msgUUID m1 = msgUUID m2 → m1 = m2;
  wf_mark : ∀ id r, sessions s !! id = Some r →
    (0 <= watermark (ext r) <= msg_seq s)%Z ∧ (0 <= ExtractAttempts (ext r))%Z }.

Lemma wf_empty : wf empty.
Proof. split; cbn; try done; try (intros ?? Hm; by apply elem_of_nil in Hm); constructor. Qed.

Lemma on_row_is_Some id f s k : is_Some (sessions (on_row id f s) !! k) ↔ is_Some (sessions s !! k).
Proof. unfold on_row. cbn. by rewrite lookup_alter_is_Some. Qed.

Lemma on_row_lookup id f s k r :
  sessions (on_row id f s) !! k = Some r →
  (k = id ∧ ∃ r0, sessions s !! id = Some r0 ∧ r = f r0) ∨ (k ≠ id ∧ sessions s !! k = Some r).
Proof.
  unfold on_row. cbn. intros E. destruct (decide (id = k)) as [->|Hne].
  - rewrite lookup_alter_eq in E. destruct (sessions s !! k); naive_solver.
  - rewrite lookup_alter_ne in E by done. naive_solver.
Qed.

Lemma wf_on_row id f s :
  wf s →
  (∀ r, sessions s !! id = Some r → SessionID (sess (f r)) = SessionID (sess r)
        ∧ (0 <= watermark (ext (f r)) <= msg_seq s)%Z ∧ (0 <= ExtractAttempts (ext (f r)))%Z) →
  wf (on_row id f s).
Proof.
  intros [] Hf. split; try done.
  - intros k r [(-> & r0 & E & ->)|[_ E]]%on_row_lookup; [|eauto]. rewrite (proj1 (Hf _ E)). eauto.
  - eapply Forall_impl; [eassumption|]. intros m Hm. by apply on_row_is_Some.
  - intros k r [(-> & r0 & E & ->)|[_ E]]%on_row_lookup; [|by eauto]. apply (Hf _ E).
Qed.

Lemma upsert_lookup m s k r :
  sessions (upsert_row m s) !! k = Some r →
  (k = SessionID m ∧ match sessions s !! k with
                     | Some r0 => r = mkRow (merge_session (sess r0) m) (ext r0)
                     | None => r = mkRow m fresh_ext
                     end) ∨ (k ≠ SessionID m ∧ sessions s !! k = Some r).
Proof.
  unfold upsert_row. cbn. destruct (decide (SessionID m = k)) as [<-|Hne].
  - rewrite lookup_insert_eq. intros [= <-]. left. split; [done|]. by destruct (sessions s !! SessionID m).
  - rewrite lookup_insert_ne by done. auto.
Qed.

Lemma upsert_is_Some m s k : is_Some (sessions s !! k) → is_Some (sessions (upsert_row m s) !! k).
Proof. unfold upsert_row. cbn. intros H. rewrite lookup_insert. case_decide; [by eexists|done]. Qed.

Lemma wf_upsert m s : wf s → wf (upsert_row m s).
Proof.
  intros []. split; try done.
  - intros k r [(-> & E)|[_ E]]%upsert_lookup; [|eauto].
    destruct (sessions s !! SessionID m) eqn:E0; subst r; [|done]. cbn. eauto.
  - eapply Forall_impl; [eassumption|]. intros x. apply upsert_is_Some.
  - intros k r [(-> & E)|[_ E]]%upsert_lookup; [|by eauto].
    destruct (sessions s !! SessionID m) eqn:E0; subst r; [exact (wf_mark0 _ _ E0)|]. cbn. lia.
Qed.

Lemma duplicate_spec m l :
  duplicate m l = true ↔ msgUUID m ≠ "" ∧ ∃ x, x ∈ l ∧ msgSession x = msgSession m ∧ msgUUID x = msgUUID m.
Proof.
  unfold duplicate. rewrite andb_true_iff, negb_true_iff, String.eqb_neq, existsb_exists.
  setoid_rewrite andb_true_iff. setoid_rewrite String.eqb_eq. setoid_rewrite list_elem_of_In. done.
Qed.

Lemma insert_message_ok m s o s' :
  insert_message m s = Ok (o, s') →
  sessions s' = sessions s ∧ extractions s' = extractions s ∧
  ((duplicate m (messages s) = true ∧ o = None ∧ s' = s) ∨
   (duplicate m (messages s) = false ∧ is_Some (sessions s !! msgSession m) ∧ o = Some (msg_seq s + 1)%Z
    ∧ msg_seq s' = (msg_seq s + 1)%Z
    ∧ ∃ row, messages s' = messages s ++ [row] ∧ msgID row = (msg_seq s + 1)%Z ∧ msgSession row = msgSession m
             ∧ msgUUID row = msgUUID m)).
Proof.
  unfold insert_message. destruct (duplicate m (messages s)) eqn:Ed.
  - intros [= <- <-]. split_and!; [done..|]. by left.
  - destruct (bool_decide _) eqn:Eb; [|done]. bool_prop. intros [= <- <-]. cbn. split_and!; [done..|].
    right. split_and!; try done. by eexists.
Qed.

Lemma StronglySorted_snoc {A} (R : A → A → Prop) l x :
  StronglySorted R l → Forall (λ y, R y x) l → StronglySorted R (l ++ [x]).
Proof.
  induction 1 as [|y l Hs IH Hf]; cbn; [by repeat constructor|]. intros [Hy Hl]%Forall_cons.
  constructor; [by apply IH|]. apply Forall_app. auto.
Qed.

Lemma wf_insert_message m s o s' : insert_message m s = Ok (o, s') → wf s → wf s'.
Proof.
  intros E Hwf. apply insert_message_ok in E as (Es & _ & [(_ & _ & ->)|(Ed & Hfk & _ & Eq & row & Em & Hid & Hse & Hu)]); [done|].
  destruct Hwf. assert (Hdup : ∀ x, x ∈ messages s → msgUUID m ≠ "" → msgSession x = msgSession m → msgUUID x ≠ msgUUID m).
  { intros x Hx Hne Hs Hux. assert (duplicate m (messages s) = true) by (apply duplicate_spec; eauto). congruence. }
  split.
  - by rewrite Es.
  - lia.
  - rewrite Em, map_app. apply StronglySorted_snoc; [done|]. rewrite Forall_map. eapply Forall_impl; [exact wf_ids0|]. cbn. lia.
  - rewrite Em, Eq. apply Forall_app. split; [|constructor; [lia|done]]. eapply Forall_impl; [exact wf_ids0|]. cbn. lia.
  - rewrite Em, Es. apply Forall_app. split; [done|]. constructor; [by rewrite Hse|done].
  - rewrite Em. intros m1 m2. rewrite !elem_of_app, !list_elem_of_singleton. intros [H1| ->] [H2| ->] Hne Hs Hu'; eauto.
    + destruct (Hdup m1 H1); congruence.
    + destruct (Hdup m2 H2); congruence.
  - rewrite Es, Eq. intros id r Hr. destruct (wf_mark0 _ _ Hr). lia.
Qed.

(** *** What only ingest does *)

(** [s'] has the sessions, messages and rows of [s], the extraction progress of its sessions
    unchanged and their owners too; further messages have new ids. *)
Definition same_progress (e e' : ExtractionState) : Prop :=
  ExtractedThroughMsgID e' = ExtractedThroughMsgID e ∧ ExtractAttempts e' = ExtractAttempts e
  ∧ LastExtractAttemptAt e' = LastExtractAttemptAt e ∧ ExtractPoisonedAt e' = ExtractPoisonedAt e.

Record grows (s s' : State) : Prop := mkGrows {
  gr_messages : ∃ new, messages s' = messages s ++ new ∧ Forall (λ m, msg_seq s < msgID m)%Z new;
  gr_seq : (msg_seq s <= msg_seq s')%Z;
  gr_extractions : extractions s' = extractions s;
  gr_keep : ∀ id r, sessions s !! id = Some r → ∃ r', sessions s' !! id = Some r'
    ∧ UserID (sess r') = UserID (sess r) ∧ same_progress (ext r) (ext r');
  gr_new : ∀ id r', sessions s' !! id = Some r' → sessions s !! id = None → same_progress fresh_ext (ext r') }.

Lemma same_progress_refl e : same_progress e e.
Proof. done. Qed.

Lemma same_progress_trans e1 e2 e3 : same_progress e1 e2 → same_progress e2 e3 → same_progress e1 e3.
Proof. unfold same_progress. intros (? & ? & ? & ?) (? & ? & ? & ?). split_and!; congruence. Qed.

Lemma grows_refl s : grows s s.
Proof.
  split; [exists []; rewrite app_nil_r; by split|lia|done|eauto 10 using same_progress_refl|intros; congruence].
Qed.

Lemma grows_trans s1 s2 s3 : grows s1 s2 → grows s2 s3 → grows s1 s3.
Proof.
  intros [(n1 & E1 & F1) Q1 X1 K1 N1] [(n2 & E2 & F2) Q2 X2 K2 N2]. split.
  - exists (n1 ++ n2). rewrite E2, E1, app_assoc. split; [done|]. apply Forall_app. split; [done|].
    eapply Forall_impl; [exact F2|]. cbn. lia.
  - lia.
  - congruence.
  - intros id r Hr. destruct (K1 _ _ Hr) as (r1 & H1 & U1 & P1). destruct (K2 _ _ H1) as (r2 & H2 & U2 & P2).
    exists r2. split_and!; [done|congruence|by eapply same_progress_trans].
  - intros id r3 H3 Hn. destruct (sessions s2 !! id) as [r2|] eqn:H2; [|eauto].
    destruct (K2 _ _ H2) as (r & Hr & _ & P). simplify_eq. eapply same_progress_trans; [|done]. eauto.
Qed.

Lemma grows_upsert m s : grows s (upsert_row m s).
Proof.
  split; try done.
  - exists []. rewrite app_nil_r. by split.
  - intros id r Hr. unfold upsert_row. cbn. rewrite lookup_insert. case_decide as E; [subst id|eauto using same_progress_refl].
    rewrite Hr. eexists. split_and!; [done|done|apply same_progress_refl].
  - intros id r' [(-> & E)|[_ E]]%upsert_lookup Hn; [|congruence]. rewrite Hn in E. by subst r'.
Qed.

Lemma grows_record id t a c s : grows s (on_row id (record_ingest t a c) s).
Proof.
  split; try done.
  - exists []. rewrite app_nil_r. by split.
  - intros k r Hr. unfold on_row. cbn. rewrite lookup_alter. case_decide as E; [subst k|eauto using same_progress_refl].
    rewrite Hr. cbn. eexists. split_and!; done.
  - intros k r' [(-> & r0 & E & _)|[_ E]]%on_row_lookup; congruence.
Qed.

Lemma grows_insert m s o s' : insert_message m s = Ok (o, s') → grows s s'.
Proof.
  intros (Es & Ex & [(_ & _ & ->)|(_ & _ & _ & Eq & row & Em & Hid & _)])%insert_message_ok; [apply grows_refl|].
  split; [|lia|done|rewrite Es; eauto using same_progress_refl|rewrite Es; congruence].
  exists [row]. split; [done|]. constructor; [lia|done].
Qed.
