(* ===== verification/MemoryService.v ===== *)
(** * The transcript memory service

    [src/internal/memory/service.go]: transcripts are parsed and stored under the calling
    user, and searched, listed and counted. *)
From S2P Require Import Prelude GoStrings Json JsonDecode Middleware MemoryStore.

(** ** Parsers

    [src/internal/memory/parser/parser.go]: one parser per platform, found by name. *)
Record CompactEvent := mkCompact {
  ceUUID : string; ceSessionID : string; ceEpoch : Z; ceTimestamp : string; ceTriggerType : string;
  ceTokenCountBefore : Z }.

Definition Parser : Type := string → result (list Message * list CompactEvent).

Definition Registry : Type := gmap string Parser.

Definition Register (platform : string) (p : Parser) (reg : Registry) : Registry := <[platform := p]> reg.

Definition GetParser (platform : string) (reg : Registry) : option Parser := reg !! platform.

(** Go's [time.Parse] with the four layouts of [timestampLayouts], tried in order: the
    instant that a trimmed text names. *)
Class TimeParser := { parse_layouts : string → option Z }.

(** ** Ingest *)

Record IngestRequest := mkIngest {
  irSessionID : string; irProjectDir : string; irFilePath : string; irFileMtime : Z; irBytesSeen : Z;
  irPlatform : string; irJSONL : string; irRawCwd : string; irProjectKey : string; irIsSubagent : bool;
  irSourceParent : string; irCounters : option (list (string * json)) }.

Record IngestResponse := mkIngestResp { MessagesAdded : Z; EventsAdded : Z; RespBytesSeen : Z }.

Section Service.
Context `{TimeParser} (reg : Registry).

Definition parseTimestamp (s : string) : option Z :=
  let t := TrimSpace s in if t =?s "" then None else parse_layouts t.

Definition newestTimestamp (msgs : list Message) : option Z :=
  foldl (λ newest m,
    match parseTimestamp (msgTimestamp m) with
    | None => newest
    | Some ts => match newest with
                 | None => Some ts
                 | Some n => if (n <? ts)%Z then Some ts else newest
                 end
    end) None msgs.

(** The loop that stamps the parsed rows with the request's session and platform. *)
Definition stamp (req : IngestRequest) (m : Message) : Message :=
  mkMsg (msgID m) (msgUUID m) (irSessionID req) (msgParent m) (msgEpoch m) (msgTimestamp m) (msgRole m)
    (msgContent m) (irPlatform req).

Definition session_of (userID : string) (req : IngestRequest) : MemorySession :=
  mkMemSession (irSessionID req) userID (irProjectDir req) (irFilePath req) (irFileMtime req) (irFileMtime req)
    (irFileMtime req) "" (irPlatform req) (irBytesSeen req) (irRawCwd req) (irProjectKey req) (irIsSubagent req)
    (irSourceParent req).

Definition counters_json (req : IngestRequest) : string :=
  match irCounters req with None => "" | Some l => Marshal (marshal_map l) end.

(** The body of the transaction. *)
Definition ingest_tx (now : Z) (userID : string) (req : IngestRequest) (msgs : list Message) : DBM State Z :=
  let! owner := Owner (irSessionID req) in
  if match owner with Some o => o !=? userID | None => false end then db_fail ErrForeignSession
  else
    let! _ := Upsert (session_of userID req) in
    let! stored := BulkInsertTx msgs in
    let! _ := RecordIngestTx (irSessionID req) now (newestTimestamp msgs) (counters_json req) in
    db_ret stored.

Definition Ingest (now : Z) (userID : string) (req : IngestRequest) : DBM State IngestResponse :=
  if irSessionID req =?s "" then db_fail "session_id is required"
  else if irPlatform req =?s "" then db_fail "platform is required"
  else
    match GetParser (irPlatform req) reg with
    | None => db_fail ("unknown platform " +:+ quoted (irPlatform req))
    | Some p =>
        match p (irJSONL req) with
        | Err e => db_fail ("parse: " +:+ e)
        | Ok (parsed, events) =>
            let msgs := map (stamp req) parsed in
            let! stored := transact (ingest_tx now userID req msgs) in
            db_ret (mkIngestResp stored (Z.of_nat (length events)) (irBytesSeen req))
        end
    end.
End Service.

Definition SessionOwnedBy (userID sessionID : string) : DBM State bool :=
  let! owner := Owner sessionID in
  db_ret (match owner with Some o => o =?s userID | None => false end).

(** ** Reading *)

Definition not_found : string := "session not found".

(** The session of the calling user: a missing one and another user's look the same. *)
Definition own_session (userID sessionID : string) : DBM State MemorySession :=
  let! r := attempt (Get sessionID) in
  match r with
  | Err e => db_fail (if e =?s no_rows then not_found else "get session: " +:+ e)
  | Ok m => if UserID m !=? userID then db_fail not_found else db_ret m
  end.

Definition SessionExtract (userID sessionID : string) (fromEpoch : Z) : DBM State (list Message) :=
  let! _ := own_session userID sessionID in GetSession sessionID fromEpoch.

Definition GetSessionWithMessages (userID sessionID : string) (fromEpoch : Z) :
    DBM State (MemorySession * list Message) :=
  let! m := own_session userID sessionID in
  let! msgs := GetSession sessionID fromEpoch in
  db_ret (m, msgs).

(** The regular-expression characters that route a query away from FTS5. *)
Definition is_meta (c : ascii) : bool :=
  existsb (Ascii.eqb c) [bslash; "."; "*"; "+"; "?"; "["; "]"; "{"; "}"; "("; ")"; "|"; "^"; "$"]%char.

Definition last_char (s : string) : option ascii := String.get (String.length s - 1) s.

Definition hasRegexMeta (q : string) : bool :=
  if (2 <=? String.length q) && bool_decide (String.get 0 q = Some dquote) && bool_decide (last_char q = Some dquote)
  then false
  else negb (all_chars (λ c, negb (is_meta c)) q).

(** [strings.ReplaceAll(query, quote, quote quote)] between two quotes. *)
Fixpoint double_quotes (s : string) : string :=
  match s with
  | EmptyString => ""
  | String c r => if Ascii.eqb c dquote then String dquote (String dquote (double_quotes r)) else String c (double_quotes r)
  end.

Definition phrase (q : string) : string := quoted (double_quotes q).

Section SearchService.
Context `{Fts5} `{Regexp}.

Definition SearchMemory (userID q : string) (o : SearchOpts) : DBM State (list SearchHit) :=
  if hasRegexMeta q then SearchRegex userID q o
  else
    let! r1 := attempt (Search userID q o) in
    match r1 with
    | Ok hits => db_ret hits
    | Err e =>
        let! r2 := attempt (Search userID (phrase q) o) in
        match r2 with
        | Ok hits => db_ret hits
        | Err _ =>
            let! r3 := attempt (SearchRegex userID q o) in
            match r3 with
            | Ok hits => db_ret hits
            | Err _ => db_fail ("fts5 + phrase + regex all failed; first error: " +:+ e)
            end
        end
    end.
End SearchService.

Definition Recent (userID : string) (limit : Z) : DBM State (list MemorySession) := ListByUser userID limit.

Definition RecentByProject (userID : string) (limit : Z) : DBM State (list ProjectGroup) := GroupByProject userID limit.

Definition SessionsPaged (userID projectDir : string) (limit offset : Z) : DBM State (list MemorySession * Z) :=
  ListByUserPaged userID projectDir limit offset.

Definition SessionMessageCount (sessionID : string) : DBM State Z := CountMessages sessionID.

(** ** Statistics *)

Record Stats := mkStats {
  DBBytes : Z; StSessions : Z; StMessages : Z; LastIngestAt : Z; StLastActivityAt : Z; StPlatforms : list string;
  MessagesByPlatform : gmap string Z; StClientCounters : gmap string Z }.

Definition incr (k : string) (v : Z) (m : gmap string Z) : gmap string Z := <[k := (default 0 (m !! k) + v)%Z]> m.

Definition messages_by_platform (s : State) : gmap string Z :=
  foldr (λ m acc, incr (msgPlatform m) 1 acc) ∅ (messages s).

(** [json.Unmarshal] into a [map\[string\]int64]: a later key replaces an earlier one, a [null]
    value is zero. *)
Fixpoint decode_counters (l : list (string * json)) (acc : gmap string Z) : option (gmap string Z) :=
  match l with
  | [] => Some acc
  | (k, JNum lit) :: r => z ← int_literal lit; decode_counters r (<[k := z]> acc)
  | (k, JNull) :: r => decode_counters r (<[k := 0%Z]> acc)
  | _ => None
  end.

Definition blob_counters (blob : string) : gmap string Z :=
  default ∅ (l ← struct_fields blob; decode_counters l ∅).

Definition add_counters (m acc : gmap string Z) : gmap string Z := map_fold incr acc m.

Definition client_counters (s : State) : gmap string Z :=
  foldr (λ r acc, match ClientCounters (ext r) with
                  | Some b => add_counters (blob_counters b) acc
                  | None => acc
                  end) ∅ (rows_of s).

Definition newest (f : ExtractionState → option Z) (s : State) : Z :=
  match omap (λ r, f (ext r)) (rows_of s) with [] => 0%Z | x :: r => foldr Z.max x r end.

(** [page_bytes] is the engine's page count times its page size. *)
Definition GetStats (reg : Registry) (page_bytes : Z) : DBM State Stats :=
  let! byPlatform := query messages_by_platform in
  let! counters := query client_counters in
  let! bytes := query (λ _, page_bytes) in
  let! n := query (λ s, Z.of_nat (size (sessions s))) in
  let! k := query (λ s, Z.of_nat (length (messages s))) in
  let! times := query (λ s, (newest LastIngestedAt s, newest LastActivityAt s)) in
  db_ret (mkStats bytes n k times.1 times.2 (map fst (map_to_list reg)) byPlatform counters).

(** ** Ingest keeps what the tables promise *)

Section Invariants.
Context `{TimeParser} (reg : Registry).

(** What every statement of an ingest of session [sid] keeps, the ingest keeps. *)
Lemma ingest_tx_preserves (P : State → Prop) now userID req msgs :
  Forall (λ m, msgSession m = irSessionID req) msgs →
  (∀ s, P s → P (upsert_row (session_of userID req) s)) →
  (∀ m s o s', msgSession m = irSessionID req → insert_message m s = Ok (o, s') → P s → P s') →
  (∀ t a c s, P s → P (on_row (irSessionID req) (record_ingest t a c) s)) →
  preserves P (ingest_tx now userID req msgs).
Proof.
  intros Hm Hu Hi Hr. unfold ingest_tx. apply preserves_bind; [apply preserves_query|]. intros o.
  destruct (match o with Some _ => _ | None => _ end); [apply preserves_fail|].
  apply preserves_bind; [by apply preserves_update|]. intros _. apply preserves_bind.
  - assert (Hb : ∀ n, preserves P (bulk_insert msgs n)).
    { induction Hm as [|m l Hs _ IH]; intros n; cbn; [apply preserves_ret|].
      apply preserves_bind; [|done]. apply preserves_exec. intros s a s' Hs1 E. by eapply Hi. }
    unfold BulkInsertTx. destruct msgs; [apply preserves_ret|]. apply preserves_bind; [apply preserves_query|]. intros _. apply Hb.
  - intros n. apply preserves_bind; [apply preserves_update; eauto|]. intros _. apply preserves_ret.
Qed.

Lemma stamped req l : Forall (λ m, msgSession m = irSessionID req) (map (stamp req) l).
Proof. apply Forall_map. by apply Forall_true. Qed.

Lemma ingest_preserves (P : State → Prop) now userID req :
  (∀ s, P s → P (upsert_row (session_of userID req) s)) →
  (∀ m s o s', msgSession m = irSessionID req → insert_message m s = Ok (o, s') → P s → P s') →
  (∀ t a c s, P s → P (on_row (irSessionID req) (record_ingest t a c) s)) →
  preserves P (Ingest reg now userID req).
Proof.
  intros Hu Hi Hr. unfold Ingest. repeat (case_if; [apply preserves_fail|]).
  destruct (GetParser _ reg) as [p|]; [|apply preserves_fail].
  destruct (p _) as [[parsed events]|e]; [|apply preserves_fail].
  apply preserves_bind; [|intros n; apply preserves_ret].
  apply preserves_transact, ingest_tx_preserves; auto using stamped.
Qed.

Lemma ingest_wf now userID req : preserves wf (Ingest reg now userID req).
Proof.
  apply ingest_preserves.
  - intros s. apply wf_upsert.
  - intros m s o s' _. apply wf_insert_message.
  - intros t a c s Hs. apply wf_on_row; [done|]. intros r Hr. split; [done|]. exact (wf_mark _ Hs _ _ Hr).
Qed.

Lemma ingest_grows s0 now userID req : preserves (grows s0) (Ingest reg now userID req).
Proof.
  apply ingest_preserves.
  - intros s Hs. eapply grows_trans; [done|]. apply grows_upsert.
  - intros m s o s' _ E Hs. eapply grows_trans; [done|]. by eapply grows_insert.
  - intros t a c s Hs. eapply grows_trans; [done|]. apply grows_record.
Qed.

(** An error leaves no trace. *)
Lemma ingest_err now userID req d e :
  fst (Ingest reg now userID req d) = Err e → tables (snd (Ingest reg now userID req d)) = tables d.
Proof.
  unfold Ingest. repeat (case_if; [done|]). destruct (GetParser _ reg) as [p|]; [|done].
  destruct (p _) as [[parsed events]|e']; [|done]. set (m := transact _). intros E. unfold db_bind in *.
  pose proof (transact_atomic (ingest_tx now userID req (map (stamp req) parsed)) d). fold m in H0.
  destruct (m d) as [[n|e2] d1]; [done|]. by eapply H0.
Qed.

(** The other sessions and their messages. *)
Definition others (sid : string) (s0 s : State) : Prop :=
  ∀ id, id ≠ sid → sessions s !! id = sessions s0 !! id
    ∧ List.filter (in_session id) (messages s) = List.filter (in_session id) (messages s0).

Lemma ingest_others s0 now userID req :
  preserves (others (irSessionID req) s0) (Ingest reg now userID req).
Proof.
  apply ingest_preserves.
  - intros s Hs id Hne. destruct (Hs id Hne) as [<- <-]. cbn. by rewrite lookup_insert_ne.
  - intros m s o s' Hm (Es & _ & [(_ & _ & ->)|(_ & _ & _ & _ & row & Em & _ & Hr & _)])%insert_message_ok Hs; [done|].
    intros id Hne. destruct (Hs id Hne) as [<- <-]. rewrite Es, Em, List.filter_app. split; [done|]. cbn.
    unfold in_session at 2. rewrite Hr, Hm. destruct (irSessionID req =?s id) eqn:E; [bool_prop; congruence|].
    apply app_nil_r.
  - intros t a c s Hs id Hne. destruct (Hs id Hne) as [<- <-]. cbn. by rewrite lookup_alter_ne.
Qed.

(** A session of another user stops the transaction. *)
Lemma ingest_foreign now userID req d r :
  sessions (tables d) !! irSessionID req = Some r → UserID (sess r) ≠ userID →
  ∃ e, fst (Ingest reg now userID req d) = Err e.
Proof.
  intros Hr Hne. unfold Ingest. repeat (case_if; [by eexists|]). destruct (GetParser _ reg) as [p|]; [|by eexists].
  destruct (p _) as [[parsed events]|e]; [|by eexists].
  set (m := transact _). unfold db_bind. destruct (m d) as [[n|e2] d1] eqn:E; [|by eexists]. exfalso.
  destruct (transact_ok (ingest_tx now userID req (map (stamp req) parsed)) d n) as (fs & d2 & Hb & _).
  { fold m. by rewrite E. }
  apply bind_ok in Hb as (o & d3 & Ho & Hk). apply query_ok in Ho as [-> _]. cbn in Hk. rewrite Hr in Hk. cbn in Hk.
  by rewrite (proj2 (String.eqb_neq _ _) Hne) in Hk.
Qed.

(** C17: whatever is ingested and whatever statements fail, an ingest in the name
    of one user leaves the sessions of every other user and their messages as they were. *)
Theorem ingest_respects_owners : ∀ now userID req d id r,
  sessions (tables d) !! id = Some r → UserID (sess r) ≠ userID →
  let s' := tables (snd (Ingest reg now userID req d)) in
  sessions s' !! id = Some r
  ∧ List.filter (in_session id) (messages s') = List.filter (in_session id) (messages (tables d)).
Proof.
  intros now userID req d id r Hr Hne s'. destruct (decide (id = irSessionID req)) as [->|Hid].
  - destruct (ingest_foreign now userID req d r Hr Hne) as [e He]. subst s'. by rewrite (ingest_err _ _ _ _ _ He).
  - assert (Ho : others (irSessionID req) (tables d) s') by (apply ingest_others; intros ??; done).
    destruct (Ho id Hid) as [-> ->]. done.
Qed.

(** *** Replays *)

Lemma duplicate_mono m l new : duplicate m l = true → duplicate m (l ++ new) = true.
Proof. rewrite !duplicate_spec. intros (? & x & Hx & ?). split; [done|]. exists x. rewrite elem_of_app. auto. Qed.

Lemma bulk_insert_ok msgs : ∀ n d k d',
  bulk_insert msgs n d = (Ok k, d') →
  (∃ new, messages (tables d') = messages (tables d) ++ new)
  ∧ Forall (λ m, msgUUID m ≠ "" → duplicate m (messages (tables d')) = true) msgs.
Proof.
  induction msgs as [|m r IH]; intros n d k d'; cbn.
  { intros [= <- <-]. split; [exists []; by rewrite app_nil_r|done]. }
  intros (o & d1 & E1%exec_ok & E2)%bind_ok. apply IH in E2 as [[new E2] Hf].
  apply insert_message_ok in E1 as (_ & _ & [(Hd & _ & E)|(_ & _ & _ & _ & row & Em & _ & Hs & Hu)]).
  - rewrite E in E2. split; [by exists new|]. constructor; [|done]. intros _. rewrite E2. by apply duplicate_mono.
  - rewrite Em, <- app_assoc in E2. split; [by eexists|]. constructor; [|done]. intros Hne.
    rewrite duplicate_spec. split; [done|]. exists row. rewrite E2, !elem_of_app, list_elem_of_singleton. auto.
Qed.

Lemma bulk_insert_replay msgs : ∀ n s,
  Forall (λ m, duplicate m (messages s) = true) msgs → bulk_insert msgs n (healthy s) = (Ok n, healthy s).
Proof.
  induction msgs as [|m r IH]; intros n s Hf; [done|]. apply Forall_cons in Hf as [Hm Hr]. cbn.
  unfold db_bind, InsertMessage. rewrite exec_healthy. unfold insert_message. rewrite Hm. by apply IH.
Qed.

Lemma ingest_tx_ok now userID req msgs d n d' :
  ingest_tx now userID req msgs d = (Ok n, d') →
  (∃ r, sessions (tables d') !! irSessionID req = Some r ∧ UserID (sess r) = userID)
  ∧ Forall (λ m, msgUUID m ≠ "" → duplicate m (messages (tables d')) = true) msgs.
Proof.
  unfold ingest_tx. intros (o & d1 & Eo & E)%bind_ok. apply query_ok in Eo as [Ho Et].
  destruct (match o with Some _ => _ | None => _ end) eqn:Eg; [done|].
  apply bind_ok in E as ([] & d2 & Eu & E). apply update_ok in Eu. apply bind_ok in E as (k & d3 & Eb & E).
  apply bind_ok in E as ([] & d4 & Er & E). apply update_ok in Er. unfold db_ret in E. simplify_eq E. intros <- <-.
  assert (Hrow : ∃ r, sessions (tables d2) !! irSessionID req = Some r ∧ UserID (sess r) = userID).
  { rewrite Eu, Et. unfold upsert_row. cbn. rewrite lookup_insert_eq. eexists. split; [done|].
    subst o. cbn in Eg. destruct (sessions (tables d) !! irSessionID req) as [r|]; [|done]. cbn in *. by bool_prop. }
  assert (Hb : sessions (tables d3) = sessions (tables d2)
    ∧ Forall (λ m, msgUUID m ≠ "" → duplicate m (messages (tables d3)) = true) msgs).
  { unfold BulkInsertTx in Eb. destruct msgs as [|m l]; [unfold db_ret in Eb; by simplify_eq|].
    apply bind_ok in Eb as (u & d5 & Eq & Eb). apply query_ok in Eq as [_ Eq]. split.
    - rewrite <- Eq. clear -Eb. revert Eb. generalize 0%Z d5. generalize (m :: l). clear.
      induction l as [|x l IH]; intros n d; cbn; [by intros [= _ <-]|].
      intros (o & d1 & E1%exec_ok & E2)%bind_ok. rewrite (IH _ _ E2). by apply insert_message_ok in E1 as [? _].
    - by apply bulk_insert_ok in Eb as [_ ?]. }
  destruct Hb as [Hs Hf]. rewrite Er. split; [|done]. destruct Hrow as (r & Hr & Hu). unfold on_row. cbn.
  rewrite lookup_alter_eq, Hs, Hr. cbn. by eexists.
Qed.

(** a delta whose messages all carry a uuid can be sent again: after it was
    stored once, the second ingest succeeds, reports no new message and stores none. *)
Theorem ingest_replay_adds_nothing : ∀ now now' userID req p parsed events s r s1,
  GetParser (irPlatform req) reg = Some p → p (irJSONL req) = Ok (parsed, events) →
  Forall (λ m, msgUUID m ≠ "") parsed →
  Ingest reg now userID req (healthy s) = (Ok r, healthy s1) →
  ∃ s2, Ingest reg now' userID req (healthy s1)
        = (Ok (mkIngestResp 0 (Z.of_nat (length events)) (irBytesSeen req)), healthy s2)
  ∧ messages s2 = messages s1.
Proof.
  intros now now' userID req p parsed events s r s1 Hp Hparse Hne. unfold Ingest.
  destruct (irSessionID req =?s ""); [done|]. destruct (irPlatform req =?s ""); [done|]. rewrite Hp, Hparse.
  intros (n & d1 & E & E2)%bind_ok. unfold db_ret in E2. simplify_eq E2. intros _ ->.
  destruct (transact_ok (ingest_tx now userID req (map (stamp req) parsed)) (healthy s) n) as (fs & d2 & Hb & Ht); [by rewrite E|].
  rewrite E in Ht. cbn in Ht. subst s1. apply ingest_tx_ok in Hb as [(row & Hr & Hu) Hf].
  assert (Hd : Forall (λ m, duplicate m (messages (tables d2)) = true) (map (stamp req) parsed)).
  { rewrite Forall_map in Hf |- *. rewrite Forall_forall in Hf, Hne |- *. intros m Hm. apply (Hf m Hm). cbn. by apply Hne. }
  set (s1 := tables d2) in *. set (su := upsert_row (session_of userID req) s1).
  assert (Hbulk : BulkInsertTx (map (stamp req) parsed) (healthy su) = (Ok 0%Z, healthy su)).
  { unfold BulkInsertTx. destruct (map (stamp req) parsed) eqn:Em; [done|]. rewrite <- Em in *.
    unfold db_bind at 1, query. rewrite exec_healthy. by apply bulk_insert_replay. }
  unfold db_bind at 1. unfold transact. cbn [faults healthy next_fault tables].
  fold (healthy s1). unfold ingest_tx, Owner. unfold db_bind at 1, query. rewrite exec_healthy, Hr. cbn [fmap option_fmap option_map].
  replace (compose UserID sess row !=? userID) with false by (symmetry; apply negb_false_iff, String.eqb_eq; done).
  unfold db_bind at 1, Upsert, update. rewrite exec_healthy. fold su. unfold db_bind at 1. rewrite Hbulk.
  unfold db_bind, RecordIngestTx, update. rewrite exec_healthy. cbn [db_ret faults healthy next_fault tables]. by eexists.
Qed.
End Invariants.

(** ** Reads are scoped to the user *)

Definition owned (userID : string) (s : State) (m : Message) : Prop :=
  ∃ r, sessions s !! msgSession m = Some r ∧ UserID (sess r) = userID.

Lemma exec_err_tables {T A} (f : T → result (A * T)) d e d' : exec f d = (Err e, d') → tables d' = tables d.
Proof. intros E. destruct (exec_cases f d) as [(? & _ & Ht)|(? & ? & _ & Ht & _)]; by rewrite E in Ht. Qed.

Section Scope.
Context `{Fts5} `{Regexp}.

Lemma in_scope_owned userID o s m : in_scope userID o s m = true → owned userID s m.
Proof.
  unfold in_scope, owned. destruct (sessions s !! msgSession m) as [r|]; [|done]. intros Hs. bool_prop. exists r. by split.
Qed.

Lemma search_owned userID q o d hits d' :
  Search userID q o d = (Ok hits, d') →
  tables d' = tables d ∧ Forall (λ h, owned userID (tables d) (hitMessage h)) hits.
Proof.
  intros E%exec_ok. destruct (fts_match _ _) as [score|]; [|done]. injection E as <- Et. split; [by symmetry|].
  apply Forall_take. rewrite stable_sort_perm. apply List.Forall_forall. intros h (m & _ & Hh)%in_flat_map.
  destruct (score m) as [k|]; [|done].
  destruct (in_scope userID o (tables d) m) eqn:Es; cbn in Hh; [|done]. case_if; [|done].
  destruct Hh as [<-|[]]. by eapply in_scope_owned.
Qed.

Lemma search_regex_owned userID q o d hits d' :
  SearchRegex userID q o d = (Ok hits, d') → Forall (λ h, owned userID (tables d) (hitMessage h)) hits.
Proof.
  unfold SearchRegex. destruct (Compile q) as [re|]; [|done]. intros [-> _]%query_ok.
  apply Forall_take, Forall_map, List.Forall_forall. cbn. intros m [Hm _]%filter_In.
  apply list_elem_of_In, subseteq_take, list_elem_of_In, in_rev, filter_In in Hm as [_ Hm]. by eapply in_scope_owned.
Qed.

Lemma search_err_tables userID q o d e d' : Search userID q o d = (Err e, d') → tables d' = tables d.
Proof. apply exec_err_tables. Qed.

(** whichever of the three search paths answers, every hit is a message of a
    session that belongs to the searching user. *)
Theorem search_scoped_to_user : ∀ userID q o d hits d',
  SearchMemory userID q o d = (Ok hits, d') → Forall (λ h, owned userID (tables d) (hitMessage h)) hits.
Proof.
  intros userID q o d hits d'. unfold SearchMemory. destruct (hasRegexMeta q); [by apply search_regex_owned|].
  unfold db_bind, attempt. destruct (Search userID q o d) as [[h1|e1] d1] eqn:E1.
  { intros [= <- <-]. by apply search_owned in E1 as [_ ?]. }
  apply search_err_tables in E1. destruct (Search userID (phrase q) o d1) as [[h2|e2] d2] eqn:E2.
  { intros [= <- <-]. apply search_owned in E2 as [_ E2]. by rewrite <- E1. }
  apply search_err_tables in E2. destruct (SearchRegex userID q o d2) as [[h3|e3] d3] eqn:E3; [|done].
  intros [= <- <-]. apply search_regex_owned in E3. by rewrite <- E1, <- E2.
Qed.
End Scope.

(** the messages of a session are returned only to its owner; for everybody
    else an existing session answers exactly as a missing one. *)
Theorem session_of_others_not_found : ∀ userID sessionID fromEpoch s,
  fst (SessionExtract userID sessionID fromEpoch (healthy s)) =
  match sessions s !! sessionID with
  | Some r => if UserID (sess r) =?s userID
              then Ok (List.filter (λ m, in_session sessionID m && (fromEpoch <=? msgEpoch m)%Z) (messages s))
              else Err not_found
  | None => Err not_found
  end.
Proof.
  intros u id ep s. unfold SessionExtract, own_session. unfold db_bind at 1 2. rewrite attempt_run. unfold Get.
  rewrite exec_healthy. destruct (sessions s !! id) as [r|]; [|done]. cbn.
  by destruct (UserID (sess r) =?s u).
Qed.

(** ** Witnesses *)

Definition toy_time : TimeParser := {| parse_layouts := λ _, None |}.
Definition toy_parser : Parser := λ data, Ok ([mkMsg 0 data "" "" 0 "" "user" "hello" ""], []).
Definition toy_registry : Registry := Register "toy" toy_parser ∅.
Definition toy_request (id : string) : IngestRequest := mkIngest id "/p" "/p/f" 1 10 "toy" "u1" "" "" false "" None.
Definition toy_session (id user : string) : Row := mkRow (session_of user (toy_request id)) fresh_ext.
Definition toy_state : State := mkState {["s1" := toy_session "s1" "bob"]} [] 0 [] 0.

Lemma ingest_respects_owners_witness :
  let s' := tables (snd (Ingest (H := toy_time) toy_registry 5 "alice" (toy_request "s1") (healthy toy_state))) in
  sessions s' !! "s1" = Some (toy_session "s1" "bob")
  ∧ List.filter (in_session "s1") (messages s') = [].
Proof.
  apply (ingest_respects_owners (H := toy_time) toy_registry 5 "alice" (toy_request "s1") (healthy toy_state) "s1" (toy_session "s1" "bob"));
    [reflexivity|discriminate].
Defined.

Lemma ingest_replay_adds_nothing_witness : ∃ s1 s2,
  Ingest (H := toy_time) toy_registry 5 "bob" (toy_request "s1") (healthy toy_state) = (Ok (mkIngestResp 1 0 10), healthy s1)
  ∧ Ingest (H := toy_time) toy_registry 6 "bob" (toy_request "s1") (healthy s1) = (Ok (mkIngestResp 0 0 10), healthy s2)
  ∧ messages s2 = messages s1.
Proof.
  eexists. assert (E : Ingest (H := toy_time) toy_registry 5 "bob" (toy_request "s1") (healthy toy_state)
    = (Ok (mkIngestResp 1 0 10), healthy _)) by (vm_compute; reflexivity).
  edestruct (ingest_replay_adds_nothing (H := toy_time) toy_registry 5 6 "bob" (toy_request "s1") toy_parser
    [mkMsg 0 "u1" "" "" 0 "" "user" "hello" ""] [] toy_state) as (s2 & E2 & Hm);
    [reflexivity|reflexivity|constructor; [discriminate|constructor]|exact E|].
  exists s2. split; [exact E|]. split; [exact E2|exact Hm].
Defined.

Definition toy_fts : Fts5 :=
  {| fts_match := λ _ q, if Contains q "!" then None else Some (λ m, if Contains (msgContent m) q then Some 1%Z else None) |}.

Definition toy_messages : State := mkState {["s1" := toy_session "s1" "bob"]} [mkMsg 1 "u1" "s1" "" 0 "" "user" "hello" "toy"] 1 [] 0.

Lemma search_scoped_to_user_witness :
  Forall (λ h, owned "bob" toy_messages (hitMessage h)) [mkHit (mkMsg 1 "u1" "s1" "" 0 "" "user" "hello" "toy") 1].
Proof.
  apply (search_scoped_to_user (H := toy_fts) (H0 := toy_regexp) "bob" "hello" (mkOpts 10 "" "" "" 0)
    (healthy toy_messages) _ (healthy toy_messages)). vm_compute. reflexivity.
Defined.
