(* ===== verification/MemoryParser.v ===== *)
(** * The Claude Code transcript parser

    [src/internal/memory/parser/claudecode.go]: one JSON object per line becomes a message row
    or a compaction event; slash-command tags are replaced by a literal token. *)
From S2P Require Import Prelude GoStrings Json JsonDecode MemoryStore MemoryService.

(** ** Lines

    [bufio.Scanner] with an 8 MiB buffer: lines end at LF and lose a trailing CR, an empty
    last line is not reported, a line that fills the buffer is an error. *)
Definition LF : ascii := "010"%char.
Definition CR : ascii := "013"%char.

Definition max_line : Z := (8 * 1024 * 1024)%Z.

Definition drop_cr (s : string) : string := TrimSuffix s (String CR "").

Definition scan_lines (data : string) : result (list string) :=
  let parts := Split data LF in
  let lines := match last parts with Some "" => take (length parts - 1) parts | _ => parts end in
  if existsb (λ l, (max_line <=? Z.of_nat (String.length l))%Z) parts then Err "scan: bufio.Scanner: token too long"
  else Ok (map drop_cr lines).

(** ** Raw values

    A [json.RawMessage] is the text of a value as it stands in the input.  [raw_members] and
    [raw_elems] read the texts of the values of an object and of an array that
    [Json.Unmarshal] accepts. *)
Definition raw_value (s : string) : option (string * string) :=
  let v := skip_ws s in
  match parse_value (S (String.length v)) v with
  | Some (_, rest) => Some (take_str (String.length v - String.length rest) v, skip_ws rest)
  | None => None
  end.

Fixpoint raw_members (fuel : nat) (s : string) : option (list (string * string)) :=
  match fuel with
  | O => None
  | S fuel =>
      match skip_ws s with
      | String q r =>
          if negb (Ascii.eqb q dquote) then None
          else
            match parse_chars (S (String.length r)) r with
            | None => None
            | Some (k, r1) =>
                match skip_ws r1 with
                | String ":" r2 =>
                    match raw_value r2 with
                    | Some (v, String "," r3) => cons (k, v) <$> raw_members fuel r3
                    | Some (v, _) => Some [(k, v)]
                    | None => None
                    end
                | _ => None
                end
            end
      | EmptyString => None
      end
  end.

Fixpoint raw_elems (fuel : nat) (s : string) : option (list string) :=
  match fuel with
  | O => None
  | S fuel =>
      match raw_value s with
      | Some (v, String "," r) => cons v <$> raw_elems fuel r
      | Some (v, _) => Some [v]
      | None => None
      end
  end.

(** The fields of an object text: the decoded values, and the texts. *)
Definition obj_fields (raw : string) : option (list (string * json) * list (string * string)) :=
  match Unmarshal raw with
  | Some (JObj []) | Some JNull => Some ([], [])
  | Some (JObj l) =>
      match skip_ws raw with
      | String _ r => pair l <$> raw_members (String.length raw) r
      | EmptyString => None
      end
  | _ => None
  end.

(** The elements of an array text. *)
Definition arr_elems (raw : string) : option (list string) :=
  match Unmarshal raw with
  | Some (JArr []) | Some JNull => Some []
  | Some (JArr _) => match skip_ws raw with String _ r => raw_elems (String.length raw) r | EmptyString => None end
  | _ => None
  end.

(** A [json.RawMessage] field: the text of the last matching key, empty when there is none. *)
Definition raw_field (name : string) (l : list (string * string)) : string :=
  default "" (snd <$> last (List.filter (λ kv, EqualFold kv.1 name) l)).

Record rawLine := mkRawLine {
  rlType : string; rlUUID : string; rlParentUUID : string; rlTimestamp : string; rlSessionID : string;
  rlMessage : string; rlTriggerType : string; rlTokenCountBefore : Z }.

Definition decode_line (line : string) : option rawLine :=
  '(l, raws) ← obj_fields line;
  ty ← decode_string_field "type" l ""; u ← decode_string_field "uuid" l "";
  p ← decode_string_field "parentUuid" l ""; ts ← decode_string_field "timestamp" l "";
  sid ← decode_string_field "sessionId" l ""; tr ← decode_string_field "triggerType" l "";
  n ← decode_int_field "tokenCountBefore" l 0;
  Some (mkRawLine ty u p ts sid (raw_field "message" raws) tr n).

Record contentBlock := mkBlock { cbType : string; cbText : string; cbName : string; cbInput : string; cbContent : string }.

Definition decode_block (raw : string) : option contentBlock :=
  '(l, raws) ← obj_fields raw;
  ty ← decode_string_field "type" l ""; t ← decode_string_field "text" l ""; n ← decode_string_field "name" l "";
  Some (mkBlock ty t n (raw_field "input" raws) (raw_field "content" raws)).

Definition newline : string := String LF "".

Definition render_block (b : contentBlock) : string :=
  if cbType b =?s "text" then cbText b
  else if cbType b =?s "tool_use" then newline +:+ "[TOOL_USE:" +:+ cbName b +:+ "] " +:+ cbInput b +:+ newline
  else if cbType b =?s "tool_result" then newline +:+ "[TOOL_RESULT] " +:+ cbContent b +:+ newline
  else "".

(** Every recursive call is on the text of a member of the object, which is shorter. *)
Fixpoint flatten (fuel : nat) (raw : string) : option string :=
  match fuel with
  | O => None
  | S fuel =>
      if raw =?s "" then Some ""
      else
        match Unmarshal raw with
        | Some (JStr s) => Some s
        | Some JNull => Some ""
        | _ =>
            let inner := '(l, raws) ← obj_fields raw; _ ← decode_string_field "role" l "";
                         let c := raw_field "content" raws in if c =?s "" then None else Some c in
            match inner with
            | Some c => flatten fuel c
            | None => bs ← arr_elems raw; blocks ← mapM decode_block bs; Some (Join (map render_block blocks) "")
            end
        end
  end.

Definition flattenContent (raw : string) : option string := flatten (S (String.length raw)) raw.

(** ** Slash commands *)

Definition name_open : string := "<command-name>".
Definition name_close : string := "</command-name>".
Definition args_open : string := "<command-args>".
Definition args_close : string := "</command-args>".

Definition lt_char : ascii := "<"%char.

(** [\s] of Go's [regexp]. *)
Definition re_space (c : ascii) : bool := existsb (Ascii.eqb c) [" "; "009"; "010"; "012"; "013"]%char.

Definition expect (lit s : string) : option string :=
  if HasPrefix s lit then Some (drop_str (String.length lit) s) else None.

Definition not_lt (c : ascii) : bool := negb (Ascii.eqb c lt_char).

(** [slashCmdRe] at the start of the text: the two groups and what follows.  The classes
    [[^<]] stop where the next literal begins, so greedy matching never backtracks. *)
Definition match_command (s : string) : option (string * string * string) :=
  r1 ← expect name_open s;
  let '(name, r2) := span not_lt r1 in
  if name =?s "" then None
  else
    r3 ← expect name_close r2;
    r4 ← expect args_open (trim_left re_space r3);
    let '(args, r5) := span not_lt r4 in
    r6 ← expect args_close r5;
    Some (name, args, r6).

(** [%q]: control characters, quotes and backslashes are escaped.  Bytes above ASCII are kept,
    as [strconv.Quote] does for printable runes. *)
Definition hex_pair (n : nat) : string := String (hex_digit (n / 16)) (String (hex_digit (n mod 16)) "").

Definition quote_char (c : ascii) : string :=
  if Ascii.eqb c dquote then String bslash (String dquote "")
  else if Ascii.eqb c bslash then String bslash (String bslash "")
  else if byte c =? 7 then String bslash "a" else if byte c =? 8 then String bslash "b"
  else if byte c =? 9 then String bslash "t" else if byte c =? 10 then String bslash "n"
  else if byte c =? 11 then String bslash "v" else if byte c =? 12 then String bslash "f"
  else if byte c =? 13 then String bslash "r"
  else if (byte c <? 32) || (byte c =? 127) then String bslash (String "x" (hex_pair (byte c)))
  else String c "".

Fixpoint quote_body (s : string) : string :=
  match s with EmptyString => "" | String c r => quote_char c +:+ quote_body r end.

Definition go_quote (s : string) : string := String dquote (quote_body s +:+ String dquote "").

Definition defanged (name args : string) : string :=
  "[SLASH-COMMAND: /" +:+ TrimSpace name +:+ " args=" +:+ go_quote (TrimSpace args) +:+ "]".

(** [ReplaceAllStringFunc]: the leftmost matches, none overlapping. *)
Fixpoint collapse (fuel : nat) (s : string) : string :=
  match fuel with
  | O => s
  | S fuel =>
      match s with
      | EmptyString => ""
      | String c r =>
          match match_command s with
          | Some (name, args, rest) => defanged name args +:+ collapse fuel rest
          | None => String c (collapse fuel r)
          end
      end
  end.

Definition collapseSlashCommand (s : string) : string := collapse (String.length s) s.

(** ** The parser *)

(** One line: the epoch, the rows and the events so far. *)
Definition parse_line (st : Z * list Message * list CompactEvent) (line : string) :
    Z * list Message * list CompactEvent :=
  let '(epoch, msgs, events) := st in
  match decode_line line with
  | None => st
  | Some raw =>
      if (rlType raw =?s "compact") || (rlType raw =?s "compaction") then
        let epoch := (epoch + 1)%Z in
        (epoch, msgs, events ++ [mkCompact (rlUUID raw) (rlSessionID raw) epoch (rlTimestamp raw) (rlTriggerType raw)
                                   (rlTokenCountBefore raw)])
      else if (rlType raw =?s "user") || (rlType raw =?s "assistant") then
        match flattenContent (rlMessage raw) with
        | None => st
        | Some content =>
            (epoch, msgs ++ [mkMsg 0 (rlUUID raw) "" (rlParentUUID raw) epoch (rlTimestamp raw)
                               (if rlType raw =?s "assistant" then "assistant" else "user")
                               (collapseSlashCommand content) ""], events)
        end
      else st
  end.

Definition parseClaudeCodeJSONL (data : string) : result (list Message * list CompactEvent) :=
  match scan_lines data with
  | Err e => Err e
  | Ok lines =>
      let '(_, msgs, events) := foldl parse_line (0%Z, [], []) (List.filter (λ l, negb (l =?s "")) lines) in
      Ok (msgs, events)
  end.

(** The registry after the package's [init] functions. *)
Definition registry : Registry := Register "claude-code" parseClaudeCodeJSONL ∅.

(** ** Fuel

    The readers of raw values follow [Json.parse_value] and never run out of fuel. *)
Lemma trim_left_idem p s : trim_left p (trim_left p s) = trim_left p s.
Proof. induction s as [|c s IH]; cbn; [done|]. destruct (p c) eqn:E; [done|]. cbn. by rewrite E. Qed.

Lemma parse_value_skip n s : parse_value n (skip_ws s) = parse_value n s.
Proof. destruct n; [done|]. cbn [parse_value]. unfold skip_ws. by rewrite trim_left_idem. Qed.

Lemma slen_take n s : slen (take_str n s) ≤ n.
Proof. revert s. induction n as [|n IH]; intros [|c s]; cbn; [lia..|]. specialize (IH s). lia. Qed.

Lemma raw_value_total n s v r :
  parse_value n s = Some (v, r) → ∃ t, raw_value s = Some (t, skip_ws r) ∧ slen t < slen s - slen r + 1.
Proof.
  intros E. rewrite <- parse_value_skip in E. apply (proj1 (parse_fuel n)) in E as [Hlt Hf].
  unfold raw_value. rewrite Hf by lia. eexists. split; [done|].
  pose proof (slen_take (slen (skip_ws s) - slen r) (skip_ws s)). pose proof (trim_left_shorter is_ws s).
  unfold skip_ws in *. lia.
Qed.

Lemma raw_members_total n : ∀ m s l r,
  parse_members n s = Some (l, r) → slen s ≤ m →
  ∃ l', raw_members m s = Some l' ∧ map fst l' = map fst l ∧ Forall (λ kv, slen kv.2 < slen s) l'.
Proof.
  induction n as [|n IH]; intros m s l r; [done|]. cbn [parse_members].
  destruct (skip_ws s) as [|c s'] eqn:Es; [done|]. pose proof (skip_ws_cons _ _ _ Es).
  destruct (Ascii.eqb c dquote) eqn:Eq; [|done].
  destruct (parse_chars _ s') as [[k r1]|] eqn:Ek; [|done]. cbn. pose proof (proj1 (parse_chars_fuel _ _ _ _ Ek)).
  destruct (skip_ws r1) as [|c1 r2] eqn:Es1; [done|]. pose proof (skip_ws_cons _ _ _ Es1).
  destruct (Ascii.eqb c1 ":"%char) eqn:Ec1; [|done]. apply Ascii.eqb_eq in Ec1 as ->.
  destruct (parse_value n r2) as [[v r3]|] eqn:E1; [|done]. cbn.
  pose proof (proj1 (proj1 (parse_fuel n) _ _ _ E1)). apply raw_value_total in E1 as (t & Et & Ht).
  destruct (skip_ws r3) as [|c3 r4] eqn:Es3; [done|]. pose proof (skip_ws_cons _ _ _ Es3).
  intros E Hm. destruct m as [|m]; [lia|]. cbn [raw_members]. rewrite Es, Eq, Ek, Es1. cbn. rewrite Et.
  destruct (Ascii.eqb c3 ","%char) eqn:Ec3.
  - apply Ascii.eqb_eq in Ec3 as ->. destruct (parse_members n r4) as [[l' r5]|] eqn:E2; [|done]. simplify_eq/=.
    destruct (IH m _ _ _ E2) as (l2 & E3 & Hk & Hv); [lia|]. rewrite E3. eexists. split; [done|]. cbn.
    rewrite Hk. split; [done|]. constructor; [cbn; lia|]. eapply Forall_impl; [exact Hv|]. cbn. lia.
  - destruct (Ascii.eqb c3 "}"%char) eqn:Eb; [|done]. apply Ascii.eqb_eq in Eb as ->. simplify_eq/=.
    eexists. split; [done|]. split; [done|]. constructor; [cbn; lia|done].
Qed.

Lemma raw_elems_total n : ∀ m s l r,
  parse_elems n s = Some (l, r) → slen s ≤ m → ∃ l', raw_elems m s = Some l' ∧ length l' = length l.
Proof.
  induction n as [|n IH]; intros m s l r; [done|]. cbn [parse_elems].
  destruct (parse_value n s) as [[v r1]|] eqn:E1; [|done]. cbn.
  pose proof (proj1 (proj1 (parse_fuel n) _ _ _ E1)). apply raw_value_total in E1 as (t & Et & Ht).
  destruct (skip_ws r1) as [|c r2] eqn:Es; [done|]. pose proof (skip_ws_cons _ _ _ Es).
  intros E Hm. destruct m as [|m]; [lia|]. cbn [raw_elems]. rewrite Et.
  destruct (Ascii.eqb c ","%char) eqn:Ec.
  - apply Ascii.eqb_eq in Ec as ->. destruct (parse_elems n r2) as [[l' r3]|] eqn:E2; [|done]. simplify_eq/=.
    destruct (IH m _ _ _ E2) as (l2 & E3 & Hl); [lia|]. rewrite E3. eexists. split; [done|]. cbn. lia.
  - destruct (Ascii.eqb c "]"%char) eqn:Eb; [|done]. apply Ascii.eqb_eq in Eb as ->. simplify_eq/=. eauto.
Qed.

(** An object text whose value decodes also gives its members' texts, all shorter. *)
Lemma obj_fields_total raw l :
  Unmarshal raw = Some (JObj l) →
  ∃ raws, obj_fields raw = Some (l, raws) ∧ map fst raws = map fst l ∧ Forall (λ kv, slen kv.2 < slen raw) raws.
Proof.
  intros E. unfold obj_fields. rewrite E. destruct l as [|kv l]; [by exists []|].
  unfold Unmarshal in E. destruct (parse_value _ raw) as [[j r]|] eqn:Ep; [|done].
  destruct (skip_ws r =?s ""); [|done]. simplify_eq. cbn [parse_value] in Ep.
  destruct (skip_ws raw) as [|c s'] eqn:Es; [done|]. pose proof (skip_ws_cons _ _ _ Es).
  destruct (Ascii.eqb c dquote); [by destruct (parse_chars _ s') as [[]|]|].
  destruct (Ascii.eqb c "["%char).
  { destruct (skip_ws s') as [|a ?]; [done|]. destruct (Ascii.eqb a "]"%char); [done|].
    by destruct (parse_elems _ s') as [[]|]. }
  destruct (Ascii.eqb c "{"%char).
  - destruct (skip_ws s') as [|a ?]; [done|]. destruct (Ascii.eqb a "}"%char); [done|].
    destruct (parse_members _ s') as [[l' r']|] eqn:Em; [|done]. simplify_eq/=.
    destruct (raw_members_total _ (slen raw) _ _ _ Em) as (raws & Er & Hk & Hv); [lia|].
    rewrite Er. eexists. split; [done|]. split; [done|]. eapply Forall_impl; [exact Hv|]. cbn. lia.
  - repeat case_if; simplify_eq. by destruct (span is_num_char _) as [lit ?]; case_if.
Qed.

Lemma raw_field_bound name raws n :
  Forall (λ kv : string * string, slen kv.2 < n) raws → raw_field name raws ≠ "" → slen (raw_field name raws) < n.
Proof.
  unfold raw_field. destruct (last _) as [kv|] eqn:E; [|done]. intros Hf _. cbn.
  apply last_Some in E as [l E]. rewrite Forall_forall in Hf. apply Hf.
  assert (Hin : kv ∈ List.filter (λ kv, EqualFold kv.1 name) raws).
  { rewrite E. apply elem_of_app. right. by apply list_elem_of_singleton. }
  apply list_elem_of_In in Hin. by apply filter_In in Hin as [?%list_elem_of_In _].
Qed.

Lemma flatten_fuel : ∀ n raw, slen raw < n → flatten n raw = flatten (S (slen raw)) raw.
Proof.
  assert (H : ∀ k n m raw, slen raw < k → slen raw < n → slen raw < m → flatten n raw = flatten m raw).
  { induction k as [|k IH]; intros [|n] [|m] raw Hk Hn Hm; try lia. cbn [flatten].
    destruct (raw =?s "") eqn:E0; [done|]. destruct (Unmarshal raw) as [j|] eqn:Eu; [|unfold obj_fields; by rewrite Eu].
    destruct j as [| | | | |l]; try done; try (unfold obj_fields; by rewrite Eu).
    destruct (obj_fields_total _ _ Eu) as (raws & -> & _ & Hv). cbn.
    destruct (decode_string_field "role" l "") as [ro|]; [|done]. cbn.
    destruct (raw_field "content" raws =?s "") eqn:Ec; [done|]. bool_prop.
    pose proof (raw_field_bound _ _ _ Hv Ec). apply IH; lia. }
  intros n raw Hn. apply (H (S (slen raw))); lia.
Qed.

Lemma expect_shorter lit s r : expect lit s = Some r → slen r + slen lit = slen s.
Proof.
  unfold expect, HasPrefix. destruct (String.prefix lit s) eqn:E; [|done]. intros [= <-].
  apply prefix_inv in E as [t ->]. rewrite drop_str_app, str_length_app. lia.
Qed.

Lemma match_command_shorter s n a r : match_command s = Some (n, a, r) → slen r < slen s.
Proof.
  unfold match_command. destruct (expect name_open s) as [r1|] eqn:E1; [|done]. cbn. apply expect_shorter in E1.
  pose proof (proj1 (span_shorter not_lt r1)). destruct (span not_lt r1) as [nm r2]. destruct (nm =?s ""); [done|].
  destruct (expect name_close r2) as [r3|] eqn:E2; [|done]. cbn. apply expect_shorter in E2.
  pose proof (trim_left_shorter re_space r3). destruct (expect args_open _) as [r4|] eqn:E3; [|done]. cbn.
  apply expect_shorter in E3. pose proof (proj1 (span_shorter not_lt r4)). destruct (span not_lt r4) as [ag r5].
  destruct (expect args_close r5) as [r6|] eqn:E4; [|done]. cbn. apply expect_shorter in E4. intros [= <- <- <-].
  cbn in *. lia.
Qed.

Lemma collapse_fuel s : ∀ n, slen s ≤ n → collapse n s = collapseSlashCommand s.
Proof.
  assert (H : ∀ k n m s, slen s ≤ k → slen s ≤ n → slen s ≤ m → collapse n s = collapse m s).
  { induction k as [|k IH]; intros n m [|c r] Hk Hn Hm; cbn in Hk; [by destruct n, m|lia|by destruct n, m|].
    destruct n as [|n], m as [|m]; cbn in Hn, Hm; try lia. cbn [collapse].
    destruct (match_command (String c r)) as [[[nm ag] rest]|] eqn:E.
    - apply match_command_shorter in E. cbn in E. f_equal. apply IH; lia.
    - f_equal. apply IH; lia. }
  intros n Hn. by apply (H (slen s)).
Qed.

Lemma collapse_skip c r :
  match_command (String c r) = None → collapseSlashCommand (String c r) = String c (collapseSlashCommand r).
Proof. intros E. unfold collapseSlashCommand at 1. cbn [String.length collapse]. by rewrite E. Qed.

Lemma collapse_hit s n a r :
  match_command s = Some (n, a, r) → collapseSlashCommand s = defanged n a +:+ collapseSlashCommand r.
Proof.
  intros E. pose proof (match_command_shorter _ _ _ _ E) as Hlt. unfold collapseSlashCommand at 1.
  destruct s as [|c s]; [done|]. cbn [String.length collapse]. rewrite E. f_equal. apply collapse_fuel. cbn in Hlt. lia.
Qed.

(** ** The prompt-injection guard

    A text as a sequence of plain runs and slash commands. *)
Inductive segment := Plain (t : string) | Command (name ws args : string).

Definition command_text (name ws args : string) : string :=
  name_open +:+ name +:+ name_close +:+ ws +:+ args_open +:+ args +:+ args_close.

Definition seg_text (g : segment) : string :=
  match g with Plain t => t | Command n w a => command_text n w a end.

Definition seg_safe (g : segment) : string := match g with Plain t => t | Command n _ a => defanged n a end.

(** Names and arguments without a tag of their own. *)
Definition seg_ok (g : segment) : bool :=
  match g with
  | Plain t => all_chars not_lt t
  | Command n w a => (n !=? "") && all_chars not_lt n && all_chars re_space w && all_chars not_lt a
  end.

Lemma expect_app lit s : expect lit (lit +:+ s) = Some s.
Proof. unfold expect, HasPrefix. by rewrite prefix_app, drop_str_app. Qed.

Lemma span_not_lt t r : all_chars not_lt t = true → span not_lt (t +:+ String lt_char r) = (t, String lt_char r).
Proof.
  induction t as [|c t IH]; [done|]. cbn [all_chars]. intros [Hc Ht]%andb_true_iff.
  rewrite str_app_cons. cbn [span]. by rewrite Hc, IH.
Qed.

Lemma trim_left_all p t c r : all_chars p t = true → p c = false → trim_left p (t +:+ String c r) = String c r.
Proof.
  intros Ht Hc. induction t as [|d t IH]; [rewrite str_app_nil_l; cbn [trim_left]; by rewrite Hc|]. cbn [all_chars] in Ht.
  apply andb_true_iff in Ht as [Hd Ht]. rewrite str_app_cons. cbn [trim_left]. rewrite Hd. by apply IH.
Qed.

Lemma match_command_text n w a r : seg_ok (Command n w a) = true → match_command (command_text n w a +:+ r) = Some (n, a, r).
Proof.
  cbn [seg_ok]. intros H. bool_prop. unfold match_command, command_text. rewrite !str_app_assoc, expect_app. cbn [mbind option_bind].
  change (name_close +:+ ?x) with (String lt_char (drop_str 1 name_close +:+ x)). rewrite span_not_lt by done.
  destruct (n =?s "") eqn:E; [bool_prop; congruence|].
  change (String lt_char (drop_str 1 name_close +:+ ?x)) with (name_close +:+ x). rewrite expect_app. cbn [mbind option_bind].
  change (args_open +:+ ?x) with (String lt_char (drop_str 1 args_open +:+ x)). rewrite trim_left_all by done.
  change (String lt_char (drop_str 1 args_open +:+ ?x)) with (args_open +:+ x). rewrite expect_app. cbn [mbind option_bind].
  change (args_close +:+ ?x) with (String lt_char (drop_str 1 args_close +:+ x)). rewrite span_not_lt by done.
  change (String lt_char (drop_str 1 args_close +:+ ?x)) with (args_close +:+ x). by rewrite expect_app.
Qed.

Lemma match_not_lt c r : c ≠ lt_char → match_command (String c r) = None.
Proof.
  intros Hc. unfold match_command, expect, HasPrefix, name_open. cbn [String.prefix].
  destruct (ascii_dec _ c) as [<-|]; [by destruct Hc|done].
Qed.

Lemma collapse_plain t r :
  all_chars not_lt t = true → collapseSlashCommand (t +:+ r) = t +:+ collapseSlashCommand r.
Proof.
  induction t as [|c t IH]; [done|]. cbn [all_chars]. intros [Hc Ht]%andb_true_iff. rewrite !str_app_cons.
  rewrite collapse_skip, IH; [done|done|]. apply match_not_lt. unfold not_lt in Hc. bool_prop. by apply Ascii.eqb_neq.
Qed.

Lemma trim_right_chars p q s : all_chars q s = true → all_chars q (trim_right p s) = true.
Proof.
  induction s as [|c s IH]; [done|]. cbn. intros [Hc Hs]%andb_true_iff. specialize (IH Hs).
  destruct (trim_right p s); [destruct (p c); cbn; rewrite ?Hc; done|]. cbn [all_chars] in *. by rewrite Hc.
Qed.

Lemma trim_left_chars p q s : all_chars q s = true → all_chars q (trim_left p s) = true.
Proof. induction s as [|c s IH]; [done|]. cbn. intros [Hc Hs]%andb_true_iff. destruct (p c); [by apply IH|]. cbn. by rewrite Hc. Qed.

Lemma TrimSpace_chars q s : all_chars q s = true → all_chars q (TrimSpace s) = true.
Proof. intros. by apply trim_right_chars, trim_left_chars. Qed.

Lemma hex_digit_not_lt n : not_lt (hex_digit (n mod 16)) = true.
Proof.
  assert (H : ∀ k, k < 16 → not_lt (hex_digit k) = true).
  { intros k Hk. do 16 (destruct k as [|k]; [done|]). lia. }
  apply H. apply Nat.mod_upper_bound. lia.
Qed.

Lemma quote_not_lt s : all_chars not_lt s = true → all_chars not_lt (quote_body s) = true.
Proof.
  induction s as [|c s IH]; [done|]. cbn [all_chars quote_body]. intros [Hc Hs]%andb_true_iff.
  rewrite all_chars_app, IH by done. rewrite andb_true_r. unfold quote_char.
  repeat match goal with |- context [if ?b then _ else _] => destruct b; [done|] end.
  destruct ((byte c <? 32) || (byte c =? 127)) eqn:E; [|cbn [all_chars]; by rewrite Hc].
  unfold hex_pair. cbn [all_chars]. rewrite hex_digit_not_lt.
  assert (H16 : byte c / 16 < 16) by (apply Nat.Div0.div_lt_upper_bound; pose proof (nat_ascii_bounded c); unfold byte; lia).
  rewrite <- (Nat.mod_small _ _ H16), hex_digit_not_lt. done.
Qed.

Lemma defanged_not_lt n a : all_chars not_lt n = true → all_chars not_lt a = true → all_chars not_lt (defanged n a) = true.
Proof.
  intros Hn Ha. unfold defanged, go_quote. rewrite !all_chars_app, (TrimSpace_chars _ _ Hn). cbn [all_chars].
  rewrite all_chars_app, quote_not_lt by by apply TrimSpace_chars. done.
Qed.

(** in a text made of plain runs and slash commands whose name and arguments hold
    no tag of their own, every command becomes its literal token and nothing else changes; no tag
    character is left for a later reader to take as a live invocation. *)
Theorem commands_defanged : ∀ segs,
  forallb seg_ok segs = true →
  collapseSlashCommand (Join (map seg_text segs) "") = Join (map seg_safe segs) ""
  ∧ all_chars not_lt (Join (map seg_safe segs) "") = true.
Proof.
  assert (HJ : ∀ f (g : segment) l, Join (map f (g :: l)) "" = f g +:+ Join (map f l) "").
  { intros f g [|x l]; cbn; [by rewrite str_app_nil_r|done]. }
  induction segs as [|g segs IH]; [done|]. cbn [forallb]. intros [Hg Hs]%andb_true_iff. destruct (IH Hs) as [Ec Ea].
  rewrite !HJ, all_chars_app, Ea, andb_true_r. destruct g as [t|n w a]; cbn [seg_text seg_safe].
  - rewrite collapse_plain, Ec by done. done.
  - rewrite (collapse_hit _ n a (Join (map seg_text segs) "")) by by apply match_command_text.
    rewrite Ec. split; [done|]. cbn in Hg. bool_prop. by apply defanged_not_lt.
Qed.

Lemma commands_defanged_witness :
  collapseSlashCommand (Join (map seg_text [Plain "run "; Command "clear" " " "all"; Plain " now"]) "")
  = Join (map seg_safe [Plain "run "; Command "clear" " " "all"; Plain " now"]) ""
  ∧ all_chars not_lt (Join (map seg_safe [Plain "run "; Command "clear" " " "all"; Plain " now"]) "") = true.
Proof. apply (commands_defanged [Plain "run "; Command "clear" " " "all"; Plain " now"]). reflexivity. Defined.

(** A command placed in the arguments of another one. *)
Definition nested (outer inner args : string) : string :=
  name_open +:+ outer +:+ name_close +:+ args_open +:+ command_text inner "" args +:+ args_close.

(** A tag that does not start a match is kept. *)
Lemma collapse_tag t r :
  match_command (String lt_char (t +:+ r)) = None → all_chars not_lt t = true →
  collapseSlashCommand (String lt_char (t +:+ r)) = String lt_char (t +:+ collapseSlashCommand r).
Proof. intros Hm Ht. rewrite collapse_skip by done. by rewrite collapse_plain. Qed.

(** replacing once is not enough: for any command name, a text that wraps
    another command in the arguments of this one comes out of the guard as a live command of
    that name, which the guard's own expression matches. *)
Theorem guard_bypassed_by_nesting : ∀ outer inner args,
  seg_ok (Command outer "" "") = true → seg_ok (Command inner "" args) = true →
  match_command (collapseSlashCommand (nested outer inner args)) = Some (outer, defanged inner args, "").
Proof.
  intros o i a Ho Hi. pose proof (match_command_text _ _ _ args_close Hi) as Hin.
  assert (Hs : collapseSlashCommand (nested o i a) = command_text o "" (defanged i a) +:+ "").
  { unfold nested, command_text at 2. rewrite str_app_nil_l, str_app_nil_r.
    cbn [seg_ok] in Ho. bool_prop.
    change (name_open +:+ ?x) with (String lt_char ("command-name>" +:+ x)) at 1.
    rewrite collapse_tag; [|change (String lt_char ("command-name>" +:+ ?x)) with (name_open +:+ x)|done].
    2: { unfold match_command. rewrite expect_app. cbn [mbind option_bind].
         change (name_close +:+ ?x) with (String lt_char ("/command-name>" +:+ x)). rewrite span_not_lt by done.
         destruct (o =?s ""); [done|]. change (String lt_char ("/command-name>" +:+ ?x)) with (name_close +:+ x).
         rewrite expect_app. cbn [mbind option_bind].
         change (trim_left re_space (args_open +:+ ?x)) with (args_open +:+ x). rewrite expect_app. done. }
    rewrite collapse_plain by done. change (name_close +:+ ?x) with (String lt_char ("/command-name>" +:+ x)).
    rewrite collapse_tag by done. change (args_open +:+ ?x) with (String lt_char ("command-args>" +:+ x)).
    rewrite collapse_tag by done. rewrite (collapse_hit _ _ _ _ Hin). done. }
  rewrite Hs. apply match_command_text. cbn [seg_ok] in *. rewrite !andb_true_iff in *.
  destruct Hi as [[[_ Hi1] _] Hi2], Ho as [[[Ho1 Ho2] _] _]. by rewrite Ho1, Ho2, defanged_not_lt.
Qed.

Lemma guard_bypassed_by_nesting_witness :
  match_command (collapseSlashCommand (nested "deploy" "a" "b")) = Some ("deploy", defanged "a" "b", "").
Proof. apply (guard_bypassed_by_nesting "deploy" "a" "b"); reflexivity. Defined.

(** ** Epochs *)

Definition epoch_inv (st : Z * list Message * list CompactEvent) : Prop :=
  let '(epoch, msgs, events) := st in
  epoch = Z.of_nat (length events) ∧ Forall (λ m, 0 <= msgEpoch m <= epoch)%Z msgs
  ∧ map ceEpoch events = map (λ i, Z.of_nat (S i)) (seq 0 (length events)).

Lemma parse_line_epoch st line : epoch_inv st → epoch_inv (parse_line st line).
Proof.
  destruct st as [[ep msgs] events]. intros (-> & Hm & He). unfold parse_line.
  destruct (decode_line line) as [raw|]; [|done]. case_if.
  - cbn. rewrite length_app, map_app, seq_app, map_app, He. cbn. split_and!; [lia| |by rewrite Z.add_1_r, <- Nat2Z.inj_succ].
    eapply Forall_impl; [exact Hm|]. cbn. lia.
  - case_if; [|done]. destruct (flattenContent _); [|done]. cbn. split_and!; [done| |done].
    apply Forall_app. split; [done|]. constructor; [cbn; lia|done].
Qed.

(** in one parsed delta the compaction events are numbered 1, 2, ... in order
    and no message has an epoch above their number: epochs count the compactions of the delta. *)
Theorem epochs_count_compactions : ∀ data msgs events,
  parseClaudeCodeJSONL data = Ok (msgs, events) →
  Forall (λ m, 0 <= msgEpoch m <= Z.of_nat (length events))%Z msgs
  ∧ map ceEpoch events = map (λ i, Z.of_nat (S i)) (seq 0 (length events)).
Proof.
  intros data msgs events. unfold parseClaudeCodeJSONL. destruct (scan_lines data) as [lines|e]; [|done].
  assert (H : ∀ l st, epoch_inv st → epoch_inv (foldl parse_line st l)).
  { induction l as [|x l IH]; [done|]. intros st Hst. by apply IH, parse_line_epoch. }
  specialize (H (List.filter (λ l, negb (l =?s "")) lines) (0%Z, [], []) ltac:(by split_and!)).
  destruct (foldl parse_line _ _) as [[ep ms] es]. destruct H as (-> & Hm & He). by intros [= <- <-].
Qed.

Definition compaction_line : string := Marshal (JObj [("type", JStr "compaction"); ("uuid", JStr "c1")]).
Definition user_line : string := Marshal (JObj [("type", JStr "user"); ("uuid", JStr "u1"); ("message", JStr "hello")]).

Definition parsed_epochs (data : string) : list Z :=
  match parseClaudeCodeJSONL data with Ok (msgs, _) => map msgEpoch msgs | Err _ => [] end.

Lemma epochs_count_compactions_witness :
  ∃ msgs events, parseClaudeCodeJSONL (compaction_line +:+ newline +:+ user_line) = Ok (msgs, events)
  ∧ Forall (λ m, 0 <= msgEpoch m <= Z.of_nat (length events))%Z msgs
  ∧ map ceEpoch events = map (λ i, Z.of_nat (S i)) (seq 0 (length events)).
Proof. eexists _, _. split; [vm_compute; reflexivity|]. apply (epochs_count_compactions (compaction_line +:+ newline +:+ user_line)). vm_compute. reflexivity. Defined.

(** The count starts again with every delta: the message after a compaction has epoch 1 when
    both arrive together and epoch 0 when the message arrives in the next delta. *)
Lemma epochs_restart_per_delta :
  parsed_epochs (compaction_line +:+ newline +:+ user_line) = [1%Z] ∧ parsed_epochs user_line = [0%Z].
Proof. split; vm_compute; reflexivity. Qed.
