(* ===== verification/ExtractText.v ===== *)
(** * What the memory extractor does with texts

    [src/internal/memory/extractor]: the noise filter ([filter.go]), the windows sent to the
    memory backend ([chunk.go]), the agent id of a project ([agent_id.go]), the category of a
    chunk ([classifier.go]), and the texts read back from the backend and cut before they are
    sent ([extractor.go]). *)
From S2P Require Import Prelude GoStrings GoPath Json JsonDecode Middleware MemoryStore.
From stdpp Require Import pretty.

(** ** The filter *)

Definition LFs : string := String "010"%char "".

(** [utf8.RuneCountInString] *)
Fixpoint rune_count_fuel (fuel : nat) (s : string) : nat :=
  match fuel, s with
  | S fuel, String c r => S (rune_count_fuel fuel (drop_str (snd (decode_rune c r) - 1) r))
  | _, _ => 0
  end.

Definition RuneCountInString (s : string) : nat := rune_count_fuel (String.length s) s.

Definition backticks : string := "```".

(** A single fenced block: nothing after the last fence, no fence inside the body. *)
Definition is_fenced (s : string) : bool :=
  if HasPrefix s backticks then
    match LastIndex s backticks with
    | None => false
    | Some i =>
        if (3 <? i) then
          let head := take_str i s in
          match Index head LFs with
          | None => false
          | Some o => (TrimSpace (drop_str (i + 3) s) =?s "") && negb (Contains (drop_str (o + 1) head) backticks)
          end
        else false
    end
  else false.

Definition isEnvelope (s : string) : bool :=
  if ((HasPrefix s "{" && HasSuffix s "}") || (HasPrefix s "[" && HasSuffix s "]")) && bool_decide (is_Some (Unmarshal s))
  then true
  else is_fenced s || ((HasPrefix s "$ " || HasPrefix s "> ") && negb (Contains s (LFs +:+ LFs))).

Definition is_tool (m : Message) : bool := (msgRole m =?s "tool") || (msgRole m =?s "system").

Definition KeepMessage (m : Message) : bool :=
  if is_tool m then false
  else
    let trimmed := TrimSpace (msgContent m) in
    if (RuneCountInString trimmed <? 20) then false else negb (isEnvelope trimmed).

Record FilterStats := mkFStats {
  Total : nat; KeptCount : nat; ToolCount : nat; ShortCount : nat; EnvelopeCount : nat }.

(** One round of the loop of [Filter]. *)
Definition filter_step (st : list Message * FilterStats) (m : Message) : list Message * FilterStats :=
  let '(out, f) := st in
  if is_tool m then (out, mkFStats (Total f) (KeptCount f) (S (ToolCount f)) (ShortCount f) (EnvelopeCount f))
  else
    let trimmed := TrimSpace (msgContent m) in
    if (RuneCountInString trimmed <? 20) then
      (out, mkFStats (Total f) (KeptCount f) (ToolCount f) (S (ShortCount f)) (EnvelopeCount f))
    else if isEnvelope trimmed then
      (out, mkFStats (Total f) (KeptCount f) (ToolCount f) (ShortCount f) (S (EnvelopeCount f)))
    else (out ++ [m], mkFStats (Total f) (S (KeptCount f)) (ToolCount f) (ShortCount f) (EnvelopeCount f)).

Definition Filter (msgs : list Message) : list Message * FilterStats :=
  foldl filter_step ([], mkFStats (length msgs) 0 0 0 0) msgs.

(** ** Truncation *)

Definition rune_start (c : ascii) : bool := negb (cont_byte c).

Fixpoint cut_back (cut : nat) (s : string) : nat :=
  match cut with
  | O => O
  | S n => match String.get cut s with
           | Some c => if rune_start c then cut else cut_back n s
           | None => cut
           end
  end.

Definition with_content (m : Message) (c : string) : Message :=
  mkMsg (msgID m) (msgUUID m) (msgSession m) (msgParent m) (msgEpoch m) (msgTimestamp m) (msgRole m) c (msgPlatform m).

Definition truncate_one (max : nat) (m : Message) : Message :=
  let c := msgContent m in
  if (String.length c <=? max) then m
  else
    let cut := cut_back max c in
    with_content m (take_str cut c +:+ LFs +:+ "…[truncated " +:+ pretty (String.length c - cut) +:+ " bytes]").

(** The source updates the messages in place; nothing reads the old contents afterwards. *)
Definition truncateOversized (max : Z) (msgs : list Message) : list Message :=
  if (max <=? 0)%Z then msgs else map (truncate_one (Z.to_nat max)) msgs.

(** ** Chunks *)

Record Chunk := mkChunk { chText : string; chUUIDs : list string; chChars : nat }.

Definition Render (m : Message) : string :=
  "[" +:+ ToUpper (if msgRole m =?s "" then "?" else msgRole m) +:+ " " +:+ msgTimestamp m +:+ "] "
  +:+ TrimSpace (msgContent m) +:+ LFs +:+ LFs.

(** The closure [flush]: the chunks after it; the buffers are empty then. *)
Definition flush (out : list Chunk) (buf : string) (uuids : list string) : list Chunk :=
  if buf =?s "" then out else out ++ [mkChunk buf uuids (String.length buf)].

(** The loop over the messages with the chunks so far, the buffer and its uuids. *)
Fixpoint chunk_loop (target : nat) (msgs : list Message) (out : list Chunk) (buf : string) (uuids : list string) :
    list Chunk :=
  match msgs with
  | [] => flush out buf uuids
  | m :: r =>
      let rendered := Render m in
      let n := String.length rendered in
      if (target <=? n) then chunk_loop target r (flush out buf uuids ++ [mkChunk rendered [msgUUID m] n]) "" []
      else if (target <? String.length buf + n) && (0 <? String.length buf)
      then chunk_loop target r (flush out buf uuids) rendered [msgUUID m]
      else chunk_loop target r out (buf +:+ rendered) (uuids ++ [msgUUID m])
  end.

Definition ChunkMessages (msgs : list Message) (target : Z) : list Chunk :=
  let target := Z.to_nat (if (target <=? 0)%Z then 5000 else target) in
  match msgs with [] => [] | _ => chunk_loop target msgs [] "" [] end.

(** ** Agent ids *)

Definition agentIDPrefix : string := "transcripts-".

(** The lower case of a rune as far as letters and digits of ASCII go: apart from the capitals
    of ASCII, only U+0130 and U+212A have an ASCII lower case. *)
Definition lower_rune (r : N) : N :=
  if ((65 <=? r) && (r <=? 90))%N then (r + 32)%N
  else if (r =? 304)%N then 105%N else if (r =? 8490)%N then 107%N else r.

Definition alnum_rune (r : N) : bool := (((97 <=? r) && (r <=? 122)) || ((48 <=? r) && (r <=? 57)))%N.

Fixpoint slug_runes (fuel : nat) (s : string) (prevDash : bool) : string :=
  match fuel, s with
  | S fuel, String c r =>
      let '(rune, w) := decode_rune c r in
      let rest := drop_str (w - 1) r in
      let l := lower_rune rune in
      if alnum_rune l then String (ascii_of_N l) (slug_runes fuel rest false)
      else if prevDash then slug_runes fuel rest true
      else String "-" (slug_runes fuel rest true)
  | _, _ => ""
  end.

Definition is_dash (c : ascii) : bool := Ascii.eqb c "-"%char.

Definition Derive (projectDir : string) : string :=
  let base := Base (TrimSpace projectDir) in
  if (base =?s "") || (base =?s ".") || (base =?s "/") then agentIDPrefix +:+ "unknown"
  else
    let s := trim_func is_dash (slug_runes (String.length base) base false) in
    agentIDPrefix +:+ (if s =?s "" then "unknown" else s).

Definition IsTranscriptAgentID (id : string) : bool := HasPrefix id agentIDPrefix.

(** ** Categories *)

Definition ValidCategories : list string := ["user"; "feedback"; "project"; "reference"; "none"].

Definition in_chars (cs : list ascii) (c : ascii) : bool := existsb (Ascii.eqb c) cs.

(** The cutset of [strings.Trim]. *)
Definition cutset : ascii → bool := in_chars [dquote; "'"; "."; ","; ";"; ":"; "!"; " "]%char.

Definition word_end : ascii → bool := in_chars [" "; "009"; "010"]%char.

(** The text before the first byte of a set, when there is one and it is not the first byte. *)
Definition first_word (s : string) : string :=
  let w := (span (λ c, negb (word_end c)) s).1 in if w =?s "" then s else w.

Definition NormalizeCategory (raw : string) : string :=
  let s := first_word (trim_func cutset (ToLower (TrimSpace raw))) in
  if bool_decide (s ∈ ValidCategories) then s else "none".

Definition classify_rules : string :=
  "Classify the following Claude Code transcript chunk into ONE category." +:+ LFs +:+ LFs
  +:+ "Categories:" +:+ LFs
  +:+ "- user: facts about the user's role, goals, expertise, or preferences" +:+ LFs
  +:+ "- feedback: corrections or guidance the user has given to AI assistants (" +:+ quoted "don't X" +:+ ", "
  +:+ quoted "always Y" +:+ ")" +:+ LFs
  +:+ "- project: project decisions, technical choices, architecture rationale, work-in-progress facts" +:+ LFs
  +:+ "- reference: pointers to external resources (URLs, file paths, system names, dashboards, vault items)" +:+ LFs
  +:+ "- none: mixed content, pure conversational narrative, or no clear single category" +:+ LFs +:+ LFs
  +:+ "Respond with ONLY the category name, lowercase, no punctuation, no explanation." +:+ LFs +:+ LFs
  +:+ "CHUNK:" +:+ LFs.

Record OpenAIClassifier := mkClassifier { clsKey : string; clsModel : string; clsBaseURL : string }.

Definition NewOpenAIClassifier (apiKey model baseURL : string) : OpenAIClassifier :=
  mkClassifier apiKey (if model =?s "" then "gpt-4o-mini" else model)
    (if baseURL =?s "" then "https://api.openai.com/v1" else baseURL).

(** The body of the chat request. *)
Definition chat_request (c : OpenAIClassifier) (chunkText : string) : string :=
  let text := if (6000 <? String.length chunkText) then take_str 6000 chunkText else chunkText in
  Marshal (JObj [("model", JStr (clsModel c));
                 ("messages", JArr [JObj [("role", JStr "user"); ("content", JStr (classify_rules +:+ text))]]);
                 ("max_tokens", JNum "10"); ("temperature", JNum "0")]).

(** What the endpoint answers: no response at all, or a status and a body. *)
Inductive HttpAnswer := HttpError (err : string) | HttpReply (status : Z) (statusText body : string).

(** The [content] of the message of the first choice; [None] is a body that does not decode. *)
Definition chat_choices (body : string) : option (list string) :=
  l ← body_fields body;
  decode_struct_list (λ o, match decode_raw_field "message" o None with
                           | None | Some JNull => Some ""
                           | Some (JObj f) => _ ← decode_string_field "role" f ""; decode_string_field "content" f ""
                           | _ => None
                           end) (decode_raw_field "choices" l None).

Definition Classify (c : OpenAIClassifier) (post : string → HttpAnswer) (chunkText : string) : result string :=
  if clsKey c =?s "" then Err "classifier: api key not configured"
  else
    match post (chat_request c chunkText) with
    | HttpError e => Err ("classifier: send: " +:+ e)
    | HttpReply status text body =>
        if (400 <=? status)%Z
        then Err ("classifier: " +:+ pretty status +:+ " " +:+ text +:+ ": " +:+ TrimSpace (take_str 512 body))
        else
          match chat_choices body with
          | None => Err "classifier: decode"
          | Some [] => Ok "none"
          | Some (content :: _) => Ok (NormalizeCategory content)
          end
    end.

(** ** The backend's replies *)

(** The text of the first content item of a [tools/call] result. *)
Definition result_text (result : string) : option string :=
  if result =?s "" then None
  else
    l ← struct_fields result;
    items ← decode_struct_list (λ o, _ ← decode_string_field "type" o ""; decode_string_field "text" o "")
              (decode_raw_field "content" l None);
    match items with [] => None | t :: _ => if t =?s "" then None else Some t end.

Definition non_empty (ids : list string) : list string := List.filter (λ i, i !=? "") ids.

Definition id_list (v : option json) : option (list string) := decode_struct_list (λ o, decode_string_field "id" o "") v.

Definition parseMemoryIDs (result : string) : list string :=
  match result_text result with
  | None => []
  | Some text =>
      let wrapped := l ← struct_fields text; id_list (decode_raw_field "results" l None) in
      let plain := match Unmarshal text with Some (JArr a) => id_list (Some (JArr a)) | _ => None end in
      let single := l ← struct_fields text; decode_string_field "id" l "" in
      match non_empty (default [] wrapped) with
      | _ :: _ as ids => ids
      | [] =>
          match non_empty (default [] plain) with
          | _ :: _ as ids => ids
          | [] => match single with Some id => if id =?s "" then [] else [id] | None => [] end
          end
      end
  end.

(** Scores and times keep the literal of the reply. *)
Record MemoryHit := mkMemHit {
  mhID : string; mhAgentID : string; mhMemory : string; mhScore : string; mhSessionID : string;
  mhProjectDir : string; mhLastSeenAt : string }.

Fixpoint decode_number_field (name : string) (l : list (string * json)) (cur : string) : option string :=
  match l with
  | [] => Some cur
  | (k, v) :: r =>
      if EqualFold k name then
        match v with JNum lit => decode_number_field name r lit | JNull => decode_number_field name r cur | _ => None end
      else decode_number_field name r cur
  end.

(** A value of the [metadata] map, found by its exact key. *)
Definition meta_string (m : list (string * json)) (k : string) : string :=
  match last_value k m with Some (JStr s) => s | _ => "" end.

Definition decode_hit (o : list (string * json)) : option MemoryHit :=
  i ← decode_string_field "id" o ""; a ← decode_string_field "agent_id" o "";
  t ← decode_string_field "memory" o ""; sc ← decode_number_field "score" o "0";
  m ← match decode_raw_field "metadata" o None with None | Some JNull => Some [] | Some (JObj m) => Some m | _ => None end;
  Some (mkMemHit i a t sc (meta_string m "session_id") (meta_string m "project_dir")
          (match last_value "last_seen_at" m with Some (JNum lit) => lit | _ => "0" end)).

Definition parseMemoryHits (result : string) : list MemoryHit :=
  match result_text result with
  | None => []
  | Some text =>
      let wrapped := l ← struct_fields text; decode_struct_list decode_hit (decode_raw_field "results" l None) in
      let plain := match Unmarshal text with
                   | Some (JArr a) => default [] (decode_struct_list decode_hit (Some (JArr a)))
                   | _ => []
                   end in
      List.filter (λ h, IsTranscriptAgentID (mhAgentID h))
        (match wrapped with Some ((_ :: _) as hits) => hits | _ => plain end)
  end.

(** ** The filter is the predicate *)

Lemma filter_step_app msgs : ∀ out f,
  foldl filter_step (out, f) msgs =
  (out ++ List.filter KeepMessage msgs, (foldl filter_step ([], f) msgs).2).
Proof.
  induction msgs as [|m r IH]; intros out f; cbn [foldl List.filter]; [by rewrite app_nil_r|].
  assert (Hs : filter_step (out, f) m = (out ++ (if KeepMessage m then [m] else []), (filter_step ([], f) m).2)).
  { unfold filter_step, KeepMessage. destruct (is_tool m); [by rewrite app_nil_r|].
    destruct (_ <? 20); [by rewrite app_nil_r|]. by destruct (isEnvelope _); cbn; rewrite ?app_nil_r. }
  rewrite Hs, IH, <- app_assoc. destruct (filter_step ([], f) m) as [o f'] eqn:E. cbn [snd].
  rewrite (IH o f'). destruct (KeepMessage m); done.
Qed.

Definition counted (f : FilterStats) : nat := KeptCount f + ToolCount f + ShortCount f + EnvelopeCount f.

Lemma filter_stats msgs : ∀ out f,
  let f' := (foldl filter_step (out, f) msgs).2 in
  Total f' = Total f ∧ counted f' = counted f + length msgs
  ∧ KeptCount f' = KeptCount f + length (List.filter KeepMessage msgs).
Proof.
  induction msgs as [|m r IH]; intros out f; cbn [foldl List.filter length]; [cbv zeta; cbn [snd]; lia|].
  assert (Hs : let f1 := (filter_step (out, f) m).2 in
    Total f1 = Total f ∧ counted f1 = S (counted f) ∧ KeptCount f1 = KeptCount f + (if KeepMessage m then 1 else 0)).
  { unfold filter_step, KeepMessage, counted. destruct (is_tool m); [cbn; lia|]. destruct (_ <? 20); [cbn; lia|].
    destruct (isEnvelope _); cbn; lia. }
  destruct (filter_step (out, f) m) as [o f1]. specialize (IH o f1). cbv zeta in *. cbn [snd] in *. destruct (KeepMessage m); cbn [length]; lia.
Qed.

(** the batch filter keeps exactly the messages that [KeepMessage] accepts, in order,
    and its counters account for every message once. *)
Theorem filter_is_keep : ∀ msgs,
  let '(kept, f) := Filter msgs in
  kept = List.filter KeepMessage msgs ∧ KeptCount f = length kept ∧ Total f = length msgs
  ∧ Total f = KeptCount f + ToolCount f + ShortCount f + EnvelopeCount f.
Proof.
  intros msgs. unfold Filter. set (f0 := mkFStats (length msgs) 0 0 0 0).
  rewrite (filter_step_app msgs [] f0). pose proof (filter_stats msgs [] f0) as H.
  destruct (foldl filter_step ([], f0) msgs) as [o f]. cbn in *. unfold counted in H. cbn in H. split; [done|lia].
Qed.

Lemma Filter_kept msgs : (Filter msgs).1 = List.filter KeepMessage msgs.
Proof. unfold Filter. by rewrite filter_step_app. Qed.

(** ** Chunks are a greedy partition *)

Definition group_text (g : list Message) : string := foldr (λ m t, Render m +:+ t) "" g.

Definition chunk_of (g : list Message) : Chunk := mkChunk (group_text g) (map msgUUID g) (slen (group_text g)).

(** A group fits the target, or is one message. *)
Definition fits (target : nat) (g : list Message) : Prop :=
  g ≠ [] ∧ (slen (group_text g) ≤ target ∨ ∃ m, g = [m]).

(** Two neighbouring groups: the first message of the second did not fit into the first. *)
Definition tight (target : nat) (gs : list (list Message)) : Prop :=
  ∀ i g m g', gs !! i = Some g → gs !! S i = Some (m :: g') → target < slen (group_text g) + slen (Render m).

Lemma group_text_app g h : group_text (g ++ h) = group_text g +:+ group_text h.
Proof.
  unfold group_text. induction g as [|m g IH]; [done|]. cbn [app foldr]. by rewrite IH, str_app_assoc.
Qed.

Lemma group_text_single m : group_text [m] = Render m.
Proof. unfold group_text. cbn [foldr]. by rewrite str_app_nil_r. Qed.

Lemma Render_pos m : 0 < slen (Render m).
Proof. unfold Render. rewrite !str_length_app. cbn [String.length]. lia. Qed.

Lemma group_text_empty g : (group_text g =?s "") = true ↔ g = [].
Proof.
  split; [|by intros ->]. intros H%String.eqb_eq. destruct g as [|m g]; [done|]. exfalso.
  apply (f_equal slen) in H. unfold group_text in H. cbn [foldr] in H. rewrite str_length_app in H.
  pose proof (Render_pos m). cbn [String.length] in H. lia.
Qed.

Lemma flush_group gs cur :
  flush (map chunk_of gs) (group_text cur) (map msgUUID cur)
  = map chunk_of (match cur with [] => gs | _ => gs ++ [cur] end).
Proof.
  unfold flush. destruct (group_text cur =?s "") eqn:E.
  - by apply group_text_empty in E as ->.
  - destruct cur; [done|]. by rewrite map_app.
Qed.

(** What the groups so far have to do with the current one. *)
Definition link (target : nat) (gs : list (list Message)) (cur : list Message) : Prop :=
  ∀ g, last gs = Some g →
    match cur with [] => target ≤ slen (group_text g) | m :: _ => target < slen (group_text g) + slen (Render m) end.

Lemma tight_snoc target gs cur : tight target gs → link target gs cur → cur ≠ [] → tight target (gs ++ [cur]).
Proof.
  intros Ht Hl Hc i g m g' Hi Hs. destruct (decide (S i < length gs)) as [Hlt|Hge].
  - rewrite lookup_app_l in Hi, Hs by lia. by eapply Ht.
  - assert (Hlen : S i = length gs).
    { apply lookup_lt_Some in Hs. rewrite length_app in Hs. cbn in Hs. lia. }
    rewrite Hlen, list_lookup_middle in Hs by done. simplify_eq. rewrite lookup_app_l in Hi by lia.
    specialize (Hl g). rewrite last_lookup, <- Hlen in Hl. by apply Hl.
Qed.

Lemma link_single target gs g m : target < slen (group_text g) + slen (Render m) → link target (gs ++ [g]) [m].
Proof. intros H g0. rewrite last_snoc. by intros [= <-]. Qed.

Lemma chunk_loop_spec target msgs : ∀ gs cur,
  Forall (fits target) gs → tight target gs → link target gs cur → slen (group_text cur) ≤ target →
  ∃ gs', chunk_loop target msgs (map chunk_of gs) (group_text cur) (map msgUUID cur) = map chunk_of gs'
  ∧ concat gs' = concat gs ++ cur ++ msgs ∧ Forall (fits target) gs' ∧ tight target gs'.
Proof.
  induction msgs as [|m r IH]; intros gs cur Hf Ht Hl Hc; cbn [chunk_loop].
  { rewrite flush_group. eexists. split; [done|]. rewrite app_nil_r. destruct cur as [|x cur]; [by rewrite app_nil_r|].
    rewrite concat_app. cbn. rewrite app_nil_r. split_and!; [done| |by apply tight_snoc].
    apply Forall_app. split; [done|]. constructor; [|done]. split; [done|by left]. }
  pose proof (Render_pos m) as Hp. destruct (target <=? slen (Render m)) eqn:E1; bool_prop.
  - rewrite flush_group, <- group_text_single.
    set (gs1 := match cur with [] => gs | _ => gs ++ [cur] end).
    assert (H1 : Forall (fits target) gs1 ∧ tight target gs1 ∧ link target gs1 [m] ∧ concat gs1 = concat gs ++ cur).
    { subst gs1. destruct cur as [|x cur].
      - rewrite app_nil_r. split_and!; try done. intros g Hg. specialize (Hl _ Hg). cbn in Hl. lia.
      - rewrite concat_app. cbn. rewrite app_nil_r. split_and!; [|by apply tight_snoc| |done].
        + apply Forall_app. split; [done|]. constructor; [|done]. split; [done|by left].
        + apply link_single. cbn [group_text foldr]. rewrite str_length_app. pose proof (Render_pos x). lia. }
    destruct H1 as (Hf1 & Ht1 & Hl1 & Hc1).
    change (mkChunk (group_text [m]) [msgUUID m] (slen (group_text [m]))) with (chunk_of [m]).
    change [chunk_of [m]] with (map chunk_of [[m]]). rewrite <- map_app.
    destruct (IH (gs1 ++ [[m]]) []) as (gs' & E & Hcat & ? & ?).
    + apply Forall_app. split; [done|]. constructor; [|done]. split; [done|]. right. by exists m.
    + by apply tight_snoc.
    + intros g. rewrite last_snoc. intros [= <-]. rewrite group_text_single. lia.
    + cbn. lia.
    + exists gs'. split; [exact E|]. rewrite Hcat, concat_app, Hc1. cbn. by rewrite <- !app_assoc.
  - destruct ((target <? slen (group_text cur) + slen (Render m)) && (0 <? slen (group_text cur))) eqn:E2.
    + bool_prop. destruct cur as [|x cur]; [cbn in *; lia|]. rewrite flush_group, <- group_text_single.
      destruct (IH (gs ++ [x :: cur]) [m]) as (gs' & E & Hcat & ? & ?).
      * apply Forall_app. split; [done|]. constructor; [|done]. split; [done|by left].
      * by apply tight_snoc.
      * by apply link_single.
      * rewrite group_text_single. lia.
      * exists gs'. split; [exact E|]. rewrite Hcat, concat_app. cbn. rewrite app_nil_r. by rewrite <- !app_assoc.
    + rewrite <- group_text_single, <- group_text_app.
      change (map msgUUID cur ++ [msgUUID m]) with (map msgUUID cur ++ map msgUUID [m]). rewrite <- map_app.
      destruct (IH gs (cur ++ [m])) as (gs' & E & Hcat & ? & ?); [done..| | |].
      * intros g Hg. specialize (Hl _ Hg). destruct cur; cbn in *; lia.
      * rewrite group_text_app, str_length_app, group_text_single. apply andb_false_iff in E2 as [E2|E2]; bool_prop; lia.
      * exists gs'. split; [exact E|]. rewrite Hcat. by rewrite <- !app_assoc.
Qed.

Definition effective_target (target : Z) : nat := Z.to_nat (if (target <=? 0)%Z then 5000 else target).

Lemma ChunkMessages_groups msgs target : ∃ gs,
  ChunkMessages msgs target = map chunk_of gs ∧ concat gs = msgs
  ∧ Forall (fits (effective_target target)) gs ∧ tight (effective_target target) gs.
Proof.
  unfold ChunkMessages. destruct msgs as [|m r]; [by exists []|].
  destruct (chunk_loop_spec (effective_target target) (m :: r) [] []) as (gs' & E & Hc & ? & ?);
    [done|done|done|cbn; lia|]. exists gs'. by split.
Qed.

(** the chunks are the messages cut into consecutive groups, in order and
    complete, no message split; a chunk is within the target unless it is a single message, and
    it ends only where the next message would not have fitted. *)
Theorem chunks_greedy_partition : ∀ msgs target, ∃ gs,
  ChunkMessages msgs target = map chunk_of gs ∧ concat gs = msgs
  ∧ Forall (fits (effective_target target)) gs ∧ tight (effective_target target) gs.
Proof. exact ChunkMessages_groups. Qed.

(** ** Agent ids are slugs *)

Definition alnum (c : ascii) : bool := alnum_rune (N_of_ascii c).

(** [\[a-z0-9\]+(-\[a-z0-9\]+)*]; [prev] says that a letter or digit must come next. *)
Fixpoint is_slug_from (prev : bool) (s : string) : bool :=
  match s with
  | EmptyString => negb prev
  | String c r => if is_dash c then negb prev && is_slug_from true r else alnum c && is_slug_from false r
  end.

Definition is_slug : string → bool := is_slug_from true.

(** The same without the condition on the end. *)
Fixpoint no_double_dash (prev : bool) (s : string) : bool :=
  match s with
  | EmptyString => true
  | String c r => if is_dash c then negb prev && no_double_dash true r else alnum c && no_double_dash false r
  end.

Lemma alnum_ascii l : alnum_rune l = true → alnum (ascii_of_N l) = true ∧ is_dash (ascii_of_N l) = false.
Proof.
  intros H. assert (Hl : (l < 256)%N).
  { unfold alnum_rune in H. apply orb_true_iff in H as [H|H]; apply andb_true_iff in H as [_ H%N.leb_le]; lia. }
  unfold alnum. rewrite N_ascii_embedding by done. split; [done|].
  apply Ascii.eqb_neq. intros E. apply (f_equal N_of_ascii) in E. rewrite N_ascii_embedding in E by done. by subst l.
Qed.

Lemma slug_runes_ok fuel : ∀ s prev, no_double_dash prev (slug_runes fuel s prev) = true.
Proof.
  induction fuel as [|n IH]; intros s prev; [done|]. destruct s as [|c r]; [done|]. cbn [slug_runes].
  destruct (decode_rune c r) as [rune w]. destruct (alnum_rune (lower_rune rune)) eqn:E.
  - destruct (alnum_ascii _ E) as [Ha Hd]. cbn [no_double_dash]. by rewrite Hd, Ha, IH.
  - destruct prev; [apply IH|]. cbn. apply IH.
Qed.

Lemma trim_left_dash s : no_double_dash false s = true → no_double_dash true (trim_left is_dash s) = true.
Proof.
  destruct s as [|c s]; [done|]. cbn [no_double_dash trim_left]. destruct (is_dash c) eqn:E.
  - destruct s as [|d s]; [done|]. cbn [no_double_dash trim_left]. destruct (is_dash d) eqn:E2; [done|].
    intros H. cbn [no_double_dash]. rewrite E2. by rewrite andb_true_l in H.
  - intros H. cbn [no_double_dash]. by rewrite E.
Qed.

Lemma trim_right_dash s : ∀ prev,
  no_double_dash prev s = true → trim_right is_dash s ≠ "" → is_slug_from prev (trim_right is_dash s) = true.
Proof.
  induction s as [|c s IH]; intros prev; [done|]. cbn [no_double_dash trim_right].
  destruct (is_dash c) eqn:E; intros [Hp Hs]%andb_true_iff; specialize (IH _ Hs);
    destruct (trim_right is_dash s) as [|d t]; intros Hne; try done; cbn [is_slug_from] in *; rewrite ?E.
  - rewrite Hp. by apply IH.
  - by rewrite Hp.
  - rewrite Hp. by apply IH.
Qed.

(** every agent id is the transcript prefix and a slug of ASCII letters, digits and
    single inner dashes, whatever the project directory is, and is recognised as such. *)
Theorem agent_id_is_slug : ∀ projectDir, ∃ s,
  Derive projectDir = agentIDPrefix +:+ s ∧ is_slug s = true ∧ IsTranscriptAgentID (Derive projectDir) = true.
Proof.
  intros d. assert (H : ∃ s, Derive d = agentIDPrefix +:+ s ∧ is_slug s = true).
  { unfold Derive. destruct (_ || _); [by exists "unknown"|].
    destruct (trim_func is_dash _ =?s "") eqn:E; [by exists "unknown"|]. eexists. split; [done|].
    bool_prop. apply trim_right_dash; [|done]. apply trim_left_dash, slug_runes_ok. }
  destruct H as (s & -> & Hs). exists s. split_and!; [done..|]. apply GoStrings.prefix_app.
Qed.

(** whatever the model answers, a classification that succeeds is one of the
    five categories. *)
Theorem category_in_taxonomy : ∀ c post text cat, Classify c post text = Ok cat → cat ∈ ValidCategories.
Proof.
  intros c post text cat. assert (Hn : "none" ∈ ValidCategories) by (apply (bool_decide_unpack _); done).
  unfold Classify. case_if; [done|]. destruct (post _) as [e|st tx body]; [done|]. case_if; [done|].
  destruct (chat_choices body) as [[|x l]|]; [by intros [= <-]| |done]. intros [= <-].
  unfold NormalizeCategory. case_bool_decide; done.
Qed.

Lemma category_in_taxonomy_witness :
  Classify (NewOpenAIClassifier "key" "" "")
    (λ _, HttpReply 200 "OK" (Marshal (JObj [("choices", JArr [JObj [("message", JObj [("content", JStr "Project.")])]])]))) "text"
  = Ok "project" ∧ "project" ∈ ValidCategories.
Proof.
  assert (E : Classify (NewOpenAIClassifier "key" "" "")
    (λ _, HttpReply 200 "OK" (Marshal (JObj [("choices", JArr [JObj [("message", JObj [("content", JStr "Project.")])]])]))) "text"
    = Ok "project") by (vm_compute; reflexivity).
  split; [exact E|]. exact (category_in_taxonomy _ _ _ _ E).
Defined.

(** The blended search shows only memories of this pipeline. *)
Lemma hits_are_transcripts result : Forall (λ h, IsTranscriptAgentID (mhAgentID h) = true) (parseMemoryHits result).
Proof.
  unfold parseMemoryHits. destruct (result_text result) as [t|]; [|done].
  apply List.Forall_forall. intros h [_ Hh]%filter_In. done.
Qed.

Example derive_examples :
  map Derive ["/Users/ian/code/arc-relay"; "/Users/ian/.claude"; "/home/foo/My Stuff"; "/Users/ian/code/arc-relay/"; ""]
  = ["transcripts-arc-relay"; "transcripts-claude"; "transcripts-my-stuff"; "transcripts-arc-relay"; "transcripts-unknown"].
Proof. vm_compute. reflexivity. Qed.
