(* ===== verification/Extractor.v ===== *)
(** * The memory extractor

    [src/internal/memory/extractor]: the call-rate limit ([ratelimit.go]), one extraction pass over
    a session with its retries and its bookkeeping ([extractor.go]), the admission queue
    ([queue.go]) and the periodic backstop ([cron.go]).  The backend, the classifier and the
    clock are the environment: they decide how every attempted call ends and how long it takes. *)
From stdpp Require Import pretty.
From S2P Require Import Prelude GoStrings Json JsonDecode Mcp MemoryStore ExtractText.

(** ** The rate limiter

    The code counts tokens in float64; here a token is the number of nanoseconds of an hour, so
    that one nanosecond adds exactly [perHour] units.  Rounding of float64 is not modelled. *)
Record RateLimiter := mkLimiter { tokens : Z; burst : Z; perHour : Z; lastRefill : option Z }.

Definition one_token : Z := hour.

(** [None] is the limiter that never waits. *)
Definition NewRateLimiter (callsPerHour burst : Z) : option RateLimiter :=
  if (callsPerHour <=? 0)%Z then None
  else Some (mkLimiter 0 ((if (burst <=? 0)%Z then 1 else burst) * one_token) callsPerHour None).

Definition refill (now : Z) (r : RateLimiter) : RateLimiter :=
  mkLimiter (match lastRefill r with
             | None => tokens r
             | Some t => Z.min (burst r) (tokens r + (now - t) * perHour r)
             end) (burst r) (perHour r) (Some now).

(** The token, or the time until the next one. *)
Definition take_token (now : Z) (r : RateLimiter) : bool * Z * RateLimiter :=
  let r := refill now r in
  if (one_token <=? tokens r)%Z then (true, 0%Z, mkLimiter (tokens r - one_token) (burst r) (perHour r) (lastRefill r))
  else (false, ((one_token - tokens r) / perHour r)%Z, r).

Definition ctx_error : string := "context deadline exceeded".

(** [ctx.Err() != nil] at an instant. *)
Definition ctx_done (deadline : option Z) (now : Z) : bool :=
  match deadline with None => false | Some d => (d <=? now)%Z end.

(** The loop of [Wait] for one caller: the outcome, the instant, and the limiter after it.  A timer
    of zero still lets the clock advance.  [None] is a loop that has not ended. *)
Fixpoint wait_loop (fuel : nat) (deadline : option Z) (now : Z) (r : RateLimiter) : option (bool * Z * RateLimiter) :=
  match fuel with
  | O => None
  | S fuel =>
      let '(ok, w, r') := take_token now r in
      if ok then Some (true, now, r')
      else
        let wake := (now + Z.max 1 w)%Z in
        if ctx_done deadline wake then Some (false, Z.max now (default wake deadline), r')
        else wait_loop fuel deadline wake r'
  end.

(** Three tokens are asked for at most ([wait_ends]). *)
Definition wait_fuel : nat := 3.

(** ** The pass *)

Record Metadata := mkMeta {
  project_dir : string; session_id : string; platform : string; last_seen_at : Z; source_msg_uuids : list string;
  category : option string }.

(** One [add_memory] call as the backend receives it. *)
Record AddMemory := mkAdd {
  RequestID : string; ToolName : string; Content : string; MemUserID : string; AgentID : string; Meta : Metadata }.

Inductive SendAnswer := SendFailed (err : string) | SendReply (resp : Response).

(** The environment of a process: the backend's registration, the user names, the classifier when
    one is set, and, for the n-th attempted call, its answer and its duration. *)
Record Env := mkEnv {
  registered : bool; resolveUser : string → option string; classifier : option (nat → string → result string);
  answer : nat → SendAnswer; took : nat → Z }.

Record Service := mkService {
  chunkTarget : Z; requestTimeout : Z; passLimit : Z; poisonAfter : Z; maxMessageChars : Z }.

Definition NewService : Service := mkService 3000 (180 * second) 400 4 12000.

(** The database, the clock, the limiter, and the calls attempted so far. *)
Record World := mkWorld { mem : State; clock : Z; limiter : option RateLimiter; sent : list AddMemory }.

Definition on_mem {A} (m : DBM State A) : DBM World A :=
  lift_db mem (λ s w, mkWorld s (clock w) (limiter w) (sent w)) m.

(** A step that is no statement. *)
Definition step {A} (f : World → result A * World) : DBM World A :=
  λ d, let '(r, w) := f (tables d) in (r, mkDb w (faults d)).

Definition read {A} (f : World → A) : DBM World A := step (λ w, (Ok (f w), w)).

Definition set_clock (w : World) (t : Z) : World := mkWorld (mem w) t (limiter w) (sent w).

(** [RateLimiter.Wait], of a nil limiter too. *)
Definition Wait (deadline : option Z) : DBM World unit :=
  step (λ w, match limiter w with
             | None => (Ok tt, w)
             | Some r =>
                 match wait_loop wait_fuel deadline (clock w) r with
                 | Some (ok, now, r') =>
                     (if ok then Ok tt else Err ctx_error, mkWorld (mem w) now (Some r') (sent w))
                 | None => (Err ctx_error, w)
                 end
             end).

Definition isRetryable (err : string) : bool :=
  Contains err "context deadline exceeded" || Contains err "context canceled"
  || Contains err "reading SSE stream" || Contains err "EOF".

Section Pass.
Context (env : Env) (svc : Service).

Definition mem0_user (userID : string) : string :=
  match resolveUser env userID with Some n => if n =?s "" then userID else n | None => userID end.

Definition category_of (n : nat) (text : string) : option string :=
  match classifier env with
  | None => None
  | Some cls => match cls n text with Err _ => None | Ok c => if c =?s "" then None else Some c end
  end.

Definition add_memory (n : nat) (c : Chunk) (agentID : string) (m : MemorySession) : AddMemory :=
  mkAdd ("extract-" +:+ SessionID m) "add_memory" (chText c) (mem0_user (UserID m)) agentID
    (mkMeta (ProjectDir m) (SessionID m) (Platform m) (LastSeenAt m) (chUUIDs c) (category_of n (chText c))).

(** [callAddMemory]: one attempted call. *)
Definition callAddMemory (c : Chunk) (agentID : string) (m : MemorySession) : DBM World (list string) :=
  step (λ w,
    let n := length (sent w) in
    let w' := mkWorld (mem w) (clock w + Z.max 0 (took env n)) (limiter w) (sent w ++ [add_memory n c agentID m]) in
    match answer env n with
    | SendFailed e => (Err ("mem0 send: " +:+ e), w')
    | SendReply resp =>
        match Error resp with
        | Some e => (Err ("mem0 error " +:+ pretty (Code e) +:+ ": " +:+ Mcp.Message e), w')
        | None => (Ok (parseMemoryIDs (default "" (Result resp))), w')
        end
    end).

(** The pause before the second attempt. *)
Definition backoff (deadline : option Z) : DBM World unit :=
  step (λ w, let wake := (clock w + 2 * second)%Z in
             if ctx_done deadline wake then (Err ctx_error, set_clock w (Z.max (clock w) (default wake deadline)))
             else (Ok tt, set_clock w wake)).

(** The attempts that are left. *)
Fixpoint retry_loop (attempts : nat) (deadline : option Z) (c : Chunk) (agentID : string) (m : MemorySession)
    (lastErr : string) : DBM World (list string) :=
  match attempts with
  | O => db_fail lastErr
  | S more =>
      let! now := read clock in
      if ctx_done deadline now then db_fail ctx_error
      else
        let! _ := Wait deadline in
        let! r := attempt (callAddMemory c agentID m) in
        match r with
        | Ok ids => db_ret ids
        | Err e =>
            if negb (isRetryable e) then db_fail e
            else if (0 <? more) then let! _ := backoff deadline in retry_loop more deadline c agentID m e
            else retry_loop more deadline c agentID m e
        end
  end.

Definition callAddMemoryWithRetry (deadline : option Z) (c : Chunk) (agentID : string) (m : MemorySession) :
    DBM World (list string) := retry_loop 2 deadline c agentID m "".

(** What the loop over the chunks accumulates. *)
Record Progress := mkProgress { failed : bool; aborted : bool; errors : list string; memories : Z }.

Definition uuids_json (l : list string) : string := Marshal (JArr (map JStr l)).

(** [json.Marshal] of a nil slice is [null]. *)
Definition ids_json (l : list string) : string := match l with [] => "null" | _ => uuids_json l end.

Definition provenance (now : Z) (i : nat) (c : Chunk) (id : string) (r : result (list string)) : MemoryExtraction :=
  let ids := match r with Ok l => l | Err _ => [] end in
  mkExtraction 0 id now (Z.of_nat i) (uuids_json (chUUIDs c)) (Z.of_nat (chChars c)) (ids_json ids)
    (Z.of_nat (length ids)) (match r with Ok _ => None | Err e => Some e end).

(** The accounting of one chunk's call: [failed], [result.Errors], [result.MemoriesCreated]. *)
Definition after_call (p : Progress) (r : result (list string)) : Progress :=
  match r with
  | Ok ids => mkProgress (failed p) (aborted p) (errors p) (memories p + Z.of_nat (length ids))
  | Err e => mkProgress true (aborted p) (errors p ++ [e]) (memories p)
  end.

Definition after_insert (p : Progress) (r : result unit) : Progress :=
  match r with
  | Ok _ => p
  | Err e => mkProgress true (aborted p) (errors p ++ ["provenance insert: " +:+ e]) (memories p)
  end.

Definition abort (p : Progress) : Progress := mkProgress (failed p) true (errors p) (memories p).

Fixpoint run_chunks (deadline : option Z) (now : Z) (agentID : string) (m : MemorySession) (id : string) (i : nat)
    (chunks : list Chunk) (p : Progress) : DBM World Progress :=
  match chunks with
  | [] => db_ret p
  | c :: r =>
      let! t := read clock in
      if ctx_done deadline t then db_ret (abort p)
      else
        let! res := attempt (callAddMemoryWithRetry deadline c agentID m) in
        let! t := read clock in
        if ctx_done deadline t then db_ret (abort p)
        else
          let! ins := attempt (on_mem (InsertExtraction (provenance now i c id res))) in
          run_chunks deadline now agentID m id (S i) r (after_insert (after_call p res) ins)
  end.

Inductive Outcome := NothingNew | AdvancedNoContent | Complete | Failed | Poisoned.

Record ExtractResult := mkResult {
  rsSession : string; MessagesTotal : nat; MessagesKept : nat; MessagesNew : nat; ChunksProcessed : nat;
  MemoriesCreated : Z; Errors : list string; ThroughID : Z; rsOutcome : Outcome }.

Definition ErrBackendUnavailable : string := "mem0 backend not registered".

(** The messages of the window that no successful chunk has sent. *)
Definition fresh_messages (covered : list string) (kept : list Message) : list Message :=
  List.filter (λ m, (msgUUID m =?s "") || negb (bool_decide (msgUUID m ∈ covered))) kept.

Definition agent_source (m : MemorySession) : string := if ProjectKey m =?s "" then ProjectDir m else ProjectKey m.

(** Step 8 of [Extract]: advance, or count the failure and poison after too many. *)
Definition settle (id : string) (through now : Z) (p : Progress) : DBM World Outcome :=
  if failed p || aborted p then
    let! attempts := on_mem (FailExtractPass id) in
    if (poisonAfter svc <=? attempts)%Z
    then let! _ := on_mem (PoisonExtractRange id through now) in db_ret Poisoned
    else db_ret Failed
  else let! _ := on_mem (CompleteExtractPass id through now) in db_ret Complete.

Definition Extract (deadline : option Z) (id : string) : DBM World ExtractResult :=
  if id =?s "" then db_fail "session_id required"
  else
    let! m := on_mem (Get id) in
    let! st := on_mem (GetExtractionState id) in
    let after := watermark (ext st) in
    let! msgs := on_mem (GetSessionRange id after (passLimit svc)) in
    match last msgs with
    | None => db_ret (mkResult id 0 0 0 0 0 [] after NothingNew)
    | Some newest =>
        let through := msgID newest in
        let '(kept, fstats) := Filter msgs in
        let! covered := on_mem (CoveredUUIDs id) in
        let fresh := fresh_messages covered kept in
        let! now := read clock in
        match fresh with
        | [] =>
            let! _ := on_mem (CompleteExtractPass id through now) in
            db_ret (mkResult id (Total fstats) (KeptCount fstats) 0 0 0 [] through AdvancedNoContent)
        | _ =>
            let chunks := ChunkMessages (truncateOversized (maxMessageChars svc) fresh) (chunkTarget svc) in
            if negb (registered env) then db_fail ErrBackendUnavailable
            else
              let! _ := on_mem (BeginExtractAttempt id now) in
              let! p := run_chunks deadline now (Derive (agent_source m)) m id 0 chunks (mkProgress false false [] 0) in
              let! out := settle id through now p in
              db_ret (mkResult id (Total fstats) (KeptCount fstats) (length fresh) (length chunks) (memories p) (errors p)
                        through out)
        end
    end.
End Pass.

(** ** The admission queue *)

Inductive Mode := ModeAuto | ModeManual.

Record QueueConfig := mkQueueConfig { Workers : Z; Capacity : Z; PassTimeout : Z; Eligibility : EligibilityConfig }.

Definition DefaultQueueConfig : QueueConfig := mkQueueConfig 2 1000 (15 * minute) DefaultEligibilityConfig.

(** The defaults that [StartQueue] puts in for values that make no sense. *)
Definition started_config (cfg : QueueConfig) : QueueConfig :=
  mkQueueConfig (if (Workers cfg <=? 0)%Z then 2 else Workers cfg) (if (Capacity cfg <=? 0)%Z then 1000 else Capacity cfg)
    (if (PassTimeout cfg <=? 0)%Z then 15 * minute else PassTimeout cfg)%Z (Eligibility cfg).

Record queueItem := mkItem { itemSession : string; itemMode : Mode }.

(** The channel's buffer, the pending set, and the items the workers have taken. *)
Record Queue := mkQueue { ch : list queueItem; pending : gset string; running : list queueItem }.

Definition StartQueue : Queue := mkQueue [] ∅ [].

(** [admissible]: the reason on refusal. *)
Definition admissible (cfg : QueueConfig) (id : string) (mode : Mode) : DBM World (bool * string) :=
  let! now := read clock in
  match mode with
  | ModeManual =>
      let! r := attempt (on_mem (GetExtractionState id)) in
      db_ret (match r with
              | Err _ => (false, "ineligible:unknown_session")
              | Ok st => if IsSubagent (sess st) then (false, "ineligible:subagent") else (true, "eligible")
              end)
  | ModeAuto =>
      let! r := attempt (on_mem (IsEligibleForAutoExtraction id now (Eligibility cfg))) in
      db_ret (match r with
              | Err _ => (false, "ineligible:error")
              | Ok false => (false, "ineligible:auto_gate")
              | Ok true => (true, "eligible")
              end)
  end.

(** The critical section of [Enqueue]: the test of the pending set and the non-blocking send. *)
Definition try_enqueue (cfg : QueueConfig) (id : string) (mode : Mode) (q : Queue) : bool * string * Queue :=
  if bool_decide (id ∈ pending q) then (false, "duplicate", q)
  else if (Z.of_nat (length (ch q)) <? Capacity cfg)%Z
  then (true, "eligible", mkQueue (ch q ++ [mkItem id mode]) ({[id]} ∪ pending q) (running q))
  else (false, "queue_full", q).

Definition Enqueue (cfg : QueueConfig) (id : string) (mode : Mode) (q : Queue) : DBM World (bool * string * Queue) :=
  let! a := admissible cfg id mode in
  db_ret (if a.1 then try_enqueue cfg id mode q else (false, a.2, q)).

(** A worker takes the oldest item. *)
Definition dequeue (q : Queue) : option (queueItem * Queue) :=
  match ch q with [] => None | x :: r => Some (x, mkQueue r (pending q) (x :: running q)) end.

(** The deferred function of [run]. *)
Fixpoint remove_item (id : string) (l : list queueItem) : list queueItem :=
  match l with [] => [] | x :: r => if itemSession x =?s id then r else x :: remove_item id r end.

Definition finish (id : string) (q : Queue) : Queue := mkQueue (ch q) (pending q ∖ {[id]}) (remove_item id (running q)).

(** [run] without the deferred function: the gate again, then the pass under its timeout.  Errors
    are logged. *)
Definition run_item (env : Env) (svc : Service) (cfg : QueueConfig) (x : queueItem) : DBM World unit :=
  let! a := admissible cfg (itemSession x) (itemMode x) in
  if a.1 then
    let! now := read clock in
    let! _ := attempt (Extract env svc (Some (now + PassTimeout cfg)%Z) (itemSession x)) in
    db_ret tt
  else db_ret tt.

(** ** The periodic backstop *)

Definition cronBatchSize : Z := 50.
Definition errorRowRetention : Z := (30 * 24 * hour)%Z.

Fixpoint enqueue_all (cfg : QueueConfig) (ids : list string) (q : Queue) (queued skipped : Z) : DBM World (Z * Z * Queue) :=
  match ids with
  | [] => db_ret (queued, skipped, q)
  | id :: r =>
      let! e := Enqueue cfg id ModeAuto q in
      if e.1.1 then enqueue_all cfg r e.2 (queued + 1)%Z skipped else enqueue_all cfg r e.2 queued (skipped + 1)%Z
  end.

(** A cycle on a running queue; errors are logged. *)
Definition cronCycle (cfg : QueueConfig) (q : Queue) : DBM World Queue :=
  let! now := read clock in
  let! r := attempt (on_mem (ListEligibleForAutoExtraction now (Eligibility cfg) cronBatchSize)) in
  match r with
  | Err _ => db_ret q
  | Ok ids =>
      let! e := enqueue_all cfg ids q 0 0 in
      let! _ := attempt (on_mem (PruneErrors (now - errorRowRetention))) in
      db_ret e.2
  end.

(** ** Searching the backend *)

Record SearchCall := mkSearchCall { scQuery : string; scUserID : string; scLimit : Z }.

(** [SearchTranscriptMemories]: the call, and its hits; [send] is the backend's answer. *)
Definition SearchTranscriptMemories (env : Env) (send : SearchCall → SendAnswer) (userID q : string) (limit : Z) :
    result (list MemoryHit) :=
  if (userID =?s "") || (q =?s "") then Ok []
  else
    let limit := (if (limit <=? 0) || (50 <? limit) then 10 else limit)%Z in
    if negb (registered env) then Ok []
    else
      match send (mkSearchCall q (mem0_user env userID) limit) with
      | SendFailed e => Err ("mem0 search: " +:+ e)
      | SendReply resp =>
          match Error resp with
          | Some e => Err ("mem0 error " +:+ pretty (Code e) +:+ ": " +:+ Mcp.Message e)
          | None => Ok (parseMemoryHits (default "" (Result resp)))
          end
      end.

(** ** The limiter bounds calls and always answers *)

Definition limiter_ok (now : Z) (r : RateLimiter) : Prop :=
  (0 < perHour r ∧ one_token <= burst r ∧ 0 <= tokens r <= burst r)%Z ∧ ∀ t, lastRefill r = Some t → (t <= now)%Z.

Lemma new_limiter_ok callsPerHour b r now : NewRateLimiter callsPerHour b = Some r → limiter_ok now r.
Proof.
  unfold NewRateLimiter. case_if; [done|]. bool_prop. intros [= <-]. split; [|done]. cbn.
  assert (0 < one_token)%Z by done. case_if; bool_prop; nia.
Qed.

Lemma refill_ok now r : limiter_ok now r → limiter_ok now (refill now r).
Proof.
  intros [(Hp & Hb & Ht) Hl]. split; [|cbn; intros t [= <-]; lia]. cbn. split_and!; [done..| |].
  - destruct (lastRefill r) as [t|]; [|lia]. specialize (Hl t eq_refl). nia.
  - destruct (lastRefill r) as [t|]; lia.
Qed.

(** The tokens after a refill at a later time. *)
Lemma refill_tokens now d r :
  limiter_ok now r → (0 <= d)%Z → lastRefill r = Some now →
  tokens (refill (now + d) r) = Z.min (burst r) (tokens r + d * perHour r).
Proof. intros _ Hd E. cbn. rewrite E. f_equal. lia. Qed.

Definition pause (r : RateLimiter) : Z := Z.max 1 ((one_token - tokens r) / perHour r).

Lemma wait_step deadline now r :
  (∃ res, ∀ n, wait_loop (S n) deadline now r = Some res) ∨
  (tokens (refill now r) < one_token)%Z ∧
  ∀ n, wait_loop (S n) deadline now r = wait_loop n deadline (now + pause (refill now r))%Z (refill now r).
Proof.
  cbn [wait_loop]. unfold take_token.
  destruct (one_token <=? tokens (refill now r))%Z eqn:E; [left; by eexists|]. bool_prop.
  destruct (ctx_done deadline _) eqn:Ec; [left; by eexists|]. right. by split.
Qed.

(** After the pause at most one unit of the rate is missing. *)
Lemma pause_refills now r :
  limiter_ok now r → lastRefill r = Some now →
  (one_token < tokens (refill (now + pause r) r) + perHour r)%Z ∧ limiter_ok (now + pause r)%Z (refill (now + pause r) r).
Proof.
  intros Hok Hl. assert (Hw : (1 <= pause r)%Z) by (unfold pause; lia). split.
  - rewrite refill_tokens by (done || lia). destruct Hok as [(Hp & Hb & Ht) _].
    assert (Hd : (one_token - tokens r < pause r * perHour r + perHour r)%Z); [|lia].
    pose proof (Z.div_mod (one_token - tokens r) (perHour r) ltac:(lia)).
    pose proof (Z.mod_pos_bound (one_token - tokens r) (perHour r) Hp). unfold pause. nia.
  - apply refill_ok. destruct Hok as [? Ht]. split; [done|]. intros t E. specialize (Ht t E). lia.
Qed.

(** waiting for a token ends after at most three looks at the bucket, with the token or with
    the end of the context, whatever the rate, the burst and the deadline are. *)
Theorem wait_ends : ∀ deadline now r,
  limiter_ok now r → ∃ res, wait_loop wait_fuel deadline now r = Some res.
Proof.
  intros dl now r H0. unfold wait_fuel. pose proof (refill_ok _ _ H0) as H1. set (r1 := refill now r) in *.
  destruct (wait_step dl now r) as [[res E]|[T1 E1]]; [eauto|]. rewrite E1. fold r1 in T1 |- *.
  destruct (pause_refills now r1 H1 eq_refl) as [T2 H2]. set (n2 := (now + pause r1)%Z) in *. set (r2 := refill n2 r1) in *.
  destruct (wait_step dl n2 r1) as [[res E]|[T2' E2]]; [eauto|]. rewrite E2. fold r2 in T2' |- *.
  destruct (pause_refills n2 r2 H2 eq_refl) as [_ H3].
  destruct (wait_step dl (n2 + pause r2) r2) as [[res E]|[T3 _]]; [eauto|]. exfalso.
  rewrite refill_tokens in T3; [|done|unfold pause; lia|done]. destruct H2 as [(P2 & B2 & _) _].
  assert (1 <= pause r2)%Z by (unfold pause; lia). change (perHour r2) with (perHour r1) in *. nia.
Qed.

Definition fresh_limiter : RateLimiter := mkLimiter 0 (60 * one_token) 300 None.

Lemma wait_ends_witness : ∃ res, wait_loop wait_fuel None 5 fresh_limiter = Some res.
Proof. apply (wait_ends None 5 fresh_limiter). apply (new_limiter_ok 300 60). reflexivity. Defined.

(** Takes at the given instants: how many are granted, and the limiter after them. *)
Fixpoint run_takes (times : list Z) (r : RateLimiter) : nat * RateLimiter :=
  match times with
  | [] => (0, r)
  | t :: l => let '(ok, _, r') := take_token t r in
              let '(n, r2) := run_takes l r' in ((if ok then 1 else 0) + n, r2)
  end.

Lemma list_last_cons {A} (l : list A) : ∀ t d, List.last (t :: l) d = List.last l t.
Proof. induction l as [|x l IH]; intros t d; [done|]. change (List.last (x :: l) d = List.last (x :: l) t). by rewrite !IH. Qed.

Lemma run_takes_bound times : ∀ now r,
  limiter_ok now r → lastRefill r = Some now → StronglySorted Z.le (now :: times) →
  (Z.of_nat (run_takes times r).1 * one_token <= tokens r + (List.last times now - now) * perHour r)%Z.
Proof.
  induction times as [|t l IH]; intros now r Hok Hl Hs; [cbn; destruct Hok; lia|].
  apply StronglySorted_inv in Hs as [Hs Hall]. apply Forall_cons in Hall as [Hnt _].
  assert (Hok' : limiter_ok t (refill t r)).
  { apply refill_ok. destruct Hok as [? Hlt]. split; [done|]. intros u Hu. specialize (Hlt u Hu). lia. }
  assert (Htok : (tokens (refill t r) <= tokens r + (t - now) * perHour r)%Z).
  { cbn. rewrite Hl. lia. }
  assert (Hlast : List.last (t :: l) now = List.last l t) by apply list_last_cons.
  rewrite Hlast. cbn [run_takes]. unfold take_token.
  destruct (one_token <=? tokens (refill t r))%Z eqn:E; bool_prop.
  - set (r' := mkLimiter _ _ _ _). specialize (IH t r'). destruct (run_takes l r') as [n r2]. cbn [fst] in *.
    destruct Hok' as [(A & B & C) _]. assert (Hr' : limiter_ok t r').
    { split; [|intros u [= <-]; lia]. subst r'. cbn [perHour burst tokens] in *. assert (0 <= one_token)%Z by done. lia. }
    specialize (IH Hr' eq_refl Hs). subst r'. cbn [tokens perHour] in *. change (perHour (refill t r)) with (perHour r) in *. lia.
  - specialize (IH t (refill t r) Hok' eq_refl Hs). destruct (run_takes l _) as [n r2]. cbn [fst] in *.
    change (perHour (refill t r)) with (perHour r) in *. lia.
Qed.

(** C40: from a restart on, the calls granted by the time t are at most the configured
    number per hour, counted from the first request: a restart grants no burst. *)
Theorem calls_bounded_per_hour : ∀ callsPerHour b r t times,
  NewRateLimiter callsPerHour b = Some r → StronglySorted Z.le (t :: times) →
  (Z.of_nat (run_takes (t :: times) r).1 * hour <= (List.last times t - t) * callsPerHour)%Z.
Proof.
  intros n b r t times E Hs. pose proof (new_limiter_ok n b r t E) as Hok. pose proof (refill_ok _ _ Hok) as Hr.
  unfold NewRateLimiter in E. case_if; [done|]. bool_prop. simplify_eq. cbn [run_takes]. unfold take_token.
  set (r1 := refill t _) in *. change (one_token <=? tokens r1)%Z with false. cbv iota.
  pose proof (run_takes_bound times t r1 Hr eq_refl Hs) as Hb. destruct (run_takes times r1) as [k r2].
  cbn in Hb |- *. exact Hb.
Qed.

Lemma calls_bounded_per_hour_witness :
  (Z.of_nat (run_takes [0; hour; 2 * hour] fresh_limiter).1 * hour <= (2 * hour - 0) * 300)%Z.
Proof.
  apply (calls_bounded_per_hour 300 60 fresh_limiter 0 [hour; 2 * hour]%Z); [reflexivity|].
  repeat constructor; vm_compute; discriminate.
Defined.

(** ** The queue under interleaved requests and workers *)

(** A request past the gate, a free worker taking an item, a worker ending its item. *)
Inductive queue_step (cfg : QueueConfig) (q : Queue) : Queue → Prop :=
| step_enqueue id mode : queue_step cfg q (try_enqueue cfg id mode q).2
| step_dequeue x q' :
    dequeue q = Some (x, q') → (Z.of_nat (length (running q)) < Workers cfg)%Z → queue_step cfg q q'
| step_finish x : x ∈ running q → queue_step cfg q (finish (itemSession x) q).

Definition in_flight (q : Queue) : list string := map itemSession (ch q ++ running q).

Record queue_inv (cfg : QueueConfig) (q : Queue) : Prop := mkQueueInv {
  qi_nodup : NoDup (in_flight q);
  qi_pending : pending q = list_to_set (in_flight q);
  qi_capacity : (Z.of_nat (length (ch q)) <= Z.max 0 (Capacity cfg))%Z;
  qi_workers : (Z.of_nat (length (running q)) <= Z.max 0 (Workers cfg))%Z }.

Lemma remove_item_perm x l :
  x ∈ l → NoDup (map itemSession l) → map itemSession l ≡ₚ itemSession x :: map itemSession (remove_item (itemSession x) l).
Proof.
  induction l as [|y l IH]; [by intros ?%elem_of_nil|]. cbn. intros Hx [Hy Hn]%NoDup_cons.
  destruct (itemSession y =?s itemSession x) eqn:E; bool_prop; [by rewrite E|]. cbn.
  apply elem_of_cons in Hx as [->|Hx]; [done|]. rewrite (IH Hx Hn) at 1. apply Permutation_swap.
Qed.

Lemma length_remove_item id l : length (remove_item id l) ≤ length l.
Proof. induction l as [|x l IH]; cbn; [lia|]. case_if; cbn; lia. Qed.

Lemma queue_step_inv cfg q q' : queue_inv cfg q → queue_step cfg q q' → queue_inv cfg q'.
Proof.
  intros [Hn Hp Hc Hw] [id mode|x q2 Hd Hlt|x Hx].
  - unfold try_enqueue. case_bool_decide as Hid; [by split|]. destruct (_ <? _)%Z eqn:E; [|by split]. bool_prop.
    assert (Hperm : in_flight (mkQueue (ch q ++ [mkItem id mode]) ({[id]} ∪ pending q) (running q)) ≡ₚ id :: in_flight q).
    { unfold in_flight. cbn. rewrite <- app_assoc, !map_app. cbn. by rewrite <- Permutation_middle. }
    split; cbn [fst snd].
    + rewrite Hperm. apply NoDup_cons. split; [|done]. rewrite Hp in Hid. by rewrite elem_of_list_to_set in Hid.
    + rewrite (list_to_set_perm_L _ _ Hperm). cbn. by rewrite Hp.
    + cbn. rewrite length_app. cbn. lia.
    + done.
  - unfold dequeue in Hd. destruct (ch q) as [|y r] eqn:Ech; [done|]. simplify_eq.
    assert (Hperm : in_flight (mkQueue r (pending q) (x :: running q)) ≡ₚ in_flight q).
    { unfold in_flight. cbn. rewrite Ech, !map_app. cbn. by rewrite <- Permutation_middle. }
    split; cbn.
    + by rewrite Hperm.
    + by rewrite (list_to_set_perm_L _ _ Hperm).
    + cbn in Hc. lia.
    + lia.
  - assert (Hperm : in_flight q ≡ₚ itemSession x :: in_flight (finish (itemSession x) q)).
    { unfold in_flight, finish. cbn. rewrite !map_app. rewrite (remove_item_perm x (running q)) at 1; [|done|].
      - by rewrite <- Permutation_middle.
      - unfold in_flight in Hn. rewrite map_app in Hn. by apply NoDup_app in Hn as (_ & _ & ?). }
    rewrite Hperm in Hn. apply NoDup_cons in Hn as [Hnin Hn]. split.
    + done.
    + cbn. rewrite Hp, (list_to_set_perm_L _ _ Hperm). cbn.
      assert (itemSession x ∉ (list_to_set (in_flight (finish (itemSession x) q)) : gset string)) by (by rewrite elem_of_list_to_set).
      set_solver.
    + done.
    + cbn. pose proof (length_remove_item (itemSession x) (running q)). lia.
Qed.

(** C39: However requests and workers interleave, a session is waiting or being extracted
    at most once, the pending set is exactly those sessions (none is lost, none is blocked for
    good), the buffer is within its capacity and no more workers run than configured. *)
Theorem queue_never_doubles : ∀ cfg q, rtc (queue_step cfg) StartQueue q → queue_inv cfg q.
Proof.
  intros cfg q. assert (H0 : queue_inv cfg StartQueue) by (split; cbn; [constructor|done|lia|lia]).
  generalize dependent StartQueue. induction 2 as [|q0 q1 q2 Hs _ IH]; [done|]. apply IH. by eapply queue_step_inv.
Qed.

Lemma queue_never_doubles_witness :
  queue_inv DefaultQueueConfig (try_enqueue DefaultQueueConfig "s1" ModeAuto (try_enqueue DefaultQueueConfig "s1" ModeManual StartQueue).2).2.
Proof. apply queue_never_doubles. eapply rtc_l; [apply step_enqueue|]. eapply rtc_l; [apply step_enqueue|]. apply rtc_refl. Defined.
