(* ===== verification/ExtractPass.v ===== *)
(** * What extraction passes guarantee

    A pass of [Extractor.Extract] as a relation between the tables before and after it, whatever
    statements fail and however the backend answers; the accounting invariant that follows from
    it, and the end of repeated passes. *)
From stdpp Require Import pretty.
From S2P Require Import Prelude GoStrings Json JsonDecode Mcp MemoryStore MemoryService ExtractText Extractor.

(** ** Running the pass's steps *)

Definition with_mem (w : World) (s : State) : World := mkWorld s (clock w) (limiter w) (sent w).

(** A statement on the memory tables fails without effect or does its work. *)
Lemma on_mem_cases {A} (f : State → result (A * State)) d :
  (∃ e fs, on_mem (exec f) d = (Err e, mkDb (tables d) fs)) ∨
  (∃ a s' fs, f (mem (tables d)) = Ok (a, s') ∧ on_mem (exec f) d = (Ok a, mkDb (with_mem (tables d) s') fs)).
Proof.
  destruct d as [[s c l t] fs]. unfold on_mem, lift_db, exec. cbn.
  destruct (next_fault fs) as [[] fs']; [left; by eexists _, _|].
  destruct (f s) as [[a s']|e] eqn:E; [right; by eexists _, _, _|left; by eexists _, _].
Qed.

Lemma on_mem_query {A} (f : State → A) d :
  (∃ e fs, on_mem (query f) d = (Err e, mkDb (tables d) fs)) ∨
  (∃ fs, on_mem (query f) d = (Ok (f (mem (tables d))), mkDb (tables d) fs)).
Proof.
  destruct (on_mem_cases (λ t, Ok (f t, t)) d) as [?|(a & s' & fs & E & H)]; [by left|right]. simplify_eq.
  exists fs. unfold query. rewrite H. by destruct (tables d).
Qed.

(** The calls do not touch the tables. *)
Lemma step_mem {A} (f : World → result A * World) s :
  (∀ w, mem (f w).2 = mem w) → preserves (λ w, mem w = s) (step f).
Proof. intros Hf d Hd. unfold step. specialize (Hf (tables d)). destruct (f (tables d)). cbn in *. congruence. Qed.

Lemma wait_mem dl s : preserves (λ w, mem w = s) (Wait dl).
Proof.
  apply step_mem. intros w. destruct (limiter w) as [r|]; [|done]. by destruct (wait_loop _ _ _ _) as [[[[] ?] ?]|].
Qed.

Lemma call_mem env c a m s : preserves (λ w, mem w = s) (callAddMemory env c a m).
Proof. apply step_mem. intros w. cbn. destruct (answer env _) as [|resp]; [done|]. by destruct (Error resp). Qed.

Lemma retry_mem env dl c a m s : ∀ n e, preserves (λ w, mem w = s) (retry_loop env n dl c a m e).
Proof.
  induction n as [|n IH]; intros e; cbn; [apply preserves_fail|].
  apply preserves_bind; [by apply step_mem|]. intros now. case_if; [apply preserves_fail|].
  apply preserves_bind; [apply wait_mem|]. intros _. apply preserves_bind; [apply preserves_attempt, call_mem|].
  intros [ids|e']; [apply preserves_ret|]. case_if; [apply preserves_fail|].
  case_if; [|apply IH]. apply preserves_bind; [|intros _; apply IH]. apply step_mem. intros w. cbv beta zeta. by case_if.
Qed.

Lemma call_with_retry_mem env dl c a m d :
  mem (tables (snd (callAddMemoryWithRetry env dl c a m d))) = mem (tables d).
Proof. exact (retry_mem env dl c a m (mem (tables d)) 2 "" d eq_refl). Qed.

(** ** Provenance rows *)

Lemma strings_wf l : Json.wf (JArr (map JStr l)) = true.
Proof. cbn. apply forallb_forall. by intros x (y & <- & _)%in_map_iff. Qed.

Lemma uuids_roundtrip l : decode_strings (uuids_json l) = Some l.
Proof.
  unfold decode_strings, uuids_json. rewrite Unmarshal_Marshal by apply strings_wf.
  induction l as [|x l IH]; [done|]. cbn. by rewrite IH.
Qed.

(** What a list of rows of one session adds to the covered uuids. *)
Definition recorded (rows : list MemoryExtraction) : list string :=
  flat_map row_uuids (List.filter (λ e, bool_decide (exError e = None)) rows).

Lemma recorded_app a b : recorded (a ++ b) = recorded a ++ recorded b.
Proof. unfold recorded. by rewrite List.filter_app, flat_map_app. Qed.

Lemma covered_app_same id s rows s' :
  extractions s' = extractions s ++ rows → Forall (λ e, exSession e = id) rows →
  covered_uuids id s' = covered_uuids id s ++ recorded rows.
Proof.
  intros E Hf. unfold covered_uuids, recorded. rewrite E, List.filter_app, flat_map_app. f_equal. f_equal.
  clear E. induction Hf as [|e l He _ IH]; [done|]. cbn [List.filter]. unfold succeeded at 1. rewrite He, String.eqb_refl.
  cbn [andb]. by rewrite IH.
Qed.

Lemma covered_app_other id id' s rows s' :
  extractions s' = extractions s ++ rows → Forall (λ e, exSession e = id) rows → id' ≠ id →
  covered_uuids id' s' = covered_uuids id' s.
Proof.
  intros E Hf Hne. unfold covered_uuids. rewrite E, List.filter_app, flat_map_app.
  rewrite <- (app_nil_r (flat_map _ (List.filter _ (extractions s)))) at 2. f_equal.
  clear E. induction Hf as [|e l He _ IH]; [done|]. cbn [List.filter]. unfold succeeded at 1. rewrite He.
  by rewrite (proj2 (String.eqb_neq _ _) (not_eq_sym Hne)).
Qed.

(** The tables after the chunks' rows. *)
Record logged (id : string) (rows : list MemoryExtraction) (s s' : State) : Prop := mkLogged {
  lg_sessions : sessions s' = sessions s;
  lg_messages : messages s' = messages s;
  lg_seq : msg_seq s' = msg_seq s;
  lg_rows : extractions s' = extractions s ++ rows;
  lg_own : Forall (λ e, exSession e = id) rows }.

Lemma logged_nil id s : logged id [] s s.
Proof. split; try done. by rewrite app_nil_r. Qed.

Lemma logged_trans id r1 r2 s1 s2 s3 : logged id r1 s1 s2 → logged id r2 s2 s3 → logged id (r1 ++ r2) s1 s3.
Proof.
  intros [A1 B1 C1 D1 E1] [A2 B2 C2 D2 E2]. split; [congruence..| |by apply Forall_app].
  by rewrite D2, D1, app_assoc.
Qed.

Lemma insert_provenance now i c id res d : ∃ ins s' fs,
  attempt (on_mem (InsertExtraction (provenance now i c id res))) d = (Ok ins, mkDb (with_mem (tables d) s') fs) ∧
  ((∃ e, ins = Err e) ∧ s' = mem (tables d) ∨
   ins = Ok tt ∧ ∃ row, logged id [row] (mem (tables d)) s' ∧ recorded [row] = if is_ok res then chUUIDs c else []).
Proof.
  rewrite attempt_run. unfold InsertExtraction.
  match goal with |- context [exec ?f] => destruct (on_mem_cases f d) as [(e & fs & E)|([] & s' & fs & Ef & E)] end.
  - rewrite E. eexists _, (mem (tables d)), fs. split; [by destruct d as [[]]|]. left. split; [by eexists|done].
  - rewrite E. eexists _, s', fs. split; [done|]. right. split; [done|]. cbv beta in Ef. destruct (negb _); [done|].
    simplify_eq. eexists. split; [split; try done; by constructor|].
    unfold recorded, row_uuids, provenance. destruct res; [|done]. cbn [List.filter]. rewrite bool_decide_eq_true_2 by done.
    cbn [flat_map exMsgUUIDs is_ok].
    rewrite uuids_roundtrip. cbn. by rewrite app_nil_r.
Qed.

(** ** The chunks of a pass *)

Definition clean (p : Progress) : bool := negb (failed p || aborted p).

Lemma clean_after_call p r : clean (after_call p r) = clean p && is_ok r.
Proof. unfold clean. destruct r; cbn; [by rewrite andb_true_r|by rewrite andb_false_r]. Qed.

Lemma clean_after_insert p r : clean (after_insert p r) = clean p && is_ok r.
Proof. unfold clean. destruct r as [[]|]; cbn; [by rewrite andb_true_r|by rewrite andb_false_r]. Qed.

(** The rows of the chunks that succeeded, in order; when nothing failed, of all of them. *)
Lemma run_chunks_spec env dl now a m id chunks : ∀ i p d, ∃ p' d' rows,
  run_chunks env dl now a m id i chunks p d = (Ok p', d')
  ∧ logged id rows (mem (tables d)) (mem (tables d'))
  ∧ recorded rows `sublist_of` flat_map chUUIDs chunks
  ∧ (clean p' = true → clean p = true ∧ recorded rows = flat_map chUUIDs chunks).
Proof.
  induction chunks as [|c chunks IH]; intros i p d; cbn [run_chunks].
  { eexists p, d, []. split_and!; [done|apply logged_nil|apply sublist_nil_l|done]. }
  assert (Hab : ∀ d1, mem (tables d1) = mem (tables d) → ∃ p' d' rows,
    (Ok (abort p), d1) = (Ok p', d') ∧ logged id rows (mem (tables d)) (mem (tables d'))
    ∧ recorded rows `sublist_of` flat_map chUUIDs (c :: chunks)
    ∧ (clean p' = true → clean p = true ∧ recorded rows = flat_map chUUIDs (c :: chunks))).
  { intros d1 E. eexists _, d1, []. split_and!; [done|rewrite E; apply logged_nil|apply sublist_nil_l|].
    unfold clean, abort. cbn. by rewrite orb_true_r. }
  unfold db_bind at 1, read, step at 1. case_if; [apply Hab; by destruct d|].
  unfold db_bind at 1. rewrite attempt_run. set (d0 := mkDb _ _). replace d0 with d by by destruct d.
  pose proof (call_with_retry_mem env dl c a m d) as Hm. set (dc := snd _) in *.
  set (res := fst _). unfold db_bind at 1, step at 1. case_if; [apply Hab; by destruct dc|].
  unfold db_bind at 1. set (d2 := mkDb _ _). replace d2 with dc by by destruct dc.
  destruct (insert_provenance now i c id res dc) as (ins & s' & fs & E & Hins). rewrite E.
  destruct (IH (S i) (after_insert (after_call p res) ins) (mkDb (with_mem (tables dc) s') fs)) as (p' & d' & rows & Er & Hl & Hs & Hc).
  rewrite Hm in Hins. cbn [tables mem with_mem] in Hl.
  assert (Hclean : clean p' = true → clean p = true ∧ is_ok res = true ∧ is_ok ins = true ∧ recorded rows = flat_map chUUIDs chunks).
  { intros Hp. destruct (Hc Hp) as [H1 H2]. rewrite clean_after_insert, clean_after_call in H1. by bool_prop. }
  destruct Hins as [[[e ->] ->]|[-> (row & Hrow & Hrec)]].
  - exists p', d', rows. split_and!; [done|done| |].
    + cbn. etrans; [exact Hs|]. by apply sublist_inserts_l.
    + intros Hp. by destruct (Hclean Hp) as (_ & _ & ? & _).
  - exists p', d', (row :: rows). split_and!; [done|exact (logged_trans id [row] rows _ _ _ Hrow Hl)| |].
    + change (row :: rows) with ([row] ++ rows). rewrite recorded_app, Hrec. cbn. destruct (is_ok res); [by apply sublist_app|by apply sublist_inserts_l].
    + intros Hp. destruct (Hclean Hp) as (Hcl & Hok & _ & Hr). split; [done|].
      change (row :: rows) with ([row] ++ rows). by rewrite recorded_app, Hrec, Hok, Hr.
Qed.

(** ** A pass as a relation *)

(** The window of a pass and what is left of it to send. *)
Definition window (svc : Service) (id : string) (r : Row) (s : State) : list Message :=
  session_range id (watermark (ext r)) (passLimit svc) s.

Definition to_send (svc : Service) (id : string) (r : Row) (s : State) : list Message :=
  fresh_messages (covered_uuids id s) (List.filter KeepMessage (window svc id r s)).

(** From the row [r] of the session to the row with [e'], and some provenance rows: the watermark
    stays, or moves to the end of the window, and then either everything is recorded or the
    session is marked as poisoned. *)
Record pass_rel (svc : Service) (id : string) (r : Row) (s s' : State) : Prop := mkPass {
  ps_messages : messages s' = messages s;
  ps_seq : msg_seq s' = msg_seq s;
  ps_rest : ∃ e' rows, sessions s' = <[id := mkRow (sess r) e']> (sessions s)
    ∧ extractions s' = extractions s ++ rows ∧ Forall (λ e, exSession e = id) rows
    ∧ recorded rows `sublist_of` map msgUUID (to_send svc id r s)
    ∧ (is_Some (ExtractPoisonedAt (ext r)) → is_Some (ExtractPoisonedAt e'))
    ∧ ((0 <= ExtractAttempts (ext r))%Z → (0 <= ExtractAttempts e')%Z)
    ∧ (ExtractedThroughMsgID e' = ExtractedThroughMsgID (ext r) ∨
       ∃ newest, last (window svc id r s) = Some newest ∧ ExtractedThroughMsgID e' = Some (msgID newest)
         ∧ (is_Some (ExtractPoisonedAt e') ∨ recorded rows = map msgUUID (to_send svc id r s))) }.

Lemma alter_known {A} (f : A → A) (m : gmap string A) id r : m !! id = Some r → alter f id m = <[id := f r]> m.
Proof. intros E. apply map_eq. intros k. rewrite lookup_alter, lookup_insert. case_decide; [subst; by rewrite E|done]. Qed.

Lemma chunk_uuids g : flat_map chUUIDs (map chunk_of g) = map msgUUID (concat g).
Proof. induction g as [|x g IH]; [done|]. cbn. by rewrite IH, map_app. Qed.

Lemma ChunkMessages_uuids msgs target : flat_map chUUIDs (ChunkMessages msgs target) = map msgUUID msgs.
Proof. destruct (ChunkMessages_groups msgs target) as (gs & -> & <- & _). apply chunk_uuids. Qed.

Lemma truncate_uuids max msgs : map msgUUID (truncateOversized max msgs) = map msgUUID msgs.
Proof.
  unfold truncateOversized. case_if; [done|]. rewrite map_map. apply map_ext. intros m. unfold truncate_one. by case_if.
Qed.

(** The session's row after some updates of its bookkeeping and some provenance rows. *)
Record bookkept (id : string) (r : Row) (e' : ExtractionState) (rows : list MemoryExtraction) (s s' : State) : Prop := mkBook {
  bk_messages : messages s' = messages s;
  bk_seq : msg_seq s' = msg_seq s;
  bk_sessions : sessions s' = <[id := mkRow (sess r) e']> (sessions s);
  bk_rows : extractions s' = extractions s ++ rows;
  bk_own : Forall (λ e, exSession e = id) rows }.

Lemma bookkept_refl id r s : sessions s !! id = Some r → bookkept id r (ext r) [] s s.
Proof. intros E. split; try done; [|by rewrite app_nil_r]. destruct r. by rewrite insert_id. Qed.

Lemma bookkept_logged id r e rows rows' s s1 s2 :
  bookkept id r e rows s s1 → logged id rows' s1 s2 → bookkept id r e (rows ++ rows') s s2.
Proof.
  intros [A B C D E] [A' B' C' D' E']. split; [congruence..| |by apply Forall_app]. by rewrite D', D, app_assoc.
Qed.

Lemma bookkept_row id r e rows s s1 : bookkept id r e rows s s1 → sessions s1 !! id = Some (mkRow (sess r) e).
Proof. intros [_ _ -> _ _]. apply lookup_insert_eq. Qed.

Lemma bookkept_update id r e rows f s s1 :
  bookkept id r e rows s s1 → bookkept id r (f e) rows s (on_row id (with_ext f) s1).
Proof.
  intros Hb. pose proof (bookkept_row _ _ _ _ _ _ Hb) as Hr. destruct Hb as [A B C D E]. split; try done. cbn.
  rewrite (alter_known _ _ _ _ Hr), C. cbn. by rewrite insert_insert_eq.
Qed.

Lemma with_mem_same w : with_mem w (mem w) = w.
Proof. by destruct w. Qed.

(** A statement that only reads. *)
Lemma on_mem_read {A} (f : State → result (A * State)) (a : A) d :
  f (mem (tables d)) = Ok (a, mem (tables d)) →
  (∃ e fs, on_mem (exec f) d = (Err e, mkDb (tables d) fs)) ∨ (∃ fs, on_mem (exec f) d = (Ok a, mkDb (tables d) fs)).
Proof.
  intros Hf. destruct (on_mem_cases f d) as [?|(a' & s' & fs & E & H)]; [by left|right].
  rewrite Hf in E. simplify_eq. exists fs. by rewrite H, with_mem_same.
Qed.

Lemma on_mem_update (f : State → State) d :
  (∃ e fs, on_mem (update f) d = (Err e, mkDb (tables d) fs)) ∨
  (∃ fs, on_mem (update f) d = (Ok tt, mkDb (with_mem (tables d) (f (mem (tables d)))) fs)).
Proof.
  destruct (on_mem_cases (λ t, Ok (tt, f t)) d) as [?|([] & s' & fs & E & H)]; [by left|right]. simplify_eq.
  exists fs. done.
Qed.

(** What one run of the pass may leave: see [pass_rel]. *)
Definition admissible_end (svc : Service) (id : string) (r : Row) (s : State) (e' : ExtractionState)
    (rows : list MemoryExtraction) : Prop :=
  recorded rows `sublist_of` map msgUUID (to_send svc id r s)
  ∧ (is_Some (ExtractPoisonedAt (ext r)) → is_Some (ExtractPoisonedAt e'))
  ∧ ((0 <= ExtractAttempts (ext r))%Z → (0 <= ExtractAttempts e')%Z)
  ∧ (ExtractedThroughMsgID e' = ExtractedThroughMsgID (ext r) ∨
     ∃ newest, last (window svc id r s) = Some newest ∧ ExtractedThroughMsgID e' = Some (msgID newest)
       ∧ (is_Some (ExtractPoisonedAt e') ∨ recorded rows = map msgUUID (to_send svc id r s))).

Lemma pass_rel_intro svc id r s s' e' rows :
  bookkept id r e' rows s s' → admissible_end svc id r s e' rows → pass_rel svc id r s s'.
Proof. intros [] (? & ? & ? & ?). split; [done..|]. by exists e', rows. Qed.

Lemma settle_rel svc id through now p d r e rows s :
  bookkept id r e rows s (mem (tables d)) → admissible_end svc id r s e rows →
  (∃ newest, last (window svc id r s) = Some newest ∧ through = msgID newest) →
  (clean p = true → recorded rows = map msgUUID (to_send svc id r s)) →
  pass_rel svc id r s (mem (tables (snd (settle svc id through now p d)))).
Proof.
  intros Hb Hend (newest & Hl & ->) Hclean. destruct Hend as (Hs & Hp & Ha & Hm).
  unfold settle. destruct (failed p || aborted p) eqn:Ef.
  - unfold db_bind at 1. pose proof (bookkept_row _ _ _ _ _ _ Hb) as Hr.
    destruct (on_mem_cases (λ s, match sessions s !! id with
      | Some r => Ok (ExtractAttempts (ext r) + 1, on_row id (with_ext fail_ext) s)%Z | None => Err no_rows end) d)
      as [(er & fs & E)|(n & s' & fs & Ef' & E)]; unfold FailExtractPass; rewrite E.
    { by eapply pass_rel_intro. }
    rewrite Hr in Ef'. simplify_eq. pose proof (bookkept_update _ _ _ _ fail_ext _ _ Hb) as Hb1.
    assert (H1 : admissible_end svc id r s (fail_ext e) rows) by (split_and!; cbn; [done..|lia|done]).
    destruct (poisonAfter svc <=? _)%Z; [|by eapply pass_rel_intro].
    set (d1 := mkDb _ fs) in *. unfold db_bind, PoisonExtractRange.
    destruct (on_mem_update (on_row id (with_ext (poison_ext (msgID newest) now))) d1) as [(er & fs1 & E1)|(fs1 & E1)];
      rewrite E1; [by eapply pass_rel_intro|].
    eapply pass_rel_intro; [eapply bookkept_update, Hb1|]. split_and!; cbn; [done|by eexists|done|].
    right. exists newest. split_and!; [done|done|left; by eexists].
  - unfold db_bind, CompleteExtractPass.
    destruct (on_mem_update (on_row id (with_ext (complete_ext (msgID newest) now))) d) as [(er & fs1 & E1)|(fs1 & E1)];
      rewrite E1; [by eapply pass_rel_intro|].
    eapply pass_rel_intro; [eapply bookkept_update, Hb|]. split_and!; cbn; [done|done|done|].
    right. exists newest. split_and!; [done|done|right]. apply Hclean. unfold clean. by rewrite Ef.
Qed.

Lemma admissible_idle svc id r s : admissible_end svc id r s (ext r) [].
Proof. split_and!; [apply sublist_nil_l|done|done|by left]. Qed.

Lemma extract_rel env svc dl id d r :
  sessions (mem (tables d)) !! id = Some r →
  pass_rel svc id r (mem (tables d)) (mem (tables (snd (Extract env svc dl id d)))).
Proof.
  intros Hr. set (s := mem (tables d)) in *.
  assert (Hidle : pass_rel svc id r s s) by (eapply pass_rel_intro; [by apply bookkept_refl|apply admissible_idle]).
  unfold Extract. destruct (id =?s ""); [done|].
  unfold db_bind at 1, Get. edestruct (on_mem_read (λ s, match sessions s !! id with Some r => Ok (sess r, s) | None => Err no_rows end)
    (sess r) d) as [(e & fs & ->)|(fs & ->)]; [fold s; by rewrite Hr|done|].
  unfold db_bind at 1, GetExtractionState. edestruct (on_mem_read (λ s, match sessions s !! id with Some r => Ok (r, s) | None => Err no_rows end)
    r (mkDb (tables d) fs)) as [(e & fs1 & ->)|(fs1 & ->)]; [cbn; fold s; by rewrite Hr|done|]. cbn [tables].
  unfold db_bind at 1, GetSessionRange.
  destruct (on_mem_query (session_range id (watermark (ext r)) (passLimit svc)) (mkDb (tables d) fs1)) as [(e & fs2 & ->)|(fs2 & ->)]; [done|].
  cbn [tables]. fold s (window svc id r s). destruct (last (window svc id r s)) as [newest|] eqn:El; [|done].
  pose proof (Filter_kept (window svc id r s)) as Hk. destruct (Filter (window svc id r s)) as [kept fst0]. cbn in Hk. subst kept.
  unfold db_bind at 1, CoveredUUIDs. destruct (on_mem_query (covered_uuids id) (mkDb (tables d) fs2)) as [(e & fs3 & ->)|(fs3 & ->)]; [done|].
  cbn [tables]. fold s (to_send svc id r s). unfold db_bind at 1, read, step at 1. cbn [tables faults].
  destruct (to_send svc id r s) as [|m0 fresh] eqn:Ets.
  - unfold db_bind, CompleteExtractPass.
    destruct (on_mem_update (on_row id (with_ext (complete_ext (msgID newest) (clock (tables d))))) (mkDb (tables d) fs3)) as [(e & fs4 & ->)|(fs4 & ->)]; [done|].
    cbn. eapply pass_rel_intro; [by eapply bookkept_update, bookkept_refl|]. split_and!; cbn; [apply sublist_nil_l|done|done|].
    right. exists newest. split_and!; [done|done|right]. by rewrite Ets.
  - rewrite <- Ets. destruct (negb (registered env)); [done|]. unfold db_bind at 1, BeginExtractAttempt.
    match goal with |- context [update (on_row id (with_ext ?f))] => set (begin_ext := f) end.
    destruct (on_mem_update (on_row id (with_ext begin_ext)) (mkDb (tables d) fs3)) as [(e & fs4 & ->)|(fs4 & ->)]; [done|].
    cbn [tables]. set (d4 := mkDb _ fs4).
    assert (Hb : bookkept id r (begin_ext (ext r)) [] s (mem (tables d4))) by (by apply bookkept_update, bookkept_refl).
    match goal with |- context [run_chunks env dl ?n ?a ?m id 0 ?c ?p] =>
      destruct (run_chunks_spec env dl n a m id c 0 p d4) as (p' & d5 & rows & E & Hl & Hs & Hc) end.
    unfold db_bind at 1. rewrite E. rewrite ChunkMessages_uuids, truncate_uuids in Hs, Hc.
    pose proof (bookkept_logged _ _ _ _ _ _ _ _ Hb Hl) as Hb5.
    assert (Hend : admissible_end svc id r s (begin_ext (ext r)) rows) by (split_and!; [exact Hs|done|done|by left]).
    pose proof (settle_rel svc id (msgID newest) (clock (tables d)) p' d5 r _ _ s Hb5 Hend) as Hset.
    unfold db_bind. destruct (settle _ _ _ _ _ d5) as [[out|e] d6]; cbn in *; apply Hset; try (by eexists);
      intros Hp; apply (Hc Hp).
Qed.

Lemma extract_no_session env svc dl id d :
  sessions (mem (tables d)) !! id = None → mem (tables (snd (Extract env svc dl id d))) = mem (tables d).
Proof.
  intros Hn. unfold Extract. destruct (id =?s ""); [done|]. unfold db_bind at 1, Get.
  destruct (on_mem_cases (λ s, match sessions s !! id with Some r => Ok (sess r, s) | None => Err no_rows end) d)
    as [(e & fs & ->)|(a & s' & fs & E & _)]; [done|]. by rewrite Hn in E.
Qed.

(** ** The window *)

Lemma elem_of_lfilter {A} (f : A → bool) x l : x ∈ List.filter f l ↔ x ∈ l ∧ f x = true.
Proof. rewrite !list_elem_of_In. apply filter_In. Qed.

Lemma above_spec id after m : above id after m = true ↔ msgSession m = id ∧ (after < msgID m)%Z.
Proof. unfold above, in_session. by rewrite andb_true_iff, String.eqb_eq, Z.ltb_lt. Qed.

Lemma window_elem svc id r s m :
  m ∈ window svc id r s → m ∈ messages s ∧ msgSession m = id ∧ (watermark (ext r) < msgID m)%Z.
Proof. intros Hm%subseteq_take. apply elem_of_lfilter in Hm as [? ?%above_spec]. naive_solver. Qed.

Lemma sorted_filter (f : Message → bool) l :
  StronglySorted Z.lt (map msgID l) → StronglySorted Z.lt (map msgID (List.filter f l)).
Proof.
  induction l as [|x l IH]; [done|]. cbn. intros [Hs Hf]%StronglySorted_inv. destruct (f x); [|by apply IH].
  cbn. constructor; [by apply IH|]. rewrite Forall_map in Hf |- *. rewrite Forall_forall in Hf |- *.
  intros y [Hy _]%elem_of_lfilter. by apply Hf.
Qed.

(** The window holds every message of the session up to its newest one. *)
Lemma window_complete svc id r s newest m :
  wf s → last (window svc id r s) = Some newest → m ∈ messages s → msgSession m = id →
  (watermark (ext r) < msgID m <= msgID newest)%Z → m ∈ window svc id r s.
Proof.
  intros Hwf Hl Hm Hs Hid. unfold window, session_range in *. set (n := Z.to_nat _) in *.
  set (L := List.filter _ _) in *. assert (HL : m ∈ L) by (apply elem_of_lfilter; split; [done|]; apply above_spec; split; [done|lia]).
  rewrite <- (take_drop n L), elem_of_app in HL. destruct HL as [?|Hd]; [done|]. exfalso.
  assert (Hso : StronglySorted Z.lt (map msgID (take n L) ++ map msgID (drop n L))).
  { rewrite <- map_app, take_drop. apply sorted_filter, Hwf. }
  assert (Hn : newest ∈ take n L) by (rewrite last_lookup in Hl; by eapply list_elem_of_lookup_2).
  assert (Hlt : (msgID newest < msgID m)%Z).
  { eapply (StronglySorted_app_1_elem_of Z.lt); [exact Hso|by apply list_elem_of_fmap_2|by apply list_elem_of_fmap_2]. }
  lia.
Qed.

Lemma to_send_elem svc id r s m :
  m ∈ to_send svc id r s ↔ m ∈ window svc id r s ∧ KeepMessage m = true ∧ (msgUUID m = "" ∨ msgUUID m ∉ covered_uuids id s).
Proof.
  unfold to_send, fresh_messages. rewrite !elem_of_lfilter, orb_true_iff, String.eqb_eq, negb_true_iff, bool_decide_eq_false.
  naive_solver.
Qed.

(** ** The accounting invariant *)

(** Below the watermark of a session that was never poisoned, every message that passes the filter
    and has a uuid is recorded as sent. *)
Definition accounted (s : State) : Prop := ∀ id r m,
  sessions s !! id = Some r → ExtractPoisonedAt (ext r) = None → m ∈ messages s → msgSession m = id →
  (msgID m <= watermark (ext r))%Z → KeepMessage m = true → msgUUID m ≠ "" → msgUUID m ∈ covered_uuids id s.

(** No uuid is recorded as sent twice. *)
Definition once (s : State) : Prop := ∀ id, NoDup (non_empty (covered_uuids id s)).

Lemma last_elem {A} (l : list A) x : last l = Some x → x ∈ l.
Proof. rewrite last_lookup. apply list_elem_of_lookup_2. Qed.

Lemma pass_watermark svc id r s s' r' :
  pass_rel svc id r s s' → sessions s' !! id = Some r' → (watermark (ext r) <= watermark (ext r'))%Z.
Proof.
  intros [_ _ (e' & rows & Es & _ & _ & _ & _ & _ & Hm)]. rewrite Es, lookup_insert_eq. intros [= <-]. cbn.
  destruct Hm as [E|(newest & Hl & E & _)]; unfold watermark; rewrite E; [done|].
  apply last_elem, window_elem in Hl as (_ & _ & Hlt). unfold watermark in Hlt. cbn. lia.
Qed.

Lemma pass_wf svc id r s s' : sessions s !! id = Some r → pass_rel svc id r s s' → wf s → wf s'.
Proof.
  intros Hr [Em Eq (e' & rows & Es & _ & _ & _ & _ & Ha & Hm)] Hwf. destruct Hwf as [K Q S I F U M]. split.
  - intros k x. rewrite Es, lookup_insert. case_decide; [subst; intros [= <-]; cbn; eauto|eauto].
  - lia.
  - by rewrite Em.
  - by rewrite Em, Eq.
  - rewrite Em, Es. eapply Forall_impl; [exact F|]. intros m Hm'. rewrite lookup_insert. case_decide; [by eexists|done].
  - by rewrite Em.
  - intros k x. rewrite Es, Eq, lookup_insert. case_decide; [|eauto]. subst k. intros [= <-]. cbn.
    destruct (M _ _ Hr) as [M1 M2]. split; [|by apply Ha].
    destruct Hm as [E|(newest & Hl & E & _)]; unfold watermark; rewrite E; [done|].
    apply last_elem, window_elem in Hl as (Hin & _). rewrite Forall_forall in I. specialize (I _ Hin). cbn. lia.
Qed.

Lemma pass_accounted svc id r s s' :
  sessions s !! id = Some r → pass_rel svc id r s s' → wf s → accounted s → accounted s'.
Proof.
  intros Hr [Em Eq (e' & rows & Es & Ex & Hown & Hsub & Hp & _ & Hm)] Hwf Hacc k x m. rewrite Es, Em, lookup_insert.
  case_decide as Hk.
  - subst k. intros [= <-]. cbn. intros Hnp Hin Hs Hle Hkeep Hu. rewrite (covered_app_same id s rows s' Ex Hown).
    apply elem_of_app. assert (Hnp' : ExtractPoisonedAt (ext r) = None).
    { destruct (ExtractPoisonedAt (ext r)); [|done]. destruct Hp as [? E]; [by eexists|congruence]. }
    destruct (decide (msgID m <= watermark (ext r))%Z) as [Hold|Hnew]; [left; by eapply Hacc|].
    destruct Hm as [E|(newest & Hl & E & Hrec)]; [unfold watermark in *; rewrite E in Hle; lia|].
    destruct Hrec as [[? ?]|Hrec]; [congruence|]. unfold watermark in Hle. rewrite E in Hle. cbn in Hle.
    destruct (decide (msgUUID m ∈ covered_uuids id s)) as [?|Hnc]; [by left|right]. rewrite Hrec.
    apply list_elem_of_fmap_2, to_send_elem. split_and!; [|done|by right].
    eapply window_complete; [done..|lia].
  - intros. rewrite (covered_app_other id k s rows s' Ex Hown) by done. eauto.
Qed.

Lemma non_empty_app a b : non_empty (a ++ b) = non_empty a ++ non_empty b.
Proof. apply List.filter_app. Qed.

Lemma non_empty_elem u l : u ∈ non_empty l ↔ u ∈ l ∧ u ≠ "".
Proof. unfold non_empty. by rewrite elem_of_lfilter, negb_true_iff, String.eqb_neq. Qed.

(** The non-empty uuids of some messages of one session are distinct. *)
Lemma uuids_nodup s id l :
  wf s → StronglySorted Z.lt (map msgID l) → Forall (λ m, m ∈ messages s ∧ msgSession m = id) l →
  NoDup (non_empty (map msgUUID l)).
Proof.
  intros Hwf. induction l as [|m l IH]; [constructor|]. cbn [map]. intros [Hs Hlt]%StronglySorted_inv [[Hm Hse] Hf]%Forall_cons.
  change (msgUUID m :: map msgUUID l) with ([msgUUID m] ++ map msgUUID l). rewrite non_empty_app. cbn.
  destruct (msgUUID m =?s "") eqn:E; [by apply IH|]. bool_prop. cbn. apply NoDup_cons. split; [|by apply IH].
  intros [Hin _]%non_empty_elem. apply list_elem_of_fmap in Hin as (y & Hy & Hyl). rewrite Forall_forall in Hf.
  destruct (Hf _ Hyl) as [Hy1 Hy2]. assert (m = y) as -> by (eapply (wf_unique _ Hwf); congruence).
  rewrite Forall_map, Forall_forall in Hlt. specialize (Hlt y Hyl). cbn in Hlt. lia.
Qed.

Lemma sorted_take n l : StronglySorted Z.lt (map msgID l) → StronglySorted Z.lt (map msgID (take n l)).
Proof.
  intros Hs. rewrite <- (take_drop n l), map_app in Hs. by apply StronglySorted_app_1_l in Hs.
Qed.

Lemma to_send_nodup svc id r s : wf s → NoDup (non_empty (map msgUUID (to_send svc id r s))).
Proof.
  intros Hwf. apply (uuids_nodup s id); [done| |].
  - apply sorted_filter, sorted_filter, sorted_take, sorted_filter, Hwf.
  - apply Forall_forall. intros m (Hw & _)%to_send_elem. by apply window_elem in Hw as (? & ? & _).
Qed.

Lemma sublist_non_empty a b : a `sublist_of` b → non_empty a `sublist_of` non_empty b.
Proof.
  induction 1 as [|x a b _ IH|x a b _ IH]; [constructor| |]; cbn; destruct (x !=? ""); try done; by constructor.
Qed.

Lemma pass_once svc id r s s' : pass_rel svc id r s s' → wf s → once s → once s'.
Proof.
  intros [_ _ (e' & rows & _ & Ex & Hown & Hsub & _)] Hwf Hon k. destruct (decide (k = id)) as [->|Hne].
  - rewrite (covered_app_same id s rows s' Ex Hown), non_empty_app. apply NoDup_app. split_and!; [apply Hon| |].
    + intros u [Hc Hu]%non_empty_elem [Hrec _]%non_empty_elem.
      assert (Hin : u ∈ map msgUUID (to_send svc id r s)) by (by eapply elem_of_sublist).
      apply list_elem_of_fmap in Hin as (m & -> & (_ & _ & [?|?])%to_send_elem); done.
    + eapply sublist_NoDup; [by apply (to_send_nodup svc)|by apply sublist_non_empty].
  - rewrite (covered_app_other id k s rows s' Ex Hown) by done. apply Hon.
Qed.

Lemma grows_accounted s s' : grows s s' → wf s → wf s' → accounted s → accounted s'.
Proof.
  intros [(new & Em & Hnew) Hq Ex Hk Hn] Hwf Hwf' Hacc id r' m Hr' Hp Hm Hs Hle Hkeep Hu.
  assert (Hid : (0 < msgID m)%Z) by (pose proof (wf_ids _ Hwf') as F; rewrite Forall_forall in F; specialize (F _ Hm); lia).
  destruct (sessions s !! id) as [r|] eqn:Hr.
  - destruct (Hk _ _ Hr) as (r2 & Hr2 & _ & E1 & _ & _ & E2). simplify_eq. unfold covered_uuids. rewrite Ex.
    assert (Hw : watermark (ext r') = watermark (ext r)) by (unfold watermark; by rewrite E1). rewrite Hw in Hle.
    rewrite Em in Hm. apply elem_of_app in Hm as [Hm|Hm]; [eapply Hacc; eauto; congruence|].
    rewrite Forall_forall in Hnew. specialize (Hnew _ Hm). destruct (wf_mark _ Hwf _ _ Hr). lia.
  - destruct (Hn _ _ Hr' Hr) as (E1 & _). unfold watermark in Hle. rewrite E1 in Hle. cbn in Hle. lia.
Qed.

Lemma grows_once s s' : grows s s' → once s → once s'.
Proof. intros [_ _ Ex _ _] Ho id. unfold covered_uuids. rewrite Ex. apply Ho. Qed.

Lemma filter_filter_sub {A} (f g : A → bool) l :
  (∀ x, f x = true → g x = true) → List.filter f (List.filter g l) = List.filter f l.
Proof.
  intros Hfg. induction l as [|x l IH]; [done|]. cbn. destruct (f x) eqn:Ef; [rewrite (Hfg _ Ef)|destruct (g x)]; cbn; rewrite ?Ef, IH; done.
Qed.

(** Pruning removes failures only. *)
Lemma prune_covered before d id : covered_uuids id (tables (snd (PruneErrors before d))) = covered_uuids id (tables d).
Proof.
  unfold PruneErrors. match goal with |- context [exec ?f d] => destruct (exec_cases f d) as [(e & _ & ->)|(n & s' & E & _ & ->)] end; [done|].
  injection E as _ <-. unfold covered_uuids. cbn. f_equal. apply filter_filter_sub. intros x Hx. unfold succeeded in Hx.
  bool_prop. by rewrite H0.
Qed.

Lemma prune_rest before d :
  sessions (tables (snd (PruneErrors before d))) = sessions (tables d)
  ∧ messages (tables (snd (PruneErrors before d))) = messages (tables d)
  ∧ msg_seq (tables (snd (PruneErrors before d))) = msg_seq (tables d).
Proof.
  unfold PruneErrors. match goal with |- context [exec ?f d] => destruct (exec_cases f d) as [(e & _ & ->)|(n & s' & E & _ & ->)] end; [done|].
  by injection E as _ <-.
Qed.

(** What happens to the memory database: ingests, passes, pruning, each with statements that may fail. *)
Inductive memory_step `{TimeParser} (reg : Registry) : State → State → Prop :=
| step_ingest now userID req d :
    memory_step reg (tables d) (tables (snd (Ingest reg now userID req d)))
| step_pass env svc deadline id d :
    memory_step reg (mem (tables d)) (mem (tables (snd (Extract env svc deadline id d))))
| step_prune before d : memory_step reg (tables d) (tables (snd (PruneErrors before d))).

Definition memory_inv (s : State) : Prop := wf s ∧ accounted s ∧ once s.

Lemma memory_step_inv `{TimeParser} reg s s' : memory_step reg s s' → memory_inv s → memory_inv s'.
Proof.
  intros [now u req d|env svc dl id d|before d] (Hwf & Hacc & Hon).
  - assert (Hwf' : wf (tables (snd (Ingest reg now u req d)))) by by apply ingest_wf.
    assert (Hg : grows (tables d) (tables (snd (Ingest reg now u req d)))) by (apply ingest_grows, grows_refl).
    split_and!; [done|by eapply grows_accounted|by eapply grows_once].
  - destruct (sessions (mem (tables d)) !! id) as [r|] eqn:Hr.
    + pose proof (extract_rel env svc dl id d r Hr) as Hp.
      split_and!; [by eapply pass_wf|by eapply pass_accounted|by eapply pass_once].
    + by rewrite (extract_no_session env svc dl id d Hr).
  - destruct (prune_rest before d) as (E1 & E2 & E3). split_and!.
    + destruct Hwf. split; rewrite ?E1, ?E2, ?E3; done.
    + intros id r m. rewrite E1, E2, prune_covered. apply Hacc.
    + intros id. rewrite prune_covered. apply Hon.
Qed.

(** C15: from an empty database, through any sequence of ingests, extraction passes and
    prunings with any statements failing and any answers of the backend: a message below the
    watermark of a session that was never poisoned, that passes the filter and has a uuid, is
    recorded as sent, and no uuid of a session is recorded twice. *)
Theorem extraction_accounts_once : ∀ `{TimeParser} reg s,
  rtc (memory_step reg) empty s →
  (∀ id r m, sessions s !! id = Some r → ExtractPoisonedAt (ext r) = None → m ∈ messages s → msgSession m = id →
     (msgID m <= watermark (ext r))%Z → KeepMessage m = true → msgUUID m ≠ "" → msgUUID m ∈ covered_uuids id s)
  ∧ (∀ id, NoDup (non_empty (covered_uuids id s))).
Proof.
  intros H reg s. assert (H0 : memory_inv empty).
  { split_and!; [apply wf_empty| |].
    - intros id r m Hr. change ((∅ : gmap string Row) !! id = Some r) in Hr. by rewrite lookup_empty in Hr.
    - intros id. constructor. }
  intros Hst. cut (memory_inv s); [by intros (_ & ? & ?)|]. revert H0.
  induction Hst as [|s0 s1 s2 Hs _ IH]; [done|]. intros H0. by apply IH, (memory_step_inv reg s0).
Qed.

(** ** Repeated passes come to an end *)

(** A program that leaves a healthy database healthy. *)
Definition calm {A} (m : DBM World A) : Prop := ∀ w, ∃ r w', m (healthy w) = (r, healthy w').

Lemma calm_ret {A} (a : A) : calm (db_ret a).
Proof. intros w. by eexists _, _. Qed.

Lemma calm_fail {A} e : calm (@db_fail World A e).
Proof. intros w. by eexists _, _. Qed.

Lemma calm_step {A} (f : World → result A * World) : calm (step f).
Proof. intros w. unfold step. cbn. destruct (f w) as [r w']. by eexists _, _. Qed.

Lemma calm_attempt {A} (m : DBM World A) : calm m → calm (attempt m).
Proof. intros Hm w. destruct (Hm w) as (r & w' & E). unfold attempt. rewrite E. by eexists _, _. Qed.

Lemma calm_bind {A B} (m : DBM World A) (k : A → DBM World B) : calm m → (∀ a, calm (k a)) → calm (db_bind m k).
Proof.
  intros Hm Hk w. destruct (Hm w) as ([a|e] & w' & E); unfold db_bind; rewrite E; [apply Hk|by eexists _, _].
Qed.

Lemma on_mem_healthy {A} (f : State → result (A * State)) w :
  on_mem (exec f) (healthy w) =
  match f (mem w) with Ok (a, s') => (Ok a, healthy (with_mem w s')) | Err e => (Err e, healthy w) end.
Proof.
  destruct w as [s c l t]. unfold on_mem, lift_db. cbn [tables faults healthy mem]. fold (healthy s). rewrite exec_healthy.
  by destruct (f s) as [[? ?]|?].
Qed.

Lemma calm_on_mem {A} (f : State → result (A * State)) : calm (on_mem (exec f)).
Proof. intros w. rewrite on_mem_healthy. destruct (f (mem w)) as [[? ?]|?]; by eexists _, _. Qed.

Lemma calm_retry env dl c a m : ∀ n e, calm (retry_loop env n dl c a m e).
Proof.
  induction n as [|n IH]; intros e; cbn [retry_loop]; [apply calm_fail|]. apply calm_bind; [apply calm_step|]. intros now.
  case_if; [apply calm_fail|]. apply calm_bind; [apply calm_step|]. intros _.
  apply calm_bind; [apply calm_attempt, calm_step|]. intros [ids|e']; [apply calm_ret|].
  case_if; [apply calm_fail|]. case_if; [|apply IH]. apply calm_bind; [apply calm_step|]. intros _. apply IH.
Qed.

Lemma calm_chunks env dl now a m id chunks : ∀ i p, calm (run_chunks env dl now a m id i chunks p).
Proof.
  induction chunks as [|c chunks IH]; intros i p; cbn [run_chunks]; [apply calm_ret|]. apply calm_bind; [apply calm_step|]. intros t.
  case_if; [apply calm_ret|]. apply calm_bind; [apply calm_attempt, calm_retry|]. intros res.
  apply calm_bind; [apply calm_step|]. intros t'. case_if; [apply calm_ret|].
  apply calm_bind; [apply calm_attempt, calm_on_mem|]. intros ins. apply IH.
Qed.

(** One pass on a healthy database with the backend registered. *)
Inductive pass_end (svc : Service) (id : string) (r : Row) (s : State) (out : Outcome) (r' : Row) : Prop :=
| end_nothing : window svc id r s = [] → out = NothingNew → r' = r → pass_end svc id r s out r'
| end_advanced newest : last (window svc id r s) = Some newest → out ≠ NothingNew → out ≠ Failed →
    ExtractedThroughMsgID (ext r') = Some (msgID newest) → ExtractAttempts (ext r') = 0%Z → pass_end svc id r s out r'
| end_failed newest : last (window svc id r s) = Some newest → out = Failed →
    ExtractedThroughMsgID (ext r') = ExtractedThroughMsgID (ext r) →
    ExtractAttempts (ext r') = (ExtractAttempts (ext r) + 1)%Z → (ExtractAttempts (ext r) + 1 < poisonAfter svc)%Z →
    pass_end svc id r s out r'.

Lemma on_row_known id f s r : sessions s !! id = Some r → sessions (on_row id f s) !! id = Some (f r).
Proof. intros E. unfold on_row. cbn. by rewrite lookup_alter_eq, E. Qed.

Lemma settle_healthy svc id newest now p w r0 r s :
  sessions (mem w) !! id = Some r → ExtractedThroughMsgID (ext r) = ExtractedThroughMsgID (ext r0) →
  ExtractAttempts (ext r) = ExtractAttempts (ext r0) → last (window svc id r0 s) = Some newest →
  ∃ out w' r', settle svc id (msgID newest) now p (healthy w) = (Ok out, healthy w')
  ∧ sessions (mem w') !! id = Some r' ∧ messages (mem w') = messages (mem w) ∧ pass_end svc id r0 s out r'.
Proof.
  intros Hr Ht Ha Hl. unfold settle. destruct (failed p || aborted p).
  - unfold db_bind at 1, FailExtractPass. rewrite on_mem_healthy, Hr. rewrite Ha.
    pose proof (on_row_known id (with_ext fail_ext) _ _ Hr) as Hr1. destruct (poisonAfter svc <=? _)%Z eqn:E; bool_prop.
    + unfold db_bind, PoisonExtractRange, update. rewrite on_mem_healthy. eexists _, _, _. split; [done|]. cbn [mem with_mem].
      split; [by apply on_row_known|]. split; [done|]. by eapply end_advanced.
    + eexists _, _, _. split; [done|]. split; [exact Hr1|]. split; [done|]. eapply end_failed; cbn; [done|done|done|by rewrite Ha|lia].
  - unfold db_bind, CompleteExtractPass, update. rewrite on_mem_healthy. eexists _, _, _. split; [done|]. cbn [mem with_mem].
    split; [by apply on_row_known|]. split; [done|]. by eapply end_advanced.
Qed.

Lemma extract_healthy env svc dl id w r :
  registered env = true → id ≠ "" → sessions (mem w) !! id = Some r →
  ∃ res w' r', Extract env svc dl id (healthy w) = (Ok res, healthy w')
  ∧ sessions (mem w') !! id = Some r' ∧ messages (mem w') = messages (mem w) ∧ pass_end svc id r (mem w) (rsOutcome res) r'.
Proof.
  intros Hreg Hid Hr. unfold Extract. rewrite (proj2 (String.eqb_neq _ _) Hid).
  unfold db_bind at 1, Get. rewrite on_mem_healthy, Hr, with_mem_same.
  unfold db_bind at 1, GetExtractionState. rewrite on_mem_healthy, Hr, with_mem_same.
  unfold db_bind at 1, GetSessionRange, query. rewrite on_mem_healthy, with_mem_same. fold (window svc id r (mem w)).
  destruct (last (window svc id r (mem w))) as [newest|] eqn:El.
  2: { eexists _, _, _. split; [done|]. split; [done|]. split; [done|]. apply end_nothing; [by apply last_None|done..]. }
  destruct (Filter (window svc id r (mem w))) as [kept fstats].
  unfold db_bind at 1, CoveredUUIDs, query. rewrite on_mem_healthy, with_mem_same.
  unfold db_bind at 1, read, step at 1. cbn [tables faults healthy]. fold (healthy w).
  destruct (fresh_messages _ kept) as [|m0 fresh] eqn:Ef.
  - unfold db_bind, CompleteExtractPass, update. rewrite on_mem_healthy. eexists _, _, _. split; [done|]. cbn [mem with_mem].
    split; [by apply on_row_known|]. split; [done|]. by eapply end_advanced.
  - rewrite <- Ef, Hreg. cbn [negb]. unfold db_bind at 1, BeginExtractAttempt, update. rewrite on_mem_healthy.
    match goal with |- context [on_row id (with_ext ?f) (mem w)] => set (begin_ext := f) end.
    set (w1 := with_mem w _). assert (Hr1 : sessions (mem w1) !! id = Some (with_ext begin_ext r)) by by apply on_row_known.
    match goal with |- context [run_chunks env dl ?n ?a ?m id 0 ?c ?p] =>
      destruct (run_chunks_spec env dl n a m id c 0 p (healthy w1)) as (p' & d5 & rows & E & Hl & _);
      destruct (calm_chunks env dl n a m id c 0 p w1) as (x & w5 & E5)
    end.
    rewrite E5 in E. simplify_eq. unfold db_bind at 1. rewrite E5. destruct Hl as [Hs Hm _ _ _]. cbn [tables healthy] in Hs, Hm.
    destruct (settle_healthy svc id newest (clock w) p' w5 r (with_ext begin_ext r) (mem w)) as (out & w6 & r6 & E6 & Hr6 & Hm6 & Hend);
      [by rewrite Hs|done..|].
    unfold db_bind. rewrite E6. eexists _, _, _. split; [done|]. split; [done|]. split; [by rewrite Hm6, Hm|done].
Qed.

(** The messages of the session above its watermark. *)
Definition unprocessed (id : string) (r : Row) (s : State) : list Message :=
  List.filter (above id (watermark (ext r))) (messages s).

(** [n] passes one after another, the k-th with its own deadline. *)
Fixpoint passes (env : Env) (svc : Service) (deadline : nat → option Z) (id : string) (k n : nat) (w : World) : World :=
  match n with
  | O => w
  | S n => passes env svc deadline id (S k) n (tables (snd (Extract env svc (deadline k) id (healthy w))))
  end.

Lemma window_nil svc id r s : window svc id r s = [] ↔ unprocessed id r s = [].
Proof.
  unfold window, session_range, unprocessed. set (n := Z.to_nat _). assert (Hn : 0 < n) by (subst n; case_if; bool_prop; lia).
  destruct n as [|n]; [lia|]. by destruct (List.filter _ _).
Qed.

Lemma filter_shrinks {A} (f g : A → bool) l x :
  (∀ y, g y = true → f y = true) → x ∈ l → f x = true → g x = false → length (List.filter g l) < length (List.filter f l).
Proof.
  intros Hgf Hx Hf Hg. assert (Hle : ∀ l, length (List.filter g l) ≤ length (List.filter f l)).
  { clear -Hgf. induction l as [|y l IH]; cbn; [lia|]. destruct (g y) eqn:E; [rewrite (Hgf _ E); cbn; lia|].
    destruct (f y); cbn; lia. }
  induction l as [|y l IH]; [by apply elem_of_nil in Hx|]. cbn. apply elem_of_cons in Hx as [<-|Hx].
  - rewrite Hf, Hg. cbn. specialize (Hle l). lia.
  - specialize (IH Hx). destruct (g y) eqn:E; [rewrite (Hgf _ E); cbn; lia|]. destruct (f y); cbn; lia.
Qed.

Lemma unprocessed_shrinks svc id r r' s s' newest :
  messages s' = messages s → last (window svc id r s) = Some newest → ExtractedThroughMsgID (ext r') = Some (msgID newest) →
  length (unprocessed id r' s') < length (unprocessed id r s).
Proof.
  intros Em Hl Ht. apply last_elem in Hl. destruct (window_elem _ _ _ _ _ Hl) as (Hin & Hs & Hlt).
  unfold unprocessed. rewrite Em. assert (Hw : watermark (ext r') = msgID newest) by (unfold watermark; by rewrite Ht).
  apply (filter_shrinks _ _ _ newest); [|done|by apply above_spec|].
  - intros y. rewrite !above_spec. intros [? ?]. split; [done|lia].
  - apply not_true_iff_false. rewrite above_spec. lia.
Qed.

(** The passes that may still be needed: every message can fail the whole quota of attempts. *)
Definition pass_budget (svc : Service) (id : string) (r : Row) (s : State) : nat :=
  Z.to_nat (poisonAfter svc) * length (unprocessed id r s)
  - Nat.min (Z.to_nat (ExtractAttempts (ext r))) (Z.to_nat (poisonAfter svc) - 1).

Lemma pass_end_decreases svc id r s s' out r' :
  (0 < poisonAfter svc)%Z → (0 <= ExtractAttempts (ext r))%Z → messages s' = messages s → unprocessed id r s ≠ [] →
  pass_end svc id r s out r' →
  pass_budget svc id r' s' < pass_budget svc id r s ∧ (0 <= ExtractAttempts (ext r'))%Z.
Proof.
  intros HK HA Em Hne [Hw _ _|newest Hl _ _ Ht Ha|newest Hl _ Ht Ha Hlt].
  - by apply window_nil in Hw.
  - pose proof (unprocessed_shrinks svc id r r' s s' newest Em Hl Ht). unfold pass_budget. rewrite Ha. split; [|lia].
    set (K := Z.to_nat (poisonAfter svc)). assert (0 < K) by lia. nia.
  - assert (Hu : unprocessed id r' s' = unprocessed id r s) by (unfold unprocessed, watermark; by rewrite Ht, Em).
    unfold pass_budget. rewrite Hu, Ha. split; [|lia]. destruct (unprocessed id r s) as [|x l]; [done|]. cbn [length].
    set (K := Z.to_nat (poisonAfter svc)). assert (Z.to_nat (ExtractAttempts (ext r) + 1) < K) by lia. nia.
Qed.

(** C16: with the backend registered and the database answering, passes over a session come to an
    end whatever the backend answers and whatever the deadlines are: after at most the poison
    limit times the number of unprocessed messages no message is left above the watermark, and
    every further pass reports that there is nothing new. *)
Theorem passes_drain : ∀ env svc deadline id w r,
  registered env = true → id ≠ "" → sessions (mem w) !! id = Some r →
  (0 < poisonAfter svc)%Z → (0 <= ExtractAttempts (ext r))%Z →
  ∃ n r', n ≤ Z.to_nat (poisonAfter svc) * length (unprocessed id r (mem w))
  ∧ sessions (mem (passes env svc deadline id 0 n w)) !! id = Some r'
  ∧ unprocessed id r' (mem (passes env svc deadline id 0 n w)) = []
  ∧ ∀ dl, ∃ res w', Extract env svc dl id (healthy (passes env svc deadline id 0 n w)) = (Ok res, w') ∧ rsOutcome res = NothingNew.
Proof.
  intros env svc dl id w r Hreg Hid Hr HK HA.
  assert (Hmain : ∀ b k w r, sessions (mem w) !! id = Some r → (0 <= ExtractAttempts (ext r))%Z →
    pass_budget svc id r (mem w) ≤ b →
    ∃ n r', n ≤ b ∧ sessions (mem (passes env svc dl id k n w)) !! id = Some r'
    ∧ unprocessed id r' (mem (passes env svc dl id k n w)) = []).
  { clear w r Hr HA. induction b as [|b IH]; intros k w r Hr HA Hb;
      (destruct (unprocessed id r (mem w)) as [|x l] eqn:Eu; [by exists 0, r; split; [lia|]|]).
    - exfalso. unfold pass_budget in Hb. rewrite Eu in Hb. cbn [length] in Hb. nia.
    - destruct (extract_healthy env svc (dl k) id w r Hreg Hid Hr) as (res & w' & r1 & E & Hr1 & Hm & Hend).
      destruct (pass_end_decreases svc id r (mem w) (mem w') (rsOutcome res) r1) as [Hlt HA1]; [done|done|done|by rewrite Eu|done|].
      destruct (IH (S k) w' r1 Hr1 HA1 ltac:(lia)) as (n & r' & Hn & Hr' & Hu).
      exists (S n), r'. split; [lia|]. cbn [passes]. by rewrite E. }
  destruct (Hmain _ 0 w r Hr HA (le_n _)) as (n & r' & Hn & Hr' & Hu). exists n, r'. split; [unfold pass_budget in Hn; lia|].
  split; [done|]. split; [done|]. intros dl'.
  destruct (extract_healthy env svc dl' id _ r' Hreg Hid Hr') as (res & w' & r1 & E & _ & _ & Hend).
  exists res, (healthy w'). split; [done|]. apply (window_nil svc) in Hu.
  destruct Hend as [? ?|? Hl|? Hl]; [done|by rewrite Hu in Hl..].
Qed.

(** ** Witnesses *)

Definition demo_time : TimeParser := {| parse_layouts := λ _, None |}.
Definition demo_parser : Parser := λ data,
  Ok ([mkMsg 0 data "" "" 0 "" "user" "please remember the port is 8080" ""; mkMsg 0 "u2" "" "" 0 "" "tool" "output" ""], []).
Definition demo_registry : Registry := Register "toy" demo_parser ∅.
Definition demo_ingested : State :=
  tables (snd (Ingest (H := demo_time) demo_registry 5 "bob" (toy_request "s1") (healthy empty))).
Definition demo_world : World := mkWorld demo_ingested 10 None [].

(** A backend that accepts every call, and one that answers none. *)
Definition good_env : Env :=
  mkEnv true (λ _, None) None (λ _, SendReply (mkResponse "2.0" None (Some "") None)) (λ _, 0%Z).
Definition bad_env : Env := mkEnv true (λ _, None) None (λ _, SendFailed "EOF") (λ _, second).

Definition demo_final : State := mem (tables (snd (Extract good_env NewService None "s1" (healthy demo_world)))).

Lemma extraction_accounts_once_witness :
  rtc (memory_step (H := demo_time) demo_registry) empty demo_final
  ∧ covered_uuids "s1" demo_final = ["u1"] ∧ (∀ id, NoDup (non_empty (covered_uuids id demo_final))).
Proof.
  assert (Hrtc : rtc (memory_step (H := demo_time) demo_registry) empty demo_final).
  { eapply rtc_l; [apply (step_ingest (H := demo_time) demo_registry 5 "bob" (toy_request "s1") (healthy empty))|].
    eapply rtc_l; [apply (step_pass (H := demo_time) demo_registry good_env NewService None "s1" (healthy demo_world))|].
    apply rtc_refl. }
  split; [exact Hrtc|]. split; [vm_compute; reflexivity|].
  exact (proj2 (extraction_accounts_once (H := demo_time) demo_registry demo_final Hrtc)).
Defined.

Lemma passes_drain_witness : ∃ n, n ≤ 8 ∧ ∀ dl, ∃ res w',
  Extract bad_env NewService dl "s1" (healthy (passes bad_env NewService (λ _, None) "s1" 0 n demo_world)) = (Ok res, w')
  ∧ rsOutcome res = NothingNew.
Proof.
  destruct (sessions demo_ingested !! "s1") as [r|] eqn:Hr; [|vm_compute in Hr; discriminate].
  assert (Hu : length (unprocessed "s1" r demo_ingested) = 2) by (vm_compute in Hr; injection Hr as <-; vm_compute; reflexivity).
  assert (HA : (0 <= ExtractAttempts (ext r))%Z) by (vm_compute in Hr; injection Hr as <-; vm_compute; discriminate).
  destruct (passes_drain bad_env NewService (λ _, None) "s1" demo_world r eq_refl ltac:(discriminate) Hr eq_refl HA)
    as (n & r' & Hn & _ & _ & Hnext).
  exists n. split; [|exact Hnext]. change (mem demo_world) with demo_ingested in Hn. rewrite Hu in Hn. exact Hn.
Defined.

(** ** Where the code falls short of its comments *)

Definition small_chunks : Service := mkService 10 (180 * second) 400 4 12000.

Definition two_messages (uuid1 : string) : State :=
  mkState {["s1" := toy_session "s1" "bob"]}
    [mkMsg 1 uuid1 "s1" "" 0 "" "user" "the first message of this session" "toy";
     mkMsg 2 "u2" "s1" "" 0 "" "user" "the second message of this session" "toy"] 2 [] 0.

(** A backend that fails the second call and accepts the others. *)
Definition second_fails : Env :=
  mkEnv true (λ _, None) None
    (λ n, if (n =? 1)%nat then SendFailed "refused" else SendReply (mkResponse "2.0" None (Some "") None)) (λ _, 0%Z).

Definition sent_texts (uuid1 : string) : list (list string) :=
  let w := passes second_fails small_chunks (λ _, None) "s1" 0 2 (mkWorld (two_messages uuid1) 10 None []) in
  map (λ c, source_msg_uuids (Meta c)) (sent w).

(** After a partial failure the retry sends a recorded message again when it has no uuid. *)
Lemma uuidless_message_resent :
  sent_texts "u1" = [["u1"]; ["u2"]; ["u2"]] ∧ sent_texts "" = [[""]; ["u2"]; [""]; ["u2"]].
Proof. split; vm_compute; reflexivity. Qed.

(** The backend's tool reports a failure in its result, as MCP tools do. *)
Definition tool_error : string :=
  Marshal (JObj [("content", JArr [JObj [("type", JStr "text"); ("text", JStr "rate limited")]]); ("isError", JBool true)]).

Definition tool_fails : Env :=
  mkEnv true (λ _, None) None (λ _, SendReply (mkResponse "2.0" None (Some tool_error) None)) (λ _, 0%Z).

(** The pass takes it for a chunk without memories: it completes and the messages count as sent. *)
Lemma tool_error_counts_as_sent :
  let '(r, d) := Extract tool_fails NewService None "s1" (healthy (mkWorld (two_messages "u1") 10 None [])) in
  result_map rsOutcome r = Ok Complete ∧ result_map MemoriesCreated r = Ok 0%Z
  ∧ covered_uuids "s1" (mem (tables d)) = ["u1"; "u2"].
Proof. vm_compute. split_and!; reflexivity. Qed.

(** A backend that accepts every call but takes longer than the pass may last. *)
Definition slow_env : Env :=
  mkEnv true (λ _, None) None (λ _, SendReply (mkResponse "2.0" None (Some "") None)) (λ _, 16 * minute)%Z.

(** No call fails, the messages were sent four times, and the range is given up as poisoned. *)
Lemma slow_backend_poisons :
  let w := passes slow_env NewService (λ k, Some (Z.of_nat (S k) * 16 * minute))%Z "s1" 0 4
             (mkWorld (two_messages "u1") 0 None []) in
  length (sent w) = 4 ∧ covered_uuids "s1" (mem w) = []
  ∧ (r ← sessions (mem w) !! "s1"; ExtractedThroughMsgID (ext r)) = Some 2%Z
  ∧ bool_decide (is_Some (r ← sessions (mem w) !! "s1"; ExtractPoisonedAt (ext r))) = true.
Proof. vm_compute. split_and!; reflexivity. Qed.

(** Long messages are one call each: a window of 400 of them is 400 calls. *)
Lemma long_messages_one_chunk_each msgs target :
  Forall (λ m, effective_target target ≤ slen (Render m)) msgs → length (ChunkMessages msgs target) = length msgs.
Proof.
  intros Hf. unfold ChunkMessages. destruct msgs as [|m0 r0]; [done|]. fold (effective_target target).
  assert (H : ∀ l out, Forall (λ m, effective_target target ≤ slen (Render m)) l →
    length (chunk_loop (effective_target target) l out "" []) = length out + length l).
  { induction l as [|m l IH]; intros out Hl; cbn [chunk_loop length]; [cbn; lia|].
    apply Forall_cons in Hl as [Hm Hl]. rewrite (proj2 (Nat.leb_le _ _) Hm), IH by done. cbn [flush]. rewrite length_app. cbn. lia. }
  by apply H.
Qed.
