(* ===== verification/MemoryApi.v ===== *)
(** * The memory API and dashboard

    [src/internal/web/memory_handlers.go] and [src/internal/web/memory_dashboard.go]: the
    [/api/memory] endpoints behind the API-key middleware, which supplies the user id, and the
    read-only pages behind the web session.  The fields of a reply and the values handed to a
    template are kept, their text is not. *)
From stdpp Require Import pretty.
From S2P Require Import Prelude GoStrings GoPath Base64 Json JsonDecode Middleware Mcp MemoryStore MemoryService ExtractText Extractor.

(** ** Requests and replies *)

Record Req := mkReq { rMethod : string; rPath : string; rQuery : gmap string string; rBody : string; rBroken : bool }.

Definition QueryGet (r : Req) (k : string) : string := default "" (rQuery r !! k).

Inductive Read := RBytes (b : string) | RTooLarge | RFailed.

(** [http.MaxBytesReader] and [io.ReadAll]. *)
Definition read_body (limit : Z) (r : Req) : Read :=
  if (limit <? Z.of_nat (String.length (rBody r)))%Z then RTooLarge else if rBroken r then RFailed else RBytes (rBody r).

(** [strconv.Atoi] with its error dropped: zero for what is no number, the nearest value of the
    type for a number out of range. *)
Definition max_int : Z := (2 ^ 63 - 1)%Z.
Definition min_int : Z := (- 2 ^ 63)%Z.

Definition Atoi (s : string) : Z :=
  let body := match s with
              | String c r => if Ascii.eqb c "-"%char || Ascii.eqb c "+"%char then r else s
              | EmptyString => s
              end in
  match body with
  | EmptyString => 0%Z
  | _ => match digits body 0 with
         | None => 0%Z
         | Some z => if HasPrefix s "-" then Z.max min_int (- z) else Z.min max_int z
         end
  end.

(** Arithmetic of a 64-bit [int]. *)
Definition wrap64 (z : Z) : Z := ((z + 2 ^ 63) mod 2 ^ 64 - 2 ^ 63)%Z.

Record searchHit := mkSearchHit { shSession : string; shRole : string; shTimestamp : string; shSnippet : string; shScore : Z }.

Inductive MReply :=
| MError (code : Z) (msg : string)
| MIngested (r : IngestResponse)
| MHits (hits : list searchHit) (memories : list MemoryHit)
| MSessions (l : list MemorySession)
| MMessages (l : list Message)
| MStats (st : Stats)
| MAccepted (session : string) (mode : Mode) (queued : bool) (reason : string)
| MRedirect (url : string)
| MIndex (st : Stats) (projects : list (ProjectGroup * string)) (sessions messages : string)
| MPage (l : list MemorySession) (project : string) (page totalPages total : Z) (filterQS : string) (hasPrev hasNext : bool)
| MDetail (m : MemorySession) (views : list (Message * bool * Z)) (totalChars : Z) (basename : string)
| MSearch (projects : list ProjectGroup) (groups : option (list (string * list SearchHit))) (hitCount : Z).

(** The process: the extractor's world and its queue, when the extractor is configured. *)
Record MWorld := mkMWorld { world : World; queue : Queue }.

Definition on_world {A} (m : DBM World A) : DBM MWorld A := lift_db world (λ w s, mkMWorld w (queue s)) m.

Definition on_db {A} (m : DBM State A) : DBM MWorld A := on_world (on_mem m).

Definition Handler : Type := DBM MWorld MReply.

Definition answer_with (r : MReply) : Handler := db_ret r.
Definition fail (code : Z) (msg : string) : Handler := db_ret (MError code msg).

Definition only (method : string) (r : Req) (k : Handler) : Handler :=
  if rMethod r !=? method then fail 405 "method not allowed" else k.

Definition authenticated (userID : string) (k : Handler) : Handler :=
  if userID =?s "" then fail 401 "unauthenticated" else k.

(** Go's parser of floating-point literals, as nanoseconds; [None] is out of range. *)
Class Floats := { float_ns : string → option Z }.

(** ** The API *)
Section Api.
Context `{TimeParser} `{Fts5} `{Regexp} `{Floats}.
Context (reg : Registry) (env : Env) (qcfg : QueueConfig) (searchSend : SearchCall → SendAnswer) (page_bytes : Z).
(** Whether the extractor is configured. *)
Context (extractor : bool).

Definition memoryBodyLimit : Z := (10 * 1024 * 1024)%Z.

Definition decode_mtime (l : list (string * json)) : option Z :=
  lit ← decode_number_field "file_mtime" l "0"; float_ns lit.

(** [[]byte] is base64 text; [null] is nil. *)
Fixpoint decode_bytes_field (name : string) (l : list (string * json)) (cur : string) : option string :=
  match l with
  | [] => Some cur
  | (k, v) :: r =>
      if EqualFold k name then
        match v with
        | JStr s => b ← DecodeString s; decode_bytes_field name r b
        | JNull => decode_bytes_field name r ""
        | _ => None
        end
      else decode_bytes_field name r cur
  end.

Definition decode_counters_field (l : list (string * json)) : option (option (list (string * json))) :=
  match decode_raw_field "client_counters" l None with
  | None | Some JNull => Some None
  | Some (JObj o) => m ← decode_counters o ∅; Some (Some (map (λ '(k, z), (k, JNum (pretty z))) (map_to_list m)))
  | _ => None
  end.

Definition decode_ingest (body : string) : option IngestRequest :=
  l ← struct_fields body;
  sid ← decode_string_field "session_id" l ""; dir ← decode_string_field "project_dir" l "";
  file ← decode_string_field "file_path" l ""; mtime ← decode_mtime l; bytes ← decode_int_field "bytes_seen" l 0;
  plat ← decode_string_field "platform" l ""; data ← decode_bytes_field "jsonl" l "";
  cwd ← decode_string_field "raw_cwd" l ""; key ← decode_string_field "project_key" l "";
  sub ← decode_bool_field "is_subagent" l false; parent ← decode_string_field "source_parent_session_id" l "";
  counters ← decode_counters_field l;
  Some (mkIngest sid dir file mtime bytes plat data cwd key sub parent counters).

Definition isClientError (msg : string) : bool :=
  HasPrefix msg "session_id is required" || HasPrefix msg "platform is required" || HasPrefix msg "unknown platform".

Definition HandleIngest (userID : string) (r : Req) : Handler :=
  only "POST" r (authenticated userID (
    match read_body memoryBodyLimit r with
    | RTooLarge => fail 413 "request body exceeds 10 MiB limit"
    | RFailed => fail 400 "body unreadable"
    | RBytes body =>
        match decode_ingest body with
        | None => fail 400 "invalid json"
        | Some req =>
            let! now := on_world (read clock) in
            let! res := attempt (on_db (Ingest reg now userID req)) in
            match res with
            | Ok resp => answer_with (MIngested resp)
            | Err e => if e =?s ErrForeignSession then fail 409 ErrForeignSession
                       else if isClientError e then fail 400 e else fail 500 "internal error"
            end
        end
    end)).

(** Up to 240 bytes, newlines as spaces. *)
Definition snippet (content : string) : string :=
  let s := map_str (λ c, if Ascii.eqb c "010"%char then " "%char else c) content in
  if (String.length s <=? 240) then s else take_str 240 s +:+ "…".

Definition search_hit (h : SearchHit) : searchHit :=
  let m := hitMessage h in mkSearchHit (msgSession m) (msgRole m) (msgTimestamp m) (snippet (msgContent m)) (hitScore h).

Definition HandleSearch (userID : string) (r : Req) : Handler :=
  only "GET" r (authenticated userID (
    let q := QueryGet r "q" in
    let! res := attempt (on_db (SearchMemory userID q (mkOpts (Atoi (QueryGet r "limit")) (QueryGet r "project") (QueryGet r "session") "" 0))) in
    match res with
    | Err e => fail 500 e
    | Ok hits =>
        let memories := if extractor && (QueryGet r "session" =?s "")
                        then match SearchTranscriptMemories env searchSend userID q 10 with Ok l => l | Err _ => [] end
                        else [] in
        answer_with (MHits (map search_hit hits) memories)
    end)).

Definition HandleSessions (userID : string) (r : Req) : Handler :=
  only "GET" r (authenticated userID (
    let! res := attempt (on_db (Recent userID (Atoi (QueryGet r "limit")))) in
    match res with Err e => fail 500 e | Ok rows => answer_with (MSessions rows) end)).

(** The last [tail] elements when there are more. *)
Definition keep_tail (tail : Z) (l : list Message) : list Message :=
  if (0 <? tail)%Z && (tail <? Z.of_nat (length l))%Z then drop (length l - Z.to_nat tail) l else l.

Definition HandleSessionExtract (userID : string) (r : Req) : Handler :=
  only "GET" r (authenticated userID (
    let sid := TrimPrefix (rPath r) "/api/memory/sessions/" in
    if sid =?s "" then fail 400 "session id required"
    else
      let! res := attempt (on_db (SessionExtract userID sid (Atoi (QueryGet r "from_epoch")))) in
      match res with
      | Err e => if Contains e not_found then fail 404 not_found else fail 500 e
      | Ok msgs => answer_with (MMessages (keep_tail (Atoi (QueryGet r "tail")) msgs))
      end)).

Definition HandleStats (r : Req) : Handler :=
  only "GET" r (
    let! res := attempt (on_db (GetStats reg page_bytes)) in
    match res with Err e => fail 500 e | Ok st => answer_with (MStats st) end).

Definition HandleExtract (userID : string) (r : Req) : Handler :=
  only "POST" r (
    if negb extractor then fail 503 "extraction not configured"
    else authenticated userID (
      match read_body 4096 r with
      | RTooLarge | RFailed => fail 400 "body unreadable"
      | RBytes body =>
          let req := l ← struct_fields body; s ← decode_string_field "session_id" l ""; m ← decode_string_field "mode" l "";
                     Some (s, m) in
          match req with
          | None => fail 400 "invalid json"
          | Some (sid, m) =>
              if sid =?s "" then fail 400 "session_id required"
              else
                let! owned := attempt (on_db (SessionOwnedBy userID sid)) in
                match owned with
                | Err _ => fail 500 "internal error"
                | Ok false => fail 404 "404 page not found"
                | Ok true =>
                    let mode := if m =?s "manual" then ModeManual else ModeAuto in
                    let! q := (λ d, (Ok (queue (tables d)), d)) in
                    let! e := on_world (Enqueue qcfg sid mode q) in
                    let! _ := (λ d, (Ok tt, mkDb (mkMWorld (world (tables d)) e.2) (faults d))) in
                    answer_with (MAccepted sid mode e.1.1 e.1.2)
                end
          end
      end)).

(** ** The dashboard *)

Definition pageSize : Z := 25.

(** A comma before every group of three digits, counted from the right. *)
Fixpoint commas (s : string) : string :=
  match s with
  | EmptyString => ""
  | String c r =>
      let rest := commas r in
      let n := String.length r in
      if (0 <? n) && (n mod 3 =? 0) then String c (String "," rest) else String c rest
  end.

Definition formatInt64 (n : Z) : string :=
  if (n <? 0)%Z then String "-" (commas (pretty (Z.to_N (- n)))) else commas (pretty (Z.to_N n)).

Definition HandleMemoryIndex (userID : string) (r : Req) : Handler :=
  if rPath r !=? "/memory" then fail 404 "404 page not found"
  else
    let! st := attempt (on_db (GetStats reg page_bytes)) in
    match st with
    | Err e => fail 500 ("stats: " +:+ e)
    | Ok st =>
        let! projects := attempt (on_db (RecentByProject userID 12)) in
        match projects with
        | Err e => fail 500 ("projects: " +:+ e)
        | Ok ps => answer_with (MIndex st (map (λ p, (p, Base (pgDir p))) ps) (formatInt64 (StSessions st)) (formatInt64 (StMessages st)))
        end
    end.

Definition page_of (s : string) : Z := let p := Atoi s in if (p <? 1)%Z then 1 else p.

Definition HandleMemorySessions (userID : string) (r : Req) : Handler :=
  if rPath r !=? "/memory/sessions" then fail 404 "404 page not found"
  else
    let page := page_of (QueryGet r "page") in
    let projectDir := QueryGet r "project" in
    let offset := wrap64 ((page - 1) * pageSize) in
    let! res := attempt (on_db (SessionsPaged userID projectDir pageSize offset)) in
    match res with
    | Err e => fail 500 ("sessions: " +:+ e)
    | Ok (l, total) =>
        let totalPages := Z.max 1 ((total + pageSize - 1) / pageSize) in
        answer_with (MPage l projectDir page totalPages total (if projectDir =?s "" then "" else "&project=" +:+ projectDir)
                       (1 <? page)%Z (page <? totalPages)%Z)
    end.

Definition HandleMemorySessionDetail (userID : string) (r : Req) : Handler :=
  let sid := TrimPrefix (rPath r) "/memory/sessions/" in
  if sid =?s "" then answer_with (MRedirect "/memory/sessions")
  else
    let! res := attempt (on_db (GetSessionWithMessages userID sid 0)) in
    match res with
    | Err e => if Contains e not_found then fail 404 "404 page not found" else fail 500 e
    | Ok (m, msgs) =>
        let chars x := Z.of_nat (String.length (msgContent x)) in
        answer_with (MDetail m (map (λ x, (x, (2000 <? chars x)%Z, chars x)) msgs) (foldr Z.add 0%Z (map chars msgs)) (Base (ProjectDir m)))
    end.

(** Hits by session, in the order in which the sessions first appear. *)
Fixpoint group_hits (hits : list SearchHit) (groups : list (string * list SearchHit)) : list (string * list SearchHit) :=
  match hits with
  | [] => groups
  | h :: r =>
      let sid := msgSession (hitMessage h) in
      group_hits r (if existsb (λ g, g.1 =?s sid) groups
                    then map (λ g, if g.1 =?s sid then (g.1, g.2 ++ [h]) else g) groups
                    else groups ++ [(sid, [h])])
  end.

Definition HandleMemorySearch (userID : string) (r : Req) : Handler :=
  if rPath r !=? "/memory/search" then fail 404 "404 page not found"
  else
    let! ps := attempt (on_db (RecentByProject userID 30)) in
    let projects := match ps with Ok l => l | Err _ => [] end in
    let q := QueryGet r "q" in
    if q =?s "" then answer_with (MSearch projects None 0)
    else
      let! res := attempt (on_db (SearchMemory userID q (mkOpts 25 (QueryGet r "project") "" (QueryGet r "role") (Atoi (QueryGet r "since_epoch"))))) in
      match res with
      | Err e => fail 500 ("search: " +:+ e)
      | Ok hits => answer_with (MSearch projects (Some (group_hits hits [])) (Z.of_nat (length hits)))
      end.
End Api.

(** ** Extraction requests *)

Lemma on_db_query {A} (f : State → A) mw :
  on_db (query f) (healthy mw) = (Ok (f (mem (world mw))), healthy mw).
Proof. by destruct mw as [[? ? ? ?] ?]. Qed.

Lemma world_keeps_queue {A} (m : DBM World A) q : preserves (λ mw, queue mw = q) (on_world m).
Proof. apply preserves_lift. done. Qed.

Section Requests.
Context (qcfg : QueueConfig) (extractor : bool).

(** whatever a caller asks and whatever statements fail, an extraction request
    changes the queue only by appending one item, for a session that belongs to the caller and
    was not already waiting or running. *)
Theorem extract_only_own_sessions : ∀ userID r d reply d',
  HandleExtract qcfg extractor userID r d = (reply, d') →
  queue (tables d') = queue (tables d) ∨
  ∃ sid mode row, sessions (mem (world (tables d))) !! sid = Some row ∧ UserID (sess row) = userID
    ∧ sid ∉ pending (queue (tables d)) ∧ ch (queue (tables d')) = ch (queue (tables d)) ++ [mkItem sid mode].
Proof.
  intros userID r d reply d'. unfold HandleExtract, only, authenticated, fail.
  assert (Hret : ∀ x : MReply, db_ret x d = (reply, d') → queue (tables d') = queue (tables d)) by (by intros x [= _ <-]).
  case_if; [eauto|]. case_if; [eauto|]. case_if; [eauto|]. destruct (read_body 4096 r) as [body| |]; [|eauto..].
  destruct (struct_fields body ≫= _) as [[sid m]|]; [|eauto]. case_if; [eauto|]. clear Hret.
  unfold db_bind at 1. rewrite attempt_run. set (own := on_db (SessionOwnedBy userID sid)).
  assert (Hown : queue (tables (snd (own d))) = queue (tables d)
    ∧ ∀ b, fst (own d) = Ok b → b = match sessions (mem (world (tables d))) !! sid with Some x => UserID (sess x) =?s userID | None => false end).
  { subst own. split; [by apply world_keeps_queue|]. destruct d as [[[s c l t] q] fs]. unfold on_db, on_world, on_mem, lift_db, SessionOwnedBy, Owner, query, exec, db_bind.
    cbn. destruct (next_fault fs) as [[] fs']; cbn; [done|]. intros b [= <-]. by destruct (sessions s !! sid). }
  destruct Hown as [Hq Hb]. destruct (own d) as [[[]|e] d1]; cbn in Hq; [|intros [= _ <-]; by left..].
  specialize (Hb true eq_refl). destruct (sessions (mem (world (tables d))) !! sid) as [row|] eqn:Hrow; [|done].
  set (mode := if m =?s "manual" then ModeManual else ModeAuto). unfold db_bind at 1. cbv beta iota. unfold db_bind at 1.
  cbn [fst snd]. set (en := on_world (Enqueue qcfg sid mode (queue (tables d1)))). assert (Hen : (∃ e d2, en d1 = (Err e, d2) ∧ queue (tables d2) = queue (tables d1)) ∨
    ∃ e d2, en d1 = (Ok e, d2) ∧ (e.2 = queue (tables d1) ∨ e = try_enqueue qcfg sid mode (queue (tables d1)))).
  { subst en. unfold on_world, lift_db, Enqueue, db_bind. destruct (admissible _ _ _ _) as [[[] |e] d2]; [right|left; by eexists _, _].
    eexists _, _. split; [done|]. destruct b; [by right|by left]. }
  fold en. destruct Hen as [(e & d2 & -> & Hd2)|(e & d2 & -> & He)]; [intros [= _ <-]; left; congruence|].
  unfold db_bind, answer_with, db_ret. intros [= _ <-]. cbn. rewrite Hq in He. destruct He as [->| ->]; [by left|].
  unfold try_enqueue. case_bool_decide as Hp; [by left|]. case_if; [|by left]. right. exists sid, mode, row. by rewrite <- (String.eqb_eq (UserID (sess row))).
Qed.
End Requests.

(** ** Pages *)

Lemma pages_concat {A} n (l : list A) m :
  flat_map (λ k, take n (drop ((k - 1) * n) l)) (seq 1 m) = take (m * n) l.
Proof.
  induction m as [|m IH]; [done|]. rewrite seq_S, flat_map_app, IH. cbn [flat_map Nat.add]. rewrite app_nil_r.
  replace (S m - 1) with m by lia. replace (S m * n) with (m * n + n) by lia. by rewrite take_take_drop.
Qed.

Section Pages.
Context (userID projectDir : string).

(** The sessions on the page that a request gets. *)
Definition page_sessions (r : Req) (mw : MWorld) : list MemorySession :=
  match fst (HandleMemorySessions userID r (healthy mw)) with Ok (MPage l _ _ _ _ _ _ _) => l | _ => [] end.

Definition total_pages (r : Req) (mw : MWorld) : nat :=
  match fst (HandleMemorySessions userID r (healthy mw)) with Ok (MPage _ _ _ n _ _ _ _) => Z.to_nat n | _ => 0 end.

Lemma page_reply r mw :
  rPath r = "/memory/sessions" →
  let s := mem (world mw) in
  let dir := QueryGet r "project" in
  let L := stable_sort newest_first (user_rows userID dir s) in
  let page := page_of (QueryGet r "page") in
  page_sessions r mw = map sess (take 25 (drop (Z.to_nat (wrap64 ((page - 1) * 25))) L))
  ∧ total_pages r mw = Z.to_nat (Z.max 1 ((Z.of_nat (length L) + 25 - 1) / 25)).
Proof.
  intros Hp s dir L page. set (total := Z.of_nat (length (user_rows userID dir s))).
  assert (E : fst (HandleMemorySessions userID r (healthy mw)) =
    Ok (MPage (map sess (take 25 (drop (Z.to_nat (wrap64 ((page - 1) * pageSize))) L))) dir page
          (Z.max 1 ((total + pageSize - 1) / pageSize)) total (if dir =?s "" then "" else "&project=" +:+ dir)
          (1 <? page)%Z (page <? Z.max 1 ((total + pageSize - 1) / pageSize))%Z)).
  { unfold HandleMemorySessions. rewrite Hp. by destruct mw as [[? ? ? ?] ?]. }
  unfold page_sessions, total_pages. rewrite E. split; [done|]. unfold pageSize, total.
  unfold L. by rewrite (Permutation_length (stable_sort_perm newest_first (user_rows userID dir s))).
Qed.

(** the pages of the session list, from the first to the last the page itself
    announces, are the whole list, newest first: no session is missing and none is shown twice. *)
Theorem pages_cover_sessions : ∀ (rq : nat → Req) mw,
  (∀ k, rPath (rq k) = "/memory/sessions" ∧ QueryGet (rq k) "project" = projectDir) →
  (∀ k, 1 ≤ k ≤ total_pages (rq 1) mw → page_of (QueryGet (rq k) "page") = Z.of_nat k) →
  (Z.of_nat (length (user_rows userID projectDir (mem (world mw)))) < 2 ^ 60)%Z →
  flat_map (λ k, page_sessions (rq k) mw) (seq 1 (total_pages (rq 1) mw))
  = map sess (stable_sort newest_first (user_rows userID projectDir (mem (world mw)))).
Proof.
  intros rq mw Hrq Hpage Hlen. set (L := stable_sort _ _). assert (HL : length L = length (user_rows userID projectDir (mem (world mw)))).
  { apply Permutation_length, stable_sort_perm. }
  destruct (page_reply (rq 1) mw) as [_ Ht]; [apply Hrq|]. destruct (Hrq 1) as (_ & Hd). rewrite Hd in Ht. fold L in Ht.
  rewrite Ht in Hpage |- *. set (n := Z.to_nat _).
  assert (Hn : length L ≤ n * 25 ∧ (Z.of_nat n * 25 < 2 ^ 61)%Z).
  { subst n. pose proof (Z.div_mod (Z.of_nat (length L) + 25 - 1) 25 ltac:(lia)).
    pose proof (Z.mod_pos_bound (Z.of_nat (length L) + 25 - 1) 25 ltac:(lia)). split; [lia|]. rewrite HL in *. lia. }
  transitivity (flat_map (λ k, map sess (take 25 (drop ((k - 1) * 25) L))) (seq 1 n)).
  - assert (Hk : ∀ k, k ∈ seq 1 n → page_sessions (rq k) mw = map sess (take 25 (drop ((k - 1) * 25) L))).
    { intros k Hk%elem_of_seq. destruct (page_reply (rq k) mw) as [-> _]; [apply Hrq|]. destruct (Hrq k) as (_ & ->). rewrite Hpage by (fold n; lia). fold L.
      f_equal. f_equal. f_equal. unfold wrap64. rewrite Z.mod_small by lia. lia. }
    clear -Hk. induction (seq 1 n) as [|x l IH]; [done|]. cbn. rewrite Hk by (constructor). f_equal. apply IH. intros k Hin. apply Hk. by constructor.
  - transitivity (map sess (flat_map (λ k, take 25 (drop ((k - 1) * 25) L)) (seq 1 n))).
    + clear. induction (seq 1 n) as [|x l IH]; [done|]. cbn. by rewrite IH, map_app.
    + rewrite pages_concat, take_ge by lia. done.
Qed.
End Pages.

(** ** Search groups *)

Definition group_ok (g : string * list SearchHit) : Prop := g.2 ≠ [] ∧ Forall (λ h, msgSession (hitMessage h) = g.1) g.2.

Lemma group_add_perm sid (h : SearchHit) groups :
  NoDup (map fst groups) → sid ∈ map fst groups →
  flat_map snd (map (λ g : string * list SearchHit, if g.1 =?s sid then (g.1, g.2 ++ [h]) else g) groups) ≡ₚ flat_map snd groups ++ [h].
Proof.
  induction groups as [|g l IH]; cbn; [by intros _ ?%elem_of_nil|]. intros [Hg Hn]%NoDup_cons Hin.
  destruct (g.1 =?s sid) eqn:E; bool_prop; cbn.
  - assert (Hid : map (λ g : string * list SearchHit, if g.1 =?s sid then (g.1, g.2 ++ [h]) else g) l = l).
    { rewrite <- E. clear -Hg. induction l as [|x l IH]; [done|]. cbn in *. apply not_elem_of_cons in Hg as [Hx Hg].
      rewrite (proj2 (String.eqb_neq _ _) (not_eq_sym Hx)). by rewrite IH. }
    rewrite Hid. rewrite <- !app_assoc. apply Permutation_app_head, Permutation_app_comm.
  - apply elem_of_cons in Hin as [?|Hin]; [congruence|]. by rewrite IH, app_assoc.
Qed.

Lemma group_hits_spec hits : ∀ groups,
  NoDup (map fst groups) → Forall group_ok groups →
  NoDup (map fst (group_hits hits groups)) ∧ Forall group_ok (group_hits hits groups)
  ∧ flat_map snd (group_hits hits groups) ≡ₚ flat_map snd groups ++ hits.
Proof.
  induction hits as [|h hits IH]; intros groups Hn Hf; cbn [group_hits]; [by rewrite app_nil_r|].
  set (sid := msgSession (hitMessage h)). set (groups' := if existsb _ _ then _ else _).
  assert (H : NoDup (map fst groups') ∧ Forall group_ok groups' ∧ flat_map snd groups' ≡ₚ flat_map snd groups ++ [h]).
  { subst groups'. destruct (existsb _ _) eqn:E.
    - assert (Hfst : map fst (map (λ g : string * list SearchHit, if g.1 =?s sid then (g.1, g.2 ++ [h]) else g) groups) = map fst groups).
      { rewrite map_map. apply map_ext. intros g. by case_if. }
      rewrite Hfst. split_and!; [done| |].
      + rewrite Forall_map. eapply Forall_impl; [exact Hf|]. intros g [Hne Hg]. cbn. destruct (g.1 =?s sid) eqn:Eg; [|done]. bool_prop.
        split; cbn; [by destruct g.2|]. apply Forall_app. split; [done|]. by constructor.
      + apply group_add_perm; [done|]. apply existsb_exists in E as (g & Hg & Eg). bool_prop. rewrite <- Eg.
        apply list_elem_of_fmap_2. by apply list_elem_of_In.
    - rewrite map_app, flat_map_app. split_and!; [| |done].
      + apply NoDup_app. split_and!; [done| |apply NoDup_singleton]. intros x Hx Hs. apply list_elem_of_singleton in Hs as ->.
        apply list_elem_of_fmap in Hx as (g & Hg & Hin). assert (Et : existsb (λ g, g.1 =?s sid) groups = true); [|congruence].
        apply existsb_exists. exists g. split; [by apply list_elem_of_In|]. cbn in Hg. by rewrite Hg, String.eqb_refl.
      + apply Forall_app. split; [done|]. constructor; [|done]. split; [done|]. by constructor. }
  destruct H as (H1 & H2 & H3). destruct (IH groups' H1 H2) as (G1 & G2 & G3). split_and!; [done..|].
  rewrite G3, H3, <- app_assoc. done.
Qed.

(** the groups of the search page are the hits, each exactly once, under the
    session they belong to, with one group per session. *)
Theorem search_groups_partition_hits : ∀ hits,
  NoDup (map fst (group_hits hits [])) ∧ Forall group_ok (group_hits hits [])
  ∧ flat_map snd (group_hits hits []) ≡ₚ hits.
Proof. intros hits. apply (group_hits_spec hits []); constructor. Qed.

(** A page link whose filter arrives percent-encoded is a text that is no number: the first page. *)
Lemma filtered_page_link_is_page_one dir : page_of ("2&project=" +:+ dir) = 1%Z.
Proof. reflexivity. Qed.

(** ** Witnesses *)

Definition toy_mworld : MWorld := mkMWorld (mkWorld toy_messages 10 None []) StartQueue.

Definition extract_request : Req :=
  mkReq "POST" "/api/memory/extract" ∅ (Marshal (JObj [("session_id", JStr "s1"); ("mode", JStr "manual")])) false.

Lemma extract_only_own_sessions_witness :
  let d' := snd (HandleExtract DefaultQueueConfig true "bob" extract_request (healthy toy_mworld)) in
  ch (queue (tables d')) = [mkItem "s1" ModeManual] ∧
  (queue (tables d') = StartQueue ∨
   ∃ sid mode row, sessions toy_messages !! sid = Some row ∧ UserID (sess row) = "bob"
    ∧ sid ∉ pending StartQueue ∧ ch (queue (tables d')) = [] ++ [mkItem sid mode]).
Proof.
  split; [vm_compute; reflexivity|].
  apply (extract_only_own_sessions DefaultQueueConfig true "bob" extract_request (healthy toy_mworld) _ _ (surjective_pairing _)).
Defined.

Definition first_page : Req := mkReq "GET" "/memory/sessions" ∅ "" false.

Lemma pages_cover_sessions_witness :
  total_pages "bob" first_page toy_mworld = 1 ∧
  flat_map (λ _, page_sessions "bob" first_page toy_mworld) (seq 1 (total_pages "bob" first_page toy_mworld))
  = map sess (stable_sort newest_first (user_rows "bob" "" toy_messages)).
Proof.
  assert (E : total_pages "bob" first_page toy_mworld = 1) by (vm_compute; reflexivity). split; [exact E|].
  apply (pages_cover_sessions "bob" "" (λ _, first_page) toy_mworld).
  - intros k. split; reflexivity.
  - intros k Hk. rewrite E in Hk. replace k with 1 by lia. reflexivity.
  - vm_compute. reflexivity.
Defined.
