(* ===== verification/Recipes.v ===== *)
(** * The recipe store

    [src/internal/store/recipes.go] over the tables of migration 016: setup recipes and
    the users they are assigned to. *)
From S2P Require Import Prelude GoStrings AccessTiers Profiles Users Servers Skills.

(** ** Data *)

Record SetupRecipe := mkRecipe {
  rcID : string; rcSlug : string; rcDisplayName : string; rcDescription : string; rcType : string; rcData : string;
  rcVisibility : string; rcYankedAt : option Z; rcCreatedBy : option string; rcCreatedAt : Z; rcUpdatedAt : Z }.

Record SetupRecipeAssignment := mkGrant {
  gRecipeID : string; gUserID : string; gAssignedBy : option string; gAssignedAt : Z }.

Record State := mkState {
  accounts : Users.State;
  recipes : gmap string SetupRecipe;
  grants : gmap (string * string) SetupRecipeAssignment }.

Definition with_recipes (s : State) r : State := mkState (accounts s) r (grants s).
Definition with_grants (s : State) g : State := mkState (accounts s) (recipes s) g.

Definition on_accounts {A} (m : DBM Users.State A) : DBM State A :=
  lift_db accounts (λ a s, mkState a (recipes s) (grants s)) m.

Definition known_user (s : State) (u : option string) : bool :=
  match u with None => true | Some id => bool_decide (is_Some (Users.users (accounts s) !! id)) end.

Definition ErrRecipeSlugConflict : string := "recipe slug already exists".
Definition RecipeTypeClaudePlugin : string := "claude_plugin".
Definition check_failed : string := "CHECK constraint failed".

(** ** Recipes *)

Definition recipe_by_slug (slug : string) (s : State) : option SetupRecipe :=
  snd <$> List.find (λ '(_, r), rcSlug r =?s slug) (map_to_list (recipes s)).

(** [uuid] is the fresh id, used when the caller gave none; what is returned is the struct
    as the call leaves it. *)
Definition CreateRecipe (uuid : string) (now : Z) (r : SetupRecipe) : DBM State SetupRecipe :=
  match ValidateSlug (rcSlug r) with
  | Err e => db_fail e
  | Ok _ =>
      let id := if rcID r =?s "" then uuid else rcID r in
      let vis := if rcVisibility r =?s "" then "restricted" else rcVisibility r in
      if negb (valid_visibility vis) then db_fail ("invalid visibility " +:+ vis)
      else if rcType r =?s "" then db_fail "recipe_type is required"
      else
        let data := if rcData r =?s "" then "{}" else rcData r in
        let out y := mkRecipe id (rcSlug r) (rcDisplayName r) (rcDescription r) (rcType r) data vis y (rcCreatedBy r) now now in
        exec (λ s,
          if rcType r !=? RecipeTypeClaudePlugin then Err ("creating recipe: " +:+ check_failed)
          else if bool_decide (is_Some (recipes s !! id)) || bool_decide (is_Some (recipe_by_slug (rcSlug r) s))
          then Err ErrRecipeSlugConflict
          else if negb (known_user s (rcCreatedBy r)) then Err ("creating recipe: " +:+ fk_failed)
          else Ok (out (rcYankedAt r), with_recipes s (<[id := out None]> (recipes s))))
  end.

Definition GetRecipe (id : string) : DBM State (option SetupRecipe) := query (λ s, recipes s !! id).

Definition GetRecipeBySlug (slug : string) : DBM State (option SetupRecipe) := query (recipe_by_slug slug).

Definition recipe_leb (a b : SetupRecipe) : bool := String.leb (rcSlug a) (rcSlug b).

Definition ListRecipes : DBM State (list SetupRecipe) :=
  query (λ s, stable_sort recipe_leb (map snd (map_to_list (recipes s)))).

Definition update_recipe (id : string) (f : SetupRecipe → SetupRecipe) (s : State) : State :=
  with_recipes s (alter f id (recipes s)).

Definition set_recipe_meta (name desc vis data : string) (now : Z) (r : SetupRecipe) : SetupRecipe :=
  mkRecipe (rcID r) (rcSlug r) name desc (rcType r) data (if vis =?s "" then rcVisibility r else vis)
    (rcYankedAt r) (rcCreatedBy r) (rcCreatedAt r) now.

Definition set_recipe_yanked (y : option Z) (now : Z) (r : SetupRecipe) : SetupRecipe :=
  mkRecipe (rcID r) (rcSlug r) (rcDisplayName r) (rcDescription r) (rcType r) (rcData r) (rcVisibility r)
    y (rcCreatedBy r) (rcCreatedAt r) now.

Definition UpdateRecipe (now : Z) (id displayName description visibility recipeData : string) : DBM State unit :=
  if (visibility !=? "") && negb (valid_visibility visibility) then db_fail ("invalid visibility " +:+ visibility)
  else
    let data := if recipeData =?s "" then "{}" else recipeData in
    update (update_recipe id (set_recipe_meta displayName description visibility data now)).

Definition YankRecipe (now : Z) (id : string) : DBM State unit := update (update_recipe id (set_recipe_yanked (Some now) now)).

Definition UnyankRecipe (now : Z) (id : string) : DBM State unit := update (update_recipe id (set_recipe_yanked None now)).

(** [ON DELETE CASCADE] removes the assignments. *)
Definition delete_recipe (id : string) (s : State) : State :=
  mkState (accounts s) (delete id (recipes s)) (filter (λ '(k, _), k.1 ≠ id) (grants s)).

Definition DeleteRecipe (id : string) : DBM State unit := update (delete_recipe id).

(** ** Assignments *)

Definition AssignRecipe (now : Z) (a : SetupRecipeAssignment) : DBM State SetupRecipeAssignment :=
  if (gRecipeID a =?s "") || (gUserID a =?s "") then db_fail "recipe_id and user_id are required"
  else
    let row := mkGrant (gRecipeID a) (gUserID a) (gAssignedBy a) now in
    exec (λ s,
      if bool_decide (is_Some (recipes s !! gRecipeID a)) && known_user s (Some (gUserID a)) && known_user s (gAssignedBy a)
      then Ok (row, with_grants s (<[(gRecipeID a, gUserID a) := row]> (grants s)))
      else Err ("assigning recipe: " +:+ fk_failed)).

Definition UnassignRecipe (recipeID userID : string) : DBM State unit :=
  update (λ s, with_grants s (delete (recipeID, userID) (grants s))).

Definition ListAssignmentsForRecipe (recipeID : string) : DBM State (list SetupRecipeAssignment) :=
  query (λ s, stable_sort (λ a b, gAssignedAt a <=? gAssignedAt b)%Z
    (omap (λ '(k, a), if k.1 =?s recipeID then Some a else None) (map_to_list (grants s)))).

(** The WHERE clause over the recipe joined to the user's assignment. *)
Definition recipe_assigned (userID : string) (s : State) (r : SetupRecipe) : bool :=
  bool_decide (rcYankedAt r = None) &&
  ((rcVisibility r =?s "public") || bool_decide (is_Some (grants s !! (rcID r, userID)))).

Definition AssignedForUser (userID : string) : DBM State (list SetupRecipe) :=
  query (λ s, stable_sort recipe_leb
    (List.filter (recipe_assigned userID s) (map snd (map_to_list (recipes s))))).

(** ** Recent activity *)

Record RecentRecipeRow := mkRecentRecipe {
  rrID : string; rrSlug : string; rrVisibility : string; rrCreatedBy : option string; rrCreatedAt : Z }.

Definition RecentRecipes (limit since : Z) : DBM State (list RecentRecipeRow) :=
  query (λ s, newest limit rrCreatedAt
    (omap (λ '(_, r),
       if (since <=? rcCreatedAt r)%Z && bool_decide (rcYankedAt r = None)
       then Some (mkRecentRecipe (rcID r) (rcSlug r) (rcVisibility r) (rcCreatedBy r) (rcCreatedAt r)) else None)
       (map_to_list (recipes s)))).

Record RecentRecipeYankRow := mkRecentRecipeYank {
  rkID : string; rkSlug : string; rkVisibility : string; rkYankedAt : Z }.

Definition RecentRecipeYanks (limit since : Z) : DBM State (list RecentRecipeYankRow) :=
  query (λ s, newest limit rkYankedAt
    (omap (λ '(_, r), y ← rcYankedAt r;
       if (since <=? y)%Z then Some (mkRecentRecipeYank (rcID r) (rcSlug r) (rcVisibility r) y) else None)
       (map_to_list (recipes s)))).

Record RecentRecipeAssignmentRow := mkRecentGrant {
  rgID : string; rgSlug : string; rgVisibility : string; rgUserID : string; rgAssignedAt : Z }.

Definition RecentRecipeAssignments (limit since : Z) : DBM State (list RecentRecipeAssignmentRow) :=
  query (λ s, newest limit rgAssignedAt
    (omap (λ '(_, a), r ← recipes s !! gRecipeID a;
       if (since <=? gAssignedAt a)%Z
       then Some (mkRecentGrant (gRecipeID a) (rcSlug r) (rcVisibility r) (gUserID a) (gAssignedAt a)) else None)
       (map_to_list (grants s)))).

(** ** Deleting an account

    What the foreign keys of the recipe tables do when a user is deleted. *)
Definition forget_recipe (id : string) (r : SetupRecipe) : SetupRecipe :=
  mkRecipe (rcID r) (rcSlug r) (rcDisplayName r) (rcDescription r) (rcType r) (rcData r) (rcVisibility r)
    (rcYankedAt r) (forget id (rcCreatedBy r)) (rcCreatedAt r) (rcUpdatedAt r).

Definition forget_grant (id : string) (a : SetupRecipeAssignment) : SetupRecipeAssignment :=
  mkGrant (gRecipeID a) (gUserID a) (forget id (gAssignedBy a)) (gAssignedAt a).

Definition delete_account (id : string) (s : State) : State :=
  mkState (Users.delete_user id (accounts s)) (forget_recipe id <$> recipes s)
    (forget_grant id <$> filter (λ '(k, _), k.2 ≠ id) (grants s)).

(** ** Well-formed tables *)

Definition recipe_ok (s : State) (id : string) (r : SetupRecipe) : Prop :=
  rcID r = id ∧ ValidateSlug (rcSlug r) = Ok tt ∧ valid_visibility (rcVisibility r) = true ∧
  rcType r = RecipeTypeClaudePlugin ∧ rcData r ≠ "" ∧ known_user s (rcCreatedBy r) = true.

Definition grant_ok (s : State) (key : string * string) (a : SetupRecipeAssignment) : Prop :=
  key = (gRecipeID a, gUserID a) ∧ is_Some (recipes s !! gRecipeID a) ∧ known_user s (Some (gUserID a)) = true ∧
  known_user s (gAssignedBy a) = true.

Definition unique_recipe_slugs (m : gmap string SetupRecipe) : Prop :=
  ∀ i j r q, m !! i = Some r → m !! j = Some q → rcSlug r = rcSlug q → i = j.

(** Keys, CHECK constraints, foreign keys, unique slugs. *)
Record wf (s : State) : Prop := mkWf {
  wf_recipes : map_Forall (recipe_ok s) (recipes s);
  wf_recipe_slugs : unique_recipe_slugs (recipes s);
  wf_grants : map_Forall (grant_ok s) (grants s) }.

(** The operations that change the tables. *)
Inductive Op :=
| OCreateRecipe (uuid : string) (now : Z) (r : SetupRecipe)
| OUpdateRecipe (now : Z) (id displayName description visibility data : string)
| OYankRecipe (now : Z) (id : string)
| OUnyankRecipe (now : Z) (id : string)
| ODeleteRecipe (id : string)
| OAssignRecipe (now : Z) (a : SetupRecipeAssignment)
| OUnassignRecipe (recipeID userID : string)
| ODeleteAccount (id : string).

Definition run_op (o : Op) : DBM State unit :=
  match o with
  | OCreateRecipe uuid now r => CreateRecipe uuid now r ;;; db_ret tt
  | OUpdateRecipe now id n d v data => UpdateRecipe now id n d v data
  | OYankRecipe now id => YankRecipe now id
  | OUnyankRecipe now id => UnyankRecipe now id
  | ODeleteRecipe id => DeleteRecipe id
  | OAssignRecipe now a => AssignRecipe now a ;;; db_ret tt
  | OUnassignRecipe r u => UnassignRecipe r u
  | ODeleteAccount id => update (delete_account id)
  end.

Lemma recipe_by_slug_Some slug s r : recipe_by_slug slug s = Some r → ∃ i, recipes s !! i = Some r ∧ rcSlug r = slug.
Proof.
  unfold recipe_by_slug. intros ([i r'] & E & ->)%fmap_Some. apply find_map_Some in E as [? ?]. bool_prop. eauto.
Qed.

Lemma recipe_by_slug_None slug s : recipe_by_slug slug s = None ↔ ∀ i r, recipes s !! i = Some r → rcSlug r ≠ slug.
Proof.
  unfold recipe_by_slug. rewrite fmap_None, find_map_None. split; intros H i k Hk; specialize (H i k Hk); by apply String.eqb_neq.
Qed.

Lemma recipe_by_slug_unique s i r : wf s → recipes s !! i = Some r → recipe_by_slug (rcSlug r) s = Some r.
Proof.
  intros Hwf Hr. destruct (recipe_by_slug (rcSlug r) s) as [q|] eqn:E.
  - apply recipe_by_slug_Some in E as (j & Hq & Hs). rewrite (wf_recipe_slugs _ Hwf _ _ _ _ Hq Hr Hs) in Hq. congruence.
  - rewrite recipe_by_slug_None in E. by destruct (E _ _ Hr).
Qed.

Lemma wf_update_recipe id f s :
  (∀ r, rcID (f r) = rcID r ∧ rcSlug (f r) = rcSlug r ∧ rcType (f r) = rcType r ∧ rcCreatedBy (f r) = rcCreatedBy r ∧
        (valid_visibility (rcVisibility r) = true → valid_visibility (rcVisibility (f r)) = true) ∧
        (rcData r ≠ "" → rcData (f r) ≠ "")) →
  wf s → wf (update_recipe id f s).
Proof.
  intros Hf [Hr Hu Hg]. constructor; cbn.
  - eapply Forall_alter; [|intros r _|exact Hr]; [done|]. intros (<- & ? & ? & ? & ? & ?).
    destruct (Hf r) as (? & E1 & E2 & E3 & ? & ?). split_and!; [done|by rewrite E1|auto|by rewrite E2|auto|by rewrite E3].
  - intros i j r q. rewrite !lookup_alter. repeat case_decide; subst; rewrite ?fmap_Some;
      repeat (intros (? & ? & ->) || intros ?); repeat match goal with H : context [rcSlug (f ?x)] |- _ =>
        destruct (Hf x) as (_ & E & _); rewrite E in H; clear E end; eauto.
  - eapply map_Forall_impl; [exact Hg|]. intros k a (? & ? & ? & ?). split_and!; [done|by apply alter_is_Some|done..].
Qed.

Lemma wf_insert_recipe id row s :
  recipes s !! id = None → recipe_by_slug (rcSlug row) s = None → recipe_ok s id row → wf s →
  wf (with_recipes s (<[id := row]> (recipes s))).
Proof.
  intros Hn Hsl Hok [Hr Hu Hg]. rewrite recipe_by_slug_None in Hsl. constructor; cbn.
  - by apply map_Forall_insert_2.
  - intros i j r q. rewrite !lookup_insert. repeat case_decide; intros; simplify_eq; try done; eauto; exfalso; eapply Hsl; eauto.
  - eapply map_Forall_impl; [exact Hg|]. intros k a (? & ? & ? & ?). split_and!; try done. cbn. rewrite lookup_insert_is_Some'. auto.
Qed.

Lemma CreateRecipe_wf uuid now r : preserves wf (CreateRecipe uuid now r).
Proof.
  unfold CreateRecipe. destruct (ValidateSlug (rcSlug r)) as [[]|] eqn:Es; [|apply preserves_fail]. cbv zeta.
  generalize (if rcID r =?s "" then uuid else rcID r) as id. intros id.
  generalize (if rcVisibility r =?s "" then "restricted" else rcVisibility r) as vis. intros vis.
  case_if; [apply preserves_fail|]. case_if; [apply preserves_fail|].
  assert (Hd : (if rcData r =?s "" then "{}" else rcData r) ≠ "") by (case_if; bool_prop; done). revert Hd.
  generalize (if rcData r =?s "" then "{}" else rcData r) as data. intros data Hd.
  apply preserves_exec. intros s out s' Hwf. cbv beta. repeat case_if; intros [= _ <-]. bool_prop.
  apply wf_insert_recipe; [|by apply eq_None_not_Some|by split_and!|done]. by apply eq_None_not_Some.
Qed.

Lemma wf_delete_recipe id s : wf s → wf (delete_recipe id s).
Proof.
  intros [Hr Hu Hg]. constructor; cbn.
  - intros j r [_ Hk]%lookup_delete_Some. exact (Hr _ _ Hk).
  - intros i j r q [_ ?]%lookup_delete_Some [_ ?]%lookup_delete_Some. eauto.
  - intros k a [Hk Hne]%map_lookup_filter_Some. destruct (Hg _ _ Hk) as (-> & ? & ?). cbn in Hne. split_and!; [done| |tauto..].
    cbn. by rewrite lookup_delete_ne.
Qed.

Lemma known_user_forget id s r : known_user s r = true → known_user (delete_account id s) (forget id r) = true.
Proof.
  unfold forget. case_bool_decide as E; [done|]. destruct r as [u|]; [|done]. cbn. rewrite !bool_decide_eq_true.
  by rewrite lookup_delete_ne by congruence.
Qed.

Lemma wf_recipes_delete_account id s : wf s → wf (delete_account id s).
Proof.
  intros [Hr Hu Hg]. constructor; cbn.
  - intros j r. rewrite lookup_fmap. intros (r0 & Hk & ->)%fmap_Some. destruct (Hr _ _ Hk) as (? & ? & ? & ? & ? & ?).
    split_and!; try done. by apply known_user_forget.
  - intros i j r q. rewrite !lookup_fmap. intros (? & ? & ->)%fmap_Some (? & ? & ->)%fmap_Some. eauto.
  - intros k a. rewrite lookup_fmap. intros (a0 & [Hk Hne]%map_lookup_filter_Some & ->)%fmap_Some.
    destruct (Hg _ _ Hk) as (-> & ? & ? & ?). split_and!; [done|cbn; by rewrite lookup_fmap, fmap_is_Some| |by apply known_user_forget].
    cbn in *. by rewrite lookup_delete_ne by congruence.
Qed.

Lemma wf_with_grants m s : map_Forall (grant_ok s) m → wf s → wf (with_grants s m).
Proof. intros Hm [Hr Hu Hg]. by constructor. Qed.

(** every operation of the recipe store keeps the tables
    well-formed, whichever statement fails: keys agree with rows, slugs are valid and
    unique, the CHECKs on type and visibility and the foreign keys hold, and the stored
    data is never empty.  Deleting an account keeps this too. *)
Theorem recipe_ops_keep_tables_wf : ∀ o, preserves wf (run_op o).
Proof.
  intros []; cbn; try (apply preserves_bind; [|intros; apply preserves_ret]).
  - apply CreateRecipe_wf.
  - unfold UpdateRecipe. case_if; [apply preserves_fail|]. apply preserves_update. intros s. apply wf_update_recipe.
    intros r. cbn. split_and!; try done; [|intros _; case_if; bool_prop; done].
    intros ?. destruct (visibility =?s ""); [done|]. by destruct (valid_visibility visibility).
  - apply preserves_update. intros s. by apply wf_update_recipe.
  - apply preserves_update. intros s. by apply wf_update_recipe.
  - apply preserves_update, wf_delete_recipe.
  - unfold AssignRecipe. case_if; [apply preserves_fail|]. apply preserves_exec. intros s r s' Hwf. cbv beta. case_if; intros [= _ <-].
    bool_prop. apply wf_with_grants; [|done]. apply map_Forall_insert_2; [|by apply wf_grants]. destruct_and?. bool_prop. by split_and!.
  - apply preserves_update. intros s Hwf. apply wf_with_grants; [|done]. apply map_Forall_delete, wf_grants, Hwf.
  - apply preserves_update, wf_recipes_delete_account.
Qed.

(** ** A concrete store *)
Definition demo_recipe : SetupRecipe :=
  mkRecipe "r1" "lint" "Lint" "" RecipeTypeClaudePlugin "{}" "restricted" None (Some "u") 0 0.

Definition demo_recipes : State := mkState Users.demo {["r1" := demo_recipe]} ∅.

Lemma demo_recipes_wf : wf demo_recipes.
Proof.
  constructor; cbn [recipes grants demo_recipes].
  - apply map_Forall_singleton. by split_and!.
  - intros i j k l [<- _]%lookup_singleton_Some [<- _]%lookup_singleton_Some. done.
  - apply map_Forall_empty.
Qed.
