(* ===== verification/RecipeService.v ===== *)
(** * The recipe service

    [src/internal/recipes/service.go]: validation and canonical form of a recipe's data,
    and the operations the handlers call on the recipe store.  [parses] is [url.Parse]
    reporting no error. *)
From S2P Require Import Prelude GoStrings Json JsonDecode AccessTiers Profiles Users Servers Skills Recipes.

(** ** The data of a [claude_plugin] recipe *)

Record ClaudePluginRecipe := mkPlugin {
  MarketplaceSource : string; Plugin : string; Enabled : bool; SparsePaths : list string }.

Definition alnum (c : ascii) : bool :=
  let n := byte c in
  ((48 <=? n) && (n <=? 57)) || ((65 <=? n) && (n <=? 90)) || ((97 <=? n) && (n <=? 122)).

Definition ident_char (c : ascii) : bool :=
  alnum c || Ascii.eqb c "_"%char || Ascii.eqb c "."%char || Ascii.eqb c "-"%char.

(** [\[a-zA-Z0-9\]\[a-zA-Z0-9_.-\]*] *)
Definition githubIdentRe (s : string) : bool :=
  match s with
  | EmptyString => false
  | String c r => alnum c && all_chars ident_char r
  end.

(** One such name, or two joined by [@]; no name holds an [@]. *)
Definition pluginIdentRe (s : string) : bool :=
  match Split s "@"%char with
  | [a] => githubIdentRe a
  | [a; b] => githubIdentRe a && githubIdentRe b
  | _ => false
  end.

Definition no_blank (c : ascii) : bool :=
  negb (Ascii.eqb c " "%char || (byte c =? 9) || (byte c =? 10)).

(** Errors of the service, as [errors.Is] tells them apart. *)
Inductive SvcErr := EInvalid (msg : string) | ENotFound | ESlugConflict | EOther (msg : string).

Definition sparse_ok (p : string) : bool :=
  let clean := TrimSpace p in
  negb ((clean =?s "") || Contains clean ".." || HasPrefix clean "/").

Section Validate.
Context (parses : string → bool).

Definition validMarketplaceSource (src : string) : bool :=
  if HasPrefix src "/" then true
  else if HasPrefix src "file://" || HasPrefix src "http://" || HasPrefix src "https://" ||
          HasPrefix src "git://" || HasPrefix src "ssh://" then parses src
  else if HasPrefix src "git@" then Contains src ":" && Contains src "/"
  else if negb (all_chars no_blank src) then false
  else match Split src "/"%char with
       | [owner; repo] => githubIdentRe owner && githubIdentRe repo
       | _ => false
       end.

(** [json.Unmarshal] into a struct whose [enabled] is [on] beforehand. *)
Definition decode_plugin (on : bool) (data : string) : option ClaudePluginRecipe :=
  l ← struct_fields data;
  src ← decode_string_field "marketplace_source" l ""; plugin ← decode_string_field "plugin" l "";
  enabled ← decode_bool_field "enabled" l on; paths ← decode_strings_field "sparse_paths" l [];
  Some (mkPlugin src plugin enabled paths).

Definition plugin_json (r : ClaudePluginRecipe) : json :=
  JObj ([("marketplace_source", JStr (MarketplaceSource r)); ("plugin", JStr (Plugin r)); ("enabled", JBool (Enabled r))] ++
        match SparsePaths r with [] => [] | l => [("sparse_paths", JArr (map JStr l))] end).

(** The checks after decoding, and the trimmed record. *)
Definition check_plugin (r : ClaudePluginRecipe) : SvcErr + ClaudePluginRecipe :=
  let src := TrimSpace (MarketplaceSource r) in
  let plugin := TrimSpace (Plugin r) in
  if src =?s "" then inl (EInvalid "marketplace_source is required")
  else if plugin =?s "" then inl (EInvalid "plugin is required")
  else if negb (validMarketplaceSource src) then inl (EInvalid "marketplace_source is not a recognized form")
  else if negb (pluginIdentRe plugin) then inl (EInvalid "plugin must match the pattern")
  else if negb (forallb sparse_ok (SparsePaths r)) then inl (EInvalid "sparse_paths must be non-empty relative paths")
  else inr (mkPlugin src plugin (Enabled r) (map TrimSpace (SparsePaths r))).

Definition ValidateRecipeData (recipeType data : string) : SvcErr + string :=
  if recipeType !=? RecipeTypeClaudePlugin then inl (EInvalid ("unsupported recipe_type " +:+ recipeType))
  else if (data =?s "") || (data =?s "{}") then inl (EInvalid ("recipe_data is required for " +:+ recipeType))
  else match decode_plugin true data with
       | None => inl (EInvalid "parsing recipe_data")
       | Some r =>
           match check_plugin r with
           | inl e => inl e
           | inr r' => inr (Marshal (plugin_json r'))
           end
       end.

(** ** Operations *)

(** A service call: its answer is a value or a service error. *)
Definition Svc (A : Type) : Type := Db State → (SvcErr + A) * Db State.

(** What [Create] makes of an error of the store. *)
Definition create_error (e : string) : SvcErr :=
  if e =?s ErrRecipeSlugConflict then ESlugConflict
  else if Contains e "CHECK constraint failed" || Contains e "invalid visibility" || Contains e "recipe_type is required"
  then EInvalid e
  else EOther e.

Record CreateInput := mkCreate {
  ciSlug : string; ciDisplayName : string; ciDescription : string; ciRecipeType : string; ciRecipeData : string;
  ciVisibility : string; ciCreatedBy : string }.

Definition nullable (s : string) : option string := if s =?s "" then None else Some s.

Definition Create (uuid : string) (now : Z) (i : CreateInput) : Svc SetupRecipe := λ d,
  match ValidateSlug (ciSlug i) with
  | Err e => (inl (EInvalid e), d)
  | Ok _ =>
      match ValidateRecipeData (ciRecipeType i) (ciRecipeData i) with
      | inl e => (inl e, d)
      | inr normalized =>
          let display := TrimSpace (ciDisplayName i) in
          let display := if display =?s "" then ciSlug i else display in
          match CreateRecipe uuid now (mkRecipe "" (ciSlug i) display (TrimSpace (ciDescription i)) (ciRecipeType i)
                  normalized (ciVisibility i) None (nullable (ciCreatedBy i)) 0 0) d with
          | (Ok r, d') => (inr r, d')
          | (Err e, d') => (inl (create_error e), d')
          end
      end
  end.

Record UpdateInput := mkUpdateInput { uiDisplayName : string; uiDescription : string; uiVisibility : string; uiRecipeData : string }.

Definition svc_run {A} (m : DBM State A) : Svc A := λ d,
  match m d with (Ok a, d') => (inr a, d') | (Err e, d') => (inl (EOther e), d') end.

Definition svc_bind {A B} (m : Svc A) (k : A → Svc B) : Svc B := λ d,
  match m d with (inr a, d') => k a d' | (inl e, d') => (inl e, d') end.

Definition svc_of {A} (r : SvcErr + A) : Svc A := λ d, (r, d).

(** The recipe as it reads after the update; [None] when it is gone by then. *)
Definition Update (now : Z) (id : string) (i : UpdateInput) : Svc (option SetupRecipe) :=
  svc_bind (svc_run (GetRecipe id)) (λ current,
    match current with
    | None => svc_of (inl ENotFound)
    | Some cur =>
        svc_bind (svc_of (if uiRecipeData i !=? "" then ValidateRecipeData (rcType cur) (uiRecipeData i) else inr (rcData cur))) (λ data,
        svc_bind (svc_run (UpdateRecipe now id (uiDisplayName i) (uiDescription i) (uiVisibility i) data)) (λ _,
        svc_run (GetRecipe id)))
    end).

Definition ResolveBySlug (slug : string) : Svc SetupRecipe :=
  svc_bind (svc_run (GetRecipeBySlug slug)) (λ r,
    svc_of (match r with
            | Some r => if bool_decide (rcYankedAt r = None) then inr r else inl ENotFound
            | None => inl ENotFound
            end)).
End Validate.

(** ** Trimming *)

Lemma trim_right_idem p s : trim_right p (trim_right p s) = trim_right p s.
Proof.
  induction s as [|c s IH]; [done|]. cbn. destruct (trim_right p s) as [|d t] eqn:E.
  - destruct (p c) eqn:Ec; [done|]. cbn. by rewrite Ec.
  - cbn in *. by rewrite IH.
Qed.

Lemma trim_right_head p c s : p c = false → ∃ t, trim_right p (String c s) = String c t.
Proof. intros Hc. cbn. destruct (trim_right p s); [rewrite Hc|]; eauto. Qed.

Lemma trim_left_cases p s : trim_left p s = "" ∨ ∃ c t, trim_left p s = String c t ∧ p c = false.
Proof. induction s as [|c s IH]; [by left|]. cbn. destruct (p c) eqn:E; [done|]. right. eauto. Qed.

Lemma TrimSpace_idem s : TrimSpace (TrimSpace s) = TrimSpace s.
Proof.
  unfold TrimSpace, trim_func. destruct (trim_left_cases is_space s) as [->|(c & t & -> & Hc)]; [done|].
  destruct (trim_right_head is_space c t Hc) as (t' & E). rewrite E.
  replace (trim_left is_space (String c t')) with (String c t') by (cbn; by rewrite Hc).
  rewrite <- E. apply trim_right_idem.
Qed.

(** ** Canonical data *)

(** Evaluate the field decoders on a list of members with literal keys. *)
Ltac fields_step :=
  cbn [decode_string_field decode_bool_field decode_strings_field mbind option_bind];
  repeat match goal with |- context [EqualFold ?a ?b] =>
    let v := eval vm_compute in (EqualFold a b) in change (EqualFold a b) with v end;
  cbv iota.

Lemma mapM_JStr (l : list string) :
  mapM (λ j, match j with JStr s => Some s | JNull => Some "" | _ => None end) (map JStr l) = Some l.
Proof. induction l as [|x l IH]; [done|]. cbn. by rewrite IH. Qed.

Lemma plugin_json_wf r : Json.wf (plugin_json r) = true.
Proof.
  unfold plugin_json. destruct (SparsePaths r) as [|p l]; [done|]. cbn. rewrite !andb_true_r. induction l; [done|by cbn].
Qed.

(** What is stored decodes to the record it was printed from, whatever the default. *)
Lemma decode_plugin_json on r : decode_plugin on (Marshal (plugin_json r)) = Some r.
Proof.
  unfold decode_plugin, struct_fields. rewrite Unmarshal_Marshal by apply plugin_json_wf. unfold plugin_json.
  destruct r as [src plugin en [|p l]]; [done|].
  cbn [SparsePaths MarketplaceSource Plugin Enabled app]. by do 4 fields_step; rewrite ?mapM_JStr.
Qed.

Lemma plugin_json_nonempty r : Marshal (plugin_json r) =?s "" = false ∧ Marshal (plugin_json r) =?s "{}" = false.
Proof. unfold plugin_json. destruct (SparsePaths r); done. Qed.

Section Facts.
Context (parses : string → bool).

(** What validation guarantees of the record it returns. *)
Definition canonical (r : ClaudePluginRecipe) : Prop :=
  TrimSpace (MarketplaceSource r) = MarketplaceSource r ∧ TrimSpace (Plugin r) = Plugin r ∧
  MarketplaceSource r ≠ "" ∧ validMarketplaceSource parses (MarketplaceSource r) = true ∧ pluginIdentRe (Plugin r) = true ∧
  Forall (λ p, TrimSpace p = p ∧ p ≠ "" ∧ Contains p ".." = false ∧ HasPrefix p "/" = false) (SparsePaths r).

Lemma check_plugin_canonical r r' : check_plugin parses r = inr r' → canonical r'.
Proof.
  unfold check_plugin. repeat case_if; try done. intros [= <-]. bool_prop. unfold canonical; cbn [MarketplaceSource Plugin SparsePaths].
  split_and!; try done; [apply TrimSpace_idem..|]. apply Forall_map, Forall_forall. intros p Hp.
  match goal with H : forallb _ _ = true |- _ => rewrite forallb_forall in H; specialize (H p (proj1 (list_elem_of_In _ _) Hp)) end.
  unfold sparse_ok in *. cbv beta. bool_prop. split_and!; [apply TrimSpace_idem|done..].
Qed.

Lemma check_plugin_fixed r : canonical r → check_plugin parses r = inr r.
Proof.
  destruct r as [src plugin en paths]. intros (H1 & H2 & H3 & H4 & H5 & H6). cbn [MarketplaceSource Plugin SparsePaths Enabled] in *. unfold check_plugin. cbn [MarketplaceSource Plugin SparsePaths Enabled].
  rewrite H1, H2, H4, H5. apply String.eqb_neq in H3. rewrite H3. destruct (plugin =?s "") eqn:Ep; [bool_prop; subst; done|]. cbn [negb].
  assert (Hs : forallb sparse_ok paths = true ∧ map TrimSpace paths = paths).
  { clear -H6. induction H6 as [|p l (E & Hn & Hd & Hp) _ [IH1 IH2]]; [done|]. cbn. unfold sparse_ok at 1. rewrite E, Hd, Hp, IH1, IH2.
    apply String.eqb_neq in Hn. by rewrite Hn. }
  destruct Hs as [-> ->]. done.
Qed.

Lemma ValidateRecipeData_inv ty data out :
  ValidateRecipeData parses ty data = inr out →
  ty = RecipeTypeClaudePlugin ∧ ∃ r, canonical r ∧ out = Marshal (plugin_json r).
Proof.
  unfold ValidateRecipeData. case_if; [done|]. case_if; [done|]. bool_prop. destruct (decode_plugin true data) as [r|]; [|done].
  destruct (check_plugin parses r) as [|r'] eqn:Ec; [done|]. intros [= <-]. split; [done|]. exists r'. split; [|done]. by eapply check_plugin_canonical.
Qed.

Lemma Validate_canonical r : canonical r → ValidateRecipeData parses RecipeTypeClaudePlugin (Marshal (plugin_json r)) = inr (Marshal (plugin_json r)).
Proof.
  intros Hc. unfold ValidateRecipeData. destruct (plugin_json_nonempty r) as [-> ->].
  change (RecipeTypeClaudePlugin !=? RecipeTypeClaudePlugin) with false. cbn [orb]. by rewrite decode_plugin_json, check_plugin_fixed.
Qed.

(** Validation returns a canonical form: what it accepts it
    rewrites to a text that validates to itself and decodes, with any default for
    [enabled], to a record whose source and plugin are trimmed and of an accepted form
    and whose sparse paths are trimmed, non-empty, relative and without [..]. *)
Theorem recipe_data_canonical : ∀ ty data out,
  ValidateRecipeData parses ty data = inr out →
  ValidateRecipeData parses ty out = inr out ∧
  ∃ r, canonical r ∧ ∀ on, decode_plugin on out = Some r.
Proof.
  intros ty data out E. apply ValidateRecipeData_inv in E as (-> & r & Hc & ->). split; [by apply Validate_canonical|].
  exists r. split; [done|]. intros on. apply decode_plugin_json.
Qed.

(** ** Stored recipes *)

(** Every stored recipe holds data that validation returned. *)
Definition data_canonical (s : State) : Prop :=
  map_Forall (λ _ q, ∃ r, canonical r ∧ rcData q = Marshal (plugin_json r)) (recipes s).

Lemma data_canonical_alter id f s :
  (∀ q, recipes s !! id = Some q → rcData (f q) = rcData q ∨ ∃ r, canonical r ∧ rcData (f q) = Marshal (plugin_json r)) →
  data_canonical s → data_canonical (update_recipe id f s).
Proof.
  intros Hf Hs. unfold data_canonical. cbn. eapply Forall_alter; [| |exact Hs]; [done|]. intros q Hq Ho. destruct (Hf q Hq) as [E|?]; [cbv beta; by rewrite E|done].
Qed.

Definition svc_preserves {A} (P : State → Prop) (m : Svc A) : Prop := ∀ d, P (tables d) → P (tables (m d).2).

Lemma Create_canonical uuid now i : svc_preserves data_canonical (Create parses uuid now i).
Proof.
  intros d Hd. unfold Create. destruct (ValidateSlug (ciSlug i)) as [[]|]; [|done].
  destruct (ValidateRecipeData parses _ _) as [e|out] eqn:Ev; [done|].
  assert (Hp : preserves data_canonical (CreateRecipe uuid now (mkRecipe "" (ciSlug i)
     (if TrimSpace (ciDisplayName i) =?s "" then ciSlug i else TrimSpace (ciDisplayName i)) (TrimSpace (ciDescription i))
     (ciRecipeType i) out (ciVisibility i) None (nullable (ciCreatedBy i)) 0 0))).
  { unfold CreateRecipe. cbn [rcSlug rcID rcVisibility rcType rcData]. destruct (ValidateSlug _); [|apply preserves_fail].
    cbv zeta. generalize (if ciVisibility i =?s "" then "restricted" else ciVisibility i) as vis. intros vis.
    case_if; [apply preserves_fail|]. case_if; [apply preserves_fail|]. apply preserves_exec. intros s q s' Hs. cbv beta.
    change ("" =?s "") with true. cbv iota. repeat case_if; intros [= _ <-];
      (apply map_Forall_insert_2; [|exact Hs]); cbn; apply ValidateRecipeData_inv in Ev as (_ & r & Hc & ->); eauto;
      destruct (plugin_json_nonempty r) as [E _]; congruence. }
  specialize (Hp d Hd). cbv zeta. by destruct (CreateRecipe _ _ _ d) as [[a|e] d'].
Qed.

Lemma svc_run_canonical {A} (P : State → Prop) (m : DBM State A) : preserves P m → svc_preserves P (svc_run m).
Proof. intros Hm d Hd. specialize (Hm d Hd). unfold svc_run. by destruct (m d) as [[a|e] d']. Qed.

Lemma Update_canonical now id i d :
  data_canonical (tables d) → data_canonical (tables (Update parses now id i d).2).
Proof.
  intros Hd. unfold Update, svc_bind, svc_run, svc_of. unfold GetRecipe at 1.
  destruct (query (λ s, recipes s !! id) d) as [[[cur|]|e] d1] eqn:E1; cbn [fst snd];
    try (pose proof (query_tables (λ s, recipes s !! id) d) as Hq; rewrite E1 in Hq; cbn in Hq |- *; by rewrite Hq).
  apply query_ok in E1 as [Hc Ht]. rewrite <- Ht in Hd.
  destruct (if uiRecipeData i !=? "" then _ else _) as [e|data] eqn:Ev; [done|].
  assert (Hdata : ∃ r, canonical r ∧ data = Marshal (plugin_json r)).
  { case_if; [by apply ValidateRecipeData_inv in Ev as (_ & r & ? & ->); eauto|]. simplify_eq. rewrite <- Ht in Hc. by apply (Hd id cur). }
  assert (Hu : preserves data_canonical (UpdateRecipe now id (uiDisplayName i) (uiDescription i) (uiVisibility i) data)).
  { unfold UpdateRecipe. case_if; [apply preserves_fail|]. apply preserves_update. intros s. apply data_canonical_alter.
    intros q _. right. cbn. destruct Hdata as (r & Hr & ->). exists r. by destruct (plugin_json_nonempty r) as [-> _]. }
  specialize (Hu d1 Hd). destruct (UpdateRecipe _ _ _ _ _ _ d1) as [[a|e] d2]; [|done]. cbn in Hu.
  pose proof (query_tables (λ s, recipes s !! id) d2) as Hq. unfold GetRecipe.
  destruct (query _ d2) as [[r|e] d3]; cbn in Hq |- *; by rewrite Hq.
Qed.
End Facts.

Definition demo_plugin_text : string :=
  Marshal (JObj [("marketplace_source", JStr " acme/tools "); ("plugin", JStr "lint@acme"); ("extra", JNull);
                 ("sparse_paths", JArr [JStr "plugins/lint "])]).

Definition demo_plugin : ClaudePluginRecipe := mkPlugin "acme/tools" "lint@acme" true ["plugins/lint"].

Lemma recipe_data_canonical_witness :
  ValidateRecipeData (λ _, true) RecipeTypeClaudePlugin (Marshal (plugin_json demo_plugin)) = inr (Marshal (plugin_json demo_plugin)) ∧
  ∃ r, canonical (λ _, true) r ∧ ∀ on, decode_plugin on (Marshal (plugin_json demo_plugin)) = Some r.
Proof. apply (recipe_data_canonical (λ _, true) RecipeTypeClaudePlugin demo_plugin_text). vm_compute. reflexivity. Defined.
