(* ===== verification/RecipesApi.v ===== *)
(** * The recipes API

    [src/internal/web/recipes_handlers.go]: the [/api/recipes] endpoints on top of the
    recipe service.  The authenticated user and the API key, if the request carried one,
    come from the middleware.  A [json.RawMessage] field of a body is taken as its value
    printed again: only the wording of an error about an empty object depends on its
    spelling. *)
From S2P Require Import Prelude GoStrings Json JsonDecode AccessTiers Profiles Users Servers Skills SkillService SkillsApi Recipes RecipeService.

Inductive RReply :=
| RError (code : Z) (msg : string)
| RRecipes (l : list SetupRecipe)
| RAssigned (l : list SetupRecipe)
| RRecipe (r : SetupRecipe)
| RCreated (r : SetupRecipe)
| RUpdated (r : option SetupRecipe)
| RYanked
| RNoContent
| RGrants (l : list SetupRecipeAssignment)
| RGrant (a : SetupRecipeAssignment).

Definition Handler : Type := DBM State RReply.

Definition fail (code : Z) (msg : string) : Handler := db_ret (RError code msg).

(** A store call whose error is answered with 500. *)
Definition call {A} (m : DBM State A) (k : A → Handler) : Handler :=
  let! r := attempt m in
  match r with Ok a => k a | Err _ => fail 500 "internal error" end.

Definition requireCapability (user : User) (key : option APIKey) (cap : string) (k : Handler) : Handler :=
  if hasCapability (Some user) key cap then k else fail 403 ("missing capability: " +:+ cap).

Definition admin_only (user : User) (k : Handler) : Handler :=
  if is_admin user then k else fail 403 "admin access required".

Definition recipesBodyLimit : Z := 64 * 1024.

Record createBody := mkCreateBody {
  cbSlug : string; cbDisplayName : string; cbDescription : string; cbRecipeType : string; cbRecipeData : string;
  cbVisibility : string }.

Definition raw_text (j : option json) : string := from_option Marshal "" j.

Definition decode_create (body : string) : option createBody :=
  l ← struct_fields body;
  slug ← decode_string_field "slug" l ""; name ← decode_string_field "display_name" l "";
  desc ← decode_string_field "description" l ""; ty ← decode_string_field "recipe_type" l "";
  vis ← decode_string_field "visibility" l "";
  Some (mkCreateBody slug name desc ty (raw_text (decode_raw_field "recipe_data" l None)) vis).

Record updateBody := mkUpdateBody { ubDisplayName : string; ubDescription : string; ubVisibility : string; ubRecipeData : string }.

Definition decode_update (body : string) : option updateBody :=
  l ← struct_fields body;
  name ← decode_string_field "display_name" l ""; desc ← decode_string_field "description" l "";
  vis ← decode_string_field "visibility" l "";
  Some (mkUpdateBody name desc vis (raw_text (decode_raw_field "recipe_data" l None))).

Section Api.
Context (parses : string → bool) (now : Z) (uuid : string).

(** Run a service call and answer its error. *)
Definition service {A} (m : Svc A) (onerr : SvcErr → Handler) (k : A → Handler) : Handler := λ d,
  match m d with
  | (inr a, d') => k a d'
  | (inl e, d') => onerr e d'
  end.

(** The body of a write, read and decoded, and the gate on its visibility. *)
Definition with_body {A} (r : Req) (user : User) (key : option APIKey) (dec : string → option A) (vis : A → string) (k : A → Handler) : Handler :=
  match read_body recipesBodyLimit r with
  | RTooLarge => fail 413 "body exceeds 64 KiB limit"
  | RFailed => fail 400 "body unreadable"
  | RBytes body =>
      match dec body with
      | None => fail 400 "invalid JSON"
      | Some i =>
          if (TrimSpace (vis i) !=? "") && negb (hasCapability (Some user) key "recipes:admin")
          then fail 403 "setting visibility requires the recipes:admin capability"
          else k i
      end
  end.

Definition create (r : Req) (user : User) (key : option APIKey) (uploaderID : string) : Handler :=
  with_body r user key decode_create cbVisibility (λ i,
    service (Create parses uuid now (mkCreate (cbSlug i) (cbDisplayName i) (cbDescription i) (cbRecipeType i)
               (cbRecipeData i) (cbVisibility i) uploaderID))
      (λ e, match e with
            | EInvalid m => fail 400 m
            | ESlugConflict => fail 409 "slug already exists"
            | _ => fail 500 "internal error"
            end)
      (λ res, db_ret (RCreated res))).

Definition update_ (r : Req) (user : User) (key : option APIKey) (recipe : SetupRecipe) : Handler :=
  with_body r user key decode_update ubVisibility (λ i,
    service (Update parses now (rcID recipe) (mkUpdateInput (ubDisplayName i) (ubDescription i) (ubVisibility i) (ubRecipeData i)))
      (λ e, match e with
            | EInvalid m => fail 400 m
            | ENotFound => fail 404 "recipe not found"
            | _ => fail 500 "internal error"
            end)
      (λ res, db_ret (RUpdated res))).

Definition delete_ (r : Req) (user : User) (recipe : SetupRecipe) : Handler :=
  if QueryGet r "hard" =?s "true" then
    if negb (is_admin user) then fail 403 "hard delete requires admin access"
    else call (DeleteRecipe (rcID recipe)) (λ _, db_ret RNoContent)
  else call (YankRecipe now (rcID recipe)) (λ _, db_ret RYanked).

Definition list_for_user (user : User) : DBM State (list SetupRecipe) :=
  if is_admin user then ListRecipes else AssignedForUser (uID user).

Definition HandleRecipes (user : option User) (key : option APIKey) (r : Req) : Handler :=
  match user with
  | None => fail 401 "unauthenticated"
  | Some user =>
      if rMethod r =?s "GET" then call (list_for_user user) (λ l, db_ret (RRecipes l))
      else if rMethod r =?s "POST" then requireCapability user key "recipes:publish" (create r user key (uID user))
      else fail 405 "method not allowed"
  end.

Definition HandleAssigned (user : option User) (r : Req) : Handler :=
  match user with
  | None => fail 401 "unauthenticated"
  | Some user =>
      if rMethod r !=? "GET" then fail 405 "method not allowed"
      else call (AssignedForUser (uID user)) (λ l, db_ret (RAssigned l))
  end.

(** A failed lookup denies. *)
Definition userCanRead (user : User) (recipe : SetupRecipe) : DBM State bool :=
  if bool_decide (is_Some (rcYankedAt recipe)) then db_ret false
  else if rcVisibility recipe =?s "public" then db_ret true
  else let! r := attempt (ListAssignmentsForRecipe (rcID recipe)) in
       db_ret (match r with Ok l => existsb (λ a, gUserID a =?s uID user) l | Err _ => false end).

Definition listAssignments (recipe : SetupRecipe) : Handler :=
  call (ListAssignmentsForRecipe (rcID recipe)) (λ l, db_ret (RGrants l)).

Definition assignRecipe (r : Req) (recipe : SetupRecipe) (adminID : string) : Handler :=
  match read_body 4096 r with
  | RBytes body =>
      match decode_assign body with
      | None => fail 400 "invalid JSON"
      | Some (username, _) =>
          if TrimSpace username =?s "" then fail 400 "username is required"
          else call (on_accounts (GetByUsername username)) (λ target,
            match target with
            | None => fail 404 "user not found"
            | Some u => call (AssignRecipe now (mkGrant (rcID recipe) (uID u) (nullable adminID) 0)) (λ a, db_ret (RGrant a))
            end)
      end
  | _ => fail 400 "body unreadable"
  end.

Definition unassignRecipe (recipe : SetupRecipe) (username : string) : Handler :=
  call (on_accounts (GetByUsername username)) (λ target,
    match target with
    | None => fail 404 "user not found"
    | Some u => call (UnassignRecipe (rcID recipe) (uID u)) (λ _, db_ret RNoContent)
    end).

(** The routes of a recipe that exists and that a GET may read. *)
Definition route (user : User) (key : option APIKey) (r : Req) (recipe : SetupRecipe) (parts : list string) : Handler :=
  let m := rMethod r in
  match parts with
  | [_] =>
      if m =?s "GET" then db_ret (RRecipe recipe)
      else if m =?s "PATCH" then requireCapability user key "recipes:publish" (update_ r user key recipe)
      else if m =?s "DELETE" then requireCapability user key "recipes:yank" (delete_ r user recipe)
      else fail 405 "method not allowed"
  | [_; sub] =>
      if sub !=? "assignments" then fail 404 "unknown subresource"
      else admin_only user (if m =?s "GET" then listAssignments recipe
                            else if m =?s "POST" then assignRecipe r recipe (uID user)
                            else fail 405 "method not allowed")
  | [_; sub; username] =>
      if sub !=? "assignments" then fail 404 "unknown subresource"
      else admin_only user (if username =?s "" then fail 400 "missing username"
                            else if m !=? "DELETE" then fail 405 "method not allowed"
                            else unassignRecipe recipe username)
  | _ => fail 404 "unknown subresource"
  end.

Definition path_parts (r : Req) : list string := Split (TrimPrefix (rPath r) "/api/recipes/") "/"%char.

Definition HandleRecipeByPath (user : option User) (key : option APIKey) (r : Req) : Handler :=
  match user with
  | None => fail 401 "unauthenticated"
  | Some user =>
      let parts := path_parts r in
      let slug := hd "" parts in
      if slug =?s "" then fail 404 "missing slug"
      else call (GetRecipeBySlug slug) (λ found,
        match found with
        | None => fail 404 "recipe not found"
        | Some recipe =>
            if (rMethod r =?s "GET") && (length parts =? 1)%nat && negb (is_admin user) then
              let! ok := userCanRead user recipe in
              if (ok : bool) then route user key r recipe parts else fail 404 "recipe not found"
            else route user key r recipe parts
        end)
  end.
End Api.

(** ** Rules for handlers *)

Lemma preserves_call {A} (P : State → Prop) (m : DBM State A) (k : A → Handler) :
  preserves P m → (∀ a, preserves P (k a)) → preserves P (call m k).
Proof.
  intros Hm Hk. apply preserves_bind; [by apply preserves_attempt|]. intros [a|e]; [apply Hk|apply preserves_ret].
Qed.

Lemma preserves_answer (P : State → Prop) code msg : preserves P (fail code msg).
Proof. apply preserves_ret. Qed.

Lemma preserves_service {A} (P : State → Prop) (m : Svc A) onerr (k : A → Handler) :
  svc_preserves P m → (∀ e, preserves P (onerr e)) → (∀ a, preserves P (k a)) → preserves P (service m onerr k).
Proof.
  intros Hm He Hk d Hd. specialize (Hm d Hd). unfold service. destruct (m d) as [[e|a] d']; [by apply He|by apply Hk].
Qed.

Lemma preserves_on_accounts {A} (P : State → Prop) (f : Users.State → A) :
  preserves P (on_accounts (query f)).
Proof.
  apply preserves_lift. intros d s E Hs. rewrite query_tables, E. by destruct s.
Qed.

Lemma preserves_with_body {A} (P : State → Prop) r user key dec vis (k : A → Handler) :
  (∀ i, TrimSpace (vis i) = "" ∨ hasCapability (Some user) key "recipes:admin" = true → preserves P (k i)) →
  preserves P (with_body r user key dec vis k).
Proof.
  intros Hk. unfold with_body. destruct (read_body _ r); [|apply preserves_ret..]. destruct (dec b) as [i|]; [|apply preserves_ret].
  destruct (TrimSpace (vis i) =?s "") eqn:Ev; cbn [negb andb].
  - bool_prop. apply Hk. by left.
  - destruct (hasCapability _ _ _) eqn:Eh; cbn [negb]; [apply Hk; by right|apply preserves_ret].
Qed.

Lemma userCanRead_preserves (P : State → Prop) user recipe : preserves P (userCanRead user recipe).
Proof.
  unfold userCanRead. repeat (case_if; [apply preserves_ret|]). apply preserves_bind; [|intros; apply preserves_ret].
  apply preserves_attempt, preserves_query.
Qed.

(** ** What every request keeps *)

Section Invariants.
Context (parses : string → bool) (now : Z) (uuid : string).

(** The tables are well-formed and every recipe holds canonical data. *)
Definition sound (s : State) : Prop := Recipes.wf s ∧ data_canonical parses s.

Lemma preserves_and {T A} (P Q : T → Prop) (m : DBM T A) : preserves P m → preserves Q m → preserves (λ t, P t ∧ Q t) m.
Proof. intros HP HQ d [H1 H2]. split; [by apply HP|by apply HQ]. Qed.

Lemma Create_sound i : svc_preserves sound (Create parses uuid now i).
Proof.
  intros d [Hwf Hd]. split; [|by apply Create_canonical]. unfold Create. destruct (ValidateSlug _); [|done].
  destruct (ValidateRecipeData _ _ _); [done|]. cbv zeta. match goal with |- context [CreateRecipe uuid now ?r d] =>
    pose proof (CreateRecipe_wf uuid now r d Hwf) as H; by destruct (CreateRecipe uuid now r d) as [[q|e] d1] end.
Qed.

Lemma update_recipe_wf (f : SetupRecipe → SetupRecipe) id s :
  (∀ r, rcID (f r) = rcID r ∧ rcSlug (f r) = rcSlug r ∧ rcType (f r) = rcType r ∧ rcCreatedBy (f r) = rcCreatedBy r ∧
        rcVisibility (f r) = rcVisibility r ∧ rcData (f r) = rcData r) →
  sound s → sound (update_recipe id f s).
Proof.
  intros Hf [Hwf Hd]. split.
  - apply wf_update_recipe; [|done]. intros r. destruct (Hf r) as (-> & -> & -> & -> & -> & ->). by split_and!.
  - apply data_canonical_alter; [|done]. intros q _. left. by destruct (Hf q) as (_ & _ & _ & _ & _ & ->).
Qed.

Lemma UpdateRecipe_wf id n d0 v data : preserves Recipes.wf (UpdateRecipe now id n d0 v data).
Proof.
  unfold UpdateRecipe. case_if; [apply preserves_fail|]. apply preserves_update. intros s. apply wf_update_recipe.
  intros r. cbn. split_and!; try done; [|intros _; case_if; bool_prop; done].
  intros ?. destruct (v =?s ""); [done|]. by destruct (valid_visibility v).
Qed.

Lemma Update_sound id i : svc_preserves sound (Update parses now id i).
Proof.
  intros d [Hwf Hd]. split; [|by apply Update_canonical]. revert d Hwf Hd. intros d Hwf _.
  unfold Update, svc_bind, svc_run, svc_of. pose proof (preserves_query Recipes.wf (λ s, recipes s !! id) d Hwf) as H1.
  unfold GetRecipe. destruct (query _ d) as [[[cur|]|e] d1]; try exact H1.
  destruct (if uiRecipeData i !=? "" then _ else _) as [e|data]; [exact H1|].
  pose proof (UpdateRecipe_wf id (uiDisplayName i) (uiDescription i) (uiVisibility i) data d1 H1) as H2.
  destruct (UpdateRecipe _ _ _ _ _ _ d1) as [[a|e] d2]; [|exact H2]. cbn in H2.
  pose proof (preserves_query Recipes.wf (λ s, recipes s !! id) d2 H2) as H3. by destruct (query _ d2) as [[r|e] d3].
Qed.

Lemma delete_recipe_sound id s : sound s → sound (delete_recipe id s).
Proof. intros [Hwf Hd]. split; [by apply wf_delete_recipe|]. by apply map_Forall_delete. Qed.

Lemma grants_sound m s : map_Forall (grant_ok s) m → sound s → sound (with_grants s m).
Proof. intros Hm [Hwf Hd]. split; [by apply wf_with_grants|done]. Qed.

Lemma AssignRecipe_sound a : preserves sound (AssignRecipe now a).
Proof.
  unfold AssignRecipe. case_if; [apply preserves_fail|]. apply preserves_exec. intros s r s' [Hwf Hd]. cbv beta. case_if; intros [= _ <-].
  bool_prop. destruct_and?. bool_prop. apply grants_sound; [|done]. apply map_Forall_insert_2; [by split_and!|by apply wf_grants].
Qed.

Lemma route_sound user key r recipe parts : preserves sound (route parses now user key r recipe parts).
Proof.
  assert (Hu : preserves sound (update_ parses now r user key recipe)).
  { apply preserves_with_body. intros i _. apply preserves_service; [apply Update_sound| |intros; apply preserves_ret].
    intros []; apply preserves_ret. }
  assert (Hd : preserves sound (delete_ now r user recipe)).
  { unfold delete_. repeat case_if; [apply preserves_ret|..]; (apply preserves_call; [|intros; apply preserves_ret]).
    - apply preserves_update. intros s. apply delete_recipe_sound.
    - apply preserves_update. intros s. by apply update_recipe_wf. }
  assert (Ha : preserves sound (assignRecipe now r recipe (uID user))).
  { unfold assignRecipe. destruct (read_body _ r); [|apply preserves_ret..]. destruct (decode_assign b) as [[username v]|]; [|apply preserves_ret].
    case_if; [apply preserves_ret|]. apply preserves_call; [apply preserves_on_accounts|]. intros [u|]; [|apply preserves_ret].
    apply preserves_call; [apply AssignRecipe_sound|intros; apply preserves_ret]. }
  assert (Hn : ∀ username, preserves sound (unassignRecipe recipe username)).
  { intros username. apply preserves_call; [apply preserves_on_accounts|]. intros [u|]; [|apply preserves_ret].
    apply preserves_call; [|intros; apply preserves_ret]. apply preserves_update. intros s Hs. apply grants_sound; [|done].
    apply map_Forall_delete, wf_grants, Hs. }
  unfold route, requireCapability, admin_only, listAssignments. cbv zeta.
  repeat case_match; auto using preserves_ret, preserves_answer.
  apply preserves_call; [apply preserves_query|intros; apply preserves_ret].
Qed.

Lemma by_path_sound user key r : preserves sound (HandleRecipeByPath parses now user key r).
Proof.
  unfold HandleRecipeByPath. destruct user as [user|]; [|apply preserves_ret]. cbv zeta. case_if; [apply preserves_ret|].
  apply preserves_call; [apply preserves_query|]. intros [recipe|]; [|apply preserves_ret]. case_if; [|apply route_sound].
  apply preserves_bind; [apply userCanRead_preserves|]. intros []; [apply route_sound|apply preserves_ret].
Qed.

Lemma recipes_sound user key r : preserves sound (HandleRecipes parses now uuid user key r).
Proof.
  unfold HandleRecipes, requireCapability, list_for_user. destruct user as [user|]; [|apply preserves_ret]. repeat case_if; try apply preserves_ret.
  - apply preserves_call; [apply preserves_query|intros; apply preserves_ret].
  - apply preserves_call; [apply preserves_query|intros; apply preserves_ret].
  - apply preserves_with_body. intros i _. apply preserves_service; [apply Create_sound| |intros; apply preserves_ret]. intros []; apply preserves_ret.
Qed.
End Invariants.

(** ** Who chooses a recipe's audience *)

(** No recipe disappears, none changes its visibility, new ones are restricted, and nobody
    is granted or refused a recipe. *)
Definition recipe_audience (s s' : State) : Prop :=
  grants s' = grants s ∧
  ∀ id, match recipes s !! id with
        | Some r => ∃ r', recipes s' !! id = Some r' ∧ rcVisibility r' = rcVisibility r
        | None => ∀ r', recipes s' !! id = Some r' → rcVisibility r' = "restricted"
        end.

Lemma recipe_audience_refl s : recipe_audience s s.
Proof. split; [done|]. intros id. destruct (recipes s !! id); naive_solver. Qed.

Lemma recipe_audience_trans s1 s2 s3 : recipe_audience s1 s2 → recipe_audience s2 s3 → recipe_audience s1 s3.
Proof.
  intros [E1 H1] [E2 H2]. split; [congruence|]. intros id. specialize (H1 id). specialize (H2 id).
  destruct (recipes s1 !! id) as [k1|].
  - destruct H1 as (k2 & Hk2 & ?). rewrite Hk2 in H2. destruct H2 as (k3 & ? & ?). exists k3. split; [done|congruence].
  - destruct (recipes s2 !! id) as [k2|]; [|done]. destruct H2 as (k3 & Hk3 & E). intros k' Hk'. rewrite Hk3 in Hk'. simplify_eq. rewrite E. by apply H1.
Qed.

(** The audience is that of [s0]: an invariant in the sense of [preserves]. *)
Definition as_in (s0 : State) (s : State) : Prop := recipe_audience s0 s.

Lemma keeps_step {A} s0 (f : State → result (A * State)) :
  (∀ t a t', f t = Ok (a, t') → recipe_audience t t') → preserves (as_in s0) (exec f).
Proof. intros Hf. apply preserves_exec. intros t a t' Ht E. eapply recipe_audience_trans; eauto. Qed.

Lemma audience_update_recipe id f s : (∀ r, rcVisibility (f r) = rcVisibility r) → recipe_audience s (update_recipe id f s).
Proof.
  intros Hf. split; [done|]. intros j. cbn. rewrite lookup_alter. case_decide; [subst|].
  - destruct (recipes s !! j) as [k|]; cbn; [eauto|done].
  - destruct (recipes s !! j) as [k|]; [eauto|done].
Qed.

Lemma blank_visibility v : TrimSpace v = "" → v = "" ∨ (v =?s "") = false ∧ valid_visibility v = false.
Proof.
  intros E. destruct (v =?s "") eqn:E0; [left; by apply String.eqb_eq|]. destruct (valid_visibility v) eqn:Ev; [|by right]. unfold valid_visibility in Ev. bool_prop.
  destruct Ev; bool_prop; subst; done.
Qed.

Section Audience.
Context (parses : string → bool) (now : Z) (uuid : string) (user : User) (key : option APIKey).
Hypothesis publisher : hasCapability (Some user) key "recipes:admin" = false.

Lemma publisher_not_admin : is_admin user = false.
Proof. clear parses now uuid. revert publisher. unfold hasCapability, is_admin. by destruct (uRole user =?s "admin"). Qed.

Lemma UpdateRecipe_audience s0 id n d v data :
  TrimSpace v = "" → preserves (as_in s0) (UpdateRecipe now id n d v data).
Proof.
  intros Hv. unfold UpdateRecipe. destruct (blank_visibility v Hv) as [->|[E0 Hb]].
  - cbn [String.eqb negb andb]. apply keeps_step. intros t a t' [= _ <-]. by apply audience_update_recipe.
  - rewrite E0, Hb. apply preserves_fail.
Qed.

Lemma Update_audience s0 id i : TrimSpace (uiVisibility i) = "" → svc_preserves (as_in s0) (Update parses now id i).
Proof.
  intros Hv d Hd. unfold Update, svc_bind, svc_run, svc_of, GetRecipe.
  pose proof (preserves_query (as_in s0) (λ s, recipes s !! id) d Hd) as H1. destruct (query _ d) as [[[cur|]|e] d1]; try exact H1.
  destruct (if uiRecipeData i !=? "" then _ else _) as [e|data]; [exact H1|].
  pose proof (UpdateRecipe_audience s0 id (uiDisplayName i) (uiDescription i) _ data Hv d1 H1) as H2.
  destruct (UpdateRecipe _ _ _ _ _ _ d1) as [[a|e] d2]; [|exact H2]. cbn in H2.
  pose proof (preserves_query (as_in s0) (λ s, recipes s !! id) d2 H2) as H3. by destruct (query _ d2) as [[r|e] d3].
Qed.

Lemma CreateRecipe_audience s0 r : TrimSpace (rcVisibility r) = "" → preserves (as_in s0) (CreateRecipe uuid now r).
Proof.
  intros Hv. unfold CreateRecipe. destruct (ValidateSlug _); [|apply preserves_fail]. cbv zeta.
  generalize (if rcID r =?s "" then uuid else rcID r) as id. intros id.
  destruct (blank_visibility _ Hv) as [->|[E0 Hb]].
  - change (if "" =?s "" then "restricted" else "") with "restricted". change (negb (valid_visibility "restricted")) with false. cbv iota. case_if; [apply preserves_fail|].
    generalize (if rcData r =?s "" then "{}" else rcData r) as data. intros data.
    apply keeps_step. intros t out t'. cbv beta. repeat case_if; intros [= _ <-]. bool_prop.
    split; [done|]. intros j. cbn. rewrite lookup_insert. case_decide; [subst|destruct (recipes t !! j); naive_solver].
    destruct (recipes t !! j) eqn:E; [by exfalso; eauto|]. by intros k' [= <-].
  - rewrite E0, Hb. apply preserves_fail.
Qed.

Lemma Create_audience s0 i : TrimSpace (ciVisibility i) = "" → svc_preserves (as_in s0) (Create parses uuid now i).
Proof.
  intros Hv d Hd. unfold Create. destruct (ValidateSlug _); [|done]. destruct (ValidateRecipeData _ _ _); [done|]. cbv zeta.
  match goal with |- context [CreateRecipe uuid now ?r d] =>
    pose proof (CreateRecipe_audience s0 r Hv d Hd) as H; by destruct (CreateRecipe uuid now r d) as [[q|e] d1] end.
Qed.

Lemma gate_open i : TrimSpace i = "" ∨ hasCapability (Some user) key "recipes:admin" = true → TrimSpace i = "".
Proof. intros [?|E]; [done|]. congruence. Qed.

Lemma route_audience s0 r recipe parts : preserves (as_in s0) (route parses now user key r recipe parts).
Proof.
  assert (Hu : preserves (as_in s0) (update_ parses now r user key recipe)).
  { apply preserves_with_body. intros i Hi%gate_open. apply preserves_service; [by apply Update_audience| |intros; apply preserves_ret].
    intros []; apply preserves_ret. }
  assert (Hd : preserves (as_in s0) (delete_ now r user recipe)).
  { unfold delete_. rewrite publisher_not_admin. case_if; [apply preserves_ret|]. apply preserves_call; [|intros; apply preserves_ret].
    apply keeps_step. intros t a t' [= _ <-]. by apply audience_update_recipe. }
  unfold route, requireCapability, admin_only. rewrite publisher_not_admin. cbv zeta.
  repeat case_match; auto using preserves_ret, preserves_answer.
Qed.

(** The two entry points of the API. *)
Definition recipes_api (r : Req) : Handler :=
  if rPath r =?s "/api/recipes" then HandleRecipes parses now uuid (Some user) key r
  else HandleRecipeByPath parses now (Some user) key r.

(** A caller who is not an administrator and whose key
    does not carry [recipes:admin] can publish, edit and yank recipes, but whatever the
    request and whichever statement fails, no recipe changes its visibility or disappears,
    no assignment is made or revoked, and a recipe that appears is restricted. *)
Theorem recipe_publisher_keeps_audience : ∀ r d,
  recipe_audience (tables d) (final (recipes_api r) d).
Proof.
  intros r d. assert (H : preserves (as_in (tables d)) (recipes_api r)); [|apply H, recipe_audience_refl].
  unfold recipes_api. case_if.
  - unfold HandleRecipes, requireCapability, list_for_user. repeat case_if; try apply preserves_answer.
    1,2: apply preserves_call; [apply preserves_query|intros; apply preserves_ret].
    apply preserves_with_body. intros i Hi%gate_open. apply preserves_service; [by apply Create_audience| |intros; apply preserves_ret].
    intros []; apply preserves_ret.
  - unfold HandleRecipeByPath. cbv zeta. case_if; [apply preserves_ret|]. apply preserves_call; [apply preserves_query|].
    intros [recipe|]; [|apply preserves_ret]. case_if; [|apply route_audience].
    apply preserves_bind; [apply userCanRead_preserves|]. intros []; [apply route_audience|apply preserves_ret].
Qed.
End Audience.

(** ** What a user may read *)

Lemma grants_exist s id uid : Recipes.wf s →
  existsb (λ a, gUserID a =?s uid) (omap (λ '(key, a), if key.1 =?s id then Some a else None) (map_to_list (grants s)))
  = bool_decide (is_Some (grants s !! (id, uid))).
Proof.
  intros Hwf. apply eq_true_iff_eq. rewrite existsb_exists, bool_decide_eq_true. setoid_rewrite <- list_elem_of_In.
  setoid_rewrite list_elem_of_omap. split.
  - intros (a & ([key a'] & Hin%elem_of_map_to_list & E) & Ha). destruct (key.1 =?s id) eqn:Ek; [|done]. bool_prop. simplify_eq.
    destruct (wf_grants _ Hwf _ _ Hin) as (-> & _). by exists a.
  - intros [a Ha]. exists a. destruct (wf_grants _ Hwf _ _ Ha) as (E & _). simplify_eq. split; [|by apply String.eqb_eq].
    exists ((gRecipeID a, gUserID a), a). split; [by apply elem_of_map_to_list|]. cbn. by rewrite String.eqb_refl.
Qed.

Lemma userCanRead_assigned user recipe s :
  Recipes.wf s → userCanRead user recipe (healthy s) = (Ok (recipe_assigned (uID user) s recipe), healthy s).
Proof.
  intros Hwf. unfold userCanRead, recipe_assigned. destruct (rcYankedAt recipe) as [y|].
  - by rewrite bool_decide_true, bool_decide_false by eauto.
  - rewrite bool_decide_false, bool_decide_true by (done || by intros [? [=]]). cbn [andb].
    destruct (rcVisibility recipe =?s "public"); [done|]. unfold db_bind, attempt, ListAssignmentsForRecipe, query.
    rewrite exec_healthy. cbn [orb]. by rewrite existsb_stable_sort, grants_exist.
Qed.

Lemma assigned_lists_recipe s uid recipe id : Recipes.wf s → recipes s !! id = Some recipe →
  existsb (λ q, rcID q =?s rcID recipe)
    (stable_sort recipe_leb (List.filter (recipe_assigned uid s) (map snd (map_to_list (recipes s)))))
  = recipe_assigned uid s recipe.
Proof.
  intros Hwf Hk. rewrite existsb_stable_sort. apply eq_true_iff_eq. rewrite existsb_exists. setoid_rewrite filter_In.
  setoid_rewrite <- list_elem_of_In. destruct (wf_recipes _ Hwf _ _ Hk) as (Hid & _). split.
  - intros (q & (Hin & Hq) & E). bool_prop. apply list_elem_of_fmap in Hin as ([id' q'] & -> & Hin%elem_of_map_to_list).
    destruct (wf_recipes _ Hwf _ _ Hin) as (Hid' & _). cbn in *. congruence.
  - intros Hq. exists recipe. rewrite String.eqb_refl. split_and!; try done. apply list_elem_of_fmap. exists (id, recipe).
    split; [done|]. by apply elem_of_map_to_list.
Qed.

(** on a healthy database a GET of a recipe is answered with it
    to a user who is not an administrator exactly when the recipe is in the list the
    assigned endpoint computes for that user; otherwise the answer and the state are those
    of a slug that does not exist. *)
Theorem recipe_get_follows_assigned : ∀ parses now user key r slug s,
  Recipes.wf s → is_admin user = false → rMethod r = "GET" → path_parts r = [slug] → slug ≠ "" →
  HandleRecipeByPath parses now (Some user) key r (healthy s) =
  match recipe_by_slug slug s, outcome (AssignedForUser (uID user)) (healthy s) with
  | Some recipe, Ok l => if existsb (λ q, rcID q =?s rcID recipe) l
                         then (Ok (RRecipe recipe), healthy s) else (Ok (RError 404 "recipe not found"), healthy s)
  | _, _ => (Ok (RError 404 "recipe not found"), healthy s)
  end.
Proof.
  intros parses now user key r slug s Hwf Ha Hm Hp Hs. unfold HandleRecipeByPath. rewrite Hp. cbn [hd length Nat.eqb].
  rewrite (proj2 (String.eqb_neq _ _) Hs), Hm, Ha. unfold call, db_bind, attempt, GetRecipeBySlug, query. rewrite exec_healthy.
  change (("GET" =?s "GET") && true && negb false) with true. cbv iota.
  unfold outcome, AssignedForUser, query. rewrite exec_healthy. cbn [fst].
  destruct (recipe_by_slug slug s) as [recipe|] eqn:E; [|done]. destruct (recipe_by_slug_Some _ _ _ E) as (id & Hk & _).
  rewrite (assigned_lists_recipe s _ _ _ Hwf Hk), (userCanRead_assigned user recipe s Hwf).
  destruct (recipe_assigned _ _ _); [|done]. unfold route. by rewrite Hm.
Qed.

(** ** Two behaviours a caller would not expect *)

(** a PATCH that is carried out replaces the title and the
    description by those of the body whether the body has them or not: one that only
    changes the data or the visibility leaves the recipe with an empty title and an empty
    description. *)
Theorem recipe_patch_blanks_title : ∀ parses now id vis data s row s' d',
  recipes s !! id = Some row →
  Update parses now id (mkUpdateInput "" "" vis data) (healthy s) = (inr (Some s'), d') →
  rcDisplayName s' = "" ∧ rcDescription s' = "" ∧ recipes (tables d') !! id = Some s'.
Proof.
  intros parses now id vis data s row s' d' Hr. unfold Update, svc_bind, svc_run, svc_of, GetRecipe, query. rewrite exec_healthy, Hr.
  cbn [uiRecipeData uiDisplayName uiDescription uiVisibility]. destruct (if data !=? "" then _ else _) as [e|out]; [done|].
  unfold UpdateRecipe. case_if; [done|]. unfold update. rewrite exec_healthy. rewrite exec_healthy.
  set (f := set_recipe_meta _ _ _ _ _). assert (E : recipes (update_recipe id f s) !! id = Some (f row)).
  { cbn. by rewrite lookup_alter_eq, Hr. }
  rewrite E. intros [= <- <-]. by split_and!.
Qed.

Definition recipe_admin : User := mkUser "u" "bob" "" "admin" "admin" None false 1 None "".
Definition recipe_reader : User := mkUser "v" "eve" "" "user" "read" None false 1 None "".
Definition recipe_request (method path body : string) : Req := mkReq method path ∅ ∅ body false.

Definition shown_recipe (vis : string) (now : Z) : SetupRecipe :=
  mkRecipe "r1" "lint" "" "" RecipeTypeClaudePlugin "{}" vis None (Some "u") 0 now.

Lemma recipe_patch_blanks_title_witness :
  rcDisplayName (shown_recipe "public" 5) = "" ∧ rcDescription (shown_recipe "public" 5) = "" ∧
  recipes (tables (Update (λ _, true) 5 "r1" (mkUpdateInput "" "" "public" "") (healthy demo_recipes)).2) !! "r1"
  = Some (shown_recipe "public" 5).
Proof.
  eapply (recipe_patch_blanks_title (λ _, true) 5 "r1" "public" "" demo_recipes demo_recipe); reflexivity.
Defined.

(** a user without any capability is told 404 about a
    restricted recipe when reading it, as about a slug nobody uses, but a PATCH, a DELETE
    or a look at the assignments is answered 403 for the one and 404 for the other. *)
Theorem recipe_existence_disclosed : ∀ parses now user slug recipe s,
  Recipes.wf s → hasCapability (Some user) None "recipes:publish" = false →
  recipe_by_slug slug s = Some recipe → recipe_assigned (uID user) s recipe = false → slug ≠ "" →
  let ask m := outcome (HandleRecipeByPath parses now (Some user) None (recipe_request m ("/api/recipes/" +:+ slug) "")) in
  Split slug "/"%char = [slug] →
  ask "GET" (healthy s) = Ok (RError 404 "recipe not found") ∧
  (∀ m, m ∈ ["PATCH"; "DELETE"] → ∃ msg, ask m (healthy s) = Ok (RError 403 msg)) ∧
  (∀ m s', recipe_by_slug slug s' = None → ask m (healthy s') = Ok (RError 404 "recipe not found")).
Proof.
  intros parses now user slug recipe s Hwf Hcap Hr Ha Hs ask Hsp.
  assert (Hadm : is_admin user = false) by (revert Hcap; unfold hasCapability, is_admin; by destruct (uRole user =?s "admin")).
  assert (Hp : ∀ m, path_parts (recipe_request m ("/api/recipes/" +:+ slug) "") = [slug]).
  { intros m. unfold path_parts. cbn [rPath recipe_request]. by rewrite TrimPrefix_app. }
  assert (Hrun : ∀ m t, ask m (healthy t) = outcome (match recipe_by_slug slug t with
     | None => fail 404 "recipe not found"
     | Some q => if (m =?s "GET") then let! ok := userCanRead user q in
           (if ok : bool then route parses now user None (recipe_request m ("/api/recipes/" +:+ slug) "") q [slug] else fail 404 "recipe not found")
         else route parses now user None (recipe_request m ("/api/recipes/" +:+ slug) "") q [slug] end) (healthy t)).
  { intros m t. unfold ask, outcome, HandleRecipeByPath. rewrite Hp. cbn [hd length Nat.eqb]. rewrite (proj2 (String.eqb_neq _ _) Hs), Hadm.
    unfold call, db_bind at 1, attempt, GetRecipeBySlug, query. rewrite exec_healthy. cbn [rMethod recipe_request].
    destruct (recipe_by_slug slug t); [|done]. by destruct (m =?s "GET"). }
  split_and!.
  - rewrite Hrun, Hr. change ("GET" =?s "GET") with true. cbv iota. unfold outcome, db_bind. cbv beta.
    by rewrite (userCanRead_assigned user recipe s Hwf), Ha.
  - intros m Hm. rewrite Hrun, Hr. assert (m =?s "GET" = false) as -> by (set_unfold in Hm; by destruct Hm as [->|[->|[]]]).
    unfold route, requireCapability. cbn [rMethod recipe_request]. rewrite Hcap.
    assert (Hy : hasCapability (Some user) None "recipes:yank" = false).
    { revert Hcap. unfold hasCapability. by destruct (uRole user =?s "admin"). }
    rewrite Hy. set_unfold in Hm. destruct Hm as [->|[->|[]]]; eexists; reflexivity.
  - intros m s' Hn. by rewrite Hrun, Hn.
Qed.

Lemma recipe_existence_disclosed_witness :
  let ask m := outcome (HandleRecipeByPath (λ _, true) 5 (Some recipe_reader) None (recipe_request m "/api/recipes/lint" "")) in
  ask "GET" (healthy demo_recipes) = Ok (RError 404 "recipe not found") ∧
  (∀ m, m ∈ ["PATCH"; "DELETE"] → ∃ msg, ask m (healthy demo_recipes) = Ok (RError 403 msg)) ∧
  (∀ m s', recipe_by_slug "lint" s' = None → ask m (healthy s') = Ok (RError 404 "recipe not found")).
Proof.
  apply (recipe_existence_disclosed (λ _, true) 5 recipe_reader "lint" demo_recipe demo_recipes demo_recipes_wf); reflexivity || discriminate.
Defined.

Lemma recipe_publisher_keeps_audience_witness :
  recipe_audience demo_recipes (final (recipes_api (λ _, true) 5 "r2" recipe_reader None
    (recipe_request "PATCH" "/api/recipes/lint" "{}")) (healthy demo_recipes)).
Proof. apply (recipe_publisher_keeps_audience (λ _, true) 5 "r2" recipe_reader None). reflexivity. Defined.

Lemma recipe_get_follows_assigned_witness :
  HandleRecipeByPath (λ _, true) 5 (Some recipe_reader) None (recipe_request "GET" "/api/recipes/lint" "") (healthy demo_recipes)
  = (Ok (RError 404 "recipe not found"), healthy demo_recipes).
Proof.
  rewrite (recipe_get_follows_assigned (λ _, true) 5 recipe_reader None (recipe_request "GET" "/api/recipes/lint" "") "lint" demo_recipes demo_recipes_wf);
    reflexivity || discriminate.
Defined.
