(* ===== verification/RecipeSync.v ===== *)
(** * Installing recipes on a client

    [src/internal/cli/sync/recipes.go]: [arc-sync] runs the recipes the relay assigns to
    its user through the [claude] command line.  The command line is a parameter: a state
    and what a run does to it; the model records the argument lists in order. *)
From S2P Require Import Prelude GoStrings Json JsonDecode AccessTiers Profiles Users Servers Skills SkillService SkillsApi Recipes RecipeService RecipesApi.

(** The [ClaudeRunner] interface. *)
Class ClaudeRunner (W : Type) := { Run : list string → W → result string * W }.

(** A recipe as the relay's answer carries it. *)
Record Recipe := mkClientRecipe { cSlug : string; cRecipeType : string; cRecipeData : string }.

Record RecipeSyncAction := mkAction { raSlug : string; raPlugin : string; raMarketplace : string }.

Record RecipeSyncReport := mkReport {
  Installed : list RecipeSyncAction; Unchanged : list RecipeSyncAction; Errors : list (string * string) }.

Section Manager.
Context {W : Type} `{ClaudeRunner W}.

(** The machine of the user, and the commands run on it so far. *)
Record Machine := mkMachine { cli : W; calls : list (list string) }.

Definition CM (A : Type) : Type := Machine → result A * Machine.

Definition run (args : list string) : CM string := λ w,
  let '(r, c) := Run args (cli w) in (r, mkMachine c (calls w ++ [args])).

Definition cm_ret {A} (a : A) : CM A := λ w, (Ok a, w).
Definition cm_fail {A} (e : string) : CM A := λ w, (Err e, w).
Definition cm_bind {A B} (m : CM A) (k : A → CM B) : CM B := λ w,
  match m w with (Ok a, w') => k a w' | (Err e, w') => (Err e, w') end.

(** One row of [claude plugin list --json]. *)
Definition decode_entry (l : list (string * json)) : option (string * bool) :=
  id ← decode_string_field "id" l ""; on ← decode_bool_field "enabled" l false; Some (id, on).

(** The map by id: a later row replaces an earlier one. *)
Definition index_plugins (l : list (string * bool)) : gmap string bool :=
  foldl (λ m e, <[e.1 := e.2]> m) ∅ l.

Definition ListInstalledPlugins : CM (gmap string bool) :=
  cm_bind (run ["plugin"; "list"; "--json"]) (λ out,
    match Unmarshal out with
    | None => cm_fail "parse plugin list"
    | Some v => match decode_struct_list decode_entry (Some v) with
                | None => cm_fail "parse plugin list"
                | Some l => cm_ret (index_plugins l)
                end
    end).

Definition add_args (src : string) (paths : list string) : list string :=
  ["plugin"; "marketplace"; "add"; src; "--scope"; "user"] ++ concat (map (λ p, ["--sparse"; p]) paths).

Definition install_args (plugin : string) : list string := ["plugin"; "install"; plugin; "--scope"; "user"].

(** Disable a plugin that is listed as enabled; a failed listing is dropped. *)
Definition disable_if_listed (plugin : string) : CM unit := λ w,
  match ListInstalledPlugins w with
  | (Ok installed, w') =>
      match installed !! plugin with
      | Some true => cm_bind (run ["plugin"; "disable"; plugin]) (λ _, cm_ret tt) w'
      | _ => (Ok tt, w')
      end
  | (Err _, w') => (Ok tt, w')
  end.

(** [client_data] is the decoding of [relay.ClaudePluginRecipeData]: a missing [enabled] is
    false here. *)
Definition client_data (data : string) : option ClaudePluginRecipe := decode_plugin false data.

Definition Install (r : Recipe) : CM unit :=
  if cRecipeType r !=? "claude_plugin" then cm_fail ("unsupported recipe_type " +:+ cRecipeType r)
  else match client_data (cRecipeData r) with
  | None => cm_fail "parse recipe_data"
  | Some data =>
      if (MarketplaceSource data =?s "") || (Plugin data =?s "") then cm_fail "recipe_data missing marketplace_source or plugin"
      else
        cm_bind (run (add_args (MarketplaceSource data) (SparsePaths data))) (λ _,
        cm_bind (run (install_args (Plugin data))) (λ _,
        if Enabled data then cm_ret tt else disable_if_listed (Plugin data)))
  end.

Definition Uninstall (r : Recipe) : CM unit :=
  match client_data (cRecipeData r) with
  | None => cm_fail "parse recipe_data"
  | Some data =>
      if Plugin data =?s "" then cm_fail "recipe_data missing plugin"
      else cm_bind (run ["plugin"; "uninstall"; Plugin data]) (λ _, cm_ret tt)
  end.

Definition add_installed (a : RecipeSyncAction) (rep : RecipeSyncReport) : RecipeSyncReport :=
  mkReport (Installed rep ++ [a]) (Unchanged rep) (Errors rep).
Definition add_unchanged (a : RecipeSyncAction) (rep : RecipeSyncReport) : RecipeSyncReport :=
  mkReport (Installed rep) (Unchanged rep ++ [a]) (Errors rep).
Definition add_error (slug msg : string) (rep : RecipeSyncReport) : RecipeSyncReport :=
  mkReport (Installed rep) (Unchanged rep) (Errors rep ++ [(slug, msg)]).

(** One assigned recipe; a row without a recipe is skipped. *)
Definition sync_one (dryRun : bool) (installed : option (gmap string bool)) (a : option Recipe) (rep : RecipeSyncReport) :
    Machine → RecipeSyncReport * Machine := λ w,
  match a with
  | None => (rep, w)
  | Some r =>
      match client_data (cRecipeData r) with
      | None => (add_error (cSlug r) "parse recipe_data" rep, w)
      | Some data =>
          let act := mkAction (cSlug r) (Plugin data) (MarketplaceSource data) in
          if from_option (λ m, bool_decide (is_Some (m !! Plugin data))) false installed then (add_unchanged act rep, w)
          else if dryRun then (add_installed act rep, w)
          else match Install r w with
               | (Err e, w') => (add_error (cSlug r) e rep, w')
               | (Ok _, w') => (add_installed act rep, w')
               end
      end
  end.

Fixpoint sync_all (dryRun : bool) (installed : option (gmap string bool)) (l : list (option Recipe)) (rep : RecipeSyncReport) (w : Machine) :
    RecipeSyncReport * Machine :=
  match l with
  | [] => (rep, w)
  | a :: r => let '(rep', w') := sync_one dryRun installed a rep w in sync_all dryRun installed r rep' w'
  end.

(** [assigned] is the answer of the relay. *)
Definition Sync (dryRun : bool) (assigned : result (list (option Recipe))) : CM RecipeSyncReport := λ w,
  match assigned with
  | Err e => (Err ("list assigned: " +:+ e), w)
  | Ok l =>
      let '(r, w1) := ListInstalledPlugins w in
      let installed := match r with Ok m => Some m | Err _ => None end in
      let '(rep, w2) := sync_all dryRun installed l (mkReport [] [] []) w1 in
      (Ok rep, w2)
  end.

(** ** The commands a machine is made to run *)

Definition no_dash (s : string) : Prop := HasPrefix s "-" = false ∧ s ≠ "".

(** The four commands of a run, with sources and plugins that satisfy [P]; a path only
    follows [--sparse]. *)
Inductive command (P : string → Prop) : list string → Prop :=
| command_list : command P ["plugin"; "list"; "--json"]
| command_add src paths : P src → command P (add_args src paths)
| command_install plugin : P plugin → command P (install_args plugin)
| command_disable plugin : P plugin → command P ["plugin"; "disable"; plugin].

(** A command whose recipe-supplied arguments cannot be taken for an option. *)
Definition tame : list string → Prop := command no_dash.

Context (P : string → Prop).

Definition good_data (data : string) : Prop :=
  ∀ r, client_data data = Some r → MarketplaceSource r ≠ "" → Plugin r ≠ "" → P (MarketplaceSource r) ∧ P (Plugin r).

(** Only such commands are added. *)
Definition tamely {A} (m : Machine → A * Machine) : Prop := ∀ w, ∃ more, calls (m w).2 = calls w ++ more ∧ Forall (command P) more.

Lemma tamely_ret {A} (a : A) : tamely (λ w, (a, w)).
Proof. intros w. exists []. by rewrite app_nil_r. Qed.

Lemma tamely_run args : command P args → tamely (run args).
Proof. intros Ha w. unfold run. destruct (Run args (cli w)). exists [args]. cbn. by repeat constructor. Qed.

Lemma tamely_bind {A B} (m : CM A) (k : A → CM B) : tamely m → (∀ a, tamely (k a)) → tamely (cm_bind m k).
Proof.
  intros Hm Hk w. destruct (Hm w) as (l & E & Hl). unfold cm_bind. destruct (m w) as [[a|e] w'] eqn:Em; [|eauto].
  destruct (Hk a w') as (l' & E' & Hl'). exists (l ++ l'). cbn in E. rewrite E', E, app_assoc. split; [done|]. by apply Forall_app.
Qed.

Lemma tamely_list : tamely ListInstalledPlugins.
Proof.
  apply tamely_bind; [apply tamely_run, command_list|]. intros out. destruct (Unmarshal out) as [v|]; [|apply tamely_ret].
  destruct (decode_struct_list _ _); apply tamely_ret.
Qed.

Lemma tamely_disable plugin : P plugin → tamely (disable_if_listed plugin).
Proof.
  intros Hp w. unfold disable_if_listed. destruct (tamely_list w) as (l & E & Hl). destruct (ListInstalledPlugins w) as [[m|e] w'] eqn:El; [|eauto].
  destruct (m !! plugin) as [[]|]; eauto. cbn in E.
  destruct (tamely_bind (run ["plugin"; "disable"; plugin]) (λ _, cm_ret tt) (tamely_run _ (command_disable P _ Hp)) (λ _, tamely_ret _) w') as (l' & E' & Hl').
  exists (l ++ l'). rewrite E', E, app_assoc. split; [done|]. by apply Forall_app.
Qed.

Lemma Install_commands r : good_data (cRecipeData r) → tamely (Install r).
Proof.
  intros Hg. unfold Install. case_if; [apply tamely_ret|]. destruct (client_data _) as [data|] eqn:Ed; [|apply tamely_ret].
  case_if; [apply tamely_ret|]. bool_prop. destruct (Hg _ Ed) as [Hs Hp]; [done..|].
  apply tamely_bind; [by apply tamely_run, command_add|]. intros _. apply tamely_bind; [by apply tamely_run, command_install|]. intros _.
  case_if; [apply tamely_ret|by apply tamely_disable].
Qed.

Lemma sync_one_commands dry inst a rep : (∀ r, a = Some r → good_data (cRecipeData r)) → tamely (sync_one dry inst a rep).
Proof.
  intros Hg w. unfold sync_one. destruct a as [r|]; [|apply tamely_ret]. destruct (client_data _) as [data|]; [|by apply tamely_ret].
  cbv zeta. case_if; [apply tamely_ret|]. case_if; [apply tamely_ret|]. destruct (Install_commands r (Hg r eq_refl) w) as (l & E & Hl).
  exists l. by destruct (Install r w) as [[]].
Qed.

Lemma sync_all_commands dry inst l rep : (∀ r, Some r ∈ l → good_data (cRecipeData r)) → tamely (sync_all dry inst l rep).
Proof.
  revert rep. induction l as [|a l IH]; intros rep Hg w; [apply tamely_ret|]. cbn.
  assert (Ha : ∀ r, a = Some r → good_data (cRecipeData r)) by (intros r ->; apply Hg; left).
  destruct (sync_one_commands dry inst a rep Ha w) as (l1 & E1 & H1). destruct (sync_one dry inst a rep w) as [rep' w'].
  destruct (IH rep' (λ r Hr, Hg r (list_elem_of_further _ _ _ Hr)) w') as (l2 & E2 & H2). cbn in E1.
  exists (l1 ++ l2). rewrite E2, E1, app_assoc. split; [done|]. by apply Forall_app.
Qed.

Lemma Sync_commands dry l : (∀ r, Some r ∈ l → good_data (cRecipeData r)) → tamely (Sync dry (Ok l)).
Proof.
  intros Hg w. unfold Sync. destruct (tamely_list w) as (l1 & E1 & H1). destruct (ListInstalledPlugins w) as [r w1].
  set (inst := match r with Ok m => Some m | Err _ => None end).
  destruct (sync_all_commands dry inst l (mkReport [] [] []) Hg w1) as (l2 & E2 & H2).
  destruct (sync_all dry inst l _ w1) as [rep w2]. cbn in *. exists (l1 ++ l2). rewrite E2, E1, app_assoc. split; [done|]. by apply Forall_app.
Qed.
End Manager.

(** ** From the relay to the machine *)

Lemma not_dash_head c s : Ascii.eqb c "-"%char = false → no_dash (String c s).
Proof.
  intros Hc. split; [|done]. apply not_true_iff_false. intros (r & E)%HasPrefix_iff. rewrite str_app_cons in E. by simplify_eq.
Qed.

Lemma no_dash_head c s t : no_dash (String c s) → no_dash (String c t).
Proof.
  intros [Hs _]. apply not_dash_head. destruct (Ascii.eqb_spec c "-"%char) as [->|]; [|done]. exfalso.
  apply not_true_iff_false in Hs. apply Hs, HasPrefix_iff. by exists s.
Qed.

Lemma alnum_not_dash c : alnum c = true → Ascii.eqb c "-"%char = false.
Proof. intros Hc. destruct (Ascii.eqb_spec c "-"%char); [by subst|done]. Qed.

Lemma githubIdentRe_no_dash s : githubIdentRe s = true → no_dash s.
Proof. destruct s as [|c s]; [done|]. cbn. intros Hb. bool_prop. by apply not_dash_head, alnum_not_dash. Qed.

Lemma Split_head_dash s c x r : Split s c = x :: r → no_dash x → no_dash s.
Proof.
  destruct s as [|a s]; cbn; [by intros [= <- <-]|]. destruct (Ascii.eqb a c).
  - intros [= <- <-] [_ ?]. done.
  - destruct (Split s c) as [|y l]; intros [= <- <-]; apply no_dash_head.
Qed.

Lemma prefix_no_dash p s : HasPrefix s p = true → no_dash p → no_dash s.
Proof.
  intros (r & ->)%HasPrefix_iff [Hd Hn]. destruct p as [|c p]; [done|]. rewrite str_app_cons. by eapply no_dash_head.
Qed.

Lemma source_no_dash parses src : validMarketplaceSource parses src = true → no_dash src.
Proof.
  unfold validMarketplaceSource. destruct (HasPrefix src "/") eqn:E1; [intros _; by eapply prefix_no_dash|].
  destruct (_ || HasPrefix src "ssh://") eqn:E2.
  { intros _. repeat (apply orb_true_iff in E2 as [E2|E2]); by eapply prefix_no_dash. }
  destruct (HasPrefix src "git@") eqn:E3; [intros _; by eapply prefix_no_dash|]. case_if; [done|].
  destruct (Split src "/"%char) as [|a [|b [|]]] eqn:Es; try done. intros Hb. bool_prop. eapply Split_head_dash; [exact Es|]. by apply githubIdentRe_no_dash.
Qed.

Lemma plugin_no_dash p : pluginIdentRe p = true → no_dash p.
Proof.
  unfold pluginIdentRe. destruct (Split p "@"%char) as [|a [|b [|]]] eqn:Es; try done; intros Hb; bool_prop;
    (eapply Split_head_dash; [exact Es|]; by apply githubIdentRe_no_dash).
Qed.

Lemma canonical_good parses r : canonical parses r → good_data no_dash (Marshal (plugin_json r)).
Proof.
  intros (_ & _ & _ & Hs & Hp & _) r'. unfold client_data. rewrite decode_plugin_json. intros [= <-] _ _.
  split; [by eapply source_no_dash|by apply plugin_no_dash].
Qed.

Definition to_client (r : SetupRecipe) : option Recipe := Some (mkClientRecipe (rcSlug r) (rcType r) (rcData r)).

(** What happens to the recipe tables of a relay: the requests of the recipes API, by whoever the
    middleware says with whatever key, and accounts that are deleted. *)
Inductive ApiStep :=
| OnRecipes (now : Z) (uuid : string) (user : option User) (key : option APIKey) (r : Req)
| OnRecipePath (now : Z) (user : option User) (key : option APIKey) (r : Req)
| OnAssigned (user : option User) (r : Req)
| AccountDeleted (id : string).

Definition api_step (parses : string → bool) (d : Db State) (step : ApiStep) : Db State :=
  match step with
  | OnRecipes now uuid user key r => (HandleRecipes parses now uuid user key r d).2
  | OnRecipePath now user key r => (HandleRecipeByPath parses now user key r d).2
  | OnAssigned user r => (HandleAssigned user r d).2
  | AccountDeleted id => (update (delete_account id) d).2
  end.

Definition api_run (parses : string → bool) (d : Db State) (steps : list ApiStep) : Db State := foldl (api_step parses) d steps.

(** A relay that has accounts and no recipes yet; [faults] are the statements that fail. *)
Definition new_relay (accts : Users.State) (faults : list bool) : Db State := mkDb (mkState accts ∅ ∅) faults.

Lemma assigned_preserves (P : State → Prop) user r : preserves P (HandleAssigned user r).
Proof.
  unfold HandleAssigned. destruct user; [|apply preserves_ret]. case_if; [apply preserves_ret|].
  apply preserves_call; [apply preserves_query|intros; apply preserves_ret].
Qed.

Lemma api_step_sound parses d step : sound parses (tables d) → sound parses (tables (api_step parses d step)).
Proof.
  intros Hd. destruct step; cbn [api_step]; [by apply recipes_sound|by apply by_path_sound|by apply assigned_preserves|].
  apply (preserves_update (sound parses)); [|done]. intros s [Hwf Hc]. split; [by apply wf_recipes_delete_account|].
  intros i q. cbn. rewrite lookup_fmap. intros (q0 & Hq & ->)%fmap_Some. destruct (Hc _ _ Hq) as (p & Hp & E). by exists p.
Qed.

Lemma api_run_sound parses accts faults steps : sound parses (tables (api_run parses (new_relay accts faults) steps)).
Proof.
  assert (H0 : sound parses (tables (new_relay accts faults))).
  { split; [|by apply map_Forall_empty]. split; [apply map_Forall_empty| |apply map_Forall_empty]. intros i j r q Hr. cbn in Hr. done. }
  revert H0. generalize (new_relay accts faults). unfold api_run. induction steps as [|o steps IH]; intros d Hd; [done|].
  cbn. by apply IH, api_step_sound.
Qed.

Lemma assigned_canonical parses user r d l : sound parses (tables d) → (HandleAssigned user r d).1 = Ok (RAssigned l) →
  ∀ q, q ∈ l → ∃ p, canonical parses p ∧ rcData q = Marshal (plugin_json p).
Proof.
  intros [_ Hd]. unfold HandleAssigned. destruct user as [user|]; [|done]. case_if; [done|].
  unfold call, db_bind, attempt, AssignedForUser, query, exec. destruct (next_fault _) as [[] fs]; [done|]. cbn. intros [= <-] q Hq.
  rewrite elem_of_stable_sort, list_elem_of_In, filter_In, <- list_elem_of_In in Hq. destruct Hq as [Hq _].
  apply list_elem_of_fmap in Hq as ([id q'] & -> & Hin%elem_of_map_to_list). exact (Hd _ _ Hin).
Qed.

(** C20: from requests to commands: on a relay that started without recipes, after any
    requests to the recipes API (create, patch, delete, assign, by any users with any keys and
    bodies) and any deleted accounts, whatever statements of the database failed, the recipes a
    user is answered as assigned make the client run only the listing and the marketplace,
    install and disable commands, whatever the command line answers, and no source or
    plugin in them can be read as an option. *)
Theorem relay_recipes_run_tame : ∀ {W : Type} `{ClaudeRunner W} parses accts faults steps user req l dry w,
  (HandleAssigned user req (api_run parses (new_relay accts faults) steps)).1 = Ok (RAssigned l) →
  ∃ more, calls (Sync dry (Ok (map to_client l)) w).2 = calls w ++ more ∧ Forall tame more.
Proof.
  intros W HW parses accts faults steps user req l dry w E. apply (Sync_commands no_dash). intros r Hr. apply list_elem_of_fmap in Hr as (q & [= ->] & Hq).
  destruct (assigned_canonical _ _ _ _ _ (api_run_sound parses accts faults steps) E q Hq) as (p & Hp & Ed).
  cbn. rewrite Ed. by eapply canonical_good.
Qed.

(** ** What a run accounts for *)

Section Report.
Context {W : Type} `{ClaudeRunner W}.

Definition reported (rep : RecipeSyncReport) : nat := length (Installed rep) + length (Unchanged rep) + length (Errors rep).

Lemma sync_one_reported dry inst a rep w :
  reported (sync_one dry inst a rep w).1 = reported rep + length (option_list a).
Proof.
  unfold sync_one, reported. destruct a as [r|]; [|cbn; lia]. destruct (client_data _); [|cbn; rewrite length_app; cbn; lia]. cbv zeta.
  repeat case_if; try (cbn; rewrite length_app; cbn; lia). destruct (Install r w) as [[]]; cbn; rewrite length_app; cbn; lia.
Qed.

Lemma sync_all_reported dry inst l rep w :
  reported (sync_all dry inst l rep w).1 = reported rep + length (concat (map option_list l)).
Proof.
  revert rep w. induction l as [|a l IH]; intros rep w; [cbn; lia|]. cbn [sync_all map concat].
  pose proof (sync_one_reported dry inst a rep w) as E. destruct (sync_one dry inst a rep w) as [rep' w']. cbn in E.
  rewrite IH, length_app. lia.
Qed.

Lemma sync_all_dry inst l rep w : (sync_all true inst l rep w).2 = w.
Proof.
  revert rep w. induction l as [|a l IH]; intros rep w; [done|]. cbn [sync_all].
  assert (E : (sync_one true inst a rep w).2 = w).
  { unfold sync_one. destruct a as [r|]; [|done]. destruct (client_data _); [|done]. cbv zeta. by repeat case_if. }
  destruct (sync_one true inst a rep w) as [rep' w']. cbn in E. subst. apply IH.
Qed.

Lemma ListInstalledPlugins_calls w : calls (ListInstalledPlugins w).2 = calls w ++ [["plugin"; "list"; "--json"]].
Proof.
  unfold ListInstalledPlugins, cm_bind, run. destruct (Run _ (cli w)) as [[out|e] c]; [|done].
  destruct (Unmarshal out) as [v|]; [|done]. by destruct (decode_struct_list _ _).
Qed.

Lemma command_not_uninstall P args plugin : command P args → args ≠ ["plugin"; "uninstall"; plugin].
Proof. by intros []. Qed.

(** a run over the relay's answer reports every assigned recipe
    exactly once as installed, unchanged or failed, one failure never stops the run, a dry
    run runs nothing but the listing, and no run uninstalls anything. *)
Theorem recipe_sync_accounts : ∀ dry l w,
  ∃ rep w', Sync dry (Ok l) w = (Ok rep, w') ∧ reported rep = length (concat (map option_list l)) ∧
  (dry = true → calls w' = calls w ++ [["plugin"; "list"; "--json"]]) ∧
  (∀ args plugin, args ∈ drop (length (calls w)) (calls w') → args ≠ ["plugin"; "uninstall"; plugin]).
Proof.
  intros dry l w. destruct (Sync_commands (λ _, True) dry l (λ _ _ _ _ _ _, conj I I) w) as (more & Em & Hm).
  unfold Sync in *. pose proof (ListInstalledPlugins_calls w) as El. destruct (ListInstalledPlugins w) as [r w1]. cbn in El.
  set (inst := match r with Ok m => Some m | Err _ => None end) in *.
  pose proof (sync_all_reported dry inst l (mkReport [] [] []) w1) as Er. pose proof (λ E : dry = true, sync_all_dry inst l (mkReport [] [] []) w1) as Ed.
  destruct (sync_all dry inst l _ w1) as [rep w2] eqn:Es. cbn in Em, Er. exists rep, w2. split_and!; [done|done| |].
  - intros ->. rewrite Es in Ed. cbn in Ed. by rewrite (Ed eq_refl).
  - intros args plugin. rewrite Em, drop_app_length. intros Hin. rewrite Forall_forall in Hm. by eapply command_not_uninstall, Hm.
Qed.

(** a recipe that asks for a disabled plugin is installed
    without disabling it, and reported as installed, when the listing has no row under the
    very name the recipe uses, as for a recipe that names the plugin without its
    marketplace while rows are listed with theirs. *)
Theorem unlisted_plugin_left_enabled : ∀ r data w m w1,
  cRecipeType r = "claude_plugin" → client_data (cRecipeData r) = Some data → Enabled data = false →
  fst (Install r w) = Ok tt →
  cm_bind (run (add_args (MarketplaceSource data) (SparsePaths data))) (λ _, cm_bind (run (install_args (Plugin data))) (λ _, ListInstalledPlugins)) w = (Ok m, w1) →
  m !! Plugin data = None →
  calls (Install r w).2 = calls w ++ [add_args (MarketplaceSource data) (SparsePaths data); install_args (Plugin data); ["plugin"; "list"; "--json"]].
Proof.
  intros r data w m w1 Ht Hd He Hok Hl Hm. unfold Install in *. rewrite Ht, Hd, He in *. change ("claude_plugin" !=? "claude_plugin") with false in *. cbv iota in *.
  case_if; [done|]. unfold cm_bind in *. destruct (run (add_args _ _) w) as [[o|e] w2] eqn:E1; [|done].
  destruct (run (install_args _) w2) as [[o2|e] w3] eqn:E2; [|done]. unfold disable_if_listed in *. pose proof (ListInstalledPlugins_calls w3) as E3.
  rewrite Hl in *. rewrite Hm in *. cbn in E3 |- *. rewrite E3. unfold run in E1, E2.
  destruct (Run (add_args _ _) _) as [x1 c1]. simplify_eq. destruct (Run (install_args _) _) as [x2 c2]. simplify_eq. cbn. by rewrite <- !app_assoc.
Qed.
End Report.

(** ** A concrete machine *)

(** A command line that accepts everything and lists one enabled plugin. *)
#[export] Instance demo_runner : ClaudeRunner unit :=
  {| Run args _ := (Ok (Marshal (JArr [JObj [("id", JStr "lint@acme"); ("enabled", JBool true)]])), tt) |}.

(** An administrator publishes a recipe; a patch with a source that is an option is refused. *)
Definition demo_steps : list ApiStep :=
  [OnRecipes 1 "r1" (Some recipe_admin) None (recipe_request "POST" "/api/recipes"
     (Marshal (JObj [("slug", JStr "lint"); ("recipe_type", JStr "claude_plugin"); ("visibility", JStr "public"); ("recipe_data", plugin_json demo_plugin)])));
   OnRecipePath 2 (Some recipe_admin) None (recipe_request "PATCH" "/api/recipes/lint"
     (Marshal (JObj [("recipe_data", plugin_json (mkPlugin "--help/x" "lint" true []))])))].

Definition demo_published : SetupRecipe :=
  mkRecipe "r1" "lint" "lint" "" RecipeTypeClaudePlugin (Marshal (plugin_json demo_plugin)) "public" None (Some "u") 1 1.

Lemma relay_recipes_run_tame_witness :
  ∃ more, calls (Sync false (Ok (map to_client [demo_published])) (mkMachine tt [])).2 = [] ++ more ∧ Forall tame more.
Proof.
  apply (relay_recipes_run_tame (λ _, true) (accounts demo_recipes) [false; false] demo_steps (Some recipe_reader) (recipe_request "GET" "/api/recipes/assigned" "")
    [demo_published] false (mkMachine tt [])).
  vm_compute. reflexivity.
Defined.

Definition off_recipe : Recipe := mkClientRecipe "lint" "claude_plugin" (Marshal (plugin_json (mkPlugin "acme/tools" "lint" false []))).

Lemma unlisted_plugin_left_enabled_witness :
  calls (Install off_recipe (mkMachine tt [])).2
  = [] ++ [add_args "acme/tools" []; install_args "lint"; ["plugin"; "list"; "--json"]].
Proof.
  eapply (unlisted_plugin_left_enabled off_recipe (mkPlugin "acme/tools" "lint" false []) (mkMachine tt []));
    vm_compute; reflexivity.
Defined.
