(* ===== verification/FileTree.v ===== *)
(** * A file system

    What the [os] calls of the command-line client do to a tree of files and directories:
    [ReadFile], [Stat], [ReadDir], [MkdirAll], [MkdirTemp], [WriteFile], [Rename] and
    [RemoveAll].  A path is the list of its components from the root.  Permissions and
    symbolic links are not represented; a call that fails for another reason than the
    shape of the tree is a fault of the [Db] the tree lives in and leaves the tree as it was. *)
From S2P Require Import Prelude GoStrings GoPath.

Inductive Tree := File (content : string) | Dir (children : gmap string Tree).

(** What a path leads to; a file on the way is [GNotDir]. *)
Inductive Got := GFile (content : string) | GDir (children : gmap string Tree) | GNoEnt | GNotDir.

Fixpoint got (p : list string) (t : Tree) : Got :=
  match p, t with
  | [], File c => GFile c
  | [], Dir m => GDir m
  | _ :: _, File _ => GNotDir
  | x :: r, Dir m => match m !! x with Some t' => got r t' | None => GNoEnt end
  end.

Fixpoint get (p : list string) (t : Tree) : option Tree :=
  match p, t with
  | [], _ => Some t
  | _ :: _, File _ => None
  | x :: r, Dir m => m !! x ≫= get r
  end.

(** Replace or remove what is at a path whose parent directory exists. *)
Fixpoint put (p : list string) (o : option Tree) (t : Tree) : Tree :=
  match p, t with
  | [], _ => default t o
  | _ :: _, File _ => t
  | [x], Dir m => Dir (partial_alter (λ _, o) x m)
  | x :: r, Dir m => Dir (alter (put r o) x m)
  end.

(** ** Calls *)

Definition ENOENT : string := "no such file or directory".
Definition ENOTDIR : string := "not a directory".
Definition EISDIR : string := "is a directory".
Definition ENOTEMPTY : string := "directory not empty".
Definition EEXIST : string := "file exists".
Definition EINVAL : string := "invalid argument".

Definition IsNotExist (e : string) : bool := e =?s ENOENT.

Definition FSM (A : Type) : Type := DBM Tree A.

Definition ReadFile (p : list string) : FSM string :=
  exec (λ t, match got p t with
             | GFile c => Ok (c, t)
             | GDir _ => Err EISDIR
             | GNoEnt => Err ENOENT
             | GNotDir => Err ENOTDIR
             end).

(** The boolean is [IsDir]. *)
Definition Stat (p : list string) : FSM bool :=
  exec (λ t, match got p t with
             | GFile _ => Ok (false, t)
             | GDir _ => Ok (true, t)
             | GNoEnt => Err ENOENT
             | GNotDir => Err ENOTDIR
             end).

(** The names in order, each with [IsDir]. *)
Definition is_dir (t : Tree) : bool := match t with Dir _ => true | File _ => false end.

Definition entries_of (m : gmap string Tree) : list (string * bool) :=
  stable_sort (λ a b, String.leb a.1 b.1) (map (λ '(k, t), (k, is_dir t)) (map_to_list m)).

Definition ReadDir (p : list string) : FSM (list (string * bool)) :=
  exec (λ t, match got p t with
             | GDir m => Ok (entries_of m, t)
             | GFile _ => Err ENOTDIR
             | GNoEnt => Err ENOENT
             | GNotDir => Err ENOTDIR
             end).

Fixpoint mkdir_all (p : list string) (t : Tree) : result Tree :=
  match p, t with
  | _, File _ => Err ENOTDIR
  | [], Dir m => Ok (Dir m)
  | x :: r, Dir m => result_map (λ t', Dir (<[x := t']> m)) (mkdir_all r (default (Dir ∅) (m !! x)))
  end.

Definition MkdirAll (p : list string) : FSM unit := exec (λ t, result_map (λ t', (tt, t')) (mkdir_all p t)).

(** The parent of a path and its last component. *)
Definition parent (p : list string) : list string := take (length p - 1) p.

(** [os.OpenFile] with [O_CREATE|O_TRUNC], a write and the close. *)
Definition write_file (p : list string) (c : string) (t : Tree) : result Tree :=
  match got (parent p) t, got p t with
  | GDir _, GDir _ => Err EISDIR
  | GDir _, _ => Ok (put p (Some (File c)) t)
  | GNoEnt, _ => Err ENOENT
  | _, _ => Err ENOTDIR
  end.

Definition WriteFile (p : list string) (c : string) : FSM unit := exec (λ t, result_map (λ t', (tt, t')) (write_file p c t)).

(** [name] is the name the call settled on. *)
Definition MkdirTemp (dir : list string) (name : string) : FSM (list string) :=
  exec (λ t, match got dir t with
             | GDir m => if bool_decide (is_Some (m !! name)) then Err EEXIST
                         else Ok (dir ++ [name], put (dir ++ [name]) (Some (Dir ∅)) t)
             | GNoEnt => Err ENOENT
             | _ => Err ENOTDIR
             end).

Definition rename (old new : list string) (t : Tree) : result Tree :=
  match get old t, got (parent new) t with
  | None, _ => Err ENOENT
  | Some _, GNoEnt => Err ENOENT
  | Some _, GFile _ | Some _, GNotDir => Err ENOTDIR
  | Some x, GDir _ =>
      if bool_decide (old = new) then Ok t
      else if bool_decide (old `prefix_of` new) || bool_decide (new `prefix_of` old) then Err EINVAL
      else match x, get new t with
           | Dir _, Some (File _) => Err ENOTDIR
           | File _, Some (Dir _) => Err EISDIR
           | Dir _, Some (Dir m) => if bool_decide (m = ∅) then Ok (put new (Some x) (put old None t)) else Err ENOTEMPTY
           | _, _ => Ok (put new (Some x) (put old None t))
           end
  end.

Definition Rename (old new : list string) : FSM unit := exec (λ t, result_map (λ t', (tt, t')) (rename old new t)).

(** No error when nothing is there. *)
Definition RemoveAll (p : list string) : FSM unit :=
  exec (λ t, match got p t with GNotDir => Err ENOTDIR | _ => Ok (tt, put p None t) end).

(** ** Laws *)

Lemma got_get p t :
  got p t = match get p t with
            | Some (File c) => GFile c
            | Some (Dir m) => GDir m
            | None => match got p t with GNotDir => GNotDir | _ => GNoEnt end
            end.
Proof.
  revert t. induction p as [|x p IH]; intros [c|m]; try done. cbn. destruct (m !! x) as [t'|]; [|done]. cbn. apply IH.
Qed.

Lemma get_app p q t : get (p ++ q) t = get p t ≫= get q.
Proof.
  revert t. induction p as [|x p IH]; intros t; [done|]. destruct t as [c|m]; [done|]. cbn. destruct (m !! x); cbn; [apply IH|done].
Qed.

Lemma get_Some_got p t x : get p t = Some x → got p t = match x with File c => GFile c | Dir m => GDir m end.
Proof. intros E. rewrite got_get, E. by destruct x. Qed.

Lemma got_GDir p t m : got p t = GDir m ↔ get p t = Some (Dir m).
Proof.
  rewrite got_get. destruct (get p t) as [[c|m']|]; split; intros E; try done; try congruence. by destruct (got p t).
Qed.

Lemma put_cons x y r o m : put (x :: y :: r) o (Dir m) = Dir (alter (put (y :: r) o) x m).
Proof. done. Qed.

(** A change at a path does not reach paths that neither lead to it nor through it. *)
Lemma get_put_other p q o t : ¬ p `prefix_of` q → ¬ q `prefix_of` p → get q (put p o t) = get q t.
Proof.
  revert q t. induction p as [|x p IH]; intros q t Hp Hq; [by destruct Hp; exists q|].
  destruct q as [|y q]; [by destruct Hq; exists (x :: p)|]. destruct t as [c|m]; [by destruct p|].
  destruct p as [|x' p]; cbn [put get].
  - destruct (decide (x = y)) as [->|Hne]; [by destruct Hp; exists q|]. by rewrite lookup_partial_alter_ne.
  - destruct (decide (x = y)) as [->|Hne]; [|by rewrite lookup_alter_ne].
    rewrite lookup_alter_eq. destruct (m !! y) as [t'|]; [|done]. cbn [fmap option_fmap option_map mbind option_bind].
    apply IH; intros H; [apply Hp|apply Hq]; by apply prefix_cons.
Qed.

(** The directory a change happens in keeps its other entries. *)
Lemma get_put_same p o t x : get (parent p) t = Some x → p ≠ [] → is_dir x = true → get p (put p o t) = o.
Proof.
  revert t. induction p as [|y p IH]; intros t Hp Hne Hd; [done|]. unfold parent in Hp. cbn [length Nat.sub] in Hp. rewrite Nat.sub_0_r in Hp.
  destruct p as [|y' p].
  - cbn in Hp. simplify_eq. destruct x as [|m]; [done|]. cbn. rewrite lookup_partial_alter_eq. by destruct o.
  - cbn [length take] in Hp. destruct t as [c|m]; [done|]. cbn [get] in Hp. cbn [put get]. rewrite lookup_alter_eq.
    destruct (m !! y) as [t'|]; [|done]. cbn in *. apply (IH t'); [|done|done]. unfold parent. cbn. by rewrite Nat.sub_0_r.
Qed.

(** A change below a path changes what is there accordingly. *)
Lemma get_put_below p q o t x : q ≠ [] → get p t = Some x → get p (put (p ++ q) o t) = Some (put q o x).
Proof.
  intros Hq. revert t. induction p as [|y p IH]; intros t; cbn [app]; [by intros [= ->]|]. destruct t as [c|n]; [done|]. cbn [get].
  destruct (n !! y) as [t'|] eqn:Ey; [|done]. cbn [mbind option_bind]. intros Hg.
  assert (put (y :: p ++ q) o (Dir n) = Dir (alter (put (p ++ q) o) y n)) as ->.
  { destruct (p ++ q) as [|a l] eqn:El; [by apply app_nil in El as [_ ->]|done]. }
  cbn [get]. rewrite lookup_alter_eq, Ey. cbn [fmap option_fmap option_map mbind option_bind]. by apply IH.
Qed.

Lemma put_is_dir q o m : q ≠ [] → is_dir (put q o (Dir m)) = true.
Proof. by destruct q as [|x [|y q]]. Qed.

Lemma parent_snoc p x : parent (p ++ [x]) = p.
Proof. unfold parent. rewrite length_app. cbn. rewrite Nat.add_sub. apply take_app_length. Qed.

(** Creating directories keeps everything that is there. *)
Lemma mkdir_all_get p t t' q x :
  mkdir_all p t = Ok t' → get q t = Some x → ∃ x', get q t' = Some x' ∧ (¬ q `prefix_of` p → x' = x) ∧ is_dir x' = is_dir x.
Proof.
  revert t t' q. induction p as [|y p IH]; intros [c|m] t' q; cbn; try done.
  - intros [= <-] E. eauto.
  - destruct (mkdir_all p _) as [t2|] eqn:Em; cbn; [|done]. intros [= <-]. destruct q as [|z q]; cbn.
    + intros [= <-]. eexists. split; [done|]. split; [|done]. intros []. by exists (y :: p).
    + destruct (m !! z) as [tz|] eqn:Ez; [|done]. cbn. intros E. destruct (decide (y = z)) as [->|Hne].
      * rewrite lookup_insert_eq. cbn. rewrite Ez in Em. cbn in Em. destruct (IH _ _ q Em E) as (x' & ? & Hx & ?). exists x'. split; [done|].
        split; [|done]. intros Hn. apply Hx. intros Hq. apply Hn. by apply prefix_cons.
      * rewrite lookup_insert_ne, Ez by done. cbn. eauto.
Qed.

Lemma mkdir_all_dir p t t' : mkdir_all p t = Ok t' → ∃ m, get p t' = Some (Dir m).
Proof.
  revert t t'. induction p as [|y p IH]; intros [c|m] t'; cbn; try done; [intros [= <-]; eauto|].
  destruct (mkdir_all p _) as [t2|] eqn:Em; cbn; [|done]. intros [= <-]. cbn. rewrite lookup_insert_eq. cbn. eauto.
Qed.

(** Reading calls change nothing. *)
Lemma ReadFile_tables p d : tables (ReadFile p d).2 = tables d.
Proof. unfold ReadFile, exec. destruct (next_fault _) as [[] fs]; [done|]. by destruct (got p (tables d)). Qed.

Lemma Stat_tables p d : tables (Stat p d).2 = tables d.
Proof. unfold Stat, exec. destruct (next_fault _) as [[] fs]; [done|]. by destruct (got p (tables d)). Qed.

Lemma ReadDir_tables p d : tables (ReadDir p d).2 = tables d.
Proof. unfold ReadDir, exec. destruct (next_fault _) as [[] fs]; [done|]. by destruct (got p (tables d)). Qed.
