(* ===== verification/Hoare.v ===== *)
(** * Reasoning about runs

    Triples for database programs that speak about the faults still to come and about the
    error a program stops with. *)
From S2P Require Import Prelude.

(** From a database satisfying [P], the program returns with [Q] or stops with [E]. *)
Definition triple {T A} (P : Db T → Prop) (m : DBM T A) (Q : A → Db T → Prop) (E : string → Db T → Prop) : Prop :=
  ∀ d, P d → match m d with (Ok a, d') => Q a d' | (Err e, d') => E e d' end.

Section Rules.
Context {T : Type} (E : string → Db T → Prop).
Implicit Types P : Db T → Prop.

Lemma t_ret {A} P (a : A) Q : (∀ d, P d → Q a d) → triple P (db_ret a) Q E.
Proof. intros HQ d Hd. exact (HQ d Hd). Qed.

Lemma t_bind {A B} P (m : DBM T A) (k : A → DBM T B) M Q :
  triple P m M E → (∀ a, triple (M a) (k a) Q E) → triple P (db_bind m k) Q E.
Proof.
  intros Hm Hk d Hd. unfold db_bind. specialize (Hm d Hd). destruct (m d) as [[a|e] d']; [exact (Hk a d' Hm)|exact Hm].
Qed.

Lemma t_pre {A} P P' (m : DBM T A) Q : triple P' m Q E → (∀ d, P d → P' d) → triple P m Q E.
Proof. intros Hm HP d Hd. exact (Hm d (HP d Hd)). Qed.

Lemma t_post {A} P (m : DBM T A) Q Q' : triple P m Q' E → (∀ a d, Q' a d → Q a d) → triple P m Q E.
Proof. intros Hm HQ d Hd. specialize (Hm d Hd). destruct (m d) as [[a|e] d']; auto. Qed.

(** A fact that does not speak of the state moves out of the precondition. *)
Lemma t_fact {A} (X : Prop) P (m : DBM T A) Q : (X → triple P m Q E) → triple (λ d, X ∧ P d) m Q E.
Proof. intros Hm d [Hx Hd]. exact (Hm Hx d Hd). Qed.

Lemma t_attempt {A} P (m : DBM T A) Q R :
  triple P m Q R → triple P (attempt m) (λ r d, match r with Ok a => Q a d | Err e => R e d end) E.
Proof. intros Hm d Hd. rewrite attempt_run. specialize (Hm d Hd). by destruct (m d) as [[a|e] d']. Qed.
End Rules.

(** One statement. *)
Lemma t_exec {T A} (P : Db T → Prop) (f : T → result (A * T)) (Q : A → Db T → Prop) (E : string → Db T → Prop) :
  (∀ d fs, P d → E db_error (mkDb (tables d) fs)) →
  (∀ d fs, P d → next_fault (faults d) = (false, fs) → match f (tables d) with Ok (a, t) => Q a (mkDb t fs) | Err e => E e (mkDb (tables d) fs) end) →
  triple P (exec f) Q E.
Proof.
  intros HE HQ d Hd. unfold exec. destruct (next_fault (faults d)) as [[] fs] eqn:En; [by apply HE|].
  specialize (HQ d fs Hd En). by destruct (f (tables d)) as [[a t]|e].
Qed.

(** On a disk or database where nothing fails. *)
Section Healthy.
Context {T : Type}.

Definition on_healthy (P : T → Prop) (d : Db T) : Prop := faults d = [] ∧ P (tables d).

Lemma h_exec {A} (P : T → Prop) (f : T → result (A * T)) (Q : A → T → Prop) (E : string → T → Prop) :
  (∀ t, P t → match f t with Ok (a, t') => Q a t' | Err e => E e t end) →
  triple (on_healthy P) (exec f) (λ a, on_healthy (Q a)) (λ e, on_healthy (E e)).
Proof.
  intros H [t fs] [Hf Ht]. cbn in Hf, Ht. subst fs. unfold exec. cbn. specialize (H t Ht). destruct (f t) as [[a t']|e]; by split.
Qed.

Lemma h_query {A} (P : T → Prop) (f : T → A) (E : string → T → Prop) :
  triple (on_healthy P) (query f) (λ a, on_healthy (λ t, a = f t ∧ P t)) (λ e, on_healthy (E e)).
Proof. apply h_exec. intros t Ht. by split. Qed.

Lemma h_update (P Q : T → Prop) (f : T → T) (E : string → T → Prop) :
  (∀ t, P t → Q (f t)) → triple (on_healthy P) (update f) (λ _, on_healthy Q) (λ e, on_healthy (E e)).
Proof. intros H. apply h_exec. intros t Ht. exact (H t Ht). Qed.

Lemma h_ret {A} (P : T → Prop) (a : A) (Q : A → T → Prop) (E : string → Db T → Prop) :
  (∀ t, P t → Q a t) → triple (on_healthy P) (db_ret a) (λ a, on_healthy (Q a)) E.
Proof. intros H d [Hf Hd]. split; [done|by apply H]. Qed.

Lemma h_fail {A} (P : T → Prop) e (Q : A → Db T → Prop) (E : string → T → Prop) :
  (∀ t, P t → E e t) → triple (on_healthy P) (db_fail e) Q (λ e, on_healthy (E e)).
Proof. intros H d [Hf Hd]. split; [done|by apply H]. Qed.

Lemma h_fact {A} (X : Prop) (P : T → Prop) (m : DBM T A) Q E :
  (X → triple (on_healthy P) m Q E) → triple (on_healthy (λ t, X ∧ P t)) m Q E.
Proof. intros Hm d [Hf [Hx Hd]]. exact (Hm Hx d (conj Hf Hd)). Qed.
End Healthy.
