(* ===== verification/SkillSync.v ===== *)
(** * Installing skills on a client

    [src/internal/cli/sync/skills.go]: [arc-sync] reconciles the skills directory of its
    user with the skills the relay assigns.  The disk is a [Tree] whose calls can fail at
    any point; the relay's answers, the temporary names and the order in which a Go map is
    walked are parameters. *)
From S2P Require Import Prelude GoStrings GoPath Json JsonDecode AccessTiers Profiles Users Servers Skills Subhash SkillService FileTree.

(** ** Paths *)

(** The components of [filepath.Join(dir, rel)] for an absolute [dir]. *)
Definition under (dir : list string) (rel : string) : list string := clean_comps true (Split rel "/"%char) (rev dir).

Definition backslash_to_slash (c : ascii) : ascii := if Ascii.eqb c "\"%char then "/"%char else c.

Definition safeRelPath (p : string) : bool :=
  if (p =?s "") || (p =?s ".") then false
  else if IsAbs p then false
  else
    let s := map_str backslash_to_slash p in
    if HasPrefix s "/" then false
    else negb ((s =?s "..") || HasPrefix s "../" || Contains s "/../").

(** [mode]: the permission bits of a tar header, or the fallback. *)
Definition mode (headerMode fallback : Z) : Z :=
  if (headerMode =? 0)%Z then fallback
  else let m := Z.land (headerMode mod 2 ^ 32) 511 in if (m =? 0)%Z then fallback else m.

(** ** Markers *)

Definition SkillMarkerFile : string := ".arc-sync-version".

Record SkillMarker := mkMarker { mkSlug : string; mkVersion_ : string; mkSHA256 : string; mkRelayURL : string }.

Definition decode_marker (b : string) : option SkillMarker :=
  l ← struct_fields b;
  slug ← decode_string_field "slug" l ""; v ← decode_string_field "version" l "";
  sha ← decode_string_field "sha256" l ""; url ← decode_string_field "relay_url" l "";
  Some (mkMarker slug v sha url).

(** [json.MarshalIndent(marker)] with two blanks. *)
Definition marker_line (k v : string) : string := nl +:+ "  " +:+ print_str k +:+ ": " +:+ print_str v.

Definition marker_text (m : SkillMarker) : string :=
  "{" +:+ marker_line "slug" (mkSlug m) +:+ "," +:+ marker_line "version" (mkVersion_ m) +:+ "," +:+
  marker_line "sha256" (mkSHA256 m) +:+ "," +:+ marker_line "relay_url" (mkRelayURL m) +:+ nl +:+ "}".

Definition readMarker (dir : list string) : FSM (option SkillMarker) :=
  let! r := attempt (ReadFile (dir ++ [SkillMarkerFile])) in
  match r with
  | Err e =>
      if IsNotExist e then
        let! st := attempt (Stat dir) in
        match st with Ok _ => db_ret None | Err _ => db_fail e end
      else db_fail e
  | Ok b => match decode_marker b with
            | None => db_fail "parse marker"
            | Some m => db_ret (Some m)
            end
  end.

Definition writeMarker (dir : list string) (m : SkillMarker) : FSM unit := WriteFile (dir ++ [SkillMarkerFile]) (marker_text m).

(** ** Local state *)

Record InstalledSkill := mkInstalled { isSlug : string; isVersion : string; isPath : list string; isManaged : bool }.

Definition local_entry (name : string) (path : list string) (r : result (option SkillMarker)) : InstalledSkill :=
  match r with
  | Ok (Some m) => mkInstalled (mkSlug m) (mkVersion_ m) path true
  | _ => mkInstalled name "" path false
  end.

Fixpoint list_entries (dir : list string) (l : list (string * bool)) : FSM (list InstalledSkill) :=
  match l with
  | [] => db_ret []
  | (name, isDir) :: r =>
      if negb isDir then list_entries dir r
      else
        let! m := attempt (readMarker (dir ++ [name])) in
        let! rest := list_entries dir r in
        db_ret (local_entry name (dir ++ [name]) m :: rest)
  end.

Definition ListInstalled (dir : list string) : FSM (list InstalledSkill) :=
  let! r := attempt (ReadDir dir) in
  match r with
  | Err e => if IsNotExist e then db_ret [] else db_fail ("reading skills dir: " +:+ e)
  | Ok l => list_entries dir l
  end.

(** ** Reports *)

Record SkillSyncAction := mkSkillAction { acSlug : string; acVersion : string; acPrevious : string }.

Record SkillSyncReport := mkSkillReport {
  spInstalled : list SkillSyncAction; spUpdated : list SkillSyncAction; spRemoved : list SkillSyncAction;
  spUnchanged : list SkillSyncAction; spSkippedHand : list SkillSyncAction; spErrors : list (string * string) }.

Definition empty_report : SkillSyncReport := mkSkillReport [] [] [] [] [] [].

Inductive Bucket := BInstalled | BUpdated | BRemoved | BUnchanged | BSkippedHand.

Definition note (b : Bucket) (a : SkillSyncAction) (r : SkillSyncReport) : SkillSyncReport :=
  match b with
  | BInstalled => mkSkillReport (spInstalled r ++ [a]) (spUpdated r) (spRemoved r) (spUnchanged r) (spSkippedHand r) (spErrors r)
  | BUpdated => mkSkillReport (spInstalled r) (spUpdated r ++ [a]) (spRemoved r) (spUnchanged r) (spSkippedHand r) (spErrors r)
  | BRemoved => mkSkillReport (spInstalled r) (spUpdated r) (spRemoved r ++ [a]) (spUnchanged r) (spSkippedHand r) (spErrors r)
  | BUnchanged => mkSkillReport (spInstalled r) (spUpdated r) (spRemoved r) (spUnchanged r ++ [a]) (spSkippedHand r) (spErrors r)
  | BSkippedHand => mkSkillReport (spInstalled r) (spUpdated r) (spRemoved r) (spUnchanged r) (spSkippedHand r ++ [a]) (spErrors r)
  end.

Definition note_error (slug msg : string) (r : SkillSyncReport) : SkillSyncReport :=
  mkSkillReport (spInstalled r) (spUpdated r) (spRemoved r) (spUnchanged r) (spSkippedHand r) (spErrors r ++ [(slug, msg)]).

(** A row of the relay's answer: the slug, the latest version and the pinned one; [None] when
    it carries no skill. *)
Record Assigned := mkAssignedRow { agSlug : string; agLatest : string; agPinned : option string }.

Definition want (a : Assigned) : string :=
  match agPinned a with Some v => if v =?s "" then agLatest a else v | None => agLatest a end.

Section Manager.
Context `{Hashing} `{Formats}.
(** The skills directory, the relay's address, its archives with their checksums, and the
    random part of a temporary name. *)
Context (dir : list string) (baseURL : string) (download : string → string → result (string * string)) (random : string → string).

(** [dest + suffix] *)
Definition stale_of (dest : list string) : list string :=
  match rev dest with
  | [] => [".arc-sync-stale"]
  | x :: r => rev r ++ [x +:+ ".arc-sync-stale"]
  end.

Definition tmp_name (slug : string) : string := ".arc-sync-install-" +:+ random slug.

(** One tar entry; a truncated one leaves what was read and fails. *)
Definition extract_one (tmpDir : list string) (e : TarEntry) : FSM unit :=
  let clean := Clean (TrimPrefix (eName e) "./") in
  if negb (safeRelPath clean) then db_fail ("unsafe archive path " +:+ eName e)
  else
    let target := under tmpDir clean in
    match eType e with
    | TypeDir => MkdirAll target
    | TypeReg =>
        MkdirAll (parent target) ;;;
        match read_limited e with
        | Some b => WriteFile target b
        | None => WriteFile target (eContent e) ;;; db_fail "unexpected EOF"
        end
    | TypeOther => db_ret tt
    end.

Fixpoint extract_all (tmpDir : list string) (l : list TarEntry) : FSM unit :=
  match l with
  | [] => db_ret tt
  | e :: r => extract_one tmpDir e ;;; extract_all tmpDir r
  end.

Definition extractTarGz (archive : string) (tmpDir : list string) : FSM unit :=
  match read_tar archive with
  | None => db_fail "not a gzip archive"
  | Some (entries, broken) => extract_all tmpDir entries ;;; if broken then db_fail "tar read" else db_ret tt
  end.

(** Put the new directory in place; an existing install is moved aside first and moved
    back when the second rename fails. *)
Definition swap (tmpDir dest : list string) (replace : bool) : FSM unit :=
  if replace then
    let stale := stale_of dest in
    let! _ := attempt (RemoveAll stale) in
    Rename dest stale ;;;
    let! r := attempt (Rename tmpDir dest) in
    match r with
    | Err e => let! _ := attempt (Rename stale dest) in db_fail ("rename new: " +:+ e)
    | Ok _ => let! _ := attempt (RemoveAll stale) in db_ret tt
    end
  else Rename tmpDir dest.

(** The archive that was downloaded, once its size and checksum are accepted. *)
Definition accept (slug version : string) : result (string * string) :=
  match download slug version with
  | Err e => Err ("download: " +:+ e)
  | Ok (archive, sha) =>
      if (MaxArchiveSize <? str_len archive)%Z then Err "archive exceeds cap"
      else if (sha !=? "") && (sha256_hex archive !=? sha) then Err "archive sha256 mismatch"
      else Ok (archive, sha)
  end.

(** What [Install] goes by when it has read the marker of the destination. *)
Definition existing_of (r : result (option SkillMarker)) : result (option SkillMarker) :=
  match r with
  | Ok m => Ok m
  | Err e => if IsNotExist e then Ok None else Err ("marker unreadable: " +:+ e)
  end.

(** The part after the checks; the temporary directory is removed on every failure. *)
Definition unpack (slug version archive sha : string) (replace : bool) : FSM SkillMarker :=
  MkdirAll dir ;;;
  let! tmpDir := MkdirTemp dir (tmp_name slug) in
  let marker := mkMarker slug version sha baseURL in
  let! r := attempt (extractTarGz archive tmpDir ;;; writeMarker tmpDir marker ;;; swap tmpDir (under dir slug) replace) in
  match r with
  | Ok _ => db_ret marker
  | Err e => let! _ := attempt (RemoveAll tmpDir) in db_fail e
  end.

Definition Install (slug version : string) : FSM SkillMarker :=
  let dest := under dir slug in
  let! r := attempt (readMarker dest) in
  match existing_of r with
  | Err e => db_fail e
  | Ok existing =>
      let! st := attempt (Stat dest) in
      if is_ok st && bool_decide (existing = None) then db_fail ("skill " +:+ slug +:+ " exists but is not arc-sync-managed")
      else match accept slug version with
           | Err e => db_fail e
           | Ok (archive, sha) => unpack slug version archive sha (bool_decide (is_Some existing))
           end
  end.

Definition Remove (slug : string) : FSM unit :=
  let dest := under dir slug in
  let! r := attempt (readMarker dest) in
  match r with
  | Err e => if IsNotExist e then db_ret tt else db_fail ("reading marker: " +:+ e)
  | Ok None => db_fail ("skill " +:+ slug +:+ " is not arc-sync-managed; refusing to remove")
  | Ok (Some _) => RemoveAll dest
  end.

(** ** Sync *)

(** A later entry with the same slug replaces an earlier one. *)
Definition by_slug (l : list InstalledSkill) : gmap string InstalledSkill :=
  foldl (λ m i, <[isSlug i := i]> m) ∅ l.

(** One assigned skill. *)
Definition sync_skill (dryRun : bool) (installed : gmap string InstalledSkill) (a : Assigned) (rep : SkillSyncReport) : FSM SkillSyncReport :=
  let slug := agSlug a in
  let v := want a in
  if v =?s "" then db_ret (note_error slug "relay reports no published version; skipping" rep)
  else
    let do_install b previous :=
      if dryRun then db_ret (note b (mkSkillAction slug v previous) rep)
      else let! r := attempt (Install slug v) in
           match r with
           | Err e => db_ret (note_error slug e rep)
           | Ok _ => db_ret (note b (mkSkillAction slug v previous) rep)
           end in
    match installed !! slug with
    | Some cur =>
        if negb (isManaged cur) then db_ret (note BSkippedHand (mkSkillAction slug "" "") rep)
        else if isVersion cur =?s v then db_ret (note BUnchanged (mkSkillAction slug v "") rep)
        else do_install BUpdated (isVersion cur)
    | None => do_install BInstalled ""
    end.

Fixpoint sync_assigned (dryRun : bool) (installed : gmap string InstalledSkill) (l : list Assigned) (rep : SkillSyncReport) : FSM SkillSyncReport :=
  match l with
  | [] => db_ret rep
  | a :: r => let! rep' := sync_skill dryRun installed a rep in sync_assigned dryRun installed r rep'
  end.

(** One installed skill that is no longer assigned. *)
Definition retire (dryRun : bool) (slug : string) (cur : InstalledSkill) (rep : SkillSyncReport) : FSM SkillSyncReport :=
  if negb (isManaged cur) then db_ret (note BSkippedHand (mkSkillAction slug "" "") rep)
  else if dryRun then db_ret (note BRemoved (mkSkillAction slug (isVersion cur) "") rep)
  else let! r := attempt (Remove slug) in
       match r with
       | Err e => db_ret (note_error slug e rep)
       | Ok _ => db_ret (note BRemoved (mkSkillAction slug (isVersion cur) "") rep)
       end.

Fixpoint retire_all (dryRun : bool) (desired : list string) (l : list (string * InstalledSkill)) (rep : SkillSyncReport) : FSM SkillSyncReport :=
  match l with
  | [] => db_ret rep
  | (slug, cur) :: r =>
      if bool_decide (slug ∈ desired) then retire_all dryRun desired r rep
      else let! rep' := retire dryRun slug cur rep in retire_all dryRun desired r rep'
  end.

(** The order in which the map of installed skills is walked. *)
Context (shuffle : gmap string InstalledSkill → list (string * InstalledSkill)).

Definition Sync (dryRun : bool) (assigned : result (list (option Assigned))) : FSM SkillSyncReport :=
  match assigned with
  | Err e => db_fail ("list assigned: " +:+ e)
  | Ok rows =>
      let rows := omap id rows in
      let! installed := ListInstalled dir in
      let m := by_slug installed in
      let! rep := sync_assigned dryRun m rows empty_report in
      retire_all dryRun (map agSlug rows) (shuffle m) rep
  end.
End Manager.

(** ** Paths of skills *)

Lemma clean_comps_elem rt l st x : x ∈ clean_comps rt l st → x ∈ l ∨ x ∈ st.
Proof.
  revert st. induction l as [|c l IH]; intros st; cbn; [rewrite list_elem_of_In, <- in_rev, <- list_elem_of_In; auto|].
  repeat case_match; intros [Hx|Hx]%IH; try set_solver.
Qed.

Lemma clean_comps_proper rt l st x : x ∈ clean_comps rt l st → x ∉ st → x ≠ "" ∧ x ≠ ".".
Proof.
  revert st. induction l as [|c l IH]; intros st; cbn.
  - rewrite list_elem_of_In, <- in_rev, <- list_elem_of_In. done.
  - destruct ((c =?s "") || (c =?s ".")) eqn:E; [apply IH|]. bool_prop. intros Hx Hn. destruct (c =?s "..") eqn:Ed; bool_prop; subst.
    + destruct st as [|t st]; [destruct rt|].
      * by eapply IH.
      * destruct (decide (x = "..")) as [->|]; [done|]. eapply IH; [exact Hx|]. set_solver.
      * destruct (t =?s ".."); [|eapply IH; [exact Hx|set_solver]]. destruct (decide (x = "..")) as [->|]; [done|]. eapply IH; [exact Hx|set_solver].
    + destruct (decide (x = c)) as [->|]; [done|]. eapply IH; [exact Hx|set_solver].
Qed.

Lemma Split_no_sep s c : Forall (λ x, all_chars (λ a, negb (Ascii.eqb a c)) x = true) (Split s c).
Proof.
  induction s as [|a s IH]; cbn; [by repeat constructor|]. destruct (Ascii.eqb a c) eqn:E; [by constructor|].
  destruct (Split s c) as [|x r]; [repeat constructor; cbn; by rewrite E|]. apply Forall_cons in IH as [? ?]. constructor; [cbn; by rewrite E|done].
Qed.

Lemma Split_Join cs : cs ≠ [] → Forall (λ x, all_chars not_slash x = true) cs → Split (Join cs "/") "/"%char = cs.
Proof.
  induction cs as [|c cs IH]; [done|]. intros _ [Hc Hcs]%Forall_cons. destruct cs as [|d cs]; [by apply Split_none|].
  change (Join (c :: d :: cs) "/") with (c +:+ String "/" (Join (d :: cs) "/")). rewrite Split_app, (Split_none c) by done.
  by rewrite IH.
Qed.

Lemma clean_comps_id cs st : Forall (λ x, x ≠ "" ∧ x ≠ "." ∧ x ≠ "..") cs → clean_comps true cs st = rev st ++ cs.
Proof.
  revert st. induction cs as [|c cs IH]; intros st; cbn; [by rewrite app_nil_r|]. intros [(H1 & H2 & H3) Hcs]%Forall_cons.
  apply String.eqb_neq in H1, H2, H3. rewrite H1, H2, H3. cbn. rewrite IH by done. cbn. by rewrite <- app_assoc.
Qed.

(** A slug names an entry of the skills directory. *)
Lemma under_slug dir slug : ValidateSlug slug = Ok tt → under dir slug = dir ++ [slug].
Proof.
  intros (Hs & H1 & H2 & H3)%slug_chars. unfold under. rewrite (Split_none slug Hs), clean_comps_id by (by repeat constructor).
  by rewrite rev_involutive.
Qed.

Lemma map_str_app f a b : map_str f (a +:+ b) = map_str f a +:+ map_str f b.
Proof. induction a as [|c a IH]; [done|]. rewrite !str_app_cons. cbn. by rewrite IH. Qed.

(** An accepted entry name stays below the temporary directory. *)
Lemma under_safe tmp name : safeRelPath (Clean name) = true → ∃ cs, cs ≠ [] ∧ under tmp (Clean name) = tmp ++ cs.
Proof.
  unfold safeRelPath, Clean. destruct (IsAbs name) eqn:Ea.
  { unfold render. set (p := "/" +:+ Join (components name) "/"). assert (Hp : IsAbs p = true) by (apply HasPrefix_iff; by eexists).
    rewrite Hp. by destruct (_ || _). }
  unfold components. rewrite Ea. set (cs := clean_comps false (Split name "/"%char) []). intros Hs.
  destruct (render false cs =?s "") eqn:E1; [done|]. destruct (render false cs =?s ".") eqn:E2; [done|]. cbn [orb] in Hs.
  assert (Hne : cs ≠ []) by (intros E; rewrite E in E2; done).
  assert (Hr : render false cs = Join cs "/") by (by destruct cs). rewrite Hr in *.
  assert (Hsl : Forall (λ x, all_chars not_slash x = true) cs).
  { apply Forall_forall. intros x Hx. apply clean_comps_elem in Hx as [Hx|Hx]; [|by apply elem_of_nil in Hx].
    pose proof (Split_no_sep name "/"%char) as Hf. rewrite Forall_forall in Hf. exact (Hf x Hx). }
  assert (Hdd : ".." ∉ cs).
  { intros Hin. pose proof (clean_comps_bottom (Split name "/"%char) [] ltac:(by intros ?%elem_of_nil) Hin) as Hh. fold cs in Hh.
    destruct cs as [|c r]; [done|]. cbn in Hh. subst c. destruct (IsAbs _); [done|]. destruct r as [|d r]; [done|].
    change (Join (".." :: d :: r) "/") with ("../" +:+ Join (d :: r) "/") in Hs. rewrite map_str_app in Hs.
    assert (HasPrefix (map_str backslash_to_slash "../" +:+ map_str backslash_to_slash (Join (d :: r) "/")) "../" = true) as Hp
      by (apply HasPrefix_iff; by eexists). rewrite Hp in Hs. rewrite orb_true_r in Hs. by destruct (HasPrefix _ "/"). }
  exists cs. split; [done|]. unfold under. rewrite (Split_Join cs Hne Hsl), clean_comps_id; [by rewrite rev_involutive|].
  apply Forall_forall. intros x Hx. destruct (clean_comps_proper _ _ _ _ Hx) as [? ?]; [by intros ?%elem_of_nil|]. split_and!; try done. by intros ->.
Qed.

Lemma stale_of_snoc dir slug : stale_of (dir ++ [slug]) = dir ++ [slug +:+ ".arc-sync-stale"].
Proof. unfold stale_of. rewrite rev_app_distr. cbn. by rewrite rev_involutive. Qed.

(** Entries of one directory do not lead to each other. *)
Lemma sibling (dir : list string) x y cs : x ≠ y → ¬ (dir ++ [y]) `prefix_of` (dir ++ [x] ++ cs) ∧ ¬ (dir ++ [x] ++ cs) `prefix_of` (dir ++ [y]).
Proof.
  intros Hne. split; intros H%prefix_app_inv.
  - apply (prefix_cons_inv_1 _ _ _ _) in H. congruence.
  - apply (prefix_cons_inv_1 _ _ _ _) in H. congruence.
Qed.

Lemma sibling0 (dir : list string) x y : x ≠ y → ¬ (dir ++ [y]) `prefix_of` (dir ++ [x]) ∧ ¬ (dir ++ [x]) `prefix_of` (dir ++ [y]).
Proof. intros Hne. exact (sibling dir x y [] Hne). Qed.

(** ** What a call leaves alone *)

(** A bind whose continuation only runs on results the first part can return. *)
Lemma preserves_bind_post {T A B} (P : T → Prop) (R : A → Prop) (m : DBM T A) (k : A → DBM T B) :
  preserves P m → (∀ d a d', P (tables d) → m d = (Ok a, d') → R a) → (∀ a, R a → preserves P (k a)) → preserves P (db_bind m k).
Proof.
  intros Hm HR Hk d Hd. pose proof (Hm d Hd) as H1. unfold db_bind. destruct (m d) as [[a|e] d'] eqn:E; [|done].
  apply Hk; [exact (HR d a d' Hd E)|done].
Qed.

(** The tree at [q] is [x]. *)
Definition holds (q : list string) (x : Tree) (t : Tree) : Prop := get q t = Some x.

Definition apart (p q : list string) : Prop := ¬ p `prefix_of` q ∧ ¬ q `prefix_of` p.

Lemma put_holds p o q x t : apart p q → holds q x t → holds q x (put p o t).
Proof. intros [Hp Hq] Ht. unfold holds. by rewrite get_put_other. Qed.

Lemma RemoveAll_holds p q x : apart p q → preserves (holds q x) (RemoveAll p).
Proof.
  intros Ha. apply preserves_exec. intros t [] t' Ht. destruct (got p t); intros [= <-]; by apply put_holds.
Qed.

Lemma MkdirAll_holds p q x : ¬ q `prefix_of` p → preserves (holds q x) (MkdirAll p).
Proof.
  intros Hn. apply preserves_exec. intros t [] t' Ht. destruct (mkdir_all p t) as [t2|] eqn:E; cbn; [|done]. intros [= <-].
  destruct (mkdir_all_get _ _ _ _ _ E Ht) as (x' & Hx & He & _). unfold holds. by rewrite Hx, He.
Qed.

Lemma WriteFile_holds p c q x : apart p q → preserves (holds q x) (WriteFile p c).
Proof.
  intros Ha. apply preserves_exec. intros t [] t' Ht. unfold write_file.
  destruct (got (parent p) t), (got p t); cbn; intros [= <-]; by apply put_holds.
Qed.

Lemma rename_ok old new t t' :
  rename old new t = Ok t' → t' = t ∧ old = new ∨ ∃ x, get old t = Some x ∧ t' = put new (Some x) (put old None t) ∧
    ¬ old `prefix_of` new ∧ ¬ new `prefix_of` old ∧ ∀ m, get new t = Some (Dir m) → m = ∅.
Proof.
  unfold rename. destruct (get old t) as [x|]; [|done]. destruct (got (parent new) t); try done. case_bool_decide as Eo; [intros [= <-]; by left|].
  destruct (_ || _) eqn:Ep; [done|]. bool_prop. intros E. right. exists x. destruct x, (get new t) as [[c'|m']|]; try done; repeat case_bool_decide; simplify_eq; naive_solver.
Qed.

Lemma Rename_holds old new q x : apart old q → apart new q → preserves (holds q x) (Rename old new).
Proof.
  intros Ho Hn. apply preserves_exec. intros t [] t' Ht. destruct (rename old new t) as [t2|] eqn:E; cbn; [|done]. intros [= <-].
  apply rename_ok in E as [[-> _]|(y & _ & -> & _)]; [done|]. by apply put_holds, put_holds.
Qed.

(** A rename onto a directory that holds something fails. *)
Lemma Rename_onto old q m : m ≠ ∅ → apart old q → preserves (holds q (Dir m)) (Rename old q).
Proof.
  intros Hm Ho. apply preserves_exec. intros t [] t' Ht. destruct (rename old q t) as [t2|] eqn:E; cbn; [|done]. intros [= <-].
  apply rename_ok in E as [[-> _]|(y & _ & _ & _ & _ & H)]; [done|]. by destruct Hm; apply H.
Qed.

Lemma MkdirTemp_holds dir name q x : apart (dir ++ [name]) q → preserves (holds q x) (MkdirTemp dir name).
Proof.
  intros Ha. apply preserves_exec. intros t a t' Ht. destruct (got dir t); try done. case_bool_decide; [done|]. intros [= _ <-]. by apply put_holds.
Qed.

Lemma readMarker_run p d :
  ∃ fs, (readMarker p d).2 = mkDb (tables d) fs ∧
  ∀ mk, (readMarker p d).1 = Ok (Some mk) → ∃ b, get (p ++ [SkillMarkerFile]) (tables d) = Some (File b) ∧ decode_marker b = Some mk.
Proof.
  unfold readMarker, db_bind. rewrite attempt_run. pose proof (ReadFile_tables (p ++ [SkillMarkerFile]) d) as Ht.
  destruct (ReadFile _ d) as [r d1] eqn:Er. cbn [fst snd] in *. rewrite <- Ht in *. destruct r as [b|e].
  - assert (Hg : got (p ++ [SkillMarkerFile]) (tables d1) = GFile b).
    { apply exec_ok in Er. rewrite Ht. destruct (got _ (tables d)); by simplify_eq. }
    destruct (decode_marker b) as [mk|] eqn:Ed; cbn; exists (faults d1); (split; [by destruct d1|]); [|done]. intros mk' [= <-].
    exists b. split; [|done]. rewrite got_get in Hg. destruct (get _ _) as [[]|]; try done; [congruence|]. by destruct (got _ _).
  - destruct (IsNotExist e); [|exists (faults d1); split; [by destruct d1|done]]. rewrite attempt_run.
    pose proof (Stat_tables p d1) as Ht2. destruct (Stat p d1) as [[b|e'] d2]; cbn in *; exists (faults d2); rewrite <- Ht2; (split; [by destruct d2|done]).
Qed.

Lemma readMarker_preserves (P : Tree → Prop) p : preserves P (readMarker p).
Proof. intros d Hd. by destruct (readMarker_run p d) as (fs & -> & _). Qed.

Lemma Stat_preserves (P : Tree → Prop) p : preserves P (Stat p).
Proof. intros d Hd. by rewrite Stat_tables. Qed.

Lemma list_entries_preserves (P : Tree → Prop) dir l : preserves P (list_entries dir l).
Proof.
  induction l as [|[name []] l IH]; cbn; [apply preserves_ret| |done].
  apply preserves_bind; [apply preserves_attempt, readMarker_preserves|]. intros m. apply preserves_bind; [done|intros; apply preserves_ret].
Qed.

Lemma ListInstalled_preserves (P : Tree → Prop) dir : preserves P (ListInstalled dir).
Proof.
  apply preserves_bind; [apply preserves_attempt; intros d Hd; by rewrite ReadDir_tables|]. intros [l|e]; [apply list_entries_preserves|].
  case_if; [apply preserves_ret|apply preserves_fail].
Qed.

(** ** One skill *)

Section Local.
Context `{Hashing} `{Formats} (dir : list string) (baseURL : string) (download : string → string → result (string * string)) (random : string → string).

Lemma sibling_apart x y cs : x ≠ y → apart (dir ++ [x] ++ cs) (dir ++ [y]).
Proof. intros Hne. destruct (sibling dir x y cs Hne). by split. Qed.

Lemma sibling_apart0 x y : x ≠ y → apart (dir ++ [x]) (dir ++ [y]).
Proof. apply sibling_apart. Qed.

Lemma entry_not_prefix x : ¬ (dir ++ [x]) `prefix_of` dir.
Proof. intros [r Hr]. apply (f_equal length) in Hr. rewrite !length_app in Hr. cbn in Hr. lia. Qed.

Section Other.
Context (slug name : string) (x : Tree).
Hypotheses (Htmp : tmp_name random slug ≠ name) (Hstale : slug +:+ ".arc-sync-stale" ≠ name).
Let tmp := dir ++ [tmp_name random slug].
Let q := dir ++ [name].

Lemma below_tmp cs : apart (tmp ++ cs) q.
Proof. unfold tmp, q. rewrite <- app_assoc. by apply sibling_apart. Qed.

Lemma extract_one_holds e : preserves (holds q x) (extract_one tmp e).
Proof.
  unfold extract_one. case_if; [apply preserves_fail|]. bool_prop. destruct (under_safe tmp _ Heqb) as (cs & Hne & ->).
  assert (Hp : ∃ cs', parent (tmp ++ cs) = tmp ++ cs').
  { destruct cs as [|c cs] using rev_ind; [done|]. exists cs. by rewrite app_assoc, parent_snoc. }
  destruct Hp as (cs' & ->). destruct (eType e).
  - apply preserves_bind; [apply MkdirAll_holds, below_tmp|]. intros _. destruct (read_limited e); [apply WriteFile_holds, below_tmp|].
    apply preserves_bind; [apply WriteFile_holds, below_tmp|intros; apply preserves_fail].
  - apply MkdirAll_holds, below_tmp.
  - apply preserves_ret.
Qed.

Lemma extract_holds archive : preserves (holds q x) (extractTarGz archive tmp).
Proof.
  unfold extractTarGz. destruct (read_tar archive) as [[es broken]|]; [|apply preserves_fail]. apply preserves_bind.
  - induction es as [|e es IH]; cbn; [apply preserves_ret|]. apply preserves_bind; [apply extract_one_holds|done].
  - intros _. destruct broken; [apply preserves_fail|apply preserves_ret].
Qed.

Lemma swap_holds replace : slug ≠ name → preserves (holds q x) (swap tmp (dir ++ [slug]) replace).
Proof.
  intros Hne. assert (Hd : apart (dir ++ [slug]) q) by (by apply sibling_apart0).
  assert (Ht : apart tmp q) by (by apply sibling_apart0).
  assert (Hs : apart (dir ++ [slug +:+ ".arc-sync-stale"]) q) by (by apply sibling_apart0).
  unfold swap. rewrite stale_of_snoc. destruct replace; [|by apply Rename_holds]. cbv zeta.
  apply preserves_bind; [by apply preserves_attempt, RemoveAll_holds|]. intros _.
  apply preserves_bind; [by apply Rename_holds|]. intros _. apply preserves_bind; [by apply preserves_attempt, Rename_holds|]. intros [u|e].
  - apply preserves_bind; [by apply preserves_attempt, RemoveAll_holds|intros; apply preserves_ret].
  - apply preserves_bind; [by apply preserves_attempt, Rename_holds|intros; apply preserves_fail].
Qed.

(** [unpack] leaves [q] alone when its swap does. *)
Lemma unpack_holds version archive sha replace :
  ValidateSlug slug = Ok tt → preserves (holds q x) (swap tmp (dir ++ [slug]) replace) →
  preserves (holds q x) (unpack dir baseURL random slug version archive sha replace).
Proof.
  intros Hv Hsw. unfold unpack. apply preserves_bind.
  { apply MkdirAll_holds, entry_not_prefix. }
  intros _. apply (preserves_bind_post _ (λ p, p = tmp)); [apply MkdirTemp_holds; by apply sibling_apart0| |].
  { intros d p d' _ E. apply exec_ok in E. destruct (got dir _); try done. case_bool_decide; by simplify_eq. }
  intros p ->. apply preserves_bind.
  - apply preserves_attempt, preserves_bind; [apply extract_holds|]. intros _. apply preserves_bind.
    + apply WriteFile_holds. apply (below_tmp [SkillMarkerFile]).
    + intros _. by rewrite under_slug.
  - intros [u|e]; [apply preserves_ret|]. apply preserves_bind; [|intros; apply preserves_fail].
    apply preserves_attempt, RemoveAll_holds. by apply sibling_apart0.
Qed.

Lemma Install_other version : ValidateSlug slug = Ok tt → slug ≠ name → preserves (holds q x) (Install dir baseURL download random slug version).
Proof.
  intros Hv Hne. unfold Install. cbv zeta. apply preserves_bind; [apply preserves_attempt, readMarker_preserves|]. intros r.
  destruct (existing_of r) as [ex|]; [|apply preserves_fail]. apply preserves_bind; [apply preserves_attempt, Stat_preserves|]. intros st.
  case_if; [apply preserves_fail|]. destruct (accept download slug version) as [[archive sha]|]; [|apply preserves_fail].
  apply unpack_holds; [done|by apply swap_holds].
Qed.
End Other.

Lemma Remove_other slug name x : ValidateSlug slug = Ok tt → slug ≠ name → preserves (holds (dir ++ [name]) x) (Remove dir slug).
Proof.
  intros Hv Hne. unfold Remove. cbv zeta. rewrite under_slug by done.
  apply preserves_bind; [apply preserves_attempt, readMarker_preserves|]. intros [[mk|]|e].
  - by apply RemoveAll_holds, sibling_apart0.
  - apply preserves_fail.
  - case_if; [apply preserves_ret|apply preserves_fail].
Qed.

(** *** A directory without a marker *)

Definition stale_name (name : string) : Prop := ∃ s, name = s +:+ ".arc-sync-stale".

Section Hand.
Context (name : string) (m : gmap string Tree).
Hypotheses (Hmark : m !! SkillMarkerFile = None) (Hne : m ≠ ∅) (Hns : ¬ stale_name name).
Let q := dir ++ [name].

Lemma hand_not_managed d : holds q (Dir m) (tables d) → ∀ mk, (readMarker q d).1 ≠ Ok (Some mk).
Proof.
  intros Hd mk E. destruct (readMarker_run q d) as (fs & _ & Hr). destruct (Hr mk E) as (b & Hb & _).
  rewrite get_app, Hd in Hb. cbn in Hb. by rewrite Hmark in Hb.
Qed.

(** When the temporary name is taken by the directory, nothing is unpacked at all. *)
Lemma taken_tmp slug version archive sha replace :
  tmp_name random slug = name → preserves (holds q (Dir m)) (unpack dir baseURL random slug version archive sha replace).
Proof.
  intros Ht. unfold unpack. apply preserves_bind.
  { apply MkdirAll_holds, entry_not_prefix. }
  intros _ d Hd. assert (E : (MkdirTemp dir (tmp_name random slug) d).2 = mkDb (tables d) (next_fault (faults d)).2 ∧ ∃ e, (MkdirTemp dir (tmp_name random slug) d).1 = Err e).
  { unfold MkdirTemp, exec. destruct (next_fault (faults d)) as [[] fs]; [eauto|]. unfold holds, q in Hd. rewrite get_app in Hd.
    destruct (get dir (tables d)) as [[c|mm]|] eqn:Eg; [done| |done]. rewrite (proj2 (got_GDir _ _ _) Eg). cbn in Hd.
    destruct (mm !! name) as [y|] eqn:Ey; [|done]. rewrite Ht, Ey. rewrite bool_decide_true by eauto. eauto. }
  destruct E as [E2 [e E1]]. unfold db_bind at 1. destruct (MkdirTemp _ _ d) as [r d1]. cbn in E1, E2. by subst.
Qed.

Lemma Install_hand slug version : ValidateSlug slug = Ok tt → preserves (holds q (Dir m)) (Install dir baseURL download random slug version).
Proof.
  intros Hv. assert (Hst : slug +:+ ".arc-sync-stale" ≠ name) by (intros <-; apply Hns; by exists slug).
  destruct (decide (tmp_name random slug = name)) as [Ht|Ht].
  { unfold Install. cbv zeta. apply preserves_bind; [apply preserves_attempt, readMarker_preserves|]. intros r.
    destruct (existing_of r) as [ex|]; [|apply preserves_fail]. apply preserves_bind; [apply preserves_attempt, Stat_preserves|]. intros st.
    case_if; [apply preserves_fail|]. destruct (accept download slug version) as [[archive sha]|]; [|apply preserves_fail]. by apply taken_tmp. }
  destruct (decide (slug = name)) as [E|Hd]; [|by apply Install_other].
  unfold Install. cbv zeta. rewrite under_slug by done. rewrite E. fold q.
  intros d Hd. unfold db_bind at 1. rewrite attempt_run. pose proof (hand_not_managed d Hd) as Hm.
  pose proof (readMarker_preserves (holds q (Dir m)) q d Hd) as Hd1. destruct (readMarker q d) as [r d1]. cbn [fst snd] in *.
  destruct (existing_of r) as [ex|] eqn:Ex; [|done].
  assert (ex = None) as -> by (destruct r as [[mk|]|e]; cbn in Ex; [by destruct (Hm mk)|congruence|case_if; congruence]).
  revert d1 Hd1. fold (preserves (holds q (Dir m)) (db_bind (attempt (Stat q)) (λ st,
    if is_ok st && bool_decide (@None SkillMarker = None) then db_fail ("skill " +:+ name +:+ " exists but is not arc-sync-managed")
    else match accept download name version with Err e => db_fail e | Ok (archive, sha) => unpack dir baseURL random name version archive sha (bool_decide (is_Some (@None SkillMarker))) end))).
  apply preserves_bind; [apply preserves_attempt, Stat_preserves|]. intros st. case_if; [apply preserves_fail|].
  destruct (accept _ _ _) as [[archive sha]|]; [|apply preserves_fail]. rewrite bool_decide_false by (by intros [? [=]]). subst slug.
  apply unpack_holds; [done..|]. apply Rename_onto; [done|]. by apply sibling_apart0.
Qed.

Lemma Remove_hand slug : ValidateSlug slug = Ok tt → preserves (holds q (Dir m)) (Remove dir slug).
Proof.
  intros Hv. destruct (decide (slug = name)) as [E|Hd]; [|by apply Remove_other].
  unfold Remove. cbv zeta. rewrite under_slug by done. rewrite E. fold q. intros d Hd. unfold db_bind. rewrite attempt_run.
  pose proof (hand_not_managed d Hd) as Hm. pose proof (readMarker_preserves (holds q (Dir m)) q d Hd) as Hd1.
  destruct (readMarker q d) as [[[mk|]|e] d1]; cbn [fst snd] in *; [by destruct (Hm mk)|done|by case_if].
Qed.
End Hand.
End Local.

(** ** Specifications of calls

    [spec P m Q R]: from a tree with [P], [m] ends in [Q] of its result or, when it
    reports an error, in [R], whichever calls fail. *)
Definition spec {T A} (P : T → Prop) (m : DBM T A) (Q : A → T → Prop) (R : T → Prop) : Prop :=
  ∀ d, P (tables d) → match m d with (Ok a, d') => Q a (tables d') | (Err _, d') => R (tables d') end.

Section Spec.
Context {T : Type}.

Lemma spec_ret {A} (P : T → Prop) (a : A) (Q : A → T → Prop) R : (∀ t, P t → Q a t) → spec P (db_ret a) Q R.
Proof. intros HQ d Hd. by apply HQ. Qed.

Lemma spec_fail {A} (P : T → Prop) e (Q : A → T → Prop) (R : T → Prop) : (∀ t, P t → R t) → spec P (db_fail e) Q R.
Proof. intros HR d Hd. by apply HR. Qed.

Lemma spec_bind {A B} (P : T → Prop) (m : DBM T A) (k : A → DBM T B) (M : A → T → Prop) Q R :
  spec P m M R → (∀ a, spec (M a) (k a) Q R) → spec P (db_bind m k) Q R.
Proof.
  intros Hm Hk d Hd. specialize (Hm d Hd). unfold db_bind. destruct (m d) as [[a|e] d1]; [|done]. by apply Hk.
Qed.

Lemma spec_attempt {A} (P : T → Prop) (m : DBM T A) (Q : A → T → Prop) R R' :
  spec P m Q R → spec P (attempt m) (λ r t, match r with Ok a => Q a t | Err _ => R t end) R'.
Proof. intros Hm d Hd. specialize (Hm d Hd). rewrite attempt_run. by destruct (m d) as [[a|e] d1]. Qed.

Lemma spec_preserves {A} (P : T → Prop) (m : DBM T A) : preserves P m → spec P m (λ _, P) P.
Proof. intros Hm d Hd. specialize (Hm d Hd). by destruct (m d) as [[a|e] d1]. Qed.

Lemma spec_weaken {A} (P P' : T → Prop) (m : DBM T A) (Q Q' : A → T → Prop) (R R' : T → Prop) :
  spec P' m Q' R' → (∀ t, P t → P' t) → (∀ a t, Q' a t → Q a t) → (∀ t, R' t → R t) → spec P m Q R.
Proof. intros Hm HP HQ HR d Hd. specialize (Hm d (HP _ Hd)). destruct (m d) as [[a|e] d1]; auto. Qed.

Lemma spec_exec {A} (P : T → Prop) (f : T → result (A * T)) (Q : A → T → Prop) (R : T → Prop) :
  (∀ t, P t → R t) → (∀ t a t', P t → f t = Ok (a, t') → Q a t') → spec P (exec f) Q R.
Proof.
  intros HR HQ d Hd. unfold exec. destruct (next_fault (faults d)) as [[] fs]; [by apply HR|].
  destruct (f (tables d)) as [[a t]|e] eqn:E; [by eapply HQ|by apply HR].
Qed.
End Spec.

(** ** Every marker reads back *)

Lemma parse_chars_quoted s rest : parse_chars (S (String.length (escape s +:+ String dquote rest))) (escape s +:+ String dquote rest) = Some (s, rest).
Proof. apply parse_escaped. rewrite str_length_app. pose proof (escape_length s). lia. Qed.

Lemma skip_ws_quote s : skip_ws (String dquote s) = String dquote s.
Proof. by apply skip_ws_head. Qed.

Lemma print_str_app s rest : print_str s +:+ rest = String dquote (escape s +:+ String dquote rest).
Proof. unfold print_str. by rewrite str_app_cons, str_app_assoc. Qed.

Lemma parse_quoted n s rest : parse_value (S n) (print_str s +:+ rest) = Some (JStr s, rest).
Proof.
  cbn [parse_value]. rewrite print_str_app, skip_ws_quote. cbn [Ascii.eqb dquote Bool.eqb]. rewrite parse_chars_quoted. done.
Qed.

(** One line of the marker, and what follows it. *)
Lemma parse_marker_line n k v rest :
  parse_members (S (S n)) (marker_line k v +:+ rest) =
  match skip_ws rest with
  | String c3 r3 => if Ascii.eqb c3 ","%char then '(l, r4) ← parse_members (S n) r3; Some ((k, JStr v) :: l, r4)
                    else if Ascii.eqb c3 "}"%char then Some ([(k, JStr v)], r3) else None
  | EmptyString => None
  end.
Proof.
  remember (S n) as n'. cbn [parse_members]. unfold marker_line. rewrite !str_app_assoc.
  change (skip_ws (nl +:+ "  " +:+ print_str k +:+ ": " +:+ print_str v +:+ rest)) with (skip_ws (print_str k +:+ ": " +:+ print_str v +:+ rest)).
  rewrite (print_str_app k), skip_ws_quote. cbn [Ascii.eqb dquote Bool.eqb]. rewrite parse_chars_quoted. cbn [mbind option_bind].
  change (skip_ws (": " +:+ print_str v +:+ rest)) with (String ":" (" " +:+ print_str v +:+ rest)).
  change (Ascii.eqb ":" ":") with true. cbv iota. subst n'.
  assert (E : parse_value (S n) (" " +:+ print_str v +:+ rest) = Some (JStr v, rest)).
  { rewrite <- (parse_quoted n v rest). cbn [parse_value]. by change (skip_ws (" " +:+ print_str v +:+ rest)) with (skip_ws (print_str v +:+ rest)). }
  rewrite E. done.
Qed.

Lemma marker_text_json n m :
  parse_value (S (S (S (S (S (S n)))))) (marker_text m) =
  Some (JObj [("slug", JStr (mkSlug m)); ("version", JStr (mkVersion_ m)); ("sha256", JStr (mkSHA256 m)); ("relay_url", JStr (mkRelayURL m))], "").
Proof.
  set (body := marker_line "slug" (mkSlug m) +:+ "," +:+ marker_line "version" (mkVersion_ m) +:+ "," +:+
    marker_line "sha256" (mkSHA256 m) +:+ "," +:+ marker_line "relay_url" (mkRelayURL m) +:+ nl +:+ "}").
  change (marker_text m) with (String "{" body). remember (S (S (S (S (S n))))) as k eqn:Ek. cbn [parse_value].
  rewrite skip_ws_head by done. change (Ascii.eqb "{" dquote) with false. change (Ascii.eqb "{" "[") with false. change (Ascii.eqb "{" "{") with true. cbv iota.
  assert (Hs : ∃ r, skip_ws body = String dquote r).
  { unfold body, marker_line at 1. rewrite !str_app_assoc.
    match goal with |- ∃ r, skip_ws (nl +:+ "  " +:+ ?x) = _ => change (skip_ws (nl +:+ "  " +:+ x)) with (skip_ws x) end.
    rewrite print_str_app, skip_ws_quote. eauto. }
  destruct Hs as [r ->]. change (Ascii.eqb dquote "}") with false. cbv iota. subst k. unfold body.
  rewrite parse_marker_line.
  do 3 (match goal with |- context [skip_ws ("," +:+ ?x)] => change (skip_ws ("," +:+ x)) with (String "," x) end;
        change (Ascii.eqb "," ",") with true; cbv iota; rewrite parse_marker_line).
  done.
Qed.

Lemma decode_marker_text m : decode_marker (marker_text m) = Some m.
Proof.
  unfold decode_marker, struct_fields, Unmarshal.
  assert (Hl : ∃ n, String.length (marker_text m) = S (S (S (S (S n))))).
  { unfold marker_text, marker_line. rewrite !str_length_app. cbn. eauto. }
  destruct Hl as [n ->]. rewrite marker_text_json. by destruct m.
Qed.

(** ** Names that cannot collide *)

Lemma slug_no_dot slug : ValidateSlug slug = Ok tt → all_chars (λ c, negb (Ascii.eqb c "."%char)) slug = true.
Proof.
  unfold ValidateSlug. destruct (slug =?s ""); [done|]. destruct (slugPattern slug) eqn:Ep; [|done]. intros _.
  unfold slugPattern in Ep. destruct slug as [|c [|d r]]; try done. apply andb_true_iff in Ep as [[Hc Hr]%andb_true_iff _].
  assert (Hi : ∀ c, slug_inner c = true → negb (Ascii.eqb c "."%char) = true).
  { intros x Hx. destruct (Ascii.eqb_spec x "."); [by subst|done]. }
  change (negb (Ascii.eqb c ".") && all_chars (λ c, negb (Ascii.eqb c ".")) (String d r) = true).
  rewrite Hi by (unfold slug_inner; by rewrite Hc). by eapply all_chars_impl in Hr; [|exact Hi].
Qed.

Lemma slug_not_tmp random slug slug' : ValidateSlug slug = Ok tt → tmp_name random slug' ≠ slug.
Proof. intros Hv%slug_no_dot E. unfold tmp_name in E. by rewrite <- E in Hv. Qed.

Lemma slug_not_stale slug s : ValidateSlug slug = Ok tt → s +:+ ".arc-sync-stale" ≠ slug.
Proof. intros Hv%slug_no_dot E. rewrite <- E, all_chars_app in Hv. bool_prop. done. Qed.

Lemma tmp_not_stale random slug s : ValidateSlug slug = Ok tt → tmp_name random s ≠ slug +:+ ".arc-sync-stale".
Proof.
  intros Hv%slug_no_dot E. unfold tmp_name in E.
  destruct slug as [|c slug]; [done|]. rewrite str_app_cons in E. injection E as <- _. done.
Qed.

Lemma apart_sym p q : apart p q → apart q p.
Proof. by intros [? ?]. Qed.

(** ** Installing *)

Section Install.
Context `{Hashing} `{Formats} (dir : list string) (baseURL : string) (download : string → string → result (string * string)) (random : string → string).
Context (slug : string) (Hv : ValidateSlug slug = Ok tt).
Let dest := dir ++ [slug].
Let stale := dir ++ [slug +:+ ".arc-sync-stale"].
Let tmp := dir ++ [tmp_name random slug].

Lemma dest_stale : apart dest stale.
Proof. apply sibling_apart0. intros E. by apply (slug_not_stale slug slug Hv). Qed.

Lemma tmp_dest : apart tmp dest.
Proof. apply sibling_apart0. by apply slug_not_tmp. Qed.

Lemma tmp_stale : apart tmp stale.
Proof. apply sibling_apart0. by apply tmp_not_stale. Qed.

(** The old install is where it was, or was moved aside. *)
Definition old_kept (x : Tree) (t : Tree) : Prop := holds dest x t ∨ holds stale x t.

Lemma Rename_moves old new x :
  apart old new → spec (holds old x) (Rename old new) (λ _, holds new x) (holds old x).
Proof.
  intros Ha. apply spec_exec; [done|]. intros t [] t' Ht. destruct (rename old new t) as [t2|] eqn:E; cbn; [|done]. intros [= <-].
  unfold holds in Ht. pose proof E as E'. unfold rename in E'. rewrite Ht in E'.
  destruct (got (parent new) t) as [|mm| |] eqn:Ep; try done. clear E'.
  apply rename_ok in E as [[-> ->]|(y & Hy & -> & Hp1 & Hp2 & _)]; [done|]. simplify_eq. unfold holds.
  assert (Hnn : new ≠ []) by (intros ->; apply Hp2, prefix_nil).
  apply got_GDir in Ep. assert (Hd : ∃ z, get (parent new) (put old None t) = Some z ∧ is_dir z = true).
  { destruct (decide (parent new `prefix_of` old)) as [[r Hr]|Hn].
    - destruct (decide (r = [])) as [->|Hrn]; [exfalso; apply Hp1; rewrite Hr, app_nil_r; apply prefix_take|].
      rewrite Hr, (get_put_below _ _ _ _ _ Hrn Ep). eexists. split; [done|]. by apply put_is_dir.
    - rewrite get_put_other; [eauto| |done]. intros Hpr. apply Hp1. etrans; [exact Hpr|]. unfold parent. apply prefix_take. }
  destruct Hd as (z & Hz & Hzd). by eapply get_put_same.
Qed.

(** Preserved facts as specifications. *)
Lemma spec_both {A} (P : Tree → Prop) (m : FSM A) : preserves P m → spec P (attempt m) (λ _, P) P.
Proof. intros Hm. apply spec_preserves, preserves_attempt, Hm. Qed.

Lemma swap_keeps_old x : spec (holds dest x) (swap tmp dest true) (λ _ _, True) (old_kept x).
Proof.
  unfold swap. replace (stale_of dest) with stale by (unfold dest; by rewrite stale_of_snoc). cbv zeta.
  eapply spec_bind.
  { eapply spec_weaken; [apply spec_both, RemoveAll_holds, apart_sym, dest_stale|done|intros ? ? Ht; exact Ht|by left]. }
  intros ?. eapply spec_bind.
  { eapply spec_weaken; [apply Rename_moves, dest_stale|done|intros ? ? Ht; exact Ht|by left]. }
  intros ?. eapply spec_bind.
  { eapply (spec_attempt _ _ (λ _ _, True) (holds stale x)). eapply spec_weaken;
      [apply spec_preserves, (Rename_holds tmp dest stale x); [apply tmp_stale|apply dest_stale]|done|done|done]. }
  intros [u|e].
  - eapply (spec_bind _ _ _ (λ _ _, True)); [|intros r; by apply spec_ret]. intros d _. by rewrite attempt_run.
  - eapply (spec_bind _ _ _ (λ _, old_kept x)); [|intros r; by apply spec_fail].
    eapply spec_weaken; [eapply (spec_attempt _ _ _ _ (λ _, False)), Rename_moves, apart_sym, dest_stale|done| |done].
    intros [v|e'] t Ht; [by left|by right].
Qed.

Lemma unpack_keeps_old version archive sha m :
  spec (holds dest (Dir m)) (unpack dir baseURL random slug version archive sha true) (λ _ _, True) (old_kept (Dir m)).
Proof.
  assert (Hts : slug +:+ ".arc-sync-stale" ≠ slug) by (by apply slug_not_stale). assert (Htd : tmp_name random slug ≠ slug) by (by apply slug_not_tmp).
  unfold unpack. eapply spec_bind.
  { eapply spec_weaken; [apply spec_preserves, (MkdirAll_holds dir dest (Dir m)), entry_not_prefix|done|intros ? ? Ht; exact Ht|by left]. }
  intros ?. eapply (spec_bind _ _ _ (λ p t, p = tmp ∧ holds dest (Dir m) t)).
  { apply spec_exec; [by left|]. intros t p t' Ht. destruct (got dir t); try done. case_bool_decide; [done|]. intros [= <- <-].
    split; [done|]. apply put_holds; [apply tmp_dest|done]. }
  intros p. eapply (spec_bind _ _ _ (λ r t, match r with Ok _ => True | Err _ => p = tmp ∧ old_kept (Dir m) t end)).
  { intros d [-> Hd]. rewrite attempt_run. cbv iota.
    assert (Hspec : spec (holds dest (Dir m)) (extractTarGz archive tmp ;;; writeMarker tmp (mkMarker slug version sha baseURL) ;;; swap tmp (under dir slug) true)
      (λ _ _, True) (old_kept (Dir m))).
    { eapply spec_bind.
      { eapply spec_weaken; [exact (spec_preserves _ _ (extract_holds dir random slug slug (Dir m) Htd archive))|done|intros ? ? Ht; exact Ht|by left]. }
      intros ?. eapply spec_bind.
      { eapply spec_weaken; [apply spec_preserves, WriteFile_holds, (below_tmp dir random slug slug Htd [SkillMarkerFile])|done|intros ? ? Ht; exact Ht|by left]. }
      intros ?. rewrite under_slug by done. apply swap_keeps_old. }
    specialize (Hspec d Hd). destruct (db_bind _ _ d) as [[u|e] d1]; [done|]. by split. }
  intros [u|e]; [by apply spec_ret|]. eapply (spec_bind _ _ _ (λ _, old_kept (Dir m))); [|intros; by apply spec_fail].
  intros d [-> Hd]. rewrite attempt_run. cbv iota. destruct Hd as [Hd|Hd].
  - left. by apply (RemoveAll_holds tmp dest (Dir m) tmp_dest).
  - right. by apply (RemoveAll_holds tmp stale (Dir m) tmp_stale).
Qed.

(** An install that reports an error, at whichever system call and
    with whatever failing after it, leaves the previous install of the skill complete: at
    its place, or under the name it was moved to when moving it back failed too. *)
Theorem failed_install_keeps_old : ∀ version m d e,
  holds dest (Dir m) (tables d) → m ≠ ∅ →
  outcome (Install dir baseURL download random slug version) d = Err e →
  old_kept (Dir m) (final (Install dir baseURL download random slug version) d).
Proof.
  intros version m d e Hd Hm. assert (Hspec : spec (holds dest (Dir m)) (Install dir baseURL download random slug version) (λ _ _, True) (old_kept (Dir m))).
  2: { specialize (Hspec d Hd). unfold outcome, final. by destruct (Install _ _ _ _ _ _ d) as [[mk|e'] d1]. }
  assert (Hts : slug +:+ ".arc-sync-stale" ≠ slug) by (by apply slug_not_stale). assert (Htd : tmp_name random slug ≠ slug) by (by apply slug_not_tmp).
  unfold Install. cbv zeta. eapply spec_bind.
  { eapply spec_weaken; [apply spec_both, readMarker_preserves|done|intros ? ? Ht; exact Ht|by left]. }
  intros r. destruct (existing_of r) as [ex|]; [|apply spec_fail; by left]. eapply spec_bind.
  { eapply spec_weaken; [apply spec_both, Stat_preserves|done|intros ? ? Ht; exact Ht|by left]. }
  intros st. case_if; [apply spec_fail; by left|]. destruct (accept download slug version) as [[archive sha]|]; [|apply spec_fail; by left].
  destruct ex as [mk|]; [rewrite bool_decide_true by eauto; apply unpack_keeps_old|]. rewrite bool_decide_false by (by intros [? [=]]).
  eapply spec_weaken; [apply spec_preserves, (unpack_holds dir baseURL random slug slug (Dir m) Htd Hts); [done|]|done|done|by left].
  apply Rename_onto; [done|apply tmp_dest].
Qed.

(** *** What a successful install leaves *)

Definition marked (mk : SkillMarker) (t : Tree) : Prop := holds (dest ++ [SkillMarkerFile]) (File (marker_text mk)) t.

Lemma swap_marks mk replace :
  spec (holds (tmp ++ [SkillMarkerFile]) (File (marker_text mk))) (swap tmp dest replace) (λ _, marked mk) (λ _, True).
Proof.
  assert (Hmove : spec (holds (tmp ++ [SkillMarkerFile]) (File (marker_text mk))) (Rename tmp dest) (λ _, marked mk) (λ _, True)).
  { intros d Hd. unfold holds in Hd. rewrite get_app in Hd. destruct (get tmp (tables d)) as [x|] eqn:Ex; [|done]. cbn in Hd.
    pose proof (Rename_moves tmp dest x tmp_dest d Ex) as Hr. destruct (Rename tmp dest d) as [[u|e] d1]; [|done].
    unfold marked, holds. by rewrite get_app, Hr. }
  unfold swap. destruct replace; [|exact Hmove]. replace (stale_of dest) with stale by (unfold dest; by rewrite stale_of_snoc). cbv zeta.
  assert (Hst : apart stale (tmp ++ [SkillMarkerFile])).
  { apply apart_sym. unfold tmp, stale. rewrite <- app_assoc. apply sibling_apart. by apply tmp_not_stale. }
  assert (Hdt : apart dest (tmp ++ [SkillMarkerFile])).
  { apply apart_sym. unfold tmp, dest. rewrite <- app_assoc. apply sibling_apart. by apply slug_not_tmp. }
  eapply spec_bind; [eapply spec_weaken; [apply spec_both, RemoveAll_holds, Hst|done|intros ? ? Ht; exact Ht|done]|]. intros ?.
  eapply spec_bind; [eapply spec_weaken; [apply spec_preserves, (Rename_holds dest stale _ (File (marker_text mk)) Hdt Hst)|done|intros ? ? Ht; exact Ht|done]|]. intros ?.
  eapply spec_bind; [eapply (spec_attempt _ _ _ (λ _, True)), Hmove|]. intros [u|e].
  - eapply (spec_bind _ _ _ (λ _, marked mk)); [|intros r; by apply spec_ret]. eapply spec_weaken; [apply spec_both, (RemoveAll_holds stale)|done|intros ? ? Ht; exact Ht|done].
    apply apart_sym. unfold dest, stale. rewrite <- app_assoc. apply sibling_apart. intros E. by apply (slug_not_stale slug slug Hv).
  - intros d _. unfold db_bind. rewrite attempt_run. done.
Qed.

Lemma WriteFile_spec p c P : spec P (WriteFile p c) (λ _ t, p ≠ [] → holds p (File c) t) (λ _, True).
Proof.
  apply spec_exec; [done|]. intros t [] t' _. unfold write_file. destruct (got (parent p) t) eqn:Ep; try done. destruct (got p t); cbn; try done; intros [= <-] Hne;
    apply got_GDir in Ep; by eapply get_put_same.
Qed.

(** The marker of an install, and the archive it was made from. *)
Definition install_post (version : string) (mk : SkillMarker) (t : Tree) : Prop :=
  marked mk t ∧ ∃ archive, accept download slug version = Ok (archive, mkSHA256 mk) ∧ mk = mkMarker slug version (mkSHA256 mk) baseURL.

Lemma Install_spec version : spec (λ _, True) (Install dir baseURL download random slug version) (install_post version) (λ _, True).
Proof.
  unfold Install. cbv zeta. eapply (spec_bind _ _ _ (λ _ _, True)); [intros d _; by rewrite attempt_run|]. intros r.
  destruct (existing_of r) as [ex|]; [|by apply spec_fail]. eapply (spec_bind _ _ _ (λ _ _, True)); [intros d _; by rewrite attempt_run|]. intros st.
  case_if; [by apply spec_fail|]. destruct (accept download slug version) as [[archive sha]|] eqn:Ea; [|by apply spec_fail].
  unfold unpack. eapply (spec_bind _ _ _ (λ _ _, True)); [apply spec_exec; by intros|]. intros ?.
  eapply (spec_bind _ _ _ (λ p _, p = tmp)).
  { apply spec_exec; [done|]. intros t p t' _. destruct (got dir t); try done. clear Heqb. case_bool_decide; [done|]. by intros [= <- _]. }
  intros p. set (mk := mkMarker slug version sha baseURL).
  eapply (spec_bind _ _ _ (λ r t, match r with Ok _ => marked mk t | Err _ => True end)).
  { intros d ->. assert (Hspec : spec (λ _, True) (extractTarGz archive tmp ;;; writeMarker tmp mk ;;; swap tmp (under dir slug) (bool_decide (is_Some ex))) (λ _, marked mk) (λ _, True)).
    { eapply (spec_bind _ _ _ (λ _ _, True)); [intros d1 _; by destruct (extractTarGz _ _ d1) as [[]]|]. intros ?.
      eapply spec_bind; [apply WriteFile_spec|]. intros ?. rewrite under_slug by done.
      eapply spec_weaken; [apply swap_marks| |intros ? ? Ht; exact Ht|done]. intros t Ht. apply Ht. by destruct tmp. }
    rewrite attempt_run. specialize (Hspec d I). by destruct (db_bind _ _ d) as [[u|e] d1]. }
  intros [u|e].
  - apply spec_ret. intros t Ht. split; [exact Ht|]. by exists archive.
  - intros d _. unfold db_bind. by rewrite attempt_run.
Qed.
End Install.

(** ** A whole run *)

Section Run.
Context `{Hashing} `{Formats} (dir : list string) (baseURL : string) (download : string → string → result (string * string)) (random : string → string).
Context (shuffle : gmap string InstalledSkill → list (string * InstalledSkill)) (Hshuffle : ∀ m, shuffle m ≡ₚ map_to_list m).

Local Abbreviation sync_ := (Sync dir baseURL download random shuffle).

(** Every marker in the skills directory names a slug. *)
Definition markers_valid (t : Tree) : Prop :=
  ∀ n b mk, get (dir ++ [n] ++ [SkillMarkerFile]) t = Some (File b) → decode_marker b = Some mk → ValidateSlug (mkSlug mk) = Ok tt.

Definition slug_if_managed (i : InstalledSkill) : Prop := isManaged i = true → ValidateSlug (isSlug i) = Ok tt.

Lemma list_entries_valid l : spec markers_valid (list_entries dir l) (λ il _, Forall slug_if_managed il) (λ _, True).
Proof.
  induction l as [|[name []] l IH]; cbn; [by apply spec_ret| |done].
  eapply (spec_bind _ _ _ (λ r t, markers_valid t ∧ slug_if_managed (local_entry name (dir ++ [name]) r))).
  - intros d Hd. rewrite attempt_run. destruct (readMarker_run (dir ++ [name]) d) as (fs & -> & Hm). cbn. split; [done|].
    destruct (readMarker (dir ++ [name]) d) as [[[mk|]|e] d1]; cbn in *; [intros _|done|done]. destruct (Hm mk eq_refl) as (b & Hb & Hdec).
    rewrite <- app_assoc in Hb. eapply Hd; eauto.
  - intros r d [Hd Hr]. unfold db_bind. specialize (IH d Hd). destruct (list_entries dir l d) as [[il|e] d1]; [|done]. cbn. by constructor.
Qed.

Lemma ListInstalled_valid : spec markers_valid (ListInstalled dir) (λ il _, Forall slug_if_managed il) (λ _, True).
Proof.
  unfold ListInstalled. eapply (spec_bind _ _ _ (λ r t, markers_valid t)).
  - intros d1 Hd1. rewrite attempt_run. by rewrite ReadDir_tables.
  - intros [l|e]; [apply list_entries_valid|]. case_if; [by apply spec_ret|by apply spec_fail].
Qed.

Lemma by_slug_elem (il : list InstalledSkill) slug cur : by_slug il !! slug = Some cur → cur ∈ il ∧ isSlug cur = slug.
Proof.
  unfold by_slug. assert (Hg : ∀ m : gmap string InstalledSkill, foldl (λ m i, <[isSlug i := i]> m) m il !! slug = Some cur → m !! slug = Some cur ∨ (cur ∈ il ∧ isSlug cur = slug)).
  { induction il as [|i il IH]; intros m; cbn; [auto|]. intros [Hm|[? ?]]%IH; [|set_solver]. destruct (decide (isSlug i = slug)) as [Es|Hne].
    - rewrite Es, lookup_insert_eq in Hm. simplify_eq. set_solver.
    - rewrite lookup_insert_ne in Hm by done. auto. }
  intros [Hm|?]%Hg; [by rewrite lookup_empty in Hm|done].
Qed.

Lemma shuffled_valid il : Forall slug_if_managed il → ∀ slug cur, (slug, cur) ∈ shuffle (by_slug il) → isManaged cur = true → ValidateSlug slug = Ok tt.
Proof.
  intros Hl slug cur Hin Hman. rewrite Hshuffle in Hin. apply elem_of_map_to_list, by_slug_elem in Hin as [Hin <-].
  rewrite Forall_forall in Hl. by apply Hl.
Qed.

(** The rule for a whole run: what every install of an assigned skill and every removal of
    another one keeps. *)
Lemma Sync_preserves (P : Tree → Prop) dry rows :
  Forall (λ a, ValidateSlug (agSlug a) = Ok tt) (omap id rows) →
  (∀ slug v, ValidateSlug slug = Ok tt → preserves P (Install dir baseURL download random slug v)) →
  (∀ slug, ValidateSlug slug = Ok tt → preserves P (Remove dir slug)) →
  ∀ d, markers_valid (tables d) → P (tables d) → P (final (sync_ dry (Ok rows)) d).
Proof.
  intros Hrows HI HR d Hm Hd. unfold final, Sync. set (rs := omap id rows) in *. clearbody rs.
  pose proof ListInstalled_valid as Hl.
  specialize (Hl d Hm). unfold db_bind at 1. pose proof (ListInstalled_preserves P dir d Hd) as Hd1.
  destruct (ListInstalled dir d) as [[il|e] d1]; [|done]. cbn in Hd1. revert d1 Hd1 Hl. intros d1 Hd1 Hl.
  assert (Hs : preserves P (db_bind (sync_assigned dir baseURL download random dry (by_slug il) rs empty_report)
    (λ rep, retire_all dir dry (map agSlug rs) (shuffle (by_slug il)) rep))); [|by apply Hs].
  apply preserves_bind.
  - generalize empty_report. induction Hrows as [|a rs Ha _ IH]; intros rep; cbn; [apply preserves_ret|].
    apply preserves_bind; [|done]. unfold sync_skill. cbv zeta.
    repeat case_match; try apply preserves_ret; (apply preserves_bind; [apply preserves_attempt; by apply HI|]; intros []; apply preserves_ret).
  - intros rep. pose proof (shuffled_valid il Hl) as Hv.
    revert rep. induction (shuffle (by_slug il)) as [|[slug cur] l IH]; intros rep; cbn; [apply preserves_ret|].
    assert (Hv' : ∀ slug cur, (slug, cur) ∈ l → isManaged cur = true → ValidateSlug slug = Ok tt) by (intros; eapply Hv; [right|]; eauto).
    case_bool_decide; [by apply IH|]. apply preserves_bind; [|intros; by apply IH]. unfold retire. case_if; [apply preserves_ret|]. bool_prop.
    case_if; [apply preserves_ret|]. apply preserves_bind; [apply preserves_attempt, HR; eapply Hv; [left|done]|]. intros []; apply preserves_ret.
Qed.

(** C19: Whatever the relay assigns and serves, and whichever system
    calls fail, a run never changes a directory of the skills directory that holds
    something but no marker, unless its name is that of a moved-aside install. *)
Theorem hand_installed_untouched : ∀ dry rows d name m,
  Forall (λ a, ValidateSlug (agSlug a) = Ok tt) (omap id rows) → markers_valid (tables d) →
  get (dir ++ [name]) (tables d) = Some (Dir m) → m !! SkillMarkerFile = None → m ≠ ∅ → ¬ stale_name name →
  get (dir ++ [name]) (final (Sync dir baseURL download random shuffle dry (Ok rows)) d) = Some (Dir m).
Proof.
  intros dry rows d name m Hrows Hmv Hd Hmark Hne Hns. apply (Sync_preserves (holds (dir ++ [name]) (Dir m))); try done.
  - intros slug v Hv. by apply Install_hand.
  - intros slug Hv. by apply Remove_hand.
Qed.

(** ** Reports *)

(** A report entry of a real run is on disk. *)
Definition on_disk (a : SkillSyncAction) (t : Tree) : Prop :=
  ∃ sha, marked dir (acSlug a) (mkMarker (acSlug a) (acVersion a) sha baseURL) t.

Definition written (rep : SkillSyncReport) : list SkillSyncAction := spInstalled rep ++ spUpdated rep.

Definition truthful (rep : SkillSyncReport) (t : Tree) : Prop := Forall (λ a, on_disk a t) (written rep).

Lemma on_disk_holds a t : on_disk a t ↔ ∃ x sha, holds (dir ++ [acSlug a]) x t ∧ get [SkillMarkerFile] x = Some (File (marker_text (mkMarker (acSlug a) (acVersion a) sha baseURL))).
Proof.
  unfold on_disk, marked, holds. split.
  - intros [sha E]. rewrite get_app in E. destruct (get (dir ++ [acSlug a]) t) as [x|] eqn:Ex; [|done]. by exists x, sha.
  - intros (x & sha & Hx & E). exists sha. by rewrite get_app, Hx.
Qed.

Lemma on_disk_preserved {A} (m : FSM A) a : (∀ x, preserves (holds (dir ++ [acSlug a]) x) m) → preserves (on_disk a) m.
Proof.
  intros Hp d (x & sha & Hx & E)%on_disk_holds. apply on_disk_holds. exists x, sha. split; [by apply Hp|done].
Qed.

Lemma Install_keeps_on_disk slug v a :
  ValidateSlug slug = Ok tt → ValidateSlug (acSlug a) = Ok tt → slug ≠ acSlug a → preserves (on_disk a) (Install dir baseURL download random slug v).
Proof.
  intros Hs Ha Hne. apply on_disk_preserved. intros x. apply Install_other; [by apply slug_not_tmp|by apply slug_not_stale|done..].
Qed.

Lemma Remove_keeps_on_disk slug a : ValidateSlug slug = Ok tt → slug ≠ acSlug a → preserves (on_disk a) (Remove dir slug).
Proof. intros Hs Hne. apply on_disk_preserved. intros x. by apply Remove_other. Qed.

(** Reported skills are among the slugs handled so far, and on disk. *)
Definition done_so_far (seen : list string) (rep : SkillSyncReport) (t : Tree) : Prop :=
  truthful rep t ∧ Forall (λ a, acSlug a ∈ seen ∧ ValidateSlug (acSlug a) = Ok tt) (written rep).

Lemma done_note_other seen rep b a t : b ≠ BInstalled → b ≠ BUpdated → done_so_far seen rep t → done_so_far seen (note b a rep) t.
Proof. by destruct b. Qed.

Lemma done_note seen rep b a t :
  b = BInstalled ∨ b = BUpdated → on_disk a t → acSlug a ∈ seen → ValidateSlug (acSlug a) = Ok tt → done_so_far seen rep t → done_so_far seen (note b a rep) t.
Proof.
  intros Hb Ha Hs Hv [H1 H2]. unfold done_so_far, truthful, written in *. apply Forall_app in H1 as [H1a H1b], H2 as [H2a H2b].
  destruct Hb as [-> | ->]; cbn; rewrite !Forall_app, !Forall_singleton; split_and!; auto.
Qed.

Lemma done_seen seen seen' rep t : seen ⊆ seen' → done_so_far seen rep t → done_so_far seen' rep t.
Proof. intros Hs [H1 H2]. split; [done|]. eapply Forall_impl; [exact H2|]. intros a [? ?]. split; [by apply Hs|done]. Qed.

Lemma sync_skill_truthful installed a rep seen :
  ValidateSlug (agSlug a) = Ok tt → agSlug a ∉ seen →
  spec (done_so_far seen rep) (sync_skill dir baseURL download random false installed a rep) (λ rep' t, done_so_far (agSlug a :: seen) rep' t) (λ _, False).
Proof.
  intros Hv Hn. assert (Hinst : ∀ b prev, b = BInstalled ∨ b = BUpdated →
    spec (done_so_far seen rep) (let! r := attempt (Install dir baseURL download random (agSlug a) (want a)) in
           match r with Err e => db_ret (note_error (agSlug a) e rep) | Ok _ => db_ret (note b (mkSkillAction (agSlug a) (want a) prev) rep) end)
      (λ rep' t, done_so_far (agSlug a :: seen) rep' t) (λ _, False)).
  { intros b prev Hb d [Ht Hs]. unfold db_bind. rewrite attempt_run.
    assert (Hk : truthful rep (tables (Install dir baseURL download random (agSlug a) (want a) d).2)).
    { unfold truthful in *. rewrite Forall_forall in *. intros x Hx. destruct (Hs x Hx) as [Hin Hvx]. apply Install_keeps_on_disk; [done|done| |by apply Ht]. by intros E; rewrite E in Hn. }
    pose proof (Install_spec dir baseURL download random (agSlug a) Hv (want a) d I) as Hpost.
    destruct (Install _ _ _ _ _ _ d) as [[mk|e] d1]; cbn in Hk, Hpost |- *.
    - destruct Hpost as (Hmk & archive & _ & E). apply done_note; [done| |left|done|].
      + exists (mkSHA256 mk). cbn. by rewrite <- E.
      + apply (done_seen seen); [set_solver|]. by split.
    - apply (done_seen seen); [set_solver|]. by split. }
  unfold sync_skill. cbv zeta. case_if; [apply spec_ret; intros t Ht; apply (done_seen seen); [set_solver|exact Ht]|].
  destruct (installed !! agSlug a) as [cur|]; [|by apply Hinst; left].
  case_if; [apply spec_ret; intros t Ht; apply done_note_other; [done..|apply (done_seen seen); [set_solver|exact Ht]]|].
  case_if; [apply spec_ret; intros t Ht; apply done_note_other; [done..|apply (done_seen seen); [set_solver|exact Ht]]|]. by apply Hinst; right.
Qed.

(** When the relay's answer names each skill once, every skill a
    real run reports as installed or updated is on disk at its end under a marker with the
    reported version, whichever system calls failed on the way. *)
Theorem sync_reports_truthfully : ∀ rows d rep d',
  Forall (λ a, ValidateSlug (agSlug a) = Ok tt) (omap id rows) → NoDup (map agSlug (omap id rows)) → markers_valid (tables d) →
  Sync dir baseURL download random shuffle false (Ok rows) d = (Ok rep, d') → truthful rep (tables d').
Proof.
  intros rows d rep d' Hrows Hnd Hm. unfold Sync. set (rs := omap id rows) in *. clearbody rs.
  unfold db_bind at 1. pose proof (λ Q, ListInstalled_preserves Q dir d) as Hpres.
  pose proof ListInstalled_valid as Hl.
  specialize (Hl d Hm). destruct (ListInstalled dir d) as [[il|e] d1]; [|done]. clear Hpres. intros Hrun.
  assert (Hspec : spec (λ _, True) (db_bind (sync_assigned dir baseURL download random false (by_slug il) rs empty_report)
    (λ rep, retire_all dir false (map agSlug rs) (shuffle (by_slug il)) rep)) (λ rep t, truthful rep t) (λ _, True)).
  2: { specialize (Hspec d1 I). by rewrite Hrun in Hspec. }
  eapply (spec_bind _ _ _ (λ rep t, done_so_far (map agSlug rs) rep t)).
  - assert (Hg : ∀ seen rep0, (∀ s, s ∈ seen → s ∉ map agSlug rs) →
      spec (done_so_far seen rep0) (sync_assigned dir baseURL download random false (by_slug il) rs rep0) (λ rep t, done_so_far (map agSlug rs ++ seen) rep t) (λ _, True)).
    { clear Hrun. induction rs as [|a rs IH]; intros seen rep0 Hsep; cbn; [by apply spec_ret|]. apply Forall_cons in Hrows as [Ha Hrows]. apply NoDup_cons in Hnd as [Hna Hnd].
      eapply spec_bind.
      - eapply spec_weaken; [apply (sync_skill_truthful (by_slug il) a rep0 seen Ha); intros Hin; apply (Hsep _ Hin); left|done|intros ? ? Ht; exact Ht|done].
      - intros rep1. eapply spec_weaken; [apply (IH Hrows Hnd (agSlug a :: seen))|done| |done].
        + intros s [-> | Hs]%elem_of_cons; [done|]. intros Hin. apply (Hsep _ Hs). by right.
        + intros rep' t. apply done_seen. set_solver. }
    eapply spec_weaken; [apply (Hg [] empty_report); by intros s ?%elem_of_nil|by repeat constructor| |done].
    intros rep' t. by rewrite app_nil_r.
  - intros rep0. pose proof (shuffled_valid il Hl) as Hv.
    clear Hrun. revert rep0. induction (shuffle (by_slug il)) as [|[slug cur] l IH]; intros rep0; cbn; [apply spec_ret; by intros t [? _]|].
    assert (Hv' : ∀ slug cur, (slug, cur) ∈ l → isManaged cur = true → ValidateSlug slug = Ok tt) by (intros; eapply Hv; [right|]; eauto).
    case_bool_decide as Hdes; [by apply IH|]. eapply (spec_bind _ _ _ (λ rep t, done_so_far (map agSlug rs) rep t)); [|intros; by apply IH].
    unfold retire. case_if; [by apply spec_ret|]. bool_prop. intros d2 [Ht Hs]. unfold db_bind. rewrite attempt_run.
    assert (Hk : truthful rep0 (tables (Remove dir slug d2).2)).
    { unfold truthful in *. rewrite Forall_forall in *. intros x Hx. destruct (Hs x Hx) as [Hin Hvx].
      apply Remove_keeps_on_disk; [eapply Hv; [left|done]| |by apply Ht]. by intros ->. }
    destruct (Remove dir slug d2) as [[u|e'] d3]; cbn in Hk |- *; by split.
Qed.

(** ** Dry runs *)

(** The same report, or the first has more errors. *)
Definition same_or_worse (r p : SkillSyncReport) : Prop := r = p ∨ length (spErrors p) < length (spErrors r).

Lemma errors_note b a r : spErrors (note b a r) = spErrors r.
Proof. by destruct b. Qed.

(** What a dry run notes for one skill. *)
Definition plan_skill (installed : gmap string InstalledSkill) (a : Assigned) : SkillSyncReport → SkillSyncReport :=
  let slug := agSlug a in
  let v := want a in
  if v =?s "" then note_error slug "relay reports no published version; skipping"
  else match installed !! slug with
       | Some cur =>
           if negb (isManaged cur) then note BSkippedHand (mkSkillAction slug "" "")
           else if isVersion cur =?s v then note BUnchanged (mkSkillAction slug v "")
           else note BUpdated (mkSkillAction slug v (isVersion cur))
       | None => note BInstalled (mkSkillAction slug v "")
       end.

Definition plan_retire (slug : string) (cur : InstalledSkill) : SkillSyncReport → SkillSyncReport :=
  if negb (isManaged cur) then note BSkippedHand (mkSkillAction slug "" "") else note BRemoved (mkSkillAction slug (isVersion cur) "").

Lemma plan_skill_dry installed a rep : sync_skill dir baseURL download random true installed a rep = db_ret (plan_skill installed a rep).
Proof. unfold sync_skill, plan_skill. cbv zeta. by repeat case_match. Qed.

Lemma plan_retire_dry slug cur rep : retire dir true slug cur rep = db_ret (plan_retire slug cur rep).
Proof. unfold retire, plan_retire. by case_if. Qed.

(** A step that does what the plan says or notes an error of its own. *)
Definition follows (f : SkillSyncReport → SkillSyncReport) (step : SkillSyncReport → FSM SkillSyncReport) : Prop :=
  ∃ k, (∀ r, length (spErrors (f r)) = length (spErrors r) + k) ∧
  ∀ r d, ∃ r' d', step r d = (Ok r', d') ∧ (r' = f r ∨ (k = 0 ∧ length (spErrors r') = S (length (spErrors r)))).

Lemma follows_attempt {A} (m : FSM A) slug b a :
  follows (note b a) (λ r, let! x := attempt m in match x with Err e => db_ret (note_error slug e r) | Ok _ => db_ret (note b a r) end).
Proof.
  exists 0. split; [intros r; rewrite errors_note; lia|]. intros r d. unfold db_bind. rewrite attempt_run.
  destruct (m d) as [[x|e] d1]; cbn; do 2 eexists; (split; [done|]); [by left|]. right. split; [done|]. cbn. rewrite length_app. cbn. lia.
Qed.

Lemma follows_ret f k : (∀ r, length (spErrors (f r)) = length (spErrors r) + k) → follows f (λ r, db_ret (f r)).
Proof. intros Hf. exists k. split; [done|]. intros r d. exists (f r), d. auto. Qed.

Lemma follows_note b a : follows (note b a) (λ r, db_ret (note b a r)).
Proof. apply (follows_ret _ 0). intros r. rewrite errors_note. lia. Qed.

Lemma sync_skill_follows installed a : follows (plan_skill installed a) (sync_skill dir baseURL download random false installed a).
Proof.
  unfold sync_skill, plan_skill. cbv zeta. case_if.
  - apply (follows_ret _ 1). intros r. cbn. by rewrite length_app.
  - repeat case_match; auto using follows_note; apply follows_attempt.
Qed.

Lemma retire_follows slug cur : follows (plan_retire slug cur) (retire dir false slug cur).
Proof. unfold retire, plan_retire. case_if; [apply follows_note|]. apply follows_attempt. Qed.

Lemma follows_step f step r p d : follows f step → same_or_worse r p → ∃ r' d', step r d = (Ok r', d') ∧ same_or_worse r' (f p).
Proof.
  intros (k & Hk & Hs) Hrp. destruct (Hs r d) as (r' & d' & E & Hr'). exists r', d'. split; [done|]. unfold same_or_worse in *.
  destruct Hrp as [->|Hlt], Hr' as [->|[-> Hr']]; [by left|right|right|right]; rewrite ?Hk, ?Hr'; lia.
Qed.

Lemma sync_assigned_plan installed l rep d :
  sync_assigned dir baseURL download random true installed l rep d = (Ok (foldl (λ r a, plan_skill installed a r) rep l), d).
Proof. revert rep. induction l as [|a l IH]; intros rep; cbn; [done|]. rewrite plan_skill_dry. apply IH. Qed.

Definition plan_retire_all (desired : list string) (l : list (string * InstalledSkill)) (rep : SkillSyncReport) : SkillSyncReport :=
  foldl (λ r x, if bool_decide (x.1 ∈ desired) then r else plan_retire x.1 x.2 r) rep l.

Lemma retire_all_plan desired l rep d : retire_all dir true desired l rep d = (Ok (plan_retire_all desired l rep), d).
Proof.
  revert rep. unfold plan_retire_all. induction l as [|[slug cur] l IH]; intros rep; cbn; [done|]. case_bool_decide; [apply IH|]. rewrite plan_retire_dry. apply IH.
Qed.

Lemma sync_assigned_follows installed l r p d : same_or_worse r p →
  ∃ r' d', sync_assigned dir baseURL download random false installed l r d = (Ok r', d') ∧ same_or_worse r' (foldl (λ r a, plan_skill installed a r) p l).
Proof.
  revert r p d. induction l as [|a l IH]; intros r p d Hrp; cbn; [eauto|]. unfold db_bind.
  destruct (follows_step _ _ r p d (sync_skill_follows installed a) Hrp) as (r1 & d1 & -> & Hr1). by apply IH.
Qed.

Lemma retire_all_follows desired l r p d : same_or_worse r p →
  ∃ r' d', retire_all dir false desired l r d = (Ok r', d') ∧ same_or_worse r' (plan_retire_all desired l p).
Proof.
  unfold plan_retire_all. revert r p d. induction l as [|[slug cur] l IH]; intros r p d Hrp; cbn; [eauto|]. case_bool_decide; [by apply IH|]. unfold db_bind.
  destruct (follows_step _ _ r p d (retire_follows slug cur) Hrp) as (r1 & d1 & -> & Hr1). by apply IH.
Qed.

(** A dry run changes nothing, and a real run started on the same disk either
    reports exactly what the dry run announced or reports more errors. *)
Theorem dry_run_predicts : ∀ rows d plan d1,
  Sync dir baseURL download random shuffle true (Ok rows) d = (Ok plan, d1) →
  tables d1 = tables d ∧
  ∃ rep d2, Sync dir baseURL download random shuffle false (Ok rows) d = (Ok rep, d2) ∧ (rep = plan ∨ length (spErrors plan) < length (spErrors rep)).
Proof.
  intros rows d plan d1. unfold Sync. cbv zeta. unfold db_bind at 1 3. set (rs := omap id rows). clearbody rs.
  pose proof (ListInstalled_preserves (eq (tables d)) dir d eq_refl) as Ht.
  destruct (ListInstalled dir d) as [[il|e] d0]; [|done]. cbn in Ht. unfold db_bind. rewrite sync_assigned_plan, retire_all_plan. intros [= <- <-].
  split; [done|]. destruct (sync_assigned_follows (by_slug il) rs empty_report empty_report d0) as (r1 & d1 & -> & Hr1); [by left|].
  destruct (retire_all_follows (map agSlug rs) (shuffle (by_slug il)) _ _ d1 Hr1) as (r2 & d2 & -> & Hr2). exists r2, d2. split; [done|exact Hr2].
Qed.
End Run.

(** ** Permissions of extracted files *)

(** Whatever mode a tar header carries, the file gets plain permission bits. *)
Lemma mode_bounds h fallback : (0 <= fallback <= 511)%Z → (0 <= mode h fallback <= 511)%Z.
Proof.
  intros Hf. unfold mode. case_if; [done|]. cbv zeta. case_if; [done|]. rewrite (Z.land_ones _ 9) by lia. change (2 ^ 9)%Z with 512%Z.
  pose proof (Z.mod_pos_bound (h mod 2 ^ 32) 512). lia.
Qed.

(** ** A concrete run *)

Definition demo_entries : list TarEntry := [mkEntry "SKILL.md" TypeReg 420 "hi" false].

#[local] Instance demo_formats : Formats := {|
  read_tar s := if s =?s "A" then Some (demo_entries, false) else None;
  yval := unit; yaml_map _ := None; y_string _ := None; y_json _ := None |}.

Definition demo_download (slug v : string) : result (string * string) := Ok ("A", sha256_hex "A").

Definition demo_dir : list string := ["home"; "skills"].

Definition hand_made : gmap string Tree := {["notes.txt" := File "mine"]}.

Definition old_install : gmap string Tree := {[SkillMarkerFile := File (marker_text (mkMarker "pdf" "1.0.0" "" "http://relay"))]}.

Definition demo_disk : Tree := Dir {["home" := Dir {["skills" := Dir {["mine" := Dir hand_made; "pdf" := Dir old_install]}]}]}.

Definition demo_rows : list (option Assigned) := [Some (mkAssignedRow "pdf" "2.0.0" None); Some (mkAssignedRow "mine" "1.0.0" None)].

Lemma demo_markers_valid : markers_valid demo_dir demo_disk.
Proof.
  intros n b mk E Hd. assert (Hn : n = "pdf").
  { destruct (decide (n = "mine")) as [->|Hm]; [vm_compute in E; done|]. destruct (decide (n = "pdf")) as [->|Hp]; [done|].
    rewrite get_app in E. change (get demo_dir demo_disk) with (Some (Dir {["mine" := Dir hand_made; "pdf" := Dir old_install]})) in E.
    cbn [mbind option_bind app get] in E. rewrite lookup_insert_ne, lookup_singleton_ne in E by done. done. }
  subst n. vm_compute in E. injection E as <-. vm_compute in Hd. injection Hd as <-. reflexivity.
Qed.

Lemma demo_rows_valid : Forall (λ a, ValidateSlug (agSlug a) = Ok tt) (omap id demo_rows).
Proof. repeat constructor. Qed.

Local Abbreviation demo_sync dry := (Sync demo_dir "http://relay" demo_download (λ _, "1") map_to_list dry (Ok demo_rows)).

Lemma hand_installed_untouched_witness :
  get (demo_dir ++ ["mine"]) (final (demo_sync false) (mkDb demo_disk [false; false; true])) = Some (Dir hand_made).
Proof.
  apply (hand_installed_untouched demo_dir "http://relay" demo_download (λ _, "1") map_to_list (λ m, Permutation_refl _) false demo_rows
    (mkDb demo_disk [false; false; true]) "mine" hand_made demo_rows_valid demo_markers_valid); try reflexivity.
  - discriminate.
  - intros [s E]. apply (f_equal String.length) in E. rewrite str_length_app in E. cbn in E. lia.
Defined.

Lemma sync_reports_truthfully_witness :
  truthful demo_dir "http://relay" (mkSkillReport [] [mkSkillAction "pdf" "2.0.0" "1.0.0"] [] [] [mkSkillAction "mine" "" ""] [])
    (final (demo_sync false) (healthy demo_disk)).
Proof.
  apply (sync_reports_truthfully demo_dir "http://relay" demo_download (λ _, "1") map_to_list (λ m, Permutation_refl _) demo_rows
    (healthy demo_disk) _ (mkDb (final (demo_sync false) (healthy demo_disk)) []) demo_rows_valid).
  - repeat constructor; set_solver.
  - exact demo_markers_valid.
  - vm_compute. reflexivity.
Defined.

Lemma failed_install_keeps_old_witness :
  old_kept demo_dir "pdf" (Dir old_install)
    (final (Install demo_dir "http://relay" demo_download (λ _, "1") "pdf" "2.0.0") (mkDb demo_disk [false; false; false; false; false; false; false; false; false; true; true])).
Proof.
  eapply (failed_install_keeps_old demo_dir "http://relay" demo_download (λ _, "1") "pdf" eq_refl "2.0.0" old_install
    (mkDb demo_disk [false; false; false; false; false; false; false; false; false; true; true])).
  - reflexivity.
  - discriminate.
  - vm_compute. reflexivity.
Defined.

Lemma dry_run_predicts_witness :
  demo_disk = demo_disk ∧
  ∃ rep d2, demo_sync false (healthy demo_disk) = (Ok rep, d2) ∧
    (rep = mkSkillReport [] [mkSkillAction "pdf" "2.0.0" "1.0.0"] [] [] [mkSkillAction "mine" "" ""] [] ∨ 0 < length (spErrors rep)).
Proof.
  apply (dry_run_predicts demo_dir "http://relay" demo_download (λ _, "1") map_to_list demo_rows (healthy demo_disk)
    (mkSkillReport [] [mkSkillAction "pdf" "2.0.0" "1.0.0"] [] [] [mkSkillAction "mine" "" ""] []) (healthy demo_disk)).
  vm_compute. reflexivity.
Defined.

(** The slug of a row is not checked: one with [..] in it is unpacked outside the skills
    directory, although the names inside an archive are confined to it. *)
Lemma slug_escapes_skills_dir :
  outcome (Install demo_dir "http://relay" demo_download (λ _, "1") "../evil" "1.0.0") (healthy demo_disk)
  = Ok (mkMarker "../evil" "1.0.0" (sha256_hex "A") "http://relay") ∧
  get ["home"; "evil"; "SKILL.md"] (final (Install demo_dir "http://relay" demo_download (λ _, "1") "../evil" "1.0.0") (healthy demo_disk)) = Some (File "hi").
Proof. vm_compute. split; reflexivity. Qed.
