(* ===== verification/MemoryWatch.v ===== *)
(** * The transcript watcher

    [src/internal/cli/sync/memory.go]: [arc-sync memory watch] sends the unseen bytes of
    Claude Code transcripts to the relay and keeps a watermark per file.  The relay's
    answers are a parameter; the files of a scan are read as they are when the scan
    starts.  Opening and reading a file and saving the state can fail.  Offsets are
    natural numbers (files are shorter than 2^63 bytes). *)
From S2P Require Import Prelude GoStrings GoPath Json JsonDecode Hoare.

(** ** Data *)

Notation bytes := (list ascii).

Definition newline : ascii := "010"%char.

Record fileState := mkFile {
  BytesSeen : nat; Mtime : Z; RawCwd : string; Quarantined : string; Counters : gmap string Z }.

Definition fresh_file : fileState := mkFile 0 0 "" "" ∅.

Record ingestRequest := mkIngest {
  iqSessionID : string; iqProjectDir : string; iqFilePath : string; iqFileMtime : Z; iqBytesSeen : nat;
  iqPlatform : string; iqJSONL : bytes; iqRawCwd : string; iqClientCounters : gmap string Z }.

(** What [postIngest] makes of an exchange: the counts of a reply (zero when it cannot be
    decoded), a status of 400 or more, or no reply. *)
Inductive Answer := AAccepted (added rejected : Z) | AStatus (code : Z) | ATransport.

#[export] Instance Answer_eq_dec : EqDecision Answer.
Proof. solve_decision. Defined.

Class Relay (W : Type) := { postIngest : ingestRequest → W → Answer * W }.

(** A transcript as [filepath.Walk] reports it, with the bytes reading it gives. *)
Record Transcript := mkTranscript { tPath : string; tIsDir : bool; tSize : nat; tMtime : Z; tContent : bytes }.

(** What the watcher did about the bytes from an offset on. *)
Inductive Event :=
| EPost (path : string) (off : nat) (unit_ : bytes) (a : Answer)
| ESkip (path : string) (off len : nat).

(** ** Bytes *)

(** [bytes.LastIndexByte] and [bytes.IndexByte] for the newline. *)
Fixpoint last_nl (b : bytes) : option nat :=
  match b with
  | [] => None
  | c :: r => match last_nl r with
              | Some i => Some (S i)
              | None => if Ascii.eqb c newline then Some 0 else None
              end
  end.

Fixpoint first_nl (b : bytes) : option nat :=
  match b with
  | [] => None
  | c :: r => if Ascii.eqb c newline then Some 0 else S <$> first_nl r
  end.

(** [bytes.Count] of newlines. *)
Definition count_nl (b : bytes) : nat := length (List.filter (λ c, Ascii.eqb c newline) b).

(** [readWindow] and [measureLine] on bytes that could be read. *)
Definition window_at (c : bytes) (off n : nat) : bytes := take n (drop off c).

(** The length of the line at the offset and whether its newline is there. *)
Definition line_at (c : bytes) (off : nat) : nat * bool :=
  match first_nl (drop off c) with
  | Some i => (S i, true)
  | None => (length (drop off c), false)
  end.

(** The newline before the middle is never the last byte, so the source's second test for
    it only matters when there is none. *)
Definition halveAtNewline (b : bytes) : bytes * bytes :=
  let mid := length b / 2 in
  match last_nl (take mid b) with
  | Some i => (take (S i) b, drop (S i) b)
  | None =>
      match first_nl (drop mid b) with
      | Some j => if mid + j <? length b - 1 then (take (S (mid + j)) b, drop (S (mid + j)) b) else (b, [])
      | None => (b, [])
      end
  end.

Definition chunkEnd (b : bytes) (off max : nat) : nat :=
  if length b - off <=? max then length b
  else match last_nl (take max (drop off b)) with
       | Some i => off + i + 1
       | None => match first_nl (drop off b) with
                 | Some i => off + i + 1
                 | None => length b
                 end
       end.

(** [decodeProjectDir] *)
Definition dash_to_slash (c : ascii) : ascii := if Ascii.eqb c "-"%char then "/"%char else c.

Definition decodeProjectDir (escaped : string) : string := "/" +:+ map_str dash_to_slash (TrimPrefix escaped "-").

Definition text_of (b : bytes) : string := String.string_of_list_ascii b.

(** The first record of the head that carries a [cwd]. *)
Fixpoint first_cwd (lines : list string) : string :=
  match lines with
  | [] => ""
  | line :: r =>
      if line =?s "" then first_cwd r
      else match unmarshal_string_struct "cwd" line with
           | Some cwd => if cwd =?s "" then first_cwd r else cwd
           | None => first_cwd r
           end
  end.

Definition rawCwdHeadBytes : nat := Z.to_nat (64 * 1024).

Definition raw_cwd (c : bytes) : string := first_cwd (Split (text_of (window_at c 0 rawCwdHeadBytes)) newline).

(** ** The watcher *)
Section Watcher.
Context {W : Type} `{Relay W} (platform : string) (limit ceiling : nat).

Record World := mkWatch { files : gmap string fileState; saved : gmap string fileState; log : list Event; net : W }.

Definition WM (A : Type) : Type := DBM World A.

Definition file_of (w : World) (path : string) : fileState := default fresh_file (files w !! path).

(** Change the entry of a file in memory. *)
Definition modify (path : string) (f : fileState → fileState) (w : World) : World :=
  mkWatch (<[path := f (file_of w path)]> (files w)) (saved w) (log w) (net w).

Definition pure {A} (f : World → A * World) : WM A := λ d,
  let '(a, w) := f (tables d) in (Ok a, mkDb w (faults d)).

Definition set_file (path : string) (f : fileState → fileState) : WM unit := pure (λ w, (tt, modify path f w)).

Definition get_file (path : string) : WM fileState := pure (λ w, (file_of w path, w)).

Definition emit (e : Event) : WM unit := pure (λ w, (tt, mkWatch (files w) (saved w) (log w ++ [e]) (net w))).

(** Temporary file, sync and rename: all or nothing. *)
Definition saveState : WM unit := update (λ w, mkWatch (files w) (files w) (log w) (net w)).

(** Opening and reading a file. *)
Definition read {A} (a : A) : WM A := query (λ _, a).

Definition count_ (name : string) (n : Z) (fs : fileState) : fileState :=
  mkFile (BytesSeen fs) (Mtime fs) (RawCwd fs) (Quarantined fs) (<[name := (default 0 (Counters fs !! name) + n)%Z]> (Counters fs)).

Definition quarantine (fs : fileState) : fileState :=
  mkFile (BytesSeen fs) (Mtime fs) (RawCwd fs) "ownership_conflict" (Counters fs).

Definition advance (n : nat) (mtime : Z) (fs : fileState) : fileState :=
  mkFile n mtime (RawCwd fs) (Quarantined fs) (Counters fs).

Definition post (req : ingestRequest) (off : nat) : WM Answer := pure (λ w,
  let '(a, n) := postIngest req (net w) in
  (a, mkWatch (files w) (saved w) (log w ++ [EPost (iqFilePath req) off (iqJSONL req) a]) n)).

Definition out_of_fuel : string := "out of fuel".

(** [sendUnit]: whether the bytes are settled, and the messages added.  [fuel] bounds the
    halvings. *)
Fixpoint sendUnit (fuel : nat) (path sessionID projectDir : string) (unit_ : bytes) (off : nat) (mtime : Z) : WM (bool * Z) :=
  match fuel with
  | O => db_fail out_of_fuel
  | S fuel =>
      let! fs := get_file path in
      let! a := post (mkIngest sessionID projectDir path mtime (off + length unit_) platform unit_ (RawCwd fs) (Counters fs)) off in
      match a with
      | AAccepted added rejected =>
          (if (0 <? rejected)%Z then set_file path (count_ "rejected_records" rejected) else db_ret tt) ;;; db_ret (true, added)
      | ATransport => db_ret (false, 0%Z)
      | AStatus code =>
          if (code =? 413)%Z then
            if 1 <? count_nl unit_ then
              let '(l, r) := halveAtNewline unit_ in
              let! ra := sendUnit fuel path sessionID projectDir l off mtime in
              if negb ra.1 then db_ret (false, 0%Z)
              else let! rb := sendUnit fuel path sessionID projectDir r (off + length l) mtime in
                   db_ret (rb.1, (ra.2 + rb.2)%Z)
            else emit (ESkip path off (length unit_)) ;;; set_file path (count_ "skipped_records" 1) ;;; db_ret (true, 0%Z)
          else if (code =? 409)%Z then
            set_file path quarantine ;;; set_file path (count_ "ownership_conflicts" 1) ;;; db_ret (false, 0%Z)
          else db_ret (false, 0%Z)
      end
  end.

(** The loop of [ingestDelta] from [off] on; [base] is the watermark it started from.  The
    result is whether the watermark moved and the messages added. *)
Fixpoint ingest_loop (fuel : nat) (path sessionID projectDir : string) (delta : bytes) (base off : nat) (mtime : Z) (advanced : bool) (added : Z) :
    WM (bool * Z) :=
  match fuel with
  | O => db_fail out_of_fuel
  | S fuel =>
      if negb (off <? length delta) then db_ret (advanced, added)
      else
        let e := chunkEnd delta off limit in
        let unit_ := take (e - off) (drop off delta) in
        let! r := sendUnit (S (length unit_)) path sessionID projectDir unit_ (base + off) mtime in
        let! fs := get_file path in
        if negb r.1 then
          (if Quarantined fs !=? "" then saveState else db_ret tt) ;;; db_ret (advanced, 0%Z)
        else
          set_file path (advance (base + e) mtime) ;;;
          saveState ;;;
          if Quarantined fs !=? "" then db_ret (true, (added + r.2)%Z)
          else ingest_loop fuel path sessionID projectDir delta base e mtime true (added + r.2)%Z
  end.

(** [ingestDelta]; the timer of the extraction request is not part of the model. *)
Definition ingestDelta (path : string) (delta : bytes) (mtime : Z) : WM bool :=
  let sessionID := TrimSuffix (Base path) ".jsonl" in
  let projectDir := decodeProjectDir (Base (render (IsAbs path) (take (length (components path) - 1) (components path)))) in
  let! fs := get_file path in
  let! r := ingest_loop (S (length delta)) path sessionID projectDir delta (BytesSeen fs) 0 mtime false 0 in
  db_ret r.1.

(** Stop at an incomplete line. *)
Definition wait_for_more (path : string) (mtime : Z) : WM unit :=
  set_file path (λ fs, advance (BytesSeen fs) mtime fs) ;;; saveState.

(** What to do after an ingest: go on, or leave the file for the next scan. *)
Definition after_ingest (path : string) (advanced : bool) (next : WM unit) : WM unit :=
  let! fs := get_file path in
  if negb advanced || (Quarantined fs !=? "") then db_ret tt else next.

Definition skip_line (path : string) (len : nat) (mtime : Z) : WM unit :=
  let! fs := get_file path in
  emit (ESkip path (BytesSeen fs) len) ;;;
  set_file path (count_ "skipped_records" 1) ;;;
  set_file path (λ fs, advance (BytesSeen fs + len) mtime fs) ;;;
  saveState.

(** A read that fails ends the drain without an error. *)
Definition reading {A} (a : A) (k : A → WM unit) : WM unit :=
  let! r := attempt (read a) in
  match r with Err _ => db_ret tt | Ok a => k a end.

Fixpoint drainFile (fuel : nat) (c : bytes) (path : string) (size : nat) (mtime : Z) : WM unit :=
  match fuel with
  | O => db_fail out_of_fuel
  | S fuel =>
      let! fs := get_file path in
      let seen := BytesSeen fs in
      if negb (seen <? size) then db_ret tt
      else reading (window_at c seen limit) (λ window,
        match window with
        | [] => db_ret tt
        | _ =>
            match last_nl window with
            | Some cut =>
                let! advanced := ingestDelta path (take (S cut) window) mtime in
                after_ingest path advanced (drainFile fuel c path size mtime)
            | None =>
                if length window <? limit then wait_for_more path mtime
                else reading (line_at c seen) (λ m,
                  if negb m.2 then wait_for_more path mtime
                  else if ceiling <? m.1 then
                    skip_line path m.1 mtime ;;; drainFile fuel c path size mtime
                  else reading (window_at c seen m.1) (λ line,
                    let! advanced := ingestDelta path line mtime in
                    after_ingest path advanced (drainFile fuel c path size mtime)))
            end
        end)
  end.

(** One entry of the walk. *)
Definition scan_one (t : Transcript) : WM unit :=
  if tIsDir t || negb (HasSuffix (tPath t) ".jsonl") then db_ret tt
  else
    set_file (tPath t) id ;;;
    let! fs := get_file (tPath t) in
    if Quarantined fs !=? "" then db_ret tt
    else if (tSize t <=? BytesSeen fs) && (tMtime t <=? Mtime fs)%Z then db_ret tt
    else
      (if RawCwd fs =?s "" then
         let! r := attempt (read (raw_cwd (tContent t))) in
         set_file (tPath t) (λ fs, mkFile (BytesSeen fs) (Mtime fs) (match r with Ok s => s | Err _ => "" end) (Quarantined fs) (Counters fs))
       else db_ret tt) ;;;
      drainFile (S (tSize t)) (tContent t) (tPath t) (tSize t) (tMtime t).

Fixpoint scan (l : list Transcript) : WM unit :=
  match l with
  | [] => db_ret tt
  | t :: r => scan_one t ;;; scan r
  end.
End Watcher.

(** ** Newlines *)

Lemma last_nl_Some b i : last_nl b = Some i → b !! i = Some newline ∧ ∀ j, i < j → b !! j ≠ Some newline.
Proof.
  revert i. induction b as [|c r IH]; intros i; cbn; [done|]. destruct (last_nl r) as [k|] eqn:E.
  - intros [= <-]. destruct (IH k eq_refl) as [Hk Hr]. split; [done|]. intros [|j] Hj; [lia|]. apply Hr. lia.
  - destruct (Ascii.eqb_spec c newline) as [->|]; [|done]. intros [= <-]. split; [done|]. intros [|j] Hj; [lia|]. cbn.
    clear -E. revert j. induction r as [|c r IH]; intros j; [done|]. cbn in E. destruct (last_nl r); [done|].
    destruct (Ascii.eqb_spec c newline); [done|]. destruct j; [cbn; congruence|]. cbn. by apply IH.
Qed.

Lemma last_nl_None b : last_nl b = None → ∀ j, b !! j ≠ Some newline.
Proof.
  induction b as [|c r IH]; [done|]. cbn. destruct (last_nl r) eqn:E; [done|].
  destruct (Ascii.eqb_spec c newline); [done|]. intros _ [|j]; cbn; [congruence|]. by apply IH.
Qed.

Lemma first_nl_Some b i : first_nl b = Some i → b !! i = Some newline ∧ ∀ j, j < i → b !! j ≠ Some newline.
Proof.
  revert i. induction b as [|c r IH]; intros i; cbn; [done|]. destruct (Ascii.eqb_spec c newline) as [->|Hc].
  - intros [= <-]. split; [done|lia].
  - destruct (first_nl r) as [k|]; [|done]. intros [= <-]. destruct (IH k eq_refl) as [Hk Hr]. split; [done|].
    intros [|j] Hj; cbn; [congruence|]. apply Hr. lia.
Qed.

Lemma first_nl_None b : first_nl b = None → ∀ j, b !! j ≠ Some newline.
Proof.
  induction b as [|c r IH]; [done|]. cbn. destruct (Ascii.eqb_spec c newline); [done|].
  destruct (first_nl r); [done|]. intros _ [|j]; cbn; [congruence|]. by apply IH.
Qed.

Lemma count_nl_app a b : count_nl (a ++ b) = count_nl a + count_nl b.
Proof. unfold count_nl. rewrite List.filter_app. apply length_app. Qed.

Lemma count_nl_found b : 0 < count_nl b → ∃ j, b !! j = Some newline.
Proof.
  induction b as [|c r IH]; [cbn; lia|]. unfold count_nl in *. cbn. destruct (Ascii.eqb_spec c newline) as [->|].
  - by exists 0.
  - intros Hr. destruct (IH Hr) as [j Hj]. by exists (S j).
Qed.

Lemma count_nl_none b : (∀ j, b !! j ≠ Some newline) → count_nl b = 0.
Proof. intros Hn. destruct (decide (0 < count_nl b)) as [Hp|]; [|lia]. destruct (count_nl_found b Hp) as [j Hj]. by destruct (Hn j). Qed.

(** The bytes end with a newline. *)
Definition ends_nl (u : bytes) : Prop := u !! pred (length u) = Some newline.

Lemma ends_nl_snoc u : ends_nl u ↔ ∃ v, u = v ++ [newline].
Proof.
  unfold ends_nl. split.
  - intros Hu. destruct u as [|x v _] using rev_ind; [done|]. rewrite list_lookup_middle in Hu by (rewrite length_app; cbn; lia). injection Hu as ->. eauto.
  - intros [v ->]. apply list_lookup_middle. rewrite length_app. cbn. lia.
Qed.

Lemma ends_nl_nonempty u : ends_nl u → 0 < length u.
Proof. rewrite ends_nl_snoc. intros [v ->]. rewrite length_app. cbn. lia. Qed.

Lemma ends_nl_take u i : u !! i = Some newline → ends_nl (take (S i) u).
Proof.
  intros Hi. pose proof (lookup_lt_Some _ _ _ Hi). unfold ends_nl. rewrite length_take, Nat.min_l by lia. cbn.
  rewrite lookup_take. by rewrite decide_True by lia.
Qed.

Lemma ends_nl_drop u i : ends_nl u → i < length u → ends_nl (drop i u).
Proof. unfold ends_nl. intros Hu Hi. rewrite length_drop, lookup_drop. rewrite <- Hu. f_equal. lia. Qed.

(** More than one newline: there is one before the last byte. *)
Lemma count_nl_inner u : 1 < count_nl u → ∃ j, j < pred (length u) ∧ u !! j = Some newline.
Proof.
  intros Hc. destruct u as [|x v _] using rev_ind; [cbn in Hc; lia|]. rewrite count_nl_app in Hc.
  assert (Hx : count_nl [x] ≤ 1) by (unfold count_nl; cbn; destruct (Ascii.eqb x newline); cbn; lia).
  destruct (count_nl_found v) as [j Hj]; [lia|]. pose proof (lookup_lt_Some _ _ _ Hj). exists j. rewrite length_app. cbn.
  split; [lia|]. by rewrite lookup_app_l.
Qed.

Lemma halve_splits u l r :
  1 < count_nl u → halveAtNewline u = (l, r) → u = l ++ r ∧ ends_nl l ∧ 0 < length r.
Proof.
  intros Hc. destruct (count_nl_inner u Hc) as (k & Hk & Hnk). unfold halveAtNewline.
  assert (Hmid : length u / 2 < length u) by (apply Nat.div_lt; lia).
  assert (Hcut : ∀ i, u !! i = Some newline → S i < length u → (take (S i) u, drop (S i) u) = (l, r) → u = l ++ r ∧ ends_nl l ∧ 0 < length r).
  { intros i Hi Hlt [= <- <-]. split; [by rewrite take_drop|]. split; [by apply ends_nl_take|]. rewrite length_drop. lia. }
  destruct (last_nl (take (length u / 2) u)) as [i|] eqn:E.
  - destruct (last_nl_Some _ _ E) as [Hi _]. apply lookup_take_Some in Hi as [Hi Hlt]. apply Hcut; [done|lia].
  - pose proof (last_nl_None _ E) as Hno. destruct (first_nl (drop (length u / 2) u)) as [j|] eqn:F.
    + destruct (first_nl_Some _ _ F) as [Hj Hmin]. rewrite lookup_drop in Hj.
      assert (Hjk : length u / 2 + j ≤ k).
      { destruct (decide (k < length u / 2)) as [Hlt|Hge].
        - destruct (Hno k). rewrite lookup_take, decide_True by done. done.
        - destruct (decide (length u / 2 + j ≤ k)) as [|Hgt]; [done|]. destruct (Hmin (k - length u / 2)); [lia|].
          rewrite lookup_drop. replace (length u / 2 + (k - length u / 2)) with k by lia. done. }
      replace (length u / 2 + j <? length u - 1) with true by (symmetry; apply Nat.ltb_lt; lia).
      apply Hcut; [done|lia].
    + exfalso. destruct (decide (k < length u / 2)) as [Hlt|Hge].
      * apply (Hno k). by rewrite lookup_take, decide_True by done.
      * apply (first_nl_None _ F (k - length u / 2)). rewrite lookup_drop.
        by replace (length u / 2 + (k - length u / 2)) with k by lia.
Qed.

Lemma chunkEnd_aligned b off max :
  ends_nl b → off < length b →
  off < chunkEnd b off max ≤ length b ∧ b !! pred (chunkEnd b off max) = Some newline.
Proof.
  intros Hb Hoff. unfold chunkEnd. destruct (Nat.leb_spec (length b - off) max) as [|Hbig]; [split; [lia|exact Hb]|].
  assert (Hat : ∀ i, b !! (off + i) = Some newline → off < off + i + 1 ≤ length b ∧ b !! pred (off + i + 1) = Some newline).
  { intros i Hi. pose proof (lookup_lt_Some _ _ _ Hi). split; [lia|]. by replace (pred (off + i + 1)) with (off + i) by lia. }
  destruct (last_nl (take max (drop off b))) as [i|] eqn:E.
  - apply Hat. destruct (last_nl_Some _ _ E) as [Hi _]. apply lookup_take_Some in Hi as [Hi _]. by rewrite lookup_drop in Hi.
  - destruct (first_nl (drop off b)) as [i|] eqn:F.
    + apply Hat. destruct (first_nl_Some _ _ F) as [Hi _]. by rewrite lookup_drop in Hi.
    + split; [lia|exact Hb].
Qed.

(** ** What the watcher keeps true *)

(** An offset where a record starts: the beginning, or just past a newline. *)
Definition line_start (c : bytes) (n : nat) : Prop := match n with O => True | S k => c !! k = Some newline end.

(** [u] is a run of whole records of [c] at [off]. *)
Definition piece (c : bytes) (off : nat) (u : bytes) : Prop :=
  line_start c off ∧ ends_nl u ∧ ∀ k x, u !! k = Some x → c !! (off + k) = Some x.

Lemma piece_end c off u : piece c off u → line_start c (off + length u).
Proof.
  intros (_ & Hu & Hc). pose proof (ends_nl_nonempty u Hu). unfold line_start.
  destruct (off + length u) as [|k] eqn:E; [lia|]. replace k with (off + pred (length u)) by lia. by apply Hc.
Qed.

Lemma piece_sub c off u i j :
  piece c off u → line_start c (off + i) → i < j → u !! pred j = Some newline → piece c (off + i) (take (j - i) (drop i u)).
Proof.
  intros (_ & _ & Hc) Hs Hij Hj. pose proof (lookup_lt_Some _ _ _ Hj). split; [done|]. split.
  - unfold ends_nl. rewrite length_take, length_drop, Nat.min_l by lia. rewrite lookup_take, decide_True by lia.
    rewrite lookup_drop. rewrite <- Hj. f_equal. lia.
  - intros k x Hk. apply lookup_take_Some in Hk as [Hk _]. rewrite lookup_drop in Hk. rewrite <- Nat.add_assoc. by apply Hc.
Qed.

Lemma piece_split c off l r : piece c off (l ++ r) → ends_nl l → 0 < length r → piece c off l ∧ piece c (off + length l) r.
Proof.
  intros (Hs & Hu & Hc) Hl Hr.
  assert (Hpl : piece c off l) by (split; [done|]; split; [done|]; intros k x Hk; apply Hc; by apply lookup_app_l_Some).
  split; [done|]. split; [by apply piece_end|]. split.
  - rewrite <- (drop_app_length l r). apply ends_nl_drop; [done|]. rewrite length_app. lia.
  - intros k x Hk. rewrite <- Nat.add_assoc. apply Hc. rewrite lookup_app_r by lia. by replace (length l + k - length l) with k by lia.
Qed.

Lemma piece_window c off u : piece c off u → u = window_at c off (length u).
Proof.
  intros (_ & Hu & Hc). pose proof (ends_nl_nonempty u Hu) as Hpos. apply list_eq. intros k. unfold window_at. rewrite lookup_take, lookup_drop.
  destruct (decide (k < length u)) as [Hk|Hk]; [|by rewrite lookup_ge_None_2 by lia].
  destruct (lookup_lt_is_Some_2 u k Hk) as [x Hx]. by rewrite Hx, (Hc _ _ Hx).
Qed.

(** The bytes a drain reads are those of the transcript. *)
Lemma window_piece (c full : bytes) off n i :
  c `prefix_of` full → line_start full off → window_at c off n !! i = Some newline → piece full off (take (S i) (window_at c off n)).
Proof.
  intros Hc Hs Hi. split; [done|]. split; [by apply ends_nl_take|]. intros k x Hk. apply lookup_take_Some in Hk as [Hk _].
  unfold window_at in Hk. apply lookup_take_Some in Hk as [Hk _]. rewrite lookup_drop in Hk. by eapply prefix_lookup_Some.
Qed.

Section Delivery.
Context {W : Type} `{Relay W} (platform : string) (limit ceiling : nat) (full : string → bytes).

(** The bytes from [off] on are accounted for: accepted by the relay, or given up. *)
Definition delivered (lg : list Event) (p : string) (off len : nat) : Prop :=
  (∃ u a r, EPost p off u (AAccepted a r) ∈ lg ∧ length u = len) ∨ ESkip p off len ∈ lg.

Definition accounted (lg : list Event) (p : string) (i : nat) : Prop :=
  ∃ off len, off ≤ i < off + len ∧ delivered lg p off len.

(** A watermark is at the start of a record, and every byte before it is accounted for. *)
Definition settled (lg : list Event) (p : string) (n : nat) : Prop :=
  line_start (full p) n ∧ ∀ i, i < n → accounted lg p i.

(** Every request carries whole records of the file, from the offset it names on; whatever
    is skipped is one record. *)
Definition whole (e : Event) : Prop :=
  match e with
  | EPost p off u _ => piece (full p) off u
  | ESkip p off len => ∃ u, piece (full p) off u ∧ length u = len ∧ count_nl u = 1
  end.

Definition seen_in (f : gmap string fileState) (p : string) : nat := BytesSeen (default fresh_file (f !! p)).

Notation world := (World (W := W)).

Record Inv (w : world) : Prop := mkInv {
  inv_files : ∀ p, settled (log w) p (seen_in (files w) p);
  inv_saved : ∀ p, settled (log w) p (seen_in (saved w) p);
  inv_log : ∀ e, e ∈ log w → whole e }.

Lemma settled_grows lg e p n : settled lg p n → settled (lg ++ [e]) p n.
Proof.
  intros [Hs Hi]. split; [done|]. intros i Hlt. destruct (Hi i Hlt) as (off & len & Hr & Hd). exists off, len. split; [done|].
  destruct Hd as [(u & a & r & He & Hl)|He]; [left; exists u, a, r; split; [|done]|right]; apply elem_of_app; by left.
Qed.

Lemma settled_extend lg p off len :
  settled lg p off → line_start (full p) (off + len) → delivered lg p off len → settled lg p (off + len).
Proof.
  intros [_ Hi] Hs Hd. split; [done|]. intros i Hlt. destruct (decide (i < off)) as [Hb|Hb]; [by apply Hi|].
  exists off, len. split; [lia|done].
Qed.

Lemma seen_insert f p q fs : seen_in (<[p := fs]> f) q = if decide (q = p) then BytesSeen fs else seen_in f q.
Proof. unfold seen_in. destruct (decide (q = p)) as [->|Hne]; [by rewrite lookup_insert_eq|]. by rewrite lookup_insert_ne. Qed.

(** Logging an event keeps the invariant when the event is whole. *)
Lemma Inv_log w e n : Inv w → whole e → Inv (mkWatch (files w) (saved w) (log w ++ [e]) n).
Proof.
  intros [Hf Hs Hl] He. split; cbn; [intros p; by apply settled_grows|intros p; by apply settled_grows|].
  intros x Hx. apply elem_of_app in Hx as [Hx|Hx]; [by apply Hl|]. apply list_elem_of_singleton in Hx. by subst.
Qed.

(** Changing an entry keeps it when the watermark it leaves is settled. *)
Lemma Inv_modify w p f : Inv w → settled (log w) p (BytesSeen (f (file_of w p))) → Inv (modify p f w).
Proof.
  intros [Hf Hs Hl] Hn. split; cbn; [|done|done]. intros q. rewrite seen_insert. destruct (decide (q = p)) as [->|]; [done|apply Hf].
Qed.

Lemma Inv_save w : Inv w → Inv (mkWatch (files w) (files w) (log w) (net w)).
Proof. intros [Hf Hs Hl]. by split. Qed.

(** A failure leaves the invariant, and is never for lack of fuel. *)
Definition stopped (e : string) (d : Db world) : Prop := e ≠ out_of_fuel ∧ Inv (tables d).

(** The state around a file: its watermark in memory. *)
Definition at_mark (p : string) (n : nat) (d : Db world) : Prop := Inv (tables d) ∧ seen_in (files (tables d)) p = n.

Lemma set_file_mark p f n n' :
  (∀ fs, BytesSeen fs = n → BytesSeen (f fs) = n') →
  triple (λ d, at_mark p n d ∧ settled (log (tables d)) p n') (set_file p f) (λ _ d, at_mark p n' d ∧ settled (log (tables d)) p n') stopped.
Proof.
  intros Hf d [[Hi Hn] Hs]. cbn. split; [|done]. split.
  - apply Inv_modify; [done|]. by rewrite (Hf (file_of (tables d) p) Hn).
  - cbn. rewrite seen_insert, decide_True by done. by apply Hf.
Qed.

Lemma set_file_keeps p f n m :
  (∀ fs, BytesSeen (f fs) = BytesSeen fs) →
  triple (λ d, at_mark p n d ∧ settled (log (tables d)) p m) (set_file p f) (λ _ d, at_mark p n d ∧ settled (log (tables d)) p m) stopped.
Proof.
  intros Hf d [[Hi Hn] Hs]. cbn. split; [|done]. split.
  - apply Inv_modify; [done|]. rewrite Hf. apply (inv_files _ Hi).
  - cbn. rewrite seen_insert, decide_True by done. rewrite Hf. exact Hn.
Qed.

Lemma save_mark p n : triple (at_mark p n) saveState (λ _, at_mark p n) stopped.
Proof.
  intros d [Hi Hn]. unfold saveState, update, exec. destruct (next_fault (faults d)) as [[] fs]; cbn.
  - split; [done|exact Hi].
  - split; [by apply Inv_save|exact Hn].
Qed.

Lemma get_file_mark p n (P : Db world → Prop) :
  (∀ d, P d → at_mark p n d) → triple P (get_file p) (λ fs d, BytesSeen fs = n ∧ P d) stopped.
Proof. intros HP d Hd. destruct (HP d Hd) as [Hi Hn]. cbn. by destruct d. Qed.

Lemma emit_skip p off len n :
  triple (λ d, at_mark p n d ∧ settled (log (tables d)) p off ∧ whole (ESkip p off len)) (emit (ESkip p off len))
    (λ _ d, at_mark p n d ∧ settled (log (tables d)) p (off + len)) stopped.
Proof.
  intros d ([Hi Hn] & Hs & Hw). cbn. split; [split; [by apply Inv_log|exact Hn]|].
  apply settled_extend; [by apply settled_grows| |right; apply elem_of_app; right; by apply list_elem_of_singleton].
  destruct Hw as (u & Hu & <- & _). by apply piece_end.
Qed.

(** A request that is answered, and what an acceptance settles. *)
Lemma post_mark p off n req :
  iqFilePath req = p → piece (full p) off (iqJSONL req) →
  triple (λ d, at_mark p n d ∧ settled (log (tables d)) p off) (post req off)
    (λ a d, at_mark p n d ∧ settled (log (tables d)) p off ∧
            match a with AAccepted _ _ => settled (log (tables d)) p (off + length (iqJSONL req)) | _ => True end) stopped.
Proof.
  intros <- Hu d [[Hi Hn] Hs]. unfold post, pure. destruct (postIngest req (net (tables d))) as [a n'] eqn:Ep. cbn.
  pose proof (settled_grows _ (EPost (iqFilePath req) off (iqJSONL req) a) _ _ Hs) as Hg.
  split; [split; [by apply Inv_log|exact Hn]|]. split; [done|]. destruct a as [x y| |]; [|done..].
  apply settled_extend; [done|by apply piece_end|]. left. exists (iqJSONL req), x, y. split; [|done].
  apply elem_of_app; right; by apply list_elem_of_singleton.
Qed.

Lemma sendUnit_settles fuel : ∀ p sid pd u off mtime n,
  piece (full p) off u → length u < fuel →
  triple (λ d, at_mark p n d ∧ settled (log (tables d)) p off) (sendUnit platform fuel p sid pd u off mtime)
    (λ r d, at_mark p n d ∧ (r.1 = true → settled (log (tables d)) p (off + length u))) stopped.
Proof.
  induction fuel as [|fuel IH]; intros p sid pd u off mtime n Hu Hlen; [lia|]. cbn [sendUnit].
  eapply t_bind; [apply get_file_mark; by intros d [? _]|]. intros fs. apply t_fact. intros Hfs.
  eapply t_bind; [apply post_mark; [done|exact Hu]|]. cbn [iqJSONL]. intros [x y|code|].
  - eapply (t_bind _ _ _ _ (λ _ d, at_mark p n d ∧ settled (log (tables d)) p (off + length u))).
    + destruct (0 <? y)%Z; [|apply t_ret; tauto]. eapply t_pre; [by apply set_file_keeps|tauto].
    + intros ?. apply t_ret. cbn. tauto.
  - destruct (code =? 413)%Z; [destruct (Nat.ltb_spec 1 (count_nl u)) as [Hc|Hc]|destruct (code =? 409)%Z].
    + destruct (halveAtNewline u) as [l r] eqn:Eh. destruct (halve_splits u l r Hc Eh) as (-> & Hl & Hr).
      destruct (piece_split _ _ _ _ Hu Hl Hr) as [Hpl Hpr]. rewrite length_app in Hlen. pose proof (ends_nl_nonempty _ Hl).
      eapply t_bind; [eapply t_pre; [apply (IH p sid pd l off mtime n Hpl); lia|tauto]|]. intros [[] na]; cbn; [|apply t_ret; cbn; intros d [? _]; by split].
      eapply t_bind; [eapply t_pre; [apply (IH p sid pd r (off + length l) mtime n Hpr); lia|tauto]|]. intros [okb nb].
      apply t_ret. cbn. intros d. rewrite length_app, Nat.add_assoc. done.
    + eapply t_bind; [eapply t_pre; [apply (emit_skip p off (length u) n)|]|].
      * intros d (Hm & Hs & _). split; [done|]. split; [done|]. exists u. split; [done|]. split; [done|].
        destruct Hu as (_ & Hu & _). apply ends_nl_snoc in Hu as [v ->]. rewrite count_nl_app in *. cbn in *. lia.
      * intros ?. eapply t_bind; [by apply set_file_keeps|]. intros ?. apply t_ret. cbn. tauto.
    + eapply t_bind; [eapply t_pre; [by apply (set_file_keeps p _ n off)|tauto]|]. intros ?.
      eapply t_bind; [by apply set_file_keeps|]. intros ?. apply t_ret. cbn. intros d [? _]. by split.
    + apply t_ret. cbn. intros d (? & _). by split.
  - apply t_ret. cbn. intros d (? & _). by split.
Qed.

(** The watermark of the file has reached [n] at least. *)
Definition past (p : string) (n : nat) (d : Db world) : Prop := Inv (tables d) ∧ n ≤ seen_in (files (tables d)) p.

Lemma at_mark_settled p n d : at_mark p n d → settled (log (tables d)) p n.
Proof. intros [Hi <-]. apply (inv_files _ Hi). Qed.

Lemma at_mark_past p n m d : m ≤ n → at_mark p n d → past p m d.
Proof. intros Hm [Hi Hn]. split; [done|lia]. Qed.

Lemma ingest_loop_settles fuel : ∀ p sid pd delta base off mtime adv added,
  piece (full p) base delta → length delta - off < fuel → (adv = true → 0 < off) →
  triple (at_mark p (base + off)) (ingest_loop platform limit fuel p sid pd delta base off mtime adv added)
    (λ r d, past p (if r.1 then S base else base) d) stopped.
Proof.
  induction fuel as [|fuel IH]; intros p sid pd delta base off mtime adv added Hd Hf Ha; [lia|]. cbn [ingest_loop].
  assert (Hout : ∀ d, at_mark p (base + off) d → past p (if adv then S base else base) d).
  { intros d. apply at_mark_past. destruct adv; [specialize (Ha eq_refl)|]; lia. }
  destruct (Nat.ltb_spec off (length delta)) as [Hlt|Hge]; cbn [negb]; [|by apply t_ret].
  destruct (chunkEnd_aligned delta off limit) as [[He1 He2] Hnl]; [apply Hd|done|]. cbv zeta. set (e := chunkEnd delta off limit) in *.
  set (u := take (e - off) (drop off delta)).
  assert (Hlen : off + length u = e) by (unfold u; rewrite length_take, length_drop; lia).
  eapply t_pre with (P' := λ d, line_start (full p) (base + off) ∧ at_mark p (base + off) d ∧ settled (log (tables d)) p (base + off)).
  2:{ intros d Hm. pose proof (at_mark_settled _ _ _ Hm) as Hs. split; [apply Hs|done]. }
  apply t_fact. intros Hls. eapply t_bind; [apply sendUnit_settles; [by apply piece_sub|lia]|]. intros [ok na]. cbn [fst snd].
  eapply t_bind; [apply get_file_mark; by intros d [? _]|]. intros fs. apply t_fact. intros _. destruct ok; cbn [negb].
  - eapply t_bind.
    { eapply t_pre; [apply (set_file_mark p (advance (base + e) mtime) (base + off) (base + e)); done|].
      intros d [Hm Hs]. split; [done|]. rewrite <- Hlen, Nat.add_assoc. by apply Hs. }
    intros ?. eapply t_bind; [eapply t_pre; [apply save_mark|by intros d [? _]]|]. intros ?.
    destruct (Quarantined fs !=? ""); [apply t_ret; intros d; apply at_mark_past; cbn; lia|]. apply IH; [done|lia|intros _; lia].
  - eapply (t_bind _ _ _ _ (λ _, at_mark p (base + off))).
    + destruct (Quarantined fs !=? ""); [eapply t_pre; [apply save_mark|by intros d [? _]]|apply t_ret; by intros d [? _]].
    + intros ?. by apply t_ret.
Qed.

Lemma ingestDelta_settles p delta mtime n :
  piece (full p) n delta → triple (at_mark p n) (ingestDelta platform limit p delta mtime) (λ adv d, past p (if adv then S n else n) d) stopped.
Proof.
  intros Hd. unfold ingestDelta. cbv zeta. eapply t_bind; [by apply (get_file_mark p n)|]. intros fs. apply t_fact. intros ->.
  eapply t_bind; [eapply t_pre; [apply (ingest_loop_settles _ p _ _ delta n 0); [done|lia|done]|by rewrite Nat.add_0_r]|].
  intros r. by apply t_ret.
Qed.

Lemma wait_settles p mtime n : triple (at_mark p n) (wait_for_more p mtime) (λ _, past p 0) stopped.
Proof.
  unfold wait_for_more. eapply t_bind.
  - eapply t_pre; [apply (set_file_keeps p _ n n); done|]. intros d Hm. split; [done|by apply at_mark_settled].
  - intros ?. eapply t_post; [eapply t_pre; [apply save_mark|by intros d [? _]]|]. intros ? d. apply at_mark_past. lia.
Qed.

Lemma skip_line_settles p len mtime n u :
  piece (full p) n u → length u = len → count_nl u = 1 → triple (at_mark p n) (skip_line p len mtime) (λ _, at_mark p (n + len)) stopped.
Proof.
  intros Hu Hl Hc. unfold skip_line. eapply t_bind; [by apply (get_file_mark p n)|]. intros fs. apply t_fact. intros ->.
  eapply t_bind.
  { eapply t_pre; [apply (emit_skip p n len n)|]. intros d Hm. split; [done|]. split; [by apply at_mark_settled|]. by exists u. }
  intros ?. eapply t_bind; [by apply set_file_keeps|]. intros ?. eapply t_bind; [apply (set_file_mark p _ n (n + len))|].
  - intros fs' Hb. cbn. by rewrite Hb.
  - intros ?. eapply t_pre; [apply save_mark|by intros d [? _]].
Qed.

(** A read that fails ends the drain where it is. *)
Lemma reading_settles {A} p n (a : A) (k : A → WM unit) :
  triple (at_mark p n) (k a) (λ _, past p 0) stopped → triple (at_mark p n) (reading a k) (λ _, past p 0) stopped.
Proof.
  intros Hk. unfold reading. eapply (t_bind _ _ _ _ (λ r d, match r with Ok b => b = a ∧ at_mark p n d | Err _ => at_mark p n d end)).
  - eapply t_attempt with (R := λ _, at_mark p n). intros d Hm. unfold read, query, exec.
    destruct (next_fault (faults d)) as [[] fs]; cbn; [exact Hm|]. split; [done|exact Hm].
  - intros [b|e]; [apply t_fact; by intros ->|]. apply t_ret. intros d. apply at_mark_past. lia.
Qed.

Lemma after_ingest_settles p n (adv : bool) (next : WM unit) :
  (∀ m, n < m → triple (at_mark p m) next (λ _, past p 0) stopped) →
  triple (past p (if adv then S n else n)) (after_ingest p adv next) (λ _, past p 0) stopped.
Proof.
  intros Hn d [Hi Hm]. unfold after_ingest. cbn. destruct adv; cbn [negb orb]; [|split; [exact Hi|lia]].
  destruct (Quarantined (file_of (tables d) p) !=? ""); [split; [exact Hi|lia]|].
  specialize (Hn _ Hm (mkDb (tables d) (faults d))). apply Hn. by split.
Qed.

(** The line at an offset, when its newline is there. *)
Lemma line_piece p c off len :
  c `prefix_of` full p → line_start (full p) off → line_at c off = (len, true) →
  piece (full p) off (window_at c off len) ∧ length (window_at c off len) = len ∧ count_nl (window_at c off len) = 1.
Proof.
  unfold line_at. intros Hc Hs. destruct (first_nl (drop off c)) as [i|] eqn:E; [|done]. intros [= <-].
  destruct (first_nl_Some _ _ E) as [Hi Hmin]. pose proof (lookup_lt_Some _ _ _ Hi) as Hlt.
  assert (Hlen : length (window_at c off (S i)) = S i) by (unfold window_at; rewrite length_take; lia).
  assert (Hend : window_at c off (S i) !! i = Some newline) by (unfold window_at; rewrite lookup_take, decide_True by lia; done).
  split; [|split; [done|]].
  - rewrite <- (firstn_all (window_at c off (S i))), Hlen. by apply window_piece.
  - unfold window_at. rewrite (take_S_r _ _ _ Hi), count_nl_app, count_nl_none; [done|]. intros j Hj.
    apply lookup_take_Some in Hj as [Hj Hji]. by apply (Hmin j).
Qed.

Lemma drainFile_settles fuel : ∀ c p size mtime n,
  c `prefix_of` full p → size - n < fuel →
  triple (at_mark p n) (drainFile platform limit ceiling fuel c p size mtime) (λ _, past p 0) stopped.
Proof.
  induction fuel as [|fuel IH]; intros c p size mtime n Hc Hf; [lia|]. cbn [drainFile].
  assert (Hagain : n < size → ∀ m, n < m → triple (at_mark p m) (drainFile platform limit ceiling fuel c p size mtime) (λ _, past p 0) stopped).
  { intros Hn m Hm. apply IH; [done|lia]. }
  eapply t_bind; [by apply (get_file_mark p n)|]. intros fs. apply t_fact. intros ->. cbv zeta.
  destruct (Nat.ltb_spec n size) as [Hn|Hn]; cbn [negb]; [|apply t_ret; intros d; apply at_mark_past; lia]. specialize (Hagain Hn).
  assert (Hstop : triple (at_mark p n) (db_ret tt) (λ _, past p 0) stopped) by (apply t_ret; intros d; apply at_mark_past; lia).
  eapply t_pre with (P' := λ d, line_start (full p) n ∧ at_mark p n d); [|intros d Hm; split; [by apply (at_mark_settled p n d)|done]].
  apply t_fact. intros Hs. apply reading_settles. destruct (window_at c n limit) as [|x rest] eqn:Ew; [done|]. rewrite <- Ew.
  destruct (last_nl (window_at c n limit)) as [cut|] eqn:El.
  - eapply t_bind; [apply ingestDelta_settles, window_piece; [done|done|by apply last_nl_Some]|].
    intros adv. by apply after_ingest_settles.
  - case_if; [apply wait_settles|]. apply reading_settles. destruct (line_at c n) as [len []] eqn:Eline; cbn [negb fst snd]; [|apply wait_settles].
    destruct (line_piece p c n len Hc Hs Eline) as (Hpc & Hlen & Hone). case_if.
    + eapply t_bind; [by eapply skip_line_settles|]. intros ?. apply Hagain.
      destruct Hpc as (_ & Hpc & _). apply ends_nl_nonempty in Hpc. lia.
    + apply reading_settles. eapply t_bind; [by apply ingestDelta_settles|]. intros adv. by apply after_ingest_settles.
Qed.

(** The transcripts of a scan are what has been written of the files so far. *)
Definition written (l : list Transcript) : Prop := Forall (λ t, tContent t `prefix_of` full (tPath t)) l.

Lemma scan_one_at t n :
  tContent t `prefix_of` full (tPath t) →
  triple (at_mark (tPath t) n) (scan_one platform limit ceiling t) (λ _ d, Inv (tables d)) stopped.
Proof.
  intros Hc. unfold scan_one. case_if; [apply t_ret; by intros d [? _]|]. set (p := tPath t) in *.
  eapply t_bind; [eapply t_pre; [apply (set_file_keeps p id n n); done|intros d Hm; split; [done|by apply at_mark_settled]]|].
  intros ?. eapply t_bind; [apply (get_file_mark p n); by intros d [? _]|]. intros fs. apply t_fact. intros _.
  case_if; [apply t_ret; intros d [[Hi _] _]; exact Hi|]. case_if; [apply t_ret; intros d [[Hi _] _]; exact Hi|].
  eapply (t_bind _ _ _ _ (λ _, at_mark p n)).
  - case_if; [|apply t_ret; by intros d [? _]].
    eapply (t_bind _ _ _ _ (λ _ d, at_mark p n d ∧ settled (log (tables d)) p n)).
    + intros d [Hm Hs]. rewrite attempt_run. unfold read, query, exec. by destruct (next_fault (faults d)) as [[] ?].
    + intros r. eapply t_post; [by apply set_file_keeps|]. by intros ? d [? _].
  - intros ?. eapply t_post; [apply drainFile_settles; [done|lia]|]. by intros ? d [? _].
Qed.

Lemma scan_settles l : written l → triple (λ d, Inv (tables d)) (scan platform limit ceiling l) (λ _ d, Inv (tables d)) stopped.
Proof.
  induction 1 as [|t l Ht _ IH]; cbn [scan]; [by apply t_ret|]. eapply t_bind; [|intros ?; exact IH].
  intros d Hi. exact (scan_one_at t _ Ht d (conj Hi eq_refl)).
Qed.
End Delivery.

(** ** A relay that is there *)

(** The offset just past the last complete record. *)
Definition lines_end (c : bytes) : nat := match last_nl c with Some i => S i | None => 0 end.

Lemma lines_end_spec c i : c !! i = Some newline → i < lines_end c.
Proof.
  intros Hi. unfold lines_end. destruct (last_nl c) as [k|] eqn:E; [|by destruct (last_nl_None _ E i)].
  destruct (decide (i < S k)) as [|Hgt]; [done|]. destruct (last_nl_Some _ _ E) as [_ Hk]. destruct (Hk i); [lia|done].
Qed.

Lemma lines_end_nl c : 0 < lines_end c → c !! pred (lines_end c) = Some newline.
Proof. unfold lines_end. destruct (last_nl c) as [k|] eqn:E; [|lia]. intros _. apply (last_nl_Some _ _ E). Qed.

Lemma lines_end_le c : lines_end c ≤ length c.
Proof. destruct (decide (0 < lines_end c)) as [Hp|]; [|lia]. apply lines_end_nl, lookup_lt_Some in Hp. lia. Qed.

Section Up.
Context {W : Type} `{Relay W} (platform : string) (limit ceiling : nat).

(** The state of the files the drain is not about. *)
Context (others : string → fileState).

(** The relay answers, and refuses a request only for its size. *)
Definition answering : Prop :=
  ∀ req (n : W), match (postIngest req n).1 with AAccepted _ _ => True | AStatus code => code = 413%Z | ATransport => False end.

Hypothesis (Hup : answering) (Hlimit : 0 < limit).

(** Nothing fails, the file is not in quarantine, and the others are as they were. *)
Definition clean (p : string) (n : nat) (d : Db (World (W := W))) : Prop :=
  faults d = [] ∧ BytesSeen (file_of (tables d) p) = n ∧ Quarantined (file_of (tables d) p) = "" ∧
  ∀ q, q ≠ p → file_of (tables d) q = others q.

Definition never (e : string) (d : Db (World (W := W))) : Prop := False.

Lemma file_of_modify p f (w : World (W := W)) : file_of (modify p f w) p = f (file_of w p).
Proof. unfold file_of at 1. cbn. by rewrite lookup_insert_eq. Qed.

Lemma file_of_modify_ne p q f (w : World (W := W)) : q ≠ p → file_of (modify p f w) q = file_of w q.
Proof. intros Hne. unfold file_of at 1. cbn. by rewrite lookup_insert_ne. Qed.

Lemma set_file_clean p f n n' :
  (∀ fs, BytesSeen fs = n → Quarantined fs = "" → BytesSeen (f fs) = n' ∧ Quarantined (f fs) = "") →
  triple (clean p n) (set_file p f) (λ _, clean p n') never.
Proof.
  intros Hf d (Hd & Hn & Hq & Ho). cbn. destruct (Hf _ Hn Hq). unfold clean. cbn. split; [exact Hd|].
  change (mkWatch _ _ _ _) with (modify p f (tables d)). rewrite file_of_modify. split; [done|]. split; [done|].
  intros q Hne. rewrite file_of_modify_ne by done. by apply Ho.
Qed.

Lemma get_file_clean p n : triple (clean p n) (get_file p) (λ fs d, (BytesSeen fs = n ∧ Quarantined fs = "") ∧ clean p n d) never.
Proof. intros d Hd. pose proof Hd as (_ & Hn & Hq & _). cbn. by destruct d. Qed.

Lemma save_clean p n : triple (clean p n) saveState (λ _, clean p n) never.
Proof. intros [w fs] (Hd & Hn & Hq & Ho). cbn in Hd. subst fs. cbn. by split. Qed.

Lemma emit_clean p e n : triple (clean p n) (emit e) (λ _, clean p n) never.
Proof. intros [w fs] (Hd & Hn & Hq & Ho). by split. Qed.

Lemma reading_clean {A} p n (a : A) (k : A → WM unit) Q : triple (clean p n) (k a) Q never → triple (clean p n) (reading a k) Q never.
Proof. intros Hk [w fs] Hd. pose proof Hd as (Hf & _). cbn in Hf. subst fs. exact (Hk _ Hd). Qed.

Lemma post_clean p n req off :
  triple (clean p n) (post req off)
    (λ a d, match a with AAccepted _ _ => True | AStatus code => code = 413%Z | ATransport => False end ∧ clean p n d) never.
Proof.
  intros d Hd. unfold post, pure. specialize (Hup req (net (tables d))). destruct (postIngest req (net (tables d))) as [a n'] eqn:Ep.
  cbn in *. split; [exact Hup|]. exact Hd.
Qed.

Lemma sendUnit_clean fuel : ∀ p sid pd u off mtime n,
  ends_nl u → length u < fuel → triple (clean p n) (sendUnit platform fuel p sid pd u off mtime) (λ r d, r.1 = true ∧ clean p n d) never.
Proof.
  induction fuel as [|fuel IH]; intros p sid pd u off mtime n Hu Hlen; [lia|]. cbn [sendUnit].
  eapply t_bind; [apply get_file_clean|]. intros fs. apply t_fact. intros _. eapply t_bind; [apply post_clean|].
  intros [x y|code|]; apply t_fact; [|intros ->; cbn [Z.eqb Pos.eqb]|done].
  - intros _. eapply (t_bind _ _ _ _ (λ _, clean p n)); [|intros ?; by apply t_ret].
    case_if; [by apply set_file_clean|by apply t_ret].
  - destruct (Nat.ltb_spec 1 (count_nl u)) as [Hc|Hc].
    + destruct (halveAtNewline u) as [l r] eqn:Eh. destruct (halve_splits u l r Hc Eh) as (-> & Hl & Hr).
      assert (Her : ends_nl r) by (rewrite <- (drop_app_length l r); apply ends_nl_drop; [done|rewrite length_app; lia]).
      rewrite length_app in Hlen. pose proof (ends_nl_nonempty _ Hl).
      eapply t_bind; [apply (IH p sid pd l off mtime n); [done|lia]|]. intros [oka na]. apply t_fact. cbn. intros ->. cbn [negb].
      eapply t_bind; [apply (IH p sid pd r _ mtime n); [done|lia]|]. intros [okb nb]. by apply t_ret.
    + eapply t_bind; [apply emit_clean|]. intros ?. eapply t_bind; [by apply (set_file_clean p _ n n)|]. intros ?. by apply t_ret.
Qed.

Lemma ingest_loop_clean fuel : ∀ p sid pd delta base off mtime adv added,
  ends_nl delta → length delta - off < fuel → off ≤ length delta → (adv = false → off = 0) →
  triple (clean p (base + off)) (ingest_loop platform limit fuel p sid pd delta base off mtime adv added)
    (λ r d, r.1 = true ∧ clean p (base + length delta) d) never.
Proof.
  induction fuel as [|fuel IH]; intros p sid pd delta base off mtime adv added Hd Hf Hoff Ha; [lia|]. cbn [ingest_loop].
  pose proof (ends_nl_nonempty _ Hd). destruct (Nat.ltb_spec off (length delta)) as [Hlt|Hge]; cbn [negb].
  - destruct (chunkEnd_aligned delta off limit) as [[He1 He2] Hnl]; [done|done|]. cbv zeta. set (e := chunkEnd delta off limit) in *.
    eapply t_bind; [apply sendUnit_clean; [|lia]|].
    { unfold ends_nl. rewrite length_take, length_drop, Nat.min_l, lookup_take, decide_True, lookup_drop by lia. rewrite <- Hnl. f_equal. lia. }
    intros [ok na]. apply t_fact. cbn [fst snd]. intros ->. eapply t_bind; [apply get_file_clean|]. intros fs. apply t_fact. intros [_ Hq].
    cbn [negb]. rewrite Hq. cbn. eapply t_bind; [by apply (set_file_clean p _ _ (base + e))|]. intros ?.
    eapply t_bind; [apply save_clean|]. intros ?. apply IH; [done|lia|lia|done].
  - replace off with (length delta) in * by lia. apply t_ret. cbn. intros d Hc. split; [|exact Hc]. destruct adv; [done|]. specialize (Ha eq_refl). lia.
Qed.

Lemma ingestDelta_clean p delta mtime n :
  ends_nl delta → triple (clean p n) (ingestDelta platform limit p delta mtime) (λ adv d, adv = true ∧ clean p (n + length delta) d) never.
Proof.
  intros Hd. unfold ingestDelta. cbv zeta. eapply t_bind; [apply get_file_clean|]. intros fs. apply t_fact. intros [-> _].
  eapply t_bind; [eapply t_pre; [apply (ingest_loop_clean _ p _ _ delta n 0); [done|lia|lia|done]|by rewrite Nat.add_0_r]|].
  intros r. by apply t_ret.
Qed.

Lemma after_ingest_clean p n (next : WM unit) Q :
  triple (clean p n) next Q never → triple (clean p n) (after_ingest p true next) Q never.
Proof.
  intros Hn. unfold after_ingest. eapply t_bind; [apply get_file_clean|]. intros fs. apply t_fact. intros [_ ->]. exact Hn.
Qed.

(** No newline from the watermark on: it is where it should be. *)
Lemma wait_clean c p mtime n :
  n ≤ lines_end c → (∀ k, c !! (n + k) ≠ Some newline) → triple (clean p n) (wait_for_more p mtime) (λ _, clean p (lines_end c)) never.
Proof.
  intros Hn Hno. assert (Hd : lines_end c = n).
  { destruct (decide (lines_end c = n)) as [|Hne]; [done|]. destruct (Hno (pred (lines_end c) - n)).
    replace (n + (pred (lines_end c) - n)) with (pred (lines_end c)) by lia. apply lines_end_nl. lia. }
  rewrite Hd. eapply t_bind; [by apply (set_file_clean p _ n n)|]. intros ?. apply save_clean.
Qed.

Lemma skip_line_clean p len mtime n : triple (clean p n) (skip_line p len mtime) (λ _, clean p (n + len)) never.
Proof.
  unfold skip_line. eapply t_bind; [apply get_file_clean|]. intros fs. apply t_fact. intros _.
  eapply t_bind; [apply emit_clean|]. intros ?. eapply t_bind; [by apply (set_file_clean p _ n n)|]. intros ?.
  eapply t_bind; [apply (set_file_clean p _ n (n + len)); intros ? <- ?; by split|]. intros ?. apply save_clean.
Qed.

(** Sending bytes and draining on from there. *)
Lemma ingest_then_clean p delta mtime n (next : WM unit) Q :
  ends_nl delta → triple (clean p (n + length delta)) next Q never →
  triple (clean p n) (let! advanced := ingestDelta platform limit p delta mtime in after_ingest p advanced next) Q never.
Proof.
  intros Hd Hn. eapply t_bind; [by apply ingestDelta_clean|]. intros adv. apply t_fact. intros ->. by apply after_ingest_clean.
Qed.

Lemma drainFile_catches_up fuel : ∀ c p mtime n,
  n ≤ lines_end c → length c - n < fuel →
  triple (clean p n) (drainFile platform limit ceiling fuel c p (length c) mtime) (λ _, clean p (lines_end c)) never.
Proof.
  induction fuel as [|fuel IH]; intros c p mtime n Hn Hf; [lia|]. cbn [drainFile].
  assert (Hagain : n < length c → ∀ k, c !! (n + k) = Some newline →
    triple (clean p (n + S k)) (drainFile platform limit ceiling fuel c p (length c) mtime) (λ _, clean p (lines_end c)) never).
  { intros Hlt k Hk. apply IH; [|lia]. apply lines_end_spec in Hk. lia. }
  pose proof (lines_end_le c) as Hle. eapply t_bind; [apply get_file_clean|]. intros fs. apply t_fact. intros [-> _]. cbv zeta.
  destruct (Nat.ltb_spec n (length c)) as [Hlt|Hge]; cbn [negb]; [|replace (lines_end c) with n by lia; by apply t_ret].
  apply reading_clean. destruct (window_at c n limit) as [|x rest] eqn:Ew.
  { exfalso. apply (f_equal length) in Ew. unfold window_at in Ew. rewrite length_take, length_drop in Ew. cbn in Ew. lia. }
  rewrite <- Ew. destruct (last_nl (window_at c n limit)) as [cut|] eqn:El.
  - destruct (last_nl_Some _ _ El) as [Hc _]. pose proof (lookup_lt_Some _ _ _ Hc).
    apply ingest_then_clean; [by apply ends_nl_take|]. rewrite length_take, Nat.min_l by lia. apply Hagain; [done|].
    unfold window_at in Hc. apply lookup_take_Some in Hc as [Hc _]. by rewrite lookup_drop in Hc.
  - pose proof (last_nl_None _ El) as Hno. destruct (Nat.ltb_spec (length (window_at c n limit)) limit) as [Hshort|Hfull].
    + apply wait_clean; [done|]. intros k Hk. apply (Hno k). unfold window_at in *. rewrite length_take, length_drop in Hshort.
      pose proof (lookup_lt_Some _ _ _ Hk). rewrite lookup_take, decide_True by lia. by rewrite lookup_drop.
    + apply reading_clean. unfold line_at. destruct (first_nl (drop n c)) as [i|] eqn:F; cbn [negb fst snd].
      * destruct (first_nl_Some _ _ F) as [Hi _]. pose proof (lookup_lt_Some _ _ _ Hi) as Hil. case_if.
        -- eapply t_bind; [apply skip_line_clean|]. intros ?. apply Hagain; [done|]. by rewrite lookup_drop in Hi.
        -- apply reading_clean. apply ingest_then_clean; [by apply ends_nl_take|].
           unfold window_at. rewrite length_take, Nat.min_l by lia. apply Hagain; [done|]. by rewrite lookup_drop in Hi.
      * apply wait_clean; [done|]. intros k Hk. apply (first_nl_None _ F k). by rewrite lookup_drop.
Qed.

(** A file the walk considers. *)
Definition is_transcript (t : Transcript) : bool := negb (tIsDir t) && HasSuffix (tPath t) ".jsonl".

Lemma scan_one_catches_up t n :
  is_transcript t = true → tSize t = length (tContent t) → n ≤ lines_end (tContent t) →
  triple (clean (tPath t) n) (scan_one platform limit ceiling t) (λ _, clean (tPath t) (lines_end (tContent t))) never.
Proof.
  unfold is_transcript, scan_one. intros Ht Hsize Hn. pose proof (lines_end_le (tContent t)).
  replace (tIsDir t || negb (HasSuffix (tPath t) ".jsonl")) with false by (destruct (tIsDir t), (HasSuffix (tPath t) ".jsonl"); done).
  eapply t_bind; [by apply (set_file_clean (tPath t) id n n)|]. intros ?. eapply t_bind; [apply get_file_clean|]. intros fs. apply t_fact.
  intros [Hb Hq]. rewrite Hq. change ("" !=? "") with false. cbv iota. destruct ((tSize t <=? _) && _) eqn:Hs.
  - apply andb_true_iff in Hs as [Hs _]. apply Nat.leb_le in Hs. replace (lines_end (tContent t)) with n by lia. by apply t_ret.
  - eapply (t_bind _ _ _ _ (λ _, clean (tPath t) n)); [|intros ?; rewrite Hsize; apply drainFile_catches_up; lia].
    case_if; [|by apply t_ret]. eapply (t_bind _ _ _ _ (λ _, clean (tPath t) n)); [|intros r; by apply set_file_clean].
    intros [w f] Hc. pose proof Hc as (Hf & _). cbn in Hf. subst f. exact Hc.
Qed.
End Up.

(** ** The life of a watcher *)

(** The documents [loadState] finds: no file, one it cannot read, one that is not JSON of
    the right shape, or the version it names and the entries of the platform. *)
Inductive StateDoc := DMissing | DUnreadable | DCorrupt | DParsed (version : Z) (entries : gmap string fileState).

Definition stateVersion : Z := 2.

Section Life.
Context {W : Type} `{Relay W} (platform : string) (limit ceiling : nat).

Definition use_files (f : gmap string fileState) : WM unit := pure (λ w, (tt, mkWatch f (saved w) (log w) (net w) : World (W := W))).

(** [loadState]: the current format, or once the entries of the legacy one. *)
Definition loadState (ResetState : bool) (v2 v1 : StateDoc) : WM unit :=
  let unusable := if ResetState then use_files ∅ else db_fail "memory watch: state file is unreadable" in
  match v2 with
  | DParsed version entries => if (version =? stateVersion)%Z then use_files entries else unusable
  | DCorrupt => unusable
  | DUnreadable => db_fail "memory watch: cannot read state file"
  | DMissing =>
      match v1 with
      | DMissing => use_files ∅
      | DUnreadable => db_fail "memory watch: cannot read legacy state file"
      | DCorrupt => if ResetState then use_files ∅ else db_fail "memory watch: legacy state file is corrupt"
      | DParsed _ entries => use_files entries ;;; saveState
      end
  end.

(** What happens to a watcher: a scan of the files as they are then, with the reads and
    writes that fail, or a new process that loads what was saved. *)
Inductive Act := Scan (l : list Transcript) (failing : list bool) | Restart (reset : bool) (legacy : StateDoc).

Definition act (w : World (W := W)) (a : Act) : World :=
  match a with
  | Scan l failing => final (scan platform limit ceiling l) (mkDb w failing)
  | Restart reset legacy => final (loadState reset (DParsed stateVersion (saved w)) legacy) (mkDb w [])
  end.

Definition live (n : W) (h : list Act) : World := foldl act (mkWatch ∅ ∅ [] n) h.

(** Transcripts are only appended to: each scan finds a prefix of what is there in the end. *)
Definition append_only (full : string → bytes) (h : list Act) : Prop :=
  Forall (λ a, match a with Scan l _ => written full l | Restart _ _ => True end) h.

Lemma live_inv full n h : append_only full h → Inv full (live n h).
Proof.
  unfold live. assert (Hinit : Inv full (mkWatch ∅ ∅ [] n)).
  { split; cbn; [| |set_solver]; intros p; unfold seen_in; rewrite lookup_empty; split; [done|cbn; lia|done|cbn; lia]. }
  generalize dependent (mkWatch ∅ ∅ [] n). intros w Hw Hh. revert w Hw. induction Hh as [|a h Ha Hh IH]; intros w Hw; cbn; [done|].
  apply IH. destruct a as [l failing|]; cbn.
  - unfold final. pose proof (scan_settles platform limit ceiling full l Ha (mkDb w failing) Hw) as Hs.
    destruct (scan platform limit ceiling l (mkDb w failing)) as [[u|e] d]; [exact Hs|apply Hs].
  - destruct Hw as [Hf Hs Hl]. by split.
Qed.

(** C18: in every life of a watcher, whatever the relay answers
    and whichever reads and saves fail, every byte before a file's watermark, in memory or
    in the saved state, was accepted by the relay as part of a request holding exactly the
    bytes of the file there, or belongs to a single record that was skipped and counted as
    too large. *)
Theorem watermark_never_passes_unsent full n h p i :
  append_only full h →
  i < seen_in (files (live n h)) p ∨ i < seen_in (saved (live n h)) p →
  (∃ off u added rejected, EPost p off u (AAccepted added rejected) ∈ log (live n h) ∧
     off ≤ i < off + length u ∧ u = window_at (full p) off (length u)) ∨
  (∃ off len, ESkip p off len ∈ log (live n h) ∧ off ≤ i < off + len ∧ count_nl (window_at (full p) off len) = 1).
Proof.
  intros Hh Hi. destruct (live_inv full n h Hh) as [Hf Hs Hl].
  assert (Ha : accounted (log (live n h)) p i) by (destruct Hi as [Hi|Hi]; [by apply (Hf p)|by apply (Hs p)]).
  destruct Ha as (off & len & Hr & [(u & a & r & He & <-)|He]); specialize (Hl _ He).
  - left. exists off, u, a, r. split; [done|]. split; [done|]. by apply piece_window.
  - right. exists off, len. split; [done|]. split; [done|]. destruct Hl as (u & Hu & <- & Hc). by rewrite <- piece_window.
Qed.

(** Every request a watcher ever sends, halved ones included,
    starts where a record of the file starts, holds the bytes found there, and ends with a
    newline: no record is split across two requests. *)
Theorem requests_carry_whole_records full n h p off u a :
  append_only full h → EPost p off u a ∈ log (live n h) →
  line_start (full p) off ∧ u = window_at (full p) off (length u) ∧ ∃ v, u = v ++ [newline].
Proof.
  intros Hh He. destruct (live_inv full n h Hh) as [_ _ Hl]. specialize (Hl _ He). cbn in Hl.
  split; [apply Hl|]. split; [by apply piece_window|]. apply ends_nl_snoc, Hl.
Qed.

(** The loops of a scan - the halving of refused requests, the chunks of a
    delta, the windows of a file - always run to their end: with fuel for one step per byte
    no scan in any life of a watcher is cut short. *)
Theorem scan_always_ends full n h l failing :
  append_only full (h ++ [Scan l failing]) →
  outcome (scan platform limit ceiling l) (mkDb (live n h) failing) ≠ Err out_of_fuel.
Proof.
  intros Hh. apply Forall_app in Hh as [Hh Hl]. apply Forall_cons in Hl as [Hl _]. unfold outcome.
  pose proof (scan_settles platform limit ceiling full l Hl (mkDb (live n h) failing) (live_inv full n h Hh)) as Hs.
  destruct (scan platform limit ceiling l (mkDb (live n h) failing)) as [[u|e] d]; [done|]. destruct Hs as [Hne _]. cbn. congruence.
Qed.
End Life.

Section CatchUp.
Context {W : Type} `{Relay W} (platform : string) (limit ceiling : nat).

(** A transcript of the walk whose size is that of its content, not in quarantine and not
    ahead of its complete records. *)
Definition ready (w : World (W := W)) (t : Transcript) : Prop :=
  is_transcript t = true ∧ tSize t = length (tContent t) ∧ Quarantined (file_of w (tPath t)) = "" ∧
  BytesSeen (file_of w (tPath t)) ≤ lines_end (tContent t).

Lemma scan_one_frame t w :
  answering (W := W) → 0 < limit → ready w t →
  ∃ w', scan_one platform limit ceiling t (mkDb w []) = (Ok tt, mkDb w' []) ∧
        BytesSeen (file_of w' (tPath t)) = lines_end (tContent t) ∧ (∀ q, q ≠ tPath t → file_of w' q = file_of w q).
Proof.
  intros Hup Hlim (Ht & Hsz & Hq & Hb).
  pose proof (scan_one_catches_up platform limit ceiling (file_of w) Hup Hlim t _ Ht Hsz Hb (mkDb w [])) as Hs.
  destruct (scan_one platform limit ceiling t (mkDb w [])) as [[[]|e] [w' f]]; [|destruct Hs; by split].
  destruct Hs as (Hf & Hn & _ & Ho); [by split|]. cbn in Hf. subst f. by exists w'.
Qed.

(** C21: when the relay answers - accepting requests or refusing them for their
    size - and nothing fails, one scan brings the watermark of every transcript to the end
    of its last complete record, and no further. *)
Theorem scan_catches_up l w :
  answering (W := W) → 0 < limit → NoDup (tPath <$> l) → Forall (ready w) l →
  ∃ w', scan platform limit ceiling l (mkDb w []) = (Ok tt, mkDb w' []) ∧
        ∀ t, t ∈ l → BytesSeen (file_of w' (tPath t)) = lines_end (tContent t).
Proof.
  intros Hup Hlim. revert w.
  enough (Hg : ∀ w, NoDup (tPath <$> l) → Forall (ready w) l →
    ∃ w', scan platform limit ceiling l (mkDb w []) = (Ok tt, mkDb w' []) ∧
      (∀ t, t ∈ l → BytesSeen (file_of w' (tPath t)) = lines_end (tContent t)) ∧
      (∀ q, q ∉ (tPath <$> l) → file_of w' q = file_of w q)).
  { intros w Hn Hr. destruct (Hg w Hn Hr) as (w' & Hs & Ht & _). by exists w'. }
  induction l as [|t l IH]; intros w Hn Hr; [exists w; split; [done|]; split; [set_solver|done]|].
  cbn in Hn. apply NoDup_cons in Hn as [Hnt Hn]. apply Forall_cons in Hr as [Ht Hr].
  destruct (scan_one_frame t w Hup Hlim Ht) as (w1 & Hs1 & Hb1 & Ho1).
  destruct (IH w1 Hn) as (w2 & Hs2 & Hb2 & Ho2).
  { rewrite Forall_forall in Hr |- *. intros x Hx. destruct (Hr x Hx) as (Hx1 & Hx2 & Hx3 & Hx4).
    assert (tPath x ≠ tPath t) by (intros He; apply Hnt; rewrite <- He; by apply list_elem_of_fmap_2).
    unfold ready. by rewrite Ho1. }
  exists w2. split; [cbn [scan]; unfold db_bind; by rewrite Hs1|]. split.
  - intros x Hx. apply elem_of_cons in Hx as [->|Hx]; [|by apply Hb2]. by rewrite Ho2.
  - intros q Hq. cbn in Hq. apply not_elem_of_cons in Hq as [Hq1 Hq2]. rewrite Ho2 by done. by apply Ho1.
Qed.
End CatchUp.

(** ** Ownership conflicts *)

Definition about (e : Event) : string := match e with EPost p _ _ _ | ESkip p _ _ => p end.

Definition no_conflict (lg : list Event) (p : string) : Prop := ∀ off u, EPost p off u (AStatus 409) ∉ lg.

(** After a conflict about a file there is nothing more about it. *)
Definition conflict_last (lg : list Event) (p : string) : Prop :=
  ∀ l1 off u l2, lg = l1 ++ EPost p off u (AStatus 409) :: l2 → ∀ e, e ∈ l2 → about e ≠ p.

Lemma conflict_last_grow lg p e : conflict_last lg p → (no_conflict lg p ∨ about e ≠ p) → conflict_last (lg ++ [e]) p.
Proof.
  intros Hl Hor l1 off u l2 He x Hx. destruct l2 as [|y l2 _] using rev_ind; [set_solver|].
  rewrite app_comm_cons, app_assoc in He. apply app_inj_tail in He as [Hlg ->].
  destruct Hor as [Hno|Hne]; [destruct (Hno off u); rewrite Hlg; set_solver|].
  apply elem_of_app in Hx as [Hx|Hx]; [by eapply Hl|]. apply list_elem_of_singleton in Hx. by subst.
Qed.

Section Conflict.
Context {W : Type} `{Relay W} (platform : string) (limit ceiling : nat).
Notation world := (World (W := W)).

Definition quarantined_in (f : gmap string fileState) (p : string) : Prop := Quarantined (default fresh_file (f !! p)) ≠ "".

(** A file with a conflict is in quarantine, in memory and in the saved state. *)
Definition sealed_or_free (w : world) (q : string) : Prop :=
  no_conflict (log w) q ∨ (quarantined_in (files w) q ∧ quarantined_in (saved w) q).

Definition quiet (d : Db world) : Prop :=
  faults d = [] ∧ ∀ q, conflict_last (log (tables d)) q ∧ sealed_or_free (tables d) q.

(** The state while [p] is drained: free, or with a conflict that is not saved yet. *)
Definition around (p : string) (d : Db world) : Prop :=
  faults d = [] ∧ ∀ q, conflict_last (log (tables d)) q ∧ (q ≠ p → sealed_or_free (tables d) q).

Definition free (p : string) (d : Db world) : Prop :=
  around p d ∧ no_conflict (log (tables d)) p ∧ ¬ quarantined_in (files (tables d)) p.

Definition hit (p : string) (d : Db world) : Prop := around p d ∧ quarantined_in (files (tables d)) p.

Definition kept (e : string) (d : Db world) : Prop := quiet d.

Lemma free_quiet p d : free p d → quiet d.
Proof.
  intros ([Hf Ha] & Hn & _). split; [done|]. intros q. destruct (Ha q) as [Hl Hs]. split; [done|].
  destruct (decide (q = p)) as [->|Hne]; [by left|by apply Hs].
Qed.

Lemma quarantined_insert f p q fs :
  quarantined_in (<[p := fs]> f) q ↔ if decide (q = p) then Quarantined fs ≠ "" else quarantined_in f q.
Proof. unfold quarantined_in. destruct (decide (q = p)) as [->|Hne]; [by rewrite lookup_insert_eq|]. by rewrite lookup_insert_ne. Qed.

Lemma around_set p f d : around p d → around p (mkDb (modify p f (tables d)) (faults d)).
Proof.
  intros [Hf Ha]. split; [done|]. intros q. destruct (Ha q) as [Hl Hs]. split; [done|]. intros Hne.
  destruct (Hs Hne) as [Hn|[Hq1 Hq2]]; [by left|]. right. split; [|done]. cbn. apply quarantined_insert. by rewrite decide_False.
Qed.

Lemma set_free p f : (∀ fs, Quarantined (f fs) = Quarantined fs) → triple (free p) (set_file p f) (λ _, free p) kept.
Proof.
  intros Hf d (Ha & Hn & Hq). cbn. split; [by apply around_set|]. split; [done|]. cbn. rewrite quarantined_insert, decide_True by done.
  rewrite Hf. exact Hq.
Qed.

Lemma set_hit p f : (∀ fs, Quarantined (f fs) ≠ "") → triple (around p) (set_file p f) (λ _, hit p) kept.
Proof. intros Hf d Ha. split; [by apply around_set|]. cbn. rewrite quarantined_insert, decide_True by done. apply Hf. Qed.

Lemma save_free p : triple (free p) saveState (λ _, free p) kept.
Proof.
  intros [w fs] ([Hf Ha] & Hn & Hq). cbn in Hf. subst fs. cbn. split; [|done]. split; [done|]. intros q. destruct (Ha q) as [Hl Hs].
  split; [done|]. intros Hne. destruct (Hs Hne) as [Hno|[Hq1 _]]; [by left|by right].
Qed.

Lemma save_hit p : triple (hit p) saveState (λ _ d, quiet d ∧ quarantined_in (files (tables d)) p) kept.
Proof.
  intros [w fs] ([Hf Ha] & Hq). cbn in Hf. subst fs. cbn. split; [|done]. split; [done|]. intros q. destruct (Ha q) as [Hl Hs].
  split; [done|]. destruct (decide (q = p)) as [->|Hne]; [by right|]. destruct (Hs Hne) as [Hno|[Hq1 _]]; [by left|by right].
Qed.

Lemma log_around p e d n :
  around p d → about e = p → no_conflict (log (tables d)) p →
  around p (mkDb (mkWatch (files (tables d)) (saved (tables d)) (log (tables d) ++ [e]) n) (faults d)).
Proof.
  intros [Hf Ha] He Hn. split; [done|]. intros q. destruct (Ha q) as [Hl Hs]. cbn. split.
  - apply conflict_last_grow; [done|]. destruct (decide (q = p)) as [->|Hne]; [by left|right; congruence].
  - intros Hne. destruct (Hs Hne) as [Hno|Hq]; [left|by right]. intros off u Hx. apply elem_of_app in Hx as [Hx|Hx]; [by eapply Hno|].
    apply list_elem_of_singleton in Hx. subst. cbn in *. congruence.
Qed.

Lemma no_conflict_grow lg p e : no_conflict lg p → (∀ off u, e ≠ EPost p off u (AStatus 409)) → no_conflict (lg ++ [e]) p.
Proof. intros Hn He off u Hx. apply elem_of_app in Hx as [Hx|Hx]; [by eapply Hn|]. apply list_elem_of_singleton in Hx. by eapply He. Qed.

Lemma emit_free p off len : triple (free p) (emit (ESkip p off len)) (λ _, free p) kept.
Proof. intros d (Ha & Hn & Hq). cbn. split; [by apply log_around|]. split; [by apply no_conflict_grow|done]. Qed.

Lemma post_free p req off :
  iqFilePath req = p →
  triple (free p) (post req off) (λ a d, around p d ∧ (a ≠ AStatus 409 → free p d)) kept.
Proof.
  intros <- d (Ha & Hn & Hq). unfold post, pure. destruct (postIngest req (net (tables d))) as [a n] eqn:Ep.
  pose proof (log_around _ (EPost (iqFilePath req) off (iqJSONL req) a) d n Ha eq_refl Hn) as Hx.
  split; [exact Hx|]. intros Hne. split; [exact Hx|]. split; [|exact Hq]. cbn. apply no_conflict_grow; [done|]. intros off' u'. congruence.
Qed.

Lemma get_free p : triple (free p) (get_file p) (λ fs d, Quarantined fs = "" ∧ free p d) kept.
Proof.
  intros d Hd. pose proof Hd as (_ & _ & Hq). cbn. split; [|by destruct d]. destruct (String.eqb_spec (Quarantined (file_of (tables d) p)) ""); [done|].
  by destruct Hq.
Qed.

Lemma sendUnit_conflict fuel : ∀ p sid pd u off mtime,
  triple (free p) (sendUnit platform fuel p sid pd u off mtime) (λ r d, if r.1 : bool then free p d else free p d ∨ hit p d) kept.
Proof.
  induction fuel as [|fuel IH]; intros p sid pd u off mtime; cbn [sendUnit]; [intros d Hd; by apply (free_quiet p)|].
  eapply t_bind; [apply get_free|]. intros fs. apply t_fact. intros _. eapply t_bind; [by apply (post_free p)|]. intros [x y|code|].
  - eapply t_pre; [|intros d [_ Hf]; by apply Hf]. eapply (t_bind _ _ _ _ (λ _, free p)); [|intros ?; by apply t_ret].
    case_if; [by apply set_free|by apply t_ret].
  - destruct (Z.eqb_spec code 413) as [->|]; [|destruct (Z.eqb_spec code 409) as [->|Hne]].
    + eapply t_pre; [|intros d [_ Hf]; by apply Hf]. case_if.
      * destruct (halveAtNewline u) as [l r]. eapply t_bind; [apply IH|]. intros [[] na]; cbn [fst negb]; [|by apply t_ret].
        eapply t_bind; [apply IH|]. intros [okb nb]. by apply t_ret.
      * eapply t_bind; [apply emit_free|]. intros ?. eapply t_bind; [by apply set_free|]. intros ?. by apply t_ret.
    + eapply t_pre; [|by intros d [Ha _]]. eapply t_bind; [by apply set_hit|]. intros ?.
      eapply (t_bind _ _ _ _ (λ _, hit p)); [|intros ?; apply t_ret; by right].
      intros d [Ha Hq]. split; [by apply around_set|]. cbn. by rewrite quarantined_insert, decide_True by done.
    + apply t_ret. cbn. intros d [_ Hf]. left. apply Hf. congruence.
  - apply t_ret. cbn. intros d [_ Hf]. left. by apply Hf.
Qed.

(** A drain goes on only with a file that is free. *)
Definition drained (p : string) (d : Db world) : Prop := quiet d ∧ (¬ quarantined_in (files (tables d)) p → free p d).

Lemma free_drained p d : free p d → drained p d.
Proof. intros Hf. split; [by apply (free_quiet p)|done]. Qed.

Lemma ingest_loop_conflict fuel : ∀ p sid pd delta base off mtime adv added,
  triple (free p) (ingest_loop platform limit fuel p sid pd delta base off mtime adv added) (λ _, drained p) kept.
Proof.
  induction fuel as [|fuel IH]; intros p sid pd delta base off mtime adv added; cbn [ingest_loop]; [intros d Hd; by apply (free_quiet p)|].
  case_if; [apply t_ret; intros d; apply free_drained|]. cbv zeta. eapply t_bind; [apply sendUnit_conflict|]. intros [[] na]; cbn [fst snd negb].
  - eapply t_bind; [apply get_free|]. intros fs. apply t_fact. intros ->. eapply t_bind; [by apply set_free|]. intros ?.
    eapply t_bind; [apply save_free|]. intros ?. apply IH.
  - intros d [Hd|Hd]; revert d Hd.
    + change (triple (free p) (let! fs := get_file p in (if Quarantined fs !=? "" then saveState else db_ret tt) ;;; db_ret (adv, 0%Z)) (λ _, drained p) kept).
      eapply t_bind; [apply get_free|]. intros fs. apply t_fact. intros ->. eapply (t_bind _ _ _ _ (λ _, free p)); [by apply t_ret|].
      intros ?. apply t_ret. intros d. apply free_drained.
    + change (triple (hit p) (let! fs := get_file p in (if Quarantined fs !=? "" then saveState else db_ret tt) ;;; db_ret (adv, 0%Z)) (λ _, drained p) kept).
      eapply (t_bind _ _ _ _ (λ fs d, Quarantined fs ≠ "" ∧ hit p d)).
      { intros d Hd. pose proof Hd as [_ Hq]. cbn. by destruct d. }
      intros fs. apply t_fact. intros Hq. destruct (String.eqb_spec (Quarantined fs) ""); [done|]. cbn [negb].
      eapply t_bind; [apply save_hit|]. intros ?. apply t_ret. intros d [Hd Hx]. by split.
Qed.

Lemma ingestDelta_conflict p delta mtime : triple (free p) (ingestDelta platform limit p delta mtime) (λ _, drained p) kept.
Proof.
  unfold ingestDelta. cbv zeta. eapply t_bind; [apply get_free|]. intros fs. apply t_fact. intros _.
  eapply t_bind; [apply ingest_loop_conflict|]. intros r. by apply t_ret.
Qed.

Lemma after_ingest_conflict p (adv : bool) (next : WM unit) :
  triple (free p) next (λ _, quiet) kept → triple (drained p) (after_ingest p adv next) (λ _, quiet) kept.
Proof.
  intros Hn. unfold after_ingest. intros d [Hq Hf]. cbn. destruct (negb adv || _) eqn:Hb; [exact Hq|]. apply orb_false_iff in Hb as [_ Hb].
  apply Hn. destruct d as [w f]. apply Hf. intros Hx. apply Hx. apply String.eqb_eq. by apply negb_false_iff in Hb.
Qed.

Lemma reading_conflict {A} p (a : A) (k : A → WM unit) : triple (free p) (k a) (λ _, quiet) kept → triple (free p) (reading a k) (λ _, quiet) kept.
Proof. intros Hk [w fs] Hd. pose proof Hd as ([Hf _] & _). cbn in Hf. subst fs. exact (Hk _ Hd). Qed.

Lemma wait_conflict p mtime : triple (free p) (wait_for_more p mtime) (λ _, quiet) kept.
Proof.
  unfold wait_for_more. eapply t_bind; [by apply set_free|]. intros ?. eapply t_post; [apply save_free|]. intros ? d. apply free_quiet.
Qed.

Lemma skip_line_conflict p len mtime : triple (free p) (skip_line p len mtime) (λ _, free p) kept.
Proof.
  unfold skip_line. eapply t_bind; [apply get_free|]. intros fs. apply t_fact. intros _. eapply t_bind; [apply emit_free|]. intros ?.
  eapply t_bind; [by apply set_free|]. intros ?. eapply t_bind; [by apply set_free|]. intros ?. apply save_free.
Qed.

Lemma drainFile_conflict fuel : ∀ c p size mtime,
  triple (free p) (drainFile platform limit ceiling fuel c p size mtime) (λ _, quiet) kept.
Proof.
  induction fuel as [|fuel IH]; intros c p size mtime; cbn [drainFile]; [intros d Hd; by apply (free_quiet p)|].
  assert (Hstop : triple (free p) (db_ret tt) (λ _, quiet) kept) by (apply t_ret; apply free_quiet).
  assert (Hgo : ∀ delta, triple (free p) (let! adv := ingestDelta platform limit p delta mtime in
    after_ingest p adv (drainFile platform limit ceiling fuel c p size mtime)) (λ _, quiet) kept).
  { intros delta. eapply t_bind; [apply ingestDelta_conflict|]. intros adv. apply after_ingest_conflict, IH. }
  eapply t_bind; [apply get_free|]. intros fs. apply t_fact. intros _. cbv zeta. case_if; [done|]. apply reading_conflict.
  destruct (window_at c (BytesSeen fs) limit) as [|x rest]; [done|]. destruct (last_nl (x :: rest)); [apply Hgo|].
  case_if; [apply wait_conflict|]. apply reading_conflict. case_if; [apply wait_conflict|]. case_if.
  - eapply t_bind; [apply skip_line_conflict|]. intros ?. apply IH.
  - apply reading_conflict, Hgo.
Qed.

Lemma scan_one_conflict t : triple quiet (scan_one platform limit ceiling t) (λ _, quiet) kept.
Proof.
  unfold scan_one. case_if; [by apply t_ret|]. set (p := tPath t).
  eapply (t_bind _ _ _ _ (λ _, quiet)).
  { intros d [Hf Hd]. cbn. split; [done|]. intros q. destruct (Hd q) as [Hl [Hn|[Hq1 Hq2]]]; (split; [exact Hl|]); [by left|right].
    split; [|exact Hq2]. cbn. rewrite quarantined_insert. unfold id, file_of. by destruct (decide (q = p)) as [->|]. }
  intros ?. eapply (t_bind _ _ _ _ (λ fs d, quiet d ∧ (Quarantined fs = "" → free p d))).
  { intros d Hd. cbn. split; [by destruct d|]. intros Hq. destruct Hd as [Hf Hd]. destruct d as [w f]. split; [|split].
    - split; [done|]. intros q. destruct (Hd q) as [Hl Hs]. by split.
    - destruct (Hd p) as [_ [Hn|[Hx _]]]; [done|by destruct Hx].
    - intros Hx. by apply Hx. }
  intros fs. destruct (String.eqb_spec (Quarantined fs) "") as [He|Hne]; cbn [negb]; [|apply t_ret; by intros d [? _]].
  eapply t_pre; [|intros d [_ Hf]; by apply Hf]. case_if; [apply t_ret; apply free_quiet|].
  eapply (t_bind _ _ _ _ (λ _, free p)); [|intros ?; apply drainFile_conflict]. case_if; [|by apply t_ret].
  eapply (t_bind _ _ _ _ (λ _, free p)); [|intros r; by apply set_free].
  intros [w f] Hd. pose proof Hd as ([Hf _] & _). cbn in Hf. subst f. exact Hd.
Qed.

Lemma scan_conflict l : triple quiet (scan platform limit ceiling l) (λ _, quiet) kept.
Proof. induction l as [|t l IH]; cbn [scan]; [by apply t_ret|]. eapply t_bind; [apply scan_one_conflict|]. intros ?. exact IH. Qed.

(** No read and no save fails. *)
Definition smooth (h : list Act) : Prop := Forall (λ a, match a with Scan _ failing => failing = [] | Restart _ _ => True end) h.

Lemma live_quiet n h : smooth h → ∀ q, conflict_last (log (live platform limit ceiling n h)) q ∧ sealed_or_free (live platform limit ceiling n h) q.
Proof.
  intros Hh. unfold live. assert (Hinit : quiet (mkDb (mkWatch ∅ ∅ [] n) [])).
  { split; [done|]. intros q. split; [intros l1 off u l2 He; by destruct l1|left; intros off u; set_solver]. }
  generalize dependent (mkWatch ∅ ∅ [] n). intros w Hw. revert w Hw. induction Hh as [|a h Ha Hh IH]; intros w Hw; cbn; [apply Hw|].
  apply IH. destruct a as [l failing|reset legacy]; cbn in *.
  - subst failing. unfold final. pose proof (scan_conflict l (mkDb w []) Hw) as Hs.
    destruct (scan platform limit ceiling l (mkDb w [])) as [[u|e] [w' f]]; by destruct Hs.
  - destruct Hw as [_ Hw]. split; [done|]. intros q. destruct (Hw q) as [Hl [Hn|[_ Hq]]]; (split; [exact Hl|]); [by left|by right].
Qed.

(** Once the relay has answered a request about a file with an ownership
    conflict, a watcher whose reads and saves succeed sends nothing more of that file and
    skips nothing more of it, in that process and in every later one. *)
Theorem conflict_is_final n h p off u l1 l2 :
  smooth h → log (live platform limit ceiling n h) = l1 ++ EPost p off u (AStatus 409) :: l2 →
  (∀ e, e ∈ l2 → about e ≠ p) ∧ quarantined_in (saved (live platform limit ceiling n h)) p.
Proof.
  intros Hh Hl. destruct (live_quiet n h Hh p) as [Hlast Hs]. split; [by eapply Hlast|].
  destruct Hs as [Hn|[_ Hq]]; [|done]. destruct (Hn off u). rewrite Hl. set_solver.
Qed.
End Conflict.

(** ** Runs *)

(** A relay that gives the answers of a list, then accepts. *)
#[local] Instance scripted : Relay (list Answer) := {|
  postIngest _ l := match l with a :: r => (a, r) | [] => (AAccepted 1 0, []) end |}.

Definition two_records : bytes := ["a"; "b"; newline; "c"; newline]%char.

Definition one_file : Transcript := mkTranscript "/r/-home-x/s.jsonl" false 7 1 (two_records ++ ["d"; "e"]%char).

(** The whole request is too large, then its first record on its own; the second is accepted. *)
Definition halving_day : list Act := [Scan [one_file] [false; false; true]; Restart false DMissing; Scan [one_file] []].

Lemma halving_append_only : append_only (λ _, tContent one_file) halving_day.
Proof. repeat constructor; exists []; reflexivity. Qed.

Lemma watermark_never_passes_unsent_witness :
  append_only (λ _, tContent one_file) halving_day ∧
  seen_in (saved (live "claude-code" 100 1000 [AStatus 413; AStatus 413; AAccepted 1 0; AStatus 413; AStatus 413] halving_day)) (tPath one_file) = 5 ∧
  ((∃ off u added rejected,
     EPost (tPath one_file) off u (AAccepted added rejected) ∈ log (live "claude-code" 100 1000 [AStatus 413; AStatus 413; AAccepted 1 0; AStatus 413; AStatus 413] halving_day) ∧
     off ≤ 4 < off + length u ∧ u = window_at (tContent one_file) off (length u)) ∨
   (∃ off len, ESkip (tPath one_file) off len ∈ log (live "claude-code" 100 1000 [AStatus 413; AStatus 413; AAccepted 1 0; AStatus 413; AStatus 413] halving_day) ∧
     off ≤ 4 < off + len ∧ count_nl (window_at (tContent one_file) off len) = 1)).
Proof.
  split; [exact halving_append_only|]. split; [vm_compute; reflexivity|].
  apply (watermark_never_passes_unsent "claude-code" 100 1000 (λ _, tContent one_file)); [exact halving_append_only|].
  right. vm_compute. lia.
Defined.

Lemma requests_carry_whole_records_witness :
  log (live "claude-code" 100 1000 [AStatus 413; AStatus 413] [Scan [one_file] []]) =
    [EPost (tPath one_file) 0 two_records (AStatus 413); EPost (tPath one_file) 0 (take 3 two_records) (AStatus 413);
     ESkip (tPath one_file) 0 3; EPost (tPath one_file) 3 (drop 3 two_records) (AAccepted 1 0)] ∧
  line_start (tContent one_file) 3 ∧ drop 3 two_records = window_at (tContent one_file) 3 2 ∧ ∃ v, drop 3 two_records = v ++ [newline].
Proof.
  split; [vm_compute; reflexivity|].
  apply (requests_carry_whole_records "claude-code" 100 1000 (λ _, tContent one_file) [AStatus 413; AStatus 413] [Scan [one_file] []]
    (tPath one_file) 3 (drop 3 two_records) (AAccepted 1 0)).
  - repeat constructor. exists []. reflexivity.
  - vm_compute. do 3 right. left.
Defined.

Lemma scan_always_ends_witness :
  outcome (scan "claude-code" 2 3 [one_file]) (mkDb (live "claude-code" 2 3 [AStatus 413] []) []) ≠ Err out_of_fuel.
Proof.
  apply (scan_always_ends "claude-code" 2 3 (λ _, tContent one_file) [AStatus 413] [] [one_file] []).
  repeat constructor. exists []. reflexivity.
Defined.

(** A relay that accepts everything. *)
Definition accepting : Relay unit := {| postIngest _ n := (AAccepted 1 0, n) |}.

Lemma scan_catches_up_witness :
  ∃ w', scan (H := accepting) "claude-code" 2 3 [one_file] (mkDb (mkWatch ∅ ∅ [] tt) []) = (Ok tt, mkDb w' []) ∧
        ∀ t, t ∈ [one_file] → BytesSeen (file_of w' (tPath t)) = lines_end (tContent t).
Proof.
  apply (scan_catches_up (H := accepting) "claude-code" 2 3).
  - intros req n. exact I.
  - lia.
  - apply NoDup_singleton.
  - constructor; [|constructor]. split; [vm_compute; reflexivity|]. split; [vm_compute; reflexivity|]. split; [vm_compute; reflexivity|].
    vm_compute. lia.
Defined.

Lemma conflict_is_final_witness :
  (∀ e, e ∈ [] → about e ≠ tPath one_file) ∧
  quarantined_in (saved (live "claude-code" 100 1000 [AStatus 409] [Scan [one_file] []; Restart false DMissing; Scan [one_file] []])) (tPath one_file).
Proof.
  apply (conflict_is_final "claude-code" 100 1000 [AStatus 409] [Scan [one_file] []; Restart false DMissing; Scan [one_file] []]
    (tPath one_file) 0 two_records [] []).
  - repeat constructor.
  - vm_compute. reflexivity.
Defined.
