(* ===== verification/ProjectTargets.v ===== *)
(** * Configuration files of a project

    [src/internal/cli/project]: [arc-sync] keeps the servers of a relay in the configuration
    of the tools a project uses: [claude.go] for [.mcp.json], [codex.go] for
    [.codex/config.toml].  A file is the value its text decodes to (JSON texts and values
    correspond by [Json.roundtrip]; the TOML library is not part of the repository), or
    broken.  [Target] is the interface the sync works with and [TargetOk] what it relies
    on; both implementations satisfy it. *)
From S2P Require Import Prelude GoStrings GoPath Json JsonDecode.

(** ** Files *)

(** A TOML value as the library decodes it into [any]: what matters is whether it is a
    string or a table. *)
Inductive toml := TStr (s : string) | TTable (l : list (string * toml)) | TOther (text : string).

Inductive File := FBroken | FJson (j : json) | FToml (l : list (string * toml)).

(** A decoded object as a Go map: the last of equal keys wins. *)
Definition to_map {V} (l : list (string * V)) : gmap string V := foldl (λ m kv, <[kv.1 := kv.2]> m) ∅ l.

(** A Go map as it is encoded: sorted by key. *)
Definition of_map {V} (m : gmap string V) : list (string * V) := stable_sort (λ a b, String.leb a.1 b.1) (map_to_list m).

(** [json.Unmarshal] into a [map\[string\]RawMessage]: an error, a nil map, or a map. *)
Definition go_map (j : json) : option (option (gmap string json)) :=
  match j with
  | JObj l => Some (Some (to_map l))
  | JNull => Some None
  | _ => None
  end.

(** Assigning to an entry of a nil map ends the process. *)
Definition panic_nil_map : string := "panic: assignment to entry in nil map".

(** ** The interface *)

Record ManagedServer := mkServer_ { msName : string; msURL : string; msOldName : string }.

Record Target := mkTarget {
  Name : string;
  ConfigFileName : string;
  Read : string → option File → result (list ManagedServer);
  Write : string → list ManagedServer → option File → result File;
  (** The new file, when something was removed, and what was removed. *)
  Remove : list string → option File → result (option File * list string) }.

Definition relayPrefix (relayBaseURL : string) : string := trim_right (Ascii.eqb "/"%char) relayBaseURL +:+ "/mcp/".

(** [entry] is the value a file has for a server and [other] what else it holds. *)
Class TargetOk (t : Target) := {
  Value : Type;
  entry : option File → string → option Value;
  other : option File → string → option Value;
  url_of : Value → string;
  fresh : string → ManagedServer → Value;
  read_spec : ∀ relay f l ms, Read t relay f = Ok l →
    ms ∈ l ↔ msOldName ms = "" ∧ HasPrefix (msURL ms) (relayPrefix relay) = true ∧ ∃ v, entry f (msName ms) = Some v ∧ url_of v = msURL ms;
  write_entry : ∀ key servers f f' n, Write t key servers f = Ok f' →
    entry (Some f') n = foldl (λ acc s, if msName s =?s n then Some (fresh key s) else acc) (entry f n) servers;
  write_other : ∀ key servers f f' k, Write t key servers f = Ok f' → other (Some f') k = other f k;
  remove_spec : ∀ names f r removed, Remove t names f = Ok (r, removed) →
    match r with
    | Some f' => (∀ n, entry (Some f') n = if bool_decide (n ∈ names) then None else entry f n) ∧ ∀ k, other (Some f') k = other f k
    | None => ∀ n, n ∈ names → entry f n = None
    end;
  fresh_url : ∀ key s, url_of (fresh key s) = msURL s;
  write_readable : ∀ relay key servers f f', Write t key servers f = Ok f' → ∃ l, Read t relay (Some f') = Ok l }.

(** A target with its laws. *)
Record Lawful := mkLawful { lawful :> Target; laws : TargetOk lawful }.

#[export] Existing Instance laws.

Section Targets.
(** The order in which Go walks a map. *)
Context (walk : list ManagedServer → list ManagedServer).

(** ** Claude Code *)

Definition claudeConfigFile : string := ".mcp.json".

(** The [url] of an entry; [None] when it does not decode. *)
Definition entry_url (v : json) : option string :=
  match v with
  | JObj l => _ ← decode_string_field "type" l ""; url ← decode_string_field "url" l "";
              _ ← decode_string_map_field "headers" l ∅; Some url
  | JNull => Some ""
  | _ => None
  end.

(** The [mcpServers] of a decoded file: an error, a nil map, or a map. *)
Definition parseMCPJSON (j : json) : option (option (gmap string json)) :=
  raw ← go_map j;
  match raw ≫= (!!) "mcpServers" with
  | None => Some (Some ∅)
  | Some v => go_map v
  end.

Definition keep_managed (relay name : string) (url : option string) : list ManagedServer :=
  match url with
  | Some u => if HasPrefix u (relayPrefix relay) then [mkServer_ name u ""] else []
  | None => []
  end.

Definition claude_read (relayBaseURL : string) (f : option File) : result (list ManagedServer) :=
  match f with
  | None => Ok []
  | Some (FJson j) =>
      match parseMCPJSON j with
      | None => Err "parsing .mcp.json"
      | Some m => Ok (walk (flat_map (λ kv, keep_managed relayBaseURL kv.1 (entry_url kv.2)) (map_to_list (default ∅ m))))
      end
  | Some _ => Err "parsing .mcp.json"
  end.

Definition claude_entry (apiKey : string) (s : ManagedServer) : json :=
  JObj [("type", JStr "http"); ("url", JStr (msURL s)); ("headers", JObj [("Authorization", JStr ("Bearer " +:+ apiKey))])].

(** [m\[s.Name\] = entry] for every server, in a map that may be nil. *)
Fixpoint set_entries {V} (e : ManagedServer → V) (servers : list ManagedServer) (m : option (gmap string V)) : result (option (gmap string V)) :=
  match servers with
  | [] => Ok m
  | s :: r => match m with
              | None => Err panic_nil_map
              | Some m => set_entries e r (Some (<[msName s := e s]> m))
              end
  end.

(** A map as a JSON value; nil is [null]. *)
Definition json_map (m : option (gmap string json)) : json := match m with Some m => JObj (of_map m) | None => JNull end.

(** The entries a file already has; something else in their place is given up. *)
Definition claude_servers (raw : option (gmap string json)) : option (gmap string json) :=
  match raw ≫= (!!) "mcpServers" with
  | Some existing => match go_map existing with None => Some ∅ | Some m => m end
  | None => Some ∅
  end.

Definition claude_put (apiKey : string) (servers : list ManagedServer) (raw : option (gmap string json)) : result File :=
  match set_entries (claude_entry apiKey) servers (claude_servers raw) with
  | Err e => Err e
  | Ok m => match raw with
            | None => Err panic_nil_map
            | Some raw => Ok (FJson (JObj (of_map (<["mcpServers" := json_map m]> raw))))
            end
  end.

Definition claude_write (apiKey : string) (servers : list ManagedServer) (f : option File) : result File :=
  match f with
  | None => claude_put apiKey servers (Some ∅)
  | Some (FJson j) => match go_map j with None => Err "parsing existing .mcp.json" | Some raw => claude_put apiKey servers raw end
  | Some _ => Err "parsing existing .mcp.json"
  end.

(** Delete the named entries; the names that were there. *)
Definition drop_names {V} (names : list string) (m : gmap string V) : gmap string V * list string :=
  (filter (λ kv, kv.1 ∉ names) m, map fst (map_to_list (filter (λ kv, kv.1 ∈ names) m))).

Definition claude_remove (names : list string) (f : option File) : result (option File * list string) :=
  match f with
  | None => Ok (None, [])
  | Some (FJson j) =>
      match go_map j with
      | None => Err "parsing .mcp.json"
      | Some raw =>
          match raw ≫= (!!) "mcpServers" with
          | None => Ok (None, [])
          | Some existing =>
              match go_map existing with
              | None => Err "parsing mcpServers"
              | Some None => Ok (None, [])
              | Some (Some m) =>
                  let '(m', removed) := drop_names names m in
                  match removed with
                  | [] => Ok (None, [])
                  | _ => Ok (Some (FJson (JObj (of_map (<["mcpServers" := JObj (of_map m')]> (default ∅ raw))))), removed)
                  end
              end
          end
      end
  | Some _ => Err "parsing .mcp.json"
  end.

Definition ClaudeCodeTarget : Target := mkTarget "claude-code" claudeConfigFile claude_read claude_write claude_remove.

(** ** Codex *)

Definition codexConfigFile : string := ".codex/config.toml".

(** [loadCodexConfig]: no file is no configuration. *)
Definition loadCodexConfig (f : option File) : result (option (gmap string toml)) :=
  match f with
  | None => Ok None
  | Some (FToml l) => Ok (Some (to_map l))
  | Some _ => Err "parsing .codex/config.toml"
  end.

Definition getCodexMCPServers (raw : gmap string toml) : option (gmap string toml) :=
  match raw !! "mcp_servers" with
  | Some (TTable l) => Some (to_map l)
  | _ => None
  end.

(** The [url] of an entry; [None] when it is no table. *)
Definition codex_url (v : toml) : option string :=
  match v with
  | TTable e => Some (match to_map e !! "url" with Some (TStr u) => u | _ => "" end)
  | _ => None
  end.

Definition codex_read (relayBaseURL : string) (f : option File) : result (list ManagedServer) :=
  match loadCodexConfig f with
  | Err e => Err e
  | Ok raw => Ok (match raw ≫= getCodexMCPServers with
                  | None => []
                  | Some m => walk (flat_map (λ kv, keep_managed relayBaseURL kv.1 (codex_url kv.2)) (map_to_list m))
                  end)
  end.

Definition codex_entry (apiKey : string) (s : ManagedServer) : toml :=
  TTable [("url", TStr (msURL s)); ("http_headers", TTable [("Authorization", TStr ("Bearer " +:+ apiKey))])].

Definition codex_doc (raw : gmap string toml) (m : gmap string toml) : File :=
  FToml (of_map (<["mcp_servers" := TTable (of_map m)]> raw)).

Definition codex_write (apiKey : string) (servers : list ManagedServer) (f : option File) : result File :=
  match loadCodexConfig f with
  | Err e => Err e
  | Ok raw =>
      let raw := default ∅ raw in
      let m := default ∅ (getCodexMCPServers raw) in
      Ok (codex_doc raw (foldl (λ m s, <[msName s := codex_entry apiKey s]> m) m servers))
  end.

Definition codex_remove (names : list string) (f : option File) : result (option File * list string) :=
  match loadCodexConfig f with
  | Err e => Err e
  | Ok None => Ok (None, [])
  | Ok (Some raw) =>
      match getCodexMCPServers raw with
      | None => if bool_decide (is_Some (raw !! "mcp_servers")) then Err "parsing mcp_servers: expected table" else Ok (None, [])
      | Some m =>
          let '(m', removed) := drop_names names m in
          match removed with
          | [] => Ok (None, [])
          | _ => Ok (Some (codex_doc raw m'), removed)
          end
      end
  end.

Definition CodexTarget : Target := mkTarget "codex" codexConfigFile codex_read codex_write codex_remove.

Definition AllTargets : list Target := [ClaudeCodeTarget; CodexTarget].
End Targets.

(** ** Maps and their encodings *)

Lemma to_map_lookup {V} (l : list (string * V)) k : NoDup (map fst l) → ∀ v, to_map l !! k = Some v ↔ (k, v) ∈ l.
Proof.
  unfold to_map. intros Hnd v.
  assert (Hg : ∀ (m : gmap string V), NoDup (map fst l) →
    foldl (λ m kv, <[kv.1 := kv.2]> m) m l !! k = Some v ↔ (k, v) ∈ l ∨ (k ∉ map fst l ∧ m !! k = Some v)).
  { clear Hnd. induction l as [|[k' v'] l IH]; intros m Hnd; cbn; [set_solver|]. cbn in Hnd. apply NoDup_cons in Hnd as [Hn Hnd].
    rewrite IH by done. rewrite elem_of_cons, not_elem_of_cons. destruct (decide (k = k')) as [->|Hne].
    - rewrite lookup_insert_eq. split.
      + intros [Hin|[_ [= ->]]]; [destruct Hn; apply list_elem_of_fmap; by exists (k', v)|by left; left].
      + intros [[[= ->]|Hin]|[[? _] _]]; [by right|by left|done].
    - rewrite lookup_insert_ne by done. split; [intros [?|[? ?]]; auto|intros [[[= ->]|?]|[[_ ?] ?]]; auto; done]. }
  rewrite (Hg ∅ Hnd), lookup_empty. split; [intros [?|[_ ?]]; done|by left].
Qed.

Lemma of_map_perm {V} (m : gmap string V) : of_map m ≡ₚ map_to_list m.
Proof. apply stable_sort_perm. Qed.

Lemma to_map_of_map {V} (m : gmap string V) : to_map (of_map m) = m.
Proof.
  apply map_eq. intros k. apply option_eq. intros v. rewrite to_map_lookup.
  - rewrite of_map_perm. apply elem_of_map_to_list.
  - change (NoDup ((of_map m).*1)). rewrite of_map_perm. apply NoDup_fst_map_to_list.
Qed.

Lemma foldl_set_lookup {V} (e : ManagedServer → V) servers n : ∀ m : gmap string V,
  foldl (λ m s, <[msName s := e s]> m) m servers !! n = foldl (λ acc s, if msName s =?s n then Some (e s) else acc) (m !! n) servers.
Proof.
  induction servers as [|s r IH]; intros m; cbn; [done|]. rewrite IH. f_equal. destruct (String.eqb_spec (msName s) n) as [->|Hne].
  - apply lookup_insert_eq.
  - by apply lookup_insert_ne.
Qed.

Lemma set_entries_some {V} (e : ManagedServer → V) servers m :
  set_entries e servers (Some m) = Ok (Some (foldl (λ m s, <[msName s := e s]> m) m servers)).
Proof. revert m. induction servers as [|s r IH]; intros m; cbn; [done|apply IH]. Qed.

Lemma drop_names_spec {V} names (m : gmap string V) n : (drop_names names m).1 !! n = if bool_decide (n ∈ names) then None else m !! n.
Proof.
  cbn. case_bool_decide as Hn.
  - apply map_lookup_filter_None. right. intros v _ Hx. by apply Hx.
  - destruct (m !! n) as [v|] eqn:E; [by apply map_lookup_filter_Some|apply map_lookup_filter_None; by left].
Qed.

Lemma drop_names_nil {V} names (m : gmap string V) n : (drop_names names m).2 = [] → n ∈ names → m !! n = None.
Proof.
  cbn. intros He Hn. destruct (m !! n) as [v|] eqn:E; [|done]. assert (Hin : (n, v) ∈ map_to_list (filter (λ kv, kv.1 ∈ names) m)).
  { apply elem_of_map_to_list, map_lookup_filter_Some. by split. }
  apply map_eq_nil in He. rewrite He in Hin. by apply elem_of_nil in Hin.
Qed.

(** ** The implementations keep the promise *)
Section Instances.
Context (walk : list ManagedServer → list ManagedServer) (walk_perm : ∀ l, walk l ≡ₚ l).

Lemma keep_managed_spec {V} relay (u : V → option string) (m : gmap string V) ms :
  ms ∈ walk (flat_map (λ kv, keep_managed relay kv.1 (u kv.2)) (map_to_list m)) ↔
  msOldName ms = "" ∧ HasPrefix (msURL ms) (relayPrefix relay) = true ∧ ∃ v, m !! msName ms = Some v ∧ u v = Some (msURL ms).
Proof.
  rewrite walk_perm, list_elem_of_In, in_flat_map. split.
  - intros ([k v] & Hin & Hms). apply list_elem_of_In, elem_of_map_to_list in Hin. unfold keep_managed in Hms. cbn in Hms.
    destruct (u v) as [x|] eqn:E; [|done]. destruct (HasPrefix x (relayPrefix relay)) eqn:Ep; [|done].
    destruct Hms as [<-|[]]. cbn. split; [done|]. split; [done|]. by exists v.
  - intros (Ho & Hp & v & Hv & Hu). exists (msName ms, v). split; [by apply list_elem_of_In, elem_of_map_to_list|]. cbn.
    rewrite Hu. unfold keep_managed. rewrite Hp. left. by destruct ms; cbn in *; subst.
Qed.

Definition claude_top (f : option File) : gmap string json :=
  match f with Some (FJson j) => default ∅ (default None (go_map j)) | _ => ∅ end.

Definition claude_table (f : option File) : gmap string json :=
  default ∅ (v ← claude_top f !! "mcpServers"; default None (go_map v)).

(** The entries that decode are those with a URL. *)
Definition decoded (v : json) : string := default "" (entry_url v).

Lemma relayPrefix_nonempty relay : HasPrefix "" (relayPrefix relay) = false.
Proof. unfold relayPrefix. destruct (trim_right _ relay) as [|c s]; reflexivity. Qed.

Lemma claude_doc_top raw m : claude_top (Some (FJson (JObj (of_map (<["mcpServers" := m]> raw))))) = <["mcpServers" := m]> raw.
Proof. cbn. apply to_map_of_map. Qed.

Lemma claude_doc_table raw m : claude_table (Some (FJson (JObj (of_map (<["mcpServers" := JObj (of_map m)]> raw))))) = m.
Proof. unfold claude_table. rewrite claude_doc_top, lookup_insert_eq. cbn. apply to_map_of_map. Qed.

Lemma other_insert {V} (raw : gmap string V) k x y : (if k =?s x then None else <[x := y]> raw !! k) = if k =?s x then None else raw !! k.
Proof. destruct (String.eqb_spec k x); [done|]. by rewrite lookup_insert_ne. Qed.

Lemma claude_put_spec key servers raw f' :
  claude_put key servers raw = Ok f' →
  (∀ n, claude_table (Some f') !! n = foldl (λ acc s, if msName s =?s n then Some (claude_entry key s) else acc) (default ∅ (claude_servers raw) !! n) servers) ∧
  (∀ k, (if k =?s "mcpServers" then None else claude_top (Some f') !! k) = if k =?s "mcpServers" then None else default ∅ raw !! k).
Proof.
  unfold claude_put. destruct (claude_servers raw) as [m0|].
  - rewrite set_entries_some. destruct raw as [raw|]; [|done]. intros [= <-].
    split; [intros n; rewrite claude_doc_table; apply foldl_set_lookup|intros k; rewrite claude_doc_top; apply other_insert].
  - destruct servers as [|s r]; [|done]. cbn [set_entries]. destruct raw as [raw|]; [|done]. intros [= <-]. split; intros k.
    + unfold claude_table. rewrite claude_doc_top, lookup_insert_eq. done.
    + rewrite claude_doc_top. apply other_insert.
Qed.

Lemma claude_write_put key servers f f' :
  claude_write key servers f = Ok f' → ∃ raw, default ∅ raw = claude_top f ∧ claude_put key servers raw = Ok f'.
Proof.
  unfold claude_write, claude_top. destruct f as [[|j|]|]; try done; [|by exists (Some ∅)].
  destruct (go_map j) as [raw|]; [|done]. by exists raw.
Qed.

Lemma claude_servers_table f raw n : default ∅ raw = claude_top f → default ∅ (claude_servers raw) !! n = claude_table f !! n.
Proof.
  intros Ht. unfold claude_table, claude_servers. rewrite <- Ht. destruct raw as [raw|]; cbn; [|done]. destruct (raw !! "mcpServers") as [v|]; cbn; [|done].
  by destruct (go_map v).
Qed.

#[export] Program Instance claude_ok : TargetOk (ClaudeCodeTarget walk) := {|
  Value := json;
  entry f n := claude_table f !! n;
  other f k := if k =?s "mcpServers" then None else claude_top f !! k;
  url_of := decoded;
  fresh := claude_entry |}.
Next Obligation.
  intros relay f l ms. cbn. destruct f as [[|j|]|]; cbn; try done.
  - unfold parseMCPJSON, claude_table, claude_top. destruct (go_map j) as [raw|] eqn:Ej; [|done]. cbn.
    assert (Hg : ∀ m : gmap string json, ms ∈ walk (flat_map (λ kv, keep_managed relay kv.1 (entry_url kv.2)) (map_to_list m)) ↔
      msOldName ms = "" ∧ HasPrefix (msURL ms) (relayPrefix relay) = true ∧ ∃ v, m !! msName ms = Some v ∧ decoded v = msURL ms).
    { intros m. rewrite keep_managed_spec. split; intros (Ho & Hp & v & Hv & Hu); (split; [done|]); (split; [done|]); exists v; (split; [done|]).
      - unfold decoded. by rewrite Hu.
      - unfold decoded in Hu. destruct (entry_url v) as [x|]; cbn in Hu; [by subst|]. rewrite <- Hu, relayPrefix_nonempty in Hp. done. }
    destruct raw as [raw|]; cbn.
    + destruct (raw !! "mcpServers") as [v|]; cbn; [|intros [= <-]; apply Hg]. destruct (go_map v) as [m|]; [|done]. intros [= <-]. apply Hg.
    + rewrite lookup_empty. intros [= <-]. apply Hg.
  - intros [= <-]. unfold claude_table. cbn. rewrite lookup_empty. cbn. split; [set_solver|]. intros (_ & _ & v & Hv & _). by rewrite lookup_empty in Hv.
Qed.
Next Obligation.
  intros key servers f f' n Hw. destruct (claude_write_put _ _ _ _ Hw) as (raw & Ht & Hp). destruct (claude_put_spec _ _ _ _ Hp) as [He _].
  cbn. by rewrite He, (claude_servers_table f).
Qed.
Next Obligation.
  intros key servers f f' k Hw. destruct (claude_write_put _ _ _ _ Hw) as (raw & Ht & Hp). destruct (claude_put_spec _ _ _ _ Hp) as [_ Ho].
  cbn. by rewrite Ho, Ht.
Qed.
Next Obligation.
  intros names f r removed. cbn. unfold claude_remove. destruct f as [[|j|]|]; try done; [|by intros [= <- <-] n _].
  assert (Htop : ∀ raw, go_map j = Some raw → claude_top (Some (FJson j)) = default ∅ raw) by (intros raw E; cbn; by rewrite E).
  unfold claude_table. destruct (go_map j) as [raw|] eqn:Ej; [|done]. rewrite !(Htop raw eq_refl). destruct raw as [raw|].
  2: { by intros [= <- <-] n _. }
  change (default ∅ (Some raw)) with raw. cbn [mbind option_bind].
  destruct (raw !! "mcpServers") as [v|] eqn:Ev; cbn [mbind option_bind]; [|intros [= <- <-] n _; apply lookup_empty].
  destruct (go_map v) as [[m|]|]; [| |done]; cbn [default]; [|intros [= <- <-] n _; apply lookup_empty].
  pose proof (drop_names_nil names m) as Hnil. pose proof (drop_names_spec names m) as Hs.
  destruct (drop_names names m) as [m' [|x l]]; intros [= <- <-]; [intros n Hn; by apply Hnil|]. split; intros k.
  - fold (claude_table (Some (FJson (JObj (of_map (<["mcpServers" := JObj (of_map m')]> raw)))))). rewrite claude_doc_table. apply Hs.
  - rewrite <- (other_insert raw k _ (JObj (of_map m'))). case_if; [done|]. exact (f_equal (lookup k) (claude_doc_top raw (JObj (of_map m')))).
Qed.
Next Obligation. intros key s. reflexivity. Qed.
Next Obligation.
  intros relay key servers f f' Hw. destruct (claude_write_put _ _ _ _ Hw) as (raw & _ & Hp). unfold claude_put in Hp.
  destruct (set_entries _ _ _) as [m|]; [|done]. destruct raw as [raw|]; [|done]. injection Hp as <-. cbn. unfold parseMCPJSON.
  cbn [go_map mbind option_bind]. rewrite to_map_of_map, lookup_insert_eq. destruct m as [m|]; cbn; eauto.
Qed.

Definition codex_top (f : option File) : gmap string toml := match f with Some (FToml l) => to_map l | _ => ∅ end.

Definition codex_table (f : option File) : gmap string toml := default ∅ (getCodexMCPServers (codex_top f)).

#[local] Arguments codex_top : simpl never.
#[local] Arguments codex_table : simpl never.

Lemma loadCodexConfig_top f raw : loadCodexConfig f = Ok raw → default ∅ raw = codex_top f.
Proof. unfold loadCodexConfig, codex_top. by destruct f as [[]|]; intros [= <-]. Qed.

Lemma codex_doc_top raw m : codex_top (Some (codex_doc raw m)) = <["mcp_servers" := TTable (of_map m)]> raw.
Proof. apply to_map_of_map. Qed.

Lemma codex_doc_table raw m : codex_table (Some (codex_doc raw m)) = m.
Proof. unfold codex_table, getCodexMCPServers. rewrite codex_doc_top, lookup_insert_eq. apply to_map_of_map. Qed.

#[export] Program Instance codex_ok : TargetOk (CodexTarget walk) := {|
  Value := toml;
  entry f n := codex_table f !! n;
  other f k := if k =?s "mcp_servers" then None else codex_top f !! k;
  url_of v := default "" (codex_url v);
  fresh := codex_entry |}.
Next Obligation.
  intros relay f l ms. cbn. unfold codex_read. destruct (loadCodexConfig f) as [raw|] eqn:Ef; [|done].
  pose proof (loadCodexConfig_top f raw Ef) as Ht. unfold codex_table. rewrite <- Ht. intros [= <-].
  destruct raw as [raw|]; cbn; [|split; [set_solver|intros (_ & _ & v & Hv & _); change ((∅ : gmap string toml) !! msName ms = Some v) in Hv; by rewrite lookup_empty in Hv]].
  destruct (getCodexMCPServers raw) as [m|]; cbn; [|split; [set_solver|intros (_ & _ & v & Hv & _); change ((∅ : gmap string toml) !! msName ms = Some v) in Hv; by rewrite lookup_empty in Hv]].
  rewrite keep_managed_spec. split; intros (Ho & Hp & v & Hv & Hu); (split; [done|]); (split; [done|]); exists v; (split; [done|]).
  - by rewrite Hu.
  - destruct (codex_url v) as [x|]; cbn in Hu; [by subst|]. rewrite <- Hu, relayPrefix_nonempty in Hp. done.
Qed.
Next Obligation.
  intros key servers f f' n. cbn. unfold codex_write. destruct (loadCodexConfig f) as [raw|] eqn:Ef; [|done]. intros [= <-].
  rewrite codex_doc_table, foldl_set_lookup. unfold codex_table. by rewrite <- (loadCodexConfig_top f raw Ef).
Qed.
Next Obligation.
  intros key servers f f' k. cbn. unfold codex_write. destruct (loadCodexConfig f) as [raw|] eqn:Ef; [|done]. intros [= <-].
  rewrite codex_doc_top, other_insert. by rewrite <- (loadCodexConfig_top f raw Ef).
Qed.
Next Obligation.
  intros names f r removed. cbn. unfold codex_remove. destruct (loadCodexConfig f) as [raw|] eqn:Ef; [|done].
  pose proof (loadCodexConfig_top f raw Ef) as Ht. unfold codex_table. destruct raw as [raw|]; change (default ∅ _) with raw in Ht || change (default ∅ _) with (∅ : gmap string toml) in Ht.
  2: { rewrite <- Ht. by intros [= <- <-] n _. }
  rewrite <- Ht. destruct (getCodexMCPServers raw) as [m|]; cbn [default].
  - pose proof (drop_names_nil names m) as Hnil. pose proof (drop_names_spec names m) as Hs. destruct (drop_names names m) as [m' [|x l]]; intros [= <- <-].
    + intros n Hn. by apply Hnil.
    + split; [intros n; fold (codex_table (Some (codex_doc raw m'))); rewrite codex_doc_table; apply Hs|intros k; rewrite codex_doc_top; apply other_insert].
  - case_bool_decide; [done|]. intros [= <- <-] n _. by rewrite lookup_empty.
Qed.
Next Obligation. intros key s. reflexivity. Qed.
Next Obligation.
  intros relay key servers f f'. cbn. unfold codex_write. destruct (loadCodexConfig f) as [raw|]; [|done]. intros [= <-]. cbn. eauto.
Qed.

(** The targets of the program. *)
Definition lawful_targets : list Lawful := [mkLawful (ClaudeCodeTarget walk) claude_ok; mkLawful (CodexTarget walk) codex_ok].
End Instances.
