(* ===== verification/ServerSync.v ===== *)
(** * Syncing servers into a project

    [src/internal/cli/sync/sync.go] with [cli/config/state.go], [cli/config/config.go] and
    [cli/project/detect.go], [targets.go]: [arc-sync] compares the running servers of a
    relay with what the configuration files of a project hold, follows renames, asks
    about new servers and writes them to every target.  What it prints is not part of the
    model.  A write truncates the file before it fills it, and either step can fail. *)
From S2P Require Import Prelude GoStrings GoPath Json JsonDecode Hoare ProjectTargets.

(** ** State *)

Record ProjectState := mkProject { Skipped : list string; ServerIDs : gmap string string }.

Notation State := (gmap string ProjectState).

Definition GetSkipped (s : State) (dir : string) : list string := match s !! dir with Some ps => Skipped ps | None => [] end.

Definition IsSkipped (s : State) (dir name : string) : bool := existsb (λ n, n =?s name) (GetSkipped s dir).

Definition project_of (s : State) (dir : string) : ProjectState := default (mkProject [] ∅) (s !! dir).

Definition AddSkipped (s : State) (dir name : string) : State :=
  if IsSkipped s dir name then s
  else let ps := project_of s dir in <[dir := mkProject (Skipped ps ++ [name]) (ServerIDs ps)]> s.

(** The first occurrence goes. *)
Fixpoint remove_first (name : string) (l : list string) : list string :=
  match l with
  | [] => []
  | n :: r => if n =?s name then r else n :: remove_first name r
  end.

Definition RemoveSkipped (s : State) (dir name : string) : State :=
  match s !! dir with
  | None => s
  | Some ps => <[dir := mkProject (remove_first name (Skipped ps)) (ServerIDs ps)]> s
  end.

Definition ClearSkipped (s : State) (dir : string) : State := delete dir s.

Definition TrackServer (s : State) (dir id name : string) : State :=
  let ps := project_of s dir in <[dir := mkProject (Skipped ps) (<[id := name]> (ServerIDs ps))]> s.

Definition UntrackServer (s : State) (dir id : string) : State :=
  match s !! dir with
  | None => s
  | Some ps => <[dir := mkProject (Skipped ps) (delete id (ServerIDs ps))]> s
  end.

(** An absent key of a Go map reads as the empty string. *)
Definition GetTrackedName (s : State) (dir id : string) : string := default "" (ServerIDs (project_of s dir) !! id).

(** ** The disk *)

(** The files of the project by name, the configuration of [arc-sync], and its state as it
    decodes; [None] is no file, or one that does not decode. *)
Record Disk := mkDisk { project : gmap string File; config : option File; state : option State }.

Definition SM (A : Type) : Type := DBM Disk A.

Definition read_file (name : string) : SM (option File) := query (λ d, project d !! name).

Definition put_file (name : string) (f : File) (d : Disk) : Disk := mkDisk (<[name := f]> (project d)) (config d) (state d).

Definition write_file (name : string) (f : File) : SM unit := update (put_file name FBroken) ;;; update (put_file name f).

(** [LoadState]: whatever goes wrong is an empty state. *)
Definition LoadState : SM State := let! r := attempt (query state) in db_ret (match r with Ok (Some s) => s | _ => ∅ end).

Definition put_state (s : option State) (d : Disk) : Disk := mkDisk (project d) (config d) s.

Definition SaveState (s : State) : SM unit := update (put_state None) ;;; update (put_state (Some s)).

(** ** Credentials *)

Record Credentials := mkCreds { RelayURL : string; APIKey : string }.

Definition LoadConfig : SM Credentials :=
  let! f := query config in
  match f with
  | None => db_fail "no configuration found"
  | Some (FJson (JObj l)) =>
      match decode_string_field "relay_url" l "", decode_string_field "api_key" l "" with
      | Some url, Some key =>
          if url =?s "" then db_fail "relay_url is required"
          else if key =?s "" then db_fail "api_key is required"
          else db_ret (mkCreds url key)
      | _, _ => db_fail "parsing config"
      end
  | Some (FJson JNull) => db_fail "relay_url is required"
  | Some _ => db_fail "parsing config"
  end.

(** The environment wins when it names both. *)
Definition ResolveCredentials (env_url env_key : string) : SM Credentials :=
  if (env_url !=? "") && (env_key !=? "") then db_ret (mkCreds env_url env_key) else LoadConfig.

(** ** Targets of a project *)

Definition Detect (t : Target) : SM bool :=
  let! r := attempt (read_file (ConfigFileName t)) in db_ret (match r with Ok (Some _) => true | _ => false end).

Fixpoint DetectTargets (l : list Target) : SM (list Target) :=
  match l with
  | [] => db_ret []
  | t :: r => let! here := Detect t in let! rest := DetectTargets r in db_ret (if here : bool then t :: rest else rest)
  end.

Definition of_result {A} (r : result A) : SM A := match r with Ok a => db_ret a | Err e => db_fail e end.

Definition read_target (relay : string) (t : Target) : SM (list ManagedServer) :=
  let! f := read_file (ConfigFileName t) in of_result (Read t relay f).

Definition write_target (key : string) (servers : list ManagedServer) (t : Target) : SM unit :=
  let! f := read_file (ConfigFileName t) in
  let! f' := of_result (Write t key servers f) in
  write_file (ConfigFileName t) f'.

Definition remove_target (names : list string) (t : Target) : SM (list string) :=
  let! f := read_file (ConfigFileName t) in
  let! r := of_result (Remove t names f) in
  (match r.1 with Some f' => write_file (ConfigFileName t) f' | None => db_ret tt end) ;;; db_ret r.2.

(** The servers of one target that were not seen in an earlier one. *)
Fixpoint add_unseen (seen : list ManagedServer) (l : list ManagedServer) : list ManagedServer :=
  match l with
  | [] => seen
  | s :: r => add_unseen (if existsb (λ x, msName x =?s msName s) seen then seen else seen ++ [s]) r
  end.

Fixpoint read_targets (relay : string) (l : list Target) (seen : list ManagedServer) : SM (list ManagedServer) :=
  match l with
  | [] => db_ret seen
  | t :: r => let! servers := read_target relay t in read_targets relay r (add_unseen seen servers)
  end.

Definition ReadManagedServersFromTargets (relay : string) (targets : list Target) : SM (list ManagedServer) := read_targets relay targets [].

(** ** The sync *)

Record Server := mkServer { sID : string; sName : string; sStatus : string }.

Definition ServerProxyURL (relay name : string) : string := relayPrefix relay +:+ name.

Record Options := mkOptions { ProjectDir : string; NonInteractive : bool; DryRun : bool }.

Record Result := mkResult { Added : list string; rSkipped : list string; Existed : list string }.

(** An error that is only logged; a panic is none of those. *)
Definition logged {A} (m : SM A) : SM unit :=
  let! r := attempt m in
  match r with
  | Err e => if e =?s panic_nil_map then db_fail e else db_ret tt
  | Ok _ => db_ret tt
  end.

Section Run.
Context (targets_of : list Target) (default_target : Target) (opts : Options).

Definition DetectedTargetsOrDefault : SM (list Target) :=
  let! l := DetectTargets targets_of in db_ret (match l with [] => [default_target] | _ => l end).

Section Plan.
Context (relay : string).

Definition managed (s : Server) : ManagedServer := mkServer_ (sName s) (ServerProxyURL relay (sName s)) "".

(** One running server of the rename detection.  The tracked names are read from the live
    state, which is what the map the code holds on to is. *)
Definition detect_rename (acc : list ManagedServer * State * gset string) (s : Server) : list ManagedServer * State * gset string :=
  let '(renames, st, existing) := acc in
  let dir := ProjectDir opts in
  let oldName := GetTrackedName st dir (sID s) in
  if (oldName !=? "") && (oldName !=? sName s) && bool_decide (oldName ∈ existing) then
    let st1 := TrackServer st dir (sID s) (sName s) in
    let st2 := if IsSkipped st1 dir oldName then AddSkipped (RemoveSkipped st1 dir oldName) dir (sName s) else st1 in
    (renames ++ [mkServer_ (sName s) (ServerProxyURL relay (sName s)) oldName], st2, ({[sName s]} ∪ existing) ∖ {[oldName]})
  else acc.

(** The questions: what to add, what was skipped, and the skip list.  The loop ends when
    the input does. *)
Fixpoint ask (l : list Server) (lines : list string) (toAdd : list Server) (skipped : list string) (st : State) : list Server * list string * State :=
  match l with
  | [] => (toAdd, skipped, st)
  | s :: r =>
      if NonInteractive opts then ask r lines (toAdd ++ [s]) skipped st
      else match lines with
           | [] => (toAdd, skipped, st)
           | line :: lines =>
               let answer := TrimSpace (ToLower line) in
               if (answer =?s "y") || (answer =?s "yes") then ask r lines (toAdd ++ [s]) skipped st
               else ask r lines toAdd (skipped ++ [sName s]) (AddSkipped st (ProjectDir opts) (sName s))
           end
  end.

(** The state after an addition: the ID of the last running server of that name. *)
Definition track_added (running : list Server) (st : State) (s : Server) : State :=
  match List.find (λ x, sName x =?s sName s) (rev running) with
  | Some srv => TrackServer st (ProjectDir opts) (sID srv) (sName srv)
  | None => st
  end.
End Plan.

(** Renamed entries in one target; failures are logged. *)
Definition rename_in (key : string) (renames : list ManagedServer) (t : Target) : SM unit :=
  logged (remove_target (map msOldName renames) t) ;;; logged (write_target key renames t).

Fixpoint each {A} (f : A → SM unit) (l : list A) : SM unit :=
  match l with
  | [] => db_ret tt
  | a :: r => f a ;;; each f r
  end.

(** What follows the questions. *)
Definition finish (creds : Credentials) (targets : list Target) (running : list Server) (renames : list ManagedServer) (existed : list string)
    (toAdd : list Server) (skipped : list string) (st : State) : SM Result :=
  let result := mkResult (map sName toAdd) skipped existed in
  match toAdd with
  | [] =>
      (if negb (bool_decide (skipped = [])) || negb (bool_decide (renames = [])) then SaveState st else db_ret tt) ;;; db_ret result
  | _ =>
      if DryRun opts then db_ret result
      else
        each (write_target (APIKey creds) (map (managed (RelayURL creds)) toAdd)) targets ;;;
        SaveState (foldl (track_added running) st toAdd) ;;;
        db_ret result
  end.

(** The part after everything has been read. *)
Definition reconcile (creds : Credentials) (targets : list Target) (running : list Server) (existing : list ManagedServer) (st : State) (lines : list string) : SM Result :=
  let '(renames, st1, names) := foldl (detect_rename (RelayURL creds)) ([], st, list_to_set (map msName existing)) running in
  (if negb (bool_decide (renames = [])) && negb (DryRun opts) then each (rename_in (APIKey creds) renames) targets else db_ret tt) ;;;
  match List.filter (λ s, bool_decide (sName s ∉ names) && negb (IsSkipped st1 (ProjectDir opts) (sName s))) running with
  | [] =>
      (if negb (bool_decide (renames = [])) then SaveState st1 else db_ret tt) ;;;
      db_ret (mkResult [] [] (map msName existing))
  | newServers =>
      let '(toAdd, skipped, st2) := ask newServers lines [] [] st1 in
      finish creds targets running renames (map msName existing) toAdd skipped st2
  end.

Definition Run (env_url env_key : string) (servers : result (list Server)) (lines : list string) : SM Result :=
  let! creds := ResolveCredentials env_url env_key in
  let! all := of_result servers in
  match List.filter (λ s, sStatus s =?s "running") all with
  | [] => db_ret (mkResult [] [] [])
  | running =>
      let! targets := DetectedTargetsOrDefault in
      let! existing := ReadManagedServersFromTargets (RelayURL creds) targets in
      let! st := LoadState in
      reconcile creds targets running existing st lines
  end.
End Run.

(** ** A disk where nothing fails *)

Lemma write_file_healthy name f d : write_file name f (mkDb d []) = (Ok tt, mkDb (put_file name f d) []).
Proof. unfold write_file, db_bind, update, exec. cbn. unfold put_file. cbn. by rewrite insert_insert_eq. Qed.

Lemma write_target_healthy key servers t d :
  write_target key servers t (mkDb d []) =
  match Write t key servers (project d !! ConfigFileName t) with
  | Ok f => (Ok tt, mkDb (put_file (ConfigFileName t) f d) [])
  | Err e => (Err e, mkDb d [])
  end.
Proof.
  unfold write_target, read_file, query, exec, db_bind. cbn -[write_file]. destruct (Write t key servers _) as [f|e]; cbn -[write_file]; [apply write_file_healthy|done].
Qed.

Lemma remove_target_healthy names t d :
  remove_target names t (mkDb d []) =
  match Remove t names (project d !! ConfigFileName t) with
  | Ok (Some f, removed) => (Ok removed, mkDb (put_file (ConfigFileName t) f d) [])
  | Ok (None, removed) => (Ok removed, mkDb d [])
  | Err e => (Err e, mkDb d [])
  end.
Proof.
  unfold remove_target, read_file, query, exec, db_bind. cbn -[write_file]. destruct (Remove t names _) as [[[f|] removed]|e]; cbn -[write_file]; [|done|done].
  by rewrite write_file_healthy.
Qed.

Lemma SaveState_healthy st d : SaveState st (mkDb d []) = (Ok tt, mkDb (put_state (Some st) d) []).
Proof. reflexivity. Qed.

Lemma each_write_healthy key servers ts d : faults (snd (each (write_target key servers) ts (mkDb d []))) = [].
Proof.
  revert d. induction ts as [|t ts IH]; intros d; cbn [each]; [done|]. unfold db_bind. rewrite write_target_healthy.
  destruct (Write _ _ _ _); [apply IH|done].
Qed.

Lemma each_triple {A} (f : A → SM unit) l P E :
  (∀ a, a ∈ l → triple P (f a) (λ _, P) E) → triple P (each f l) (λ _, P) E.
Proof.
  induction l as [|a l IH]; intros Hf; cbn [each]; [by apply t_ret|]. eapply t_bind; [apply Hf; set_solver|]. intros ?.
  apply IH. intros; apply Hf. set_solver.
Qed.

Lemma logged_triple {A} (m : SM A) (P : Disk → Prop) :
  triple (on_healthy P) m (λ _, on_healthy P) (λ _, on_healthy P) → triple (on_healthy P) (logged m) (λ _, on_healthy P) (λ _, on_healthy P).
Proof.
  intros Hm. unfold logged. eapply t_bind; [eapply t_attempt, Hm|]. intros [a|e]; cbn; [by apply h_ret|].
  case_if; [by apply h_fail|by apply h_ret].
Qed.

Lemma DetectTargets_healthy l d :
  DetectTargets l (mkDb d []) = (Ok (List.filter (λ t, bool_decide (is_Some (project d !! ConfigFileName t))) l), mkDb d []).
Proof.
  induction l as [|t l IH]; [done|]. cbn [DetectTargets]. unfold db_bind. unfold Detect, read_file, query, exec, db_bind at 1. cbn.
  rewrite IH. cbn. by destruct (project d !! ConfigFileName t).
Qed.

(** ** Names a sync is about *)
Section Names.
Context (opts : Options) (relay : string).

Lemma GetTrackedName_track s dir id name id' :
  GetTrackedName (TrackServer s dir id name) dir id' = if decide (id' = id) then name else GetTrackedName s dir id'.
Proof.
  unfold GetTrackedName, TrackServer, project_of. rewrite lookup_insert_eq. cbn. destruct (decide (id' = id)) as [->|Hne].
  - by rewrite lookup_insert_eq.
  - by rewrite lookup_insert_ne.
Qed.

Lemma GetTrackedName_skip s dir name dir' id : GetTrackedName (AddSkipped s dir' name) dir id = GetTrackedName s dir id.
Proof.
  unfold AddSkipped. case_if; [done|]. unfold GetTrackedName, project_of. destruct (decide (dir = dir')) as [->|Hne].
  - by rewrite lookup_insert_eq.
  - by rewrite lookup_insert_ne.
Qed.

Lemma GetTrackedName_unskip s dir name dir' id : GetTrackedName (RemoveSkipped s dir' name) dir id = GetTrackedName s dir id.
Proof.
  unfold RemoveSkipped. destruct (s !! dir') as [ps|] eqn:E; [|done]. unfold GetTrackedName, project_of. destruct (decide (dir = dir')) as [->|Hne].
  - by rewrite lookup_insert_eq, E.
  - by rewrite lookup_insert_ne.
Qed.

(** What the detection of renames may touch. *)
Definition touched (st : State) (running : list Server) (n : string) : Prop :=
  n ∈ map sName running ∨ ∃ s, s ∈ running ∧ n = GetTrackedName st (ProjectDir opts) (sID s).

Definition renames_ok (st0 : State) (running : list Server) (acc : list ManagedServer * State * gset string) : Prop :=
  (∀ r, r ∈ acc.1.1 → touched st0 running (msName r) ∧ touched st0 running (msOldName r)) ∧
  (∀ s, s ∈ running → touched st0 running (GetTrackedName acc.1.2 (ProjectDir opts) (sID s))).

Lemma detect_rename_ok st0 running acc s :
  s ∈ running → renames_ok st0 running acc → renames_ok st0 running (detect_rename opts relay acc s).
Proof.
  intros Hs. destruct acc as [[renames st] existing]. intros [Hr Ht]. cbn in Hr, Ht. unfold detect_rename. case_if; [|by split]. split; cbn.
  - intros r [Hin|Hin]%elem_of_app; [by apply Hr|]. apply list_elem_of_singleton in Hin. subst r. cbn. split; [|by apply Ht].
    left. by apply list_elem_of_fmap_2.
  - intros s' Hs'. assert (Hg : touched st0 running (GetTrackedName (TrackServer st (ProjectDir opts) (sID s) (sName s)) (ProjectDir opts) (sID s'))).
    { rewrite GetTrackedName_track. destruct (decide (sID s' = sID s)); [left; by apply list_elem_of_fmap_2|by apply Ht]. }
    destruct (IsSkipped _ _ _); [by rewrite GetTrackedName_skip, GetTrackedName_unskip|done].
Qed.

Lemma renames_touched st0 running existing :
  renames_ok st0 running (foldl (detect_rename opts relay) ([], st0, existing) running).
Proof.
  assert (Hg : ∀ l acc, (∀ s, s ∈ l → s ∈ running) → renames_ok st0 running acc → renames_ok st0 running (foldl (detect_rename opts relay) acc l)).
  { induction l as [|s l IH]; intros acc Hl Hacc; cbn; [done|]. apply IH; [set_solver|]. apply detect_rename_ok; [set_solver|done]. }
  apply Hg; [done|]. split; cbn; [set_solver|]. intros s Hs. right. by exists s.
Qed.

Lemma ask_subset l : ∀ lines toAdd skipped st s,
  s ∈ (ask opts l lines toAdd skipped st).1.1 → s ∈ toAdd ∨ s ∈ l.
Proof.
  induction l as [|x l IH]; intros lines toAdd skipped st s; cbn; [by left|].
  destruct (NonInteractive opts); [intros [Hin|Hin]%IH; set_solver|]. destruct lines as [|line lines]; [by left|].
  case_if; intros [Hin|Hin]%IH; set_solver.
Qed.
End Names.

(** ** What a sync leaves alone *)

(** What a target's file holds for a server, and what else it holds. *)
Definition held (t : Lawful) (f : option File) (n : string) := @entry t (laws t) f n.

Definition beside (t : Lawful) (f : option File) (k : string) := @other t (laws t) f k.

Section Kept.
Context (all : list Lawful) (dflt : Lawful) (Hdflt : dflt ∈ all) (opts : Options).
Context (Hinj : ∀ t t' : Lawful, t ∈ all → t' ∈ all → ConfigFileName t = ConfigFileName t' → t = t').
Context (about_ : string → Prop) (d0 : Disk).

(** Up to the names a sync is about, every target holds what it held. *)
Definition same_but (d : Disk) : Prop := ∀ t : Lawful, t ∈ all →
  (∀ n, ¬ about_ n → held t (project d !! ConfigFileName t) n = held t (project d0 !! ConfigFileName t) n) ∧
  (∀ k, beside t (project d !! ConfigFileName t) k = beside t (project d0 !! ConfigFileName t) k).

Lemma same_but_put (t : Lawful) f d :
  t ∈ all → same_but d →
  (∀ n, ¬ about_ n → held t (Some f) n = held t (project d !! ConfigFileName t) n) →
  (∀ k, beside t (Some f) k = beside t (project d !! ConfigFileName t) k) →
  same_but (put_file (ConfigFileName t) f d).
Proof.
  intros Ht Hd He Ho t' Ht'. unfold put_file. cbn. destruct (decide (ConfigFileName t' = ConfigFileName t)) as [E|Hne].
  - pose proof (Hinj t' t Ht' Ht E) as ->. rewrite lookup_insert_eq. destruct (Hd t Ht) as [H1 H2].
    split; [intros n Hn; rewrite He by done; by apply H1|intros k; by rewrite Ho].
  - rewrite lookup_insert_ne by done. by apply Hd.
Qed.

Lemma foldl_untouched {V} (g : ManagedServer → V) servers n (acc : option V) :
  (∀ s, s ∈ servers → msName s ≠ n) → foldl (λ acc s, if msName s =?s n then Some (g s) else acc) acc servers = acc.
Proof.
  revert acc. induction servers as [|s r IH]; intros acc Hn; cbn; [done|]. destruct (String.eqb_spec (msName s) n) as [E|]; [by destruct (Hn s); [left|]|].
  apply IH. intros; apply Hn. by right.
Qed.

Lemma write_keeps key servers (t : Lawful) :
  t ∈ all → (∀ s, s ∈ servers → about_ (msName s)) →
  triple (on_healthy same_but) (write_target key servers t) (λ _, on_healthy same_but) (λ _, on_healthy same_but).
Proof.
  intros Ht Hs [d fs] [Hf Hd]. cbn in Hf, Hd. subst fs. rewrite write_target_healthy. destruct (Write t key servers _) as [f|e] eqn:E; [|by split].
  split; [done|]. apply same_but_put; [done|done| |].
  - intros n Hn. unfold held. rewrite (write_entry _ _ _ _ n E). apply foldl_untouched. intros s Hin <-. by apply Hn, Hs.
  - intros k. exact (write_other _ _ _ _ k E).
Qed.

Lemma remove_keeps names (t : Lawful) :
  t ∈ all → (∀ n, n ∈ names → about_ n) →
  triple (on_healthy same_but) (remove_target names t) (λ _, on_healthy same_but) (λ _, on_healthy same_but).
Proof.
  intros Ht Hs [d fs] [Hf Hd]. cbn in Hf, Hd. subst fs. rewrite remove_target_healthy. destruct (Remove t names _) as [[r removed]|e] eqn:E; [|by split].
  pose proof (remove_spec _ _ _ _ E) as Hr. destruct r as [f|]; [|by split]. destruct Hr as [He Ho]. split; [done|].
  apply same_but_put; [done|done| |done]. intros n Hn. unfold held. rewrite He. rewrite bool_decide_false; [done|]. intros Hin. by apply Hn, Hs.
Qed.

Lemma rename_keeps key renames (t : Lawful) :
  t ∈ all → (∀ r, r ∈ renames → about_ (msName r) ∧ about_ (msOldName r)) →
  triple (on_healthy same_but) (rename_in key renames t) (λ _, on_healthy same_but) (λ _, on_healthy same_but).
Proof.
  intros Ht Hr. unfold rename_in. eapply t_bind; [apply logged_triple, remove_keeps; [done|]|intros ?; apply logged_triple, write_keeps; [done|]].
  - intros n Hn. apply list_elem_of_fmap in Hn as (r & -> & Hin). by apply Hr.
  - intros r Hin. by apply Hr.
Qed.

Lemma save_keeps st : triple (on_healthy same_but) (SaveState st) (λ _, on_healthy same_but) (λ _, on_healthy same_but).
Proof. intros [d fs] [Hf Hd]. cbn in Hf. subst fs. by split. Qed.

Lemma each_keeps (f : Target → SM unit) (ts : list Lawful) :
  (∀ t : Lawful, t ∈ ts → triple (on_healthy same_but) (f t) (λ _, on_healthy same_but) (λ _, on_healthy same_but)) →
  triple (on_healthy same_but) (each f (map lawful ts)) (λ _, on_healthy same_but) (λ _, on_healthy same_but).
Proof. intros Hf. apply each_triple. intros t Ht. apply list_elem_of_fmap in Ht as (L & -> & HL). by apply Hf. Qed.

Lemma finish_keeps creds (ts : list Lawful) running renames existed toAdd skipped st :
  (∀ t, t ∈ ts → t ∈ all) → (∀ s, s ∈ toAdd → about_ (sName s)) →
  triple (on_healthy same_but) (finish opts creds (map lawful ts) running renames existed toAdd skipped st) (λ _, on_healthy same_but) (λ _, on_healthy same_but).
Proof.
  intros Hts Hadd. unfold finish. destruct toAdd as [|s0 l] eqn:E.
  - eapply (t_bind _ _ _ _ (λ _, on_healthy same_but)); [case_if; [apply save_keeps|by apply h_ret]|intros ?; by apply h_ret].
  - rewrite <- E in *. clear E s0 l. case_if; [by apply h_ret|]. eapply t_bind; [apply each_keeps|].
    + intros t Ht. apply write_keeps; [by apply Hts|]. intros s Hs. apply list_elem_of_fmap in Hs as (x & -> & Hx). by apply Hadd.
    + intros ?. eapply t_bind; [apply save_keeps|]. intros ?. by apply h_ret.
Qed.
End Kept.

(** ** Reading changes nothing *)

Definition reads {A} (m : SM A) : Prop := ∀ d, ∃ r, m (mkDb d []) = (r, mkDb d []).

Lemma reads_ret {A} (a : A) : reads (db_ret a).
Proof. by eexists. Qed.

Lemma reads_fail {A} e : reads (@db_fail Disk A e).
Proof. by eexists. Qed.

Lemma reads_query {A} (f : Disk → A) : reads (query f).
Proof. by eexists. Qed.

Lemma reads_bind {A B} (m : SM A) (k : A → SM B) : reads m → (∀ a, reads (k a)) → reads (db_bind m k).
Proof. intros Hm Hk d. destruct (Hm d) as [[a|e] E]; unfold db_bind; rewrite E; [apply Hk|by eexists]. Qed.

Lemma reads_of_result {A} (r : result A) : reads (of_result r).
Proof. destruct r; by eexists. Qed.

#[local] Hint Resolve reads_ret reads_fail reads_query reads_bind reads_of_result : relay.

Lemma reads_creds u k : reads (ResolveCredentials u k).
Proof.
  unfold ResolveCredentials, LoadConfig. case_if; [apply reads_ret|]. apply reads_bind; [apply reads_query|]. intros f.
  repeat (case_match; auto with relay).
Qed.

Lemma reads_targets relay ts seen : reads (read_targets relay ts seen).
Proof.
  revert seen. induction ts as [|t ts IH]; intros seen; cbn [read_targets]; [apply reads_ret|]. apply reads_bind; [|intros l; apply IH].
  unfold read_target, read_file. auto with relay.
Qed.

Lemma LoadState_healthy d : LoadState (mkDb d []) = (Ok (default ∅ (state d)), mkDb d []).
Proof. unfold LoadState, db_bind, attempt, query, exec. cbn. by destruct (state d). Qed.

(** The targets a sync works on. *)
Definition detected (all : list Lawful) (dflt : Lawful) (d : Disk) : list Lawful :=
  match List.filter (λ t : Lawful, bool_decide (is_Some (project d !! ConfigFileName t))) all with [] => [dflt] | l => l end.

Lemma Detected_healthy (all : list Lawful) (dflt : Lawful) d :
  DetectedTargetsOrDefault (map lawful all) dflt (mkDb d []) = (Ok (map lawful (detected all dflt d)), mkDb d []).
Proof.
  unfold DetectedTargetsOrDefault, db_bind, detected. rewrite DetectTargets_healthy.
  assert (Hf : List.filter (λ t, bool_decide (is_Some (project d !! ConfigFileName t))) (map lawful all) =
    map lawful (List.filter (λ t : Lawful, bool_decide (is_Some (project d !! ConfigFileName t))) all)).
  { induction all as [|t l IH]; [done|]. cbn. rewrite IH. by case_bool_decide. }
  rewrite Hf. by destruct (List.filter _ all).
Qed.

Lemma detected_in all (dflt : Lawful) d (t : Lawful) : dflt ∈ all → t ∈ detected all dflt d → t ∈ all.
Proof.
  intros Hd. unfold detected. assert (Hsub : ∀ x, x ∈ List.filter (λ t : Lawful, bool_decide (is_Some (project d !! ConfigFileName t))) all → x ∈ all).
  { intros x Hx. rewrite list_elem_of_In, filter_In, <- list_elem_of_In in Hx. apply Hx. }
  destruct (List.filter _ all); [intros Ht; apply list_elem_of_singleton in Ht; by subst|apply Hsub].
Qed.

Lemma detected_exists all (dflt : Lawful) d (t : Lawful) : t ∈ all → is_Some (project d !! ConfigFileName t) → t ∈ detected all dflt d.
Proof.
  intros Ht Hx. unfold detected. assert (Hin : t ∈ List.filter (λ t : Lawful, bool_decide (is_Some (project d !! ConfigFileName t))) all).
  { rewrite list_elem_of_In, filter_In, <- list_elem_of_In. split; [done|]. by apply bool_decide_eq_true. }
  by destruct (List.filter _ all); [apply elem_of_nil in Hin|].
Qed.

Lemma detected_cases all (dflt : Lawful) d (t : Lawful) :
  t ∈ detected all dflt d → is_Some (project d !! ConfigFileName t) ∨ t = dflt ∧ ∀ x : Lawful, x ∈ all → ¬ is_Some (project d !! ConfigFileName x).
Proof.
  unfold detected. destruct (List.filter _ all) as [|y l] eqn:E.
  - intros Ht. apply list_elem_of_singleton in Ht. right. split; [done|]. intros x Hx Hs.
    assert (Hin : x ∈ List.filter (λ t : Lawful, bool_decide (is_Some (project d !! ConfigFileName t))) all).
    { rewrite list_elem_of_In, filter_In, <- list_elem_of_In. split; [done|]. by apply bool_decide_eq_true. }
    rewrite E in Hin. by apply elem_of_nil in Hin.
  - rewrite <- E. rewrite list_elem_of_In, filter_In, bool_decide_eq_true. intros [_ ?]. by left.
Qed.

Section Foreign.
Context (all : list Lawful) (dflt : Lawful) (Hdflt : dflt ∈ all) (opts : Options).
Context (Hinj : ∀ t t' : Lawful, t ∈ all → t' ∈ all → ConfigFileName t = ConfigFileName t' → t = t').

Lemma reconcile_keeps ab d0 creds (ts : list Lawful) running existing st lines :
  (∀ t, t ∈ ts → t ∈ all) → (∀ n, touched opts st running n → ab n) →
  triple (on_healthy (same_but all ab d0)) (reconcile opts creds (map lawful ts) running existing st lines)
    (λ _, on_healthy (same_but all ab d0)) (λ _, on_healthy (same_but all ab d0)).
Proof.
  intros Hts Hab. unfold reconcile.
  pose proof (renames_touched opts (RelayURL creds) st running (list_to_set (map msName existing))) as [Hren _].
  destruct (foldl _ _ running) as [[renames st1] names]. cbn [fst] in Hren.
  eapply (t_bind _ _ _ _ (λ _, on_healthy (same_but all ab d0))).
  - case_if; [|by apply h_ret]. apply each_keeps. intros t' Ht'. apply rename_keeps; [exact Hinj|by apply Hts|].
    intros r Hr. destruct (Hren r Hr). split; by apply Hab.
  - intros ?. set (new := List.filter _ running).
    assert (Hnew : ∀ s, s ∈ new → ab (sName s)).
    { intros s Hs. apply Hab. left. unfold new in Hs. rewrite list_elem_of_In, filter_In, <- list_elem_of_In in Hs. destruct Hs as [Hs _]. by apply list_elem_of_fmap_2. }
    destruct new as [|s1 r1] eqn:En.
    + eapply (t_bind _ _ _ _ (λ _, on_healthy (same_but all ab d0))); [|intros ?; by apply h_ret].
      destruct (negb (bool_decide (renames = []))); [apply save_keeps|by apply h_ret].
    + rewrite <- En in *. destruct (ask opts new lines [] [] st1) as [[toAdd skipped] st2] eqn:Ea.
      apply finish_keeps; [exact Hinj|exact Hts|]. intros s Hs. pose proof (ask_subset opts new lines [] [] st1 s) as Hsub. rewrite Ea in Hsub.
      destruct (Hsub Hs); [set_solver|by apply Hnew].
Qed.

(** How a run starts: it stops before anything was written, or it reconciles. *)
Lemma Run_healthy env_url env_key servers lines d :
  (∃ r, Run (map lawful all) dflt opts env_url env_key servers lines (mkDb d []) = (r, mkDb d [])) ∨
  ∃ creds ts running existing, (∀ t, t ∈ ts → t ∈ all) ∧
    running = List.filter (λ s, sStatus s =?s "running") (match servers with Ok l => l | Err _ => [] end) ∧
    Run (map lawful all) dflt opts env_url env_key servers lines (mkDb d []) =
    reconcile opts creds (map lawful ts) running existing (default ∅ (state d)) lines (mkDb d []).
Proof.
  unfold Run. unfold db_bind at 1 6. destruct (reads_creds env_url env_key d) as [[creds|e] ->]; [|left; by eexists].
  unfold db_bind at 1 5. destruct servers as [l|e]; [|left; by eexists]. cbn [of_result db_ret].
  destruct (List.filter _ l) as [|s0 r0] eqn:Er; [left; by eexists|]. rewrite <- Er.
  pose proof (Detected_healthy all dflt d) as Ets. set (ts := detected all dflt d) in *.
  assert (Hts : ∀ t, t ∈ ts → t ∈ all) by (intros t; by apply detected_in).
  unfold ReadManagedServersFromTargets. destruct (reads_targets (RelayURL creds) (map lawful ts) [] d) as [[existing|e] E].
  - right. exists creds, ts, (List.filter (λ s, sStatus s =?s "running") l), existing. split; [done|]. split; [done|].
    unfold db_bind at 1. rewrite Ets. unfold db_bind at 1. rewrite E. unfold db_bind at 1. by rewrite LoadState_healthy.
  - left. unfold db_bind at 1. rewrite Ets. unfold db_bind at 1. rewrite E. by eexists.
Qed.

(** C23: On a disk where nothing fails a sync, whatever the relay lists, the
    user answers and however it ends, leaves in every configuration file all other
    settings, and every server entry whose name is neither that of a running server nor
    the name under which a running server was last synced. *)
Theorem sync_keeps_foreign : ∀ env_url env_key servers lines d (t : Lawful) n,
  t ∈ all →
  ¬ touched opts (default ∅ (state d)) (List.filter (λ s, sStatus s =?s "running") (match servers with Ok l => l | Err _ => [] end)) n →
  let d' := final (Run (map lawful all) dflt opts env_url env_key servers lines) (mkDb d []) in
  held t (project d' !! ConfigFileName t) n = held t (project d !! ConfigFileName t) n ∧
  ∀ k, beside t (project d' !! ConfigFileName t) k = beside t (project d !! ConfigFileName t) k.
Proof.
  intros env_url env_key servers lines d t n Ht Hn. unfold final.
  destruct (Run_healthy env_url env_key servers lines d) as [[r ->]|(creds & ts & running & existing & Hts & -> & ->)]; [done|].
  set (running := List.filter _ _) in *.
  assert (Hsame : same_but all (touched opts (default ∅ (state d)) running) d d) by done.
  pose proof (reconcile_keeps (touched opts (default ∅ (state d)) running) d creds ts running existing (default ∅ (state d)) lines Hts (λ _ Hx, Hx)
    (mkDb d []) (conj eq_refl Hsame)) as Hr.
  destruct (reconcile _ _ _ _ _ _ _ _) as [[r|e] [d' fs]]; destruct Hr as [_ Hs]; destruct (Hs t Ht) as [He Ho]; (split; [by apply He|exact Ho]).
Qed.
End Foreign.

(** ** Running again *)
Section Again.
Context (relay : string).

(** The target's file lists the server under the relay, and reads. *)
Definition has (t : Lawful) (d : Disk) (n : string) : Prop :=
  ∃ v, held t (project d !! ConfigFileName t) n = Some v ∧ HasPrefix (@url_of t (laws t) v) (relayPrefix relay) = true.

Definition readable (t : Lawful) (d : Disk) : Prop := ∃ l, Read t relay (project d !! ConfigFileName t) = Ok l.

Lemma read_has (t : Lawful) d l n :
  Read t relay (project d !! ConfigFileName t) = Ok l → n ∈ map msName l ↔ has t d n.
Proof.
  intros E. rewrite list_elem_of_fmap. split.
  - intros (ms & -> & Hms). apply (read_spec _ _ _ ms E) in Hms as (_ & Hp & v & Hv & Hu). exists v. by rewrite Hu.
  - intros (v & Hv & Hp). exists (mkServer_ n (@url_of t (laws t) v) ""). split; [done|]. apply (read_spec _ _ _ _ E). cbn. eauto.
Qed.

Lemma add_unseen_names seen l n : n ∈ map msName (add_unseen seen l) ↔ n ∈ map msName seen ∨ n ∈ map msName l.
Proof.
  revert seen. induction l as [|s r IH]; intros seen; cbn; [set_solver|]. rewrite IH, elem_of_cons. destruct (existsb _ seen) eqn:E.
  - apply existsb_exists in E as (x & Hx & He). apply list_elem_of_In in Hx. apply String.eqb_eq in He.
    assert (Hin : msName s ∈ map msName seen) by (rewrite <- He; by apply list_elem_of_fmap_2). split; [tauto|]. intros [?|[->|?]]; tauto.
  - rewrite map_app, elem_of_app. cbn. rewrite list_elem_of_singleton. tauto.
Qed.

Lemma read_target_healthy (t : Target) d : read_target relay t (mkDb d []) = (Read t relay (project d !! ConfigFileName t), mkDb d []).
Proof. unfold read_target, read_file, query, exec, db_bind. cbn. by destruct (Read _ _ _). Qed.

Lemma read_targets_ok (ts : list Lawful) d : ∀ seen,
  (∀ t, t ∈ ts → readable t d) →
  ∃ l, read_targets relay (map lawful ts) seen (mkDb d []) = (Ok l, mkDb d []) ∧
       ∀ n, n ∈ map msName l ↔ n ∈ map msName seen ∨ ∃ t, t ∈ ts ∧ has t d n.
Proof.
  induction ts as [|t ts IH]; intros seen Hr; cbn [map read_targets]; [exists seen; split; [done|set_solver]|].
  destruct (Hr t) as [l El]; [by left|]. unfold db_bind. rewrite read_target_healthy, El.
  destruct (IH (add_unseen seen l)) as (l' & E' & Hl'); [intros; apply Hr; by right|]. exists l'. split; [done|]. intros n.
  rewrite Hl', add_unseen_names, (read_has t d l n El). set_solver.
Qed.

Lemma read_targets_readable (ts : list Lawful) d : ∀ seen l,
  read_targets relay (map lawful ts) seen (mkDb d []) = (Ok l, mkDb d []) → ∀ t, t ∈ ts → readable t d.
Proof.
  induction ts as [|t ts IH]; intros seen l; cbn [map read_targets]; [set_solver|]. unfold db_bind. rewrite read_target_healthy.
  destruct (Read t relay _) as [l0|e] eqn:E0; [|done]. intros E t' [->|Ht']%elem_of_cons; [by exists l0|by eapply IH].
Qed.

(** Entries of the relay, written to the targets. *)
Context (all : list Lawful) (Hinj : ∀ t t' : Lawful, t ∈ all → t' ∈ all → ConfigFileName t = ConfigFileName t' → t = t').
Context (key : string) (servers : list ManagedServer) (Hurls : ∀ s, s ∈ servers → HasPrefix (msURL s) (relayPrefix relay) = true).

Lemma foldl_last {V} (g : ManagedServer → V) l n (acc : option V) :
  foldl (λ acc s, if msName s =?s n then Some (g s) else acc) acc l = acc ∧ n ∉ map msName l ∨
  ∃ s, s ∈ l ∧ msName s = n ∧ foldl (λ acc s, if msName s =?s n then Some (g s) else acc) acc l = Some (g s).
Proof.
  revert acc. induction l as [|s l IH]; intros acc; cbn; [left; set_solver|]. destruct (String.eqb_spec (msName s) n) as [E|Hne].
  - destruct (IH (Some (g s))) as [[-> Hn]|(s' & Hs' & Hn & Hf)]; right; [exists s; set_solver|exists s'; set_solver].
  - destruct (IH acc) as [[-> Hn]|(s' & Hs' & Hn & Hf)]; [left; set_solver|right; exists s'; set_solver].
Qed.

Lemma write_has (t : Lawful) d f :
  Write t key servers (project d !! ConfigFileName t) = Ok f →
  let d' := put_file (ConfigFileName t) f d in
  readable t d' ∧ ∀ n, has t d n ∨ n ∈ map msName servers → has t d' n.
Proof.
  intros E d'. assert (Hd' : project d' !! ConfigFileName t = Some f) by apply lookup_insert_eq. split.
  { unfold readable. rewrite Hd'. by eapply write_readable. }
  intros n Hn. unfold has, held. rewrite Hd', (write_entry _ _ _ _ n E).
  destruct (foldl_last (@fresh t (laws t) key) servers n (@entry t (laws t) (project d !! ConfigFileName t) n)) as [[-> Hni]|(s & Hs & _ & ->)].
  - destruct Hn as [(v & Hv & Hp)|]; [|done]. by exists v.
  - eexists. split; [done|]. rewrite fresh_url. by apply Hurls.
Qed.

Lemma put_frame (t t' : Lawful) f d : t ∈ all → t' ∈ all → t ≠ t' → project (put_file (ConfigFileName t) f d) !! ConfigFileName t' = project d !! ConfigFileName t'.
Proof. intros Ht Ht' Hne. cbn. rewrite lookup_insert_ne; [done|]. intros E. by apply Hne, Hinj. Qed.

(** What the loop over the targets leaves. *)
Lemma each_write ts : ∀ d d',
  (∀ t, t ∈ ts → t ∈ all) → each (write_target key servers) (map lawful ts) (mkDb d []) = (Ok tt, d') →
  ∃ d2, d' = mkDb d2 [] ∧ config d2 = config d ∧ state d2 = state d ∧
    (∀ t, t ∈ all → readable t d → readable t d2) ∧ (∀ t n, t ∈ all → has t d n → has t d2 n) ∧
    (∀ t n, t ∈ ts → n ∈ map msName servers → has t d2 n) ∧ (∀ t, t ∈ ts → readable t d2) ∧
    (∀ t : Lawful, t ∈ all → t ∉ ts → project d2 !! ConfigFileName t = project d !! ConfigFileName t) ∧ (∀ t : Lawful, t ∈ ts → is_Some (project d2 !! ConfigFileName t)) ∧
    (∀ t : Lawful, t ∈ all → is_Some (project d !! ConfigFileName t) → is_Some (project d2 !! ConfigFileName t)).
Proof.
  induction ts as [|t ts IH]; intros d d' Hts; cbn [map each].
  - intros [= <-]. exists d. split_and!; try done; set_solver.
  - unfold db_bind at 1. rewrite write_target_healthy. destruct (Write t key servers _) as [f|e] eqn:E; [|done]. intros Hrest.
    pose proof (write_has t d f E) as [Hrd Hhas]. set (d1 := put_file (ConfigFileName t) f d) in *.
    destruct (IH d1 d') as (d2 & -> & Hc & Hs & H1 & H2 & H3 & H4 & H5 & H6 & H7); [set_solver|done|].
    assert (Htall : t ∈ all) by (apply Hts; by left). exists d2.
    assert (Heq : ∀ t' : Lawful, t' ∈ all → t' ≠ t → project d1 !! ConfigFileName t' = project d !! ConfigFileName t') by (intros; by apply put_frame).
    split_and!; [done|done|done|..].
    + intros t' Ht' Hr. apply H1; [done|]. destruct (decide (ConfigFileName t' = ConfigFileName t)) as [En|Hne]; [by rewrite (Hinj t' t Ht' Htall En)|].
      unfold readable. rewrite Heq; [done|done|congruence].
    + intros t' n Ht' Hh. apply H2; [done|]. destruct (decide (ConfigFileName t' = ConfigFileName t)) as [En|Hne].
      * rewrite (Hinj t' t Ht' Htall En) in *. apply Hhas. by left.
      * unfold has. rewrite Heq; [done|done|congruence].
    + intros t' n [->|Ht']%elem_of_cons Hn; [apply H2; [done|]; apply Hhas; by right|by apply H3].
    + intros t' [->|Ht']%elem_of_cons; [by apply H1|by apply H4].
    + intros t' Ht' [Hn1 Hn2]%not_elem_of_cons. rewrite H5 by done. by apply Heq.
    + intros t' [->|Ht']%elem_of_cons; [|by apply H6]. apply H7; [done|]. unfold d1. cbn. rewrite lookup_insert_eq. eauto.
    + intros t' Ht' Hx. apply H7; [done|]. destruct (decide (ConfigFileName t' = ConfigFileName t)) as [En|Hne].
      * rewrite En. unfold d1. cbn. rewrite lookup_insert_eq. eauto.
      * rewrite Heq; [done|done|congruence].
Qed.
End Again.

Section Converge.
Context (all : list Lawful) (dflt : Lawful) (Hdflt : dflt ∈ all) (opts : Options).
Context (Hinj : ∀ t t' : Lawful, t ∈ all → t' ∈ all → ConfigFileName t = ConfigFileName t' → t = t').
Context (Hauto : NonInteractive opts = true) (Hreal : DryRun opts = false).

(** No rename is pending. *)
Definition names_settled (st : State) (running : list Server) : Prop :=
  ∀ s, s ∈ running → GetTrackedName st (ProjectDir opts) (sID s) = "" ∨ GetTrackedName st (ProjectDir opts) (sID s) = sName s.

Lemma no_renames relay st running existing :
  names_settled st running → foldl (detect_rename opts relay) ([], st, existing) running = ([], st, existing).
Proof.
  unfold names_settled. induction running as [|s l IH]; intros Hs; cbn [foldl]; [done|].
  assert (E : detect_rename opts relay ([], st, existing) s = ([], st, existing)).
  { unfold detect_rename. destruct (Hs s) as [->| ->]; [by left|done|]. by rewrite String.eqb_refl, andb_false_r. }
  rewrite E. apply IH. set_solver.
Qed.

Lemma ask_all l : ∀ lines toAdd skipped st, ask opts l lines toAdd skipped st = (toAdd ++ l, skipped, st).
Proof.
  induction l as [|s l IH]; intros lines toAdd skipped st; cbn [ask]; [by rewrite app_nil_r|]. rewrite Hauto, IH. by rewrite <- app_assoc.
Qed.

Definition new_servers (st : State) (running : list Server) (names : list string) : list Server :=
  List.filter (λ s, bool_decide (sName s ∉ (list_to_set names : gset string)) && negb (IsSkipped st (ProjectDir opts) (sName s))) running.

Lemma elem_of_new st running names s :
  s ∈ new_servers st running names ↔ s ∈ running ∧ sName s ∉ names ∧ IsSkipped st (ProjectDir opts) (sName s) = false.
Proof.
  unfold new_servers. rewrite list_elem_of_In, filter_In, <- list_elem_of_In, andb_true_iff, bool_decide_eq_true, negb_true_iff.
  by rewrite elem_of_list_to_set.
Qed.

(** A run without pending renames adds what is new, and is done when nothing is. *)
Lemma reconcile_settled creds ts running existing st lines d :
  names_settled st running →
  reconcile opts creds ts running existing st lines (mkDb d []) =
  match new_servers st running (map msName existing) with
  | [] => (Ok (mkResult [] [] (map msName existing)), mkDb d [])
  | new => finish opts creds ts running [] (map msName existing) new [] st (mkDb d [])
  end.
Proof.
  intros Hs. unfold reconcile. rewrite (no_renames _ _ _ _ Hs). unfold new_servers. cbn [bool_decide].
  rewrite bool_decide_true by done. cbn [negb andb]. unfold db_bind at 1. cbn [db_ret]. destruct (List.filter _ running) as [|s l]; [done|].
  by rewrite ask_all.
Qed.

Lemma IsSkipped_track st dir id name n : IsSkipped (TrackServer st dir id name) dir n = IsSkipped st dir n.
Proof. unfold IsSkipped, GetSkipped, TrackServer, project_of. rewrite lookup_insert_eq. by destruct (st !! dir). Qed.

Lemma track_added_skipped running st s n : IsSkipped (track_added opts running st s) (ProjectDir opts) n = IsSkipped st (ProjectDir opts) n.
Proof. unfold track_added. destruct (List.find _ _); [apply IsSkipped_track|done]. Qed.

Lemma track_added_settled running st s :
  (∀ a b, a ∈ running → b ∈ running → sID a = sID b → a = b) → names_settled st running → names_settled (track_added opts running st s) running.
Proof.
  intros Hid Hs x Hx. unfold track_added. destruct (List.find _ _) as [srv|] eqn:E; [|by apply Hs].
  apply List.find_some in E as [Hin _]. apply in_rev, list_elem_of_In in Hin.
  rewrite GetTrackedName_track. destruct (decide (sID x = sID srv)) as [En|]; [|by apply Hs]. right. by rewrite (Hid x srv Hx Hin En).
Qed.

Lemma tracked_all running new : ∀ st,
  (∀ a b, a ∈ running → b ∈ running → sID a = sID b → a = b) → names_settled st running →
  names_settled (foldl (track_added opts running) st new) running ∧
  ∀ n, IsSkipped (foldl (track_added opts running) st new) (ProjectDir opts) n = IsSkipped st (ProjectDir opts) n.
Proof.
  induction new as [|s l IH]; intros st Hid Hs; cbn [foldl]; [done|].
  destruct (IH (track_added opts running st s) Hid) as [H1 H2]; [by apply track_added_settled|]. split; [done|].
  intros n. by rewrite H2, track_added_skipped.
Qed.

(** A finished addition: the targets hold the servers, and the state is saved. *)
Lemma finish_adds creds ts running existed new st d r d' :
  new ≠ [] → finish opts creds (map lawful ts) running [] existed new [] st (mkDb d []) = (Ok r, d') →
  ∃ d2, each (write_target (APIKey creds) (map (managed (RelayURL creds)) new)) (map lawful ts) (mkDb d []) = (Ok tt, mkDb d2 []) ∧
        d' = mkDb (put_state (Some (foldl (track_added opts running) st new)) d2) [].
Proof.
  intros Hne. unfold finish. destruct new as [|s l]; [done|]. rewrite Hreal. unfold db_bind at 1.
  destruct (each _ _ _) as [[[]|e] [d2 fs]] eqn:E; [|done]. pose proof (each_write_healthy (APIKey creds) (map (managed (RelayURL creds)) (s :: l)) (map lawful ts) d) as Hf.
  rewrite E in Hf. cbn in Hf. subst fs. unfold db_bind. rewrite SaveState_healthy. intros [= _ <-]. by exists d2.
Qed.

(** The pieces of a run that reconciles. *)
Lemma Run_pieces env_url env_key l lines d r d' :
  let running := List.filter (λ s, sStatus s =?s "running") l in
  Run (map lawful all) dflt opts env_url env_key (Ok l) lines (mkDb d []) = (Ok r, d') → running ≠ [] →
  ∃ creds existing,
    ResolveCredentials env_url env_key (mkDb d []) = (Ok creds, mkDb d []) ∧
    read_targets (RelayURL creds) (map lawful (detected all dflt d)) [] (mkDb d []) = (Ok existing, mkDb d []) ∧
    reconcile opts creds (map lawful (detected all dflt d)) running existing (default ∅ (state d)) lines (mkDb d []) = (Ok r, d').
Proof.
  intros running. unfold Run. unfold db_bind at 1. destruct (reads_creds env_url env_key d) as [[creds|e] Ec]; rewrite Ec; [|done].
  unfold db_bind at 1. cbn [of_result db_ret]. fold running. intros Hrun Hne. destruct running as [|s0 r0]; [done|].
  revert Hrun. unfold db_bind at 1. rewrite Detected_healthy.
  unfold db_bind at 1, ReadManagedServersFromTargets. destruct (reads_targets (RelayURL creds) (map lawful (detected all dflt d)) [] d) as [[existing|e] Er]; rewrite Er; [|done].
  unfold db_bind at 1. rewrite LoadState_healthy. intros Hrun. by exists creds, existing.
Qed.

Lemma Run_from env_url env_key l lines d creds existing :
  let running := List.filter (λ s, sStatus s =?s "running") l in
  running ≠ [] → ResolveCredentials env_url env_key (mkDb d []) = (Ok creds, mkDb d []) →
  read_targets (RelayURL creds) (map lawful (detected all dflt d)) [] (mkDb d []) = (Ok existing, mkDb d []) →
  Run (map lawful all) dflt opts env_url env_key (Ok l) lines (mkDb d []) =
  reconcile opts creds (map lawful (detected all dflt d)) running existing (default ∅ (state d)) lines (mkDb d []).
Proof.
  intros running Hne Ec Er. unfold Run. unfold db_bind at 1. rewrite Ec. unfold db_bind at 1. cbn [of_result db_ret]. fold running.
  destruct running as [|s0 r0]; [done|]. unfold db_bind at 1. rewrite Detected_healthy. unfold db_bind at 1, ReadManagedServersFromTargets. rewrite Er.
  unfold db_bind at 1. by rewrite LoadState_healthy.
Qed.

(** After a write to the targets of a run, the next run works on the same ones. *)
Lemma detected_again d d2 :
  (∀ t : Lawful, t ∈ all → t ∉ detected all dflt d → project d2 !! ConfigFileName t = project d !! ConfigFileName t) →
  (∀ t : Lawful, t ∈ detected all dflt d → is_Some (project d2 !! ConfigFileName t)) →
  ∀ t, t ∈ detected all dflt d2 ↔ t ∈ detected all dflt d.
Proof.
  intros Hsame Hex t. split.
  - intros Ht. pose proof (detected_in _ _ _ _ Hdflt Ht) as Hall.
    destruct (decide (ConfigFileName t ∈ map (λ x : Lawful, ConfigFileName x) (detected all dflt d))) as [Hin|Hnot].
    + apply list_elem_of_fmap in Hin as (x & En & Hx). by rewrite (Hinj t x Hall (detected_in _ _ _ _ Hdflt Hx) En).
    + assert (Hn : t ∉ detected all dflt d) by (intros Hx; apply Hnot; apply list_elem_of_fmap; by exists t).
      destruct (detected_cases _ _ _ _ Ht) as [Hs|[-> Hnone]]; [apply detected_exists; [done|]; by rewrite <- Hsame|].
      exfalso. unfold detected in Hex, Hn. destruct (List.filter _ all) as [|y l] eqn:E; [apply Hn; by left|].
      apply (Hnone y); [|apply Hex; by left]. assert (Hy : y ∈ y :: l) by (by left). rewrite <- E, list_elem_of_In, filter_In, <- list_elem_of_In in Hy. apply Hy.
  - intros Ht. apply detected_exists; [by eapply detected_in|by apply Hex].
Qed.

Lemma creds_config env_url env_key d d2 creds :
  config d2 = config d → ResolveCredentials env_url env_key (mkDb d []) = (Ok creds, mkDb d []) →
  ResolveCredentials env_url env_key (mkDb d2 []) = (Ok creds, mkDb d2 []).
Proof.
  intros Hc. unfold ResolveCredentials, LoadConfig. case_if; [by intros [= <-]|]. unfold db_bind, query, exec. cbn. rewrite Hc.
  repeat (case_match; try done); intros [= <-]; done.
Qed.

Lemma Run_idle env_url env_key l lines d :
  List.filter (λ s, sStatus s =?s "running") l = [] →
  (∃ e, Run (map lawful all) dflt opts env_url env_key (Ok l) lines (mkDb d []) = (Err e, mkDb d [])) ∨
  Run (map lawful all) dflt opts env_url env_key (Ok l) lines (mkDb d []) = (Ok (mkResult [] [] []), mkDb d []).
Proof.
  intros E. unfold Run. unfold db_bind at 1 6. destruct (reads_creds env_url env_key d) as [[creds|e] ->]; [right|left; by exists e].
  unfold db_bind at 1. cbn [of_result db_ret]. by rewrite E.
Qed.

(** C24: An unattended sync that succeeds on a disk where nothing fails, with no
    rename pending, settles the project: running it again adds nothing, asks nothing and
    writes nothing, and every running server is configured or on the skip list. *)
Theorem sync_converges : ∀ env_url env_key l lines d r d',
  let running := List.filter (λ s, sStatus s =?s "running") l in
  (∀ a b, a ∈ running → b ∈ running → sID a = sID b → a = b) →
  names_settled (default ∅ (state d)) running →
  Run (map lawful all) dflt opts env_url env_key (Ok l) lines (mkDb d []) = (Ok r, d') →
  ∃ existed, Run (map lawful all) dflt opts env_url env_key (Ok l) lines d' = (Ok (mkResult [] [] existed), d') ∧
    ∀ s, s ∈ running → sName s ∈ existed ∨ IsSkipped (default ∅ (state (tables d'))) (ProjectDir opts) (sName s) = true.
Proof.
  intros env_url env_key l lines d r d' running Hid Hset Hrun.
  destruct (decide (running = [])) as [E0|Hne].
  { exists []. split; [|rewrite E0; set_solver]. destruct (Run_idle env_url env_key l lines d E0) as [[e Hi]|Hi]; rewrite Hi in Hrun; [done|].
    injection Hrun as _ <-. exact Hi. }
  destruct (Run_pieces _ _ _ _ _ _ _ Hrun Hne) as (creds & existing & Ec & Er & Hrec). fold running in Hrec.
  rewrite reconcile_settled in Hrec by done.
  destruct (new_servers (default ∅ (state d)) running (map msName existing)) as [|s0 l0] eqn:En.
  - injection Hrec as _ <-. exists (map msName existing). split.
    + rewrite (Run_from _ _ _ _ _ _ _ Hne Ec Er). fold running. rewrite reconcile_settled by done. by rewrite En.
    + intros s Hs. destruct (decide (sName s ∈ map msName existing)); [by left|]. destruct (IsSkipped _ _ _) eqn:Es; [by right|].
      assert (Hin : s ∈ new_servers (default ∅ (state d)) running (map msName existing)) by (by apply elem_of_new). rewrite En in Hin. by apply elem_of_nil in Hin.
  - rewrite <- En in Hrec. assert (Hnn : new_servers (default ∅ (state d)) running (map msName existing) ≠ []) by (by rewrite En). clear En s0 l0.
    set (new := new_servers _ running _) in *. destruct (finish_adds _ _ _ _ _ _ _ _ _ Hnn Hrec) as (d2 & Ew & ->).
    assert (Hurls : ∀ s, s ∈ map (managed (RelayURL creds)) new → HasPrefix (msURL s) (relayPrefix (RelayURL creds)) = true).
    { intros s Hs. apply list_elem_of_fmap in Hs as (x & -> & _). apply HasPrefix_iff. by exists (sName x). }
    destruct (each_write (RelayURL creds) all Hinj (APIKey creds) _ Hurls (detected all dflt d) d (mkDb d2 []) (λ t, detected_in _ _ _ t Hdflt) Ew)
      as (d2' & [= <-] & Hcfg & Hst & _ & Hhas & Hnew & Hread & Hsame & Hex & _).
    set (d3 := put_state _ d2). assert (Hp : project d3 = project d2) by done.
    pose proof (detected_again d d3 Hsame Hex) as Hdet.
    destruct (read_targets_ok (RelayURL creds) (detected all dflt d3) d3 []) as (ex2 & Er2 & Hex2); [intros t Ht; apply Hdet in Ht; by apply Hread|].
    destruct (tracked_all running new (default ∅ (state d)) Hid Hset) as [Hset2 Hskip2].
    pose proof (read_targets_ok (RelayURL creds) (detected all dflt d) d [] (read_targets_readable _ _ _ _ _ Er)) as (ex1 & Er1 & Hex1).
    assert (ex1 = existing) as -> by congruence.
    assert (Hknown : ∀ s, s ∈ running → sName s ∈ map msName ex2 ∨ IsSkipped (default ∅ (state d)) (ProjectDir opts) (sName s) = true).
    { intros s Hs. destruct (IsSkipped _ _ _) eqn:Es; [by right|left]. apply Hex2. right.
      destruct (decide (sName s ∈ map msName existing)) as [Hin|Hnin].
      - apply Hex1 in Hin as [Hin|(t & Ht & Hh)]; [by apply elem_of_nil in Hin|]. exists t. split; [by apply Hdet|]. apply Hhas; [by eapply detected_in|done].
      - destruct (detected all dflt d) as [|t ts] eqn:Edet; [exfalso; unfold detected in Edet; by destruct (List.filter _ all)|].
        exists t. split; [apply Hdet; by left|]. apply Hnew; [by left|]. apply list_elem_of_fmap. exists (managed (RelayURL creds) s). split; [done|].
        apply list_elem_of_fmap_2. by apply elem_of_new. }
    exists (map msName ex2). split; [|intros s Hs; destruct (Hknown s Hs); [by left|right; cbn; by rewrite Hskip2]].
    rewrite (Run_from _ _ _ _ _ _ _ Hne (creds_config _ _ d d3 _ Hcfg Ec) Er2). fold running. rewrite reconcile_settled by done.
    destruct (new_servers _ running (map msName ex2)) as [|s1 l1] eqn:E2; [done|]. exfalso.
    assert (Hs1 : s1 ∈ new_servers (default ∅ (state d3)) running (map msName ex2)) by (rewrite E2; by left).
    apply elem_of_new in Hs1 as (Hr1 & Hn1 & Hk1). destruct (Hknown s1 Hr1) as [|Hsk]; [done|]. cbn in Hk1. rewrite Hskip2 in Hk1. congruence.
Qed.
End Converge.

(** ** Dry runs *)
Section Dry.
Context (targets : list Target) (dflt : Target) (opts : Options) (Hdry : DryRun opts = true) (p : gmap string File).

Let kept (d : Disk) : Prop := project d = p.

Lemma dry_of_result {A} (r : result A) : preserves kept (of_result r).
Proof. destruct r; [apply preserves_ret|apply preserves_fail]. Qed.

Lemma dry_save st : preserves kept (SaveState st).
Proof. unfold SaveState. apply preserves_bind; [by apply preserves_update|]. intros ?. by apply preserves_update. Qed.

Lemma dry_reads relay ts seen : preserves kept (read_targets relay ts seen).
Proof.
  revert seen. induction ts as [|t ts IH]; intros seen; cbn [read_targets]; [apply preserves_ret|]. apply preserves_bind; [|intros; apply IH].
  unfold read_target, read_file. apply preserves_bind; [apply preserves_query|intros; apply dry_of_result].
Qed.

Lemma dry_detect ts : preserves kept (DetectTargets ts).
Proof.
  induction ts as [|t ts IH]; cbn [DetectTargets]; [apply preserves_ret|]. apply preserves_bind.
  - unfold Detect. apply preserves_bind; [apply preserves_attempt, preserves_query|intros; apply preserves_ret].
  - intros here. apply preserves_bind; [exact IH|intros; apply preserves_ret].
Qed.

Lemma dry_creds u k : preserves kept (ResolveCredentials u k).
Proof.
  unfold ResolveCredentials, LoadConfig. case_if; [apply preserves_ret|]. apply preserves_bind; [apply preserves_query|]. intros f.
  repeat (case_match; try apply preserves_ret; try apply preserves_fail).
Qed.

Lemma dry_reconcile creds ts running existing st lines : preserves kept (reconcile opts creds ts running existing st lines).
Proof.
  unfold reconcile. destruct (foldl _ _ _) as [[renames st1] names]. rewrite Hdry, andb_false_r.
  assert (Hsave : ∀ (b : bool) s, preserves kept (if b then SaveState s else db_ret tt)) by (intros [] s; [apply dry_save|apply preserves_ret]).
  apply preserves_bind; [apply preserves_ret|]. intros ?. destruct (List.filter _ _) as [|s l].
  - apply preserves_bind; [apply Hsave|intros; apply preserves_ret].
  - destruct (ask _ _ _ _ _ _) as [[toAdd skipped] st2]. unfold finish. rewrite Hdry. destruct toAdd; [|apply preserves_ret].
    apply preserves_bind; [apply Hsave|intros; apply preserves_ret].
Qed.

Lemma dry_Run u k servers lines : preserves kept (Run targets dflt opts u k servers lines).
Proof.
  unfold Run. apply preserves_bind; [apply dry_creds|]. intros creds. apply preserves_bind; [apply dry_of_result|]. intros l.
  destruct (List.filter _ l); [apply preserves_ret|].
  apply preserves_bind; [unfold DetectedTargetsOrDefault; apply preserves_bind; [apply dry_detect|intros; apply preserves_ret]|]. intros ts.
  apply preserves_bind; [apply dry_reads|]. intros existing.
  apply preserves_bind; [unfold LoadState; apply preserves_bind; [apply preserves_attempt, preserves_query|intros; apply preserves_ret]|].
  intros st. apply dry_reconcile.
Qed.
End Dry.

(** A dry run never touches a configuration file of the project,
    whatever the relay lists, the user answers, and whichever system calls fail. *)
Theorem dry_run_keeps_project targets dflt opts env_url env_key servers lines d :
  DryRun opts = true → project (final (Run targets dflt opts env_url env_key servers lines) d) = project (tables d).
Proof. intros Hdry. by apply (dry_Run targets dflt opts Hdry (project (tables d))). Qed.

(** ** Runs *)

Definition keep_order (l : list ManagedServer) : list ManagedServer := l.

Lemma keep_order_perm l : keep_order l ≡ₚ l.
Proof. done. Qed.

(** The two targets of the program. *)
Definition tools : list Lawful := lawful_targets keep_order keep_order_perm.

Definition claude_tool : Lawful := mkLawful (ClaudeCodeTarget keep_order) (claude_ok keep_order keep_order_perm).

Definition sync_project (dry : bool) (running : list (string * string)) : SM Result :=
  Run (map lawful tools) claude_tool (mkOptions "/work" true dry) "https://relay" "key"
    (Ok (map (λ s, mkServer s.1 s.2 "running") running)) [].

Lemma tools_distinct (t t' : Lawful) : t ∈ tools → t' ∈ tools → ConfigFileName t = ConfigFileName t' → t = t'.
Proof.
  unfold tools, lawful_targets. rewrite !elem_of_cons, !elem_of_nil. intros [->|[->|[]]] [->|[->|[]]]; done.
Qed.

Definition mcp_file (servers : list (string * json)) : File := FJson (JObj [("mcpServers", JObj servers)]).

(** A project with an entry of the relay and one of the user's own, and a server renamed
    since the last sync. *)
Definition old_project : Disk :=
  mkDisk {[".mcp.json" := mcp_file [("old", claude_entry "key" (mkServer_ "old" "https://relay/mcp/old" "")); ("mine", JObj [("command", JStr "npx")])]]} None
    (Some {["/work" := mkProject [] {["id1" := "old"]}]}).

Definition servers_in (d : Disk) : list string := map fst (map_to_list (claude_table (project d !! ".mcp.json"))).

(** A dry run over a pending rename writes the state file, after which
    the rename is forgotten: the next real run leaves the entry of the old name in place
    and adds the server under its new name, while a real run without the dry run replaces it. *)
Theorem dry_run_loses_rename :
  let dry := final (sync_project true [("id1", "new")]) (mkDb old_project []) in
  state dry ≠ state old_project ∧
  "old" ∈ servers_in (final (sync_project false [("id1", "new")]) (mkDb dry [])) ∧
  "new" ∈ servers_in (final (sync_project false [("id1", "new")]) (mkDb dry [])) ∧
  "old" ∉ servers_in (final (sync_project false [("id1", "new")]) (mkDb old_project [])) ∧
  "new" ∈ servers_in (final (sync_project false [("id1", "new")]) (mkDb old_project [])).
Proof.
  cbv zeta. split_and!.
  - intros E. apply (f_equal (λ s, GetTrackedName (default ∅ s) "/work" "id1")) in E. vm_compute in E. done.
  - by apply (bool_decide_unpack _); vm_compute.
  - by apply (bool_decide_unpack _); vm_compute.
  - by apply (bool_decide_unpack _); vm_compute.
  - by apply (bool_decide_unpack _); vm_compute.
Qed.

(** When a running server has the name of an entry the user wrote by
    hand, an unattended sync replaces that entry. *)
Theorem own_entry_overwritten :
  claude_table (project old_project !! ".mcp.json") !! "mine" = Some (JObj [("command", JStr "npx")]) ∧
  claude_table (project (final (sync_project false [("id2", "mine")]) (mkDb old_project [])) !! ".mcp.json") !! "mine" =
    Some (claude_entry "key" (mkServer_ "mine" "https://relay/mcp/mine" "")).
Proof. split; vm_compute; reflexivity. Qed.

(** Adding a server to a [.mcp.json] whose [mcpServers] is [null] assigns
    to a nil map: the process panics. *)
Theorem null_servers_crash key s servers l :
  to_map l !! "mcpServers" = Some JNull → claude_write key (s :: servers) (Some (FJson (JObj l))) = Err panic_nil_map.
Proof. intros E. cbn. unfold claude_put, claude_servers. cbn [mbind option_bind]. by rewrite E. Qed.

Lemma null_servers_crash_witness :
  claude_write "k" [mkServer_ "a" "https://relay/mcp/a" ""] (Some (FJson (JObj [("mcpServers", JNull)]))) = Err panic_nil_map.
Proof. apply (null_servers_crash "k" (mkServer_ "a" "https://relay/mcp/a" "") [] [("mcpServers", JNull)]). vm_compute. reflexivity. Defined.

Lemma dry_run_keeps_project_witness :
  project (final (sync_project true [("id1", "new")]) (mkDb old_project [true])) = project old_project.
Proof. apply (dry_run_keeps_project (map lawful tools) claude_tool (mkOptions "/work" true true)). reflexivity. Defined.

Lemma sync_keeps_foreign_witness :
  held claude_tool (project (final (sync_project false [("id1", "new")]) (mkDb old_project [])) !! ".mcp.json") "mine" =
    held claude_tool (project old_project !! ".mcp.json") "mine" ∧
  ∀ k, beside claude_tool (project (final (sync_project false [("id1", "new")]) (mkDb old_project [])) !! ".mcp.json") k =
       beside claude_tool (project old_project !! ".mcp.json") k.
Proof.
  apply (sync_keeps_foreign tools claude_tool ltac:(by left) (mkOptions "/work" true false) tools_distinct "https://relay" "key"
    (Ok [mkServer "id1" "new" "running"]) [] old_project claude_tool "mine"); [by left|].
  intros [Hn|(s & Hs & Hn)].
  - cbn in Hn. apply list_elem_of_singleton in Hn. done.
  - cbn in Hs. apply list_elem_of_singleton in Hs. subst s. vm_compute in Hn. done.
Defined.

Lemma sync_converges_witness :
  ∃ r d', sync_project false [("id2", "new")] (mkDb old_project []) = (Ok r, d') ∧ Added r = ["new"] ∧
    ∃ existed, sync_project false [("id2", "new")] d' = (Ok (mkResult [] [] existed), d') ∧
      ∀ s, s ∈ [mkServer "id2" "new" "running"] → sName s ∈ existed ∨ IsSkipped (default ∅ (state (tables d'))) "/work" (sName s) = true.
Proof.
  destruct (sync_project false [("id2", "new")] (mkDb old_project [])) as [r d'] eqn:E.
  assert (Hr : match r with Ok r => Added r | Err _ => [] end = ["new"]) by (apply (f_equal fst) in E; cbn [fst] in E; rewrite <- E; vm_compute; reflexivity).
  destruct r as [r|e]; [|done]. exists r, d'. split; [done|]. split; [done|].
  apply (sync_converges tools claude_tool ltac:(by left) (mkOptions "/work" true false) tools_distinct eq_refl eq_refl "https://relay" "key"
    [mkServer "id2" "new" "running"] [] old_project r d').
  - cbn. intros a b Ha Hb _. apply list_elem_of_singleton in Ha, Hb. by subst.
  - intros s Hs. cbn in Hs. apply list_elem_of_singleton in Hs. subst s. left. vm_compute. reflexivity.
  - exact E.
Defined.
