(* ===== verification/ProjectRoot.v ===== *)
(** * The root of a project

    [DetectProjectDir] and [isHomeDir] of [src/internal/cli/project/detect.go], and the check of
    [src/internal/cli/safety/gitignore.go].  A directory is its path components, the last one
    first; which paths exist is a parameter. *)
From S2P Require Import Prelude GoStrings.

Section Root.
Context (exists_ : list string → bool) (home : option (list string)).

Definition projectMarkers : list string := [".mcp.json"; ".codex"; ".git"].

Definition secondaryMarkers : list string := [".claude"].

(** [filepath.Base] of a directory. *)
Definition base_of (dir : list string) : string := match dir with c :: _ => c | [] => "/" end.

(** The user's home, or a directory below [home] or [Users]. *)
Definition isHomeDir (dir : list string) : bool :=
  if bool_decide (home = Some dir) then true
  else
    let parentBase := base_of (tail dir) in
    (parentBase =?s "home") || (parentBase =?s "Users").

Definition has_marker (dir : list string) : bool :=
  existsb (λ m, exists_ (m :: dir)) projectMarkers || (negb (isHomeDir dir) && existsb (λ m, exists_ (m :: dir)) secondaryMarkers).

Fixpoint walk_up (dir : list string) : option (list string) :=
  if has_marker dir then Some dir
  else match dir with
       | [] => None
       | _ :: parent => walk_up parent
       end.

Definition DetectProjectDir (start : list string) : list string := default start (walk_up start).

Lemma suffix_cons_cases (d : list string) c parent : d `suffix_of` c :: parent → d = c :: parent ∨ d `suffix_of` parent.
Proof. destruct d as [|x d]; [right; apply suffix_nil|apply suffix_cons_inv]. Qed.

(** The directories from [start] upwards are its suffixes. *)
Lemma walk_up_Some start dir :
  walk_up start = Some dir →
  dir `suffix_of` start ∧ has_marker dir = true ∧ ∀ d, d `suffix_of` start → has_marker d = true → d `suffix_of` dir.
Proof.
  induction start as [|c parent IH]; cbn [walk_up].
  - destruct (has_marker []) eqn:E; [|done]. intros [= <-]. split; [done|]. split; [done|]. by intros d Hd _.
  - destruct (has_marker (c :: parent)) eqn:E.
    + intros [= <-]. split; [done|]. split; [done|]. by intros d Hd _.
    + intros Hw. destruct (IH Hw) as (Hs & Hm & Hn). split; [by apply suffix_cons_r|]. split; [done|].
      intros d Hd Hdm. apply suffix_cons_cases in Hd as [->|Hd]; [congruence|by apply Hn].
Qed.

Lemma walk_up_None start : walk_up start = None → ∀ d, d `suffix_of` start → has_marker d = false.
Proof.
  induction start as [|c parent IH]; cbn [walk_up].
  - destruct (has_marker []) eqn:E; [done|]. intros _ d Hd. by apply suffix_nil_inv in Hd as ->.
  - destruct (has_marker (c :: parent)) eqn:E; [done|]. intros Hw d Hd. apply suffix_cons_cases in Hd as [->|Hd]; [done|by apply IH].
Qed.

(** The directory found is the start or above it; either it has a
    marker and every marked directory on the way up is it or lies above it, or nothing on
    the way up has one and it is the start. *)
Theorem project_root_is_nearest start :
  let dir := DetectProjectDir start in
  dir `suffix_of` start ∧
  ((has_marker dir = true ∧ ∀ d, d `suffix_of` start → has_marker d = true → d `suffix_of` dir) ∨
   (dir = start ∧ ∀ d, d `suffix_of` start → has_marker d = false)).
Proof.
  cbv zeta. unfold DetectProjectDir. destruct (walk_up start) as [dir|] eqn:E; cbn.
  - destruct (walk_up_Some _ _ E) as (Hs & Hm & Hn). split; [done|]. by left.
  - split; [done|]. right. split; [done|]. by apply walk_up_None.
Qed.
End Root.

(** ** Ignored files

    Lines are those of [bufio.Scanner], within its limit on their length. *)

Definition trimmed_lines (content : string) : list string := map TrimSpace (Split content "010"%char).

Definition isInGitignore (content filename : string) : bool :=
  existsb (λ line, negb ((line =?s "") || HasPrefix line "#") && ((line =?s filename) || (line =?s "/" +:+ filename) || (line =?s filename +:+ "/")))
    (trimmed_lines content).

Inductive Warning := NotARepo | NoGitignore | Ignored | NotIgnored.

(** [None] is no [.gitignore]. *)
Definition CheckGitignore (repo : bool) (gitignore : option string) (filename : string) : Warning :=
  if negb repo then NotARepo
  else match gitignore with
       | None => NoGitignore
       | Some content => if isInGitignore content filename then Ignored else NotIgnored
       end.

(** A directory pattern that covers the Codex configuration is not recognised. *)
Lemma codex_directory_not_seen : CheckGitignore true (Some ".codex/") ".codex/config.toml" = NotIgnored.
Proof. reflexivity. Qed.
