(* ===== verification/Activity.v ===== *)
(** * The dashboard and its activity feed

    [src/internal/web/dashboard_activity.go] and [handleDashboard] of
    [src/internal/web/handlers.go]: the landing page, which reads the stores of skills,
    recipes, servers and users. *)
From S2P Require Import Prelude GoStrings AccessTiers Crypto Profiles Users WebAuth Servers Skills Recipes SkillService SkillsApi.

(** ** The tables behind the page *)

Record Catalogue := mkCatalogue {
  people : Users.State;
  skill_rows : gmap string Skill;
  version_rows : gmap (string * string) SkillVersion;
  assignment_rows : gmap (string * string) SkillAssignment;
  upstream_rows : gmap string SkillUpstream;
  recipe_rows : gmap string SetupRecipe;
  grant_rows : gmap (string * string) SetupRecipeAssignment;
  server_rows : Servers.State }.

(** Each store sees its tables and the accounts they refer to. *)
Definition skills_of (c : Catalogue) : Skills.State :=
  Skills.mkState (people c) (skill_rows c) (version_rows c) (assignment_rows c) (upstream_rows c).

Definition recipes_of (c : Catalogue) : Recipes.State := Recipes.mkState (people c) (recipe_rows c) (grant_rows c).

Definition put_skills (s : Skills.State) (c : Catalogue) : Catalogue :=
  mkCatalogue (Skills.accounts s) (Skills.skills s) (Skills.versions s) (Skills.assignments s) (Skills.upstreams s)
    (recipe_rows c) (grant_rows c) (server_rows c).

Definition put_recipes (s : Recipes.State) (c : Catalogue) : Catalogue :=
  mkCatalogue (Recipes.accounts s) (skill_rows c) (version_rows c) (assignment_rows c) (upstream_rows c)
    (Recipes.recipes s) (Recipes.grants s) (server_rows c).

Definition put_people (s : Users.State) (c : Catalogue) : Catalogue :=
  mkCatalogue s (skill_rows c) (version_rows c) (assignment_rows c) (upstream_rows c) (recipe_rows c) (grant_rows c) (server_rows c).

Definition put_servers (s : Servers.State) (c : Catalogue) : Catalogue :=
  mkCatalogue (people c) (skill_rows c) (version_rows c) (assignment_rows c) (upstream_rows c) (recipe_rows c) (grant_rows c) s.

Definition on_skills {A} (m : DBM Skills.State A) : DBM Catalogue A := lift_db skills_of put_skills m.
Definition on_recipes {A} (m : DBM Recipes.State A) : DBM Catalogue A := lift_db recipes_of put_recipes m.
Definition on_people {A} (m : DBM Users.State A) : DBM Catalogue A := lift_db people put_people m.
Definition on_servers {A} (m : DBM Servers.State A) : DBM Catalogue A := lift_db server_rows put_servers m.

(** ** The feed *)

Record ActivityEvent := mkEvent {
  Kind : string; Timestamp : Z; Actor : string; Subject : string; URL : string; Severity : string;
  SkillID : string; RecipeID : string; UserID : string }.

Definition Pill (e : ActivityEvent) : string :=
  let k := Kind e in
  if k =?s "skill_published" then "📦"
  else if k =?s "skill_yanked" then "🚫"
  else if k =?s "skill_drift" then "⚠️"
  else if k =?s "skill_assigned" then "🔑"
  else if k =?s "recipe_published" then "📋"
  else if k =?s "recipe_yanked" then "🚫"
  else if k =?s "recipe_assigned" then "🔑"
  else if k =?s "user_joined" then "👤"
  else if k =?s "key_issued" then "🗝️"
  else "".

(** A source whose failure leaves its events out. *)
Definition events_of {R} (m : DBM Catalogue (list R)) (f : R → option ActivityEvent) : DBM Catalogue (list ActivityEvent) :=
  let! r := attempt m in
  db_ret (match r with Ok rows => omap f rows | Err _ => [] end).

(** The ids of a list whose failure leaves it empty. *)
Definition ids_of {R} (m : DBM Catalogue (list R)) (id : R → string) : DBM Catalogue (gset string) :=
  let! r := attempt m in
  db_ret (match r with Ok rows => list_to_set (map id rows) | Err _ => ∅ end).

Section Feed.
(** The order [sort.Slice] leaves events of the same time in, and the time 30 days ago in
    the server's zone. *)
Context (shuffle : list ActivityEvent → list ActivityEvent) (since : Z).

(** [!isAdmin && r.Visibility != "public" && !ids[id]] skips the row. *)
Definition shown (isAdmin : bool) (visibility : string) (ids : gset string) (id : string) : bool :=
  isAdmin || (visibility =?s "public") || bool_decide (id ∈ ids).

Definition skill_published (isAdmin : bool) (ids : gset string) (r : RecentSkillVersionRow) : option ActivityEvent :=
  if shown isAdmin (rvVisibility r) ids (rvSkillID r)
  then Some (mkEvent "skill_published" (rvUploadedAt r) (default "" (rvUploadedBy r)) (rvSlug r +:+ "@" +:+ rvVersion r)
               ("/skills/" +:+ rvSlug r) "" (rvSkillID r) "" "")
  else None.

Definition skill_yanked (isAdmin : bool) (ids : gset string) (r : RecentSkillYankRow) : option ActivityEvent :=
  if shown isAdmin (ryVisibility r) ids (ryID r)
  then Some (mkEvent "skill_yanked" (ryYankedAt r) "" (rySlug r) ("/skills/" +:+ rySlug r) "" (ryID r) "" "")
  else None.

Definition skill_drift (isAdmin : bool) (ids : gset string) (r : RecentDriftRow) : option ActivityEvent :=
  if shown isAdmin (rdVisibility r) ids (rdSkillID r)
  then Some (mkEvent "skill_drift" (rdDriftAt r) "" (rdSlug r) ("/skills/" +:+ rdSlug r) (default "" (rdSeverity r))
               (rdSkillID r) "" "")
  else None.

Definition skill_assigned (isAdmin : bool) (viewer : User) (r : RecentSkillAssignmentRow) : option ActivityEvent :=
  if isAdmin || (raUserID r =?s uID viewer)
  then Some (mkEvent "skill_assigned" (raAssignedAt r) "" (raSlug r) ("/skills/" +:+ raSlug r) "" (raSkillID r) "" (raUserID r))
  else None.

Definition recipe_published (isAdmin : bool) (ids : gset string) (r : RecentRecipeRow) : option ActivityEvent :=
  if shown isAdmin (rrVisibility r) ids (rrID r)
  then Some (mkEvent "recipe_published" (rrCreatedAt r) (default "" (rrCreatedBy r)) (rrSlug r) ("/recipes/" +:+ rrSlug r) ""
               "" (rrID r) "")
  else None.

Definition recipe_yanked (isAdmin : bool) (ids : gset string) (r : RecentRecipeYankRow) : option ActivityEvent :=
  if shown isAdmin (rkVisibility r) ids (rkID r)
  then Some (mkEvent "recipe_yanked" (rkYankedAt r) "" (rkSlug r) ("/recipes/" +:+ rkSlug r) "" "" (rkID r) "")
  else None.

Definition recipe_assigned (isAdmin : bool) (viewer : User) (r : RecentRecipeAssignmentRow) : option ActivityEvent :=
  if isAdmin || (rgUserID r =?s uID viewer)
  then Some (mkEvent "recipe_assigned" (rgAssignedAt r) "" (rgSlug r) ("/recipes/" +:+ rgSlug r) "" "" (rgID r) (rgUserID r))
  else None.

Definition user_joined (r : string * string * Z) : option ActivityEvent :=
  let '(id, username, at_) := r in Some (mkEvent "user_joined" at_ username username "/users" "" "" "" id).

Definition key_issued (r : APIKey * string) : option ActivityEvent :=
  let '(k, username) := r in Some (mkEvent "key_issued" (kCreatedAt k) username (kName k) "/users" "" "" "" (kUserID k)).

(** The per-source limit. *)
Definition fetch_limit (limit : Z) : Z := if (limit * 10 <? 100)%Z then 100 else (limit * 10)%Z.

(** Newer events first. *)
Definition later (a b : ActivityEvent) : bool := (Timestamp b <=? Timestamp a)%Z.

Definition buildActivityFeed (viewer : User) (limit : Z) : DBM Catalogue (list ActivityEvent) :=
  if (limit <=? 0)%Z then db_ret []
  else
    let fetch := fetch_limit limit in
    let isAdmin := is_admin viewer in
    let! skillIDs := if isAdmin then db_ret ∅ else ids_of (on_skills (Skills.AssignedForUser (uID viewer))) (λ a, skID (asSkill a)) in
    let! recipeIDs := if isAdmin then db_ret ∅ else ids_of (on_recipes (Recipes.AssignedForUser (uID viewer))) rcID in
    let! e1 := events_of (on_skills (RecentSkillVersions fetch since)) (skill_published isAdmin skillIDs) in
    let! e2 := events_of (on_skills (RecentSkillYanks fetch since)) (skill_yanked isAdmin skillIDs) in
    let! e3 := events_of (on_skills (RecentDrift fetch since)) (skill_drift isAdmin skillIDs) in
    let! e4 := events_of (on_skills (RecentSkillAssignments fetch since)) (skill_assigned isAdmin viewer) in
    let! e5 := events_of (on_recipes (RecentRecipes fetch since)) (recipe_published isAdmin recipeIDs) in
    let! e6 := events_of (on_recipes (RecentRecipeYanks fetch since)) (recipe_yanked isAdmin recipeIDs) in
    let! e7 := events_of (on_recipes (RecentRecipeAssignments fetch since)) (recipe_assigned isAdmin viewer) in
    let! e8 := if isAdmin then events_of (on_people (RecentUsers fetch since)) user_joined else db_ret [] in
    let! e9 := if isAdmin then events_of (on_people (RecentAPIKeys fetch since)) key_issued else db_ret [] in
    let events := e1 ++ e2 ++ e3 ++ e4 ++ e5 ++ e6 ++ e7 ++ e8 ++ e9 in
    db_ret (take (Z.to_nat limit) (stable_sort later (shuffle events))).

(** ** The page *)

(** Totals of a tile: all, public, the rest. *)
Definition tally {A} (vis : A → string) (l : list A) : nat * nat * nat :=
  (length l, length (List.filter (λ a, vis a =?s "public") l), length (List.filter (λ a, vis a !=? "public") l)).

Record Dashboard := mkDashboard {
  IsAdmin : bool; SkillTile : nat * nat * nat; RecipeTile : nat * nat * nat;
  ServerTotal : nat; ServersRunning : nat; ServersError : nat; ServersStopped : nat;
  DevicesTotal : Z; DevicesActive : Z; Feed : list ActivityEvent }.

Definition dropped {A} (m : DBM Catalogue A) (zero : A) : DBM Catalogue A :=
  let! r := attempt m in db_ret (match r with Ok a => a | Err _ => zero end).

Definition count_status (p : string → bool) (l : list Server) : nat := length (List.filter (λ s, p (Status s)) l).

(** [None] is the answer to any other path: not found. *)
Definition handleDashboard (crypto : ConfigEncryptor) (now : Z) (path : string) (user : User) : DBM Catalogue (option Dashboard) :=
  if path !=? "/" then db_ret None
  else
    let isAdmin := is_admin user in
    let! sk := if isAdmin
               then let! l := dropped (on_skills ListSkills) [] in
                    db_ret (List.filter (λ k, bool_decide (skYankedAt k = None)) l)
               else let! l := dropped (on_skills (Skills.AssignedForUser (uID user))) [] in db_ret (map asSkill l) in
    let! rc := if isAdmin
               then let! l := dropped (on_recipes ListRecipes) [] in
                    db_ret (List.filter (λ r, bool_decide (rcYankedAt r = None)) l)
               else dropped (on_recipes (Recipes.AssignedForUser (uID user))) [] in
    let! all := dropped (on_servers (ListServers crypto)) [] in
    let! ids := on_people (accessibleServers user (map ID all)) in
    let servers := List.filter (λ s, bool_decide (ID s ∈ ids)) all in
    let! devices := if isAdmin then dropped (on_people (CountActiveAPIKeys now hour)) (0, 0)%Z else db_ret (0, 0)%Z in
    let! feed := buildActivityFeed user 50 in
    db_ret (Some (mkDashboard isAdmin (tally skVisibility sk) (tally rcVisibility rc)
      (length servers) (count_status (λ s, s =?s "running") servers)
      (count_status (λ s, (s !=? "running") && (s !=? "stopped")) servers) (count_status (λ s, s =?s "stopped") servers)
      devices.1 devices.2 feed)).
End Feed.

(** ** Reading *)

(** Whatever fails, the program returns something satisfying [P] and changes nothing. *)
Definition shows {A} (c : Catalogue) (m : DBM Catalogue A) (P : A → Prop) : Prop :=
  ∀ fs, ∃ a fs', m (mkDb c fs) = (Ok a, mkDb c fs') ∧ P a.

Lemma shows_ret {A} c (a : A) (P : A → Prop) : P a → shows c (db_ret a) P.
Proof. intros Hp fs. by exists a, fs. Qed.

Lemma shows_bind {A B} c (m : DBM Catalogue A) (k : A → DBM Catalogue B) (P : A → Prop) (Q : B → Prop) :
  shows c m P → (∀ a, P a → shows c (k a) Q) → shows c (db_bind m k) Q.
Proof.
  intros Hm Hk fs. destruct (Hm fs) as (a & fs1 & E & Ha). destruct (Hk a Ha fs1) as (b & fs2 & E' & Hb).
  exists b, fs2. split; [|done]. unfold db_bind. by rewrite E.
Qed.

Lemma shows_impl {A} c (m : DBM Catalogue A) (P Q : A → Prop) : shows c m P → (∀ a, P a → Q a) → shows c m Q.
Proof. intros Hm HPQ fs. destruct (Hm fs) as (a & fs' & E & Ha). eauto. Qed.

(** A query of one store, attempted. *)
Lemma shows_attempt {S A} (get : Catalogue → S) (put : S → Catalogue → Catalogue) (f : S → A) c :
  put (get c) c = c → shows c (attempt (lift_db get put (query f))) (λ r, ∀ a, r = Ok a → a = f (get c)).
Proof.
  intros Hp fs. unfold attempt, lift_db, query, exec. cbn. destruct (next_fault fs) as [[] fs1]; cbn; rewrite Hp; eexists _, _; (split; [done|]).
  - by intros a [=].
  - by intros a [= <-].
Qed.

Lemma shows_events {S R} (get : Catalogue → S) (put : S → Catalogue → Catalogue) (f : S → list R) (g : R → option ActivityEvent) (P : ActivityEvent → Prop) c :
  put (get c) c = c → (∀ r e, r ∈ f (get c) → g r = Some e → P e) → shows c (events_of (lift_db get put (query f)) g) (Forall P).
Proof.
  intros Hp HP. unfold events_of. eapply shows_bind; [by apply shows_attempt|]. intros [l|e] Hl; apply shows_ret; [|constructor].
  rewrite (Hl l eq_refl). apply Forall_forall. intros e (r & Hr & Hg)%list_elem_of_omap. by eapply HP.
Qed.

Lemma shows_ids {S R} (get : Catalogue → S) (put : S → Catalogue → Catalogue) (f : S → list R) (id : R → string) (P : string → Prop) c :
  put (get c) c = c → (∀ r, r ∈ f (get c) → P (id r)) → shows c (ids_of (lift_db get put (query f)) id) (set_Forall P).
Proof.
  intros Hp HP. unfold ids_of. eapply shows_bind; [by apply shows_attempt|]. intros [l|e] Hl; apply shows_ret; [|by apply set_Forall_empty].
  rewrite (Hl l eq_refl). intros i Hi. apply elem_of_list_to_set, list_elem_of_fmap in Hi as (r & -> & Hr). by apply HP.
Qed.

Lemma put_skills_of c : put_skills (skills_of c) c = c.
Proof. by destruct c. Qed.

Lemma put_recipes_of c : put_recipes (recipes_of c) c = c.
Proof. by destruct c. Qed.

Lemma put_people_of c : put_people (people c) c = c.
Proof. by destruct c. Qed.

Lemma put_servers_of c : put_servers (server_rows c) c = c.
Proof. by destruct c. Qed.

#[local] Hint Resolve put_skills_of put_recipes_of put_people_of put_servers_of : relay.

Lemma elem_of_newest {A} limit (at_ : A → Z) l x : x ∈ newest limit at_ l → x ∈ l.
Proof.
  unfold newest, sql_limit. case_if; [by rewrite elem_of_stable_sort|]. intros H%elem_of_take. destruct H as (i & H & _).
  apply list_elem_of_lookup_2 in H. by rewrite elem_of_stable_sort in H.
Qed.

Lemma take_sorted {A} (R : relation A) n l : StronglySorted R l → StronglySorted R (take n l).
Proof.
  intros Hl. revert n. induction Hl as [|x l Hl IH Hx]; intros [|n]; cbn; [constructor..|]. constructor; [apply IH|by apply Forall_take].
Qed.

(** The feed is sorted. *)
Lemma sorted_later l : StronglySorted (λ a b, Timestamp b ≤ Timestamp a)%Z (stable_sort later l).
Proof.
  assert (H : StronglySorted (leb_rel later) (stable_sort later l)).
  { apply stable_sort_sorted; unfold later; intros; rewrite ?Z.leb_le in *; lia. }
  induction H as [|x r H IH Hx]; constructor; [done|]. eapply Forall_impl; [exact Hx|]. intros y Hy. by apply Z.leb_le.
Qed.

(** ** Who sees what *)
Section Scope.
Context (c : Catalogue) (Hsk : Skills.wf (skills_of c)) (Hrc : Recipes.wf (recipes_of c)) (viewer : User).

Definition open_skill (id : string) : Prop :=
  ∃ k, skill_rows c !! id = Some k ∧ (skVisibility k = "public" ∨ is_Some (assignment_rows c !! (id, uID viewer))).

Definition open_recipe (id : string) : Prop :=
  ∃ r, recipe_rows c !! id = Some r ∧ (rcVisibility r = "public" ∨ is_Some (grant_rows c !! (id, uID viewer))).

(** What a viewer who is no administrator may be told. *)
Definition may_see (e : ActivityEvent) : Prop :=
  Kind e ≠ "user_joined" ∧ Kind e ≠ "key_issued" ∧
  (SkillID e ≠ "" → open_skill (SkillID e)) ∧ (RecipeID e ≠ "" → open_recipe (RecipeID e)) ∧
  (UserID e = "" ∨ UserID e = uID viewer).

(** The ids the assigned lists give. *)
Definition assigned_skill_id (id : string) : Prop := open_skill id ∧ ∀ k, skill_rows c !! id = Some k → skYankedAt k = None.
Definition assigned_recipe_id (id : string) : Prop := open_recipe id ∧ ∀ r, recipe_rows c !! id = Some r → rcYankedAt r = None.

Lemma shows_skill_ids :
  shows c (ids_of (on_skills (Skills.AssignedForUser (uID viewer))) (λ a, skID (asSkill a))) (set_Forall assigned_skill_id).
Proof.
  apply shows_ids; [auto with relay|]. intros a Ha. rewrite elem_of_stable_sort in Ha. apply list_elem_of_omap in Ha as (k & Hk & E).
  apply list_elem_of_fmap in Hk as ([id k'] & -> & Hin%elem_of_map_to_list). cbn in E, Hin |- *.
  destruct (Skills.wf_skills _ Hsk id k' Hin) as (Hid & _). unfold assigned_row in E. destruct (_ && _) eqn:Ev; [|done]. simplify_eq. cbn.
  apply andb_true_iff in Ev as [Ey Ev]. apply bool_decide_eq_true in Ey. rewrite orb_true_iff, String.eqb_eq, bool_decide_eq_true in Ev.
  split; [by exists k'|]. intros k Hk. by simplify_eq.
Qed.

Lemma shows_recipe_ids :
  shows c (ids_of (on_recipes (Recipes.AssignedForUser (uID viewer))) rcID) (set_Forall assigned_recipe_id).
Proof.
  apply shows_ids; [auto with relay|]. intros r Hr. rewrite elem_of_stable_sort, list_elem_of_In, filter_In, <- list_elem_of_In in Hr.
  destruct Hr as [Hr Ev]. apply list_elem_of_fmap in Hr as ([id r'] & -> & Hin%elem_of_map_to_list). cbn in Ev, Hin |- *.
  destruct (Recipes.wf_recipes _ Hrc id r' Hin) as (Hid & _). unfold Recipes.recipe_assigned in Ev.
  apply andb_true_iff in Ev as [Ey Ev]. apply bool_decide_eq_true in Ey. rewrite orb_true_iff, String.eqb_eq, bool_decide_eq_true in Ev.
  cbn in Ev. subst id. split; [by exists r'|]. intros k Hk. by simplify_eq.
Qed.

(** Yanks reach a viewer only for public items: the assigned lists leave yanked ones out. *)
Definition told (e : ActivityEvent) : Prop :=
  may_see e ∧
  (Kind e = "skill_yanked" → ∃ k, skill_rows c !! SkillID e = Some k ∧ skVisibility k = "public") ∧
  (Kind e = "recipe_yanked" → ∃ r, recipe_rows c !! RecipeID e = Some r ∧ rcVisibility r = "public").

Lemma shown_open_skill ids id k : set_Forall assigned_skill_id ids → skill_rows c !! id = Some k →
  shown false (skVisibility k) ids id = true →
  open_skill id ∧ (skYankedAt k ≠ None → skVisibility k = "public").
Proof.
  intros Hids Hk [Hp|Hin]%orb_true_iff; cbn in *; bool_prop; [split; [exists k; auto|done]|].
  destruct (Hids id Hin) as [Ho Hy]. split; [done|]. by rewrite (Hy k Hk).
Qed.

Lemma shown_open_recipe ids id r : set_Forall assigned_recipe_id ids → recipe_rows c !! id = Some r →
  shown false (rcVisibility r) ids id = true →
  open_recipe id ∧ (rcYankedAt r ≠ None → rcVisibility r = "public").
Proof.
  intros Hids Hr [Hp|Hin]%orb_true_iff; cbn in *; bool_prop; [split; [exists r; auto|done]|].
  destruct (Hids id Hin) as [Ho Hy]. split; [done|]. by rewrite (Hy r Hr).
Qed.

(** A row of a source, with the rows it was joined from. *)
Ltac source_row :=
  apply shows_events; [auto with relay|]; intros r e Hr; cbn [skills_of recipes_of Skills.skills Skills.versions Skills.upstreams
    Skills.assignments Recipes.recipes Recipes.grants] in Hr;
  let key := fresh "key" in let row := fresh "row" in
  apply elem_of_newest, list_elem_of_omap in Hr as ([key row] & Hrow%elem_of_map_to_list & Hr);
  repeat match goal with
  | E : (_ ≫= _) = Some _ |- _ => apply bind_Some in E as (? & ? & E)
  | E : (if ?b then _ else _) = Some _ |- _ => destruct b eqn:?; [injection E as <-|discriminate E]
  end.

Lemma shows_published ids fetch since : set_Forall assigned_skill_id ids →
  shows c (events_of (on_skills (RecentSkillVersions fetch since)) (skill_published false ids)) (Forall told).
Proof.
  intros Hids. source_row. rename x into k, H into Hk. destruct (Skills.wf_skills _ Hsk _ _ Hk) as (Hid & _).
  unfold skill_published. cbn [rvVisibility rvSkillID]. destruct (shown _ _ _ _) eqn:Es; [|done]. intros [= <-].
  rewrite Hid in *. destruct (shown_open_skill ids _ k Hids Hk Es) as [Ho _]. split; [|done]. by split_and!; try left.
Qed.

Lemma shows_yanked ids fetch since : set_Forall assigned_skill_id ids →
  shows c (events_of (on_skills (RecentSkillYanks fetch since)) (skill_yanked false ids)) (Forall told).
Proof.
  intros Hids. source_row. rename H into Hy. destruct (Skills.wf_skills _ Hsk _ _ Hrow) as (Hid & _).
  unfold skill_yanked. cbn [ryVisibility ryID]. destruct (shown _ _ _ _) eqn:Es; [|done]. intros [= <-].
  rewrite Hid in *. destruct (shown_open_skill ids _ row Hids Hrow Es) as [Ho Hp]. rewrite Hy in Hp. split; [by split_and!; try left|].
  split; [|done]. intros _. eauto.
Qed.

Lemma shows_drift ids fetch since : set_Forall assigned_skill_id ids →
  shows c (events_of (on_skills (RecentDrift fetch since)) (skill_drift false ids)) (Forall told).
Proof.
  intros Hids. source_row. rename x into k, H into Hk.
  unfold skill_drift. cbn [rdVisibility rdSkillID]. destruct (shown _ _ _ _) eqn:Es; [|done]. intros [= <-].
  destruct (shown_open_skill ids _ k Hids Hk Es) as [Ho _]. split; [|done]. by split_and!; try left.
Qed.

Lemma shows_assigned fetch since :
  shows c (events_of (on_skills (RecentSkillAssignments fetch since)) (skill_assigned false viewer)) (Forall told).
Proof.
  source_row. rename x into k, H into Hk. destruct (Skills.wf_skills _ Hsk _ _ Hk) as (Hid & _).
  destruct (Skills.wf_assignments _ Hsk _ _ Hrow) as (-> & _).
  unfold skill_assigned. cbn [raUserID orb]. destruct (_ =?s _) eqn:Eu; [|done]. bool_prop. intros [= <-]. cbn in Hid.
  split; [|done]. split_and!; try done; [|by right]. intros _. exists k. cbn. rewrite Hid, <- Eu. eauto.
Qed.

Lemma shows_recipes ids fetch since : set_Forall assigned_recipe_id ids →
  shows c (events_of (on_recipes (RecentRecipes fetch since)) (recipe_published false ids)) (Forall told).
Proof.
  intros Hids. source_row. destruct (Recipes.wf_recipes _ Hrc _ _ Hrow) as (Hid & _).
  unfold recipe_published. cbn [rrVisibility rrID]. destruct (shown _ _ _ _) eqn:Es; [|done]. intros [= <-].
  rewrite Hid in *. destruct (shown_open_recipe ids _ row Hids Hrow Es) as [Ho _]. split; [|done]. by split_and!; try left.
Qed.

Lemma shows_recipe_yanked ids fetch since : set_Forall assigned_recipe_id ids →
  shows c (events_of (on_recipes (RecentRecipeYanks fetch since)) (recipe_yanked false ids)) (Forall told).
Proof.
  intros Hids. source_row. rename H into Hy. destruct (Recipes.wf_recipes _ Hrc _ _ Hrow) as (Hid & _).
  unfold recipe_yanked. cbn [rkVisibility rkID]. destruct (shown _ _ _ _) eqn:Es; [|done]. intros [= <-].
  rewrite Hid in *. destruct (shown_open_recipe ids _ row Hids Hrow Es) as [Ho Hp]. rewrite Hy in Hp. split; [by split_and!; try left|].
  split; [done|]. intros _. eauto.
Qed.

Lemma shows_recipe_assigned fetch since :
  shows c (events_of (on_recipes (RecentRecipeAssignments fetch since)) (recipe_assigned false viewer)) (Forall told).
Proof.
  source_row. rename x into k, H into Hk. destruct (Recipes.wf_grants _ Hrc _ _ Hrow) as (-> & _).
  unfold recipe_assigned. cbn [rgUserID orb]. destruct (_ =?s _) eqn:Eu; [|done]. bool_prop. intros [= <-].
  split; [|done]. split_and!; try done; [|by right]. intros _. exists k. cbn. rewrite <- Eu. eauto.
Qed.

Lemma shows_feed shuffle since limit : (∀ l, shuffle l ≡ₚ l) → is_admin viewer = false →
  shows c (buildActivityFeed shuffle since viewer limit)
    (λ l, Forall told l ∧ StronglySorted (λ a b, Timestamp b ≤ Timestamp a)%Z l ∧ (Z.of_nat (length l) ≤ Z.max 0 limit)%Z).
Proof.
  intros Hsh Ha. unfold buildActivityFeed. rewrite Ha. destruct (limit <=? 0)%Z eqn:El.
  { apply shows_ret. split; [done|]. split; [constructor|cbn; lia]. }
  eapply shows_bind; [apply shows_skill_ids|]. intros sids Hs. eapply shows_bind; [apply shows_recipe_ids|]. intros rids Hr.
  eapply shows_bind; [by apply shows_published|]. intros e1 H1. eapply shows_bind; [by apply shows_yanked|]. intros e2 H2.
  eapply shows_bind; [by apply shows_drift|]. intros e3 H3. eapply shows_bind; [by apply shows_assigned|]. intros e4 H4.
  eapply shows_bind; [by apply shows_recipes|]. intros e5 H5. eapply shows_bind; [by apply shows_recipe_yanked|]. intros e6 H6.
  eapply shows_bind; [by apply shows_recipe_assigned|]. intros e7 H7.
  eapply shows_bind; [by apply (shows_ret c [] (λ l, l = []))|]. intros e8 ->.
  eapply shows_bind; [by apply (shows_ret c [] (λ l, l = []))|]. intros e9 ->. apply shows_ret. split_and!.
  - apply Forall_take. rewrite stable_sort_perm, Hsh. rewrite !Forall_app. auto 10.
  - apply take_sorted, sorted_later.
  - rewrite length_take. lia.
Qed.
End Scope.

(** ** The page *)

Lemma shows_dropped {S A} (get : Catalogue → S) (put : S → Catalogue → Catalogue) (m : DBM S A) zero c :
  put (get c) c = c → preserves (eq (get c)) m → shows c (dropped (lift_db get put m) zero) (λ _, True).
Proof.
  intros Hp Hm fs. unfold dropped, attempt, db_bind, lift_db. cbn. pose proof (Hm (mkDb (get c) fs) eq_refl) as Ht.
  destruct (m _) as [r d]. cbn in Ht |- *. rewrite <- Ht, Hp. by eexists _, _.
Qed.

Lemma shows_servers c (user : User) ids :
  shows c (on_people (accessibleServers user ids)) (λ l, is_admin user = false → uProfileID user = None → l = []).
Proof.
  intros fs. unfold accessibleServers, is_admin, on_people, lift_db.
  assert (Hp : ∀ u : Users.State, Users.with_profiles u (Users.profiles u) = u) by (by intros []).
  destruct (uRole user =?s "admin"); [by eexists _, _; cbn; rewrite put_people_of|].
  destruct (uProfileID user) as [p|]; [|by eexists _, _; cbn; rewrite put_people_of].
  unfold db_bind, attempt, on_profiles, lift_db, ServerIDsForProfile, query, exec. cbn.
  destruct (next_fault fs) as [[] fs1]; cbn; rewrite Hp, put_people_of; by eexists _, _.
Qed.

Lemma preserves_count P now w : preserves P (CountActiveAPIKeys now w).
Proof. unfold CountActiveAPIKeys. repeat (apply preserves_bind; [apply preserves_query|]; intros ?). apply preserves_ret. Qed.

(** Whichever statements fail, the dashboard of a user who is no
    administrator comes up and changes nothing; its feed is sorted newest first, has at
    most 50 entries, never tells of accounts or keys, tells of a skill or recipe only if
    it is public or assigned to the user, and of an assignment only if it is the user's
    own; devices are not counted, and without a profile no server is. *)
Theorem dashboard_scoped crypto shuffle since now user c fs :
  Skills.wf (skills_of c) → Recipes.wf (recipes_of c) → (∀ l, shuffle l ≡ₚ l) → is_admin user = false →
  ∃ page fs', handleDashboard shuffle since crypto now "/" user (mkDb c fs) = (Ok (Some page), mkDb c fs') ∧
    Forall (may_see c user) (Feed page) ∧ StronglySorted (λ a b, Timestamp b ≤ Timestamp a)%Z (Feed page) ∧
    length (Feed page) ≤ 50 ∧ DevicesTotal page = 0%Z ∧ (uProfileID user = None → ServerTotal page = 0).
Proof.
  intros Hsk Hrc Hsh Ha. revert fs.
  assert (H : shows c (handleDashboard shuffle since crypto now "/" user) (λ r, ∃ page, r = Some page ∧
    Forall (may_see c user) (Feed page) ∧ StronglySorted (λ a b, Timestamp b ≤ Timestamp a)%Z (Feed page) ∧
    length (Feed page) ≤ 50 ∧ DevicesTotal page = 0%Z ∧ (uProfileID user = None → ServerTotal page = 0))).
  { unfold handleDashboard. cbn [String.eqb Ascii.eqb Bool.eqb negb]. rewrite Ha.
    eapply (shows_bind _ _ _ (λ _, True)); [eapply shows_bind; [apply shows_dropped; [auto with relay|apply preserves_query]|intros l _; by apply shows_ret]|].
    intros sk _. eapply shows_bind; [apply shows_dropped; [auto with relay|apply preserves_query]|]. intros rc _.
    eapply shows_bind; [apply shows_dropped; [auto with relay|apply preserves_ListServers]|]. intros all _.
    eapply shows_bind; [apply shows_servers|]. intros ids Hids.
    eapply shows_bind; [by apply (shows_ret c (0, 0)%Z (λ x, x = (0, 0)%Z))|]. intros devices ->.
    eapply shows_bind; [by apply (shows_feed c Hsk Hrc user shuffle since 50)|]. intros feed (Hf & Hs & Hl).
    apply shows_ret. eexists. split; [done|]. cbn. split_and!; [|done|lia|done|].
    - eapply Forall_impl; [exact Hf|]. by intros e [He _].
    - intros Hp. rewrite (Hids Ha Hp). by induction all. }
  intros fs. destruct (H fs) as (a & fs' & E & page & -> & Hq). by exists page, fs'.
Qed.

(** Whatever fails, a yank event in the feed of a user who is no
    administrator is always about a public skill or recipe: those the restricted item was
    assigned to are never told, because the list of assigned items leaves yanked ones out. *)
Theorem restricted_yank_unseen shuffle since limit user c fs :
  Skills.wf (skills_of c) → Recipes.wf (recipes_of c) → (∀ l, shuffle l ≡ₚ l) → is_admin user = false →
  ∃ feed fs', buildActivityFeed shuffle since user limit (mkDb c fs) = (Ok feed, mkDb c fs') ∧
    ∀ e, e ∈ feed →
      (Kind e = "skill_yanked" → ∃ k, skill_rows c !! SkillID e = Some k ∧ skVisibility k = "public") ∧
      (Kind e = "recipe_yanked" → ∃ r, recipe_rows c !! RecipeID e = Some r ∧ rcVisibility r = "public").
Proof.
  intros Hsk Hrc Hsh Ha. destruct (shows_feed c Hsk Hrc user shuffle since limit Hsh Ha fs) as (feed & fs' & E & Hf & _).
  exists feed, fs'. split; [done|]. intros e He. rewrite Forall_forall in Hf. by destruct (Hf e He) as [_ Hy].
Qed.

(** ** The newest events

    [F] is what is newest in [l], at most [n] of it. *)
Definition top {A} (at_ : A → Z) (n : nat) (l F : list A) : Prop :=
  ∃ rest, F ++ rest ≡ₚ l ∧ length F ≤ n ∧
    (rest ≠ [] → length F = n ∧ ∀ x y, x ∈ F → y ∈ rest → (at_ y ≤ at_ x)%Z).

Lemma newest_take {A} limit (at_ : A → Z) l : (0 ≤ limit)%Z →
  newest limit at_ l = take (Z.to_nat limit) (stable_sort (λ a b, at_ b <=? at_ a)%Z l).
Proof. intros Hl. unfold newest, sql_limit. by rewrite (proj2 (Z.ltb_ge _ _)) by lia. Qed.

Lemma top_newest {A} (at_ : A → Z) limit l : (0 ≤ limit)%Z → top at_ (Z.to_nat limit) l (newest limit at_ l).
Proof.
  intros Hl. rewrite newest_take by done. set (s := stable_sort _ l). set (n := Z.to_nat limit).
  exists (drop n s). split_and!.
  - by rewrite take_drop, <- (stable_sort_perm (λ a b, at_ b <=? at_ a)%Z l).
  - rewrite length_take. lia.
  - intros Hd. assert (n < length s) by (destruct (le_lt_dec (length s) n); [by rewrite drop_ge in Hd by lia|done]).
    split; [rewrite length_take; lia|]. intros x y Hx Hy.
    assert (Hs : StronglySorted (leb_rel (λ a b, at_ b <=? at_ a)%Z) (take n s ++ drop n s)).
    { rewrite take_drop. apply stable_sort_sorted; intros; rewrite ?Z.leb_le in *; lia. }
    pose proof (StronglySorted_app_1_elem_of _ _ _ x y Hs Hx Hy) as E. by apply Z.leb_le.
Qed.

Lemma top_map {A B} (f : A → B) (at_ : A → Z) (at' : B → Z) n l F :
  (∀ a, at' (f a) = at_ a) → top at_ n l F → top at' n (map f l) (map f F).
Proof.
  intros Hf (rest & Hp & Hn & Hr). exists (map f rest). rewrite length_map. split_and!; [by rewrite <- map_app, Hp|done|].
  intros Hne. destruct Hr as [Hl Hr]; [by destruct rest|]. split; [done|]. intros x y Hx Hy.
  apply list_elem_of_fmap in Hx as (a & -> & Ha). apply list_elem_of_fmap in Hy as (b & -> & Hb). rewrite !Hf. auto.
Qed.

Lemma filter_every {A} (P : A → Prop) `{∀ x, Decision (P x)} (l : list A) : (∀ x, x ∈ l → P x) → filter P l = l.
Proof.
  induction l as [|a l IH]; intros Hl; [done|]. rewrite filter_cons_True by (apply Hl; by left). f_equal. apply IH. intros x Hx. apply Hl. by right.
Qed.

Lemma filter_no_one {A} (P : A → Prop) `{∀ x, Decision (P x)} (l : list A) : (∀ x, x ∈ l → ¬ P x) → filter P l = [].
Proof.
  induction l as [|a l IH]; intros Hl; [done|]. rewrite filter_cons_False by (apply Hl; by left). apply IH. intros x Hx. apply Hl. by right.
Qed.

(** What the sources left out: each of it has a whole source's worth of newer ones. *)
Lemma tops_left {A} (at_ : A → Z) m srcs tops : Forall2 (top at_ m) srcs tops →
  ∃ left, concat tops ++ left ≡ₚ concat srcs ∧
    ∀ y, y ∈ left → ∃ t more, concat tops ≡ₚ t ++ more ∧ length t = m ∧ ∀ x, x ∈ t → (at_ y ≤ at_ x)%Z.
Proof.
  induction 1 as [|src t srcs tops (rest & Hp & _ & Hr) _ (left & Hl & Hy)]; cbn; [exists []; set_solver|].
  exists (rest ++ left). split; [rewrite <- Hp, <- Hl; solve_Permutation|]. intros y [Hin|Hin]%elem_of_app.
  - destruct Hr as [Hm Hr]; [by intros ->; apply elem_of_nil in Hin|]. exists t, (concat tops). eauto.
  - destruct (Hy y Hin) as (u & more & Hu & Hm & Hle). exists u, (t ++ more). split; [|done]. rewrite Hu. solve_Permutation.
Qed.

Lemma top_merge {A} (at_ : A → Z) n m srcs tops F :
  n ≤ m → Forall2 (top at_ m) srcs tops → top at_ n (concat tops) F → top at_ n (concat srcs) F.
Proof.
  intros Hnm Hs (rest & Hp & Hn & Hr). destruct (tops_left at_ m srcs tops Hs) as (left & Hl & Hy). exists (rest ++ left).
  split; [by rewrite app_assoc, Hp|]. split; [done|]. intros Hne. split.
  - destruct rest as [|z rest]; [|by apply Hr]. destruct left as [|y left]; [done|].
    destruct (Hy y) as (t & more & Ht & Hm & _); [by left|]. rewrite Ht in Hp. apply Permutation_length in Hp.
    rewrite !length_app in Hp. cbn in Hp. lia.
  - intros x y Hx [Hin|Hin]%elem_of_app; [by apply Hr; [intros ->; apply elem_of_nil in Hin|..]|].
    destruct (Hy y Hin) as (t & more & Ht & Hm & Hle). destruct (decide (at_ y ≤ at_ x)%Z) as [|Hlt]; [done|exfalso].
    pose (P z := (at_ x < at_ z)%Z). assert (Hft : filter P t = t) by (apply filter_every; intros z Hz; specialize (Hle z Hz); unfold P; lia).
    assert (Hfr : filter P rest = []).
    { apply filter_no_one. intros z Hz. destruct Hr as [_ Hr]; [by intros ->; apply elem_of_nil in Hz|].
      specialize (Hr x z Hx Hz). unfold P. lia. }
    pose proof (length_filter_lt P F x Hx ltac:(unfold P; lia)) as Hlen. rewrite Ht in Hp.
    assert (Hc : filter P (F ++ rest) ≡ₚ filter P (t ++ more)) by (by rewrite Hp). apply Permutation_length in Hc. rewrite !filter_app, Hfr, Hft, !length_app in Hc. cbn in Hc. lia.
Qed.

Lemma top_perm {A} (at_ : A → Z) n l l' F : l ≡ₚ l' → top at_ n l F → top at_ n l' F.
Proof. intros Hl (rest & Hp & H). exists rest. by rewrite <- Hl. Qed.

(** What a query without a limit returns. *)
Definition rows_of {R} (m : DBM Catalogue (list R)) (c : Catalogue) : list R :=
  match outcome m (healthy c) with Ok l => l | Err _ => [] end.

(** All that happened since then, as the events an administrator is shown. *)
Definition all_events (since : Z) (viewer : User) (c : Catalogue) : list ActivityEvent := concat [
  omap (skill_published true ∅) (rows_of (on_skills (RecentSkillVersions (-1) since)) c);
  omap (skill_yanked true ∅) (rows_of (on_skills (RecentSkillYanks (-1) since)) c);
  omap (skill_drift true ∅) (rows_of (on_skills (RecentDrift (-1) since)) c);
  omap (skill_assigned true viewer) (rows_of (on_skills (RecentSkillAssignments (-1) since)) c);
  omap (recipe_published true ∅) (rows_of (on_recipes (RecentRecipes (-1) since)) c);
  omap (recipe_yanked true ∅) (rows_of (on_recipes (RecentRecipeYanks (-1) since)) c);
  omap (recipe_assigned true viewer) (rows_of (on_recipes (RecentRecipeAssignments (-1) since)) c);
  omap user_joined (rows_of (on_people (RecentUsers (-1) since)) c);
  omap key_issued (rows_of (on_people (RecentAPIKeys (-1) since)) c)].

Section Newest.
Context {S R : Type} (get : Catalogue → S) (put : S → Catalogue → Catalogue) (at_ : R → Z) (rows : S → list R) (g : R → option ActivityEvent).

Lemma healthy_events c limit : put (get c) c = c →
  events_of (lift_db get put (query (λ s, newest limit at_ (rows s)))) g (healthy c)
  = (Ok (omap g (newest limit at_ (rows (get c)))), healthy c).
Proof. intros Hp. unfold events_of, db_bind, attempt, lift_db, query, exec, healthy. cbn. by rewrite Hp. Qed.

Lemma source_top c limit : (0 ≤ limit)%Z → (∀ r, ∃ e, g r = Some e ∧ Timestamp e = at_ r) →
  top Timestamp (Z.to_nat limit)
    (omap g (rows_of (lift_db get put (query (λ s, newest (-1) at_ (rows s)))) c)) (omap g (newest limit at_ (rows (get c)))).
Proof.
  intros Hl Hg. assert (Hm : ∃ h, (∀ r, g r = Some (h r)) ∧ ∀ r, Timestamp (h r) = at_ r).
  { exists (λ r, default (mkEvent "" 0 "" "" "" "" "" "" "") (g r)). split; intros r; destruct (Hg r) as (e & -> & E); by cbn. }
  destruct Hm as (h & Hh & Ht).
  assert (Ho : ∀ l, omap g l = map h l) by (intros l; induction l as [|r l IH]; cbn; [done|by rewrite Hh, IH]).
  rewrite !Ho. apply (top_map h at_); [done|]. eapply top_perm; [|by apply top_newest].
  unfold rows_of, outcome, lift_db, query, exec, healthy. cbn. unfold newest, sql_limit. cbn. by rewrite stable_sort_perm.
Qed.
End Newest.

Lemma run_bind {T A B} (m : DBM T A) (k : A → DBM T B) d a d' : m d = (Ok a, d') → db_bind m k d = k a d'.
Proof. intros E. unfold db_bind. by rewrite E. Qed.

Lemma fetch_limit_ge limit : (0 < limit)%Z → (limit ≤ fetch_limit limit)%Z.
Proof. intros Hl. unfold fetch_limit. destruct (limit * 10 <? 100)%Z eqn:E; lia. Qed.

(** Each source brings, for an administrator, its newest events, unfiltered. *)
Lemma admin_feed shuffle since limit viewer c : (0 < limit)%Z → is_admin viewer = true →
  ∃ tops, buildActivityFeed shuffle since viewer limit (healthy c) = (Ok (newest limit Timestamp (shuffle (concat tops))), healthy c) ∧
    ∃ srcs, concat srcs = all_events since viewer c ∧ Forall2 (top Timestamp (Z.to_nat (fetch_limit limit))) srcs tops.
Proof.
  intros Hl Ha. pose proof (fetch_limit_ge limit Hl) as Hf. assert (Hf0 : (0 ≤ fetch_limit limit)%Z) by lia.
  unfold buildActivityFeed. rewrite (proj2 (Z.leb_gt _ _) Hl), Ha.
  eexists [_; _; _; _; _; _; _; _; _]. split.
  - do 2 (etransitivity; [by eapply run_bind|]).
    etransitivity; [eapply run_bind; exact (healthy_events skills_of put_skills rvUploadedAt _ _ c _ (put_skills_of c))|].
    etransitivity; [eapply run_bind; exact (healthy_events skills_of put_skills ryYankedAt _ _ c _ (put_skills_of c))|].
    etransitivity; [eapply run_bind; exact (healthy_events skills_of put_skills rdDriftAt _ _ c _ (put_skills_of c))|].
    etransitivity; [eapply run_bind; exact (healthy_events skills_of put_skills raAssignedAt _ _ c _ (put_skills_of c))|].
    etransitivity; [eapply run_bind; exact (healthy_events recipes_of put_recipes rrCreatedAt _ _ c _ (put_recipes_of c))|].
    etransitivity; [eapply run_bind; exact (healthy_events recipes_of put_recipes rkYankedAt _ _ c _ (put_recipes_of c))|].
    etransitivity; [eapply run_bind; exact (healthy_events recipes_of put_recipes rgAssignedAt _ _ c _ (put_recipes_of c))|].
    etransitivity; [eapply run_bind; exact (healthy_events people put_people snd _ _ c _ (put_people_of c))|].
    etransitivity; [eapply run_bind; exact (healthy_events people put_people (λ r, kCreatedAt r.1) _ _ c _ (put_people_of c))|].
    unfold db_ret. do 2 f_equal. rewrite (newest_take limit Timestamp) by lia. cbn [concat]. by rewrite app_nil_r.
  - eexists. split; [reflexivity|].
    repeat match goal with |- Forall2 _ (_ :: _) _ => apply Forall2_cons; split | |- Forall2 _ [] _ => constructor end.
    1-7: refine (source_top _ _ _ _ _ c _ Hf0 _); intros r; eexists; split; reflexivity.
    + refine (source_top people put_people snd _ user_joined c _ Hf0 _). intros [[id u] t]. eexists; split; reflexivity.
    + refine (source_top people put_people (λ r, kCreatedAt r.1) _ key_issued c _ Hf0 _). intros [k u]. eexists; split; reflexivity.
Qed.

(** On a healthy database the feed of an administrator is exactly what
    it would be without the per-source limits: the newest events of all nine sources
    together, newest first, at most [limit], and nothing newer is left out. *)
Theorem feed_is_newest shuffle since limit viewer c :
  (∀ l, shuffle l ≡ₚ l) → (0 < limit)%Z → is_admin viewer = true →
  ∃ feed, buildActivityFeed shuffle since viewer limit (healthy c) = (Ok feed, healthy c) ∧
    top Timestamp (Z.to_nat limit) (all_events since viewer c) feed ∧
    StronglySorted (λ a b, Timestamp b ≤ Timestamp a)%Z feed.
Proof.
  intros Hsh Hl Ha. destruct (admin_feed shuffle since limit viewer c Hl Ha) as (tops & E & srcs & <- & Ht).
  eexists. split; [exact E|]. split.
  - apply (top_merge _ _ (Z.to_nat (fetch_limit limit)) srcs tops); [|done|].
    + pose proof (fetch_limit_ge limit Hl). lia.
    + eapply top_perm; [|apply top_newest; lia]. by rewrite Hsh.
  - rewrite newest_take by lia. apply take_sorted, sorted_later.
Qed.

(** ** Concrete pages *)

Definition demo_catalogue : Catalogue :=
  mkCatalogue Users.demo (Skills.skills demo_store) (Skills.versions demo_store) (Skills.assignments demo_store)
    (Skills.upstreams demo_store) (Recipes.recipes demo_recipes) (Recipes.grants demo_recipes) ∅.

Definition demo_admin : User := mkUser "a" "root" "" "admin" "admin" None false 0 None "".

Lemma dashboard_scoped_witness :
  ∃ page fs', handleDashboard id (-9) (mkEncryptor None) 5 "/" demo_user (mkDb demo_catalogue [false; true]) = (Ok (Some page), mkDb demo_catalogue fs') ∧
    Forall (may_see demo_catalogue demo_user) (Feed page) ∧ StronglySorted (λ a b, Timestamp b ≤ Timestamp a)%Z (Feed page) ∧
    length (Feed page) ≤ 50 ∧ DevicesTotal page = 0%Z ∧ (uProfileID demo_user = None → ServerTotal page = 0).
Proof.
  exact (dashboard_scoped (mkEncryptor None) id (-9) 5 demo_user demo_catalogue [false; true] demo_store_wf demo_recipes_wf (λ _, reflexivity _) eq_refl).
Defined.

Lemma restricted_yank_unseen_witness :
  ∃ feed fs', buildActivityFeed id (-9) demo_user 50 (healthy demo_catalogue) = (Ok feed, mkDb demo_catalogue fs') ∧
    ∀ e, e ∈ feed →
      (Kind e = "skill_yanked" → ∃ k, skill_rows demo_catalogue !! SkillID e = Some k ∧ skVisibility k = "public") ∧
      (Kind e = "recipe_yanked" → ∃ r, recipe_rows demo_catalogue !! RecipeID e = Some r ∧ rcVisibility r = "public").
Proof.
  exact (restricted_yank_unseen id (-9) 50 demo_user demo_catalogue [] demo_store_wf demo_recipes_wf (λ _, reflexivity _) eq_refl).
Defined.

Lemma feed_is_newest_witness :
  ∃ feed, buildActivityFeed id (-9) demo_admin 2 (healthy demo_catalogue) = (Ok feed, healthy demo_catalogue) ∧
    top Timestamp 2 (all_events (-9) demo_admin demo_catalogue) feed ∧ StronglySorted (λ a b, Timestamp b ≤ Timestamp a)%Z feed.
Proof. exact (feed_is_newest id (-9) 2 demo_admin demo_catalogue (λ _, reflexivity _) eq_refl eq_refl). Defined.

(** A busy restricted skill next to a public one. *)
Definition busy_catalogue : Catalogue :=
  let version (id v : string) (at_ : Z) := ((id, v), mkVersion id v "p" 1 "h" "{}" None None at_) in
  let unary (n : nat) := foldr (λ _ s, "1" +:+ s) "1" (seq 0 n) in
  mkCatalogue Users.demo
    {["k1" := mkSkill "k1" "busy" "" "" "restricted" "" None None 0 0 false;
      "k2" := mkSkill "k2" "news" "" "" "public" "" None None 0 0 false]}
    (list_to_map (version "k2" "2.0.0" 7%Z :: map (λ n, version "k1" (unary n) 8%Z) (seq 0 100))) ∅ ∅ ∅ ∅ ∅.

(** The per-source limit is applied before the viewer's filter: behind a
    hundred newer versions of a skill the viewer may not see, the only version the viewer
    may see never reaches a feed that is otherwise empty. *)
Theorem feed_starved :
  outcome (buildActivityFeed id 0 demo_user 10) (healthy busy_catalogue) = Ok [] ∧
  List.filter (λ e, SkillID e =?s "k2") (all_events 0 demo_user busy_catalogue)
  = [mkEvent "skill_published" 7 "" "news@2.0.0" "/skills/news" "" "k2" "" ""] ∧
  open_skill busy_catalogue demo_user "k2".
Proof.
  split; [by vm_compute|]. split; [by vm_compute|]. eexists. split; [by vm_compute|]. left. reflexivity.
Qed.
