(* ===== verification/SkillPages.v ===== *)
(** * The skill pages

    [src/internal/web/skills_dashboard.go] and the routes of
    [src/internal/web/handlers.go] that lead to it.  The pages run behind [requireAuth]
    ([WebAuth]); a page is represented by what its template is given. *)
From S2P Require Import Prelude GoStrings GoPath Json JsonDecode AccessTiers Profiles Users WebAuth Servers Skills Subhash SkillService SkillChecker SkillsApi.

(** ** Requests *)

(** A multipart body: its size, the error its parser stops with after so many bytes, and the
    [archive] part, as the bytes that can be read and whether reading then fails. *)
Record Multipart := mkMultipart { mSize : Z; mError : option (Z * string); mFile : option (string * bool) }.

(** [parsed]: [r.MultipartForm] is set. *)
Record PageRequest := mkPage { preq : Request; multipart : Multipart; parsed : bool }.

Inductive Parse := PParsed | PTooLarge | PInvalid (e : string).

(** [ParseMultipartForm] behind [http.MaxBytesReader]: a form that was parsed before is
    not parsed again.  A form that could not be parsed is taken to fail again in the same
    way; only the wording of the error depends on where the first attempt stopped. *)
Definition ParseMultipartForm (limit : Z) (r : PageRequest) : Parse :=
  if parsed r then PParsed
  else match mError (multipart r) with
  | Some (at_, e) => if (limit <? at_)%Z then PTooLarge else PInvalid e
  | None => if (limit <? mSize (multipart r))%Z then PTooLarge else PParsed
  end.

(** [FormValue] parses the form first, without a limit, and ignores the error. *)
Definition after_FormValue (r : PageRequest) : PageRequest :=
  mkPage (preq r) (multipart r) (parsed r || bool_decide (mError (multipart r) = None)).

(** ** Pages *)

Inductive Note :=
| NoNote
| MetaErr (msg displayName description visibility : string)
| UpstreamErr (msg gitURL subpath ref : string).

Inductive Page :=
| PgNotFound
| PgStatus (code : Z) (msg : string)
| PgRedirect (location : string)
| PgSkills (rows : list (Skill * opt_drift))
| PgSkillNew (error : string) (slug version visibility : string)
| PgSkill (k : Skill) (versions : list SkillVersion) (assignments : list SkillAssignment) (upstream : option SkillUpstream)
    (drift : opt_drift) (note : Note).

Section Pages.
Context `{Hashing} `{Formats} (csrf_mac : string → string).
Context (now : Z) (uuid : string) (io : list bool) (partial tmp : string).

Definition PageHandler : Type := SvcWorld → Page * SvcWorld.

Definition page (p : Page) : PageHandler := λ w, (p, w).

(** A store call and what follows its error. *)
Definition try_store {A} (m : DBM State A) (onerr : string → PageHandler) (k : A → PageHandler) : PageHandler := λ w,
  match svc_call m w with
  | (Ok a, w) => k a w
  | (Err e, w) => onerr e w
  end.

Definition error_page (msg : string) : string → PageHandler := λ _, page (PgStatus 500 msg).

Definition requireAdmin (user : User) (k : PageHandler) : PageHandler :=
  if is_admin user then k else page (PgStatus 403 "Admin access required").

(** The drift of the listed skills; a failed lookup leaves it out. *)
Fixpoint list_rows (l : list Skill) (acc : list (Skill * opt_drift)) : PageHandler :=
  match l with
  | [] => page (PgSkills (rev acc))
  | k :: r =>
      if skOutdated k
      then try_store (GetUpstream (skID k)) (λ _, list_rows r ((k, None) :: acc))
             (λ u, list_rows r ((k, driftBlockFromUpstream u) :: acc))
      else list_rows r ((k, None) :: acc)
  end.

Definition HandleSkillsList (user : User) (r : PageRequest) : PageHandler :=
  if Path (preq r) !=? "/skills" then page PgNotFound
  else try_store (listForUser user) (error_page "failed to list skills") (λ l, list_rows l []).

Definition renderSkillNewWithError (r : PageRequest) (msg : string) : PageHandler :=
  page (PgSkillNew msg (FormValue (preq r) "slug") (FormValue (preq r) "version") (FormValue (preq r) "visibility")).

(** The uploaded archive, read up to one byte more than allowed. *)
Definition read_file (f : string * bool) : option (option string) :=
  let '(bytes, broken) := f in
  if (MaxArchiveSize <? str_len bytes)%Z then Some None else if broken : bool then None else Some (Some bytes).

Definition upload_form (user : User) (r : PageRequest) (slug version visibility body : string) : PageHandler := λ w,
  match Upload uuid now io partial tmp (mkUpload slug version body (uID user) "" "" visibility) w with
  | (inr (InvalidArchive e), w) => renderSkillNewWithError r e w
  | (inr VersionConflict, w) => renderSkillNewWithError r ("Version " +:+ version +:+ " already exists for skill " +:+ slug) w
  | (inr SlugConflict, w) => renderSkillNewWithError r ("Slug " +:+ slug +:+ " is already in use.") w
  | (inr (OtherError _), w) => renderSkillNewWithError r "Internal error while uploading." w
  | (inl res, w) => page (PgRedirect ("/skills/" +:+ skSlug (upSkill res))) w
  end.

Definition skillUploadLimit : Z := (MaxArchiveSize + 65536)%Z.

Definition HandleSkillNew (user : User) (sid : string) (r : PageRequest) : PageHandler :=
  requireAdmin user (
    if Path (preq r) !=? "/skills/new" then page PgNotFound
    else if Method (preq r) =?s "GET" then page (PgSkillNew "" "" "" "")
    else if Method (preq r) !=? "POST" then page (PgStatus 405 "method not allowed")
    else match ParseMultipartForm skillUploadLimit r with
    | PTooLarge => renderSkillNewWithError r "Archive exceeds 5 MiB upload limit."
    | PInvalid e => renderSkillNewWithError r ("Invalid multipart form: " +:+ e)
    | PParsed =>
        if negb (validateCSRF csrf_mac (preq r) sid) then page (PgStatus 403 "invalid csrf token")
        else
          let slug := TrimSpace (FormValue (preq r) "slug") in
          let version := TrimSpace (FormValue (preq r) "version") in
          let visibility := FormValue (preq r) "visibility" in
          if (slug =?s "") || (version =?s "") then renderSkillNewWithError r "Slug and version are required."
          else match mFile (multipart r) with
          | None => renderSkillNewWithError r "Upload an archive (.tar.gz) for this skill."
          | Some f =>
              match read_file f with
              | None => renderSkillNewWithError r "Could not read uploaded archive."
              | Some None => renderSkillNewWithError r "Archive exceeds 5 MiB upload limit."
              | Some (Some body) => upload_form user r slug version visibility body
              end
          end
    end).

(** [userCanReadSkill]: a failed lookup hides the skill. *)
Definition userCanReadSkill (user : User) (k : Skill) (next : bool → PageHandler) : PageHandler :=
  if bool_decide (is_Some (skYankedAt k)) then next false
  else if skVisibility k =?s "public" then next true
  else try_store (ListAssignmentsForSkill (skID k)) (λ _, next false)
         (λ l, next (existsb (λ a, saUserID a =?s uID user) l)).

(** The detail page, with the error of a form that was refused. *)
Definition detail (note : Note) (user : User) (k : Skill) : PageHandler :=
  try_store (ListVersions (skID k)) (error_page "failed to load versions") (λ vs,
    let render asg :=
      let finish u := page (PgSkill k vs asg u (if skOutdated k then driftBlockFromUpstream u else None) note) in
      try_store (GetUpstream (skID k)) (λ _, finish None) finish in
    if is_admin user then try_store (ListAssignmentsForSkill (skID k)) (error_page "failed to load assignments") render
    else render []).

Definition renderSkillDetail : User → Skill → PageHandler := detail NoNote.

Definition renderSkillDetailWithMetaError (user : User) (k : Skill) (msg displayName description visibility : string) : PageHandler :=
  detail (MetaErr msg displayName description visibility) user k.

Definition renderSkillDetailWithUpstreamError (user : User) (k : Skill) (msg gitURL subpath ref : string) : PageHandler :=
  detail (UpstreamErr msg gitURL subpath ref) user k.

Definition back_to (slug : string) : Page := PgRedirect ("/skills/" +:+ slug).

Definition handleMetaForm (user : User) (r : PageRequest) (k : Skill) : PageHandler :=
  let displayName := TrimSpace (FormValue (preq r) "display_name") in
  let description := FormValue (preq r) "description" in
  let visibility := TrimSpace (FormValue (preq r) "visibility") in
  let refuse msg := renderSkillDetailWithMetaError user k msg displayName description visibility in
  if displayName =?s "" then refuse "Display name is required."
  else if (visibility !=? "public") && (visibility !=? "restricted") then refuse "Visibility must be public or restricted."
  else try_store (UpdateSkillMeta now (skID k) displayName description visibility)
         (λ e, refuse ("Saving metadata failed: " +:+ e)) (λ _, page (back_to (skSlug k))).

Definition handleUpstreamForm (user : User) (r : PageRequest) (k : Skill) : PageHandler :=
  let gitURL := TrimSpace (FormValue (preq r) "git_url") in
  let subpath := TrimSpace (FormValue (preq r) "git_subpath") in
  let ref := TrimSpace (FormValue (preq r) "git_ref") in
  let refuse msg := renderSkillDetailWithUpstreamError user k msg gitURL subpath ref in
  if gitURL =?s "" then refuse "Upstream git URL is required."
  else try_store (UpsertUpstream now (mkUpstream (skID k) "" gitURL subpath ref None None None None 0 0))
         (λ e, refuse ("Saving upstream tracking failed: " +:+ e)) (λ _, page (back_to (skSlug k))).

(** The actions below a skill's page. *)
Definition action (user : User) (r : PageRequest) (slug : string) (k : Skill) (parts : list string) : PageHandler :=
  let done_ := λ _ : unit, page (back_to slug) in
  match parts with
  | _ :: act :: rest =>
      if act =?s "yank" then try_store (YankSkill now (skID k)) (error_page "yank failed") done_
      else if act =?s "unyank" then try_store (UnyankSkill now (skID k)) (error_page "unyank failed") done_
      else if act =?s "delete" then try_store (DeleteSkill (skID k)) (error_page "delete failed") (λ _, page (PgRedirect "/skills"))
      else if act =?s "upstream" then
        match rest with
        | [] => handleUpstreamForm user r k
        | [c] => if c =?s "clear" then try_store (ClearUpstream (skID k)) (error_page "clear upstream failed") done_
                 else page PgNotFound
        | _ => page PgNotFound
        end
      else if act =?s "meta" then match rest with [] => handleMetaForm user r k | _ => page PgNotFound end
      else if act =?s "versions" then
        match rest with
        | version :: what :: _ =>
            if what =?s "yank" then try_store (YankVersion now (skID k) version) (error_page "yank failed") done_
            else if what =?s "unyank" then try_store (UnyankVersion (skID k) version) (error_page "unyank failed") done_
            else page PgNotFound
        | _ => page PgNotFound
        end
      else page PgNotFound
  | _ => page PgNotFound
  end.

(** [form_ok]: [r.ParseForm] succeeds. *)
Definition HandleSkillRoutes (form_ok : bool) (user : User) (sid : string) (r : PageRequest) : PageHandler :=
  let rest := TrimPrefix (Path (preq r)) "/skills/" in
  if rest =?s "" then page (PgRedirect "/skills")
  else
    let parts := Split rest "/"%char in
    let slug := hd "" parts in
    try_store (GetSkillBySlug slug) (error_page "internal error") (λ found,
      match found with
      | None => page PgNotFound
      | Some k =>
          let serve :=
            match parts with
            | [_] => if Method (preq r) =?s "GET" then renderSkillDetail user k else page (PgStatus 405 "method not allowed")
            | _ =>
                requireAdmin user (
                  if Method (preq r) !=? "POST" then page (PgStatus 405 "method not allowed")
                  else if negb form_ok then page (PgStatus 400 "invalid form")
                  else if negb (validateCSRF csrf_mac (preq r) sid) then page (PgStatus 403 "invalid csrf token")
                  else action user r slug k parts)
            end in
          if is_admin user then serve
          else userCanReadSkill user k (λ ok, if ok : bool then serve else page PgNotFound)
      end).

(** ** Routes

    The patterns [/skills], [/skills/new] and [/skills/] of the mux, behind [requireAuth]
    with a session that was found: for a request that changes state it looks for the token
    in the form. *)
Definition skills_mux (form_ok : bool) (user : User) (sid : string) (r : PageRequest) : PageHandler :=
  let serve r :=
    if Path (preq r) =?s "/skills" then HandleSkillsList user r
    else if Path (preq r) =?s "/skills/new" then HandleSkillNew user sid r
    else if HasPrefix (Path (preq r)) "/skills/" then HandleSkillRoutes form_ok user sid r
    else page PgNotFound in
  if state_changing (Method (preq r)) then
    let r := after_FormValue r in
    if validateCSRF csrf_mac (preq r) sid then serve r else page (PgStatus 403 "Invalid or missing CSRF token")
  else serve r.
End Pages.

(** ** Who changes what *)

(** Tables and archives stay. *)
Definition page_reads (h : PageHandler) : Prop :=
  ∀ w, tables (sdb (h w).2) = tables (sdb w) ∧ disk (h w).2 = disk w.

Lemma page_reads_page p : page_reads (page p).
Proof. done. Qed.

Lemma page_reads_store {A} (m : DBM State A) onerr k :
  (∀ P, preserves P m) → (∀ e, page_reads (onerr e)) → (∀ a, page_reads (k a)) → page_reads (try_store m onerr k).
Proof.
  intros Hm He Hk w. unfold try_store, svc_call. pose proof (Hm (eq (tables (sdb w))) (sdb w) eq_refl) as Hq.
  destruct (m (sdb w)) as [[a|e] d]; cbn in Hq.
  - destruct (Hk a (with_sdb w d)) as [-> ->]. done.
  - destruct (He e (with_sdb w d)) as [-> ->]. done.
Qed.

Lemma page_reads_try {A} (f : State → A) onerr k :
  (∀ e, page_reads (onerr e)) → (∀ a, page_reads (k a)) → page_reads (try_store (query f) onerr k).
Proof. apply page_reads_store. intros P. apply preserves_query. Qed.

Lemma reads_list_rows l acc : page_reads (list_rows l acc).
Proof.
  revert acc. induction l as [|k l IH]; intros acc; cbn; [apply page_reads_page|]. case_if; [|auto]. apply page_reads_try; auto.
Qed.

Lemma preserves_listForUser P user : preserves P (listForUser user).
Proof.
  unfold listForUser. case_if; [apply preserves_query|]. apply preserves_bind; [apply preserves_query|intros; apply preserves_ret].
Qed.

Lemma reads_detail note user k : page_reads (detail note user k).
Proof.
  unfold detail. apply page_reads_try; [intros e; apply page_reads_page|]. intros vs. cbv zeta.
  assert (Hr : ∀ asg, page_reads (try_store (GetUpstream (skID k))
    (λ _, page (PgSkill k vs asg None (if skOutdated k then driftBlockFromUpstream None else None) note))
    (λ u, page (PgSkill k vs asg u (if skOutdated k then driftBlockFromUpstream u else None) note)))).
  { intros asg. apply page_reads_try; intros; apply page_reads_page. }
  case_if; [apply page_reads_try; [intros e; apply page_reads_page|]|]; auto.
Qed.

Section Guard.
Context `{Hashing} `{Formats} (csrf_mac : string → string).
Context (now : Z) (uuid : string) (io : list bool) (partial tmp : string).

(** An administrator's form with the token of the session. *)
Definition authorized (user : User) (sid : string) (r : PageRequest) : bool :=
  is_admin user && (Method (preq r) =?s "POST") && validateCSRF csrf_mac (preq r) sid.

Lemma reads_SkillNew user sid r : authorized user sid r = false →
  page_reads (HandleSkillNew csrf_mac now uuid io partial tmp user sid r).
Proof.
  unfold authorized, HandleSkillNew, requireAdmin, renderSkillNewWithError. intros Hn. destruct (is_admin user); [|apply page_reads_page].
  destruct (_ !=? "/skills/new"); [apply page_reads_page|]. destruct (_ =?s "GET"); [apply page_reads_page|].
  destruct (_ =?s "POST") eqn:Em; cbn [negb]; [|apply page_reads_page]. cbn [andb] in Hn.
  destruct (ParseMultipartForm _ r); [|apply page_reads_page..]. rewrite Hn. apply page_reads_page.
Qed.

Lemma reads_canRead user k next : (∀ b, page_reads (next b)) → page_reads (userCanReadSkill user k next).
Proof. intros Hn. unfold userCanReadSkill. case_if; [auto|]. case_if; [auto|]. apply page_reads_try; auto. Qed.

Lemma reads_SkillRoutes form_ok user sid r : authorized user sid r = false →
  page_reads (HandleSkillRoutes csrf_mac now form_ok user sid r).
Proof.
  unfold authorized, HandleSkillRoutes. intros Hn. cbv zeta. case_if; [apply page_reads_page|].
  apply page_reads_try; [intros e; apply page_reads_page|]. intros [k|]; [|apply page_reads_page]. unfold requireAdmin.
  match goal with |- page_reads (if is_admin user then ?s else _) => assert (Hs : page_reads s) end.
  { destruct (Split _ _) as [|a [|b l]];
      [|by case_if; [apply reads_detail|apply page_reads_page]|];
      (destruct (is_admin user); [|apply page_reads_page]; destruct (_ =?s "POST"); cbn [negb]; [|apply page_reads_page]; cbn [andb] in Hn;
       destruct (negb form_ok); [apply page_reads_page|]; rewrite Hn; apply page_reads_page). }
  case_if; [done|]. apply reads_canRead. intros []; [done|apply page_reads_page].
Qed.

(** Whatever page of the skill dashboard is requested with whatever
    form, and whichever statements fail, tables and archives change only for an
    administrator's POST that carries the token of the session. *)
Theorem skill_pages_guarded form_ok user sid r w :
  authorized user sid r = false →
  let w' := (skills_mux csrf_mac now uuid io partial tmp form_ok user sid r w).2 in
  tables (sdb w') = tables (sdb w) ∧ disk w' = disk w.
Proof.
  intros Hn. revert w. unfold skills_mux.
  assert (Hs : ∀ r', preq r' = preq r → page_reads (if Path (preq r') =?s "/skills" then HandleSkillsList user r'
    else if Path (preq r') =?s "/skills/new" then HandleSkillNew csrf_mac now uuid io partial tmp user sid r'
    else if HasPrefix (Path (preq r')) "/skills/" then HandleSkillRoutes csrf_mac now form_ok user sid r' else page PgNotFound)).
  { intros r' E. assert (Hn' : authorized user sid r' = false) by (unfold authorized; by rewrite E).
    case_if; [unfold HandleSkillsList; case_if; [apply page_reads_page|];
      apply page_reads_store; [intros P; apply preserves_listForUser|intros e; apply page_reads_page|intros l; apply reads_list_rows]|].
    case_if; [by apply reads_SkillNew|]. case_if; [by apply reads_SkillRoutes|apply page_reads_page]. }
  cbv zeta. case_if; [case_if; [|apply page_reads_page]|]; by apply Hs.
Qed.
End Guard.

(** ** The dashboard and the API *)




Section Agree.
Context `{Hashing} `{Formats} (csrf_mac : string → string).
Context (prompt : string) (cfg : Config) (client : option LLM) (materialize : string → list Action → result (list (string * Node))).
Context (checker : option GitEnv) (now : Z) (uuid : string) (io : list bool) (partial tmp : string) (tmpDir : result string).

End Agree.

(** ** The upload limit *)

Definition resized (n : Z) (r : PageRequest) : PageRequest :=
  mkPage (preq r) (mkMultipart n (mError (multipart r)) (mFile (multipart r))) (parsed r).

Section Limit.
Context `{Hashing} `{Formats} (csrf_mac : string → string).
Context (now : Z) (uuid : string) (io : list bool) (partial tmp : string).

(** On its own the upload page refuses a body above its limit
    before parsing it; behind [requireAuth], which looks for the token in the form, the
    whole form has been parsed without a limit by then, so a well-formed upload is
    handled in the same way whatever its size. *)
Theorem upload_limit_comes_late form_ok user sid r n w :
  mError (multipart r) = None → parsed r = false → Method (preq r) = "POST" →
  skills_mux csrf_mac now uuid io partial tmp form_ok user sid (resized n r) w
  = skills_mux csrf_mac now uuid io partial tmp form_ok user sid r w ∧
  (is_admin user = true → Path (preq r) = "/skills/new" → (skillUploadLimit < n)%Z →
   HandleSkillNew csrf_mac now uuid io partial tmp user sid (resized n r) w
   = renderSkillNewWithError r "Archive exceeds 5 MiB upload limit." w).
Proof.
  intros He Hp Hm. split.
  - unfold skills_mux. cbv zeta. unfold after_FormValue. cbn [preq resized multipart parsed mError]. rewrite Hm, He, Hp.
    change (state_changing "POST") with true. cbv iota. destruct (validateCSRF _ _ _); [|done].
    rewrite bool_decide_true by done. cbn [orb]. unfold HandleSkillsList, HandleSkillNew, HandleSkillRoutes, ParseMultipartForm. cbn. done.
  - intros Ha Hpath Hn. unfold HandleSkillNew, requireAdmin. cbn [preq resized]. rewrite Ha, Hpath, Hm. cbn [String.eqb Ascii.eqb Bool.eqb negb].
    unfold ParseMultipartForm. cbn [parsed resized multipart mError mSize]. rewrite Hp, He, (proj2 (Z.ltb_lt _ _) Hn). done.
Qed.

(** A valid slug whose page nobody can open: the form for new skills has its address. *)
Lemma new_slug_shadowed form_ok user sid r w :
  Method (preq r) = "GET" → Path (preq r) = "/skills/" +:+ "new" →
  ValidateSlug "new" = Ok tt ∧
  (skills_mux csrf_mac now uuid io partial tmp form_ok user sid r w).1
  = if is_admin user then PgSkillNew "" "" "" "" else PgStatus 403 "Admin access required".
Proof.
  intros Hm Hp. split; [reflexivity|]. unfold skills_mux, HandleSkillNew, requireAdmin. rewrite Hm, Hp.
  change (state_changing "GET") with false. cbn. by destruct (is_admin user).
Qed.
End Limit.

(** ** Concrete requests *)

Definition page_request (method path : string) (form : gmap string string) (m : Multipart) : PageRequest :=
  mkPage (mkRequest method path "" "text/html" "" "" "" (Some "sid") form [] "") m false.

Definition no_body : Multipart := mkMultipart 0 None None.

Definition toy_mac (s : string) : string := "mac:" +:+ s.

Definition demo_pages (user : User) (r : PageRequest) : PageHandler :=
  skills_mux (H:=toy_hashing) toy_mac 9 "k9" [] "" "tmp" true user "sid" r.

(** A user who deletes a skill, and a form without the token. *)
Definition delete_form (token : string) : PageRequest :=
  page_request "POST" "/skills/pdf/delete" {["csrf_token" := token]} no_body.

Lemma skill_pages_guarded_witness :
  let w' := (demo_pages demo_user (delete_form "mac:sid") demo_svc).2 in
  tables (sdb w') = tables (sdb demo_svc) ∧ disk w' = disk demo_svc.
Proof.
  exact (skill_pages_guarded (H:=toy_hashing) toy_mac 9 "k9" [] "" "tmp" true demo_user "sid" (delete_form "mac:sid") demo_svc eq_refl).
Defined.


Definition new_skill_form : PageRequest :=
  page_request "POST" "/skills/new" {["csrf_token" := "mac:sid"; "slug" := "pdf"; "version" := "1.1.0"]}
    (mkMultipart 100 None (Some (demo_archive "new", false))).

Definition page_admin : User := mkUser "a" "root" "" "admin" "admin" None false 0 None "".

(** A gigabyte around a small archive. *)
Lemma upload_limit_comes_late_witness :
  demo_pages page_admin (resized 1073741824 new_skill_form) demo_svc = demo_pages page_admin new_skill_form demo_svc ∧
  (demo_pages page_admin new_skill_form demo_svc).1 = PgRedirect "/skills/pdf".
Proof.
  split; [|by vm_compute].
  exact (proj1 (upload_limit_comes_late (H:=toy_hashing) toy_mac 9 "k9" [] "" "tmp" true page_admin "sid" new_skill_form 1073741824 demo_svc
    eq_refl eq_refl eq_refl)).
Defined.

(** The administrator's delete goes through with the token and not without. *)
Example delete_needs_token :
  skills (tables (sdb (demo_pages page_admin (delete_form "mac:sid") demo_svc).2)) = ∅ ∧
  (demo_pages page_admin (delete_form "") demo_svc).1 = PgStatus 403 "Invalid or missing CSRF token".
Proof. split; by vm_compute. Qed.
