(* ===== verification/RecipePages.v ===== *)
(** * The recipe pages

    [src/internal/web/recipes_dashboard.go] and the routes of
    [src/internal/web/handlers.go] that lead to it.  The pages run behind [requireAuth]
    ([WebAuth]); a page is represented by what its template is given, the recipe's data by
    their text without the indentation. *)
From S2P Require Import Prelude GoStrings Json JsonDecode AccessTiers Profiles Users WebAuth Servers Skills SkillService SkillsApi Recipes RecipeService RecipesApi.

(** ** The form *)

Definition form_get (form : gmap string string) (k : string) : string := default "" (form !! k).

Definition recipeFormValues (r : Request) : gmap string string :=
  let trimmed k := TrimSpace (FormValue r k) in
  list_to_map [("slug", trimmed "slug"); ("display_name", trimmed "display_name"); ("description", trimmed "description");
               ("visibility", FormValue r "visibility"); ("marketplace_source", trimmed "marketplace_source");
               ("plugin", trimmed "plugin"); ("enabled", FormValue r "enabled"); ("sparse_paths", trimmed "sparse_paths")].

(** Anything but these four words means on. *)
Definition form_enabled (v : string) : bool :=
  negb (existsb (λ x, ToLower v =?s x) ["off"; "false"; "0"; "no"]).

Definition form_paths (raw : string) : list string :=
  if raw =?s "" then [] else List.filter (λ t, t !=? "") (map TrimSpace (Split raw ","%char)).

Definition form_plugin (form : gmap string string) : ClaudePluginRecipe :=
  mkPlugin (form_get form "marketplace_source") (form_get form "plugin") (form_enabled (form_get form "enabled"))
    (form_paths (form_get form "sparse_paths")).

Definition buildClaudePluginRecipeData (form : gmap string string) : string := Marshal (plugin_json (form_plugin form)).

(** ** Pages *)

Inductive RecipePage :=
| RpNotFound
| RpStatus (code : Z) (msg : string)
| RpRedirect (location : string)
| RpRecipes (l : list SetupRecipe)
| RpRecipe (r : SetupRecipe) (assignments : list SetupRecipeAssignment)
| RpNew (error : string) (form : gmap string string).

Definition RecipeHandler : Type := DBM State RecipePage.

Section Pages.
Context (csrf_mac : string → string) (parses : string → bool) (now : Z) (uuid : string).

(** A store call whose error is answered with 500. *)
Definition or_500 {A} (m : DBM State A) (msg : string) (k : A → RecipeHandler) : RecipeHandler :=
  let! r := attempt m in
  match r with Ok a => k a | Err _ => db_ret (RpStatus 500 msg) end.

Definition requireAdmin_ (user : User) (k : RecipeHandler) : RecipeHandler :=
  if is_admin user then k else db_ret (RpStatus 403 "Admin access required").

Definition HandleRecipesList (user : User) (r : Request) : RecipeHandler :=
  if Path r !=? "/recipes" then db_ret RpNotFound
  else or_500 (list_for_user user) "failed to list recipes" (λ l, db_ret (RpRecipes l)).

Definition renderRecipeNewForm (msg : string) (form : gmap string string) : RecipeHandler := db_ret (RpNew msg form).

Definition create_from (user : User) (form : gmap string string) : RecipeHandler :=
  λ d, match Create parses uuid now (mkCreate (form_get form "slug") (form_get form "display_name") (form_get form "description")
               RecipeTypeClaudePlugin (buildClaudePluginRecipeData form) (form_get form "visibility") (uID user)) d with
       | (inr res, d') => (Ok (RpRedirect ("/recipes/" +:+ rcSlug res)), d')
       | (inl (EInvalid e), d') => renderRecipeNewForm e form d'
       | (inl ESlugConflict, d') => renderRecipeNewForm ("Slug " +:+ form_get form "slug" +:+ " is already in use.") form d'
       | (inl _, d') => renderRecipeNewForm "Internal error while creating recipe." form d'
       end.

(** [form_error]: what [r.ParseForm] answers. *)
Definition HandleRecipeNew (form_error : option string) (user : User) (sid : string) (r : Request) : RecipeHandler :=
  requireAdmin_ user (
    if Path r !=? "/recipes/new" then db_ret RpNotFound
    else if Method r =?s "GET" then renderRecipeNewForm "" ∅
    else if Method r !=? "POST" then db_ret (RpStatus 405 "method not allowed")
    else match form_error with
    | Some e => renderRecipeNewForm ("Invalid form: " +:+ e) ∅
    | None =>
        if negb (validateCSRF csrf_mac r sid) then db_ret (RpStatus 403 "invalid csrf token")
        else create_from user (recipeFormValues r)
    end).

(** A failed lookup hides the recipe. *)
Definition userCanReadRecipe (user : User) (recipe : SetupRecipe) : DBM State bool :=
  if bool_decide (is_Some (rcYankedAt recipe)) then db_ret false
  else if rcVisibility recipe =?s "public" then db_ret true
  else let! r := attempt (ListAssignmentsForRecipe (rcID recipe)) in
       db_ret (match r with Ok l => existsb (λ a, gUserID a =?s uID user) l | Err _ => false end).

Definition renderRecipeDetail (user : User) (recipe : SetupRecipe) : RecipeHandler :=
  if is_admin user
  then or_500 (ListAssignmentsForRecipe (rcID recipe)) "failed to load assignments" (λ l, db_ret (RpRecipe recipe l))
  else db_ret (RpRecipe recipe []).

Definition recipe_action (slug : string) (recipe : SetupRecipe) (act : string) : RecipeHandler :=
  let back := λ _ : unit, db_ret (RpRedirect ("/recipes/" +:+ slug)) in
  if act =?s "yank" then or_500 (YankRecipe now (rcID recipe)) "yank failed" back
  else if act =?s "unyank" then or_500 (UnyankRecipe now (rcID recipe)) "unyank failed" back
  else if act =?s "delete" then or_500 (DeleteRecipe (rcID recipe)) "delete failed" (λ _, db_ret (RpRedirect "/recipes"))
  else db_ret RpNotFound.

Definition HandleRecipeRoutes (form_error : option string) (user : User) (sid : string) (r : Request) : RecipeHandler :=
  let rest := TrimPrefix (Path r) "/recipes/" in
  if rest =?s "" then db_ret (RpRedirect "/recipes")
  else
    let parts := Split rest "/"%char in
    let slug := hd "" parts in
    or_500 (GetRecipeBySlug slug) "internal error" (λ found,
      match found with
      | None => db_ret RpNotFound
      | Some recipe =>
          let! ok := if is_admin user then db_ret true else userCanReadRecipe user recipe in
          if negb ok then db_ret RpNotFound
          else match parts with
          | _ :: act :: _ =>
              requireAdmin_ user (
                if Method r !=? "POST" then db_ret (RpStatus 405 "method not allowed")
                else if bool_decide (is_Some form_error) then db_ret (RpStatus 400 "invalid form")
                else if negb (validateCSRF csrf_mac r sid) then db_ret (RpStatus 403 "invalid csrf token")
                else recipe_action slug recipe act)
          | _ => if Method r =?s "GET" then renderRecipeDetail user recipe else db_ret (RpStatus 405 "method not allowed")
          end
      end).

(** The patterns [/recipes], [/recipes/new] and [/recipes/] of the mux. *)
Definition recipes_mux (form_error : option string) (user : User) (sid : string) (r : Request) : RecipeHandler :=
  if Path r =?s "/recipes" then HandleRecipesList user r
  else if Path r =?s "/recipes/new" then HandleRecipeNew form_error user sid r
  else if HasPrefix (Path r) "/recipes/" then HandleRecipeRoutes form_error user sid r
  else db_ret RpNotFound.
End Pages.

(** ** Who changes what *)
Section Guard.
Context (csrf_mac : string → string) (parses : string → bool) (now : Z) (uuid : string) (P : State → Prop).

Lemma preserves_or_500 {A} (m : DBM State A) msg k :
  preserves P m → (∀ a, preserves P (k a)) → preserves P (or_500 m msg k).
Proof. intros Hm Hk. apply preserves_bind; [by apply preserves_attempt|]. intros [a|e]; [apply Hk|apply preserves_ret]. Qed.

Lemma preserves_canReadRecipe user recipe : preserves P (userCanReadRecipe user recipe).
Proof.
  unfold userCanReadRecipe. repeat (case_if; [apply preserves_ret|]).
  apply preserves_bind; [apply preserves_attempt, preserves_query|intros; apply preserves_ret].
Qed.

Lemma preserves_recipe_detail user recipe : preserves P (renderRecipeDetail user recipe).
Proof. unfold renderRecipeDetail. case_if; [|apply preserves_ret]. apply preserves_or_500; [apply preserves_query|intros; apply preserves_ret]. Qed.

Lemma mux_preserves form_error user sid r :
  is_admin user && (Method r =?s "POST") && validateCSRF csrf_mac r sid = false →
  preserves P (recipes_mux csrf_mac parses now uuid form_error user sid r).
Proof.
  intros Hn. unfold recipes_mux. case_if; [|case_if; [|case_if; [|apply preserves_ret]]].
  - unfold HandleRecipesList. case_if; [apply preserves_ret|]. apply preserves_or_500; [|intros; apply preserves_ret].
    unfold list_for_user. case_if; apply preserves_query.
  - unfold HandleRecipeNew, requireAdmin_, renderRecipeNewForm. destruct (is_admin user); [|apply preserves_ret].
    destruct (_ !=? "/recipes/new"); [apply preserves_ret|]. destruct (Method r =?s "GET"); [apply preserves_ret|].
    destruct (Method r =?s "POST"); cbn [negb]; [|apply preserves_ret]. destruct form_error; [apply preserves_ret|].
    cbn [andb] in Hn. rewrite Hn. apply preserves_ret.
  - unfold HandleRecipeRoutes. cbv zeta. case_if; [apply preserves_ret|]. apply preserves_or_500; [apply preserves_query|].
    intros [recipe|]; [|apply preserves_ret]. apply preserves_bind; [case_if; [apply preserves_ret|apply preserves_canReadRecipe]|].
    intros [|]; cbn [negb]; [|apply preserves_ret].
    assert (Hd : preserves P (if Method r =?s "GET" then renderRecipeDetail user recipe else db_ret (RpStatus 405 "method not allowed")))
      by (case_if; [apply preserves_recipe_detail|apply preserves_ret]).
    destruct (Split _ _) as [|a [|b l]]; [done..|]. unfold requireAdmin_. destruct (is_admin user); [|apply preserves_ret].
    destruct (Method r =?s "POST"); cbn [negb]; [|apply preserves_ret]. destruct (bool_decide _); [apply preserves_ret|].
    cbn [andb] in Hn. rewrite Hn. apply preserves_ret.
Qed.
End Guard.

(** Whatever page of the recipe dashboard is requested with
    whatever form, and whichever statements fail, the tables change only for an
    administrator's POST that carries the token of the session. *)
Theorem recipe_pages_guarded csrf_mac parses now uuid form_error user sid r d :
  is_admin user && (Method r =?s "POST") && validateCSRF csrf_mac r sid = false →
  final (recipes_mux csrf_mac parses now uuid form_error user sid r) d = tables d.
Proof. intros Hn. symmetry. by apply (mux_preserves csrf_mac parses now uuid (eq (tables d)) form_error user sid r Hn). Qed.

(** ** The dashboard and the API *)

(** For every user the page of a recipe is not found exactly
    when a GET of that recipe from the API is answered with 404, on the same tables and
    whichever statements fail. *)
Theorem recipe_pages_agree_with_api csrf_mac parses now form_error user sid key r a slug d :
  slug ≠ "" → all_chars not_slash slug = true →
  Method r = "GET" → Path r = "/recipes/" +:+ slug → rMethod a = "GET" → rPath a = "/api/recipes/" +:+ slug →
  (outcome (HandleRecipeRoutes csrf_mac now form_error user sid r) d = Ok RpNotFound ↔
   ∃ msg, outcome (HandleRecipeByPath parses now (Some user) key a) d = Ok (RError 404 msg)).
Proof.
  intros Hne Hsl Hm Hp Hm' Hp'. unfold HandleRecipeRoutes, HandleRecipeByPath, path_parts.
  rewrite Hp, Hp', !TrimPrefix_app, (Split_none slug Hsl). cbn [hd length Nat.eqb]. rewrite (proj2 (String.eqb_neq _ _) Hne), Hm, Hm'.
  cbn [String.eqb Ascii.eqb Bool.eqb andb]. unfold outcome, or_500, call. unfold db_bind at 1 3. rewrite !attempt_run.
  destruct (GetRecipeBySlug slug d) as [[[recipe|]|e] d1]; cbn [fst snd]; [|split; [intros _; by eexists|done]|split; [done|by intros [? [=]]]].
  unfold route. rewrite Hm'. cbn [String.eqb Ascii.eqb Bool.eqb]. destruct (is_admin user) eqn:Ea; cbn [negb andb].
  - unfold renderRecipeDetail, or_500. rewrite Ea. unfold db_bind, db_ret. cbn [negb]. rewrite attempt_run.
    destruct (ListAssignmentsForRecipe _ d1) as [[l|e] d2]; (split; [done|by intros [? [=]]]).
  - unfold db_bind at 1 2. change (userCanRead user recipe) with (userCanReadRecipe user recipe).
    destruct (userCanReadRecipe user recipe d1) as [[[|]|e] d2]; cbn [negb].
    + unfold renderRecipeDetail. rewrite Ea. split; [done|by intros [? [=]]].
    + split; [intros _; by eexists|done].
    + split; [done|by intros [? [=]]].
Qed.

(** ** What a form creates *)

(** On a healthy database an administrator's form with a free valid
    slug and a plugin that passes the checks creates exactly the recipe it describes: it
    decodes, for every client, to the plugin, source, paths and switch of the form. *)
Theorem recipe_form_stored csrf_mac parses now uuid user sid r s p :
  let form := recipeFormValues r in
  let slug := form_get form "slug" in
  let vis := form_get form "visibility" in
  is_admin user = true → Method r = "POST" → Path r = "/recipes/new" → validateCSRF csrf_mac r sid = true →
  ValidateSlug slug = Ok tt → recipe_by_slug slug s = None → recipes s !! uuid = None →
  vis = "" ∨ valid_visibility vis = true → known_user s (nullable (uID user)) = true →
  check_plugin parses (form_plugin form) = inr p →
  ∃ q, recipes_mux csrf_mac parses now uuid None user sid r (healthy s)
       = (Ok (RpRedirect ("/recipes/" +:+ slug)), healthy (with_recipes s (<[uuid := q]> (recipes s)))) ∧
    rcSlug q = slug ∧ rcVisibility q = (if vis =?s "" then "restricted" else vis) ∧ ∀ on, decode_plugin on (rcData q) = Some p.
Proof.
  intros form slug vis Ha Hm Hp Hc Hv Hs Hu Hvis Hk Hcheck. unfold recipes_mux. rewrite Hp. cbn [String.eqb Ascii.eqb Bool.eqb].
  unfold HandleRecipeNew, requireAdmin_. rewrite Ha, Hp, Hm, Hc. cbn [String.eqb Ascii.eqb Bool.eqb negb]. fold form.
  unfold create_from, Create. cbn [ciSlug ciRecipeType ciRecipeData ciDisplayName ciDescription ciVisibility ciCreatedBy]. fold slug. fold vis. rewrite Hv.
  unfold ValidateRecipeData, buildClaudePluginRecipeData. destruct (plugin_json_nonempty (form_plugin form)) as [-> ->].
  change (RecipeTypeClaudePlugin !=? RecipeTypeClaudePlugin) with false. cbn [orb]. rewrite decode_plugin_json, Hcheck. cbv zeta.
  unfold CreateRecipe. cbn [rcSlug rcID rcVisibility rcType rcData rcDisplayName rcDescription rcCreatedBy rcYankedAt]. rewrite Hv.
  change ("" =?s "") with true. change (RecipeTypeClaudePlugin =?s "") with false. cbv iota zeta.
  destruct (plugin_json_nonempty p) as [-> _].
  assert (Hvv : valid_visibility (if vis =?s "" then "restricted" else vis) = true).
  { destruct Hvis as [->|Hvis]; [done|]. by case_if. }
  rewrite Hvv. cbn [negb]. rewrite exec_healthy. change (RecipeTypeClaudePlugin !=? RecipeTypeClaudePlugin) with false.
  rewrite Hs, Hu, Hk, !bool_decide_false by (by intros [? [=]]). cbn [orb negb].
  eexists. split; [reflexivity|]. cbn. split_and!; [done..|]. intros on. apply decode_plugin_json.
Qed.

(** A browser sends nothing for a box that is not checked, and
    nothing is taken for on: the form cannot create a recipe that leaves its plugin
    disabled. *)
Theorem unchecked_box_enables r : Form r !! "enabled" = None → Enabled (form_plugin (recipeFormValues r)) = true.
Proof.
  intros Hn. assert (E : form_get (recipeFormValues r) "enabled" = "").
  { unfold recipeFormValues, form_get, FormValue. rewrite Hn. reflexivity. }
  unfold form_plugin. cbn [Enabled]. by rewrite E.
Qed.

(** ** Concrete requests *)

Definition recipe_page_request (method path : string) (form : gmap string string) : Request :=
  mkRequest method path "" "text/html" "" "" "" (Some "sid") form [] "".

Definition session_mac (s : string) : string := "mac:" +:+ s.

Definition recipe_admin : User := mkUser "a" "root" "" "admin" "admin" None false 0 None "".

Definition new_recipe_form : Request :=
  recipe_page_request "POST" "/recipes/new"
    {["csrf_token" := "mac:sid"; "slug" := " fmt "; "marketplace_source" := "acme/tools"; "plugin" := "fmt@acme";
      "sparse_paths" := "plugins/fmt, ,docs"]}.

Lemma recipe_pages_guarded_witness :
  final (recipes_mux session_mac (λ _, true) 5 "r2" None recipe_reader "sid"
    (recipe_page_request "POST" "/recipes/lint/delete" {["csrf_token" := "mac:sid"]})) (healthy demo_recipes) = demo_recipes.
Proof.
  exact (recipe_pages_guarded session_mac (λ _, true) 5 "r2" None recipe_reader "sid"
    (recipe_page_request "POST" "/recipes/lint/delete" {["csrf_token" := "mac:sid"]}) (healthy demo_recipes) eq_refl).
Defined.

Lemma recipe_pages_agree_with_api_witness :
  outcome (HandleRecipeRoutes session_mac 5 None recipe_reader "sid" (recipe_page_request "GET" "/recipes/lint" ∅)) (healthy demo_recipes)
  = Ok RpNotFound ↔
  ∃ msg, outcome (HandleRecipeByPath (λ _, true) 5 (Some recipe_reader) None (recipe_request "GET" "/api/recipes/lint" "")) (healthy demo_recipes)
         = Ok (RError 404 msg).
Proof.
  exact (recipe_pages_agree_with_api session_mac (λ _, true) 5 None recipe_reader "sid" None (recipe_page_request "GET" "/recipes/lint" ∅)
    (recipe_request "GET" "/api/recipes/lint" "") "lint" (healthy demo_recipes) ltac:(discriminate) eq_refl eq_refl eq_refl eq_refl eq_refl).
Defined.

Lemma recipe_form_stored_witness :
  ∃ q, recipes_mux session_mac (λ _, true) 5 "r2" None recipe_admin "sid" new_recipe_form (healthy demo_recipes)
       = (Ok (RpRedirect "/recipes/fmt"), healthy (with_recipes demo_recipes (<["r2" := q]> (recipes demo_recipes)))) ∧
    rcSlug q = "fmt" ∧ rcVisibility q = "restricted" ∧
    ∀ on, decode_plugin on (rcData q) = Some (mkPlugin "acme/tools" "fmt@acme" true ["plugins/fmt"; "docs"]).
Proof.
  exact (recipe_form_stored session_mac (λ _, true) 5 "r2" recipe_admin "sid" new_recipe_form demo_recipes
    (mkPlugin "acme/tools" "fmt@acme" true ["plugins/fmt"; "docs"])
    eq_refl eq_refl eq_refl eq_refl eq_refl eq_refl eq_refl (or_introl eq_refl) eq_refl eq_refl).
Defined.

Lemma unchecked_box_enables_witness : Enabled (form_plugin (recipeFormValues new_recipe_form)) = true.
Proof. exact (unchecked_box_enables new_recipe_form eq_refl). Defined.
