(* ===== verification/RequestLogs.v ===== *)
(** * The request log

    [src/internal/store/request_logs.go] over the table of migrations 001 and 011, and the
    log page, [handleLogs] of [src/internal/web/handlers.go].  The entries [Proxy] hands to
    [logRequest] are stored here. *)
From S2P Require Import Prelude GoStrings Json JsonDecode AccessTiers Profiles Users Servers Skills SkillsApi MemoryApi.
From S2P Require Proxy.

(** ** The table *)

(** [user_id] and [server_id] become NULL when what they refer to is deleted. *)
Record LogRow := mkRow {
  rwID : string; rwTimestamp : Z; rwUser : option string; rwServer : option string; rwMethod : string;
  rwEndpoint : string; rwDuration : Z; rwStatus : string; rwError : string }.

(** The rows in the order of insertion. *)
Record State := mkState { accounts : Users.State; backends : Servers.State; rows : list LogRow }.

Definition with_rows (s : State) (l : list LogRow) : State := mkState (accounts s) (backends s) l.

Record RequestLog := mkRequestLog {
  rlID : string; rlTimestamp : Z; rlUserID : string; rlUsername : string; rlServerID : string; rlServerName : string;
  rlMethod : string; rlEndpointName : string; rlDurationMs : Z; rlStatus : string; rlErrorMsg : string }.

(** [uuid] is the fresh id; the caller leaves id and time empty. *)
Definition Create (uuid : string) (now : Z) (rl : Proxy.RequestLog) : DBM State unit :=
  exec (λ s,
    if existsb (λ r, rwID r =?s uuid) (rows s) then Err "creating request log: UNIQUE constraint failed"
    else if bool_decide (is_Some (Users.users (accounts s) !! Proxy.LogUserID rl))
            && bool_decide (is_Some (backends s !! Proxy.LogServerID rl))
    then Ok (tt, with_rows s (rows s ++ [mkRow uuid now (Some (Proxy.LogUserID rl)) (Some (Proxy.LogServerID rl))
                                          (Proxy.LogMethod rl) (Proxy.LogEndpointName rl) (Proxy.LogDurationMs rl)
                                          (Proxy.LogStatus rl) (Proxy.LogErrorMsg rl)]))
    else Err ("creating request log: " +:+ fk_failed)).

(** [ON DELETE SET NULL] *)
Definition unset (id : string) (r : option string) : option string := if bool_decide (r = Some id) then None else r.

Definition forget_log_user (id : string) (r : LogRow) : LogRow :=
  mkRow (rwID r) (rwTimestamp r) (unset id (rwUser r)) (rwServer r) (rwMethod r) (rwEndpoint r) (rwDuration r) (rwStatus r) (rwError r).

Definition forget_log_server (id : string) (r : LogRow) : LogRow :=
  mkRow (rwID r) (rwTimestamp r) (rwUser r) (unset id (rwServer r)) (rwMethod r) (rwEndpoint r) (rwDuration r) (rwStatus r) (rwError r).

(** What deleting a user or a server does to the log. *)
Definition log_delete_user (id : string) (s : State) : State :=
  mkState (Users.delete_user id (accounts s)) (backends s) (map (forget_log_user id) (rows s)).

Definition log_delete_server (id : string) (s : State) : State :=
  mkState (accounts s) (delete id (backends s)) (map (forget_log_server id) (rows s)).

(** ** Reading rows *)

(** A NULL cannot be scanned into a string. *)
Definition scan_log (s : State) (r : LogRow) : option RequestLog :=
  match rwUser r, rwServer r with
  | Some u, Some sv =>
      Some (mkRequestLog (rwID r) (rwTimestamp r) u (username_of (accounts s) u) sv (from_option Name "" (backends s !! sv))
              (rwMethod r) (rwEndpoint r) (rwDuration r) (rwStatus r) (rwError r))
  | _, _ => None
  end.

(** The first row that cannot be scanned ends the listing. *)
Definition scanLogs (s : State) (l : list LogRow) : result (list RequestLog) :=
  match mapM (scan_log s) l with Some out => Ok out | None => Err "scanning request log" end.

Definition newer (a b : LogRow) : bool := (rwTimestamp b <=? rwTimestamp a)%Z.

(** A query of rows, then the scan. *)
Definition list_logs (pick : State → list LogRow) : DBM State (list RequestLog) :=
  let! r := query (λ s, scanLogs s (pick s)) in
  match r with Ok l => db_ret l | Err e => db_fail e end.

Definition Recent (limit : Z) : DBM State (list RequestLog) :=
  list_logs (λ s, sql_limit limit (stable_sort newer (rows s))).

Definition of_server (id : string) (r : LogRow) : bool := bool_decide (rwServer r = Some id).

Definition ByServer (serverID : string) (limit : Z) : DBM State (list RequestLog) :=
  list_logs (λ s, sql_limit limit (stable_sort newer (List.filter (of_server serverID) (rows s)))).

(** ** Counting *)

(** [AVG] is a float.  Scanned into an int it goes through its shortest decimal text, which
    is an integer only for a whole number below a million. *)
Definition scan_avg (total count : Z) : option Z :=
  if (total mod count =? 0)%Z && (Z.abs (total / count) <? 1000000)%Z then Some (total / count)%Z else None.

Definition durations (l : list LogRow) : Z := foldr (λ r n, rwDuration r + n)%Z 0%Z l.
Definition count (l : list LogRow) : Z := Z.of_nat (length l).
Definition errors (l : list LogRow) : Z := count (List.filter (λ r, rwStatus r =?s "error") l).

Record LogStats := mkStats { TotalRequests24h : Z; Errors24h : Z; AvgDurationMs : Z; StatByServer : list (string * Z) }.

(** The values of a column, each once. *)
Definition groups {K} `{EqDecision K} (key : LogRow → K) (l : list LogRow) : list (K * list LogRow) :=
  map (λ k, (k, List.filter (λ r, bool_decide (key r = k)) l)) (remove_dups (map key l)).

Definition Stats (now : Z) : DBM State LogStats :=
  let recent s := List.filter (λ r, now - 24 * hour <=? rwTimestamp r)%Z (rows s) in
  let! l := query recent in
  match (if bool_decide (l = []) then Some 0%Z else scan_avg (durations l) (count l)) with
  | None => db_fail "querying log stats"
  | Some avg =>
      let! r := attempt (query (λ s,
        stable_sort (λ a b : string * Z, b.2 <=? a.2)%Z
          (map (λ g, (from_option (λ id, from_option Name "unknown" (backends s !! id)) "unknown" g.1, count g.2))
             (groups rwServer (recent s))))) in
      db_ret (mkStats (count l) (errors l) avg (match r with Ok l => l | Err _ => [] end))
  end.

Record EndpointCallCount := mkEndpointCount { ecName : string; ecCalls : Z; ecErrors : Z; ecAvg : Z }.

(** A group that cannot be scanned is left out. *)
Definition count_of (g : string * list LogRow) : option EndpointCallCount :=
  avg ← scan_avg (durations g.2) (count g.2); Some (mkEndpointCount g.1 (count g.2) (errors g.2) avg).

Definition named_rows (serverID : string) (s : State) : list LogRow :=
  List.filter (λ r, of_server serverID r && (rwEndpoint r !=? "")) (rows s).

Definition EndpointCounts (serverID : string) : DBM State (list EndpointCallCount) :=
  query (λ s, omap count_of (groups rwEndpoint (named_rows serverID s))).

(** The group of deleted servers cannot be scanned. *)
Definition ServerTotalCounts : DBM State (gmap string Z) :=
  query (λ s, list_to_map (omap (λ g, k ← g.1; Some (k, count g.2)) (groups rwServer (rows s)))).

Definition DistinctUsers : DBM State (list (string * string)) :=
  query (λ s, stable_sort (λ a b, String.leb a.2 b.2)
    (map (λ u, (u, username_of (accounts s) u)) (remove_dups (List.filter (λ u, u !=? "") (omap rwUser (rows s)))))).

(** ** Filters and pages *)

Record LogFilter := mkFilter { fServerID : string; fUserID : string; fStatus : string; fLimit : Z; fOffset : Z }.

Definition matches (f : LogFilter) (r : LogRow) : bool :=
  ((fServerID f =?s "") || bool_decide (rwServer r = Some (fServerID f)))
  && ((fUserID f =?s "") || bool_decide (rwUser r = Some (fUserID f)))
  && ((fStatus f =?s "") || (rwStatus r =?s fStatus f)).

(** A negative offset is none. *)
Definition sql_offset {A} (offset : Z) (l : list A) : list A := drop (Z.to_nat offset) l.

(** The listing, and the total, which is returned although a row could not be scanned. *)
Definition FilteredLogs (f : LogFilter) : DBM State (result (list RequestLog) * Z) :=
  let limit := if (fLimit f <=? 0)%Z then 50%Z else fLimit f in
  let! total := query (λ s, count (List.filter (matches f) (rows s))) in
  let! l := query (λ s, scanLogs s (sql_limit limit (sql_offset (fOffset f) (stable_sort newer (List.filter (matches f) (rows s)))))) in
  db_ret (l, total).

(** ** The page *)

Fixpoint skip_blanks (s : string) : string :=
  match s with
  | String c r => if (byte c =? 32) || (byte c =? 9) || (byte c =? 11) || (byte c =? 12) || (byte c =? 13) then skip_blanks r else s
  | EmptyString => s
  end.

Fixpoint leading_digits (s : string) : string :=
  match s with
  | String c r => if is_digit c then String c (leading_digits r) else EmptyString
  | EmptyString => EmptyString
  end.

(** [fmt.Sscanf(s, "%d", &v)]: [None] leaves the variable as it is. *)
Definition Sscan_d (s : string) : option Z :=
  let s := skip_blanks s in
  let neg := HasPrefix s "-" in
  let body := if neg || HasPrefix s "+" then drop_str 1 s else s in
  match leading_digits body with
  | EmptyString => None
  | ds => z ← digits ds 0; let z := if neg then (- z)%Z else z in
          if (min_int <=? z)%Z && (z <=? max_int)%Z then Some z else None
  end.

Definition log_page_of (s : string) : Z := if s =?s "" then 1%Z else Z.max 1 (default 1%Z (Sscan_d s)).

Definition perPage : Z := 50.

Record LogPage := mkLogPage {
  lpLogs : list RequestLog; lpUsers : list (string * string); lpPage : Z; lpTotalPages : Z; lpTotal : Z }.

(** [None]: not an administrator.  [present]: the log store is configured. *)
Definition handleLogs (present : bool) (user : User) (q : gmap string string) : DBM State (option LogPage) :=
  if negb (is_admin user) then db_ret None
  else
    let get k := default "" (q !! k) in
    let page := log_page_of (get "page") in
    let! res := if present then attempt (FilteredLogs (mkFilter (get "server") (get "user") (get "status") perPage
                                  (wrap64 ((page - 1) * perPage))))
                else db_ret (Ok (Ok [], 0%Z)) in
    let! users := if present then attempt DistinctUsers else db_ret (Ok []) in
    let '(logs, total) := match res with Ok (Ok l, n) => (l, n) | Ok (Err _, n) => ([], n) | Err _ => ([], 0%Z) end in
    db_ret (Some (mkLogPage logs (match users with Ok l => l | Err _ => [] end) page
                    (Z.max 1 ((total + perPage - 1) / perPage)) total)).

(** ** The pages are the log *)

(** Every entry still has its user and its server. *)
Definition complete (s : State) : Prop := Forall (λ r, is_Some (rwUser r) ∧ is_Some (rwServer r)) (rows s).

(** The entries of a filter, newest first, as they are shown. *)
Definition matching (f : LogFilter) (s : State) : list LogRow := stable_sort newer (List.filter (matches f) (rows s)).

Lemma scan_complete s l : Forall (λ r, is_Some (rwUser r) ∧ is_Some (rwServer r)) l → scanLogs s l = Ok (omap (scan_log s) l).
Proof.
  intros Hl. unfold scanLogs. enough (E : mapM (scan_log s) l = Some (omap (scan_log s) l)) by (by rewrite E).
  induction Hl as [|r l [[u Hu] [sv Hs]] Hl IH]; [done|].
  assert (E : ∃ x, scan_log s r = Some x) by (unfold scan_log; rewrite Hu, Hs; eauto). destruct E as [x E].
  cbn [mapM omap list_omap]. rewrite E. cbn. by rewrite IH.
Qed.

Section Pages.
Context (user : User) (Hadmin : is_admin user = true) (q : gmap string string).

Definition page_filter : LogFilter :=
  mkFilter (default "" (q !! "server")) (default "" (q !! "user")) (default "" (q !! "status")) perPage 0.

(** What the page shows when the [page] parameter is this. *)
Definition shown_logs (page : string) (s : State) : list RequestLog :=
  match outcome (handleLogs true user (<["page" := page]> q)) (healthy s) with Ok (Some p) => lpLogs p | _ => [] end.

Definition announced (s : State) : nat :=
  match outcome (handleLogs true user q) (healthy s) with Ok (Some p) => Z.to_nat (lpTotalPages p) | _ => 0 end.

Lemma handleLogs_run q' s :
  let f := mkFilter (default "" (q' !! "server")) (default "" (q' !! "user")) (default "" (q' !! "status")) perPage 0 in
  let page := log_page_of (default "" (q' !! "page")) in
  let total := count (matching f s) in
  ∃ us, handleLogs true user q' (healthy s) =
    (Ok (Some (mkLogPage (match scanLogs s (take 50 (drop (Z.to_nat (wrap64 ((page - 1) * perPage))) (matching f s))) with Ok l => l | Err _ => [] end)
       us page (Z.max 1 ((total + perPage - 1) / perPage)) total)), healthy s).
Proof.
  cbv zeta. eexists. unfold handleLogs. rewrite Hadmin. cbn [negb].
  unfold db_bind, attempt, FilteredLogs, DistinctUsers, query, exec, healthy, db_ret, count. cbn -[wrap64 scanLogs log_page_of stable_sort].
  unfold matching, count, matches. cbn [fServerID fUserID fStatus].
  rewrite (Permutation_length (stable_sort_perm newer _)). unfold sql_offset. by destruct (scanLogs _ _).
Qed.

(** While nothing the log refers to was deleted, the pages of the log,
    from the first to the last the page announces, are all entries that match the filters,
    each once and newest first. *)
Theorem log_pages_cover s (number : nat → string) :
  complete s → (Z.of_nat (length (rows s)) < 2 ^ 60)%Z →
  (∀ k, 1 ≤ k ≤ announced s → log_page_of (number k) = Z.of_nat k) →
  flat_map (λ k, shown_logs (number k) s) (seq 1 (announced s)) = omap (scan_log s) (matching page_filter s).
Proof.
  intros Hc Hlen Hnum. set (L := matching page_filter s).
  assert (HL : length L ≤ length (rows s)).
  { unfold L, matching. rewrite (Permutation_length (stable_sort_perm newer _)). apply filter_length_le. }
  assert (HcL : Forall (λ r, is_Some (rwUser r) ∧ is_Some (rwServer r)) L).
  { unfold L, matching. rewrite stable_sort_perm. apply Forall_forall. intros r Hr. rewrite list_elem_of_In, filter_In, <- list_elem_of_In in Hr.
    unfold complete in Hc. rewrite Forall_forall in Hc. apply Hc, Hr. }
  assert (Hn : announced s = Z.to_nat (Z.max 1 ((count L + perPage - 1) / perPage))).
  { unfold announced, outcome. by destruct (handleLogs_run q s) as [us ->]. }
  assert (Hb : length L ≤ announced s * 50 ∧ (Z.of_nat (announced s) * 50 < 2 ^ 61)%Z).
  { rewrite Hn. unfold count, perPage. pose proof (Z.div_mod (Z.of_nat (length L) + 50 - 1) 50 ltac:(lia)).
    pose proof (Z.mod_pos_bound (Z.of_nat (length L) + 50 - 1) 50 ltac:(lia)). lia. }
  assert (Hk : ∀ k, k ∈ seq 1 (announced s) → shown_logs (number k) s = omap (scan_log s) (take 50 (drop ((k - 1) * 50) L))).
  { intros k Hk%elem_of_seq. unfold shown_logs, outcome. destruct (handleLogs_run (<["page" := number k]> q) s) as [us ->]. cbn [fst lpLogs].
    rewrite lookup_insert_eq, !lookup_insert_ne by done. change (default "" (Some (number k))) with (number k). rewrite Hnum by lia. fold page_filter. fold L.
    replace (Z.to_nat (wrap64 ((Z.of_nat k - 1) * perPage))) with ((k - 1) * 50) by (unfold wrap64, perPage; rewrite Z.mod_small by lia; lia).
    rewrite scan_complete; [done|]. by apply Forall_take, Forall_drop. }
  clear -Hk Hb. transitivity (omap (scan_log s) (flat_map (λ k, take 50 (drop ((k - 1) * 50) L)) (seq 1 (announced s)))).
  - clear Hb. induction (seq 1 (announced s)) as [|x l IH]; [done|]. cbn [flat_map]. rewrite omap_app. f_equal; [apply Hk; by left|].
    apply IH. intros k Hin. apply Hk. by right.
  - rewrite pages_concat, take_ge by lia. done.
Qed.
End Pages.

(** ** After a deletion *)

Lemma stable_sort_map {A B} (f : A → B) (leb : A → A → bool) (leb' : B → B → bool) l :
  (∀ a b, leb' (f a) (f b) = leb a b) → stable_sort leb' (map f l) = map f (stable_sort leb l).
Proof.
  intros Hf. assert (Hi : ∀ x l, insert_sorted leb' (f x) (map f l) = map f (insert_sorted leb x l)).
  { intros x l'. induction l' as [|y l' IH]; [done|]. cbn. rewrite Hf. case_if; [done|]. cbn. by rewrite IH. }
  unfold stable_sort. induction l as [|x l IH]; [done|]. cbn. rewrite IH. apply Hi.
Qed.

Lemma scan_orphan s l r : r ∈ l → rwUser r = None → scanLogs s l = Err "scanning request log".
Proof.
  intros Hr Hn. unfold scanLogs. enough (E : mapM (scan_log s) l = None) by (by rewrite E).
  apply mapM_None_2, Exists_exists. exists r. split; [done|]. unfold scan_log. by rewrite Hn.
Qed.

Lemma matching_all s f : fServerID f = "" → fUserID f = "" → fStatus f = "" → matching f s = stable_sort newer (rows s).
Proof.
  intros H1 H2 H3. assert (Hm : ∀ r, matches f r = true) by (intros r; unfold matches; by rewrite H1, H2, H3).
  unfold matching. f_equal. induction (rows s) as [|r l IH]; [done|]. cbn. by rewrite Hm, IH.
Qed.

(** Deleting a user sets the user of the entries to NULL,
    which the listing cannot read: the log page shows no entry at all, whoever made the
    others, when one of the fifty newest was that user's, while it still counts them. *)
Theorem deleted_user_empties_log_page admin s u r :
  is_admin admin = true → r ∈ take 50 (stable_sort newer (rows s)) → rwUser r = Some u →
  ∃ us pages, handleLogs true admin ∅ (healthy (log_delete_user u s))
    = (Ok (Some (mkLogPage [] us 1 pages (count (rows s)))), healthy (log_delete_user u s)).
Proof.
  intros Ha Hr Hu. destruct (handleLogs_run admin Ha ∅ (log_delete_user u s)) as [us E]. rewrite !lookup_empty in E. cbn [default] in E.
  exists us. eexists. rewrite E. set (f := mkFilter _ _ _ _ _) in *.
  assert (HM : matching f (log_delete_user u s) = map (forget_log_user u) (stable_sort newer (rows s))).
  { rewrite matching_all by done. cbn [rows log_delete_user]. by apply stable_sort_map. }
  rewrite HM. change (Z.to_nat (wrap64 ((log_page_of (default "" None) - 1) * perPage))) with 0. rewrite drop_0.
  rewrite (scan_orphan _ _ (forget_log_user u r)).
  - unfold count. by rewrite length_map, (Permutation_length (stable_sort_perm newer (rows s))).
  - rewrite <- fmap_take. by apply list_elem_of_fmap_2.
  - cbn. unfold unset. by rewrite Hu, bool_decide_true.
Qed.

(** ** Calls per endpoint *)

Definition calls_of (serverID endpoint : string) (s : State) : list LogRow :=
  List.filter (λ r, of_server serverID r && (rwEndpoint r !=? "") && (rwEndpoint r =?s endpoint)) (rows s).

Lemma elem_of_groups {K} `{EqDecision K} (key : LogRow → K) l g :
  g ∈ groups key l ↔ g.1 ∈ map key l ∧ g.2 = List.filter (λ r, bool_decide (key r = g.1)) l.
Proof.
  unfold groups. rewrite list_elem_of_fmap. setoid_rewrite elem_of_remove_dups. split.
  - intros (k & -> & Hk). done.
  - intros [Hk Hg]. exists g.1. destruct g as [k x]. cbn in *. by rewrite Hg.
Qed.

Lemma calls_of_group serverID e s :
  List.filter (λ r, bool_decide (rwEndpoint r = e)) (named_rows serverID s) = calls_of serverID e s.
Proof.
  unfold named_rows, calls_of. induction (rows s) as [|r l IH]; [done|]. cbn. rewrite <- IH.
  destruct (of_server serverID r && (rwEndpoint r !=? "")); cbn; [|done].
  destruct (rwEndpoint r =?s e) eqn:E; bool_prop; [by rewrite bool_decide_true|by rewrite bool_decide_false].
Qed.

(** On a healthy database the counts of a server's
    endpoints are right, but an endpoint is listed exactly when its calls took, on average,
    a whole number of milliseconds below a million: other averages do not scan into an
    int, and the endpoint is skipped without a word. *)
Theorem endpoint_counts_need_whole_average serverID s :
  ∃ out, EndpointCounts serverID (healthy s) = (Ok out, healthy s) ∧
    ∀ c, c ∈ out ↔
      let l := calls_of serverID (ecName c) s in
      l ≠ [] ∧ ecCalls c = count l ∧ ecErrors c = errors l ∧
      (durations l = ecAvg c * count l)%Z ∧ (Z.abs (ecAvg c) < 1000000)%Z.
Proof.
  eexists. split; [reflexivity|]. intros c. cbv zeta. rewrite list_elem_of_omap. setoid_rewrite elem_of_groups.
  assert (Hcount : ∀ l, l ≠ [] → (0 < count l)%Z) by (intros [|r l]; [done|unfold count; cbn; lia]).
  assert (Hin : ∀ e, e ∈ map rwEndpoint (named_rows serverID s) ↔ calls_of serverID e s ≠ []).
  { intros e. rewrite <- calls_of_group, list_elem_of_fmap. split.
    - intros (r & -> & Hr) E. apply (elem_of_nil (A:=LogRow) r). rewrite <- E, list_elem_of_In, filter_In, <- list_elem_of_In.
      by rewrite bool_decide_true.
    - intros Hne. destruct (List.filter _ _) as [|r l] eqn:E; [done|]. assert (Hr : r ∈ r :: l) by (by left).
      rewrite <- E, list_elem_of_In, filter_In, <- list_elem_of_In in Hr. destruct Hr as [Hr He]. apply bool_decide_eq_true in He. eauto. }
  split.
  - intros ([e l] & [He Hl] & Hc). cbn in He, Hl. rewrite calls_of_group in Hl. subst l. apply Hin in He. unfold count_of in Hc. cbn in Hc.
    apply bind_Some in Hc as (avg & Ha & [= <-]). cbn. unfold scan_avg in Ha. destruct (_ && _) eqn:Eb; [|done]. injection Ha as <-.
    apply andb_true_iff in Eb as [Hm%Z.eqb_eq Hb%Z.ltb_lt]. specialize (Hcount _ He). split_and!; try done.
    rewrite Z.mul_comm. apply Z_div_exact_2; [lia|done].
  - intros (Hne & H1 & H2 & H3 & H4). exists (ecName c, calls_of serverID (ecName c) s). cbn [fst snd]. rewrite calls_of_group.
    split; [split; [by apply Hin|done]|]. unfold count_of, scan_avg. cbn [fst snd]. specialize (Hcount _ Hne).
    rewrite H3, Z.mod_mul, Z.div_mul by lia. rewrite (proj2 (Z.ltb_lt _ _) H4). cbn. rewrite <- H1, <- H2. by destruct c.
Qed.

(** ** A concrete log *)

Definition log_row (id : string) (at_ : Z) (ms : Z) : LogRow := mkRow id at_ (Some "u") (Some "srv") "tools/call" "search" ms "success" "".

Definition demo_log : State := mkState Users.demo ∅ [log_row "1" 1 10; log_row "2" 2 13].

Definition log_admin : User := mkUser "a" "root" "" "admin" "admin" None false 0 None "".

Lemma log_pages_cover_witness :
  flat_map (λ k, shown_logs log_admin ∅ ((λ _, "") k) demo_log) (seq 1 (announced log_admin ∅ demo_log))
  = omap (scan_log demo_log) (matching (page_filter ∅) demo_log).
Proof.
  apply (log_pages_cover log_admin eq_refl ∅ demo_log (λ _, "")).
  - repeat constructor; eexists; reflexivity.
  - cbn. lia.
  - intros k Hk. change (announced log_admin ∅ demo_log) with 1 in Hk. replace k with 1 by lia. reflexivity.
Defined.

Lemma deleted_user_empties_log_page_witness :
  ∃ us pages, handleLogs true log_admin ∅ (healthy (log_delete_user "u" demo_log))
    = (Ok (Some (mkLogPage [] us 1 pages 2)), healthy (log_delete_user "u" demo_log)).
Proof.
  apply (deleted_user_empties_log_page log_admin demo_log "u" (log_row "2" 2 13)); [reflexivity| |reflexivity]. cbn. by left.
Defined.

(** Two calls of 10 and 13 ms: the endpoint is not listed. *)
Example uneven_average_unlisted : outcome (EndpointCounts "srv") (healthy demo_log) = Ok [].
Proof. by vm_compute. Qed.
