(* ===== verification/ServerForm.v ===== *)
(** * The server form

    How the pages of [src/internal/web/handlers.go] create and edit servers: the texts of
    the form ([parseCommand], [parseEnvVars] and their inverses), [parseServerForm],
    [serverToFormData], [handleServerNew] and [handleServerEdit], and the checks of URLs and
    redirect targets.  A form is what [r.FormValue] answers. *)
From stdpp Require Import pretty.
From S2P Require Import Prelude GoStrings GoPath Json JsonDecode AccessTiers Base64 Crypto Profiles Users Servers Skills SkillService SkillSync MemoryApi.
From S2P Require Import RecipeService RequestLogs ServerManager.

Abbreviation Form := (gmap string string).

Definition fv (f : Form) (k : string) : string := default "" (f !! k).
Definition tv (f : Form) (k : string) : string := TrimSpace (fv f k).

(** ** Texts of the form *)

Definition is_quote (c : ascii) : bool := Ascii.eqb c dquote || Ascii.eqb c "'"%char.
Definition is_blank (c : ascii) : bool := Ascii.eqb c " "%char || Ascii.eqb c "009"%char.

(** The loop of [parseCommand]: the open quote and the argument read so far. *)
Fixpoint scan_args (text : string) (inQuote : option ascii) (current : string) : list string :=
  match text with
  | EmptyString => if current =?s "" then [] else [current]
  | String c r =>
      match inQuote with
      | Some q => if Ascii.eqb c q then scan_args r None current else scan_args r inQuote (current +:+ String c "")
      | None =>
          if is_quote c then scan_args r (Some c) current
          else if is_blank c then
            if current =?s "" then scan_args r None "" else current :: scan_args r None ""
          else scan_args r None (current +:+ String c "")
      end
  end.

Definition parseCommand (text : string) : list string :=
  let text := TrimSpace text in if text =?s "" then [] else scan_args text None "".

Fixpoint has_char (p : ascii → bool) (s : string) : bool :=
  match s with EmptyString => false | String c r => p c || has_char p r end.

Definition quote_arg (a : string) : string := if has_char is_blank a then quoted a else a.

Definition joinQuoted (args : list string) : string := Join (map quote_arg args) " ".

Definition envKeys (env : gmap string string) : list string := sort_strings (map fst (map_to_list env)).

Definition env_line (env : gmap string string) (k : string) : string := k +:+ "=" +:+ default "" (env !! k).

Definition envToText (env : gmap string string) : string := Join (map (env_line env) (envKeys env)) nl.

(** [strings.Cut(line, "=")] *)
Fixpoint cut_eq (s : string) : option (string * string) :=
  match s with
  | EmptyString => None
  | String c r => if Ascii.eqb c "="%char then Some ("", r)
                  else '(k, v) ← cut_eq r; Some (String c k, v)
  end.

Definition env_entry (line : string) : option (string * string) :=
  let line := TrimSpace line in
  if (line =?s "") || HasPrefix line "#" then None
  else '(k, v) ← cut_eq line; Some (TrimSpace k, TrimSpace v).

Definition parseEnvVars (text : string) : gmap string string :=
  foldl (λ env line, match env_entry line with Some (k, v) => <[k := v]> env | None => env end) ∅ (Split text "010"%char).

(** [fmt.Sscanf(s, "%d", &n)] into a zero *)
Definition parseInt (s : string) : Z := default 0%Z (Sscan_d s).

Definition truncateImageID (id : string) : string :=
  let id := TrimPrefix id "sha256:" in if 12 <? String.length id then take_str 12 id else id.

(** ** URLs

    [url.Parse], and the text of a URL with only a path and a query, are parameters. *)
Record URL := mkUrl {
  uScheme : string; uHost : string; uPath : string; uRawQuery : string; uOpaque : string; uHasUser : bool; uHostname : string }.

(** An address as [net.IP]: one that [To4] turns into 4 bytes, or 16 bytes. *)
Inductive IP := IPv4 (a b c d : Z) | IPv6 (bytes : list Z).

Definition byte_at (l : list Z) (i : nat) : Z := default 0%Z (l !! i).

Definition isPrivateIP (ip : IP) : bool :=
  match ip with
  | IPv4 a b c d =>
      (a =? 127)%Z
      || ((a =? 10) || ((a =? 172) && (Z.land b 240 =? 16)) || ((a =? 192) && (b =? 168)))%Z
      || ((a =? 169) && (b =? 254))%Z
      || ((a =? 224) && (b =? 0) && (c =? 0))%Z
      || ((a =? 0) && (b =? 0) && (c =? 0) && (d =? 0))%Z
  | IPv6 l =>
      bool_decide (l = repeat 0%Z 15 ++ [1%Z])
      || (Z.land (byte_at l 0) 254 =? 252)%Z
      || ((byte_at l 0 =? 254) && (Z.land (byte_at l 1) 192 =? 128))%Z
      || ((byte_at l 0 =? 255) && (Z.land (byte_at l 1) 15 =? 2))%Z
      || bool_decide (l = repeat 0%Z 16)
  end.

Definition hasASCIIControl (s : string) : bool := has_char (λ c, (byte c <? 32) || (byte c =? 127)) s.

Section Urls.
Context (parse : string → option URL) (show : string → string → string) (ParseIP : string → option IP) (LookupHost : string → option (list string)).

Definition validateServerURL (raw : string) : result unit :=
  match parse raw with
  | None => Err "invalid URL"
  | Some u =>
      if (uScheme u !=? "http") && (uScheme u !=? "https") then Err "URL must use http or https scheme"
      else if uHost u =?s "" then Err "URL must include a host" else Ok tt
  end.

Definition validateExternalURL (raw : string) : result unit :=
  match parse raw with
  | None => Err "invalid URL"
  | Some u =>
      if uScheme u !=? "https" then Err "only https URLs are allowed"
      else if uHost u =?s "" then Err "invalid URL"
      else match ParseIP (uHostname u) with
      | Some ip => if isPrivateIP ip then Err "private/loopback addresses are not allowed" else Ok tt
      | None =>
          match LookupHost (uHostname u) with
          | None => Err "cannot resolve host"
          | Some ips =>
              if existsb (λ s, from_option isPrivateIP false (ParseIP s)) ips then Err "host resolves to private/loopback address" else Ok tt
          end
      end
  end.

Definition localRefererPath (host ref : string) : option string :=
  if (ref =?s "") || hasASCIIControl ref || (TrimSpace ref !=? ref) then None
  else match parse ref with
  | None => None
  | Some u =>
      if (uOpaque u !=? "") || uHasUser u then None
      else if negb ((ToLower (uScheme u) =?s "http") || (ToLower (uScheme u) =?s "https")) then None
      else if (uHost u =?s "") || negb (EqualFold (uHost u) host) then None
      else
        let path := if uPath u =?s "" then "/" else uPath u in
        let dest := show path (uRawQuery u) in
        if negb (HasPrefix dest "/") || HasPrefix dest "//" || Contains dest "\" then None else Some dest
  end.

Definition redirectBack (host referer fallback : string) : string := default fallback (localRefererPath host referer).
End Urls.

(** ** Configurations *)

Record RemoteAuth := mkAuth {
  aType : string; aToken : string; aHeaderName : string; aClientID : string; aClientSecret : string; aAuthURL : string;
  aTokenURL : string; aScopes : string; aAccessToken : string; aRefreshToken : string; aTokenExpiry : string;
  aRegisteredRedirectURI : string; aRegistrationEndpoint : string }.

Record Remote := mkRemoteConfig { rmURL : string; rmAuth : RemoteAuth }.

Definition zero_auth : RemoteAuth := mkAuth "" "" "" "" "" "" "" "" "" "" "" "" "".

Definition auth_json (a : RemoteAuth) : json :=
  JObj ([("type", JStr (aType a))] ++ omit_empty "token" (aToken a) ++ omit_empty "header_name" (aHeaderName a)
        ++ omit_empty "client_id" (aClientID a) ++ omit_empty "client_secret" (aClientSecret a)
        ++ omit_empty "auth_url" (aAuthURL a) ++ omit_empty "token_url" (aTokenURL a) ++ omit_empty "scopes" (aScopes a)
        ++ omit_empty "access_token" (aAccessToken a) ++ omit_empty "refresh_token" (aRefreshToken a)
        ++ omit_empty "token_expiry" (aTokenExpiry a) ++ omit_empty "registered_redirect_uri" (aRegisteredRedirectURI a)
        ++ omit_empty "registration_endpoint" (aRegistrationEndpoint a)).

Definition remote_json (c : Remote) : json := JObj [("url", JStr (rmURL c)); ("auth", auth_json (rmAuth c))].

Definition decode_auth (o : list (string * json)) (a : RemoteAuth) : option RemoteAuth :=
  t ← decode_string_field "type" o (aType a); k ← decode_string_field "token" o (aToken a);
  h ← decode_string_field "header_name" o (aHeaderName a); i ← decode_string_field "client_id" o (aClientID a);
  s ← decode_string_field "client_secret" o (aClientSecret a); u ← decode_string_field "auth_url" o (aAuthURL a);
  v ← decode_string_field "token_url" o (aTokenURL a); c ← decode_string_field "scopes" o (aScopes a);
  x ← decode_string_field "access_token" o (aAccessToken a); r ← decode_string_field "refresh_token" o (aRefreshToken a);
  e ← decode_string_field "token_expiry" o (aTokenExpiry a);
  d ← decode_string_field "registered_redirect_uri" o (aRegisteredRedirectURI a);
  p ← decode_string_field "registration_endpoint" o (aRegistrationEndpoint a);
  Some (mkAuth t k h i s u v c x r e d p).

Fixpoint decode_auths (l : list (string * json)) (a : RemoteAuth) : option RemoteAuth :=
  match l with
  | [] => Some a
  | (k, v) :: r =>
      if EqualFold k "auth" then
        match v with
        | JObj o => a ← decode_auth o a; decode_auths r a
        | JNull => decode_auths r a
        | _ => None
        end
      else decode_auths r a
  end.

Definition decode_remote_config (config : string) : option Remote :=
  l ← struct_fields config; u ← decode_string_field "url" l ""; a ← decode_auths l zero_auth; Some (mkRemoteConfig u a).

(** An integer field is left out when it is zero. *)
Definition http_json (c : HTTPConfig) : json :=
  JObj (omit_empty "image" (hImage c) ++ (if (hPort c =? 0)%Z then [] else [("port", JNum (pretty (hPort c)))])
        ++ omit_map "env" (hEnv c) ++ omit_empty "health_check" (hHealthCheck c) ++ omit_empty "url" (hURL c)).

(** ** Reading the form *)

(** What OAuth discovery and client registration answer ([src/internal/oauth]). *)
Record Discovery := mkDiscovery { dAuthURL : string; dTokenURL : string; dScopes : list string; dRegistration : string }.

Section Pages.
Context (crypto : ConfigEncryptor) (parse : string → option URL) (ParseIP : string → option IP) (LookupHost : string → option (list string)).
Context (discover : string → option Discovery) (register : string → option (string * string)) (callbackURL : string).

Definition if_empty (v w : string) : string := if v =?s "" then w else v.

(** The endpoints that are missing, and a client when there is none. *)
Definition fill_auth (url : string) (a : RemoteAuth) : RemoteAuth :=
  match discover url with
  | None => a
  | Some d =>
      let endpoint := if (dRegistration d !=? "") && is_ok (validateExternalURL parse ParseIP LookupHost (dRegistration d))
                      then dRegistration d else "" in
      let reg := if (aClientID a =?s "") && (endpoint !=? "") then register endpoint else None in
      mkAuth (aType a) (aToken a) (aHeaderName a) (from_option fst (aClientID a) reg) (from_option snd (aClientSecret a) reg)
        (if_empty (aAuthURL a) (dAuthURL d)) (if_empty (aTokenURL a) (dTokenURL d)) (if_empty (aScopes a) (Join (dScopes d) " "))
        "" "" "" (if bool_decide (is_Some reg) then callbackURL else "") endpoint
  end.

Definition auth_missing (a : RemoteAuth) : bool := (aClientID a =?s "") || (aAuthURL a =?s "") || (aTokenURL a =?s "").

Definition parse_auth (url : string) (f : Form) : result RemoteAuth :=
  let plain := mkAuth (fv f "remote_auth_type") (fv f "remote_token") (fv f "remote_header_name") "" "" "" "" "" "" "" "" "" "" in
  if fv f "remote_auth_type" =?s "oauth" then
    let a := mkAuth (aType plain) (aToken plain) (aHeaderName plain) (tv f "oauth_client_id") (tv f "oauth_client_secret")
               (tv f "oauth_auth_url") (tv f "oauth_token_url") (tv f "oauth_scopes") "" "" "" "" "" in
    let a := if auth_missing a then fill_auth url a else a in
    if auth_missing a then Err "OAuth auto-discovery failed for this server" else Ok a
  else Ok plain.

Definition parse_stdio (f : Form) : result StdioConfig :=
  let entrypoint := parseCommand (fv f "stdio_entrypoint") in
  let command := parseCommand (fv f "stdio_command") in
  let env := parseEnvVars (fv f "stdio_env") in
  if fv f "stdio_mode" =?s "build" then
    let runtime := fv f "build_runtime" in
    if (tv f "build_package" =?s "") && (tv f "build_git_url" =?s "") && (tv f "build_dockerfile" =?s "")
    then Err "package name, git URL, or custom Dockerfile is required for build mode"
    else if (runtime !=? "python") && (runtime !=? "node") then Err "runtime must be python or node"
    else Ok (mkStdio "" (Some (mkBuildConfig runtime (tv f "build_package") (tv f "build_version") (tv f "build_git_url")
                                 (tv f "build_git_ref") (tv f "build_dockerfile"))) entrypoint command env)
  else if tv f "stdio_image" =?s "" then Err "docker image is required for stdio servers"
  else Ok (mkStdio (tv f "stdio_image") None entrypoint command env).

Definition parse_http (f : Form) : result HTTPConfig :=
  let img := tv f "http_image" in
  let url := tv f "http_url" in
  if (img =?s "") && (url =?s "") then Err "docker image or external URL is required for HTTP servers"
  else match (if url !=? "" then validateServerURL parse url else Ok tt) with
  | Err e => Err e
  | Ok _ => Ok (mkHTTP img (parseInt (fv f "http_port")) (parseEnvVars (fv f "http_env")) (tv f "http_health") url)
  end.

Definition parse_remote (f : Form) : result Remote :=
  let url := tv f "remote_url" in
  if url =?s "" then Err "url is required for remote servers"
  else match validateServerURL parse url with
  | Err e => Err e
  | Ok _ => result_map (mkRemoteConfig url) (parse_auth url f)
  end.

Definition new_server (name displayName ty config : string) : Server :=
  mkServer "" name displayName ty config "" "" "" None "" false 0 0.

Definition parseServerForm (f : Form) : result Server :=
  let name := tv f "name" in
  let displayName := tv f "display_name" in
  let ty := fv f "server_type" in
  if (name =?s "") || (displayName =?s "") then Err "name and display name are required"
  else
    let config :=
      if ty =?s "stdio" then result_map (λ c, Marshal (stdio_json c)) (parse_stdio f)
      else if ty =?s "http" then result_map (λ c, Marshal (http_json c)) (parse_http f)
      else if ty =?s "remote" then result_map (λ c, Marshal (remote_json c)) (parse_remote f)
      else Err ("invalid server type: " +:+ ty) in
    result_map (new_server name displayName ty) config.

(** ** Filling the form *)

Definition stdio_fields (c : StdioConfig) : Form :=
  let b := default zero_build (sBuild c) in
  list_to_map [("stdio_image", sImage c); ("stdio_entrypoint", Join (sEntrypoint c) " "); ("stdio_command", joinQuoted (sCommand c));
               ("stdio_env", envToText (sEnv c)); ("stdio_mode", if bool_decide (is_Some (sBuild c)) then "build" else "image");
               ("build_runtime", bRuntime b); ("build_package", bPackage b); ("build_version", bVersion b); ("build_git_url", bGitURL b);
               ("build_git_ref", bGitRef b); ("build_dockerfile", bDockerfile b)].

Definition http_fields (c : HTTPConfig) : Form :=
  list_to_map [("http_image", hImage c); ("http_port", pretty (hPort c)); ("http_url", hURL c); ("http_health", hHealthCheck c);
               ("http_env", envToText (hEnv c))].

Definition remote_fields (c : Remote) : Form :=
  let a := rmAuth c in
  list_to_map [("remote_url", rmURL c); ("remote_auth_type", aType a); ("remote_token", aToken a); ("remote_header_name", aHeaderName a);
               ("oauth_client_id", aClientID a); ("oauth_client_secret", aClientSecret a); ("oauth_auth_url", aAuthURL a);
               ("oauth_token_url", aTokenURL a); ("oauth_scopes", aScopes a)].

(** The fields by the names of the inputs that show them.  A configuration that is no JSON
    object shows its zero value; one with a field of another type is taken to show it as
    well, where Go keeps the fields it could read. *)
Definition serverToFormData (srv : Server) : Form :=
  let ty := ServerType srv in
  let base : Form := list_to_map [("server_type", ty); ("remote_auth_type", "none")] in
  if ty =?s "stdio" then stdio_fields (default (mkStdio "" None [] [] ∅) (decode_stdio (Config srv))) ∪ base
  else if ty =?s "http" then http_fields (default (mkHTTP "" 0 ∅ "" "") (decode_http (Config srv))) ∪ base
  else if ty =?s "remote" then remote_fields (default (mkRemoteConfig "" zero_auth) (decode_remote_config (Config srv))) ∪ base
  else base.

(** ** What an edit keeps *)

(** The built image stays while package, version and runtime do. *)
Definition keep_image (old new : StdioConfig) : option StdioConfig :=
  match sBuild new, sBuild old with
  | Some nb, Some ob =>
      if (sImage old !=? "") && (bPackage nb =?s bPackage ob) && (bVersion nb =?s bVersion ob) && (bRuntime nb =?s bRuntime ob)
      then Some (with_image new (sImage old)) else None
  | _, _ => None
  end.

Definition keep_auth (o n : RemoteAuth) : RemoteAuth :=
  let keep := (aAccessToken n =?s "") && (aAccessToken o !=? "") in
  mkAuth (aType n) (aToken n) (aHeaderName n) (aClientID n) (aClientSecret n) (aAuthURL n) (aTokenURL n) (aScopes n)
    (if keep then aAccessToken o else aAccessToken n) (if keep then aRefreshToken o else aRefreshToken n)
    (if keep then aTokenExpiry o else aTokenExpiry n)
    (if_empty (aRegisteredRedirectURI n) (aRegisteredRedirectURI o)) (if_empty (aRegistrationEndpoint n) (aRegistrationEndpoint o)).

Definition keep_tokens (old new : Remote) : Remote := mkRemoteConfig (rmURL new) (keep_auth (rmAuth old) (rmAuth new)).

Definition kept_config (srv updated : Server) : string :=
  if ServerType updated =?s "stdio" then
    match decode_stdio (Config srv), decode_stdio (Config updated) with
    | Some o, Some n => from_option (λ c, Marshal (stdio_json c)) (Config updated) (keep_image o n)
    | _, _ => Config updated
    end
  else if ServerType updated =?s "remote" then
    match decode_remote_config (Config srv), decode_remote_config (Config updated) with
    | Some o, Some n => Marshal (remote_json (keep_tokens o n))
    | _, _ => Config updated
    end
  else Config updated.

(** ** The pages *)

Inductive FormPage :=
| FpNotFound
| FpStatus (code : Z) (msg : string)
| FpRedirect (location : string)
| FpForm (edit : bool) (shown : Form) (error : string).

(** The inputs [serverFormData] repeats. *)
Definition repeated_inputs : list string :=
  ["server_type"; "remote_auth_type"; "stdio_image"; "stdio_entrypoint"; "stdio_command"; "stdio_env"; "stdio_mode"; "build_runtime";
   "build_package"; "build_version"; "build_git_url"; "build_dockerfile"; "http_image"; "http_port"; "http_url"; "http_health"; "http_env";
   "remote_url"; "remote_token"; "remote_header_name"; "oauth_client_id"; "oauth_client_secret"; "oauth_auth_url"; "oauth_token_url";
   "oauth_scopes"].

Definition names (name displayName : string) (f : Form) : Form := <["name" := name]> (<["display_name" := displayName]> f).

Definition serverFormData (f : Form) (srv : option Server) : Form :=
  names (from_option Name (fv f "name") srv) (from_option DisplayName (fv f "display_name") srv)
    (list_to_map (map (λ k, (k, fv f k)) repeated_inputs)).

(** The edit form: the names of the stored server, the other fields of [data]. *)
Definition edit_form (srv data : Server) : Form := names (Name srv) (DisplayName srv) (serverToFormData data).

Definition requireAdmin {ST} (user : option User) (page : DBM ST FormPage) : DBM ST FormPage :=
  if bool_decide (uRole <$> user = Some "admin") then page else db_ret (FpStatus 403 "Admin access required").

Definition handleServerNew (user : option User) (uuid : string) (nonce : option string) (now : Z) (method : string) (f : Form) : DBM Servers.State FormPage :=
  requireAdmin user
    (if method =?s "GET" then
       db_ret (FpForm false (names "" "" (list_to_map [("server_type", "stdio"); ("remote_auth_type", "none"); ("stdio_mode", "image")])) "")
     else match parseServerForm f with
     | Err e => db_ret (FpForm false (serverFormData f None) e)
     | Ok srv =>
         let! r := attempt (Servers.Create crypto uuid nonce now srv) in
         match r with
         | Ok created => db_ret (FpRedirect ("/servers/" +:+ ID created))
         | Err e => db_ret (FpForm false (serverFormData f (Some srv)) ("Failed to create server: " +:+ e))
         end
     end).

(** What the edit writes. *)
Definition edited_row (id : string) (srv updated : Server) : Server :=
  mkServer id (Name updated) (DisplayName updated) (ServerType updated) (kept_config srv updated) (Status srv)
    (ErrorMsg srv) "" None "" false (CreatedAt srv) 0.

(** Run behind the administrator check of [handleServerRoutes]. *)
Definition handleServerEdit (nonce : option string) (now : Z) (method id : string) (f : Form) : DBM Servers.State FormPage :=
  let! r := attempt (Servers.Get crypto id) in
  match r with
  | Ok (Some srv) =>
      if method =?s "GET" then db_ret (FpForm true (edit_form srv srv) "")
      else match parseServerForm f with
      | Err e => db_ret (FpForm true (edit_form srv srv) e)
      | Ok updated =>
          match ValidateSlug (Name updated) with
          | Err e => db_ret (FpForm true (edit_form srv updated) e)
          | Ok _ =>
              let row := edited_row id srv updated in
              let! u := attempt (Servers.Update crypto nonce now row) in
              match u with
              | Ok _ => db_ret (FpRedirect ("/servers/" +:+ id))
              | Err e => if e =?s ErrSlugConflict
                         then db_ret (FpForm true (edit_form srv row) ("Slug " +:+ Name updated +:+ " is already taken by another server."))
                         else db_ret (FpStatus 500 "Failed to update server")
              end
          end
      end
  | _ => db_ret FpNotFound
  end.
End Pages.

(** ** Texts survive the form *)

Lemma solid_head s : TrimSpace s = s → s = "" ∨ ∃ c t, s = String c t ∧ is_space c = false.
Proof.
  unfold TrimSpace, trim_func. intros E. destruct (trim_left_cases is_space s) as [El|(c & t & El & Hc)]; rewrite El in E; [by left|].
  destruct (trim_right_head is_space c t Hc) as [t' Et]. rewrite Et in E. right. by exists c, t'.
Qed.

Lemma solid_tail s : TrimSpace s = s → trim_right is_space s = s.
Proof. unfold TrimSpace, trim_func. intros E. rewrite <- E at 1. rewrite trim_right_idem. exact E. Qed.

Lemma trim_right_app p a b : trim_right p b ≠ "" → trim_right p (a +:+ b) = a +:+ trim_right p b.
Proof.
  intros Hb. induction a as [|c a IH]; [done|]. rewrite str_app_cons. cbn [trim_right]. rewrite IH.
  destruct (a +:+ trim_right p b) as [|x y] eqn:E; [|by rewrite str_app_cons, E]. by destruct a; cbn in E.
Qed.

Lemma trim_solid c a b : is_space c = false → trim_right is_space b = b → b ≠ "" →
  TrimSpace (String c a +:+ b) = String c a +:+ b.
Proof.
  intros Hc Hb Hne. unfold TrimSpace, trim_func. rewrite str_app_cons. cbn [trim_left]. rewrite Hc.
  rewrite <- str_app_cons, trim_right_app by congruence. by rewrite Hb.
Qed.

(** An argument the form can show: not empty, without quotes and line breaks. *)
Definition arg_char (c : ascii) : bool := negb (is_quote c) && (negb (is_space c) || is_blank c).
Definition clean_arg (a : string) : bool := (a !=? "") && all_chars arg_char a.

Lemma scan_plain a rest cur : all_chars arg_char a = true → has_char is_blank a = false →
  scan_args (a +:+ rest) None cur = scan_args rest None (cur +:+ a).
Proof.
  revert cur. induction a as [|c a IH]; intros cur; [by rewrite str_app_nil_r|]. cbn [all_chars has_char]. intros [Hc Ha]%andb_true_iff [Hb Hn]%orb_false_iff.
  rewrite str_app_cons. cbn [scan_args]. unfold arg_char in Hc. apply andb_true_iff in Hc as [Hq _]. apply negb_true_iff in Hq. rewrite Hq, Hb, IH by done.
  by rewrite str_app_assoc.
Qed.

Lemma scan_inside a rest cur : all_chars arg_char a = true →
  scan_args (a +:+ String dquote rest) (Some dquote) cur = scan_args rest None (cur +:+ a).
Proof.
  revert cur. induction a as [|c a IH]; intros cur; [by rewrite str_app_nil_r|]. cbn [all_chars]. intros [Hc Ha]%andb_true_iff.
  rewrite str_app_cons. cbn [scan_args]. unfold arg_char, is_quote in Hc. apply andb_true_iff in Hc as [Hq _]. apply negb_true_iff, orb_false_iff in Hq as [Hq _].
  rewrite Hq, IH by done. by rewrite str_app_assoc.
Qed.

Lemma scan_arg a rest : clean_arg a = true → scan_args (quote_arg a +:+ rest) None "" = scan_args rest None a.
Proof.
  unfold clean_arg, quote_arg. intros [_ Ha]%andb_true_iff. destruct (has_char is_blank a) eqn:Eb; [|by apply scan_plain].
  unfold quoted. rewrite str_app_cons, str_app_assoc. cbn [scan_args]. change (is_quote dquote) with true. cbv iota.
  change (String dquote "" +:+ rest) with (String dquote rest). by apply scan_inside.
Qed.

Lemma scan_join args : args ≠ [] → Forall (λ a, clean_arg a = true) args → scan_args (Join (map quote_arg args) " ") None "" = args.
Proof.
  intros Hne Hc. induction Hc as [|a args Ha Hc IH]; [done|]. assert (Hea : a =?s "" = false) by (unfold clean_arg in Ha; by destruct (a =?s "")).
  destruct args as [|b args].
  - cbn [map Join]. rewrite <- (str_app_nil_r (quote_arg a)), scan_arg by done. cbn. by rewrite Hea.
  - change (Join (map quote_arg (a :: b :: args)) " ") with (quote_arg a +:+ " " +:+ Join (map quote_arg (b :: args)) " ").
    rewrite scan_arg by done. change (" " +:+ ?x) with (String " " x). cbn [scan_args]. change (is_quote " ") with false. change (is_blank " ") with true.
    cbv iota. rewrite Hea. f_equal. by apply IH.
Qed.

(** A shown argument starts and ends with something else than a blank. *)
Lemma quote_arg_solid a : clean_arg a = true →
  (∃ c t, quote_arg a = String c t ∧ is_space c = false) ∧ trim_right is_space (quote_arg a) = quote_arg a.
Proof.
  unfold clean_arg, quote_arg. intros [Hne Ha]%andb_true_iff. destruct (has_char is_blank a) eqn:Eb.
  - split; [by eexists dquote, _|]. unfold quoted. rewrite <- str_app_cons. by rewrite trim_right_app.
  - assert (Hs : all_chars (λ c, negb (is_space c)) a = true).
    { clear Hne. induction a as [|c a IH]; [done|]. cbn in *. apply andb_true_iff in Ha as [Hc Ha]. apply orb_false_iff in Eb as [Hb Eb].
      unfold arg_char in Hc. rewrite Hb, orb_false_r in Hc. apply andb_true_iff in Hc as [_ ->]. by apply IH. }
    clear Eb Ha. assert (Ht : ∀ s, all_chars (λ c, negb (is_space c)) s = true → trim_right is_space s = s).
    { clear. induction s as [|c s IH]; [done|]. cbn. intros [Hc Hs]%andb_true_iff. rewrite IH by done. destruct s; [by destruct (is_space c)|done]. }
    split; [|by apply Ht]. destruct a as [|c a]; [done|]. cbn in Hs. apply andb_true_iff in Hs as [Hc _]. exists c, a. by destruct (is_space c).
Qed.

Lemma join_solid l : l ≠ [] → Forall (λ x, (∃ c t, x = String c t ∧ is_space c = false) ∧ trim_right is_space x = x) l →
  TrimSpace (Join l " ") = Join l " " ∧ Join l " " ≠ "".
Proof.
  intros Hne Hl. assert (Hr : Join l " " ≠ "" ∧ trim_right is_space (Join l " ") = Join l " ").
  { induction Hl as [|x l [(c & t & -> & Hc) Hx] Hl IH]; [done|]. destruct l as [|y l]; [done|].
    change (Join (String c t :: y :: l) " ") with (String c t +:+ " " +:+ Join (y :: l) " "). destruct IH as [IH1 IH2]; [done|]. split; [done|].
    rewrite trim_right_app; rewrite trim_right_app by congruence; [by rewrite IH2|]. by rewrite IH2. }
  destruct Hr as [Hn Hr]. split; [|done]. unfold TrimSpace, trim_func.
  assert (Hh : trim_left is_space (Join l " ") = Join l " ").
  { destruct Hl as [|x l [(c & t & -> & Hc) _] _]; [done|]. destruct l as [|y l]; cbn [Join]; [cbn [trim_left]; by rewrite Hc|].
    rewrite str_app_cons. cbn [trim_left]. by rewrite Hc. }
  by rewrite Hh.
Qed.

(** A command line whose arguments are not empty and hold no quotes and no line breaks is
    shown by the form as a text that is read back as the same arguments. *)
Lemma command_roundtrip args : Forall (λ a, clean_arg a = true) args → parseCommand (joinQuoted args) = args.
Proof.
  intros Hc. destruct (decide (args = [])) as [->|Hne]; [done|]. unfold parseCommand, joinQuoted.
  destruct (join_solid (map quote_arg args)) as [-> Hn]; [by destruct args| |].
  - apply Forall_map. eapply Forall_impl; [exact Hc|]. apply quote_arg_solid.
  - rewrite (proj2 (String.eqb_neq _ _) Hn). by apply scan_join.
Qed.

(** ** Environment variables *)

Definition no_char (c : ascii) (s : string) : bool := all_chars (λ a, negb (Ascii.eqb a c)) s.

Definition clean_var (k v : string) : Prop :=
  TrimSpace k = k ∧ TrimSpace v = v ∧ no_char "=" k = true ∧ no_char "010" k = true ∧ no_char "010" v = true ∧ HasPrefix k "#" = false.

Lemma Split_clean c s : no_char c s = true → Split s c = [s].
Proof.
  induction s as [|a s IH]; [done|]. cbn. intros [Ha Hs]%andb_true_iff. apply negb_true_iff in Ha. rewrite Ha. by rewrite IH.
Qed.

Lemma Split_lines l : l ≠ [] → Forall (λ x, no_char "010" x = true) l → Split (Join l nl) "010"%char = l.
Proof.
  intros Hne Hl. induction Hl as [|x l Hx Hl IH]; [done|]. destruct l as [|y l]; [by apply Split_clean|].
  change (Join (x :: y :: l) nl) with (x +:+ String "010" (Join (y :: l) nl)). rewrite Split_app, Split_clean by done. by rewrite IH.
Qed.

Lemma cut_eq_line k v : no_char "=" k = true → cut_eq (k +:+ "=" +:+ v) = Some (k, v).
Proof.
  induction k as [|c k IH]; [done|]. unfold no_char. cbn [all_chars]. intros [Hc Hk]%andb_true_iff. apply negb_true_iff in Hc.
  rewrite str_app_cons. cbn [cut_eq]. by rewrite Hc, IH.
Qed.

Lemma entry_line k v : clean_var k v → env_entry (k +:+ "=" +:+ v) = Some (k, v).
Proof.
  intros (Hk & Hv & He & _ & _ & Hp). unfold env_entry.
  assert (Ht : TrimSpace (k +:+ "=" +:+ v) = k +:+ "=" +:+ v).
  { assert (Hr : trim_right is_space ("=" +:+ v) = "=" +:+ v).
    { change ("=" +:+ v) with (String "=" v). cbn [trim_right]. rewrite (solid_tail v Hv). by destruct v. }
    destruct (solid_head k Hk) as [->|(c & t & -> & Hc)].
    - unfold TrimSpace, trim_func. change (trim_left is_space ("" +:+ "=" +:+ v)) with ("=" +:+ v). exact Hr.
    - by apply trim_solid. }
  assert (Hn : k +:+ "=" +:+ v =?s "" = false) by (by destruct k).
  assert (Hh : HasPrefix (k +:+ "=" +:+ v) "#" = false) by (destruct k as [|c k]; [done|]; unfold HasPrefix in *; rewrite str_app_cons; cbn [String.prefix] in *; destruct (Ascii.ascii_dec "#" c); [by destruct k|done]).
  rewrite Ht, Hn, Hh, cut_eq_line by done. cbn [orb mbind option_bind]. by rewrite Hk, Hv.
Qed.

Lemma foldl_entries (env : gmap string string) keys (m : gmap string string) :
  (∀ k, k ∈ keys → ∃ v, env !! k = Some v ∧ clean_var k v) →
  foldl (λ e line, match env_entry line with Some (k, v) => <[k := v]> e | None => e end) m (map (env_line env) keys)
  = foldl (λ e k, <[k := default "" (env !! k)]> e) m keys.
Proof.
  revert m. induction keys as [|k keys IH]; intros m Hk; [done|]. cbn [map foldl]. destruct (Hk k) as (v & E & Hc); [by left|].
  assert (El : env_line env k = k +:+ "=" +:+ v) by (unfold env_line; by rewrite E). rewrite El, entry_line by done. rewrite E. cbn [default].
  apply IH. intros k' Hin. apply Hk. by right.
Qed.

Lemma foldl_insert_lookup (f : string → string) keys (m : gmap string string) i :
  foldl (λ e k, <[k := f k]> e) m keys !! i = if decide (i ∈ keys) then Some (f i) else m !! i.
Proof.
  revert m. induction keys as [|k keys IH]; intros m; [done|]. cbn [foldl]. rewrite IH. destruct (decide (i ∈ keys)) as [Hi|Hi].
  - rewrite decide_True by (by right). done.
  - destruct (decide (i = k)) as [->|Hne]; [rewrite lookup_insert_eq, decide_True by (by left); done|].
    rewrite lookup_insert_ne, decide_False by (done || rewrite elem_of_cons; naive_solver). done.
Qed.

(** Environment variables whose names and values are trimmed and fit on one
    line, the names without an equals sign and not starting with a hash, are read back from
    the text the form shows for them. *)
Lemma env_roundtrip env : map_Forall clean_var env → parseEnvVars (envToText env) = env.
Proof.
  intros Hc. unfold parseEnvVars, envToText. assert (Hin : ∀ k, k ∈ envKeys env ↔ is_Some (env !! k)).
  { intros k. unfold envKeys, sort_strings. rewrite elem_of_stable_sort, list_elem_of_fmap. split.
    - intros ([k' v] & -> & H%elem_of_map_to_list). by exists v.
    - intros [v Hv]. exists (k, v). split; [done|]. by apply elem_of_map_to_list. }
  destruct (decide (envKeys env = [])) as [E|Hne].
  { rewrite E. cbn. symmetry. apply map_empty. intros k. destruct (env !! k) eqn:Ek; [|done].
    assert (Hk : k ∈ envKeys env) by (apply Hin; by rewrite Ek). rewrite E in Hk. by apply elem_of_nil in Hk. }
  assert (Hk : ∀ k, k ∈ envKeys env → ∃ v, env !! k = Some v ∧ clean_var k v).
  { intros k [v Hv]%Hin. exists v. split; [done|]. by apply Hc. }
  rewrite Split_lines.
  - rewrite foldl_entries by done. apply map_eq. intros i. rewrite foldl_insert_lookup. case_decide as Hi.
    + destruct (Hk i Hi) as (v & -> & _). done.
    + rewrite lookup_empty. destruct (env !! i) eqn:Ei; [|done]. exfalso. apply Hi, Hin. by rewrite Ei.
  - by destruct (envKeys env).
  - apply Forall_map, Forall_forall. intros k Hin'. destruct (Hk k Hin') as (v & E & _ & _ & _ & H1 & H2 & _). unfold env_line. rewrite E.
    unfold no_char in *. rewrite !all_chars_app. cbn [default]. rewrite H1. cbn. by rewrite H2.
Qed.

(** ** Configurations are read back *)

Lemma decode_auth_json a : ∃ o, auth_json a = JObj o ∧ decode_auth o zero_auth = Some a.
Proof.
  eexists. split; [reflexivity|]. unfold decode_auth. cbn [aType aToken aHeaderName aClientID aClientSecret aAuthURL aTokenURL aScopes aAccessToken
    aRefreshToken aTokenExpiry aRegisteredRedirectURI aRegistrationEndpoint zero_auth]. decode_strings. by destruct a.
Qed.

Lemma decode_build_json b : ∃ o, build_json b = JObj o ∧ decode_build zero_build o = Some b.
Proof.
  eexists. split; [reflexivity|]. unfold decode_build. cbn [bRuntime bPackage bVersion bGitURL bGitRef bDockerfile zero_build].
  change [("runtime", JStr (bRuntime b)); ("package", JStr (bPackage b))] with ([("runtime", JStr (bRuntime b))] ++ [("package", JStr (bPackage b))]).
  decode_strings. by destruct b.
Qed.

Lemma auth_json_wf a : Json.wf (auth_json a) = true.
Proof. unfold auth_json. cbn [Json.wf]. rewrite !forallb_app, !omit_wf. done. Qed.

(** The stored text of a remote configuration is read back as the
    same configuration, whatever its fields hold. *)
Lemma remote_config_roundtrip c : decode_remote_config (Marshal (remote_json c)) = Some c.
Proof.
  unfold decode_remote_config, struct_fields. rewrite Unmarshal_Marshal.
  - destruct c as [url a]. unfold remote_json. cbn [rmURL rmAuth]. destruct (decode_auth_json a) as (o & -> & Hd). cbn [mbind option_bind].
    cbn. by rewrite Hd.
  - unfold remote_json. cbn [Json.wf forallb]. by rewrite auth_json_wf.
Qed.

Lemma decode_entries_spec o m : Forall (λ kv : string * json, ∃ s, kv.2 = JStr s) o →
  ∃ m', decode_entries o m = Some m' ∧ ∀ k, m' !! k = match last_value k o with Some (JStr s) => Some s | _ => m !! k end.
Proof.
  intros Ho. revert m. induction Ho as [|[k j] o [s Es] Ho IH]; intros m; [by exists m|]. cbn in Es. subst j. cbn [decode_entries].
  destruct (IH (<[k := s]> m)) as (m' & E & Hm). exists m'. split; [done|]. intros k'. rewrite Hm. cbn [last_value].
  destruct (last_value k' o) as [v|] eqn:El.
  - assert (Hv : ∃ x, v = JStr x).
    { clear -Ho El. induction Ho as [|[a b] o [y Ey] Ho IH]; [done|]. cbn in El, Ey. destruct (last_value k' o); [by apply IH|].
      destruct (a =?s k'); [|done]. injection El as <-. by exists y. }
    by destruct Hv as [x ->].
  - destruct (k =?s k') eqn:Ek; bool_prop; [subst; by rewrite lookup_insert_eq|by rewrite lookup_insert_ne].
Qed.

Lemma last_value_env (env : gmap string string) k :
  last_value k (map (λ '(k, v), (k, JStr v)) (map_to_list env)) = JStr <$> env !! k.
Proof.
  destruct (env !! k) as [v|] eqn:E.
  - assert (Hin : (k, v) ∈ map_to_list env) by (by apply elem_of_map_to_list). pose proof (NoDup_fst_map_to_list env) as Hnd.
    induction (map_to_list env) as [|[a b] l IH]; [by apply elem_of_nil in Hin|]. cbn in Hnd |- *. apply NoDup_cons in Hnd as [Hn Hnd].
    apply elem_of_cons in Hin as [[= <- <-]|Hin].
    + rewrite last_value_notin; [by rewrite String.eqb_refl|]. intros H. apply Hn. apply list_elem_of_fmap in H as (x & Hx & Hl).
      apply list_elem_of_fmap in Hl as ([a b] & -> & Hl). cbn in Hx. subst a. apply list_elem_of_fmap. by exists (k, b).
    + by rewrite IH.
  - apply last_value_notin. intros H. apply list_elem_of_fmap in H as (x & -> & Hl). apply list_elem_of_fmap in Hl as ([a b] & -> & Hl%elem_of_map_to_list).
    cbn in E. congruence.
Qed.

Lemma decode_env env : ∃ o, marshal_map (map (λ '(k, v), (k, JStr v)) (map_to_list env)) = JObj o ∧ decode_entries o ∅ = Some env.
Proof.
  set (l := map _ _). destruct (marshal_map_lookup l) as (o & Eo & Ho). exists o. split; [done|].
  assert (Hf : Forall (λ kv : string * json, ∃ s, kv.2 = JStr s) o).
  { unfold marshal_map in Eo. injection Eo as <-. apply Forall_forall. intros [k v] Hin. apply list_elem_of_omap in Hin as (k' & _ & E).
    unfold l in E. rewrite last_value_env in E. destruct (env !! k'); [|done]. cbn in E. injection E as <- <-. eauto. }
  destruct (decode_entries_spec o ∅ Hf) as (m' & -> & Hm). f_equal. apply map_eq. intros k. rewrite Hm, Ho. unfold l. rewrite last_value_env.
  destruct (env !! k) eqn:E; [done|]. cbn. by rewrite lookup_empty.
Qed.

Lemma all_strings_wf l : forallb Json.wf (map JStr l) = true.
Proof. induction l; [done|by cbn]. Qed.

Lemma omit_strings_wf k l : forallb (λ '(_, j), Json.wf j) (omit_strings k l) = true.
Proof. unfold omit_strings. destruct l; [done|]. cbn [forallb Json.wf map]. by rewrite all_strings_wf. Qed.

Lemma omit_map_wf k m : forallb (λ '(_, j), Json.wf j) (omit_map k m) = true.
Proof.
  unfold omit_map. case_decide; [done|]. cbn [forallb]. rewrite marshal_map_wf; [done|]. generalize (map_to_list m). intros l.
  induction l as [|[a b] l IH]; [done|]. exact IH.
Qed.

Lemma build_json_wf b : Json.wf (build_json b) = true.
Proof. unfold build_json. cbn [Json.wf]. rewrite !forallb_app, !omit_wf. done. Qed.

Lemma stdio_json_wf c : Json.wf (stdio_json c) = true.
Proof.
  unfold stdio_json. cbn [Json.wf]. rewrite !forallb_app, !omit_strings_wf, omit_map_wf. destruct (sBuild c) as [b|]; [|done].
  cbn [forallb]. by rewrite build_json_wf.
Qed.

(** The stored text of a container configuration is read back as the
    same configuration, whatever its fields hold. *)
Lemma stdio_config_roundtrip c : decode_stdio (Marshal (stdio_json c)) = Some c.
Proof.
  unfold decode_stdio, struct_fields. rewrite Unmarshal_Marshal by apply stdio_json_wf. cbn [mbind option_bind].
  unfold stdio_json. destruct c as [img b ep cmd env]. cbn [sImage sBuild sEntrypoint sCommand sEnv].
  destruct (decode_env env) as (oe & Ee & He). unfold omit_strings, omit_map. rewrite Ee. destruct b as [b|].
  - destruct (decode_build_json b) as (o & -> & Hd).
    destruct ep as [|e ep], cmd as [|x cmd]; destruct (decide (env = ∅)) as [->|Henv]; cbn -[decode_build decode_entries];
      rewrite ?Hd, ?mapM_JStr, ?He; reflexivity.
  - destruct ep as [|e ep], cmd as [|x cmd]; destruct (decide (env = ∅)) as [->|Henv]; cbn -[decode_entries];
      rewrite ?mapM_JStr, ?He; reflexivity.
Qed.

(** ** Numbers are read back *)

Lemma pretty_digit x : (x < 10)%N → is_digit (pretty_N_char x) = true ∧ Z.of_nat (byte (pretty_N_char x) - 48) = Z.of_N x.
Proof. destruct x as [|p]; [done|]. do 4 (destruct p as [p|p|]; try done; try lia). Qed.

Lemma digits_go x s : digits (pretty_N_go x s) 0 = digits s (Z.of_N x).
Proof.
  revert s. induction (N.lt_wf_0 x) as [x _ IH]; intros s. destruct (decide (0 < x)%N) as [Hx|Hx]; [|assert (x = 0%N) as -> by lia; by rewrite pretty_N_go_0].
  rewrite pretty_N_go_step, IH by (done || apply N.div_lt; lia). cbn [digits].
  destruct (pretty_digit (x `mod` 10)) as [-> ->]; [by apply N.mod_lt|]. f_equal. pose proof (N.div_mod x 10). lia.
Qed.

(** The decimal digits of a number start with another digit than zero. *)
Definition plain_number (s : string) : Prop :=
  ∃ c t, s = String c t ∧ is_digit c = true ∧ c ≠ "0"%char ∧ all_chars is_digit t = true.

Lemma plain_go x s : (0 < x)%N → all_chars is_digit s = true → plain_number (pretty_N_go x s).
Proof.
  revert s. induction (N.lt_wf_0 x) as [x _ IH]; intros s Hx Hs. rewrite pretty_N_go_step by done.
  destruct (pretty_digit (x `mod` 10)) as [Hd Hv]; [by apply N.mod_lt|]. destruct (decide (x `div` 10 = 0)%N) as [E|Hq].
  2: { apply IH; [apply N.div_lt; lia|by apply N.neq_0_lt_0|]. cbn. by rewrite Hd. }
  - rewrite E, pretty_N_go_0. exists (pretty_N_char (x `mod` 10)), s. split_and!; [done..| |done].
    intros Hc. rewrite Hc in Hv. change (Z.of_N 0 = Z.of_N (x `mod` 10)) in Hv. apply N2Z.inj in Hv.
    pose proof (N.div_mod x 10 ltac:(done)) as Hm. rewrite E, <- Hv in Hm. by subst.
Qed.

Lemma plain_pos p : plain_number (pretty (N.pos p)) ∧ digits (pretty (N.pos p)) 0 = Some (Z.pos p).
Proof. unfold pretty, pretty_N. rewrite decide_False by done. split; [by apply plain_go|by rewrite digits_go]. Qed.

Lemma leading_digits_all s : all_chars is_digit s = true → leading_digits s = s.
Proof. induction s as [|c s IH]; [done|]. cbn. intros [-> Hs]%andb_true_iff. by rewrite IH. Qed.

Lemma span_digits s : all_chars is_digit s = true → span is_digit s = (s, "").
Proof. induction s as [|c s IH]; [done|]. cbn. intros [-> Hs]%andb_true_iff. by rewrite IH. Qed.

Lemma digit_facts c : is_digit c = true →
  Ascii.eqb c "-"%char = false ∧ Ascii.eqb c "+"%char = false ∧ is_num_char c = true ∧ ∀ t, skip_blanks (String c t) = String c t.
Proof. destruct c as [[] [] [] [] [] [] [] []]; try discriminate; intros _; repeat split. Qed.

Lemma digits_num s : all_chars is_digit s = true → all_chars is_num_char s = true.
Proof. induction s as [|c s IH]; [done|]. cbn. intros [Hc Hs]%andb_true_iff. destruct (digit_facts c Hc) as (_ & _ & -> & _). by apply IH. Qed.

Lemma plain_number_ok s : plain_number s → int_ok s = true ∧ all_chars is_num_char s = true ∧ num_ok s = true.
Proof.
  intros (c & t & -> & Hc & H0 & Ht). destruct (digit_facts c Hc) as (Hm & _ & Hn & _).
  assert (Hi : int_ok (String c t) = true) by (cbn [int_ok]; rewrite (proj2 (Ascii.eqb_neq _ _) H0), Hc, span_digits by done; done).
  split_and!; [done| |unfold num_ok; by rewrite Hm]. cbn. by rewrite Hn, digits_num.
Qed.

Lemma HasPrefix_char c t d : HasPrefix (String c t) (String d "") = Ascii.eqb d c.
Proof.
  unfold HasPrefix. cbn [String.prefix]. destruct (Ascii.ascii_dec d c) as [->|Hn]; [rewrite Ascii.eqb_refl; by destruct t|].
  symmetry. by apply Ascii.eqb_neq.
Qed.

(** An [int] is read back from its digits, by [json.Unmarshal] and by [fmt.Sscanf]. *)
Lemma int_read_back z : (- 2 ^ 63 <= z < 2 ^ 63)%Z →
  int_literal (pretty z) = Some z ∧ Sscan_d (pretty z) = Some z ∧ Json.wf (JNum (pretty z)) = true.
Proof.
  intros Hz. assert (Hr : ((- 2 ^ 63 <=? z) && (z <? 2 ^ 63))%Z = true) by lia.
  assert (Hr' : ((min_int <=? z) && (z <=? max_int))%Z = true) by (unfold min_int, max_int; lia). destruct z as [|p|p]; [done|..].
  - change (pretty (Z.pos p)) with (pretty (N.pos p)). destruct (plain_pos p) as [Hp Hd]. destruct (plain_number_ok _ Hp) as (_ & Hn & Ho).
    destruct Hp as (c & t & E & Hc & _ & Ht). rewrite E in *. destruct (digit_facts c Hc) as (Hm & Hpl & _ & Hs). split_and!.
    + unfold int_literal. by rewrite Hm, Hd, Hr.
    + unfold Sscan_d. rewrite Hs, !HasPrefix_char, (Ascii.eqb_sym _ c), Hm, (Ascii.eqb_sym _ c), Hpl. cbn [orb].
      rewrite leading_digits_all by (cbn; by rewrite Hc). rewrite Hd. cbn [mbind option_bind]. by rewrite Hr'.
    + cbn [Json.wf]. by rewrite Ho, Hn.
  - change (pretty (Z.neg p)) with (String "-" (pretty (N.pos p))). destruct (plain_pos p) as [Hp Hd]. destruct (plain_number_ok _ Hp) as (Hi & Hn & _).
    destruct Hp as (c & t & E & Hc & _ & Ht). rewrite E in *. split_and!.
    + unfold int_literal. change (Ascii.eqb "-" "-") with true. cbv iota. rewrite Hd. change (Z.opp <$> Some (Z.pos p)) with (Some (Z.neg p)). cbv beta iota zeta. by rewrite Hr.
    + unfold Sscan_d. change (skip_blanks (String "-" (String c t))) with (String "-" (String c t)). rewrite HasPrefix_char.
      change (Ascii.eqb "-" "-") with true. cbn [orb]. change (drop_str 1 (String "-" (String c t))) with (String c t).
      rewrite leading_digits_all by (cbn; by rewrite Hc). rewrite Hd. cbn [mbind option_bind]. change (- Z.pos p)%Z with (Z.neg p). by rewrite Hr'.
    + cbn [Json.wf]. unfold num_ok. change (Ascii.eqb "-" "-") with true. cbv iota. rewrite Hi. exact Hn.
Qed.

(** The stored text of an HTTP configuration is read back as the same configuration. *)
Lemma http_config_roundtrip c : (- 2 ^ 63 <= hPort c < 2 ^ 63)%Z → decode_http (Marshal (http_json c)) = Some c.
Proof.
  intros Hp. destruct (int_read_back _ Hp) as (Hi & _ & Hw). unfold decode_http, struct_fields. rewrite Unmarshal_Marshal.
  - destruct c as [img p env h u]. cbn [hImage hPort hEnv hHealthCheck hURL] in *. unfold http_json, omit_map. cbn [hImage hPort hEnv hHealthCheck hURL].
    destruct (decode_env env) as (oe & Ee & He). rewrite Ee. unfold omit_empty.
    destruct (Z.eqb_spec p 0) as [->|Hp0]; destruct (img =?s "") eqn:E1, (h =?s "") eqn:E2, (u =?s "") eqn:E3; bool_prop; subst;
      destruct (decide (env = ∅)) as [->|Henv]; cbn -[decode_entries int_literal pretty]; rewrite ?Hi, ?He; reflexivity.
  - unfold http_json. cbn [Json.wf]. rewrite !forallb_app, !omit_wf, omit_map_wf. case_if; [done|]. cbn [forallb andb]. by rewrite Hw.
Qed.

(** ** Saving the form that was shown *)

Definition trimmed (s : string) : Prop := TrimSpace s = s.

Definition build_ok (b : BuildConfig) : Prop :=
  (bRuntime b = "python" ∨ bRuntime b = "node") ∧ (bPackage b ≠ "" ∨ bGitURL b ≠ "" ∨ bDockerfile b ≠ "") ∧
  trimmed (bPackage b) ∧ trimmed (bVersion b) ∧ trimmed (bGitURL b) ∧ trimmed (bGitRef b) ∧ trimmed (bDockerfile b).

(** What the form can show of a container configuration; the entrypoint is shown without
    quotes. *)
Definition stdio_showable (c : StdioConfig) : Prop :=
  Forall (λ a, clean_arg a = true ∧ has_char is_blank a = false) (sEntrypoint c) ∧
  Forall (λ a, clean_arg a = true) (sCommand c) ∧ map_Forall clean_var (sEnv c) ∧
  match sBuild c with Some b => build_ok b | None => sImage c ≠ "" ∧ trimmed (sImage c) end.

Lemma entrypoint_roundtrip l : Forall (λ a, clean_arg a = true ∧ has_char is_blank a = false) l → parseCommand (Join l " ") = l.
Proof.
  intros Hl. assert (E : map quote_arg l = l).
  { induction Hl as [|a l [_ Ha] Hl IH]; [done|]. cbn. unfold quote_arg at 1. by rewrite Ha, IH. }
  rewrite <- E at 1. apply command_roundtrip. eapply Forall_impl; [exact Hl|]. by intros a [? _].
Qed.

Section Unchanged.
Context (parse : string → option URL) (ParseIP : string → option IP) (LookupHost : string → option (list string)).
Context (discover : string → option Discovery) (register : string → option (string * string)) (callbackURL : string).

Local Abbreviation read_form := (parseServerForm parse ParseIP LookupHost discover register callbackURL).

Lemma stdio_unchanged c f :
  stdio_showable c → (∀ k v, stdio_fields c !! k = Some v → f !! k = Some v) →
  ∃ n, parse_stdio f = Ok n ∧ default n (keep_image c n) = c.
Proof.
  intros (He & Hc & Hv & Hb) Hf.
  assert (Hg : ∀ k v, stdio_fields c !! k = Some v → fv f k = v) by (intros k v H; unfold fv; by rewrite (Hf k v H)).
  unfold parse_stdio, tv. rewrite (Hg "stdio_entrypoint" (Join (sEntrypoint c) " ") eq_refl), (Hg "stdio_command" (joinQuoted (sCommand c)) eq_refl), (Hg "stdio_env" (envToText (sEnv c)) eq_refl),
    (Hg "stdio_mode" (if bool_decide (is_Some (sBuild c)) then "build" else "image") eq_refl), (Hg "build_runtime" (bRuntime (default zero_build (sBuild c))) eq_refl), (Hg "build_package" (bPackage (default zero_build (sBuild c))) eq_refl), (Hg "build_git_url" (bGitURL (default zero_build (sBuild c))) eq_refl),
    (Hg "build_dockerfile" (bDockerfile (default zero_build (sBuild c))) eq_refl), (Hg "build_version" (bVersion (default zero_build (sBuild c))) eq_refl), (Hg "build_git_ref" (bGitRef (default zero_build (sBuild c))) eq_refl), (Hg "stdio_image" (sImage c) eq_refl).
  rewrite entrypoint_roundtrip, command_roundtrip, env_roundtrip by done. destruct c as [img b ep cmd env]. cbn [sImage sBuild sEntrypoint sCommand sEnv] in *.
  destruct b as [b|].
  - rewrite bool_decide_true by eauto. change (default zero_build (Some b)) with b. destruct Hb as (Hr & Hs & -> & -> & -> & -> & ->).
    change ("build" =?s "build") with true. cbv iota.
    assert (Hs' : (bPackage b =?s "") && (bGitURL b =?s "") && (bDockerfile b =?s "") = false).
    { apply not_true_iff_false. rewrite !andb_true_iff, !String.eqb_eq. naive_solver. }
    assert (Hr' : (bRuntime b !=? "python") && (bRuntime b !=? "node") = false) by (destruct Hr as [->| ->]; reflexivity).
    rewrite Hs', Hr'. eexists. split; [done|]. unfold keep_image. cbn. rewrite !String.eqb_refl, !andb_true_r.
    destruct (img =?s "") eqn:Ei; bool_prop; cbn; [subst|]; by destruct b.
  - rewrite bool_decide_false by (by intros [? [=]]). destruct Hb as [Hi ->]. change ("image" =?s "build") with false. cbv iota.
    rewrite (proj2 (String.eqb_neq _ _) Hi). eexists. by split.
Qed.

Definition http_showable (c : HTTPConfig) : Prop :=
  trimmed (hImage c) ∧ trimmed (hURL c) ∧ trimmed (hHealthCheck c) ∧ (hImage c ≠ "" ∨ hURL c ≠ "") ∧
  (hURL c ≠ "" → validateServerURL parse (hURL c) = Ok tt) ∧ map_Forall clean_var (hEnv c) ∧ (- 2 ^ 63 <= hPort c < 2 ^ 63)%Z.

Definition oauth_fields (a : RemoteAuth) : list string := [aClientID a; aClientSecret a; aAuthURL a; aTokenURL a; aScopes a].

(** What the form can show of a remote configuration: the type is one of the offered ones. *)
Definition remote_showable (c : Remote) : Prop :=
  let a := rmAuth c in
  trimmed (rmURL c) ∧ rmURL c ≠ "" ∧ validateServerURL parse (rmURL c) = Ok tt ∧
  aType a ∈ ["none"; "private_url"; "bearer"; "api_key"; "oauth"] ∧
  (if aType a =?s "oauth" then Forall trimmed (oauth_fields a) ∧ auth_missing a = false else Forall (λ s, s = "") (oauth_fields a)) ∧
  (aAccessToken a = "" → aRefreshToken a = "" ∧ aTokenExpiry a = "").

Lemma http_unchanged c f :
  http_showable c → (∀ k v, http_fields c !! k = Some v → f !! k = Some v) → parse_http parse f = Ok c.
Proof.
  intros (Hi & Hu & Hh & Hne & Hv & He & Hp) Hf.
  assert (Hg : ∀ k v, http_fields c !! k = Some v → fv f k = v) by (intros k v H; unfold fv; by rewrite (Hf k v H)).
  assert (Hport : fv f "http_port" = pretty (hPort c)) by (apply Hg; reflexivity).
  unfold parse_http, tv. rewrite (Hg "http_image" (hImage c) eq_refl), (Hg "http_url" (hURL c) eq_refl), (Hg "http_health" (hHealthCheck c) eq_refl),
    (Hg "http_env" (envToText (hEnv c)) eq_refl), Hport, Hi, Hu, Hh, env_roundtrip by done.
  unfold parseInt. destruct (int_read_back _ Hp) as (_ & -> & _). cbn [default from_option].
  assert (E : (hImage c =?s "") && (hURL c =?s "") = false) by (apply not_true_iff_false; rewrite andb_true_iff, !String.eqb_eq; naive_solver).
  rewrite E. destruct (hURL c =?s "") eqn:Eu; [by destruct c|]. bool_prop. cbn [negb]. rewrite (Hv Eu). by destruct c.
Qed.

Lemma remote_unchanged c f :
  remote_showable c → (∀ k v, remote_fields c !! k = Some v → f !! k = Some v) →
  ∃ n, parse_remote parse ParseIP LookupHost discover register callbackURL f = Ok n ∧ keep_tokens c n = c.
Proof.
  intros (Hu & Hne & Hv & _ & Ho & Ht) Hf.
  assert (Hg : ∀ k v, remote_fields c !! k = Some v → fv f k = v) by (intros k v H; unfold fv; by rewrite (Hf k v H)).
  destruct c as [url [ty tok hdr cid sec au tu sc acc ref exp uri reg]]. cbn [rmURL rmAuth aType aAccessToken aRefreshToken aTokenExpiry] in *.
  assert (Hk : ∀ a, aType a = ty → aToken a = tok → aHeaderName a = hdr → oauth_fields a = [cid; sec; au; tu; sc] →
    aAccessToken a = "" → aRefreshToken a = "" → aTokenExpiry a = "" → aRegisteredRedirectURI a = "" → aRegistrationEndpoint a = "" →
    keep_auth (mkAuth ty tok hdr cid sec au tu sc acc ref exp uri reg) a = mkAuth ty tok hdr cid sec au tu sc acc ref exp uri reg).
  { intros [] E1 E2 E3 E4 E5 E6 E7 E8 E9. unfold oauth_fields in E4. cbn in *. simplify_eq. unfold keep_auth, if_empty. cbn.
    destruct (acc =?s "") eqn:Ea; [|done]. bool_prop. destruct (Ht Ea) as [-> ->]. by subst. }
  unfold parse_remote, tv. rewrite (Hg "remote_url" url eq_refl), Hu, (proj2 (String.eqb_neq _ _) Hne), Hv. unfold parse_auth, tv.
  rewrite (Hg "remote_auth_type" ty eq_refl), (Hg "remote_token" tok eq_refl), (Hg "remote_header_name" hdr eq_refl),
    (Hg "oauth_client_id" cid eq_refl), (Hg "oauth_client_secret" sec eq_refl), (Hg "oauth_auth_url" au eq_refl),
    (Hg "oauth_token_url" tu eq_refl), (Hg "oauth_scopes" sc eq_refl). destruct (ty =?s "oauth").
  - destruct Ho as [Ho Hm]. unfold oauth_fields, trimmed in Ho. cbn in Ho. rewrite !Forall_cons in Ho. destruct Ho as (-> & -> & -> & -> & -> & _). unfold auth_missing in *. cbn in Hm |- *. rewrite Hm. cbn. rewrite Hm.
    eexists. split; [done|]. unfold keep_tokens. f_equal. by apply Hk.
  - unfold oauth_fields in Ho. cbn in Ho. rewrite !Forall_cons in Ho. destruct_and! Ho. subst. eexists. split; [done|]. unfold keep_tokens. f_equal. by apply Hk.
Qed.

Lemma edit_form_fields srv (fields base : Form) :
  serverToFormData srv = fields ∪ base → fields !! "name" = None → fields !! "display_name" = None → fields !! "server_type" = None →
  base !! "server_type" = Some (ServerType srv) →
  (∀ k v, fields !! k = Some v → edit_form srv srv !! k = Some v) ∧ fv (edit_form srv srv) "name" = Name srv ∧
  fv (edit_form srv srv) "display_name" = DisplayName srv ∧ fv (edit_form srv srv) "server_type" = ServerType srv.
Proof.
  intros E H1 H2 H3 Hb. unfold edit_form, names, fv. rewrite E. split_and!.
  - intros k v Hk. rewrite !lookup_insert_ne by congruence. by apply lookup_union_Some_l.
  - by rewrite lookup_insert_eq.
  - by rewrite lookup_insert_ne, lookup_insert_eq.
  - rewrite !lookup_insert_ne by done. by rewrite lookup_union_r, Hb.
Qed.

(** A server the edit form can show. *)
Definition showable (srv : Server) : Prop :=
  trimmed (Name srv) ∧ trimmed (DisplayName srv) ∧ Name srv ≠ "" ∧ DisplayName srv ≠ "" ∧
  ((ServerType srv = "stdio" ∧ ∃ c, Config srv = Marshal (stdio_json c) ∧ stdio_showable c) ∨
   (ServerType srv = "http" ∧ ∃ c, Config srv = Marshal (http_json c) ∧ http_showable c) ∨
   (ServerType srv = "remote" ∧ ∃ c, Config srv = Marshal (remote_json c) ∧ remote_showable c)).

(** C25: for a server the edit form can show ([showable]: a configuration in the format the code
    writes, its fields trimmed and those the form requires present and valid, arguments that are
    not empty and hold no quotes or line breaks, no blanks in the entrypoint, variables that fit
    on a line each, an auth type the form offers and OAuth fields only with type oauth),
    whatever discovery and registration would answer: the edit form saved as it is
    shown parses, names the same server, and what is stored is the configuration that was
    stored before, to the byte, with the built image of a container and the tokens and the
    registration of a remote server.  [entrypoint_loses_quotes] is why blanks are excluded. *)
Theorem unchanged_form_keeps_server srv :
  showable srv →
  ∃ updated, read_form (edit_form srv srv) = Ok updated ∧ Name updated = Name srv ∧ DisplayName updated = DisplayName srv ∧
    ServerType updated = ServerType srv ∧ kept_config srv updated = Config srv.
Proof.
  intros (Hn & Hd & Hn0 & Hd0 & Hc). unfold parseServerForm, tv.
  assert (Hz : (Name srv =?s "") || (DisplayName srv =?s "") = false) by (by rewrite (proj2 (String.eqb_neq _ _) Hn0), (proj2 (String.eqb_neq _ _) Hd0)).
  destruct Hc as [(Ht & c & Ec & Hs)|[(Ht & c & Ec & Hs)|(Ht & c & Ec & Hs)]].
  - destruct (edit_form_fields srv (stdio_fields c) (list_to_map [("server_type", ServerType srv); ("remote_auth_type", "none")])) as (Hf & -> & -> & ->);
      [by unfold serverToFormData; rewrite Ht, Ec, stdio_config_roundtrip|reflexivity..|].
    destruct (stdio_unchanged c _ Hs Hf) as (n & Hp & Hk). rewrite Hn, Hd, Hz, Ht. change ("stdio" =?s "stdio") with true. cbv iota. rewrite Hp.
    eexists. split_and!; [done..|]. unfold kept_config. cbn [new_server ServerType Config]. rewrite Ec, !stdio_config_roundtrip. cbn [String.eqb Ascii.eqb].
    change ("stdio" =?s "stdio") with true. cbv iota. destruct (keep_image c n); cbn in Hk |- *; by subst.
  - destruct (edit_form_fields srv (http_fields c) (list_to_map [("server_type", ServerType srv); ("remote_auth_type", "none")])) as (Hf & -> & -> & ->);
      [unfold serverToFormData; rewrite Ht, Ec, http_config_roundtrip by apply Hs; done|reflexivity..|].
    rewrite Hn, Hd, Hz, Ht. change ("http" =?s "stdio") with false. change ("http" =?s "http") with true. cbv iota.
    rewrite (http_unchanged c _ Hs Hf). eexists. by split_and!.
  - destruct (edit_form_fields srv (remote_fields c) (list_to_map [("server_type", ServerType srv); ("remote_auth_type", "none")])) as (Hf & -> & -> & ->);
      [by unfold serverToFormData; rewrite Ht, Ec, remote_config_roundtrip|reflexivity..|].
    destruct (remote_unchanged c _ Hs Hf) as (n & Hp & Hk). rewrite Hn, Hd, Hz, Ht. change ("remote" =?s "stdio") with false.
    change ("remote" =?s "http") with false. change ("remote" =?s "remote") with true. cbv iota. rewrite Hp. eexists. split_and!; [done..|].
    unfold kept_config. cbn [new_server ServerType Config result_map]. rewrite Ec, !remote_config_roundtrip.
    change ("remote" =?s "stdio") with false. change ("remote" =?s "remote") with true. cbv iota. by rewrite Hk.
Qed.

(** The form never asks for the tokens of a remote server. *)
Lemma parse_remote_no_tokens f n : parse_remote parse ParseIP LookupHost discover register callbackURL f = Ok n →
  aAccessToken (rmAuth n) = "" ∧ aRefreshToken (rmAuth n) = "".
Proof.
  unfold parse_remote, parse_auth. case_if; [done|]. destruct (validateServerURL parse _); [|done]. case_if.
  - cbv zeta. match goal with |- context [if auth_missing ?x then Err _ else _] => set (b := x) end.
    assert (Hb : aAccessToken b = "" ∧ aRefreshToken b = "") by (unfold b; case_if; [unfold fill_auth; by destruct (discover _)|done]).
    destruct (auth_missing b); [done|]. by intros [= <-].
  - by intros [= <-].
Qed.

Lemma Ok_inj {A} (a b : A) : Ok a = Ok b → a = b.
Proof. by intros [= ->]. Qed.

(** When the URL of a remote server is changed on the form, the access and
    refresh tokens that were issued for the old URL are stored with the new one. *)
Theorem url_change_keeps_tokens srv f old updated :
  decode_remote_config (Config srv) = Some old → aAccessToken (rmAuth old) ≠ "" →
  fv f "server_type" = "remote" → read_form f = Ok updated →
  ∃ new, decode_remote_config (kept_config srv updated) = Some new ∧ rmURL new = TrimSpace (fv f "remote_url") ∧
    aAccessToken (rmAuth new) = aAccessToken (rmAuth old) ∧ aRefreshToken (rmAuth new) = aRefreshToken (rmAuth old).
Proof.
  intros Ho Hne Ht. unfold parseServerForm. rewrite Ht. case_if; [done|]. change ("remote" =?s "stdio") with false.
  change ("remote" =?s "http") with false. change ("remote" =?s "remote") with true. cbv iota.
  destruct (parse_remote _ _ _ _ _ _ f) as [n|] eqn:En; [|done]. cbn [result_map]. intros Hu.
  apply Ok_inj in Hu. subst updated. unfold kept_config. cbn [new_server ServerType Config].
  change ("remote" =?s "stdio") with false. change ("remote" =?s "remote") with true. cbv iota. rewrite Ho, !remote_config_roundtrip.
  eexists. split; [done|]. destruct (parse_remote_no_tokens f n En) as [Ha _]. cbn [keep_tokens keep_auth rmURL rmAuth aAccessToken aRefreshToken].
  rewrite Ha, (proj2 (String.eqb_neq _ _) Hne). cbn. split_and!; [|done..].
  revert En. unfold parse_remote, tv. case_if; [done|]. destruct (validateServerURL parse _); [|done]. destruct (parse_auth _ _ _ _ _ _ _ f); [|done].
  by intros [= <-].
Qed.
End Unchanged.

(** An edit that keeps package, version and runtime keeps the image that was built,
    also when the repository or the reference changes; when the image of the new reference
    exists, the server is started with the old image. *)
Lemma kept_image_runs `{Hashing} crypto docker git nonce now srv w old new nb kept :
  keep_image old new = Some kept → sBuild new = Some nb → Config srv = Marshal (stdio_json kept) →
  ImageExists docker (BuildImageTag_of nb) = true →
  startStdio crypto docker git nonce now srv w
  = with_container docker now srv (sImage old) "attaching to container"
      (λ c, result_map (λ _, StdioBridge c) (AttachStdio docker c)) (set_status now (ID srv) "starting" "" w).
Proof.
  intros Hk Hn Hc Hi. unfold startStdio. rewrite Hc, stdio_config_roundtrip. unfold keep_image in Hk. rewrite Hn in Hk.
  destruct (sBuild old) as [ob|]; [|done]. destruct (sImage old =?s "") eqn:Ei; [done|]. cbn in Hk. destruct (_ && _); [|done]. injection Hk as <-.
  unfold with_image. cbn [sBuild sImage]. rewrite Hn, Ei. unfold buildImageIfNeeded. by rewrite Hi.
Qed.

(** ** Instances *)

Definition ex_auth : RemoteAuth :=
  mkAuth "oauth" "" "" "client" "secret" "https://h/auth" "https://h/token" "read write" "at" "rt" "2026-01-01T00:00:00Z" "https://relay/cb" "https://h/reg".

Definition ex_remote (url : string) : Server :=
  new_server "wiki" "Wiki" "remote" (Marshal (remote_json (mkRemoteConfig url ex_auth))).

Definition ex_parse (s : string) : option URL :=
  if HasPrefix s "https://" then Some (mkUrl "https" "h" "" "" "" false "h") else None.

Local Abbreviation ex_read := (parseServerForm ex_parse (λ _, None) (λ _, None) (λ _, None) (λ _, None) "https://relay/cb").

(** A remote server with tokens is saved as it is shown. *)
Lemma unchanged_form_keeps_server_witness :
  ∃ updated, ex_read (edit_form (ex_remote "https://h/mcp") (ex_remote "https://h/mcp")) = Ok updated ∧ Name updated = "wiki" ∧
    DisplayName updated = "Wiki" ∧ ServerType updated = "remote" ∧
    kept_config (ex_remote "https://h/mcp") updated = Config (ex_remote "https://h/mcp").
Proof.
  apply (unchanged_form_keeps_server ex_parse (λ _, None) (λ _, None) (λ _, None) (λ _, None) "https://relay/cb" (ex_remote "https://h/mcp")).
  split_and!; [reflexivity..|by intros ?|by intros ?|]. right. right. split; [reflexivity|]. eexists. split; [reflexivity|].
  split_and!; [reflexivity|by intros ?|reflexivity|by do 4 right; left|vm_compute; repeat constructor|by intros ?].
Defined.

(** The tokens of one host end up with another. *)
Lemma url_change_keeps_tokens_witness :
  ∃ new, decode_remote_config (kept_config (ex_remote "https://h/mcp")
           (new_server "wiki" "Wiki" "remote" (Marshal (remote_json (mkRemoteConfig "https://other/mcp"
              (mkAuth "oauth" "" "" "client" "secret" "https://h/auth" "https://h/token" "read write" "" "" "" "" "")))))) = Some new ∧
    rmURL new = TrimSpace "https://other/mcp" ∧ aAccessToken (rmAuth new) = "at" ∧ aRefreshToken (rmAuth new) = "rt".
Proof.
  apply (url_change_keeps_tokens ex_parse (λ _, None) (λ _, None) (λ _, None) (λ _, None) "https://relay/cb" (ex_remote "https://h/mcp")
           (edit_form (ex_remote "https://h/mcp") (ex_remote "https://other/mcp")) (mkRemoteConfig "https://h/mcp" ex_auth));
    [vm_compute; reflexivity|by intros ?|reflexivity|vm_compute; reflexivity].
Defined.

(** A quoted argument of the entrypoint falls apart when the form is saved; one of the command
    does not. *)
Example entrypoint_loses_quotes :
  parseCommand (Join ["sh"; "-c"; "run it"] " ") = ["sh"; "-c"; "run"; "it"] ∧
  parseCommand (joinQuoted ["sh"; "-c"; "run it"]) = ["sh"; "-c"; "run it"].
Proof. split; reflexivity. Qed.

(** A form that could not be saved comes back without the git reference. *)
Lemma failed_form_forgets_ref f srv : serverFormData f srv !! "build_git_ref" = None.
Proof. reflexivity. Qed.

(** Going back to a reference whose image was built before: the image that is kept is
    the later one. *)
Example back_to_old_ref :
  let built ref img := mkStdio img (Some (mkBuildConfig "node" "" "" "https://g/r" ref "")) [] [] ∅ in
  let later := built "v2" "arc-relay-build/r:v2" in
  sImage <$> keep_image later (built "v1" "") = Some "arc-relay-build/r:v2" ∧
  BuildImageTag_of (mkBuildConfig "node" "" "" "https://g/r" "v1" "") = "arc-relay-build/r:v1".
Proof. split; vm_compute; reflexivity. Qed.
