(* ===== verification/Threads.v ===== *)
(** * Threads

    Go code that runs in several goroutines: a goroutine is a tree of events (critical sections
    of a mutex, store calls, requests, waiting on a channel), the events of all goroutines
    interleave, and what the world answers is left open.  The second half is a logic for such
    programs: every goroutine owns a part of a ghost map, an invariant relates the
    whole map to the shared state, and each event of a goroutine has to keep the
    invariant whatever the others own. *)
From S2P Require Import Prelude.

(** ** Programs *)

Section Programs.
Context {E : Type → Type}.

Inductive prog (A : Type) : Type :=
| Done (a : A)
| Event {X : Type} (e : E X) (k : X → prog A).

Fixpoint pbind {A B} (p : prog A) (f : A → prog B) : prog B :=
  match p with
  | Done _ a => f a
  | Event _ e k => Event B e (λ x, pbind (k x) f)
  end.

Definition emit {X} (e : E X) : prog X := Event X e (Done X).
End Programs.

Arguments prog : clear implicits.
Arguments Done {E A} a.
Arguments Event {E A X} e k.

Notation "'do!' x := p 'in' k" := (pbind p (λ x, k)) (at level 200, x name, p at level 100, k at level 200).
Notation "'do!' ' x := p 'in' k" := (pbind p (λ x, k)) (at level 200, x strict pattern, p at level 100, k at level 200).

(** ** Interleavings *)

Section Pool.
Context {E : Type → Type} {S : Type} (ev : ∀ X, E X → S → X → S → Prop).

(** One goroutine alone. *)
Fixpoint runs {A} (p : prog E A) (s : S) (a : A) (s'' : S) : Prop :=
  match p with
  | Done b => a = b ∧ s'' = s
  | Event e k => ∃ x s', ev _ e s x s' ∧ runs (k x) s' a s''
  end.

Lemma runs_bind {A B} (p : prog E A) (f : A → prog E B) s b s'' :
  runs (pbind p f) s b s'' ↔ ∃ a s', runs p s a s' ∧ runs (f a) s' b s''.
Proof.
  revert s. induction p as [a|X e k IH]; intros s; cbn.
  - split; [intros H; by exists a, s|]. by intros (a' & s' & [-> ->] & H).
  - split.
    + intros (x & s1 & He & (a & s' & Ha & Hb)%IH). exists a, s'. split; [by exists x, s1|done].
    + intros (a & s' & (x & s1 & He & Ha) & Hb). exists x, s1. split; [done|]. apply IH. by exists a, s'.
Qed.

(** Goroutines that take turns; [start] says which may be started, [other] what else
    changes the state. *)
Context {A : Type} (start : prog E A → Prop) (other : S → S → Prop).

Inductive pool_step : list (prog E A) * S → list (prog E A) * S → Prop :=
| step_event ps i X (e : E X) k s x s' :
    ps !! i = Some (Event e k) → ev X e s x s' → pool_step (ps, s) (<[i := k x]> ps, s')
| step_start ps p s : start p → pool_step (ps, s) (ps ++ [p], s)
| step_other ps s s' : other s s' → pool_step (ps, s) (ps, s').

Definition reachable (s0 : S) : list (prog E A) * S → Prop := rtc pool_step ([], s0).

(** ** Ownership *)

Context {V : Type} (I : gmap nat V → S → Prop) (R : S → S → Prop) `{!PreOrder R}.
Context (ok : ∀ X, E X → gmap nat V → S → Prop).

(** [wp p s0 own Q]: from any state [R] above [s0] the program keeps the invariant, only ever
    emits events that are [ok], and ends in [Q]. *)
Fixpoint wp {B} (p : prog E B) (s0 : S) (own : gmap nat V) (Q : B → S → gmap nat V → Prop) : Prop :=
  match p with
  | Done b => Q b s0 own
  | Event e k => ∀ s rest, R s0 s → rest ##ₘ own → I (own ∪ rest) s →
      ok _ e own s ∧
      ∀ x s', ev _ e s x s' → R s s' ∧ ∃ own', rest ##ₘ own' ∧ I (own' ∪ rest) s' ∧ wp (k x) s' own' Q
  end.

Lemma wp_bind {B C} (p : prog E B) (f : B → prog E C) s0 own Q :
  wp p s0 own (λ b s own, wp (f b) s own Q) → wp (pbind p f) s0 own Q.
Proof.
  revert s0 own. induction p as [b|X e k IH]; intros s0 own; [done|]. cbn. intros H s rest Hr Hd Hi.
  destruct (H s rest Hr Hd Hi) as [Ho Hk]. split; [done|]. intros x s' Hev. destruct (Hk x s' Hev) as (HR & own' & ? & ? & Hw).
  split; [done|]. exists own'. split_and!; [done..|]. by apply IH.
Qed.

Lemma wp_mono {B} (p : prog E B) s0 own Q Q' :
  (∀ b s o, Q b s o → Q' b s o) → wp p s0 own Q → wp p s0 own Q'.
Proof.
  intros HQ. revert s0 own. induction p as [b|X e k IH]; intros s0 own; [apply HQ|]. cbn. intros H s rest Hr Hd Hi.
  destruct (H s rest Hr Hd Hi) as [Ho Hk]. split; [done|]. intros x s' Hev. destruct (Hk x s' Hev) as (HR & own' & ? & ? & Hw).
  split; [done|]. exists own'. split_and!; [done..|]. by apply IH.
Qed.

(** ** Pools of owners *)

Fixpoint disjoint_all (l : list (gmap nat V)) : Prop :=
  match l with [] => True | m :: r => m ##ₘ ⋃ r ∧ disjoint_all r end.

Lemma union_middle (l1 l2 : list (gmap nat V)) m : disjoint_all (l1 ++ m :: l2) →
  ⋃ (l1 ++ l2) ##ₘ m ∧ ⋃ (l1 ++ m :: l2) = m ∪ ⋃ (l1 ++ l2) ∧ disjoint_all (l1 ++ l2).
Proof.
  induction l1 as [|a l1 IH]; cbn [app disjoint_all]; [intros [H1 H2]; split_and!; [by symmetry|done..]|].
  intros [Ha Hd]. destruct (IH Hd) as (H1 & H2 & H3). rewrite H2 in Ha. apply map_disjoint_union_r in Ha as [Ham Har].
  split_and!; [by apply map_disjoint_union_l| |done..]. change (⋃ (a :: l1 ++ m :: l2)) with (a ∪ ⋃ (l1 ++ m :: l2)).
  change (⋃ (a :: l1 ++ l2)) with (a ∪ ⋃ (l1 ++ l2)). rewrite H2, !(assoc_L (∪)), (map_union_comm a m) by done. done.
Qed.

Lemma disjoint_middle (l1 l2 : list (gmap nat V)) m : disjoint_all (l1 ++ l2) → ⋃ (l1 ++ l2) ##ₘ m → disjoint_all (l1 ++ m :: l2).
Proof.
  induction l1 as [|a l1 IH]; cbn [app disjoint_all]; [intros ? Hm; split; [by symmetry|done]|].
  intros [Ha Hd] Hm. change (⋃ (a :: l1 ++ l2)) with (a ∪ ⋃ (l1 ++ l2)) in Hm. apply map_disjoint_union_l in Hm as [Ham Hm].
  specialize (IH Hd Hm). split; [|done]. destruct (union_middle l1 l2 m IH) as (_ & -> & _). apply map_disjoint_union_r. done.
Qed.

Definition finished (own : gmap nat V) : Prop := own = ∅.

(** What a goroutine of the pool knows: the state it saw last and what it owns. *)
Definition thread_ok (s : S) (p : prog E A) (g : S * gmap nat V) : Prop := R g.1 s ∧ wp p g.1 g.2 (λ _ _ own, finished own).

Definition pool_ok (c : list (prog E A) * S) : Prop :=
  ∃ gs : list (S * gmap nat V), Forall2 (thread_ok c.2) c.1 gs ∧ disjoint_all gs.*2 ∧ I (⋃ gs.*2) c.2.

Hypothesis starts_ok : ∀ p s own, start p → I own s → wp p s ∅ (λ _ _ own, finished own).
Hypothesis others_ok : ∀ s s' own, other s s' → I own s → I own s' ∧ R s s'.

Lemma thread_ok_mono s s' p g : R s s' → thread_ok s p g → thread_ok s' p g.
Proof. intros HR [H1 H2]. split; [by etrans|done]. Qed.

Lemma pool_step_ok c c' : pool_step c c' → pool_ok c → pool_ok c'.
Proof.
  intros Hs (gs & Ht & Hd & HI). destruct Hs as [ps i X e k s x s' Hi He|ps p s Hp|ps s s' Ho]; cbn [fst snd] in *.
  - destruct (Forall2_lookup_l _ _ _ _ _ Ht Hi) as ([s0 own] & Hg & [HR Hw]). cbn [fst snd] in *.
    pose proof (list_elem_of_split_length _ _ _ Hg) as (g1 & g2 & -> & Hl). rewrite fmap_app, fmap_cons in Hd, HI. cbn [fst snd] in *.
    destruct (union_middle _ _ _ Hd) as (Hdis & Hu & Hd'). rewrite Hu in HI. destruct (Hw s _ HR Hdis HI) as [_ Hk].
    destruct (Hk x s' He) as (HR' & own' & Hdis' & HI' & Hw'). exists (g1 ++ (s', own') :: g2). subst i.
    apply Forall2_app_inv_r in Ht as (p1 & p2' & Hp1 & Hp2 & ->). apply Forall2_cons_inv_r in Hp2 as (p & p2 & _ & Hp2 & ->).
    rewrite <- (Forall2_length _ _ _ Hp1), insert_app_r_alt, Nat.sub_diag by lia. cbn [list_insert insert].
    split_and!.
    + apply Forall2_app; [eapply Forall2_impl; [exact Hp1|intros; by eapply thread_ok_mono]|].
      apply Forall2_cons. split; [by split|]. eapply Forall2_impl; [exact Hp2|intros; by eapply thread_ok_mono].
    + rewrite fmap_app, fmap_cons. by apply disjoint_middle.
    + rewrite fmap_app, fmap_cons. cbn [fst snd]. destruct (union_middle g1.*2 g2.*2 own') as (_ & -> & _); [by apply disjoint_middle|]. done.
  - exists (gs ++ [(s, ∅)]). assert (Hd2 : disjoint_all ((gs ++ [(s, ∅)]).*2)).
    { rewrite fmap_app. apply disjoint_middle; [by rewrite app_nil_r|apply map_disjoint_empty_r]. }
    split_and!; [|done|].
    + apply Forall2_app; [done|]. apply Forall2_cons. split; [|by apply Forall2_nil]. split; [by cbn|]. by eapply starts_ok.
    + cbn [fst snd]. assert (Hu : ⋃ (gs ++ [(s, ∅)]).*2 = ∅ ∪ ⋃ (gs.*2 ++ [])).
      { rewrite fmap_app in *. by apply (union_middle gs.*2 [] ∅ Hd2). }
      rewrite app_nil_r, (left_id_L ∅ (∪)) in Hu. by rewrite Hu.
  - destruct (others_ok _ _ _ Ho HI) as [HI' HR]. exists gs. split_and!; [|done..].
    eapply Forall2_impl; [exact Ht|]. intros. by eapply thread_ok_mono.
Qed.

Lemma reachable_ok s0 c : I ∅ s0 → reachable s0 c → pool_ok c.
Proof.
  intros HI Hr. unfold reachable in Hr. assert (H0 : pool_ok ([], s0)) by (exists []; split_and!; [by apply Forall2_nil|done..]).
  remember ([], s0) as c0 eqn:E0. clear E0 HI. induction Hr; [done|]. apply IHHr. by eapply pool_step_ok.
Qed.

(** The invariant of every reachable pool. *)
Lemma reachable_inv s0 c : I ∅ s0 → reachable s0 c → ∃ own, I own c.2.
Proof. intros H0 Hr. destruct (reachable_ok _ _ H0 Hr) as (gs & _ & _ & H). by eexists. Qed.

Lemma thread_event c gs i p s1 m : Forall2 (thread_ok c.2) c.1 gs → disjoint_all gs.*2 → I (⋃ gs.*2) c.2 →
  c.1 !! i = Some p → gs !! i = Some (s1, m) →
  ((∃ a, p = Done a) ∧ finished m) ∨ ∃ X (e : E X) k, p = Event e k ∧ ok X e m c.2.
Proof.
  intros Ht Hd HI Hp Hi. destruct (Forall2_lookup_r _ _ _ _ _ Ht Hi) as (p' & Hp' & HR & Hw). rewrite Hp in Hp'. injection Hp' as <-. cbn [fst snd] in *.
  destruct p as [a|X e k]; [left; split; [by exists a|done]|]. right. exists X, e, k. split; [done|].
  pose proof (list_elem_of_split_length _ _ _ Hi) as (g1 & g2 & -> & _). rewrite fmap_app, fmap_cons in Hd, HI. cbn [fst snd] in *.
  destruct (union_middle _ _ _ Hd) as (Hdis & Hun & _). rewrite Hun in HI. by destruct (Hw c.2 _ HR Hdis HI).
Qed.

(** Of what is owned, somebody is the owner, who is not done and is about to emit an event that
    is [ok]. *)
Lemma owners_work s0 c : I ∅ s0 → reachable s0 c →
  ∃ own, I own c.2 ∧ ∀ g v, own !! g = Some v →
    ∃ i X (e : E X) k mine, c.1 !! i = Some (Event e k) ∧ ok X e mine c.2 ∧ mine !! g = Some v.
Proof.
  intros H0 Hr. destruct (reachable_ok _ _ H0 Hr) as (gs & Ht & Hd & HI). exists (⋃ gs.*2). split; [done|]. intros g v Hg.
  assert (Hin : ∃ i m, gs.*2 !! i = Some m ∧ m !! g = Some v).
  { clear -Hg Hd. induction gs.*2 as [|m l IH]; [by cbn in Hg|]. cbn in Hg. apply lookup_union_Some_raw in Hg as [Hm|[_ Hm]].
    - by exists 0, m.
    - destruct IH as (i & m' & ? & ?); [first [done|apply Hd]..|]. by exists (Datatypes.S i), m'. }
  destruct Hin as (i & m & Hi & Hm). rewrite list_lookup_fmap_Some in Hi. destruct Hi as ([s1 m'] & -> & Hi). cbn in Hm.
  destruct (Forall2_lookup_r _ _ _ _ _ Ht Hi) as (p & Hp & Hw). destruct (thread_event c gs i p s1 m' Ht Hd HI Hp Hi) as [Hf|(X & e & k & -> & Hok)].
  - destruct Hf as [_ Hf]. unfold finished in Hf. subst. by rewrite lookup_empty in Hm.
  - by exists i, X, e, k, m'.
Qed.

(** Whoever is about to emit an event may do so. *)
Lemma events_ok s0 c i X (e : E X) k : I ∅ s0 → reachable s0 c → c.1 !! i = Some (Event e k) → ∃ mine, ok X e mine c.2.
Proof.
  intros H0 Hr Hi. destruct (reachable_ok _ _ H0 Hr) as (gs & Ht & Hd & HI). destruct (Forall2_lookup_l _ _ _ _ _ Ht Hi) as ([s1 m] & Hg & HR & Hw).
  exists m. cbn [fst snd] in *.
  pose proof (list_elem_of_split_length _ _ _ Hg) as (g1 & g2 & -> & _). rewrite fmap_app, fmap_cons in Hd, HI. cbn [fst snd] in *.
  destruct (union_middle _ _ _ Hd) as (Hdis & Hun & _). rewrite Hun in HI. by destruct (Hw c.2 _ HR Hdis HI).
Qed.
End Pool.
