(* ===== verification/OAuthClient.v ===== *)
(** * The OAuth client for remote servers

    [src/internal/oauth]: discovery, client registration, the authorization code flow with
    PKCE, and the tokens the relay keeps for remote servers, with the pages
    [handleOAuthStart], [handleOAuthCallback] and [handleCatalogDiscoverOAuth] of
    [src/internal/web/handlers.go].  Everything is a program of [Threads]: a critical section of
    [m.mu], a store call, a request and a wait are one event each. *)
From stdpp Require Import pretty.
From S2P Require Import Prelude GoStrings Json JsonDecode AccessTiers Base64 Crypto Profiles Users Servers OAuthProvider ServerManager MemoryApi ServerForm Threads.

(** ** Data *)

(** [tsExpires] is [None] for the zero time. *)
Record TokenSet := mkTokenSet { tsAccess : string; tsRefresh : string; tsType : string; tsExpires : option Z }.

Record PendingAuth := mkPending { paServerID : string; paVerifier : string; paState : string; paCreated : Z }.

(** The fields behind [m.mu].  A [refreshResult] is a number: its channel and its error are
    in [results] once the channel is closed. *)
Record Mem := mkMem { pending : gmap string PendingAuth; tokens : gmap string TokenSet; refreshing : gmap string nat; fresh : nat }.

Definition NewManager : Mem := mkMem ∅ ∅ ∅ 0.

Definition with_pending (m : Mem) p := mkMem p (tokens m) (refreshing m) (fresh m).
Definition with_tokens (m : Mem) t := mkMem (pending m) t (refreshing m) (fresh m).
Definition with_refreshing (m : Mem) r := mkMem (pending m) (tokens m) r (fresh m).

Abbreviation Values := (list (string * string)).

(** What is outside: the store, the closed channels, the clock, and the requests that were sent to
    token endpoints and not answered yet, with the server they are about. *)
Record World := mkWorld {
  mem : Mem; sdb : Db Servers.State; results : gmap nat (option string); clock : Z; outstanding : list (string * Values) }.

(** ** Events *)

Inductive Ev : Type → Type :=
| Locked {B} (f : Mem → B * Mem) : Ev B
| Call {B} (m : DBM Servers.State B) : Ev (result B)
| Now : Ev Z
| Rand (n : nat) : Ev (option string)                                (* n random bytes; None is an error *)
| Send (who url : string) (form : Values) : Ev unit
| Receive (who : string) (form : Values) : Ev (result (Z * string))  (* status and body *)
| Fetch (method url body : string) : Ev (result (Z * string))        (* the discovery client *)
| Await (g : nat) : Ev (option string)
| Close (g : nat) (err : option string) : Ev unit.

Fixpoint remove_one (x : string * Values) (l : list (string * Values)) : list (string * Values) :=
  match l with [] => [] | y :: r => if decide (x = y) then r else y :: remove_one x r end.

Definition with_mem (w : World) m := mkWorld m (sdb w) (results w) (clock w) (outstanding w).
Definition with_sdb (w : World) d := mkWorld (mem w) d (results w) (clock w) (outstanding w).
Definition with_results (w : World) r := mkWorld (mem w) (sdb w) r (clock w) (outstanding w).
Definition with_outstanding (w : World) o := mkWorld (mem w) (sdb w) (results w) (clock w) o.

(** What an event answers and how it leaves the world.  Random numbers and the answers to
    requests are arbitrary; a wait ends when the channel is closed or the context ends. *)
Definition ev (X : Type) (e : Ev X) (w : World) : X → World → Prop :=
  match e with
  | Locked f => λ x w', x = (f (mem w)).1 ∧ w' = with_mem w (f (mem w)).2
  | Call m => λ x w', x = (m (sdb w)).1 ∧ w' = with_sdb w (m (sdb w)).2
  | Now => λ x w', x = clock w ∧ w' = w
  | Rand n => λ x w', w' = w ∧ ∀ b, x = Some b → String.length b = n
  | Send who url form => λ _ w', w' = with_outstanding w ((who, form) :: outstanding w)
  | Receive who form => λ _ w', w' = with_outstanding w (remove_one (who, form) (outstanding w))
  | Fetch _ _ _ => λ _ w', w' = w
  | Await g => λ x w', w' = w ∧ (results w !! g = Some x ∨ x = Some "context canceled")
  | Close g err => λ _ w', w' = with_results w (<[g := err]> (results w))
  end.

Abbreviation Prog := (prog Ev).

Definition locked {B} (f : Mem → B * Mem) : Prog B := emit (Locked f).
Definition read {B} (f : Mem → B) : Prog B := locked (λ m, (f m, m)).
Definition modify (f : Mem → Mem) : Prog unit := locked (λ m, (tt, f m)).
Definition call {B} (m : DBM Servers.State B) : Prog (result B) := emit (Call m).

(** ** Texts *)

Definition hex_digit (n : nat) : ascii := default "0"%char (String.get n "0123456789ABCDEF").

Definition unreserved (c : ascii) : bool :=
  ((97 <=? byte c) && (byte c <=? 122)) || ((65 <=? byte c) && (byte c <=? 90)) || is_digit c || existsb (Ascii.eqb c) ["-"; "_"; "."; "~"]%char.

Fixpoint QueryEscape (s : string) : string :=
  match s with
  | EmptyString => ""
  | String c r =>
      (if unreserved c then String c "" else if Ascii.eqb c " "%char then "+"
       else String "%" (String (hex_digit (byte c / 16)) (String (hex_digit (byte c mod 16)) ""))) +:+ QueryEscape r
  end.

(** [url.Values.Encode] of one value per key: sorted by key. *)
Definition Encode (v : Values) : string :=
  Join (map (λ k, QueryEscape k +:+ "=" +:+ QueryEscape (default "" ((list_to_map v : gmap string string) !! k))) (sort_strings (map fst v))) "&".

(** ** Discovery and registration *)

Definition origin (u : URL) : string := uScheme u +:+ "://" +:+ uHost u.

Section Client.
Context (crypto : ConfigEncryptor) (parse : string → option URL) (sha256_sum : string → string).
(** [time.Time.Format(time.RFC3339)] and its inverse. *)
Context (rfc3339 : Z → string) (parse_rfc3339 : string → option Z) (baseURL : string).

Definition CallbackURL : string := baseURL +:+ "/oauth/callback".

(** An error and no answer are both the empty text: the caller does the same with them. *)
Definition probeProtectedResource (origin : string) : Prog string :=
  do! r := emit (Fetch "GET" (origin +:+ "/.well-known/oauth-protected-resource") "") in
  Done match r with
       | Ok (200%Z, body) =>
           match (l ← struct_fields body; decode_strings_field "authorization_servers" l []) with
           | Some (a :: _) => a
           | _ => ""
           end
       | _ => ""
       end.

Definition decode_metadata (body : string) : option Discovery :=
  l ← struct_fields body;
  a ← decode_string_field "authorization_endpoint" l ""; t ← decode_string_field "token_endpoint" l "";
  r ← decode_string_field "registration_endpoint" l ""; s ← decode_strings_field "scopes_supported" l [];
  Some (mkDiscovery a t s r).

Definition probeAuthorizationServer (authServer : string) : Prog (option Discovery) :=
  match parse authServer with
  | None => Done None
  | Some u =>
      do! r := emit (Fetch "GET" (origin u +:+ "/.well-known/oauth-authorization-server") "") in
      Done match r with
           | Ok (200%Z, body) =>
               match decode_metadata body with
               | Some d => if (dAuthURL d =?s "") || (dTokenURL d =?s "") then None else Some d
               | None => None
               end
           | _ => None
           end
  end.

Definition DiscoverOAuth (serverURL : string) : Prog (option Discovery) :=
  match parse serverURL with
  | None => Done None
  | Some u =>
      do! authServer := probeProtectedResource (origin u) in
      probeAuthorizationServer (if authServer =?s "" then origin u else authServer)
  end.

Definition registration_body (callbackURL : string) : string :=
  Marshal (marshal_map [("client_name", JStr "Arc Relay"); ("redirect_uris", JArr [JStr callbackURL]);
    ("grant_types", JArr [JStr "authorization_code"; JStr "refresh_token"]); ("response_types", JArr [JStr "code"]);
    ("token_endpoint_auth_method", JStr "client_secret_post")]).

Definition RegisterClient (endpoint callbackURL : string) : Prog (result (string * string)) :=
  do! r := emit (Fetch "POST" endpoint (registration_body callbackURL)) in
  Done match r with
       | Err e => Err ("registration request failed: " +:+ e)
       | Ok (status, body) =>
           if (status <? 200)%Z || (300 <=? status)%Z then Err ("registration endpoint returned " +:+ pretty status +:+ ": " +:+ body)
           else match (l ← struct_fields body; i ← decode_string_field "client_id" l ""; s ← decode_string_field "client_secret" l ""; Some (i, s)) with
                | None => Err "parsing registration response"
                | Some (i, s) => if i =?s "" then Err "no client_id in registration response" else Ok (i, s)
                end
       end.

(** ** Tokens *)

Definition IsExpired (now : Z) (ts : TokenSet) : bool :=
  match tsExpires ts with None => false | Some t => (t <? now + 60 * second)%Z end.

Definition token_error (status : Z) (body : string) : string :=
  match (l ← struct_fields body; e ← decode_string_field "error" l ""; d ← decode_string_field "error_description" l ""; Some (e, d)) with
  | Some (e, d) => if e !=? "" then "token endpoint returned " +:+ pretty status +:+ ": " +:+ e +:+ ": " +:+ d
                   else "token endpoint returned " +:+ pretty status
  | None => "token endpoint returned " +:+ pretty status
  end.

Definition decode_token (body : string) : option (string * string * string * Z) :=
  l ← struct_fields body;
  a ← decode_string_field "access_token" l ""; r ← decode_string_field "refresh_token" l "";
  t ← decode_string_field "token_type" l ""; e ← decode_int_field "expires_in" l 0; Some (a, r, t, e).

(** The answer of a token endpoint; the lifetime is a [time.Duration], which wraps. *)
Definition read_token (now : Z) (answer : result (Z * string)) : result TokenSet :=
  match answer with
  | Err e => Err ("token request failed: " +:+ e)
  | Ok (status, body) =>
      if negb (status =? 200)%Z then Err (token_error status body)
      else match decode_token body with
           | None => Err "parsing token response"
           | Some (a, r, t, e) =>
               if a =?s "" then Err ("no access_token in token endpoint response (HTTP " +:+ pretty status +:+ ")")
               else Ok (mkTokenSet a r t (if (0 <? e)%Z then Some (now + wrap64 (e * second))%Z else None))
           end
  end.

(** A URL no request can be made for counts as a request that fails. *)
Definition tokenRequest (who url : string) (data : Values) : Prog (result TokenSet) :=
  do! _ := emit (Send who url data) in
  do! answer := emit (Receive who data) in
  do! now := emit Now in Done (read_token now answer).

Definition nonce_size : nat := from_option NonceSize 0 (gcm crypto).

Definition UpdateConfig (id : string) (cfg : Remote) : Prog (result unit) :=
  do! nonce := emit (Rand nonce_size) in
  do! now := emit Now in
  call (Servers.UpdateConfig crypto nonce now id (Marshal (remote_json cfg))).

Definition with_auth_tokens (cfg : Remote) (access refresh expiry : string) : Remote :=
  let a := rmAuth cfg in
  mkRemoteConfig (rmURL cfg) (mkAuth (aType a) (aToken a) (aHeaderName a) (aClientID a) (aClientSecret a) (aAuthURL a) (aTokenURL a)
    (aScopes a) access refresh expiry (aRegisteredRedirectURI a) (aRegistrationEndpoint a)).

Definition saveTokens (id : string) (cfg : Remote) (ts : TokenSet) : Prog (result unit) :=
  UpdateConfig id (with_auth_tokens cfg (tsAccess ts) (tsRefresh ts) (from_option rfc3339 "" (tsExpires ts))).

Definition clearTokens (id : string) (cfg : Remote) : Prog unit :=
  do! _ := UpdateConfig id (with_auth_tokens cfg "" "" "") in
  modify (λ m, with_tokens m (delete id (tokens m))).

(** [None] for a server that does not exist and for one without a token. *)
Definition tokens_of (cfg : Remote) : option TokenSet :=
  let a := rmAuth cfg in
  if aAccessToken a =?s "" then None
  else Some (mkTokenSet (aAccessToken a) (aRefreshToken a) "" (if aTokenExpiry a =?s "" then None else parse_rfc3339 (aTokenExpiry a))).

Definition loadTokens (id : string) : Prog (result (option TokenSet)) :=
  do! r := call (Servers.Get crypto id) in
  Done match r with
       | Err e => Err e
       | Ok None => Ok None
       | Ok (Some srv) =>
           match decode_remote_config (Config srv) with
           | None => Err "parsing server config"
           | Some cfg => Ok (tokens_of cfg)
           end
       end.

Definition exchangeCode (who : string) (auth : RemoteAuth) (code verifier redirectURI : string) : Prog (result TokenSet) :=
  tokenRequest who (aTokenURL auth)
    ([("grant_type", "authorization_code"); ("code", code); ("redirect_uri", redirectURI); ("client_id", aClientID auth); ("code_verifier", verifier)]
     ++ (if aClientSecret auth !=? "" then [("client_secret", aClientSecret auth)] else [])).

(** ** Refreshing *)

Definition refresh_form (ts : TokenSet) (auth : RemoteAuth) : Values :=
  [("grant_type", "refresh_token"); ("refresh_token", tsRefresh ts); ("client_id", aClientID auth)]
  ++ (if aClientSecret auth !=? "" then [("client_secret", aClientSecret auth)] else [])
  ++ (if aRegisteredRedirectURI auth !=? "" then [("redirect_uri", aRegisteredRedirectURI auth)] else []).

(** The endpoints after the provider moved. *)
Definition moved (cfg : Remote) (d : Discovery) : Remote :=
  let a := rmAuth cfg in
  mkRemoteConfig (rmURL cfg) (mkAuth (aType a) (aToken a) (aHeaderName a) (aClientID a) (aClientSecret a)
    (if dAuthURL d !=? "" then dAuthURL d else aAuthURL a) (dTokenURL d) (aScopes a) (aAccessToken a) (aRefreshToken a) (aTokenExpiry a)
    (aRegisteredRedirectURI a) (if dRegistration d !=? "" then dRegistration d else aRegistrationEndpoint a)).

(** The request, and once more at the new endpoint when the old one answers 404; with the
    configuration that is current then. *)
Definition request_refresh (id : string) (cfg : Remote) (data : Values) : Prog (result TokenSet * Remote) :=
  do! r := tokenRequest id (aTokenURL (rmAuth cfg)) data in
  match r with
  | Ok ts => Done (Ok ts, cfg)
  | Err e =>
      if Contains e "returned 404" then
        do! disc := DiscoverOAuth (rmURL cfg) in
        match disc with
        | Some d =>
            if (dTokenURL d !=? "") && (dTokenURL d !=? aTokenURL (rmAuth cfg)) then
              do! _ := UpdateConfig id (moved cfg d) in
              do! r := tokenRequest id (dTokenURL d) data in Done (r, moved cfg d)
            else Done (Err e, cfg)
        | None => Done (Err e, cfg)
        end
      else Done (Err e, cfg)
  end.

(** An error, or [None]. *)
Definition doRefreshToken (id : string) (ts : option TokenSet) : Prog (option string) :=
  let none := "no refresh token available for server " +:+ id in
  match ts with
  | None => Done (Some none)
  | Some ts =>
      if tsRefresh ts =?s "" then Done (Some none)
      else
        do! r := call (Servers.Get crypto id) in
        match r with
        | Ok (Some srv) =>
            match decode_remote_config (Config srv) with
            | None => Done (Some "parsing server config")
            | Some cfg =>
                do! '(r, cfg) := request_refresh id cfg (refresh_form ts (rmAuth cfg)) in
                match r with
                | Err e =>
                    let failed := Some ("token refresh failed (reauthorize via server detail page): " +:+ e) in
                    if Contains e "invalid_grant" then do! _ := clearTokens id cfg in Done failed else Done failed
                | Ok new =>
                    let new := if tsRefresh new =?s "" then mkTokenSet (tsAccess new) (tsRefresh ts) (tsType new) (tsExpires new) else new in
                    do! saved := saveTokens id cfg new in
                    match saved with
                    | Err e => Done (Some ("saving refreshed tokens: " +:+ e))
                    | Ok _ => do! _ := modify (λ m, with_tokens m (<[id := new]> (tokens m))) in Done None
                    end
                end
            end
        | _ => Done (Some ("server not found: " +:+ id))
        end
  end.

(** Join the refresh that is under way, or begin one. *)
Definition enter_refresh (id : string) (m : Mem) : (nat + nat * option TokenSet) * Mem :=
  match refreshing m !! id with
  | Some g => (inl g, m)
  | None => (inr (fresh m, tokens m !! id), mkMem (pending m) (tokens m) (<[id := fresh m]> (refreshing m)) (S (fresh m)))
  end.

Definition refreshToken (id : string) : Prog (option string) :=
  do! turn := locked (enter_refresh id) in
  match turn with
  | inl g => emit (Await g)
  | inr (g, ts) =>
      do! err := doRefreshToken id ts in
      do! _ := modify (λ m, with_refreshing m (delete id (refreshing m))) in
      do! _ := emit (Close g err) in Done err
  end.

Definition ForceRefresh (id : string) : Prog (option string) := refreshToken id.

(** ** Using tokens *)

Inductive Token := HasToken (t : string) | NoToken (e : string) | Panics.

(** The cached tokens, or those of the store, which are then cached. *)
Definition cached_tokens (id : string) : Prog (result TokenSet) :=
  do! ts := read (λ m, tokens m !! id) in
  match ts with
  | Some ts => Done (Ok ts)
  | None =>
      do! r := loadTokens id in
      match r with
      | Err e => Done (Err ("loading tokens: " +:+ e))
      | Ok None => Done (Err ("no OAuth tokens for server " +:+ id))
      | Ok (Some ts) => do! _ := modify (λ m, with_tokens m (<[id := ts]> (tokens m))) in Done (Ok ts)
      end
  end.

Definition GetAccessToken (id : string) : Prog Token :=
  do! r := cached_tokens id in
  match r with
  | Err e => Done (NoToken e)
  | Ok ts =>
      do! now := emit Now in
      if IsExpired now ts then
        do! err := refreshToken id in
        match err with
        | Some e => Done (NoToken ("refreshing token: " +:+ e))
        | None => do! ts := read (λ m, tokens m !! id) in
                  Done match ts with Some ts => HasToken (tsAccess ts) | None => Panics end
        end
      else Done (HasToken (tsAccess ts))
  end.

Definition HasTokens (id : string) : Prog bool :=
  do! ts := read (λ m, tokens m !! id) in
  match ts with
  | Some _ => Done true
  | None => do! r := loadTokens id in Done (match r with Ok (Some _) => true | _ => false end)
  end.

Definition GetTokenInfo (id : string) : Prog (option TokenSet) :=
  do! ts := read (λ m, tokens m !! id) in
  match ts with
  | Some ts => Done (Some ts)
  | None =>
      do! r := loadTokens id in
      match r with
      | Ok (Some ts) => do! _ := modify (λ m, with_tokens m (<[id := ts]> (tokens m))) in Done (Some ts)
      | _ => Done None
      end
  end.

(** ** The authorization flow *)

Definition pendingAuthExpiry : Z := 10 * minute.
Definition maxPendingFlows : nat := 100.

(** One round of [cleanupPendingLoop]. *)
Definition cleanup : Prog unit :=
  do! now := emit Now in
  modify (λ m, with_pending m (filter (λ '(_, pa), ¬ (pendingAuthExpiry < now - paCreated pa)%Z) (pending m))).

(** [generateCodeVerifier] and [generateState]: random bytes as base64url text. *)
Definition generate (n : nat) : Prog (option string) :=
  do! r := emit (Rand n) in Done (option_map (λ b, RawURLEncode_text (EncodeToString b)) r).

Definition auth_params (auth : RemoteAuth) (state challenge : string) : Values :=
  [("response_type", "code"); ("client_id", aClientID auth); ("redirect_uri", CallbackURL); ("state", state);
   ("code_challenge", challenge); ("code_challenge_method", "S256")]
  ++ (if aScopes auth !=? "" then [("scope", aScopes auth)] else []).

Definition begin_flow (state : string) (pa : PendingAuth) (m : Mem) : bool * Mem :=
  if maxPendingFlows <=? size (pending m) then (false, m) else (true, with_pending m (<[state := pa]> (pending m))).

Definition StartAuthFlow (id : string) (auth : RemoteAuth) : Prog (result string) :=
  do! verifier := generate 32 in
  match verifier with
  | None => Done (Err "generating code verifier")
  | Some verifier =>
      do! state := generate 16 in
      match state with
      | None => Done (Err "generating state")
      | Some state =>
          do! now := emit Now in
          do! begun := locked (begin_flow state (mkPending id verifier state now)) in
          if negb begun then Done (Err "too many pending OAuth flows, try again later")
          else match validateServerURL parse (aAuthURL auth) with
               | Err _ => Done (Err ("invalid OAuth authorization URL " +:+ quoted (aAuthURL auth)))
               | Ok _ => Done (Ok (aAuthURL auth +:+ "?" +:+ Encode (auth_params auth state (ComputeCodeChallenge sha256_sum verifier))))
               end
      end
  end.

Definition take_pending (state : string) (m : Mem) : option PendingAuth * Mem :=
  (pending m !! state, with_pending m (delete state (pending m))).

Definition unknown_state : string := "unknown or expired OAuth state".

Definition HandleCallback (state code : string) : Prog (result string) :=
  do! pa := locked (take_pending state) in
  match pa with
  | None => Done (Err unknown_state)
  | Some pa =>
      do! now := emit Now in
      if (10 * minute <? now - paCreated pa)%Z then Done (Err "OAuth state expired")
      else
        let id := paServerID pa in
        do! r := call (Servers.Get crypto id) in
        match r with
        | Ok (Some srv) =>
            match decode_remote_config (Config srv) with
            | None => Done (Err "parsing server config")
            | Some cfg =>
                do! r := exchangeCode id (rmAuth cfg) code (paVerifier pa) CallbackURL in
                match r with
                | Err e => Done (Err ("token exchange failed: " +:+ e))
                | Ok ts =>
                    do! saved := saveTokens id cfg ts in
                    match saved with
                    | Err e => Done (Err ("saving tokens: " +:+ e))
                    | Ok _ => do! _ := modify (λ m, with_tokens m (<[id := ts]> (tokens m))) in Done (Ok id)
                    end
                end
            end
        | _ => Done (Err ("server not found: " +:+ id))
        end
  end.

(** ** Registering again *)

Fixpoint first_discovery (urls : list string) : Prog (option Discovery) :=
  match urls with
  | [] => Done None
  | u :: r =>
      if u =?s "" then first_discovery r
      else
        do! d := DiscoverOAuth u in
        match d with
        | Some d => if dRegistration d !=? "" then Done (Some d) else first_discovery r
        | None => first_discovery r
        end
  end.

(** The configuration after a registration: new client, the endpoints that were found, no
    tokens. *)
Definition registered (cfg : Remote) (disc : option Discovery) (client secret endpoint : string) : Remote :=
  let a := rmAuth cfg in
  let found (f : Discovery → string) (old : string) := match disc with Some d => if f d !=? "" then f d else old | None => old end in
  mkRemoteConfig (rmURL cfg) (mkAuth (aType a) (aToken a) (aHeaderName a) client secret (found dAuthURL (aAuthURL a)) (found dTokenURL (aTokenURL a))
    (aScopes a) "" "" "" CallbackURL endpoint).

Definition register_at (id : string) (cfg : Remote) (disc : option Discovery) (endpoint : string) : Prog (result bool * Remote) :=
  do! r := RegisterClient endpoint CallbackURL in
  match r with
  | Err e => Done (Err ("re-registration failed: " +:+ e), cfg)
  | Ok (client, secret) =>
      let cfg := registered cfg disc client secret endpoint in
      do! saved := UpdateConfig id cfg in
      match saved with
      | Err e => Done (Err ("persisting re-registration: " +:+ e), cfg)
      | Ok _ => do! _ := modify (λ m, with_tokens m (delete id (tokens m))) in Done (Ok true, cfg)
      end
  end.

(** With the configuration the caller goes on with. *)
Definition ReRegisterIfNeeded (id : string) (cfg : Remote) (force : bool) : Prog (result bool * Remote) :=
  let a := rmAuth cfg in
  if negb force && (aRegisteredRedirectURI a =?s CallbackURL) then Done (Ok false, cfg)
  else
    do! disc := (if (aRegistrationEndpoint a =?s "") || (aAuthURL a =?s "") || (aTokenURL a =?s "")
                 then first_discovery [rmURL cfg; aAuthURL a] else Done None) in
    if aRegistrationEndpoint a =?s "" then
      match disc with
      | Some d => register_at id cfg disc (dRegistration d)
      | None => if aRegisteredRedirectURI a =?s "" then Done (Ok false, cfg)
                else Done (Err "redirect URI changed but cannot re-register: no registration endpoint found", cfg)
      end
    else register_at id cfg disc (aRegistrationEndpoint a).

(** ** Pages *)

Inductive Page := PgNotFound | PgStatus (code : Z) (msg : string) | PgRedirect (location : string) | PgJson (code : Z) (body : json).

Definition handleOAuthStart (user : option User) (path : string) (force : bool) : Prog Page :=
  if negb (bool_decide (uRole <$> user = Some "admin")) then Done (PgStatus 403 "Admin access required")
  else
    let id := TrimPrefix path "/oauth/start/" in
    if id =?s "" then Done PgNotFound
    else
      do! r := call (Servers.Get crypto id) in
      match r with
      | Ok (Some srv) =>
          if ServerType srv !=? "remote" then Done (PgStatus 400 "OAuth is only supported for remote servers")
          else match decode_remote_config (Config srv) with
          | None => Done (PgStatus 500 "Invalid server config")
          | Some cfg =>
              if aType (rmAuth cfg) !=? "oauth" then Done (PgStatus 400 "Server is not configured for OAuth")
              else
                do! '(r, cfg) := ReRegisterIfNeeded id cfg force in
                match r with
                | Err e => Done (PgStatus 500 ("OAuth re-registration failed: " +:+ e))
                | Ok _ =>
                    do! u := StartAuthFlow id (rmAuth cfg) in
                    Done match u with Ok u => PgRedirect u | Err _ => PgStatus 500 "Failed to start OAuth flow" end
                end
          end
      | _ => Done PgNotFound
      end.

(** Reachable without a session: the provider redirects the browser here. *)
Definition handleOAuthCallback (code state error description : string) : Prog Page :=
  if (code =?s "") || (state =?s "") then
    Done (if error !=? "" then PgStatus 400 ("OAuth error: " +:+ error +:+ " — " +:+ description) else PgStatus 400 "Missing code or state parameter")
  else
    do! r := HandleCallback state code in
    Done match r with
         | Ok id => PgRedirect ("/servers/" +:+ id)
         | Err e => if Contains e unknown_state then PgRedirect "/" else PgStatus 400 ("OAuth callback failed: " +:+ e)
         end.

Definition discovery_json (d : Discovery) (client : option (string * string)) : json :=
  JObj ([("auth_url", JStr (dAuthURL d)); ("token_url", JStr (dTokenURL d))] ++ omit_empty "registration_endpoint" (dRegistration d)
        ++ omit_strings "scopes_supported" (dScopes d) ++ omit_empty "client_id" (from_option fst "" client)
        ++ omit_empty "client_secret" (from_option snd "" client)
        ++ omit_empty "registered_redirect_uri" (if bool_decide (is_Some client) then CallbackURL else "")).

Definition handleCatalogDiscoverOAuth (ParseIP : string → option IP) (LookupHost : string → option (list string))
    (user : option User) (method body : string) : Prog Page :=
  if method !=? "POST" then Done (PgStatus 405 "Method not allowed")
  else if negb (bool_decide (uRole <$> user = Some "admin")) then Done (PgStatus 403 "Admin access required")
  else match (l ← body_fields body; decode_string_field "remote_url" l "") with
  | None | Some "" => Done (PgJson 200 (JObj []))
  | Some url =>
      match validateExternalURL parse ParseIP LookupHost url with
      | Err e => Done (PgJson 400 (JObj [("error", JStr e)]))
      | Ok _ =>
          do! disc := DiscoverOAuth url in
          match disc with
          | None => Done (PgJson 200 (JObj []))
          | Some d =>
              if (dRegistration d !=? "") && is_ok (validateExternalURL parse ParseIP LookupHost (dRegistration d)) then
                do! reg := RegisterClient (dRegistration d) CallbackURL in
                Done (PgJson 200 (discovery_json d (match reg with Ok c => Some c | Err _ => None end)))
              else Done (PgJson 200 (discovery_json d None))
          end
      end
  end.
End Client.

(** ** Running with given answers *)

(** The answer to a request or the random number of an event that has one. *)
Inductive Answer := ANone | ARand (r : option string) | AHttp (r : result (Z * string)).

Definition exec_event {X} (e : Ev X) (a : Answer) (w : World) : option (X * World) :=
  match e with
  | Locked f => Some ((f (mem w)).1, with_mem w (f (mem w)).2)
  | Call m => Some ((m (sdb w)).1, with_sdb w (m (sdb w)).2)
  | Now => Some (clock w, w)
  | Rand n => match a with ARand None => Some (None, w) | ARand (Some b) => if String.length b =? n then Some (Some b, w) else None | _ => None end
  | Send who _ form => Some (tt, with_outstanding w ((who, form) :: outstanding w))
  | Receive who form => match a with AHttp r => Some (r, with_outstanding w (remove_one (who, form) (outstanding w))) | _ => None end
  | Fetch _ _ _ => match a with AHttp r => Some (r, w) | _ => None end
  | Await g => match results w !! g with Some err => Some (err, w) | None => None end
  | Close g err => Some (tt, with_results w (<[g := err]> (results w)))
  end.

Lemma exec_event_sound X (e : Ev X) a w x w' : exec_event e a w = Some (x, w') → ev X e w x w'.
Proof.
  destruct e; cbn; try (intros [= <- <-]; by split_and?); try (destruct a; try done; by intros [= <- <-]).
  - destruct a as [|[b|]|]; try done; [|by intros [= <- <-]]. destruct (Nat.eqb_spec (String.length b) n); [|done]. intros [= <- <-]. split; [done|]. by intros ? [= <-].
  - destruct (results w !! g) eqn:E; [|done]. intros [= <- <-]. split; [done|by left].
Qed.


(** One answer per event. *)
Fixpoint exec_prog {A} (p : Prog A) (answers : list Answer) (w : World) : option (A * World) :=
  match p, answers with
  | Done a, _ => Some (a, w)
  | Event e k, a :: r => match exec_event e a w with Some (x, w) => exec_prog (k x) r w | None => None end
  | _, [] => None
  end.

Lemma exec_prog_sound {A} (p : Prog A) answers w a w' : exec_prog p answers w = Some (a, w') → runs ev p w a w'.
Proof.
  revert answers w. induction p as [b|X e k IH]; intros answers w; cbn; [by destruct answers; intros [= <- <-]|].
  destruct answers as [|x r]; [done|]. destruct (exec_event e x w) as [[y w1]|] eqn:E; [|done]. intros H%IH. exists y, w1. split; [|done].
  by eapply exec_event_sound.
Qed.
