(* ===== verification/SingleFlight.v ===== *)
(** * Refreshes in flight

    The operations of the OAuth client ([OAuthClient]) run by any number of goroutines, in any
    order, with any answers: how [refreshToken] coalesces refreshes of the same server. *)
From stdpp Require Import pretty.
From S2P Require Import Prelude GoStrings Json JsonDecode AccessTiers Base64 Crypto Profiles Users Servers OAuthProvider ServerManager ServerForm Threads OAuthClient.

(** ** Quiet programs *)

Definition is_refresh (form : Values) : bool := bool_decide (("grant_type", "refresh_token") ∈ form).

(** Events that neither begin, end nor join a refresh. *)
Definition quiet_event (X : Type) (e : Ev X) : Prop :=
  match e with
  | Locked f => ∀ m, refreshing (f m).2 = refreshing m ∧ fresh (f m).2 = fresh m
  | Send _ _ form | Receive _ form => is_refresh form = false
  | Await _ | Close _ _ => False
  | _ => True
  end.

Fixpoint quiet {A} (p : Prog A) : Prop :=
  match p with Done _ => True | Event e k => quiet_event _ e ∧ ∀ x, quiet (k x) end.

Lemma quiet_bind {A B} (p : Prog A) (f : A → Prog B) : quiet p → (∀ a, quiet (f a)) → quiet (pbind p f).
Proof. induction p as [a|X e k IH]; [intros _ H; apply H|]. cbn. intros [He Hk] Hf. split; [done|]. intros x. by apply IH. Qed.

Lemma quiet_emit {X} (e : Ev X) : quiet_event X e → quiet (emit e).
Proof. done. Qed.

Lemma quiet_done {A} (a : A) : quiet (Done a).
Proof. done. Qed.

Create HintDb quiet.
#[export] Hint Resolve quiet_done : quiet.

(** Split a program at its binds and branches. *)
Ltac quiet_step := first
  [ solve [eauto 2 with quiet]
  | apply quiet_bind; [|intros ?]
  | apply quiet_emit; done
  | progress cbv zeta
  | match goal with |- quiet (match ?x with _ => _ end) => destruct x end
  | match goal with |- quiet (if ?x then _ else _) => destruct x end ].
Ltac quiet := repeat quiet_step.

Section Quiet.
Context (crypto : ConfigEncryptor) (parse : string → option URL) (sha256_sum : string → string).
Context (rfc3339 : Z → string) (parse_rfc3339 : string → option Z) (baseURL : string).

Lemma quiet_discover u : quiet (DiscoverOAuth parse u).
Proof. unfold DiscoverOAuth, probeProtectedResource, probeAuthorizationServer. quiet. Qed.

Lemma quiet_register e u : quiet (RegisterClient e u).
Proof. unfold RegisterClient. quiet. Qed.

Lemma quiet_update id cfg : quiet (UpdateConfig crypto id cfg).
Proof. unfold UpdateConfig, call. quiet. Qed.
#[local] Hint Resolve quiet_discover quiet_register quiet_update : quiet.

Lemma quiet_save id cfg ts : quiet (saveTokens crypto rfc3339 id cfg ts).
Proof. unfold saveTokens. quiet. Qed.

Lemma quiet_clear id cfg : quiet (clearTokens crypto id cfg).
Proof. unfold clearTokens, modify, locked. quiet. Qed.

Lemma quiet_load id : quiet (loadTokens crypto parse_rfc3339 id).
Proof. unfold loadTokens, call. quiet. Qed.
#[local] Hint Resolve quiet_save quiet_clear quiet_load : quiet.

Lemma quiet_exchange who a code v u : quiet (exchangeCode who a code v u).
Proof.
  unfold exchangeCode, tokenRequest. assert (H : ∀ l, is_refresh ([("grant_type", "authorization_code"); ("code", code); ("redirect_uri", u);
    ("client_id", aClientID a); ("code_verifier", v)] ++ (if aClientSecret a !=? "" then [("client_secret", l)] else [])) = false).
  { intros l. apply bool_decide_eq_false_2. intros Hin. destruct (aClientSecret a !=? ""); repeat (apply elem_of_cons in Hin as [Hin|Hin]; [done|]); by apply elem_of_nil in Hin. }
  quiet; apply quiet_emit, H.
Qed.

Lemma quiet_cached id : quiet (cached_tokens crypto parse_rfc3339 id).
Proof. unfold cached_tokens, read, modify, locked. quiet. Qed.

Lemma quiet_has id : quiet (HasTokens crypto parse_rfc3339 id).
Proof. unfold HasTokens, read, locked. quiet. Qed.

Lemma quiet_info id : quiet (GetTokenInfo crypto parse_rfc3339 id).
Proof. unfold GetTokenInfo, read, modify, locked. quiet. Qed.

Lemma quiet_cleanup : quiet cleanup.
Proof. unfold cleanup, modify, locked. quiet. Qed.

Lemma quiet_flow id a : quiet (StartAuthFlow parse sha256_sum baseURL id a).
Proof. unfold StartAuthFlow, generate, locked. quiet. apply quiet_emit. intros m. unfold begin_flow. by case_if. Qed.
#[local] Hint Resolve quiet_exchange quiet_flow : quiet.

Lemma quiet_callback state code : quiet (HandleCallback crypto rfc3339 baseURL state code).
Proof. unfold HandleCallback, modify, locked, call. quiet. Qed.

Lemma quiet_first urls : quiet (first_discovery parse urls).
Proof. induction urls as [|u urls IH]; [done|]. cbn [first_discovery]. quiet. Qed.

Lemma quiet_register_at id cfg d e : quiet (register_at crypto baseURL id cfg d e).
Proof. unfold register_at, modify, locked. quiet. Qed.
#[local] Hint Resolve quiet_first quiet_register_at quiet_callback : quiet.

Lemma quiet_reregister id cfg force : quiet (ReRegisterIfNeeded crypto parse baseURL id cfg force).
Proof. unfold ReRegisterIfNeeded. quiet. Qed.
#[local] Hint Resolve quiet_reregister : quiet.

Lemma quiet_start user path force : quiet (handleOAuthStart crypto parse sha256_sum baseURL user path force).
Proof. unfold handleOAuthStart, call. quiet. Qed.

Lemma quiet_callback_page code state e d : quiet (handleOAuthCallback crypto rfc3339 baseURL code state e d).
Proof. unfold handleOAuthCallback. quiet. Qed.
End Quiet.
#[export] Hint Resolve quiet_discover quiet_update quiet_save quiet_clear quiet_cached quiet_has quiet_info quiet_cleanup quiet_start quiet_callback_page : quiet.

(** ** Who owns a refresh *)

(** Each number of a [refreshResult] whose channel is open belongs to the goroutine that
    made it. *)
Inductive Phase := Working | Sending (form : Values) | Closing.

Abbreviation Owned := (gmap nat (string * Phase)).

(** The refresh requests for a server that were sent and not answered. *)
Definition sent (id : string) (l : list (string * Values)) : list Values :=
  (filter (λ x, x.1 = id ∧ is_refresh x.2 = true) l).*2.

Definition open_refreshes (own : Owned) (w : World) : Prop :=
  ∀ id g, refreshing (mem w) !! id = Some g ↔ ∃ ph, own !! g = Some (id, ph) ∧ ph ≠ Closing.

Definition requests_owned (own : Owned) (w : World) : Prop :=
  ∀ id, (∃ g f, own !! g = Some (id, Sending f) ∧ sent id (outstanding w) = [f]) ∨
        ((∀ g f, own !! g ≠ Some (id, Sending f)) ∧ sent id (outstanding w) = []).

Definition channels_owned (own : Owned) (w : World) : Prop :=
  ∀ g, is_Some (own !! g) ↔ g < fresh (mem w) ∧ results w !! g = None.

Definition none_closed_early (w : World) : Prop := ∀ g, fresh (mem w) ≤ g → results w !! g = None.

Definition flights (own : Owned) (w : World) : Prop :=
  open_refreshes own w ∧ requests_owned own w ∧ channels_owned own w ∧ none_closed_early w.

Definition newer (w w' : World) : Prop := fresh (mem w) ≤ fresh (mem w').

#[global] Instance newer_preorder : PreOrder newer.
Proof. split; unfold newer; [intros ?; lia|intros ???; lia]. Qed.

Ltac newer := unfold newer; cbn; lia.

(** Only a goroutine that has no refresh of its own waits, and for a refresh that was begun. *)
Definition may_emit (X : Type) (e : Ev X) (own : Owned) (w : World) : Prop :=
  match e with Await g => own = ∅ ∧ g < fresh (mem w) | _ => True end.

Abbreviation fwp := (wp ev flights newer may_emit).

Lemma sent_quiet id who form l : is_refresh form = false → sent id ((who, form) :: l) = sent id l.
Proof. intros H. unfold sent. rewrite filter_cons_False; [done|]. cbn. intros [_ ?]. congruence. Qed.

Lemma sent_quiet_removed id who form l : is_refresh form = false → sent id (remove_one (who, form) l) = sent id l.
Proof.
  intros H. induction l as [|y l IH]; [done|]. cbn [remove_one]. case_decide as E; [subst; by rewrite sent_quiet|].
  unfold sent in *. rewrite !filter_cons. case_decide; cbn; by rewrite IH.
Qed.

Lemma flights_mem own w m : refreshing m = refreshing (mem w) → fresh m = fresh (mem w) → flights own w → flights own (with_mem w m).
Proof. intros H1 H2 (Ho & Hr & Hc & He). split_and!; [intros id g; cbn; rewrite H1; apply Ho|exact Hr|intros g; cbn; rewrite H2; apply Hc|intros g; cbn; rewrite H2; apply He]. Qed.

Lemma flights_outstanding own w l : (∀ id, sent id l = sent id (outstanding w)) → flights own w → flights own (with_outstanding w l).
Proof. intros H (Ho & Hr & Hc & He). split_and!; [exact Ho|intros id; cbn [with_outstanding outstanding]; rewrite H; apply Hr|exact Hc|exact He]. Qed.

(** A quiet program keeps what its goroutine owns. *)
Lemma quiet_wp {A} (p : Prog A) w own : quiet p → fwp p w own (λ _ _ own', own' = own).
Proof.
  revert w. induction p as [a|X e k IH]; intros w; [done|]. cbn [quiet wp]. intros [He Hk] s rest HR Hd HI.
  split; [destruct e; done|]. intros x s' Hev.
  assert (H : newer s s' ∧ flights (own ∪ rest) s').
  { destruct e; cbn in Hev, He; try done; destruct_and? Hev; subst;
      (split; [unfold newer; cbn; try (destruct (He (mem s)) as [_ ->]); lia|]); try exact HI.
    - destruct (He (mem s)) as [H1 H2]. by apply flights_mem.
    - apply flights_outstanding; [|done]. intros id. by apply sent_quiet.
    - apply flights_outstanding; [|done]. intros id. by apply sent_quiet_removed. }
  destruct H as [H1 H2]. split; [done|]. exists own. split_and!; [done..|]. by apply IH.
Qed.

(** ** Steps of a refresh *)

Lemma own_lookup (rest : Owned) g v g' : rest ##ₘ {[g := v]} →
  ({[g := v]} ∪ rest) !! g' = if decide (g' = g) then Some v else rest !! g'.
Proof.
  intros Hd. case_decide as E; [subst; by rewrite lookup_union_l', lookup_singleton_eq by (by rewrite lookup_singleton_eq)|].
  rewrite lookup_union_r; [done|]. by apply lookup_singleton_ne.
Qed.

(** The phase of the own refresh changes with the world. *)
Lemma flights_phase (rest : Owned) w w' g id ph ph' :
  rest ##ₘ {[g := (id, ph)]} → flights ({[g := (id, ph)]} ∪ rest) w →
  (∀ id' g', refreshing (mem w') !! id' = Some g' ↔
     if decide (g' = g) then id' = id ∧ ph' ≠ Closing else refreshing (mem w) !! id' = Some g') →
  (∀ id', id' ≠ id → sent id' (outstanding w') = sent id' (outstanding w)) →
  sent id (outstanding w') = match ph' with Sending f => [f] | _ => [] end →
  ph ≠ Closing →
  fresh (mem w') = fresh (mem w) → results w' = results w →
  flights ({[g := (id, ph')]} ∪ rest) w'.
Proof.
  intros Hd (Ho & Hr & Hc & He) Href Hother Hsent Hph Hfresh Hres.
  assert (Hd' : rest ##ₘ {[g := (id, ph')]}) by (apply map_disjoint_singleton_r in Hd; by apply map_disjoint_singleton_r).
  assert (Hnot : ∀ g' f, g' ≠ g → rest !! g' ≠ Some (id, Sending f)).
  { intros g' f Hne Hg'. assert (H1 : refreshing (mem w) !! id = Some g').
    { apply Ho. exists (Sending f). split; [|done]. rewrite own_lookup by done. by rewrite decide_False. }
    assert (H2 : refreshing (mem w) !! id = Some g).
    { apply Ho. exists ph. split; [|done]. rewrite own_lookup by done. by rewrite decide_True. }
    congruence. }
  split_and!.
  - intros id' g'. rewrite Href. case_decide as E.
    + subst. split.
      * intros [-> Hn]. exists ph'. split; [|done]. rewrite own_lookup by done. by rewrite decide_True.
      * intros (ph2 & Hl & Hn). rewrite own_lookup in Hl by done. rewrite decide_True in Hl by done. by simplify_eq.
    + rewrite (Ho id' g'). f_equiv. intros ph2. rewrite !own_lookup, !decide_False by done. done.
  - intros id'. destruct (decide (id' = id)) as [->|Hne].
    + rewrite Hsent. destruct ph' as [|f|].
      * right. split; [|done]. intros g' f. rewrite own_lookup by done. case_decide; [naive_solver|by apply Hnot].
      * left. exists g, f. split; [|done]. rewrite own_lookup by done. by rewrite decide_True.
      * right. split; [|done]. intros g' f. rewrite own_lookup by done. case_decide; [naive_solver|by apply Hnot].
    + rewrite Hother by done. destruct (Hr id') as [(g' & f & Hl & Hs)|(Hl & Hs)]; [left|right].
      * exists g', f. split; [|done]. rewrite own_lookup in Hl |- * by done. case_decide; [naive_solver|done].
      * split; [|done]. intros g' f. specialize (Hl g' f). rewrite own_lookup in Hl |- * by done. case_decide; [naive_solver|done].
  - intros g'. rewrite Hfresh, Hres, <- (Hc g'), !own_lookup by done. by case_decide; [split; intros _; eexists|].
  - intros g'. rewrite Hfresh, Hres. apply He.
Qed.

Lemma sent_cons id form l : is_refresh form = true → sent id ((id, form) :: l) = form :: sent id l.
Proof. intros H. unfold sent. by rewrite filter_cons_True. Qed.

Lemma sent_other id id' form l : id' ≠ id → sent id' ((id, form) :: l) = sent id' l.
Proof. intros H. unfold sent. rewrite filter_cons_False; [done|]. cbn. naive_solver. Qed.

Lemma sent_removed_other id id' form l : id' ≠ id → sent id' (remove_one (id, form) l) = sent id' l.
Proof.
  intros H. induction l as [|y l IH]; [done|]. cbn [remove_one]. case_decide as E; [subst; by rewrite sent_other|].
  unfold sent in *. rewrite !filter_cons. case_decide; cbn; by rewrite IH.
Qed.

Lemma sent_removed id form l : is_refresh form = true → sent id l = [form] → sent id (remove_one (id, form) l) = [].
Proof.
  intros Hf. induction l as [|y l IH]; [done|]. cbn [remove_one]. case_decide as E; [subst; rewrite sent_cons by done; by intros [= ->]|].
  unfold sent in *. rewrite !filter_cons. case_decide as Hy; [|done]. cbn. intros [= H1 H2]. destruct y as [a f], Hy as [Ha Hb]. cbn in *. by subst.
Qed.

(** What the owner of a refresh knows. *)
Lemma own_open rest w g id ph : rest ##ₘ {[g := (id, ph)]} → flights ({[g := (id, ph)]} ∪ rest) w → ph ≠ Closing →
  refreshing (mem w) !! id = Some g ∧ sent id (outstanding w) = match ph with Sending f => [f] | _ => [] end.
Proof.
  intros Hd (Ho & Hr & _ & _) Hph. assert (H : refreshing (mem w) !! id = Some g).
  { apply Ho. exists ph. split; [|done]. rewrite own_lookup by done. by rewrite decide_True. }
  split; [done|]. destruct (Hr id) as [(g' & f & Hl & ->)|(Hn & ->)].
  - assert (Hg' : refreshing (mem w) !! id = Some g') by (apply Ho; by exists (Sending f)). rewrite H in Hg'. injection Hg' as <-.
    rewrite own_lookup, decide_True in Hl by done. by simplify_eq.
  - destruct ph as [|f|]; [done| |done]. destruct (Hn g f). rewrite own_lookup by done. by rewrite decide_True.
Qed.

(** The same refresh, in another phase. *)
Lemma same_open w g id ph' : refreshing (mem w) !! id = Some g → (∀ id', refreshing (mem w) !! id' = Some g → id' = id) → ph' ≠ Closing →
  ∀ id' g', refreshing (mem w) !! id' = Some g' ↔ if decide (g' = g) then id' = id ∧ ph' ≠ Closing else refreshing (mem w) !! id' = Some g'.
Proof. intros H Hu Hp id' g'. case_decide; [|done]. subst. split; [intros ?; split; [by apply Hu|done]|]. by intros [-> _]. Qed.

Lemma own_unique rest w g id ph : rest ##ₘ {[g := (id, ph)]} → flights ({[g := (id, ph)]} ∪ rest) w →
  ∀ id', refreshing (mem w) !! id' = Some g → id' = id.
Proof. intros Hd (Ho & _) id' (ph' & Hl & _)%Ho. rewrite own_lookup, decide_True in Hl by done. by simplify_eq. Qed.

Lemma token_wp id url form w g : is_refresh form = true →
  fwp (tokenRequest id url form) w {[g := (id, Working)]} (λ _ _ own', own' = {[g := (id, Working)]}).
Proof.
  intros Hf. unfold tokenRequest. cbn [pbind emit wp]. intros s rest _ Hd HI. split; [done|]. intros [] s' Hev. cbn in Hev. subst s'. split; [newer|].
  destruct (own_open _ _ _ _ _ Hd HI ltac:(done)) as [Hg Hs]. pose proof (own_unique _ _ _ _ _ Hd HI) as Hu.
  exists {[g := (id, Sending form)]}. assert (Hd2 : rest ##ₘ {[g := (id, Sending form)]}) by (apply map_disjoint_singleton_r in Hd; by apply map_disjoint_singleton_r).
  split_and!; [done| |].
  { eapply (flights_phase rest s); [exact Hd|exact HI|by refine (same_open s g id (Sending form) Hg Hu _)| | |done..].
    - intros id' Hne. by apply sent_other.
    - cbn [with_outstanding outstanding]. by rewrite sent_cons, Hs. }
  match goal with |- ∀ _ _, newer ?x _ → _ => generalize x end. clear s Hd HI Hg Hs Hu Hd2 rest. intros ? s rest _ Hd HI. split; [done|]. intros a s' Hev. cbn in Hev. subst s'. split; [newer|].
  destruct (own_open _ _ _ _ _ Hd HI ltac:(done)) as [Hg Hs]. pose proof (own_unique _ _ _ _ _ Hd HI) as Hu.
  exists {[g := (id, Working)]}. assert (Hd2 : rest ##ₘ {[g := (id, Working)]}) by (apply map_disjoint_singleton_r in Hd; by apply map_disjoint_singleton_r).
  split_and!; [done| |].
  { eapply (flights_phase rest s); [exact Hd|exact HI|by refine (same_open s g id Working Hg Hu _)| | |done..].
    - intros id' Hne. by apply sent_removed_other.
    - by apply sent_removed. }
  match goal with |- ∀ _ _, newer ?x _ → _ => generalize x end. clear s Hd HI Hg Hs Hu Hd2 rest. intros ? s rest _ Hd HI. split; [done|]. intros x s' [_ Hev]. subst s'. split; [newer|]. exists {[g := (id, Working)]}. done.
Qed.

(** ** Refreshing *)

Lemma refresh_form_refreshes ts a : is_refresh (refresh_form ts a) = true.
Proof. apply bool_decide_eq_true_2. left. Qed.

(** Once a goroutine emitted nothing more than it may, the rest follows from what it owns
    then. *)
Lemma keep_wp {A B} (p : Prog A) (f : A → Prog B) w own Q :
  fwp p w own (λ _ _ own', own' = own) → (∀ a w', fwp (f a) w' own Q) → fwp (pbind p f) w own Q.
Proof. intros Hp Hf. apply wp_bind. eapply wp_mono; [|exact Hp]. intros a w' o ->. apply Hf. Qed.

Lemma done_wp {A} (a : A) w own (Q : A → World → Owned → Prop) : Q a w own → fwp (Done a) w own Q.
Proof. done. Qed.

Section Refresh.
Context (crypto : ConfigEncryptor) (parse : string → option URL) (sha256_sum : string → string).
Context (rfc3339 : Z → string) (parse_rfc3339 : string → option Z) (baseURL : string).

Lemma request_wp id cfg form w g : is_refresh form = true →
  fwp (request_refresh crypto parse id cfg form) w {[g := (id, Working)]} (λ _ _ own', own' = {[g := (id, Working)]}).
Proof.
  intros Hf. unfold request_refresh. apply keep_wp; [by apply token_wp|]. intros [ts|e] w'; [done|]. case_if; [|done].
  apply keep_wp; [apply quiet_wp, quiet_discover|]. intros [d|] w2; [|done]. case_if; [|done].
  apply keep_wp; [apply quiet_wp, quiet_update|]. intros _ w3. apply keep_wp; [by apply token_wp|]. done.
Qed.

Lemma do_refresh_wp id ts w g :
  fwp (doRefreshToken crypto parse rfc3339 id ts) w {[g := (id, Working)]} (λ _ _ own', own' = {[g := (id, Working)]}).
Proof.
  unfold doRefreshToken. destruct ts as [ts|]; [|done]. case_if; [done|]. apply keep_wp; [by apply quiet_wp|].
  intros [[srv|]|e] w'; [|done..]. destruct (decode_remote_config (Config srv)) as [cfg|]; [|done].
  apply keep_wp; [apply request_wp, refresh_form_refreshes|]. intros [[new|e] cfg'] w2.
  - apply keep_wp; [apply quiet_wp, quiet_save|]. intros [u|e] w3; [|done]. apply keep_wp; [by apply quiet_wp|]. done.
  - case_if; [|done]. apply keep_wp; [apply quiet_wp, quiet_clear|]. done.
Qed.

(** The end of a refresh: it leaves the map, and its channel is closed. *)
Lemma leave_wp id g err w :
  fwp (pbind (modify (λ m, with_refreshing m (delete id (refreshing m)))) (λ _, pbind (emit (Close g err)) (λ _, Done err)))
    w {[g := (id, Working)]} (λ _ _ own', own' = ∅).
Proof.
  cbn [pbind emit modify locked wp]. intros s rest _ Hd HI. split; [done|]. intros [] s' [_ Hev]. cbn in Hev. subst s'. split; [newer|].
  destruct (own_open _ _ _ _ _ Hd HI ltac:(done)) as [Hg Hs]. pose proof (own_unique _ _ _ _ _ Hd HI) as Hu.
  exists {[g := (id, Closing)]}. assert (Hd2 : rest ##ₘ {[g := (id, Closing)]}) by (apply map_disjoint_singleton_r in Hd; by apply map_disjoint_singleton_r).
  split_and!; [done| |].
  { eapply (flights_phase rest s); [exact Hd|exact HI| |done|exact Hs|done..]. intros id' g'. cbn. rewrite lookup_delete_Some. case_decide as E.
    - subst. split; [|by intros [_ ?]]. intros [Hne Hl]. by apply Hu in Hl.
    - split; [by intros [_ ?]|]. intros Hl. split; [|done]. intros <-. congruence. }
  match goal with |- ∀ _ _, newer ?x _ → _ => generalize x end. clear s Hd HI Hg Hs Hu Hd2 rest. intros ? s rest _ Hd HI. split; [done|]. intros [] s' Hev. cbn in Hev. subst s'. split; [newer|].
  exists ∅. split_and!; [apply map_disjoint_empty_r| |done]. rewrite (left_id_L ∅ (∪)). destruct HI as (Ho & Hr & Hc & He).
  assert (Hl : ∀ g', ({[g := (id, Closing)]} ∪ rest) !! g' = if decide (g' = g) then Some (id, Closing) else rest !! g') by (intros; by apply own_lookup).
  assert (Hn : rest !! g = None) by (by apply map_disjoint_singleton_r in Hd). split_and!.
  - intros id' g'. rewrite (Ho id' g'). f_equiv. intros ph. rewrite Hl. case_decide; [|done]. subst. rewrite Hn. naive_solver.
  - intros id'. cbn [with_results outstanding]. destruct (Hr id') as [(g' & f & Hg' & Hs)|(Hg' & Hs)]; [left|right].
    + exists g', f. split; [|done]. rewrite Hl in Hg'. by case_decide; [simplify_eq|].
    + split; [|done]. intros g' f. specialize (Hg' g' f). rewrite Hl in Hg'. case_decide; [subst; by rewrite Hn|done].
  - intros g'. specialize (Hc g'). rewrite Hl in Hc. cbn. case_decide; [subst; rewrite Hn, lookup_insert_eq; split; [by intros []|by intros [_ ?]]|].
    rewrite lookup_insert_ne by done. done.
  - intros g' Hg'. cbn in *. rewrite lookup_insert_ne; [by apply He|]. intros <-. destruct (Hc g) as [Hlt _]. rewrite Hl, decide_True in Hlt by done.
    destruct Hlt as [? _]; [by eexists|]. lia.
Qed.

Lemma refresh_wp id w : fwp (refreshToken crypto parse rfc3339 id) w ∅ (λ _ _ own', own' = ∅).
Proof.
  unfold refreshToken, locked. cbn [pbind emit wp]. intros s rest _ Hd HI. split; [done|]. intros x s' [Hx Hev]. subst s'.
  rewrite (left_id_L ∅ (∪)) in HI. destruct HI as (Ho & Hr & Hc & He). unfold enter_refresh in *. destruct (refreshing (mem s) !! id) as [g|] eqn:Eg; cbn [fst snd] in *; subst x.
  - split; [newer|]. exists ∅. rewrite (left_id_L ∅ (∪)). split_and!; [done|by split_and!|]. cbn [wp]. intros s2 rest2 HR Hd2 HI2.
    assert (Hf : g < fresh (mem s)) by (apply Ho in Eg as (ph & Hg & _); by apply Hc; eexists). unfold newer in HR. cbn in HR.
    split; [split; [done|lia]|]. intros err s3 [Hev _]. subst s3. split; [newer|]. by exists ∅.
  - split; [newer|]. set (g := fresh (mem s)) in *. assert (Hn : rest !! g = None).
    { apply eq_None_not_Some. intros [Hlt _]%Hc. unfold g in Hlt. lia. }
    assert (Hd2 : rest ##ₘ {[g := (id, Working)]}) by (by apply map_disjoint_singleton_r).
    assert (Hid : ∀ g' ph, rest !! g' = Some (id, ph) → ph = Closing).
    { intros g' ph Hg'. assert (Hne : ¬ (refreshing (mem s) !! id = Some g')) by congruence.
      destruct ph; [destruct Hne; apply Ho; by eexists|destruct Hne; apply Ho; by eexists|done]. }
    exists {[g := (id, Working)]}. split_and!; [done| |].
    + split_and!.
      * intros id' g'. cbn. rewrite lookup_insert_Some, (Ho id' g'), own_lookup by done. case_decide as E; [subst; rewrite Hn; naive_solver|].
        split; [naive_solver|]. intros (ph & Hl & Hp). right. split; [|by exists ph]. intros <-. apply Hid in Hl. done.
      * intros id'. cbn [with_mem outstanding]. destruct (Hr id') as [(g' & f & Hl & Hs)|(Hl & Hs)]; [left|right].
        -- exists g', f. split; [|done]. rewrite own_lookup by done. rewrite decide_False; [done|]. intros ->. by rewrite Hn in Hl.
        -- split; [|done]. intros g' f. rewrite own_lookup by done. by case_decide; [|apply Hl].
      * intros g'. cbn. rewrite own_lookup by done. specialize (Hc g'). fold g. case_decide as E; [subst|].
        -- split; [intros _; split; [lia|]|by eexists]. apply He. unfold g. lia.
        -- rewrite Hc. fold g. split; intros [? ?]; (split; [lia|done]).
      * intros g' Hg'. cbn in *. apply He. unfold g in *. lia.
    + apply wp_bind. eapply wp_mono; [|apply do_refresh_wp]. intros err w2 o ->. apply leave_wp.
Qed.
End Refresh.

(** ** Any number of goroutines *)

(** What the relay runs: requests that need a token, pages, and the cleanup. *)
Inductive Op :=
| OpGetAccessToken (id : string)
| OpForceRefresh (id : string)
| OpHasTokens (id : string)
| OpGetTokenInfo (id : string)
| OpCleanup
| OpStart (user : option User) (path : string) (force : bool)
| OpCallback (code state error description : string).

Section Pool.
Context (crypto : ConfigEncryptor) (parse : string → option URL) (sha256_sum : string → string).
Context (rfc3339 : Z → string) (parse_rfc3339 : string → option Z) (baseURL : string).

Definition forget {A} (p : Prog A) : Prog unit := pbind p (λ _, Done tt).

Definition run_op (o : Op) : Prog unit :=
  match o with
  | OpGetAccessToken id => forget (GetAccessToken crypto parse rfc3339 parse_rfc3339 id)
  | OpForceRefresh id => forget (ForceRefresh crypto parse rfc3339 id)
  | OpHasTokens id => forget (HasTokens crypto parse_rfc3339 id)
  | OpGetTokenInfo id => forget (GetTokenInfo crypto parse_rfc3339 id)
  | OpCleanup => cleanup
  | OpStart user path force => forget (handleOAuthStart crypto parse sha256_sum baseURL user path force)
  | OpCallback code state error description => forget (handleOAuthCallback crypto rfc3339 baseURL code state error description)
  end.

Definition started (p : Prog unit) : Prop := ∃ o, p = run_op o.

(** Meanwhile the clock goes on, and others change the store in any way. *)
Definition elsewhere (w w' : World) : Prop := ∃ d t, (clock w <= t)%Z ∧ w' = mkWorld (mem w) d (results w) t (outstanding w).

Definition start_world (d : Db Servers.State) (t : Z) : World := mkWorld NewManager d ∅ t [].

Abbreviation run_of d t := (reachable ev started elsewhere (start_world d t)).

Lemma token_op_wp id w : fwp (GetAccessToken crypto parse rfc3339 parse_rfc3339 id) w ∅ (λ _ _ own, finished own).
Proof.
  unfold GetAccessToken. apply keep_wp; [apply quiet_wp, quiet_cached|]. intros [ts|e] w1; [|done]. apply keep_wp; [by apply quiet_wp|]. intros now w2.
  destruct (IsExpired now ts); [|done]. apply keep_wp; [apply (refresh_wp crypto parse sha256_sum rfc3339 parse_rfc3339)|]. intros [e|] w3; [done|]. apply keep_wp; [by apply quiet_wp|]. done.
Qed.

Lemma started_wp p w own : started p → flights own w → fwp p w ∅ (λ _ _ own, finished own).
Proof.
  intros [o ->] _. destruct o; cbn [run_op]; unfold forget; try (apply keep_wp; [|done]); try solve [apply quiet_wp; eauto 2 with quiet].
  - eapply wp_mono; [|apply token_op_wp]. done.
  - eapply wp_mono; [|apply (refresh_wp crypto parse sha256_sum rfc3339 parse_rfc3339)]. done.
Qed.

Lemma elsewhere_ok w w' own : elsewhere w w' → flights own w → flights own w' ∧ newer w w'.
Proof. intros (d & t & _ & ->) H. split; [exact H|newer]. Qed.

Lemma start_ok d t : flights ∅ (start_world d t).
Proof.
  split_and!.
  - intros id g. cbn. rewrite lookup_empty. split; [done|]. intros (ph & H & _). by rewrite lookup_empty in H.
  - intros id. right. split; [|done]. intros g f. by rewrite lookup_empty.
  - intros g. rewrite lookup_empty. cbn. split; [by intros []|]. intros [? _]. lia.
  - intros g _. apply lookup_empty.
Qed.

(** C7: however many goroutines use the tokens of a server at once, in whatever order
    their steps interleave, whatever is answered, and whatever else happens to the store,
    at no time are two refresh requests for the same server under way. *)
Theorem refreshes_single_flight d t c id : run_of d t c → length (sent id (outstanding c.2)) ≤ 1.
Proof.
  intros Hr. destruct (reachable_inv _ _ _ _ _ _ started_wp elsewhere_ok _ _ (start_ok d t) Hr) as (own & _ & Hq & _).
  destruct (Hq id) as [(g & f & _ & ->)|(_ & ->)]; cbn; lia.
Qed.

Definition awaits {X} (e : Ev X) : bool := match e with Await _ => true | _ => false end.

Lemma enabled X (e : Ev X) w : awaits e = false → ∃ x w', ev X e w x w'.
Proof.
  destruct e; intros H; try done; cbn;
    first [by exists None, w | by exists (Err ""), w | by exists tt; eexists | by eexists (Err ""), _ | by eexists _, _].
Qed.

(** C11: a goroutine that waits for a refresh that is not over never waits for nothing:
    another goroutine has not finished, is not waiting itself, and can go on. *)
Theorem waiters_have_worker d t c i g k : run_of d t c → c.1 !! i = Some (Event (Await g) k) → results c.2 !! g = None →
  ∃ j X (e : Ev X) k', j ≠ i ∧ c.1 !! j = Some (Event e k') ∧ awaits e = false ∧ ∃ x w', ev X e c.2 x w'.
Proof.
  intros Hr Hi Hg. destruct (events_ok _ _ _ _ _ _ started_wp elsewhere_ok _ _ _ _ _ _ (start_ok d t) Hr Hi) as (mine & -> & Hlt).
  destruct (owners_work _ _ _ _ _ _ started_wp elsewhere_ok _ _ (start_ok d t) Hr) as (own & (_ & _ & Hc & _) & Hw).
  destruct (proj2 (Hc g)) as [v Hv]; [done|]. destruct (Hw g v Hv) as (j & X & e & k' & m & Hj & Hok & Hm).
  assert (Ha : awaits e = false). { destruct e; try done. destruct Hok as [-> _]. by rewrite lookup_empty in Hm. }
  exists j, X, e, k'. split_and!; [|done..|by apply enabled]. intros ->. rewrite Hj in Hi. injection Hi as HX He. by destruct e.
Qed.
End Pool.

(** ** Schedules *)

Inductive Move := MStart (o : Op) | MTurn (i : nat) (a : Answer) | MElsewhere (d : Db Servers.State) (t : Z).

Section Schedule.
Context (crypto : ConfigEncryptor) (parse : string → option URL) (sha256_sum : string → string).
Context (rfc3339 : Z → string) (parse_rfc3339 : string → option Z) (baseURL : string).

Definition exec_move (c : list (Prog unit) * World) (m : Move) : option (list (Prog unit) * World) :=
  match m with
  | MStart o => Some (c.1 ++ [run_op crypto parse sha256_sum rfc3339 parse_rfc3339 baseURL o], c.2)
  | MTurn i a =>
      match c.1 !! i with
      | Some (Event e k) => '(x, w) ← exec_event e a c.2; Some (<[i := k x]> c.1, w)
      | _ => None
      end
  | MElsewhere d t => if (clock c.2 <=? t)%Z then Some (c.1, mkWorld (mem c.2) d (results c.2) t (outstanding c.2)) else None
  end.

Definition schedule (ms : list Move) (c : list (Prog unit) * World) : option (list (Prog unit) * World) :=
  foldl (λ c m, c ← c; exec_move c m) (Some c) ms.

Lemma exec_move_sound c m c' : exec_move c m = Some c' →
  pool_step ev (started crypto parse sha256_sum rfc3339 parse_rfc3339 baseURL) elsewhere c c'.
Proof.
  destruct c as [ps w], m as [o|i a|d t]; cbn [exec_move fst snd].
  - intros [= <-]. apply step_start. by exists o.
  - destruct (ps !! i) as [[b|X e k]|] eqn:Ei; [done| |done]. destruct (exec_event e a w) as [[x w']|] eqn:Ee; [|done].
    cbn. intros [= <-]. eapply step_event; [done|]. by eapply exec_event_sound.
  - destruct (Z.leb_spec (clock w) t); [|done]. intros [= <-]. apply step_other. by exists d, t.
Qed.

Lemma schedule_none ms : foldl (λ c m, c ← c; exec_move c m) None ms = None.
Proof. induction ms; [done|by cbn]. Qed.

Lemma schedule_sound ms c c' : schedule ms c = Some c' →
  rtc (pool_step ev (started crypto parse sha256_sum rfc3339 parse_rfc3339 baseURL) elsewhere) c c'.
Proof.
  revert c. induction ms as [|m ms IH]; intros c; [by intros [= <-]|]. unfold schedule in *. cbn [foldl mbind option_bind].
  destruct (exec_move c m) as [c1|] eqn:E; [|by rewrite schedule_none]. intros H. eapply rtc_l; [by eapply exec_move_sound|]. by apply IH.
Qed.
End Schedule.

(** ** Runs *)

Definition ex_config (url access refresh expiry : string) : Remote :=
  mkRemoteConfig url (mkAuth "oauth" "" "" "client" "" "https://h/auth" "https://h/token" "" access refresh expiry "" "").

Definition ex_store (cfg : Remote) : Db Servers.State :=
  healthy {["s" := mkServer "s" "wiki" "Wiki" "remote" (Marshal (remote_json cfg)) "running" "" "" None "" false 0 0]}.

Definition stored (d : Db Servers.State) : option Remote := s ← tables d !! "s"; decode_remote_config (Config s).

Local Abbreviation plain := (mkEncryptor None).
Local Abbreviation ex_schedule := (schedule plain ex_parse (λ s, s) pretty int_literal "https://relay").
Local Abbreviation ex_runs := (reachable ev (started plain ex_parse (λ s, s) pretty int_literal "https://relay") elsewhere).

(** Tokens that expired. *)
Definition ex_world : World := start_world (ex_store (ex_config "https://h/mcp" "a1" "r1" "0")) 0.

Definition turns (i n : nat) : list Move := repeat (MTurn i ANone) n.

(** A provider that takes each refresh token once. *)
Definition rotated : Answer := AHttp (Ok (200%Z, Marshal (JObj [("access_token", JStr "a2"); ("refresh_token", JStr "r2")]))).
Definition reused : Answer := AHttp (Ok (400%Z, Marshal (JObj [("error", JStr "invalid_grant")]))).

(** The other goroutine refreshes between loading and caching. *)
Definition stale_load : list Move :=
  [MStart (OpGetAccessToken "s"); MStart (OpGetAccessToken "s")] ++ turns 0 2
  ++ turns 1 7 ++ [MTurn 1 rotated] ++ turns 1 1 ++ [MTurn 1 (ARand None)] ++ turns 1 6
  ++ turns 0 5 ++ [MTurn 0 reused] ++ turns 0 1 ++ [MTurn 0 (ARand None)] ++ turns 0 5.

Definition pool_after (ms : list Move) : list (Prog unit) * World := default ([], ex_world) (ex_schedule ms ([], ex_world)).

Lemma pool_after_reached ms : from_option (λ _, true) false (ex_schedule ms ([], ex_world)) = true → ex_runs ex_world (pool_after ms).
Proof.
  unfold pool_after. destruct (ex_schedule ms ([], ex_world)) as [c|] eqn:E; [|done]. intros _. by eapply schedule_sound.
Qed.

Definition all_done (ps : list (Prog unit)) : bool := forallb (λ p, match p with Done _ => true | _ => false end) ps.

(** Two requests that find no cached token each load the stored one and cache it later; the
    one that is slower puts the old refresh token back after the other one refreshed it, sends it
    again, and the answer makes the relay forget the valid tokens: the server has to be
    authorized again. *)
Theorem concurrent_load_loses_tokens :
  ∃ c, ex_runs ex_world c ∧ all_done c.1 = true ∧ tokens (mem c.2) !! "s" = None ∧
    (λ r, (aAccessToken (rmAuth r), aRefreshToken (rmAuth r))) <$> stored (sdb c.2) = Some ("", "").
Proof. exists (pool_after stale_load). split; [by apply pool_after_reached; vm_compute|]. vm_compute. done. Qed.

(** A configuration that is edited while a refresh is under way is written back as it was
    before the edit. *)
Theorem refresh_reverts_edit :
  ∃ c, ex_runs ex_world c ∧ all_done c.1 = true ∧ rmURL <$> stored (sdb c.2) = Some "https://h/mcp" ∧
    rmURL <$> stored (sdb (pool_after ([MStart (OpGetAccessToken "s")] ++ turns 0 7
      ++ [MElsewhere (ex_store (ex_config "https://new/mcp" "a1" "r1" "0")) 0])).2) = Some "https://new/mcp".
Proof.
  exists (pool_after ([MStart (OpGetAccessToken "s")] ++ turns 0 7 ++ [MElsewhere (ex_store (ex_config "https://new/mcp" "a1" "r1" "0")) 0]
    ++ [MTurn 0 rotated] ++ turns 0 1 ++ [MTurn 0 (ARand None)] ++ turns 0 6)).
  split; [by apply pool_after_reached; vm_compute|]. vm_compute. done.
Qed.

(** Two requests at once: one refreshes, the other one waits. *)
Definition two_users : list Move := [MStart (OpGetAccessToken "s"); MStart (OpGetAccessToken "s")] ++ turns 0 7 ++ turns 1 3.

Lemma refreshes_single_flight_witness :
  ex_runs ex_world (pool_after two_users) ∧ length (sent "s" (outstanding (pool_after two_users).2)) ≤ 1.
Proof.
  assert (H : ex_runs ex_world (pool_after two_users)) by (by apply pool_after_reached; vm_compute). split; [exact H|].
  exact (refreshes_single_flight plain ex_parse (λ s, s) pretty int_literal "https://relay"
           (ex_store (ex_config "https://h/mcp" "a1" "r1" "0")) 0 (pool_after two_users) "s" H).
Defined.

Lemma waiters_have_worker_witness :
  ∃ j X (e : Ev X) k', j ≠ 1 ∧ (pool_after two_users).1 !! j = Some (Event e k') ∧ awaits e = false ∧
    ∃ x w', ev X e (pool_after two_users).2 x w'.
Proof.
  eapply (waiters_have_worker plain ex_parse (λ s, s) pretty int_literal "https://relay"
           (ex_store (ex_config "https://h/mcp" "a1" "r1" "0")) 0 (pool_after two_users) 1 0);
    [by apply pool_after_reached; vm_compute|vm_compute; reflexivity|vm_compute; reflexivity].
Defined.
