(* ===== verification/OAuthFlow.v ===== *)
(** * The authorization flow, from start to restart

    What single operations of [OAuthClient] do when they run alone: the flow from the
    redirect to the provider to the stored tokens. *)
From stdpp Require Import pretty.
From S2P Require Import Prelude GoStrings Json JsonDecode AccessTiers Base64 Crypto Profiles Users Servers OAuthProvider ServerManager ServerForm Threads OAuthClient.

(** Take a run apart at its binds and events. *)
Ltac inv_runs := repeat match goal with
  | H : runs _ (pbind _ _) _ _ _ |- _ => let x := fresh "x" in let w := fresh "w" in let H1 := fresh "Hr" in apply runs_bind in H as (x & w & H1 & H)
  | H : runs _ (Done _) _ _ _ |- _ => destruct H as [? ?]; subst
  | H : runs _ (emit _) _ _ _ |- _ => cbn in H; destruct H as (? & ? & H & [? ?]); subst
  | H : _ ∧ _ |- _ => destruct H; subst
  end.

Section Flow.
Context (crypto : ConfigEncryptor) (parse : string → option URL) (sha256_sum : string → string).
Context (rfc3339 : Z → string) (parse_rfc3339 : string → option Z) (baseURL : string).

Definition encryptor_ok : Prop := match gcm crypto with Some g => AEADLaws g | None => True end.

(** A time is written in whole seconds. *)
Definition whole_seconds (t : Z) : Z := (t / second * second)%Z.
Definition times_ok : Prop := ∀ t, rfc3339 t ≠ "" ∧ parse_rfc3339 (rfc3339 t) = Some (whole_seconds t).

Hypothesis Hcrypto : encryptor_ok.

Lemma decrypts nonce p c : (∀ b, nonce = Some b → String.length b = nonce_size crypto) → HasPrefix p encryptedPrefix = false →
  Encrypt crypto nonce p = Ok c → Decrypt crypto c = Ok p.
Proof.
  unfold encryptor_ok, nonce_size in *. destruct crypto as [[g|]]; cbn [gcm from_option] in *.
  - destruct nonce as [b|]; [|done]. intros Hn _ He. by apply (Decrypt_Encrypt_key g b p c); [apply Hn|].
  - intros _ Hp [= <-]. unfold Decrypt. by rewrite Hp.
Qed.

(** A configuration that was written is what the store answers. *)
Lemma update_config_runs id cfg w u w' : runs ev (UpdateConfig crypto id cfg) w (Ok u) w' → faults (sdb w) = [] →
  mem w' = mem w ∧ clock w' = clock w ∧ faults (sdb w') = [] ∧
  (is_Some (tables (sdb w) !! id) → ∀ srv d, Servers.Get crypto id (sdb w') = (srv, d) → ∃ s, srv = Ok (Some s) ∧ Config s = Marshal (remote_json cfg)).
Proof.
  unfold UpdateConfig, call. assert (Hp : HasPrefix (Marshal (remote_json cfg)) encryptedPrefix = false) by reflexivity. revert Hp.
  generalize (Marshal (remote_json cfg)) as p. intros p Hp H Hf. inv_runs. match goal with H : Ok u = _ |- _ => rename H into Hok end.
  cbn. split_and!; [done..| |].
  - unfold Servers.UpdateConfig in *. destruct (Encrypt _ _ _); [|done]. unfold update, exec in *. rewrite Hf in *. cbn in *. done.
  - intros [s0 Hs0] srv d. unfold Servers.UpdateConfig in *. destruct (Encrypt _ _ _) as [c|] eqn:Ee; [|done].
    unfold update, exec in *. rewrite Hf in *. cbn in *. unfold Servers.Get, db_bind, query, exec. cbn [faults tables next_fault]. rewrite lookup_alter_eq, Hs0. cbn [option_map fmap option_fmap fetch].
    unfold decrypt_row. cbn [Config]. erewrite decrypts; [|eassumption|exact Hp|exact Ee]. cbn [result_map lift_result]. intros [= <- <-]. eexists. split; [done|]. done.
Qed.

Lemma get_keeps id d r d' : Servers.Get crypto id d = (r, d') → faults d = [] → d' = d.
Proof.
  unfold Servers.Get, db_bind, query, exec, fetch, lift_result, db_ret, db_fail. destruct d as [t fs]. cbn. intros H ->. cbn in H.
  destruct (t !! id); cbn in H; [|by simplify_eq]. destruct (decrypt_row _ _); cbn in H; by simplify_eq.
Qed.

Lemma get_found id d s d' : Servers.Get crypto id d = (Ok (Some s), d') → is_Some (tables d !! id).
Proof.
  unfold Servers.Get, db_bind, query, exec, fetch. destruct (next_fault (faults d)) as [[] fs]; [done|]. cbn.
  destruct (tables d !! id); [by eexists|done].
Qed.

(** A token request leaves all but the requests under way alone. *)
Lemma token_request_runs who url form w r w' : runs ev (tokenRequest who url form) w r w' →
  mem w' = mem w ∧ sdb w' = sdb w ∧ clock w' = clock w ∧ (∀ ts, r = Ok ts → tsAccess ts ≠ "").
Proof.
  unfold tokenRequest. intros H. inv_runs. split_and!; [done..|]. intros ts. unfold read_token.
  match goal with |- match ?a with _ => _ end = Ok ts → _ => destruct a as [[st body]|]; [|done] end. case_if; [done|]. destruct (decode_token body) as [[[[a r] t] e]|]; [|done]. destruct (a =?s "") eqn:Ea; [done|].
  intros [= <-]. cbn. by bool_prop.
Qed.

Hypothesis Htimes : times_ok.

Lemma tokens_of_saved cfg ts : tsAccess ts ≠ "" →
  tokens_of parse_rfc3339 (with_auth_tokens cfg (tsAccess ts) (tsRefresh ts) (from_option rfc3339 "" (tsExpires ts)))
  = Some (mkTokenSet (tsAccess ts) (tsRefresh ts) "" (whole_seconds <$> tsExpires ts)).
Proof.
  intros Ha. unfold tokens_of, with_auth_tokens. cbn [rmAuth aAccessToken aRefreshToken aTokenExpiry]. rewrite (proj2 (String.eqb_neq _ _) Ha).
  destruct (tsExpires ts) as [t|]; cbn; [|done]. destruct (Htimes t) as [Hne ->]. by rewrite (proj2 (String.eqb_neq _ _) Hne).
Qed.

(** C10: a callback that succeeds was made with the state of a flow at most ten minutes
    old, which it uses up; the tokens it got are cached for the server the flow was begun
    for; and a relay that is started anew on the same store loads the same access and refresh
    token, with the expiry in whole seconds. *)
Theorem callback_tokens_survive_restart state code w id w' :
  runs ev (HandleCallback crypto rfc3339 baseURL state code) w (Ok id) w' → faults (sdb w) = [] →
  ∃ pa ts, pending (mem w) !! state = Some pa ∧ id = paServerID pa ∧ (clock w - paCreated pa <= 10 * minute)%Z ∧
    pending (mem w') = delete state (pending (mem w)) ∧ tokens (mem w') = <[id := ts]> (tokens (mem w)) ∧
    ∀ v r v', sdb v = sdb w' → runs ev (loadTokens crypto parse_rfc3339 id) v r v' →
      r = Ok (Some (mkTokenSet (tsAccess ts) (tsRefresh ts) "" (whole_seconds <$> tsExpires ts))).
Proof.
  unfold HandleCallback, locked, call. intros H Hf. inv_runs. cbn [take_pending fst snd] in H. destruct (pending (mem w) !! state) as [pa|] eqn:Ep; [|inv_runs; done].
  apply runs_bind in H as (now & w2 & Hn & H). cbn in Hn. destruct Hn as (? & ? & [-> ->] & [-> ->]). cbn [with_mem clock] in H.
  destruct (Z.ltb_spec (10 * minute) (clock w - paCreated pa)) as [|Hle]; [inv_runs; done|].
  apply runs_bind in H as (g & w3 & Hg & H). cbn in Hg. destruct Hg as (? & ? & [-> ->] & [-> ->]). cbn [with_mem sdb] in *.
  destruct (Servers.Get crypto (paServerID pa) (sdb w)) as [r d] eqn:Eg. cbn [fst snd] in *. pose proof (get_keeps _ _ _ _ Eg Hf) as ->.
  destruct r as [[srv|]|]; [|inv_runs; done..]. apply get_found in Eg. destruct (decode_remote_config (Config srv)) as [cfg|]; [|inv_runs; done].
  apply runs_bind in H as (t & w4 & Ht & H). apply token_request_runs in Ht as (Hm & Hd & Hc & Ha). cbn in Hm, Hd, Hc.
  destruct t as [ts|e]; [|inv_runs; done]. specialize (Ha ts eq_refl).
  apply runs_bind in H as (sv & w5 & Hs & H). destruct sv as [u|e]; [|inv_runs; done].
  unfold saveTokens in Hs. apply update_config_runs in Hs as (Hm5 & Hc5 & Hf5 & Hget); [|by rewrite Hd]. unfold modify, locked in H. inv_runs.
  match goal with E : Ok id = Ok _ |- _ => injection E as -> end. exists pa, ts. cbn. rewrite Hm5, Hm. split_and!; [done..|lia|done|done|].
  intros v r v' Hv Hl. cbn in Hv, Hl. destruct Hl as (? & ? & [-> ->] & [-> _]). rewrite Hv. destruct (Servers.Get crypto (paServerID pa) (sdb w5)) as [r d] eqn:Eg2.
  destruct (Hget ltac:(by rewrite Hd) _ _ eq_refl) as (s & -> & Hcfg). cbn [fst]. rewrite Hcfg, remote_config_roundtrip. by rewrite tokens_of_saved.
Qed.
End Flow.

(** ** An instance *)

Definition read_int (s : string) : option Z :=
  match s with String "-" r => Z.opp <$> digits r 0 | _ => digits s 0 end.

Lemma read_pretty z : read_int (pretty z) = Some z.
Proof.
  destruct z as [|p|p]; [done| |].
  - change (pretty (Z.pos p)) with (pretty (N.pos p)). destruct (plain_pos p) as [(c & t & E & Hc & _) Hd]. unfold read_int. rewrite E in *.
    destruct (digit_facts c Hc) as (Hm & _). apply Ascii.eqb_neq in Hm. destruct c as [[] [] [] [] [] [] [] []]; done.
  - change (pretty (Z.neg p)) with (String "-" (pretty (N.pos p))). unfold read_int. destruct (plain_pos p) as [_ ->]. done.
Qed.

Definition ex_rfc3339 (t : Z) : string := pretty (whole_seconds t).

Lemma ex_times_ok : times_ok ex_rfc3339 read_int.
Proof.
  intros t. split; [|apply read_pretty]. unfold ex_rfc3339. destruct (whole_seconds t) as [|p|p]; [done| |done].
  change (pretty (Z.pos p)) with (pretty (N.pos p)). by destruct (plain_pos p) as [(c & r & -> & _) _].
Qed.

Definition flow_world : World :=
  mkWorld (mkMem {["st" := mkPending "s" "verifier" "st" 0]} ∅ ∅ 0)
    (healthy {["s" := mkServer "s" "wiki" "Wiki" "remote" (Marshal (remote_json (mkRemoteConfig "https://h/mcp"
       (mkAuth "oauth" "" "" "client" "" "https://h/auth" "https://h/token" "" "" "" "" "" "")))) "stopped" "" "" None "" false 0 0]}) ∅ 7 [].

Definition flow_answers : list Answer :=
  repeat ANone 4 ++ [AHttp (Ok (200%Z, Marshal (JObj [("access_token", JStr "at"); ("refresh_token", JStr "rt"); ("expires_in", JNum "3600")])))]
  ++ [ANone; ARand (Some "")] ++ repeat ANone 3.

Definition flow_end : World :=
  from_option snd flow_world (exec_prog (HandleCallback (mkEncryptor None) ex_rfc3339 "https://relay" "st" "code") flow_answers flow_world).

Lemma callback_tokens_survive_restart_witness :
  ∃ pa ts, pending (mem flow_world) !! "st" = Some pa ∧ "s" = paServerID pa ∧ (clock flow_world - paCreated pa <= 10 * minute)%Z ∧
    pending (mem flow_end) = delete "st" (pending (mem flow_world)) ∧ tokens (mem flow_end) = <["s" := ts]> (tokens (mem flow_world)) ∧
    ∀ v r v', sdb v = sdb flow_end → runs ev (loadTokens (mkEncryptor None) read_int "s") v r v' →
      r = Ok (Some (mkTokenSet (tsAccess ts) (tsRefresh ts) "" (whole_seconds <$> tsExpires ts))).
Proof.
  apply (callback_tokens_survive_restart (mkEncryptor None) ex_rfc3339 read_int "https://relay" Logic.I ex_times_ok "st" "code" flow_world "s" flow_end); [|reflexivity].
  apply (exec_prog_sound _ flow_answers). vm_compute. reflexivity.
Defined.
