(* ===== verification/Transports.v ===== *)
(** * Transports

    How a request reaches a backend: [src/internal/proxy/sse.go], [http_proxy.go],
    [remote_proxy.go] and [stdio_bridge.go].  What a server answers is open: an HTTP answer is an
    argument or the answer of an event, the process behind a bridge is a step of its own. *)
From S2P Require Import Prelude GoStrings Json JsonDecode AccessTiers MemoryParser Mcp ServerForm Threads.

(** ** Reading an answer *)

(** [hBroken]: reading the body fails after these bytes. *)
Record HttpResp := mkResp { hStatus : Z; hSession : string; hContentType : string; hBody : string; hBroken : bool }.

Fixpoint decode_error_field (l : list (string * json)) (cur : option RPCError) : option (option RPCError) :=
  match l with
  | [] => Some cur
  | (k, v) :: r =>
      if EqualFold k "error" then
        match v with
        | JObj o =>
            let e := default (mkRPCError 0 "" None) cur in
            c ← decode_int_field "code" o (Code e); m ← decode_string_field "message" o (Message e);
            decode_error_field r (Some (mkRPCError c m (decode_raw_field "data" o (Data e))))
        | JNull => decode_error_field r None
        | _ => None
        end
      else decode_error_field r cur
  end.

Definition decode_response (data : string) : option Response :=
  l ← struct_fields data; v ← decode_string_field "jsonrpc" l ""; e ← decode_error_field l None;
  Some (mkResponse v (decode_raw_field "id" l None) (Marshal <$> decode_raw_field "result" l None) e).

(** [bufio.Scanner] with a limit on lines: the lines before one that is too long, and whether
    there is one. *)
Definition sse_max_line : Z := (10 * 1024 * 1024)%Z.

Fixpoint lines_upto (limit : Z) (parts : list string) : list string * bool :=
  match parts with
  | [] => ([], false)
  | p :: r =>
      if (limit <=? Z.of_nat (String.length p))%Z then ([], true)
      else match r with
           | [] => (if p =?s "" then [] else [drop_cr p], false)
           | _ => let '(l, long) := lines_upto limit r in (drop_cr p :: l, long)
           end
  end.

Definition join_lines (l : list string) : string := Join l (String LF "").

(** The loop of [parseSSEResponse]: the data and the type of the event that is being read; [fin] is
    what happens at the end of the stream. *)
Fixpoint sse_events (lines : list string) (data : list string) (ty : string) (fin : list string → result Response) : result Response :=
  match lines with
  | [] => fin data
  | line :: r =>
      if HasPrefix line "event:" then sse_events r data (TrimSpace (TrimPrefix line "event:")) fin
      else if HasPrefix line "data:" then sse_events r (data ++ [TrimSpace (TrimPrefix line "data:")]) ty fin
      else if (line =?s "") && negb (bool_decide (data = [])) then
        if (ty =?s "message") || (ty =?s "") then
          match decode_response (join_lines data) with
          | Some resp => Ok resp
          | None => Err "parsing SSE data as JSON-RPC"
          end
        else sse_events r [] "" fin
      else sse_events r data ty fin
  end.

Definition parseSSEResponse (body : string) (broken : bool) : result Response :=
  let '(lines, long) := lines_upto sse_max_line (Split body LF) in
  sse_events lines [] "" (λ data,
    if long || broken then Err "reading SSE stream"
    else match data with
         | [] => Err "no message event found in SSE stream"
         | _ => match decode_response (join_lines data) with Some resp => Ok resp | None => Err "parsing final SSE data" end
         end).

Definition parseHTTPResponse (r : HttpResp) : result Response :=
  if HasPrefix (hContentType r) "text/event-stream" then parseSSEResponse (hBody r) (hBroken r)
  else if hBroken r then Err "reading response body"
  else match decode_response (hBody r) with Some resp => Ok resp | None => Err "parsing JSON response" end.

(** An event without data does not end at its empty line: its type is taken for that of the next event,
    and the answer that follows is skipped. *)
Example dataless_event_hides_answer :
  let data := "data: " +:+ Marshal (JObj [("jsonrpc", JStr "2.0"); ("id", JNum "1")]) in
  parseSSEResponse (join_lines ["event: ping"; ""; data; ""; ""]) false = Err "no message event found in SSE stream" ∧
  parseSSEResponse (join_lines [data; ""; ""]) false = Ok (mkResponse "2.0" (Some (JNum "1")) None None).
Proof. split; vm_compute; reflexivity. Qed.

(** The last event of a stream that ends without an empty line is the answer whatever its type is. *)
Example last_event_of_any_type :
  let data := "data: " +:+ Marshal (JObj [("jsonrpc", JStr "2.0"); ("id", JNum "1")]) in
  parseSSEResponse (join_lines ["event: ping"; data]) false = Ok (mkResponse "2.0" (Some (JNum "1")) None None).
Proof. vm_compute. reflexivity. Qed.

(** ** A local HTTP server *)

(** The session header that is sent, the answer to the caller and the session after it. *)
Definition HTTPProxy_Send (session : string) (answer : result HttpResp) : result Response * string :=
  match answer with
  | Err e => (Err ("sending request: " +:+ e), session)
  | Ok r =>
      if negb (hStatus r =? 200)%Z then (Err "backend returned another status than 200", session)
      else (parseHTTPResponse r, if hSession r !=? "" then hSession r else session)
  end.

Definition HTTPProxy_SendNotification (answer : result HttpResp) : result unit := result_map (λ _, tt) answer.

(** ** A remote server *)

Module Remote.

(** A request as it was sent: its method, the header of [applyAuth], the session, and the token the
    session was opened with. *)
Record Post := mkPost { pMethod : string; pAuth : list (string * string); pSession : string; pOwner : string }.

(** The fields behind [p.mu]; [owner] is not in the code: it remembers the token of the
    request whose answer set the session. *)
Record State := mkState { session : string; lastOAuthToken : string; owner : string }.

Definition with_session (s : State) sid tok := mkState sid (lastOAuthToken s) tok.
Definition with_last (s : State) t := mkState (session s) t (owner s).

(** [current]: the token the OAuth manager hands out; [deeper]: [reinitialize] was nested more
    often than the model follows. *)
Record World := mkWorld { st : State; current : string; posts : list Post; deeper : bool }.

Inductive Ev : Type → Type :=
| Locked {B} (f : State → B * State) : Ev B
| GetAccessToken : Ev (result string)
| ForceRefresh : Ev (option string)
| Do (method : string) (auth : list (string * string)) (sid : string) : Ev (result HttpResp)
| Deeper : Ev unit.

(** Tokens change when a refresh is forced, and between requests; the manager hands out no
    empty token. *)
Definition ev (X : Type) (e : Ev X) (w : World) : X → World → Prop :=
  match e with
  | Locked f => λ x w', x = (f (st w)).1 ∧ w' = mkWorld (f (st w)).2 (current w) (posts w) (deeper w)
  | GetAccessToken => λ x w', w' = w ∧ ((x = Ok (current w) ∧ current w ≠ "") ∨ ∃ e, x = Err e)
  | ForceRefresh => λ x w', (x = None ∧ ∃ t, w' = mkWorld (st w) t (posts w) (deeper w)) ∨ ((∃ e, x = Some e) ∧ w' = w)
  | Do m a sid => λ _ w', w' = mkWorld (st w) (current w) (posts w ++ [mkPost m a sid (owner (st w))]) (deeper w)
  | Deeper => λ _ w', w' = mkWorld (st w) (current w) (posts w) true
  end.

Abbreviation Prog := (prog Ev).

Definition locked {B} (f : State → B * State) : Prog B := emit (Locked f).
Definition modify (f : State → State) : Prog unit := locked (λ s, (tt, f s)).

Definition new_token (t : string) (s : State) : bool * State :=
  ((lastOAuthToken s !=? "") && (lastOAuthToken s !=? t), with_last s t).

Section Proxy.
Context (a : RemoteAuth) (hasManager : bool).

Definition bearer (t : string) : list (string * string) := [("Authorization", "Bearer " +:+ t)].

(** The header, the token in it when it is one of OAuth, and whether the token changed. *)
Definition applyAuth : Prog (result (list (string * string) * string * bool)) :=
  if aType a =?s "bearer" then Done (Ok (bearer (aToken a), "", false))
  else if aType a =?s "api_key" then Done (Ok ([(if aHeaderName a =?s "" then "X-API-Key" else aHeaderName a, aToken a)], "", false))
  else if aType a =?s "oauth" then
    if negb hasManager then Done (Err "OAuth manager not configured")
    else
      do! t := emit GetAccessToken in
      match t with
      | Err e => Done (Err ("getting OAuth token: " +:+ e))
      | Ok t => do! refreshed := locked (new_token t) in Done (Ok (bearer t, t, refreshed))
      end
  else Done (Ok ([], "", false)).

Definition read_answer (tok : string) (r : result HttpResp) : Prog (result Response * Z) :=
  match r with
  | Err e => Done (Err ("sending request: " +:+ e), 0%Z)
  | Ok r =>
      if (hStatus r =? 401)%Z then Done (Err "remote server returned status 401", 401%Z)
      else if negb (hStatus r =? 200)%Z then Done (Err "remote server returned another status than 200", hStatus r)
      else do! _ := (if hSession r !=? "" then modify (λ s, with_session s (hSession r) tok) else Done tt) in
           Done (parseHTTPResponse r, 200%Z)
  end.

(** [reinitialize] is [doSend] of an [initialize] request, with its error logged. *)
Fixpoint doSend (depth : nat) (method : string) : Prog (result Response * Z) :=
  do! auth := applyAuth in
  match auth with
  | Err e => Done (Err ("applying auth: " +:+ e), 0%Z)
  | Ok (headers, tok, refreshed) =>
      do! _ := (if refreshed : bool then
                  do! had := locked (λ s, (session s !=? "", with_session s "" "")) in
                  if had : bool then
                    match depth with
                    | S depth => do! _ := doSend depth "initialize" in Done tt
                    | O => emit Deeper
                    end
                  else Done tt
                else Done tt) in
      do! _ := (if method =?s "initialize" then modify (λ s, with_session s "" "") else Done tt) in
      do! sid := locked (λ s, (session s, s)) in
      do! r := emit (Do method headers sid) in
      read_answer tok r
  end.

(** One nested [reinitialize] is followed. *)
Definition depth : nat := 1.

Definition Send (method : string) : Prog (result Response) :=
  do! '(resp, status) := doSend depth method in
  if (status =? 401)%Z && (aType a =?s "oauth") && hasManager then
    do! err := emit ForceRefresh in
    match err with
    | Some e => Done (Err ("token refresh after 401 failed: " +:+ e))
    | None =>
        do! _ := modify (λ _, mkState "" "" "") in
        do! _ := doSend depth "initialize" in
        do! '(resp, _) := doSend depth method in Done resp
    end
  else Done resp.

Definition SendNotification (method : string) : Prog (result unit) :=
  do! sid := locked (λ s, (session s, s)) in
  do! auth := applyAuth in
  match auth with
  | Err e => Done (Err e)
  | Ok (headers, _, _) => do! r := emit (Do method headers sid) in Done (result_map (λ _, tt) r)
  end.

(** ** Sessions and tokens *)

(** What the proxy is asked to do, and what happens to the token in between. *)
Inductive Op := OpSend (method : string) | OpNotify (method : string) | OpNewToken (t : string).

Fixpoint ops_run (ops : list Op) (w w' : World) : Prop :=
  match ops with
  | [] => w' = w
  | OpSend m :: r => ∃ resp w1, runs ev (Send m) w resp w1 ∧ ops_run r w1 w'
  | OpNotify m :: r => ∃ res w1, runs ev (SendNotification m) w res w1 ∧ ops_run r w1 w'
  | OpNewToken t :: r => ops_run r (mkWorld (st w) t (posts w) (deeper w)) w'
  end.
End Proxy.

Definition NewRemoteProxy (token : string) : World := mkWorld (mkState "" "" "") token [] false.




Section OAuth.
Context (a : RemoteAuth) (Htype : aType a = "oauth").

Ltac step H := apply runs_bind in H as (? & ? & ?Hr & H).











End OAuth.

(** *** Runs with given answers *)

Definition run_event {X} (e : Ev X) (answers : list (result HttpResp)) (w : World) : option (X * list (result HttpResp) * World) :=
  match e with
  | Locked f => Some ((f (st w)).1, answers, mkWorld (f (st w)).2 (current w) (posts w) (deeper w))
  | GetAccessToken => Some (if current w =?s "" then Err "no token" else Ok (current w), answers, w)
  | ForceRefresh => Some (Some "no refresh", answers, w)
  | Do m a sid => match answers with
                  | r :: rest => Some (r, rest, mkWorld (st w) (current w) (posts w ++ [mkPost m a sid (owner (st w))]) (deeper w))
                  | [] => None
                  end
  | Deeper => Some (tt, answers, mkWorld (st w) (current w) (posts w) true)
  end.

Lemma run_event_sound X (e : Ev X) l w x l' w' : run_event e l w = Some (x, l', w') → ev X e w x w'.
Proof.
  destruct e; cbn; try (intros [= <- <- <-]; by split_and?).
  - intros [= <- <- <-]. split; [done|]. destruct (current w =?s "") eqn:E; [right; by eexists|]. left. bool_prop. done.
  - intros [= <- <- <-]. right. split; [by eexists|done].
  - destruct l; [done|]. by intros [= <- <- <-].
Qed.

Fixpoint run_prog {A} (p : Prog A) (answers : list (result HttpResp)) (w : World) : option (A * list (result HttpResp) * World) :=
  match p with
  | Done a => Some (a, answers, w)
  | Event e k => match run_event e answers w with Some (x, l, w) => run_prog (k x) l w | None => None end
  end.

Lemma run_prog_sound {A} (p : Prog A) l w a l' w' : run_prog p l w = Some (a, l', w') → runs ev p w a w'.
Proof.
  revert l w. induction p as [b|X e k IH]; intros l w; cbn; [by intros [= <- <- <-]|].
  destruct (run_event e l w) as [[[x l1] w1]|] eqn:E; [|done]. intros H%IH. exists x, w1. split; [by eapply run_event_sound|done].
Qed.

Fixpoint run_ops (a : RemoteAuth) (ops : list Op) (l : list (result HttpResp)) (w : World) : option World :=
  match ops with
  | [] => Some w
  | OpSend m :: r => match run_prog (Send a true m) l w with Some (_, l, w) => run_ops a r l w | None => None end
  | OpNotify m :: r => match run_prog (SendNotification a true m) l w with Some (_, l, w) => run_ops a r l w | None => None end
  | OpNewToken t :: r => run_ops a r l (mkWorld (st w) t (posts w) (deeper w))
  end.

Lemma exec_ops_sound a ops l w w' : run_ops a ops l w = Some w' → ops_run a true ops w w'.
Proof.
  revert l w. induction ops as [|[m|m|t] ops IH]; intros l w; cbn [run_ops ops_run].
  - by intros [= <-].
  - destruct (run_prog _ _ _) as [[[x l1] w1]|] eqn:E; [|done]. intros H%IH. exists x, w1. split; [by eapply run_prog_sound|done].
  - destruct (run_prog _ _ _) as [[[x l1] w1]|] eqn:E; [|done]. intros H%IH. exists x, w1. split; [by eapply run_prog_sound|done].
  - by intros H%IH.
Qed.

Definition ex_oauth : RemoteAuth := mkAuth "oauth" "" "" "" "" "" "" "" "" "" "" "" "".
Definition opens (sid : string) : result HttpResp := Ok (mkResp 200 sid "application/json" (Marshal (JObj [("jsonrpc", JStr "2.0")])) false).


(** A notification that is the first to use a new token hides the change from the next
    request: both go out with the session of the old token. *)
Theorem notification_hides_new_token :
  ∃ w, ops_run ex_oauth true [OpSend "initialize"; OpNewToken "t2"; OpNotify "notifications/cancelled"; OpSend "tools/list"] (NewRemoteProxy "t1") w ∧
    last (posts w) = Some (mkPost "tools/list" (bearer "t2") "s1" "t1").
Proof. eexists. split; [apply (exec_ops_sound _ _ [opens "s1"; opens ""; opens ""]); vm_compute; reflexivity|reflexivity]. Qed.
End Remote.

(** ** A process behind pipes *)

Module Stdio.

(** A call of [Send] has a number.  [pending] is the bridge's map from the text of an id to the call that
    waits for it; [written] are the calls whose request the process has read and not
    answered; [answers] says which call's request the response a call received was the answer to, or that
    its channel was closed. *)
Inductive Outcome := Answered (by_ : nat) | ChannelClosed | Failed (e : string).

Record Bridge := mkBridge {
  pending : gmap string nat; ids : gmap nat string; outcomes : gmap nat Outcome; written : list nat; calls : nat; closed : bool }.

Definition NewStdioBridge : Bridge := mkBridge ∅ ∅ ∅ [] 0 false.

(** The body of [Send] up to the write: register under the id, replacing whoever waits for the
    same id. *)
Definition register (id : string) (b : Bridge) : Bridge :=
  mkBridge (<[id := calls b]> (pending b)) (<[calls b := id]> (ids b)) (outcomes b) (written b) (S (calls b)) (closed b).

Definition refuse (id : string) (b : Bridge) : Bridge :=
  mkBridge (pending b) (<[calls b := id]> (ids b)) (<[calls b := Failed "bridge is closed"]> (outcomes b)) (written b) (S (calls b)) (closed b).

Definition write (n : nat) (b : Bridge) : Bridge :=
  mkBridge (pending b) (ids b) (outcomes b) (written b ++ [n]) (calls b) (closed b).

(** A write that fails, and a context that ends. *)
Definition give_up_ (n : nat) (id e : string) (b : Bridge) : Bridge :=
  mkBridge (delete id (pending b)) (ids b) (<[n := Failed e]> (outcomes b)) (written b) (calls b) (closed b).

(** One line of [readLoop]: the response to the request of call [n]. *)
Definition deliver (n : nat) (id : string) (b : Bridge) : Bridge :=
  let rest := filter (λ m, m ≠ n) (written b) in
  match pending b !! id with
  | Some m => mkBridge (delete id (pending b)) (ids b) (<[m := Answered n]> (outcomes b)) rest (calls b) (closed b)
  | None => mkBridge (pending b) (ids b) (outcomes b) rest (calls b) (closed b)
  end.

Definition close_all (b : Bridge) : Bridge :=
  mkBridge ∅ (ids b) (map_fold (λ _ m acc, <[m := ChannelClosed]> acc) (outcomes b) (pending b)) (written b) (calls b) true.

Inductive Label := LRegister (id : string) | LOther.

Inductive step : Bridge → Label → Bridge → Prop :=
| step_register id b : closed b = false → step b (LRegister id) (register id b)
| step_refuse id b : closed b = true → step b LOther (refuse id b)
| step_write n b : is_Some (ids b !! n) → outcomes b !! n = None → n ∉ written b → step b LOther (write n b)
| step_give_up n id e b : ids b !! n = Some id → outcomes b !! n = None → step b LOther (give_up_ n id e b)
| step_deliver n id b : n ∈ written b → ids b !! n = Some id → step b LOther (deliver n id b)
| step_close b : closed b = false → step b LOther (close_all b).

(** Nobody waits for, and the process owes no answer to, a request with this id. *)
Definition unused (id : string) (b : Bridge) : Prop :=
  pending b !! id = None ∧ ∀ n, n ∈ written b → ids b !! n ≠ Some id.

(** Runs in which every request has an id of its own. *)
Inductive distinct_run : Bridge → Prop :=
| run_start : distinct_run NewStdioBridge
| run_register id b b' : distinct_run b → unused id b → step b (LRegister id) b' → distinct_run b'
| run_other b b' : distinct_run b → step b LOther b' → distinct_run b'.

(** Runs as they are: the id is the one the client chose. *)
Inductive any_run : Bridge → Prop :=
| any_start : any_run NewStdioBridge
| any_step b l b' : any_run b → step b l b' → any_run b'.

(** ** Who gets which answer *)

Record routed (b : Bridge) : Prop := mkRouted {
  known : ∀ n, is_Some (ids b !! n) ↔ n < calls b;
  waits : ∀ n id, ids b !! n = Some id → outcomes b !! n = None → pending b !! id = Some n;
  waiter : ∀ n id, pending b !! id = Some n → ids b !! n = Some id ∧ outcomes b !! n = None;
  owed : ∀ n id m, n ∈ written b → ids b !! n = Some id → pending b !! id = Some m → m = n;
  owed_known : ∀ n, n ∈ written b → is_Some (ids b !! n);
  own_answer : ∀ n m, outcomes b !! m = Some (Answered n) → n = m;
  over : ∀ m, is_Some (outcomes b !! m) → m < calls b }.

Lemma closed_lookup (P : gmap string nat) (o : gmap nat Outcome) m :
  let r := map_fold (λ _ m acc, <[m := ChannelClosed]> acc) o P in
  ((∃ id, P !! id = Some m) ∧ r !! m = Some ChannelClosed) ∨ ((∀ id, P !! id ≠ Some m) ∧ r !! m = o !! m).
Proof.
  intros r. subst r. apply (map_fold_weak_ind (λ r P, ((∃ id, P !! id = Some m) ∧ r !! m = Some ChannelClosed) ∨ ((∀ id, P !! id ≠ Some m) ∧ r !! m = o !! m))).
  - right. split; [|done]. intros id. by rewrite lookup_empty.
  - intros id x Q r Hid IH. destruct (decide (x = m)) as [->|Hne].
    + left. split; [exists id|]; by rewrite lookup_insert_eq.
    + rewrite lookup_insert_ne by done. destruct IH as [[[i Hi] Hr]|[Hn Hr]]; [left|right]; (split; [|done]).
      * exists i. rewrite lookup_insert_ne; [done|]. intros ->. congruence.
      * intros i. destruct (decide (id = i)) as [->|Hd]; [rewrite lookup_insert_eq; congruence|]. by rewrite lookup_insert_ne.
Qed.

Lemma routed_register id b : routed b → unused id b → routed (register id b).
Proof.
  intros [Hk Hw Hp Ho Hok Ha Hov] [Hu Hwr]. assert (Hfresh : ids b !! calls b = None) by (apply eq_None_not_Some; intros ?%Hk; lia).
  assert (Hfo : outcomes b !! calls b = None) by (apply eq_None_not_Some; intros ?%Hov; lia).
  split; cbn.
  - intros n. destruct (decide (n = calls b)) as [->|Hne]; [rewrite lookup_insert_eq; split; [lia|by eexists]|].
    rewrite lookup_insert_ne by done. rewrite Hk. lia.
  - intros n i Hi Hn. destruct (decide (n = calls b)) as [->|Hne]; [rewrite lookup_insert_eq in Hi; simplify_eq; by rewrite lookup_insert_eq|].
    rewrite lookup_insert_ne in Hi by done. pose proof (Hw _ _ Hi Hn) as H. rewrite lookup_insert_ne; [done|]. intros ->. congruence.
  - intros n i Hi. destruct (decide (i = id)) as [->|Hne]; [rewrite lookup_insert_eq in Hi; simplify_eq; by rewrite lookup_insert_eq|].
    rewrite lookup_insert_ne in Hi by done. destruct (Hp _ _ Hi) as [H1 H2]. rewrite lookup_insert_ne; [done|]. intros <-. congruence.
  - intros n i m Hn Hi Hm. rewrite lookup_insert_ne in Hi by (intros <-; apply Hok in Hn as [? ?]; congruence).
    rewrite lookup_insert_ne in Hm; [by eapply Ho|]. intros <-. by eapply Hwr.
  - intros n Hn. destruct (Hok n Hn) as [i Hi]. rewrite lookup_insert_ne; [by eexists|]. intros <-. congruence.
  - done.
  - intros m Hm. apply Hov in Hm. lia.
Qed.

(** A call that is over leaves the map. *)
Lemma routed_over n id o b rest : routed b → pending b !! id = Some n → (∀ k, o = Answered k → k = n) → (∀ m, m ∈ rest → m ∈ written b) →
  routed (mkBridge (delete id (pending b)) (ids b) (<[n := o]> (outcomes b)) rest (calls b) (closed b)).
Proof.
  intros [Hk Hw Hp Ho Hok Ha Hov] Hn Hans Hrest. destruct (Hp _ _ Hn) as [Hid Hout]. split; cbn; [done|..].
  - intros k i Hi Hk'. destruct (decide (k = n)) as [->|Hne]; [by rewrite lookup_insert_eq in Hk'|]. rewrite lookup_insert_ne in Hk' by done.
    pose proof (Hw _ _ Hi Hk') as H. rewrite lookup_delete_ne; [done|]. intros ->. congruence.
  - intros k i [Hne Hi]%lookup_delete_Some. destruct (Hp _ _ Hi) as [H1 H2]. rewrite lookup_insert_ne; [done|]. intros <-. congruence.
  - intros k i m Hin Hi [_ Hm]%lookup_delete_Some. eapply Ho; eauto.
  - intros k Hin. by apply Hok, Hrest.
  - intros k m. destruct (decide (m = n)) as [->|Hne]; [rewrite lookup_insert_eq; intros [= ->]; by apply Hans|rewrite lookup_insert_ne by done; apply Ha].
  - intros m. destruct (decide (m = n)) as [->|Hne]; [intros _; apply Hk; by eexists|rewrite lookup_insert_ne by done; apply Hov].
Qed.

Lemma routed_close b : routed b → routed (close_all b).
Proof.
  intros [Hk Hw Hp Ho Hok Ha Hov]. split; cbn; [done| | | |done| |].
  - intros n i Hi Hn. destruct (closed_lookup (pending b) (outcomes b) n) as [[_ E]|[Hno E]]; rewrite Hn in E; [done|]. destruct (Hno i). by apply Hw.
  - intros n i H. by rewrite lookup_empty in H.
  - intros n i m _ _ H. by rewrite lookup_empty in H.
  - intros n m. destruct (closed_lookup (pending b) (outcomes b) m) as [[_ ->]|[_ ->]]; [done|apply Ha].
  - intros m. destruct (closed_lookup (pending b) (outcomes b) m) as [[[i Hi] _]|[_ ->]]; [|apply Hov]. intros _. apply Hk. destruct (Hp _ _ Hi) as [H _]. by eexists.
Qed.

Lemma routed_step b b' : routed b → step b LOther b' → routed b'.
Proof.
  intros H Hs. inversion Hs as [|id ? Hc|n ? Hi Hn Hw|n id e ? Hi Hn|n id ? Hin Hi|? Hc]; subst; clear Hs.
  - destruct H as [Hk Hw Hp Ho Hok Ha Hov]. assert (Hfresh : ids b !! calls b = None) by (apply eq_None_not_Some; intros ?%Hk; lia).
    split; cbn; try done.
    + intros n. destruct (decide (n = calls b)) as [->|Hne]; [rewrite lookup_insert_eq; split; [lia|by eexists]|].
      rewrite lookup_insert_ne by done. rewrite Hk. lia.
    + intros n i Hi Hn. destruct (decide (n = calls b)) as [->|Hne]; [by rewrite lookup_insert_eq in Hn|].
      rewrite lookup_insert_ne in Hi by done. rewrite lookup_insert_ne in Hn by done. by apply Hw.
    + intros n i Hi. destruct (Hp _ _ Hi) as [H1 H2]. rewrite !lookup_insert_ne by (intros <-; congruence). done.
    + intros n i m Hn Hi Hm. rewrite lookup_insert_ne in Hi by (intros <-; apply Hok in Hn as [? ?]; congruence). by eapply Ho.
    + intros n Hn. destruct (Hok n Hn) as [i Hi]. rewrite lookup_insert_ne; [by eexists|]. intros <-. congruence.
    + intros n m. destruct (decide (m = calls b)) as [->|Hne]; [by rewrite lookup_insert_eq|]. rewrite lookup_insert_ne by done. apply Ha.
    + intros m. destruct (decide (m = calls b)) as [->|Hne]; [lia|]. rewrite lookup_insert_ne by done. intros ?%Hov. lia.
  - destruct H as [Hk Hw' Hp Ho Hok Ha Hov]. destruct Hi as [i Hi]. pose proof (Hw' _ _ Hi Hn) as Hpn. split; cbn; try done.
    + intros k j m [Hin|Hin%list_elem_of_singleton]%elem_of_app Hj Hm; [by eapply Ho|]. subst. congruence.
    + intros k [Hin|Hin%list_elem_of_singleton]%elem_of_app; [by apply Hok|]. subst. by eexists.
  - destruct H as [Hk Hw' Hp Ho Hok Ha Hov] eqn:E. apply (routed_over n id (Failed e) b (written b)); [done|by apply Hw'|done|done].
  - unfold deliver. pose proof H as [Hk Hw' Hp Ho Hok Ha Hov]. assert (Hsub : ∀ m, m ∈ filter (λ m, m ≠ n) (written b) → m ∈ written b) by (intros m [_ ?]%list_elem_of_filter; done).
    destruct (pending b !! id) as [m|] eqn:Em.
    + assert (m = n) as -> by (by eapply Ho). apply routed_over; [done|done|by intros k [= ->]|done].
    + split; cbn; try done; [intros k j m Hk'; apply Ho; by apply Hsub|intros k Hk'; by apply Hok, Hsub].
  - by apply routed_close.
Qed.

Lemma distinct_routed b : distinct_run b → routed b.
Proof.
  induction 1 as [|id b b' _ IH Hu Hs|b b' _ IH Hs].
  - split; cbn.
    + intros n. rewrite lookup_empty. split; [by intros []|lia].
    + intros n id H. by rewrite lookup_empty in H.
    + intros n id H. by rewrite lookup_empty in H.
    + by intros n id m ?%elem_of_nil.
    + by intros n ?%elem_of_nil.
    + intros n m H. by rewrite lookup_empty in H.
    + intros m [? H]. by rewrite lookup_empty in H.
  - inversion Hs; subst. by apply routed_register.
  - by eapply routed_step.
Qed.

(** C8: while no two requests that are under way have the same id, every answer of the
    process goes to the call that made the request, whatever calls end early, and the answer to a
    call that still waits is delivered. *)
Theorem answers_reach_their_caller b : distinct_run b →
  (∀ n m, outcomes b !! m = Some (Answered n) → n = m) ∧
  (∀ n id, n ∈ written b → ids b !! n = Some id → outcomes b !! n = None → outcomes (deliver n id b) !! n = Some (Answered n)).
Proof.
  intros Hr%distinct_routed. split; [apply Hr|]. intros n id Hin Hi Hn. unfold deliver. rewrite (waits _ Hr _ _ Hi Hn). cbn. by rewrite lookup_insert_eq.
Qed.

Lemma answers_reach_their_caller_witness :
  let b := write 1 (register "2" (write 0 (register "1" NewStdioBridge))) in
  distinct_run b ∧ outcomes (deliver 1 "2" b) !! 1 = Some (Answered 1).
Proof.
  intros b. assert (H : distinct_run b).
  { assert (H1 : distinct_run (register "1" NewStdioBridge)) by (apply (run_register "1" NewStdioBridge); [apply run_start|split; [reflexivity|by intros n ?%elem_of_nil]|by apply step_register]).
    assert (H2 : distinct_run (write 0 (register "1" NewStdioBridge))) by (apply (run_other (register "1" NewStdioBridge)); [exact H1|apply step_write; [by eexists|reflexivity|apply not_elem_of_nil]]).
    assert (H3 : distinct_run (register "2" (write 0 (register "1" NewStdioBridge))))
      by (apply (run_register "2" (write 0 (register "1" NewStdioBridge))); [exact H2|split; [reflexivity|by intros n ->%list_elem_of_singleton]|by apply step_register]).
    apply (run_other (register "2" (write 0 (register "1" NewStdioBridge)))); [exact H3|apply step_write; [by eexists|reflexivity|]].
    apply not_elem_of_cons. split; [done|apply not_elem_of_nil]. }
  split; [exact H|]. apply (answers_reach_their_caller b H); [by right; left|reflexivity|reflexivity].
Defined.

(** The id is the one the client chose: when two clients use the same id at the same
    time, the answer to the request of the first is given to the second, and the first one waits
    until its context ends. *)
Theorem same_id_misroutes :
  ∃ b, any_run b ∧ outcomes b !! 1 = Some (Answered 0) ∧ outcomes b !! 0 = None ∧ written b = [] ∧ pending b = ∅.
Proof.
  set (b1 := register "1" NewStdioBridge). set (b2 := write 0 b1). set (b3 := register "1" b2). set (b4 := write 1 b3). set (b5 := deliver 0 "1" b4).
  exists (deliver 1 "1" b5). split; [|done].
  assert (H2 : any_run b2).
  { eapply any_step; [eapply any_step; [apply any_start|by apply step_register]|]. apply step_write; [by eexists|reflexivity|apply not_elem_of_nil]. }
  assert (H4 : any_run b4).
  { eapply any_step; [eapply any_step; [exact H2|by apply step_register]|]. apply step_write; [by eexists|reflexivity|].
    apply not_elem_of_cons. split; [done|apply not_elem_of_nil]. }
  eapply any_step; [eapply any_step; [exact H4|apply step_deliver; [by left|reflexivity]]|]. apply step_deliver; [by left|reflexivity].
Qed.
End Stdio.
