(* ===== verification/MiddlewarePages.v ===== *)
(** * The middleware pages and the archive hand-off

    The middleware handlers of [src/internal/web/handlers.go] (the per-server switch, the
    global configuration, the archive actions) and the whole of
    [src/internal/web/archive_handoff.go].  They run behind [requireAuth] ([WebAuth]).  A
    reply that is JSON is kept as its fields. *)
From S2P Require Import Prelude GoStrings Base64 Json JsonDecode Crypto ArchiveQueue ArchiveDispatcher.
From S2P Require Import Profiles Users WebAuth OAuthProvider Mcp Middleware ToolOptimize.

(** ** Hand-off nonces *)

Definition archiveHandoffTTL : Z := 10 * minute.

Record archiveHandoffRequest := mkHandoff { hoNonce : string; hoUserID : string; hoCreatedAt : Z; hoExpiresAt : Z }.

(** Keyed by nonce. *)
Abbreviation archiveHandoffStore := (gmap string archiveHandoffRequest).

(** [bytes] is what the random source delivers, [None] when it fails. *)
Definition handoff_create (bytes : option string) (now : Z) (userID : string) (s : archiveHandoffStore) :
    option string * archiveHandoffStore :=
  match bytes with
  | None => (None, s)
  | Some b =>
      let nonce := RawURLEncode_text (EncodeToString b) in
      (Some nonce, <[nonce := mkHandoff nonce userID now (now + archiveHandoffTTL)]> s)
  end.

Definition handoff_consume (now : Z) (nonce userID : string) (s : archiveHandoffStore) : bool * archiveHandoffStore :=
  match s !! nonce with
  | None => (false, s)
  | Some req =>
      ((now <=? hoExpiresAt req)%Z && (hoUserID req =?s userID), delete nonce s)
  end.

(** One tick. *)
Definition handoff_cleanup (now : Z) (s : archiveHandoffStore) : archiveHandoffStore :=
  filter (λ e : string * archiveHandoffRequest, now <= hoExpiresAt e.2)%Z s.

(** ** State and replies *)

Inductive MwReply :=
| MwNotFound
| MwStatus (code : Z) (msg : string)
| MwJson (code : Z) (fields : list (string * json)).

Definition json_error (code : Z) (msg : string) : MwReply := MwJson code [("error", JStr msg)].
Definition json_ok (fields : list (string * json)) : MwReply := MwJson 200 (("status", JStr "ok") :: fields).
Definition json_int (z : Z) : json := JNum (fmtZ z).

Record MwWorld := mkMw { pst : PState; handoffs : archiveHandoffStore }.

Definition MwHandler : Type := MwWorld → MwReply * MwWorld.

Definition mw_reply (r : MwReply) : MwHandler := λ w, (r, w).

Definition with_store (w : MwWorld) (d : Db MwStore.Tables) : MwWorld := mkMw (with_mdb (pst w) d) (handoffs w).
Definition with_disp (w : MwWorld) (a : ArchiveDispatcher.World) : MwWorld :=
  mkMw (mkPState (mdb (pst w)) a (webhooks (pst w)) (entropy (pst w))) (handoffs w).
Definition with_handoffs (w : MwWorld) (s : archiveHandoffStore) : MwWorld := mkMw (pst w) s.

Definition on_store {A} (m : DBM MwStore.Tables A) (k : result A → MwHandler) : MwHandler := λ w,
  let '(r, d) := m (mdb (pst w)) in k r (with_store w d).

Definition on_disp {A} (f : ArchiveDispatcher.World → A * ArchiveDispatcher.World) (k : A → MwHandler) : MwHandler := λ w,
  let '(a, d) := f (archive (pst w)) in k a (with_disp w d).

(** [user == nil || user.Role != "admin"] after the method. *)
Definition admin_post (user : option User) (method : string) (k : User → MwHandler) : MwHandler :=
  if method !=? "POST" then mw_reply (MwStatus 405 "Method not allowed")
  else match user with
  | Some u => if uRole u =?s "admin" then k u else mw_reply (MwStatus 403 "Admin access required")
  | None => mw_reply (MwStatus 403 "Admin access required")
  end.

(** ** Configurations *)

(** A [*bool] field: [null] makes it nil. *)
Fixpoint decode_bool_ptr (name : string) (l : list (string * json)) (cur : option bool) : option (option bool) :=
  match l with
  | [] => Some cur
  | (k, v) :: r =>
      if EqualFold k name then
        match v with
        | JBool b => decode_bool_ptr name r (Some b)
        | JNull => decode_bool_ptr name r None
        | _ => None
        end
      else decode_bool_ptr name r cur
  end.

(** A [json.RawMessage] field of the body; the empty string is nil. *)
Definition raw_body_field (name body : string) : string :=
  match raw_object body with Some members => raw_field name members "" | None => "" end.

Definition decode_archive (l : list (string * json)) : option ArchiveConfig :=
  u ← decode_string_field "url" l ""; t ← decode_string_field "auth_type" l "";
  v ← decode_string_field "auth_value" l ""; h ← decode_string_field "api_key_header" l "";
  i ← decode_string_field "include" l ""; k ← decode_string_field "nacl_recipient_key" l "";
  Some (mkCfg u t v h i k).

(** [json.Marshal(cfg)] *)
Definition archive_json (c : ArchiveConfig) : json :=
  JObj ([("url", JStr (CfgURL c)); ("auth_type", JStr (CfgAuthType c)); ("auth_value", JStr (CfgAuthValue c))]
        ++ omit_empty "api_key_header" (CfgAPIKeyHeader c) ++ [("include", JStr (Include c))]
        ++ omit_empty "nacl_recipient_key" (NaClRecipientKey c)).

Section Pages.
Context `{Regexp} (encryptor : option ConfigEncryptor) (nacl : NaCl) (rfc3339 : Z → string)
  (parseURL : string → option ParsedURL) (parseLoopback : string → option bool) (dispatcher : bool).
Context (newRequestErr : string → option string) (network : nat → HttpRequest → HttpOutcome).
(** Of the request: the clock, a fresh row id, a nonce for the encryption of the stored
    credentials, 32 random bytes. *)
Context (now : Z) (gen : result string) (nonce : option string) (bytes : option string).

(** What the display of a configuration adds; the values of its other fields are kept as
    they are. *)
Definition decorateArchiveConfigForDisplay (raw : string) : string :=
  if raw =?s "" then ""
  else match Unmarshal raw with
  | Some (JObj l) =>
      match last_value "nacl_recipient_key" l with
      | Some (JStr key) =>
          if key =?s "" then raw
          else match DecodeRecipientKey key with
          | Err _ => raw
          | Ok k => Marshal (marshal_map (l ++ [("nacl_key_id", JStr (ComputeKeyID nacl k))]))
          end
      | _ => raw
      end
  | _ => raw
  end.

Definition descriptor_priority (desc : Registry.Descriptor) (priority : Z) : Z :=
  let p := if (priority =? 0)%Z then Registry.DefaultPriority desc else priority in
  if (p =? 0)%Z then 100 else p.

Definition saved (r : result unit) : MwHandler :=
  match r with
  | Err e => mw_reply (json_error 500 ("failed to save: " +:+ e))
  | Ok _ => mw_reply (json_ok [])
  end.

Definition handleServerMiddleware (user : option User) (method body serverID : string) : MwHandler :=
  admin_post user method (λ _,
    match (l ← body_fields body; m ← decode_string_field "middleware" l ""; e ← decode_bool_ptr "enabled" l None;
           p ← decode_int_field "priority" l 0; Some (m, e, p)) with
    | None => mw_reply (json_error 400 "invalid request body")
    | Some (mw, e, p) =>
        let config := raw_body_field "config" body in
        if mw =?s "" then mw_reply (json_error 400 "middleware name required")
        else match Registry.lookup_descriptor mw with
        | None => mw_reply (json_error 400 ("unknown middleware: " +:+ mw))
        | Some desc =>
            let enabled := default true e in
            let priority := descriptor_priority desc p in
            if config =?s "" then on_store (MwStore.UpsertEnabled gen now serverID mw enabled priority) saved
            else on_store (MwStore.Upsert gen now (MwStore.mkConfig "" (Some serverID) mw enabled config priority 0 0)) saved
        end
    end).

(** *** Global configuration *)

(** Save, point the queue at the new destination, close the circuit; [k] answers with the
    number of rows that were rewritten. *)
Definition save_archive (cfg : ArchiveConfig) (priority : Z) (fail : string → MwReply) (k : Z → MwReply) : MwHandler :=
  on_store (MwStore.UpsertGlobal gen now (MwStore.mkConfig "" None "archive" false (Marshal (archive_json cfg)) priority 0 0)) (λ r,
    match r with
    | Err e => mw_reply (fail e)
    | Ok _ =>
        if negb dispatcher then mw_reply (k 0%Z)
        else on_disp (DispatcherRewriteHeldDelivery encryptor nonce cfg) (λ n,
               on_disp (λ a, (tt, ResetCircuit a)) (λ _, mw_reply (k (match n with Ok n => n | Err _ => 0%Z end))))
    end).

Definition handleMiddlewareConfig (user : option User) (method target body mwName : string) : MwHandler :=
  admin_post user method (λ _,
    match Registry.lookup_descriptor mwName with
    | None => mw_reply (json_error 404 ("unknown middleware: " +:+ mwName))
    | Some desc =>
        if target !=? "global"
        then mw_reply (json_error 400 "target=global required; per-server config uses /servers/{id}/middleware")
        else if (Registry.Scope desc !=? "global") && (Registry.Scope desc !=? "both")
        then mw_reply (json_error 400 (mwName +:+ " does not support global config"))
        else match body_fields body with
        | None => mw_reply (json_error 400 "invalid request body")
        | Some _ =>
            let config := raw_body_field "config" body in
            if mwName =?s "archive" then
              match Archive.ParseArchiveConfig config with
              | Err e => mw_reply (json_error 400 e)
              | Ok cfg =>
                  match ValidateArchiveConfig parseURL parseLoopback cfg with
                  | Err e => mw_reply (json_error 400 e)
                  | Ok _ => save_archive cfg (Registry.DefaultPriority desc) (λ e, json_error 500 ("failed to save: " +:+ e))
                              (λ n, json_ok [("rewritten", json_int n)])
                  end
              end
            else on_store (MwStore.UpsertGlobal gen now
                   (MwStore.mkConfig "" None mwName false config (Registry.DefaultPriority desc) 0 0)) saved
        end
    end).

(** *** Archive actions *)

Definition without_dispatcher (reply : MwReply) (k : MwHandler) : MwHandler := if dispatcher then k else mw_reply reply.

Definition unavailable : MwReply := json_error 503 "archive dispatcher not available".

Definition test_reply (r : Z * option string) : MwReply :=
  match r with
  | (code, Some e) => MwJson 200 [("success", JBool false); ("status_code", json_int code); ("error", JStr e)]
  | (code, None) => MwJson 200 [("success", JBool true); ("status_code", json_int code)]
  end.

Definition archiveActionTest : MwHandler :=
  without_dispatcher unavailable (on_store (MwStore.GetGlobal "archive") (λ r,
    match r with
    | Ok (Some global) =>
        match struct_fields (MwStore.Config global) ≫= decode_archive with
        | None => mw_reply (json_error 400 "invalid archive config")
        | Some cfg =>
            if CfgURL cfg =?s "" then mw_reply (json_error 400 "archive URL not configured")
            else on_disp (SendTest newRequestErr network nacl cfg) (λ r, mw_reply (test_reply r))
        end
    | _ => mw_reply (json_error 400 "no archive config found - save config first")
    end)).

Definition retry_all (rewritten : Z) : MwHandler :=
  on_disp DispatcherRetryHeld (λ r,
    match r with
    | Err e => mw_reply (json_error 500 e)
    | Ok count => mw_reply (json_ok [("retried", json_int count); ("rewritten", json_int rewritten)])
    end).

Definition archiveActionRetry : MwHandler :=
  without_dispatcher unavailable (on_store (MwStore.GetGlobal "archive") (λ r,
    match r with
    | Ok (Some global) =>
        match struct_fields (MwStore.Config global) ≫= decode_archive with
        | Some cfg =>
            if CfgURL cfg =?s "" then retry_all 0
            else on_disp (DispatcherRewriteHeldDelivery encryptor nonce cfg)
                   (λ n, retry_all (match n with Ok n => n | Err _ => 0%Z end))
        | None => retry_all 0
        end
    | _ => retry_all 0
    end)).

Definition archiveActionClear : MwHandler :=
  without_dispatcher unavailable (on_disp DispatcherClearHeld (λ r,
    match r with
    | Err e => mw_reply (json_error 500 e)
    | Ok count => mw_reply (json_ok [("cleared", json_int count)])
    end)).

Definition archiveActionStatus (show : circuit * ArchiveQueueStatus → list (string * json)) : MwHandler :=
  without_dispatcher (MwJson 200 [("enabled", JBool false)]) (on_disp DispatcherStatus (λ s, mw_reply (MwJson 200 (show s)))).

(** *** Hand-off *)

Definition handleArchiveHandoffBegin (user : option User) (method : string) : MwHandler :=
  admin_post user method (λ u w,
    let '(n, s) := handoff_create bytes now (uID u) (handoffs w) in
    match n with
    | None => (json_error 500 "failed to start handoff", with_handoffs w s)
    | Some n => (MwJson 200 [("state", JStr n); ("expires_in", json_int (archiveHandoffTTL / second))], with_handoffs w s)
    end).

Record handoffBody := mkHandoffBody { hbState : string; hbURL : string; hbToken : string; hbKey : string }.

Definition decode_handoff (body : string) : option handoffBody :=
  l ← body_fields body; s ← decode_string_field "state" l ""; u ← decode_string_field "archive_url" l "";
  t ← decode_string_field "archive_token" l ""; k ← decode_string_field "nacl_recipient_key" l "";
  _ ← decode_string_field "nacl_key_id" l ""; Some (mkHandoffBody s u t k).

(** Include and header survive from the configuration that is there; the credentials too
    unless a token came; the key never. *)
Definition handoff_config (existing : option MwStore.MiddlewareConfig) (b : handoffBody) : ArchiveConfig :=
  let old := match existing with
             | Some mc => match Archive.ParseArchiveConfig (MwStore.Config mc) with Ok c => c | Err _ => mkCfg "" "" "" "" "" "" end
             | None => mkCfg "" "" "" "" "" ""
             end in
  mkCfg (hbURL b) (if hbToken b !=? "" then "bearer" else CfgAuthType old)
    (if hbToken b !=? "" then hbToken b else CfgAuthValue old)
    (if CfgAPIKeyHeader old =?s "" then "X-API-Key" else CfgAPIKeyHeader old)
    (if Include old =?s "" then "both" else Include old) (hbKey b).

Definition handoff_reply (cfg : ArchiveConfig) (n : Z) : MwReply :=
  json_ok ([("rewritten", json_int n);
            ("config", JObj [("url", JStr (CfgURL cfg)); ("auth_type", JStr (CfgAuthType cfg)); ("auth_value", JStr (CfgAuthValue cfg));
               ("include", JStr (Include cfg)); ("nacl_recipient_key", JStr (NaClRecipientKey cfg))])]
           ++ match (if NaClRecipientKey cfg =?s "" then Err "" else DecodeRecipientKey (NaClRecipientKey cfg)) with
              | Ok key => [("nacl_key_id", JStr (ComputeKeyID nacl key))]
              | Err _ => []
              end).

Definition handleArchiveHandoffComplete (user : option User) (method body : string) : MwHandler :=
  admin_post user method (λ u,
    match decode_handoff body with
    | None => mw_reply (json_error 400 "invalid request body")
    | Some b =>
        if hbState b =?s "" then mw_reply (json_error 400 "state is required")
        else λ w,
          let '(ok, s) := handoff_consume now (hbState b) (uID u) (handoffs w) in
          let w := with_handoffs w s in
          if negb ok then (json_error 400 "handoff expired or invalid, please retry setup", w)
          else on_store (MwStore.GetGlobal "archive") (λ r,
            let cfg := handoff_config (match r with Ok e => e | Err _ => None end) b in
            match ValidateArchiveConfig parseURL parseLoopback cfg with
            | Err e => mw_reply (json_error 400 e)
            | Ok _ => save_archive cfg 40 (λ _, json_error 500 "failed to save") (handoff_reply cfg)
            end) w
    end).

(** *** Dispatch *)

Definition dispatchArchiveAction (show : circuit * ArchiveQueueStatus → list (string * json)) (user : option User)
    (method body action : string) : MwHandler :=
  if action =?s "test" then archiveActionTest
  else if action =?s "retry" then archiveActionRetry
  else if action =?s "clear" then archiveActionClear
  else if action =?s "status" then archiveActionStatus show
  else if action =?s "handoff_begin" then handleArchiveHandoffBegin user method
  else if action =?s "handoff_complete" then handleArchiveHandoffComplete user method body
  else mw_reply (MwStatus 200 "").

Definition action_allowed (desc : Registry.Descriptor) (mwName action : string) : bool :=
  existsb (String.eqb action) (Registry.Actions desc)
  || ((mwName =?s "archive") && ((action =?s "handoff_begin") || (action =?s "handoff_complete"))).

Definition handleMiddlewareAction (show : circuit * ArchiveQueueStatus → list (string * json)) (user : option User)
    (method body mwName action : string) : MwHandler :=
  admin_post user method (λ _,
    match Registry.lookup_descriptor mwName with
    | None => mw_reply (json_error 404 ("unknown middleware: " +:+ mwName))
    | Some desc =>
        if negb (action_allowed desc mwName action) then mw_reply (json_error 400 ("unknown action: " +:+ action))
        else if mwName =?s "archive" then dispatchArchiveAction show user method body action
        else mw_reply (json_error 501 (mwName +:+ " has no action handlers"))
    end).

(** [target] is the query parameter of that name. *)
Definition handleMiddlewareAPI (show : circuit * ArchiveQueueStatus → list (string * json)) (user : option User) (target : string)
    (r : WebAuth.Request) : MwHandler :=
  match split_slash (TrimPrefix (Path r) "/api/middleware/") with
  | (_, None) => mw_reply MwNotFound
  | (mwName, Some rest) =>
      if negb (Registry.IsRegistered encryptor nacl rfc3339 parseURL parseLoopback dispatcher mwName)
      then mw_reply (json_error 404 ("unknown middleware: " +:+ mwName))
      else let '(what, action) := split_slash rest in
        if what =?s "config" then handleMiddlewareConfig user (WebAuth.Method r) target (Body r) mwName
        else if what =?s "action" then handleMiddlewareAction show user (WebAuth.Method r) (Body r) mwName (default "" action)
        else mw_reply MwNotFound
  end.
End Pages.

(** ** The configuration table *)
Section Rows.
Import MwStore.

Definition config_key (c : MiddlewareConfig) : option string * string := (ServerID c, Middleware c).

(** Ids are unique, and so are the rows of a server and the global rows, by middleware. *)
Definition mw_wf (t : Tables) : Prop := NoDup (map ID (configs t)) ∧ NoDup (map config_key (configs t)).

Lemma row_by {B} (f : MiddlewareConfig → B) l a b : NoDup (map f l) → a ∈ l → b ∈ l → f a = f b → a = b.
Proof.
  intros Hn. induction l as [|x l IH]; [set_solver|]. cbn in Hn. apply NoDup_cons in Hn as [Hx Hn].
  rewrite !elem_of_cons. intros [->|Ha] [->|Hb] E; [done| | |by apply IH].
  - destruct Hx. rewrite E. by apply list_elem_of_fmap_2.
  - destruct Hx. rewrite <- E. by apply list_elem_of_fmap_2.
Qed.

Lemma is_global_key mw c : is_global mw c = true ↔ config_key c = (None, mw).
Proof. unfold is_global, config_key. destruct (ServerID c); [naive_solver|]. rewrite String.eqb_eq. naive_solver. Qed.

Lemma same_key_key sid mw c : same_key (Some sid) mw c = true ↔ config_key c = (Some sid, mw).
Proof.
  unfold same_key, config_key. destruct (ServerID c) as [s|]; [|naive_solver].
  rewrite andb_true_iff, !String.eqb_eq. naive_solver.
Qed.

(** Writing the row with a given key, under the fresh id if it is new: the others stay, and
    the table stays well formed. *)
Definition writes (id : string) (k : option string * string) (ok : MiddlewareConfig → Prop) (t t' : Tables) : Prop :=
  mw_wf t' ∧ servers t' = servers t ∧ (∀ i, i ∈ map ID (configs t') → i = id ∨ i ∈ map ID (configs t)) ∧
  (∃ c, c ∈ configs t' ∧ config_key c = k ∧ ok c) ∧
  ∀ c, config_key c ≠ k → c ∈ configs t' ↔ c ∈ configs t.

Lemma append_writes row (ok : MiddlewareConfig → Prop) t :
  mw_wf t → ID row ∉ map ID (configs t) → config_key row ∉ map config_key (configs t) → ok row →
  writes (ID row) (config_key row) ok t (with_configs t (configs t ++ [row])).
Proof.
  intros [Hi Hk] Hni Hnk Hok.
  assert (Happ : ∀ {B} (f : MiddlewareConfig → B), NoDup (map f (configs t)) → f row ∉ map f (configs t) →
    NoDup (map f (configs t ++ [row]))).
  { intros B f Hn Hx. rewrite map_app. apply NoDup_app. split; [done|]. split; [|apply NoDup_singleton].
    intros x Hin. cbn. rewrite list_elem_of_singleton. by intros ->. }
  split; [split; by apply Happ|]. split; [done|]. split.
  { intros i. cbn. rewrite map_app, elem_of_app. cbn. rewrite list_elem_of_singleton. tauto. }
  split.
  - exists row. split; [|done]. cbn. apply elem_of_app. right. by apply list_elem_of_singleton.
  - intros c Hc. cbn. rewrite elem_of_app, list_elem_of_singleton. naive_solver.
Qed.

(** Replacing the row with that key in place. *)
Lemma replace_writes id old (p : MiddlewareConfig → bool) (f : MiddlewareConfig → MiddlewareConfig) (ok : MiddlewareConfig → Prop) t :
  mw_wf t → old ∈ configs t → (∀ c, c ∈ configs t → p c = true ↔ c = old) →
  ID (f old) = ID old → config_key (f old) = config_key old → ok (f old) →
  writes id (config_key old) ok t (with_configs t (map (λ c, if p c then f c else c) (configs t))).
Proof.
  intros [Hi Hk] Hin Hp Hfi Hfk Hok.
  assert (Hmap : ∀ {B} (g : MiddlewareConfig → B), g (f old) = g old →
    map g (map (λ c, if p c then f c else c) (configs t)) = map g (configs t)).
  { intros B g Hg. rewrite map_map. apply map_ext_in. intros c Hc. rewrite <- list_elem_of_In in Hc. specialize (Hp c Hc).
    destruct (p c); [|done]. by replace c with old by (symmetry; by apply Hp). }
  assert (Hel : ∀ c, c ∈ map (λ c, if p c then f c else c) (configs t) ↔ (c ∈ configs t ∧ c ≠ old) ∨ c = f old).
  { intros c. rewrite list_elem_of_fmap. split.
    - intros (x & -> & Hx). specialize (Hp x Hx). destruct (p x) eqn:E; [right; f_equal; by apply Hp|].
      left. split; [done|]. intros ->. destruct Hp as [_ Hp]. by specialize (Hp eq_refl).
    - intros [[Hc Hne]| ->].
      + exists c. split; [|done]. destruct (p c) eqn:E; [|done]. destruct Hne. by apply Hp.
      + exists old. split; [|done]. by rewrite (proj2 (Hp old Hin) eq_refl). }
  split; [split; cbn; by rewrite Hmap|]. split; [done|]. split; [cbn; rewrite Hmap by done; auto|]. cbn. repeat split.
  - exists (f old). rewrite Hel. auto.
  - rewrite Hel. intros [[Hc _]| ->]; [done|]. congruence.
  - rewrite Hel. intros Hc. left. split; [done|]. intros ->. congruence.
Qed.

Lemma fresh_id id t : id ∉ map ID (configs t) → existsb (λ c, ID c =?s id) (configs t) = false.
Proof.
  intros Hid. apply not_true_iff_false. rewrite existsb_exists. intros (c & Hc & Ec). apply String.eqb_eq in Ec as <-. apply Hid.
  apply (list_elem_of_fmap_2 ID). by rewrite list_elem_of_In.
Qed.

Lemma UpsertGlobal_writes id now mc t :
  mw_wf t → id ∉ map ID (configs t) →
  ∃ t', UpsertGlobal (Ok id) now mc (healthy t) = (Ok tt, healthy t') ∧
    writes id (None, Middleware mc) (λ c, Enabled c = Enabled mc ∧ Config c = Config mc ∧ Priority c = Priority mc) t t'.
Proof.
  intros Hwf Hid. unfold UpsertGlobal, db_bind, GetGlobal, query. rewrite exec_healthy. cbn.
  destruct (List.find (is_global (Middleware mc)) (configs t)) as [old|] eqn:E.
  - apply find_some in E as [Hin Hg]. rewrite <- list_elem_of_In in Hin. apply is_global_key in Hg.
    eexists. split; [unfold update; by rewrite exec_healthy|]. rewrite <- Hg.
    apply (replace_writes id old (λ c, ID c =?s ID old)); [done..| | | |]; try done.
    intros c Hc. rewrite String.eqb_eq. split; [|by intros ->]. by apply (row_by ID (configs t)); [apply Hwf|..].
  - rewrite exec_healthy. cbn beta. rewrite (fresh_id _ _ Hid).
    eexists. split; [done|]. apply (append_writes (mkConfig id None (Middleware mc) _ _ _ _ _)); try done.
    cbn. intros Hk. apply list_elem_of_fmap in Hk as (c & Ek & Hc). symmetry in Ek. apply (is_global_key (Middleware mc)) in Ek.
    rewrite list_elem_of_In in Hc. by rewrite (find_none _ _ E c Hc) in Ek.
Qed.

Lemma UpsertEnabled_writes id now sid mw enabled prio t :
  mw_wf t → id ∉ map ID (configs t) → sid ∈ servers t →
  ∃ t', UpsertEnabled (Ok id) now sid mw enabled prio (healthy t) = (Ok tt, healthy t') ∧
    writes id (Some sid, mw) (λ c, Enabled c = enabled ∧ Priority c = prio ∧
      ((∃ old, old ∈ configs t ∧ config_key old = (Some sid, mw) ∧ Config c = Config old) ∨ Config c = "{}")) t t'.
Proof.
  intros Hwf Hid Hs. unfold UpsertEnabled. rewrite exec_healthy. unfold upsert_row. cbn [ServerID Middleware ID].
  destruct (existsb (same_key (Some sid) mw) (configs t)) eqn:E.
  - apply existsb_exists in E as (old & Hin & Hk). rewrite <- list_elem_of_In in Hin. pose proof Hk as Hk'. apply same_key_key in Hk'.
    eexists. split; [done|]. rewrite <- Hk'. apply (replace_writes id old (same_key (Some sid) mw)); try done.
    + intros c Hc. split; [|by intros ->]. intros Ec. apply same_key_key in Ec. apply (row_by config_key (configs t)); [apply Hwf|done..|congruence].
    + cbn. eauto 10.
  - rewrite (fresh_id _ _ Hid). unfold server_ref. rewrite bool_decide_eq_true_2 by done. cbn [negb].
    eexists. split; [done|]. apply (append_writes (mkConfig id (Some sid) mw _ _ _ _ _)); try done; [|by cbn; auto].
    cbn. intros Hk. apply list_elem_of_fmap in Hk as (c & Ek & Hc). symmetry in Ek. apply (same_key_key sid mw) in Ek.
    apply not_true_iff_false in E. apply E. apply existsb_exists. exists c. by rewrite <- list_elem_of_In.
Qed.

(** *** The effective row of a well-formed table *)

Lemma last_row_unique p rows c :
  c ∈ rows → p c = true → (∀ c', c' ∈ rows → p c' = true → c' = c) → last_row p rows = Some c.
Proof.
  intros Hin Hp Hu. unfold last_row. destruct (last (List.filter p rows)) as [x|] eqn:E.
  - apply last_Some_elem_of in E. rewrite list_elem_of_In, filter_In, <- list_elem_of_In in E. f_equal. naive_solver.
  - apply last_None in E. assert (Hf : In c (List.filter p rows)) by (apply filter_In; by rewrite <- list_elem_of_In). by rewrite E in Hf.
Qed.

Lemma elem_of_select_rows sid t c :
  c ∈ select_rows sid t ↔ c ∈ configs t ∧ (ServerID c = None ∨ ServerID c = Some sid).
Proof.
  unfold select_rows. rewrite elem_of_stable_sort, list_elem_of_In, filter_In, <- list_elem_of_In.
  destruct (ServerID c) as [s|]; [rewrite String.eqb_eq; naive_solver|naive_solver].
Qed.

Lemma effective_inherits sid mw t own glob :
  mw_wf t → own ∈ configs t → config_key own = (Some sid, mw) → glob ∈ configs t → config_key glob = (None, mw) →
  effective sid t mw = Some (if empty_config (Config own) then set_config own (Config glob) else own).
Proof.
  intros [_ Hk] Ho Eo Hg Eg. unfold effective. unfold config_key in Eo, Eg. injection Eo as Eo1 Eo2. injection Eg as Eg1 Eg2.
  rewrite (last_row_unique (server_row mw) _ own), (last_row_unique (global_row mw) _ glob); [done|..].
  - apply elem_of_select_rows. auto.
  - unfold global_row. rewrite Eg1. by apply String.eqb_eq.
  - intros c' [Hc' _]%elem_of_select_rows. unfold global_row. destruct (ServerID c') eqn:Es; [done|]. intros Em%String.eqb_eq.
    apply (row_by config_key (configs t)); [done..|]. unfold config_key. congruence.
  - apply elem_of_select_rows. auto.
  - unfold server_row. rewrite Eo1. by apply String.eqb_eq.
  - intros c' [Hc' Hs]%elem_of_select_rows. unfold server_row. destruct (ServerID c') eqn:Es; [|done]. intros Em%String.eqb_eq.
    apply (row_by config_key (configs t)); [done..|]. unfold config_key. destruct Hs; congruence.
Qed.
End Rows.

(** ** The archive configuration is read back *)

Lemma archive_json_wf c : Json.wf (archive_json c) = true.
Proof. unfold archive_json. cbn [Json.wf]. rewrite !forallb_app, !omit_wf. done. Qed.

Lemma decode_archive_json c : ∃ o, archive_json c = JObj o ∧ decode_archive o = Some c.
Proof.
  eexists. split; [reflexivity|]. unfold decode_archive.
  change [("url", JStr (CfgURL c)); ("auth_type", JStr (CfgAuthType c)); ("auth_value", JStr (CfgAuthValue c))]
    with ([("url", JStr (CfgURL c))] ++ [("auth_type", JStr (CfgAuthType c))] ++ [("auth_value", JStr (CfgAuthValue c))]).
  decode_strings. by destruct c.
Qed.

Lemma stored_archive_fields c : struct_fields (Marshal (archive_json c)) ≫= decode_archive = Some c.
Proof.
  unfold struct_fields. rewrite Unmarshal_Marshal by apply archive_json_wf.
  destruct (decode_archive_json c) as (o & -> & Ho). exact Ho.
Qed.

Definition normal (c : ArchiveConfig) : Prop := CfgAPIKeyHeader c ≠ "" ∧ Include c ≠ "".

Lemma parse_decodes config :
  Archive.ParseArchiveConfig config =
  match config_fields config with
  | None => Err "archive: invalid config"
  | Some None => Ok (mkCfg "" "" "" "X-API-Key" "both" "")
  | Some (Some l) =>
      match decode_archive l with
      | None => Err "archive: invalid config"
      | Some c => Ok (mkCfg (CfgURL c) (CfgAuthType c) (CfgAuthValue c)
                        (if CfgAPIKeyHeader c =?s "" then "X-API-Key" else CfgAPIKeyHeader c)
                        (if Include c =?s "" then "both" else Include c) (NaClRecipientKey c))
      end
  end.
Proof. unfold Archive.ParseArchiveConfig. destruct (config_fields config) as [[l|]|]; reflexivity. Qed.

Lemma parsed_normal config c : Archive.ParseArchiveConfig config = Ok c → normal c.
Proof.
  rewrite parse_decodes. destruct (config_fields config) as [[l|]|]; [|intros [= <-]; by split|done].
  destruct (decode_archive l) as [[u t v h i k]|]; [|done]. intros [= <-]. split; cbn.
  - destruct (h =?s "") eqn:E; [done|by apply String.eqb_neq].
  - destruct (i =?s "") eqn:E; [done|by apply String.eqb_neq].
Qed.

Lemma archive_roundtrip c : normal c → Archive.ParseArchiveConfig (Marshal (archive_json c)) = Ok c.
Proof.
  intros [Hh Hi]. rewrite parse_decodes. unfold config_fields.
  assert (Hne : Marshal (archive_json c) =?s "" = false ∧ Marshal (archive_json c) =?s "{}" = false).
  { unfold archive_json. cbn [Marshal map app Join]. split; reflexivity. }
  destruct Hne as [-> ->]. cbn [orb]. rewrite Unmarshal_Marshal by apply archive_json_wf.
  destruct (decode_archive_json c) as (o & -> & Ho). rewrite Ho. apply String.eqb_neq in Hh, Hi. rewrite Hh, Hi. by destruct c.
Qed.

(** ** Who changes what *)
Section Guard.
Context `{Regexp} (encryptor : option ConfigEncryptor) (nacl : NaCl) (rfc3339 : Z → string)
  (parseURL : string → option ParsedURL) (parseLoopback : string → option bool) (dispatcher : bool)
  (newRequestErr : string → option string) (network : nat → HttpRequest → HttpOutcome)
  (now : Z) (gen : result string) (nonce : option string) (bytes : option string)
  (show : circuit * ArchiveQueueStatus → list (string * json)).

Definition refused (user : option User) (method : string) : Prop := method ≠ "POST" ∨ uRole <$> user ≠ Some "admin".

Lemma admin_post_refused user method k w : refused user method →
  (admin_post user method k w).2 = w.
Proof.
  intros Hr. unfold admin_post. destruct (method =?s "POST") eqn:Em; cbn [negb]; [|done].
  apply String.eqb_eq in Em. destruct Hr as [Hr|Hr]; [done|]. destruct user as [u|]; [|done].
  destruct (uRole u =?s "admin") eqn:Ea; [|done]. apply String.eqb_eq in Ea. destruct Hr. cbn. by rewrite Ea.
Qed.

(** Whatever is posted to the middleware pages, nothing
    changes (no configuration, no queued message, no hand-off, no request sent) unless an
    administrator sends a POST. *)
Theorem middleware_pages_guarded user target r serverID w : refused user (WebAuth.Method r) →
  (handleMiddlewareAPI encryptor nacl rfc3339 parseURL parseLoopback dispatcher newRequestErr network now gen nonce bytes show user target r w).2 = w ∧
  (handleServerMiddleware now gen user (WebAuth.Method r) (Body r) serverID w).2 = w.
Proof.
  intros Hr. split.
  - unfold handleMiddlewareAPI. destruct (split_slash _) as [mw [rest|]]; [|done]. case_if; [done|].
    destruct (split_slash rest) as [what action]. case_if; [by apply admin_post_refused|]. case_if; [by apply admin_post_refused|done].
  - by apply admin_post_refused.
Qed.
End Guard.

(** ** From the form to the pipeline *)
Section Saved.
Context `{Regexp} (encryptor : option ConfigEncryptor) (nacl : NaCl) (rfc3339 : Z → string)
  (parseURL : string → option ParsedURL) (parseLoopback : string → option bool) (dispatcher : bool).

Local Abbreviation save := (save_archive encryptor dispatcher).

Lemma save_archive_store now id nonce cfg prio fail k w t :
  mdb (pst w) = healthy t → mw_wf t → id ∉ map MwStore.ID (MwStore.configs t) →
  ∃ t1 n w1, save now (Ok id) nonce cfg prio fail k w = (k n, w1) ∧ mdb (pst w1) = healthy t1 ∧ handoffs w1 = handoffs w ∧
    writes id (None, "archive") (λ c, MwStore.Config c = Marshal (archive_json cfg)) t t1.
Proof.
  intros Hd Hwf Hid. unfold save_archive, on_store. rewrite Hd.
  destruct (UpsertGlobal_writes id now (MwStore.mkConfig "" None "archive" false (Marshal (archive_json cfg)) prio 0 0) t Hwf Hid)
    as (t1 & -> & Hw).
  assert (Hw' : writes id (None, "archive") (λ c, MwStore.Config c = Marshal (archive_json cfg)) t t1).
  { destruct Hw as (H1 & H2 & H3 & (c & Hc & Hk & _ & Hcfg & _) & H4). split_and!; try done. by exists c. }
  destruct dispatcher; cbn [negb].
  - unfold on_disp. destruct (DispatcherRewriteHeldDelivery _ _ _ _) as [r a]. eexists t1, _, _. split; [reflexivity|]. by split_and!.
  - eexists t1, 0%Z, _. split; [reflexivity|]. by split_and!.
Qed.

Lemma build_has logger c m l f :
  c ∈ l → MwStore.Enabled c = true →
  Registry.factory encryptor nacl rfc3339 parseURL parseLoopback dispatcher (MwStore.Middleware c) = Some f → f (MwStore.Config c) logger = Ok m →
  m ∈ Registry.build encryptor nacl rfc3339 parseURL parseLoopback dispatcher logger l.
Proof.
  intros Hc He Hf Hm. induction l as [|x l IH]; [by apply not_elem_of_nil in Hc|].
  apply elem_of_cons in Hc as [<-|Hc]; cbn [Registry.build]; [rewrite He, Hf, Hm; cbn; by left|].
  specialize (IH Hc). case_match; [done|]. case_match; [|done]. case_match; [by right|done].
Qed.

Definition toggle_on : string := Marshal (JObj [("middleware", JStr "archive"); ("enabled", JBool true)]).

Lemma toggle_runs user now gen serverID w : uRole user = "admin" →
  handleServerMiddleware now gen (Some user) "POST" toggle_on serverID w =
  on_store (MwStore.UpsertEnabled gen now serverID "archive" true 40) saved w.
Proof.
  intros Ha. unfold handleServerMiddleware, admin_post. rewrite Ha. cbn [String.eqb Ascii.eqb Bool.eqb negb].
  assert (E : (l ← body_fields toggle_on; m ← decode_string_field "middleware" l ""; e ← decode_bool_ptr "enabled" l None;
           p ← decode_int_field "priority" l 0; Some (m, e, p)) = Some ("archive", Some true, 0%Z)) by (vm_compute; reflexivity).
  rewrite E. cbv zeta. replace (raw_body_field "config" toggle_on) with "" by (vm_compute; reflexivity). reflexivity.
Qed.

Lemma config_post_saves user body cfg key now gen nonce w :
  uRole user = "admin" → is_Some (body_fields body) → Archive.ParseArchiveConfig (raw_body_field "config" body) = Ok cfg →
  ValidateArchiveConfig parseURL parseLoopback cfg = Ok key →
  handleMiddlewareConfig encryptor parseURL parseLoopback dispatcher now gen nonce (Some user) "POST" "global" body "archive" w =
  save now gen nonce cfg 40 (λ e, json_error 500 ("failed to save: " +:+ e)) (λ n, json_ok [("rewritten", json_int n)]) w.
Proof.
  intros Ha [l Hbody] Hp Hv. unfold handleMiddlewareConfig, admin_post. rewrite Ha.
  cbn -[body_fields raw_body_field Archive.ParseArchiveConfig save_archive]. by rewrite Hbody, Hp, Hv.
Qed.

(** Once an administrator has saved an archive
    configuration and switched the archive on for a server that has no configuration of
    its own, the pipeline built for that server archives with exactly the configuration
    that was parsed from the form and the key it decodes to, in whatever order the
    configurations are visited. *)
Theorem saved_archive_reaches_pipeline user target_body serverID cfg key w t now id now' id' nonce :
  dispatcher = true → uRole user = "admin" → mdb (pst w) = healthy t → mw_wf t → serverID ∈ MwStore.servers t →
  id ∉ map MwStore.ID (MwStore.configs t) → id' ∉ map MwStore.ID (MwStore.configs t) → id ≠ id' →
  (∀ c, c ∈ MwStore.configs t → config_key c = (Some serverID, "archive") → MwStore.empty_config (MwStore.Config c) = true) →
  is_Some (body_fields target_body) → Archive.ParseArchiveConfig (raw_body_field "config" target_body) = Ok cfg →
  ValidateArchiveConfig parseURL parseLoopback cfg = Ok key →
  let w1 := (handleMiddlewareConfig encryptor parseURL parseLoopback dispatcher now (Ok id) nonce (Some user) "POST" "global" target_body "archive" w).2 in
  let w2 := (handleServerMiddleware now' (Ok id') (Some user) "POST" toggle_on serverID w1).2 in
  ∃ t2, mdb (pst w2) = healthy t2 ∧ mw_wf t2 ∧ ∀ iter, iteration serverID t2 iter →
    Archive.middleware encryptor nacl rfc3339 cfg key (makeEventLogger serverID)
      ∈ (Registry.BuildPipeline encryptor nacl rfc3339 parseURL parseLoopback dispatcher iter serverID (pst w2)).1.
Proof.
  intros Hdisp Ha Hd Hwf Hs Hid Hid' Hne Hown Hbody Hp Hv w1 w2.
  pose proof (f_equal snd (config_post_saves user target_body cfg key now (Ok id) nonce w Ha Hbody Hp Hv)) as E1. fold w1 in E1.
  destruct (save_archive_store now id nonce cfg 40 (λ e, json_error 500 ("failed to save: " +:+ e)) (λ n, json_ok [("rewritten", json_int n)]) w t Hd Hwf Hid)
    as (t1 & n & w1' & Ew & Hd1 & _ & Hwf1 & Hs1 & Hids & (glob & Hg & Hgk & Hgc) & Hrest).
  rewrite Ew in E1. cbn [snd] in E1. subst w1'. clear Ew.
  assert (Hrow : ∀ c, config_key c = (Some serverID, "archive") → c ∈ MwStore.configs t1 ↔ c ∈ MwStore.configs t) by (intros c E; apply Hrest; by rewrite E).
  assert (Hfresh : id' ∉ map MwStore.ID (MwStore.configs t1)) by (intros Hin; destruct (Hids _ Hin); congruence).
  destruct (UpsertEnabled_writes id' now' serverID "archive" true 40 t1 Hwf1 Hfresh ltac:(by rewrite Hs1))
    as (t2 & Eu & Hwf2 & Hs2 & _ & (own & Ho & Hok & Hen & _ & Hcfg) & Hrest2).
  exists t2. assert (Ew2 : mdb (pst w2) = healthy t2).
  { subst w2. rewrite toggle_runs by done. unfold on_store. by rewrite Hd1, Eu. }
  split; [done|]. split; [done|]. intros iter Hiter.
  assert (Hempty : MwStore.empty_config (MwStore.Config own) = true).
  { destruct Hcfg as [(old & Hold & Hko & ->)| ->]; [|done]. apply Hown; [|done]. by apply Hrow. }
  assert (Heff : effective serverID t2 "archive" = Some (MwStore.set_config own (Marshal (archive_json cfg)))).
  { rewrite (effective_inherits serverID "archive" t2 own glob); [by rewrite Hempty, Hgc|done|done|done| |done].
    apply Hrest2; [congruence|done]. }
  unfold Registry.BuildPipeline. rewrite Ew2. pose proof (GetForServer_run iter serverID t2) as Hrun. unfold outcome in Hrun.
  destruct (MwStore.GetForServer iter serverID (healthy t2)) as [r d]. cbn in Hrun. subst r. cbn [fst].
  eapply (build_has _ (MwStore.set_config own (Marshal (archive_json cfg)))).
  - apply elem_of_effective; [done|]. by exists "archive".
  - done.
  - cbn [MwStore.set_config MwStore.Middleware]. replace (MwStore.Middleware own) with "archive" by (unfold config_key in Hok; congruence). reflexivity.
  - cbn [MwStore.set_config MwStore.Config]. unfold Archive.NewArchiveFromConfig. rewrite archive_roundtrip, Hv, Hdisp by (by eapply parsed_normal). done.
Qed.
End Saved.

(** ** What saving does to the queue *)
Section Queue.
Context (encryptor : option ConfigEncryptor) (parseURL : string → option ParsedURL) (parseLoopback : string → option bool).

Local Abbreviation save := (save_archive encryptor true).

Definition queue_of (w : MwWorld) : Db Queue := queue (archive (pst w)).

Lemma rewrite_runs nonce cfg (a : ArchiveDispatcher.World) q auth :
  queue a = healthy q → stored_auth encryptor nonce (CfgAuthValue cfg) = Ok auth →
  DispatcherRewriteHeldDelivery encryptor nonce cfg a =
  (Ok (count_where (stale_url (CfgURL cfg)) q),
   with_queue a (healthy (update_where (stale_url (CfgURL cfg))
     (rewrite_item (clock a) (CfgURL cfg) (CfgAuthType cfg) auth (CfgAPIKeyHeader cfg)) q))).
Proof. intros Hq Ha. unfold DispatcherRewriteHeldDelivery, RewriteHeldDelivery, on_queue. by rewrite Ha, Hq, exec_healthy. Qed.

Lemma queued_status q i : queue_ok q → i ∈ q → is_held i || is_pending i = true.
Proof.
  intros [_ Hi] Hin. rewrite Forall_forall in Hi. destruct (Hi i Hin) as [[E|E] _]; unfold is_held, is_pending; by rewrite E.
Qed.

Lemma save_retargets now id nonce cfg prio fail k w t q auth :
  mdb (pst w) = healthy t → mw_wf t → id ∉ map MwStore.ID (MwStore.configs t) →
  queue_of w = healthy q → stored_auth encryptor nonce (CfgAuthValue cfg) = Ok auth →
  let w1 := (save now (Ok id) nonce cfg prio fail k w).2 in
  queue_of w1 = healthy (update_where (stale_url (CfgURL cfg))
     (rewrite_item (clock (archive (pst w))) (CfgURL cfg) (CfgAuthType cfg) auth (CfgAPIKeyHeader cfg)) q) ∧
  clock (archive (pst w1)) = clock (archive (pst w)) ∧ pollCh (archive (pst w1)) = true ∧
  cbState (breaker (archive (pst w1))) = cbClosed.
Proof.
  intros Hd Hwf Hid Hq Hauth. unfold save_archive, on_store. rewrite Hd.
  destruct (UpsertGlobal_writes id now (MwStore.mkConfig "" None "archive" false (Marshal (archive_json cfg)) prio 0 0) t Hwf Hid)
    as (t1 & -> & _). cbn [negb]. unfold on_disp. cbn [pst with_store with_mdb archive].
  by rewrite (rewrite_runs nonce cfg _ q auth Hq Hauth).
Qed.

Local Abbreviation configure := (handleMiddlewareConfig encryptor parseURL parseLoopback true).

(** An administrator's accepted form. *)
Definition accepted (user : User) (body : string) (cfg : ArchiveConfig) : Prop :=
  uRole user = "admin" ∧ is_Some (body_fields body) ∧ Archive.ParseArchiveConfig (raw_body_field "config" body) = Ok cfg ∧
  is_ok (ValidateArchiveConfig parseURL parseLoopback cfg) = true.

(** The stores work, and the id is fresh. *)
Definition ready (id : string) (w : MwWorld) (t : MwStore.Tables) (q : Queue) : Prop :=
  mdb (pst w) = healthy t ∧ mw_wf t ∧ id ∉ map MwStore.ID (MwStore.configs t) ∧ queue_of w = healthy q ∧ queue_ok q.

Lemma configure_saves user body cfg now gen nonce w : accepted user body cfg →
  configure now gen nonce (Some user) "POST" "global" body "archive" w =
  save now gen nonce cfg 40 (λ e, json_error 500 ("failed to save: " +:+ e)) (λ n, json_ok [("rewritten", json_int n)]) w.
Proof.
  intros (Ha & Hb & Hp & Hv). destruct (ValidateArchiveConfig _ _ _) as [key|] eqn:E; [|done].
  by apply (config_post_saves _ _ _ _ user body cfg key).
Qed.

(** After an administrator has saved an archive
    configuration, every message of the queue, held or pending, goes to the new
    destination; those that went elsewhere before carry the new credentials and are due at
    once with no attempt counted; the circuit is closed and the dispatcher awake. *)
Theorem config_save_retargets_queue user body cfg w t q auth now id nonce :
  accepted user body cfg → ready id w t q → stored_auth encryptor nonce (CfgAuthValue cfg) = Ok auth →
  let w1 := (configure now (Ok id) nonce (Some user) "POST" "global" body "archive" w).2 in
  ∃ q1, queue_of w1 = healthy q1 ∧ ids q1 = ids q ∧ Forall (λ i, URL i = CfgURL cfg) q1 ∧
    (∀ i, i ∈ q → URL i ≠ CfgURL cfg → ∃ j, j ∈ q1 ∧ ID j = ID i ∧ Payload j = Payload i ∧ AuthValue j = auth ∧
       AuthType j = CfgAuthType cfg ∧ Attempts j = 0%Z ∧ NextAttemptAt j = sqliteTime (clock (archive (pst w)))) ∧
    cbState (breaker (archive (pst w1))) = cbClosed ∧ pollCh (archive (pst w1)) = true.
Proof.
  intros Hacc (Hd & Hwf & Hid & Hq & Hok) Hauth w1. subst w1. rewrite (configure_saves user body cfg) by done.
  match goal with |- context [save _ _ _ cfg 40 ?f ?k w] =>
    destruct (save_retargets now id nonce cfg 40 f k w t q auth Hd Hwf Hid Hq Hauth) as (Eq & _ & Hpoll & Hcb) end.
  eexists. split; [exact Eq|]. split_and!; [by apply ids_update_where|apply Forall_forall| |done|done].
  - intros j (i & Hi & ->)%elem_of_update_where. unfold stale_url. rewrite (queued_status q i Hok Hi). cbn [andb].
    destruct (URL i =?s CfgURL cfg) eqn:E; cbn; [by apply String.eqb_eq|done].
  - intros i Hi Hne. eexists. split; [apply elem_of_update_where; exists i; split; [done|reflexivity]|].
    unfold stale_url. rewrite (queued_status q i Hok Hi). apply String.eqb_neq in Hne. by rewrite Hne.
Qed.

Lemma stored_global id cfg t t1 :
  writes id (None, "archive") (λ c, MwStore.Config c = Marshal (archive_json cfg)) t t1 →
  ∃ c, MwStore.GetGlobal "archive" (healthy t1) = (Ok (Some c), healthy t1) ∧ MwStore.Config c = Marshal (archive_json cfg).
Proof.
  intros (Hwf1 & _ & _ & (c & Hc & Hk & Hcfg) & _). exists c. split; [|done]. unfold MwStore.GetGlobal, query. rewrite exec_healthy.
  do 3 f_equal. destruct (List.find (MwStore.is_global "archive") (MwStore.configs t1)) as [c'|] eqn:E.
  - apply find_some in E as [Hin Hg]. rewrite <- list_elem_of_In in Hin. f_equal. apply (row_by config_key (MwStore.configs t1)); [apply Hwf1|done..|].
    rewrite Hk. by apply is_global_key.
  - apply is_global_key in Hk. rewrite list_elem_of_In in Hc. by rewrite (find_none _ _ E c Hc) in Hk.
Qed.

(** A message that is held because its credentials
    were refused keeps them: after an administrator has saved new credentials for the same
    destination and pressed retry, it is pending again with the old ones, whatever the
    new ones are. *)
Theorem rotated_token_misses_queue user body cfg w t q auth auth' now id nonce nonce' i :
  accepted user body cfg → ready id w t q →
  stored_auth encryptor nonce (CfgAuthValue cfg) = Ok auth → stored_auth encryptor nonce' (CfgAuthValue cfg) = Ok auth' →
  i ∈ q → is_held i = true → URL i = CfgURL cfg →
  let w1 := (configure now (Ok id) nonce (Some user) "POST" "global" body "archive" w).2 in
  let w2 := (archiveActionRetry encryptor true nonce' w1).2 in
  ∃ j, j ∈ tables (queue_of w2) ∧ ID j = ID i ∧ is_pending j = true ∧ AuthValue j = AuthValue i ∧ AuthType j = AuthType i.
Proof.
  intros Hacc (Hd & Hwf & Hid & Hq & Hok) Hauth Hauth' Hi Hh Hurl w1 w2.
  assert (Hne : CfgURL cfg ≠ "").
  { destruct Hacc as (_ & _ & _ & Hv). intros E. unfold ValidateArchiveConfig in Hv. by rewrite E in Hv. }
  assert (Hs : stale_url (CfgURL cfg) i = false) by (unfold stale_url; by rewrite Hurl, String.eqb_refl, andb_false_r).
  subst w2 w1. rewrite (configure_saves user body cfg) by done.
  match goal with |- context [save _ _ _ cfg 40 ?f ?k w] =>
    destruct (save_retargets now id nonce cfg 40 f k w t q auth Hd Hwf Hid Hq Hauth) as (Eq & _);
    destruct (save_archive_store encryptor true now id nonce cfg 40 f k w t Hd Hwf Hid) as (t1 & n & w1 & E & Hd1 & _ & Hw);
    rewrite E in *; cbn [snd] in * end.
  destruct (stored_global id cfg t t1 Hw) as (c & Hget & Hcfg).
  unfold archiveActionRetry, without_dispatcher, on_store. rewrite Hd1, Hget, Hcfg, stored_archive_fields.
  apply String.eqb_neq in Hne. rewrite Hne. unfold on_disp, retry_all. cbn [pst with_store with_mdb archive].
  erewrite rewrite_runs by (done || exact Eq). unfold on_disp, DispatcherRetryHeld, RetryHeld, on_queue.
  cbn [pst with_disp archive with_queue queue]. rewrite exec_healthy. cbn.
  exists (retry_item (clock (archive (pst w1))) i). split; [|done].
  rewrite elem_of_update_where. exists i. rewrite Hh. split; [|done].
  rewrite elem_of_update_where. exists i. rewrite Hs. split; [|done].
  rewrite elem_of_update_where. exists i. by rewrite Hs.
Qed.
End Queue.

(** ** The hand-off as a sequence of requests *)
Section Handoffs.
Context (encryptor : option ConfigEncryptor) (nacl : NaCl) (parseURL : string → option ParsedURL)
  (parseLoopback : string → option bool) (dispatcher : bool).

(** What can happen to the nonces: a page begins or completes a hand-off for a logged-in
    user, or the cleanup goroutine ticks. *)
Inductive handoff_op :=
| HoBegin (user : User) (bytes : option string) (now : Z)
| HoComplete (user : User) (body : string) (now : Z) (gen : result string) (nonce : option string)
| HoSweep (now : Z).

Definition handoff_step (w : MwWorld) (o : handoff_op) : MwWorld :=
  match o with
  | HoBegin user bytes now => (handleArchiveHandoffBegin now bytes (Some user) "POST" w).2
  | HoComplete user body now gen nonce =>
      (handleArchiveHandoffComplete encryptor nacl parseURL parseLoopback dispatcher now gen nonce (Some user) "POST" body w).2
  | HoSweep now => with_handoffs w (handoff_cleanup now (handoffs w))
  end.

Definition handoff_run : MwWorld → list handoff_op → MwWorld := foldl handoff_step.

(** An administrator presents the nonce. *)
Definition presents (n : string) (o : handoff_op) : Prop :=
  match o with
  | HoComplete user body _ _ _ => uRole user = "admin" ∧ n ≠ "" ∧ hbState <$> decode_handoff body = Some n
  | _ => False
  end.

(** The nonce was handed to this user at this place and not presented since. *)
Definition issued (ops : list handoff_op) (n userID : string) (expires : Z) : Prop :=
  ∃ j user b t, ops !! j = Some (HoBegin user (Some b) t) ∧ uRole user = "admin" ∧ uID user = userID ∧
    n = RawURLEncode_text (EncodeToString b) ∧ expires = (t + archiveHandoffTTL)%Z ∧
    ∀ k o, (j < k)%nat → ops !! k = Some o → ¬ presents n o.

Lemma issued_snoc ops o n userID expires :
  issued ops n userID expires → ¬ presents n o → issued (ops ++ [o]) n userID expires.
Proof.
  intros (j & user & b & t & Hj & H1 & H2 & H3 & H4 & H5) Hn. exists j, user, b, t. split_and!; try done.
  - by apply lookup_app_l_Some.
  - intros k o' Hk [Ho'|[_ Ho']]%lookup_app_Some; [by eapply H5|]. apply list_lookup_singleton_Some in Ho' as [_ <-]. done.
Qed.

Lemma save_keeps_handoffs now gen nonce cfg prio fail k w :
  handoffs (save_archive encryptor dispatcher now gen nonce cfg prio fail k w).2 = handoffs w.
Proof.
  unfold save_archive, on_store. destruct (MwStore.UpsertGlobal _ _ _ _) as [[u|e] d]; [|done].
  destruct dispatcher; [|done]. cbn [negb]. unfold on_disp. by destruct (DispatcherRewriteHeldDelivery _ _ _ _).
Qed.

(** Completing: the nonce is gone, and without it nothing else happens. *)
Lemma complete_consumes user body now gen nonce w b :
  uRole user = "admin" → decode_handoff body = Some b → hbState b ≠ "" →
  let w1 := handoff_step w (HoComplete user body now gen nonce) in
  handoffs w1 = (handoff_consume now (hbState b) (uID user) (handoffs w)).2 ∧
  ((handoff_consume now (hbState b) (uID user) (handoffs w)).1 = false → pst w1 = pst w).
Proof.
  intros Ha Hb Hs w1. subst w1. unfold handoff_step, handleArchiveHandoffComplete, admin_post. rewrite Ha, Hb. apply String.eqb_neq in Hs. rewrite Hs.
  change ("admin" =?s "admin") with true. change ("POST" !=? "POST") with false. cbv iota beta zeta.
  destruct (handoff_consume now (hbState b) (uID user) (handoffs w)) as [[] s]; cbn [negb snd fst]; [|by split]. split; [|done].
  unfold on_store. destruct (MwStore.GetGlobal "archive" _) as [r d]. cbv zeta. destruct (ValidateArchiveConfig _ _ _); [|done].
  by rewrite save_keeps_handoffs.
Qed.

Lemma complete_idle user body now gen nonce w :
  (uRole user = "admin" → default "" (hbState <$> decode_handoff body) = "") →
  handoff_step w (HoComplete user body now gen nonce) = w.
Proof.
  intros Hn. unfold handoff_step, handleArchiveHandoffComplete, admin_post. change ("POST" !=? "POST") with false. cbv iota.
  destruct (uRole user =?s "admin") eqn:Ea; [|done]. apply String.eqb_eq in Ea. specialize (Hn Ea).
  destruct (decode_handoff body) as [b|]; [|done]. cbn in Hn. by rewrite Hn.
Qed.

Lemma consume_others now n userID s m req :
  (handoff_consume now n userID s).2 !! m = Some req → s !! m = Some req ∧ m ≠ n.
Proof.
  unfold handoff_consume. destruct (s !! n) as [r|] eqn:E; cbn.
  - intros [Hne Hm]%lookup_delete_Some. split; [done|]. by intros ->.
  - intros Hm. split; [done|]. intros ->. congruence.
Qed.

Lemma handoffs_issued ops w0 n req : handoffs w0 = ∅ →
  handoffs (handoff_run w0 ops) !! n = Some req → issued ops n (hoUserID req) (hoExpiresAt req).
Proof.
  intros H0. revert n req. induction ops as [|o ops IH] using rev_ind; intros n req; [cbn; by rewrite H0, lookup_empty|].
  unfold handoff_run. rewrite foldl_app. cbn [foldl]. fold (handoff_run w0 ops). set (w := handoff_run w0 ops) in *. destruct o as [user bytes now|user body now gen nonce|now].
  - unfold handoff_step, handleArchiveHandoffBegin, admin_post. change ("POST" !=? "POST") with false. cbv iota.
    destruct (uRole user =?s "admin") eqn:Ea; [|intros Hn; apply issued_snoc; [by apply IH|by intros []]]. apply String.eqb_eq in Ea.
    destruct bytes as [b|]; cbn; [|intros Hn; apply issued_snoc; [by apply IH|by intros []]].
    intros [[<- <-]|[Hne Hn]]%lookup_insert_Some; [|apply issued_snoc; [by apply IH|by intros []]].
    exists (length ops), user, b, now. cbn. split_and!; try done.
    + rewrite lookup_app_r by done. by rewrite Nat.sub_diag.
    + intros k o Hk Ho. apply lookup_lt_Some in Ho. rewrite length_app in Ho. cbn in Ho. lia.
  - destruct (decide (uRole user = "admin" ∧ default "" (hbState <$> decode_handoff body) ≠ "")) as [[Ha Hs]|Hidle].
    + destruct (decode_handoff body) as [b|] eqn:Hb; [|done]. cbn in Hs.
      destruct (complete_consumes user body now gen nonce w b Ha Hb Hs) as [-> _]. intros [Hn Hne]%consume_others.
      apply issued_snoc; [by apply IH|]. intros (_ & _ & Hp). rewrite Hb in Hp. cbn in Hp. congruence.
    + rewrite complete_idle. 
      * intros Hn. apply issued_snoc; [by apply IH|]. intros (Ha & Hne & Hp). apply Hidle. split; [done|]. by rewrite Hp.
      * intros Ha. destruct (decide (default "" (hbState <$> decode_handoff body) = "")) as [E|E]; [done|]. by destruct Hidle.
  - cbn. intros [Hn _]%map_lookup_filter_Some. apply issued_snoc; [by apply IH|by intros []].
Qed.

(** C27: whatever hand-offs are begun, completed and swept, in
    whatever order, a completion changes the archive configuration or the queue only when
    the same administrator began a hand-off at most ten minutes before, was given this
    very nonce, and no administrator has presented it since. *)
Theorem handoff_is_single_use ops w0 user body now gen nonce : handoffs w0 = ∅ →
  let w := handoff_run w0 ops in
  pst (handoff_step w (HoComplete user body now gen nonce)) ≠ pst w →
  ∃ b expires, decode_handoff body = Some b ∧ uRole user = "admin" ∧
    issued ops (hbState b) (uID user) expires ∧ (now <= expires)%Z ∧
    handoffs (handoff_step w (HoComplete user body now gen nonce)) !! hbState b = None.
Proof.
  intros H0 w Hch. destruct (decide (uRole user = "admin" ∧ default "" (hbState <$> decode_handoff body) ≠ "")) as [[Ha Hs]|Hidle].
  2: { destruct Hch. rewrite complete_idle; [done|]. intros Ha.
       destruct (decide (default "" (hbState <$> decode_handoff body) = "")) as [E|E]; [done|]. by destruct Hidle. }
  destruct (decode_handoff body) as [b|] eqn:Hb; [|done]. cbn in Hs.
  destruct (complete_consumes user body now gen nonce w b Ha Hb Hs) as [-> Hfail].
  destruct (handoff_consume now (hbState b) (uID user) (handoffs w)) as [ok s] eqn:E. cbn [fst snd] in *.
  destruct ok; [|by destruct Hch; apply Hfail]. unfold handoff_consume in E. destruct (handoffs w !! hbState b) as [req|] eqn:Er; [|done].
  injection E as Eok <-. apply andb_true_iff in Eok as [Ht Hu]. apply Z.leb_le in Ht. apply String.eqb_eq in Hu.
  exists b, (hoExpiresAt req). split_and!; [done..| |done|apply lookup_delete_eq].
  rewrite <- Hu. by eapply handoffs_issued.
Qed.

End Handoffs.

(** ** Witnesses *)
Definition mw_admin : User := mkUser "a" "root" "" "admin" "admin" None false 0 None "".
Definition mw_guest : User := mkUser "g" "guest" "" "user" "read" None false 0 None "".
Definition mw_nacl : NaCl := mkNaCl None None (λ _ _ _ _, "") (λ _, "").
Definition mw_parse : string → option ParsedURL := λ _, Some (mkURL "https" "archive.example").

(** One message held after its token was refused, one on its way to an old destination. *)
Definition refused_item : ArchiveQueueItem :=
  mkItem "q1" "srv" 5 "{}" "https://archive.example" "bearer" "old" "X-API-Key" "hold" 7 9 (Some 8%Z) (Some "HTTP 401").

Definition mw_queue : Queue :=
  [refused_item;
   mkItem "q2" "srv" 6 "{}" "https://gone.example" "bearer" "old" "X-API-Key" "pending" 2 99 (Some 8%Z) (Some "HTTP 500")].

Definition mw_world : MwWorld :=
  mkMw (mkPState (healthy (MwStore.mkTables {["srv"]} [] [])) (NewArchiveDispatcher (healthy mw_queue) (20 * second)) [] []) ∅.

Definition new_token : ArchiveConfig := mkCfg "https://archive.example" "bearer" "new" "X-API-Key" "both" "".

Definition new_token_form : string := Marshal (JObj [("config", archive_json new_token)]).

Lemma new_token_accepted : accepted mw_parse (λ _, None) mw_admin new_token_form new_token.
Proof. split_and!; [reflexivity|eexists; vm_compute; reflexivity|vm_compute; reflexivity|vm_compute; reflexivity]. Defined.

Lemma mw_world_ready : ready "m1" mw_world (MwStore.mkTables {["srv"]} [] []) mw_queue.
Proof.
  split_and!; try reflexivity; [split; apply NoDup_nil_2|apply not_elem_of_nil|]. split.
  - apply (bool_decide_unpack (NoDup (ids mw_queue))). vm_compute. exact I.
  - repeat constructor; cbn; auto; lia.
Defined.

Lemma middleware_pages_guarded_witness :
  (handleServerMiddleware 0 (Ok "m1") (Some mw_guest) "POST" toggle_on "srv" mw_world).2 = mw_world.
Proof.
  apply (middleware_pages_guarded (H:=toy_regexp) None mw_nacl (λ _, "") mw_parse (λ _, None) true (λ _, None) (λ _ _, NetError "")
    0 (Ok "m1") None None (λ _, []) (Some mw_guest) "global"
    (WebAuth.mkRequest "POST" "/servers/srv/middleware" "" "" "" "" "" None ∅ [] toggle_on) "srv" mw_world).
  right. discriminate.
Defined.

Lemma saved_archive_reaches_pipeline_witness :
  let w1 := (handleMiddlewareConfig None mw_parse (λ _, None) true 0 (Ok "m1") None (Some mw_admin) "POST" "global" new_token_form "archive" mw_world).2 in
  let w2 := (handleServerMiddleware 1 (Ok "m2") (Some mw_admin) "POST" toggle_on "srv" w1).2 in
  ∃ t2, mdb (pst w2) = healthy t2 ∧ mw_wf t2 ∧ ∀ iter, iteration "srv" t2 iter →
    Archive.middleware None mw_nacl (λ _, "") new_token None (makeEventLogger "srv")
      ∈ (Registry.BuildPipeline (H:=toy_regexp) None mw_nacl (λ _, "") mw_parse (λ _, None) true iter "srv" (pst w2)).1.
Proof.
  apply (saved_archive_reaches_pipeline (H:=toy_regexp) None mw_nacl (λ _, "") mw_parse (λ _, None) true mw_admin new_token_form "srv" new_token None
    mw_world (MwStore.mkTables {["srv"]} [] []) 0 "m1" 1 "m2" None); try reflexivity.
  - split; apply NoDup_nil_2.
  - intros Hc. by apply not_elem_of_nil in Hc.
  - intros Hc. by apply not_elem_of_nil in Hc.
  - discriminate.
  - intros c Hc. by apply not_elem_of_nil in Hc.
  - eexists. vm_compute. reflexivity.
Defined.

Lemma config_save_retargets_queue_witness :
  let w1 := (handleMiddlewareConfig None mw_parse (λ _, None) true 0 (Ok "m1") None (Some mw_admin) "POST" "global" new_token_form "archive" mw_world).2 in
  ∃ q1, queue_of w1 = healthy q1 ∧ Forall (λ i, URL i = "https://archive.example") q1 ∧ pollCh (archive (pst w1)) = true.
Proof.
  destruct (config_save_retargets_queue None mw_parse (λ _, None) mw_admin new_token_form new_token mw_world
    (MwStore.mkTables {["srv"]} [] []) mw_queue "new" 0 "m1" None new_token_accepted mw_world_ready eq_refl) as (q1 & H1 & _ & H3 & _ & _ & H6).
  exists q1. split_and!; [exact H1|exact H3|exact H6].
Defined.

Lemma rotated_token_misses_queue_witness :
  let w1 := (handleMiddlewareConfig None mw_parse (λ _, None) true 0 (Ok "m1") None (Some mw_admin) "POST" "global" new_token_form "archive" mw_world).2 in
  let w2 := (archiveActionRetry None true None w1).2 in
  ∃ j, j ∈ tables (queue_of w2) ∧ ID j = "q1" ∧ is_pending j = true ∧ AuthValue j = "old" ∧ AuthType j = "bearer".
Proof.
  apply (rotated_token_misses_queue None mw_parse (λ _, None) mw_admin new_token_form new_token mw_world
    (MwStore.mkTables {["srv"]} [] []) mw_queue "new" "new" 0 "m1" None None refused_item new_token_accepted mw_world_ready eq_refl eq_refl);
    [left|reflexivity|reflexivity].
Defined.

(** Thirty-two random bytes, a hand-off begun with them, and the fragment the browser brings back. *)
Definition ho_bytes : string := "0123456789abcdef0123456789abcdef".
Definition ho_body : string :=
  Marshal (JObj [("state", JStr (RawURLEncode_text (EncodeToString ho_bytes))); ("archive_url", JStr "https://archive.example")]).

Lemma handoff_is_single_use_witness :
  let w := handoff_run None mw_nacl mw_parse (λ _, None) true mw_world [HoBegin mw_admin (Some ho_bytes) 0] in
  ∃ expires, issued [HoBegin mw_admin (Some ho_bytes) 0] (RawURLEncode_text (EncodeToString ho_bytes)) "a" expires ∧ (5 * minute <= expires)%Z.
Proof.
  destruct (handoff_is_single_use None mw_nacl mw_parse (λ _, None) true [HoBegin mw_admin (Some ho_bytes) 0] mw_world mw_admin ho_body
    (5 * minute) (Ok "m1") None eq_refl) as (b & expires & Hb & _ & Hi & Ht & _).
  - intros E. apply (f_equal (λ p, length (MwStore.configs (tables (mdb p))))) in E. vm_compute in E. discriminate.
  - exists expires. vm_compute in Hb. injection Hb as <-. split; [exact Hi|exact Ht].
Defined.
