(* ===== verification/ProfilePages.v ===== *)
(** * The profile, key and user pages

    The administration pages of [src/internal/web/handlers.go] that list and edit agent
    profiles, list API keys and list users.  They run behind [requireAuth] ([WebAuth]);
    a page is represented by what its template is given. *)
From S2P Require Import Prelude GoStrings Json AccessTiers Base64 Crypto Profiles Users Sessions WebAuth Servers.

(** ** State and pages *)

(** The identity database with its one-time secrets, and the servers. *)
Record SiteWorld := mkSite { site : WebAuth.World; server_db : Db Servers.State }.

Record endpointRow := mkEndpointRow { erType : string; erName : string; erTier : string; erAllowed : bool }.
Record serverSection := mkSection { ssID : string; ssName : string; ssEndpoints : list endpointRow }.
Record profileRow := mkProfileRow { prID : string; prProfile : AgentProfile; prPermCount : Z; prKeyCount : Z }.

Record KeysPage := mkKeysPage {
  kpAdmin : bool; kpKeys : list APIKey; kpFleet : list (APIKey * string); kpProfiles : list (string * AgentProfile);
  kpNewKey : option string; kpLost : bool }.

Record UsersPage := mkUsersPage {
  upUsers : list User; upProfiles : list (string * AgentProfile); upInvites : list (InviteToken * string * string);
  upInviteCmd : option string; upInviteLink : option string; upError : string }.

Inductive SitePage :=
| StNotFound
| StStatus (code : Z) (msg : string)
| StRedirect (location : string)
| StJson (code : Z) (fields : list (string * json))
| StProfiles (rows : list profileRow) (flash : option string)
| StProfile (id : string) (p : AgentProfile) (sections : list serverSection)
| StUsers (p : UsersPage)
| StKeys (p : KeysPage).

Definition SiteHandler : Type := SiteWorld → SitePage * SiteWorld.

Definition show (p : SitePage) : SiteHandler := λ w, (p, w).

Definition with_identity (w : SiteWorld) (d : Db Users.State) : SiteWorld := mkSite (with_db (site w) d) (server_db w).

(** A call of an identity store, and one whose error is dropped for the zero value. *)
Definition ask {A} (m : DBM Users.State A) (k : result A → SiteHandler) : SiteHandler := λ w,
  let '(r, d) := m (db (site w)) in k r (with_identity w d).

Definition ask_or {A} (m : DBM Users.State A) (zero : A) (k : A → SiteHandler) : SiteHandler :=
  ask m (λ r, k (match r with Ok a => a | Err _ => zero end)).

Definition ask_servers {A} (m : DBM Servers.State A) (zero : A) (k : A → SiteHandler) : SiteHandler := λ w,
  let '(r, d) := m (server_db w) in k (match r with Ok a => a | Err _ => zero end) (mkSite (site w) d).

(** [sync.Map.LoadAndDelete] *)
Definition take_flash (key : string) (k : option string → SiteHandler) : SiteHandler := λ w,
  let s := site w in
  k (flashKeys s !! key) (mkSite (WebAuth.mkWorld (db s) (loginLimiter s) (inviteLimiter s) (delete key (flashKeys s))) (server_db w)).

Definition is_administrator (user : User) : bool := uRole user =?s "admin".

Definition admin_only (user : User) (k : SiteHandler) : SiteHandler :=
  if is_administrator user then k else show (StStatus 403 "Admin access required").

Definition post_only (method : string) (k : SiteHandler) : SiteHandler :=
  if method !=? "POST" then show (StStatus 405 "Method not allowed") else k.

(** ** Profiles *)
Section Profiles.
Context (crypto : ConfigEncryptor) (now : Z) (uuid : string).

Fixpoint profile_rows (l : list (string * AgentProfile)) (acc : list profileRow) (k : list profileRow → SiteHandler) : SiteHandler :=
  match l with
  | [] => k (rev acc)
  | (id, p) :: rest =>
      ask_or (on_profiles (PermissionCount id)) 0%Z (λ pc, ask_or (APIKeyCount id) 0%Z (λ kc,
        profile_rows rest (mkProfileRow id p pc kc :: acc) k))
  end.

Definition renderProfilesList (flash : option string) : SiteHandler :=
  ask_or (on_profiles ListProfiles) [] (λ l, profile_rows l [] (λ rows, show (StProfiles rows flash))).

Definition handleProfiles (user : User) (r : WebAuth.Request) : SiteHandler :=
  admin_only user
    (if WebAuth.Method r =?s "POST" then
       let name := TrimSpace (FormValue r "name") in
       let desc := TrimSpace (FormValue r "description") in
       if name =?s "" then renderProfilesList (Some "Profile name is required")
       else ask (on_profiles (Profiles.Create uuid name desc now)) (λ res,
              match res with
              | Err e => renderProfilesList (Some ("Failed to create profile: " +:+ e))
              | Ok (id, _) => show (StRedirect ("/profiles/" +:+ id))
              end)
     else renderProfilesList None).

(** *** The permission matrix *)

Definition perm_key (serverID ty name : string) : string := serverID +:+ ":" +:+ ty +:+ ":" +:+ name.

Definition perm_set (perms : list perm) : gset string :=
  list_to_set (map (λ '(_, sid, ty, nm), perm_key sid ty nm) perms).

Definition section_of (perms : gset string) (srv : Server) (tiers : list ((string * string) * Access.EndpointTier)) : serverSection :=
  mkSection (ID srv) (DisplayName srv)
    (map (λ '((ty, nm), row), mkEndpointRow ty nm (Access.AccessTier row) (bool_decide (perm_key (ID srv) ty nm ∈ perms))) tiers).

(** The loop over the servers: one that has no classified endpoint, or whose tiers cannot be
    read, is left out. *)
Fixpoint sections (perms : gset string) (servers : list Server) (acc : list serverSection) (k : list serverSection → SiteHandler) :
    SiteHandler :=
  match servers with
  | [] => k (rev acc)
  | srv :: rest =>
      ask (on_profiles (lift_db access (λ a s, Profiles.mkState a (agent_profiles s) (permissions s)) (Access.GetAllTiers (ID srv)))) (λ res,
        match res with
        | Err _ | Ok [] => sections perms rest acc k
        | Ok tiers => sections perms rest (section_of perms srv tiers :: acc) k
        end)
  end.

Definition handleProfileDetail (profileID : string) : SiteHandler :=
  ask (on_profiles (Profiles.Get profileID)) (λ res,
    match res with
    | Err _ => show StNotFound
    | Ok profile =>
        ask_servers (ListServers crypto) [] (λ allServers,
          ask_or (on_profiles (GetPermissions profileID)) [] (λ perms,
            sections (perm_set perms) allServers [] (λ secs, show (StProfile profileID profile secs))))
    end).

(** *** Changes *)

Definition handleProfileUpdate (profileID : string) (r : WebAuth.Request) : SiteHandler :=
  post_only (WebAuth.Method r)
    (let name := TrimSpace (FormValue r "name") in
     let desc := TrimSpace (FormValue r "description") in
     if name =?s "" then show (StRedirect ("/profiles/" +:+ profileID))
     else ask (on_profiles (Profiles.Update profileID name desc now)) (λ _, show (StRedirect ("/profiles/" +:+ profileID)))).

Definition handleProfileDelete (profileID : string) (r : WebAuth.Request) : SiteHandler :=
  post_only (WebAuth.Method r) (ask (DeleteProfile profileID) (λ _, show (StRedirect "/profiles"))).

Definition handleProfilePermission (profileID : string) (r : WebAuth.Request) : SiteHandler :=
  post_only (WebAuth.Method r)
    (let serverID := FormValue r "server_id" in
     let endpointType := FormValue r "endpoint_type" in
     let endpointName := FormValue r "endpoint_name" in
     if (serverID =?s "") || (endpointType =?s "") || (endpointName =?s "") then show (StStatus 400 "Missing parameters")
     else
       let change := if FormValue r "action" =?s "grant" then SetPermission profileID serverID endpointType endpointName
                     else RemovePermission profileID serverID endpointType endpointName in
       ask (on_profiles change) (λ _, show (StJson 200 [("ok", JBool true)]))).

Definition handleProfileSeed (profileID : string) (r : WebAuth.Request) : SiteHandler :=
  post_only (WebAuth.Method r)
    (let serverID := FormValue r "server_id" in
     let tier := FormValue r "tier" in
     if (serverID =?s "") || (tier =?s "") then show (StStatus 400 "Missing parameters")
     else ask (on_profiles (SeedFromTier profileID serverID tier)) (λ res,
       let json_wanted := Accept r =?s "application/json" in
       match res with
       | Err e => if json_wanted then show (StJson 500 [("error", JStr e)]) else show (StRedirect ("/profiles/" +:+ profileID))
       | Ok _ => if json_wanted then show (StJson 200 [("ok", JBool true)]) else show (StRedirect ("/profiles/" +:+ profileID))
       end)).

Definition handleProfileRoutes (user : User) (r : WebAuth.Request) : SiteHandler :=
  admin_only user
    (let '(profileID, action) := split_slash (TrimPrefix (Path r) "/profiles/") in
     if profileID =?s "" then show StNotFound
     else
       let action := default "" action in
       if action =?s "update" then handleProfileUpdate profileID r
       else if action =?s "delete" then handleProfileDelete profileID r
       else if action =?s "permission" then handleProfilePermission profileID r
       else if action =?s "seed" then handleProfileSeed profileID r
       else handleProfileDetail profileID).

(** The patterns [/profiles] and [/profiles/]. *)
Definition profiles_mux (user : User) (r : WebAuth.Request) : SiteHandler :=
  if Path r =?s "/profiles" then handleProfiles user r
  else if HasPrefix (Path r) "/profiles/" then handleProfileRoutes user r
  else show StNotFound.
End Profiles.

(** ** Keys and users *)

(** [q] are the query parameters. *)
Definition handleAPIKeys (user : User) (q : gmap string string) : SiteHandler :=
  let isAdmin := is_administrator user in
  let fleetMode := default "" (q !! "all") =?s "1" in
  let nonce := default "" (q !! "new") in
  if fleetMode && negb isAdmin then show (StStatus 403 "Admin access required to view all API keys")
  else
    let own fleet := ask (ListAPIKeys (uID user)) (λ res,
      match res with
      | Err _ => show (StStatus 500 "Internal error")
      | Ok ownKeys =>
          let finish profiles :=
            if nonce =?s "" then show (StKeys (mkKeysPage isAdmin ownKeys fleet profiles None false))
            else take_flash nonce (λ k, show (StKeys (mkKeysPage isAdmin ownKeys fleet profiles k (bool_decide (k = None))))) in
          if isAdmin then ask_or (on_profiles ListProfiles) [] finish
          else match uDefaultProfileID user with
               | None => finish []
               | Some p => ask (on_profiles (Profiles.Get p)) (λ res, finish (match res with Ok a => [(p, a)] | Err _ => [] end))
               end
      end) in
    if fleetMode then ask ListAllAPIKeys (λ res,
      match res with Err _ => show (StStatus 500 "Internal error") | Ok l => own l end)
    else own [].

Definition users_lists (now : Z) (k : list User → list (string * AgentProfile) → list (InviteToken * string * string) → SiteHandler) : SiteHandler :=
  ask_or ListUsers [] (λ us, ask_or (on_profiles ListProfiles) [] (λ ps, ask_or (Invites.ListPending now) [] (λ ivs, k us ps ivs))).

Definition renderUsersList (now : Z) (errMsg : string) : SiteHandler :=
  users_lists now (λ us ps ivs, show (StUsers (mkUsersPage us ps ivs None None errMsg))).

Definition handleUsers (now : Z) (user : User) (q : gmap string string) : SiteHandler :=
  admin_only user
    (let nonce := default "" (q !! "invite") in
     if nonce =?s "" then renderUsersList now ""
     else users_lists now (λ us ps ivs,
       take_flash ("invite-cmd-" +:+ nonce) (λ cmd, take_flash ("invite-link-" +:+ nonce) (λ link,
         show (StUsers (mkUsersPage us ps ivs cmd link "")))))).

(** ** Who changes what *)

(** The tables and the one-time secrets stay. *)
Definition site_reads (h : SiteHandler) : Prop := ∀ w,
  tables (db (site (h w).2)) = tables (db (site w)) ∧ tables (server_db (h w).2) = tables (server_db w) ∧
  flashKeys (site (h w).2) = flashKeys (site w).

Lemma site_show p : site_reads (show p).
Proof. done. Qed.

Lemma site_ask {A} (m : DBM Users.State A) k : (∀ P, preserves P m) → (∀ r, site_reads (k r)) → site_reads (ask m k).
Proof.
  intros Hm Hk w. unfold ask. pose proof (Hm (eq (tables (db (site w)))) (db (site w)) eq_refl) as Ht.
  destruct (m (db (site w))) as [r d]. cbn in Ht. destruct (Hk r (with_identity w d)) as (-> & -> & ->). by rewrite Ht.
Qed.

Lemma site_ask_or {A} (m : DBM Users.State A) zero k : (∀ P, preserves P m) → (∀ a, site_reads (k a)) → site_reads (ask_or m zero k).
Proof. intros Hm Hk. by apply site_ask. Qed.

Lemma site_ask_servers {A} (m : DBM Servers.State A) zero k : (∀ P, preserves P m) → (∀ a, site_reads (k a)) → site_reads (ask_servers m zero k).
Proof.
  intros Hm Hk w. unfold ask_servers. pose proof (Hm (eq (tables (server_db w))) (server_db w) eq_refl) as Ht.
  destruct (m (server_db w)) as [r d]. cbn in Ht.
  destruct (Hk (match r with Ok a => a | Err _ => zero end) (mkSite (site w) d)) as (-> & -> & ->). by rewrite Ht.
Qed.

(** A query of the profile store, alone or through the tier tables. *)
Lemma on_profiles_reads {A} (m : DBM Profiles.State A) : (∀ P, preserves P m) → ∀ P, preserves P (on_profiles m).
Proof.
  intros Hm P. apply preserves_lift. intros d s Ed Hs. pose proof (Hm (eq (profiles s)) d (eq_sym Ed)) as <-. by destruct s.
Qed.

Lemma exec_reads {T A} (f : T → result (A * T)) P : (∀ t a t', f t = Ok (a, t') → t' = t) → preserves P (exec f).
Proof. intros Hf. apply preserves_exec. intros t a t' Ht E. by rewrite (Hf t a t' E). Qed.

Lemma profile_tiers_read id P : preserves P (lift_db access (λ a s, Profiles.mkState a (agent_profiles s) (permissions s)) (Access.GetAllTiers id)).
Proof.
  apply preserves_lift. intros d s Ed Hs. unfold Access.GetAllTiers. rewrite query_tables, Ed. by destruct s.
Qed.

Lemma get_profile_reads id P : preserves P (Profiles.Get id).
Proof. apply exec_reads. intros t a t'. destruct (agent_profiles t !! id); [|done]. by intros [= _ <-]. Qed.

Lemma site_profile_rows l acc k : (∀ rows, site_reads (k rows)) → site_reads (profile_rows l acc k).
Proof.
  intros Hk. revert acc. induction l as [|[id p] l IH]; intros acc; cbn; [apply Hk|].
  apply site_ask_or; [apply on_profiles_reads; intros; apply preserves_query|]. intros pc.
  apply site_ask_or; [intros; apply preserves_query|]. intros kc. apply IH.
Qed.

Lemma site_profiles_list flash : site_reads (renderProfilesList flash).
Proof.
  apply site_ask_or; [apply on_profiles_reads; intros; apply preserves_query|]. intros l. apply site_profile_rows. intros rows. apply site_show.
Qed.

Lemma site_sections perms servers acc k : (∀ secs, site_reads (k secs)) → site_reads (sections perms servers acc k).
Proof.
  intros Hk. revert acc. induction servers as [|srv servers IH]; intros acc; cbn; [apply Hk|].
  apply site_ask; [apply on_profiles_reads; intros; apply profile_tiers_read|]. intros [[|t l]|e]; apply IH.
Qed.

Lemma site_detail crypto id : site_reads (handleProfileDetail crypto id).
Proof.
  apply site_ask; [apply on_profiles_reads; intros; apply get_profile_reads|]. intros [p|e]; [|apply site_show].
  apply site_ask_servers; [intros; apply preserves_ListServers|]. intros l.
  apply site_ask_or; [apply on_profiles_reads; intros; apply preserves_query|]. intros perms. apply site_sections. intros secs. apply site_show.
Qed.

(** The profile pages change nothing, whichever statements
    fail, unless an administrator sends a POST. *)
Theorem profile_pages_guarded crypto now uuid user r w :
  is_administrator user && (WebAuth.Method r =?s "POST") = false →
  let w' := (profiles_mux crypto now uuid user r w).2 in
  tables (db (site w')) = tables (db (site w)) ∧ tables (server_db w') = tables (server_db w) ∧ flashKeys (site w') = flashKeys (site w).
Proof.
  intros Hn. revert w. unfold profiles_mux, handleProfiles, handleProfileRoutes, admin_only.
  case_if.
  - destruct (is_administrator user); [|apply site_show]. cbn in Hn. rewrite Hn. apply site_profiles_list.
  - case_if; [|apply site_show]. destruct (is_administrator user); [|apply site_show]. cbn in Hn.
    destruct (split_slash _) as [id action]. case_if; [apply site_show|].
    unfold handleProfileUpdate, handleProfileDelete, handleProfilePermission, handleProfileSeed, post_only. rewrite Hn. cbn [negb].
    repeat (case_if; [apply site_show|]). apply site_detail.
Qed.

(** ** The permission matrix shows what the proxy checks *)

(** No colon: server ids are UUIDs. *)
Definition colon_free (s : string) : Prop := all_chars (λ c, negb (Ascii.eqb c ":"%char)) s = true.

Lemma colon_split a b a' b' : colon_free a → colon_free a' → a +:+ ":" +:+ b = a' +:+ ":" +:+ b' → a = a' ∧ b = b'.
Proof.
  unfold colon_free. revert a'. induction a as [|c a IH]; intros [|c' a']; cbn; intros Ha Ha' E.
  - injection E as E. by split.
  - injection E as <- E. done.
  - injection E as -> E. done.
  - injection E as <- E. apply andb_true_iff in Ha as [_ Ha], Ha' as [_ Ha']. destruct (IH a' Ha Ha' E) as [-> ->]. done.
Qed.

Lemma perm_key_inj sid ty nm sid' ty' nm' :
  colon_free sid → colon_free sid' → Access.valid_type ty = true → Access.valid_type ty' = true →
  perm_key sid ty nm = perm_key sid' ty' nm' → sid = sid' ∧ ty = ty' ∧ nm = nm'.
Proof.
  intros Hs Hs' Ht Ht' E. unfold perm_key in E. apply colon_split in E as [-> E]; [|done..].
  destruct (ep_key_inj ty nm ty' nm' Ht Ht' E) as [-> ->]. done.
Qed.

Section Matrix.
Context (crypto : ConfigEncryptor).

(** The stores work, the tables are well formed, server ids have no colon, and the server
    rows decrypt. *)
Record site_ok (w : SiteWorld) (s : Users.State) (servers : list Server) : Prop := {
  ok_db : db (site w) = healthy s;
  ok_wf : Profiles.wf (profiles s);
  ok_ids : ∀ sid, sid ∈ Access.servers (access (profiles s)) → colon_free sid;
  ok_servers : ListServers crypto (server_db w) = (Ok servers, server_db w) }.

Lemma with_identity_same w : with_identity w (db (site w)) = w.
Proof. by destruct w as [[d l i f] sd]. Qed.

Lemma ask_profiles {A} (m : DBM Profiles.State A) s a p' k w :
  db (site w) = healthy s → m (healthy (profiles s)) = (Ok a, healthy p') →
  ask (on_profiles m) k w = k (Ok a) (with_identity w (healthy (Users.with_profiles s p'))).
Proof. intros Hd Hm. unfold ask, on_profiles, lift_db. rewrite Hd. cbn. unfold healthy in *. by rewrite Hm. Qed.

Lemma with_profiles_same s : Users.with_profiles s (profiles s) = s.
Proof. by destruct s. Qed.

Lemma ask_profiles_read {A} (m : DBM Profiles.State A) s a k w :
  db (site w) = healthy s → m (healthy (profiles s)) = (Ok a, healthy (profiles s)) → ask (on_profiles m) k w = k (Ok a) w.
Proof. intros Hd Hm. rewrite (ask_profiles m s a (profiles s)) by done. rewrite with_profiles_same, <- Hd. by rewrite with_identity_same. Qed.

Definition section_if (perms : gset string) (s : Users.State) (srv : Server) : option serverSection :=
  match Access.rows_of (ID srv) (access (profiles s)) with
  | [] => None
  | tiers => Some (section_of perms srv tiers)
  end.

Lemma sections_run perms s servers acc k w : db (site w) = healthy s →
  sections perms servers acc k w = k (rev acc ++ omap (section_if perms s) servers) w.
Proof.
  intros Hd. revert acc. induction servers as [|srv servers IH]; intros acc; cbn [sections]; [by rewrite app_nil_r|].
  rewrite (ask_profiles_read _ s (Access.rows_of (ID srv) (access (profiles s)))); [|done|].
  - cbn [omap list_omap]. unfold section_if at 1. destruct (Access.rows_of (ID srv) (access (profiles s))) as [|t l]; rewrite IH; [done|].
    cbn [rev]. by rewrite <- app_assoc.
  - unfold lift_db, Access.GetAllTiers. cbn. by destruct (profiles s).
Qed.

Definition granted (s : Users.State) (pid : string) : gset string :=
  perm_set (stable_sort perm_leb (elements (filter (λ p : perm, p.1.1.1 = pid) (permissions (profiles s))))).

Lemma detail_run w s servers pid profile : site_ok w s servers → agent_profiles (profiles s) !! pid = Some profile →
  handleProfileDetail crypto pid w = (StProfile pid profile (omap (section_if (granted s pid) s) servers), w).
Proof.
  intros [Hd _ _ Hs] Hp. unfold handleProfileDetail. rewrite (ask_profiles_read _ s profile); [|done|].
  2: { unfold Profiles.Get. by rewrite exec_healthy, Hp. }
  unfold ask_servers. rewrite Hs. unfold ask_or.
  assert (Hw : mkSite (site w) (server_db w) = w) by (by destruct w). rewrite Hw.
  rewrite (ask_profiles_read _ s (stable_sort perm_leb (elements (filter (λ p : perm, p.1.1.1 = pid) (permissions (profiles s)))))); [|done|].
  2: { unfold GetPermissions, query. by rewrite exec_healthy. }
  by rewrite (sections_run _ s).
Qed.

Lemma elem_of_granted s pid sid ty nm :
  Profiles.wf (profiles s) → (∀ x, x ∈ Access.servers (access (profiles s)) → colon_free x) →
  colon_free sid → Access.valid_type ty = true →
  perm_key sid ty nm ∈ granted s pid ↔ (pid, sid, ty, nm) ∈ permissions (profiles s).
Proof.
  intros [_ Hwf] Hids Hs Ht. unfold granted, perm_set. rewrite elem_of_list_to_set. rewrite list_elem_of_fmap.
  setoid_rewrite elem_of_stable_sort. setoid_rewrite elem_of_elements. setoid_rewrite elem_of_filter. split.
  - intros ([[[p sid'] ty'] nm'] & E & Ep & Hin). cbn in Ep. subst p. pose proof (Hwf _ Hin) as Hok. unfold perm_ok in Hok. cbn in Hok.
    apply andb_true_iff in Hok as [[_ Hsrv]%andb_true_iff Hty]. apply bool_decide_eq_true in Hsrv.
    destruct (perm_key_inj sid ty nm sid' ty' nm') as (-> & -> & ->); auto.
  - intros Hin. by exists (pid, sid, ty, nm).
Qed.

(** What a page shows about an endpoint of a server. *)
Definition shows_row (page : SitePage) (sid ty nm : string) (tier : string) (allowed : bool) : Prop :=
  match page with
  | StProfile _ _ secs => ∃ sec, sec ∈ secs ∧ ssID sec = sid ∧ mkEndpointRow ty nm tier allowed ∈ ssEndpoints sec
  | _ => False
  end.

Lemma detail_shows w s servers pid profile sid ty nm tier allowed :
  site_ok w s servers → agent_profiles (profiles s) !! pid = Some profile →
  shows_row (handleProfileDetail crypto pid w).1 sid ty nm tier allowed ↔
  sid ∈ map ID servers ∧ (∃ row, Access.tiers (access (profiles s)) !! (sid, ty, nm) = Some row ∧ Access.AccessTier row = tier) ∧
  allowed = bool_decide ((pid, sid, ty, nm) ∈ permissions (profiles s)).
Proof.
  intros Hok Hp. rewrite (detail_run w s servers pid profile Hok Hp). destruct Hok as [_ Hwf Hids _]. cbn.
  assert (Hflag : ∀ row, Access.tiers (access (profiles s)) !! (sid, ty, nm) = Some row →
    bool_decide (perm_key sid ty nm ∈ granted s pid) = bool_decide ((pid, sid, ty, nm) ∈ permissions (profiles s))).
  { intros row Hrow. apply bool_decide_ext. destruct Hwf as [Hacc Hperm]. destruct (Hacc _ _ Hrow) as (Hsrv & Hty & _).
    apply elem_of_granted; [done..|by apply Hids|done]. }
  split.
  - intros (sec & Hsec & Hid & Hrow). apply list_elem_of_omap in Hsec as (srv & Hsrv & E). unfold section_if in E.
    destruct (Access.rows_of (ID srv) _) as [|t l] eqn:Er; [done|]. injection E as <-. cbn in Hid. subst sid.
    cbn [ssEndpoints section_of] in Hrow. rewrite <- Er in Hrow. apply list_elem_of_fmap in Hrow as ([[ty' nm'] row] & E & Hin).
    injection E as -> -> -> ->. apply elem_of_rows_of in Hin. split_and!; [by apply list_elem_of_fmap_2|by exists row|]. by eapply Hflag.
  - intros (Hsrv & (row & Hrow & Ht) & ->). apply list_elem_of_fmap in Hsrv as (srv & -> & Hsrv).
    assert (Hin : ((ty, nm), row) ∈ Access.rows_of (ID srv) (access (profiles s))) by (by apply elem_of_rows_of).
    exists (section_of (granted s pid) srv (Access.rows_of (ID srv) (access (profiles s)))). split_and!; [|done|].
    + apply list_elem_of_omap. exists srv. split; [done|]. unfold section_if. destruct (Access.rows_of _ _); [by apply not_elem_of_nil in Hin|done].
    + cbn. apply list_elem_of_fmap. exists ((ty, nm), row). split; [|done]. rewrite (Hflag row Hrow). by rewrite Ht.
Qed.
End Matrix.

(** ** Granting and revoking *)
Section Grants.
Context (crypto : ConfigEncryptor).

(** The form of one cell of the matrix. *)
Definition cell_form (r : WebAuth.Request) (sid ty nm : string) : Prop :=
  WebAuth.Method r = "POST" ∧ FormValue r "server_id" = sid ∧ FormValue r "endpoint_type" = ty ∧ FormValue r "endpoint_name" = nm ∧
  sid ≠ "" ∧ ty ≠ "" ∧ nm ≠ "".

Definition grants (r : WebAuth.Request) : bool := FormValue r "action" =?s "grant".

Definition after_cell (grant : bool) (x : perm) (P : gset perm) : gset perm := if grant then {[x]} ∪ P else P ∖ {[x]}.

Lemma cell_reply pid r sid ty nm : cell_form r sid ty nm →
  handleProfilePermission pid r =
  ask (on_profiles (if grants r then SetPermission pid sid ty nm else RemovePermission pid sid ty nm)) (λ _, show (StJson 200 [("ok", JBool true)])).
Proof.
  intros (Hm & <- & <- & <- & Hs & Ht & Hn). unfold handleProfilePermission, post_only. rewrite Hm. cbn [String.eqb Ascii.eqb Bool.eqb negb].
  apply String.eqb_neq in Hs, Ht, Hn. by rewrite Hs, Ht, Hn.
Qed.

Lemma cell_change pid sid ty nm (s : Profiles.State) (grant : bool) :
  is_Some (agent_profiles s !! pid) → sid ∈ Access.servers (access s) → Access.valid_type ty = true →
  (if grant then SetPermission pid sid ty nm else RemovePermission pid sid ty nm) (healthy s) =
  (Ok tt, healthy (with_perms s (after_cell grant (pid, sid, ty, nm) (permissions s)))).
Proof.
  intros Hp Hs Ht. destruct grant; [|done]. unfold SetPermission. rewrite exec_healthy, Ht. cbn [negb].
  unfold perm_ok. cbn [fst snd]. rewrite !bool_decide_eq_true_2, Ht by done. done.
Qed.

Lemma cell_wf pid sid ty nm (s : Profiles.State) grant :
  is_Some (agent_profiles s !! pid) → sid ∈ Access.servers (access s) → Access.valid_type ty = true →
  Profiles.wf s → Profiles.wf (with_perms s (after_cell grant (pid, sid, ty, nm) (permissions s))).
Proof.
  intros Hp Hs Ht [Ha Hw]. split; [done|]. intros x Hx. change (perm_ok s x = true). destruct grant; cbn in Hx.
  - apply elem_of_union in Hx as [->%elem_of_singleton|Hx]; [|by apply Hw]. unfold perm_ok. cbn. by rewrite !bool_decide_eq_true_2, Ht by done.
  - apply elem_of_difference in Hx as [Hx _]. by apply Hw.
Qed.

(** After an administrator has granted or revoked
    one endpoint, the profile page lists exactly the classified endpoints of the listed
    servers, each with the answer the proxy's permission check gives for it; that answer
    is the posted one for this endpoint and the old one for all others. *)
Theorem matrix_shows_what_is_checked w s servers pid profile r sid ty nm :
  site_ok crypto w s servers → agent_profiles (profiles s) !! pid = Some profile →
  cell_form r sid ty nm → sid ∈ Access.servers (access (profiles s)) → Access.valid_type ty = true →
  let w1 := (handleProfilePermission pid r w).2 in
  ∃ s1, site_ok crypto w1 s1 servers ∧
    (∀ sid' ty' nm' tier allowed,
       shows_row (handleProfileDetail crypto pid w1).1 sid' ty' nm' tier allowed ↔
       sid' ∈ map ID servers ∧
       (∃ row, Access.tiers (access (profiles s)) !! (sid', ty', nm') = Some row ∧ Access.AccessTier row = tier) ∧
       outcome (CheckPermission pid sid' ty' nm') (healthy (profiles s1)) = Ok allowed) ∧
    outcome (CheckPermission pid sid ty nm) (healthy (profiles s1)) = Ok (grants r) ∧
    (∀ p' sid' ty' nm', (p', sid', ty', nm') ≠ (pid, sid, ty, nm) →
       outcome (CheckPermission p' sid' ty' nm') (healthy (profiles s1)) = outcome (CheckPermission p' sid' ty' nm') (healthy (profiles s))).
Proof.
  intros Hok Hp Hc Hs Ht w1. pose proof Hok as [Hd Hwf Hids Hsrv].
  set (p1 := with_perms (profiles s) (after_cell (grants r) (pid, sid, ty, nm) (permissions (profiles s)))).
  assert (Ew : w1 = with_identity w (healthy (Users.with_profiles s p1))).
  { subst w1. rewrite (cell_reply pid r sid ty nm Hc).
    rewrite (ask_profiles _ s tt p1); [done|done|]. apply cell_change; [by eexists|done..]. }
  assert (Hok1 : site_ok crypto w1 (Users.with_profiles s p1) servers).
  { rewrite Ew. split; [done| |done|done]. apply cell_wf; [by eexists|done..]. }
  exists (Users.with_profiles s p1). split; [done|]. split_and!.
  - intros sid' ty' nm' tier allowed. rewrite (detail_shows crypto w1 (Users.with_profiles s p1) servers pid profile) by done.
    unfold outcome, CheckPermission, query. rewrite exec_healthy. cbn [fst]. split; intros (H1 & H2 & H3); (split_and!; [done|done|congruence]).
  - unfold outcome, CheckPermission, query. rewrite exec_healthy. cbn [fst]. f_equal. unfold p1, after_cell. cbn [profiles Users.with_profiles permissions with_perms].
    destruct (grants r); [apply bool_decide_eq_true_2|apply bool_decide_eq_false_2]; set_solver.
  - intros p' sid' ty' nm' Hne. unfold outcome, CheckPermission, query. rewrite !exec_healthy. cbn [fst]. f_equal. apply bool_decide_ext.
    unfold p1, after_cell. cbn [profiles Users.with_profiles permissions with_perms]. destruct (grants r); set_solver.
Qed.

(** When the statement behind a granted or
    revoked permission fails, the form answers that it succeeded and nothing has changed,
    so a permission that was to be revoked stays in force. *)
Theorem permission_answer_hides_failure w pid r sid ty nm fs :
  cell_form r sid ty nm → faults (db (site w)) = true :: fs →
  let res := handleProfilePermission pid r w in
  res.1 = StJson 200 [("ok", JBool true)] ∧ tables (db (site res.2)) = tables (db (site w)).
Proof.
  intros Hc Hf res. subst res. rewrite (cell_reply pid r sid ty nm Hc). unfold ask, on_profiles, lift_db.
  destruct w as [[[t f] l i k] sd]. cbn in Hf. subst f. destruct (grants r); cbn; by destruct t.
Qed.
End Grants.

(** ** Keys are shown to their owners *)

Lemma own_keys_only uid d l d' : ListAPIKeys uid d = (Ok l, d') → Forall (λ k, kUserID k = uid) l.
Proof.
  unfold ListAPIKeys, query, exec. destruct (next_fault (faults d)) as [[] fs]; [done|]. intros [= <- _]. apply Forall_forall.
  intros k. rewrite elem_of_stable_sort. intros ([id row] & Hin & E)%list_elem_of_omap.
  destruct (r_user_id row =?s uid) eqn:Eu; [|done]. injection E as <-. cbn. by apply String.eqb_eq.
Qed.

(** Whatever a user who is no administrator asks the key page
    for, and whichever statements fail, the page lists only that user's own keys, no key
    of anybody else, and no profile but the user's own; the secret of a new key is shown
    only to who brings its nonce, and is gone afterwards. *)
Theorem key_page_scoped user q w p w' :
  is_administrator user = false → handleAPIKeys user q w = (StKeys p, w') →
  Forall (λ k, kUserID k = uID user) (kpKeys p) ∧ kpFleet p = [] ∧
  Forall (λ x, Some x.1 = uDefaultProfileID user) (kpProfiles p) ∧
  (kpNewKey p = None ∨ ∃ n, q !! "new" = Some n ∧ flashKeys (site w) !! n = kpNewKey p ∧ flashKeys (site w') !! n = None).
Proof.
  intros Ha. unfold handleAPIKeys. rewrite Ha. cbn [negb]. rewrite andb_true_r. destruct (default "" (q !! "all") =?s "1"); [done|].
  unfold ask at 1. destruct (ListAPIKeys (uID user) (db (site w))) as [[own|e] d] eqn:Ek; [|done]. apply own_keys_only in Ek.
  set (w1 := with_identity w d). assert (Hf : flashKeys (site w1) = flashKeys (site w)) by done. clearbody w1.
  assert (Hfin : ∀ ps w2, flashKeys (site w2) = flashKeys (site w) → Forall (λ x, Some x.1 = uDefaultProfileID user) ps →
    (if default "" (q !! "new") =?s "" then show (StKeys (mkKeysPage false own [] ps None false))
     else take_flash (default "" (q !! "new")) (λ k, show (StKeys (mkKeysPage false own [] ps k (bool_decide (k = None)))))) w2 = (StKeys p, w') →
    Forall (λ k, kUserID k = uID user) (kpKeys p) ∧ kpFleet p = [] ∧ Forall (λ x, Some x.1 = uDefaultProfileID user) (kpProfiles p) ∧
    (kpNewKey p = None ∨ ∃ n, q !! "new" = Some n ∧ flashKeys (site w) !! n = kpNewKey p ∧ flashKeys (site w') !! n = None)).
  { intros ps w2 H2 Hps. unfold take_flash, show. destruct (q !! "new") as [n|] eqn:En; cbn [default]; [|intros [= <- _]; auto].
    cbn [id]. destruct (n =?s ""); [intros [= <- _]; auto|]. intros [= <- <-]. cbn. split_and!; try done.
    right. exists n. rewrite H2. split_and!; [done|done|apply lookup_delete_eq]. }
  destruct (uDefaultProfileID user) as [pid|] eqn:Epid.
  - unfold ask. destruct (on_profiles (Profiles.Get pid) (db (site w1))) as [res d1]. apply Hfin; [done|].
    destruct res; [|constructor]. by repeat constructor.
  - by apply Hfin.
Qed.

(** ** Witnesses *)
Definition pp_state : Users.State :=
  Users.mkState (Profiles.mkState (Access.mkState {["srv"]} {[("srv", "tool", "get_x") := Access.mkTier "read" true]})
                   {["p" := mkProfile "agents" "" 0 0]} {[("p", "srv", "tool", "get_x")]}) ∅ ∅ ∅ ∅ ∅ ∅ ∅.

Definition pp_server : Server := mkServer "srv" "files" "Files" "remote" "{}" "running" "" "healthy" None "" false 0 0.

Definition pp_world (fs : list bool) : SiteWorld :=
  mkSite (WebAuth.mkWorld (mkDb pp_state fs) newLoginRateLimiter newLoginRateLimiter {["n" := "raw"]}) (healthy {["srv" := pp_server]}).

Definition pp_admin : User := mkUser "a" "root" "" "admin" "admin" None false 0 None "".
Definition pp_guest : User := mkUser "g" "guest" "" "user" "read" (Some "p") false 0 None "".

Definition pp_revoke : WebAuth.Request :=
  WebAuth.mkRequest "POST" "/profiles/p/permission" "" "" "" "" "" None
    (list_to_map [("server_id", "srv"); ("endpoint_type", "tool"); ("endpoint_name", "get_x"); ("action", "revoke")]) [] "".

Lemma pp_cell : cell_form pp_revoke "srv" "tool" "get_x".
Proof. split_and!; try reflexivity; discriminate. Defined.

Lemma profile_pages_guarded_witness :
  tables (db (site (profiles_mux (mkEncryptor None) 0 "u" pp_guest pp_revoke (pp_world [])).2)) = pp_state.
Proof. apply (profile_pages_guarded (mkEncryptor None) 0 "u" pp_guest pp_revoke (pp_world []) eq_refl). Defined.

Lemma matrix_shows_what_is_checked_witness :
  ∃ s1, outcome (CheckPermission "p" "srv" "tool" "get_x") (healthy (profiles s1)) = Ok false ∧
    shows_row (handleProfileDetail (mkEncryptor None) "p" (handleProfilePermission "p" pp_revoke (pp_world [])).2).1 "srv" "tool" "get_x" "read" false.
Proof.
  destruct (matrix_shows_what_is_checked (mkEncryptor None) (pp_world []) pp_state [pp_server] "p" (mkProfile "agents" "" 0 0) pp_revoke
    "srv" "tool" "get_x") as (s1 & _ & Hrows & Hcell & _).
  - split; try reflexivity.
    + split; [apply map_Forall_singleton; split_and!; [set_solver|reflexivity..]|].
      intros x Hx. change (x ∈ ({[("p", "srv", "tool", "get_x")]} : gset perm)) in Hx. apply elem_of_singleton in Hx as ->. vm_compute. reflexivity.
    + intros sid Hsid. change (sid ∈ ({["srv"]} : gset string)) in Hsid. apply elem_of_singleton in Hsid as ->. reflexivity.
  - reflexivity.
  - exact pp_cell.
  - change ("srv" ∈ ({["srv"]} : gset string)). by apply elem_of_singleton.
  - reflexivity.
  - exists s1. split; [exact Hcell|]. apply Hrows. split_and!; [left|eexists; split; reflexivity|exact Hcell].
Defined.

Lemma permission_answer_hides_failure_witness :
  let res := handleProfilePermission "p" pp_revoke (pp_world [true]) in
  res.1 = StJson 200 [("ok", JBool true)] ∧ ("p", "srv", "tool", "get_x") ∈ permissions (profiles (tables (db (site res.2)))).
Proof.
  destruct (permission_answer_hides_failure (pp_world [true]) "p" pp_revoke "srv" "tool" "get_x" [] pp_cell eq_refl) as [H1 H2].
  split; [exact H1|]. cbv zeta in H2. rewrite H2.
  change (("p", "srv", "tool", "get_x") ∈ ({[("p", "srv", "tool", "get_x")]} : gset perm)). by apply elem_of_singleton.
Defined.

Definition pp_keys : KeysPage := mkKeysPage false [] [] [("p", mkProfile "agents" "" 0 0)] (Some "raw") false.

Definition pp_after : SiteWorld :=
  mkSite (WebAuth.mkWorld (mkDb pp_state []) newLoginRateLimiter newLoginRateLimiter (delete "n" {["n" := "raw"]})) (healthy {["srv" := pp_server]}).

Lemma pp_keys_shown : handleAPIKeys pp_guest {["new" := "n"]} (pp_world []) = (StKeys pp_keys, pp_after).
Proof. reflexivity. Defined.

Lemma key_page_scoped_witness :
  handleAPIKeys pp_guest {["new" := "n"]} (pp_world []) = (StKeys pp_keys, pp_after) ∧
  Forall (λ k, kUserID k = "g") (kpKeys pp_keys) ∧ kpFleet pp_keys = [].
Proof.
  split; [exact pp_keys_shown|].
  destruct (key_page_scoped pp_guest {["new" := "n"]} (pp_world []) pp_keys pp_after eq_refl pp_keys_shown) as (Hown & Hfleet & _).
  split; [exact Hown|exact Hfleet].
Defined.
