(* ===== verification/ServerPages.v ===== *)
(** * The server pages

    The server list, the detail page and the actions of [src/internal/web/handlers.go]
    behind [/servers] and [/servers/], and the desktop page.  They run behind
    [requireAuth] ([WebAuth]); the forms themselves are in [ServerForm], the middleware
    switch in [MiddlewarePages].  What Docker, the backends and the model answer is given
    to a request; a page is represented by what its template is given.  The health monitor
    and the stores are present, as the relay wires them. *)
From stdpp Require Import pretty.
From S2P Require Import Prelude GoStrings Json JsonDecode AccessTiers Base64 Crypto Profiles Users Sessions WebAuth Servers Mcp.
From S2P Require Import ToolOptimize Enumerate Middleware Optimizer ServerManager HealthMonitor ServerApi ServerForm.
From S2P Require ArchiveQueue ArchiveDispatcher RequestLogs MiddlewarePages.

(** ** What a configuration shows *)

Record ConfigDisplay := mkDisplay {
  cdImage : string; cdCommand : string; cdPort : Z; cdURL : string; cdHealthCheck : string; cdAuthType : string;
  cdEnvKeys : list string; cdEnvVars : gmap string string; cdOAuthAuthorized : bool; cdOAuthScopes : string; cdOAuthTokenExpiry : string;
  cdBuild : option BuildConfig; cdBuildCustom : bool; cdIsDocker : bool;
  cdImageID : string; cdImageCreated : string; cdImageAge : string; cdContainerImageID : string; cdImageStale : bool }.

Definition no_display : ConfigDisplay := mkDisplay "" "" 0 "" "" "" [] ∅ false "" "" None false false "" "" "" "" false.

(** As in [serverToFormData], a configuration that does not decode shows its zero value. *)
Definition buildConfigDisplay (srv : Server) : ConfigDisplay :=
  let ty := ServerType srv in
  if ty =?s "stdio" then
    let c := default (mkStdio "" None [] [] ∅) (decode_stdio (Config srv)) in
    mkDisplay (sImage c) (Join (sCommand c) " ") 0 "" "" "" (envKeys (sEnv c)) (sEnv c) false "" "" (sBuild c)
      (from_option (λ b, bDockerfile b !=? "") false (sBuild c)) true "" "" "" "" false
  else if ty =?s "http" then
    let c := default (mkHTTP "" 0 ∅ "" "") (decode_http (Config srv)) in
    mkDisplay (hImage c) "" (hPort c) (hURL c) (hHealthCheck c) "" (envKeys (hEnv c)) (hEnv c) false "" "" None false
      ((hImage c !=? "") && (hURL c =?s "")) "" "" "" "" false
  else if ty =?s "remote" then
    let c := default (mkRemoteConfig "" zero_auth) (decode_remote_config (Config srv)) in
    let a := rmAuth c in
    let oauth := aType a =?s "oauth" in
    mkDisplay "" "" 0 (rmURL c) "" (aType a) [] ∅ (oauth && (aAccessToken a !=? "")) (if oauth then aScopes a else "")
      (if oauth then aTokenExpiry a else "") None false false "" "" "" "" false
  else no_display.

(** Durations in nanoseconds; hours and days are taken as whole numbers where the code
    divides floating-point numbers. *)
Definition humanizeAge (now t : Z) : string :=
  let d := (now - t)%Z in
  if (d <? minute)%Z then "just now"
  else if (d <? hour)%Z then pretty (d / minute)%Z +:+ " minutes ago"
  else if (d <? 24 * hour)%Z then
    if (d / hour =? 1)%Z then "1 hour ago" else pretty (d / hour)%Z +:+ " hours ago"
  else if (d / (24 * hour) =? 1)%Z then "1 day ago" else pretty (d / (24 * hour))%Z +:+ " days ago".

(** What Docker knows of the image a tag names now (id and creation time) and of the image
    a container was started from. *)
Record ImageInfo := mkImages { InspectImage : string → option (string * option Z); GetContainerImageID : string → option string }.

Definition with_staleness (formatTime : Z → string) (now : Z) (images : option ImageInfo) (container : option string) (cd : ConfigDisplay) :
    ConfigDisplay :=
  match images with
  | None => cd
  | Some im =>
      if cdImage cd =?s "" then cd
      else
        let info := InspectImage im (cdImage cd) in
        let imageID := from_option fst "" info in
        let created := info ≫= snd in
        let running := container ≫= GetContainerImageID im in
        mkDisplay (cdImage cd) (cdCommand cd) (cdPort cd) (cdURL cd) (cdHealthCheck cd) (cdAuthType cd) (cdEnvKeys cd) (cdEnvVars cd)
          (cdOAuthAuthorized cd) (cdOAuthScopes cd) (cdOAuthTokenExpiry cd) (cdBuild cd) (cdBuildCustom cd) (cdIsDocker cd)
          imageID (from_option formatTime "" created) (from_option (humanizeAge now) "" created) (default "" running)
          (from_option (λ r, (imageID !=? "") && (imageID !=? r)) false running)
  end.

(** ** Pages *)

Record ToolRow := mkToolRow { trStat : ToolStat; trOptimized : option (nat * nat) }.

Record AuditView := mkAuditView {
  vToolCount : nat; vOriginalChars : nat; vToolsHash : string; vLLMAvailable : bool; vStatus : option string; vIsStale : bool;
  vOptimizedChars : option Z; vTools : list ToolRow }.

Record MiddlewareCard := mkCard {
  mcDescriptor : Registry.Descriptor; mcEnabled : bool; mcConfig : string; mcGlobalArchive : option string;
  mcQueue : option (ArchiveDispatcher.circuit * ArchiveQueue.ArchiveQueueStatus) }.

Record AdminView := mkAdminView {
  avConfig : ConfigDisplay; avTiers : gmap string string; avUsage : gmap string RequestLogs.EndpointCallCount;
  avLogs : list RequestLogs.RequestLog; avCards : list MiddlewareCard; avEvents : list MwStore.MiddlewareEvent;
  avAudit : option AuditView }.

Record ServersPage := mkServersPage {
  spServers : list Server; spRunning : nat; spError : nat; spStopped : nat; spEndpoints : gmap string nat; spCalls : gmap string Z }.

Inductive ServerPage :=
| VpNotFound
| VpStatus (code : Z) (msg : string)
| VpRedirect (location : string)
| VpJson (code : Z) (fields : list (string * json))
| VpServers (p : ServersPage)
| VpDesktop (running : list Server)
| VpDetail (srv : Server) (endpoints : option ServerEndpoints) (admin : option AdminView)
| VpForm (p : FormPage)
| VpMiddleware (r : MiddlewarePages.MwReply)
| VpStream (progress : list string) (last : string * string)
| VpAudit (a : ToolAudit).

Record PageWorld := mkPages { papi : ApiWorld; pmw : MiddlewarePages.MwWorld; plog : Db RequestLogs.State }.

Definition PageHandler : Type := PageWorld → ServerPage * PageWorld.

Definition vpage (p : ServerPage) : PageHandler := λ w, (p, w).

Definition with_papi (w : PageWorld) (a : ApiWorld) : PageWorld := mkPages a (pmw w) (plog w).
Definition with_pmw (w : PageWorld) (m : MiddlewarePages.MwWorld) : PageWorld := mkPages (papi w) m (plog w).
Definition with_plog (w : PageWorld) (d : Db RequestLogs.State) : PageWorld := mkPages (papi w) (pmw w) d.

Definition posted (method : string) (k : PageHandler) : PageHandler :=
  if method !=? "POST" then vpage (VpStatus 405 "Method not allowed") else k.

(** A store call whose error is dropped for the zero value. *)
Definition or_zero {A} (r : result A) (zero : A) : A := match r with Ok a => a | Err _ => zero end.

Definition ask_log {A} (m : DBM RequestLogs.State A) (zero : A) (k : A → PageHandler) : PageHandler := λ w,
  let '(r, d) := m (plog w) in k (or_zero r zero) (with_plog w d).

Definition ask_mw {A} (m : DBM MwStore.Tables A) (zero : A) (k : A → PageHandler) : PageHandler := λ w,
  let '(r, d) := m (mdb (MiddlewarePages.pst (pmw w))) in k (or_zero r zero) (with_pmw w (MiddlewarePages.with_store (pmw w) d)).

Definition ask_api {A} (m : ApiWorld → A * ApiWorld) (k : A → PageHandler) : PageHandler := λ w,
  let '(a, d) := m (papi w) in k a (with_papi w d).

Definition on_people {A} (m : DBM Users.State A) (w : ApiWorld) : result A * ApiWorld :=
  let '(r, d) := m (idb w) in (r, with_idb w d).
Definition on_servers {A} (m : DBM Servers.State A) (w : ApiWorld) : result A * ApiWorld :=
  let '(r, d) := m (sdb (manager w)) in (r, with_servers w d).
Definition on_tiers {A} (m : DBM Access.State A) (w : ApiWorld) : result A * ApiWorld :=
  let '(r, d) := m (adb (manager w)) in (r, with_manager w (with_adb (manager w) d)).
Definition on_opts {A} (m : DBM Optimizer.Tables A) (w : ApiWorld) : result A * ApiWorld :=
  let '(r, d) := m (odb (manager w)) in (r, with_opts w d).

Section Pages.
Context `{Hashing} (crypto : ConfigEncryptor) (env : Env) (send : Mcp.Request → result Response) (ping : result (option Response)).
Context (gen : result string) (llmAvailable : bool) (model : string).
(** [nacl] names keys, [iter] is an order of map iteration, [dispatcher] tells whether the
    archive is set up; [images] is nil without Docker. *)
Context (nacl : ArchiveDispatcher.NaCl) (iter : list string) (dispatcher : bool) (images : option ImageInfo) (formatTime : Z → string).
(** Redirects and forms: [url.Parse] and the text of a URL, the host and the referer of the
    request, the resolver, discovery and registration. *)
Context (parse : string → option URL) (show : string → string → string) (host referer : string).
Context (ParseIP : string → option IP) (LookupHost : string → option (list string)) (discover : string → option Discovery)
  (register : string → option (string * string)) (callbackURL : string).

Definition server_path (id : string) : string := "/servers/" +:+ id.
Definition back (id : string) : ServerPage := VpRedirect (redirectBack parse show host referer (server_path id)).

(** *** Listing *)

Definition visible_servers (user : User) (k : list Server → PageHandler) : PageHandler :=
  ask_api (on_servers (ListServers crypto)) (λ all,
    let all := or_zero all [] in
    ask_api (on_people (accessibleServers user (map ID all))) (λ ids,
      k (List.filter (λ s, bool_decide (ID s ∈ or_zero ids [])) all))).

Definition endpoint_counts (cache : EndpointCache) (l : list Server) : gmap string nat :=
  list_to_map (omap (λ s, e ← cache_get (ID s) cache; Some (ID s, length (ETools e) + length (EResources e) + length (EPrompts e))) l).

Definition with_status (p : string → bool) (l : list Server) : nat := length (List.filter (λ s, p (Status s)) l).

Definition handleServersList (user : User) : PageHandler :=
  visible_servers user (λ l w,
    let page calls := VpServers (mkServersPage l (with_status (λ x, x =?s "running") l)
      (with_status (λ x, (x !=? "running") && (x !=? "stopped")) l) (with_status (λ x, x =?s "stopped") l)
      (endpoint_counts (Endpoints (manager (papi w))) l) calls) in
    if uRole user =?s "admin" then ask_log RequestLogs.ServerTotalCounts ∅ (λ c, vpage (page c)) w
    else (page ∅, w)).

Definition handleConnectDesktop (user : User) : PageHandler :=
  visible_servers user (λ l, vpage (VpDesktop (List.filter (λ s, Status s =?s "running") l))).

(** *** The detail page *)

Definition tier_map (rows : list ((string * string) * Access.EndpointTier)) : gmap string string :=
  foldl (λ m '((ty, nm), row), <[Access.ep_key ty nm := Access.AccessTier row]> m) ∅ rows.

Definition usage_map (l : list RequestLogs.EndpointCallCount) : gmap string RequestLogs.EndpointCallCount :=
  foldl (λ m c, <[RequestLogs.ecName c := c]> m) ∅ l.

(** The row the scan of [GetForServer] gives a name. *)
Definition config_of (configs : list MwStore.MiddlewareConfig) (name : string) : option MwStore.MiddlewareConfig :=
  last (List.filter (λ c, MwStore.Middleware c =?s name) configs).

Definition card (configs : list MwStore.MiddlewareConfig) (desc : Registry.Descriptor) (global : option string)
    (status : option (ArchiveDispatcher.circuit * ArchiveQueue.ArchiveQueueStatus)) : MiddlewareCard :=
  let mc := config_of configs (Registry.DName desc) in
  mkCard desc (from_option MwStore.Enabled false mc) (from_option MwStore.Config "" mc) global status.

Definition archive_data (k : option string → option (ArchiveDispatcher.circuit * ArchiveQueue.ArchiveQueueStatus) → PageHandler) : PageHandler :=
  ask_mw (MwStore.GetGlobal "archive") None (λ g w,
    let shown := MiddlewarePages.decorateArchiveConfigForDisplay nacl ∘ MwStore.Config <$> g in
    if dispatcher then
      let '(st, a) := ArchiveDispatcher.DispatcherStatus (archive (MiddlewarePages.pst (pmw w))) in
      k shown (Some st) (with_pmw w (MiddlewarePages.with_disp (pmw w) a))
    else k shown None w).

(** One card per descriptor, in display order. *)
Fixpoint cards (configs : list MwStore.MiddlewareConfig) (descs : list Registry.Descriptor) (acc : list MiddlewareCard)
    (k : list MiddlewareCard → PageHandler) : PageHandler :=
  match descs with
  | [] => k (rev acc)
  | d :: rest =>
      if Registry.DName d =?s "archive"
      then archive_data (λ g st, cards configs rest (card configs d g st :: acc) k)
      else cards configs rest (card configs d None None :: acc) k
  end.

Definition optimized_row (tools : list Optimizer.Tool) (s : ToolStat) : ToolRow :=
  mkToolRow s (t ← last (List.filter (λ t, Optimizer.TName t =?s SName s) tools);
               Some (String.length (Optimizer.TDescription t), from_option (λ j, String.length (Marshal j)) 0 (Optimizer.TInputSchema t))).

(** The text of a stored schema is what [json.Marshal] wrote. *)
Definition audit_view (tools : list ToolOptimize.Tool) (opt : option ToolOptimization) : AuditView :=
  let '(stats, total) := AuditTools tools in
  let hash := hash_tools tools in
  let rows := map (λ s, mkToolRow s None) stats in
  match opt with
  | None => mkAuditView (length tools) total hash llmAvailable None false None rows
  | Some o =>
      let done := (OptStatus o =?s "ready") || (OptStatus o =?s "stale") in
      mkAuditView (length tools) total hash llmAvailable (Some (OptStatus o)) (ToolsHash o !=? hash)
        (if done then Some (OptimizedChars o) else None)
        (match (if done then Unmarshal (OptimizedTools o) else None) with
         | Some j => match Optimizer.decode_tools (Some j) with Some l => map (optimized_row l) stats | None => rows end
         | None => rows
         end)
  end.

Definition audit_of (id : string) (endpoints : option ServerEndpoints) (k : option AuditView → PageHandler) : PageHandler :=
  match ETools <$> endpoints with
  | None | Some [] => k None
  | Some tools => ask_api (on_opts (Optimizer.Get id)) (λ o, k (Some (audit_view tools (or_zero o None))))
  end.

Definition admin_view (srv : Server) (endpoints : option ServerEndpoints) (k : AdminView → PageHandler) : PageHandler :=
  ask_api (on_tiers (Access.GetAllTiers (ID srv))) (λ tiers,
  ask_log (RequestLogs.EndpointCounts (ID srv)) [] (λ counts,
  ask_log (RequestLogs.ByServer (ID srv) 20) [] (λ logs,
  ask_mw (MwStore.GetForServer iter (ID srv)) [] (λ configs,
  ask_mw (MwStore.RecentEvents (ID srv) 20) [] (λ events,
  cards configs Registry.Descriptors [] (λ cs,
  audit_of (ID srv) endpoints (λ audit w,
    k (mkAdminView (with_staleness formatTime (e_now env) images (containers (manager (papi w)) !! ID srv) (buildConfigDisplay srv))
         (tier_map (or_zero tiers [])) (usage_map counts) logs cs events audit) w))))))).

Definition handleServerDetail (user : User) (id : string) : PageHandler :=
  ask_api (get_server crypto id) (λ r,
    match r with
    | Ok (Some srv) =>
        ask_api (on_people (canAccessServer user id)) (λ ok,
          if negb (or_zero ok false) then vpage VpNotFound
          else λ w,
            let endpoints := cache_get (ID srv) (Endpoints (manager (papi w))) in
            if uRole user =?s "admin" then admin_view srv endpoints (λ v, vpage (VpDetail srv endpoints (Some v))) w
            else (VpDetail srv endpoints None, w))
    | _ => vpage VpNotFound
    end).

(** *** Actions on a server *)

Definition reset_recovery (id : string) (a : ApiWorld) : ApiWorld := with_hw a (with_mon (hw a) (ResetRecoveryState id (mon (hw a)))).

(** Load the server, let the manager run, and give a server that came up a fresh recovery
    record; errors are only logged. *)
Definition manage (run : Server → World → result unit * World) (reset : bool) (id : string) (k : result unit → ServerPage) : PageHandler :=
  ask_api (get_server crypto id) (λ r,
    match r with
    | Ok (Some srv) => ask_api (λ a, let '(r, m) := run srv (manager a) in
                         let a := with_manager a m in (r, if is_ok r && reset then reset_recovery id a else a)) (λ r, vpage (k r))
    | _ => vpage VpNotFound
    end).

Local Abbreviation start := (StartServer crypto (e_docker env) (e_git env) (e_tokens env) (e_nonce env) (e_now env)).
Local Abbreviation stop := (StopServer (e_docker env) (e_now env)).

(** What is left of a server in error state is cleared first. *)
Definition start_clean (id : string) (srv : Server) (m : World) : result unit * World :=
  start srv (if Status srv =?s "error" then stop id m else m).

Definition handleServerStart (method id : string) : PageHandler := posted method (manage (start_clean id) true id (λ _, back id)).

Definition handleServerStop (method id : string) : PageHandler :=
  posted method (ask_api (λ a, (tt, with_manager a (stop id (manager a)))) (λ _, vpage (back id))).

Definition handleServerDelete (method id : string) : PageHandler :=
  posted method (ask_api (λ a, (tt, with_manager a (stop id (manager a)))) (λ _,
    ask_api (on_servers (Servers.Delete id)) (λ r,
      match r with Err e => vpage (VpStatus 500 ("Failed to delete server: " +:+ e)) | Ok _ => vpage (VpRedirect "/") end))).

Definition handleServerEnumerate (method id : string) : PageHandler :=
  posted method (ask_api (λ a, let '(_, _, m) := EnumerateServer (e_now env) send id (manager a) in (tt, with_manager a m))
    (λ _, vpage (VpRedirect (server_path id)))).

Definition handleServerHealthCheck (method id : string) : PageHandler :=
  posted method (ask_api (λ a, let '(_, h) := CheckHealth (e_now env) ping id (hw a) in (tt, with_hw a h))
    (λ _, vpage (VpRedirect (server_path id)))).

Definition handleServerRebuild (method id : string) : PageHandler :=
  posted method (manage (RebuildImage crypto (e_docker env) (e_git env) (e_nonce env) (e_now env)) false id (λ _, back id)).

Definition handleServerRebuildRestart (method id : string) : PageHandler :=
  posted method (manage (RebuildAndRestart crypto (e_docker env) (e_git env) (e_tokens env) (e_nonce env) (e_now env)) true id (λ _, back id)).

Definition recreate (pull : bool) : Server → World → result unit * World :=
  if pull then PullAndRecreateContainer crypto (e_docker env) (e_git env) (e_tokens env) (e_nonce env) (e_now env)
  else RecreateContainer crypto (e_docker env) (e_git env) (e_tokens env) (e_nonce env) (e_now env).

Definition handleServerRecreate (method id : string) (f : gmap string string) : PageHandler :=
  posted method (manage (recreate (fv f "pull" =?s "1")) true id (λ _, back id)).

(** [strings.ReplaceAll] of the angle brackets. *)
Fixpoint no_tags (s : string) : string :=
  match s with
  | EmptyString => ""
  | String c r => (if Ascii.eqb c "<"%char then "&lt;" else if Ascii.eqb c ">"%char then "&gt;" else String c "") +:+ no_tags r
  end.

Definition stream_end (r : result unit) : string * string :=
  match r with Err e => ("error", no_tags e) | Ok _ => ("done", "Container recreated successfully") end.

Definition handleRecreateStream (method id : string) (f : gmap string string) : PageHandler :=
  posted method (ask_api (get_server crypto id) (λ r,
    match r with
    | Ok (Some srv) =>
        ask_api (λ a,
          let '(msgs, (r, m)) := RecreateWithProgress crypto (e_docker env) (e_git env) (e_tokens env) (e_nonce env) (e_now env)
                                   srv (fv f "pull" =?s "1") (manager a) in
          let a := with_manager a m in ((msgs, r), if is_ok r then reset_recovery id a else a))
          (λ '(msgs, r), vpage (VpStream msgs (stream_end r)))
    | _ => vpage VpNotFound
    end)).

Definition handleAccessTier (user : User) (method body id : string) : PageHandler :=
  posted method
    (if uRole user !=? "admin" then vpage (VpStatus 403 "Admin access required")
     else match (l ← body_fields body; t ← decode_string_field "endpoint_type" l ""; n ← decode_string_field "endpoint_name" l "";
                 a ← decode_string_field "access_tier" l ""; Some (t, n, a)) with
     | None => vpage (VpJson 400 [("error", JStr "invalid request body")])
     | Some (ty, nm, tier) =>
         if (tier !=? "read") && (tier !=? "write") && (tier !=? "admin") then vpage (VpJson 400 [("error", JStr "invalid access tier")])
         else ask_api (on_tiers (Access.SetTier id ty nm tier)) (λ r,
           match r with
           | Err _ => vpage (VpJson 500 [("error", JStr "failed to set tier")])
           | Ok _ => vpage (VpJson 200 [("status", JStr "ok")])
           end)
     end).

(** *** Optimization *)

Definition page_row (hash : string) (total : nat) : ToolOptimization := mkOpt "" hash (Z.of_nat total) 0 "[]" "v1.1" model "running" "" 0 0.

Definition running_reply (msg : string) : ServerPage := VpJson 200 [("status", JStr "running"); ("message", JStr msg)].

(** An error of the first statement is only logged: the job starts all the same. *)
Definition handleServerOptimize (method id : string) : PageHandler :=
  if method !=? "POST" then vpage (VpJson 405 [("error", JStr "method not allowed")])
  else if negb llmAvailable then vpage (VpJson 503 [("error", JStr "LLM API key not configured (set ARC_RELAY_LLM_API_KEY)")])
  else ask_api (on_opts (Optimizer.Get id)) (λ existing,
    if bool_decide (OptStatus <$> or_zero existing None = Some "running") then vpage (running_reply "Optimization already in progress")
    else λ w,
      match ETools <$> cache_get id (Endpoints (manager (papi w))) with
      | None | Some [] => (VpJson 404 [("error", JStr "no tools available - server may not be running")], w)
      | Some tools =>
          let hash := hash_tools tools in
          let total := (AuditTools tools).2 in
          ask_api (on_opts (Optimizer.Upsert gen (e_now env) id (page_row hash total)))
            (λ _ w, (running_reply "Optimization started",
                     with_papi w (with_jobs (papi w) (jobs (papi w) ++ [mkJob id tools hash total])))) w
      end).

(** The goroutine behind it. *)
Definition run_page_job (complete : nat → list ToolOptimize.Tool → result string) (job : OptJob) (w : ApiWorld) : ApiWorld :=
  let id := jServerID job in
  let set_error msg := (on_opts (Optimizer.SetStatus (e_now env) id "error" msg) w).2 in
  match OptimizeTools complete llmAvailable (jTools job) with
  | Err e => set_error e
  | Ok optimized =>
      if negb (forallb marshals optimized) then set_error "invalid character"
      else (on_opts (Optimizer.Upsert gen (e_now env) id
        (mkOpt "" (jHash job) (Z.of_nat (jTotal job)) (Z.of_nat (AuditTools optimized).2)
           (Marshal (JArr (map (λ t, Optimizer.tool_json (as_value t)) optimized))) "v1.1" model "ready" "" 0 0)) w).2
  end.

Definition handleServerOptimizeToggle (method body id : string) : PageHandler :=
  if method !=? "POST" then vpage (VpJson 405 [("error", JStr "method not allowed")])
  else match (l ← body_fields body; decode_bool_field "enabled" l false) with
  | None => vpage (VpJson 400 [("error", JStr "invalid request body")])
  | Some enabled =>
      ask_api (on_servers (SetOptimizeEnabled (e_now env) id enabled)) (λ r,
        match r with
        | Err e => vpage (VpJson 500 [("error", JStr ("failed to update: " +:+ e))])
        | Ok _ => vpage (VpJson 200 [("optimize_enabled", JBool enabled)])
        end)
  end.

Definition page_audit (id : string) (srv : Server) (tools : list ToolOptimize.Tool) (opt : option ToolOptimization) : ToolAudit :=
  let '(stats, total) := AuditTools tools in
  let hash := hash_tools tools in
  let audit has opt stale status savings :=
    mkAudit id (Servers.Name srv) (length tools) total opt (total / 4) savings hash has stale status stats in
  match opt with
  | None => audit false 0%Z false "" None
  | Some o =>
      if ((OptStatus o =?s "ready") || (OptStatus o =?s "stale")) && (0 <? total)
      then audit true (OptimizedChars o) (ToolsHash o !=? hash) (OptStatus o)
             (Some ((Z.of_nat total - OptimizedChars o) * 100, Z.of_nat total)%Z)
      else audit true 0%Z (ToolsHash o !=? hash) (OptStatus o) None
  end.

Definition handleServerToolAudit (method id : string) : PageHandler :=
  if method !=? "GET" then vpage (VpJson 405 [("error", JStr "method not allowed")])
  else ask_api (get_server crypto id) (λ r,
    match r with
    | Ok (Some srv) => λ w,
        match ETools <$> cache_get id (Endpoints (manager (papi w))) with
        | None | Some [] => (VpJson 404 [("error", JStr "no tools available")], w)
        | Some tools => ask_api (on_opts (Optimizer.Get id)) (λ o, vpage (VpAudit (page_audit id srv tools (or_zero o None)))) w
        end
    | _ => vpage (VpJson 404 [("error", JStr "server not found")])
    end).

(** *** Routes *)

Definition admin_actions : list string :=
  ["edit"; "start"; "stop"; "delete"; "enumerate"; "rebuild"; "rebuild-restart"; "recreate"; "recreate-stream"; "access-tier";
   "middleware"; "health-check"; "optimize"; "optimize-toggle"; "tool-audit"].

Definition edit_page (r : WebAuth.Request) (id : string) : PageHandler :=
  ask_api (on_servers (handleServerEdit crypto parse ParseIP LookupHost discover register callbackURL (e_nonce env) (e_now env)
    (WebAuth.Method r) id (WebAuth.Form r))) (λ p, vpage (VpForm (or_zero p FpNotFound))).

Definition middleware_page (user : User) (r : WebAuth.Request) (id : string) : PageHandler := λ w,
  let '(rep, m) := MiddlewarePages.handleServerMiddleware (e_now env) gen (Some user) (WebAuth.Method r) (Body r) id (pmw w) in
  (VpMiddleware rep, with_pmw w m).

Definition server_action (user : User) (r : WebAuth.Request) (id action : string) : PageHandler :=
  let method := WebAuth.Method r in
  if action =?s "edit" then edit_page r id
  else if action =?s "start" then handleServerStart method id
  else if action =?s "stop" then handleServerStop method id
  else if action =?s "delete" then handleServerDelete method id
  else if action =?s "enumerate" then handleServerEnumerate method id
  else if action =?s "rebuild" then handleServerRebuild method id
  else if action =?s "rebuild-restart" then handleServerRebuildRestart method id
  else if action =?s "recreate" then handleServerRecreate method id (WebAuth.Form r)
  else if action =?s "recreate-stream" then handleRecreateStream method id (WebAuth.Form r)
  else if action =?s "access-tier" then handleAccessTier user method (Body r) id
  else if action =?s "middleware" then middleware_page user r id
  else if action =?s "health-check" then handleServerHealthCheck method id
  else if action =?s "optimize" then handleServerOptimize method id
  else if action =?s "optimize-toggle" then handleServerOptimizeToggle method (Body r) id
  else handleServerToolAudit method id.

Definition handleServerRoutes (user : User) (r : WebAuth.Request) : PageHandler :=
  let '(id, action) := split_slash (TrimPrefix (Path r) "/servers/") in
  if id =?s "" then vpage (VpRedirect "/")
  else
    let action := default "" action in
    if action =?s "" then handleServerDetail user id
    else if existsb (String.eqb action) admin_actions then
      if uRole user =?s "admin" then server_action user r id action else vpage (VpStatus 403 "Admin access required")
    else vpage VpNotFound.
End Pages.

(** ** Who changes what *)

(** The middleware tables, the queue and the hand-offs stay. *)
Definition mw_same (m m' : MiddlewarePages.MwWorld) : Prop :=
  tables (mdb (MiddlewarePages.pst m')) = tables (mdb (MiddlewarePages.pst m)) ∧
  tables (MiddlewarePages.queue_of m') = tables (MiddlewarePages.queue_of m) ∧
  ArchiveDispatcher.breaker (archive (MiddlewarePages.pst m')) = ArchiveDispatcher.breaker (archive (MiddlewarePages.pst m)) ∧
  MiddlewarePages.handoffs m' = MiddlewarePages.handoffs m.

Definition page_same (w w' : PageWorld) : Prop :=
  read_only (papi w) (papi w') ∧ mw_same (pmw w) (pmw w') ∧ tables (plog w') = tables (plog w).

Definition vreads (h : PageHandler) : Prop := ∀ w, page_same w (h w).2.

Lemma page_same_refl w : page_same w w.
Proof. split_and!; try done. apply read_only_refl. Qed.

Lemma page_same_trans w1 w2 w3 : page_same w1 w2 → page_same w2 w3 → page_same w1 w3.
Proof.
  intros (Ha & (H1 & H2 & H3 & H4) & Hl) (Hb & (H1' & H2' & H3' & H4') & Hl').
  split; [by eapply read_only_trans|]. split; [split_and!; congruence|congruence].
Qed.

Lemma vreads_page p : vreads (vpage p).
Proof. intros w. apply page_same_refl. Qed.

Lemma vreads_api {A} (m : ApiWorld → A * ApiWorld) k :
  (∀ a, read_only a (m a).2) → (∀ x, vreads (k x)) → vreads (ask_api m k).
Proof.
  intros Hm Hk w. unfold ask_api. specialize (Hm (papi w)). destruct (m (papi w)) as [x a]. cbn in Hm.
  eapply page_same_trans; [|apply Hk]. by split_and!.
Qed.

Lemma vreads_log {A} (m : DBM RequestLogs.State A) zero k :
  (∀ P, preserves P m) → (∀ x, vreads (k x)) → vreads (ask_log m zero k).
Proof.
  intros Hm Hk w. unfold ask_log. pose proof (Hm (eq (tables (plog w))) (plog w) eq_refl) as Ht. destruct (m (plog w)) as [r d]. cbn in Ht.
  eapply page_same_trans; [|apply Hk]. split_and!; try done. apply read_only_refl.
Qed.

Lemma vreads_mw {A} (m : DBM MwStore.Tables A) zero k :
  (∀ P, preserves P m) → (∀ x, vreads (k x)) → vreads (ask_mw m zero k).
Proof.
  intros Hm Hk w. unfold ask_mw. pose proof (Hm (eq (tables (mdb (MiddlewarePages.pst (pmw w))))) (mdb (MiddlewarePages.pst (pmw w))) eq_refl) as Ht.
  destruct (m _) as [r d]. cbn in Ht. eapply page_same_trans; [|apply Hk]. split_and!; try done. apply read_only_refl.
Qed.

Lemma people_read {A} (m : DBM Users.State A) a : (∀ P, preserves P m) → read_only a (on_people m a).2.
Proof.
  intros Hm. unfold on_people. pose proof (Hm (eq (tables (idb a))) (idb a) eq_refl) as Ht. destruct (m (idb a)) as [r d]. cbn in Ht.
  split_and!; try done. apply rows_same_refl.
Qed.

Lemma servers_read {A} (m : DBM Servers.State A) a : (∀ P, preserves P m) → read_only a (on_servers m a).2.
Proof.
  intros Hm. unfold on_servers. pose proof (Hm (eq (tables (sdb (manager a)))) (sdb (manager a)) eq_refl) as Ht. destruct (m _) as [r d]. cbn in Ht.
  split_and!; try done. cbn. rewrite <- Ht. apply rows_same_refl.
Qed.

Lemma opts_read {A} (m : DBM Optimizer.Tables A) a : (∀ P, preserves P m) → read_only a (on_opts m a).2.
Proof.
  intros Hm. unfold on_opts. pose proof (Hm (eq (tables (odb (manager a)))) (odb (manager a)) eq_refl) as Ht. destruct (m _) as [r d]. cbn in Ht.
  split_and!; try done. apply rows_same_refl.
Qed.

Lemma preserves_accessible P user ids : preserves P (accessibleServers user ids).
Proof.
  unfold accessibleServers. case_if; [apply preserves_ret|]. destruct (uProfileID user) as [p|]; [|apply preserves_ret].
  apply preserves_bind; [apply preserves_attempt, preserves_lift|intros [l|e]; apply preserves_ret].
  intros d s Ed Hs. unfold ServerIDsForProfile. rewrite query_tables, Ed. by destruct s.
Qed.

Lemma preserves_canAccess P user id : preserves P (canAccessServer user id).
Proof.
  unfold canAccessServer. case_if; [apply preserves_ret|]. destruct (uProfileID user) as [p|]; [|apply preserves_ret].
  apply preserves_bind; [apply preserves_attempt, preserves_lift|intros [l|e]; apply preserves_ret].
  intros d s Ed Hs. unfold ServerIDsForProfile. rewrite query_tables, Ed. by destruct s.
Qed.

Lemma status_reads a : tables (ArchiveDispatcher.queue (ArchiveDispatcher.DispatcherStatus a).2) = tables (ArchiveDispatcher.queue a) ∧
  ArchiveDispatcher.breaker (ArchiveDispatcher.DispatcherStatus a).2 = ArchiveDispatcher.breaker a.
Proof.
  unfold ArchiveDispatcher.DispatcherStatus, ArchiveDispatcher.on_queue.
  assert (Hp : preserves (eq (tables (ArchiveDispatcher.queue a))) ArchiveQueue.Status_).
  { apply preserves_bind; [apply preserves_query|]. intros st. apply preserves_bind; [apply preserves_query|]. intros [i|]; apply preserves_ret. }
  specialize (Hp (ArchiveDispatcher.queue a) eq_refl). destruct (ArchiveQueue.Status_ _) as [[st|e] d]; cbn in *; by rewrite <- Hp.
Qed.

Lemma tiers_read {A} (m : DBM Access.State A) a : (∀ P, preserves P m) → read_only a (on_tiers m a).2.
Proof.
  intros Hm. unfold on_tiers. pose proof (Hm (eq (tables (adb (manager a)))) (adb (manager a)) eq_refl) as Ht. destruct (m _) as [r d]. cbn in Ht.
  split_and!; try done. apply rows_same_refl.
Qed.

Section Guard.
Context `{Hashing} (crypto : ConfigEncryptor) (env : Env) (send : Mcp.Request → result Response) (ping : result (option Response)).
Context (gen : result string) (llmAvailable : bool) (model : string).
Context (nacl : ArchiveDispatcher.NaCl) (iter : list string) (dispatcher : bool) (images : option ImageInfo) (formatTime : Z → string).
Context (parse : string → option URL) (show : string → string → string) (host referer : string).
Context (ParseIP : string → option IP) (LookupHost : string → option (list string)) (discover : string → option Discovery)
  (register : string → option (string * string)) (callbackURL : string).

Lemma vreads_visible user k : (∀ l, vreads (k l)) → vreads (visible_servers crypto user k).
Proof.
  intros Hk. apply vreads_api; [intros a; apply servers_read; intros; apply preserves_ListServers|]. intros all.
  apply vreads_api; [intros a; apply people_read; intros; apply preserves_accessible|]. intros ids. apply Hk.
Qed.

Lemma vreads_archive k : (∀ g st, vreads (k g st)) → vreads (archive_data nacl dispatcher k).
Proof.
  intros Hk. apply vreads_mw; [intros; apply preserves_query|]. intros g w. destruct dispatcher; [|apply Hk].
  pose proof (status_reads (archive (MiddlewarePages.pst (pmw w)))) as [Hq Hb].
  destruct (ArchiveDispatcher.DispatcherStatus _) as [st a]. cbn in Hq, Hb.
  eapply page_same_trans; [|apply Hk]. split_and!; try done. apply read_only_refl.
Qed.

Lemma vreads_cards configs descs acc k : (∀ cs, vreads (k cs)) → vreads (cards nacl dispatcher configs descs acc k).
Proof.
  intros Hk. revert acc. induction descs as [|d descs IH]; intros acc; cbn; [apply Hk|]. case_if; [|apply IH].
  apply vreads_archive. intros g st. apply IH.
Qed.

Lemma vreads_audit id e k : (∀ v, vreads (k v)) → vreads (audit_of llmAvailable id e k).
Proof.
  intros Hk. unfold audit_of. destruct (ETools <$> e) as [[|t l]|]; [apply Hk| |apply Hk].
  apply vreads_api; [intros a; apply opts_read; intros; apply preserves_query|]. intros o. apply Hk.
Qed.

Lemma vreads_admin_view srv e k : (∀ v, vreads (k v)) →
  vreads (admin_view env llmAvailable nacl iter dispatcher images formatTime srv e k).
Proof.
  intros Hk. apply vreads_api; [intros a; apply tiers_read; intros; apply preserves_query|]. intros tiers.
  apply vreads_log; [intros; apply preserves_query|]. intros counts.
  apply vreads_log.
  { intros P. unfold RequestLogs.ByServer, RequestLogs.list_logs. apply preserves_bind; [apply preserves_query|]. intros [l|e'] d Hd; done. }
  intros logs. apply vreads_mw; [intros; apply preserves_query|]. intros configs.
  apply vreads_mw; [intros; apply preserves_query|]. intros events. apply vreads_cards. intros cs.
  apply vreads_audit. intros audit w. apply Hk.
Qed.

Lemma get_server_reads id a : read_only a (get_server crypto id a).2.
Proof. apply get_server_read_only. Qed.

Lemma vreads_detail user id :
  vreads (handleServerDetail crypto env llmAvailable nacl iter dispatcher images formatTime user id).
Proof.
  apply vreads_api; [apply get_server_reads|]. intros [[srv|]|e]; [|apply vreads_page..].
  apply vreads_api; [intros a; apply people_read; intros; apply preserves_canAccess|]. intros ok. case_if; [apply vreads_page|].
  intros w. case_if; [|apply page_same_refl]. apply vreads_admin_view. intros v. apply vreads_page.
Qed.

Lemma vreads_posted method k : method = "GET" → vreads (posted method k).
Proof. intros ->. apply vreads_page. Qed.

Lemma vreads_tool_audit method id : vreads (handleServerToolAudit crypto method id).
Proof.
  unfold handleServerToolAudit. case_if; [apply vreads_page|]. apply vreads_api; [apply get_server_reads|].
  intros [[srv|]|e]; [|apply vreads_page..]. intros w. destruct (ETools <$> _) as [[|t l]|]; [apply page_same_refl| |apply page_same_refl].
  apply vreads_api; [intros a; apply opts_read; intros; apply preserves_query|]. intros o. apply vreads_page.
Qed.

Lemma vreads_edit r id : WebAuth.Method r = "GET" →
  vreads (edit_page crypto env parse ParseIP LookupHost discover register callbackURL r id).
Proof.
  intros Hm. apply vreads_api; [|intros p; apply vreads_page]. intros a. apply servers_read. intros P. unfold handleServerEdit. rewrite Hm.
  apply preserves_bind; [apply preserves_attempt, preserves_Get|]. intros [[srv|]|e]; apply preserves_ret.
Qed.

Lemma vreads_middleware user r id : WebAuth.Method r = "GET" → vreads (middleware_page env gen user r id).
Proof.
  intros Hm w. unfold middleware_page.
  pose proof (MiddlewarePages.admin_post_refused (Some user) (WebAuth.Method r)) as Hr.
  unfold MiddlewarePages.handleServerMiddleware. match goal with |- context [MiddlewarePages.admin_post ?u ?m ?k ?x] =>
    specialize (Hr k x ltac:(left; by rewrite Hm)); destruct (MiddlewarePages.admin_post u m k x) as [rep m'] end.
  cbn in Hr. subst m'. destruct w. apply page_same_refl.
Qed.

Lemma vreads_get_action user r id action : WebAuth.Method r = "GET" →
  vreads (server_action crypto env send ping gen llmAvailable model parse show host referer ParseIP LookupHost discover register callbackURL user r id action).
Proof.
  intros Hm. unfold server_action. cbv zeta. case_if; [by apply vreads_edit|].
  do 9 (case_if; [by apply vreads_posted|]). case_if; [by apply vreads_middleware|]. case_if; [by apply vreads_posted|].
  case_if; [unfold handleServerOptimize; rewrite Hm; apply vreads_page|].
  case_if; [unfold handleServerOptimizeToggle; rewrite Hm; apply vreads_page|]. apply vreads_tool_audit.
Qed.

(** Whatever is requested of the server pages, and whichever
    statements fail, a GET changes nothing and a user who is no administrator changes
    nothing: no table, no backend, no container, no monitor record, no job. *)
Theorem server_pages_guarded user r w :
  uRole user ≠ "admin" ∨ WebAuth.Method r = "GET" →
  page_same w (handleServerRoutes crypto env send ping gen llmAvailable model nacl iter dispatcher images formatTime parse show host referer
                 ParseIP LookupHost discover register callbackURL user r w).2 ∧
  page_same w (handleServersList crypto user w).2 ∧ page_same w (handleConnectDesktop crypto user w).2.
Proof.
  intros Hg. split_and!.
  - revert w. unfold handleServerRoutes. destruct (split_slash _) as [id action]. case_if; [apply vreads_page|]. cbv zeta.
    case_if; [apply vreads_detail|]. case_if; [|apply vreads_page].
    destruct (uRole user =?s "admin") eqn:Ea; [|apply vreads_page]. apply String.eqb_eq in Ea.
    destruct Hg as [Hg|Hg]; [done|]. by apply vreads_get_action.
  - revert w. apply vreads_visible. intros l w. case_if; [|apply page_same_refl].
    apply vreads_log; [intros; apply preserves_query|]. intros c. apply vreads_page.
  - revert w. apply vreads_visible. intros l. apply vreads_page.
Qed.
End Guard.

(** ** Requests that are neither GET nor checked for a token *)

Definition as_post (r : WebAuth.Request) : WebAuth.Request :=
  WebAuth.mkRequest "POST" (Path r) (Authorization r) (Accept r) (XForwardedFor r) (XCSRFToken r) (RemoteAddr r) (SessionCookie r)
    (WebAuth.Form r) (FormCapabilities r) (Body r).

(** A HEAD (or PATCH) request that carries an
    administrator's session cookie and no token at all passes [requireAuth], and the forms
    that create and edit a server take it for a submission: they do exactly what a POST
    with a valid token would do. *)
Theorem head_submits_without_token crypto env parse ParseIP LookupHost discover register callbackURL csrf_mac now r w t cookie user exp id uuid :
  SessionCookie r = Some cookie → db w = healthy t → WebSessions.live_session now cookie t = Some (user, exp) →
  uMustChangePassword user = false → WebAuth.Method r = "HEAD" ∨ WebAuth.Method r = "PATCH" →
  (∀ next, requireAuth csrf_mac now next r w = next user cookie w) ∧
  edit_page crypto env parse ParseIP LookupHost discover register callbackURL r id =
  edit_page crypto env parse ParseIP LookupHost discover register callbackURL (as_post r) id ∧
  handleServerNew crypto parse ParseIP LookupHost discover register callbackURL (Some user) uuid (e_nonce env) now (WebAuth.Method r) (WebAuth.Form r) =
  handleServerNew crypto parse ParseIP LookupHost discover register callbackURL (Some user) uuid (e_nonce env) now "POST" (WebAuth.Form r).
Proof.
  intros Hc Hd Hl Hp Hm. split_and!.
  - intros next. unfold requireAuth, call. rewrite Hc, Hd.
    assert (Hg : WebSessions.Get now cookie (healthy t) = (Ok (Some (user, exp)), healthy t)).
    { unfold WebSessions.Get, db_bind, attempt, query. rewrite exec_healthy. cbn [fst snd]. by rewrite Hl. }
    rewrite Hg, Hp. cbn [andb]. destruct w. cbn in Hd. subst. destruct Hm as [-> | ->]; reflexivity.
  - unfold edit_page, as_post. cbn [WebAuth.Method WebAuth.Form]. destruct Hm as [-> | ->]; reflexivity.
  - destruct Hm as [-> | ->]; reflexivity.
Qed.

(** ** Pages and API *)
Section Agreement.
Context `{Hashing} (crypto : ConfigEncryptor) (env : Env) (gen : result string) (llmAvailable : bool) (model : string).
Context (parse : string → option URL) (show : string → string → string) (host referer : string).

Lemma reset_allows_recovery id a now :
  id ∉ recovering (mon (hw a)) → may_recover now id (mon (hw (reset_recovery id a))) = true.
Proof. intros Hr. unfold may_recover, reset_recovery. cbn. rewrite !lookup_delete_eq. by rewrite bool_decide_eq_false_2. Qed.

(** For an administrator and a server that is found in another state than error, starting, stopping
    and deleting it and switching its optimization on the pages leave the relay in the state the
    management API leaves it in; the one difference is that a server the page has started has its
    whole recovery budget again.  From error the page stops the server first and the API
    does not. *)
Theorem pages_act_like_the_api user w id body srv a1 :
  uAccessLevel user = "admin" → get_server crypto id (papi w) = (Ok (Some srv), a1) → Status srv ≠ "error" →
  (let '(rep, a2) := startServer crypto env (Some user) "POST" id (papi w) in
   let a3 := papi (handleServerStart crypto env parse show host referer "POST" id w).2 in
   (∃ code msg, rep = AError code msg ∧ a3 = a2) ∨
   (rep = AStatus "started" ∧ a3 = reset_recovery id a2 ∧
    ∀ now, id ∉ recovering (mon (hw a2)) → may_recover now id (mon (hw a3)) = true)) ∧
  papi (handleServerStop env parse show host referer "POST" id w).2 = (stopServer env (Some user) "POST" id (papi w)).2 ∧
  papi (handleServerDelete env "POST" id w).2 = (deleteServer env (Some user) id (papi w)).2 ∧
  papi (handleServerOptimizeToggle env "POST" body id w).2 = (toggleOptimize env "POST" body id (papi w)).2.
Proof.
  intros Hu Hg Hs. apply String.eqb_neq in Hs. split_and!.
  - unfold startServer, guard, requireWriteAccess, handleServerStart, posted, manage, ask_api. rewrite Hu.
    cbn [String.eqb Ascii.eqb Bool.eqb negb andb]. rewrite Hg. unfold start_clean. rewrite Hs. cbn [papi with_papi].
    destruct (StartServer crypto _ _ _ _ _ srv (manager a1)) as [[u|e] m]; cbn [is_ok andb].
    + right. split; [done|]. split; [done|]. intros now Hr. by apply reset_allows_recovery.
    + left. eexists _, _. split; reflexivity.
  - unfold stopServer, guard, requireWriteAccess, handleServerStop, posted. by rewrite Hu.
  - unfold deleteServer, guard, requireAdminAccess, handleServerDelete, posted, ask_api, on_servers. rewrite Hu.
    cbn [String.eqb Ascii.eqb Bool.eqb negb andb papi with_papi]. destruct (Servers.Delete id _) as [[u|e] d]; reflexivity.
  - unfold toggleOptimize, handleServerOptimizeToggle, ask_api, on_servers. cbn [String.eqb Ascii.eqb Bool.eqb negb andb].
    destruct (l ← body_fields body; decode_bool_field "enabled" l false) as [b|]; [|done].
    destruct (SetOptimizeEnabled _ _ _ _) as [[u|e] d]; reflexivity.
Qed.
End Agreement.

(** ** Pages leak no container *)
Section Leaks.
Context `{Hashing} (crypto : ConfigEncryptor) (env : Env) (send : Mcp.Request → result Response) (ping : result (option Response)).
Context (gen : result string) (llmAvailable : bool) (model : string).
Context (nacl : ArchiveDispatcher.NaCl) (iter : list string) (dispatcher : bool) (images : option ImageInfo) (formatTime : Z → string).
Context (parse : string → option URL) (show : string → string → string) (host referer : string).
Context (ParseIP : string → option IP) (LookupHost : string → option (list string)) (discover : string → option Discovery)
  (register : string → option (string * string)) (callbackURL : string).

Local Abbreviation refuses := (refused (e_docker env)).

(** A part of a request that leaks nothing but containers Docker refuses to stop. *)
Definition tight {A} (m : ApiWorld → A * ApiWorld) : Prop :=
  ∀ a (R : string → Prop), (∀ c, refuses c → R c) → no_leak R (manager a) → no_leak R (manager (m a).2).

Definition page_tight (h : PageHandler) : Prop :=
  ∀ w (R : string → Prop), (∀ c, refuses c → R c) → no_leak R (manager (papi w)) → no_leak R (manager (papi (h w).2)).

Lemma tight_page p : page_tight (vpage p).
Proof. by intros w R HR Hw. Qed.

Lemma tight_api {A} (m : ApiWorld → A * ApiWorld) k : tight m → (∀ x, page_tight (k x)) → page_tight (ask_api m k).
Proof.
  intros Hm Hk w R HR Hw. unfold ask_api. specialize (Hm (papi w) R HR Hw). destruct (m (papi w)) as [x a]. by apply Hk.
Qed.

Lemma vreads_tight h : vreads h → page_tight h.
Proof.
  intros Hh w R HR Hw. destruct (Hh w) as ((_ & _ & _ & _ & Hb & Hc & Hl & _) & _). unfold no_leak, tracked in *. by rewrite Hb, Hc, Hl.
Qed.

Lemma tight_posted method k : page_tight k → page_tight (posted method k).
Proof. intros Hk. unfold posted. case_if; [apply tight_page|done]. Qed.

Lemma tight_servers {A} (m : DBM Servers.State A) : tight (on_servers m).
Proof. intros a R HR Ha. unfold on_servers. by destruct (m _). Qed.

Lemma tight_tiers {A} (m : DBM Access.State A) : tight (on_tiers m).
Proof. intros a R HR Ha. unfold on_tiers. by destruct (m _). Qed.

Lemma tight_opts {A} (m : DBM Optimizer.Tables A) : tight (on_opts m).
Proof. intros a R HR Ha. unfold on_opts. by destruct (m _). Qed.

Lemma tight_get id : tight (get_server crypto id).
Proof. intros a R HR Ha. unfold get_server. by destruct (Servers.Get _ _ _). Qed.

(** What the manager's own lemmas give. *)
Definition tight_run (run : Server → World → result unit * World) : Prop :=
  ∀ srv m (R : string → Prop), no_leak R m → no_leak (λ c, R c ∨ refuses c) (run srv m).2.

Lemma absorb (R : string → Prop) m : (∀ c, refuses c → R c) → no_leak (λ c, R c ∨ refuses c) m → no_leak R m.
Proof. intros HR. apply no_leak_weaken. intros c [?|?]; auto. Qed.

Lemma tight_manage run reset id k : tight_run run → page_tight (manage crypto run reset id k).
Proof.
  intros Hr. apply tight_api; [apply tight_get|]. intros [[srv|]|e]; [|apply tight_page..].
  apply tight_api; [|intros r; apply tight_page]. intros a R HR Ha. specialize (Hr srv (manager a) R Ha).
  destruct (run srv (manager a)) as [r m]. apply absorb; [done|]. by destruct (is_ok r && reset).
Qed.

Lemma tight_run_start id : tight_run (start_clean crypto env id).
Proof.
  intros srv m R Hm. unfold start_clean.
  assert (Hs : no_leak (λ c, R c ∨ refuses c) (if Status srv =?s "error" then StopServer (e_docker env) (e_now env) id m else m)).
  { case_if; [by apply stop_no_leak|]. eapply no_leak_weaken; [|exact Hm]. auto. }
  eapply no_leak_weaken; [|exact (start_no_leak crypto (e_docker env) (e_git env) (e_tokens env) (e_nonce env) (e_now env) _ srv _ Hs)].
  cbn. tauto.
Qed.

Lemma tight_run_op (mk : Server → op) (run : Server → World → result unit * World) :
  (∀ srv, env_of (mk srv) = env) → (∀ srv m, retry_ok (mk srv) m) → (∀ srv m, (run_op crypto (mk srv) m).2 = (run srv m).2) →
  tight_run run.
Proof. intros He Hr Hop srv m R Hm. rewrite <- (Hop srv m), <- (He srv). by apply run_op_no_leak. Qed.

Lemma tight_run_recreate pull : tight_run (recreate crypto env pull).
Proof. destruct pull; [by apply (tight_run_op (OPullRecreate env))|by apply (tight_run_op (ORecreate env))]. Qed.

Lemma tight_run_rebuild_restart :
  tight_run (RebuildAndRestart crypto (e_docker env) (e_git env) (e_tokens env) (e_nonce env) (e_now env)).
Proof. by apply (tight_run_op (ORebuild env)). Qed.

Lemma tight_run_rebuild : tight_run (RebuildImage crypto (e_docker env) (e_git env) (e_nonce env) (e_now env)).
Proof.
  intros srv m R Hm. eapply (no_leak_weaken R); [by auto|]. unfold RebuildImage. case_if; [done|].
  destruct (decode_stdio (Config srv)) as [cfg|]; [|done]. destruct (sBuild cfg) as [build|]; [|done].
  pose proof (build_same crypto (e_docker env) (e_git env) (e_nonce env) (e_now env) srv cfg build (BuildImageTag_of build) true m) as Hb.
  destruct (buildImageIfNeeded _ _ _ _ _ _ _ _ _ _ _) as [r w']. cbn [snd] in *.
  destruct Hb as (E1 & E2 & E3 & _). unfold no_leak, tracked in *. by rewrite E1, E2, E3.
Qed.

Lemma tight_stop id : tight (λ a, (tt, with_manager a (StopServer (e_docker env) (e_now env) id (manager a)))).
Proof. intros a R HR Ha. apply absorb; [done|]. by apply (stop_no_leak _ _ R). Qed.

(** Streaming progress does what the plain call does. *)
Lemma progress_same srv pull m :
  (RecreateWithProgress crypto (e_docker env) (e_git env) (e_tokens env) (e_nonce env) (e_now env) srv pull m).2 = recreate crypto env pull srv m.
Proof.
  unfold RecreateWithProgress, recreate. destruct pull; [unfold PullAndRecreateContainer; case_if; [done|]; destruct (PullImage _ _); [|done]|];
    unfold RecreateContainer, refetch; by destruct (Servers.Get crypto (ID srv) _) as [[[u|]|e] d].
Qed.

Lemma tight_stream method id f :
  page_tight (handleRecreateStream crypto env method id f).
Proof.
  apply tight_posted, tight_api; [apply tight_get|]. intros [[srv|]|e]; [|apply tight_page..].
  apply tight_api; [|intros [msgs r]; apply tight_page]. intros a R HR Ha.
  pose proof (progress_same srv (fv f "pull" =?s "1") (manager a)) as Hp.
  destruct (RecreateWithProgress _ _ _ _ _ _ _ _ _) as [msgs [r m]]. cbn in Hp.
  pose proof (tight_run_recreate (fv f "pull" =?s "1") srv (manager a) R Ha) as Hr. rewrite <- Hp in Hr.
  apply absorb; [done|]. by destruct (is_ok r).
Qed.

Lemma tight_action user r id action :
  page_tight (server_action crypto env send ping gen llmAvailable model parse show host referer ParseIP LookupHost discover register callbackURL user r id action).
Proof.
  unfold server_action. cbv zeta.
  case_if; [apply tight_api; [apply tight_servers|intros; apply tight_page]|].
  case_if; [apply tight_posted, tight_manage, tight_run_start|].
  case_if; [apply tight_posted, tight_api; [apply tight_stop|intros; apply tight_page]|].
  case_if. { apply tight_posted, tight_api; [apply tight_stop|]. intros _. apply tight_api; [apply tight_servers|]. intros [u|e]; apply tight_page. }
  case_if. { apply tight_posted, tight_api; [|intros; apply tight_page]. intros a R HR Ha.
    pose proof (proj2 (enumerate_no_leak R (e_now env) send id (manager a)) Ha) as He.
    by destruct (EnumerateServer _ _ _ _) as [[e1 e2] m]. }
  case_if; [apply tight_posted, tight_manage, tight_run_rebuild|].
  case_if; [apply tight_posted, tight_manage, tight_run_rebuild_restart|].
  case_if; [apply tight_posted, tight_manage, tight_run_recreate|].
  case_if; [apply tight_stream|].
  case_if. { apply tight_posted. case_if; [apply tight_page|]. destruct (l ← _; _) as [[[ty nm] tier]|]; [|apply tight_page].
    case_if; [apply tight_page|]. apply tight_api; [apply tight_tiers|]. intros [u|e]; apply tight_page. }
  case_if. { intros w R HR Hw. unfold middleware_page. by destruct (MiddlewarePages.handleServerMiddleware _ _ _ _ _ _ _). }
  case_if. { apply tight_posted, tight_api; [|intros; apply tight_page]. intros a R HR Ha.
    destruct (CheckHealth (e_now env) ping id (hw a)) as [x h] eqn:E. apply health_read_only in E. destruct E as (_ & _ & _ & _ & Hb & Hc & Hl & _).
    cbn in *. unfold no_leak, tracked in *. by rewrite Hb, Hc, Hl. }
  case_if. { unfold handleServerOptimize. case_if; [apply tight_page|]. case_if; [apply tight_page|].
    apply tight_api; [apply tight_opts|]. intros existing. case_if; [apply tight_page|]. intros w R HR Hw.
    destruct (ETools <$> _) as [[|t l]|]; [done| |done]. apply tight_api; [apply tight_opts|by intros x w1 R1|done|done]. }
  case_if; [|apply vreads_tight, vreads_tool_audit]. unfold handleServerOptimizeToggle. case_if; [apply tight_page|].
  destruct (l ← _; _) as [b|]; [|apply tight_page]. apply tight_api; [apply tight_servers|]. intros [u|e]; apply tight_page.
Qed.

(** Whatever is requested of the server pages, and
    whatever Docker, git and the backends answer, afterwards every running container is
    the recorded container of a server unless Docker refused to stop it, and every recorded
    container belongs to a server with a backend, as before. *)
Theorem server_pages_leak_nothing user r w (R : string → Prop) :
  no_leak R (manager (papi w)) →
  no_leak (λ c, R c ∨ refused (e_docker env) c)
    (manager (papi (handleServerRoutes crypto env send ping gen llmAvailable model nacl iter dispatcher images formatTime parse show host referer
       ParseIP LookupHost discover register callbackURL user r w).2)).
Proof.
  intros Hw.
  assert (Ht : page_tight (handleServerRoutes crypto env send ping gen llmAvailable model nacl iter dispatcher images formatTime parse show host referer
       ParseIP LookupHost discover register callbackURL user r)).
  { unfold handleServerRoutes. destruct (split_slash _) as [id action]. case_if; [apply tight_page|]. cbv zeta.
    case_if; [apply vreads_tight, vreads_detail|]. case_if; [|apply tight_page]. case_if; [apply tight_action|apply tight_page]. }
  apply Ht; [by right|]. eapply no_leak_weaken; [|exact Hw]. auto.
Qed.
End Leaks.

(** ** What a user sees *)

(** A user's profile grants something on the server. *)
Definition granted_on (user : User) (s : Users.State) (id : string) : Prop :=
  ∃ p ty nm, uProfileID user = Some p ∧ (p, id, ty, nm) ∈ permissions (profiles s).

Lemma server_ids_granted p sid (d : Db Users.State) allowed d' :
  on_profiles (ServerIDsForProfile p) d = (Ok allowed, d') → sid ∈ allowed →
  ∃ ty nm, (p, sid, ty, nm) ∈ permissions (profiles (tables d)).
Proof.
  unfold on_profiles, lift_db, ServerIDsForProfile, query, exec. cbn. destruct (next_fault (faults d)) as [[] fs]; [done|]. cbn.
  intros [= <- _] Hin. apply elem_of_filter in Hin as [_ Hin]. apply elem_of_map in Hin as ([[[p' s'] ty] nm] & -> & Hp).
  apply elem_of_filter in Hp as [Hp Hin]. cbn in Hp. subst p'. by exists ty, nm.
Qed.

Lemma canAccess_granted user id d d' : uRole user ≠ "admin" → canAccessServer user id d = (Ok true, d') → granted_on user (tables d) id.
Proof.
  intros Ha. unfold canAccessServer. apply String.eqb_neq in Ha. rewrite Ha. destruct (uProfileID user) as [p|] eqn:Ep; [|done].
  unfold db_bind. rewrite attempt_run. destruct (on_profiles (ServerIDsForProfile p) d) as [[allowed|e] d1] eqn:E; [|done].
  unfold db_ret. intros [= Hb _]. apply bool_decide_eq_true in Hb. destruct (server_ids_granted p id d allowed d1 E Hb) as (ty & nm & Hin).
  by exists p, ty, nm.
Qed.

(** The detail page of a server opens for a user who is
    no administrator only when the user's profile grants some endpoint of that server, and
    without any of the administrator's data; but it then lists every endpoint the server
    has, not only the granted ones. *)
Theorem detail_shows_all_endpoints `{Hashing} crypto env llmAvailable nacl iter dispatcher images formatTime user id w srv e v w' :
  uRole user ≠ "admin" →
  handleServerDetail crypto env llmAvailable nacl iter dispatcher images formatTime user id w = (VpDetail srv e v, w') →
  v = None ∧ granted_on user (tables (idb (papi w))) id ∧ e = cache_get (ID srv) (Endpoints (manager (papi w))).
Proof.
  intros Ha. unfold handleServerDetail, ask_api. pose proof (get_server_read_only crypto id (papi w)) as Hg.
  destruct (get_server crypto id (papi w)) as [[[s|]|err] a]; cbn [snd] in Hg; [|done..].
  destruct Hg as (Hi & _ & _ & _ & _ & _ & _ & He & _). unfold on_people. cbn [papi with_papi].
  destruct (canAccessServer user id (idb a)) as [r d] eqn:Ec. destruct r as [[]|err]; cbn [or_zero negb]; [|done..].
  pose proof (String.eqb_neq (uRole user) "admin") as [_ Hne]. rewrite (Hne Ha). intros [= <- <- <- _].
  split; [done|]. split; [rewrite <- Hi; by eapply canAccess_granted|]. cbn. by rewrite <- He.
Qed.

(** ** Witnesses *)
Definition vp_admin : User := mkUser "a" "root" "" "admin" "admin" None false 0 None "".
Definition vp_guest : User := mkUser "u" "bob" "" "user" "write" None false 1 (Some "p") "".

Definition vp_endpoints : ServerEndpoints :=
  mkEndpoints (mkInfo "files" "1") [ToolOptimize.mkTool "get_x" "" ""; ToolOptimize.mkTool "drop_all" "" ""] [] [] true "".

(** The server [srv] of the demo profile, with two tools of which the profile grants one. *)
Definition vp_api : ApiWorld :=
  mkApi (healthy Users.demo)
    (mkHWorld (mkMonitor ∅ ∅ {["srv" := 3%Z]} ∅)
       (mkWorld (healthy {["srv" := mkServer "srv" "files" "Files" "remote" (Marshal (JObj [("url", JStr "https://x")])) "stopped" "" "unknown" None "" false 0 0]})
          (healthy (Access.mkState {["srv"]} ∅)) (healthy (Optimizer.mkTables {["srv"]} ∅)) ∅ ∅ {["srv" := vp_endpoints]} ∅ []) []) [].

Definition vp_world : PageWorld := mkPages vp_api MiddlewarePages.mw_world (healthy RequestLogs.demo_log).

Definition vp_request (method path : string) : WebAuth.Request :=
  WebAuth.mkRequest method path "" "" "" "" "10.0.0.1:9" (Some "sid") ∅ [] "".

Local Abbreviation routes := (handleServerRoutes (H:=toy_hashing) (mkEncryptor None) (demo_env true 1) (λ _, Err "down") (Err "down") (Ok "o1") true "m"
  MiddlewarePages.mw_nacl [] true None (λ _, "") (λ _, None) (λ p _, p) "" "" (λ _, None) (λ _, None) (λ _, None) (λ _, None) "").

Lemma server_pages_guarded_witness : page_same vp_world (routes vp_guest (vp_request "POST" "/servers/srv/delete") vp_world).2.
Proof.
  apply (server_pages_guarded (H:=toy_hashing) (mkEncryptor None) (demo_env true 1) (λ _, Err "down") (Err "down") (Ok "o1") true "m"
    MiddlewarePages.mw_nacl [] true None (λ _, "") (λ _, None) (λ p _, p) "" "" (λ _, None) (λ _, None) (λ _, None) (λ _, None) ""
    vp_guest (vp_request "POST" "/servers/srv/delete") vp_world). left. discriminate.
Defined.

Definition vp_sessions : Users.State := Users.with_sessions Users.demo {["sid" := ("a", 100%Z)]}.

Definition vp_login : WebAuth.World := WebAuth.mkWorld (healthy vp_sessions) newLoginRateLimiter newLoginRateLimiter ∅.

Lemma head_submits_without_token_witness :
  ∃ user, uRole user = "admin" ∧
    ∀ next, requireAuth (λ s, s) 5 next (vp_request "HEAD" "/servers/srv/edit") vp_login = next user "sid" vp_login.
Proof.
  eexists. split; [|apply (head_submits_without_token (mkEncryptor None) (demo_env true 1) (λ _, None) (λ _, None) (λ _, None) (λ _, None) (λ _, None) ""
    (λ s, s) 5 (vp_request "HEAD" "/servers/srv/edit") vp_login vp_sessions "sid" _ 100 "srv" "u");
    [reflexivity|reflexivity|vm_compute; reflexivity|reflexivity|left; reflexivity]]. reflexivity.
Defined.

Lemma pages_act_like_the_api_witness :
  may_recover 7 "srv" (mon (hw vp_api)) = false ∧
  may_recover 7 "srv" (mon (hw (papi (handleServerStart (mkEncryptor None) (demo_env true 1) (λ _, None) (λ p _, p) "" "" "POST" "srv" vp_world).2))) = true.
Proof.
  split; [reflexivity|].
  destruct (pages_act_like_the_api (mkEncryptor None) (demo_env true 1) (λ _, None) (λ p _, p) "" "" vp_admin vp_world "srv" ""
    (mkServer "srv" "files" "Files" "remote" (Marshal (JObj [("url", JStr "https://x")])) "stopped" "" "unknown" None "" false 0 0) vp_api
    eq_refl ltac:(vm_compute; reflexivity) ltac:(discriminate)) as [Hs _].
  destruct (startServer _ _ _ _ _ _) as [rep a2] eqn:E. destruct Hs as [(code & msg & -> & _)|(_ & _ & Hr)].
  - vm_compute in E. discriminate.
  - apply Hr. vm_compute in E. injection E as _ <-. vm_compute. intros Hin. inversion Hin.
Defined.

Lemma server_pages_leak_nothing_witness :
  no_leak (λ c, False ∨ refused (e_docker (demo_env true 1)) c) (manager (papi (routes vp_admin (vp_request "POST" "/servers/srv/start") vp_world).2)).
Proof.
  apply (server_pages_leak_nothing (H:=toy_hashing) (mkEncryptor None) (demo_env true 1) (λ _, Err "down") (Err "down") (Ok "o1") true "m"
    MiddlewarePages.mw_nacl [] true None (λ _, "") (λ _, None) (λ p _, p) "" "" (λ _, None) (λ _, None) (λ _, None) (λ _, None) ""
    vp_admin (vp_request "POST" "/servers/srv/start") vp_world (λ _, False)).
  split; [intros c Hc; by apply elem_of_empty in Hc|intros id [x Hx]; change ((∅ : gmap string string) !! id = Some x) in Hx; by rewrite lookup_empty in Hx].
Defined.

Lemma detail_shows_all_endpoints_witness :
  ∃ srv w', handleServerDetail (H:=toy_hashing) (mkEncryptor None) (demo_env true 1) true MiddlewarePages.mw_nacl [] true None (λ _, "") vp_guest "srv" vp_world
    = (VpDetail srv (Some vp_endpoints) None, w') ∧
  granted_on vp_guest Users.demo "srv" ∧ ("p", "srv", "tool", "drop_all") ∉ permissions (profiles Users.demo).
Proof.
  eexists _, vp_world. split; [reflexivity|].
  destruct (detail_shows_all_endpoints (H:=toy_hashing) (mkEncryptor None) (demo_env true 1) true MiddlewarePages.mw_nacl [] true None (λ _, "") vp_guest "srv" vp_world
    _ (Some vp_endpoints) None vp_world ltac:(discriminate) eq_refl) as (_ & Hg & _).
  split; [exact Hg|]. intros Hin. change (("p", "srv", "tool", "drop_all") ∈ ({[("p", "srv", "tool", "get_x")]} : gset perm)) in Hin.
  apply elem_of_singleton in Hin. discriminate.
Defined.
