(* ===== verification/SafeFile.v ===== *)
(** * Files below a directory

    [safefile/safefile.go]: [arc-sync] reads and writes files with credentials in directories it
    did not make, through functions that must not leave the directory they are given.  The disk
    here has symbolic links: an entry is named by the components of its real path, and looking up
    a path follows links the way the kernel does ([open], [lstat]) and the way
    [filepath.EvalSymlinks] does.  Paths in the code are strings and are strings here; the
    lexical functions are those of [GoPath], with [Abs], [Dir] and [Rel] added. *)
From S2P Require Import Prelude GoStrings GoPath FileTree.

(** ** Lexical functions *)

(** [filepath.Abs], in a working directory. *)
Definition Abs (cwd p : string) : string := if IsAbs p then Clean p else JoinPath [cwd; p].

(** [filepath.Dir] *)
Definition Dir (p : string) : string :=
  Clean (match LastIndex p "/" with Some i => take_str (S i) p | None => "" end).

(** What is left of two lists after what they begin with together. *)
Fixpoint drop_common (a b : list string) : list string * list string :=
  match a, b with
  | x :: a', y :: b' => if x =?s y then drop_common a' b' else (a, b)
  | _, _ => (a, b)
  end.

(** [filepath.Rel] *)
Definition Rel (base targ : string) : result string :=
  if negb (Bool.eqb (IsAbs base) (IsAbs targ)) then Err "Rel: can't make targ relative to base"
  else
    let '(b, t) := drop_common (components base) (components targ) in
    if hd "" b =?s ".." then Err "Rel: can't make targ relative to base"
    else Ok (render false (map (λ _, "..") b ++ t)).

(** [filepath.VolumeName] on Unix *)
Definition VolumeName (p : string) : string := "".

(** ** A disk with links *)

Module Links.
Inductive Entry := EFile (content : string) | EDir | ELink (target : string).

(** The entries by the components of their real paths. *)
Notation Disk := (gmap (list string) Entry).

Definition ELOOP : string := "too many levels of symbolic links".

(** Look up the components [todo] from the directory [cur], following at most [links] links.
    With [create], a last component that is missing is where a file would be made. *)
Fixpoint walk (create : bool) (d : Disk) (links : nat) : list string → list string → result (list string) :=
  fix go (cur todo : list string) : result (list string) :=
    match todo with
    | [] => Ok cur
    | x :: r =>
        match d !! cur with
        | Some EDir =>
            if (x =?s "") || (x =?s ".") then go cur r
            else if x =?s ".." then go (parent cur) r
            else match d !! (cur ++ [x]) with
                 | None => match r with
                           | [] => if create then Ok (cur ++ [x]) else Err ENOENT
                           | _ => Err ENOENT
                           end
                 | Some (ELink t) =>
                     match links with
                     | 0 => Err ELOOP
                     | S n => walk create d n (if IsAbs t then [] else cur) (Split t "/"%char ++ r)
                     end
                 | Some _ => go (cur ++ [x]) r
                 end
        | Some _ => Err ENOTDIR
        | None => Err ENOENT
        end
    end.

(** The kernel gives up after 40 links, [EvalSymlinks] after 255. *)
Definition kernel_links : nat := 40.
Definition eval_links : nat := 255.

(** The real path of an absolute path. *)
Definition real (create : bool) (links : nat) (d : Disk) (p : string) : result (list string) :=
  walk create d links [] (Split p "/"%char).

Definition FS (A : Type) : Type := DBM Disk A.

(** A call that only reads. *)
Definition look {A} (f : Disk → result A) : FS A := exec (λ d, result_map (λ a, (a, d)) (f d)).

Definition eval_symlinks (p : string) (d : Disk) : result string := result_map (render true) (real false eval_links d p).

(** [filepath.EvalSymlinks] *)
Definition EvalSymlinks (p : string) : FS string := look (eval_symlinks p).

(** The entry a cleaned absolute path names, not what it links to. *)
Definition lstat (p : string) (d : Disk) : result Entry :=
  match components p with
  | [] => match d !! [] with Some e => Ok e | None => Err ENOENT end
  | cs => match real false kernel_links d (render true (parent cs)) with
          | Err e => Err e
          | Ok dir => match d !! dir, d !! (dir ++ [List.last cs ""]) with
                      | Some EDir, Some e => Ok e
                      | Some EDir, None => Err ENOENT
                      | _, _ => Err ENOTDIR
                      end
          end
  end.

(** [os.Lstat] *)
Definition Lstat (p : string) : FS Entry := look (lstat p).

Definition read_file (p : string) (d : Disk) : result string :=
  match real false kernel_links d p with
  | Err e => Err e
  | Ok r => match d !! r with
            | Some (EFile c) => Ok c
            | Some EDir => Err EISDIR
            | _ => Err ENOENT
            end
  end.

(** [os.ReadFile] *)
Definition ReadFile (p : string) : FS string := look (read_file p).

(** [open] with [O_CREATE|O_TRUNC]: the file it opened, emptied. *)
Definition open_trunc (p : string) : FS (list string) :=
  exec (λ d, match real true kernel_links d p with
             | Err e => Err e
             | Ok r => match d !! r with
                       | Some EDir => Err EISDIR
                       | Some (ELink _) => Err ELOOP
                       | _ => Ok (r, <[r := EFile ""]> d)
                       end
             end).

(** [os.WriteFile]; a write that fails has written nothing. *)
Definition WriteFile (p data : string) : FS unit :=
  let! r := open_trunc p in exec (λ d, Ok (tt, <[r := EFile data]> d)).
End Links.
Import Links.

(** ** The code *)

Section Safe.
Variable cwd : string.

Definition resolve (base rel : string) : result string :=
  if rel =?s "" then Err "safefile: empty relative path"
  else if IsAbs rel then Err "safefile: path is absolute, must be relative to base"
  else if VolumeName rel !=? "" then Err "safefile: path is volume-qualified, must be relative to base"
  else
    let absBase := Clean (Abs cwd base) in
    let target := Clean (JoinPath [absBase; rel]) in
    match Rel absBase target with
    | Err _ => Err "safefile: path escapes base"
    | Ok within =>
        if (within =?s "..") || HasPrefix within "../" then Err "safefile: path escapes base"
        else Ok target
    end.

Definition inside (realBase resolved : string) : bool :=
  (resolved =?s realBase) || HasPrefix resolved (realBase +:+ "/").

(** The loop that walks up to an ancestor that exists. *)
Fixpoint probe_up (fuel : nat) (realBase probe : string) : FS unit :=
  match fuel with
  | 0 => db_fail "out of fuel"
  | S n =>
      let! res := attempt (EvalSymlinks probe) in
      match res with
      | Ok resolved =>
          if inside realBase (Clean resolved) then db_ret tt
          else db_fail "safefile: target resolves outside base (symlink escape)"
      | Err e =>
          if negb (IsNotExist e) then db_fail ("safefile: resolving: " +:+ e)
          else
            let parent := Dir probe in
            if parent =?s probe then db_fail "safefile: no existing ancestor for target under base"
            else probe_up n realBase parent
      end
  end.

Definition checkNoSymlinkEscape (absBase target : string) : FS unit :=
  let! base := attempt (EvalSymlinks absBase) in
  match base with
  | Err e => db_fail ("safefile: resolving base: " +:+ e)
  | Ok realBase =>
      let realBase := Clean realBase in
      let! info := attempt (Lstat target) in
      match info with
      | Ok (ELink _) => db_fail "safefile: refusing to follow symlink"
      | _ => probe_up (S (String.length target)) realBase target
      end
  end.

(** The path, and whether the base exists. *)
Definition confinedPath (base rel : string) : FS (string * bool) :=
  match resolve base rel with
  | Err e => db_fail e
  | Ok target =>
      let absBase := Clean (Abs cwd base) in
      let! stat := attempt (Lstat absBase) in
      match stat with
      | Err e => if IsNotExist e then db_ret (target, false) else db_fail ("safefile: resolving base: " +:+ e)
      | Ok _ => checkNoSymlinkEscape absBase target ;;; db_ret (target, true)
      end
  end.

Definition SafeReadFile (base rel : string) : FS string :=
  let! (target, _) := confinedPath base rel in ReadFile target.

Definition SafeWriteFile (base rel data : string) : FS unit :=
  let! (target, _) := confinedPath base rel in WriteFile target data.

(** [Open] for reading gives the content here. *)
Definition SafeOpen (base rel : string) : FS string :=
  let! (target, _) := confinedPath base rel in ReadFile target.

Definition SafePath (base rel : string) : FS string :=
  let! (target, _) := confinedPath base rel in db_ret target.
End Safe.

(** ** Lexical lemmas *)

Definition noslash (x : string) : Prop := Index x "/" = None.

(** The components a cleaned absolute path has. *)
Definition plain (x : string) : Prop := noslash x ∧ x ≠ "" ∧ x ≠ "." ∧ x ≠ "..".

Lemma split_noslash s : Forall noslash (Split s "/"%char).
Proof.
  induction s as [|a s IH]; simpl; [by repeat constructor|]. destruct (Ascii.eqb a "/") eqn:E; [by constructor|].
  destruct (Split s "/"%char) as [|x l] eqn:Es; [by apply Split_nonempty in Es|].
  inversion IH as [|? ? Hx Hl]; subst. constructor; [|done]. unfold noslash in *. cbn [Index].
  rewrite Hx. cbn [String.prefix]. destruct (ascii_dec "/" a) as [<-|]; [done|done].
Qed.

Lemma split_plain x : noslash x → Split x "/"%char = [x].
Proof.
  unfold noslash. induction x as [|a x IH]; [done|]. cbn [Index String.prefix]. destruct (ascii_dec "/" a) as [|Hn]; [by destruct x|].
  intros Hx. cbn [Split]. destruct (Ascii.eqb a "/") eqn:E; [by apply Ascii.eqb_eq in E; subst|].
  destruct (Index x "/") eqn:Ei; [done|]. by rewrite IH.
Qed.

Lemma split_join cs : cs ≠ [] → Forall noslash cs → Split (Join cs "/") "/"%char = cs.
Proof.
  intros Hne. induction 1 as [|x l Hx Hl IH]; [done|]. destruct l as [|y l]; [by apply split_plain|].
  change (Join (x :: y :: l) "/") with (x +:+ "/" +:+ Join (y :: l) "/").
  change ("/" +:+ Join (y :: l) "/") with (String "/" (Join (y :: l) "/")). rewrite Split_app, split_plain by done.
  by rewrite IH.
Qed.

Lemma clean_plain l st : Forall noslash l → Forall plain st → Forall plain (clean_comps true l st).
Proof.
  intros Hl. revert st. induction Hl as [|c l Hc Hl IH]; intros st Hst; simpl; [by apply Forall_rev|].
  destruct (c =?s "") eqn:E1, (c =?s ".") eqn:E2; simpl; [by apply IH..|]. bool_prop.
  destruct (c =?s "..") eqn:E3; bool_prop.
  - destruct st as [|t st]; [by apply IH|]. inversion Hst as [|? ? [_ (_ & _ & Ht)] Hr]; subst.
    destruct (t =?s "..") eqn:E; bool_prop; [done|]. by apply IH.
  - apply IH. by constructor.
Qed.

Lemma components_plain p : IsAbs p = true → Forall plain (components p).
Proof. intros H. unfold components. rewrite H. apply clean_plain; [apply split_noslash|constructor]. Qed.

Lemma plain_noslash cs : Forall plain cs → Forall noslash cs.
Proof. intros H. apply (Forall_impl _ _ _ H). by intros ? []. Qed.

Lemma clean_plain_id l st : Forall plain l → clean_comps true l st = rev st ++ l.
Proof.
  intros H. revert st. induction H as [|c l (_ & H1 & H2 & H3) Hl IH]; intros st; simpl; [by rewrite app_nil_r|].
  apply String.eqb_neq in H1, H2, H3. rewrite H1, H2, H3. simpl. rewrite IH. simpl. by rewrite <- app_assoc.
Qed.

Lemma split_render cs : Forall noslash cs → Split (render true cs) "/"%char = "" :: match cs with [] => [""] | _ => cs end.
Proof.
  intros H. unfold render. change ("/" +:+ Join cs "/") with ("" +:+ String "/" (Join cs "/")). rewrite Split_app. simpl.
  f_equal. destruct cs; [done|]. by apply split_join.
Qed.

Lemma IsAbs_render cs : IsAbs (render true cs) = true.
Proof. apply HasPrefix_iff. by eexists. Qed.

Lemma components_render cs : Forall plain cs → components (render true cs) = cs.
Proof.
  intros H. unfold components. rewrite IsAbs_render. rewrite split_render by by apply plain_noslash.
  destruct cs as [|c l]; [done|]. simpl. pose proof (clean_plain_id (c :: l) [] H) as E. exact E.
Qed.

Lemma Clean_render cs : Forall plain cs → Clean (render true cs) = render true cs.
Proof. intros H. unfold Clean. by rewrite IsAbs_render, components_render. Qed.

Lemma Clean_abs p : IsAbs p = true → Clean p = render true (components p).
Proof. intros H. unfold Clean. by rewrite H. Qed.

Lemma LastIndex_noslash x : noslash x → LastIndex x "/" = None.
Proof.
  unfold noslash. induction x as [|a x IH]; [done|]. cbn [Index LastIndex String.prefix]. destruct (ascii_dec "/" a); [by destruct x|].
  destruct (Index x "/"); [done|]. intros _. by rewrite IH.
Qed.

Lemma LastIndex_slash a x : noslash x → LastIndex (a +:+ String "/" x) "/" = Some (String.length a).
Proof.
  intros H. induction a as [|c a IH]; [|rewrite str_app_cons; cbn [LastIndex]; by rewrite IH].
  simpl. rewrite (LastIndex_noslash x H). by destruct x.
Qed.

Lemma Join_last l x : l ≠ [] → Join (l ++ [x]) "/" = Join l "/" +:+ String "/" x.
Proof.
  induction l as [|y l IH]; [done|]. intros _. destruct l as [|z l]; [done|].
  change (Join ((y :: z :: l) ++ [x]) "/") with (y +:+ "/" +:+ Join ((z :: l) ++ [x]) "/"). rewrite IH by done.
  change (Join (y :: z :: l) "/") with (y +:+ "/" +:+ Join (z :: l) "/"). by rewrite !str_app_assoc.
Qed.

(** Everything up to the last component, with its slash. *)
Definition dir_text (l : list string) : string := match l with [] => "/" | _ => "/" +:+ Join l "/" +:+ "/" end.

Lemma render_last l x : render true (l ++ [x]) = dir_text l +:+ x.
Proof.
  unfold render, dir_text. destruct l as [|y l]; [done|]. rewrite Join_last by done. by rewrite !str_app_assoc.
Qed.

Lemma take_str_all s : take_str (String.length s) s = s.
Proof. rewrite <- (str_app_nil_r s) at 2. apply take_str_app. Qed.

Lemma Dir_render l x : Forall plain (l ++ [x]) → Dir (render true (l ++ [x])) = render true l.
Proof.
  intros [Hl Hx]%Forall_app. inversion Hx as [|? ? [Hns _] _]; subst. unfold Dir. rewrite render_last.
  assert (∃ a, dir_text l = a +:+ String "/" "" ∧ Clean (dir_text l) = render true l) as (a & Ea & Ec).
  { destruct l as [|y l]; [by exists ""|]. exists ("/" +:+ Join (y :: l) "/"). split; [by rewrite str_app_assoc|].
    unfold Clean, components. unfold dir_text. replace (IsAbs _) with true by (symmetry; apply HasPrefix_iff; by eexists). f_equal.
    change ("/" +:+ Join (y :: l) "/" +:+ "/") with ("" +:+ String "/" (Join (y :: l) "/" +:+ String "/" "")).
    rewrite !Split_app, split_join by (done || by apply plain_noslash). rewrite (clean_comps_app true (Split "" "/"%char)), clean_comps_app.
    pose proof (clean_plain_id (y :: l) [] Hl) as E. cbn [rev app] in E. change (rev (clean_comps true (Split "" "/"%char) [])) with ([] : list string).
    rewrite E. exact (rev_involutive (y :: l)). }
  rewrite Ea, str_app_assoc. change (String "/" "" +:+ x) with (String "/" x). rewrite LastIndex_slash by done.
  replace (a +:+ String "/" x) with ((a +:+ String "/" "") +:+ x) by by rewrite str_app_assoc.
  replace (S (String.length a)) with (String.length (a +:+ String "/" "")) by (rewrite str_length_app; simpl; lia).
  by rewrite take_str_app, <- Ea.
Qed.

(** The check on texts is a check on components. *)
Lemma inside_prefix b l : Forall plain b → Forall plain l → inside (render true b) (render true l) = true → b `prefix_of` l.
Proof.
  intros Hb Hl. unfold inside. destruct (render true l =?s render true b) eqn:E; bool_prop.
  - intros _. apply (f_equal components) in E. rewrite !components_render in E by done. by subst.
  - cbn [orb]. intros [r Hr]%HasPrefix_iff. destruct b as [|x b]; [apply prefix_nil|].
    apply (f_equal (λ s, Split s "/"%char)) in Hr. cbv beta in Hr. rewrite (split_render l) in Hr by by apply plain_noslash.
    rewrite str_app_assoc in Hr. change ("/" +:+ r) with (String "/" r) in Hr. rewrite (Split_app (render true (x :: b))) in Hr. rewrite (split_render (x :: b)) in Hr by by apply plain_noslash.
    injection Hr as Hr. destruct l as [|y l]; [|exists (Split r "/"%char); exact Hr].
    injection Hr as Hx _. inversion Hb as [|? ? (_ & Hne & _) _]; subst. done.
Qed.

(** ** [resolve] stays below the base *)

Lemma drop_common_spec a b a' b' : drop_common a b = (a', b') → ∃ c, a = c ++ a' ∧ b = c ++ b'.
Proof.
  revert b. induction a as [|x a IH]; intros b; [intros [= <- <-]; by exists []|].
  destruct b as [|y b]; [intros [= <- <-]; by exists []|]. simpl. destruct (x =?s y) eqn:E; bool_prop; [subst|intros [= <- <-]; by exists []].
  intros (c & -> & ->)%IH. by exists (y :: c).
Qed.

Lemma abs_join d r : IsAbs d = true → IsAbs (JoinPath [d; r]) = true.
Proof.
  intros H. unfold JoinPath. destruct (d =?s "") eqn:E; bool_prop; [by subst|].
  unfold Clean. replace (IsAbs (Join [d; r] "/")) with true; [apply IsAbs_render|].
  unfold IsAbs in *. apply HasPrefix_iff in H as [q ->]. symmetry. apply HasPrefix_iff. exists (q +:+ "/" +:+ r). by rewrite <- str_app_assoc.
Qed.

Lemma abs_Abs cwd p : IsAbs cwd = true → IsAbs (Abs cwd p) = true.
Proof. intros H. unfold Abs. destruct (IsAbs p) eqn:E; [rewrite Clean_abs by done; apply IsAbs_render|by apply abs_join]. Qed.

(** What [resolve] returns is the base with plain components after it. *)
Lemma resolve_below cwd base rel target :
  IsAbs cwd = true → resolve cwd base rel = Ok target →
  ∃ b l, Forall plain b ∧ Forall plain l ∧ Clean (Abs cwd base) = render true b ∧ target = render true (b ++ l).
Proof.
  intros Hcwd. unfold resolve. repeat case_if; [done..|]. set (ab := Clean (Abs cwd base)). cbv zeta.
  assert (Hab : ab = render true (components (Abs cwd base))) by by apply Clean_abs, abs_Abs.
  assert (Hb : Forall plain (components (Abs cwd base))) by by apply components_plain, abs_Abs.
  assert (Hj : IsAbs (JoinPath [ab; rel]) = true) by (apply abs_join; rewrite Hab; apply IsAbs_render).
  rewrite (Clean_abs _ Hj). set (t := components (JoinPath [ab; rel])). assert (Ht : Forall plain t) by by apply components_plain.
  unfold Rel. rewrite Hab, !IsAbs_render, !components_render by done. cbn [Bool.eqb negb].
  destruct (drop_common _ t) as [b' t'] eqn:E. apply drop_common_spec in E as (c & Eb & Et).
  destruct (hd "" b' =?s ".."); [done|]. destruct b' as [|x b'].
  - destruct (_ || _); [done|]. intros [= <-]. rewrite app_nil_r in Eb. exists c, t'. rewrite Eb in Hb |- *. rewrite Et in Ht |- *.
    by apply Forall_app in Ht as [_ Ht].
  - replace (_ || _) with true; [done|]. symmetry. apply orb_true_iff. unfold render. cbn [map app].
    destruct (map _ b' ++ t') as [|y m]; [by left|]. right. apply HasPrefix_iff. by exists (Join (y :: m) "/").
Qed.

Lemma links_le : kernel_links ≤ eval_links.
Proof. unfold kernel_links, eval_links. lia. Qed.

#[global] Opaque kernel_links eval_links.

(** ** Walking *)

(** One component. *)
Lemma walk_cons c d n cur x r :
  walk c d n cur (x :: r) =
  match d !! cur with
  | Some EDir =>
      if (x =?s "") || (x =?s ".") then walk c d n cur r
      else if x =?s ".." then walk c d n (parent cur) r
      else match d !! (cur ++ [x]) with
           | None => match r with [] => if c then Ok (cur ++ [x]) else Err ENOENT | _ => Err ENOENT end
           | Some (ELink t) =>
               match n with 0 => Err ELOOP | S n => walk c d n (if IsAbs t then [] else cur) (Split t "/"%char ++ r) end
           | Some _ => walk c d n (cur ++ [x]) r
           end
  | Some _ => Err ENOTDIR
  | None => Err ENOENT
  end.
Proof. by destruct n. Qed.

Lemma walk_nil c d n cur : walk c d n cur [] = Ok cur.
Proof. by destruct n. Qed.

(** Induction over the steps of a walk: the links first, then the components. *)
Lemma walk_ind (P : nat → list string → list string → Prop) :
  (∀ n cur todo, (∀ m cur' todo', m < n → P m cur' todo') → (∀ x r cur', todo = x :: r → P n cur' r) → P n cur todo) →
  ∀ n cur todo, P n cur todo.
Proof.
  intros H n. induction n as [n IH] using lt_wf_ind. intros cur todo. revert cur.
  induction todo as [|x r IHr]; intros cur; apply H; [intros; by apply IH|done|intros; by apply IH|].
  intros y r' cur' [= <- <-]. apply IHr.
Qed.

Ltac walk_induct n cur todo :=
  pattern n, cur, todo; apply walk_ind; clear n cur todo; intros n cur todo IHn IHr.

Lemma walk_more c d n m cur todo p : n ≤ m → walk c d n cur todo = Ok p → walk c d m cur todo = Ok p.
Proof.
  revert m. walk_induct n cur todo. intros m Hle.
  destruct todo as [|x r]; [by rewrite !walk_nil|]. rewrite !walk_cons. destruct (d !! cur) as [[?| |?]|]; try done.
  destruct (_ || _); [by eapply IHr|]. destruct (x =?s ".."); [by eapply IHr|].
  destruct (d !! (cur ++ [x])) as [[?| |t]|]; try done; try by eapply IHr.
  destruct n as [|n]; [done|]. destruct m as [|m]; [lia|]. apply IHn; lia.
Qed.

Lemma walk_create_more d n cur todo p : walk false d n cur todo = Ok p → walk true d n cur todo = Ok p.
Proof.
  walk_induct n cur todo.
  destruct todo as [|x r]; [by rewrite !walk_nil|]. rewrite !walk_cons. destruct (d !! cur) as [[?| |?]|]; try done.
  destruct (_ || _); [by eapply IHr|]. destruct (x =?s ".."); [by eapply IHr|].
  destruct (d !! (cur ++ [x])) as [[?| |t]|]; try by eapply IHr.
  - destruct n as [|n]; [done|]. apply IHn; lia.
  - by destruct r.
Qed.

(** A walk to the end passes the directories before. *)
Lemma walk_app c d n cur a y b p :
  walk c d n cur (a ++ y :: b) = Ok p → ∃ q m, m ≤ n ∧ walk false d n cur a = Ok q ∧ walk c d m q (y :: b) = Ok p.
Proof.
  walk_induct n cur a.
  destruct a as [|x r]; [intros H; exists cur, n; by rewrite walk_nil|]. cbn [app]. rewrite !walk_cons.
  destruct (d !! cur) as [[?| |?]|]; try done.
  destruct (_ || _); [by eapply IHr|]. destruct (x =?s ".."); [by eapply IHr|].
  destruct (d !! (cur ++ [x])) as [[?| |t]|]; try by eapply IHr.
  - destruct n as [|n]; [done|]. rewrite app_assoc. intros (q & m & Hm & Hq)%IHn; [|lia]. exists q, m. split; [lia|done].
  - by destruct r.
Qed.

Lemma walk_from_dir c d n q x r p : walk c d n q (x :: r) = Ok p → d !! q = Some EDir.
Proof. rewrite walk_cons. by destruct (d !! q) as [[?| |?]|]. Qed.

(** A last component that is plain and no link is where the walk ends. *)
Lemma walk_last c d n q x p :
  plain x → (∀ t, d !! (q ++ [x]) ≠ Some (ELink t)) → walk c d n q [x] = Ok p → p = q ++ [x].
Proof.
  intros (_ & H1 & H2 & H3) Hl. apply String.eqb_neq in H1, H2, H3. rewrite walk_cons, H1, H2, H3. cbn [orb].
  destruct (d !! q) as [[?| |?]|]; try done. destruct (d !! (q ++ [x])) as [[?| |t]|] eqn:E; rewrite ?walk_nil.
  - by intros [= <-].
  - by intros [= <-].
  - by destruct (Hl t).
  - destruct c; [by intros [= <-]|done].
Qed.

Lemma parent_last (l : list string) (x : string) : parent (l ++ [x]) = l.
Proof. unfold parent. rewrite length_app. simpl. rewrite Nat.add_sub. by rewrite take_app_length. Qed.

Lemma walk_plain c d n cur todo p : Forall noslash todo → Forall plain cur → walk c d n cur todo = Ok p → Forall plain p.
Proof.
  walk_induct n cur todo. intros Ht Hc. destruct todo as [|x r]; [rewrite walk_nil; by intros [= <-]|]. rewrite walk_cons.
  inversion Ht as [|? ? Hx Hr]; subst. destruct (d !! cur) as [[?| |?]|]; try done.
  destruct (x =?s "") eqn:E1, (x =?s ".") eqn:E2; cbn [orb]; try by eapply IHr. destruct (x =?s "..") eqn:E3.
  { eapply IHr; [done|done|]. by apply Forall_take. }
  bool_prop. assert (Forall plain (cur ++ [x])) by (apply Forall_app; by repeat constructor).
  destruct (d !! (cur ++ [x])) as [[?| |t]|]; try by eapply IHr.
  - destruct n as [|n]; [done|]. apply IHn; [lia| |by destruct (IsAbs t)]. apply Forall_app; by split; [apply split_noslash|].
  - destruct r; [destruct c; [by intros [= <-]|done]|done].
Qed.

Section Rooted.
Context (d : Disk) (Hroot : d !! [] = Some EDir).

Lemma real_render c n cs : Forall plain cs → real c n d (render true cs) = walk c d n [] cs.
Proof.
  intros H. unfold real. rewrite split_render by by apply plain_noslash. rewrite walk_cons, Hroot. simpl.
  destruct cs; [|done]. by rewrite walk_cons, Hroot.
Qed.

Lemma eval_render cs r :
  Forall plain cs → eval_symlinks (render true cs) d = Ok r → ∃ l, walk false d eval_links [] cs = Ok l ∧ Forall plain l ∧ r = render true l.
Proof.
  intros H. unfold eval_symlinks. rewrite real_render by done. destruct (walk _ _ _ _ _) as [l|] eqn:E; [|done]. intros [= <-].
  exists l. split_and!; [done| |done]. eapply walk_plain; [by apply plain_noslash|constructor|exact E].
Qed.

Lemma lstat_last l x :
  Forall plain (l ++ [x]) →
  lstat (render true (l ++ [x])) d =
  match walk false d kernel_links [] l with
  | Err e => Err e
  | Ok dir => match d !! dir, d !! (dir ++ [x]) with
              | Some EDir, Some e => Ok e
              | Some EDir, None => Err ENOENT
              | _, _ => Err ENOTDIR
              end
  end.
Proof.
  intros H. unfold lstat. rewrite components_render by done. assert (Hl : Forall plain l) by by apply Forall_app in H as [].
  destruct (l ++ [x]) eqn:E; [by destruct l|]. rewrite <- E, parent_last, real_render by done. by rewrite last_last.
Qed.

(** What a walk reaches, [lstat] sees. *)
Lemma walk_lstat b q : Forall plain b → walk false d kernel_links [] b = Ok q → ∃ e, lstat (render true b) d = Ok e.
Proof.
  intros Hb. destruct b as [|x b _] using rev_ind; [intros _; exists EDir; unfold lstat; by rewrite components_render, Hroot|].
  rewrite lstat_last by done. intros (q' & m & _ & -> & Hq)%walk_app. rewrite walk_cons in Hq.
  apply Forall_app in Hb as [_ Hx]. inversion Hx as [|? ? (_ & H1 & H2 & H3) _]; subst. apply String.eqb_neq in H1, H2, H3.
  rewrite H1, H2, H3 in Hq. cbn [orb] in Hq. destruct (d !! q') as [[?| |?]|]; try done. destruct (d !! (q' ++ [x])); [by eexists|done].
Qed.

Lemma look_run {A} (f : Disk → result A) fs :
  attempt (look f) (mkDb d fs) = (Ok (if (next_fault fs).1 then Err db_error else f d), mkDb d (next_fault fs).2).
Proof. unfold attempt, look, exec. simpl. destruct (next_fault fs) as [[] fs']; [done|]. simpl. by destruct (f d). Qed.

Lemma probe_step n rb probe fs s :
  probe_up (S n) rb probe (mkDb d fs) = (Ok tt, s) →
  (∃ r, eval_symlinks probe d = Ok r ∧ inside rb (Clean r) = true) ∨
  (eval_symlinks probe d = Err ENOENT ∧ Dir probe ≠ probe ∧ ∃ fs', probe_up n rb (Dir probe) (mkDb d fs') = (Ok tt, s)).
Proof.
  cbn [probe_up]. unfold db_bind at 1. unfold EvalSymlinks. rewrite look_run. destruct (next_fault fs) as [[] fs']; [done|]. cbn [fst snd].
  destruct (eval_symlinks probe d) as [r|e]; [destruct (inside _ _) eqn:E; [left; by exists r|done]|].
  destruct (IsNotExist e) eqn:E; [|done]. cbn [negb]. unfold IsNotExist in E. bool_prop. subst.
  destruct (Dir probe =?s probe) eqn:Ed; [done|]. bool_prop. intros H. right. split_and!; [done|done|by exists fs'].
Qed.
End Rooted.

(** ** Confinement *)

(** What a path that passed the checks is known to be. *)
Record checked (d : Disk) (follow : bool) (b l : list string) : Prop := mkChecked {
  ck_plain : Forall plain (b ++ l);
  ck_base :
    lstat (render true b) d = Err ENOENT ∨
    ∃ rb n fs s, is_ok (lstat (render true b) d) = true ∧ walk false d eval_links [] b = Ok rb ∧ Forall plain rb ∧
      (follow = false → ∀ t, lstat (render true (b ++ l)) d ≠ Ok (ELink t)) ∧
      probe_up (S (S n)) (render true rb) (render true (b ++ l)) (mkDb d fs) = (Ok tt, s)
}.

Lemma bind_run {T A B} (m : DBM T A) (k : A → DBM T B) s a s' : m s = (Ok a, s') → db_bind m k s = k a s'.
Proof. unfold db_bind. by intros ->. Qed.

Lemma look_reads {A} (f : Disk → result A) d : preserves (λ t, t = d) (attempt (look f)).
Proof. apply preserves_attempt, preserves_exec. intros t a t' ->. destruct (f d); [by intros [= _ <-]|done]. Qed.

Lemma probe_reads n rb probe d : preserves (λ t, t = d) (probe_up n rb probe).
Proof.
  revert probe. induction n as [|n IH]; intros probe; [apply preserves_fail|]. cbn [probe_up]. apply preserves_bind.
  - apply look_reads.
  - intros [r|e]; [destruct (inside _ _); [apply preserves_ret|apply preserves_fail]|].
    destruct (negb _); [apply preserves_fail|]. cbv zeta. destruct (_ =?s _); [apply preserves_fail|apply IH].
Qed.

Lemma probe_unchanged n rb probe d fs s : probe_up n rb probe (mkDb d fs) = (Ok tt, s) → tables s = d.
Proof. intros H. pose proof (probe_reads n rb probe d (mkDb d fs) eq_refl) as Hp. by rewrite H in Hp. Qed.

Lemma third_fault fs : (next_fault (next_fault (next_fault fs).2).2).1 = nth 2 fs false.
Proof. by destruct fs as [|? [|? [|? fs]]]. Qed.

(** A check that passes; the second call is the look at the last component. *)
Lemma check_run d b target fs s :
  d !! [] = Some EDir → Forall plain b → target ≠ "" → checkNoSymlinkEscape (render true b) target (mkDb d fs) = (Ok tt, s) →
  tables s = d ∧ ∃ rb, walk false d eval_links [] b = Ok rb ∧ Forall plain rb ∧
    ((next_fault (next_fault fs).2).1 = false → ∀ t, lstat target d ≠ Ok (ELink t)) ∧
    ∃ n fs', probe_up (S (S n)) (render true rb) target (mkDb d fs') = (Ok tt, s).
Proof.
  intros Hroot Hb Ht. unfold checkNoSymlinkEscape. rewrite (bind_run _ _ _ _ _ (look_run d (eval_symlinks (render true b)) fs)).
  destruct (next_fault fs) as [[] fs1]; [done|]. cbn [fst snd]. destruct (eval_symlinks _ d) as [r|] eqn:E; [|done].
  apply eval_render in E as (rb & Hw & Hrb & ->); [|done..]. rewrite Clean_render by done. cbv zeta.
  rewrite (bind_run _ _ _ _ _ (look_run d (lstat target) fs1)). destruct (next_fault fs1) as [f fs2]. cbn [fst snd].
  assert (∃ n, String.length target = S n) as [n ->] by (destruct target; [done|by eexists]).
  set (res := if f then Err db_error else lstat target d). destruct res as [[?| |t]|e] eqn:Er; try done; intros Hp;
    (split; [exact (probe_unchanged _ _ _ _ _ _ Hp)|]);
    exists rb; (split_and!; [done|done| |by exists n, fs2]); intros -> t' Hl; subst res; simpl in Er; congruence.
Qed.

(** What [confinedPath] lets pass is checked, and it changes nothing. *)
Lemma confined_checked cwd base rel target ex d fs s :
  IsAbs cwd = true → d !! [] = Some EDir → confinedPath cwd base rel (mkDb d fs) = (Ok (target, ex), s) →
  tables s = d ∧ ∃ b l, Clean (Abs cwd base) = render true b ∧ target = render true (b ++ l) ∧ checked d (nth 2 fs false) b l.
Proof.
  intros Hcwd Hroot. unfold confinedPath. destruct (resolve cwd base rel) as [tg|e] eqn:Er; [|done].
  apply resolve_below in Er as (b & l & Hb & Hl & -> & ->); [|done]. cbv zeta.
  assert (Hp : Forall plain (b ++ l)) by by apply Forall_app.
  rewrite (bind_run _ _ _ _ _ (look_run d (lstat (render true b)) fs)), <- third_fault.
  destruct (next_fault fs) as [[] fs1]; [done|]. cbn [fst snd].
  destruct (lstat (render true b) d) as [e|e] eqn:Eb.
  - intros (a & s1 & Hc & [= <- <- <-])%bind_ok. destruct a. apply check_run in Hc as (Hs & rb & Hrb & Hw & Hk & n & fs' & Hpr); [|done..].
    split; [done|]. exists b, l. split_and!; [done..|]. split; [done|]. right. exists rb, n, fs', s1. by rewrite Eb.
  - destruct (IsNotExist e) eqn:E; [|done]. unfold IsNotExist in E. bool_prop. subst. intros [= <- <- <-]. split; [done|].
    exists b, l. split_and!; [done..|]. split; [done|by left].
Qed.

(** Where a checked path leads is below the real path of the base. *)
Lemma checked_place d follow c b l p :
  d !! [] = Some EDir → checked d follow b l → (c = true → follow = false) → walk c d kernel_links [] (b ++ l) = Ok p →
  ∃ rb, walk true d eval_links [] b = Ok rb ∧ rb `prefix_of` p.
Proof.
  intros Hroot [Hp [Hm|(rb & n & fs & s & _ & Hb & Hrb & Hk & Hpr)]] Hc Hw; pose proof Hp as [Hpb Hpl]%Forall_app.
  { destruct l as [|y l].
    - exists p. split; [|done]. rewrite app_nil_r in Hw. apply walk_more with (n := kernel_links); [apply links_le|].
      destruct c; [done|by apply walk_create_more].
    - apply walk_app in Hw as (q & m & _ & Hq & _). apply walk_lstat in Hq as [e He]; [|done..]. by rewrite Hm in He. }
  exists rb. split; [by apply walk_create_more|].
  assert (Hmore : walk c d eval_links [] (b ++ l) = Ok p) by (eapply walk_more; [|exact Hw]; apply links_le).
  apply probe_step in Hpr as [(r & Hr & Hin)|(Hne & _ & fs' & Hpr)].
  - apply eval_render in Hr as (q & Hq & Hqp & ->); [|done..]. rewrite Clean_render in Hin by done. apply inside_prefix in Hin; [|done..].
    destruct c; [apply walk_create_more in Hq|]; congruence.
  - unfold eval_symlinks in Hne. rewrite real_render in Hne by done. destruct c; [|by rewrite Hmore in Hne].
    destruct (b ++ l) as [|x cs _] using rev_ind; [by rewrite walk_nil in Hne|].
    apply walk_app in Hw as (q & m & _ & Hq & Hx). rewrite Dir_render in Hpr by done. apply Forall_app in Hp as [Hcs Hpx].
    pose proof (walk_from_dir _ _ _ _ _ _ _ Hx) as Hqd. apply walk_last in Hx as ->; [|by inversion Hpx|].
    2: { intros t Ht. apply (Hk (Hc eq_refl) t). by rewrite lstat_last, Hq, Hqd, Ht by by try apply Forall_app. }
    assert (Hq' : walk false d eval_links [] cs = Ok q) by (eapply walk_more; [|exact Hq]; apply links_le).
    apply probe_step in Hpr as [(r & Hr & Hin)|(Hne' & _)].
    + apply eval_render in Hr as (q' & Hr & Hqp & ->); [|done..]. rewrite Clean_render in Hin by done. apply inside_prefix in Hin; [|done..].
      rewrite Hq' in Hr. injection Hr as <-. by apply prefix_app_r.
    + unfold eval_symlinks in Hne'. by rewrite real_render, Hq' in Hne'.
Qed.


Lemma confined_resolves cwd base rel target ex d s : confinedPath cwd base rel d = (Ok (target, ex), s) → resolve cwd base rel = Ok target.
Proof.
  unfold confinedPath. destruct (resolve cwd base rel) as [tg|]; [|done]. intros ([e|e] & s2 & _ & E)%bind_ok.
  - by apply bind_ok in E as (? & ? & _ & [= <- _ _]).
  - destruct (IsNotExist e); [by injection E as <- _ _|done].
Qed.


(** A place a file can be at: nothing, or a file. *)
Definition file_place (d : Disk) (p : list string) : Prop := d !! p = None ∨ ∃ c, d !! p = Some (EFile c).

Lemma WriteFile_run target data d fs r s : WriteFile target data (mkDb d fs) = (r, s) →
  (tables s = d ∧ is_ok r = false) ∨
  ∃ p, real true kernel_links d target = Ok p ∧ file_place d p ∧ tables s = <[p := EFile (if is_ok r then data else "")]> d.
Proof.
  unfold WriteFile, open_trunc, db_bind, exec. cbn [tables faults]. destruct (next_fault fs) as [f fs1]; destruct f; [injection 1 as <- <-; by left|].
  destruct (real true kernel_links d target) as [p|e]; [|injection 1 as <- <-; by left].
  destruct (d !! p) as [[c| |t]|] eqn:Ed; try (injection 1 as <- <-; by left);
    cbn [tables faults]; destruct (next_fault fs1) as [g fs2]; destruct g; injection 1 as <- <-; right; exists p; cbn [tables is_ok];
    (split_and!; [done|unfold file_place; rewrite Ed; eauto|by rewrite ?insert_insert_eq]).
Qed.

(** ** Properties *)



(** What is read below a directory is the content of a file below its real path, whichever calls fail. *)
Theorem safe_read_confined cwd base rel c d fs s :
  IsAbs cwd = true → d !! [] = Some EDir → SafeReadFile cwd base rel (mkDb d fs) = (Ok c, s) →
  tables s = d ∧ ∃ rb p, real true eval_links d (Clean (Abs cwd base)) = Ok rb ∧ rb `prefix_of` p ∧ d !! p = Some (EFile c).
Proof.
  intros Hcwd Hroot ([target ex] & s1 & E & Hr)%bind_ok. apply confined_checked in E as (Hs & b & l & Hb & -> & Hck); [|done..].
  apply exec_ok in Hr. rewrite Hs in Hr. destruct (read_file _ d) as [c'|] eqn:E; [|done]. injection Hr as -> <-. split; [done|].
  unfold read_file in E. rewrite Hb, !real_render in * by (done || apply Hck || by destruct Hck as [[]%Forall_app _]).
  destruct (walk false d kernel_links [] (b ++ l)) as [p|] eqn:Ew; [|done].
  destruct (checked_place d true false b l p Hroot) as (rb & Hrb & Hp); [|done|done|].
  - destruct Hck as [H1 [H2|(rb & n & fs' & s' & Hck)]]; split; [done|by left|done|right; exists rb, n, fs', s'; naive_solver].
  - exists rb, p. destruct (d !! p) as [[?| |?]|]; by simplify_eq.
Qed.

(** ** Reading back *)

Section After.
Context (d : Disk) (Hroot : d !! [] = Some EDir) (p : list string) (data : string).
Context (Hfile : d !! p = None ∨ ∃ c, d !! p = Some (EFile c)).
Notation d' := (<[p := EFile data]> d).

Lemma after_dir q : d !! q = Some EDir → d' !! q = Some EDir.
Proof. intros H. rewrite lookup_insert_ne; [done|]. intros <-. destruct Hfile as [|[]]; congruence. Qed.

Lemma after_root : d' !! [] = Some EDir.
Proof. by apply after_dir. Qed.

(** Every walk still leads where it led, and the one to the file finds it. *)
Lemma walk_after c n cur todo q : walk c d n cur todo = Ok q → c = false ∨ q = p → walk false d' n cur todo = Ok q.
Proof.
  walk_induct n cur todo. destruct todo as [|x r]; [by rewrite !walk_nil|]. intros Hw Hc. pose proof (walk_from_dir _ _ _ _ _ _ _ Hw) as Hd.
  revert Hw. rewrite !walk_cons, (after_dir _ Hd), Hd. destruct (_ || _); [intros; by eapply IHr|]. destruct (x =?s ".."); [intros; by eapply IHr|].
  destruct (decide (cur ++ [x] = p)) as [<-|Hne].
  - rewrite lookup_insert_eq. destruct Hfile as [->|[c0 ->]]; [|intros; by eapply IHr].
    destruct r; [|done]. destruct c; [|done]. by rewrite walk_nil.
  - rewrite lookup_insert_ne by done. destruct (d !! (cur ++ [x])) as [[?| |t]|]; try (intros; by eapply IHr).
    + destruct n as [|n]; [done|]. intros Hw. apply IHn; [lia|done|done].
    + destruct r; [|done]. destruct c; [|done]. intros [= <-]. by destruct Hc.
Qed.

Lemma lstat_after cs e : Forall plain cs → lstat (render true cs) d = Ok e → ∃ e', lstat (render true cs) d' = Ok e'.
Proof.
  intros Hcs. destruct cs as [|x cs _] using rev_ind; [intros _; exists EDir; unfold lstat; by rewrite components_render, after_root|].
  rewrite !lstat_last by (done || apply after_root). destruct (walk false d kernel_links [] cs) as [q|] eqn:E; [|done].
  rewrite (walk_after _ _ _ _ _ E (or_introl eq_refl)). destruct (d !! q) as [[?| |?]|] eqn:Eq; try done.
  rewrite (after_dir _ Eq). destruct (decide (q ++ [x] = p)) as [<-|Hne]; [rewrite lookup_insert_eq; by eexists|].
  rewrite lookup_insert_ne by done. destruct (d !! (q ++ [x])); [by eexists|done].
Qed.

(** The file that was written is seen as a file. *)
Lemma lstat_written cs :
  Forall plain cs → walk true d kernel_links [] cs = Ok p → (∀ t, lstat (render true cs) d ≠ Ok (ELink t)) →
  lstat (render true cs) d' = Ok (EFile data).
Proof.
  intros Hcs Hw Hl. destruct cs as [|x cs _] using rev_ind.
  { rewrite walk_nil in Hw. injection Hw as <-. destruct Hfile as [|[]]; congruence. }
  apply walk_app in Hw as (q & m & _ & Hq & Hx). pose proof (walk_from_dir _ _ _ _ _ _ _ Hx) as Hd.
  apply walk_last in Hx; [|by apply Forall_app in Hcs as [_ Hx']; inversion Hx'|intros t Ht; apply (Hl t); by rewrite lstat_last, Hq, Hd, Ht by done].
  rewrite lstat_last by (done || apply after_root). rewrite (walk_after _ _ _ _ _ Hq (or_introl eq_refl)), (after_dir _ Hd). subst p.
  by rewrite lookup_insert_eq.
Qed.
End After.

Lemma prefix_inside b l : b ≠ [] ∨ l = [] → b `prefix_of` l → inside (render true b) (render true l) = true.
Proof.
  unfold inside. intros Hb [k ->]. destruct k as [|y k]; [by rewrite app_nil_r, String.eqb_refl|]. apply orb_true_iff. right.
  destruct Hb as [Hb|Hb]; [|by destruct b]. apply HasPrefix_iff. exists (Join (y :: k) "/"). unfold render. revert y.
  assert (H : ∀ y, Join (b ++ y :: k) "/" = Join b "/" +:+ "/" +:+ Join (y :: k) "/").
  { intros y. induction b as [|x b IH]; [done|]. destruct b as [|z b]; [done|].
    change (Join ((x :: z :: b) ++ y :: k) "/") with (x +:+ "/" +:+ Join ((z :: b) ++ y :: k) "/"). rewrite IH by done.
    change (Join (x :: z :: b) "/") with (x +:+ "/" +:+ Join (z :: b) "/"). by rewrite !str_app_assoc. }
  intros y. by rewrite H, !str_app_assoc.
Qed.

Lemma look_healthy {A} (f : Disk → result A) d : attempt (look f) (healthy d) = (Ok (f d), healthy d).
Proof. apply (look_run d f []). Qed.

(** The checks pass when everything exists inside. *)
Lemma confined_passes cwd base rel d b l rb q e c :
  d !! [] = Some EDir → Forall plain (b ++ l) → Clean (Abs cwd base) = render true b → resolve cwd base rel = Ok (render true (b ++ l)) →
  lstat (render true b) d = Ok e → walk false d eval_links [] b = Ok rb → lstat (render true (b ++ l)) d = Ok (EFile c) →
  walk false d eval_links [] (b ++ l) = Ok q → inside (render true rb) (render true q) = true →
  confinedPath cwd base rel (healthy d) = (Ok (render true (b ++ l), true), healthy d).
Proof.
  intros Hroot Hp Hb Hr Hlb Hrb Hlt Hq Hin. pose proof Hp as [Hpb _]%Forall_app. unfold confinedPath. rewrite Hr, Hb. cbv zeta.
  assert (Hpl : ∀ cs r, Forall plain cs → walk false d eval_links [] cs = Ok r → Forall plain r)
    by (intros cs r Hcs; by apply walk_plain; [apply plain_noslash|]).
  unfold Lstat, EvalSymlinks. rewrite (bind_run _ _ _ _ _ (look_healthy _ d)), Hlb.
  rewrite (bind_run _ _ (healthy d) tt (healthy d)); [done|]. unfold checkNoSymlinkEscape, Lstat, EvalSymlinks.
  rewrite (bind_run _ _ _ _ _ (look_healthy _ d)). unfold eval_symlinks at 1. rewrite real_render, Hrb by done. cbn [result_map]. cbv zeta.
  rewrite (bind_run _ _ _ _ _ (look_healthy _ d)), Hlt. cbn [probe_up]. unfold EvalSymlinks. rewrite (bind_run _ _ _ _ _ (look_healthy _ d)).
  unfold eval_symlinks at 1. rewrite real_render, Hq by done. cbn [result_map]. rewrite (Clean_render rb), (Clean_render q), Hin by (eapply Hpl; [|eassumption]; done). done.
Qed.

(** On a disk whose calls do not fail, what was written below a directory other than the root is what reading it gives. *)
Theorem safe_write_reads_back cwd base rel data d s :
  IsAbs cwd = true → d !! [] = Some EDir → real true eval_links d (Clean (Abs cwd base)) ≠ Ok [] →
  SafeWriteFile cwd base rel data (healthy d) = (Ok tt, s) → (SafeReadFile cwd base rel (healthy (tables s))).1 = Ok data.
Proof.
  intros Hcwd Hroot Hnr ([target ex] & s1 & E & Hw)%bind_ok.
  pose proof (confined_resolves _ _ _ _ _ _ _ E) as Hres.
  apply confined_checked in E as (Hs & b & l & Hb & -> & Hck); [|done..]. pose proof (ck_plain _ _ _ _ Hck) as Hp. pose proof Hp as [Hpb _]%Forall_app.
  cbn [nth] in Hck. rewrite Hb, real_render in Hnr by done. destruct s1 as [ds fs1]. cbn in Hs. subst ds.
  apply WriteFile_run in Hw as [[_ Hr]|(p & Ew & Hfile)]; [done|]. rewrite real_render in Ew by done. cbn [is_ok] in Hfile.
  destruct (checked_place _ _ _ _ _ _ Hroot Hck (λ _, eq_refl) Ew) as (rb & Hrb & Hpre).
  destruct Hfile as [Hfile ->]. pose proof (after_root d Hroot p data Hfile) as Hroot'.
  pose proof (walk_more _ _ _ _ _ _ _ links_le Ew) as Ew'.
  assert (Hbase : l = [] ∧ lstat (render true b) d = Err ENOENT ∨ (∃ e, lstat (render true b) d = Ok e) ∧ walk false d eval_links [] b = Ok rb ∧
                  ∀ t, lstat (render true (b ++ l)) d ≠ Ok (ELink t)).
  { destruct (ck_base _ _ _ _ Hck) as [Hm|(rb0 & ? & ? & ? & He & Hw0 & _ & Hk & _)].
    - destruct l as [|y l]; [by left|]. apply walk_app in Ew as (q & m & _ & Hq & _). apply walk_lstat in Hq as [e He]; [|done..]. by rewrite Hm in He.
    - right. pose proof (walk_create_more _ _ _ _ _ Hw0). assert (rb0 = rb) as -> by congruence.
      split_and!; [|done|by apply Hk]. destruct (lstat (render true b) d); [by eexists|done]. }
  assert (Hlt : lstat (render true (b ++ l)) (<[p := EFile data]> d) = Ok (EFile data)).
  { apply (lstat_written d Hroot p data Hfile (b ++ l) Hp Ew). destruct Hbase as [[-> Hm]|(_ & _ & Hk)]; [|done]. rewrite app_nil_r, Hm. done. }
  assert (Hq : walk false (<[p := EFile data]> d) kernel_links [] (b ++ l) = Ok p) 
    by (apply (walk_after d p data Hfile true); [exact Ew|by right]).
  assert (Hb' : (∃ e, lstat (render true b) (<[p := EFile data]> d) = Ok e) ∧ walk false (<[p := EFile data]> d) eval_links [] b = Ok rb).
  { destruct Hbase as [[-> _]|([e He] & Hwb & _)].
    - rewrite app_nil_r in *. split; [by eexists|]. assert (rb = p) as -> by congruence. exact (walk_more _ _ _ _ _ _ _ links_le Hq).
    - split; [by apply (lstat_after d Hroot p data Hfile b e Hpb)|]. apply (walk_after d p data Hfile false); [done|by left]. }
  destruct Hb' as [[e He] Hwb]. pose proof (walk_more _ _ _ _ _ _ _ links_le Hq) as Hq'.
  unfold SafeReadFile. rewrite (bind_run _ _ _ _ _ (confined_passes cwd base rel _ b l rb p e data Hroot' Hp Hb Hres He Hwb Hlt Hq'
    (prefix_inside _ _ (or_introl (λ E, Hnr (eq_trans Hrb (f_equal Ok E)))) Hpre))).
  unfold ReadFile, look. rewrite exec_healthy. unfold read_file. by rewrite real_render, Hq, lookup_insert_eq by done.
Qed.

(** ** Fuel *)

Lemma length_render cs : Forall plain cs → length cs ≤ String.length (render true cs).
Proof.
  intros H. destruct cs as [|c l]; [simpl; lia|]. unfold render. rewrite str_length_app. change (String.length "/") with 1. cbn [length].
  enough (Hx : ∀ x, length l < String.length (Join (x :: l) "/") + 1) by (specialize (Hx c); lia).
  clear H. induction l as [|y l IH]; intros x; [simpl; lia|]. change (Join (x :: y :: l) "/") with (x +:+ "/" +:+ Join (y :: l) "/").
  rewrite !str_length_app. specialize (IH y). change (String.length "/") with 1. cbn [length]. lia.
Qed.

(** The loop that walks up always ends: a path has fewer ancestors than bytes. *)
Theorem probe_ends rb cs d fs : Forall plain cs → (probe_up (S (String.length (render true cs))) rb (render true cs) (mkDb d fs)).1 ≠ Err "out of fuel".
Proof.
  intros H. assert (Hn : length cs < S (String.length (render true cs))) by (pose proof (length_render _ H); lia).
  revert Hn. generalize (S (String.length (render true cs))) as n. intros n. revert n fs. induction cs as [|x cs IH] using rev_ind; intros n fs Hn;
    (destruct n as [|n]; [lia|]); cbn [probe_up]; unfold EvalSymlinks; rewrite (bind_run _ _ _ _ _ (look_run d _ fs));
    (destruct (if (next_fault fs).1 then Err db_error else eval_symlinks _ d) as [r|e]; [by destruct (inside _ _)|]); (destruct (negb _); [done|]); cbv zeta.
  - done.
  - rewrite Dir_render by done. destruct (_ =?s _); [done|]. apply Forall_app in H as [H _]. apply IH; [done|]. rewrite length_app in Hn. simpl in Hn. lia.
Qed.

(** ** Examples *)

(** A project with a link to another directory, a link to a missing file elsewhere and a link that stays inside. *)
Definition project : Disk :=
  list_to_map [([], EDir); (["home"], EDir); (["home"; "p"], EDir); (["etc"], EDir); (["home"; "p"; "out"], ELink "/etc");
               (["home"; "p"; "in"], ELink "sub"); (["home"; "p"; "sub"], EDir); (["home"; "p"; ".mcp.json"], ELink "/etc/token")].

Example project_writes :
  map (λ rel, (SafeWriteFile "/home" "p" rel "secret" (healthy project)).1)
      ["new.json"; "in/a.json"; ".mcp.json"; "out/x"; "../x"; "sub/../../x"; "none/x"]
  = [Ok tt; Ok tt; Err "safefile: refusing to follow symlink"; Err "safefile: target resolves outside base (symlink escape)";
     Err "safefile: path escapes base"; Err "safefile: path escapes base"; Err ENOENT].
Proof. vm_compute. reflexivity. Qed.


Lemma safe_read_confined_witness :
  let d := <[["home"; "p"; "sub"; "a"] := EFile "x"]> project in
  ∃ rb p, real true eval_links d (Clean (Abs "/home" "p")) = Ok rb ∧ rb `prefix_of` p ∧ d !! p = Some (EFile "x").
Proof.
  cbv zeta. refine (proj2 (safe_read_confined "/home" "p" "in/a" "x" (<[["home"; "p"; "sub"; "a"] := EFile "x"]> project) []
    (healthy (<[["home"; "p"; "sub"; "a"] := EFile "x"]> project)) _ _ _)); vm_compute; reflexivity.
Defined.

Lemma safe_write_reads_back_witness :
  (SafeReadFile "/home" "p" "in/a.json" (healthy (tables (SafeWriteFile "/home" "p" "in/a.json" "secret" (healthy project)).2))).1 = Ok "secret".
Proof.
  apply (safe_write_reads_back "/home" "p" "in/a.json" "secret" project); [reflexivity|reflexivity|vm_compute; discriminate|].
  vm_compute. reflexivity.
Defined.

Lemma probe_ends_witness : (probe_up (S (String.length "/home/p")) "/home" "/home/p" (healthy project)).1 ≠ Err "out of fuel".
Proof. apply (probe_ends "/home" ["home"; "p"] project []). repeat constructor; done. Defined.

(** The link to the missing file is only refused while the call that looks at it works: its error is dropped. *)
Theorem failed_look_escapes :
  tables (SafeWriteFile "/home" "p" ".mcp.json" "secret" (mkDb project [false; false; true])).2 !! ["etc"; "token"] = Some (EFile "secret").
Proof. vm_compute. reflexivity. Qed.

(** Below the root itself a file can be made but neither read nor written again. *)
Theorem root_write_once :
  let s := (SafeWriteFile "/" "/" "x" "1" (healthy project)).2 in
  (SafeWriteFile "/" "/" "x" "1" (healthy project)).1 = Ok tt ∧ is_ok (SafeReadFile "/" "/" "x" s).1 = false ∧ is_ok (SafeWriteFile "/" "/" "x" "2" s).1 = false.
Proof. vm_compute. done. Qed.
