(* ===== verification/Catalog.v ===== *)
(** * The server catalog

    [catalog/catalog.go] and [handleCatalogSearch]: a query is sent to the MCP registry, whose answer
    is resolved into deployment options, scored, sorted and cut.  The registry is the parameter
    [registry]: the answer to a request, or an error of the network. *)
From stdpp Require Import pretty.
From S2P Require Import Prelude GoStrings Json JsonDecode GoPath SafeFile ExtractText Servers OAuthClient.

(** ** Data *)

Record Repository := mkRepository { repoURL : string; repoSource : string }.
Record EnvironmentVariable := mkEnvVar { evName : string; evDescription : string; evRequired : bool; evSecret : bool; evFormat : string }.
Record Package := mkPackage {
  pkRegistryType : string; pkIdentifier : string; pkVersion : string; pkTransport : string; pkEnv : list EnvironmentVariable }.
Record Header := mkHeader { hdName : string; hdDescription : string; hdRequired : bool; hdSecret : bool }.
Record Remote := mkRemote { rmType : string; rmURL : string; rmHeaders : list Header }.

Record ServerInfo := mkServerInfo {
  siName : string; siTitle : string; siDescription : string; siVersion : string; siRepository : Repository;
  siPackages : list Package; siRemotes : list Remote }.

Record RegistryResponse := mkRegistryResponse { rrServers : list ServerInfo; rrCount : Z }.

Record ResolvedServer := mkResolved {
  rsRegistryName : string; rsTitle : string; rsDescription : string; rsVersion : string; rsRepoURL : string; rsSlug : string;
  rsDisplay : string; rsServerType : string; rsDockerImage : string; rsPackageType : string; rsPackageName : string;
  rsEnvVars : list EnvironmentVariable; rsRemoteURL : string; rsRemoteType : string }.

(** ** Decoding the registry's answer *)

(** A field that is a struct: every key that names it is decoded into it in turn. *)
Fixpoint nested (name : string) (l : list (string * json)) : option (list (string * json)) :=
  match l with
  | [] => Some []
  | (k, v) :: r =>
      if EqualFold k name then
        match v with
        | JObj o => app o <$> nested name r
        | JNull => nested name r
        | _ => None
        end
      else nested name r
  end.

Definition decode_env (l : list (string * json)) : option EnvironmentVariable :=
  n ← decode_string_field "name" l ""; d ← decode_string_field "description" l ""; r ← decode_bool_field "isRequired" l false;
  s ← decode_bool_field "isSecret" l false; f ← decode_string_field "format" l ""; Some (mkEnvVar n d r s f).

Definition decode_package (l : list (string * json)) : option Package :=
  t ← decode_string_field "registryType" l ""; i ← decode_string_field "identifier" l ""; v ← decode_string_field "version" l "";
  tr ← nested "transport" l; tt ← decode_string_field "type" tr "";
  e ← decode_struct_list decode_env (decode_raw_field "environmentVariables" l None); Some (mkPackage t i v tt e).

Definition decode_header (l : list (string * json)) : option Header :=
  n ← decode_string_field "name" l ""; d ← decode_string_field "description" l ""; r ← decode_bool_field "isRequired" l false;
  s ← decode_bool_field "isSecret" l false; Some (mkHeader n d r s).

Definition decode_remote (l : list (string * json)) : option Remote :=
  t ← decode_string_field "type" l ""; u ← decode_string_field "url" l "";
  h ← decode_struct_list decode_header (decode_raw_field "headers" l None); Some (mkRemote t u h).

Definition decode_info (l : list (string * json)) : option ServerInfo :=
  n ← decode_string_field "name" l ""; t ← decode_string_field "title" l ""; d ← decode_string_field "description" l "";
  v ← decode_string_field "version" l ""; ro ← nested "repository" l; ru ← decode_string_field "url" ro ""; rs ← decode_string_field "source" ro "";
  p ← decode_struct_list decode_package (decode_raw_field "packages" l None);
  r ← decode_struct_list decode_remote (decode_raw_field "remotes" l None);
  Some (mkServerInfo n t d v (mkRepository ru rs) p r).

Definition decode_entry (l : list (string * json)) : option ServerInfo := o ← nested "server" l; decode_info o.

Definition decode_registry (body : string) : option RegistryResponse :=
  l ← struct_fields body; s ← decode_struct_list decode_entry (decode_raw_field "servers" l None);
  m ← nested "metadata" l; c ← decode_int_field "count" m 0; Some (mkRegistryResponse s c).

(** ** Names *)

(** [strings.Map] of the lower-case name: one byte for each rune. *)
Fixpoint slug_bytes (fuel : nat) (s : string) : string :=
  match fuel, s with
  | S fuel, String c r =>
      let '(rune, w) := decode_rune c r in
      let l := lower_rune rune in
      String (if alnum_rune l then ascii_of_N l else "-"%char) (slug_bytes fuel (drop_str (w - 1) r))
  | _, _ => ""
  end.

Definition after_last_slash (name : string) : string :=
  match LastIndex name "/" with Some i => drop_str (S i) name | None => name end.

Definition deriveSlug (name : string) : string :=
  let name := after_last_slash name in trim_func is_dash (slug_bytes (String.length name) name).

Definition capitalize (w : string) : string := match w with String c r => String (upper_char c) r | EmptyString => "" end.

Definition deriveDisplay (info : ServerInfo) (slug : string) : string :=
  if siTitle info !=? "" then siTitle info else Join (map capitalize (Split slug "-"%char)) " ".

(** ** Resolving *)

(** An option with the fields every option has. *)
Definition option_of (info : ServerInfo) (serverType image pkgType pkgName : string) (env : list EnvironmentVariable) (url remoteType : string) : ResolvedServer :=
  let slug := deriveSlug (siName info) in
  let display := deriveDisplay info slug in
  mkResolved (siName info) display (siDescription info) (siVersion info) (repoURL (siRepository info)) slug display serverType image pkgType pkgName
    env url remoteType.

Definition Resolve (info : ServerInfo) : list ResolvedServer :=
  let remotes := map (λ r, option_of info "remote" "" "" "" [] (rmURL r) (rmType r)) (siRemotes info) in
  let images := omap (λ p, if pkRegistryType p =?s "oci" then Some (option_of info "stdio" (pkIdentifier p) "" "" (pkEnv p) "" "") else None)
                  (siPackages info) in
  match remotes ++ images with
  | [] => match List.find (λ p, (pkRegistryType p =?s "npm") || (pkRegistryType p =?s "pypi")) (siPackages info) with
          | Some p => [option_of info "stdio" "" (pkRegistryType p) (pkIdentifier p) (pkEnv p) "" ""]
          | None => []
          end
  | results => results
  end.

(** ** Scoring *)

(** [strings.ReplaceAll(s, " ", "-")] *)
Definition hyphenated : string → string := map_str (λ c, if Ascii.eqb c " "%char then "-"%char else c).

(** [strings.Fields] *)
Fixpoint fields (s : string) (cur : string) : list string :=
  match s with
  | EmptyString => if cur =?s "" then [] else [cur]
  | String c r => if is_space c then (if cur =?s "" then fields r "" else cur :: fields r "") else fields r (cur +:+ String c "")
  end.

Definition Fields (s : string) : list string := fields s "".

Definition relevanceScore (info : ServerInfo) (query : string) : Z :=
  let slug := deriveSlug (siName info) in
  let queryHyphen := hyphenated query in
  let nameLower := ToLower (siName info) in
  let descLower := ToLower (siDescription info) in
  let titleLower := ToLower (siTitle info) in
  let score := (if slug =?s queryHyphen then 100
                else if (slug =?s queryHyphen +:+ "-mcp") || (slug =?s "mcp-" +:+ queryHyphen) then 90 else 0)%Z in
  let score := (if Contains slug queryHyphen then score + 50 else score)%Z in
  let score := (if (titleLower !=? "") && Contains titleLower query then score + 40 else score)%Z in
  let queryWords := Fields query in
  let descMatches := length (List.filter (Contains descLower) queryWords) in
  let score := if (descMatches =? length queryWords) && (0 <? length queryWords) then (score + 30)%Z
               else if 0 <? descMatches then (score + 15)%Z else score in
  let namePart := after_last_slash nameLower in
  let score := (if Contains namePart queryHyphen then score + 20 else score)%Z in
  if (score =? 0)%Z then
    let prefix := match LastIndex nameLower "/" with Some i => take_str i nameLower | None => nameLower end in
    if Contains prefix queryHyphen && negb (Contains namePart queryHyphen) && negb (Contains descLower query) then 0%Z else score
  else score.

(** ** Searching *)

Inductive Fetched := FNetwork (e : string) | FAnswer (status : Z) (body : string).

Section Search.
Context (registry : string → Fetched).

Definition registryBaseURL : string := "https://registry.modelcontextprotocol.io/v0/servers".

Definition fetchRegistry (query : string) (limit : Z) : result RegistryResponse :=
  match registry (registryBaseURL +:+ "?search=" +:+ QueryEscape query +:+ "&limit=" +:+ pretty limit) with
  | FNetwork e => Err ("registry request failed: " +:+ e)
  | FAnswer status body =>
      if negb (status =? 200)%Z then Err ("registry returned " +:+ pretty status +:+ ": " +:+ body)
      else match decode_registry body with
           | None => Err "parsing registry response"
           | Some r => Ok r
           end
  end.

(** Score and option. *)
Notation scored := (Z * ResolvedServer)%type.

Definition candidates_of (query : string) (entries : list ServerInfo) : list scored :=
  flat_map (λ e, map (pair (relevanceScore e query)) (Resolve e)) entries.

(** Higher scores first, then titles. *)
Definition ranks (a b : scored) : bool :=
  if negb (a.1 =? b.1)%Z then (b.1 <? a.1)%Z else String.leb (rsTitle a.2) (rsTitle b.2).

(** The loop that skips what does not match and stops at the limit. *)
Fixpoint collect (limit : Z) (l : list scored) (results : list ResolvedServer) : list ResolvedServer :=
  match l with
  | [] => results
  | c :: r =>
      if (c.1 <=? 0)%Z then collect limit r results
      else
        let results := results ++ [c.2] in
        if (limit <=? Z.of_nat (length results))%Z then results else collect limit r results
  end.

Definition SearchCatalog (query : string) (limit : Z) : result (list ResolvedServer) :=
  let limit := if (limit <=? 0)%Z then 20%Z else limit in
  let normalized := ToLower (TrimSpace query) in
  match fetchRegistry (hyphenated normalized) 100 with
  | Err e => Err e
  | Ok resp => Ok (collect limit (stable_sort ranks (candidates_of normalized (rrServers resp))) [])
  end.

(** [handleCatalogSearch]: an error is an empty list. *)
Definition handleCatalogSearch (q : string) : list ResolvedServer :=
  let q := TrimSpace q in
  if q =?s "" then [] else match SearchCatalog q 20 with Err _ => [] | Ok results => results end.
End Search.

(** ** The best options, in order *)

Notation scored := (Z * ResolvedServer)%type.

Definition relevant (c : scored) : bool := (0 <? c.1)%Z.

Lemma collect_take limit l acc :
  (Z.of_nat (length acc) < limit)%Z →
  collect limit l acc = acc ++ take (Z.to_nat limit - length acc) (map snd (List.filter relevant l)).
Proof.
  revert acc. induction l as [|c l IH]; intros acc Ha; cbn [collect List.filter]; [cbn [map]; by rewrite take_nil, app_nil_r|].
  unfold relevant at 1. destruct (c.1 <=? 0)%Z eqn:E; [replace (0 <? c.1)%Z with false by lia; by apply IH|].
  replace (0 <? c.1)%Z with true by lia. cbn [map]. replace (Z.to_nat limit - length acc) with (S (Z.to_nat limit - length (acc ++ [c.2]))) by (rewrite length_app; cbn; lia).
  cbn [take]. cbv zeta. destruct (limit <=? _)%Z eqn:El; [|rewrite IH by lia; by rewrite <- app_assoc].
  by replace (Z.to_nat limit - length (acc ++ [c.2])) with 0 by lia.
Qed.

Lemma ranks_total a b : ranks a b = true ∨ ranks b a = true.
Proof. unfold ranks. destruct (a.1 =? b.1)%Z eqn:E; rewrite (Z.eqb_sym b.1), E; cbn [negb]; [apply String_leb_total|lia]. Qed.

Lemma ranks_trans a b c : ranks a b = true → ranks b c = true → ranks a c = true.
Proof.
  unfold ranks. destruct (a.1 =? b.1)%Z eqn:E1, (b.1 =? c.1)%Z eqn:E2, (a.1 =? c.1)%Z eqn:E3; cbn [negb]; try lia.
  apply String_leb_trans.
Qed.

Lemma filter_strongly {A} (R : A → A → Prop) (f : A → bool) l : StronglySorted R l → StronglySorted R (List.filter f l).
Proof.
  induction 1 as [|x l Hs IH Hx]; [constructor|]. cbn. destruct (f x); [|done]. constructor; [done|].
  apply List.Forall_forall. intros y [Hy _]%filter_In. by eapply List.Forall_forall in Hx.
Qed.

Lemma strongly_app {A} (R : A → A → Prop) l1 l2 : StronglySorted R (l1 ++ l2) → StronglySorted R l1 ∧ ∀ x y, x ∈ l1 → y ∈ l2 → R x y.
Proof.
  induction l1 as [|a l1 IH]; cbn; [intros _; split; [constructor|by intros x y []%elem_of_nil]|].
  inversion 1 as [|? ? Hs Ha]; subst. destruct (IH Hs) as [H1 H2]. apply Forall_app in Ha as [Ha1 Ha2]. split; [by constructor|].
  intros x y [->|Hx]%elem_of_cons Hy; [|by apply H2]. by eapply Forall_forall in Ha2.
Qed.

Lemma filter_perm {A} (f : A → bool) l k : l ≡ₚ k → List.filter f l ≡ₚ List.filter f k.
Proof.
  induction 1 as [|x l k _ IH|x y l|l1 l2 l3 _ IH1 _ IH2]; cbn; [done|by destruct (f x); rewrite IH| |by rewrite IH1].
  destruct (f x), (f y); [apply Permutation_swap|done..].
Qed.

(** *** What matches, and what a score means *)

(** The deployment options of the entries, each with its entry. *)
Definition options (entries : list ServerInfo) : list (ServerInfo * ResolvedServer) := flat_map (λ e, map (pair e) (Resolve e)) entries.

(** The query is in the name (as it is or as a slug) or in the title, or a word of it is in the description. *)
Definition matches (q : string) (info : ServerInfo) : bool :=
  Contains (deriveSlug (siName info)) (hyphenated q) || Contains (after_last_slash (ToLower (siName info))) (hyphenated q) ||
  (ToLower (siTitle info) !=? "") && Contains (ToLower (siTitle info)) q || existsb (Contains (ToLower (siDescription info))) (Fields q).

(** The server has the very name that is asked for, or that name with the usual [mcp] before or after it. *)
Definition name_is (q : string) (info : ServerInfo) : Prop := deriveSlug (siName info) = hyphenated q.
Definition name_like (q : string) (info : ServerInfo) : Prop :=
  deriveSlug (siName info) ∈ [hyphenated q; hyphenated q +:+ "-mcp"; "mcp-" +:+ hyphenated q].

#[local] Instance name_like_dec q info : Decision (name_like q info).
Proof. unfold name_like. apply _. Defined.

Lemma Contains_affix (a b c : string) : Contains (a +:+ b +:+ c) b = true.
Proof. apply Contains_iff. by exists a, c. Qed.

Lemma like_contains q info : name_like q info → Contains (deriveSlug (siName info)) (hyphenated q) = true.
Proof.
  unfold name_like. set_unfold. intros [->|[->|[->|[]]]]; [|apply (Contains_affix "")|].
  - pose proof (Contains_affix "" (hyphenated q) "") as H. by rewrite str_app_nil_r in H.
  - pose proof (Contains_affix "mcp-" (hyphenated q) "") as H. by rewrite str_app_nil_r in H.
Qed.

Lemma words_matched (f : string → bool) (l : list string) : (0 <? length (List.filter f l)) = existsb f l.
Proof. induction l as [|x l IH]; [done|]. cbn. by destruct (f x). Qed.

(** The score without the last branch, which sets zero to zero. *)
Lemma score_parts info q : ∃ name desc : Z,
  relevanceScore info q = (name + (if Contains (deriveSlug (siName info)) (hyphenated q) then 50 else 0) +
    (if (ToLower (siTitle info) !=? "") && Contains (ToLower (siTitle info)) q then 40 else 0) + desc +
    (if Contains (after_last_slash (ToLower (siName info))) (hyphenated q) then 20 else 0))%Z ∧
  (name_is q info → name = 100%Z) ∧ (0 <= name <= 100)%Z ∧ (¬ name_like q info → name = 0%Z) ∧ (name_like q info → 0 < name)%Z ∧
  (0 <= desc <= 30)%Z ∧ (0 <? desc)%Z = existsb (Contains (ToLower (siDescription info))) (Fields q).
Proof.
  set (desc := if (length (List.filter (Contains (ToLower (siDescription info))) (Fields q)) =? length (Fields q)) && (0 <? length (Fields q)) then 30%Z
               else if 0 <? length (List.filter (Contains (ToLower (siDescription info))) (Fields q)) then 15%Z else 0%Z).
  set (name := (if deriveSlug (siName info) =?s hyphenated q then 100
                else if (deriveSlug (siName info) =?s hyphenated q +:+ "-mcp") || (deriveSlug (siName info) =?s "mcp-" +:+ hyphenated q) then 90 else 0)%Z).
  exists name, desc. split_and!.
  - unfold relevanceScore. cbv zeta. fold name.
    transitivity (let s := (name + (if Contains (deriveSlug (siName info)) (hyphenated q) then 50 else 0) +
      (if (ToLower (siTitle info) !=? "") && Contains (ToLower (siTitle info)) q then 40 else 0) + desc +
      (if Contains (after_last_slash (ToLower (siName info))) (hyphenated q) then 20 else 0))%Z in s); [|done].
    subst desc. cbv zeta.
    repeat match goal with |- context [if ?b then _ else _] => lazymatch b with context [if _ then _ else _] => fail | _ => destruct b eqn:? end end; lia.
  - intros Hn. subst name. by rewrite Hn, String.eqb_refl.
  - subst name. repeat case_if; lia.
  - subst name. repeat case_if; lia.
  - intros Hn. subst name. unfold name_like in Hn. destruct (_ =?s hyphenated q) eqn:E1; [apply String.eqb_eq in E1; exfalso; apply Hn; rewrite E1; left|].
    destruct (_ || _) eqn:E2; [|done]. exfalso. apply Hn. apply orb_true_iff in E2 as [E2|E2]; apply String.eqb_eq in E2; rewrite E2; [right; left|right; right; left].
  - intros Hn. subst name. unfold name_like in Hn. set_unfold. destruct Hn as [->|[->|[->|[]]]]; rewrite ?String.eqb_refl, ?orb_true_r; repeat case_if; lia.
  - subst desc. repeat case_if; lia.
  - subst desc. repeat case_if; lia.
  - subst desc. rewrite <- words_matched. destruct (0 <? length (List.filter (Contains _) _)) eqn:E; [by destruct (_ && _)|].
    destruct (_ && _) eqn:E2; [|done]. apply andb_true_iff in E2 as [E1%Nat.eqb_eq E2%Nat.ltb_lt]. apply Nat.ltb_ge in E. lia.
Qed.

(** Zero is the score of what does not match at all ... *)
Lemma score_matches info q : (0 <? relevanceScore info q)%Z = matches q info.
Proof.
  destruct (score_parts info q) as (name & desc & -> & _ & Hb & Hn & _ & Hd & He). unfold matches. rewrite <- He.
  destruct (Contains (deriveSlug _) _) eqn:Es; [cbn [orb]; repeat case_if; lia|].
  rewrite Hn by (intros Hl%like_contains; congruence). cbn [orb].
  destruct (Contains (after_last_slash _) _), (_ && _); cbn [orb]; try lia; destruct (0 <? desc)%Z eqn:E; lia.
Qed.

(** ... and nothing but a name like the query outranks the query's own name. *)
Lemma score_exact info q : name_is q info → (150 <= relevanceScore info q)%Z.
Proof.
  intros Hn. destruct (score_parts info q) as (name & desc & -> & Hx & _ & _ & _ & Hd & _). rewrite (Hx Hn), like_contains; [repeat case_if; lia|].
  unfold name_like. set_unfold. by left.
Qed.

Lemma score_other info q : ¬ name_like q info → (relevanceScore info q <= 140)%Z.
Proof. intros Hn. destruct (score_parts info q) as (name & desc & -> & _ & _ & -> & _ & Hd & _); [|done]. repeat case_if; lia. Qed.

Lemma sort_of_map {A B} (f : A → B) leb l : stable_sort leb (map f l) = map f (stable_sort (λ a b, leb (f a) (f b)) l).
Proof.
  induction l as [|x l IH]; [done|]. change (insert_sorted leb (f x) (stable_sort leb (map f l)) = map f (insert_sorted (λ a b, leb (f a) (f b)) x
    (stable_sort (λ a b, leb (f a) (f b)) l))). rewrite IH. generalize (stable_sort (λ a b, leb (f a) (f b)) l) as k.
  induction k as [|y k IHk]; [done|]. cbn. destruct (leb (f x) (f y)); [done|]. cbn. by rewrite IHk.
Qed.

Lemma candidates_options q entries : candidates_of q entries = map (λ o, (relevanceScore o.1 q, o.2)) (options entries).
Proof.
  unfold candidates_of, options. induction entries as [|e l IH]; [done|]. cbn [flat_map]. by rewrite IH, map_app, map_map.
Qed.

Lemma strongly_lookup {A} (R : A → A → Prop) l i j a b : StronglySorted R l → i < j → l !! i = Some a → l !! j = Some b → R a b.
Proof.
  intros Hs. revert i j. induction Hs as [|x l Hl IH Hx]; intros i j Hij Hi Hj; [done|]. destruct j as [|j]; [lia|]. cbn in Hj.
  destruct i as [|i]; cbn in Hi; [|by apply (IH i j); [lia| |]]. injection Hi as <-. eapply List.Forall_forall; [exact Hx|].
  apply list_elem_of_In. by eapply list_elem_of_lookup_2.
Qed.

(** C33: A search asks the registry for the query with hyphens for blanks and shows the best of what it answers: of all deployment options
    of the entries that match the query in name, title or description, as many as the limit allows.  Those shown and
    those left out, in this order, go from higher to lower scores, options with one score by title, and no
    option of a server that has the very name asked for comes after one of a server without that name, with or without [mcp]. *)
Theorem catalog_returns_the_best registry query limit results :
  SearchCatalog registry query limit = Ok results →
  let q := ToLower (TrimSpace query) in
  ∃ resp shown rest,
    fetchRegistry registry (hyphenated q) 100 = Ok resp ∧ results = map snd shown ∧
    shown ++ rest ≡ₚ List.filter (λ o, matches q o.1) (options (rrServers resp)) ∧
    length results = Z.to_nat (if (limit <=? 0)%Z then 20%Z else limit) `min` length (shown ++ rest) ∧
    ∀ i j a b, i < j → (shown ++ rest) !! i = Some a → (shown ++ rest) !! j = Some b →
      (relevanceScore b.1 q <= relevanceScore a.1 q)%Z ∧
      (relevanceScore a.1 q = relevanceScore b.1 q → String.leb (rsTitle a.2) (rsTitle b.2) = true) ∧
      (name_is q b.1 → name_like q a.1).
Proof.
  intros Hrun q. unfold SearchCatalog in Hrun. fold q in Hrun. destruct (fetchRegistry _ _ _) as [resp|] eqn:Ef; [|done]. injection Hrun as <-.
  set (k := if (limit <=? 0)%Z then 20%Z else limit). assert (Hk : (0 < k)%Z) by (subst k; destruct (limit <=? 0)%Z eqn:E; lia).
  set (f := λ o : ServerInfo * ResolvedServer, (relevanceScore o.1 q, o.2)).
  set (sorted := stable_sort (λ a b, ranks (f a) (f b)) (options (rrServers resp))). set (l := List.filter (λ o, matches q o.1) sorted).
  assert (Hl : map snd (List.filter relevant (stable_sort ranks (candidates_of q (rrServers resp)))) = map snd l).
  { rewrite candidates_options. fold f. rewrite sort_of_map. fold sorted. subst l. induction sorted as [|o r IH]; [done|].
    cbn [map List.filter]. unfold relevant at 1. cbn [f fst]. rewrite score_matches. destruct (matches q o.1); cbn [map]; by rewrite IH. }
  exists resp, (take (Z.to_nat k) l), (drop (Z.to_nat k) l). rewrite collect_take, Hl, take_drop by (cbn; lia). cbn [app length]. rewrite Nat.sub_0_r, firstn_map.
  split_and!; [done|done|apply filter_perm, stable_sort_perm|by rewrite length_map, length_take|].
  assert (Hs : StronglySorted (leb_rel (λ a b, ranks (f a) (f b))) l)
    by (apply filter_strongly, stable_sort_sorted; [intros; apply ranks_total|intros ? ? ?; apply ranks_trans]).
  intros i j a b Hij Ha Hb. pose proof (strongly_lookup _ _ _ _ _ _ Hs Hij Ha Hb) as Hr. unfold leb_rel, ranks in Hr. cbn [f fst snd] in Hr.
  assert (Hle : (relevanceScore b.1 q <= relevanceScore a.1 q)%Z) by (destruct (relevanceScore a.1 q =? relevanceScore b.1 q)%Z eqn:E; cbn [negb] in Hr; lia).
  split_and!; [done| |].
  - intros E. rewrite E, Z.eqb_refl in Hr. exact Hr.
  - intros Hn%score_exact. destruct (decide (name_like q a.1)) as [|Hx]; [done|]. apply score_other in Hx. lia.
Qed.

(** ** Names that the store accepts *)

Lemma slug_bytes_chars fuel s : all_chars slug_inner (slug_bytes fuel s) = true.
Proof.
  revert s. induction fuel as [|n IH]; intros s; [by destruct s|]. destruct s as [|c r]; [done|]. cbn [slug_bytes].
  destruct (decode_rune c r) as [rune w]. cbn [all_chars]. rewrite IH, andb_true_r. destruct (alnum_rune (lower_rune rune)) eqn:E; [|done].
  apply alnum_ascii in E as [E _]. unfold slug_inner, slug_char. revert E. generalize (ascii_of_N (lower_rune rune)) as a. intros a.
  destruct a as [[] [] [] [] [] [] [] []]; vm_compute; done.
Qed.

Lemma all_chars_trim_left p q s : all_chars p s = true → all_chars p (trim_left q s) = true.
Proof. induction s as [|c s IH]; [done|]. cbn. intros [Hc Hs]%andb_true_iff. destruct (q c); [by apply IH|]. cbn. by rewrite Hc. Qed.

Lemma trim_right_cons p c s : trim_right p (String c s) = if trim_right p s =?s "" then (if p c then "" else String c "") else String c (trim_right p s).
Proof. cbn. by destruct (trim_right p s). Qed.

Lemma all_chars_trim_right p q s : all_chars p s = true → all_chars p (trim_right q s) = true.
Proof.
  induction s as [|c s IH]; [done|]. intros [Hc Hs]%andb_true_iff. rewrite trim_right_cons. repeat case_if; cbn; rewrite ?Hc; [done|done|by apply IH].
Qed.

(** After trimming, neither end is a character that was trimmed. *)
Lemma trim_right_last p s c t : trim_right p s = String c t → p (last_char c t) = false.
Proof.
  revert c t. induction s as [|a s IH]; intros c t; [done|]. rewrite trim_right_cons. destruct (trim_right p s =?s "") eqn:E.
  - destruct (p a) eqn:Ea; [done|]. by intros [= <- <-].
  - intros [= <- <-]. destruct (trim_right p s) as [|d u]; [done|]. cbn [last_char]. by apply IH.
Qed.

Lemma trim_left_first p s c t : trim_left p s = String c t → p c = false.
Proof. induction s as [|a s IH]; [done|]. cbn. destruct (p a) eqn:E; [apply IH|]. by intros [= <- _]. Qed.

Lemma trim_right_first p c s a t : p c = false → trim_right p (String c s) = String a t → a = c.
Proof. intros Hc. rewrite trim_right_cons, Hc. case_if; by intros [= <- _]. Qed.

(** The name the form proposes is one the store accepts, unless fewer than two characters are left. *)
Theorem suggested_slug_accepted name : 2 ≤ String.length (deriveSlug name) → ValidateSlug (deriveSlug name) = Ok tt.
Proof.
  unfold deriveSlug, trim_func. cbv zeta. set (n := after_last_slash name). pose proof (slug_bytes_chars (String.length n) n) as Hc.
  apply (all_chars_trim_left _ is_dash), (all_chars_trim_right _ is_dash) in Hc. revert Hc.
  destruct (trim_left is_dash (slug_bytes (String.length n) n)) as [|a u] eqn:El; [cbn; lia|]. apply trim_left_first in El.
  destruct (trim_right is_dash (String a u)) as [|c [|d t]] eqn:Er; [cbn; lia..|]. intros Hc _.
  pose proof (trim_right_first _ _ _ _ _ El Er) as ->. apply trim_right_last in Er. cbn [last_char] in Er.
  assert (Hslug : ∀ x, slug_inner x = true → is_dash x = false → slug_char x = true).
  { intros x Hx Hd. unfold slug_inner in Hx. apply orb_true_iff in Hx as [Hx|Hx]; [done|]. apply Nat.eqb_eq in Hx. exfalso.
    assert (x = "-"%char) as -> by (rewrite <- (ascii_nat_embedding x); unfold byte in Hx; by rewrite Hx). done. }
  cbn [all_chars] in Hc. apply andb_true_iff in Hc as [Hc Hr].
  unfold ValidateSlug, slugPattern. cbn [String.eqb]. rewrite (Hslug a Hc El). replace (all_chars slug_inner (String d t)) with true by done.
  rewrite Hslug; [done| |done]. clear Er. revert d Hr. induction t as [|e t IH]; intros d; cbn; [by rewrite andb_true_r|]. intros [_ H]%andb_true_iff. by apply IH.
Qed.

(** ** Scores *)

(** A score lies between 0 and 240. *)
Theorem score_bounds info query : (0 ≤ relevanceScore info query ≤ 240)%Z.
Proof. unfold relevanceScore. cbv zeta. repeat match goal with |- context [if ?b then _ else _] => destruct b end; lia. Qed.

Definition renamed (info : ServerInfo) (name : string) : ServerInfo :=
  mkServerInfo name (siTitle info) (siDescription info) (siVersion info) (siRepository info) (siPackages info) (siRemotes info).

Lemma after_last_slash_app p n : noslash n → after_last_slash (p +:+ String "/" n) = n.
Proof.
  intros Hn. unfold after_last_slash. rewrite LastIndex_slash by done.
  replace (S (String.length p)) with (String.length (p +:+ String "/" "")) by (rewrite str_length_app; cbn; lia).
  replace (p +:+ String "/" n) with ((p +:+ String "/" "") +:+ n) by by rewrite str_app_assoc. apply drop_str_app.
Qed.

Lemma ToLower_app a b : ToLower (a +:+ b) = ToLower a +:+ ToLower b.
Proof. unfold ToLower. induction a as [|c a IH]; [done|]. rewrite str_app_cons. cbn [map_str]. by rewrite IH. Qed.

Lemma lower_slash c : lower_char c = "/"%char → c = "/"%char.
Proof. destruct c as [[] [] [] [] [] [] [] []]; vm_compute; congruence. Qed.

Lemma noslash_lower n : noslash n → noslash (ToLower n).
Proof.
  unfold noslash, ToLower. induction n as [|c n IH]; [done|]. cbn [map_str Index String.prefix].
  destruct (ascii_dec "/" c) as [<-|Hc]; [by destruct n|]. destruct (Index n "/"); [done|]. intros _.
  destruct (ascii_dec "/" (lower_char c)) as [E|]; [by symmetry in E; apply lower_slash in E; subst|]. by rewrite IH.
Qed.

(** the namespace of an entry never changes its score: what the code calls a penalty for a match in the prefix alone sets a score of zero to zero. *)
Theorem prefix_does_not_count info query p p' n :
  noslash n → relevanceScore (renamed info (p +:+ String "/" n)) query = relevanceScore (renamed info (p' +:+ String "/" n)) query.
Proof.
  intros Hn. unfold relevanceScore. cbv zeta. cbn [renamed siName siTitle siDescription]. unfold deriveSlug. rewrite !after_last_slash_app by done.
  rewrite !ToLower_app. change (ToLower (String "/" n)) with (String "/" (ToLower n)). rewrite !after_last_slash_app by by apply noslash_lower.
  match goal with |- (if (?s =? 0)%Z then _ else _) = _ => generalize s end. intros s. destruct (s =? 0)%Z eqn:E; [|done]. apply Z.eqb_eq in E. subst s.
  by repeat case_if.
Qed.

(** ** Resolving *)

(** every option of an entry proposes the entry's names; remotes and images come first and in order, and a package to build is offered only
    when there is neither. *)
Theorem resolve_options info o :
  o ∈ Resolve info →
  rsRegistryName o = siName info ∧ rsSlug o = deriveSlug (siName info) ∧
  ((rsServerType o = "remote" ∧ ∃ r, r ∈ siRemotes info ∧ rsRemoteURL o = rmURL r) ∨
   (rsServerType o = "stdio" ∧ ∃ p, p ∈ siPackages info ∧ rsEnvVars o = pkEnv p ∧
     ((pkRegistryType p = "oci" ∧ rsDockerImage o = pkIdentifier p) ∨
      (rsPackageName o = pkIdentifier p ∧ rsPackageType o = pkRegistryType p ∧ siRemotes info = [] ∧ Forall (λ q, pkRegistryType q ≠ "oci") (siPackages info))))).
Proof.
  unfold Resolve. cbv zeta. set (remotes := map _ _). set (images := omap _ _). intros Ho.
  assert (Hcase : o ∈ remotes ∨ o ∈ images ∨ remotes = [] ∧ images = [] ∧
                  ∃ p, p ∈ siPackages info ∧ o = option_of info "stdio" "" (pkRegistryType p) (pkIdentifier p) (pkEnv p) "" "").
  { destruct (remotes ++ images) as [|x l] eqn:E; [|rewrite <- E in Ho; apply elem_of_app in Ho; tauto].
    apply app_nil in E as [E1 E2]. destruct (List.find _ _) as [p|] eqn:Ef; [|by apply elem_of_nil in Ho].
    apply find_some in Ef as [Hp _]. apply list_elem_of_singleton in Ho. right. right. split_and!; [done..|]. exists p. by rewrite list_elem_of_In. }
  destruct Hcase as [Hr|[Hi|(Er & Ei & p & Hp & ->)]].
  - apply list_elem_of_fmap in Hr as (r & -> & Hr). split_and!; [done..|]. left. split; [done|by exists r].
  - apply list_elem_of_omap in Hi as (p & Hp & Hi). destruct (pkRegistryType p =?s "oci") eqn:E; [|done]. bool_prop. injection Hi as <-.
    split_and!; [done..|]. right. split; [done|]. exists p. split_and!; [done..|by left].
  - split_and!; [done..|]. right. split; [done|]. exists p. split_and!; [done..|]. right. split_and!; [done..|by destruct (siRemotes info)|].
    apply Forall_forall. intros q Hq Eq. assert (Hin : option_of info "stdio" (pkIdentifier q) "" "" (pkEnv q) "" "" ∈ images).
    { apply list_elem_of_omap. exists q. split; [done|]. by rewrite Eq. }
    rewrite Ei in Hin. by apply elem_of_nil in Hin.
Qed.

(** ** Witnesses *)

Definition sentry_json : json :=
  JObj [("server", JObj [("name", JStr "io.github.getsentry/sentry-mcp"); ("description", JStr "Sentry issues");
                         ("remotes", JArr [JObj [("type", JStr "sse"); ("url", JStr "https://mcp.sentry.dev")]])])].

Definition noise_json : json :=
  JObj [("server", JObj [("name", JStr "io.sentry/other"); ("description", JStr "A thing");
                         ("packages", JArr [JObj [("registryType", JStr "npm"); ("identifier", JStr "thing")]])])].

Definition toy_registry_answer (url : string) : Fetched :=
  FAnswer 200 (Marshal (JObj [("servers", JArr [noise_json; sentry_json]); ("metadata", JObj [("count", JNum "2")])])).

Example sentry_found :
  map rsTitle (handleCatalogSearch toy_registry_answer " Sentry ") = ["Sentry Mcp"] ∧ handleCatalogSearch (λ _, FAnswer 500 "down") "sentry" = [].
Proof. vm_compute. done. Qed.

Lemma catalog_returns_the_best_witness :
  let results := match SearchCatalog toy_registry_answer "Sentry" 5 with Ok r => r | Err _ => [] end in
  map rsTitle results = ["Sentry Mcp"] ∧ let q := ToLower (TrimSpace "Sentry") in
  ∃ resp shown rest,
    fetchRegistry toy_registry_answer (hyphenated q) 100 = Ok resp ∧ results = map snd shown ∧
    shown ++ rest ≡ₚ List.filter (λ o, matches q o.1) (options (rrServers resp)) ∧
    length results = 5 `min` length (shown ++ rest) ∧
    ∀ i j a b, i < j → (shown ++ rest) !! i = Some a → (shown ++ rest) !! j = Some b →
      (relevanceScore b.1 q <= relevanceScore a.1 q)%Z ∧
      (relevanceScore a.1 q = relevanceScore b.1 q → String.leb (rsTitle a.2) (rsTitle b.2) = true) ∧
      (name_is q b.1 → name_like q a.1).
Proof.
  split; [vm_compute; reflexivity|]. apply (catalog_returns_the_best toy_registry_answer "Sentry" 5). vm_compute. reflexivity.
Defined.

Lemma suggested_slug_accepted_witness : ValidateSlug (deriveSlug "io.github.x/My_Server!") = Ok tt.
Proof. apply (suggested_slug_accepted "io.github.x/My_Server!"). vm_compute. lia. Defined.

Lemma prefix_does_not_count_witness :
  let info := mkServerInfo "" "" "" "" (mkRepository "" "") [] [] in
  relevanceScore (renamed info "sentry/other") "sentry" = relevanceScore (renamed info "x/other") "sentry".
Proof. cbv zeta. apply (prefix_does_not_count _ "sentry" "sentry" "x" "other"). reflexivity. Defined.

Lemma resolve_options_witness :
  let info := mkServerInfo "a/b" "" "" "" (mkRepository "" "") [] [mkRemote "sse" "https://b" []] in
  let o := option_of info "remote" "" "" "" [] "https://b" "sse" in
  rsRegistryName o = siName info ∧ rsSlug o = deriveSlug (siName info) ∧
  ((rsServerType o = "remote" ∧ ∃ r, r ∈ siRemotes info ∧ rsRemoteURL o = rmURL r) ∨
   (rsServerType o = "stdio" ∧ ∃ p, p ∈ siPackages info ∧ rsEnvVars o = pkEnv p ∧
     ((pkRegistryType p = "oci" ∧ rsDockerImage o = pkIdentifier p) ∨
      (rsPackageName o = pkIdentifier p ∧ rsPackageType o = pkRegistryType p ∧ siRemotes info = [] ∧ Forall (λ q, pkRegistryType q ≠ "oci") (siPackages info))))).
Proof. cbv zeta. apply resolve_options. left. Defined.
