(* ===== verification/DbSetup.v ===== *)
(** * Opening a database and keeping backups

    [store/db.go].  [Open] refuses a corrupt file and runs the migrations that are missing, each in a
    transaction with its row of [schema_migrations]; [runBackup] rotates copies beside the
    database.  What a migration's text does to the schema is the engine's business: the parameter
    [run_sql]. *)
From S2P Require Import Prelude GoStrings GoPath Hoare.

(** ** Migrations *)

Section Migrations.
Context {Schema : Type} (run_sql : string → Schema → result Schema).

(** The schema, the versions in [schema_migrations], and the answer of [PRAGMA integrity_check]. *)
Record SqlDb := mkSqlDb { schema : Schema; versions : list string; integrity : string }.

(** An entry of the embedded directory; [None] is a file that cannot be read. *)
Record DirEntry := mkEntry { deName : string; deIsDir : bool; deContent : option string }.

Definition sql_files (entries : list DirEntry) : list DirEntry :=
  stable_sort (λ a b, String.leb (deName a) (deName b)) (List.filter (λ e, negb (deIsDir e) && HasSuffix (deName e) ".sql") entries).

Definition exec_migration (content : string) : DBM SqlDb unit :=
  exec (λ s, match run_sql content (schema s) with
             | Ok sc => Ok (tt, mkSqlDb sc (versions s) (integrity s))
             | Err e => Err e
             end).

(** [version] is the primary key. *)
Definition insert_version (name : string) : DBM SqlDb unit :=
  exec (λ s, if bool_decide (name ∈ versions s) then Err "UNIQUE constraint failed: schema_migrations.version"
             else Ok (tt, mkSqlDb (schema s) (versions s ++ [name]) (integrity s))).

Definition apply_migration (name content : string) : DBM SqlDb unit :=
  transact (exec_migration content ;;; insert_version name).

Fixpoint migrate_loop (files : list DirEntry) : DBM SqlDb unit :=
  match files with
  | [] => db_ret tt
  | e :: r =>
      let! applied := query (λ s, bool_decide (deName e ∈ versions s)) in
      if applied then migrate_loop r
      else match deContent e with
           | None => db_fail ("reading migration " +:+ deName e)
           | Some content => apply_migration (deName e) content ;;; migrate_loop r
           end
  end.

(** The directory listing; [CREATE TABLE IF NOT EXISTS] comes first. *)
Definition migrate (dir : result (list DirEntry)) : DBM SqlDb unit :=
  update (λ s, s) ;;;
  match dir with
  | Err e => db_fail ("reading migrations dir: " +:+ e)
  | Ok entries => migrate_loop (sql_files entries)
  end.

(** [Open]; whether the file's mode could be set is only logged. *)
Definition Open (dir : result (list DirEntry)) : DBM SqlDb unit :=
  query (λ _, tt) ;;;
  let! res := query integrity in
  if res !=? "ok" then db_fail ("database integrity check failed: " +:+ res) else migrate dir.

(** *** An interrupted upgrade resumes *)

Lemma versions_grow files name : preserves (λ s, name ∈ versions s) (migrate_loop files).
Proof.
  induction files as [|e r IH]; cbn [migrate_loop]; [apply preserves_ret|]. apply preserves_bind; [apply preserves_query|].
  intros []; [done|]. destruct (deContent e); [|apply preserves_fail]. apply preserves_bind; [|done]. apply preserves_transact, preserves_bind.
  - apply preserves_exec. intros t a t' Ht. destruct (run_sql _ _); [|done]. by intros [= _ <-].
  - intros _. apply preserves_exec. intros t a t' Ht. case_bool_decide; [done|]. intros [= _ <-]. apply elem_of_app. by left.
Qed.

(** What a migration that succeeded did. *)
Lemma apply_ok name content d d' :
  apply_migration name content d = (Ok tt, d') →
  apply_migration name content (healthy (tables d)) = (Ok tt, healthy (tables d')) ∧ name ∈ versions (tables d').
Proof.
  intros E. pose proof (transact_ok (exec_migration content ;;; insert_version name) d tt) as Ht. unfold apply_migration in E. rewrite E in Ht.
  destruct (Ht eq_refl) as (fs & d1 & (u & d2 & H1 & H2)%bind_ok & Hd). cbn in Hd. apply exec_ok in H1, H2. cbn [tables] in H1.
  destruct (run_sql content (schema (tables d))) as [sc|] eqn:Er; [|done]. injection H1 as <- H1.
  case_bool_decide as Hn; [done|]. injection H2 as H2. rewrite <- H1 in H2, Hn. cbn in H2, Hn. rewrite Hd, <- H2. split; [|apply elem_of_app; right; by apply list_elem_of_singleton].
  unfold apply_migration, transact, db_bind, exec_migration, insert_version, exec. cbn. rewrite Er. cbn. rewrite bool_decide_eq_false_2 by exact Hn. reflexivity.
Qed.

Lemma loop_cons e r d :
  migrate_loop (e :: r) d =
  let '(b, fs) := next_fault (faults d) in
  if b then (Err db_error, mkDb (tables d) fs)
  else (if bool_decide (deName e ∈ versions (tables d)) then migrate_loop r
        else match deContent e with
             | None => db_fail ("reading migration " +:+ deName e)
             | Some content => apply_migration (deName e) content ;;; migrate_loop r
             end) (mkDb (tables d) fs).
Proof. cbn [migrate_loop]. unfold query. unfold db_bind at 1. unfold exec. by destruct (next_fault (faults d)) as [[] fs]. Qed.

Lemma loop_resumes files d :
  migrate_loop files (healthy (tables (migrate_loop files d).2)) = migrate_loop files (healthy (tables d)).
Proof.
  revert d. induction files as [|e r IH]; intros d; [done|]. rewrite (loop_cons e r d).
  destruct (next_fault (faults d)) as [[] fs]; [done|]. set (d1 := mkDb (tables d) fs).
  rewrite !loop_cons. cbn [healthy faults next_fault tables]. destruct (bool_decide (deName e ∈ versions (tables d))) eqn:Ha.
  - apply bool_decide_eq_true in Ha. pose proof (versions_grow r (deName e) d1 Ha) as Hg. rewrite bool_decide_eq_true_2 by exact Hg. exact (IH d1).
  - destruct (deContent e) as [c|] eqn:Ec; [|cbn; by rewrite Ha].
    assert (Hb : (apply_migration (deName e) c ;;; migrate_loop r) d1 =
                 match apply_migration (deName e) c d1 with (Ok _, d2) => migrate_loop r d2 | (Err er, d2) => (Err er, d2) end) by done.
    rewrite Hb. clear Hb. pose proof (apply_ok (deName e) c d1) as Hok.
    pose proof (λ er, transact_atomic (exec_migration c ;;; insert_version (deName e)) d1 er) as Ht. fold (apply_migration (deName e) c) in Ht.
    revert Hok Ht. generalize (apply_migration (deName e) c d1) as res. intros [[[]|er] d2] Hok Ht.
    + destruct (Hok d2 eq_refl) as [Hh Hin]. pose proof (versions_grow r (deName e) d2 Hin) as Hg. rewrite bool_decide_eq_true_2 by exact Hg.
      unfold db_bind. change (mkDb (tables d) []) with (healthy (tables d1)). rewrite Hh. exact (IH d2).
    + cbn [snd]. specialize (Ht er eq_refl). cbn [snd] in Ht. rewrite Ht. cbn [tables d1]. by rewrite Ha.
Qed.

Lemma open_run dir d :
  Open dir d =
  let '(b, fs) := next_fault (faults d) in
  if b then (Err db_error, mkDb (tables d) fs) else
  let '(b, fs) := next_fault fs in
  if b then (Err db_error, mkDb (tables d) fs)
  else if integrity (tables d) !=? "ok" then (Err ("database integrity check failed: " +:+ integrity (tables d)), mkDb (tables d) fs) else
  let '(b, fs) := next_fault fs in
  if b then (Err db_error, mkDb (tables d) fs)
  else match dir with
       | Err e => (Err ("reading migrations dir: " +:+ e), mkDb (tables d) fs)
       | Ok entries => migrate_loop (sql_files entries) (mkDb (tables d) fs)
       end.
Proof.
  unfold Open, migrate, query, update. unfold db_bind at 1. unfold exec at 1. destruct (next_fault (faults d)) as [[] fs]; [done|].
  unfold db_bind at 1. unfold exec at 1. cbn [tables faults]. destruct (next_fault fs) as [[] fs1]; [done|]. destruct (_ !=? "ok"); [done|].
  unfold db_bind at 1. unfold exec at 1. cbn [tables faults]. destruct (next_fault fs1) as [[] fs2]; [done|]. by destruct dir.
Qed.

Lemma integrity_kept files v : preserves (λ s, integrity s = v) (migrate_loop files).
Proof.
  induction files as [|e r IH]; cbn [migrate_loop]; [apply preserves_ret|]. apply preserves_bind; [apply preserves_query|].
  intros []; [done|]. destruct (deContent e); [|apply preserves_fail]. apply preserves_bind; [|done]. apply preserves_transact, preserves_bind.
  - apply preserves_exec. intros t a t' Ht. destruct (run_sql _ _); [|done]. by intros [= _ <-].
  - intros _. apply preserves_exec. intros t a t' Ht. case_bool_decide; [done|]. by intros [= _ <-].
Qed.

(** C30: Wherever an upgrade stops because statements fail, opening the database again without failures ends as if the first attempt had not
    failed: the same migrations have run, in order and once each, or the same one is reported. *)
Theorem upgrade_resumes dir d :
  Open dir (healthy (tables (Open dir d).2)) = Open dir (healthy (tables d)).
Proof.
  rewrite (open_run dir d). destruct (next_fault (faults d)) as [[] fs]; [done|]. destruct (next_fault fs) as [[] fs1]; [done|].
  destruct (integrity (tables d) !=? "ok") eqn:Ei; [done|]. destruct (next_fault fs1) as [[] fs2]; [done|].
  destruct dir as [entries|e]; [|done]. set (d1 := mkDb (tables d) fs2). rewrite !open_run. cbn [healthy faults next_fault tables].
  rewrite (integrity_kept (sql_files entries) _ d1 eq_refl). cbn [tables d1]. rewrite Ei. exact (loop_resumes (sql_files entries) d1).
Qed.

(** A database that does not pass the check is not touched. *)
Theorem corrupt_database_untouched dir d :
  integrity (tables d) ≠ "ok" → is_ok (Open dir d).1 = false ∧ tables (Open dir d).2 = tables d.
Proof.
  intros Hi. apply String.eqb_neq in Hi. rewrite open_run. destruct (next_fault (faults d)) as [[] fs]; [done|].
  destruct (next_fault fs) as [[] fs1]; [done|]. by rewrite Hi.
Qed.

(** *** A run without failures applies what is missing *)

(** The migrations of a list that are missing, one after the other. *)
Fixpoint run_all (files : list DirEntry) (s : SqlDb) : option SqlDb :=
  match files with
  | [] => Some s
  | e :: r =>
      if bool_decide (deName e ∈ versions s) then run_all r s
      else c ← deContent e; match run_sql c (schema s) with
                            | Ok sc => run_all r (mkSqlDb sc (versions s ++ [deName e]) (integrity s))
                            | Err _ => None
                            end
  end.

(** Opening succeeds exactly when every missing migration runs on what the ones before it made; then each of the files is recorded. *)
Theorem open_applies_all entries s s' :
  integrity s = "ok" → Open (Ok entries) (healthy s) = (Ok tt, healthy s') ↔ run_all (sql_files entries) s = Some s'.
Proof.
  intros Hi. rewrite open_run. cbn [healthy faults next_fault tables]. rewrite Hi. cbn [String.eqb negb]. change (mkDb s []) with (healthy s).
  clear Hi. revert s. induction (sql_files entries) as [|e r IH]; intros s; [cbn; split; [by intros [= ->]|by intros [= ->]]|].
  rewrite loop_cons. cbn [healthy faults next_fault tables run_all]. case_bool_decide as Ha; [apply IH|]. destruct (deContent e) as [c|]; [|split; intros E; by simplify_eq/=].
  cbn [mbind option_bind]. unfold apply_migration, transact, exec_migration, insert_version, db_bind, exec. cbn.
  destruct (run_sql c (schema s)) as [sc|]; cbn; [|split; [intros [=]|done]]. rewrite bool_decide_eq_false_2 by done. cbn. apply IH.
Qed.
End Migrations.

(** ** Backups *)

(** A file beside the database: a whole copy of some state of the database, or a copy that was cut short. *)
Inductive Copy := Whole (n : nat) | Partial.

Section Backup.
Context (base : string).

(** [filepath.Ext] of a name without slashes. *)
Definition Ext (name : string) : string := match LastIndex name "." with Some i => drop_str i name | None => "" end.

Definition stem : string := TrimSuffix base (Ext base).
Definition tmp_name : string := stem +:+ ".backup.tmp" +:+ Ext base.
Definition cur_name : string := stem +:+ ".backup" +:+ Ext base.
Definition prev_name : string := stem +:+ ".backup.prev" +:+ Ext base.

(** The files of the database's directory. *)
Abbreviation Files := (gmap string Copy).

Definition Remove (name : string) : DBM Files unit :=
  exec (λ m, match m !! name with Some _ => Ok (tt, delete name m) | None => Err "no such file" end).

Definition Exists (name : string) : DBM Files bool := query (λ m, bool_decide (is_Some (m !! name))).

Definition Rename (old new : string) : DBM Files unit :=
  exec (λ m, match m !! old with Some c => Ok (tt, <[new := c]> (delete old m)) | None => Err "no such file" end).

(** [VACUUM INTO]: the target must not exist; a failure may leave a part of the copy behind. *)
Definition VacuumInto (now : nat) (name : string) : DBM Files unit :=
  λ d, let '(b, fs) := next_fault (faults d) in
       if bool_decide (is_Some (tables d !! name)) then (Err "output file already exists", mkDb (tables d) fs)
       else if b then (Err "disk I/O error", mkDb (<[name := Partial]> (tables d)) fs)
       else (Ok tt, mkDb (<[name := Whole now]> (tables d)) fs).

(** [now] numbers the state of the database that is copied. *)
Definition runBackup (now : nat) : DBM Files unit :=
  attempt (Remove tmp_name) ;;;
  VacuumInto now tmp_name ;;;
  let! cur := attempt (Exists cur_name) in
  (match cur with Ok true => attempt (Rename cur_name prev_name) ;;; db_ret tt | _ => db_ret tt end) ;;;
  Rename tmp_name cur_name.

Lemma names_differ a b : String.length a ≠ String.length b → stem +:+ a +:+ Ext base ≠ stem +:+ b +:+ Ext base.
Proof. intros Hl E. apply (f_equal String.length) in E. rewrite !str_length_app in E. lia. Qed.

Lemma tmp_cur : tmp_name ≠ cur_name.
Proof. by apply names_differ. Qed.
Lemma tmp_prev : tmp_name ≠ prev_name.
Proof. by apply names_differ. Qed.
Lemma cur_prev : cur_name ≠ prev_name.
Proof. by apply names_differ. Qed.

Lemma base_shorter : ∀ a, a ≠ "" → base ≠ stem +:+ a +:+ Ext base.
Proof.
  intros a Ha E. apply (f_equal String.length) in E. rewrite !str_length_app in E.
  assert (String.length base ≤ String.length stem + String.length (Ext base)); [|destruct a; [done|cbn in E; lia]].
  unfold stem, TrimSuffix. case_if; [rewrite length_take_str|]; lia.
Qed.

(** The current backup is whole, at least as new as [lo], and the previous one, if any, is an older whole one; or only the previous one is there.
    No copy is newer than [hi]. *)
Definition backed_up (lo hi : nat) (m : Files) : Prop :=
  (∃ k, m !! cur_name = Some (Whole k) ∧ lo ≤ k ≤ hi ∧ ∀ c, m !! prev_name = Some c → ∃ j, c = Whole j ∧ j ≤ k) ∨
  (m !! cur_name = None ∧ ∃ j, m !! prev_name = Some (Whole j) ∧ lo ≤ j ≤ hi).

(** The temporary file does not matter. *)
Lemma backed_up_tmp lo hi m m' :
  (∀ name, name ≠ tmp_name → m' !! name = m !! name) → backed_up lo hi m → backed_up lo hi m'.
Proof.
  intros H. unfold backed_up. rewrite (H cur_name), (H prev_name); [done|apply not_eq_sym, tmp_prev|apply not_eq_sym, tmp_cur].
Qed.

Lemma rotate_step lo hi m c :
  backed_up lo hi m → m !! cur_name = Some c → backed_up lo hi (<[prev_name := c]> (delete cur_name m)).
Proof.
  intros [(k & Hk & Hle & _)|[Hk _]] Hc; [|congruence]. rewrite Hk in Hc. injection Hc as <-. right.
  rewrite lookup_insert_ne, lookup_delete_eq, lookup_insert_eq by (apply not_eq_sym, cur_prev). eauto.
Qed.

Lemma finish_step lo hi now m :
  backed_up lo hi m → hi ≤ now → backed_up lo now (<[cur_name := Whole now]> (delete tmp_name m)).
Proof.
  intros Hb Hn. left. exists now. rewrite lookup_insert_eq, lookup_insert_ne, lookup_delete_ne by (apply cur_prev || apply tmp_prev).
  destruct Hb as [(k & Hk & Hle & Hp)|(Hk & j & Hj & Hle)]; (split_and!; [done|lia|lia|]); intros c Hc.
  - destruct (Hp c Hc) as (j & -> & Hj). exists j. split; [done|lia].
  - rewrite Hj in Hc. injection Hc as <-. exists j. split; [done|lia].
Qed.

(** Files other than the three. *)
Definition same_others (m m' : Files) : Prop := ∀ name, name ∉ [tmp_name; cur_name; prev_name] → m' !! name = m !! name.

Lemma vacuum_triple lo hi now m0 :
  triple (λ d, backed_up lo hi (tables d) ∧ same_others m0 (tables d)) (VacuumInto now tmp_name)
    (λ _ d, backed_up lo hi (tables d) ∧ same_others m0 (tables d) ∧ tables d !! tmp_name = Some (Whole now))
    (λ _ d, backed_up lo hi (tables d) ∧ same_others m0 (tables d)).
Proof.
  intros d [Hb Ho]. unfold VacuumInto. destruct (next_fault (faults d)) as [b fs]. case_bool_decide; [done|].
  assert (Hs : ∀ c, backed_up lo hi (<[tmp_name := c]> (tables d)) ∧ same_others m0 (<[tmp_name := c]> (tables d))).
  { intros c. split; [apply (backed_up_tmp _ _ (tables d)); [|done]; intros; by apply lookup_insert_ne|].
    intros name Hn. rewrite lookup_insert_ne; [by apply Ho|]. intros <-. apply Hn. by left. }
  destruct b; [apply Hs|]. destruct (Hs (Whole now)). split_and!; [done..|apply lookup_insert_eq].
Qed.

(** C31: Whichever calls of a backup fail, or wherever the process stops, a whole copy at least as new as the newest one
    before is left at one of the two names; when the backup succeeds the current copy is the one just made.  Every other file of the directory
    stays as it is. *)
Theorem backup_never_goes_back lo hi now d :
  backed_up lo hi (tables d) → hi ≤ now →
  let '(r, d') := runBackup now d in
  backed_up lo now (tables d') ∧ same_others (tables d) (tables d') ∧ (r = Ok tt → tables d' !! cur_name = Some (Whole now)).
Proof.
  intros Hb Hn. set (I := λ s : Db Files, backed_up lo hi (tables s) ∧ same_others (tables d) (tables s)).
  set (J := λ s : Db Files, I s ∧ tables s !! tmp_name = Some (Whole now)).
  assert (Hw : ∀ m, backed_up lo hi m → backed_up lo now m).
  { intros m [(k & ? & ? & ?)|(? & j & ? & ?)]; [left; exists k|right; split; [done|exists j]]; (split_and!; [done|lia..|done]) || (split; [done|lia]). }
  assert (Ht : triple I (runBackup now) (λ _ s, backed_up lo now (tables s) ∧ same_others (tables d) (tables s) ∧ tables s !! cur_name = Some (Whole now))
                 (λ _ s, I s)).
  { unfold runBackup. eapply t_bind; [apply (t_attempt _ _ _ (λ _, I) (λ _, I))|].
    { apply t_exec; [done|]. intros s fs [H1 H2] _. destruct (tables s !! tmp_name); [|done]. split.
      - apply (backed_up_tmp _ _ (tables s)); [|done]. intros. by apply lookup_delete_ne.
      - intros name Hname. cbn. rewrite lookup_delete_ne; [by apply H2|]. intros <-. apply Hname. by left. }
    intros r. eapply t_bind with (M := λ _, J).
    { eapply t_pre; [eapply t_post; [apply (vacuum_triple lo hi now (tables d))|intros [] s (? & ? & ?); done]|]. by destruct r. }
    intros []. eapply t_bind with (M := λ _, J).
    { eapply t_post; [apply (t_attempt _ _ _ (λ _, J) (λ _, J)); apply t_exec; done|]. by intros []. }
    intros cur. eapply t_bind with (M := λ _, J).
    { destruct cur as [[]|]; try by apply t_ret. eapply t_bind with (M := λ _, J); [|intros; by apply t_ret].
      eapply t_post; [apply (t_attempt _ _ _ (λ _, J) (λ _, J)); apply t_exec; [done|]|by intros []].
      intros s fs [[H1 H2] H3] _. destruct (tables s !! cur_name) as [c|] eqn:Ec; [|done]. split; [split|].
      - by apply rotate_step.
      - intros name Hname. cbn. assert (name ≠ prev_name ∧ name ≠ cur_name) as [? ?] by set_solver.
        rewrite lookup_insert_ne, lookup_delete_ne by done. by apply H2.
      - cbn. rewrite lookup_insert_ne, lookup_delete_ne by (apply not_eq_sym, tmp_cur || apply not_eq_sym, tmp_prev). done. }
    intros []. apply t_exec; [by intros s fs [? ?]|]. intros s fs [[H1 H2] H3] _. rewrite H3. cbn. split_and!; [by eapply finish_step| |apply lookup_insert_eq].
    intros name Hname. assert (name ≠ tmp_name ∧ name ≠ cur_name) as [? ?] by set_solver. rewrite lookup_insert_ne, lookup_delete_ne by done. by apply H2. }
  specialize (Ht d (conj Hb (λ _ _, eq_refl))). destruct (runBackup now d) as [[[]|e] d'].
  - destruct Ht as (? & ? & ?). by split_and!.
  - destruct Ht as [? ?]. split_and!; [by apply Hw|done|done].
Qed.

(** The database itself is none of the three files. *)
Lemma database_kept : base ∉ [tmp_name; cur_name; prev_name].
Proof. unfold tmp_name, cur_name, prev_name. intros H. repeat (apply elem_of_cons in H as [H|H]; [by eapply base_shorter in H|]). by apply elem_of_nil in H. Qed.
End Backup.

(** ** Witnesses *)

(** Migrations that append their text to a list; a text [bad] fails. *)
Definition toy_sql (content : string) (s : list string) : result (list string) := if content =?s "bad" then Err "syntax error" else Ok (s ++ [content]).

Definition toy_dir : list DirEntry :=
  [mkEntry "002_b.sql" false (Some "two"); mkEntry "001_a.sql" false (Some "one"); mkEntry "notes.txt" false (Some "x"); mkEntry "003_c.sql" false (Some "three")].

(** An upgrade that stops in the second migration and is resumed. *)
Example interrupted :
  let d := (Open toy_sql (Ok toy_dir) (mkDb (mkSqlDb [] [] "ok") [false; false; false; false; false; false; false; false; false; false; false; true])).2 in
  versions (tables d) = ["001_a.sql"] ∧
  schema (tables (Open toy_sql (Ok toy_dir) (healthy (tables d))).2) = ["one"; "two"; "three"].
Proof. vm_compute. done. Qed.

Lemma corrupt_database_untouched_witness :
  let d := healthy (mkSqlDb [] [] "row 7 missing from index") in
  is_ok (Open toy_sql (Ok toy_dir) d).1 = false ∧ tables (Open toy_sql (Ok toy_dir) d).2 = tables d.
Proof. cbv zeta. apply (corrupt_database_untouched toy_sql). done. Defined.

Lemma open_applies_all_witness :
  Open toy_sql (Ok toy_dir) (healthy (mkSqlDb [] [] "ok")) =
  (Ok tt, healthy (mkSqlDb ["one"; "two"; "three"] ["001_a.sql"; "002_b.sql"; "003_c.sql"] "ok")).
Proof. apply (open_applies_all toy_sql); vm_compute; reflexivity. Defined.

Lemma backup_never_goes_back_witness :
  let d := mkDb ({["relay.backup.db" := Whole 5; "relay.backup.prev.db" := Whole 3]} : gmap string Copy) [false; false; false; false; true] in
  let '(r, d') := runBackup "relay.db" 7 d in
  backed_up "relay.db" 5 7 (tables d') ∧ same_others "relay.db" (tables d) (tables d') ∧
  (r = Ok tt → tables d' !! cur_name "relay.db" = Some (Whole 7)).
Proof.
  apply (backup_never_goes_back "relay.db" 5 5 7); [|lia]. left. exists 5. split; [reflexivity|]. split; [lia|].
  intros c Hc. vm_compute in Hc. injection Hc as <-. exists 3. split; [done|lia].
Defined.
