(* ===== verification/RelayConfig.v ===== *)
(** * The relay's configuration

    [config/config.go], [src/cmd/arc-relay/env.go] and the paths and gates [main] derives.  The TOML
    decoder is a parameter, a function that overwrites what the file names; so is
    [time.ParseDuration]. *)
From stdpp Require Import pretty.
From S2P Require Import Prelude GoStrings GoPath SafeFile JsonDecode RequestLogs MemoryApi MemoryStore Extractor.

Record SkillsCheckerConfig := mkChecker {
  ckEnabled : bool; ckInterval : Z; ckCacheDir : string; ckCloneTimeout : Z; ckModel : string; ckDiffMax : Z; ckFileMax : Z }.

Record Config := mkConfig {
  cfHost : string; cfPort : Z; cfBaseURL : string; cfPath : string; cfMemoryPath : string; cfSocket : string; cfNetwork : string;
  cfKey : string; cfSessionSecret : string; cfAdminPassword : string; cfLLMKey : string; cfLLMModel : string; cfBundlesDir : string;
  cfChecker : SkillsCheckerConfig; cfSentry : string; cfLogLevel : string }.

Definition defaults : Config :=
  mkConfig "0.0.0.0" 8080 "" "arc-relay.db" "" "unix:///var/run/docker.sock" "arc-relay" "" "" "" "" "" "" (mkChecker false 0 "" 0 "" 0 0) "" "".

Definition Addr (c : Config) : string := cfHost c +:+ ":" +:+ pretty (cfPort c).

Definition PublicBaseURL (c : Config) : string :=
  if cfBaseURL c !=? "" then cfBaseURL c else "http://localhost:" +:+ pretty (cfPort c).

Inductive Level := LevelDebug | LevelInfo | LevelWarn | LevelError.

Definition SlogLevel (c : Config) : Level :=
  let l := ToLower (cfLogLevel c) in
  if l =?s "debug" then LevelDebug else if (l =?s "warn") || (l =?s "warning") then LevelWarn else if l =?s "error" then LevelError else LevelInfo.

(** [strconv.Atoi]; [None] is its error. *)
Definition strict_atoi (s : string) : option Z :=
  let neg := HasPrefix s "-" in
  match (if neg || HasPrefix s "+" then drop_str 1 s else s) with
  | EmptyString => None
  | body => z ← digits body 0; let z := if neg then (- z)%Z else z in if (min_int <=? z)%Z && (z <=? max_int)%Z then Some z else None
  end.

Section Load.
Context (getenv : string → string) (ParseDuration : string → option Z).

(** The variable when it is set, else what is there. *)
Definition env_or (name cur : string) : string := let v := getenv name in if v !=? "" then v else cur.

Definition base_url (cur : string) : string :=
  if getenv "ARC_RELAY_BASE_URL" !=? "" then getenv "ARC_RELAY_BASE_URL"
  else if getenv "RENDER_EXTERNAL_URL" !=? "" then getenv "RENDER_EXTERNAL_URL"
  else if getenv "RAILWAY_PUBLIC_DOMAIN" !=? "" then "https://" +:+ getenv "RAILWAY_PUBLIC_DOMAIN"
  else cur.

Definition checker_enabled (cur : bool) : bool :=
  let v := getenv "ARC_RELAY_SKILLS_CHECKER_ENABLED" in
  if v =?s "" then cur
  else
    let w := ToLower (TrimSpace v) in
    if existsb (String.eqb w) ["1"; "true"; "yes"; "on"] then true
    else if existsb (String.eqb w) ["0"; "false"; "no"; "off"] then false else cur.

Definition checker_interval (cur : Z) : Z :=
  let v := getenv "ARC_RELAY_SKILLS_CHECKER_INTERVAL" in
  if v =?s "" then cur
  else match ParseDuration (TrimSpace v) with Some d => if (0 <? d)%Z then d else cur | None => cur end.

Definition positive_or (cur def : Z) : Z := if (cur <=? 0)%Z then def else cur.

(** [fmt.Sscanf(v, "%d", &port)]; only an unset variable lets the other one be looked at. *)
Definition port (cur : Z) : Z :=
  let v := getenv "ARC_RELAY_PORT" in
  let w := getenv "PORT" in
  if v !=? "" then default cur (Sscan_d v) else if w !=? "" then default cur (Sscan_d w) else cur.

Definition checker_of (dbPath : string) (c : SkillsCheckerConfig) : SkillsCheckerConfig :=
  let cache := env_or "ARC_RELAY_SKILLS_CHECKER_UPSTREAM_CACHE_DIR" (ckCacheDir c) in
  mkChecker (checker_enabled (ckEnabled c)) (positive_or (checker_interval (ckInterval c)) (24 * hour))
    (if cache =?s "" then JoinPath [Dir dbPath; "upstream-cache"] else cache)
    (positive_or (ckCloneTimeout c) (60 * second)) (ckModel c) (positive_or (ckDiffMax c) 32768) (positive_or (ckFileMax c) 4096).

Definition from_env (c : Config) : Config :=
  let path := env_or "ARC_RELAY_DB_PATH" (cfPath c) in
  mkConfig (cfHost c) (port (cfPort c)) (base_url (cfBaseURL c)) path (env_or "ARC_RELAY_MEMORY_DB_PATH" (cfMemoryPath c)) (cfSocket c) (cfNetwork c)
    (env_or "ARC_RELAY_ENCRYPTION_KEY" (cfKey c)) (env_or "ARC_RELAY_SESSION_SECRET" (cfSessionSecret c))
    (env_or "ARC_RELAY_ADMIN_PASSWORD" (cfAdminPassword c)) (env_or "ARC_RELAY_LLM_API_KEY" (cfLLMKey c)) (env_or "ARC_RELAY_LLM_MODEL" (cfLLMModel c))
    (env_or "ARC_RELAY_SKILLS_DIR" (cfBundlesDir c)) (checker_of path (cfChecker c)) (env_or "ARC_RELAY_SENTRY_DSN" (cfSentry c))
    (env_or "ARC_RELAY_LOG_LEVEL" (cfLogLevel c)).

Definition Load (toml : Config → result Config) (path : string) : result Config :=
  match (if path =?s "" then Ok defaults else toml defaults) with
  | Err e => Err ("loading config " +:+ path +:+ ": " +:+ e)
  | Ok c => Ok (from_env c)
  end.

(** ** What [main] makes of it *)

Definition envInt (name : string) (def : Z) : Z :=
  let v := TrimSpace (getenv name) in
  if v =?s "" then def else default def (strict_atoi v).

Definition envCSV (name : string) (def : list string) : list string :=
  let v := TrimSpace (getenv name) in
  if v =?s "" then def
  else match List.filter (λ p, p !=? "") (map TrimSpace (Split v ","%char)) with [] => def | out => out end.

Definition memory_db_path (c : Config) : string :=
  if cfMemoryPath c =?s "" then JoinPath [Dir (cfPath c); "memory.db"] else cfMemoryPath c.

Definition bundles_dir (c : Config) : string :=
  if cfBundlesDir c =?s "" then JoinPath [Dir (cfPath c); "skills"] else cfBundlesDir c.

(** The gates of the extraction queue, before [StartQueue] repairs them. *)
Definition queue_config : QueueConfig :=
  let q := DefaultQueueConfig in
  let e := Eligibility q in
  let days := envInt "ARC_RELAY_EXTRACT_MAX_AGE_DAYS" 30 in
  let age := if (0 <? days)%Z then wrap64 (wrap64 (days * 24) * hour) else MaxAge e in
  mkQueueConfig (envInt "ARC_RELAY_EXTRACT_WORKERS" (Workers q)) (Capacity q) (PassTimeout q)
    (mkEligibility (envCSV "ARC_RELAY_EXTRACT_PLATFORMS" (Platforms e)) age (QuietPeriod e) (Backoff1 e) (Backoff2 e) (Backoff3 e)).
End Load.

(** ** Properties *)

Lemma clean_comps_nonempty rt l st : Forall (λ x, x ≠ "") st → Forall (λ x, x ≠ "") (clean_comps rt l st).
Proof.
  revert st. induction l as [|c l IH]; intros st Hst; cbn [clean_comps]; [by apply Forall_rev|].
  destruct (c =?s "") eqn:E1; cbn [orb]; [by apply IH|]. bool_prop. destruct (c =?s "."); [by apply IH|]. destruct (c =?s "..").
  - destruct st as [|t st]; [apply IH; destruct rt; by repeat constructor|]. inversion Hst; subst. case_if; apply IH; [by constructor|done].
  - apply IH. by constructor.
Qed.

Lemma Clean_nonempty p : Clean p ≠ "".
Proof.
  unfold Clean, render. destruct (IsAbs p); [done|]. unfold components. pose proof (clean_comps_nonempty (IsAbs p) (Split p "/"%char) [] (Forall_nil_2 _)) as H.
  destruct (clean_comps _ _ _) as [|x l]; [done|]. inversion H; subst. destruct x; [done|]. by destruct l.
Qed.

Section Props.
Context (getenv : string → string) (ParseDuration : string → option Z).

(** The settings a variable replaces, each with its place in the configuration. *)
Definition replaced : list (string * (Config → string)) :=
  [("ARC_RELAY_ENCRYPTION_KEY", cfKey); ("ARC_RELAY_SESSION_SECRET", cfSessionSecret); ("ARC_RELAY_ADMIN_PASSWORD", cfAdminPassword);
   ("ARC_RELAY_DB_PATH", cfPath); ("ARC_RELAY_MEMORY_DB_PATH", cfMemoryPath); ("ARC_RELAY_SKILLS_DIR", cfBundlesDir);
   ("ARC_RELAY_BASE_URL", cfBaseURL); ("ARC_RELAY_LLM_API_KEY", cfLLMKey); ("ARC_RELAY_LLM_MODEL", cfLLMModel);
   ("ARC_RELAY_SENTRY_DSN", cfSentry); ("ARC_RELAY_LOG_LEVEL", cfLogLevel);
   ("ARC_RELAY_SKILLS_CHECKER_UPSTREAM_CACHE_DIR", λ c, ckCacheDir (cfChecker c))].

(** whatever the file says, a variable that is set is the setting, and the checker is given positive times and limits and a directory. *)
Theorem loaded_config_usable toml path cfg :
  Load getenv ParseDuration toml path = Ok cfg →
  Forall (λ '(name, field), getenv name ≠ "" → field cfg = getenv name) replaced ∧
  (0 < ckInterval (cfChecker cfg) ∧ 0 < ckCloneTimeout (cfChecker cfg) ∧ 0 < ckDiffMax (cfChecker cfg) ∧ 0 < ckFileMax (cfChecker cfg))%Z ∧
  ckCacheDir (cfChecker cfg) ≠ "".
Proof.
  unfold Load. destruct (if path =?s "" then _ else _) as [c|]; [|done]. intros [= <-].
  assert (Hp : ∀ x y, (0 < y → 0 < positive_or x y)%Z) by (intros x y Hy; unfold positive_or; destruct (x <=? 0)%Z eqn:E; lia).
  assert (Hj : ∀ d, JoinPath [d; "upstream-cache"] ≠ "").
  { intros d. cbn [JoinPath]. case_if; apply Clean_nonempty. }
  split_and!; try (apply Hp; done); [|].
  - unfold replaced. rewrite !Forall_cons. split_and!; [..|apply Forall_nil_2]; cbn; unfold env_or, base_url; intros H; pose proof H as H'%String.eqb_neq;
      rewrite H'; cbn; by rewrite ?H'.
  - cbn. destruct (_ =?s "") eqn:E; [apply Hj|]. by bool_prop.
Qed.

(** a relay port that is no number hides the port the platform gives. *)
Theorem bad_port_hides_platform cur :
  getenv "ARC_RELAY_PORT" ≠ "" → Sscan_d (getenv "ARC_RELAY_PORT") = None → port getenv cur = cur.
Proof. intros H1%String.eqb_neq H2. unfold port. cbv zeta. by rewrite H1, H2. Qed.

(** an interval of zero in the environment keeps the interval of the file; the comment says that it falls back to the default. *)
Theorem zero_interval_keeps_file cur :
  ParseDuration (TrimSpace (getenv "ARC_RELAY_SKILLS_CHECKER_INTERVAL")) = Some 0%Z → checker_interval getenv ParseDuration cur = cur.
Proof. intros H. unfold checker_interval. cbv zeta. rewrite H. by case_if. Qed.
End Props.

(** ** Examples and witnesses *)

Definition one_variable (name value : string) (k : string) : string := if k =?s name then value else "".

(** The age limit is computed in 64 bits: a limit of 300 years makes every session too old. *)
Theorem age_limit_overflows :
  (MaxAge (Eligibility (queue_config (one_variable "ARC_RELAY_EXTRACT_MAX_AGE_DAYS" "109500"))) < 0)%Z.
Proof. vm_compute. reflexivity. Qed.

Lemma loaded_config_usable_witness : ∃ cfg,
  Load (one_variable "ARC_RELAY_DB_PATH" "/data/relay.db") (λ _, None) (λ c, Ok c) "" = Ok cfg ∧ cfPath cfg = "/data/relay.db" ∧
  ckCacheDir (cfChecker cfg) = "/data/upstream-cache" ∧
  Forall (λ '(name, field), one_variable "ARC_RELAY_DB_PATH" "/data/relay.db" name ≠ "" → field cfg = one_variable "ARC_RELAY_DB_PATH" "/data/relay.db" name) replaced.
Proof.
  eexists. split; [vm_compute; reflexivity|]. split; [reflexivity|]. split; [reflexivity|].
  apply (loaded_config_usable (one_variable "ARC_RELAY_DB_PATH" "/data/relay.db") (λ _, None) (λ c, Ok c) ""). vm_compute. reflexivity.
Defined.

Lemma bad_port_hides_platform_witness :
  port (λ k, if k =?s "ARC_RELAY_PORT" then "http" else "9000") 8080 = 8080%Z.
Proof. apply bad_port_hides_platform; [done|reflexivity]. Defined.

Lemma zero_interval_keeps_file_witness :
  checker_interval (λ _, "0s") (λ _, Some 0%Z) hour = hour.
Proof. apply zero_interval_keeps_file. reflexivity. Defined.
