(* ===== verification/DockerManager.v ===== *)
(** * Containers, images and build contexts

    [docker/manager.go].  The daemon is the interface [Daemon]: a state and the calls of the
    client, any of which can fail, with or without having had its effect; [DaemonLaws] says
    what the manager relies on, and a toy daemon at the end satisfies it.  A build context is a directory tree with links, which
    [tarDirectory] turns into the entries of a tar stream; the daemon's answers to pulls and builds
    are streams of JSON. *)
From stdpp Require Import pretty.
From S2P Require Import Prelude GoStrings Json JsonDecode GoPath Hoare.

(** ** What a context ignores *)

(** [bufio.Scanner]: lines without their end; a line of 64 KiB or more stops the scan. *)
Definition scan_lines (text : string) : list string :=
  let lines := Split text "010"%char in
  let lines := match List.last lines "" with "" => removelast lines | _ => lines end in
  let fix upto (l : list string) := match l with
                                    | [] => []
                                    | x :: r => if 65536 <=? String.length x then [] else TrimSuffix x (String "013"%char "") :: upto r
                                    end in
  upto lines.

Definition ignore_patterns (text : string) : list string :=
  List.filter (λ l, (l !=? "") && negb (HasPrefix l "#")) (map TrimSpace (scan_lines text)).

Fixpoint shouldIgnore (relPath : string) (isDir : bool) (patterns : list string) : bool :=
  match patterns with
  | [] => false
  | pattern :: r =>
      let negate := HasPrefix pattern "!" in
      let p := if negate then drop_str 1 pattern else pattern in
      if Match p relPath || Match p (Base relPath) || (isDir && Match (TrimSuffix p "/") relPath) then negb negate
      else shouldIgnore relPath isDir r
  end.

(** ** Contexts *)

(** A directory lists its entries by name. *)
Inductive Node := NFile (content : string) | NDir (children : list (string * Node)) | NLink (target : string).

Inductive TarEntry := TDir (name : string) | TFile (name content : string) | TLink (name target : string).

Definition entry_name (e : TarEntry) : string := match e with TDir n | TFile n _ | TLink n _ => n end.

(** The path of a child below the root, with slashes. *)
Definition below (rel name : string) : string := if rel =?s "." then name else rel +:+ "/" +:+ name.

(** The callback and the walk: [readable] tells which files can be opened. *)
Fixpoint tar_node (patterns : list string) (readable : string → bool) (rel : string) (name : string) (n : Node) {struct n} : result (list TarEntry) :=
  let isDir := match n with NDir _ => true | _ => false end in
  if existsb (String.eqb "..") (Split rel "/"%char) then Err ("path traversal detected: " +:+ rel)
  else if isDir && (name =?s ".git") then Ok []
  else if shouldIgnore rel isDir patterns then Ok []
  else match n with
       | NLink target => Ok [TLink rel target]
       | NFile content => if readable rel then Ok [TFile rel content] else Err ("opening " +:+ rel)
       | NDir children =>
           (fix go (l : list (string * Node)) (acc : list TarEntry) : result (list TarEntry) :=
              match l with
              | [] => Ok acc
              | (k, c) :: r => match tar_node patterns readable (below rel k) k c with
                               | Err e => Err e
                               | Ok es => go r (acc ++ es)
                               end
              end) children [TDir rel]
       end.

Fixpoint tar_children (patterns : list string) (readable : string → bool) (rel : string) (l : list (string * Node)) (acc : list TarEntry) : result (list TarEntry) :=
  match l with
  | [] => Ok acc
  | (k, c) :: r => match tar_node patterns readable (below rel k) k c with
                   | Err e => Err e
                   | Ok es => tar_children patterns readable rel r (acc ++ es)
                   end
  end.

Definition tarDirectory (patterns : list string) (readable : string → bool) (root : list (string * Node)) : result (list TarEntry) :=
  tar_children patterns readable "." root [].

(** The patterns come from the context itself. *)
Definition parseDockerignore (readable : string → bool) (root : list (string * Node)) : list string :=
  match List.find (λ e, e.1 =?s ".dockerignore") root with
  | Some (_, NFile text) => if readable ".dockerignore" then ignore_patterns text else []
  | _ => []
  end.

(** ** Streams of the daemon *)

(** [json.Decoder] over a stream; every message has an [error] text, and [other] is the field that is only logged. *)
Fixpoint read_stream (fuel : nat) (other : string) (s : string) : result unit :=
  match fuel with
  | 0 => Err "out of fuel"
  | S n =>
      if skip_ws s =?s "" then Ok tt
      else match parse_value (S (String.length s)) s with
           | None => Err "invalid character"
           | Some (v, rest) =>
               let fields := match v with JObj l => Some l | JNull => Some [] | _ => None end in
               match l ← fields; _ ← decode_string_field other l ""; decode_string_field "error" l "" with
               | None => Err "json: cannot unmarshal"
               | Some e => if e !=? "" then Err e else read_stream n other rest
               end
           end
  end.

Definition parsePullOutput (stream : string) : result unit := read_stream (S (String.length stream)) "status" stream.

Definition parseBuildOutput (stream : string) : result unit := read_stream (S (String.length stream)) "stream" stream.

(** ** The daemon *)

Record ContainerSpec := mkSpec {
  csImage : string; csEnv : list string; csOpenStdin : bool; csEntrypoint : list string; csCmd : list string;
  csBindings : list (Z * (string * string)); (** container port, host address and port *)
  csNetwork : string }.

Record Container := mkContainer { ctName : string; ctSpec : ContainerSpec; ctRunning : bool }.

(** What an inspection tells: whether the container runs, and the host ports of its ports. *)
Record Inspection := mkInspection { inRunning : bool; inPorts : list (Z * list (string * string)) }.

(** The calls of the Docker client the manager makes, on a daemon in a state [W], and the containers of
    that state by their ids. *)
Class Daemon (W : Type) := {
  containers : W → gmap string Container;
  ContainerCreate : string → ContainerSpec → DBM W string;
  ContainerStart : string → DBM W unit;
  ContainerStop : string → DBM W unit;
  ContainerRemove : string → DBM W unit;
  ContainerInspect : string → DBM W Inspection;
  NetworkList : DBM W (list string);
  NetworkCreate : string → DBM W unit;
  ImageInspect : string → DBM W unit;
  ImagePull : string → DBM W string;
  ImageBuild : list TarEntry → string → string → bool → DBM W string }.

(** ** The manager *)

Section Manager.
Context {W : Type} `{Daemon W} (networkName : string).

Definition ensureNetwork : DBM W unit :=
  let! nets := NetworkList in
  if bool_decide (networkName ∈ nets) then db_ret tt else NetworkCreate networkName.

Record ContainerConfig := mkContainerConfig {
  ccName : string; ccImage : string; ccEntrypoint : list string; ccCommand : list string; ccEnv : gmap string string; ccPort : Z }.

Definition panic : string := "panic: invalid port".

(** [network.MustParsePort] *)
Definition valid_port (p : Z) : bool := (0 <=? p)%Z && (p <=? 65535)%Z.

(** [None] is the panic; the variables are in one order of the map. *)
Definition container_spec (cfg : ContainerConfig) : option ContainerSpec :=
  let spec := mkSpec (ccImage cfg) (map (λ '(k, v), k +:+ "=" +:+ v) (map_to_list (ccEnv cfg))) (ccPort cfg =? 0)%Z (ccEntrypoint cfg) (ccCommand cfg) in
  if (0 <? ccPort cfg)%Z then
    if valid_port (ccPort cfg) then Some (spec [(ccPort cfg, ("127.0.0.1", "0"))] networkName) else None
  else Some (spec [] networkName).

Definition container_name (name : string) : string := "arc-relay-" +:+ name.

Definition StartContainer (cfg : ContainerConfig) : DBM W string :=
  match container_spec cfg with
  | None => db_fail panic
  | Some spec =>
      let name := container_name (ccName cfg) in
      attempt (ContainerRemove name) ;;;
      let! created := attempt (ContainerCreate name spec) in
      match created with
      | Err e => db_fail ("creating container " +:+ name +:+ ": " +:+ e)
      | Ok id =>
          let! started := attempt (ContainerStart id) in
          match started with
          | Err e => attempt (ContainerRemove id) ;;; db_fail ("starting container " +:+ name +:+ ": " +:+ e)
          | Ok _ => db_ret id
          end
      end
  end.

Definition StopContainer (id : string) : DBM W unit := attempt (ContainerStop id) ;;; ContainerRemove id.

Definition GetHostPort (id : string) (containerPort : Z) : DBM W string :=
  let! res := attempt (ContainerInspect id) in
  match res with
  | Err e => db_fail ("inspecting container " +:+ id +:+ ": " +:+ e)
  | Ok c =>
      if negb (valid_port containerPort) then db_fail panic
      else match snd <$> List.find (λ b, (b.1 =? containerPort)%Z) (inPorts c) with
           | None | Some [] => db_fail ("no host port mapping for " +:+ pretty containerPort +:+ "/tcp in container " +:+ id)
           | Some (b :: _) => db_ret b.2
           end
  end.

Definition IsRunning (id : string) : DBM W bool :=
  let! res := attempt (ContainerInspect id) in
  match res with
  | Err e => if Contains e "No such container" then db_ret false else db_fail e
  | Ok c => db_ret (inRunning c)
  end.

(** [WaitForHTTP] with as many ticks as fit before the deadline. *)
Fixpoint WaitForHTTP (ticks : nat) (id : string) : DBM W unit :=
  match ticks with
  | 0 => db_fail ("timeout waiting for container " +:+ id)
  | S n => let! running := IsRunning id in if running then db_ret tt else WaitForHTTP n id
  end.

Definition ImageExists (ref : string) : DBM W bool := let! res := attempt (ImageInspect ref) in db_ret (is_ok res).

(** The error of a call or of the stream it answers, under the words of the manager. *)
Definition with_stream (call : DBM W string) (parse : string → result unit) (what : string) : DBM W unit :=
  let! res := attempt call in
  match res with
  | Err e => db_fail (what +:+ ": " +:+ e)
  | Ok stream => match parse stream with Err e => db_fail (what +:+ ": " +:+ e) | Ok _ => db_ret tt end
  end.

Definition PullImage (ref : string) : DBM W unit := with_stream (ImagePull ref) parsePullOutput ("pulling image " +:+ ref).

Definition EnsureImage (ref : string) : DBM W unit :=
  let! res := attempt (ImageInspect ref) in
  match res with Ok _ => db_ret tt | Err _ => PullImage ref end.

Definition BuildImage (dockerfile tag : string) (noCache : bool) : DBM W unit :=
  with_stream (ImageBuild [TFile "Dockerfile" dockerfile] "Dockerfile" tag noCache) parseBuildOutput ("building image " +:+ tag).

(** A walk that fails ends the stream with its error, which the daemon's call reports. *)
Definition BuildImageFromContext (readable : string → bool) (root : list (string * Node)) (dockerfilePath tag : string) (noCache : bool) : DBM W unit :=
  match tarDirectory (parseDockerignore readable root) readable root with
  | Err e => db_fail ("building image " +:+ tag +:+ ": " +:+ e)
  | Ok context => with_stream (ImageBuild context dockerfilePath tag noCache) parseBuildOutput ("building image " +:+ tag)
  end.
End Manager.

(** ** What the manager relies on *)

(** A reference is an id or else a name. *)
Definition named (ref id : string) (m : gmap string Container) : Prop :=
  is_Some (m !! ref) ∧ id = ref ∨ m !! ref = None ∧ ∃ c, m !! id = Some c ∧ ctName c = ref.

Definition no_name (name : string) (m : gmap string Container) : Prop := ∀ i c, m !! i = Some c → ctName c ≠ name.

(** What the calls do when they take effect.  An id is not of the form of the manager's names
    (it is hexadecimal), and a name that is taken is refused. *)
Definition created (name : string) (spec : ContainerSpec) (id : string) (m m' : gmap string Container) : Prop :=
  m !! id = None ∧ HasPrefix id "arc-relay-" = false ∧ no_name name m ∧ m' = <[id := mkContainer name spec false]> m.

Definition started (id : string) (m m' : gmap string Container) : Prop :=
  ∃ c, m !! id = Some c ∧ m' = <[id := mkContainer (ctName c) (ctSpec c) true]> m.

Definition removed (ref : string) (m m' : gmap string Container) : Prop := ∃ id, named ref id m ∧ m' = delete id m.

Section Laws.
Context {W : Type} `{Daemon W}.

Definition view (d : Db W) : gmap string Container := containers (tables d).

(** A call that succeeds has had its effect; one that fails may have had it too, its answer lost. *)
Definition effect {A} (op : DBM W A) (eff : A → gmap string Container → gmap string Container → Prop) : Prop :=
  ∀ d, match op d with
       | (Ok a, d') => eff a (view d) (view d')
       | (Err _, d') => view d' = view d ∨ ∃ a, eff a (view d) (view d')
       end.

(** A call that does what it is asked whenever [can] allows it, and leaves the daemon able. *)
Definition answers {A} (up : Db W → Prop) (op : DBM W A) (can : gmap string Container → Prop) : Prop :=
  ∀ d, up d → up (op d).2 ∧ (can (view d) → is_ok (op d).1 = true).
End Laws.

(** The laws, with a condition [up] under which nothing stands in the way of a call: images are there, containers
    can start, no call fails of itself. *)
Class DaemonLaws (W : Type) `{Daemon W} := {
  create_effect : ∀ name spec, effect (ContainerCreate name spec) (created name spec);
  start_effect : ∀ id, effect (ContainerStart id) (λ _, started id);
  remove_effect : ∀ ref, effect (ContainerRemove ref) (λ _, removed ref);
  up : Db W → Prop;
  create_answers : ∀ name spec, answers up (ContainerCreate name spec) (no_name name);
  start_answers : ∀ id, answers up (ContainerStart id) (λ m, is_Some (m !! id));
  remove_answers : ∀ ref, answers up (ContainerRemove ref) (λ m, ∃ id, named ref id m) }.

(** ** A context holds what is kept *)

(** The induction principle that looks into directories. *)
Section NodeInd.
Context (P : Node → Prop) (Hfile : ∀ c, P (NFile c)) (Hlink : ∀ t, P (NLink t)) (Hdir : ∀ l, Forall (λ e, P e.2) l → P (NDir l)).

Fixpoint node_ind' (n : Node) : P n :=
  match n with
  | NFile c => Hfile c
  | NLink t => Hlink t
  | NDir l => Hdir l ((fix go (l : list (string * Node)) : Forall (λ e, P e.2) l :=
                         match l with [] => Forall_nil_2 _ | e :: r => Forall_cons_2 _ e r (node_ind' e.2) (go r) end) l)
  end.
End NodeInd.

Definition is_dir_node (n : Node) : bool := match n with NDir _ => true | _ => false end.

(** Neither a [.git] directory nor matched by a pattern. *)
Definition wanted (patterns : list string) (rel name : string) (n : Node) : Prop :=
  is_dir_node n && (name =?s ".git") = false ∧ shouldIgnore rel (is_dir_node n) patterns = false.

(** [keeps patterns rel name n r m]: starting at [n], found at [rel], the node [m] is reached at [r] through wanted nodes only. *)
Inductive keeps (patterns : list string) : string → string → Node → string → Node → Prop :=
| keeps_here rel name n : wanted patterns rel name n → keeps patterns rel name n rel n
| keeps_child rel name l k c r m :
    wanted patterns rel name (NDir l) → (k, c) ∈ l → keeps patterns (below rel k) k c r m → keeps patterns rel name (NDir l) r m.

(** Links are entries of their own: their text, not what they lead to. *)
Definition entry_of (rel : string) (n : Node) : TarEntry :=
  match n with NFile c => TFile rel c | NDir _ => TDir rel | NLink t => TLink rel t end.

Lemma tar_node_dir patterns readable rel name l :
  tar_node patterns readable rel name (NDir l) =
  if existsb (String.eqb "..") (Split rel "/"%char) then Err ("path traversal detected: " +:+ rel)
  else if name =?s ".git" then Ok []
  else if shouldIgnore rel true patterns then Ok []
  else tar_children patterns readable rel l [TDir rel].
Proof.
  cbn [tar_node]. destruct (existsb _ _); [done|]. cbn [andb]. destruct (name =?s ".git"); [done|]. destruct (shouldIgnore _ _ _); [done|].
  generalize [TDir rel] as acc. induction l as [|[k c] l IH]; intros acc; [done|]. cbn [tar_children].
  destruct (tar_node patterns readable (below rel k) k c); [apply IH|done].
Qed.

Lemma tar_children_spec patterns readable rel l acc es (Q : string → Node → string → Node → Prop) :
  (∀ k c x, (k, c) ∈ l → tar_node patterns readable (below rel k) k c = Ok x → ∀ e, e ∈ x ↔ ∃ r m, Q k c r m ∧ e = entry_of r m) →
  tar_children patterns readable rel l acc = Ok es →
  ∀ e, e ∈ es ↔ e ∈ acc ∨ ∃ k c r m, (k, c) ∈ l ∧ Q k c r m ∧ e = entry_of r m.
Proof.
  revert acc. induction l as [|[k c] l IH]; intros acc Hl; cbn [tar_children].
  { intros [= <-] e. split; [by left|]. intros [?|(? & ? & ? & ? & []%elem_of_nil & _)]. done. }
  destruct (tar_node patterns readable (below rel k) k c) as [x|] eqn:Ex; [|done]. intros Hes e.
  assert (Hx := Hl k c x (list_elem_of_here _ _) Ex). rewrite (IH (acc ++ x)); [|intros k' c' x' Hin; apply Hl; by right|done].
  rewrite elem_of_app, Hx. setoid_rewrite elem_of_cons. split.
  - intros [[?|(r & m & ? & ?)]|(k' & c' & r & m & ? & ? & ?)]; [by left|right; exists k, c, r, m; auto|right; exists k', c', r, m; auto].
  - intros [?|(k' & c' & r & m & [[= -> ->]|?] & ? & ?)]; [left; by left|left; right; eauto|right; eauto 10].
Qed.

Lemma tar_node_spec patterns readable n : ∀ rel name es,
  tar_node patterns readable rel name n = Ok es → ∀ e, e ∈ es ↔ ∃ r m, keeps patterns rel name n r m ∧ e = entry_of r m.
Proof.
  induction n as [c|t|l IH] using node_ind'; intros rel name es.
  - cbn [tar_node]. destruct (existsb _ _); [done|]. cbn [andb]. destruct (shouldIgnore rel false patterns) eqn:Ei.
    + intros [= <-] e. split; [by intros []%elem_of_nil|]. intros (r & m & Hk & _). inversion Hk as [? ? ? [_ Hw]|]; subst. cbn in Hw. congruence.
    + destruct (readable rel); [|done]. intros [= <-] e. rewrite list_elem_of_singleton. split.
      * intros ->. exists rel, (NFile c). split; [by constructor|done].
      * intros (r & m & Hk & ->). by inversion Hk; subst.
  - cbn [tar_node]. destruct (existsb _ _); [done|]. cbn [andb]. destruct (shouldIgnore rel false patterns) eqn:Ei.
    + intros [= <-] e. split; [by intros []%elem_of_nil|]. intros (r & m & Hk & _). inversion Hk as [? ? ? [_ Hw]|]; subst. cbn in Hw. congruence.
    + intros [= <-] e. rewrite list_elem_of_singleton. split.
      * intros ->. exists rel, (NLink t). split; [by constructor|done].
      * intros (r & m & Hk & ->). by inversion Hk; subst.
  - rewrite tar_node_dir. destruct (existsb _ _); [done|].
    destruct (decide (wanted patterns rel name (NDir l))) as [Hw|Hw].
    + destruct Hw as [Hg Hi]. cbn in Hg, Hi. rewrite Hg, Hi. intros Hes e.
      rewrite Forall_forall in IH.
      rewrite (tar_children_spec _ _ _ _ _ _ (λ k c r m, keeps patterns (below rel k) k c r m) (λ k c x Hin, IH (k, c) Hin _ _ x) Hes).
      rewrite list_elem_of_singleton. split.
      * intros [->|(k & c & r & m & Hin & Hk & ->)]; [exists rel, (NDir l); split; [by constructor|done]|].
        exists r, m. split; [|done]. by eapply keeps_child.
      * intros (r & m & Hk & ->). inversion Hk; subst; [by left|]. right. eauto 10.
    + intros Hes e. assert (es = []) as ->.
      { unfold wanted in Hw. cbn in Hw. destruct (name =?s ".git"); [by injection Hes|]. destruct (shouldIgnore rel true patterns); [by injection Hes|]. by destruct Hw. }
      split; [by intros []%elem_of_nil|]. intros (r & m & Hk & _). by inversion Hk; subst.
Qed.

(** the tar stream of a context has exactly one kind of entries: the nodes reached from the root without passing a [.git] directory or
    anything a pattern matches, each at its path with its content, links as links; it is an error if one of them cannot be read. *)
Theorem context_holds_what_is_kept patterns readable root es :
  tarDirectory patterns readable root = Ok es →
  ∀ e, e ∈ es ↔ ∃ k c r m, (k, c) ∈ root ∧ keeps patterns (below "." k) k c r m ∧ e = entry_of r m.
Proof.
  intros Hes e. rewrite (tar_children_spec _ _ _ _ _ _ (λ k c r m, keeps patterns (below "." k) k c r m) (λ k c x _, tar_node_spec _ _ c _ _ x) Hes).
  split; [intros [[]%elem_of_nil|?]; done|by right].
Qed.

(** ** Streams report their first error *)

Definition newline : string := String "010"%char "".

(** A message of the daemon: its progress text and its error. *)
Definition message (other : string) (m : string * string) : json := JObj (omit_empty other m.1 ++ omit_empty "error" m.2).

Definition stream_of (other : string) (msgs : list (string * string)) : string := Join (map (λ m, Marshal (message other m) +:+ newline) msgs) "".

Lemma stream_cons other m msgs : stream_of other (m :: msgs) = Marshal (message other m) +:+ newline +:+ stream_of other msgs.
Proof. unfold stream_of. destruct msgs as [|m' r]; cbn [map Join]; rewrite ?str_app_assoc; [by rewrite !str_app_nil_r|done]. Qed.

Lemma message_obj other m r : ∃ t, Marshal (message other m) +:+ r = String "{" t.
Proof. unfold message. cbn [Marshal]. rewrite !str_app_assoc. by eexists. Qed.

Lemma skip_newline s : skip_ws (newline +:+ s) = skip_ws s.
Proof. done. Qed.

Lemma message_wf other m : Json.wf (message other m) = true.
Proof. cbn [message Json.wf]. rewrite forallb_app, !omit_wf. done. Qed.

Lemma parse_ws n s : parse_value n (newline +:+ s) = parse_value n s.
Proof. by destruct n. Qed.

Definition first_error (msgs : list (string * string)) : result unit :=
  match List.find (λ m, m.2 !=? "") msgs with Some m => Err m.2 | None => Ok tt end.

Lemma read_stream_first other msgs : ∀ pre n,
  EqualFold other "error" = false → EqualFold other other = true → EqualFold "error" other = false → pre = "" ∨ pre = newline → length msgs < n →
  read_stream n other (pre +:+ stream_of other msgs) = first_error msgs.
Proof.
  induction msgs as [|m msgs IH]; intros pre n H1 H0 H2 Hpre Hn; (destruct n as [|n]; [lia|]); cbn [read_stream].
  { destruct Hpre as [-> | ->]; done. }
  rewrite stream_cons. destruct (message_obj other m (newline +:+ stream_of other msgs)) as [t Ht].
  replace (skip_ws (pre +:+ _) =?s "") with false by (rewrite Ht; by destruct Hpre as [-> | ->]).
  assert (Hp : parse_value (S (String.length (pre +:+ Marshal (message other m) +:+ newline +:+ stream_of other msgs)))
                 (pre +:+ Marshal (message other m) +:+ newline +:+ stream_of other msgs)
               = Some (message other m, newline +:+ stream_of other msgs)).
  { pose proof (Marshal_parses (message other m) (message_wf other m)) as Hm.
    destruct Hpre as [-> | ->]; [|rewrite parse_ws]; (apply Hm; [reflexivity|rewrite !str_length_app; lia]). }
  rewrite Hp. cbn [message mbind option_bind]. rewrite !dsf_app, (dsf_omit_eq other other), (dsf_omit_ne "error" other) by done.
  cbn [mbind option_bind]. rewrite (dsf_omit_ne other "error") by done. cbn [mbind option_bind]. rewrite (dsf_omit_eq "error" "error") by reflexivity.
  unfold first_error. cbn [List.find]. destruct (m.2 !=? "") eqn:E; [done|]. apply IH; [done..|by right|cbn in Hn; lia].
Qed.

(** a pull or build succeeds only if no message of the daemon's stream is an error; otherwise the first one is reported. *)
Theorem stream_reports_first_error msgs :
  parsePullOutput (stream_of "status" msgs) = first_error msgs ∧ parseBuildOutput (stream_of "stream" msgs) = first_error msgs.
Proof.
  assert (Hl : ∀ other, length msgs ≤ String.length (stream_of other msgs)).
  { intros other. induction msgs as [|m r IH]; [cbn; lia|]. rewrite stream_cons, !str_length_app. cbn [newline String.length length]. lia. }
  split; (apply (read_stream_first _ _ ""); [reflexivity..|by left|pose proof (Hl "status"); pose proof (Hl "stream"); unfold lt; cbn [String.append]; lia]).
Qed.

(** ** Containers *)

Definition names_unique (m : gmap string Container) : Prop :=
  ∀ i j c c', m !! i = Some c → m !! j = Some c' → ctName c = ctName c' → i = j.

Definition ids_plain (m : gmap string Container) : Prop := ∀ i c, m !! i = Some c → HasPrefix i "arc-relay-" = false.

(** The containers of other names. *)
Definition others_same (name : string) (m m' : gmap string Container) : Prop :=
  ∀ i c, ctName c ≠ name → m' !! i = Some c ↔ m !! i = Some c.

Section Containers.
Context (name : string) (m0 : gmap string Container).

(** What holds throughout: only containers of this name have changed. *)
Definition sane (m : gmap string Container) : Prop := names_unique m ∧ ids_plain m ∧ others_same name m0 m.

(** What becomes of a container is decided by its name alone. *)
Lemma sane_delete m id : sane m → (∀ c, m !! id = Some c → ctName c = name) → sane (delete id m).
Proof.
  intros (Hu & Hp & Ho) Hid. split_and!.
  - intros i j c c' [_ Hi]%lookup_delete_Some [_ Hj]%lookup_delete_Some. by apply Hu.
  - intros i c [_ Hi]%lookup_delete_Some. by eapply Hp.
  - intros i c Hc. rewrite <- (Ho i c Hc), lookup_delete_Some. split; [by intros []|]. intros Hi. split; [|done]. intros <-. by apply Hc, Hid.
Qed.

Lemma sane_insert m id c : sane m → ctName c = name → HasPrefix id "arc-relay-" = false →
  (∀ i c', m !! i = Some c' → ctName c' = name → i = id) → (∀ c', m !! id = Some c' → ctName c' = name) → sane (<[id := c]> m).
Proof.
  intros (Hu & Hp & Ho) Hc Hid Hone Hsame. split_and!.
  - intros i j c1 c2 [[<- <-]|[? Hi]]%lookup_insert_Some [[<- <-]|[? Hj]]%lookup_insert_Some Hn; [done| | |by eapply Hu].
    + symmetry. apply (Hone j c2 Hj). congruence.
    + apply (Hone i c1 Hi). congruence.
  - intros i c1 [[<- <-]|[? Hi]]%lookup_insert_Some; [done|by eapply Hp].
  - intros i c1 Hn. rewrite <- (Ho i c1 Hn), lookup_insert_Some. split; [by intros [[_ <-]|[]]|].
    intros Hi. right. split; [|done]. intros <-. by apply Hn, Hsame.
Qed.

Lemma sane_created m spec id m' : sane m → created name spec id m m' → sane m' ∧ m' !! id = Some (mkContainer name spec false).
Proof.
  intros Hs (Hn & Hid & Hno & ->). split; [|apply lookup_insert_eq]. apply sane_insert; [done..| |].
  - intros i c Hi E. by destruct (Hno i c Hi).
  - intros c. by rewrite Hn.
Qed.

Lemma sane_started m id c m' : sane m → m !! id = Some c → ctName c = name → started id m m' →
  sane m' ∧ m' !! id = Some (mkContainer name (ctSpec c) true).
Proof.
  intros Hs Hc Hn (c' & Hc' & ->). rewrite Hc in Hc'. injection Hc' as <-. rewrite Hn, lookup_insert_eq. split; [|done].
  pose proof Hs as (Hu & Hp & _). apply sane_insert; [done|done|by eapply Hp| |intros c' Hc'; congruence].
  intros i c' Hi E. apply (Hu i id c' c Hi Hc). congruence.
Qed.

(** A reference that is the name or the id of a container of that name removes what has the name. *)
Lemma sane_removed m ref m' : sane m → removed ref m m' → HasPrefix name "arc-relay-" = true →
  ref = name ∨ (∃ c, m !! ref = Some c ∧ ctName c = name) → sane m' ∧ no_name name m'.
Proof.
  intros Hs (id & Hid & ->) Hpre Href. pose proof Hs as (Hu & Hp & _).
  assert (Hc : ∃ c, m !! id = Some c ∧ ctName c = name).
  { destruct Hid as [[[c Hc] ->]|(Hnone & c & Hc & Hn)], Href as [->|(c' & Hc' & Hn')]; [|by exists c'|by exists c|congruence].
    by rewrite (Hp _ _ Hc) in Hpre. }
  destruct Hc as (c & Hc & Hn). split; [apply sane_delete; [done|]; intros c'; congruence|].
  intros i c' [Hne Hi]%lookup_delete_Some E. apply Hne. apply (Hu id i c c' Hc Hi). congruence.
Qed.

Lemma named_there m : ids_plain m → HasPrefix name "arc-relay-" = true → ¬ no_name name m → ∃ id, named name id m.
Proof.
  intros Hp Hpre Hno. destruct (decide (map_Exists (λ _ c, ctName c = name) m)) as [(id & c & Hc & Hn)|Hnot].
  - exists id. right. split; [|by exists c]. destruct (m !! name) as [c'|] eqn:E; [|done]. by rewrite (Hp _ _ E) in Hpre.
  - exfalso. apply Hno. intros i c Hi E. apply Hnot. by exists i, c.
Qed.

Lemma no_name_dec m : no_name name m ∨ ¬ no_name name m.
Proof.
  destruct (decide (map_Forall (λ _ c, ctName c ≠ name) m)) as [Hf|Hf]; [by left|right; intros Hno; apply Hf]. exact Hno.
Qed.
End Containers.

Section Start.
Context {W : Type} `{DaemonLaws W} (networkName : string).

(** Removals that are asked for what is there succeed. *)
Definition removals_work : Prop := ∀ ref d id, named ref id (view d) → is_ok (ContainerRemove ref d).1 = true.

(** A creation that fails has created nothing. *)
Definition creations_atomic : Prop := ∀ name spec d, is_ok (ContainerCreate name spec d).1 = false → view (ContainerCreate name spec d).2 = view d.

(** Removing by the name, or by the id of a container that has it. *)
Lemma remove_run name m0 ref d : HasPrefix name "arc-relay-" = true → sane name m0 (view d) →
  ref = name ∨ (∃ c, view d !! ref = Some c ∧ ctName c = name) →
  let '(r, d') := ContainerRemove ref d in
  sane name m0 (view d') ∧ (is_ok r = true → no_name name (view d')) ∧ (no_name name (view d) → no_name name (view d')).
Proof.
  intros Hpre Hs Href. pose proof (remove_effect ref d) as He. destruct (ContainerRemove ref d) as [[u|e] d'].
  - destruct (sane_removed _ _ _ _ _ Hs He Hpre Href) as [H1 H2]. by split_and!.
  - destruct He as [->|[u He]]; [by split_and!|]. destruct (sane_removed _ _ _ _ _ Hs He Hpre Href) as [H1 H2]. by split_and!.
Qed.

(** The leftover is gone when the removal works or the daemon is up. *)
Lemma leftover_run name d : HasPrefix name "arc-relay-" = true → sane name (view d) (view d) →
  let '(r, d') := ContainerRemove name d in
  sane name (view d) (view d') ∧ (removals_work → no_name name (view d')) ∧ (up d → up d' ∧ no_name name (view d')).
Proof.
  intros Hpre Hs. pose proof (remove_run name (view d) name d Hpre Hs (or_introl eq_refl)) as Hr.
  assert (Hgone : (∀ id, named name id (view d) → is_ok (ContainerRemove name d).1 = true) → no_name name (view (ContainerRemove name d).2)).
  { intros Hok. destruct (ContainerRemove name d) as [r d'] eqn:E. destruct Hr as (_ & H1 & H2).
    destruct (no_name_dec name (view d)) as [Hn|Hn]; [by apply H2|]. destruct (named_there name (view d)) as [id Hid]; [apply Hs|done|done|]. by apply H1, (Hok id). }
  pose proof (remove_answers name d) as Ha. destruct (ContainerRemove name d) as [r d'] eqn:E. destruct Hr as (Hs' & _). split_and!; [done| |].
  - intros Hw. apply Hgone. intros id Hid. specialize (Hw name d id Hid). by rewrite E in Hw.
  - intros Hup. destruct (Ha Hup) as [Hu Hok]. split; [done|]. apply Hgone. intros id Hid. apply Hok. by exists id.
Qed.

Lemma create_run name m0 spec d : sane name m0 (view d) →
  match ContainerCreate name spec d with
  | (Ok id, d') => sane name m0 (view d') ∧ view d' !! id = Some (mkContainer name spec false)
  | (Err _, d') => sane name m0 (view d') ∧
      (no_name name (view d) → ∀ i c, view d' !! i = Some c → ctName c = name → ctRunning c = false)
  end.
Proof.
  intros Hs. pose proof (create_effect name spec d) as He. destruct (ContainerCreate name spec d) as [[id|e] d'].
  - by apply (sane_created _ _ _ _ _ _ Hs He).
  - destruct He as [->|[id He]]; [split; [done|]; intros Hn i c Hi E; by destruct (Hn i c Hi)|].
    destruct (sane_created _ _ _ _ _ _ Hs He) as [Hs' Hid]. split; [done|]. intros _ i c Hi E. pose proof Hs' as (Hu & _).
    assert (i = id) as -> by (by apply (Hu i id c _ Hi Hid)). rewrite Hid in Hi. by injection Hi as <-.
Qed.

Lemma start_run name m0 spec id d : sane name m0 (view d) → view d !! id = Some (mkContainer name spec false) →
  match ContainerStart id d with
  | (Ok _, d') => sane name m0 (view d') ∧ view d' !! id = Some (mkContainer name spec true)
  | (Err _, d') => sane name m0 (view d') ∧ ∃ b, view d' !! id = Some (mkContainer name spec b)
  end.
Proof.
  intros Hs Hid. pose proof (start_effect id d) as He. destruct (ContainerStart id d) as [[u|e] d'].
  - by apply (sane_started _ _ _ _ _ _ Hs Hid eq_refl He).
  - destruct He as [->|[u He]]; [by eauto|]. destruct (sane_started _ _ _ _ _ _ Hs Hid eq_refl He) as [? ?]. by eauto.
Qed.

(** C29: starting a server's container replaces the one it had.  Whichever calls of the daemon fail, with or without having
    taken effect, names stay unique and the containers of other names stay as they are.  When the call succeeds, the id it returns is that of the one
    container of the server's name, and it runs with the configuration asked for.  When it fails and removals work, nothing runs
    under the name, and nothing has the name unless a creation failed half-way.  On a daemon that is up the call succeeds, whatever had the
    name before. *)
Theorem start_replaces_container cfg d :
  names_unique (view d) → ids_plain (view d) → is_Some (container_spec networkName cfg) →
  let name := container_name (ccName cfg) in
  let '(r, d') := StartContainer networkName cfg d in
  names_unique (view d') ∧ others_same name (view d) (view d') ∧
  match r with
  | Ok id => ∃ spec, container_spec networkName cfg = Some spec ∧ view d' !! id = Some (mkContainer name spec true)
  | Err _ => removals_work →
      (∀ i c, view d' !! i = Some c → ctName c = name → ctRunning c = false) ∧ (creations_atomic → no_name name (view d'))
  end ∧
  (up d → is_ok r = true).
Proof.
  intros Hu Hp [spec Espec] name. assert (Hpre : HasPrefix name "arc-relay-" = true) by (apply HasPrefix_iff; by exists (ccName cfg)).
  assert (Hs : sane name (view d) (view d)) by by split_and!.
  unfold StartContainer. rewrite Espec. cbv zeta. fold name. unfold db_bind. rewrite attempt_run.
  pose proof (leftover_run name d Hpre Hs) as Hl. destruct (ContainerRemove name d) as [r0 d1]. destruct Hl as (Hs1 & Hw1 & Hup1). cbn [snd].
  rewrite attempt_run. pose proof (create_run name (view d) spec d1 Hs1) as Hc. pose proof (create_answers name spec d1) as Hca.
  destruct (ContainerCreate name spec d1) as [[id|e] d2] eqn:Ec; cbn [fst snd is_ok] in *.
  2: { destruct Hc as (Hs2 & Hstill). split_and!; [apply Hs2|apply Hs2| |].
       - intros Hw. split; [by apply Hstill, Hw1|]. intros Hat. specialize (Hat name spec d1). rewrite Ec in Hat. cbn in Hat. rewrite Hat by done. by apply Hw1.
       - intros Hd. destruct (Hup1 Hd) as [H1 H2]. destruct (Hca H1) as [_ Hok]. by specialize (Hok H2). }
  destruct Hc as (Hs2 & Hid). rewrite attempt_run. pose proof (start_run name (view d) spec id d2 Hs2 Hid) as Hst. pose proof (start_answers id d2) as Hsa.
  destruct (ContainerStart id d2) as [[u|e] d3]; cbn [fst snd is_ok] in *.
  { destruct Hst as (Hs3 & Hrun). unfold db_ret. split_and!; [apply Hs3|apply Hs3|by exists spec|done]. }
  destruct Hst as (Hs3 & b & Hid3). rewrite attempt_run.
  assert (Hnot : up d → False).
  { intros Hd. destruct (Hup1 Hd) as [H1 _]. destruct (Hca H1) as [H2 _]. destruct (Hsa H2) as [_ Hok]. by discriminate Hok; eexists. }
  pose proof (remove_run name (view d) id d3 Hpre Hs3 (or_intror (ex_intro _ _ (conj Hid3 eq_refl)))) as Hr.
  destruct (ContainerRemove id d3) as [r4 d4] eqn:Er. destruct Hr as (Hs4 & Hgone & _). unfold db_fail. cbn [fst snd].
  split_and!; [apply Hs4|apply Hs4| |by intros Hd; destruct (Hnot Hd)].
  intros Hw. assert (Hn : no_name name (view d4)).
  { apply Hgone. specialize (Hw id d3 id). rewrite Er in Hw. apply Hw. left. split; [by eexists|done]. }
  split; [|done]. intros i c Hi E. by destruct (Hn i c Hi).
Qed.
End Start.

(** A published port is reachable from this host only. *)
Theorem ports_stay_local networkName cfg spec :
  container_spec networkName cfg = Some spec → Forall (λ b, b.2.1 = "127.0.0.1") (csBindings spec).
Proof. unfold container_spec. cbv zeta. repeat case_if; intros [= <-]; by repeat constructor. Qed.

(** a port that does not exist is not refused with an error: the call panics. *)
Theorem large_port_panics `{Daemon W} networkName cfg (d : Db W) : (65535 < ccPort cfg)%Z → StartContainer networkName cfg d = (Err panic, d).
Proof.
  intros Hport. unfold StartContainer, container_spec, valid_port. cbv zeta. replace (0 <? ccPort cfg)%Z with true by lia.
  by replace ((0 <=? ccPort cfg) && (ccPort cfg <=? 65535))%Z with false by lia.
Qed.

(** the first pattern that matches decides, so an exception after its rule has no effect, and a double star does not cross directories. *)
Theorem exceptions_need_to_come_first :
  shouldIgnore "README.md" false ["*.md"; "!README.md"] = true ∧ shouldIgnore "README.md" false ["!README.md"; "*.md"] = false ∧
  shouldIgnore "a/b/.env" false ["**/.env"] = false.
Proof. vm_compute. done. Qed.

(** ** Witnesses *)

Definition toy_context : list (string * Node) :=
  [(".dockerignore", NFile ("# rules" +:+ newline +:+ "*.log" +:+ newline)); (".git", NDir [("HEAD", NFile "ref")]); ("a.log", NFile "x");
   ("src", NDir [("etc", NLink "/etc"); ("main.py", NFile "print()")])].

Example packed :
  tarDirectory (parseDockerignore (λ _, true) toy_context) (λ _, true) toy_context =
  Ok [TFile ".dockerignore" ("# rules" +:+ newline +:+ "*.log" +:+ newline); TDir "src"; TLink "src/etc" "/etc"; TFile "src/main.py" "print()"].
Proof. vm_compute. reflexivity. Qed.

Lemma context_holds_what_is_kept_witness :
  ∀ e, e ∈ [TDir "src"; TLink "src/etc" "/etc"; TFile "src/main.py" "print()"] ↔
       ∃ k c r m, (k, c) ∈ [("src", NDir [("etc", NLink "/etc"); ("main.py", NFile "print()")])] ∧ keeps ["*.log"] (below "." k) k c r m ∧ e = entry_of r m.
Proof. apply (context_holds_what_is_kept ["*.log"] (λ _, true)). vm_compute. reflexivity. Defined.

(** A daemon: a call that fails has had no effect, and a container publishes the ports it was asked to on
    the port of the same number. *)
Record Engine := mkEngine { containers_of : gmap string Container; images : gset string; networks : list string }.

Definition with_containers (e : Engine) (m : gmap string Container) : Engine := mkEngine m (images e) (networks e).

Fixpoint zeros (n : nat) : string := match n with 0 => "" | S n => String "0"%char (zeros n) end.

(** An id longer than all there are. *)
Definition new_id (m : gmap string Container) : string := "c" +:+ zeros (max_list (map String.length (map fst (map_to_list m)))).

Definition find_container (ref : string) (m : gmap string Container) : option string :=
  if bool_decide (is_Some (m !! ref)) then Some ref else fst <$> List.find (λ c, ctName c.2 =?s ref) (map_to_list m).

Definition toy_create (name : string) (spec : ContainerSpec) (e : Engine) : result (string * Engine) :=
  match List.find (λ c, ctName c.2 =?s name) (map_to_list (containers_of e)) with
  | Some _ => Err "Conflict. The container name is already in use"
  | None => let id := new_id (containers_of e) in Ok (id, with_containers e (<[id := mkContainer name spec false]> (containers_of e)))
  end.

Definition toy_set_running (b : bool) (id : string) (e : Engine) : result (unit * Engine) :=
  match containers_of e !! id with
  | Some c => Ok (tt, with_containers e (<[id := mkContainer (ctName c) (ctSpec c) b]> (containers_of e)))
  | None => Err ("No such container: " +:+ id)
  end.

Definition toy_remove (ref : string) (e : Engine) : result (unit * Engine) :=
  match find_container ref (containers_of e) with
  | Some id => Ok (tt, with_containers e (delete id (containers_of e)))
  | None => Err ("No such container: " +:+ ref)
  end.

Definition toy_inspect (ref : string) (e : Engine) : result (Inspection * Engine) :=
  match find_container ref (containers_of e) ≫= λ id, containers_of e !! id with
  | Some c => Ok (mkInspection (ctRunning c) (map (λ b, (b.1, [(b.2.1, pretty b.1)])) (csBindings (ctSpec c))), e)
  | None => Err ("No such container: " +:+ ref)
  end.

#[local] Instance toy_daemon : Daemon Engine := {|
  containers := containers_of;
  ContainerCreate name spec := exec (toy_create name spec);
  ContainerStart id := exec (toy_set_running true id);
  ContainerStop id := exec (toy_set_running false id);
  ContainerRemove ref := exec (toy_remove ref);
  ContainerInspect ref := exec (toy_inspect ref);
  NetworkList := query networks;
  NetworkCreate n := update (λ e, mkEngine (containers_of e) (images e) (networks e ++ [n]));
  ImageInspect ref := exec (λ e, if bool_decide (ref ∈ images e) then Ok (tt, e) else Err "No such image");
  ImagePull ref := exec (λ e, Ok ("", mkEngine (containers_of e) ({[ref]} ∪ images e) (networks e)));
  ImageBuild _ _ tag _ := exec (λ e, Ok ("", mkEngine (containers_of e) ({[tag]} ∪ images e) (networks e))) |}.

Lemma find_named ref (m : gmap string Container) : match find_container ref m with
  | Some id => named ref id m | None => ∀ id, ¬ named ref id m end.
Proof.
  unfold find_container, named. case_bool_decide as Hb; [by left|]. apply eq_None_not_Some in Hb.
  destruct (List.find _ _) as [[i c]|] eqn:E.
  - apply find_map_Some in E as [Hi Hn]. cbn in Hn. bool_prop. right. split; [done|by exists c].
  - intros id [[Hs _]|(_ & c & Hc & Hn)]; [rewrite Hb in Hs; by destruct Hs|].
    pose proof (find_none _ _ E (id, c)) as Hf. cbn in Hf. rewrite Hn, String.eqb_refl in Hf. by discriminate Hf; apply list_elem_of_In, elem_of_map_to_list.
Qed.

Lemma find_free name (m : gmap string Container) : match List.find (λ c, ctName c.2 =?s name) (map_to_list m) with
  | Some _ => ¬ no_name name m | None => no_name name m end.
Proof.
  destruct (List.find _ _) as [[i c]|] eqn:E.
  - apply find_map_Some in E as [Hi Hn]. cbn in Hn. bool_prop. intros Hno. by apply (Hno i c).
  - intros i c Hi Hn. pose proof (find_none _ _ E (i, c)) as Hf. cbn in Hf. rewrite Hn, String.eqb_refl in Hf.
    by discriminate Hf; apply list_elem_of_In, elem_of_map_to_list.
Qed.

Lemma new_id_free m : m !! new_id m = None.
Proof.
  destruct (m !! new_id m) as [c|] eqn:E; [|done]. exfalso.
  assert (Hl : String.length (new_id m) ∈ map String.length (map fst (map_to_list m))).
  { apply (list_elem_of_fmap_2 String.length), (list_elem_of_fmap_2 fst _ (new_id m, c)). by apply elem_of_map_to_list. }
  apply max_list_elem_of_le in Hl. unfold new_id in Hl at 1. rewrite str_length_app in Hl.
  assert (Hz : ∀ n, String.length (zeros n) = n) by (induction n; cbn; congruence). rewrite Hz in Hl. cbn in Hl. lia.
Qed.

#[local] Instance toy_laws : DaemonLaws Engine.
Proof.
  refine {| up d := faults d = [] |}.
  - intros name spec d. unfold view. cbn. unfold exec. destruct (next_fault _) as [[] fs]; [by left|]. unfold toy_create.
    pose proof (find_free name (containers_of (tables d))) as Hf. destruct (List.find _ _); [by left|].
    split_and!; [apply new_id_free|reflexivity|done|reflexivity].
  - intros id d. unfold view. cbn. unfold exec. destruct (next_fault _) as [[] fs]; [by left|]. unfold toy_set_running.
    destruct (containers_of (tables d) !! id) as [c|] eqn:E; [|by left]. by exists c.
  - intros ref d. unfold view. cbn. unfold exec. destruct (next_fault _) as [[] fs]; [by left|]. unfold toy_remove.
    pose proof (find_named ref (containers_of (tables d))) as Hf. destruct (find_container _ _) as [id|]; [|by left]. by exists id.
  - intros name spec [e fs] Hf. cbn in Hf. subst fs. unfold view. cbn. unfold exec, toy_create. cbn.
    pose proof (find_free name (containers_of e)) as Hf. by destruct (List.find _ _).
  - intros id [e fs] Hf. cbn in Hf. subst fs. unfold view. cbn. unfold exec, toy_set_running. cbn.
    destruct (containers_of e !! id) as [c|] eqn:E; [done|]. split; [done|]. by intros [? ?].
  - intros ref [e fs] Hf. cbn in Hf. subst fs. unfold view. cbn. unfold exec, toy_remove. cbn.
    pose proof (find_named ref (containers_of e)) as Hf. destruct (find_container _ _) as [id|]; [done|]. split; [done|]. intros [id Hid]. by destruct (Hf id).
Defined.

Definition toy_engine : Engine :=
  mkEngine {["c0" := mkContainer "arc-relay-files" (mkSpec "old" [] true [] [] [] "net") true]} ∅ [].

(** The leftover is replaced; a container that could not be started is removed again, and what had the name is gone. *)
Lemma start_replaces_container_witness :
  let cfg := mkContainerConfig "files" "new" [] [] ∅ 8000 in
  let '(r, d') := StartContainer "net" cfg (healthy toy_engine) in
  r = Ok "c" ∧ names_unique (view d') ∧ others_same "arc-relay-files" (view (healthy toy_engine)) (view d') ∧
  (∃ spec, container_spec "net" cfg = Some spec ∧ view d' !! "c" = Some (mkContainer "arc-relay-files" spec true)) ∧
  let '(r, d') := StartContainer "net" cfg (mkDb toy_engine [false; false; true]) in
  is_ok r = false ∧ containers_of (tables d') = ∅.
Proof.
  assert (Hu : names_unique (view (healthy toy_engine))) 
    by (unfold view; cbn [containers toy_daemon containers_of toy_engine tables healthy]; by intros i j c c' [<- <-]%lookup_singleton_Some [<- <-]%lookup_singleton_Some).
  assert (Hp : ids_plain (view (healthy toy_engine))) 
    by (unfold view; cbn [containers toy_daemon containers_of toy_engine tables healthy]; by intros i c [<- <-]%lookup_singleton_Some).
  pose proof (start_replaces_container "net" (mkContainerConfig "files" "new" [] [] ∅ 8000) (healthy toy_engine) Hu Hp (ex_intro _ _ eq_refl)) as H.
  assert (E : (StartContainer "net" (mkContainerConfig "files" "new" [] [] ∅ 8000) (healthy toy_engine)).1 = Ok "c") by (vm_compute; reflexivity).
  cbv zeta in H |- *. destruct (StartContainer "net" _ (healthy toy_engine)) as [r d']. cbn in E. subst r. destruct H as (H1 & H2 & H3 & _).
  split; [reflexivity|]. split; [exact H1|]. split; [exact H2|]. split; [exact H3|]. vm_compute. split; reflexivity.
Defined.

Lemma ports_stay_local_witness :
  Forall (λ b, b.2.1 = "127.0.0.1") [(8000%Z, ("127.0.0.1", "0"))].
Proof. apply (ports_stay_local "net" (mkContainerConfig "files" "new" [] [] ∅ 8000) (mkSpec "new" [] false [] [] [(8000%Z, ("127.0.0.1", "0"))] "net")). reflexivity. Defined.

Lemma large_port_panics_witness :
  StartContainer "net" (mkContainerConfig "files" "new" [] [] ∅ 70000) (healthy toy_engine) = (Err panic, healthy toy_engine).
Proof. apply large_port_panics. cbn. lia. Defined.
