(* ===== verification/RelayClient.v ===== *)
(** * The relay's client

    [src/internal/cli/relay]: what [arc-sync] sends to a relay and what it makes of the
    answers.  The transport is a parameter: a request, as the relay sees it, and the answer
    or an error of the network; the key every request carries is part of it.  An error keeps
    what callers tell apart, the status, beside its text; names are not quoted in it.  Of a
    key that repeats in an answer the last array counts; Go merges the elements.  A
    configuration that is sent is the value it encodes. *)
From stdpp Require Import pretty.
From S2P Require Import ServerSync.
From S2P Require Import Prelude GoStrings GoPath Json JsonDecode AccessTiers Profiles Users Servers Skills Subhash SkillService SkillChecker SkillsApi.
From S2P Require Import ServerApi.

(** ** Addresses *)

Record Client := mkClient { BaseURL : string; APIKey : string }.

Definition NewClient (baseURL apiKey : string) : Client := mkClient (trim_right (Ascii.eqb "/"%char) baseURL) apiKey.

Definition IsRelayURL (c : Client) (url : string) : bool := HasPrefix url (BaseURL c +:+ "/mcp/").

(** [""] for an address that is no proxy of this relay. *)
Definition ServerNameFromURL (c : Client) (url : string) : string :=
  let prefix := BaseURL c +:+ "/mcp/" in
  if negb (HasPrefix url prefix) then ""
  else let name := TrimPrefix url prefix in match Index name "/" with Some idx => take_str idx name | None => name end.

(** ** Calls *)

(** An answer: [rsBroken] is a body that could not be read to its end. *)
Record Resp := mkResp { rsStatus : Z; rsHeader : gmap string string; rsBody : string; rsBroken : bool }.

(** [EHttp] is [SkillHTTPError], [recipeHTTPError]. *)
Inductive CallErr := EText (msg : string) | EHttp (status : Z) (msg : string).

Definition error_text (e : CallErr) : string := match e with EText m | EHttp _ m => m end.

(** A call goes on in the same world whether it fails or not. *)
Definition Call (W A : Type) : Type := DBM W (A + CallErr).

Definition call_ret {W A} (a : A) : Call W A := db_ret (inl a).
Definition call_err {W A} (e : CallErr) : Call W A := db_ret (inr e).
Definition call_bind {W A B} (m : Call W A) (k : A → Call W B) : Call W B :=
  let! r := m in match r with inl a => k a | inr e => call_err e end.

Notation "'let?' x ':=' m 'in' k" := (call_bind m (λ x, k))
  (at level 200, x pattern, right associativity, only parsing).

(** ** Errors *)

(** The [error] field of the body when there is one, else the body. *)
Definition parseErrorBody (body : string) : string :=
  match (l ← struct_fields body; decode_string_field "error" l "") with
  | Some e => if e !=? "" then e else body
  | None => body
  end.

Definition handleErrorResponse (status : Z) (body context : string) : string :=
  let detail := parseErrorBody body in
  let with_detail (p d : string) := if detail !=? "" then p +:+ detail else d in
  if (status =? 401)%Z then "authentication failed (401) — check your API key"
  else if (status =? 403)%Z then "access denied (403)" +:+ (if detail !=? "" then " — " +:+ detail else "")
  else if (status =? 404)%Z then with_detail "not found: " (context +:+ " not found")
  else if (status =? 409)%Z then with_detail "conflict: " (context +:+ " already exists")
  else if (status =? 400)%Z then with_detail "bad request: " "bad request"
  else with_detail ("relay returned HTTP " +:+ pretty status +:+ ": ") ("relay returned HTTP " +:+ pretty status).

(** ** Decoding *)

(** A pointer to a struct: objects are decoded into it one after the other, [null] clears it. *)
Fixpoint nested_ptr (name : string) (l : list (string * json)) (cur : option (list (string * json))) : option (option (list (string * json))) :=
  match l with
  | [] => Some cur
  | (k, v) :: r =>
      if EqualFold k name then
        match v with
        | JObj o => nested_ptr name r (Some (default [] cur ++ o))
        | JNull => nested_ptr name r None
        | _ => None
        end
      else nested_ptr name r cur
  end.

Definition decode_ptr {A} (name : string) (f : list (string * json) → option A) (l : list (string * json)) : option (option A) :=
  o ← nested_ptr name l None; match o with Some fields => Some <$> f fields | None => Some None end.

(** A slice of pointers: [null] is a nil pointer. *)
Definition decode_pointer {A} (f : list (string * json) → option A) (v : json) : option (option A) :=
  match v with JNull => Some None | JObj o => Some <$> f o | _ => None end.

Definition decode_ptr_list {A} (f : list (string * json) → option A) (v : option json) : option (list (option A)) :=
  match v with
  | None | Some JNull => Some []
  | Some (JArr l) => mapM (decode_pointer f) l
  | _ => None
  end.

Definition decode_field_list {A} (name : string) (f : list (string * json) → option A) (l : list (string * json)) : option (list (option A)) :=
  decode_ptr_list f (decode_raw_field name l None).

Record Server := mkServer {
  sID : string; sName : string; sDisplayName : string; sType : string; sStatus : string; sHealth : string;
  sHealthCheckAt : string; sHealthError : string }.

Definition decode_listed (l : list (string * json)) : option Server :=
  i ← decode_string_field "id" l ""; n ← decode_string_field "name" l ""; d ← decode_string_field "display_name" l "";
  t ← decode_string_field "server_type" l ""; s ← decode_string_field "status" l ""; h ← decode_string_field "health" l "";
  c ← decode_string_field "health_check_at" l ""; e ← decode_string_field "health_error" l "";
  Some (mkServer i n d t s h c e).

(** The configuration is kept as the value it encodes. *)
Record ServerDetail := mkDetail {
  dtID : string; dtName : string; dtDisplayName : string; dtType : string; dtConfig : option json; dtStatus : string;
  dtErrorMsg : string; dtCreatedAt : string }.

Definition decode_detail (l : list (string * json)) : option ServerDetail :=
  i ← decode_string_field "id" l ""; n ← decode_string_field "name" l ""; d ← decode_string_field "display_name" l "";
  t ← decode_string_field "server_type" l ""; s ← decode_string_field "status" l ""; e ← decode_string_field "error_msg" l "";
  c ← decode_string_field "created_at" l ""; Some (mkDetail i n d t (decode_raw_field "config" l None) s e c).

(** [CreateServerRequest]; [crConfig] is the text of the configuration. *)
Record CreateServerRequest := mkCreate { crName : string; crDisplayName : string; crServerType : string; crConfig : json }.

Definition create_json (r : CreateServerRequest) : json :=
  JObj [("name", JStr (crName r)); ("display_name", JStr (crDisplayName r)); ("server_type", JStr (crServerType r)); ("config", crConfig r)].

Section Decode.
Context (parseTime : string → option Z).

Record Drift := mkDrift {
  drSeverity : string; drSummary : string; drAction : string; drCommitsAhead : Z; drUpstreamSHA : string; drDetectedAt : Z;
  drRelayVersion : string; drRelayHash : string; drModel : string }.

Definition decode_drift (l : list (string * json)) : option Drift :=
  s ← decode_string_field "severity" l ""; m ← decode_string_field "summary" l ""; a ← decode_string_field "recommended_action" l "";
  c ← decode_int_field "commits_ahead" l 0; u ← decode_string_field "upstream_sha" l ""; t ← decode_time_field parseTime "detected_at" l 0;
  v ← decode_string_field "relay_version" l ""; h ← decode_string_field "relay_hash" l ""; g ← decode_string_field "llm_model" l "";
  Some (mkDrift s m a c u t v h g).

Record RemoteSkill := mkRemoteSkill {
  rkID : string; rkSlug : string; rkDisplayName : string; rkDescription : string; rkVisibility : string; rkLatestVersion : string;
  rkYankedAt : option Z; rkCreatedAt : Z; rkUpdatedAt : Z; rkOutdated : Z; rkDrift : option Drift }.

Definition decode_skill (l : list (string * json)) : option RemoteSkill :=
  i ← decode_string_field "id" l ""; s ← decode_string_field "slug" l ""; n ← decode_string_field "display_name" l "";
  d ← decode_string_field "description" l ""; v ← decode_string_field "visibility" l ""; lv ← decode_string_field "latest_version" l "";
  y ← decode_time_ptr parseTime "yanked_at" l None; c ← decode_time_field parseTime "created_at" l 0;
  u ← decode_time_field parseTime "updated_at" l 0; o ← decode_int_field "outdated" l 0; dr ← decode_ptr "drift" decode_drift l;
  Some (mkRemoteSkill i s n d v lv y c u o dr).

Record RemoteVersion := mkRemoteVersion {
  rvSkillID : string; rvVersion : string; rvArchivePath : string; rvArchiveSize : Z; rvSHA256 : string; rvManifest : option json; rvYankedAt : option Z; rvUploadedAt : Z }.

Definition decode_version (l : list (string * json)) : option RemoteVersion :=
  i ← decode_string_field "skill_id" l ""; v ← decode_string_field "version" l ""; p ← decode_string_field "archive_path" l "";
  z ← decode_int_field "archive_size" l 0; s ← decode_string_field "archive_sha256" l ""; y ← decode_time_ptr parseTime "yanked_at" l None;
  u ← decode_time_field parseTime "uploaded_at" l 0; Some (mkRemoteVersion i v p z s (decode_raw_field "manifest" l None) y u).

(** A row of the assigned list: the skill and the pinned version. *)
Definition decode_assigned (l : list (string * json)) : option (option RemoteSkill * option string) :=
  k ← decode_ptr "skill" decode_skill l; v ← decode_string_ptr "pinned_version" l None; Some (k, v).

Definition decode_skill_detail (l : list (string * json)) : option (option RemoteSkill * list (option RemoteVersion)) :=
  k ← decode_ptr "skill" decode_skill l; vs ← decode_field_list "versions" decode_version l; Some (k, vs).

Definition decode_uploaded (l : list (string * json)) : option (option RemoteSkill * option RemoteVersion) :=
  k ← decode_ptr "skill" decode_skill l; v ← decode_ptr "version" decode_version l; Some (k, v).

(** The data of a recipe is kept as the value it encodes. *)
Record RemoteRecipe := mkRemoteRecipe {
  rrID : string; rrSlug : string; rrDisplayName : string; rrDescription : string; rrType : string; rrData : option json;
  rrVisibility : string; rrYankedAt : option Z; rrCreatedAt : Z; rrUpdatedAt : Z }.

Definition decode_recipe (l : list (string * json)) : option RemoteRecipe :=
  i ← decode_string_field "id" l ""; s ← decode_string_field "slug" l ""; n ← decode_string_field "display_name" l "";
  d ← decode_string_field "description" l ""; t ← decode_string_field "recipe_type" l ""; v ← decode_string_field "visibility" l "";
  y ← decode_time_ptr parseTime "yanked_at" l None; c ← decode_time_field parseTime "created_at" l 0;
  u ← decode_time_field parseTime "updated_at" l 0;
  Some (mkRemoteRecipe i s n d t (decode_raw_field "recipe_data" l None) v y c u).
End Decode.

(** [UpstreamMetadata], the header of an upload. *)
Record UpstreamMetadata := mkMeta { umType : string; umURL : string; umSubpath : string; umRef : string }.

Definition meta_json (u : UpstreamMetadata) : json :=
  JObj [("type", JStr (umType u)); ("url", JStr (umURL u)); ("subpath", JStr (umSubpath u)); ("ref", JStr (umRef u))].

Record PatchSkillInput := mkPatch { paVisibility : option string; paDisplayName : option string; paDescription : option string }.

Definition omit_nil (name : string) (v : option string) : list (string * json) := match v with Some s => [(name, JStr s)] | None => [] end.

Definition patch_json (p : PatchSkillInput) : json :=
  JObj (omit_nil "visibility" (paVisibility p) ++ omit_nil "display_name" (paDisplayName p) ++ omit_nil "description" (paDescription p)).

Record SetUpstreamInput := mkSetUpstream { inType : string; inGitURL : string; inSubpath : string; inRef : string }.

Definition set_upstream_json (i : SetUpstreamInput) : json :=
  JObj (omit_empty "type" (inType i) ++ [("git_url", JStr (inGitURL i))] ++ omit_empty "git_subpath" (inSubpath i) ++ omit_empty "git_ref" (inRef i)).

Record CreateRecipeRequest := mkCreateRecipe {
  qrSlug : string; qrDisplayName : string; qrDescription : string; qrType : string; qrData : json; qrVisibility : string }.

Definition create_recipe_json (r : CreateRecipeRequest) : json :=
  JObj ([("slug", JStr (qrSlug r))] ++ omit_empty "display_name" (qrDisplayName r) ++ omit_empty "description" (qrDescription r)
        ++ [("recipe_type", JStr (qrType r)); ("recipe_data", qrData r)] ++ omit_empty "visibility" (qrVisibility r)).

(** ** The client *)

Section Client.
Context {W : Type} (transport : Req → DBM W Resp) (parseTime : string → option Z).
(** What [net/url] makes of a path into which text was written as it is: the path the relay
    sees, and the query. *)
Context (parse_target : string → option (string * gmap string string)).

Definition json_header : gmap string string := {["Content-Type" := "application/json"]}.

Definition exchange (what : string) (r : Req) : Call W Resp :=
  let! a := attempt (transport r) in
  db_ret (match a with Ok resp => inl resp | Err e => inr (EText (what +:+ ": " +:+ e)) end).

(** [io.ReadAll] with its error; where the code drops the error it takes what was read. *)
Definition read_all (what : string) (resp : Resp) : Call W string :=
  if rsBroken resp then call_err (EText (what +:+ ": unexpected EOF")) else call_ret (rsBody resp).

Definition decode_body {A} (what : string) (f : list (string * json) → option A) (body : string) : Call W A :=
  match struct_fields body ≫= f with Some a => call_ret a | None => call_err (EText what) end.

Definition is_status (codes : list Z) (resp : Resp) : bool := bool_decide (rsStatus resp ∈ codes).

Definition refused {A} (resp : Resp) (body context : string) : Call W A := call_err (EText (handleErrorResponse (rsStatus resp) body context)).

(** The same with the status kept. *)
Definition refused_http {A} (resp : Resp) (body context : string) : Call W A :=
  call_err (EHttp (rsStatus resp) (handleErrorResponse (rsStatus resp) body context)).

Definition connecting : string := "connecting to relay".

(** *** Servers *)

Definition decode_servers (body : string) : option (list Server) := v ← Unmarshal body; decode_struct_list decode_listed (Some v).

Definition ListServers : Call W (list Server) :=
  let? resp := exchange connecting (mkReq "GET" "/api/servers" ∅ ∅ "" false) in
  let? body := read_all "reading response" resp in
  if (rsStatus resp =? 200)%Z then
    match decode_servers body with Some l => call_ret l | None => call_err (EText "parsing server list") end
  else if (rsStatus resp =? 401)%Z then call_err (EText "authentication failed (401) — check your API key")
  else if (rsStatus resp =? 403)%Z then call_err (EText "access denied (403) — your API key may lack permissions")
  else call_err (EText ("relay returned HTTP " +:+ pretty (rsStatus resp) +:+ ": " +:+ body)).

Definition ListRunningServers : Call W (list Server) :=
  let? l := ListServers in call_ret (List.filter (λ s, sStatus s =?s "running") l).

Definition CreateServer (r : CreateServerRequest) : Call W ServerDetail :=
  let? resp := exchange connecting (mkReq "POST" "/api/servers" ∅ json_header (Marshal (create_json r)) false) in
  let? body := read_all "reading response" resp in
  if negb (is_status [200; 201]%Z resp) then refused resp body ("server " +:+ crName r)
  else decode_body "parsing response" decode_detail body.

(** A request whose path holds a text that is not escaped. *)
Definition to_path (method path : string) : Call W Resp :=
  match parse_target path with
  | None => call_err (EText "creating request: invalid URL")
  | Some (p, q) => exchange connecting (mkReq method p q ∅ "" false)
  end.

Definition DeleteServer (id : string) : Call W unit :=
  let? resp := to_path "DELETE" ("/api/servers/" +:+ id) in
  if is_status [200; 204]%Z resp then call_ret tt else refused resp (rsBody resp) ("server " +:+ id).

Definition serverAction (id action : string) : Call W unit :=
  let? resp := to_path "POST" ("/api/servers/" +:+ id +:+ "/" +:+ action) in
  if is_status [200; 204]%Z resp then call_ret tt else refused resp (rsBody resp) ("server " +:+ id).

Definition StartServer (id : string) : Call W unit := serverAction id "start".
Definition StopServer (id : string) : Call W unit := serverAction id "stop".

Definition GetServer (id : string) : Call W ServerDetail :=
  let? resp := to_path "GET" ("/api/servers/" +:+ id) in
  let? body := read_all "reading response" resp in
  if negb (is_status [200]%Z resp) then refused resp body ("server " +:+ id) else decode_body "parsing response" decode_detail body.

(** *** Skills *)

Definition skillGet (path : string) : Call W string :=
  let? resp := exchange connecting (mkReq "GET" path ∅ ∅ "" false) in
  let? body := read_all "reading response" resp in
  if negb (is_status [200]%Z resp) then refused_http resp body "skills" else call_ret body.

Definition ListSkills : Call W (list (option RemoteSkill)) :=
  let? body := skillGet "/api/skills" in decode_body "parse skills list" (decode_field_list "skills" (decode_skill parseTime)) body.

Definition ListAssignedSkills : Call W (list (option (option RemoteSkill * option string))) :=
  let? body := skillGet "/api/skills/assigned" in
  decode_body "parse assigned skills" (decode_field_list "assigned" (decode_assigned parseTime)) body.

(** [None]: there is none, or the user cannot see it. *)
Definition missing_404 {A} (m : Call W string) (k : string → Call W (option A)) : Call W (option A) :=
  let! r := m in
  match r with
  | inl body => k body
  | inr (EHttp status msg) => if (status =? 404)%Z then call_ret None else call_err (EHttp status msg)
  | inr e => call_err e
  end.

Definition GetSkill (slug : string) : Call W (option (option RemoteSkill * list (option RemoteVersion))) :=
  missing_404 (skillGet ("/api/skills/" +:+ slug)) (λ body,
    let? d := decode_body "parse skill detail" (decode_skill_detail parseTime) body in call_ret (Some d)).

(** [None]: up to date. *)
Definition CheckDrift (slug : string) : Call W (option Drift) :=
  let? resp := exchange connecting (mkReq "POST" ("/api/skills/" +:+ slug +:+ "/check-drift") ∅ ∅ "" false) in
  if (rsStatus resp =? 204)%Z then call_ret None
  else if (rsStatus resp =? 200)%Z then
    decode_body "parsing drift response" (λ l, _ ← decode_bool_field "outdated" l false; decode_ptr "drift" (decode_drift parseTime) l) (rsBody resp)
  else refused_http resp (rsBody resp) ("skill " +:+ slug +:+ " check-drift").

Definition header_of (k : string) (resp : Resp) : string := default "" (rsHeader resp !! k).

Definition DownloadSkillVersion (slug version : string) : Call W (string * string) :=
  let? resp := exchange connecting (mkReq "GET" ("/api/skills/" +:+ slug +:+ "/versions/" +:+ version +:+ "/archive") ∅ ∅ "" false) in
  let? body := read_all "reading archive" resp in
  if negb (is_status [200]%Z resp) then refused resp body ("skill " +:+ slug +:+ "@" +:+ version)
  else call_ret (body, header_of "X-Skill-SHA256" resp).

(** The header an upload carries for its upstream. *)
Definition upstream_headers (u : option UpstreamMetadata) : gmap string string :=
  match u with
  | None => ∅
  | Some u => if (umType u =?s "") && (umURL u =?s "") then {["X-Clear-Upstream" := "true"]} else {["X-Upstream" := Marshal (meta_json u)]}
  end.

Definition UploadSkill (slug version visibility archive : string) (upstream : option UpstreamMetadata) :
    Call W (option RemoteSkill * option RemoteVersion) :=
  let q := if visibility !=? "" then {["visibility" := visibility]} else ∅ in
  let? resp := exchange connecting (mkReq "POST" ("/api/skills/" +:+ slug +:+ "/versions/" +:+ version) q
                 (<["Content-Type" := "application/gzip"]> (upstream_headers upstream)) archive false) in
  if negb (is_status [200; 201]%Z resp) then refused resp (rsBody resp) ("skill " +:+ slug +:+ "@" +:+ version)
  else decode_body "parse upload response" (decode_uploaded parseTime) (rsBody resp).

Definition AssignSkill (slug username version : string) : Call W unit :=
  let? resp := exchange connecting (mkReq "POST" ("/api/skills/" +:+ slug +:+ "/assignments") ∅ json_header
                 (Marshal (marshal_map [("username", JStr username); ("version", JStr version)])) false) in
  if negb (is_status [200; 201]%Z resp) then refused resp (rsBody resp) ("skill " +:+ slug +:+ " assign " +:+ username) else call_ret tt.

Definition UnassignSkill (slug username : string) : Call W unit :=
  let? resp := exchange connecting (mkReq "DELETE" ("/api/skills/" +:+ slug +:+ "/assignments/" +:+ username) ∅ ∅ "" false) in
  if negb (is_status [200; 204]%Z resp) then refused resp (rsBody resp) ("skill " +:+ slug +:+ " unassign " +:+ username) else call_ret tt.

Definition hard_query (hard : bool) : gmap string string := if hard then {["hard" := "true"]} else ∅.

Definition YankSkill (slug : string) (hard : bool) : Call W unit :=
  let? resp := exchange connecting (mkReq "DELETE" ("/api/skills/" +:+ slug) (hard_query hard) ∅ "" false) in
  if negb (is_status [200; 204]%Z resp) then refused resp (rsBody resp) ("skill " +:+ slug) else call_ret tt.

Definition PatchSkill (slug : string) (p : PatchSkillInput) : Call W (option RemoteSkill) :=
  let? resp := exchange connecting (mkReq "PATCH" ("/api/skills/" +:+ slug) ∅ json_header (Marshal (patch_json p)) false) in
  if negb (is_status [200]%Z resp) then refused_http resp (rsBody resp) ("skill " +:+ slug +:+ " patch")
  else decode_body "parse patch response" (decode_ptr "skill" (decode_skill parseTime)) (rsBody resp).

(** The answer is a map of arbitrary values. *)
Definition SetUpstream (slug : string) (i : SetUpstreamInput) : Call W (list (string * json)) :=
  let? resp := exchange connecting (mkReq "PUT" ("/api/skills/" +:+ slug +:+ "/upstream") ∅ json_header (Marshal (set_upstream_json i)) false) in
  if negb (is_status [200]%Z resp) then refused_http resp (rsBody resp) ("skill " +:+ slug +:+ " set-upstream")
  else decode_body "parse set-upstream response" Some (rsBody resp).

Definition ClearUpstream (slug : string) : Call W unit :=
  let? resp := exchange connecting (mkReq "DELETE" ("/api/skills/" +:+ slug +:+ "/upstream") ∅ ∅ "" false) in
  if negb (is_status [200; 204]%Z resp) then refused_http resp (rsBody resp) ("skill " +:+ slug +:+ " clear-upstream") else call_ret tt.

(** *** Recipes *)

Definition recipeGet (path : string) : Call W string :=
  let? resp := exchange connecting (mkReq "GET" path ∅ ∅ "" false) in
  let? body := read_all "reading response" resp in
  if negb (is_status [200]%Z resp) then refused_http resp body "recipes" else call_ret body.

Definition ListRecipes : Call W (list (option RemoteRecipe)) :=
  let? body := recipeGet "/api/recipes" in decode_body "parse recipes list" (decode_field_list "recipes" (decode_recipe parseTime)) body.

Definition ListAssignedRecipes : Call W (list (option (option RemoteRecipe))) :=
  let? body := recipeGet "/api/recipes/assigned" in
  decode_body "parse assigned recipes" (decode_field_list "assigned" (decode_ptr "recipe" (decode_recipe parseTime))) body.

Definition GetRecipe (slug : string) : Call W (option RemoteRecipe) :=
  missing_404 (recipeGet ("/api/recipes/" +:+ slug)) (λ body,
    let? r := decode_body "parse recipe" (decode_recipe parseTime) body in call_ret (Some r)).

Definition CreateRecipe (r : CreateRecipeRequest) : Call W RemoteRecipe :=
  let? resp := exchange connecting (mkReq "POST" "/api/recipes" ∅ json_header (Marshal (create_recipe_json r)) false) in
  if negb (is_status [200; 201]%Z resp) then refused resp (rsBody resp) ("recipe " +:+ qrSlug r)
  else decode_body "parse create response" (decode_recipe parseTime) (rsBody resp).

Definition AssignRecipe (slug username : string) : Call W unit :=
  let? resp := exchange connecting (mkReq "POST" ("/api/recipes/" +:+ slug +:+ "/assignments") ∅ json_header
                 (Marshal (marshal_map [("username", JStr username)])) false) in
  if negb (is_status [200; 201]%Z resp) then refused resp (rsBody resp) ("recipe " +:+ slug +:+ " assign " +:+ username) else call_ret tt.

Definition UnassignRecipe (slug username : string) : Call W unit :=
  let? resp := exchange connecting (mkReq "DELETE" ("/api/recipes/" +:+ slug +:+ "/assignments/" +:+ username) ∅ ∅ "" false) in
  if negb (is_status [200; 204]%Z resp) then refused resp (rsBody resp) ("recipe " +:+ slug +:+ " unassign " +:+ username) else call_ret tt.

Definition YankRecipe (slug : string) (hard : bool) : Call W unit :=
  let? resp := exchange connecting (mkReq "DELETE" ("/api/recipes/" +:+ slug) (hard_query hard) ∅ "" false) in
  if negb (is_status [200; 204]%Z resp) then refused resp (rsBody resp) ("recipe " +:+ slug) else call_ret tt.
End Client.

(** ** The addresses a sync writes *)

Lemma Index_slash_end a b : Index a "/" = None → Index (a +:+ String "/"%char b) "/" = Some (String.length a).
Proof.
  induction a as [|x a IH]; [intros _; rewrite str_app_nil_l; by destruct b|]. rewrite str_app_cons. cbn [Index].
  cbn [String.prefix]. destruct (ascii_dec "/" x); [by destruct a|]. destruct (Index a "/"); [done|]. intros H. by rewrite IH.
Qed.

(** A server whose name has no slash is found again in the address the sync gives it, and in every
    address below that, whatever slashes the configured relay ends with. *)
Theorem relay_urls_name_servers base key name rest : Index name "/" = None →
  ServerNameFromURL (NewClient base key) (ServerProxyURL base name) = name ∧
  ServerNameFromURL (NewClient base key) (ServerProxyURL base name +:+ String "/"%char rest) = name ∧
  IsRelayURL (NewClient base key) (ServerProxyURL base name) = true.
Proof.
  intros H. unfold ServerNameFromURL, IsRelayURL, ServerProxyURL, ProjectTargets.relayPrefix, HasPrefix, NewClient. cbn [BaseURL].
  set (p := trim_right _ base +:+ "/mcp/"). rewrite !(str_app_assoc p name), !prefix_app, !TrimPrefix_app. cbn [negb].
  by rewrite H, Index_slash_end, take_str_app by done.
Qed.

(** ** Raw members of what was printed *)

Lemma drop_Marshal s rest : take_str (String.length (s +:+ rest) - String.length rest) (s +:+ rest) = s.
Proof. rewrite str_length_app, Nat.add_sub. by apply take_str_app. Qed.

Lemma raw_value_Marshal j rest : Json.wf j = true → stops rest → ToolOptimize.raw_value (Marshal j +:+ rest) = Some (Marshal j, rest).
Proof.
  intros Hw Hs. unfold ToolOptimize.raw_value. rewrite skip_ws_Marshal by done.
  rewrite (Marshal_parses j Hw) by (done || (rewrite str_length_app; lia)). cbn. by rewrite drop_Marshal.
Qed.

Definition member (kv : string * json) : string := let '(k, v) := kv in print_str k +:+ ":" +:+ Marshal v.

Lemma raw_members_Join l rest n :
  forallb (λ '(_, v), Json.wf v) l = true → l ≠ [] → length l ≤ n →
  ToolOptimize.raw_members n (Join (map member l) "," +:+ String "}"%char rest) = Some (map (λ '(k, v), (k, Marshal v)) l, rest).
Proof.
  revert n. induction l as [|[k v] l IH]; intros n Hw Hne Hn; [done|]. destruct n as [|n]; [cbn in Hn; lia|].
  cbn [forallb] in Hw. bool_prop.
  assert (Hk : ∀ X, parse_chars (S (String.length (escape k +:+ String dquote X))) (escape k +:+ String dquote X) = Some (k, X)).
  { intros X. apply parse_escaped. rewrite str_length_app. pose proof (escape_length k). cbn. lia. }
  assert (Hm : ∀ X, member (k, v) +:+ X = String dquote (escape k +:+ String dquote (String ":" (Marshal v +:+ X)))).
  { intros X. unfold member, print_str. by rewrite !str_app_assoc, !str_app_cons, !str_app_nil_l, !str_app_assoc, !str_app_cons, !str_app_nil_l. }
  destruct l as [|kv l].
  - cbn [map Join]. rewrite Hm. cbn [ToolOptimize.raw_members]. rewrite skip_ws_head by done. cbn -[parse_chars ToolOptimize.raw_value skip_ws Marshal].
    rewrite Hk. cbn -[ToolOptimize.raw_value skip_ws Marshal]. rewrite skip_ws_head by done. cbn -[ToolOptimize.raw_value skip_ws Marshal].
    by rewrite raw_value_Marshal.
  - specialize (IH n ltac:(done) ltac:(done) ltac:(cbn in *; lia)). cbn [map] in IH |- *. rewrite Join_cons, !str_app_assoc, Hm.
    rewrite (str_app_cons ","%char ""), str_app_nil_l.
    cbn [ToolOptimize.raw_members]. rewrite skip_ws_head by done. cbn -[parse_chars ToolOptimize.raw_value ToolOptimize.raw_members skip_ws Marshal Join].
    rewrite Hk. cbn -[ToolOptimize.raw_value ToolOptimize.raw_members skip_ws Marshal Join]. rewrite skip_ws_head by done.
    cbn -[ToolOptimize.raw_value ToolOptimize.raw_members skip_ws Marshal Join].
    rewrite raw_value_Marshal by done. cbn -[ToolOptimize.raw_members skip_ws Marshal Join]. rewrite skip_ws_head by done.
    cbn -[ToolOptimize.raw_members Marshal Join]. by rewrite IH.
Qed.

Lemma Join_map_length l : length l ≤ String.length (Join (map member l) ",") + 1.
Proof.
  induction l as [|[k v] [|kv l] IH]; [cbn; lia|cbn; lia|]. cbn [map] in IH |- *. rewrite Join_cons, !str_length_app. cbn [length] in *. cbn [String.length]. lia.
Qed.

Lemma raw_object_Marshal l : forallb (λ '(_, v), Json.wf v) l = true →
  ToolOptimize.raw_object (Marshal (JObj l)) = Some (map (λ '(k, v), (k, Marshal v)) l).
Proof.
  intros Hw. unfold ToolOptimize.raw_object. change (Marshal (JObj l)) with ("{" +:+ Join (map member l) "," +:+ "}").
  rewrite str_app_cons, str_app_nil_l, skip_ws_head by done. cbn -[ToolOptimize.raw_members skip_ws Join].
  destruct l as [|[k v] l]; [done|].
  assert (Hd : ∃ X, Join (map member ((k, v) :: l)) "," +:+ "}" = String dquote X).
  { destruct l as [|kv l]; cbn [map Join]; unfold member, print_str; rewrite ?str_app_assoc, !str_app_cons; eauto. }
  destruct Hd as [X HX]. rewrite HX, skip_ws_head by done. cbn -[ToolOptimize.raw_members]. rewrite <- HX.
  rewrite (raw_members_Join ((k, v) :: l) "" _ Hw); [done|done|].
  pose proof (Join_map_length ((k, v) :: l)) as Hl. apply (f_equal String.length) in HX. rewrite str_length_app in HX. cbn [String.length] in HX. lia.
Qed.

(** ** What is sent arrives *)

Lemma struct_fields_Marshal l : Json.wf (JObj l) = true → struct_fields (Marshal (JObj l)) = Some l.
Proof. intros Hw. unfold struct_fields. by rewrite Unmarshal_Marshal. Qed.

Lemma body_fields_Marshal l : Json.wf (JObj l) = true → body_fields (Marshal (JObj l)) = Some l.
Proof.
  intros Hw. unfold body_fields. pose proof (Marshal_parses (JObj l) Hw (S (String.length (Marshal (JObj l)))) "") as H.
  rewrite str_app_nil_r in H. by rewrite H by (done || lia).
Qed.

Lemma dptr_app name l1 l2 cur : decode_string_ptr name (l1 ++ l2) cur = (x ← decode_string_ptr name l1 cur; decode_string_ptr name l2 x).
Proof.
  revert cur. induction l1 as [|[k v] l1 IH]; intros cur; [done|]. cbn [app decode_string_ptr]. case_if; [|apply IH]. destruct v; try done; apply IH.
Qed.

Lemma dptr_nil name k v cur : decode_string_ptr name (omit_nil k v) cur = Some (if EqualFold k name then match v with Some s => Some s | None => cur end else cur).
Proof. destruct v as [s|]; cbn; [by destruct (EqualFold k name)|by destruct (EqualFold k name)]. Qed.

Lemma omit_nil_wf k v : forallb (λ '(_, j), Json.wf j) (omit_nil k v) = true.
Proof. by destruct v. Qed.

(** *** The requests of a call *)

(** A transport that records what it is given, whatever it answers. *)
Definition recording (answer : Req → result Resp) : Req → DBM (list Req) Resp := λ r d, (answer r, mkDb (tables d ++ [r]) (faults d)).

Definition sent {A} (call : Call (list Req) A) : list Req := tables (call (healthy [])).2.

(** One segment of a path, which no router cleans away. *)
Definition segment (s : string) : Prop := Index s "/" = None ∧ s ∉ [""; "."; ".."].

(** Valid UTF-8: [json.Marshal] writes it as it is. *)
Fixpoint utf8_from (fuel : nat) (s : string) : bool :=
  match s, fuel with
  | EmptyString, _ => true
  | String c r, S n => let '(x, w) := decode_rune c r in negb ((x =? 65533)%N && (w =? 1)) && utf8_from n (drop_str (w - 1) r)
  | _, 0 => false
  end.

Definition utf8_text (s : string) : Prop := utf8_from (String.length s) s = true.

(** What [net/http] takes as a header: no DEL; other control characters are escaped in JSON. *)
Definition header_text (s : string) : Prop := utf8_text s ∧ all_chars (λ c, negb (Ascii.eqb c "127"%char)) s = true.

Definition skill_parts (r : Req) : list string := Split (TrimPrefix (rPath r) "/api/skills/") "/"%char.

Lemma Split_slash a rest : Index a "/" = None → Split (a +:+ String "/"%char rest) "/"%char = a :: Split rest "/"%char.
Proof.
  induction a as [|c a IH]; intros H; [done|]. rewrite str_app_cons. cbn [Split]. cbn [Index String.prefix] in H.
  destruct (ascii_dec "/" c) as [<-|Hc]; [by destruct a|]. destruct (Index a "/") eqn:E; [done|].
  destruct (Ascii.eqb_spec c "/"%char) as [->|_]; [done|]. by rewrite IH.
Qed.

Lemma Split_whole a : Index a "/" = None → Split a "/"%char = [a].
Proof.
  induction a as [|c a IH]; intros H; [done|]. cbn [Split]. cbn [Index String.prefix] in H.
  destruct (ascii_dec "/" c) as [<-|Hc]; [by destruct a|]. destruct (Index a "/") eqn:E; [done|].
  destruct (Ascii.eqb_spec c "/"%char) as [->|_]; [done|]. by rewrite IH.
Qed.

(** What a call does with the answer sends nothing more. *)
Definition quiet {A} (call : Call (list Req) A) : Prop := ∀ d, tables (call d).2 = tables d.

Lemma sent_exchange {A} answer what r (k : Resp → Call (list Req) A) :
  (∀ resp, quiet (k resp)) → sent (let? resp := exchange (recording answer) what r in k resp) = [r].
Proof.
  intros Hk. unfold sent, call_bind, exchange, db_bind, attempt, recording. cbn.
  destruct (answer r) as [resp|e]; cbn; [by rewrite Hk|done].
Qed.

Lemma quiet_ret {A} (a : A) : quiet (call_ret a).
Proof. by intros d. Qed.

Lemma quiet_err {A} e : quiet (call_err (W:=list Req) (A:=A) e).
Proof. by intros d. Qed.

Lemma quiet_decode {A} what (f : list (string * json) → option A) body : quiet (decode_body (W:=list Req) what f body).
Proof. unfold decode_body. destruct (struct_fields body ≫= f); [apply quiet_ret|apply quiet_err]. Qed.

Lemma quiet_read {A} what resp (k : string → Call (list Req) A) : (∀ b, quiet (k b)) → quiet (let? b := read_all what resp in k b).
Proof. intros Hk d. unfold read_all, call_bind, db_bind. destruct (rsBroken resp); cbn; [done|apply Hk]. Qed.

Lemma header_upstream_meta id u :
  header_upstream id (Marshal (meta_json u)) =
  if (umURL u !=? "") && ((umType u =?s "") || (umType u =?s "git"))
  then Some (mkUpstream id (umType u) (umURL u) (umSubpath u) (umRef u) None None None None 0 0) else None.
Proof. unfold header_upstream, meta_json. by rewrite struct_fields_Marshal. Qed.

(** What an upload asks for as upstream. *)
Definition wanted_upstream `{Formats} (now : Z) (u : option UpstreamMetadata) (id : string) (next : bool → Handler) : Handler :=
  match u with
  | None => next false
  | Some u =>
      if (umType u =?s "") && (umURL u =?s "") then logged (Skills.ClearUpstream id) (λ _, next false)
      else if (umURL u !=? "") && ((umType u =?s "") || (umType u =?s "git"))
      then logged (UpsertUpstream now (mkUpstream id (umType u) (umURL u) (umSubpath u) (umRef u) None None None None 0 0)) (λ res, next (is_ok res))
      else next false
  end.

Lemma upload_upstream_wanted `{Formats} now u m p q b br id next :
  upload_upstream now (mkReq m p q (<["Content-Type" := "application/gzip"]> (upstream_headers u)) b br) id next = wanted_upstream now u id next.
Proof.
  unfold upload_upstream, HeaderGet. cbn [rHeader]. rewrite !lookup_insert_ne by done. destruct u as [u|]; [|done]. cbn [wanted_upstream upstream_headers].
  destruct ((umType u =?s "") && (umURL u =?s "")) eqn:E; [done|]. rewrite lookup_singleton_ne, lookup_singleton_eq by done. cbn [from_option].
  change (EqualFold "" "true") with false. cbv iota. change (Datatypes.id (Marshal (meta_json u))) with (Marshal (meta_json u)).
  change (Marshal (meta_json u) !=? "") with true. cbv iota. rewrite header_upstream_meta.
  by destruct ((umURL u !=? "") && ((umType u =?s "") || (umType u =?s "git"))).
Qed.

(** C34: whatever the relay answers, a call of the client sends one request, and the relay reads in it what the client meant: the method and the
    parts of the path its router splits off, and the upstream of a skill, the archive, the visibility and the
    upstream of an upload, the fields of a patch that are present, an assignment with its pinned version, and a new server with its
    configuration.  Names are single segments of a path, texts are valid UTF-8, which [json.Marshal] keeps, and those that travel in a
    header have no DEL; a configuration is the value it encodes. *)
Theorem requests_arrive `{Formats} answer parseTime slug version visibility archive i u p username pin r :
  segment slug → segment version →
  Forall utf8_text ([inType i; inGitURL i; inSubpath i; inRef i; visibility; username; pin; crName r; crDisplayName r; crServerType r]
    ++ option_list (paVisibility p) ++ option_list (paDisplayName p) ++ option_list (paDescription p)) →
  (∀ m, u = Some m → Forall header_text [umType m; umURL m; umSubpath m; umRef m]) → Json.wf (crConfig r) = true →
  (∃ q, sent (SetUpstream (recording answer) slug i) = [q] ∧ rMethod q = "PUT" ∧ skill_parts q = [slug; "upstream"] ∧ json_content q = true ∧
     ∀ id, decode_upstream id (rBody q) = Some (mkUpstream id (inType i) (inGitURL i) (inSubpath i) (inRef i) None None None None 0 0)) ∧
  (∃ q, sent (UploadSkill (recording answer) parseTime slug version visibility archive u) = [q] ∧ rMethod q = "POST" ∧
     skill_parts q = [slug; "versions"; version] ∧ QueryGet q "visibility" = visibility ∧ rBody q = archive ∧
     ∀ now id next, upload_upstream now q id next = wanted_upstream now u id next) ∧
  (∃ q, sent (PatchSkill (recording answer) parseTime slug p) = [q] ∧ rMethod q = "PATCH" ∧ skill_parts q = [slug] ∧ json_content q = true ∧
     decode_patch (rBody q) = Some (paVisibility p, paDisplayName p, paDescription p)) ∧
  (∃ q, sent (AssignSkill (recording answer) slug username pin) = [q] ∧ rMethod q = "POST" ∧ skill_parts q = [slug; "assignments"] ∧
     decode_assign (rBody q) = Some (username, pin)) ∧
  (∃ q, sent (CreateServer (recording answer) r) = [q] ∧ rMethod q = "POST" ∧ rPath q = "/api/servers" ∧
     decode_server parseTime (rBody q) =
       Some (Servers.mkServer "" (crName r) (crDisplayName r) (crServerType r) (Marshal (crConfig r)) "" "" "" None "" false 0 0)).
Proof.
  intros [Hslug _] [Hversion _] _ _ Hw.
  assert (Hparts : ∀ x m q h b br, skill_parts (mkReq m ("/api/skills/" +:+ slug +:+ String "/"%char x) q h b br) = slug :: Split x "/"%char).
  { intros. unfold skill_parts. cbn [rPath]. by rewrite TrimPrefix_app, Split_slash. }
  split_and!; (eexists; split; [apply sent_exchange; intros resp; repeat first [apply quiet_read; intros ? | case_if; [apply quiet_err|] | apply quiet_decode | apply quiet_ret | apply quiet_err]|]);
    (split; [reflexivity|]).
  - split; [exact (Hparts "upstream" _ _ _ _ _)|]. split; [reflexivity|]. intros id. cbn [rBody]. unfold decode_upstream, set_upstream_json.
    rewrite struct_fields_Marshal; [cbn [mbind option_bind]; by decode_strings|]. cbn [Json.wf]. by rewrite !forallb_app, !omit_wf.
  - split; [rewrite (Hparts ("versions/" +:+ version)); f_equal; change ("versions/" +:+ version) with ("versions" +:+ String "/"%char version); by rewrite Split_slash, Split_whole|].
    split; [unfold QueryGet; cbn [rQuery]; destruct (visibility =?s "") eqn:E; cbn [negb]; [bool_prop; by subst|by rewrite lookup_singleton_eq]|].
    split; [reflexivity|]. intros. apply upload_upstream_wanted.
  - split; [unfold skill_parts; cbn [rPath]; by rewrite TrimPrefix_app, Split_whole|]. split; [reflexivity|]. cbn [rBody]. unfold decode_patch, patch_json.
    rewrite struct_fields_Marshal; [cbn [mbind option_bind]; rewrite !dptr_app, !dptr_nil; cbn; destruct p as [[] [] []]; reflexivity|].
    cbn [Json.wf]. by rewrite !forallb_app, !omit_nil_wf.
  - split; [exact (Hparts "assignments" _ _ _ _ _)|]. cbn [rBody]. unfold decode_assign. change (marshal_map [("username", JStr username); ("version", JStr pin)])
      with (JObj [("username", JStr username); ("version", JStr pin)]). by rewrite struct_fields_Marshal.
  - split; [reflexivity|]. cbn [rBody]. unfold decode_server, create_json. rewrite body_fields_Marshal by (cbn; by rewrite Hw).
    rewrite raw_object_Marshal by (cbn; by rewrite Hw). reflexivity.
Qed.

(** A skill counts as missing exactly when the relay answered 404: no failure of the network, no refusal for another reason and no
    answer that cannot be read is taken for that. *)
Theorem missing_means_404 {W} (transport : Req → DBM W Resp) parseTime slug d :
  (GetSkill transport parseTime slug d).1 = Ok (inl None) ↔
  ∃ resp d', transport (mkReq "GET" ("/api/skills/" +:+ slug) ∅ ∅ "" false) d = (Ok resp, d') ∧ rsStatus resp = 404%Z ∧ rsBroken resp = false.
Proof.
  unfold GetSkill, missing_404, skillGet, exchange, attempt, call_bind, db_bind, db_ret, read_all, call_err, call_ret, refused_http, decode_body, is_status.
  destruct (transport _ d) as [[resp|e] d']; cbn; [|naive_solver].
  destruct (rsBroken resp) eqn:Eb; cbn; [naive_solver congruence|].
  case_bool_decide as Hs; cbn.
  - apply list_elem_of_singleton in Hs. destruct (struct_fields _ ≫= _); cbn; (split; [done|]); intros (r & d1 & [= <- <-] & ? & _); congruence.
  - destruct (rsStatus resp =? 404)%Z eqn:E4; cbn; [|naive_solver lia]. split; [|done]. intros _. exists resp, d'. split_and!; [done|lia|done].
Qed.

(** ** Witnesses *)

Lemma requests_arrive_witness :
  ∃ q, sent (CreateServer (recording (λ _, Err "offline")) (mkCreate "files" "Files" "http" (JObj [("port", JNum "8080")]))) = [q] ∧
    rMethod q = "POST" ∧ rPath q = "/api/servers" ∧
    decode_server (λ _, None) (rBody q) =
    Some (Servers.mkServer "" "files" "Files" "http" (Marshal (JObj [("port", JNum "8080")])) "" "" "" None "" false 0 0).
Proof.
  refine (proj2 (proj2 (proj2 (proj2 (requests_arrive (H:=toy_formats) (λ _, Err "offline") (λ _, None) "pdf" "1.0.0" "public" "gz"
    (mkSetUpstream "git" "https://h/r.git" "" "") (Some (mkMeta "git" "https://h/r.git" "" "")) (mkPatch (Some "public") None None) "eve" "1.0.0"
    (mkCreate "files" "Files" "http" (JObj [("port", JNum "8080")])) _ _ _ _ _))))).
  - split; [vm_compute; reflexivity|]. set_solver.
  - split; [vm_compute; reflexivity|]. set_solver.
  - repeat constructor.
  - intros m [= <-]. repeat constructor.
  - vm_compute. reflexivity.
Defined.
