(* ===== verification/SkillPublish.v ===== *)
(** * Publishing a skill

    [PackageSkill] of [src/internal/cli/sync/skills.go], the upstream sidecar of
    [cli/sync/upstream.go] and [arc-sync skill push] of [src/cmd/arc-sync/skill.go]: a
    directory becomes an archive, and what the command line and the sidecar say about its
    origin becomes headers.  The main theorem closes the circle: an archive that is pushed
    and then installed is the directory it was made from, without its hidden entries and with
    files cut off at 5 MiB.  The disk is the [Tree] of [FileTree], so there are no symbolic links and a file does not
    change while it is read; permissions are a parameter. *)
From stdpp Require Import countable.
From S2P Require Import Prelude GoStrings GoPath Json JsonDecode AccessTiers Profiles Users Servers Skills Subhash SkillService SkillChecker SkillsApi FileTree Hoare SkillSync.
From S2P Require Import RelayClient.

(** ** The front matter *)

Definition is_quote (c : ascii) : bool := Ascii.eqb c dquote || Ascii.eqb c "'"%char.

(** The first line that starts with the key, however it is indented. *)
Fixpoint name_line (lines : list string) : string :=
  match lines with
  | [] => ""
  | line :: r =>
      let trim := TrimSpace line in
      if negb (HasPrefix trim "name:") then name_line r
      else trim_func is_quote (TrimSpace (TrimPrefix trim "name:"))
  end.

Definition parseFrontmatterName (s : string) : string :=
  match Index s (nl +:+ "---") with
  | Some e => if HasPrefix s "---" then name_line (Split (drop_str 3 (take_str (e + 1) s)) "010"%char) else ""
  | None => ""
  end.

(** ** Packaging *)

(** How deep a walk has to go. *)
Fixpoint depth (t : Tree) : nat :=
  match t with
  | File _ => 0
  | Dir m => S (map_fold (λ _ c n, depth c `max` n) 0 m)
  end.

Definition hidden_name (name : string) : bool := HasPrefix name ".".

Definition hidden (rel : list string) : bool :=
  match last rel with Some base => hidden_name base | None => false end.

Section Package.
Context (perm : list string → Z).

(** [filepath.ToSlash(rel)] with the mode of the file; the walk function has set the name,
    so that the name of a directory has no slash at its end. *)
Definition dir_entry (rel : list string) : TarEntry := mkEntry (Join rel "/") TypeDir (perm rel) "" false.
Definition file_entry (rel : list string) (content : string) : TarEntry := mkEntry (Join rel "/") TypeReg (perm rel) content false.

(** The names of a directory: [Lstat], then the visit. *)
Fixpoint walk_names (stat : string → FSM bool) (visit : string → bool → FSM (list TarEntry)) (l : list (string * bool)) : FSM (list TarEntry) :=
  match l with
  | [] => db_ret []
  | e :: r =>
      let! isDir := stat e.1 in
      let! es := visit e.1 isDir in
      let! rest := walk_names stat visit r in
      db_ret (es ++ rest)
  end.

Definition header_of_dir (rel : list string) : list TarEntry := if bool_decide (rel = []) then [] else [dir_entry rel].

(** [filepath.Walk] with the function of [PackageSkill] below [dir]: the names of a directory
    are read before the function is called on it, so even a hidden one has to be readable. *)
Fixpoint walk (fuel : nat) (dir rel : list string) (isDir : bool) : FSM (list TarEntry) :=
  match fuel with
  | 0 => db_fail "out of fuel"
  | S n =>
      if isDir then
        let! names := ReadDir (dir ++ rel) in
        if hidden rel then db_ret []
        else
          let! below := walk_names (λ k, Stat (dir ++ rel ++ [k])) (λ k d, walk n dir (rel ++ [k]) d) names in
          db_ret (header_of_dir rel ++ below)
      else if hidden rel || bool_decide (rel = []) then db_ret []
      else let! c := ReadFile (dir ++ rel) in db_ret [file_entry rel c]
  end.

(** The tar and gzip writers. *)
Context (write_tar : list TarEntry → string).

Definition walk_fuel (dir : list string) (d : Db Tree) : nat := S (depth (default (Dir ∅) (get dir (tables d)))).

(** The archive and the slug. *)
Definition PackageSkill (dir : list string) : FSM (string * string) :=
  let! isDir := Stat dir in
  if negb isDir then db_fail "not a directory"
  else
    let! skillMD := ReadFile (dir ++ ["SKILL.md"]) in
    let slug := parseFrontmatterName skillMD in
    if slug =?s "" then db_fail "SKILL.md frontmatter missing required name field"
    else
      let! root := Stat dir in
      let! entries := λ d, walk (walk_fuel dir d) dir [] root d in
      db_ret (write_tar entries, slug).

(** ** The upstream of a skill *)

Record Upstream := mkUp { upType : string; upURL : string; upSubpath : string; upRef : string }.

(** The [upstream] table of a TOML text. *)
Context (toml_upstream : string → option Upstream).

Definition LoadUpstream (skillDir : list string) : FSM (option Upstream) :=
  let! r := attempt (ReadFile (skillDir ++ [".arc-sync"; "upstream.toml"])) in
  match r with
  | Err e => if IsNotExist e then db_ret None else db_fail ("reading upstream.toml: " +:+ e)
  | Ok b =>
      match toml_upstream b with
      | None => db_fail "parsing upstream.toml"
      | Some u =>
          if upURL u =?s "" then db_fail "[upstream].url is required"
          else db_ret (Some (mkUp (if upType u =?s "" then "git" else upType u) (upURL u) (upSubpath u) (upRef u)))
      end
  end.

Definition override (old new : string) : string := if new !=? "" then new else old.

Definition WithOverrides (u : Upstream) (url subpath ref : string) (clearAll : bool) : Upstream :=
  if clearAll then mkUp "" "" "" ""
  else mkUp (upType u) (override (upURL u) url) (override (upSubpath u) subpath) (override (upRef u) ref).

Definition ToWire (u : option Upstream) : option UpstreamMetadata :=
  (λ u, mkMeta (upType u) (upURL u) (upSubpath u) (upRef u)) <$> u.

Definition LoadAndMerge (skillDir : list string) (urlFlag subpathFlag refFlag : string) (noUpstream : bool) : FSM (option Upstream) :=
  if noUpstream then db_ret (Some (WithOverrides (mkUp "" "" "" "") "" "" "" true))
  else
    let! side := LoadUpstream skillDir in
    if bool_decide (side = None) && (urlFlag =?s "") && (subpathFlag =?s "") && (refFlag =?s "") then db_ret None
    else db_ret (Some (WithOverrides (default (mkUp "git" "" "" "") side) urlFlag subpathFlag refFlag false)).

(** ** The command *)

Fixpoint getFlagValue (args : list string) (flag : string) : string :=
  match args with
  | a :: ((v :: _) as r) => if a =?s flag then v else getFlagValue r flag
  | _ => ""
  end.

Definition hasFlagInArgs (args : list string) (flag : string) : bool := existsb (String.eqb flag) args.

(** How the command ends: what it says it published, an error, or the dereference of a part
    the relay left out of its answer. *)
Inductive PushEnd := Published (slug version : string) (size : Z) (sha : string) | PushFailed (msg : string) | PushPanics.

(** Everything before the upload: the slug, the archive and what is sent as upstream. *)
Definition prepare_push (dir : list string) (rest : list string) : FSM (string * string * option UpstreamMetadata) :=
  let! upstream := LoadAndMerge dir (getFlagValue rest "--upstream-git") (getFlagValue rest "--upstream-path")
                     (getFlagValue rest "--upstream-ref") (hasFlagInArgs rest "--no-upstream") in
  let! p := PackageSkill dir in
  db_ret (p.2, p.1, ToWire upstream).

Context {W : Type} (transport : Req → DBM W Resp) (parseTime : string → option Z).

Definition runSkillPush (dir rest : list string) (d : Db Tree) (w : Db W) : PushEnd * Db Tree * Db W :=
  let version := getFlagValue rest "--version" in
  if version =?s "" then (PushFailed "--version is required", d, w)
  else match prepare_push dir rest d with
       | (Err e, d) => (PushFailed e, d, w)
       | (Ok (slug, archive, upstream), d) =>
           match UploadSkill transport parseTime slug version (getFlagValue rest "--visibility") archive upstream w with
           | (Ok (inl (Some k, Some v)), w) => (Published (rkSlug k) (rvVersion v) (rvArchiveSize v) (rvSHA256 v), d, w)
           | (Ok (inl _), w) => (PushPanics, d, w)
           | (Ok (inr e), w) => (PushFailed (error_text e), d, w)
           | (Err e, w) => (PushFailed e, d, w)
           end
       end.
End Package.

(** ** What is published of a directory *)

Fixpoint visible (t : Tree) : Tree :=
  match t with
  | File c => File c
  | Dir m => Dir (filter (λ kv, hidden_name kv.1 = false) (visible <$> m))
  end.

(** The content of a file as an install reads it from an archive: the first 5 MiB. *)
Definition first_5MiB (c : string) : string := if (str_len c <? MaxArchiveSize)%Z then c else take_str (Z.to_nat MaxArchiveSize) c.

(** What an install makes of a packaged directory: the visible part, its files cut off. *)
Fixpoint received (t : Tree) : Tree :=
  match t with
  | File c => File (first_5MiB c)
  | Dir m => Dir (filter (λ kv, hidden_name kv.1 = false) (received <$> m))
  end.

Section Entries.
Context (perm : list string → Z).

(** The entries of a walk over a disk that stays as it is. *)
Fixpoint tree_entries (fuel : nat) (rel : list string) (t : Tree) : option (list TarEntry) :=
  match fuel with
  | 0 => None
  | S n =>
      match t with
      | File c => Some (if hidden rel || bool_decide (rel = []) then [] else [file_entry perm rel c])
      | Dir m =>
          if hidden rel then Some []
          else below ← mapM (λ e, c ← m !! e.1; tree_entries n (rel ++ [e.1]) c) (entries_of m);
               Some (header_of_dir perm rel ++ concat below)
      end
  end.

Lemma ReadDir_spec p s m : get p s = Some (Dir m) → spec (λ t, t = s) (ReadDir p) (λ l t, l = entries_of m ∧ t = s) (λ _, True).
Proof. intros Hg. apply spec_exec; [done|]. intros t l t' ->. rewrite (get_Some_got _ _ _ Hg). by intros [= <- <-]. Qed.

Lemma ReadFile_spec p s c : get p s = Some (File c) → spec (λ t, t = s) (ReadFile p) (λ b t, b = c ∧ t = s) (λ _, True).
Proof. intros Hg. apply spec_exec; [done|]. intros t l t' ->. rewrite (get_Some_got _ _ _ Hg). by intros [= <- <-]. Qed.

Lemma Stat_spec p s x : get p s = Some x → spec (λ t, t = s) (Stat p) (λ b t, b = is_dir x ∧ t = s) (λ _, True).
Proof. intros Hg. apply spec_exec; [done|]. intros t l t' ->. rewrite (get_Some_got _ _ _ Hg). by destruct x; intros [= <- <-]. Qed.

(** A fact that does not speak of the tree. *)
Lemma spec_fact {T A} (X : Prop) (P : T → Prop) (m : DBM T A) Q R : (X → spec P m Q R) → spec (λ t, X ∧ P t) m Q R.
Proof. intros H d [HX HP]. exact (H HX d HP). Qed.

Lemma elem_of_entries m e : e ∈ entries_of m ↔ ∃ c, m !! e.1 = Some c ∧ e.2 = is_dir c.
Proof.
  unfold entries_of. rewrite elem_of_stable_sort, list_elem_of_fmap. split.
  - intros ([k c] & -> & Hin). apply elem_of_map_to_list in Hin. by exists c.
  - intros (c & Hc & He). exists (e.1, c). split; [destruct e; by cbn in *; subst|by apply elem_of_map_to_list].
Qed.

Lemma walk_entries n : ∀ dir rel s x, get (dir ++ rel) s = Some x →
  spec (λ t, t = s) (walk perm n dir rel (is_dir x)) (λ l t, tree_entries n rel x = Some l ∧ t = s) (λ _, True).
Proof.
  induction n as [|n IH]; intros dir rel s x Hg; [by apply spec_fail|]. cbn [walk tree_entries]. destruct x as [c|m]; cbn [is_dir].
  { destruct (_ || _); [by apply spec_ret|]. eapply spec_bind; [by apply ReadFile_spec|]. intros b. apply spec_fact. intros ->. by apply spec_ret. }
  eapply spec_bind; [by apply ReadDir_spec|]. intros names. apply spec_fact. intros ->. destruct (hidden rel); [by apply spec_ret|].
  eapply (spec_bind _ _ _ (λ l t, (∃ ll, mapM (λ e, c ← m !! e.1; tree_entries n (rel ++ [e.1]) c) (entries_of m) = Some ll ∧ l = concat ll) ∧ t = s));
    [|intros l; apply spec_fact; intros (ll & -> & ->); by apply spec_ret].
  assert (Hin : Forall (λ e, is_Some (m !! e.1)) (entries_of m)) by (apply Forall_forall; intros e (c & Hc & _)%elem_of_entries; eauto).
  induction Hin as [|e es [c Hc] Hin IHl]; cbn [walk_names mapM]; [apply spec_ret; eauto|].
  assert (Hge : get (dir ++ rel ++ [e.1]) s = Some c) by (rewrite app_assoc, get_app, Hg; cbn; by rewrite Hc).
  eapply spec_bind; [by apply Stat_spec|]. intros b. apply spec_fact. intros ->.
  eapply spec_bind; [apply IH, Hge|]. intros l1. apply spec_fact. intros Hl1.
  eapply spec_bind; [exact IHl|]. intros l2. apply spec_fact. intros (ll & Hll & ->). apply spec_ret. intros t ->.
  split; [|done]. exists (l1 :: ll). by rewrite Hc, Hll; cbn; rewrite Hl1.
Qed.

Lemma depth_child m k c : m !! k = Some c → depth c < depth (Dir m).
Proof.
  intros Hk. cbn [depth]. rewrite map_fold_foldr. apply elem_of_map_to_list in Hk.
  induction (map_to_list m) as [|[k' c'] l IH]; [by apply elem_of_nil in Hk|]. cbn [foldr uncurry].
  apply elem_of_cons in Hk as [[= <- <-]|Hk]; [lia|]. specialize (IH Hk). lia.
Qed.

(** The fuel of a walk is enough. *)
Lemma tree_entries_total n : ∀ rel x, depth x < n → ∃ l, tree_entries n rel x = Some l.
Proof.
  induction n as [|n IH]; intros rel x Hn; [lia|]. cbn [tree_entries]. destruct x as [c|m]; [eauto|]. destruct (hidden rel); [eauto|].
  enough (∃ ll, mapM (λ e, c ← m !! e.1; tree_entries n (rel ++ [e.1]) c) (entries_of m) = Some ll) as [ll ->] by eauto.
  apply mapM_is_Some, Forall_forall. intros e (c & Hc & _)%elem_of_entries. unfold compose. rewrite Hc. cbn [mbind option_bind].
  apply IH. pose proof (depth_child _ _ _ Hc). lia.
Qed.

Lemma walk_healthy n : ∀ dir rel s x l, get (dir ++ rel) s = Some x → tree_entries n rel x = Some l →
  walk perm n dir rel (is_dir x) (healthy s) = (Ok l, healthy s).
Proof.
  induction n as [|n IH]; intros dir rel s x l Hg; [done|]. cbn [walk tree_entries]. pose proof (get_Some_got _ _ _ Hg) as Hgot. destruct x as [c|m]; cbn [is_dir].
  { destruct (_ || _); [by intros [= <-]|]. intros [= <-]. unfold db_bind, ReadFile. by rewrite exec_healthy, Hgot. }
  unfold ReadDir. unfold db_bind at 1. rewrite exec_healthy, Hgot. destruct (hidden rel); [by intros [= <-]|].
  destruct (mapM _ _) as [ll|] eqn:Ell; cbn [mbind option_bind]; [|done]. intros [= <-].
  enough (walk_names (λ k, Stat (dir ++ rel ++ [k])) (λ k d, walk perm n dir (rel ++ [k]) d) (entries_of m) (healthy s) = (Ok (concat ll), healthy s)) as E
    by (unfold db_bind; by rewrite E).
  revert ll Ell. induction (entries_of m) as [|e es IHl]; intros ll; cbn [mapM]; [by intros [= <-]|].
  destruct (m !! e.1) as [c|] eqn:Hc; cbn [mbind option_bind]; [|done]. destruct (tree_entries n (rel ++ [e.1]) c) as [l1|] eqn:E1; [|done]. cbn [mbind option_bind].
  destruct (mapM _ es) as [ll'|]; [|done]. intros [= <-].
  assert (Hge : get (dir ++ rel ++ [e.1]) s = Some c) by (rewrite app_assoc, get_app, Hg; cbn; by rewrite Hc).
  cbn [walk_names]. unfold Stat. unfold db_bind at 1. rewrite exec_healthy, (get_Some_got _ _ _ Hge).
  assert ((match match c with File c0 => GFile c0 | Dir m0 => GDir m0 end with
           | GFile _ => Ok (false, s) | GDir _ => Ok (true, s) | GNoEnt => Err ENOENT | GNotDir => Err ENOTDIR end) = Ok (is_dir c, s)) as -> by (by destruct c).
  unfold db_bind. rewrite (IH _ _ _ _ _ Hge E1). specialize (IHl ll' eq_refl). unfold Stat in IHl. by rewrite IHl.
Qed.
End Entries.

(** ** Changes to a tree *)

Lemma put_same p t x : get p t = Some x → put p (Some x) t = t.
Proof.
  revert t. induction p as [|y p IH]; intros t; [by intros [= ->]|]. destruct t as [c|m]; [done|]. cbn [get].
  destruct (m !! y) as [t'|] eqn:Ey; [|done]. cbn. intros Hg. destruct p as [|z p].
  - cbn in Hg. simplify_eq. f_equal. apply map_eq. intros k. destruct (decide (k = y)) as [->|]; [by rewrite lookup_partial_alter_eq|by rewrite lookup_partial_alter_ne].
  - f_equal. apply map_eq. intros k. destruct (decide (k = y)) as [->|]; [rewrite lookup_alter_eq, Ey|by rewrite lookup_alter_ne]. cbn [fmap option_fmap option_map]. by rewrite (IH t' Hg).
Qed.

Lemma put_put p a x t : put p (Some x) (put p (Some a) t) = put p (Some x) t.
Proof.
  revert t. induction p as [|y p IH]; intros t; [done|]. destruct t as [c|m]; [by destruct p|]. destruct p as [|z p].
  - cbn. f_equal. apply map_eq. intros k. destruct (decide (k = y)) as [->|]; [by rewrite !lookup_partial_alter_eq|by rewrite !lookup_partial_alter_ne].
  - rewrite !put_cons. f_equal. apply map_eq. intros k. destruct (decide (k = y)) as [->|]; [|by rewrite !lookup_alter_ne].
    rewrite !lookup_alter_eq. destruct (m !! y) as [t'|]; [|done]. cbn [fmap option_fmap option_map]. by rewrite IH.
Qed.

Lemma get_put_eq p t x y : get p t = Some y → get p (put p (Some x) t) = Some x.
Proof.
  revert t. induction p as [|z p IH]; intros t; [done|]. destruct t as [c|m]; [done|]. cbn [get]. destruct (m !! z) as [t'|] eqn:Ez; [|done]. cbn. intros Hg.
  destruct p as [|z' p].
  - cbn. by rewrite lookup_partial_alter_eq.
  - cbn [get]. rewrite lookup_alter_eq, Ez. cbn [fmap option_fmap option_map mbind option_bind]. by apply IH.
Qed.

(** An entry of a directory is changed by changing the directory. *)
Lemma put_snoc p k o t m : get p t = Some (Dir m) → put (p ++ [k]) o t = put p (Some (Dir (partial_alter (λ _, o) k m))) t.
Proof.
  revert t. induction p as [|y p IH]; intros t; [by intros [= ->]|]. destruct t as [c|n]; [done|]. cbn [get app].
  destruct (n !! y) as [t'|] eqn:Ey; [|done]. cbn [mbind option_bind]. intros Hg.
  assert (put (y :: p ++ [k]) o (Dir n) = Dir (alter (put (p ++ [k]) o) y n)) as -> by (by destruct p).
  destruct p as [|z p].
  - cbn in Hg. simplify_eq. cbn. f_equal. apply map_eq. intros j. destruct (decide (j = y)) as [->|].
    + by rewrite lookup_alter_eq, lookup_partial_alter_eq, Ey.
    + by rewrite lookup_alter_ne, lookup_partial_alter_ne.
  - rewrite put_cons. f_equal. apply map_eq. intros j. destruct (decide (j = y)) as [->|]; [|by rewrite !lookup_alter_ne].
    rewrite !lookup_alter_eq, Ey. cbn [fmap option_fmap option_map]. by rewrite IH.
Qed.

Lemma put_insert p k x t m : get p t = Some (Dir m) → put (p ++ [k]) (Some x) t = put p (Some (Dir (<[k := x]> m))) t.
Proof. apply put_snoc. Qed.

Lemma put_delete p k t m : get p t = Some (Dir m) → put (p ++ [k]) None t = put p (Some (Dir (delete k m))) t.
Proof. apply put_snoc. Qed.

Lemma got_absent p k q t m : get p t = Some (Dir m) → m !! k = None → got (p ++ k :: q) t = GNoEnt.
Proof.
  revert t. induction p as [|y p IH]; intros t; cbn; [intros [= ->] Hk; by rewrite Hk|]. destruct t as [|n]; [done|]. destruct (n !! y); [|done]. cbn. apply IH.
Qed.

Lemma mkdir_all_same p t m : get p t = Some (Dir m) → mkdir_all p t = Ok t.
Proof.
  revert t. induction p as [|y p IH]; intros t; [by intros [= ->]|]. destruct t as [c|n]; [done|]. cbn [get mkdir_all].
  destruct (n !! y) as [t'|] eqn:Ey; [|done]. cbn [mbind option_bind from_option id]. intros Hg. rewrite (IH _ Hg). cbn. by rewrite insert_id.
Qed.

Lemma mkdir_all_new p k t m : get p t = Some (Dir m) → m !! k = None → mkdir_all (p ++ [k]) t = Ok (put p (Some (Dir (<[k := Dir ∅]> m))) t).
Proof.
  revert t. induction p as [|y p IH]; intros t; [intros [= ->] Hk; cbn; by rewrite Hk|]. destruct t as [c|n]; [done|]. cbn [get app mkdir_all].
  destruct (n !! y) as [t'|] eqn:Ey; [|done]. cbn [mbind option_bind from_option id]. intros Hg Hk. rewrite (IH _ Hg Hk). cbn [result_map]. f_equal.
  destruct p as [|z p].
  - cbn in Hg. by simplify_eq.
  - rewrite put_cons. f_equal. apply map_eq. intros j. destruct (decide (j = y)) as [->|]; [|by rewrite lookup_insert_ne, lookup_alter_ne].
    by rewrite lookup_insert_eq, lookup_alter_eq, Ey.
Qed.

(** ** Names in an archive *)

Definition name_char (c : ascii) : bool := negb (Ascii.eqb c "/"%char) && negb (Ascii.eqb c "000"%char) && negb (Ascii.eqb c "\"%char).

(** A name that is published: not hidden, and without the backslash an installing client
    takes for a separator. *)
Definition good_name (k : string) : Prop := k ≠ "" ∧ hidden_name k = false ∧ all_chars name_char k = true.

(** Every name is good. *)
Definition portable (t : Tree) : Prop := ∀ p x, get p t = Some x → Forall good_name p.

Lemma good_head k : good_name k → ∃ a r, k = String a r ∧ a ≠ "."%char ∧ a ≠ "/"%char.
Proof.
  intros (Hne & Hh & Hc). destruct k as [|a r]; [done|]. exists a, r. split; [done|]. split; intros ->; [by destruct r|done].
Qed.

Lemma good_not_dots k : good_name k → k ≠ "" ∧ k ≠ "." ∧ k ≠ "..".
Proof. intros (a & r & -> & Ha & _)%good_head. split_and!; [done| |]; intros [= -> _]; done. Qed.

Lemma clean_comps_kept rt cs st : Forall (λ x, x ≠ "" ∧ x ≠ "." ∧ x ≠ "..") cs → clean_comps rt cs st = rev st ++ cs.
Proof.
  revert st. induction cs as [|c cs IH]; intros st; cbn; [by rewrite app_nil_r|]. intros [(H1 & H2 & H3) Hcs]%Forall_cons.
  apply String.eqb_neq in H1, H2, H3. rewrite H1, H2, H3. cbn. rewrite IH by done. cbn. by rewrite <- app_assoc.
Qed.

Lemma map_str_id p f s : (∀ c, p c = true → f c = c) → all_chars p s = true → map_str f s = s.
Proof. intros Hf. induction s as [|c s IH]; cbn; [done|]. intros [Hc Hs]%andb_true_iff. by rewrite Hf, IH. Qed.

Section Names.
Context (cs : list string) (Hne : cs ≠ []) (Hg : Forall good_name cs).

Lemma good_split : Split (Join cs "/") "/"%char = cs.
Proof.
  apply Split_Join; [done|]. eapply Forall_impl; [exact Hg|]. intros k (_ & _ & Hk). eapply all_chars_impl; [|exact Hk].
  unfold name_char, not_slash. intros c. by rewrite !andb_true_iff; intros [[? _] _].
Qed.

Lemma good_join_head : ∃ a r, Join cs "/" = String a r ∧ a ≠ "."%char ∧ a ≠ "/"%char.
Proof.
  destruct cs as [|c l]; [done|]. apply Forall_cons in Hg as [(a & r & -> & Ha)%good_head _].
  destruct l as [|d l]; [by exists a, r|]. rewrite Join_cons. by exists a, (r +:+ "/" +:+ Join (d :: l) "/").
Qed.

Lemma good_trim : TrimPrefix (Join cs "/") "./" = Join cs "/".
Proof.
  destruct good_join_head as (a & r & -> & Ha & _). unfold TrimPrefix, HasPrefix. cbn [String.prefix]. destruct (ascii_dec "." a); [congruence|done].
Qed.

Lemma good_not_abs : IsAbs (Join cs "/") = false.
Proof.
  destruct good_join_head as (a & r & -> & _ & Ha). unfold IsAbs, HasPrefix. cbn [String.prefix]. destruct (ascii_dec "/" a); [congruence|done].
Qed.

Lemma good_clean : Clean (Join cs "/") = Join cs "/".
Proof.
  unfold Clean, components. rewrite good_not_abs, good_split, clean_comps_kept; [by destruct cs|].
  eapply Forall_impl; [exact Hg|]. apply good_not_dots.
Qed.

Lemma good_under tmp : under tmp (Join cs "/") = tmp ++ cs.
Proof.
  unfold under. rewrite good_split, clean_comps_kept, rev_involutive; [done|]. eapply Forall_impl; [exact Hg|]. apply good_not_dots.
Qed.

Lemma good_safe : safeRelPath (Join cs "/") = true.
Proof.
  unfold safeRelPath. rewrite good_not_abs.
  rewrite (map_str_id (λ c, negb (Ascii.eqb c "\"%char)) backslash_to_slash).
  - pose proof good_not_abs as Hab. unfold IsAbs in Hab. rewrite Hab.
    assert (Contains (Join cs "/") "/../" = false) as ->.
    { destruct (Contains _ _) eqn:E; [|done]. apply Contains_iff in E as (a & b & E). pose proof good_split as Hs. rewrite E in Hs.
      change ("/../" +:+ b) with (String "/"%char (".." +:+ String "/"%char b)) in Hs. rewrite !Split_app in Hs. cbn [Split Ascii.eqb] in Hs.
      assert (Hin : ".." ∈ cs) by (rewrite <- Hs; set_solver). rewrite Forall_forall in Hg. by apply Hg, good_not_dots in Hin as (_ & _ & []). }
    destruct good_join_head as (a & r & -> & Ha & _). unfold HasPrefix. cbn [String.prefix].
    assert (∀ y, (String a r =?s String "."%char y) = false) as Hd by (intros y; apply String.eqb_neq; congruence).
    rewrite !Hd. by destruct (ascii_dec "." a); [congruence|].
  - intros c Hc. unfold backslash_to_slash. by destruct (Ascii.eqb c _).
  - apply (all_chars_Split _ _ "/"%char); [done|]. rewrite good_split. eapply Forall_impl; [exact Hg|]. intros k (_ & _ & Hk).
    eapply all_chars_impl; [|exact Hk]. unfold name_char. intros c. by rewrite andb_true_iff; intros [_ ?].
Qed.
End Names.

(** ** Extracting what was packaged *)

Lemma hidden_snoc rel k : hidden (rel ++ [k]) = hidden_name k.
Proof. unfold hidden. by rewrite last_snoc. Qed.

Lemma snoc_not_nil {A} (l : list A) x : bool_decide (l ++ [x] = []) = false.
Proof. apply bool_decide_eq_false. intros []%app_nil; done. Qed.

Lemma extract_all_app tmp a b t t' : extract_all tmp a (healthy t) = (Ok tt, healthy t') → extract_all tmp (a ++ b) (healthy t) = extract_all tmp b (healthy t').
Proof.
  generalize (healthy t) as d. induction a as [|e a IH]; intros d; cbn [app extract_all]; [by intros [= ->]|].
  unfold db_bind. destruct (extract_one tmp e d) as [[u|x] d1]; [apply IH|done].
Qed.

(** What a directory holds when the entries of a list have been extracted into it. *)
Definition add_entry (m : gmap string Tree) (acc : gmap string Tree) (e : string * bool) : gmap string Tree :=
  if hidden_name e.1 then acc else match m !! e.1 with Some c => <[e.1 := received c]> acc | None => acc end.

Lemma add_entries_lookup m es acc k :
  foldl (add_entry m) acc es !! k = if bool_decide (k ∈ es.*1) && negb (hidden_name k) && bool_decide (is_Some (m !! k)) then received <$> m !! k else acc !! k.
Proof.
  revert acc. induction es as [|e es IH]; intros acc; [done|]. cbn [foldl fmap list_fmap]. rewrite IH. clear IH.
  destruct (decide (k = e.1)) as [->|Hk].
  - rewrite (bool_decide_eq_true_2 (e.1 ∈ e.1 :: es.*1)) by set_solver. unfold add_entry. destruct (hidden_name e.1); [by rewrite !andb_false_r|].
    destruct (m !! e.1) as [c|]; cbn; [|by rewrite !andb_false_r]. rewrite lookup_insert_eq. by destruct (bool_decide _).
  - assert (bool_decide (k ∈ e.1 :: es.*1) = bool_decide (k ∈ es.*1)) as -> by (apply bool_decide_ext; set_solver).
    unfold add_entry. destruct (hidden_name e.1); [done|]. destruct (m !! e.1); [|done]. by rewrite lookup_insert_ne.
Qed.

Lemma visible_lookup (f : Tree → Tree) (m : gmap string Tree) k : filter (λ kv : string * Tree, hidden_name kv.1 = false) (f <$> m) !! k = if hidden_name k then None else f <$> m !! k.
Proof.
  rewrite map_lookup_filter, lookup_fmap. destruct (m !! k) as [c|]; cbn; [|by destruct (hidden_name k)].
  destruct (hidden_name k) eqn:E; case_guard as Hg; try done; exfalso; first [apply Hg; exact E | change (hidden_name k = false) in Hg; rewrite E in Hg; discriminate Hg].
Qed.

Lemma add_entries_all m : foldl (add_entry m) ∅ (entries_of m) = filter (λ kv, hidden_name kv.1 = false) (received <$> m).
Proof.
  apply map_eq. intros k. rewrite add_entries_lookup, visible_lookup, lookup_empty. destruct (m !! k) as [c|] eqn:E.
  - rewrite bool_decide_eq_true_2; [by destruct (hidden_name k)|]. apply list_elem_of_fmap. exists (k, is_dir c). split; [done|].
    apply elem_of_entries. by exists c.
  - rewrite andb_false_r. by destruct (hidden_name k).
Qed.

Lemma entries_NoDup m : NoDup (entries_of m).*1.
Proof.
  unfold entries_of. rewrite (stable_sort_perm _ (map _ _)).
  assert ((map (λ '(k, t), (k, is_dir t)) (map_to_list m)).*1 = (map_to_list m).*1) as -> by (induction (map_to_list m) as [|[k c] l IH]; cbn; [done|by f_equal]).
  apply NoDup_fst_map_to_list.
Qed.

Lemma portable_child m k c : portable (visible (Dir m)) → m !! k = Some c → hidden_name k = false → good_name k ∧ portable (visible c).
Proof.
  intros Hp Hk Hh. assert (Hl : ∀ p, get (k :: p) (visible (Dir m)) = get p (visible c)) by (intros p; cbn; by rewrite visible_lookup, Hh, Hk).
  split.
  - assert (Hf : Forall good_name [k]) by (apply (Hp [k] (visible c)); by rewrite Hl). by apply Forall_cons in Hf as [? _].
  - intros p x Hx. assert (Hf : Forall good_name (k :: p)) by (apply (Hp (k :: p) x); by rewrite Hl). by apply Forall_cons in Hf as [_ ?].
Qed.

Section Extract.
Context (perm : list string → Z) (tmp : list string).

Lemma extract_dir s rel k acc : Forall good_name (rel ++ [k]) → get (tmp ++ rel) s = Some (Dir acc) → acc !! k = None →
  extract_one tmp (dir_entry perm (rel ++ [k])) (healthy s) = (Ok tt, healthy (put (tmp ++ rel) (Some (Dir (<[k := Dir ∅]> acc))) s)).
Proof.
  intros Hg Hd Hk. assert (Hne : rel ++ [k] ≠ []) by (by intros []%app_nil). unfold extract_one, dir_entry. cbn [eName eType].
  rewrite good_trim, good_clean, good_safe, good_under by done. cbn [negb]. rewrite app_assoc. unfold MkdirAll. rewrite exec_healthy, (mkdir_all_new _ _ _ _ Hd Hk). done.
Qed.

Lemma extract_file s rel k acc c : Forall good_name (rel ++ [k]) → get (tmp ++ rel) s = Some (Dir acc) → acc !! k = None →
  extract_one tmp (file_entry perm (rel ++ [k]) c) (healthy s) = (Ok tt, healthy (put (tmp ++ rel) (Some (Dir (<[k := File (first_5MiB c)]> acc))) s)).
Proof.
  intros Hg Hd Hk. assert (Hne : rel ++ [k] ≠ []) by (by intros []%app_nil). unfold extract_one, file_entry. cbn [eName eType].
  rewrite good_trim, good_clean, good_safe, good_under by done. cbn [negb]. rewrite app_assoc, parent_snoc.
  unfold db_bind, MkdirAll. rewrite exec_healthy, (mkdir_all_same _ _ _ Hd). cbn [result_map].
  unfold read_limited, first_5MiB. cbn [eContent eTruncated]. destruct (str_len c <? MaxArchiveSize)%Z; unfold WriteFile; rewrite exec_healthy; unfold write_file;
    rewrite (got_absent _ _ [] _ _ Hd Hk), parent_snoc, (proj2 (got_GDir _ _ _) Hd); cbn [result_map]; by rewrite (put_insert _ _ _ _ _ Hd).
Qed.

Lemma tree_entries_hidden n rel x l : hidden rel = true → tree_entries perm n rel x = Some l → l = [].
Proof. destruct n as [|n]; [done|]. cbn [tree_entries]. intros ->. destruct x; by intros [= <-]. Qed.

Definition extracts (n : nat) : Prop := ∀ rel k x l s acc, Forall good_name (rel ++ [k]) → portable (visible x) →
  tree_entries perm n (rel ++ [k]) x = Some l → get (tmp ++ rel) s = Some (Dir acc) → acc !! k = None →
  extract_all tmp l (healthy s) = (Ok tt, healthy (put (tmp ++ rel) (Some (Dir (<[k := received x]> acc))) s)).

Lemma extract_children n m rel : extracts n → Forall good_name rel → portable (visible (Dir m)) → ∀ es acc s ll,
  NoDup es.*1 → (∀ e, e ∈ es → acc !! e.1 = None) → get (tmp ++ rel) s = Some (Dir acc) →
  mapM (λ e, c ← m !! e.1; tree_entries perm n (rel ++ [e.1]) c) es = Some ll →
  extract_all tmp (concat ll) (healthy s) = (Ok tt, healthy (put (tmp ++ rel) (Some (Dir (foldl (add_entry m) acc es))) s)).
Proof.
  intros Hn Hr Hp. induction es as [|e es IH]; intros acc s ll Hnd Hf Hg; cbn [mapM].
  { intros [= <-]. cbn. by rewrite (put_same _ _ _ Hg). }
  cbn [fmap list_fmap] in Hnd. apply NoDup_cons in Hnd as [Hni Hnd].
  destruct (m !! e.1) as [c|] eqn:Hc; cbn [mbind option_bind]; [|done]. destruct (tree_entries perm n (rel ++ [e.1]) c) as [l1|] eqn:E1; [|done]. cbn [mbind option_bind].
  destruct (mapM _ es) as [ll'|] eqn:Ell; [|done]. intros [= <-]. cbn [concat foldl]. unfold add_entry at 2. rewrite Hc. destruct (hidden_name e.1) eqn:Eh.
  { rewrite (tree_entries_hidden _ _ _ _ ltac:(by rewrite hidden_snoc) E1). cbn [app]. apply IH; [done| |done|done]. intros e' He'. apply Hf. by right. }
  destruct (portable_child _ _ _ Hp Hc Eh) as [Hge Hpc].
  assert (H1 : extract_all tmp l1 (healthy s) = (Ok tt, healthy (put (tmp ++ rel) (Some (Dir (<[e.1 := received c]> acc))) s))).
  { eapply Hn; [apply Forall_app; split; [done|by constructor]|done|done|done|]. apply Hf. by left. }
  rewrite (extract_all_app _ _ _ _ _ H1).
  rewrite (IH (<[e.1 := received c]> acc) _ ll' Hnd); [by rewrite put_put| |by eapply get_put_eq|done].
  intros e' He'. rewrite lookup_insert_ne; [apply Hf; by right|]. intros E. apply Hni. rewrite E. by apply list_elem_of_fmap_2.
Qed.

Lemma extract_tree n : extracts n.
Proof.
  induction n as [|n IH]; intros rel k x l s acc Hg Hp; [done|]. cbn [tree_entries]. rewrite hidden_snoc, snoc_not_nil.
  assert (Hh : hidden_name k = false) by (apply Forall_app in Hg as [_ [(_ & ? & _) _]%Forall_cons]; done). rewrite Hh. destruct x as [c|m]; cbn [orb].
  - intros [= <-] Hd Hk. cbn [extract_all]. unfold db_bind. by rewrite (extract_file _ _ _ _ _ Hg Hd Hk).
  - destruct (mapM _ _) as [ll|] eqn:Ell; cbn [mbind option_bind]; [|done]. intros [= <-] Hd Hk. unfold header_of_dir. rewrite snoc_not_nil. cbn [app extract_all].
    unfold db_bind. rewrite (extract_dir _ _ _ _ Hg Hd Hk). set (s1 := put _ _ s).
    assert (H1 : get (tmp ++ rel) s1 = Some (Dir (<[k := Dir ∅]> acc))) by (by eapply get_put_eq).
    assert (H2 : get (tmp ++ rel ++ [k]) s1 = Some (Dir ∅)) by (rewrite app_assoc, get_app, H1; cbn; by rewrite lookup_insert_eq).
    rewrite (extract_children n m (rel ++ [k]) IH Hg Hp (entries_of m) ∅ s1 ll (entries_NoDup m) (λ e _, lookup_empty _) H2 Ell).
    rewrite add_entries_all, app_assoc, (put_insert _ _ _ _ _ H1). unfold s1. by rewrite put_put, insert_insert_eq.
Qed.
End Extract.

(** ** From one disk to another *)

(** What the tar writer is given: an entry that survives being written and read. *)
Definition packed (e : TarEntry) : Prop :=
  (∃ cs, cs ≠ [] ∧ Forall good_name cs ∧ eName e = Join cs "/") ∧ eType e ≠ TypeOther ∧ (eType e = TypeDir → eContent e = "") ∧
  (0 <= eMode e <= 511)%Z ∧ eTruncated e = false.

Lemma bind_attempt {T A B} (m : DBM T A) (k : result A → DBM T B) d : db_bind (attempt m) k d = k (m d).1 (m d).2.
Proof. unfold db_bind. by rewrite attempt_run. Qed.

Lemma bind_healthy {T A B} (f : T → result (A * T)) (k : A → DBM T B) t :
  db_bind (exec f) k (healthy t) = match f t with Ok (a, t') => k a (healthy t') | Err e => (Err e, healthy t) end.
Proof. unfold db_bind. rewrite exec_healthy. by destruct (f t) as [[a t']|e]. Qed.

Section RoundTrip.
Context `{Hashing} `{Formats} (perm : list string → Z) (write_tar : list TarEntry → string).
(** [archive/tar] and [compress/gzip] read back what they wrote, and permissions are nine bits. *)
Context (Htar : ∀ es, Forall packed es → read_tar (write_tar es) = Some (es, false)) (Hperm : ∀ p, (0 <= perm p <= 511)%Z).

Lemma tree_entries_packed n : ∀ rel x l, Forall good_name rel → portable (visible x) → tree_entries perm n rel x = Some l → Forall packed l.
Proof.
  induction n as [|n IH]; intros rel x l Hr Hp; [done|]. cbn [tree_entries]. destruct x as [c|m].
  { destruct (hidden rel); [by intros [= <-]|]. case_bool_decide; [by intros [= <-]|]. intros [= <-]. repeat constructor; try apply Hperm; try done. by exists rel. }
  destruct (hidden rel); [by intros [= <-]|]. destruct (mapM _ _) as [ll|] eqn:Ell; cbn [mbind option_bind]; [|done]. intros [= <-]. apply Forall_app. split.
  { unfold header_of_dir. case_bool_decide; [done|]. repeat constructor; try apply Hperm; try done. by exists rel. }
  apply mapM_Some in Ell. apply Forall_concat. eapply Forall2_Forall_r; [exact Ell|]. apply Forall_forall. intros e (c & Hc & _)%elem_of_entries l Hl.
  rewrite Hc in Hl. cbn [mbind option_bind] in Hl. destruct (hidden_name e.1) eqn:Eh.
  - rewrite (tree_entries_hidden _ _ _ _ _ ltac:(by rewrite hidden_snoc) Hl). constructor.
  - destruct (portable_child _ _ _ Hp Hc Eh) as [Hg Hpc]. eapply IH; [|exact Hpc|exact Hl]. apply Forall_app. split; [done|by constructor].
Qed.

Section Packaging.
Context (src : list string) (s0 : Tree) (m : gmap string Tree) (md : string) (l : list TarEntry).
Context (Hsrc : get src s0 = Some (Dir m)) (Hmd : m !! "SKILL.md" = Some (File md)) (Hslug : parseFrontmatterName md ≠ "").
Context (Hl : tree_entries perm (S (depth (Dir m))) [] (Dir m) = Some l).

Lemma skill_md_there : get (src ++ ["SKILL.md"]) s0 = Some (File md).
Proof. rewrite get_app, Hsrc. cbn. by rewrite Hmd. Qed.

(** A packaging that does not fail gives the one archive there is ... *)
Lemma PackageSkill_spec : spec (λ t, t = s0) (PackageSkill perm write_tar src) (λ a t, a = (write_tar l, parseFrontmatterName md) ∧ t = s0) (λ _, True).
Proof.
  unfold PackageSkill. eapply spec_bind; [by apply Stat_spec|]. intros b. apply spec_fact. intros ->. cbn [is_dir negb].
  eapply spec_bind; [apply ReadFile_spec, skill_md_there|]. intros b. apply spec_fact. intros ->.
  cbv zeta. apply String.eqb_neq in Hslug. rewrite Hslug.
  eapply spec_bind; [by apply Stat_spec|]. intros b. apply spec_fact. intros ->.
  eapply (spec_bind _ _ _ (λ l' t, tree_entries perm (S (depth (Dir m))) [] (Dir m) = Some l' ∧ t = s0)).
  - intros d1 Hd1. unfold walk_fuel. rewrite Hd1, Hsrc. change (default (Dir ∅) (Some (Dir m))) with (Dir m).
    refine (walk_entries perm _ src [] s0 (Dir m) _ d1 Hd1). by rewrite app_nil_r.
  - intros l'. apply spec_fact. rewrite Hl. intros [= <-]. by apply spec_ret.
Qed.

(** ... and where nothing fails it does not. *)
Lemma PackageSkill_healthy : PackageSkill perm write_tar src (healthy s0) = (Ok (write_tar l, parseFrontmatterName md), healthy s0).
Proof.
  unfold PackageSkill, Stat, ReadFile. rewrite bind_healthy, (get_Some_got _ _ _ Hsrc). cbn [negb].
  rewrite bind_healthy, (get_Some_got _ _ _ skill_md_there). cbv zeta. apply String.eqb_neq in Hslug. rewrite Hslug.
  rewrite bind_healthy, (get_Some_got _ _ _ Hsrc). unfold db_bind, walk_fuel. cbn [healthy tables]. rewrite Hsrc.
  change (default (Dir ∅) (Some (Dir m))) with (Dir m).
  rewrite (walk_healthy perm _ src [] s0 (Dir m) l ltac:(by rewrite app_nil_r) Hl : walk perm _ src [] true _ = _). done.
Qed.
End Packaging.

Context (dir : list string) (baseURL : string) (download : string → string → result (string * string)) (random : string → string).

(** An archive made of a directory unpacks to what is visible in it, files cut off at 5 MiB. *)
Lemma extract_archive m l tmp s : tree_entries perm (S (depth (Dir m))) [] (Dir m) = Some l → portable (visible (Dir m)) → get tmp s = Some (Dir ∅) →
  extractTarGz (write_tar l) tmp (healthy s) = (Ok tt, healthy (put tmp (Some (received (Dir m))) s)).
Proof.
  intros Hl Hp Hg. unfold extractTarGz. rewrite Htar by (by eapply tree_entries_packed). cbn [tree_entries hidden last] in Hl.
  destruct (mapM _ _) as [ll|] eqn:Ell; cbn [mbind option_bind] in Hl; [|done]. injection Hl as <-.
  pose proof (extract_children perm tmp _ m [] (extract_tree perm tmp _) (Forall_nil_2 _) Hp (entries_of m) ∅ s ll (entries_NoDup m) (λ e _, lookup_empty _)
    ltac:(by rewrite app_nil_r) Ell) as He. rewrite app_nil_r, add_entries_all in He.
  unfold db_bind. change (header_of_dir perm [] ++ concat ll) with (concat ll). by rewrite He.
Qed.

Lemma put_over p k x y t m : get p t = Some (Dir m) → put (p ++ [k]) (Some y) (put p (Some (Dir (<[k := x]> m))) t) = put p (Some (Dir (<[k := y]> m))) t.
Proof. intros Hg. rewrite (put_insert _ _ _ _ _ (get_put_eq _ _ _ _ Hg)), put_put. by rewrite insert_insert_eq. Qed.

Lemma get_entry p k x t m : get p t = Some (Dir m) → m !! k = Some x → get (p ++ [k]) t = Some x.
Proof. intros Hg Hk. rewrite get_app, Hg. cbn. by rewrite Hk. Qed.

Lemma rename_entry p a b x t m : get p t = Some (Dir m) → m !! a = None → m !! b = None → a ≠ b →
  rename (p ++ [a]) (p ++ [b]) (put p (Some (Dir (<[a := x]> m))) t) = Ok (put p (Some (Dir (<[b := x]> m))) t).
Proof.
  intros Hg Ha Hb Hab. pose proof (get_put_eq _ _ (Dir (<[a := x]> m)) _ Hg) as H1. unfold rename.
  rewrite (get_entry _ _ x _ _ H1) by apply lookup_insert_eq. rewrite parent_snoc, (proj2 (got_GDir _ _ _) H1).
  rewrite bool_decide_eq_false_2 by (intros []%app_inj_2; [congruence|done]).
  destruct (sibling0 p a b Hab) as [Hp1 Hp2]. rewrite !bool_decide_eq_false_2 by done. cbn [orb].
  assert (get (p ++ [b]) (put p (Some (Dir (<[a := x]> m))) t) = None) as -> by (rewrite get_app, H1; cbn; by rewrite lookup_insert_ne, Hb).
  assert (put (p ++ [b]) (Some x) (put (p ++ [a]) None (put p (Some (Dir (<[a := x]> m))) t)) = put p (Some (Dir (<[b := x]> m))) t) as <-; [|by destruct x].
  rewrite (put_delete _ _ _ _ H1), put_put, delete_insert_id, (put_same _ _ _ Hg) by done. by apply put_insert.
Qed.

(** Installing onto a disk that has neither the skill nor the temporary directory. *)
Lemma Install_fresh m l slug version sha s acc v :
  tree_entries perm (S (depth (Dir m))) [] (Dir m) = Some l → received (Dir m) = Dir v → portable (visible (Dir m)) → ValidateSlug slug = Ok tt →
  accept download slug version = Ok (write_tar l, sha) → get dir s = Some (Dir acc) → acc !! slug = None → acc !! tmp_name random slug = None →
  let mk := mkMarker slug version sha baseURL in
  Install dir baseURL download random slug version (healthy s) =
    (Ok mk, healthy (put dir (Some (Dir (<[slug := Dir (<[SkillMarkerFile := File (marker_text mk)]> v)]> acc))) s)).
Proof.
  intros Hl Hv Hp Hs Ha Hd Hn Ht mk. unfold Install. rewrite (under_slug _ _ Hs). cbv zeta.
  assert (Hr : readMarker (dir ++ [slug]) (healthy s) = (Err ENOENT, healthy s)).
  { unfold readMarker, ReadFile, Stat. rewrite bind_attempt, exec_healthy, <- app_assoc. cbn [app]. rewrite (got_absent _ _ _ _ _ Hd Hn). cbn [fst snd].
    change (IsNotExist ENOENT) with true. cbv iota. by rewrite bind_attempt, exec_healthy, (got_absent _ _ [] _ _ Hd Hn). }
  rewrite bind_attempt, Hr. cbn [fst snd existing_of]. change (IsNotExist ENOENT) with true. cbv iota. unfold Stat. rewrite bind_attempt.
  rewrite exec_healthy, (got_absent _ _ [] _ _ Hd Hn). cbn [fst snd is_ok andb]. rewrite Ha.
  unfold unpack, MkdirAll. rewrite bind_healthy, (mkdir_all_same _ _ _ Hd). cbn [result_map].
  unfold MkdirTemp. rewrite bind_healthy, (proj2 (got_GDir _ _ _) Hd). rewrite bool_decide_eq_false_2 by (rewrite Ht; by intros []).
  rewrite (put_insert _ _ _ _ _ Hd). cbv zeta. set (tn := tmp_name random slug). set (s1 := put dir _ s). rewrite bind_attempt.
  assert (Hrun : (extractTarGz (write_tar l) (dir ++ [tn]) ;;; writeMarker (dir ++ [tn]) mk ;;; swap (dir ++ [tn]) (dir ++ [slug]) false) (healthy s1)
    = (Ok tt, healthy (put dir (Some (Dir (<[slug := Dir (<[SkillMarkerFile := File (marker_text mk)]> v)]> acc))) s))).
  { assert (H1 : get (dir ++ [tn]) s1 = Some (Dir ∅)) by (eapply get_entry; [by eapply get_put_eq|apply lookup_insert_eq]).
    unfold db_bind at 1. rewrite (extract_archive m l _ _ Hl) by done. rewrite Hv. unfold s1. rewrite (put_over _ _ _ _ _ _ Hd). set (s2 := put dir _ s).
    assert (H2 : get (dir ++ [tn]) s2 = Some (Dir v)) by (eapply get_entry; [by eapply get_put_eq|apply lookup_insert_eq]).
    assert (Hvm : v !! SkillMarkerFile = None) by (injection Hv as <-; by rewrite visible_lookup).
    unfold db_bind, writeMarker, WriteFile. rewrite exec_healthy. unfold write_file. rewrite parent_snoc, (proj2 (got_GDir _ _ _) H2), (got_absent _ _ [] _ _ H2 Hvm). cbn [result_map].
    rewrite (put_insert _ _ _ _ _ H2). unfold s2. rewrite (put_over _ _ _ _ _ _ Hd). unfold swap, Rename. rewrite exec_healthy.
    rewrite (rename_entry _ _ _ _ _ _ Hd Ht Hn) by (by apply slug_not_tmp). done. }
  rewrite bool_decide_eq_false_2 by (by intros []). rewrite (under_slug _ _ Hs). fold mk. by rewrite Hrun.
Qed.

End RoundTrip.

(** ** The circle closes *)

(** C22: for a directory with a SKILL.md that names a valid slug and visible names without backslash or NUL: on a disk
    where nothing fails packaging succeeds; whichever calls fail, a packaging that succeeds gives that same archive; and when the
    client accepts that archive from the relay (its cap of 5 MiB and its checksum), an install onto a disk where nothing fails and
    neither the skill nor the temporary directory is there puts exactly the visible part of the directory, each file cut off at 5 MiB,
    with a marker, under the slug, and leaves the rest of the disk and the packaged directory as they were. *)
Theorem pushed_skill_installs `{Hashing} `{Formats} perm write_tar src s0 m md v slug :
  (∀ es, Forall packed es → read_tar (write_tar es) = Some (es, false)) → (∀ p, (0 <= perm p <= 511)%Z) →
  get src s0 = Some (Dir m) → m !! "SKILL.md" = Some (File md) → parseFrontmatterName md = slug → ValidateSlug slug = Ok tt →
  portable (visible (Dir m)) → received (Dir m) = Dir v →
  ∃ archive,
    PackageSkill perm write_tar src (healthy s0) = (Ok (archive, slug), healthy s0) ∧
    (∀ d a d', tables d = s0 → PackageSkill perm write_tar src d = (Ok a, d') → a = (archive, slug) ∧ tables d' = s0) ∧
    ∀ dir baseURL download random version sha s acc,
      accept download slug version = Ok (archive, sha) →
      get dir s = Some (Dir acc) → acc !! slug = None → acc !! tmp_name random slug = None →
      let mk := mkMarker slug version sha baseURL in
      Install dir baseURL download random slug version (healthy s) =
        (Ok mk, healthy (put dir (Some (Dir (<[slug := Dir (<[SkillMarkerFile := File (marker_text mk)]> v)]> acc))) s)).
Proof.
  intros Htar Hperm Hsrc Hmd Hn Hs Hp Hv. assert (Hne : parseFrontmatterName md ≠ "") by (rewrite Hn; by intros ->).
  destruct (tree_entries_total perm (S (depth (Dir m))) [] (Dir m)) as [l Hl]; [lia|]. exists (write_tar l). subst slug. split_and!.
  - by eapply PackageSkill_healthy.
  - intros d a d' Hd Hrun. pose proof (PackageSkill_spec perm write_tar src s0 m md l Hsrc Hmd Hne Hl d Hd) as Hspec. by rewrite Hrun in Hspec.
  - intros. by eapply Install_fresh.
Qed.

(** ** What a push asks for as upstream *)

(** The sidecar and the flags decide together. *)
Definition asked_upstream (toml_upstream : string → option Upstream) (sidecar : Got) (url subpath ref : string) : option (option Upstream) :=
  match sidecar with
  | GNoEnt => Some (if (url =?s "") && (subpath =?s "") && (ref =?s "") then None else Some (mkUp "git" url subpath ref))
  | GFile b =>
      u ← toml_upstream b;
      if upURL u =?s "" then None
      else Some (Some (mkUp (if upType u =?s "" then "git" else upType u) (override (upURL u) url) (override (upSubpath u) subpath) (override (upRef u) ref)))
  | _ => None
  end.

Lemma asked_type toml_upstream sc url subpath ref a : asked_upstream toml_upstream sc url subpath ref = Some (Some a) → upType a ≠ "".
Proof.
  unfold asked_upstream. destruct sc as [b| | |]; try done.
  - destruct (toml_upstream b) as [x|]; cbn [mbind option_bind]; [|done]. case_if; [done|]. intros [= <-]. cbn [upType]. case_if; [done|by apply String.eqb_neq].
  - case_if; [done|]. by intros [= <-].
Qed.

Lemma override_empty s : override "" s = s.
Proof. by destruct s. Qed.

Lemma LoadAndMerge_asked toml_upstream dir url subpath ref d u d' : LoadAndMerge toml_upstream dir url subpath ref false d = (Ok u, d') →
  asked_upstream toml_upstream (got (dir ++ [".arc-sync"; "upstream.toml"]) (tables d)) url subpath ref = Some u.
Proof.
  unfold LoadAndMerge, LoadUpstream, ReadFile. unfold db_bind at 1. rewrite bind_attempt. unfold exec. destruct (next_fault (faults d)) as [[] fs]; [done|].
  unfold asked_upstream. destruct (got _ _) as [b| | |]; cbn [fst snd]; try done.
  - destruct (toml_upstream b) as [x|]; cbn [mbind option_bind]; [|done]. destruct (upURL x =?s ""); [done|]. by intros [= <- _].
  - change (IsNotExist ENOENT) with true. cbn -[String.eqb]. rewrite !override_empty. destruct (_ && (ref =?s "")); by intros [= <- _].
Qed.

(** What the relay does about the upstream of a skill that is pushed is what the flags and the sidecar ask for: it clears it for
    [--no-upstream] and leaves it alone when there is neither; otherwise it records the sidecar's values under the flags', unless there is no
    address or the sidecar names another type than git, which changes nothing and is not reported. *)
Theorem push_upstream_honoured `{Formats} toml_upstream dir url subpath ref no d u d' :
  LoadAndMerge toml_upstream dir url subpath ref no d = (Ok u, d') →
  (if no then u = Some (mkUp "" "" "" "")
   else asked_upstream toml_upstream (got (dir ++ [".arc-sync"; "upstream.toml"]) (tables d)) url subpath ref = Some u) ∧
  ∀ now r id next, rHeader r = <["Content-Type" := "application/gzip"]> (upstream_headers (ToWire u)) →
    upload_upstream now r id next =
    match u with
    | None => next false
    | Some a =>
        if no then logged (Skills.ClearUpstream id) (λ _, next false)
        else if (upURL a !=? "") && (upType a =?s "git")
        then logged (UpsertUpstream now (mkUpstream id "git" (upURL a) (upSubpath a) (upRef a) None None None None 0 0)) (λ res, next (is_ok res))
        else next false
    end.
Proof.
  intros Hrun. destruct no.
  { unfold LoadAndMerge in Hrun. injection Hrun as <- _. split; [done|]. intros now r id next Hr. unfold upload_upstream, HeaderGet. by rewrite Hr. }
  apply LoadAndMerge_asked in Hrun as Ha. split; [exact Ha|]. intros now r id next Hr. unfold upload_upstream, HeaderGet. rewrite Hr.
  rewrite !lookup_insert_ne by done. destruct u as [a|]; [|done]. apply asked_type in Ha. cbn [ToWire fmap option_fmap option_map upstream_headers umType umURL].
  apply String.eqb_neq in Ha. rewrite Ha. cbn [andb]. rewrite lookup_singleton_ne, lookup_singleton_eq by done. cbn [from_option]. change (Datatypes.id (Marshal (meta_json (mkMeta (upType a) (upURL a) (upSubpath a) (upRef a))))) with (Marshal (meta_json (mkMeta (upType a) (upURL a) (upSubpath a) (upRef a)))).
  change (EqualFold "" "true") with false. cbv iota. rewrite header_upstream_meta. cbn [umType umURL umSubpath umRef]. rewrite Ha. cbn [orb].
  destruct (upURL a !=? ""); [|done]. destruct (upType a =?s "git") eqn:Et; [|done]. apply String.eqb_eq in Et. by rewrite Et.
Qed.

(** The comment of [LoadAndMerge] says that a subpath or a reference without an address does not seed an upstream; it does, and the
    relay ignores it. *)
Lemma flags_without_url_seed toml_upstream dir subpath s : got (dir ++ [".arc-sync"; "upstream.toml"]) s = GNoEnt → subpath ≠ "" →
  LoadAndMerge toml_upstream dir "" subpath "" false (healthy s) = (Ok (Some (mkUp "git" "" subpath "")), healthy s).
Proof.
  intros Hg Hs. unfold LoadAndMerge, LoadUpstream, ReadFile. unfold db_bind at 1. rewrite bind_attempt, exec_healthy, Hg. cbn [fst snd].
  change (IsNotExist ENOENT) with true. cbn -[String.eqb]. apply String.eqb_neq in Hs. rewrite Hs, andb_false_r. cbn -[String.eqb]. by rewrite !override_empty.
Qed.

(** A key of a nested table is taken for the name of the skill, and so is a comment after it. *)
Example nested_name_taken : parseFrontmatterName ("---" +:+ nl +:+ "author:" +:+ nl +:+ "  name: bob" +:+ nl +:+ "name: pdf" +:+ nl +:+ "---" +:+ nl) = "bob".
Proof. reflexivity. Qed.

Example comment_taken : parseFrontmatterName ("---" +:+ nl +:+ "name: pdf # tools" +:+ nl +:+ "---" +:+ nl) = "pdf # tools".
Proof. reflexivity. Qed.

(** A file is cut off at 5 MiB when it is installed, and the install succeeds. *)
Lemma large_file_cut c : (MaxArchiveSize <= str_len c)%Z → received (File c) = File (take_str (Z.to_nat MaxArchiveSize) c).
Proof. intros Hc%Z.ltb_ge. cbn. unfold first_5MiB. by rewrite Hc. Qed.

(** Nothing else is lost: where every file is smaller, what is received is what is visible. *)
Lemma small_files_whole n : ∀ t, depth t < n → (∀ p c, get p (visible t) = Some (File c) → (str_len c < MaxArchiveSize)%Z) → received t = visible t.
Proof.
  induction n as [|n IH]; intros [c|m] Hn Hs; try lia; cbn [received visible].
  - pose proof (Hs [] c eq_refl) as Hc%Z.ltb_lt. unfold first_5MiB. by rewrite Hc.
  - f_equal. apply map_eq. intros k. rewrite !visible_lookup. destruct (hidden_name k) eqn:Eh; [done|].
    destruct (m !! k) as [c|] eqn:Ek; [|done]. cbn. f_equal. apply IH; [pose proof (depth_child _ _ _ Ek); lia|].
    intros p x Hx. apply (Hs (k :: p)). cbn. by rewrite visible_lookup, Eh, Ek.
Qed.

(** ** A concrete run *)

(** A format of archives that can be read back: the entries as a number in binary. *)
#[local] Instance type_flag_dec : EqDecision TypeFlag.
Proof. solve_decision. Defined.

#[local] Instance type_flag_countable : Countable TypeFlag :=
  inj_countable' (λ f, match f with TypeReg => 0 | TypeDir => 1 | TypeOther => 2 end) (λ n, match n with 0 => TypeReg | 1 => TypeDir | _ => TypeOther end)
    ltac:(by intros []).

#[local] Instance tar_entry_dec : EqDecision TarEntry.
Proof. solve_decision. Defined.

#[local] Instance tar_entry_countable : Countable TarEntry :=
  inj_countable' (λ e, (eName e, eType e, eMode e, eContent e, eTruncated e)) (λ '(n, t, m, c, b), mkEntry n t m c b) ltac:(by intros []).

Fixpoint bits (p : positive) : string :=
  match p with xH => "" | xO p => String "0"%char (bits p) | xI p => String "1"%char (bits p) end.

Fixpoint unbits (s : string) : positive :=
  match s with EmptyString => xH | String c r => if Ascii.eqb c "0"%char then xO (unbits r) else xI (unbits r) end.

Lemma unbits_bits p : unbits (bits p) = p.
Proof. induction p as [p IH|p IH|]; cbn; [by rewrite IH|by rewrite IH|done]. Qed.

Definition toy_write (es : list TarEntry) : string := bits (encode es).

#[local] Instance toy_archives : Formats := {|
  read_tar s := es ← decode (unbits s); Some (es, false);
  yval := unit; yaml_map _ := None; y_string _ := None; y_json _ := None |}.

Lemma toy_reads es : read_tar (toy_write es) = Some (es, false).
Proof. cbn. unfold toy_write. by rewrite unbits_bits, decode_encode. Qed.

Definition demo_md : string := "---" +:+ nl +:+ "name: pdf" +:+ nl +:+ "---" +:+ nl.

Definition demo_skill : gmap string Tree :=
  {["SKILL.md" := File demo_md; ".arc-sync" := Dir {["upstream.toml" := File "x"]}; "ref" := Dir {["a.txt" := File "hi"]}]}.

Definition demo_source : Tree := Dir {["work" := Dir demo_skill]}.

Definition demo_published : gmap string Tree := {["SKILL.md" := File demo_md; "ref" := Dir {["a.txt" := File "hi"]}]}.

Definition demo_client : Tree := Dir {["skills" := Dir ∅]}.

Lemma portable_file c : portable (File c).
Proof. intros [|y p] x; [intros [= <-]; constructor|done]. Qed.

Lemma portable_dir m : map_Forall (λ k c, good_name k ∧ portable c) m → portable (Dir m).
Proof.
  intros Hm [|y p] x; [constructor|]. cbn. destruct (m !! y) as [c|] eqn:E; [|done]. cbn. intros Hx. destruct (Hm _ _ E) as [Hg Hp].
  constructor; [done|]. by eapply Hp.
Qed.

Lemma demo_portable : portable (visible (Dir demo_skill)).
Proof.
  assert (visible (Dir demo_skill) = Dir demo_published) as -> by (vm_compute; reflexivity).
  apply portable_dir, map_Forall_insert_2; [split; [done|by apply portable_file]|]. apply map_Forall_singleton. split; [done|].
  apply portable_dir, map_Forall_singleton. split; [done|by apply portable_file].
Qed.

Lemma pushed_skill_installs_witness :
  ∃ archive,
    (PackageSkill (λ _, 420%Z) toy_write ["work"] (healthy demo_source)).1 = Ok (archive, "pdf") ∧
    let mk := mkMarker "pdf" "1.0.0" "" "http://relay" in
    (Install (H:=toy_hashing) ["skills"] "http://relay" (λ _ _, Ok (archive, "")) (λ _, "1") "pdf" "1.0.0" (healthy demo_client)) =
      (Ok mk, healthy (Dir {["skills" := Dir {["pdf" := Dir (<[SkillMarkerFile := File (marker_text mk)]> demo_published)]}]})).
Proof.
  destruct (pushed_skill_installs (H:=toy_hashing) (λ _, 420%Z) toy_write ["work"] demo_source demo_skill demo_md demo_published "pdf")
    as (archive & Hp & _ & Hi).
  - intros es _. apply toy_reads.
  - intros _. done.
  - reflexivity.
  - reflexivity.
  - reflexivity.
  - vm_compute. reflexivity.
  - exact demo_portable.
  - vm_compute. reflexivity.
  - exists archive. rewrite Hp. split; [reflexivity|]. cbv zeta. rewrite (Hi ["skills"] "http://relay" (λ _ _, Ok (archive, "")) (λ _, "1") "1.0.0" "" demo_client ∅).
    + reflexivity.
    + vm_compute in Hp. injection Hp as <-. vm_compute. reflexivity.
    + reflexivity.
    + reflexivity.
    + reflexivity.
Defined.

Definition demo_toml (b : string) : option Upstream := Some (mkUp "" "https://example.com/r.git" "" "").

Lemma push_upstream_honoured_witness :
  ∀ now r id next, rHeader r = <["Content-Type" := "application/gzip"]> (upstream_headers (Some (mkMeta "git" "https://example.com/r.git" "pdf" ""))) →
    upload_upstream now r id next =
    logged (UpsertUpstream now (mkUpstream id "git" "https://example.com/r.git" "pdf" "" None None None None 0 0)) (λ res, next (is_ok res)).
Proof.
  exact (proj2 (push_upstream_honoured demo_toml ["work"] "" "pdf" "" false (healthy demo_source)
    (Some (mkUp "git" "https://example.com/r.git" "pdf" "")) (healthy demo_source) eq_refl)).
Defined.
